(* ===== verification/_CoqProject ===== *)
-Q . S2P
Prelude.v
Float64.v
GoTime.v
GoStrings.v
GoPath.v
ScopeGlob.v
ScopeClass.v
ScopePolicy.v
Gonkcfg.v
Opercfg.v
Budget.v
Atags.v
Spend.v
RungOutcome.v
MeterStore.v
Rung.v
MeterService.v
MeterLoops.v
Gate.v
Pipefix.v
CiDelta.v
PipefixJudge.v
ChangeJudge.v
ChangeEligible.v
MergePolicy.v
GoUTF8.v
DiffMap.v
LineDiff.v
Effects.v
FixGate.v
CiValue.v
CiEffective.v
CiCompare.v
FixFacts.v
Sha256.v
Webhook.v
Trajectory.v
Weaken.v
FixIdentity.v
WorkStore.v
GateProgs.v
SessionName.v
RetryFeedback.v
DispatchArgs.v
Dispatch.v
DispatchWatch.v
DispatchRace.v
DispatchRun.v
Explain.v
StatusNote.v
BrokerApply.v
Sweep.v
SweepWatch.v
SweepRun.v
