(* ===== verification/Prelude.v ===== *)
(** * gonk: a verification library

    gonk is a software factory for GitLab, written in Go: webhooks and sweeps
    turn issues, comments and pipelines into work items (beads), a meter
    decides whether a session may be spawned for one and on which model, and a
    gate checks what the session produced before anything is written back. The
    library models the parts of the program that decide: what a project's
    configuration adds up to, what a session may touch, what it may spend,
    whether it runs, what became of what it wrote and whether that may merge.
    Most are pure functions of their inputs in the source, and they are Gallina
    functions here, translated line by line and executable; the meter threads
    its store, and other replicas that write it are steps between its own.

    ** The parts and how they meet

    - [pkg/gonkcfg] folds three layers of configuration (instance, group,
      project) into one effective policy; [pkg/opercfg] holds the operator's
      layers and the catalog of rungs, and folds nested groups into the one
      group layer;
    - [pkg/scope] classifies paths and folds the same three layers into the
      scope of one workflow: which classes of path may be written, under which
      caps, with which lifts;
    - [pkg/spend] reads the spend log (rows tagged by [pkg/atags]) into totals
      per calendar month and per bead; [pkg/budget] sets ceilings against them;
    - [pkg/rung] takes all of it, with a bead's history, and answers run, wait
      or refuse;
    - [internal/meter/service] asks it with what [internal/meter/store] holds,
      reserves what a run may spend, mints its tags, and takes its outcome back
      into the history; its loops poll the spend log and give up dead sessions;
    - [pkg/pipefix] says whether a failed pipeline may be given to a session,
      and judges from GitLab's facts what the session's commit did to it; the
      verdict's outcome ([pkg/gate]) is what the meter records;
    - [pkg/ghook] is the door: a webhook delivery is verified, read and handed
      on once;
    - [pkg/effects] reads the batch of effects a session proposes and refuses
      what the session may not do; a fix's edits are applied, measured,
      classified and, by [pkg/weaken], searched for weakened tests;
      [pkg/diffmap] says which lines of a diff a review may cite; [pkg/trace]
      says whether what the session was seen to do rejects it;
    - [pkg/cidef] reads two CI definitions and says what a commit changed of
      them; [pkg/changejudge] does for a change of an issue what [pkg/pipefix]
      does for a fix; [cmd/gonk-gate] fetches the facts both decide on;
    - [pkg/pipelinectx] names a run and its fix and finds their markers again;
    - [cmd/gonk-gate] is where sessions begin and end: a dispatch asks the meter,
      reserves the item's record in [pkg/beadstore] and starts a session of
      [pkg/runtime]; the sweep finds that it has ended, applies its batch to
      GitLab, reports what became of it to the meter, and runs the order of the
      dispatch again;
    - [pkg/mergepolicy] takes the verdict, the scope of the diff and the
      configuration, and answers whether the merge request may be merged.

    ** Files

    - [Prelude]: automation, Go's error results, 64-bit integers, the order of
      map iteration as an interface ([MapRange]).
    - [Float64], [GoTime], [GoStrings], [GoPath]: the parts of the language and
      its standard library the program uses. A [float64] is the Standard
      Library's binary floating point at 53 bits; an instant is a number of
      nanoseconds since year 1, a duration an int64; strings are byte strings.
    - [ScopeGlob] (pkg/scope/glob.go): the pattern language. [ScopeClass]
      (class.go, profile.go): classes, the reclassification lattice, the
      profile menu and the compiled table. [ScopePolicy] (policy.go, fold.go,
      classify.go): policies, folding, lifts and the classifier.
    - [Gonkcfg] (pkg/gonkcfg): token quantities, the pipeline-fix, change and
      review sections with their checks, folds and resolutions, and [Resolve].
    - [Opercfg] (pkg/opercfg, and MaxBudgetFor of internal/meter/litellm):
      rungs, the checks of Load, nested groups, ladder order.
    - [Atags], [Spend], [Budget] (pkg/atags, pkg/spend, pkg/budget).
    - [RungOutcome], [Rung] (pkg/rung): histories, quiet hours, and [Decide].
    - [MeterStore] (internal/meter/store): registrations, reservations, histories,
      spend rows, prompts and traces, one operation per method of the memory
      store, and the months of a project ([Month], [live_step]): what is spent
      and reserved as calls, sessions, late reports and the clock go on.
      [MeterService] (internal/meter/service): decisions, outcomes and reports
      over any [Store], each of whose calls may fail; [Decide_racing] is a
      decision during which other replicas write between its read and its
      reservation; [Flaky] is a store that fails as it will. [MeterLoops]: one
      pass of its janitor and of its spend poll.
    - [Gate] (pkg/gate): what an attempt is reported as.
    - [Pipefix] (eligible.go, target.go, outcome.go of
      pkg/pipefix): eligibility, the target set, verdicts and outcomes.
      [PipefixJudge] (judge.go, confirm.go): the exit check J0-J5 and the
      confirmation on the target.
      [FixFacts] (cmd/gonk-gate/pipefix_facts.go): the facts it is asked with,
      from what GitLab answers.
    - [ChangeEligible], [ChangeJudge] (pkg/changejudge): the same for changes.
    - [CiDelta], [CiValue], [CiEffective], [CiCompare] (pkg/cidef): the types of
      a comparison, values of a document, effective jobs, the comparison.
    - [GoUTF8], [DiffMap] (pkg/diffmap): runes; the parser of unified diffs, the
      line map, lookups.
    - [LineDiff] (pkg/effects/edit.go: Myers' algorithm on arrays of fixed
      length, where an index outside is a panic; their int32 entries are
      integers), [Effects] (the batch and its gates), [FixGate] (edits and the
      gate of a fix).
    - [Sha256], [Webhook] (pkg/ghook), [Trajectory] (pkg/trace and
      broker_trajectory.go), [Weaken] (pkg/weaken and broker_pipefix_gates.go),
      [FixIdentity] (pkg/pipelinectx: anchors, fingerprints, markers, epochs).
    - [MergePolicy] (pkg/mergepolicy): the eleven rows, the prose predicate, the
      rate cap.
    - [WorkStore] (pkg/beadstore: store.go, fixcontext.go, memory.go): the work
      records, the rule of conditional writes, the memory store.
    - [SessionName] (name.go of pkg/runtime): the name of a session's attempt.
    - cmd/gonk-gate. [GateProgs]: its programs as trees over the operations on
      the world outside it (store, meter, runtime, GitLab, clock), with a weakest
      precondition. [RetryFeedback] (retry_feedback.go). [DispatchArgs]
      (dispatch.go, order_budget.go, session_env.go and the identities of
      broker_pipeline_dispatch.go and broker_pipefix_dispatch.go): the order and
      what it becomes. [Dispatch] (runDispatch, broker_inject.go,
      broker_pipefix_dispatch.go): a dispatch, every call of it. [DispatchWatch]:
      what it may do, for all answers. [DispatchRace]: dispatches of one item
      interleaved with meter, the sweep and the clock, a step relation.
      [DispatchRun]: its steps executed by scripts. [Explain]
      (pkg/effects/feedback.go): the sentences a refused batch is explained in.
      [StatusNote] (broker_status.go): the one note gonk keeps on an issue.
      [BrokerApply] (broker_apply.go, broker_label.go, broker_verdict.go): the
      gates of an issue agent's batch, and its application. [Sweep] (sweep.go,
      artifact.go, sweep_skew.go, sweep_legacy.go): a whole pass. [SweepWatch]:
      what it may do for a running item, for all answers; [SweepRun]: an item past
      its time, the window of a re-sling, a pass among concurrent dispatches.
    Names are the source's. Where two packages of the source use one name the
    file tells them apart ([ScopePolicy.Policy] and [Gonkcfg.CfgPolicy]); a
    method carries its type's name when another type has the method too.

    ** What the theorems show

    - Configuration: a project runs only when it opts in and nobody vetoes; an
      operator can only tighten; ceilings are minima, ladders are meets; a
      review by the same model never authorises a merge; nested groups cannot
      loosen one another.
    - Scope: patterns mean what their grammar says; the compiled table is
      equivalent to a plain reading of the menu; no chain of moves leaves a
      locked class; a folded scope is the meet of its layers; the floor (control
      and secret) is never writable, by any lift.
    - Spend: windows are calendar months and never reopen; totals are exact
      sums; a call is counted once.
    - Budget: the token gates are exact over the integers in spite of the
      64-bit arithmetic and the sentinel for unlimited; the dollar gate fails
      closed on numbers that are not.
    - Decision: [Decide] runs exactly when every gate is open, never past a
      ceiling; every answer is well shaped; attempts of a bead end; synthetic
      dollars do not matter; a quiet window ends when its clock says so.
    - Meter: no race of reservations, with reports however late, overspends a
      month by more than the spend no admission could see; a reservation is
      handed back to the same work, expired once and reported once; the
      service's answer is the pure decision's, is backed by a reservation when
      it runs, is given alike to both gates, and what it previews is what it
      next decides; a settled vote is not recast; when the store fails a
      decision leaves at most its own reservation behind; prompts are taken
      once, evidence only accumulates.
    - Judging: FIXED is given on one ground and never before the facts are in; a
      verdict is always given after the deadline; a visible forgery outranks
      everything; only a judged failure that was paid for climbs the ladder.
    - Merging: the policy merges exactly when every row holds on fresh facts, and
      never more than its cap in any day.
    - Facts: on what GitLab answered, FIXED is given exactly when GitLab's
      answers support it, each of them read whole.
    - Changes: green on one ground, judged when due, dispatched on eight rows.
    - CI definitions: the effective definition follows GitLab's rules, always
      comes, and a comparison finds nothing exactly when nothing changed.
    - Batches: nothing is written outside what the dispatch allowed; a plan is
      the edits applied to the base and nothing else; the line diff is minimal
      within its limit and never panics; diagnoses are checked item by item; a
      diff printed is read back, its text as it is shown.
    - Webhooks: what is delivered is authentic and new, up to the size of the
      table of repeats. Trajectories: rejection rests on what was observed.
      Weakening: it is found, and cannot be spread over two changes.
    - Identity: anchors and markers are read back, stand for one run, and the
      epoch of a run is the newest fix it contains.
    - Work records: of two conditional writes on one revision one is refused.
      Dispatch: a session is started and recorded only for a run meter answered,
      under the identity the order had, and whatever is not carried through is
      released or told; a running record replaces only the reservation of the
      dispatch that writes it, provided the store answers, meter gives an
      attempt in progress its open reservation, and the order's timeout ends the
      dispatch. A run in which meter closes such a reservation shows that this
      is needed. An order fired again is the order; a session's environment holds
      what it may see; feedback stays within its block; a name is a label.
      Batches applied: GitLab is written to only after a batch passed every gate,
      and only what it says; labels stay in their namespace and under none of
      gonk's own names; an issue has one status note; what is said of a refusal
      repeats nothing of the batch but short tokens of its keys and facts.
      Sweep: an outcome is reported once, and for what it rests on, a failure
      that is not the model's included; nothing is done about an item while a
      dispatch of its re-sling may be at work, and none is when something is; an
      item past its time gets its outcome, or is put aside with evidence; no
      session that an item names is reaped; and what a pass writes are steps of
      the race, so its theorem holds of the sweep as it is programmed.
    ** Bounds

    The loops of the source run over lists and strings and are structural
    recursion here, or have fuel that is enough by a lemma of their file: the
    length of the input where each step takes a byte or a line ([SkipSpace],
    hunks, [FindAll], the slide of a diff), the limit plus one for the rounds of
    the line diff, the document's node limit plus one for its conversion, the
    size of the root for resolving [extends], the number of entries for the
    eviction of repeats. Durations and counters are [Z]; where the source
    adds numbers it does not bound, the wrap-around of int64 is written out
    ([wrap64]); in the decision they carry their ranges as hypotheses.

    ** Parameters

    The zone database is a parameter ([LoadLocation]), and so is the Unicode
    half of [strings.TrimSpace] and [EqualFold] (class [GoUnicode]: ASCII text
    is treated as the library documents, and folding is reflexive). The order
    in which Go ranges over a map is the class [MapRange]: some permutation;
    [sort.Slice] is the class [SortSlice]: some sorted permutation. The meter's
    service runs over the class [Store], whose laws ([StoreLaws]) are what it
    relies on and are proved of the memory store and of one that fails at will.
    The excerpts and signatures
    of job logs (regular expressions and SHA-256) are the class [ErrorText].
    Decoders of the language and of third parties are classes too:
    [YamlDecoder], [BatchDecoder] (JSON of a batch), [EventDecoder] (JSON of a
    delivery), [GoParser]; so are [GoQuote] (quoted text of messages),
    [GoLetters], [JobNames], [GoTimeText] (RFC 3339 text, read back),
    [JsonTroubles] (what the decoder says of a text it does not decode), and
    GitLab's answers, [PipefixReader]. Of the programs of cmd/gonk-gate every
    answer of the outside world is a parameter: their theorems speak of every run
    ([GateProgs.runs]). Witnesses and examples instantiate them.

    ** Not modelled

    Decoders (YAML, JSON Schema), clients of outside services (GitLab, the
    proxy, Kubernetes, databases), HTTP servers, templates, metrics, command
    lines, and the repository's own build checks. Formatted texts of errors and
    details are values of an inductive type that carries what they print, or,
    in the judges and the merge policy, are left out. The meter's SQL store is
    left out; its memory store is modelled.
    Of pkg/beadstore the remote stores are left out, of pkg/intake and
    pkg/reviewctx nearly everything: they are mostly requests to GitLab and the
    texts of prompts. Of cmd/gonk-gate the clients are left out, the log, the
    archive of transcripts and the sweep's lease and health record; operations
    without a definition ([OApplyOwnChain], [OJudgeFix], [OMaintainRuns]) stand
    for what the pipeline agents' chains do with a batch, for the exit check of an
    open fix in the sweep, and for its maintenance of runs: what these decide by
    is in [Effects], [FixGate], [PipefixJudge] and [FixFacts]. Of a dispatch the
    wording of notes and prompts is left out (class [PromptTexts]). A deadline on
    a call is not told from another failure of it. *)

From Stdlib Require Import SpecFloat Sorted.
From stdpp Require Export base gmap strings list sorting fin_maps fin_sets.
From Stdlib Require Export ZArith Lia.

#[global] Set Default Goal Selector "!".
#[export] Set Warnings "-clear-no-such-hyp".
#[global] Open Scope string_scope.
#[global] Open Scope list_scope.
#[global] Open Scope Z_scope.

(** ** Automation *)

Create HintDb gonk.

(** Case analysis on every [match] and [if] of the goal and hypotheses, with
    the equations turned into substitutions. *)
Ltac split_matches :=
  repeat (case_match; simplify_eq/=; try done).

(** Booleans of the code into propositions, both ways. *)
Ltac bool_hyps :=
  repeat match goal with
  | H : _ && _ = true |- _ => apply andb_prop in H as [? ?]
  | H : _ || _ = false |- _ => apply orb_false_elim in H as [? ?]
  | H : negb _ = true |- _ => apply negb_true_iff in H
  | H : negb _ = false |- _ => apply negb_false_iff in H
  | H : (_ <? _)%Z = true |- _ => apply Z.ltb_lt in H
  | H : (_ <? _)%Z = false |- _ => apply Z.ltb_ge in H
  | H : (_ <=? _)%Z = true |- _ => apply Z.leb_le in H
  | H : (_ <=? _)%Z = false |- _ => apply Z.leb_gt in H
  | H : (_ =? _)%Z = true |- _ => apply Z.eqb_eq in H
  | H : (_ =? _)%Z = false |- _ => apply Z.eqb_neq in H
  | H : String.eqb _ _ = true |- _ => apply String.eqb_eq in H
  | H : String.eqb _ _ = false |- _ => apply String.eqb_neq in H
  | H : bool_decide _ = true |- _ => apply bool_decide_eq_true in H
  | H : bool_decide _ = false |- _ => apply bool_decide_eq_false in H
  end.

(** [lia] on goals with [/] and [mod] by constants. *)
Ltac div_lia := Z.to_euclidean_division_equations; lia.

(** ** Go's error results *)

(** A Go function that returns [(A, error)]. *)
Inductive result (E A : Type) : Type :=
| Ok (a : A)
| Err (e : E).
Arguments Ok {E A} a.
Arguments Err {E A} e.

#[export] Instance result_ret {E} : MRet (result E) := λ A a, Ok a.
#[export] Instance result_bind {E} : MBind (result E) := λ A B f r,
  match r with Ok a => f a | Err e => Err e end.

Lemma bind_ok {E A B} (f : A → result E B) (r : result E A) b :
  r ≫= f = Ok b → ∃ a, r = Ok a ∧ f a = Ok b.
Proof. destruct r; simpl; intros; simplify_eq; eauto. Qed.

(** ** Machine integers

    Go's [int] and [int64] are 64-bit two's complement. A value is a [Z];
    [wrap64] is what an arithmetic operation on data the program does not
    bound leaves in the register. *)

Definition MaxInt64 : Z := 9223372036854775807.
Definition MinInt64 : Z := -9223372036854775808.

Definition int64 (z : Z) : Prop := MinInt64 <= z <= MaxInt64.
#[export] Instance int64_dec z : Decision (int64 z).
Proof. unfold int64. apply _. Defined.

Definition wrap64 (z : Z) : Z := (z + 2 ^ 63) mod 2 ^ 64 - 2 ^ 63.

Lemma wrap64_range z : int64 (wrap64 z).
Proof.
  unfold int64, wrap64, MinInt64, MaxInt64.
  pose proof (Z.mod_pos_bound (z + 2 ^ 63) (2 ^ 64)). lia.
Qed.

Lemma wrap64_id z : int64 z → wrap64 z = z.
Proof.
  unfold int64, wrap64, MinInt64, MaxInt64. intros H.
  rewrite Z.mod_small by lia. lia.
Qed.

#[export] Hint Resolve wrap64_range : gonk.

(** ** Generic list lemmas *)

Section lists.
Context {A : Type}.
Implicit Types (l : list A).

Lemma existsb_elem (f : A → bool) l :
  existsb f l = true ↔ ∃ x, x ∈ l ∧ f x = true.
Proof.
  rewrite List.existsb_exists. by setoid_rewrite list_elem_of_In.
Qed.

Lemma forallb_elem (f : A → bool) l :
  forallb f l = true ↔ ∀ x, x ∈ l → f x = true.
Proof.
  rewrite List.forallb_forall. by setoid_rewrite list_elem_of_In.
Qed.

Lemma existsb_false (f : A → bool) l : existsb f l = false ↔ ∀ x, x ∈ l → f x = false.
Proof.
  rewrite <- not_true_iff_false, existsb_elem. setoid_rewrite <- not_true_iff_false. naive_solver.
Qed.

Lemma find_none (f : A → bool) l : List.find f l = None ↔ ∀ x, x ∈ l → f x = false.
Proof.
  split; [intros Hf x Hx%list_elem_of_In; by apply (List.find_none _ _ Hf)|].
  intros Hx. destruct (List.find f l) as [x|] eqn:E; [|done].
  apply List.find_some in E as [Hin Hp]. rewrite <- list_elem_of_In in Hin. by rewrite (Hx x Hin) in Hp.
Qed.

Lemma find_some (f : A → bool) l : (∃ x, List.find f l = Some x) ↔ ∃ x, x ∈ l ∧ f x = true.
Proof.
  split; [intros [x [? ?]%List.find_some]; exists x; by rewrite list_elem_of_In|].
  intros (x & Hx & Hp). destruct (List.find f l) as [y|] eqn:E; [eauto|].
  rewrite find_none in E. by rewrite (E x Hx) in Hp.
Qed.

Lemma elem_of_filter_List (f : A → bool) l x : x ∈ List.filter f l ↔ x ∈ l ∧ f x = true.
Proof. by rewrite list_elem_of_In, List.filter_In, <- list_elem_of_In. Qed.

Lemma length_zero l : (length l =? 0)%nat = true ↔ l = [].
Proof. by destruct l. Qed.

Lemma List_filter_nil (f : A → bool) l : List.filter f l = [] ↔ ∀ x, x ∈ l → f x = false.
Proof.
  induction l as [|x l IH]; cbn [List.filter]; [split; [intros _ x []%elem_of_nil|done]|].
  setoid_rewrite elem_of_cons. destruct (f x) eqn:E.
  - split; [done|]. intros H. rewrite H in E by (by left). done.
  - rewrite IH. naive_solver.
Qed.

Lemma snoc_not_nil l x : l ++ [x] ≠ [].
Proof. by destruct l. Qed.

Lemma length_nonzero l : (length l =? 0)%nat = false ↔ l ≠ [].
Proof. by destruct l. Qed.

Lemma length_pos l : (0 <? length l)%nat = false ↔ l = [].
Proof. by destruct l. Qed.
End lists.

(** The first error of a test over a list. *)
Fixpoint first_of {A E} (test : A → option E) (l : list A) : option E :=
  match l with [] => None | x :: l => match test x with Some e => Some e | None => first_of test l end end.

Lemma first_of_none {A E} (test : A → option E) l : first_of test l = None ↔ ∀ x, x ∈ l → test x = None.
Proof.
  induction l as [|y l IH]; cbn [first_of]; [set_solver|]. destruct (test y) eqn:Ht.
  - split; [done|]. intros H. specialize (H y ltac:(by left)). congruence.
  - rewrite IH. set_solver.
Qed.

(** ** Go maps

    [for k, v := range m] visits every entry once in an order the language
    does not fix. A function that ranges over a map takes the order from this
    class, so its theorems hold for every order. *)

Class MapRange := {
  range_map : ∀ {A : Type}, gmap string A → list (string * A);
  range_map_perm : ∀ {A} (m : gmap string A), range_map m ≡ₚ map_to_list m;
}.

(** One order, for evaluation. *)
#[export] Instance range_canonical : MapRange | 100 := {|
  range_map := λ A m, map_to_list m;
  range_map_perm := λ A m, reflexivity _;
|}.

Lemma elem_of_range_map `{MapRange} {A} (m : gmap string A) k v :
  (k, v) ∈ range_map m ↔ m !! k = Some v.
Proof. rewrite range_map_perm. apply elem_of_map_to_list. Qed.

Lemma NoDup_range_map `{MapRange} {A} (m : gmap string A) : NoDup (range_map m).*1.
Proof. rewrite range_map_perm. apply NoDup_fst_map_to_list. Qed.

#[export] Hint Resolve elem_of_range_map NoDup_range_map : gonk.

(** [sort.Slice] by an integer key: some sorted permutation, since the sort is
    not stable. *)
Definition key_le {A} (key : A → Z) (x y : A) : Prop := key x <= key y.
#[export] Instance key_le_dec {A} (key : A → Z) : RelDecision (key_le key).
Proof. intros x y. unfold key_le. apply _. Defined.

Class SortSlice := {
  sort_slice : ∀ {A : Type}, (A → Z) → list A → list A;
  sort_slice_perm : ∀ {A} (key : A → Z) l, sort_slice key l ≡ₚ l;
  sort_slice_sorted : ∀ {A} (key : A → Z) l, StronglySorted (key_le key) (sort_slice key l);
}.

Lemma key_le_trans {A} (key : A → Z) : Transitive (key_le key).
Proof. intros x y z. unfold key_le. lia. Qed.
Lemma key_le_total {A} (key : A → Z) : Total (key_le key).
Proof. intros x y. unfold key_le. lia. Qed.

(** The stable one, for evaluation. *)
#[export] Instance sort_stable : SortSlice | 100 := {|
  sort_slice := λ A key l, merge_sort (key_le key) l;
  sort_slice_perm := λ A key l, merge_sort_Permutation (key_le key) l;
  sort_slice_sorted := λ A key l, @StronglySorted_merge_sort A (key_le key) _ (key_le_trans key) (key_le_total key) l;
|}.

(** [sort.Strings]: equal strings are the same string. *)
Definition string_le (s t : string) : Prop := String.leb s t = true.
#[export] Instance string_le_dec : RelDecision string_le.
Proof. intros s t. unfold string_le. apply _. Defined.
Definition sort_strings (l : list string) : list string := merge_sort string_le l.

Lemma string_le_cons a b s t :
  string_le (String a s) (String b t) ↔
  (Ascii.N_of_ascii a < Ascii.N_of_ascii b)%N ∨ a = b ∧ string_le s t.
Proof.
  unfold string_le, String.leb. cbn [String.compare]. unfold Ascii.compare.
  destruct (N.compare_spec (Ascii.N_of_ascii a) (Ascii.N_of_ascii b)) as [E|Hlt|Hgt].
  - apply (f_equal Ascii.ascii_of_N) in E. rewrite !Ascii.ascii_N_embedding in E. subst b.
    split; [by right|]. intros [?|[_ ?]]; [lia|done].
  - split; [by left|done].
  - split; [done|]. intros [?|[-> _]]; lia.
Qed.

#[export] Instance string_le_trans : Transitive string_le.
Proof.
  intros r. induction r as [|a r IH]; intros [|b s] [|c t]; try done. rewrite !string_le_cons.
  intros [?|[-> H1]] [?|[-> H2]]; [left; lia|by left|by left|right]. split; [done|]. by eapply IH.
Qed.
#[export] Instance string_le_total : Total string_le.
Proof. intros s t. apply String.leb_total. Qed.
#[export] Instance string_le_antisymm : AntiSymm (=) string_le.
Proof. intros s t. apply String.leb_antisym. Qed.

Lemma sort_strings_elem k l : k ∈ sort_strings l ↔ k ∈ l.
Proof. unfold sort_strings. by rewrite merge_sort_Permutation. Qed.

(** The keys of a map, sorted. *)
Definition sorted_keys {A} (m : gmap string A) : list string := sort_strings (map_to_list m).*1.

Lemma elem_of_sorted_keys {A} (m : gmap string A) k : k ∈ sorted_keys m ↔ is_Some (m !! k).
Proof.
  unfold sorted_keys. rewrite sort_strings_elem, list_elem_of_fmap. split.
  - intros ([k' v] & -> & Hin%elem_of_map_to_list). by exists v.
  - intros [v Hv]. exists (k, v). by rewrite elem_of_map_to_list.
Qed.
