(* ===== verification/Float64.v ===== *)
(** * Go's [float64]

    IEEE 754 binary64 with round-to-nearest-even, as the Standard Library's
    executable specification [SpecFloat] defines it (precision 53, maximal
    exponent 1024). The comparison operators are Go's: every comparison with a
    NaN is false, except [!=]. *)

From Stdlib Require Export SpecFloat.
From S2P Require Import Prelude.

Abbreviation float64 := spec_float (only parsing).

Definition fprec : Z := 53.
Definition femax : Z := 1024.

Definition fadd : float64 → float64 → float64 := SFadd fprec femax.
Definition fsub : float64 → float64 → float64 := SFsub fprec femax.
Definition fmul : float64 → float64 → float64 := SFmul fprec femax.
Definition fdiv : float64 → float64 → float64 := SFdiv fprec femax.

(** [float64(n)] of an integer. *)
Definition float_of_Z (n : Z) : float64 := binary_normalize fprec femax n 0 false.

Definition fzero : float64 := S754_zero false.
Definition Inf : float64 := S754_infinity false.
Definition NegInf : float64 := S754_infinity true.
Definition NaN : float64 := S754_nan.

Definition flt (a b : float64) : bool := SFltb a b.
Definition fle (a b : float64) : bool := SFleb a b.
Definition feq (a b : float64) : bool := SFeqb a b.

(** [math.IsNaN], and [math.IsInf] with sign 1, -1 and 0. *)
Definition IsNaN (f : float64) : bool := match f with S754_nan => true | _ => false end.
Definition IsPosInf (f : float64) : bool :=
  match f with S754_infinity false => true | _ => false end.
Definition IsNegInf (f : float64) : bool :=
  match f with S754_infinity true => true | _ => false end.
Definition IsInf (f : float64) : bool := IsPosInf f || IsNegInf f.
Definition finite (f : float64) : bool := negb (IsNaN f) && negb (IsInf f).

#[export] Instance float64_eq_dec : EqDecision float64.
Proof. solve_decision. Defined.

(** ** The order

    Off NaN the comparison is a total preorder: [-0] and [+0] are equal. *)

Definition fsign (f : float64) : Z :=
  match f with
  | S754_zero _ | S754_nan => 0
  | S754_infinity s | S754_finite s _ _ => if s then -1 else 1
  end.

Lemma fcompare_nan a b : SFcompare a b = None ↔ a = NaN ∨ b = NaN.
Proof.
  destruct a as [|?| |? ? ?], b as [|?| |? ? ?]; simpl; split; intros H;
    destruct_or?; try discriminate; auto.
Qed.

Lemma fcompare_antisym a b : SFcompare b a = CompOpp <$> SFcompare a b.
Proof.
  destruct a as [|[]| |[] m e], b as [|[]| |[] m' e']; simpl; try done; f_equal.
  - rewrite (Z.compare_antisym e e'). destruct (e ?= e'); simpl; try done.
    change (Pos.compare_cont Eq m' m) with (Pos.compare m' m).
    change (Pos.compare_cont Eq m m') with (Pos.compare m m').
    by rewrite (Pos.compare_antisym m m').
  - rewrite (Z.compare_antisym e e'). destruct (e ?= e'); simpl; try done.
    change (Pos.compare_cont Eq m' m) with (Pos.compare m' m).
    change (Pos.compare_cont Eq m m') with (Pos.compare m m').
    by rewrite (Pos.compare_antisym m m').
Qed.

Lemma flt_irrefl a : flt a a = false.
Proof.
  unfold flt, SFltb. pose proof (fcompare_antisym a a) as H.
  destruct (SFcompare a a) as [[]|]; simplify_eq/=; done.
Qed.

Lemma flt_asym a b : flt a b = true → flt b a = false.
Proof.
  unfold flt, SFltb. rewrite (fcompare_antisym a b).
  by destruct (SFcompare a b) as [[]|].
Qed.

(** [!(a < b)] is [b <= a] only when neither is NaN. *)
Lemma flt_ge a b : IsNaN a = false → IsNaN b = false → flt a b = negb (fle b a).
Proof.
  intros Ha Hb. unfold flt, fle, SFltb, SFleb. rewrite (fcompare_antisym a b).
  destruct (SFcompare a b) as [[]|] eqn:E; simpl; try done.
  apply fcompare_nan in E as [->| ->]; discriminate.
Qed.

Lemma flt_not_nan a b : flt a b = true → IsNaN a = false ∧ IsNaN b = false.
Proof. unfold flt, SFltb. destruct a as [|?| |? ? ?], b as [|?| |? ? ?]; done. Qed.

(** A numeric key that the comparison orders: class, then exponent, then
    mantissa, sign applied. *)
Definition fkey (f : float64) : Z * Z * Z :=
  match f with
  | S754_infinity true => (-2, 0, 0)
  | S754_finite true m e => (-1, - e, - Z.pos m)
  | S754_zero _ | S754_nan => (0, 0, 0)
  | S754_finite false m e => (1, e, Z.pos m)
  | S754_infinity false => (2, 0, 0)
  end.

Definition key_lt (k k' : Z * Z * Z) : Prop :=
  let '(a, b, c) := k in let '(a', b', c') := k' in
  a < a' ∨ (a = a' ∧ (b < b' ∨ (b = b' ∧ c < c'))).

Lemma flt_key a b :
  IsNaN a = false → IsNaN b = false → flt a b = true ↔ key_lt (fkey a) (fkey b).
Proof.
  intros Ha Hb. unfold flt, SFltb, key_lt.
  destruct a as [sa|[]| |[] m e], b as [sb|[]| |[] m' e']; simpl in *;
    try discriminate; try (split; intros; first [lia | done]).
  - change (Pos.compare_cont Eq m m') with (Pos.compare m m').
    destruct (Z.compare_spec e e'), (Pos.compare_spec m m'); simpl; split; intros;
      try done; lia.
  - change (Pos.compare_cont Eq m m') with (Pos.compare m m').
    destruct (Z.compare_spec e e'), (Pos.compare_spec m m'); simpl; split; intros;
      try done; lia.
Qed.

Lemma key_lt_trans k1 k2 k3 : key_lt k1 k2 → key_lt k2 k3 → key_lt k1 k3.
Proof. destruct k1 as [[? ?] ?], k2 as [[? ?] ?], k3 as [[? ?] ?]. simpl. lia. Qed.

Lemma flt_trans a b c : flt a b = true → flt b c = true → flt a c = true.
Proof.
  intros H1 H2. destruct (flt_not_nan _ _ H1), (flt_not_nan _ _ H2).
  rewrite flt_key in * by done. by eapply key_lt_trans.
Qed.

Lemma fle_key a b :
  IsNaN a = false → IsNaN b = false → fle a b = true ↔ ¬ key_lt (fkey b) (fkey a).
Proof.
  intros Ha Hb. rewrite <- flt_key by done. rewrite flt_ge by done.
  destruct (fle a b); simpl; naive_solver.
Qed.

Lemma fle_refl a : IsNaN a = false → fle a a = true.
Proof. intros H. rewrite fle_key by done. destruct (fkey a) as [[? ?] ?]. simpl. lia. Qed.

Lemma fle_trans a b c :
  IsNaN b = false → fle a b = true → fle b c = true → fle a c = true.
Proof.
  intros Hb H1 H2.
  assert (IsNaN a = false) by (by destruct a, b).
  assert (IsNaN c = false) by (by destruct c, b as [|?| |? ? ?]).
  rewrite fle_key in * by done.
  destruct (fkey a) as [[? ?] ?], (fkey b) as [[? ?] ?], (fkey c) as [[? ?] ?]. simpl in *. lia.
Qed.

Lemma flt_fle a b : flt a b = true → fle a b = true.
Proof.
  intros H. destruct (flt_not_nan _ _ H) as [Ha Hb].
  apply flt_asym in H. rewrite flt_ge in H by done. by apply negb_false_iff in H.
Qed.

Lemma flt_fle_contra a b : flt a b = true → fle b a = false.
Proof.
  intros H. destruct (flt_not_nan _ _ H). rewrite flt_ge in H by done.
  by apply negb_true_iff in H.
Qed.

Lemma fle_Inf a : IsNaN a = false → fle a Inf = true.
Proof. by destruct a as [|[]| |[]]. Qed.

#[export] Hint Resolve fle_refl flt_fle fle_Inf : gonk.
