(* ===== verification/GoTime.v ===== *)
(** * Go's [time] package, as far as gonk uses it

    An instant is a [Z]: nanoseconds since 0001-01-01T00:00:00Z, so that Go's
    zero [time.Time] is [0]. A [time.Duration] is a [Z] in the int64 range.
    [Sub] saturates, as Go's does. The civil calendar is the proleptic
    Gregorian one; a [Location] is its zone table, which is data the program
    does not carry. *)

From S2P Require Import Prelude.

Abbreviation Time := Z (only parsing).
Abbreviation Duration := Z (only parsing).

Definition Nanosecond : Duration := 1.
Definition Second : Duration := 1000000000.
Definition Minute : Duration := 60 * Second.
Definition Hour : Duration := 60 * Minute.

Definition Time_zero : Time := 0.
Definition IsZero (t : Time) : bool := t =? 0.
Definition Before (t u : Time) : bool := t <? u.
Definition After (t u : Time) : bool := u <? t.
Definition Add (t : Time) (d : Duration) : Time := t + d.
Definition Sub (t u : Time) : Duration := Z.max MinInt64 (Z.min MaxInt64 (t - u)).

(** ** The civil calendar *)

Definition leap (y : Z) : bool :=
  (y mod 4 =? 0) && (negb (y mod 100 =? 0) || (y mod 400 =? 0)).

(** Days from 0001-01-01 to January 1 of year [y]. *)
Definition days_before_year (y : Z) : Z :=
  let p := y - 1 in 365 * p + p / 4 - p / 100 + p / 400.

(** The year that day number [n] falls in: an estimate that is at most one
    off, corrected. *)
Definition year_of_day (n : Z) : Z :=
  let y := n * 400 / 146097 + 1 in
  if days_before_year (y + 1) <=? n then y + 1
  else if n <? days_before_year y then y - 1 else y.

(** Days before month [m] (0 = January) in a year. *)
Definition days_before_month (lp : bool) (m : Z) : Z :=
  let l := if lp then 1 else 0 in
  if m <=? 0 then 0 else if m =? 1 then 31 else if m =? 2 then 59 + l
  else if m =? 3 then 90 + l else if m =? 4 then 120 + l else if m =? 5 then 151 + l
  else if m =? 6 then 181 + l else if m =? 7 then 212 + l else if m =? 8 then 243 + l
  else if m =? 9 then 273 + l else if m =? 10 then 304 + l else if m =? 11 then 334 + l
  else 365 + l.

(** The month (0 = January) of day-of-year [d] (from 0). *)
Definition month_of_yday (lp : bool) (d : Z) : Z :=
  let b := days_before_month lp in
  if d <? b 1 then 0 else if d <? b 2 then 1 else if d <? b 3 then 2
  else if d <? b 4 then 3 else if d <? b 5 then 4 else if d <? b 6 then 5
  else if d <? b 7 then 6 else if d <? b 8 then 7 else if d <? b 9 then 8
  else if d <? b 10 then 9 else if d <? b 11 then 10 else 11.

(** Year, month (1..12) and day (1..31) of a day number. *)
Definition civil_of_day (n : Z) : Z * Z * Z :=
  let y := year_of_day n in
  let d := n - days_before_year y in
  let m := month_of_yday (leap y) d in
  (y, m + 1, d - days_before_month (leap y) m + 1).

(** The day number of a date; months outside 1..12 and days outside the month
    carry, as [time.Date] normalises them. *)
Definition day_of_civil (y m d : Z) : Z :=
  let y' := y + (m - 1) / 12 in
  let m' := (m - 1) mod 12 in
  days_before_year y' + days_before_month (leap y') m' + (d - 1).

(** ** Locations *)

Record Zone := mkZone {
  zone_offset : Z; (* seconds east of UTC *)
  zone_start : Z;  (* first UTC second the zone is in force, since year 1 *)
  zone_end : Z;    (* first UTC second it is not *)
}.

(** [lookup] of a location's zone table, by UTC second. *)
Abbreviation Location := (Z → Zone) (only parsing).

Definition FixedZone (offset : Z) : Location := λ _, mkZone offset (-(2 ^ 63)) (2 ^ 63 - 1).
Definition UTC : Location := FixedZone 0.

Definition sec_of (t : Time) : Z := t / Second.

(** The local reading of an instant: nanoseconds of the wall clock since
    0001-01-01T00:00:00 on that clock. *)
Definition local_ns (loc : Location) (t : Time) : Z :=
  t + zone_offset (loc (sec_of t)) * Second.

Definition DateOf (loc : Location) (t : Time) : Z * Z * Z :=
  civil_of_day (local_ns loc t / (24 * Hour)).
Definition HourOf (loc : Location) (t : Time) : Z := local_ns loc t mod (24 * Hour) / Hour.
Definition MinuteOf (loc : Location) (t : Time) : Z := local_ns loc t mod Hour / Minute.
Definition SecondOf (loc : Location) (t : Time) : Z := local_ns loc t mod Minute / Second.
Definition NanosecondOf (loc : Location) (t : Time) : Z := local_ns loc t mod Second.

(** [time.Date]: the zone is looked up at the reading taken as UTC, and again
    at the adjusted instant when that one falls outside the zone found. *)
Definition Date (y mo d h mi s ns : Z) (loc : Location) : Time :=
  let wall := (day_of_civil y mo d * (24 * Hour) + h * Hour + mi * Minute + s * Second + ns) in
  let unix := wall / Second in
  let z := loc unix in
  if zone_offset z =? 0 then wall
  else
    let utc := unix - zone_offset z in
    let off := if (utc <? zone_start z) || (zone_end z <=? utc)
               then zone_offset (loc utc) else zone_offset z in
    wall - off * Second.

Definition AddDate (loc : Location) (t : Time) (years months days : Z) : Time :=
  let '(y, m, d) := DateOf loc t in
  Date (y + years) (m + months) (d + days)
    (HourOf loc t) (MinuteOf loc t) (SecondOf loc t) (NanosecondOf loc t) loc.

(** ** Facts of the calendar *)

Lemma days_before_year_succ y :
  days_before_year (y + 1) = days_before_year y + 365 + (if leap y then 1 else 0).
Proof.
  unfold days_before_year, leap.
  cbv zeta. replace (y + 1 - 1) with y by lia.
  destruct (Z.eqb_spec (y mod 4) 0), (Z.eqb_spec (y mod 100) 0), (Z.eqb_spec (y mod 400) 0);
    simpl; div_lia.
Qed.

Lemma days_before_year_mono y y' :
  y < y' → days_before_year y + 365 <= days_before_year y'.
Proof.
  intros H. assert (Hi : ∀ k, 0 <= k →
    days_before_year y + 365 <= days_before_year (y + 1 + k)).
  { apply natlike_ind.
    - rewrite Z.add_0_r, days_before_year_succ. destruct (leap y); lia.
    - intros k Hk IH. replace (y + 1 + Z.succ k) with (y + 1 + k + 1) by lia.
      rewrite (days_before_year_succ (y + 1 + k)). destruct (leap _); lia. }
  specialize (Hi (y' - (y + 1))). replace (y + 1 + (y' - (y + 1))) with y' in Hi by lia.
  apply Hi. lia.
Qed.

Lemma days_before_year_bounds y :
  146097 * (y - 1) - 700 < 400 * days_before_year y <= 146097 * (y - 1) + 396.
Proof.
  unfold days_before_year. cbv zeta. generalize (y - 1). intros p.
  pose proof (Z.div_mod p 4). pose proof (Z.mod_pos_bound p 4).
  pose proof (Z.div_mod p 100). pose proof (Z.mod_pos_bound p 100).
  pose proof (Z.div_mod p 400). pose proof (Z.mod_pos_bound p 400).
  lia.
Qed.

Lemma year_of_day_spec n :
  days_before_year (year_of_day n) <= n < days_before_year (year_of_day n + 1).
Proof.
  unfold year_of_day.
  pose proof (Z.div_mod (n * 400) 146097). pose proof (Z.mod_pos_bound (n * 400) 146097).
  set (y := n * 400 / 146097 + 1).
  assert (Hlo : days_before_year (y - 1) <= n)
    by (pose proof (days_before_year_bounds (y - 1)); lia).
  assert (Hhi : n < days_before_year (y + 2))
    by (pose proof (days_before_year_bounds (y + 2)); lia).
  destruct (Z.leb_spec (days_before_year (y + 1)) n).
  - split; [done|]. by replace (y + 1 + 1) with (y + 2) by lia.
  - destruct (Z.ltb_spec n (days_before_year y)); [|lia].
    replace (y - 1 + 1) with y by lia. lia.
Qed.

Lemma year_of_day_unique n y :
  days_before_year y <= n < days_before_year (y + 1) → year_of_day n = y.
Proof.
  intros H. pose proof (year_of_day_spec n) as Hs.
  destruct (Z.lt_trichotomy (year_of_day n) y) as [Hlt|[?|Hlt]]; [|done|].
  - assert (year_of_day n + 1 = y ∨ year_of_day n + 1 < y) as [Heq|Hl] by lia.
    + rewrite Heq in Hs. lia.
    + pose proof (days_before_year_mono _ _ Hl). lia.
  - assert (y + 1 = year_of_day n ∨ y + 1 < year_of_day n) as [Heq|Hl] by lia.
    + rewrite Heq in H. lia.
    + pose proof (days_before_year_mono _ _ Hl). lia.
Qed.

Lemma days_before_month_succ lp m :
  0 <= m <= 11 → days_before_month lp m + 28 <= days_before_month lp (m + 1).
Proof.
  intros H.
  assert (m = 0 ∨ m = 1 ∨ m = 2 ∨ m = 3 ∨ m = 4 ∨ m = 5 ∨ m = 6 ∨ m = 7 ∨ m = 8 ∨ m = 9
          ∨ m = 10 ∨ m = 11) as Hm by lia.
  destruct_or! Hm; subst; destruct lp; vm_compute; discriminate.
Qed.

Lemma days_before_month_zero lp : days_before_month lp 0 = 0.
Proof. reflexivity. Qed.

Lemma days_before_month_twelve lp :
  days_before_month lp 12 = 365 + (if lp then 1 else 0).
Proof. reflexivity. Qed.

Lemma month_of_yday_spec lp d :
  0 <= d < days_before_month lp 12 →
  0 <= month_of_yday lp d <= 11 ∧
  days_before_month lp (month_of_yday lp d) <= d
    < days_before_month lp (month_of_yday lp d + 1).
Proof.
  intros H. unfold month_of_yday.
  repeat match goal with
  | |- context [if ?a <? ?b then _ else _] => destruct (Z.ltb_spec a b)
  end;
  match goal with
  | |- context [days_before_month lp (?a + 1)] =>
      let v := eval compute in (a + 1) in change (a + 1) with v
  end; rewrite ?days_before_month_zero; lia.
Qed.

Lemma civil_of_day_range n y m d :
  civil_of_day n = (y, m, d) →
  y = year_of_day n ∧ 1 <= m <= 12 ∧ 1 <= d ∧
  n = days_before_year y + days_before_month (leap y) (m - 1) + (d - 1) ∧
  n < days_before_year y + days_before_month (leap y) m.
Proof.
  unfold civil_of_day. intros [= <- <- <-].
  pose proof (year_of_day_spec n) as Hy. rewrite days_before_year_succ in Hy.
  destruct (month_of_yday_spec (leap (year_of_day n)) (n - days_before_year (year_of_day n)))
    as [Hm Hd]; [rewrite days_before_month_twelve; lia|].
  set (mo := month_of_yday _ _) in *.
  replace (mo + 1 - 1) with mo by lia. lia.
Qed.

(** A date read off an instant, put back, is the same day. *)
Lemma day_of_civil_of_day n y m d :
  civil_of_day n = (y, m, d) → day_of_civil y m d = n.
Proof.
  intros (_ & Hm & Hd & Hn & _)%civil_of_day_range. unfold day_of_civil. cbv zeta.
  rewrite (Z.div_small (m - 1)), (Z.mod_small (m - 1)) by lia.
  rewrite Z.add_0_r. lia.
Qed.

(** The first day of the month of day [n], and of the month after. *)
Lemma month_bounds n y m d :
  civil_of_day n = (y, m, d) →
  day_of_civil y m 1 <= n < day_of_civil y (m + 1) 1.
Proof.
  intros (_ & Hm & Hd & Hn & Hlt)%civil_of_day_range. unfold day_of_civil. cbv zeta.
  rewrite (Z.div_small (m - 1)), (Z.mod_small (m - 1)) by lia.
  replace (m + 1 - 1) with m by lia. rewrite !Z.add_0_r. split; [lia|].
  destruct (decide (m = 12)) as [->|?].
  - change (12 / 12) with 1. change (12 mod 12) with 0.
    rewrite days_before_year_succ, days_before_month_zero.
    rewrite days_before_month_twelve in Hlt. lia.
  - rewrite (Z.div_small m), (Z.mod_small m) by lia.
    rewrite Z.add_0_r. lia.
Qed.

(** A date that exists, turned into its day, is read off that day. *)
Lemma month_of_yday_unique lp d m :
  0 <= m <= 11 → days_before_month lp m <= d < days_before_month lp (m + 1) →
  month_of_yday lp d = m.
Proof.
  intros Hm Hd. pose proof (days_before_month_twelve lp).
  assert (Hmono : ∀ a b, 0 <= a → a <= b <= 12 → days_before_month lp a <= days_before_month lp b).
  { intros a b Ha Hb. destruct (decide (a = b)) as [->|?]; [lia|].
    assert (Hk : ∀ k, 0 <= k → a + k <= 12 → days_before_month lp a <= days_before_month lp (a + k)).
    { apply (natlike_ind (λ k, a + k <= 12 → days_before_month lp a <= days_before_month lp (a + k))).
      - rewrite Z.add_0_r. lia.
      - intros k Hk IH Hle. pose proof (days_before_month_succ lp (a + k)).
        replace (a + Z.succ k) with (a + k + 1) by lia. lia. }
    specialize (Hk (b - a)). replace (a + (b - a)) with b in Hk by lia. lia. }
  pose proof (Hmono 0 m). pose proof (Hmono (m + 1) 12). rewrite days_before_month_zero in *.
  destruct (month_of_yday_spec lp d) as [Hr Hs]; [lia|].
  set (x := month_of_yday lp d) in *.
  destruct (Z.lt_trichotomy x m) as [Hlt|[?|Hlt]]; [|done|].
  - pose proof (Hmono (x + 1) m). lia.
  - pose proof (Hmono (m + 1) x). lia.
Qed.

Lemma civil_of_day_of_civil y m d :
  1 <= m <= 12 → 1 <= d →
  days_before_month (leap y) (m - 1) + d <= days_before_month (leap y) m →
  civil_of_day (day_of_civil y m d) = (y, m, d).
Proof.
  intros Hm Hd Hle. unfold day_of_civil. cbv zeta.
  rewrite (Z.div_small (m - 1)), (Z.mod_small (m - 1)) by lia. rewrite Z.add_0_r.
  pose proof (days_before_month_twelve (leap y)) as H12.
  set (n := _ + _ + _).
  assert (Hb : 0 <= days_before_month (leap y) (m - 1) ∧
               days_before_month (leap y) m <= days_before_month (leap y) 12).
  { rewrite H12. assert (m = 1 ∨ m = 2 ∨ m = 3 ∨ m = 4 ∨ m = 5 ∨ m = 6 ∨ m = 7 ∨ m = 8 ∨ m = 9
      ∨ m = 10 ∨ m = 11 ∨ m = 12) as Hc by lia.
    destruct_or! Hc; subst m; destruct (leap y); vm_compute; split; discriminate. }
  assert (Hy : year_of_day n = y).
  { apply year_of_day_unique. rewrite days_before_year_succ. unfold n. lia. }
  unfold civil_of_day. cbv zeta. rewrite Hy.
  replace (n - days_before_year y) with (days_before_month (leap y) (m - 1) + (d - 1)) by (unfold n; lia).
  rewrite (month_of_yday_unique _ _ (m - 1)); [|lia|].
  - f_equal; [f_equal|]; lia.
  - replace (m - 1 + 1) with m by lia. lia.
Qed.

Lemma month_has_day_one y m :
  1 <= m <= 12 → days_before_month (leap y) (m - 1) + 1 <= days_before_month (leap y) m.
Proof.
  intros Hm. pose proof (days_before_month_succ (leap y) (m - 1)).
  replace (m - 1 + 1) with m in * by lia. lia.
Qed.

(** Months counted from year 0: the first day of month number [k]. *)
Definition month_start (k : Z) : Z :=
  days_before_year (k / 12) + days_before_month (leap (k / 12)) (k mod 12).

Lemma day_of_civil_month_start y m : day_of_civil y m 1 = month_start (12 * y + (m - 1)).
Proof.
  unfold day_of_civil, month_start. cbv zeta.
  replace ((12 * y + (m - 1)) / 12) with (y + (m - 1) / 12)
    by (rewrite (Z.mul_comm 12), Z.div_add_l by lia; lia).
  replace ((12 * y + (m - 1)) mod 12) with ((m - 1) mod 12); [lia|].
  rewrite (Z.mul_comm 12), Z.add_comm, Z.mod_add by lia. done.
Qed.

Lemma month_start_succ k : month_start k + 28 <= month_start (k + 1).
Proof.
  unfold month_start. pose proof (Z.mod_pos_bound k 12 eq_refl) as Hk.
  destruct (decide (k mod 12 = 11)) as [E|E].
  - replace ((k + 1) / 12) with (k / 12 + 1) by div_lia.
    replace ((k + 1) mod 12) with 0 by div_lia.
    rewrite E, days_before_year_succ, days_before_month_zero.
    pose proof (days_before_month_succ (leap (k / 12)) 11). change (11 + 1) with 12 in *.
    rewrite days_before_month_twelve in *. lia.
  - replace ((k + 1) / 12) with (k / 12) by div_lia.
    replace ((k + 1) mod 12) with (k mod 12 + 1) by div_lia.
    pose proof (days_before_month_succ (leap (k / 12)) (k mod 12)). lia.
Qed.

Lemma month_start_mono j k : j <= k → month_start j <= month_start k.
Proof.
  intros H. replace k with (j + (k - j)) by lia.
  assert (0 <= k - j) as H0 by lia. generalize dependent (k - j).
  apply (natlike_ind (λ n, month_start j <= month_start (j + n))).
  - rewrite Z.add_0_r. lia.
  - intros n Hn IH. pose proof (month_start_succ (j + n)).
    replace (j + Z.succ n) with (j + n + 1) by lia. lia.
Qed.

Lemma month_start_unique j k n :
  month_start j <= n < month_start (j + 1) → month_start k <= n < month_start (k + 1) → j = k.
Proof.
  intros Hj Hk. destruct (Z.lt_trichotomy j k) as [H|[?|H]]; [|done|].
  - pose proof (month_start_mono (j + 1) k). lia.
  - pose proof (month_start_mono (k + 1) j). lia.
Qed.

Lemma Date_UTC y mo d h mi s ns :
  Date y mo d h mi s ns UTC =
    day_of_civil y mo d * (24 * Hour) + h * Hour + mi * Minute + s * Second + ns.
Proof. reflexivity. Qed.

Lemma local_ns_fixed off t : local_ns (FixedZone off) t = t + off * Second.
Proof. reflexivity. Qed.

Lemma local_ns_UTC t : local_ns UTC t = t.
Proof. unfold UTC. rewrite local_ns_fixed. lia. Qed.

Lemma clock_sum loc t :
  HourOf loc t * Hour + MinuteOf loc t * Minute + SecondOf loc t * Second
    + NanosecondOf loc t = local_ns loc t mod (24 * Hour).
Proof.
  unfold HourOf, MinuteOf, SecondOf, NanosecondOf. generalize (local_ns loc t); intros a.
  assert (Hstep : ∀ b c, 0 < b → 0 < c → a mod (c * b) / b * b + a mod b = a mod (c * b)).
  { intros b c Hb Hc. rewrite (Z.mul_comm c b), Z.rem_mul_r by lia.
    rewrite (Z.mul_comm b (_ mod c)), Z.div_add by lia.
    rewrite (Z.div_small (a mod b)) by (apply Z.mod_pos_bound; lia). lia. }
  pose proof (Hstep Hour 24 eq_refl eq_refl) as H1.
  pose proof (Hstep Minute 60 eq_refl eq_refl) as H2.
  pose proof (Hstep Second 60 eq_refl eq_refl) as H3.
  change (60 * Minute) with Hour in H2. change (60 * Second) with Minute in H3. lia.
Qed.

(** [AddDate] by days in a zone with one offset moves by whole days. *)
Lemma Date_fixed off y mo d h mi s ns :
  Date y mo d h mi s ns (FixedZone off) =
    day_of_civil y mo d * (24 * Hour) + h * Hour + mi * Minute + s * Second + ns - off * Second.
Proof.
  unfold Date, FixedZone. cbv zeta. simpl.
  destruct (Z.eqb_spec off 0) as [->|]; [lia|]. by destruct (_ || _).
Qed.

Lemma AddDate_days_fixed off t k :
  AddDate (FixedZone off) t 0 0 k = t + k * (24 * Hour).
Proof.
  unfold AddDate. destruct (DateOf _ t) as [[y m] d] eqn:E.
  rewrite Date_fixed, !Z.add_0_r.
  unfold DateOf in E. apply day_of_civil_of_day in E.
  pose proof (clock_sum (FixedZone off) t) as Hc. rewrite local_ns_fixed in *.
  assert (day_of_civil y m (d + k) = day_of_civil y m d + k) as -> by (unfold day_of_civil; lia).
  rewrite E. pose proof (Z.div_mod (t + off * Second) (24 * Hour)).
  assert (24 * Hour ≠ 0) by done. lia.
Qed.
