(* ===== verification/GoStrings.v ===== *)
(** * Go strings and number formatting

    A Go string is its bytes, here the Standard Library's [string]. This file
    holds what gonk uses of [strings], [strconv], [path] and of
    [encoding/json]'s integers. [strings.EqualFold] and [strings.TrimSpace]
    leave ASCII only when they meet a byte of 0x80 or more; what they do then
    needs the Unicode tables, which are the class [GoUnicode]. *)

From Stdlib Require Import Ascii DecimalString DecimalFacts DecimalN.
From S2P Require Import Prelude.

(** ** Bytes *)

Definition byte_val (c : Ascii.ascii) : Z := Z.of_N (Ascii.N_of_ascii c).
Definition in_range (lo hi : Z) (c : Ascii.ascii) : bool :=
  (lo <=? byte_val c) && (byte_val c <=? hi).
Definition is_digit (c : Ascii.ascii) : bool := in_range 48 57 c.

Fixpoint all_bytes (f : Ascii.ascii → bool) (s : string) : bool :=
  match s with
  | EmptyString => true
  | String c s' => f c && all_bytes f s'
  end.

Definition len (s : string) : Z := Z.of_nat (String.length s).

(** ** [strings] *)

Definition HasPrefix (s p : string) : bool := String.prefix p s.

Fixpoint string_rev_append (s acc : string) : string :=
  match s with
  | EmptyString => acc
  | String c s' => string_rev_append s' (String c acc)
  end.
Definition string_rev (s : string) : string := string_rev_append s EmptyString.
Definition HasSuffix (s p : string) : bool := HasPrefix (string_rev s) (string_rev p).

Definition is_ascii (c : Ascii.ascii) : bool := byte_val c <? 128.

(** ASCII white space: [\t\n\v\f\r] and the space. *)
Definition is_space (c : Ascii.ascii) : bool :=
  in_range 9 13 c || (byte_val c =? 32).

Fixpoint trim_left (s : string) : string :=
  match s with
  | String c s' => if is_space c then trim_left s' else s
  | EmptyString => EmptyString
  end.
Definition ascii_trim_space (s : string) : string :=
  string_rev (trim_left (string_rev (trim_left s))).

Definition to_lower (c : Ascii.ascii) : Ascii.ascii :=
  if in_range 65 90 c then Ascii.ascii_of_N (Ascii.N_of_ascii c + 32) else c.

Fixpoint ascii_equal_fold (s t : string) : bool :=
  match s, t with
  | EmptyString, EmptyString => true
  | String a s', String b t' => Ascii.eqb (to_lower a) (to_lower b) && ascii_equal_fold s' t'
  | _, _ => false
  end.

Lemma ascii_equal_fold_refl s : ascii_equal_fold s s = true.
Proof. induction s as [|c s IH]; simpl; [done|]. by rewrite Ascii.eqb_refl. Qed.

(** What the Unicode half of the two functions answers on a string with a
    non-ASCII byte. *)
Class GoUnicode := {
  unicode_trim_space : string → string;
  unicode_equal_fold : string → string → bool;
  unicode_equal_fold_refl : ∀ s, unicode_equal_fold s s = true;
}.

(** A table in which no character outside ASCII is white space or has another
    case. *)
#[export] Instance ascii_unicode : GoUnicode := {|
  unicode_trim_space := ascii_trim_space;
  unicode_equal_fold := ascii_equal_fold;
  unicode_equal_fold_refl := ascii_equal_fold_refl;
|}.

Definition TrimSpace `{GoUnicode} (s : string) : string :=
  if all_bytes is_ascii s then ascii_trim_space s else unicode_trim_space s.

Definition EqualFold `{GoUnicode} (s t : string) : bool :=
  if all_bytes is_ascii s && all_bytes is_ascii t then ascii_equal_fold s t
  else unicode_equal_fold s t.

Lemma EqualFold_refl `{GoUnicode} s : EqualFold s s = true.
Proof.
  unfold EqualFold. case_match; [apply ascii_equal_fold_refl | apply unicode_equal_fold_refl].
Qed.

Definition contains (l : list string) (v : string) : bool := existsb (String.eqb v) l.

Lemma contains_elem l v : contains l v = true ↔ v ∈ l.
Proof.
  unfold contains. rewrite existsb_elem. setoid_rewrite String.eqb_eq.
  split; [by intros (x & Hx & ->) | eauto].
Qed.

Lemma contains_false l v : contains l v = false ↔ v ∉ l.
Proof. rewrite <- contains_elem. by destruct (contains l v). Qed.

(** ** [path] *)

(** What follows the last byte [sep], and what precedes it, if there is one. *)
Fixpoint cut_last (sep : Ascii.ascii) (s : string) : option (string * string) :=
  match s with
  | EmptyString => None
  | String c s' =>
      match cut_last sep s' with
      | Some (a, b) => Some (String c a, b)
      | None => if Ascii.eqb c sep then Some (EmptyString, s') else None
      end
  end.

Fixpoint strip_trailing (c : Ascii.ascii) (s : string) : string :=
  match s with
  | EmptyString => EmptyString
  | String a s' =>
      match strip_trailing c s' with
      | EmptyString => if Ascii.eqb a c then EmptyString else String a EmptyString
      | t => String a t
      end
  end.

Definition slash : Ascii.ascii := "/"%char.
Definition dot : Ascii.ascii := "."%char.

(** [path.Base]. *)
Definition Base (p : string) : string :=
  if String.eqb p "" then "."
  else
    let q := strip_trailing slash p in
    let b := match cut_last slash q with Some (_, b) => b | None => q end in
    if String.eqb b "" then "/" else b.

(** [path.Ext]: from the last dot after the last slash. *)
Definition Ext (p : string) : string :=
  let b := match cut_last slash p with Some (_, b) => b | None => p end in
  match cut_last dot b with Some (_, e) => String dot e | None => "" end.

(** ** [strconv] *)

Definition itoa (z : Z) : string :=
  if z <? 0 then String "-"%char (NilEmpty.string_of_uint (N.to_uint (Z.to_N (- z))))
  else NilEmpty.string_of_uint (N.to_uint (Z.to_N z)).

Inductive num_error := ErrSyntax | ErrRange.

Definition parse_digits (s : string) : result num_error Z :=
  match s with
  | EmptyString => Err ErrSyntax
  | _ => match NilEmpty.uint_of_string s with
         | Some u => Ok (Z.of_N (N.of_uint u))
         | None => Err ErrSyntax
         end
  end.

Definition check_range (z : Z) : result num_error Z :=
  if decide (int64 z) then Ok z else Err ErrRange.

(** [strconv.ParseInt(s, 10, 64)], which [strconv.Atoi] is on a 64-bit machine. *)
Definition ParseInt (s : string) : result num_error Z :=
  match s with
  | String "-"%char s' => n ← parse_digits s'; check_range (- n)
  | String "+"%char s' => n ← parse_digits s'; check_range n
  | _ => n ← parse_digits s; check_range n
  end.

Lemma to_uint_no_leading_zero n d : N.to_uint n = Decimal.D0 d → n = 0%N.
Proof.
  intros H. pose proof (DecimalN.Unsigned.to_of (N.to_uint n)) as Hn.
  rewrite DecimalN.Unsigned.of_to, H in Hn. unfold Decimal.unorm in Hn. simpl in Hn.
  destruct (Decimal.nzhead d) eqn:E; simplify_eq.
  - apply (f_equal N.of_uint) in H. rewrite DecimalN.Unsigned.of_to in H. done.
  - by apply nzhead_nonzero in E.
Qed.

Lemma to_uint_nonempty n : NilEmpty.string_of_uint (N.to_uint n) ≠ EmptyString.
Proof.
  intros H. pose proof (NilEmpty.usu (N.to_uint n)) as Hu. rewrite H in Hu.
  simpl in Hu. injection Hu as Hu.
  pose proof (DecimalN.Unsigned.to_of (N.to_uint n)) as Hn.
  rewrite DecimalN.Unsigned.of_to, <- Hu in Hn. discriminate.
Qed.

Lemma parse_digits_print n :
  parse_digits (NilEmpty.string_of_uint (N.to_uint n)) = Ok (Z.of_N n).
Proof.
  unfold parse_digits. destruct (NilEmpty.string_of_uint _) eqn:E.
  - by apply to_uint_nonempty in E.
  - by rewrite <- E, NilEmpty.usu, DecimalN.Unsigned.of_to.
Qed.

Lemma string_of_uint_digit d c s :
  NilEmpty.string_of_uint d = String c s → is_digit c = true.
Proof. by destruct d; simpl; intros [= <- <-]. Qed.

Lemma ParseInt_itoa z : int64 z → ParseInt (itoa z) = Ok z.
Proof.
  intros Hz. unfold itoa. destruct (Z.ltb_spec z 0).
  - simpl. rewrite parse_digits_print. simpl. unfold check_range.
    rewrite Z2N.id by lia. rewrite Z.opp_involutive. by rewrite decide_True.
  - set (s := NilEmpty.string_of_uint _).
    assert (parse_digits s ≫= check_range = Ok z) as Hp.
    { unfold s. rewrite parse_digits_print. simpl. rewrite Z2N.id by lia.
      unfold check_range. by rewrite decide_True. }
    destruct s as [|c s'] eqn:E; [done|]. unfold s in E.
    apply string_of_uint_digit in E. unfold ParseInt.
    destruct c as [[] [] [] [] [] [] [] []]; try done; discriminate.
Qed.

(** ** [encoding/json] integers

    [json.Unmarshal] into an [int64]: a JSON integer literal (no sign but [-],
    no leading zero) surrounded by JSON white space, or [null], which leaves
    the zero value. *)

Definition is_json_space (c : Ascii.ascii) : bool :=
  (byte_val c =? 32) || (byte_val c =? 9) || (byte_val c =? 10) || (byte_val c =? 13).

Fixpoint trim_left_json (s : string) : string :=
  match s with
  | String c s' => if is_json_space c then trim_left_json s' else s
  | EmptyString => EmptyString
  end.
Definition trim_json (s : string) : string :=
  string_rev (trim_left_json (string_rev (trim_left_json s))).

Definition json_digits (s : string) : result num_error Z :=
  match s with
  | String "0"%char (String _ _) => Err ErrSyntax
  | _ => parse_digits s
  end.

Definition json_unmarshal_int64 (raw : string) : result num_error Z :=
  let s := trim_json raw in
  if String.eqb s "null" then Ok 0
  else match s with
       | String "-"%char s' => n ← json_digits s'; check_range (- n)
       | _ => n ← json_digits s; check_range n
       end.

(** Reversal, and trimming of a string with nothing to trim. *)
Lemma string_rev_append_list s acc :
  String.list_ascii_of_string (string_rev_append s acc) =
    rev_append (String.list_ascii_of_string s) (String.list_ascii_of_string acc).
Proof. revert acc. induction s as [|c s IH]; intros acc; simpl; [done|]. by rewrite IH. Qed.

Lemma string_rev_list s :
  String.list_ascii_of_string (string_rev s) = rev (String.list_ascii_of_string s).
Proof. unfold string_rev. rewrite string_rev_append_list. symmetry. apply rev_alt. Qed.

Lemma list_ascii_inj s t :
  String.list_ascii_of_string s = String.list_ascii_of_string t → s = t.
Proof.
  intros H. apply (f_equal String.string_of_list_ascii) in H.
  by rewrite !String.string_of_list_ascii_of_string in H.
Qed.

Lemma string_rev_involutive s : string_rev (string_rev s) = s.
Proof. apply list_ascii_inj. by rewrite !string_rev_list, rev_involutive. Qed.

Lemma all_bytes_list f s :
  all_bytes f s = forallb f (String.list_ascii_of_string s).
Proof. induction s as [|c s IH]; simpl; [done|]. by rewrite IH. Qed.

Lemma all_bytes_rev f s : all_bytes f (string_rev s) = all_bytes f s.
Proof.
  rewrite !all_bytes_list, string_rev_list. apply eq_true_iff_eq.
  rewrite !List.forallb_forall. by setoid_rewrite <- in_rev.
Qed.

Lemma trim_json_id s :
  all_bytes (λ c, negb (is_json_space c)) s = true → trim_json s = s.
Proof.
  assert (Hl : ∀ t, all_bytes (λ c, negb (is_json_space c)) t = true → trim_left_json t = t).
  { intros [|c t]; simpl; [done|]. intros [Hc _]%andb_prop.
    apply negb_true_iff in Hc. by rewrite Hc. }
  intros H. unfold trim_json. rewrite (Hl s) by done.
  rewrite Hl by (by rewrite all_bytes_rev). apply string_rev_involutive.
Qed.

Lemma digits_bytes d : all_bytes is_digit (NilEmpty.string_of_uint d) = true.
Proof. induction d; simpl; auto. Qed.

Lemma all_bytes_app f s t : all_bytes f (s +:+ t) = all_bytes f s && all_bytes f t.
Proof. induction s as [|c s IH]; [done|]. simpl. by rewrite IH, andb_assoc. Qed.

Lemma ParseInt_digits_nonneg s n : all_bytes is_digit s = true → ParseInt s = Ok n → 0 <= n <= MaxInt64.
Proof.
  intros Hd Hp.
  assert (Hq : ∃ m, parse_digits s = Ok m ∧ check_range m = Ok n).
  { destruct s as [|c s']; [done|]. simpl in Hd. apply andb_prop in Hd as [Hc _].
    destruct (Ascii.eqb_spec c "-"%char) as [->|Hm]; [done|].
    destruct (Ascii.eqb_spec c "+"%char) as [->|Hpl]; [done|].
    unfold ParseInt in Hp. destruct c as [[] [] [] [] [] [] [] []];
      try (by apply bind_ok in Hp); done. }
  destruct Hq as (m & Hm & Hr). unfold check_range in Hr. case_decide as Hi; [|done].
  injection Hr as ->. unfold parse_digits in Hm. destruct s; [done|].
  destruct (DecimalString.NilEmpty.uint_of_string _); [|done]. injection Hm as <-.
  unfold int64 in Hi. lia.
Qed.

Lemma all_bytes_impl f g s :
  (∀ c, f c = true → g c = true) → all_bytes f s = true → all_bytes g s = true.
Proof. intros Hfg. induction s as [|c s IH]; simpl; [done|]. intros [??]%andb_prop. by rewrite Hfg, IH. Qed.

Lemma digit_not_space c : is_digit c = true → negb (is_json_space c) = true.
Proof. unfold is_digit, in_range, is_json_space. intros H. bool_hyps. repeat (case_match; bool_hyps); simpl; lia. Qed.

Lemma json_digits_print n :
  json_digits (NilEmpty.string_of_uint (N.to_uint n)) = Ok (Z.of_N n).
Proof.
  rewrite <- parse_digits_print. unfold json_digits.
  destruct (N.to_uint n) eqn:E; try done; simpl; try (by destruct (NilEmpty.string_of_uint u)).
  apply to_uint_no_leading_zero in E as Hn. subst n. by injection E as <-.
Qed.

(** A non-negative integer survives being marshalled and unmarshalled. *)
Lemma json_itoa_roundtrip z :
  0 <= z → int64 z → json_unmarshal_int64 (itoa z) = Ok z.
Proof.
  intros H0 Hz. unfold itoa. destruct (Z.ltb_spec z 0); [lia|].
  unfold json_unmarshal_int64. set (u := N.to_uint (Z.to_N z)).
  rewrite trim_json_id by (eapply all_bytes_impl, digits_bytes; apply digit_not_space).
  assert (json_digits (NilEmpty.string_of_uint u) ≫= check_range = Ok z) as Hp.
  { unfold u. rewrite json_digits_print. simpl. rewrite Z2N.id by lia.
    unfold check_range. by rewrite decide_True. }
  cbv zeta. destruct (NilEmpty.string_of_uint u) as [|c s] eqn:E; [done|].
  apply string_of_uint_digit in E.
  destruct c as [[] [] [] [] [] [] [] []]; try discriminate; exact Hp.
Qed.
