(* ===== verification/GoPath.v ===== *)
(** * Go's [strings] and [path] on slash-separated paths

    What gonk uses of the two packages to take paths and path patterns apart:
    [strings.Split] and [Join] on a one-byte separator, [Contains],
    [ContainsAny], [ReplaceAll] of one byte, [path.IsAbs], [path.Clean] and
    [path.Match] for patterns without character classes and escapes. *)

From Stdlib Require Import Ascii.
From S2P Require Import Prelude.
From S2P Require Import GoStrings.

(** ** [strings] *)

Fixpoint Split (sep : ascii) (s : string) : list string :=
  match s with
  | EmptyString => [""]
  | String c s' =>
      if Ascii.eqb c sep then "" :: Split sep s'
      else match Split sep s' with
           | h :: t => String c h :: t
           | [] => [String c ""]
           end
  end.

Definition Join (l : list string) (sep : string) : string := String.concat sep l.

Fixpoint Contains_sub (s sub : string) : bool :=
  String.prefix sub s || match s with EmptyString => false | String _ s' => Contains_sub s' sub end.

(** [strings.ContainsAny] for a set of ASCII bytes, as a test on bytes. *)
Definition ContainsAny (s : string) (f : ascii → bool) : bool := negb (all_bytes (λ c, negb (f c)) s).

(** [strings.ReplaceAll] with a one-byte [old]. *)
Fixpoint ReplaceAll (s : string) (old : ascii) (new : string) : string :=
  match s with
  | EmptyString => ""
  | String c s' => (if Ascii.eqb c old then new else String c "") +:+ ReplaceAll s' old new
  end.

(** ** [path] *)

Definition IsAbs (p : string) : bool :=
  match p with String c _ => Ascii.eqb c slash | EmptyString => false end.

(** One segment of [path.Clean], on the segments kept so far, last first. *)
Definition clean_step (rooted : bool) (stack : list string) (seg : string) : list string :=
  if String.eqb seg "" || String.eqb seg "." then stack
  else if String.eqb seg ".." then
    match stack with
    | top :: rest => if String.eqb top ".." then ".." :: stack else rest
    | [] => if rooted then [] else [".."]
    end
  else seg :: stack.

Definition Clean (p : string) : string :=
  if String.eqb p "" then "."
  else
    let rooted := IsAbs p in
    let s := Join (rev (fold_left (clean_step rooted) (Split slash p) [])) "/" in
    if rooted then String slash s else if String.eqb s "" then "." else s.

(** The length in bytes of the rune a non-empty string starts with, as
    [utf8.DecodeRuneInString] takes it; an invalid encoding is one byte. *)
Definition cont (lo hi : Z) (s : string) : bool :=
  match s with String c _ => in_range lo hi c | EmptyString => false end.
Definition tail (s : string) : string :=
  match s with String _ s' => s' | EmptyString => EmptyString end.

Definition rune_len (s : string) : nat :=
  match s with
  | EmptyString => 0%nat
  | String c s1 =>
      let two lo hi := cont lo hi s1 in
      let three lo hi := cont lo hi s1 && cont 128 191 (tail s1) in
      let four lo hi := three lo hi && cont 128 191 (tail (tail s1)) in
      if in_range 194 223 c then if two 128 191 then 2%nat else 1%nat
      else if in_range 224 224 c then if three 160 191 then 3%nat else 1%nat
      else if in_range 237 237 c then if three 128 159 then 3%nat else 1%nat
      else if in_range 225 239 c then if three 128 191 then 3%nat else 1%nat
      else if in_range 240 240 c then if four 144 191 then 4%nat else 1%nat
      else if in_range 241 243 c then if four 128 191 then 4%nat else 1%nat
      else if in_range 244 244 c then if four 128 143 then 4%nat else 1%nat
      else 1%nat
  end.

Fixpoint string_drop (n : nat) (s : string) : string :=
  match n, s with
  | O, _ => s
  | S n', String _ s' => string_drop n' s'
  | S _, EmptyString => EmptyString
  end.

(** [path.Match] for patterns with no ['['] and no ['\\']: ['*'] takes any run
    of bytes but no slash, ['?'] one rune but no slash. *)
Fixpoint path_Match (pat s : string) : bool :=
  match pat with
  | EmptyString => String.eqb s ""
  | String c pat' =>
      if Ascii.eqb c "*"%char then
        (fix star (s : string) : bool :=
           path_Match pat' s ||
           match s with
           | EmptyString => false
           | String b s' => negb (Ascii.eqb b slash) && star s'
           end) s
      else match s with
           | EmptyString => false
           | String b s' =>
               if Ascii.eqb c "?"%char
               then negb (Ascii.eqb b slash) && path_Match pat' (string_drop (rune_len s) s)
               else Ascii.eqb c b && path_Match pat' s'
           end
  end.

(** ** Lemmas on [Split] and [Join] *)

Definition no_byte (sep : ascii) (s : string) : Prop := all_bytes (λ c, negb (Ascii.eqb c sep)) s = true.

Lemma Split_cons sep s : ∃ h t, Split sep s = h :: t.
Proof.
  induction s as [|c s (h & t & IH)]; simpl; [by exists "", []|].
  rewrite IH. case_match; eauto.
Qed.

Lemma Split_nonempty sep s : Split sep s ≠ [].
Proof. destruct (Split_cons sep s) as (? & ? & ->). done. Qed.

Lemma Split_no_sep sep s : Forall (no_byte sep) (Split sep s).
Proof.
  induction s as [|c s IH]; simpl; [constructor; [reflexivity|constructor]|].
  destruct (Ascii.eqb c sep) eqn:E; [constructor; [reflexivity|done]|].
  destruct (Split_cons sep s) as (h & t & Hs). rewrite Hs in *.
  apply Forall_cons in IH as [Hh Ht]. constructor; [|done].
  unfold no_byte in *. simpl. by rewrite E.
Qed.

Lemma Join_cons2 a b l sep : Join (a :: b :: l) sep = a +:+ sep +:+ Join (b :: l) sep.
Proof. reflexivity. Qed.

Lemma Join_Split sep s : Join (Split sep s) (String sep "") = s.
Proof.
  induction s as [|c s IH]; [done|]. simpl.
  destruct (Split_cons sep s) as (h & t & E). rewrite E in *.
  destruct (Ascii.eqb_spec c sep) as [->|Hne].
  - rewrite Join_cons2, IH. done.
  - destruct t as [|b t]; [simpl in *; by rewrite IH|].
    rewrite Join_cons2 in *. by rewrite <- IH.
Qed.

Lemma Split_app_sep sep h s : no_byte sep h → Split sep (h +:+ String sep s) = h :: Split sep s.
Proof.
  unfold no_byte. induction h as [|c h IH]; intros Hh; [simpl; by rewrite Ascii.eqb_refl|].
  simpl in *. apply andb_prop in Hh as [Hc Hh]. apply negb_true_iff in Hc. rewrite Hc. by rewrite IH.
Qed.

Lemma Split_single sep h : no_byte sep h → Split sep h = [h].
Proof.
  unfold no_byte. induction h as [|c h IH]; intros Hh; [done|].
  simpl in *. apply andb_prop in Hh as [Hc Hh]. apply negb_true_iff in Hc. rewrite Hc.
  by rewrite IH.
Qed.

Lemma Split_Join sep l : l ≠ [] → Forall (no_byte sep) l → Split sep (Join l (String sep "")) = l.
Proof.
  intros Hne Hf. induction Hf as [|a l Ha Hl IH]; [done|].
  destruct l as [|b l]; [by apply Split_single|].
  rewrite Join_cons2. change (String sep "" +:+ Join (b :: l) (String sep "")) with (String sep (Join (b :: l) (String sep ""))).
  rewrite Split_app_sep by done. by rewrite IH.
Qed.

(** ** [Clean] on a path that has nothing to clean *)

(** A segment that stands for a file or directory name. *)
Definition seg_ok (s : string) : Prop := s ≠ "" ∧ s ≠ "." ∧ s ≠ "..".

Lemma clean_step_ok rooted stack seg : seg_ok seg → clean_step rooted stack seg = seg :: stack.
Proof.
  intros (H1 & H2 & H3). unfold clean_step.
  by rewrite (proj2 (String.eqb_neq _ _) H1), (proj2 (String.eqb_neq _ _) H2),
    (proj2 (String.eqb_neq _ _) H3).
Qed.

Lemma clean_fold_ok rooted segs stack :
  Forall seg_ok segs → fold_left (clean_step rooted) segs stack = rev segs ++ stack.
Proof.
  intros H. revert stack. induction H as [|s segs Hs _ IH]; intros stack; [done|].
  simpl. rewrite clean_step_ok, IH by done. by rewrite <- app_assoc.
Qed.

(** What the segments kept by [Clean] of a relative path look like. *)
Definition kept (stack : list string) : Prop :=
  Forall (λ s, s ≠ "" ∧ s ≠ "." ∧ no_byte slash s) stack ∧ (".." ∈ stack → last stack = Some "..").

Lemma clean_step_kept stack seg : kept stack → no_byte slash seg → kept (clean_step false stack seg).
Proof.
  intros [Hf Hl] Hs. unfold clean_step.
  destruct (String.eqb_spec seg ""), (String.eqb_spec seg "."); try done; simpl.
  destruct (String.eqb_spec seg "..") as [->|Hne].
  - destruct stack as [|top rest].
    { split; [repeat constructor; done|done]. }
    destruct (String.eqb_spec top "..") as [->|Ht].
    + split; [by constructor|]. intros _. rewrite last_cons_cons. apply Hl. by left.
    + apply Forall_cons in Hf as [_ Hf]. split; [done|]. intros Hin.
      destruct rest as [|r rest]; [by apply elem_of_nil in Hin|].
      rewrite <- (last_cons_cons top r rest). apply Hl. by right.
  - split; [by constructor|]. intros Hin. apply elem_of_cons in Hin as [?|Hin]; [congruence|].
    destruct stack; [by apply elem_of_nil in Hin|]. rewrite last_cons_cons. by apply Hl.
Qed.

Lemma clean_fold_kept segs stack :
  kept stack → Forall (no_byte slash) segs → kept (fold_left (clean_step false) segs stack).
Proof.
  intros Hk Hf. revert stack Hk. induction Hf as [|s segs Hs _ IH]; intros; simpl; [done|].
  by apply IH, clean_step_kept.
Qed.

Lemma IsAbs_Split p : IsAbs p = true → p ≠ "" ∧ head (Split slash p) = Some "".
Proof. destruct p as [|c p]; [done|]. simpl. intros ->. done. Qed.


Lemma Split_dotdot p l :
  Split slash p = ".." :: l → p = ".." ∨ HasPrefix p "../" = true.
Proof.
  intros E. rewrite <- (Join_Split slash p), E. destruct l as [|b l]; [by left|]. right.
  change (String slash "") with "/". rewrite Join_cons2. generalize (Join (b :: l) "/"). intros r. unfold HasPrefix. simpl. by destruct r.
Qed.

Lemma HasPrefix_Split_dotdot p : HasPrefix p "../" = true → head (Split slash p) = Some "..".
Proof.
  unfold HasPrefix. destruct p as [|a [|b [|c p]]]; simpl; try done;
    repeat (case_match; simplify_eq; try done).
Qed.
