(* ===== verification/ScopeGlob.v ===== *)
(** * [pkg/scope] path patterns (glob.go)

    A pattern language on clean relative paths: a star inside a segment, a
    question mark for one character, and a double star as a whole segment.
    [matchSegs] is the matcher; [seg_matches] says declaratively what a
    pattern means; [probes] are the sample paths that decide what a configured
    pattern is aimed at. *)

From Stdlib Require Import Ascii.
From S2P Require Import Prelude.
From S2P Require Import GoStrings.
From S2P Require Import GoPath.

(** ** Definitions *)

Definition MaxPatternLen : Z := 256.
Definition MaxPatterns : Z := 64.

Inductive pattern_error :=
| PatternEmpty
| PatternTooLong
| PatternBadByte
| PatternAbsolute
| SegmentEmpty
| SegmentDots
| SegmentDoubleStar.

(** ['['], [']'], ['\'] and NUL. *)
Definition bad_byte (c : ascii) : bool :=
  (byte_val c =? 91) || (byte_val c =? 93) || (byte_val c =? 92) || (byte_val c =? 0).

Definition validate_segment (seg : string) : option pattern_error :=
  if String.eqb seg "" then Some SegmentEmpty
  else if String.eqb seg "." || String.eqb seg ".." then Some SegmentDots
  else if negb (String.eqb seg "**") && Contains_sub seg "**" then Some SegmentDoubleStar
  else None.

(** The first error of a list of checks. *)
Fixpoint first_error {A E} (check : A → option E) (l : list A) : option E :=
  match l with
  | [] => None
  | x :: l' => match check x with Some e => Some e | None => first_error check l' end
  end.

Definition ValidatePattern (p : string) : option pattern_error :=
  if String.eqb p "" then Some PatternEmpty
  else if MaxPatternLen <? len p then Some PatternTooLong
  else if ContainsAny p bad_byte then Some PatternBadByte
  else if IsAbs p then Some PatternAbsolute
  else first_error validate_segment (Split slash p).

(** ** A clean, relative, in-repository path (class.go) *)

Definition is_nul (c : ascii) : bool := byte_val c =? 0.

Definition cleanRel (p : string) : bool :=
  if String.eqb p "" || String.eqb p "." || ContainsAny p is_nul || IsAbs p then false
  else if negb (String.eqb (Clean p) p) then false
  else negb (String.eqb p "..") && negb (HasPrefix p "../").

(** A path is clean when no segment is empty, a dot or a double dot, and there
    is no NUL in it. *)
Lemma cleanRel_spec p :
  cleanRel p = true ↔ ContainsAny p is_nul = false ∧ Forall seg_ok (Split slash p).
Proof.
  unfold cleanRel. split.
  - destruct (String.eqb_spec p "") as [->|Hp0]; [done|].
    destruct (String.eqb_spec p ".") as [->|Hp1]; [done|].
    destruct (ContainsAny p is_nul); [done|]. destruct (IsAbs p) eqn:Ha; [done|]. simpl.
    destruct (String.eqb_spec (Clean p) p) as [Hc|]; [|done]. simpl. intros Hd.
    bool_hyps. split; [done|]. unfold Clean in Hc. rewrite Ha in Hc.
    destruct (String.eqb_spec p ""); [done|].
    set (stack := fold_left _ _ _) in Hc.
    assert (kept stack) as [Hk Hdots].
    { apply clean_fold_kept; [|apply Split_no_sep]. split; [constructor|]. by intros ?%elem_of_nil. }
    destruct (String.eqb_spec (Join (rev stack) "/") ""); [congruence|].
    assert (Hs : Split slash p = rev stack).
    { rewrite <- Hc at 1. apply Split_Join.
      - intros E. by rewrite E in *.
      - apply Forall_rev. eapply Forall_impl; [exact Hk|]. naive_solver. }
    rewrite Hs. apply Forall_forall. intros s Hin. rewrite list_elem_of_In, <- List.in_rev, <- list_elem_of_In in Hin.
    rewrite Forall_forall in Hk. destruct (Hk s Hin) as (? & ? & _). split_and!; [done..|].
    intros ->. apply Hdots in Hin.
    destruct stack as [|x stack _] using rev_ind; [done|].
    rewrite last_snoc in Hin. injection Hin as ->. rewrite rev_app_distr in Hs. simpl in Hs.
    apply Split_dotdot in Hs as [?|?]; congruence.
  - intros [Hn Hf]. rewrite Hn.
    destruct (String.eqb_spec p "") as [->|Hp0]; [by apply Forall_inv in Hf as [? _]|].
    destruct (String.eqb_spec p ".") as [->|Hp1]; [by apply Forall_inv in Hf as (_ & ? & _)|].
    destruct (Split_cons slash p) as (h & t & E).
    assert (Hh : seg_ok h) by (rewrite E in Hf; by apply Forall_inv in Hf).
    destruct Hh as (H1 & H2 & H3).
    destruct (IsAbs p) eqn:Ha.
    { apply IsAbs_Split in Ha as [_ Ha]. rewrite E in Ha. simpl in Ha. congruence. }
    simpl. unfold Clean. rewrite Ha. destruct (String.eqb_spec p ""); [done|].
    rewrite clean_fold_ok, app_nil_r, rev_involutive, Join_Split by done.
    destruct (String.eqb_spec p ""); [done|]. rewrite String.eqb_refl. simpl.
    destruct (String.eqb_spec p "..") as [->|_]; [by apply Forall_inv in Hf as (_ & _ & ?)|].
    destruct (HasPrefix p "../") eqn:Hd; [|done].
    apply HasPrefix_Split_dotdot in Hd. rewrite E in Hd. simpl in Hd. congruence.
Qed.

Fixpoint matchSegs (pat segs : list string) : bool :=
  match pat with
  | [] => bool_decide (segs = [])
  | p :: pat' =>
      if String.eqb p "**" then
        match pat' with
        | [] => (1 <=? length segs)%nat
        | _ => existsb (λ i, matchSegs pat' (drop i segs)) (seq 0 (S (length segs)))
        end
      else match segs with
           | [] => false
           | s :: segs' => if path_Match p s then matchSegs pat' segs' else false
           end
  end.

Definition Match (pattern p : string) : bool :=
  match ValidatePattern pattern with
  | Some _ => false
  | None => if cleanRel p then matchSegs (Split slash pattern) (Split slash p) else false
  end.

Fixpoint matchAny (patterns : list string) (p : string) : string :=
  match patterns with
  | [] => ""
  | pat :: l => if Match pat p then pat else matchAny l p
  end.

(** The segments of one probe, [None] when a segment comes out empty. *)
Fixpoint probe_segs (starFill : string) (deep : bool) (segs : list string) : option (list string) :=
  match segs with
  | [] => Some []
  | seg :: rest =>
      if String.eqb seg "**" then
        b ← probe_segs starFill deep rest;
        Some (if deep || bool_decide (rest = []) then "x" :: b else b)
      else
        let s := ReplaceAll (ReplaceAll seg "*"%char starFill) "?"%char "x" in
        if String.eqb s "" then None
        else b ← probe_segs starFill deep rest; Some (s :: b)
  end.

Definition probe_step (pattern : string) (out : list string) (fill : string * bool) : list string :=
  match probe_segs fill.1 fill.2 (Split slash pattern) with
  | None => out
  | Some b =>
      let p := Join b "/" in
      if negb (String.eqb p "") && negb (contains out p) && Match pattern p then out ++ [p] else out
  end.

Definition probes (pattern : string) : list string :=
  fold_left (probe_step pattern) [("x", true); ("x", false); ("", true); ("", false)] [].

(** ** What a pattern means *)

Inductive seg_matches : list string → list string → Prop :=
| sm_nil : seg_matches [] []
| sm_name p pat s segs :
    p ≠ "**" → path_Match p s = true → seg_matches pat segs →
    seg_matches (p :: pat) (s :: segs)
| sm_under segs : segs ≠ [] → seg_matches ["**"] segs
| sm_deep pat pre segs :
    pat ≠ [] → seg_matches pat segs → seg_matches ("**" :: pat) (pre ++ segs).

Lemma existsb_drop (f : list string → bool) (l : list string) :
  existsb (λ i, f (drop i l)) (seq 0 (S (length l))) = true ↔ ∃ pre suf, l = pre ++ suf ∧ f suf = true.
Proof.
  rewrite existsb_elem. split.
  - intros (i & Hi & Hf). exists (take i l), (drop i l). by rewrite take_drop.
  - intros (pre & suf & -> & Hf). exists (length pre). split.
    + apply elem_of_seq. rewrite length_app. lia.
    + by rewrite drop_app_length.
Qed.

Lemma matchSegs_spec pat segs : matchSegs pat segs = true ↔ seg_matches pat segs.
Proof.
  revert segs. induction pat as [|p pat IH]; intros segs; cbn [matchSegs].
  - rewrite bool_decide_eq_true. split; [intros ->; constructor|]. by inversion 1.
  - destruct (String.eqb_spec p "**") as [->|Hp].
    + destruct pat as [|q pat].
      * rewrite Nat.leb_le. split.
        -- intros Hl. constructor. by intros ->; simpl in Hl; lia.
        -- inversion 1 as [| |? Hn|? ? ? Hn]; subst; try done. destruct segs; simpl; [done|lia].
      * rewrite existsb_drop. split.
        -- intros (pre & suf & -> & Hm). apply IH in Hm. by constructor.
        -- inversion 1 as [| | |? pre suf ? Hm]; subst; try done. exists pre, suf.
           split; [done|]. by apply IH.
    + destruct segs as [|s segs].
      * split; [done|]. inversion 1; subst; done.
      * destruct (path_Match p s) eqn:E.
        -- rewrite IH. split; [by constructor|]. by inversion 1; subst.
        -- split; [done|]. inversion 1; subst; congruence.
Qed.

Lemma first_error_None {A E} (check : A → option E) l :
  first_error check l = None ↔ Forall (λ x, check x = None) l.
Proof.
  induction l as [|x l IH]; simpl; [split; [constructor|done]|].
  rewrite Forall_cons, <- IH. destruct (check x); naive_solver.
Qed.

Lemma Match_true pattern p :
  Match pattern p = true ↔
    ValidatePattern pattern = None ∧ cleanRel p = true ∧
    seg_matches (Split slash pattern) (Split slash p).
Proof.
  unfold Match. rewrite <- matchSegs_spec.
  destruct (ValidatePattern pattern); [naive_solver|]. destruct (cleanRel p); naive_solver.
Qed.

Lemma matchAny_spec patterns p :
  (∀ pat, pat ∈ patterns → Match pat p = false) ∧ matchAny patterns p = "" ∨
  ∃ pre pat post, patterns = pre ++ pat :: post ∧ Match pat p = true ∧
    (∀ q, q ∈ pre → Match q p = false) ∧ matchAny patterns p = pat.
Proof.
  induction patterns as [|q l IH]; simpl; [left; split; [set_solver|done]|].
  destruct (Match q p) eqn:E.
  - right. exists [], q, l. split_and!; [done|done|set_solver|done].
  - destruct IH as [[IH ->]|(pre & pat & post & -> & ? & Hpre & ->)].
    + left. split; [|done]. intros r Hr. apply elem_of_cons in Hr as [->|?]; auto.
    + right. exists (q :: pre), pat, post. split_and!; [done|done| |done].
      intros r Hr. apply elem_of_cons in Hr as [->|?]; auto.
Qed.

(** ** Probes: a valid pattern always has one *)

(** A segment with its wildcards filled with ["x"]. *)
Definition fill (seg : string) : string := ReplaceAll (ReplaceAll seg "*"%char "x") "?"%char "x".

Lemma fill_cons c s :
  fill (String c s) =
    String (if Ascii.eqb c "*"%char || Ascii.eqb c "?"%char then "x"%char else c) (fill s).
Proof.
  unfold fill. simpl. destruct (Ascii.eqb_spec c "*"%char) as [->|Hs]; [done|]. simpl.
  by destruct (Ascii.eqb_spec c "?"%char).
Qed.

Lemma path_Match_star pat s b :
  Ascii.eqb b slash = false → path_Match pat s = true →
  path_Match (String "*" pat) (String b s) = true.
Proof.
  intros Hb Hm. simpl. rewrite Hb. simpl. destruct s; simpl; rewrite Hm; simpl; by rewrite orb_true_r.
Qed.

Lemma path_Match_fill seg : path_Match seg (fill seg) = true.
Proof.
  induction seg as [|c seg IH]; [done|]. rewrite fill_cons.
  destruct (Ascii.eqb_spec c "*"%char) as [->|Hs].
  { apply path_Match_star; [reflexivity|]. done. }
  destruct (Ascii.eqb_spec c "?"%char) as [->|Hq]; cbn [orb].
  - change (path_Match seg (fill seg) = true). done.
  - simpl. destruct (Ascii.eqb_spec c "*"%char); [done|]. destruct (Ascii.eqb_spec c "?"%char); [done|].
    by rewrite Ascii.eqb_refl.
Qed.

Lemma fill_all_bytes f seg :
  f "x"%char = true → all_bytes f seg = true → all_bytes f (fill seg) = true.
Proof.
  intros Hx. induction seg as [|c seg IH]; [done|]. rewrite fill_cons. simpl.
  intros [? ?]%andb_prop. rewrite IH by done. by case_match; rewrite ?Hx; simpl; rewrite ?andb_true_r.
Qed.

Lemma fill_eq_dots seg t :
  all_bytes (Ascii.eqb dot) t = true → fill seg = t → seg = t.
Proof.
  revert t. induction seg as [|c seg IH]; intros t; [by intros _ <-|]. rewrite fill_cons.
  intros Ht <-. simpl in Ht. apply andb_prop in Ht as [Hc Ht].
  destruct (_ || _); [done|]. f_equal. by apply IH.
Qed.

Lemma validate_segment_None seg :
  validate_segment seg = None → seg_ok seg.
Proof.
  unfold validate_segment, seg_ok. destruct (String.eqb_spec seg ""); [done|].
  destruct (String.eqb_spec seg "."); [done|]. by destruct (String.eqb_spec seg "..").
Qed.

Lemma fill_seg_ok seg : seg_ok seg → seg_ok (fill seg).
Proof.
  intros (H1 & H2 & H3). split_and!; intros E; by apply fill_eq_dots in E.
Qed.

(** The path the deep fill makes of a valid pattern. *)
Definition fill_path (segs : list string) : list string :=
  map (λ seg, if String.eqb seg "**" then "x" else fill seg) segs.

Lemma probe_segs_fill segs :
  Forall (λ s, validate_segment s = None) segs → probe_segs "x" true segs = Some (fill_path segs).
Proof.
  induction 1 as [|seg segs Hs Hf IH]; [done|]. cbn [probe_segs fill_path map].
  rewrite IH. destruct (String.eqb seg "**"); [done|].
  fold (fill seg). apply validate_segment_None, fill_seg_ok in Hs as [Hne _].
  apply String.eqb_neq in Hne. by rewrite Hne.
Qed.

Lemma fill_path_matches segs : segs ≠ [] → seg_matches segs (fill_path segs).
Proof.
  induction segs as [|seg segs IH]; [done|]. intros _. cbn [fill_path map].
  destruct (String.eqb_spec seg "**") as [->|Hne].
  - destruct segs as [|t segs]; [by constructor|].
    apply (sm_deep (t :: segs) ["x"]); [done|]. by apply IH.
  - constructor; [done|apply path_Match_fill|]. destruct segs; [constructor|]. by apply IH.
Qed.

Lemma ValidatePattern_None p :
  ValidatePattern p = None →
  p ≠ "" ∧ ContainsAny p bad_byte = false ∧ Forall (λ s, validate_segment s = None) (Split slash p).
Proof.
  unfold ValidatePattern. destruct (String.eqb_spec p ""); [done|].
  case_match; [done|]. destruct (ContainsAny p bad_byte); [done|]. case_match; [done|].
  intros ?%first_error_None. done.
Qed.

Lemma all_bytes_Join f l :
  f slash = true → Forall (λ s, all_bytes f s = true) l → all_bytes f (Join l "/") = true.
Proof.
  intros Hf. induction 1 as [|a l Ha Hl IH]; [done|].
  destruct l as [|b l]; [done|]. rewrite Join_cons2, !all_bytes_app, Ha, IH. simpl.
  unfold slash in Hf. by rewrite Hf.
Qed.

Lemma all_bytes_Split f sep s :
  all_bytes f s = true → Forall (λ t, all_bytes f t = true) (Split sep s).
Proof.
  induction s as [|c s IH]; simpl; [by repeat constructor|]. intros [Hc Hs]%andb_prop.
  specialize (IH Hs). destruct (Ascii.eqb c sep); [constructor; done|].
  destruct (Split sep s) as [|h t]; [constructor; [simpl; by rewrite Hc|constructor]|].
  apply Forall_cons in IH as [? ?]. constructor; [simpl; by rewrite Hc|done].
Qed.

Lemma fill_path_clean p :
  ValidatePattern p = None →
  let q := Join (fill_path (Split slash p)) "/" in
  Split slash q = fill_path (Split slash p) ∧ cleanRel q = true.
Proof.
  intros (Hp & Hb & Hs)%ValidatePattern_None. cbv zeta.
  assert (Hsplit : Split slash (Join (fill_path (Split slash p)) "/") = fill_path (Split slash p)).
  { apply Split_Join.
    - unfold fill_path. intros E%map_eq_nil. by apply Split_nonempty in E.
    - apply Forall_map. pose proof (Split_no_sep slash p) as Hn.
      eapply Forall_impl; [exact Hn|]. intros s Hs'. unfold no_byte in *. simpl.
      case_match; [done|]. by apply fill_all_bytes. }
  split; [done|]. apply cleanRel_spec. rewrite Hsplit. split.
  - unfold ContainsAny in *. apply negb_false_iff. apply negb_false_iff in Hb.
    apply all_bytes_Join; [done|]. apply Forall_map.
    apply (all_bytes_Split _ slash) in Hb. eapply Forall_impl; [exact Hb|].
    intros s Hs'. simpl. case_match; [done|]. apply fill_all_bytes; [done|].
    eapply all_bytes_impl; [|exact Hs']. intros c. unfold bad_byte, is_nul.
    destruct (byte_val c =? 0); [|done]. by rewrite orb_true_r.
  - apply Forall_map. eapply Forall_impl; [exact Hs|]. intros s Hv%validate_segment_None.
    simpl. case_match; [done|]. by apply fill_seg_ok.
Qed.

Lemma probe_step_keeps pattern out f x : x ∈ out → x ∈ probe_step pattern out f.
Proof.
  intros Hx. unfold probe_step. case_match; [|done]. cbv zeta. case_match; [|done].
  apply elem_of_app. by left.
Qed.

Lemma probe_in_probes pattern :
  ValidatePattern pattern = None → Join (fill_path (Split slash pattern)) "/" ∈ probes pattern.
Proof.
  intros Hv. pose proof (fill_path_clean pattern Hv) as [Hsp Hc].
  destruct (ValidatePattern_None pattern Hv) as (Hne & _ & Hs).
  set (q := Join (fill_path (Split slash pattern)) "/") in *.
  assert (Hm : Match pattern q = true).
  { apply Match_true. split_and!; [done..|]. rewrite Hsp. apply fill_path_matches, Split_nonempty. }
  unfold probes. cbn [fold_left].
  apply probe_step_keeps, probe_step_keeps, probe_step_keeps.
  unfold probe_step. simpl. rewrite (probe_segs_fill _ Hs). fold q.
  destruct (String.eqb_spec q "") as [E|_]; [by rewrite E in Hc|]. simpl. rewrite Hm. simpl.
  by apply list_elem_of_singleton.
Qed.

Lemma probe_step_sound pattern out f :
  NoDup out → Forall (λ p, Match pattern p = true) out →
  NoDup (probe_step pattern out f) ∧ Forall (λ p, Match pattern p = true) (probe_step pattern out f).
Proof.
  intros Hn Hf. unfold probe_step. case_match; [|done]. cbv zeta. case_match eqn:E; [|done].
  bool_hyps. split.
  - apply NoDup_app. split_and!; [done| |apply NoDup_singleton].
    intros x Hx ->%list_elem_of_singleton. apply contains_false in H2. done.
  - apply Forall_app. split; [done|]. by constructor.
Qed.

Lemma probes_sound pattern :
  NoDup (probes pattern) ∧ Forall (λ p, Match pattern p = true) (probes pattern).
Proof.
  unfold probes. generalize [("x", true); ("x", false); ("", true); ("", false)].
  assert (H : NoDup (@nil string) ∧ Forall (λ p, Match pattern p = true) []) by (split; constructor).
  revert H. generalize (@nil string). intros out [H1 H2] l. revert out H1 H2.
  induction l as [|f l IH]; intros out H1 H2; [done|]. simpl.
  destruct (probe_step_sound pattern out f H1 H2). by apply IH.
Qed.

(** A pattern means what its grammar says: [Match] accepts a path
    exactly when the pattern is well formed, the path is clean and relative,
    and its segments match, a star staying inside one segment and a double
    star standing for any run of segments, at least one when it comes last. *)
Theorem Match_means (pattern p : string) :
  Match pattern p = true ↔
    ValidatePattern pattern = None ∧
    (ContainsAny p is_nul = false ∧ Forall seg_ok (Split slash p)) ∧
    seg_matches (Split slash pattern) (Split slash p).
Proof. rewrite Match_true, cleanRel_spec. done. Qed.

(** The aim check is never vacuous: every pattern that validates has a
    probe, and every probe is a distinct path the pattern really matches. *)
Theorem probes_cover (pattern : string) (H : ValidatePattern pattern = None) :
  probes pattern ≠ [] ∧ NoDup (probes pattern) ∧
  ∀ p, p ∈ probes pattern → Match pattern p = true.
Proof.
  destruct (probes_sound pattern) as [Hn Hf]. split_and!; [|done|by rewrite Forall_forall in Hf].
  intros E. pose proof (probe_in_probes pattern H) as Hin. rewrite E in Hin. by apply elem_of_nil in Hin.
Qed.

Lemma probes_cover_witness :
  ValidatePattern "docs/**/*.md" = None ∧ probes "docs/**/*.md" = ["docs/x/x.md"; "docs/x.md"; "docs/x/.md"; "docs/.md"]
  ∧ Match "docs/**/*.md" "docs/x.md" = true.
Proof.
  split; [reflexivity|]. split; [vm_compute; reflexivity|].
  apply (probes_cover "docs/**/*.md"); [reflexivity|]. vm_compute. right. left.
Defined.
