(* ===== verification/ScopeClass.v ===== *)
(** * [pkg/scope] classes, the lattice and the built-in table (class.go, profile.go)

    Every repository path has one class. The core rows and the shipped
    ecosystem profiles make the pattern table, in class order; [classify]
    walks it. [CheckMove] is the lattice of reclassifications configuration
    may ask for. A [Class] is a string, as in the code: unknown classes exist
    and are protected. *)

From Stdlib Require Import Ascii.
From S2P Require Import Prelude.
From S2P Require Import GoStrings.
From S2P Require Import GoPath.
From S2P Require Import ScopeGlob.

(** ** Classes (class.go) *)

Abbreviation Class_ := string (only parsing).

Definition ClassControl := "control".
Definition ClassSecret := "secret".
Definition ClassCI := "ci".
Definition ClassDeploy := "deploy".
Definition ClassTestConfig := "test-config".
Definition ClassDeps := "deps".
Definition ClassAgentContext := "agent-context".
Definition ClassGenerated := "generated".
Definition ClassTest := "test".
Definition ClassDocs := "docs".
Definition ClassSource := "source".
Definition ClassOther := "other".

Definition classOrder : list Class_ :=
  [ClassControl; ClassSecret; ClassCI; ClassDeploy; ClassTestConfig; ClassDeps;
   ClassAgentContext; ClassGenerated; ClassTest; ClassDocs; ClassSource; ClassOther].

Fixpoint rank_in (l : list string) (c : string) (i : Z) : Z :=
  match l with
  | [] => -1
  | k :: l' => if String.eqb k c then i else rank_in l' c (i + 1)
  end.

Definition classRank (c : Class_) : Z := rank_in classOrder c 0.
Definition Valid (c : Class_) : bool := 0 <=? classRank c.

Inductive Sensitivity := Protected | Sensitive | Normal.
#[export] Instance Sensitivity_eq_dec : EqDecision Sensitivity.
Proof. solve_decision. Defined.

Definition SensitivityOf (c : Class_) : Sensitivity :=
  if contains [ClassTest; ClassDocs; ClassSource] c then Normal
  else if contains [ClassDeploy; ClassTestConfig; ClassDeps; ClassAgentContext; ClassGenerated;
                    ClassOther] c then Sensitive
  else Protected.

Definition Liftable (c : Class_) : bool := String.eqb c ClassCI.
Definition Floor : list Class_ := [ClassControl; ClassSecret].

Definition core : list (Class_ * list string) :=
  [(ClassControl, [".git/**"; "**/CODEOWNERS"; "**/.gonk.yml"]);
   (ClassSecret, ["**/*.pem"; "**/*.key"; "**/.env*"; "**/id_rsa*"; "**/*.p12"; "**/secrets/**"]);
   (ClassCI, [".gitlab-ci.yml"; ".gitlab-ci.yaml"; ".gitlab/**"; ".github/**"]);
   (ClassDeploy, ["chart/**"; "charts/**"; "deploy/**"; "k8s/**"; "**/Dockerfile*";
                  "**/kustomization.yaml"]);
   (ClassAgentContext, [".agent/**"])].

Definition included (includes : list string) (p : string) : bool :=
  existsb (λ inc, String.eqb inc p || Match inc p) includes.

Abbreviation Layer := string (only parsing).
Definition LayerOperator : Layer := "operator".
Definition LayerProject : Layer := "project".

Definition unlocked (c : Class_) : bool :=
  String.eqb c ClassSource || String.eqb c ClassOther || String.eqb c ClassTest
  || String.eqb c ClassDocs.

Inductive move_error :=
| UnknownClass
| Locked
| OnlySourceOrOther
| OnlyOther
| OperatorOnly
| NoKey.

Definition CheckMove (from to : Class_) (layer : Layer) : option move_error :=
  if negb (Valid from) || negb (Valid to) then Some UnknownClass
  else if String.eqb from to || String.eqb to ClassControl then None
  else if negb (unlocked from) then Some Locked
  else if String.eqb to ClassCI then None
  else if String.eqb to ClassTest || String.eqb to ClassDocs then
    if String.eqb from ClassSource || String.eqb from ClassOther then None
    else Some OnlySourceOrOther
  else if String.eqb to ClassSource then
    if negb (String.eqb from ClassOther) then Some OnlyOther
    else if negb (String.eqb layer LayerOperator) then Some OperatorOnly
    else None
  else Some NoKey.

(** ** Profiles (profile.go) *)

Abbreviation ProfileKind := string (only parsing).
Definition ProfileEcosystem : ProfileKind := "ecosystem".
Definition ProfileDocs : ProfileKind := "docs".
Abbreviation Weakening_ := string (only parsing).
Definition WeakeningDeterministic : Weakening_ := "deterministic".
Definition WeakeningNone : Weakening_ := "none".

Record ProfileRow := mkProfileRow { RowClass : Class_; Patterns : list string }.

Record Profile := mkProfile {
  ProfName : string;
  Kind : ProfileKind;
  Rows : list ProfileRow;
  Weakening : Weakening_;
  Markers : list string;
}.

(** The menu as written (the one-line summaries are documentation only). *)
Definition menu : list Profile := [
  mkProfile "go" ProfileEcosystem
    [mkProfileRow ClassTestConfig
       ["Makefile"; "**/*.mk"; ".golangci.yml"; "**/testmain_test.go"; "go.work"];
     mkProfileRow ClassDeps ["go.mod"; "go.sum"; "vendor/**"];
     mkProfileRow ClassTest ["**/*_test.go"; "**/testdata/**"];
     mkProfileRow ClassSource ["**/*.go"]]
    WeakeningDeterministic ["go.mod"];
  mkProfile "python" ProfileEcosystem
    [mkProfileRow ClassTestConfig
       ["**/conftest.py"; "**/pytest.ini"; "**/tox.ini"; "**/noxfile.py"; "**/setup.cfg";
        "**/.coveragerc"];
     mkProfileRow ClassDeps
       ["**/requirements*.txt"; "**/constraints*.txt"; "**/pyproject.toml"; "**/setup.py";
        "**/Pipfile*"; "**/poetry.lock"; "**/uv.lock"; "**/.pypirc"];
     mkProfileRow ClassGenerated ["**/*_pb2.py"; "**/*_pb2_grpc.py"; "**/*_pb2.pyi"];
     mkProfileRow ClassTest ["**/tests/**"; "**/test_*.py"; "**/*_test.py"];
     mkProfileRow ClassSource ["**/*.py"]]
    WeakeningNone ["pyproject.toml"; "setup.py"; "requirements.txt"];
  mkProfile "node" ProfileEcosystem
    [mkProfileRow ClassTestConfig
       ["**/jest.config.*"; "**/vitest.config.*"; "**/playwright.config.*"; "**/cypress.config.*";
        "**/karma.conf.*"; "**/.mocharc*"; "**/tsconfig*.json"; "**/.eslintrc*";
        "**/eslint.config.*"];
     mkProfileRow ClassDeps
       ["**/package.json"; "**/package-lock.json"; "**/npm-shrinkwrap.json"; "**/yarn.lock";
        "**/pnpm-lock.yaml"; "**/pnpm-workspace.yaml"; "**/bun.lockb"; "**/bun.lock"; "**/.npmrc";
        "**/.yarnrc*"; "**/node_modules/**"];
     mkProfileRow ClassGenerated ["**/*.min.js"; "**/*.min.css"; "**/*.js.map"; "**/*.css.map"];
     mkProfileRow ClassTest
       ["**/*.test.js"; "**/*.test.jsx"; "**/*.test.ts"; "**/*.test.tsx"; "**/*.test.mjs";
        "**/*.test.cjs"; "**/*.spec.js"; "**/*.spec.jsx"; "**/*.spec.ts"; "**/*.spec.tsx";
        "**/*.spec.mjs"; "**/*.spec.cjs"; "**/__tests__/**"];
     mkProfileRow ClassSource
       ["**/*.js"; "**/*.jsx"; "**/*.ts"; "**/*.tsx"; "**/*.mjs"; "**/*.cjs"]]
    WeakeningNone ["package.json"];
  mkProfile "docs-md" ProfileDocs
    [mkProfileRow ClassDocs ["**/*.md"; "docs/**"; "CHANGELOG*"]] "" [];
  mkProfile "docs-rst" ProfileDocs
    [mkProfileRow ClassTestConfig ["docs/**/conf.py"; "doc/**/conf.py"];
     mkProfileRow ClassDocs ["**/*.rst"; "CHANGELOG*"]] "" [];
  mkProfile "docs-txt" ProfileDocs
    [mkProfileRow ClassTestConfig ["**/CMakeLists.txt"];
     mkProfileRow ClassDocs ["**/*.txt"; "CHANGELOG*"]] "" [];
  mkProfile "docs-adoc" ProfileDocs
    [mkProfileRow ClassDocs ["**/*.adoc"; "**/*.asciidoc"; "CHANGELOG*"]] "" []
].

Definition defaultProfiles : list string := ["go"; "docs-md"].

Definition is_lower (c : ascii) : bool := in_range 97 122 c.

(** [^[a-z][a-z0-9-]{0,31}$]. *)
Definition profileNameRe (s : string) : bool :=
  match s with
  | EmptyString => false
  | String c s' => is_lower c && all_bytes (λ c, is_lower c || is_digit c || (byte_val c =? 45)) s'
                   && (len s' <=? 31)
  end.

Definition profileClass (c : Class_) : bool :=
  contains [ClassDeploy; ClassTestConfig; ClassDeps; ClassGenerated; ClassTest; ClassDocs;
            ClassSource] c.

Definition alwaysApplies (c : Class_) : bool := negb (bool_decide (SensitivityOf c = Normal)).

Inductive profile_error :=
| BadName
| ListedTwice
| WeakeningMissing
| DocsWeakening
| DocsMarkers
| UnknownKind
| NoRows
| RowClassForbidden (c : Class_)
| DocsRowForbidden (c : Class_)
| RowTwice (c : Class_)
| RowEmpty (c : Class_)
| RowPattern (c : Class_) (e : pattern_error)
| BadMarker (m : string)
| UnknownProfile (key n : string)
| ProfileTwice (key n : string)
| NotAllowed (n : string).

(** The checks of one row, given the classes of the rows before it. *)
Fixpoint validate_rows (kind : ProfileKind) (seen : gset string) (rows : list ProfileRow) :
    option profile_error :=
  match rows with
  | [] => None
  | row :: rest =>
      let c := RowClass row in
      if negb (profileClass c) then Some (RowClassForbidden c)
      else if String.eqb kind ProfileDocs && (String.eqb c ClassTest || String.eqb c ClassSource)
      then Some (DocsRowForbidden c)
      else if decide (c ∈ seen) then Some (RowTwice c)
      else match Patterns row with
           | [] => Some (RowEmpty c)
           | pats =>
               match first_error ValidatePattern pats with
               | Some e => Some (RowPattern c e)
               | None => validate_rows kind ({[c]} ∪ seen) rest
               end
           end
  end.

(** ['*'], ['?'] and ['/']. *)
Definition marker_byte (c : ascii) : bool :=
  (byte_val c =? 42) || (byte_val c =? 63) || (byte_val c =? 47).

Definition validate_marker (m : string) : option profile_error :=
  if negb (cleanRel m) || ContainsAny m marker_byte then Some (BadMarker m) else None.

Definition kind_error (pr : Profile) : option profile_error :=
  if String.eqb (Kind pr) ProfileEcosystem then
    if negb (String.eqb (Weakening pr) WeakeningDeterministic)
       && negb (String.eqb (Weakening pr) WeakeningNone) then Some WeakeningMissing else None
  else if String.eqb (Kind pr) ProfileDocs then
    if negb (String.eqb (Weakening pr) "") then Some DocsWeakening
    else if (0 <? length (Markers pr))%nat then Some DocsMarkers else None
  else Some UnknownKind.

Definition validate_profile (seen : gset string) (pr : Profile) : option profile_error :=
  if negb (profileNameRe (ProfName pr)) then Some BadName
  else if decide (ProfName pr ∈ seen) then Some ListedTwice
  else
    match kind_error pr with
    | Some e => Some e
    | None =>
        match Rows pr with
        | [] => Some NoRows
        | rows => match validate_rows (Kind pr) ∅ rows with
                  | Some e => Some e
                  | None => first_error validate_marker (Markers pr)
                  end
        end
    end.

Fixpoint validate_menu (seen : gset string) (l : list Profile) : option profile_error :=
  match l with
  | [] => None
  | pr :: rest => match validate_profile seen pr with
                  | Some e => Some e
                  | None => validate_menu ({[ProfName pr]} ∪ seen) rest
                  end
  end.

Definition validateProfiles (l : list Profile) : option profile_error := validate_menu ∅ l.

(** [mustProfiles] panics on an invalid menu: [None]. *)
Definition mustProfiles (l : list Profile) : option (list Profile) :=
  match validateProfiles l with Some _ => None | None => Some l end.

Definition shipped : list Profile := default [] (mustProfiles menu).

Definition ProfileNames : list string := map ProfName shipped.

Definition LookupProfile (name : string) : option Profile :=
  List.find (λ pr, String.eqb (ProfName pr) name) shipped.

Definition WeakeningPredicate (profile : string) : bool :=
  match LookupProfile profile with
  | Some pr => String.eqb (Weakening pr) WeakeningDeterministic
  | None => false
  end.

Fixpoint check_names (key : string) (seen : gset string) (names : list string) : option profile_error :=
  match names with
  | [] => None
  | n :: rest =>
      match LookupProfile n with
      | None => Some (UnknownProfile key n)
      | Some _ => if decide (n ∈ seen) then Some (ProfileTwice key n)
                  else check_names key ({[n]} ∪ seen) rest
      end
  end.

Definition checkProfileNames (key : string) (names : list string) : option profile_error :=
  check_names key ∅ names.

Definition ProfileMarkers : list string := concat (map Markers shipped).

Record ProfileEvidence := mkEvidence { EvProfile : string; EvMarker : string }.

Definition propose_step (found : list string) (pr : Profile) : list ProfileEvidence :=
  match List.find (λ m, contains found m) (Markers pr) with
  | Some m => [mkEvidence (ProfName pr) m]
  | None => []
  end.

Definition ProposeProfiles (found : list string) : list string * list ProfileEvidence :=
  let evidence := concat (map (propose_step found) shipped) in
  match evidence with
  | [] => (defaultProfiles, [])
  | _ => (map EvProfile evidence ++ ["docs-md"], evidence)
  end.

(** ** The compiled table *)

Record tablePattern := mkTablePattern {
  tp_pattern : string;
  tp_profile : string;
  tp_segs : list string;
  tp_base : string;
}.

Definition tablePattern_match (tp : tablePattern) (segs : list string) : bool :=
  if negb (String.eqb (tp_base tp) "") then path_Match (tp_base tp) (List.last segs "")
  else matchSegs (tp_segs tp) segs.

Record tableRow := mkTableRow { tr_class : Class_; tr_pats : list tablePattern }.
Abbreviation table := (list tableRow) (only parsing).

Definition add_pattern (pattern profile : string) : tablePattern :=
  let segs := Split slash pattern in
  mkTablePattern pattern profile segs
    (match segs with
     | [a; b] => if String.eqb a "**" && negb (String.eqb b "**") then b else ""
     | _ => ""
     end).

Definition core_patterns (c : Class_) : list tablePattern :=
  concat (map (λ cr, if String.eqb cr.1 c then map (λ pat, add_pattern pat "") cr.2 else []) core).

Definition profile_patterns (c : Class_) (pr : Profile) : list tablePattern :=
  concat (map (λ r, if String.eqb (RowClass r) c
                    then map (λ pat, add_pattern pat (ProfName pr)) (Patterns r) else []) (Rows pr)).

Definition build_row (l : list Profile) (selected : list string) (c : Class_) : tableRow :=
  mkTableRow c
    (core_patterns c ++
     concat (map (λ pr, if negb (alwaysApplies c) && negb (contains selected (ProfName pr)) then []
                        else profile_patterns c pr) l)).

Definition buildTable (l : list Profile) (selected : list string) : table :=
  map (build_row l selected) (filter (λ c, c ≠ ClassOther) classOrder).

Definition defaultTable : table := buildTable shipped defaultProfiles.

(** ** Classification (profile.go, classify.go) *)

(** [Generated] is the set of keys the code's map holds [true] for. *)
Record BaseFacts := mkBaseFacts { CILocalIncludes : list string; Generated : gset string }.
Definition BaseFacts_zero : BaseFacts := mkBaseFacts [] ∅.

Fixpoint classify_rows (t : table) (p : string) (segs : list string) (base : BaseFacts) :
    Class_ * string :=
  match t with
  | [] => (ClassOther, "")
  | row :: t' =>
      if String.eqb (tr_class row) ClassGenerated && bool_decide (p ∈ Generated base)
      then (ClassGenerated, "")
      else if String.eqb (tr_class row) ClassCI && included (CILocalIncludes base) p
      then (ClassCI, "")
      else match List.find (λ tp, tablePattern_match tp segs) (tr_pats row) with
           | Some tp => (tr_class row, tp_profile tp)
           | None => classify_rows t' p segs base
           end
  end.

Definition classify (t : table) (p : string) (base : BaseFacts) : Class_ * string :=
  if negb (cleanRel p) then (ClassControl, "")
  else classify_rows t p (Split slash p) base.

Definition Builtin (p : string) : Class_ := (classify defaultTable p BaseFacts_zero).1.

(** ** Lemmas *)

Lemma contains_cons l x v : contains (x :: l) v = String.eqb v x || contains l v.
Proof. reflexivity. Qed.

Lemma rank_in_elem l c i : 0 <= i → 0 <= rank_in l c i ↔ c ∈ l.
Proof.
  revert i. induction l as [|k l IH]; intros i Hi; simpl.
  - split; [lia|]. by intros ?%elem_of_nil.
  - rewrite elem_of_cons. destruct (String.eqb_spec k c) as [->|Hne]; [naive_solver|].
    rewrite IH by lia. naive_solver.
Qed.

Lemma Valid_elem c : Valid c = true ↔ c ∈ classOrder.
Proof. unfold Valid. rewrite Z.leb_le. by apply rank_in_elem. Qed.

(** The compiled shortcut for [**/name] patterns agrees with the matcher. *)
Lemma matchSegs_base b segs :
  b ≠ "**" → segs ≠ [] → matchSegs ["**"; b] segs = path_Match b (List.last segs "").
Proof.
  intros Hb Hs. destruct segs as [|s segs _] using rev_ind; [done|]. rewrite List.last_last.
  apply eq_true_iff_eq. rewrite matchSegs_spec. split.
  - inversion 1 as [| |? |? pre suf ? Hm Heq]; subst; [done|].
    inversion Hm as [|? ? t ? _ Ht Hnil| |]; subst; [|done|done].
    inversion Hnil; subst.
    match goal with H : _ ++ [_] = _ ++ [_] |- _ => apply app_inj_tail in H as [_ ->] end. done.
  - intros Hm. apply sm_deep; [done|]. constructor; [done..|constructor].
Qed.

Lemma tablePattern_match_add pattern profile segs :
  segs ≠ [] → tablePattern_match (add_pattern pattern profile) segs = matchSegs (Split slash pattern) segs.
Proof.
  intros Hs. unfold tablePattern_match, add_pattern. cbn [tp_base tp_segs].
  destruct (Split slash pattern) as [|a [|b [|d l]]]; try done.
  destruct (String.eqb_spec a "**") as [->|]; [|done].
  destruct (String.eqb_spec b "**") as [->|Hb]; [done|]. cbn [andb negb].
  destruct (String.eqb_spec b "") as [->|]; [done|]. cbn [negb]. by rewrite matchSegs_base.
Qed.

Lemma tablePattern_match_Match pattern profile p :
  ValidatePattern pattern = None → cleanRel p = true →
  tablePattern_match (add_pattern pattern profile) (Split slash p) = Match pattern p.
Proof.
  intros Hv Hc. rewrite tablePattern_match_add by apply Split_nonempty.
  unfold Match. by rewrite Hv, Hc.
Qed.

(** What a validated menu guarantees. *)
Definition menu_ok (l : list Profile) : Prop :=
  Forall (λ pr, Forall (λ r, profileClass (RowClass r) = true ∧
                             Forall (λ pat, ValidatePattern pat = None) (Patterns r)) (Rows pr)) l.

Lemma validate_rows_ok kind seen rows :
  validate_rows kind seen rows = None →
  Forall (λ r, profileClass (RowClass r) = true ∧
               Forall (λ pat, ValidatePattern pat = None) (Patterns r)) rows.
Proof.
  revert seen. induction rows as [|r rows IH]; intros seen; cbn [validate_rows];
    [constructor|].
  destruct (profileClass (RowClass r)) eqn:Hc; [|done]. cbn [negb].
  destruct (String.eqb kind ProfileDocs && _); [done|]. case_decide; [done|].
  destruct (Patterns r) as [|a pats] eqn:Hp; [done|].
  destruct (first_error ValidatePattern (a :: pats)) eqn:Hf; [done|].
  intros Hr. constructor; [|by eapply IH]. split; [done|]. rewrite Hp. by apply first_error_None.
Qed.

Lemma validateProfiles_ok l : validateProfiles l = None → menu_ok l.
Proof.
  unfold validateProfiles, menu_ok. generalize (∅ : gset string).
  induction l as [|pr l IH]; intros seen; simpl; [constructor|].
  destruct (validate_profile seen pr) eqn:Hv; [done|]. intros Hl. constructor; [|by eapply IH].
  unfold validate_profile in Hv. destruct (profileNameRe _); [|done].
  cbn [negb] in Hv. case_decide; [done|]. cbv zeta in Hv. revert Hv.
  destruct (kind_error pr); [done|]. intros Hv. destruct (Rows pr) as [|r rows]; [done|].
  destruct (validate_rows (Kind pr) ∅ (r :: rows)) eqn:E; [done|]. by apply validate_rows_ok in E.
Qed.

Lemma shipped_valid : validateProfiles shipped = None.
Proof. vm_compute. reflexivity. Qed.

Lemma profile_patterns_nil l c :
  menu_ok l → profileClass c = false → Forall (λ pr, profile_patterns c pr = []) l.
Proof.
  intros Hm Hc. eapply Forall_impl; [exact Hm|]. intros pr Hr. unfold profile_patterns.
  induction Hr as [|r rows [Hr _] _ IH]; [done|]. simpl.
  destruct (String.eqb_spec (RowClass r) c) as [<-|]; [congruence|done].
Qed.

Lemma concat_map_nil {A B} (f : A → list B) l : Forall (λ x, f x = []) l → concat (map f l) = [].
Proof. induction 1 as [|x l Hx _ IH]; simpl; [done|]. by rewrite Hx, IH. Qed.

(** A row that no profile may speak for has the core patterns only. *)
Lemma build_row_core l selected c :
  menu_ok l → profileClass c = false → build_row l selected c = build_row [] [] c.
Proof.
  intros Hm Hc. unfold build_row. f_equal. f_equal. apply concat_map_nil.
  eapply Forall_impl; [by apply (profile_patterns_nil l c)|]. intros pr Hp. simpl. by case_match.
Qed.

(** A row that always applies does not read the selection. *)
Lemma build_row_always l selected selected' c :
  alwaysApplies c = true → build_row l selected c = build_row l selected' c.
Proof.
  intros Ha. unfold build_row. f_equal. f_equal. f_equal. apply map_ext. intros pr. by rewrite Ha.
Qed.

(** A row of a selectable class is empty when nothing is selected. *)
Lemma build_row_unselected l c :
  alwaysApplies c = false → core_patterns c = [] → tr_pats (build_row l [] c) = [].
Proof.
  intros Ha Hc. unfold build_row. simpl. rewrite Hc, Ha. apply concat_map_nil.
  apply Forall_forall. intros pr _. by destruct pr.
Qed.

(** The first row that claims a path. *)
Fixpoint row_hit (t : table) (p : string) (base : BaseFacts) : option (Class_ * string) :=
  match t with
  | [] => None
  | row :: t' =>
      if String.eqb (tr_class row) ClassGenerated && bool_decide (p ∈ Generated base)
      then Some (ClassGenerated, "")
      else if String.eqb (tr_class row) ClassCI && included (CILocalIncludes base) p
      then Some (ClassCI, "")
      else match List.find (λ tp, tablePattern_match tp (Split slash p)) (tr_pats row) with
           | Some tp => Some (tr_class row, tp_profile tp)
           | None => row_hit t' p base
           end
  end.

Lemma classify_row_hit t p base :
  classify_rows t p (Split slash p) base = default (ClassOther, "") (row_hit t p base).
Proof. induction t as [|row t IH]; [done|]. simpl. repeat (case_match; try done). Qed.

Lemma row_hit_app t1 t2 p base :
  row_hit (t1 ++ t2) p base =
    match row_hit t1 p base with Some r => Some r | None => row_hit t2 p base end.
Proof. induction t1 as [|row t1 IH]; [done|]. simpl. repeat (case_match; try done). Qed.

Lemma row_hit_class t p base c prof :
  row_hit t p base = Some (c, prof) → c ∈ map tr_class t.
Proof.
  induction t as [|row t IH]; [done|]. cbn [row_hit map].
  destruct (_ && bool_decide _) eqn:E1.
  { apply andb_prop in E1 as [E1%String.eqb_eq _]. intros [= <- _]. rewrite <- E1. by left. }
  destruct (_ && included _ _) eqn:E2.
  { apply andb_prop in E2 as [E2%String.eqb_eq _]. intros [= <- _]. rewrite <- E2. by left. }
  case_match; [intros [= <- _]; by left|]. intros ?. right. auto.
Qed.

(** The table splits into the rows that always apply and the selectable ones. *)
Definition always_classes : list Class_ :=
  [ClassControl; ClassSecret; ClassCI; ClassDeploy; ClassTestConfig; ClassDeps; ClassAgentContext;
   ClassGenerated].
Definition selectable_classes : list Class_ := [ClassTest; ClassDocs; ClassSource].
Definition protected_classes : list Class_ := [ClassControl; ClassSecret; ClassCI].

Lemma buildTable_split l selected :
  buildTable l selected =
    map (build_row l selected) always_classes ++ map (build_row l selected) selectable_classes.
Proof. reflexivity. Qed.

Lemma always_rows l selected selected' :
  map (build_row l selected) always_classes = map (build_row l selected') always_classes.
Proof.
  apply map_ext_in. intros c Hc%list_elem_of_In. apply build_row_always.
  apply (proj1 (Forall_forall (λ c, alwaysApplies c = true) always_classes)); [|done].
  repeat (constructor; [reflexivity|]). constructor.
Qed.

Lemma protected_rows l selected :
  menu_ok l → map (build_row l selected) protected_classes = map (build_row [] []) protected_classes.
Proof.
  intros Hm. apply map_ext_in. intros c Hc%list_elem_of_In. apply build_row_core; [done|].
  apply (proj1 (Forall_forall (λ c, profileClass c = false) protected_classes)); [|done].
  repeat (constructor; [reflexivity|]). constructor.
Qed.

Lemma selectable_none l p base : row_hit (map (build_row l []) selectable_classes) p base = None.
Proof.
  unfold selectable_classes. cbn [map row_hit].
  rewrite !build_row_unselected by reflexivity. reflexivity.
Qed.

Lemma row_classes l selected cs : map tr_class (map (build_row l selected) cs) = cs.
Proof. induction cs as [|c cs IH]; simpl; [done|]. by rewrite IH. Qed.

Lemma classify_clean t p base :
  cleanRel p = true → classify t p base = default (ClassOther, "") (row_hit t p base).
Proof. intros Hc. unfold classify. rewrite Hc. apply classify_row_hit. Qed.

(** Selecting profiles only ever turns [other] into test, docs or
    source. Over every path, every base fact, every valid menu and every
    selection: a path that a core row makes control, secret or ci keeps that
    class; a path that some row claims with nothing selected keeps its class;
    and any other path becomes test, docs or source, or stays [other]. *)
Theorem selection_only_moves_other (l : list Profile) (selected : list string) (p : string)
    (base : BaseFacts) (Hl : validateProfiles l = None) :
  let floor := (classify (buildTable [] []) p base).1 in
  let unselected := (classify (buildTable l []) p base).1 in
  let c := (classify (buildTable l selected) p base).1 in
  (SensitivityOf floor = Protected → c = floor) ∧
  (unselected ≠ ClassOther → c = unselected) ∧
  (unselected = ClassOther → c ∈ [ClassTest; ClassDocs; ClassSource; ClassOther]).
Proof.
  cbv zeta. apply validateProfiles_ok in Hl.
  destruct (cleanRel p) eqn:Hc.
  2: { unfold classify. rewrite Hc. cbn [negb fst]. split_and!; [done|done|discriminate]. }
  rewrite !classify_clean by done.
  rewrite !buildTable_split, !row_hit_app, !selectable_none, (always_rows l [] selected).
  split_and!.
  - assert (Hsplit : ∀ l s, map (build_row l s) always_classes =
        map (build_row l s) protected_classes ++ map (build_row l s) (drop 3 always_classes)) by done.
    rewrite !Hsplit, !row_hit_app, (protected_rows l selected Hl).
    destruct (row_hit (map (build_row [] []) protected_classes) p base); [done|].
    destruct (row_hit (map (build_row [] []) (drop 3 always_classes)) p base) as [[c q]|] eqn:E.
    + apply row_hit_class in E. rewrite row_classes in E. simpl. intros HP. exfalso.
      repeat (apply elem_of_cons in E as [->|E]; [discriminate HP|]). by apply elem_of_nil in E.
    + discriminate.
  - by destruct (row_hit (map (build_row l selected) always_classes) p base).
  - destruct (row_hit (map (build_row l selected) always_classes) p base) as [[c q]|] eqn:E.
    + apply row_hit_class in E. rewrite row_classes in E. simpl. intros ->. exfalso.
      repeat (apply elem_of_cons in E as [E|E]; [discriminate E|]). by apply elem_of_nil in E.
    + intros _. destruct (row_hit (map (build_row l selected) selectable_classes) p base)
        as [[c q]|] eqn:E'; simpl; [|set_solver].
      apply row_hit_class in E'. rewrite row_classes in E'. unfold selectable_classes in E'. set_solver.
Qed.

Lemma selection_only_moves_other_witness :
  (classify (buildTable shipped ["python"]) "app/main.py" BaseFacts_zero).1 = ClassSource ∧
  (classify (buildTable shipped ["python"]) "app/conftest.py" BaseFacts_zero).1 = ClassTestConfig.
Proof.
  split.
  - pose proof (selection_only_moves_other shipped ["python"] "app/main.py" BaseFacts_zero shipped_valid)
      as (_ & _ & H).
    vm_compute. reflexivity.
  - pose proof (selection_only_moves_other shipped ["python"] "app/conftest.py" BaseFacts_zero shipped_valid)
      as (_ & H & _).
    rewrite H by (vm_compute; discriminate). vm_compute. reflexivity.
Defined.

(** *** The compiled table against a plain reading of the menu *)

(** Some pattern listed for class [c], core or profile, matches the path. *)
Definition pattern_claims (l : list Profile) (selected : list string) (c : Class_) (p : string) : bool :=
  existsb (λ cr, String.eqb cr.1 c && existsb (λ pat, Match pat p) cr.2) core ||
  existsb (λ pr, (alwaysApplies c || contains selected (ProfName pr)) &&
     existsb (λ r, String.eqb (RowClass r) c && existsb (λ pat, Match pat p) (Patterns r)) (Rows pr)) l.

Definition class_claims (l : list Profile) (selected : list string) (base : BaseFacts) (p : string)
    (c : Class_) : bool :=
  (String.eqb c ClassGenerated && bool_decide (p ∈ Generated base)) ||
  (String.eqb c ClassCI && included (CILocalIncludes base) p) || pattern_claims l selected c p.

(** The class as the documentation states it: the first class, in class
    order, with a base fact or a pattern for the path. *)
Definition reference_class (l : list Profile) (selected : list string) (base : BaseFacts) (p : string) :
    Class_ :=
  if cleanRel p
  then default ClassOther
         (List.find (class_claims l selected base p) (always_classes ++ selectable_classes))
  else ClassControl.

Lemma existsb_concat {A} (f : A → bool) (ll : list (list A)) :
  existsb f (concat ll) = existsb (existsb f) ll.
Proof. induction ll as [|l ll IH]; simpl; [done|]. by rewrite existsb_app, IH. Qed.

Lemma existsb_map {A B} (f : B → bool) (g : A → B) l : existsb f (map g l) = existsb (f ∘ g) l.
Proof. induction l as [|x l IH]; simpl; [done|]. by rewrite IH. Qed.

Lemma existsb_ext {A} (f g : A → bool) l : Forall (λ x, f x = g x) l → existsb f l = existsb g l.
Proof. induction 1 as [|x l Hx _ IH]; simpl; [done|]. by rewrite Hx, IH. Qed.

Lemma existsb_add_patterns prof p pats :
  cleanRel p = true → Forall (λ pat, ValidatePattern pat = None) pats →
  existsb (λ tp, tablePattern_match tp (Split slash p)) (map (λ pat, add_pattern pat prof) pats) =
  existsb (λ pat, Match pat p) pats.
Proof.
  intros Hc Hv. rewrite existsb_map. apply existsb_ext. eapply Forall_impl; [exact Hv|].
  intros pat Hp. simpl. by apply tablePattern_match_Match.
Qed.

Lemma core_valid : Forall (λ cr, Forall (λ pat, ValidatePattern pat = None) cr.2) core.
Proof. repeat constructor. Qed.

Lemma build_row_claims l selected c p :
  menu_ok l → cleanRel p = true →
  existsb (λ tp, tablePattern_match tp (Split slash p)) (tr_pats (build_row l selected c)) =
  pattern_claims l selected c p.
Proof.
  intros Hm Hc. unfold build_row, pattern_claims, core_patterns. cbn [tr_pats].
  rewrite existsb_app, !existsb_concat, !existsb_map. f_equal.
  - apply existsb_ext. eapply Forall_impl; [exact core_valid|]. intros [c' pats] Hp. simpl in *.
    destruct (String.eqb c' c); [|done]. by apply existsb_add_patterns.
  - apply existsb_ext. eapply Forall_impl; [exact Hm|]. intros pr Hr. simpl.
    rewrite <- negb_orb. destruct (_ || _); simpl; [|done].
    unfold profile_patterns. rewrite existsb_concat, existsb_map. apply existsb_ext.
    eapply Forall_impl; [exact Hr|]. intros r [_ Hp]. simpl.
    destruct (String.eqb _ c); [|done]. by apply existsb_add_patterns.
Qed.

Lemma find_existsb {A} (f : A → bool) l :
  match List.find f l with Some _ => true | None => false end = existsb f l.
Proof. induction l as [|x l IH]; simpl; [done|]. by destruct (f x). Qed.

Lemma row_hit_find l selected base p cs :
  menu_ok l → cleanRel p = true →
  fst <$> row_hit (map (build_row l selected) cs) p base =
  List.find (class_claims l selected base p) cs.
Proof.
  intros Hm Hc. induction cs as [|c cs IH]; [done|]. cbn [map row_hit List.find].
  unfold class_claims at 1. rewrite <- (build_row_claims l selected c p) by done.
  rewrite <- find_existsb. cbn [tr_class build_row].
  destruct (String.eqb_spec c ClassGenerated) as [->|]; simpl.
  - destruct (bool_decide _); simpl; [done|]. by case_match.
  - destruct (String.eqb_spec c ClassCI) as [->|]; simpl.
    + destruct (included _ _); simpl; [done|]. by case_match.
    + by case_match.
Qed.

(** C38. The compiled table, with its shortcut for file-name patterns, is an
    optimisation only: for every valid menu, selection, base facts and path it
    answers the class a plain reading of the rows gives, the first class in
    order with a fact or a matching pattern. *)
Theorem classify_reference (l : list Profile) (selected : list string) (base : BaseFacts) (p : string)
    (Hl : validateProfiles l = None) :
  (classify (buildTable l selected) p base).1 = reference_class l selected base p.
Proof.
  apply validateProfiles_ok in Hl. unfold reference_class. destruct (cleanRel p) eqn:Hc.
  - rewrite classify_clean by done. rewrite buildTable_split, <- map_app, <- row_hit_find by done.
    by destruct (row_hit _ p base).
  - unfold classify. by rewrite Hc.
Qed.

Lemma classify_reference_witness :
  reference_class shipped defaultProfiles BaseFacts_zero "pkg/x/key_test.go" = ClassTest.
Proof.
  rewrite <- (classify_reference shipped defaultProfiles BaseFacts_zero "pkg/x/key_test.go" shipped_valid).
  vm_compute. reflexivity.
Defined.

(** *** The lattice *)

(** One reclassification that some layer may make. *)
Definition may_move (c d : Class_) : Prop := ∃ layer, CheckMove c d layer = None.

Lemma CheckMove_None c d layer :
  CheckMove c d layer = None →
  c = d ∨ d = ClassControl ∨
  (unlocked c = true ∧
     (d = ClassCI ∨ (d = ClassTest ∨ d = ClassDocs) ∧ (c = ClassSource ∨ c = ClassOther) ∨
      d = ClassSource ∧ c = ClassOther ∧ layer = LayerOperator)).
Proof.
  unfold CheckMove. destruct (negb (Valid c) || negb (Valid d)); [done|].
  destruct (String.eqb_spec c d), (String.eqb_spec d ClassControl); simpl; auto.
  destruct (unlocked c); simpl; [|done].
  destruct (String.eqb_spec d ClassCI); [auto 10|].
  destruct (String.eqb_spec d ClassTest), (String.eqb_spec d ClassDocs); simpl;
    try (destruct (String.eqb_spec c ClassSource), (String.eqb_spec c ClassOther); simpl; by auto 10).
  destruct (String.eqb_spec d ClassSource); [|done].
  destruct (String.eqb_spec c ClassOther); [|done]. simpl.
  destruct (String.eqb_spec layer LayerOperator); [auto 10|done].
Qed.

(** No chain of reclassifications widens. Whatever layers make whatever
    permitted moves one after another, a locked class (control, secret, ci,
    deploy, test-config, deps, agent-context, generated) is left toward
    control only, nothing is ever moved into secret or another sensitive
    class, and test or docs are reached from source and other alone. *)
Theorem lattice_closed (c d : Class_) (H : rtc may_move c d) :
  (unlocked c = false → d = c ∨ d = ClassControl) ∧
  (d = c ∨ d ∈ [ClassControl; ClassCI; ClassTest; ClassDocs; ClassSource]) ∧
  (d ∈ [ClassTest; ClassDocs] → d ≠ c → c ∈ [ClassSource; ClassOther]) ∧
  (d = ClassSource → d ≠ c → c = ClassOther).
Proof.
  induction H as [c|c e d [layer Hm] _ IH]; [split_and!; auto; done|].
  apply CheckMove_None in Hm.
  destruct Hm as [->|[->|(Hu & Hm)]]; [done| |].
  - destruct IH as [IH _]. destruct (IH eq_refl) as [->| ->]; split_and!; auto; set_solver.
  - rewrite Hu. destruct IH as (IH1 & IH2 & IH3 & IH4).
    destruct Hm as [->|[[[->| ->] Hc]|(-> & -> & _)]].
    + destruct (IH1 eq_refl) as [->| ->]; split_and!; auto; set_solver.
    + split_and!; [done|set_solver| |]; intros Hd; set_solver.
    + split_and!; [done|set_solver| |]; intros Hd; set_solver.
    + split_and!; [done|set_solver| |]; intros Hd; set_solver.
Qed.

Lemma lattice_closed_witness :
  rtc may_move ClassOther ClassTest ∧ ClassOther ∈ [ClassSource; ClassOther].
Proof.
  assert (H : rtc may_move ClassOther ClassTest).
  { apply (rtc_l may_move ClassOther ClassSource); [exists LayerOperator; reflexivity|].
    apply rtc_once. exists LayerProject. reflexivity. }
  split; [exact H|]. apply (lattice_closed ClassOther ClassTest H); [left|discriminate].
Defined.
