(* ===== verification/ScopePolicy.v ===== *)
(** * [pkg/scope] policy layers, the fold and the classifier (policy.go, fold.go, classify.go)

    One layer's [scope:] section, its validation, the fold of two operator
    layers, the fold of a pack row with the operator and project layers into
    an [Effective] scope, the path classifier under that scope, and the
    per-dispatch lift. A list the code compares with nil is an [option];
    [map[Class]bool] values are finite maps read with default [false]. *)

From Stdlib Require Import Ascii.
From S2P Require Import Prelude.
From S2P Require Import GoStrings.
From S2P Require Import GoPath.
From S2P Require Import ScopeGlob.
From S2P Require Import ScopeClass.

(** ** One layer (policy.go) *)

Record Caps := mkCaps {
  MaxFiles : Z; MaxLines : Z; MaxDeletes : Z; MaxFileBytes : Z; MaxPatchBytes : Z;
}.

Record CapsPolicy := mkCapsPolicy {
  cp_MaxFiles : option Z; cp_MaxLines : option Z; cp_MaxDeletes : option Z;
  cp_MaxFileBytes : option Z; cp_MaxPatchBytes : option Z;
}.

Definition CapsPolicy_each (c : CapsPolicy) : list (string * option Z) :=
  [("max_files", cp_MaxFiles c); ("max_lines", cp_MaxLines c); ("max_deletes", cp_MaxDeletes c);
   ("max_file_bytes", cp_MaxFileBytes c); ("max_patch_bytes", cp_MaxPatchBytes c)].

Record Policy := mkPolicy {
  p_Classes : option (list Class_);
  p_Caps : CapsPolicy;
  ProtectedPaths : list string;
  CIPaths : list string;
  TestPaths : list string;
  DocsPaths : list string;
  SourcePaths : list string;
  DenyLift : list Class_;
  p_Profiles : option (list string);
  AllowedProfiles : option (list string);
}.

(** [Policy{}]. *)
Definition Policy_zero : Policy :=
  mkPolicy None (mkCapsPolicy None None None None None) [] [] [] [] [] [] None None.

Definition Policy_IsZero (p : Policy) : bool :=
  if bool_decide (is_Some (p_Classes p)) || bool_decide (is_Some (p_Profiles p))
     || bool_decide (is_Some (AllowedProfiles p))
     || (0 <? length (ProtectedPaths p) + length (CIPaths p) + length (TestPaths p)
              + length (DocsPaths p) + length (SourcePaths p) + length (DenyLift p))%nat
  then false
  else forallb (λ c, bool_decide (c.2 = None)) (CapsPolicy_each (p_Caps p)).

Record pattern_key := mkKey { pk_key : string; pk_to : Class_; pk_patterns : list string }.

Definition patternKeys (p : Policy) : list pattern_key :=
  [mkKey "protected_paths" ClassControl (ProtectedPaths p);
   mkKey "ci_paths" ClassCI (CIPaths p);
   mkKey "test_paths" ClassTest (TestPaths p);
   mkKey "docs_paths" ClassDocs (DocsPaths p);
   mkKey "source_paths" ClassSource (SourcePaths p)].

Inductive policy_error :=
| UnknownLayer (layer : Layer)
| PolicyUnknownClass (c : Class_)
| PolicyProtectedClass (c : Class_)
| NegativeCap (key : string)
| DenyLiftNotLiftable (c : Class_)
| SourcePathsOperatorOnly
| ProfilesProjectOnly
| AllowedProfilesOperatorOnly
| BadProfiles (e : profile_error)
| TooManyPatterns (key : string)
| BadPattern (key : string) (e : pattern_error)
| AimedAt (key pattern : string) (from : Class_) (probe : string) (e : move_error).

Definition check_class (c : Class_) : option policy_error :=
  if negb (Valid c) then Some (PolicyUnknownClass c)
  else if bool_decide (SensitivityOf c = Protected) then Some (PolicyProtectedClass c)
  else None.

Definition check_cap (c : string * option Z) : option policy_error :=
  match c.2 with
  | Some v => if v <? 0 then Some (NegativeCap c.1) else None
  | None => None
  end.

Definition check_probe (t : list tableRow) (layer : Layer) (k : pattern_key) (pat probe : string) :
    option policy_error :=
  let from := (classify t probe BaseFacts_zero).1 in
  match CheckMove from (pk_to k) layer with
  | Some e => Some (AimedAt (pk_key k) pat from probe e)
  | None => None
  end.

Definition check_pattern (t : list tableRow) (layer : Layer) (k : pattern_key) (pat : string) :
    option policy_error :=
  match ValidatePattern pat with
  | Some e => Some (BadPattern (pk_key k) e)
  | None => first_error (check_probe t layer k pat) (probes pat)
  end.

Definition check_key (t : list tableRow) (layer : Layer) (k : pattern_key) : option policy_error :=
  if MaxPatterns <? Z.of_nat (length (pk_patterns k)) then Some (TooManyPatterns (pk_key k))
  else first_error (check_pattern t layer k) (pk_patterns k).

(** Checks run in order; the first error wins. *)
Definition or_else {E} (a b : option E) : option E := match a with Some e => Some e | None => b end.

Definition Policy_Validate (p : Policy) (layer : Layer) : option policy_error :=
  if negb (String.eqb layer LayerOperator) && negb (String.eqb layer LayerProject)
  then Some (UnknownLayer layer)
  else
    or_else (first_error check_class (default [] (p_Classes p)))
    (or_else (first_error check_cap (CapsPolicy_each (p_Caps p)))
    (or_else (first_error (λ c, if Liftable c then None else Some (DenyLiftNotLiftable c)) (DenyLift p))
    (if String.eqb layer LayerProject && (0 <? length (SourcePaths p))%nat
     then Some SourcePathsOperatorOnly
     else if String.eqb layer LayerOperator && bool_decide (is_Some (p_Profiles p))
     then Some ProfilesProjectOnly
     else if String.eqb layer LayerProject && bool_decide (is_Some (AllowedProfiles p))
     then Some AllowedProfilesOperatorOnly
     else
       or_else (BadProfiles <$> checkProfileNames "profiles" (default [] (p_Profiles p)))
       (or_else (BadProfiles <$> checkProfileNames "allowed_profiles" (default [] (AllowedProfiles p)))
          (let tbl := match p_Profiles p with
                      | Some l => buildTable shipped l
                      | None => defaultTable
                      end in
           first_error (check_key tbl layer) (patternKeys p)))))).

Definition containsClass (l : list Class_) (c : Class_) : bool := existsb (λ x, String.eqb x c) l.

Definition keep_new (keep : string → bool) (out : list string) (c : string) : list string :=
  if keep c && negb (containsClass out c) then out ++ [c] else out.

Definition foldClasses (a b : option (list Class_)) : option (list Class_) :=
  match a, b with
  | None, None => None
  | None, Some b => Some b
  | Some a, None => Some a
  | Some a, Some b => Some (fold_left (keep_new (containsClass b)) a [])
  end.

Definition minCap (a b : option Z) : option Z :=
  match a, b with
  | None, None => None
  | None, Some b => Some b
  | Some a, None => Some a
  | Some a, Some b => if a <=? b then Some a else Some b
  end.

Definition unionStrings (a b : list string) : list string :=
  fold_left (keep_new (λ _, true)) (a ++ b) [].

Definition foldAllowedProfiles (a b : option (list string)) : option (list string) :=
  match a, b with
  | None, None => None
  | None, Some b => Some b
  | Some a, None => Some a
  | Some a, Some b => Some (fold_left (keep_new (containsClass b)) a [])
  end.

Definition FoldPolicies (base next : Policy) : Policy := {|
  p_Classes := foldClasses (p_Classes base) (p_Classes next);
  p_Caps := mkCapsPolicy
    (minCap (cp_MaxFiles (p_Caps base)) (cp_MaxFiles (p_Caps next)))
    (minCap (cp_MaxLines (p_Caps base)) (cp_MaxLines (p_Caps next)))
    (minCap (cp_MaxDeletes (p_Caps base)) (cp_MaxDeletes (p_Caps next)))
    (minCap (cp_MaxFileBytes (p_Caps base)) (cp_MaxFileBytes (p_Caps next)))
    (minCap (cp_MaxPatchBytes (p_Caps base)) (cp_MaxPatchBytes (p_Caps next)));
  ProtectedPaths := unionStrings (ProtectedPaths base) (ProtectedPaths next);
  CIPaths := unionStrings (CIPaths base) (CIPaths next);
  TestPaths := unionStrings (TestPaths base) (TestPaths next);
  DocsPaths := unionStrings (DocsPaths base) (DocsPaths next);
  SourcePaths := unionStrings (SourcePaths base) (SourcePaths next);
  DenyLift := fold_left (keep_new (λ _, true)) (DenyLift base ++ DenyLift next) [];
  p_Profiles := None;
  AllowedProfiles := foldAllowedProfiles (AllowedProfiles base) (AllowedProfiles next);
|}.

(** ** The selection of profiles (profile.go) *)

Definition allow_step (acc : result profile_error (gset string)) (op : Policy) :
    result profile_error (gset string) :=
  allowed ← acc;
  match AllowedProfiles op with
  | None => Ok allowed
  | Some names =>
      match checkProfileNames "allowed_profiles" names with
      | Some e => Err e
      | None => Ok (filter (λ n, n ∈ allowed) (list_to_set names))
      end
  end.

Definition in_set (s : gset string) (n : string) : bool := bool_decide (n ∈ s).

Definition wanted (project : Policy) (allowed : gset string) : result profile_error (gset string) :=
  match p_Profiles project with
  | None => Ok (list_to_set (List.filter (in_set allowed) defaultProfiles))
  | Some names =>
      match checkProfileNames "profiles" names with
      | Some e => Err e
      | None => match List.find (λ n, negb (in_set allowed n)) names with
                | Some n => Err (NotAllowed n)
                | None => Ok (list_to_set names)
                end
      end
  end.

Definition SelectProfiles (project : Policy) (operator : list Policy) :
    result profile_error (list string) :=
  match fold_left allow_step operator (Ok (list_to_set ProfileNames)) with
  | Err e => Err e
  | Ok allowed => match wanted project allowed with
                  | Err e => Err e
                  | Ok want => Ok (List.filter (in_set want) ProfileNames)
                  end
  end.

(** ** The fold (fold.go) *)

Record Row := mkRow { r_Classes : list Class_; r_Liftable : list Class_; r_Caps : Caps }.

Inductive fold_error :=
| BadBaseSHA (sha : string)
| RowUnknownClass (c : Class_)
| RowProtectedClass (c : Class_)
| RowNotLiftable (c : Class_)
| RowNegativeCap
| LayerInvalid (name : string) (e : policy_error)
| OptInNotLiftable (c : Class_)
| SelectionRefused (e : profile_error)
| BeadPattern (e : pattern_error)
| LiftNoDispatch
| LiftNoClass
| LiftDisabled
| LiftUnknownClass (c : Class_)
| LiftFloor (c : Class_)
| LiftNotGranted (c : Class_).

Definition Row_validate (r : Row) : option fold_error :=
  or_else (first_error (λ c, if negb (Valid c) then Some (RowUnknownClass c)
                             else if bool_decide (SensitivityOf c = Protected)
                             then Some (RowProtectedClass c) else None) (r_Classes r))
  (or_else (first_error (λ c, if Liftable c then None else Some (RowNotLiftable c)) (r_Liftable r))
     (first_error (λ v, if v <? 0 then Some RowNegativeCap else None)
        [MaxFiles (r_Caps r); MaxLines (r_Caps r); MaxDeletes (r_Caps r); MaxFileBytes (r_Caps r);
         MaxPatchBytes (r_Caps r)])).

Record Input := mkInput {
  in_Row : Row;
  in_Instance : Policy;
  in_Group : Policy;
  in_Project : Policy;
  in_BaseSHA : string;
  in_Enabled : bool;
  in_LiftOptIn : list Class_;
}.

Definition is_hex (c : Ascii.ascii) : bool := is_digit c || in_range 97 102 c.

(** [^([0-9a-f]{40}|[0-9a-f]{64})$]. *)
Definition shaRe (s : string) : bool :=
  ((len s =? 40) || (len s =? 64)) && all_bytes is_hex s.

Record layerPattern := mkLayerPattern {
  lp_pattern : string;
  lp_layer : Layer;
  lp_name : string;
  lp_key : string;
  lp_to : Class_;
}.

Record Effective := mkEffective {
  Enabled : bool;
  e_Classes : list Class_;
  e_Caps : Caps;
  BaseSHA : string;
  liftable : gmap string bool;
  patterns : list layerPattern;
  bead : list (list string);
  profiles : list string;
  tbl : option (list tableRow);
}.

(** [Effective{}]. *)
Definition Effective_zero : Effective :=
  mkEffective false [] (mkCaps 0 0 0 0 0) "" ∅ [] [] [] None.

Definition Effective_table (e : Effective) : list tableRow := default defaultTable (tbl e).

(** [m[c]] of a [map[Class]bool]. *)
Definition flag (m : gmap string bool) (c : Class_) : bool := default false (m !! c).

Definition orderedClasses (set : gset string) : list Class_ := filter (λ c, c ∈ set) classOrder.

Definition intersectSet (have : gset string) (with_ : list Class_) : gset string :=
  filter (λ c, c ∈ have) (list_to_set with_).

Definition lower_cap (dst : Z) (v : option Z) : Z :=
  match v with Some v => if v <? dst then v else dst | None => dst end.

Definition lower_caps (c : Caps) (l : CapsPolicy) : Caps := {|
  MaxFiles := lower_cap (MaxFiles c) (cp_MaxFiles l);
  MaxLines := lower_cap (MaxLines c) (cp_MaxLines l);
  MaxDeletes := lower_cap (MaxDeletes c) (cp_MaxDeletes l);
  MaxFileBytes := lower_cap (MaxFileBytes c) (cp_MaxFileBytes l);
  MaxPatchBytes := lower_cap (MaxPatchBytes c) (cp_MaxPatchBytes l);
|}.

Record layer_entry := mkLayerEntry { le_name : string; le_layer : Layer; le_p : Policy }.

Definition layer_patterns (l : layer_entry) : list layerPattern :=
  concat (map (λ k, map (λ pat, mkLayerPattern pat (le_layer l) (le_name l) (pk_key k) (pk_to k))
                      (pk_patterns k)) (patternKeys (le_p l))).

(** What the loop over the layers keeps: the allowed set, the caps, the lift
    flags and the configured patterns. *)
Record fold_state := mkFoldState {
  fs_allowed : gset string;
  fs_caps : Caps;
  fs_liftable : gmap string bool;
  fs_patterns : list layerPattern;
}.

Definition fold_layer (s : fold_state) (l : layer_entry) : fold_state := {|
  fs_allowed := match p_Classes (le_p l) with
                | Some cs => intersectSet (fs_allowed s) cs
                | None => fs_allowed s
                end;
  fs_caps := lower_caps (fs_caps s) (p_Caps (le_p l));
  fs_liftable := fold_left (λ m c, <[c := false]> m) (DenyLift (le_p l)) (fs_liftable s);
  fs_patterns := fs_patterns s ++ layer_patterns l;
|}.

Definition layers_of (i : Input) : list layer_entry :=
  [mkLayerEntry "instance" LayerOperator (in_Instance i);
   mkLayerEntry "group" LayerOperator (in_Group i);
   mkLayerEntry "project" LayerProject (in_Project i)].

Definition row_liftable (optIn : list Class_) (l : list Class_) : gmap string bool :=
  fold_left (λ m c, <[c := containsClass optIn c]> m) l ∅.

Definition Fold (i : Input) : result fold_error Effective :=
  if negb (shaRe (in_BaseSHA i)) then Err (BadBaseSHA (in_BaseSHA i))
  else match Row_validate (in_Row i) with
  | Some e => Err e
  | None =>
  match first_error (λ l, LayerInvalid (le_name l) <$> Policy_Validate (le_p l) (le_layer l)) (layers_of i) with
  | Some e => Err e
  | None =>
  match first_error (λ c, if Liftable c then None else Some (OptInNotLiftable c)) (in_LiftOptIn i) with
  | Some e => Err e
  | None =>
  match SelectProfiles (in_Project i) [in_Instance i; in_Group i] with
  | Err e => Err (SelectionRefused e)
  | Ok profiles =>
      let s := fold_left fold_layer (layers_of i)
                 (mkFoldState (list_to_set (r_Classes (in_Row i))) (r_Caps (in_Row i))
                    (row_liftable (in_LiftOptIn i) (r_Liftable (in_Row i))) []) in
      Ok {| Enabled := in_Enabled i; e_Classes := orderedClasses (fs_allowed s);
            e_Caps := fs_caps s; BaseSHA := in_BaseSHA i; liftable := fs_liftable s;
            patterns := fs_patterns s; bead := []; profiles := profiles;
            tbl := Some (buildTable shipped profiles) |}
  end end end end.

(** ** Lifts *)

Record Lift := mkLift { lift_classes : string; lift_trigger : string; lift_workflow : string }.
Definition Lift_zero : Lift := mkLift "" "" "".

Definition comma : Ascii.ascii := ","%char.

Definition Has (l : Lift) (c : Class_) : bool :=
  if negb (Liftable c) then false
  else existsb (λ k, String.eqb k c) (Split comma (lift_classes l)).

Definition Lift_Empty (l : Lift) : bool := String.eqb (lift_classes l) "".

Definition Lift_Classes (l : Lift) : list Class_ := filter (λ c, Has l c = true) classOrder.

Definition Allows (e : Effective) (c : Class_) (lift : Lift) : bool :=
  if negb (Enabled e) || negb (Valid c) then false
  else if bool_decide (SensitivityOf c = Protected)
  then Liftable c && Has lift c && flag (liftable e) c
  else existsb (λ k, String.eqb k c) (e_Classes e).

Definition Effective_Liftable `{MapRange} (e : Effective) : list Class_ :=
  orderedClasses
    (if Enabled e
     then list_to_set (map fst (filter (λ kv, kv.2 = true ∧ Liftable kv.1 = true) (range_map (liftable e))))
     else ∅).

Definition with_classes (e : Effective) (cs : list Class_) : Effective :=
  mkEffective (Enabled e) cs (e_Caps e) (BaseSHA e) (liftable e) (patterns e) (bead e) (profiles e) (tbl e).

Definition Narrow (e : Effective) (classes : list Class_) : Effective :=
  with_classes e (orderedClasses (intersectSet (list_to_set (e_Classes e)) classes)).

Definition WithBead (e : Effective) (globs : list string) : result fold_error Effective :=
  match globs with
  | [] => Ok e
  | _ => match first_error ValidatePattern globs with
         | Some err => Err (BeadPattern err)
         | None => Ok (mkEffective (Enabled e) (e_Classes e) (e_Caps e) (BaseSHA e) (liftable e)
                         (patterns e) (bead e ++ [globs]) (profiles e) (tbl e))
         end
  end.

Definition InBead (e : Effective) (p : string) : bool :=
  forallb (λ globs, negb (String.eqb (matchAny globs p) "")) (bead e).

Record Grant := mkGrant { Trigger : string; Workflow : string; g_Classes : list Class_ }.

Definition GrantLift `{GoUnicode} (e : Effective) (g : Grant) : Lift * option fold_error :=
  if String.eqb (TrimSpace (Trigger g)) "" || String.eqb (TrimSpace (Workflow g)) ""
  then (Lift_zero, Some LiftNoDispatch)
  else match g_Classes g with
  | [] => (Lift_zero, Some LiftNoClass)
  | cs =>
      if negb (Enabled e) then (Lift_zero, Some LiftDisabled)
      else match first_error (λ c, if negb (Valid c) then Some (LiftUnknownClass c)
                                   else if negb (Liftable c) then Some (LiftFloor c)
                                   else if negb (flag (liftable e) c) then Some (LiftNotGranted c)
                                   else None) cs with
           | Some err => (Lift_zero, Some err)
           | None => (mkLift (Join (orderedClasses (list_to_set cs)) ",") (Trigger g) (Workflow g), None)
           end
  end.

(** ** The classifier (classify.go) *)

Record Refusal := mkRefusal {
  rf_To : Class_; rf_Layer : string; rf_Key : string; rf_Pattern : string; rf_Reason : move_error;
}.

Record Decision := mkDecision {
  Path : string;
  d_Class : Class_;
  d_Builtin : Class_;
  d_Profile : string;
  d_Layer : string;
  d_Key : string;
  d_Pattern : string;
  Refused : list Refusal;
}.

Definition Reclassified (d : Decision) : bool := negb (String.eqb (d_Class d) (d_Builtin d)).

Definition WeakeningDecidable (d : Decision) : bool :=
  if negb (String.eqb (d_Class d) ClassSource) && negb (String.eqb (d_Class d) ClassTest) then true
  else WeakeningPredicate (d_Profile d).

Inductive log_entry :=
| LogRefused (path : string) (from : Class_) (r : Refusal)
| LogReclassified (path : string) (from to : Class_) (layer key pattern : string).

Record Classifier := mkClassifier { c_eff : Effective; c_tbl : list tableRow; c_base : BaseFacts }.

Definition Effective_Classifier (e : Effective) (base : BaseFacts) : Classifier :=
  mkClassifier e (Effective_table e) base.

Definition reclass_keys : list string :=
  ["protected_paths"; "ci_paths"; "test_paths"; "docs_paths"; "source_paths"].

(** The loop over the keys: the refusals met, and the pattern that moved it. *)
Fixpoint consult (pats : list layerPattern) (builtin : Class_) (p : string) (keys : list string) :
    list Refusal * option layerPattern :=
  match keys with
  | [] => ([], None)
  | key :: rest =>
      match List.find (λ lp, String.eqb (lp_key lp) key && negb (String.eqb (lp_to lp) builtin)
                             && Match (lp_pattern lp) p) pats with
      | None => consult pats builtin p rest
      | Some lp =>
          match CheckMove builtin (lp_to lp) (lp_layer lp) with
          | Some err =>
              let '(rs, m) := consult pats builtin p rest in
              (mkRefusal (lp_to lp) (lp_name lp) (lp_key lp) (lp_pattern lp) err :: rs, m)
          | None => ([], Some lp)
          end
      end
  end.

Definition Classify (c : Classifier) (p : string) : Decision * list log_entry :=
  let '(builtin, profile) := classify (c_tbl c) p (c_base c) in
  if negb (cleanRel p) then (mkDecision p builtin builtin profile "" "" "" [], [])
  else
    let '(refused, moved) := consult (patterns (c_eff c)) builtin p reclass_keys in
    let d := match moved with
             | Some lp => mkDecision p (lp_to lp) builtin profile (lp_name lp) (lp_key lp)
                            (lp_pattern lp) refused
             | None => mkDecision p builtin builtin profile "" "" "" refused
             end in
    (d, map (LogRefused p builtin) refused ++
        (if Reclassified d
         then [LogReclassified p builtin (d_Class d) (d_Layer d) (d_Key d) (d_Pattern d)] else [])).

(** ** Lemmas: lists and flags *)

Lemma containsClass_elem l c : containsClass l c = true ↔ c ∈ l.
Proof.
  unfold containsClass. rewrite existsb_elem. setoid_rewrite String.eqb_eq.
  split; [by intros (x & Hx & ->) | eauto].
Qed.

Lemma containsClass_app l l' c :
  containsClass (l ++ l') c = containsClass l c || containsClass l' c.
Proof. apply existsb_app. Qed.

Lemma keep_new_elem keep l out x :
  x ∈ fold_left (keep_new keep) l out ↔ x ∈ out ∨ (x ∈ l ∧ keep x = true).
Proof.
  revert out. induction l as [|y l IH]; intros out; simpl; [set_solver|].
  rewrite IH. unfold keep_new. destruct (keep y) eqn:E; simpl.
  - destruct (containsClass out y) eqn:Ec; simpl.
    + apply containsClass_elem in Ec. set_solver.
    + set_solver.
  - split; [set_solver|]. intros [?|[[->|?]%elem_of_cons ?]]; [set_solver|congruence|set_solver].
Qed.

Lemma flag_insert m c b d : flag (<[c := b]> m) d = if decide (c = d) then b else flag m d.
Proof. unfold flag. case_decide; simplify_map_eq; done. Qed.

Lemma flag_deny l m c :
  flag (fold_left (λ m c, <[c := false]> m) l m) c = flag m c && negb (containsClass l c).
Proof.
  revert m. induction l as [|d l IH]; intros m; simpl; [by rewrite andb_true_r|].
  rewrite IH, flag_insert. destruct (String.eqb_spec d c) as [->|Hne]; simpl.
  - by rewrite decide_True, andb_false_r.
  - by rewrite decide_False.
Qed.

Lemma flag_row_liftable optIn l c :
  flag (row_liftable optIn l) c = containsClass l c && containsClass optIn c.
Proof.
  unfold row_liftable. induction l as [|d l IH] using rev_ind; [done|].
  rewrite fold_left_app. simpl. rewrite flag_insert, IH, containsClass_app. simpl. rewrite orb_false_r.
  case_decide as Hd.
  - subst d. rewrite String.eqb_refl, orb_true_r. done.
  - destruct (String.eqb_spec d c); [done|]. by rewrite orb_false_r.
Qed.

Lemma orderedClasses_elem s c : c ∈ orderedClasses s ↔ c ∈ classOrder ∧ c ∈ s.
Proof. unfold orderedClasses. rewrite list_elem_of_filter. tauto. Qed.

Lemma intersectSet_elem have w c : c ∈ intersectSet have w ↔ c ∈ have ∧ c ∈ w.
Proof. unfold intersectSet. rewrite elem_of_filter, elem_of_list_to_set. done. Qed.

(** ** What one layer contributes *)

Definition layer_allows (p : Policy) (c : Class_) : Prop :=
  match p_Classes p with Some cs => c ∈ cs | None => True end.

Definition cap_within (v : Z) (o : option Z) : Prop := match o with Some w => v <= w | None => True end.

Definition caps_within (c : Caps) (l : CapsPolicy) : Prop :=
  cap_within (MaxFiles c) (cp_MaxFiles l) ∧ cap_within (MaxLines c) (cp_MaxLines l) ∧
  cap_within (MaxDeletes c) (cp_MaxDeletes l) ∧ cap_within (MaxFileBytes c) (cp_MaxFileBytes l) ∧
  cap_within (MaxPatchBytes c) (cp_MaxPatchBytes l).

Definition caps_le (a b : Caps) : Prop :=
  MaxFiles a <= MaxFiles b ∧ MaxLines a <= MaxLines b ∧ MaxDeletes a <= MaxDeletes b ∧
  MaxFileBytes a <= MaxFileBytes b ∧ MaxPatchBytes a <= MaxPatchBytes b.

#[export] Instance caps_le_preorder : PreOrder caps_le.
Proof. split; [intros a|intros a b c]; unfold caps_le; lia. Qed.

Lemma lower_cap_le d v : lower_cap d v <= d ∧ cap_within (lower_cap d v) v.
Proof. unfold lower_cap, cap_within. destruct v as [v|]; [|lia]. destruct (Z.ltb_spec v d); lia. Qed.

Lemma cap_within_le a b o : a <= b → cap_within b o → cap_within a o.
Proof. destruct o; simpl; lia. Qed.

Lemma lower_caps_le c l : caps_le (lower_caps c l) c ∧ caps_within (lower_caps c l) l.
Proof. unfold caps_le, caps_within, lower_caps; simpl. split; split_and!; apply lower_cap_le. Qed.

Lemma caps_within_le a b l : caps_le a b → caps_within b l → caps_within a l.
Proof.
  unfold caps_le, caps_within. intros (? & ? & ? & ? & ?) (? & ? & ? & ? & ?).
  split_and!; by eapply cap_within_le.
Qed.

Lemma fold_allowed ls s c :
  c ∈ fs_allowed (fold_left fold_layer ls s) ↔
    c ∈ fs_allowed s ∧ Forall (λ l, layer_allows (le_p l) c) ls.
Proof.
  revert s. induction ls as [|l ls IH]; intros s; simpl; [rewrite Forall_nil; tauto|].
  rewrite IH, Forall_cons. unfold fold_layer, layer_allows. simpl.
  destruct (p_Classes (le_p l)); [rewrite intersectSet_elem|]; tauto.
Qed.

Lemma fold_caps ls s :
  caps_le (fs_caps (fold_left fold_layer ls s)) (fs_caps s) ∧
  Forall (λ l, caps_within (fs_caps (fold_left fold_layer ls s)) (p_Caps (le_p l))) ls.
Proof.
  revert s. induction ls as [|l ls IH]; intros s; simpl;
    [split; [reflexivity|constructor]|].
  destruct (IH (fold_layer s l)) as [H1 H2]. simpl in H1.
  destruct (lower_caps_le (fs_caps s) (p_Caps (le_p l))) as [H3 H4].
  split; [by etrans|]. constructor; [by eapply caps_within_le|done].
Qed.

Lemma fold_flags ls s c :
  flag (fs_liftable (fold_left fold_layer ls s)) c = true ↔
    flag (fs_liftable s) c = true ∧ Forall (λ l, c ∉ DenyLift (le_p l)) ls.
Proof.
  revert s. induction ls as [|l ls IH]; intros s; simpl; [rewrite Forall_nil; tauto|].
  rewrite IH, Forall_cons. simpl. rewrite flag_deny, andb_true_iff, negb_true_iff.
  rewrite <- not_true_iff_false, containsClass_elem. tauto.
Qed.

Lemma fold_patterns ls s :
  fs_patterns (fold_left fold_layer ls s) = fs_patterns s ++ concat (map layer_patterns ls).
Proof.
  revert s. induction ls as [|l ls IH]; intros s; simpl; [by rewrite app_nil_r|].
  rewrite IH. simpl. by rewrite app_assoc.
Qed.

(** What a successful [Fold] has checked and built. *)
Lemma Fold_Ok i e :
  Fold i = Ok e →
  Row_validate (in_Row i) = None ∧
  Forall (λ l, Policy_Validate (le_p l) (le_layer l) = None) (layers_of i) ∧
  (∃ sel, tbl e = Some (buildTable shipped sel)) ∧
  Enabled e = in_Enabled i ∧ patterns e = concat (map layer_patterns (layers_of i)) ∧
  (∀ c, c ∈ e_Classes e ↔ c ∈ classOrder ∧ c ∈ r_Classes (in_Row i) ∧
     Forall (λ l, layer_allows (le_p l) c) (layers_of i)) ∧
  (∀ c, flag (liftable e) c = true ↔ c ∈ r_Liftable (in_Row i) ∧ c ∈ in_LiftOptIn i ∧
     Forall (λ l, c ∉ DenyLift (le_p l)) (layers_of i)) ∧
  caps_le (e_Caps e) (r_Caps (in_Row i)) ∧
  Forall (λ l, caps_within (e_Caps e) (p_Caps (le_p l))) (layers_of i).
Proof.
  unfold Fold. destruct (shaRe _); [|done]. cbn [negb].
  destruct (Row_validate _) eqn:Hr; [done|].
  destruct (first_error _ (layers_of i)) eqn:Hl; [done|].
  destruct (first_error _ (in_LiftOptIn i)); [done|].
  destruct (SelectProfiles _ _) as [sel|]; [|done].
  set (s0 := mkFoldState _ _ _ _). apply first_error_None in Hl.
  pose proof (fold_caps (layers_of i) s0) as Hcaps.
  pose proof (fold_allowed (layers_of i) s0) as Hallow.
  pose proof (fold_flags (layers_of i) s0) as Hflags.
  pose proof (fold_patterns (layers_of i) s0) as Hpats.
  generalize dependent (fold_left fold_layer (layers_of i) s0). intros s Hcaps Hallow Hflags Hpats.
  intros [= <-]. split; [done|]. split.
  { eapply Forall_impl; [exact Hl|]. intros l. cbv beta. by destruct (Policy_Validate _ _). }
  split; [by eexists|]. split; [done|]. split; [done|]. split; [|split; [|done]]; intros c; simpl.
  - rewrite orderedClasses_elem, Hallow. simpl. rewrite elem_of_list_to_set. done.
  - rewrite Hflags. simpl. rewrite flag_row_liftable, andb_true_iff, !containsClass_elem. tauto.
Qed.

Lemma Row_validate_classes r c :
  Row_validate r = None → c ∈ r_Classes r → Valid c = true ∧ SensitivityOf c ≠ Protected.
Proof.
  unfold Row_validate, or_else. destruct (first_error _ (r_Classes r)) eqn:E; [done|]. intros _ Hc.
  apply first_error_None in E. rewrite Forall_forall in E. specialize (E c Hc).
  destruct (Valid c); [|done]. simpl in E. case_bool_decide; done.
Qed.

Lemma Row_validate_liftable r c :
  Row_validate r = None → c ∈ r_Liftable r → c = ClassCI.
Proof.
  unfold Row_validate, or_else. destruct (first_error _ (r_Classes r)); [done|].
  destruct (first_error _ (r_Liftable r)) eqn:E; [done|]. intros _ Hc.
  apply first_error_None in E. rewrite Forall_forall in E. specialize (E c Hc).
  simpl in E. destruct (Liftable c) eqn:El; [|done]. by apply String.eqb_eq in El.
Qed.

Lemma Allows_true e c lift :
  Allows e c lift = true ↔
    Enabled e = true ∧ Valid c = true ∧
    ((SensitivityOf c = Protected ∧ c = ClassCI ∧ Has lift c = true ∧ flag (liftable e) c = true) ∨
     (SensitivityOf c ≠ Protected ∧ c ∈ e_Classes e)).
Proof.
  unfold Allows. destruct (Enabled e), (Valid c); simpl; try naive_solver.
  fold (containsClass (e_Classes e) c). case_bool_decide as Hs.
  - rewrite !andb_true_iff. unfold Liftable. rewrite String.eqb_eq. naive_solver.
  - rewrite containsClass_elem. naive_solver.
Qed.

(** A folded scope is exactly the meet of its layers and never wider than the
    pack row: a class may be written if and only if the workflow is enabled and
    either the row and every layer that lists classes list it, or it is [ci],
    the dispatch holds a lift for it, the row says it is liftable, the project
    opted in and no layer vetoes; and every size cap is at most the row's and
    at most each layer's. *)
Theorem Fold_is_meet (i : Input) (e : Effective) (H : Fold i = Ok e) :
  (∀ c lift, Allows e c lift = true ↔
     in_Enabled i = true ∧
     ((c ∈ r_Classes (in_Row i) ∧ Forall (λ l, layer_allows (le_p l) c) (layers_of i)) ∨
      (c = ClassCI ∧ Has lift c = true ∧ c ∈ r_Liftable (in_Row i) ∧ c ∈ in_LiftOptIn i ∧
       Forall (λ l, c ∉ DenyLift (le_p l)) (layers_of i)))) ∧
  caps_le (e_Caps e) (r_Caps (in_Row i)) ∧
  Forall (λ l, caps_within (e_Caps e) (p_Caps (le_p l))) (layers_of i).
Proof.
  apply Fold_Ok in H as (Hr & _ & _ & He & _ & Hc & Hf & Hcaps & Hcapl).
  split; [|done]. intros c lift. rewrite Allows_true, He, Hf, Hc. split.
  - intros (? & ? & [(? & -> & ? & ? & ? & ?)|(? & ? & ? & ?)]); auto 10.
  - intros (? & [[Hin ?]|(-> & ? & ? & ? & ?)]).
    + destruct (Row_validate_classes _ _ Hr Hin) as [HV HS]. pose proof (proj1 (Valid_elem c) HV).
      auto 10.
    + auto 10.
Qed.

(** ** The classifier: lemmas *)

Lemma consult_moved pats b p keys rs lp :
  consult pats b p keys = (rs, Some lp) →
  lp ∈ pats ∧ lp_key lp ∈ keys ∧ lp_to lp ≠ b ∧ Match (lp_pattern lp) p = true ∧
  CheckMove b (lp_to lp) (lp_layer lp) = None.
Proof.
  revert rs. induction keys as [|k keys IH]; intros rs; simpl; [done|].
  destruct (List.find _ pats) as [lp'|] eqn:E.
  - apply List.find_some in E as [Hin Hp]. bool_hyps. subst.
    destruct (CheckMove b (lp_to lp') (lp_layer lp')) as [err|] eqn:Hm.
    + destruct (consult pats b p keys) as [rs' m] eqn:Ec. intros [= _ ->].
      destruct (IH _ eq_refl) as (? & ? & ? & ? & ?). split_and!; auto. by right.
    + intros [= _ ->]. split_and!; auto; [by apply list_elem_of_In|by left].
  - intros Hc. destruct (IH _ Hc) as (? & ? & ? & ? & ?). split_and!; auto. by right.
Qed.

Lemma consult_refused pats b p keys r :
  r ∈ (consult pats b p keys).1 →
  ∃ lp, lp ∈ pats ∧ Match (lp_pattern lp) p = true ∧ lp_to lp ≠ b ∧
    CheckMove b (lp_to lp) (lp_layer lp) = Some (rf_Reason r) ∧
    r = mkRefusal (lp_to lp) (lp_name lp) (lp_key lp) (lp_pattern lp) (rf_Reason r).
Proof.
  induction keys as [|k keys IH]; simpl; [by intros ?%elem_of_nil|].
  destruct (List.find _ pats) as [lp|] eqn:E; [|done].
  apply List.find_some in E as [Hin Hp]. bool_hyps.
  destruct (CheckMove b (lp_to lp) (lp_layer lp)) as [err|] eqn:Hm; [|by intros ?%elem_of_nil].
  destruct (consult pats b p keys) as [rs m]. simpl in *. intros [->|Hr]%elem_of_cons; [|auto].
  exists lp. split_and!; auto. by apply list_elem_of_In.
Qed.

(** A matching [protected_paths] pattern ends in [control], whatever follows. *)
Lemma consult_protected pats b p lp0 :
  (∀ lp, lp ∈ pats → lp_key lp = "protected_paths" → lp_to lp = ClassControl) →
  Valid b = true → lp0 ∈ pats → lp_key lp0 = "protected_paths" → Match (lp_pattern lp0) p = true →
  match (consult pats b p reclass_keys).2 with Some lp => lp_to lp | None => b end = ClassControl.
Proof.
  intros Hkey HV Hin Hk Hm. destruct (decide (b = ClassControl)) as [->|Hnc].
  - destruct (consult pats ClassControl p reclass_keys) as [rs [lp|]] eqn:E; simpl; [|done].
    apply consult_moved in E as (_ & _ & Hne & _ & Hmv).
    by apply CheckMove_None in Hmv as [?|[?|[Hu _]]].
  - unfold reclass_keys. cbn [consult].
    destruct (List.find _ pats) as [lp|] eqn:E.
    + apply List.find_some in E as [Hlp Hp]. bool_hyps. apply list_elem_of_In in Hlp.
      assert (Hto : lp_to lp = ClassControl) by (by apply Hkey).
      assert (Hmv : CheckMove b (lp_to lp) (lp_layer lp) = None).
      { unfold CheckMove. rewrite HV, Hto. simpl. by rewrite orb_true_r. }
      rewrite Hmv. done.
    + exfalso. apply list_elem_of_In in Hin. pose proof (List.find_none _ _ E _ Hin) as Hf.
      simpl in Hf. rewrite Hk, Hm, andb_true_r in Hf. simpl in Hf.
      apply negb_false_iff, String.eqb_eq in Hf. apply list_elem_of_In in Hin.
      rewrite (Hkey _ Hin Hk) in Hf. done.
Qed.

#[local] Arguments consult : simpl never.

Lemma Classify_cases c p :
  let b := (classify (c_tbl c) p (c_base c)).1 in
  let d := (Classify c p).1 in
  d_Builtin d = b ∧
  (d_Class d = b ∨
   ∃ lp, lp ∈ patterns (c_eff c) ∧ Match (lp_pattern lp) p = true ∧ d_Class d = lp_to lp ∧
     lp_to lp ≠ b ∧ CheckMove b (d_Class d) (lp_layer lp) = None ∧
     d_Layer d = lp_name lp ∧ d_Key d = lp_key lp ∧ d_Pattern d = lp_pattern lp).
Proof.
  cbv zeta. unfold Classify. destruct (classify _ _ _) as [b prof]. simpl.
  destruct (cleanRel p); simpl; [|auto].
  destruct (consult _ b p reclass_keys) as [rs [lp|]] eqn:E; simpl; [|auto].
  apply consult_moved in E as (? & ? & ? & ? & ?). split; [done|]. right. exists lp. by split_and!.
Qed.

Lemma classify_valid l sel p base : Valid (classify (buildTable l sel) p base).1 = true.
Proof.
  destruct (cleanRel p) eqn:Hc; [|unfold classify; by rewrite Hc].
  rewrite classify_clean by done. destruct (row_hit _ p base) as [[c q]|] eqn:E; [|done].
  apply row_hit_class in E. rewrite buildTable_split, map_app, !row_classes in E. simpl.
  apply Valid_elem. unfold classOrder, always_classes, selectable_classes in *. set_solver.
Qed.

(** Reclassification is honest: a path keeps its built-in class or takes the
    class of a configured pattern that matches it and that the lattice lets
    that layer make; every refusal recorded is of a matching pattern that the
    lattice refuses; and the log holds one entry per refusal and one for the
    move, none when nothing moved. *)
Theorem Classify_honest (c : Classifier) (p : string) :
  let '(d, log) := Classify c p in
  d_Builtin d = (classify (c_tbl c) p (c_base c)).1 ∧
  (d_Class d = d_Builtin d ∨
   ∃ lp, lp ∈ patterns (c_eff c) ∧ Match (lp_pattern lp) p = true ∧ d_Class d = lp_to lp ∧
     CheckMove (d_Builtin d) (d_Class d) (lp_layer lp) = None ∧
     d_Layer d = lp_name lp ∧ d_Key d = lp_key lp ∧ d_Pattern d = lp_pattern lp) ∧
  (∀ r, r ∈ Refused d → ∃ lp, lp ∈ patterns (c_eff c) ∧ Match (lp_pattern lp) p = true ∧
     rf_Pattern r = lp_pattern lp ∧ rf_To r = lp_to lp ∧
     CheckMove (d_Builtin d) (lp_to lp) (lp_layer lp) = Some (rf_Reason r)) ∧
  log = map (LogRefused p (d_Builtin d)) (Refused d) ++
        (if decide (d_Class d = d_Builtin d) then []
         else [LogReclassified p (d_Builtin d) (d_Class d) (d_Layer d) (d_Key d) (d_Pattern d)]).
Proof.
  pose proof (Classify_cases c p) as Hc. cbv zeta in Hc.
  destruct (Classify c p) as [d log] eqn:E. simpl in Hc. destruct Hc as [Hb Hc]. rewrite Hb.
  split_and!; [done| | |].
  - destruct Hc as [?|(lp & ? & ? & ? & ? & ? & ? & ? & ?)]; [by left|right]. exists lp. by split_and!.
  - intros r Hr. unfold Classify in E. destruct (classify _ _ _) as [b prof]. simpl in *.
    destruct (cleanRel p); simpl in E; [|injection E as <- _; by apply elem_of_nil in Hr].
    pose proof (consult_refused (patterns (c_eff c)) b p reclass_keys r) as Href.
    destruct (consult _ b p reclass_keys) as [rs m]. simpl in Href.
    assert (Refused d = rs) as Hrs by (by destruct m; injection E as <- _).
    rewrite Hrs in Hr. destruct (Href Hr) as (lp & ? & ? & ? & ? & Heq).
    exists lp. rewrite Heq. by split_and!.
  - unfold Classify in E. destruct (classify _ _ _) as [b prof]. simpl in *.
    destruct (cleanRel p); simpl in E.
    2: { injection E as <- <-. simpl. by case_decide. }
    destruct (consult _ b p reclass_keys) as [rs [lp|]]; injection E as <- <-; simpl;
      unfold Reclassified; simpl.
    + destruct (String.eqb_spec (lp_to lp) b); by case_decide.
    + rewrite String.eqb_refl. by case_decide.
Qed.

Lemma layer_patterns_key lp l :
  lp ∈ layer_patterns l → lp_key lp = "protected_paths" → lp_to lp = ClassControl.
Proof.
  unfold layer_patterns. intros Hin Hk. apply list_elem_of_In, in_concat in Hin as (x & Hx & Hlp).
  apply in_map_iff in Hx as (k & <- & Hk'). apply in_map_iff in Hlp as (pat & <- & _). simpl in *.
  unfold patternKeys in Hk'. simpl in Hk'.
  destruct Hk' as [<-|[<-|[<-|[<-|[<-|[]]]]]]; done.
Qed.

Lemma layer_patterns_protected l pat :
  pat ∈ ProtectedPaths (le_p l) →
  mkLayerPattern pat (le_layer l) (le_name l) "protected_paths" ClassControl ∈ layer_patterns l.
Proof.
  intros Hp. unfold layer_patterns. apply list_elem_of_In, in_concat. eexists. split.
  - apply in_map_iff. eexists. split; [reflexivity|]. by left.
  - apply in_map_iff. exists pat. split; [done|]. by apply list_elem_of_In.
Qed.

Lemma Protected_control_not_allowed e c lift :
  c ∈ Floor → Allows e c lift = false.
Proof.
  intros Hc. apply not_true_iff_false. rewrite Allows_true.
  apply elem_of_cons in Hc as [->|[->|[]%elem_of_nil]%elem_of_cons];
    intros (_ & _ & [(_ & ? & _)|[Hs _]]); done.
Qed.

Lemma classifier_builtin_valid i e base p :
  Fold i = Ok e → Valid (classify (c_tbl (Effective_Classifier e base)) p base).1 = true.
Proof.
  intros (_ & _ & (sel & Ht) & _)%Fold_Ok. unfold Effective_Classifier, Effective_table. simpl.
  rewrite Ht. simpl. apply classify_valid.
Qed.

Lemma layers_protected_key ls lp :
  lp ∈ concat (map layer_patterns ls) → lp_key lp = "protected_paths" → lp_to lp = ClassControl.
Proof.
  intros Hin. apply list_elem_of_In, in_concat in Hin as (x & Hx & Hlp).
  apply in_map_iff in Hx as (l & <- & _). by eapply layer_patterns_key, list_elem_of_In.
Qed.

(** A path that is not clean gets the class nothing can write. *)
Lemma unclean_not_clean p :
  ContainsAny p is_nul = true ∨ (∃ seg, seg ∈ Split slash p ∧ (seg = "" ∨ seg = "." ∨ seg = "..")) →
  cleanRel p = false.
Proof.
  intros Hu. apply not_true_iff_false. rewrite cleanRel_spec. intros [Hn Hs].
  destruct Hu as [Hu|(seg & Hin & Hseg)]; [congruence|].
  rewrite Forall_forall in Hs. destruct (Hs seg Hin) as (? & ? & ?). naive_solver.
Qed.

Lemma Classify_unclean c p : cleanRel p = false → d_Class (Classify c p).1 = ClassControl.
Proof. intros Hc. unfold Classify, classify. by rewrite Hc. Qed.

(** C36. The floor holds end to end: under any folded scope, any base facts and
    any lift, a path whose built-in class is control or secret is not
    writable, whatever patterns any layer configured; and a path some layer
    protects is control, and not writable, whatever else matches it; and a path
    with a NUL in it, or one that is absolute, empty or has an empty, dot or
    double-dot segment, is control, and not writable, whatever else is said of
    it. *)
Theorem floor_not_writable (i : Input) (e : Effective) (base : BaseFacts) (lift : Lift) (p : string)
    (H : Fold i = Ok e) :
  let d := (Classify (Effective_Classifier e base) p).1 in
  (ContainsAny p is_nul = true ∨ (∃ seg, seg ∈ Split slash p ∧ (seg = "" ∨ seg = "." ∨ seg = "..")) →
     d_Class d = ClassControl ∧ Allows e (d_Class d) lift = false) ∧
  (d_Builtin d ∈ Floor → Allows e (d_Class d) lift = false) ∧
  (∀ l pat, l ∈ layers_of i → pat ∈ ProtectedPaths (le_p l) → Match pat p = true →
     d_Class d = ClassControl ∧ Allows e (d_Class d) lift = false).
Proof.
  cbv zeta. pose proof (Classify_cases (Effective_Classifier e base) p) as [Hb Hc].
  pose proof (classifier_builtin_valid i e base p H) as HV.
  apply Fold_Ok in H as (_ & _ & _ & _ & Hp & _).
  change (c_eff (Effective_Classifier e base)) with e in Hc.
  change (c_base (Effective_Classifier e base)) with base in Hb, Hc.
  set (c := Effective_Classifier e base) in *. set (d := (Classify c p).1) in *.
  split; [|split].
  - intros Hu. assert (Hd : d_Class d = ClassControl) by (by apply Classify_unclean, unclean_not_clean).
    split; [done|]. rewrite Hd. apply Protected_control_not_allowed. by left.
  - intros Hf. rewrite Hb in Hf. apply Protected_control_not_allowed.
    destruct Hc as [->|(lp & _ & _ & _ & Hne & Hm & _)]; [done|].
    apply CheckMove_None in Hm as [Heq|[->|[Hu _]]].
    + by rewrite <- Heq.
    + by left.
    + exfalso. by apply elem_of_cons in Hf as [E|[E|[]%elem_of_nil]%elem_of_cons]; rewrite E in Hu.
  - intros l pat Hl Hpat Hm.
    assert (Hcc : d_Class d = ClassControl).
    { assert (Hclean : cleanRel p = true) by (by apply Match_true in Hm as (_ & ? & _)).
      unfold d, Classify. change (c_base c) with base. change (patterns (c_eff c)) with (patterns e).
      destruct (classify (c_tbl c) p base) as [b prof]. simpl in HV. rewrite Hclean. simpl.
      pose proof (consult_protected (patterns e) b p
        (mkLayerPattern pat (le_layer l) (le_name l) "protected_paths" ClassControl)) as Hcp.
      destruct (consult (patterns e) b p reclass_keys) as [rs m]. simpl in Hcp.
      destruct m; simpl; apply Hcp; try done; rewrite Hp;
        try (apply layers_protected_key || (apply list_elem_of_In, in_concat; exists (layer_patterns l);
             split; [by apply in_map, list_elem_of_In | by apply list_elem_of_In, layer_patterns_protected])). }
    split; [done|]. rewrite Hcc. apply Protected_control_not_allowed. by left.
Qed.

(** A pipeline-fix scope for evaluation: a row with a liftable [ci], a project
    that opts in and protects [infra/]. *)
Definition demo_input : Input := {|
  in_Row := mkRow [ClassSource; ClassTest; ClassDocs] [ClassCI] (mkCaps 3 40 0 65536 65536);
  in_Instance := Policy_zero;
  in_Group := mkPolicy (Some [ClassSource; ClassTest]) (mkCapsPolicy (Some 2) None None None None)
                [] [] [] [] [] [] None None;
  in_Project := mkPolicy None (mkCapsPolicy None None None None None) ["infra/**"] [] [] [] [] [] None None;
  in_BaseSHA := "0123456789abcdef0123456789abcdef01234567";
  in_Enabled := true;
  in_LiftOptIn := [ClassCI];
|}.
Definition demo_scope : Effective :=
  match Fold demo_input with Ok e => e | Err _ => Effective_zero end.

Lemma demo_scope_ok : Fold demo_input = Ok demo_scope.
Proof. unfold demo_scope. destruct (Fold demo_input) eqn:E; [done|]. vm_compute in E. discriminate. Qed.

Lemma Fold_is_meet_witness :
  Allows demo_scope ClassTest Lift_zero = true ∧ Allows demo_scope ClassDocs Lift_zero = false ∧
  MaxFiles (e_Caps demo_scope) <= 2.
Proof.
  destruct (Fold_is_meet demo_input demo_scope demo_scope_ok) as (HA & _ & Hcap).
  split; [|split].
  - apply HA. split; [reflexivity|]. left. split; [right; left|].
    constructor; [exact I|constructor; [right; left|constructor; [exact I|constructor]]].
  - apply not_true_iff_false. intros H. apply HA in H as [_ [[_ H]|[H _]]]; [|discriminate H].
    apply Forall_cons in H as [_ [H _]%Forall_cons]. clear -H. unfold layer_allows in H.
    cbn in H. set_solver.
  - apply Forall_cons in Hcap as [_ [Hg _]%Forall_cons]. apply Hg.
Defined.

Lemma floor_not_writable_witness :
  Allows demo_scope (d_Class (Classify (Effective_Classifier demo_scope BaseFacts_zero) "infra/main.go").1)
    (mkLift "ci" "t" "w") = false.
Proof.
  destruct (floor_not_writable demo_input demo_scope BaseFacts_zero (mkLift "ci" "t" "w") "infra/main.go"
              demo_scope_ok) as (_ & _ & H).
  apply (H (mkLayerEntry "project" LayerProject (in_Project demo_input)) "infra/**").
  - right. right. left.
  - left.
  - vm_compute. reflexivity.
Defined.

(** ** Lifts *)

Lemma Has_ci l c : Has l c = true → c = ClassCI.
Proof. unfold Has, Liftable. destruct (String.eqb_spec c ClassCI); done. Qed.

Lemma ordered_ci : Join (orderedClasses {[ClassCI]}) "," = "ci".
Proof. vm_compute. reflexivity. Qed.

(** A lift is granted whole or not at all, and never reaches the floor: a
    refused grant is the empty lift, a granted one covers exactly the classes
    asked for, each of which this scope then allows, and in neither case is a
    class other than [ci] covered. *)
Theorem GrantLift_exact `{GoUnicode} (e : Effective) (g : Grant) :
  let '(l, err) := GrantLift e g in
  (∀ c, Has l c = true → c = ClassCI) ∧
  match err with
  | Some _ => l = Lift_zero ∧ ∀ c, Has l c = false
  | None => (∀ c, Has l c = true ↔ c ∈ g_Classes g) ∧
            (∀ c, c ∈ g_Classes g → Allows e c l = true) ∧
            lift_trigger l = Trigger g ∧ lift_workflow l = Workflow g
  end.
Proof.
  destruct (GrantLift e g) as [l err] eqn:E. split; [apply Has_ci|].
  assert (Hz : ∀ c, Has Lift_zero c = false).
  { intros c. unfold Has. destruct (Liftable c) eqn:Hl; [|done]. apply String.eqb_eq in Hl. by subst. }
  unfold GrantLift in E. destruct (_ || _); [injection E as <- <-; exact (conj eq_refl Hz)|].
  destruct (g_Classes g) as [|c0 cs] eqn:Hg; [injection E as <- <-; exact (conj eq_refl Hz)|].
  destruct (Enabled e) eqn:He; cbn [negb] in E; [|injection E as <- <-; exact (conj eq_refl Hz)].
  destruct (first_error _ (c0 :: cs)) eqn:Hf; [injection E as <- <-; exact (conj eq_refl Hz)|].
  injection E as <- <-. apply first_error_None in Hf.
  assert (Hci : ∀ c, c ∈ c0 :: cs → c = ClassCI ∧ flag (liftable e) c = true).
  { rewrite Forall_forall in Hf. intros c Hc. specialize (Hf c Hc). simpl in Hf.
    destruct (Valid c), (Liftable c) eqn:Hl, (flag (liftable e) c); try done.
    by apply String.eqb_eq in Hl. }
  destruct (Hci c0) as [-> Hfl]; [by left|].
  assert (Hset : ({[ClassCI]} ∪ list_to_set cs : gset string) = {[ClassCI]}).
  { change ({[ClassCI]} ∪ list_to_set cs) with (list_to_set (ClassCI :: cs) : gset string).
    apply set_eq. intros c. rewrite elem_of_list_to_set, elem_of_singleton. split; [apply Hci|].
    intros ->. by left. }
  rewrite Hset, ordered_ci.
  assert (Hhas : ∀ c, Has (mkLift "ci" (Trigger g) (Workflow g)) c = true ↔ c ∈ ClassCI :: cs).
  { intros c. split; [intros ->%Has_ci; by left|]. intros [-> _]%Hci. reflexivity. }
  split_and!; [done| |done|done].
  intros c Hc. apply Allows_true. destruct (Hci c Hc) as [-> ?]. split_and!; [done|done|].
  left. by split_and!.
Qed.

(** ** Nested operator layers *)

Lemma foldClasses_allows a b c :
  match foldClasses a b with Some cs => c ∈ cs | None => True end ↔
  match a with Some cs => c ∈ cs | None => True end ∧ match b with Some cs => c ∈ cs | None => True end.
Proof.
  destruct a as [a|], b as [b|]; simpl; try tauto.
  rewrite keep_new_elem, containsClass_elem. set_solver.
Qed.

Lemma lower_minCap d a b : lower_cap d (minCap a b) = lower_cap (lower_cap d a) b.
Proof.
  destruct a as [a|], b as [b|]; simpl; try done.
  destruct (Z.leb_spec a b); simpl;
    destruct (Z.ltb_spec a d), (Z.ltb_spec b d); simpl; try lia;
    repeat match goal with |- context [?x <? ?y] => destruct (Z.ltb_spec x y) end; lia.
Qed.

Lemma unionStrings_elem a b x : x ∈ unionStrings a b ↔ x ∈ a ∨ x ∈ b.
Proof. unfold unionStrings. rewrite keep_new_elem. set_solver. Qed.

(** Folding a nested group onto its ancestor loses nothing: put into the
    fold as one layer it leaves exactly the allowed classes, the caps and the
    lift vetoes the two layers leave one after the other, and it configures
    exactly their patterns, key by key. *)
Theorem FoldPolicies_lossless (s : fold_state) (name : string) (base next : Policy) :
  let one := fold_layer s (mkLayerEntry name LayerOperator (FoldPolicies base next)) in
  let two := fold_layer (fold_layer s (mkLayerEntry name LayerOperator base))
                        (mkLayerEntry name LayerOperator next) in
  fs_allowed one = fs_allowed two ∧ fs_caps one = fs_caps two ∧
  (∀ c, flag (fs_liftable one) c = flag (fs_liftable two) c) ∧
  (∀ lp, lp ∈ fs_patterns one ↔ lp ∈ fs_patterns two).
Proof.
  cbv zeta. split_and!.
  - apply set_eq. intros c.
    pose proof (fold_allowed [mkLayerEntry name LayerOperator (FoldPolicies base next)] s c) as H1.
    pose proof (fold_allowed [mkLayerEntry name LayerOperator base; mkLayerEntry name LayerOperator next] s c)
      as H2.
    cbn [fold_left] in H1, H2. rewrite H1, H2, !Forall_cons, !Forall_nil. unfold layer_allows.
    cbn [le_p FoldPolicies p_Classes]. rewrite foldClasses_allows. tauto.
  - unfold fold_layer, lower_caps. cbn. f_equal; apply lower_minCap.
  - intros c. cbn [fold_layer fs_liftable le_p FoldPolicies DenyLift]. rewrite !flag_deny, <- andb_assoc.
    f_equal. rewrite <- negb_orb. f_equal. apply eq_true_iff_eq.
    rewrite orb_true_iff, !containsClass_elem, keep_new_elem. set_solver.
  - intros lp. cbn [fold_layer fs_patterns]. unfold layer_patterns, patternKeys.
    cbn [le_p le_name le_layer map concat pk_key pk_to pk_patterns FoldPolicies ProtectedPaths CIPaths
         TestPaths DocsPaths SourcePaths].
    rewrite !elem_of_app, !list_elem_of_fmap. setoid_rewrite unionStrings_elem.
    rewrite !elem_of_nil. naive_solver.
Qed.
