(* ===== verification/Gonkcfg.v ===== *)
(** * [pkg/gonkcfg]: the layers of configuration and their resolution

    Token quantities (tokens.go), the three opt-in sections with their
    validation, operator fold and resolution (pipelinefix.go, change.go,
    review.go), and [Resolve], which folds the instance, group and project
    layers into one [Effective] configuration (resolve.go). A pointer is an
    [option], and so is a list the code compares with nil. Error and reason
    texts are constructors that carry the values the text is made of. *)

From Stdlib Require Import Ascii.
From S2P Require Import Prelude.
From S2P Require Import Float64.
From S2P Require Import GoTime.
From S2P Require Import GoStrings.
From S2P Require Import GoPath.
From S2P Require Import ScopeGlob.
From S2P Require Import ScopeClass.
From S2P Require Import ScopePolicy.

(** ** Token quantities (tokens.go) *)

Abbreviation TokenQuantity := Z (only parsing).

Inductive quantity_error :=
| QuantityEmpty
| QuantityMalformed
| QuantityNumber (e : num_error)
| QuantityOverflow.

Definition multiplier (c : ascii) : option Z :=
  if Ascii.eqb c "K"%char then Some 1000
  else if Ascii.eqb c "M"%char then Some 1000000
  else if Ascii.eqb c "G"%char then Some 1000000000
  else None.

(** A non-empty string as what precedes its last byte, and that byte. *)
Fixpoint unsnoc (c : ascii) (s : string) : string * ascii :=
  match s with
  | EmptyString => (EmptyString, c)
  | String d s' => let '(t, l) := unsnoc d s' in (String c t, l)
  end.

Definition ParseTokenQuantity (s : string) : result quantity_error TokenQuantity :=
  match s with
  | EmptyString => Err QuantityEmpty
  | String c s' =>
      let '(front, last) := unsnoc c s' in
      let '(mult, digits) := match multiplier last with
                             | Some m => (m, front)
                             | None => (1, s)
                             end in
      if String.eqb digits "" || negb (all_bytes is_digit digits) then Err QuantityMalformed
      else match ParseInt digits with
           | Err e => Err (QuantityNumber e)
           | Ok n => if MaxInt64 / mult <? n then Err QuantityOverflow else Ok (wrap64 (n * mult))
           end
  end.

(** ** Shared folding helpers (pipelinefix.go, change.go) *)

(** [contains] is [GoStrings.contains]. *)

Definition intersectLists (a b : option (list string)) : option (list string) :=
  match a, b with
  | None, None => None
  | None, Some b => Some b
  | Some a, None => Some a
  | Some a, Some b => Some (filter (λ v, contains b v = true) a)
  end.

Definition is_on (b : option bool) : bool := match b with Some b => b | None => false end.

Definition vetoFold (a b : option bool) : option bool :=
  match a with
  | Some false => Some false
  | _ => match b with Some _ => b | None => a end
  end.

Definition minInt (a b : option Z) : option Z :=
  match a, b with
  | None, _ => b
  | _, None => a
  | Some x, Some y => if y <? x then b else a
  end.

Definition minDuration (a b : option Duration) : option Duration := minInt a b.

Definition CIExecDeny := "deny".
Definition CIExecManualRun := "manual-run".
Definition CIExecAuto := "auto".

Definition ciExecRank (s : string) : option Z :=
  if String.eqb s CIExecDeny then Some 0
  else if String.eqb s CIExecManualRun then Some 1
  else if String.eqb s CIExecAuto then Some 2 else None.

Definition stricterExec (a b : option string) : option string :=
  let rank s := default (-1) (ciExecRank s) in
  match a, b with
  | None, _ => b
  | _, None => a
  | Some x, Some y => if rank y <? rank x then b else a
  end.

Definition AutoMergeOff := "off".
Definition AutoMergeAfterHumanApproval := "after-human-approval".
Definition AutoMergeAfterAgenticReview := "after-agentic-review".

Definition autoMergeModes (s : string) : bool :=
  contains [AutoMergeOff; AutoMergeAfterHumanApproval; AutoMergeAfterAgenticReview] s.

Definition foldMode (a b : option string) : option string :=
  match a, b with
  | None, _ => b
  | _, None => a
  | Some x, Some y => if String.eqb x y then a else Some AutoMergeOff
  end.

Definition RequireDocsNever := "never".
Definition RequireDocsWhenLabelled := "when-labelled".
Definition RequireDocsAlways := "always".

Definition requireDocsRank (s : string) : option Z :=
  if String.eqb s RequireDocsNever then Some 0
  else if String.eqb s RequireDocsWhenLabelled then Some 1
  else if String.eqb s RequireDocsAlways then Some 2 else None.

Definition stricterDocs (a b : option string) : option string :=
  let rank s := default 99 (requireDocsRank s) in
  match a, b with
  | None, _ => b
  | _, None => a
  | Some x, Some y => if rank x <? rank y then b else a
  end.

Definition unionLists (a b : option (list string)) : option (list string) :=
  match a, b with
  | None, None => None
  | _, _ => Some (fold_left (λ out v, if contains out v then out else out ++ [v])
                    (default [] b) (default [] a))
  end.

Definition stickyTrue (a b : option bool) : option bool :=
  match a with
  | Some true => Some true
  | _ => match b with Some _ => b | None => a end
  end.

Definition resolveList (order def : list string) (proj oper : option (list string)) : list string :=
  let base := match proj with Some p => p | None => def end in
  let base := match oper with
              | Some _ => default [] (intersectLists (Some base) oper)
              | None => base
              end in
  filter (λ v, contains base v = true) order.

Definition resolveNum (def ceiling : Z) (proj oper : option Z) : Z :=
  let v := match proj with Some p => p | None => def end in
  let v := match oper with Some o => if o <? v then o else v | None => v end in
  Z.min (Z.max v 0) ceiling.

Definition resolveDuration (def ceiling : Duration) (proj oper : option Duration) : Duration :=
  resolveNum def ceiling proj oper.

Definition resolveMode (proj oper : option string) : string :=
  let mode := match proj with Some m => m | None => AutoMergeOff end in
  let mode := match foldMode (Some mode) oper with Some m => m | None => mode end in
  if autoMergeModes mode then mode else AutoMergeOff.

(** [andAction]: the project opts in, a coarser layer may veto. *)
Definition andAction (project : option bool) (vetoes : list (option bool)) : bool :=
  match project with
  | Some true => forallb (λ v, match v with Some false => false | _ => true end) vetoes
  | _ => false
  end.

(** ** The [pipeline_fix:] section (pipelinefix.go) *)

Definition FixClassCode := "code".
Definition FixClassTest := "test".
Definition FixClassConfiguration := "configuration".
Definition FixTargetRef := "ref".
Definition FixTargetMR := "mr".
Definition AutoMergeClassDocs := ClassDocs.
Definition AutoMergeClassCI := ClassCI.

Definition DefaultFixMaxAttempts := 2.
Definition DefaultFixMaxChain := 5.
Definition DefaultFixVerifyTimeout : Duration := 2 * Hour.
Definition DefaultFixMaxFiles := 3.
Definition DefaultFixMaxChangedLines := 40.
Definition FixMaxAttemptsCeiling := 3.
Definition FixMaxChainCeiling := 10.
Definition FixVerifyTimeoutCeiling : Duration := 6 * Hour.
Definition FixMaxFilesCeiling := 3.
Definition FixMaxChangedLinesCeiling := 40.
Definition DefaultAutoMergeMaxPerDay := 3.
Definition AutoMergeMaxPerDayCeiling := 3.

Definition fixClassOrder := [FixClassCode; FixClassTest; FixClassConfiguration].
Definition fixTargetOrder := [FixTargetRef; FixTargetMR].
Definition autoMergeClassOrder := [AutoMergeClassDocs; AutoMergeClassCI].
Definition defaultFixClasses := [FixClassCode; FixClassTest].
Definition defaultFixTargets := [FixTargetRef].
Definition defaultAutoMergeClasses := [AutoMergeClassDocs].

Record AutoMergePolicy := mkAutoMergePolicy {
  am_Mode : option string;
  am_Classes : option (list string);
  am_MaxPerDay : option Z;
}.

Record PipelineFixPolicy := mkPipelineFixPolicy {
  pf_Classes : option (list string);
  pf_Targets : option (list string);
  pf_AllowCI : option bool;
  pf_CIExecChanges : option string;
  pf_MaxAttempts : option Z;
  pf_MaxChain : option Z;
  pf_VerifyTimeout : option Duration;
  pf_MaxFiles : option Z;
  pf_MaxChangedLines : option Z;
  pf_Paths : list string;
  pf_AutoMerge : AutoMergePolicy;
}.

Definition PipelineFixPolicy_IsZero (p : PipelineFixPolicy) : bool :=
  bool_decide (pf_Classes p = None) && bool_decide (pf_Targets p = None)
  && bool_decide (pf_AllowCI p = None) && bool_decide (pf_CIExecChanges p = None)
  && bool_decide (pf_MaxAttempts p = None) && bool_decide (pf_MaxChain p = None)
  && bool_decide (pf_VerifyTimeout p = None) && bool_decide (pf_MaxFiles p = None)
  && bool_decide (pf_MaxChangedLines p = None) && (length (pf_Paths p) =? 0)%nat
  && bool_decide (am_Mode (pf_AutoMerge p) = None)
  && bool_decide (am_Classes (pf_AutoMerge p) = None)
  && bool_decide (am_MaxPerDay (pf_AutoMerge p) = None).

Record intBound := mkIntBound { ib_key : string; ib_v : option Z; ib_ceiling : Z }.

Definition PipelineFixPolicy_ints (p : PipelineFixPolicy) : list intBound :=
  [mkIntBound "max_attempts" (pf_MaxAttempts p) FixMaxAttemptsCeiling;
   mkIntBound "max_chain" (pf_MaxChain p) FixMaxChainCeiling;
   mkIntBound "max_files" (pf_MaxFiles p) FixMaxFilesCeiling;
   mkIntBound "max_changed_lines" (pf_MaxChangedLines p) FixMaxChangedLinesCeiling;
   mkIntBound "auto_merge.max_per_day" (am_MaxPerDay (pf_AutoMerge p)) AutoMergeMaxPerDayCeiling].

Inductive section_error :=
| SectionUnknownLayer (layer : Layer)
| SectionNotOneOf (key v : string)
| SectionOutOfRange (key : string) (v : Z)
| SectionVerifyTimeout (v : Duration)
| SectionPathsProjectOnly
| SectionTooManyPaths
| SectionBadPath (e : pattern_error)
| SectionTooManyLabels
| SectionBadLabel (l : string)
| SectionLabelTwice (l : string)
| SectionRungOperatorOnly
| SectionBadRung (r : string)
| SectionNeeds (key needs : string).

Definition known_layer (layer : Layer) : bool :=
  String.eqb layer LayerOperator || String.eqb layer LayerProject.

Definition check_members (l : string * list string * list string) : option section_error :=
  let '(key, got, allowed) := l in
  first_error (λ v, if contains allowed v then None else Some (SectionNotOneOf key v)) got.

Definition check_bound (n : intBound) : option section_error :=
  match ib_v n with
  | Some v => if (v <? 1) || (ib_ceiling n <? v) then Some (SectionOutOfRange (ib_key n) v) else None
  | None => None
  end.

Definition check_opt {A} (o : option A) (ok : A → bool) (e : A → section_error) : option section_error :=
  match o with Some v => if ok v then None else Some (e v) | None => None end.

Definition check_paths (layer : Layer) (paths : list string) : option section_error :=
  if (0 <? length paths)%nat && String.eqb layer LayerOperator then Some SectionPathsProjectOnly
  else if MaxPatterns <? Z.of_nat (length paths) then Some SectionTooManyPaths
  else first_error (λ pat, SectionBadPath <$> ValidatePattern pat) paths.

Definition PipelineFixPolicy_Validate (p : PipelineFixPolicy) (layer : Layer) : option section_error :=
  if negb (known_layer layer) then Some (SectionUnknownLayer layer)
  else
    or_else (first_error check_members
       [("classes", default [] (pf_Classes p), fixClassOrder);
        ("targets", default [] (pf_Targets p), fixTargetOrder);
        ("auto_merge.classes", default [] (am_Classes (pf_AutoMerge p)), autoMergeClassOrder)])
    (or_else (check_opt (pf_CIExecChanges p) (λ v, bool_decide (is_Some (ciExecRank v)))
                (SectionNotOneOf "ci_exec_changes"))
    (or_else (check_opt (am_Mode (pf_AutoMerge p)) autoMergeModes (SectionNotOneOf "auto_merge.mode"))
    (or_else (first_error check_bound (PipelineFixPolicy_ints p))
    (or_else (check_opt (pf_VerifyTimeout p) (λ v, (0 <? v) && (v <=? FixVerifyTimeoutCeiling))
                SectionVerifyTimeout)
       (check_paths layer (pf_Paths p)))))).

Record EffectiveAutoMerge := mkEffectiveAutoMerge {
  Mode : string; MergeClasses : list string; MaxPerDay : Z;
}.

Record EffectivePipelineFix := mkEffectivePipelineFix {
  FixClasses : list string;
  FixTargets : list string;
  AllowCI : bool;
  CIExecChanges : string;
  FixMaxAttempts : Z;
  FixMaxChain : Z;
  FixVerifyTimeout : Duration;
  FixMaxFiles : Z;
  FixMaxChangedLines : Z;
  FixPaths : list string;
  FixAutoMerge : EffectiveAutoMerge;
}.

Definition AllowsClass (e : EffectivePipelineFix) (class : string) : bool := contains (FixClasses e) class.
Definition FixAllowsTarget (e : EffectivePipelineFix) (t : string) : bool := contains (FixTargets e) t.

Definition LiftOptIn (e : EffectivePipelineFix) : list Class_ := if AllowCI e then [ClassCI] else [].

Definition lower (have : option Z) (cap : Z) : option Z :=
  Some (match have with Some h => if h <? cap then h else cap | None => cap end).

Definition tightenScope (project : ScopePolicy.Policy) (maxFiles maxLines : Z) : ScopePolicy.Policy :=
  let c := p_Caps project in
  mkPolicy (p_Classes project)
    (mkCapsPolicy (lower (cp_MaxFiles c) maxFiles) (lower (cp_MaxLines c) maxLines) (cp_MaxDeletes c)
       (cp_MaxFileBytes c) (cp_MaxPatchBytes c))
    (ProtectedPaths project) (CIPaths project) (TestPaths project) (DocsPaths project)
    (SourcePaths project) (DenyLift project) (p_Profiles project) (AllowedProfiles project).

Definition FixTightenScope (e : EffectivePipelineFix) (project : ScopePolicy.Policy) : ScopePolicy.Policy :=
  tightenScope project (FixMaxFiles e) (FixMaxChangedLines e).

Definition FoldPipelineFix (base next : PipelineFixPolicy) : PipelineFixPolicy := {|
  pf_Classes := intersectLists (pf_Classes base) (pf_Classes next);
  pf_Targets := intersectLists (pf_Targets base) (pf_Targets next);
  pf_AllowCI := vetoFold (pf_AllowCI base) (pf_AllowCI next);
  pf_CIExecChanges := stricterExec (pf_CIExecChanges base) (pf_CIExecChanges next);
  pf_MaxAttempts := minInt (pf_MaxAttempts base) (pf_MaxAttempts next);
  pf_MaxChain := minInt (pf_MaxChain base) (pf_MaxChain next);
  pf_VerifyTimeout :=
    match pf_VerifyTimeout base, pf_VerifyTimeout next with
    | None, n => n
    | Some b, None => Some b
    | Some b, Some n => if b <=? n then Some b else Some n
    end;
  pf_MaxFiles := minInt (pf_MaxFiles base) (pf_MaxFiles next);
  pf_MaxChangedLines := minInt (pf_MaxChangedLines base) (pf_MaxChangedLines next);
  pf_Paths := [];
  pf_AutoMerge := mkAutoMergePolicy
    (foldMode (am_Mode (pf_AutoMerge base)) (am_Mode (pf_AutoMerge next)))
    (intersectLists (am_Classes (pf_AutoMerge base)) (am_Classes (pf_AutoMerge next)))
    (minInt (am_MaxPerDay (pf_AutoMerge base)) (am_MaxPerDay (pf_AutoMerge next)));
|}.

(** [ResolvePipelineFix] states [list] and [num] as closures with the text of
    [resolveList] and [resolveNum]. *)
Definition ResolvePipelineFix (instance group project : PipelineFixPolicy) : EffectivePipelineFix :=
  let op := FoldPipelineFix instance group in
  let exec := match pf_CIExecChanges project with Some e => e | None => CIExecManualRun end in
  let exec := match stricterExec (Some exec) (pf_CIExecChanges op) with Some s => s | None => exec end in
  let exec := if bool_decide (is_Some (ciExecRank exec)) then exec else CIExecDeny in
  let timeout := match pf_VerifyTimeout project with
                 | Some t => t | None => DefaultFixVerifyTimeout end in
  let timeout := match pf_VerifyTimeout op with
                 | Some t => if t <? timeout then t else timeout | None => timeout end in
  let mode := match am_Mode (pf_AutoMerge project) with Some m => m | None => AutoMergeOff end in
  let mode := match foldMode (Some mode) (am_Mode (pf_AutoMerge op)) with
              | Some m => m | None => mode end in
  let mode := if autoMergeModes mode then mode else AutoMergeOff in
  {| FixClasses := resolveList fixClassOrder defaultFixClasses (pf_Classes project) (pf_Classes op);
     FixTargets := resolveList fixTargetOrder defaultFixTargets (pf_Targets project) (pf_Targets op);
     AllowCI := andAction (pf_AllowCI project) [pf_AllowCI op];
     CIExecChanges := exec;
     FixMaxAttempts := resolveNum DefaultFixMaxAttempts FixMaxAttemptsCeiling
                         (pf_MaxAttempts project) (pf_MaxAttempts op);
     FixMaxChain := resolveNum DefaultFixMaxChain FixMaxChainCeiling (pf_MaxChain project) (pf_MaxChain op);
     FixVerifyTimeout := Z.min (Z.max timeout 0) FixVerifyTimeoutCeiling;
     FixMaxFiles := resolveNum DefaultFixMaxFiles FixMaxFilesCeiling (pf_MaxFiles project) (pf_MaxFiles op);
     FixMaxChangedLines := resolveNum DefaultFixMaxChangedLines FixMaxChangedLinesCeiling
                             (pf_MaxChangedLines project) (pf_MaxChangedLines op);
     FixPaths := pf_Paths project;
     FixAutoMerge := mkEffectiveAutoMerge mode
       (resolveList autoMergeClassOrder defaultAutoMergeClasses (am_Classes (pf_AutoMerge project))
          (am_Classes (pf_AutoMerge op)))
       (resolveNum DefaultAutoMergeMaxPerDay AutoMergeMaxPerDayCeiling
          (am_MaxPerDay (pf_AutoMerge project)) (am_MaxPerDay (pf_AutoMerge op))) |}.

(** ** The [change:] section (change.go) *)

Definition ChangeTriggerLabel := "label".
Definition ChangeTriggerCommand := "command".
Definition ChangeTriggerMention := "mention".
Definition CreateClassSource := ClassSource.
Definition CreateClassTest := ClassTest.
Definition CreateClassDocs := ClassDocs.

Definition DefaultChangeMaxAttempts := 2.
Definition DefaultChangeMaxOpen := 1.
Definition DefaultChangeVerifyTimeout : Duration := 2 * Hour.
Definition DefaultChangeMaxFiles := 6.
Definition DefaultChangeMaxChangedLines := 200.
Definition ChangeMaxAttemptsCeiling := 3.
Definition ChangeMaxOpenCeiling := 3.
Definition ChangeVerifyTimeoutCeiling : Duration := 6 * Hour.
Definition ChangeMaxFilesCeiling := 8.
Definition ChangeMaxChangedLinesCeiling := 300.
Definition MaxDocsLabels : Z := 16.
Definition MaxDocsLabelLen : Z := 255.

Definition changeTriggerOrder := [ChangeTriggerLabel; ChangeTriggerCommand; ChangeTriggerMention].
Definition createClassOrder := [CreateClassSource; CreateClassTest; CreateClassDocs].
Definition changeMergeClassOrder := [AutoMergeClassDocs].
Definition defaultChangeTriggers := [ChangeTriggerLabel].
Definition defaultCreateClasses := [CreateClassTest; CreateClassDocs].
Definition defaultDocsLabels := ["feature"; "enhancement"; "type::feature"].
Definition defaultChangeMergeClass := [AutoMergeClassDocs].

Record ChangePolicy := mkChangePolicy {
  ch_Triggers : option (list string);
  ch_CreateClasses : option (list string);
  ch_RequireDocs : option string;
  ch_DocsLabels : option (list string);
  ch_RequireTestReport : option bool;
  ch_MaxAttempts : option Z;
  ch_MaxOpen : option Z;
  ch_VerifyTimeout : option Duration;
  ch_MaxFiles : option Z;
  ch_MaxChangedLines : option Z;
  ch_Paths : list string;
  ch_AutoMerge : AutoMergePolicy;
}.

Definition ChangePolicy_IsZero (p : ChangePolicy) : bool :=
  bool_decide (ch_Triggers p = None) && bool_decide (ch_CreateClasses p = None)
  && bool_decide (ch_RequireDocs p = None) && bool_decide (ch_DocsLabels p = None)
  && bool_decide (ch_RequireTestReport p = None) && bool_decide (ch_MaxAttempts p = None)
  && bool_decide (ch_MaxOpen p = None) && bool_decide (ch_VerifyTimeout p = None)
  && bool_decide (ch_MaxFiles p = None) && bool_decide (ch_MaxChangedLines p = None)
  && (length (ch_Paths p) =? 0)%nat && bool_decide (am_Mode (ch_AutoMerge p) = None)
  && bool_decide (am_Classes (ch_AutoMerge p) = None)
  && bool_decide (am_MaxPerDay (ch_AutoMerge p) = None).

Definition ChangePolicy_ints (p : ChangePolicy) : list intBound :=
  [mkIntBound "max_attempts" (ch_MaxAttempts p) ChangeMaxAttemptsCeiling;
   mkIntBound "max_open" (ch_MaxOpen p) ChangeMaxOpenCeiling;
   mkIntBound "max_files" (ch_MaxFiles p) ChangeMaxFilesCeiling;
   mkIntBound "max_changed_lines" (ch_MaxChangedLines p) ChangeMaxChangedLinesCeiling;
   mkIntBound "auto_merge.max_per_day" (am_MaxPerDay (ch_AutoMerge p)) AutoMergeMaxPerDayCeiling].

(** The white space that [\S] excludes: tab, newline, form feed, carriage
    return and space. *)
Definition re_space (c : ascii) : bool :=
  (byte_val c =? 9) || (byte_val c =? 10) || (byte_val c =? 12) || (byte_val c =? 13)
  || (byte_val c =? 32).

(** [^\S(.*\S)?$], where the dot excludes the newline. *)
Definition docsLabelRe (s : string) : bool :=
  match s with
  | EmptyString => false
  | String c s' => negb (re_space c) && negb (re_space (unsnoc c s').2)
                   && all_bytes (λ b, negb (byte_val b =? 10)) s
  end.

(** [utf8.RuneCountInString]; the fuel is the length in bytes. *)
Fixpoint rune_count (fuel : nat) (s : string) : Z :=
  match fuel, s with
  | S f, String _ _ => 1 + rune_count f (string_drop (rune_len s) s)
  | _, _ => 0
  end.
Definition RuneCountInString (s : string) : Z := rune_count (String.length s) s.

Definition validDocsLabel (l : string) : bool :=
  docsLabelRe l && (RuneCountInString l <=? MaxDocsLabelLen).

(** The labels in order, each against the ones before it. *)
Fixpoint check_labels (before labels : list string) : option section_error :=
  match labels with
  | [] => None
  | l :: rest =>
      if negb (validDocsLabel l) then Some (SectionBadLabel l)
      else if contains before l then Some (SectionLabelTwice l)
      else check_labels (before ++ [l]) rest
  end.

Definition ChangePolicy_Validate (p : ChangePolicy) (layer : Layer) : option section_error :=
  if negb (known_layer layer) then Some (SectionUnknownLayer layer)
  else
    or_else (first_error check_members
       [("triggers", default [] (ch_Triggers p), changeTriggerOrder);
        ("create_classes", default [] (ch_CreateClasses p), createClassOrder);
        ("auto_merge.classes", default [] (am_Classes (ch_AutoMerge p)), changeMergeClassOrder)])
    (or_else (check_opt (ch_RequireDocs p) (λ v, bool_decide (is_Some (requireDocsRank v)))
                (SectionNotOneOf "require_docs"))
    (or_else (if MaxDocsLabels <? Z.of_nat (length (default [] (ch_DocsLabels p)))
              then Some SectionTooManyLabels else None)
    (or_else (check_labels [] (default [] (ch_DocsLabels p)))
    (or_else (check_opt (am_Mode (ch_AutoMerge p)) autoMergeModes (SectionNotOneOf "auto_merge.mode"))
    (or_else (first_error check_bound (ChangePolicy_ints p))
    (or_else (check_opt (ch_VerifyTimeout p) (λ v, (0 <? v) && (v <=? ChangeVerifyTimeoutCeiling))
                SectionVerifyTimeout)
       (check_paths layer (ch_Paths p)))))))).

Record EffectiveChange := mkEffectiveChange {
  Triggers : list string;
  CreateClasses : list string;
  RequireDocs : string;
  DocsLabels : list string;
  RequireTestReport : bool;
  ChangeMaxAttempts : Z;
  ChangeMaxOpen : Z;
  ChangeVerifyTimeout : Duration;
  ChangeMaxFiles : Z;
  ChangeMaxChangedLines : Z;
  ChangePaths : list string;
  ChangeAutoMerge : EffectiveAutoMerge;
}.

Definition AllowsTrigger (e : EffectiveChange) (form : string) : bool := contains (Triggers e) form.
Definition AllowsCreateClass (e : EffectiveChange) (class : string) : bool := contains (CreateClasses e) class.

Definition DocsRequired (e : EffectiveChange) (issueLabels : list string) : bool :=
  if String.eqb (RequireDocs e) RequireDocsNever then false
  else if String.eqb (RequireDocs e) RequireDocsWhenLabelled
  then existsb (contains (DocsLabels e)) issueLabels
  else true.

Definition ChangeTightenScope (e : EffectiveChange) (project : ScopePolicy.Policy) : ScopePolicy.Policy :=
  tightenScope project (ChangeMaxFiles e) (ChangeMaxChangedLines e).

Definition FoldChange (base next : ChangePolicy) : ChangePolicy := {|
  ch_Triggers := intersectLists (ch_Triggers base) (ch_Triggers next);
  ch_CreateClasses := intersectLists (ch_CreateClasses base) (ch_CreateClasses next);
  ch_RequireDocs := stricterDocs (ch_RequireDocs base) (ch_RequireDocs next);
  ch_DocsLabels := unionLists (ch_DocsLabels base) (ch_DocsLabels next);
  ch_RequireTestReport := stickyTrue (ch_RequireTestReport base) (ch_RequireTestReport next);
  ch_MaxAttempts := minInt (ch_MaxAttempts base) (ch_MaxAttempts next);
  ch_MaxOpen := minInt (ch_MaxOpen base) (ch_MaxOpen next);
  ch_VerifyTimeout := minDuration (ch_VerifyTimeout base) (ch_VerifyTimeout next);
  ch_MaxFiles := minInt (ch_MaxFiles base) (ch_MaxFiles next);
  ch_MaxChangedLines := minInt (ch_MaxChangedLines base) (ch_MaxChangedLines next);
  ch_Paths := [];
  ch_AutoMerge := mkAutoMergePolicy
    (foldMode (am_Mode (ch_AutoMerge base)) (am_Mode (ch_AutoMerge next)))
    (intersectLists (am_Classes (ch_AutoMerge base)) (am_Classes (ch_AutoMerge next)))
    (minInt (am_MaxPerDay (ch_AutoMerge base)) (am_MaxPerDay (ch_AutoMerge next)));
|}.

Definition keep_label (out : list string) (l : string) : list string :=
  if validDocsLabel l && negb (contains out l) then out ++ [l] else out.

Definition ResolveChange (instance group project : ChangePolicy) : EffectiveChange :=
  let op := FoldChange instance group in
  let docs := match ch_RequireDocs project with Some d => d | None => RequireDocsWhenLabelled end in
  let docs := match stricterDocs (Some docs) (ch_RequireDocs op) with Some s => s | None => docs end in
  let docs := if bool_decide (is_Some (requireDocsRank docs)) then docs else RequireDocsAlways in
  let labels := match ch_DocsLabels project with Some l => l | None => defaultDocsLabels end in
  {| Triggers := resolveList changeTriggerOrder defaultChangeTriggers (ch_Triggers project) (ch_Triggers op);
     CreateClasses := resolveList createClassOrder defaultCreateClasses (ch_CreateClasses project)
                        (ch_CreateClasses op);
     RequireDocs := docs;
     DocsLabels := fold_left keep_label (default [] (unionLists (Some labels) (ch_DocsLabels op))) [];
     RequireTestReport := is_on (ch_RequireTestReport project) || is_on (ch_RequireTestReport op);
     ChangeMaxAttempts := resolveNum DefaultChangeMaxAttempts ChangeMaxAttemptsCeiling
                            (ch_MaxAttempts project) (ch_MaxAttempts op);
     ChangeMaxOpen := resolveNum DefaultChangeMaxOpen ChangeMaxOpenCeiling (ch_MaxOpen project) (ch_MaxOpen op);
     ChangeVerifyTimeout := resolveDuration DefaultChangeVerifyTimeout ChangeVerifyTimeoutCeiling
                              (ch_VerifyTimeout project) (ch_VerifyTimeout op);
     ChangeMaxFiles := resolveNum DefaultChangeMaxFiles ChangeMaxFilesCeiling (ch_MaxFiles project)
                         (ch_MaxFiles op);
     ChangeMaxChangedLines := resolveNum DefaultChangeMaxChangedLines ChangeMaxChangedLinesCeiling
                                (ch_MaxChangedLines project) (ch_MaxChangedLines op);
     ChangePaths := ch_Paths project;
     ChangeAutoMerge := mkEffectiveAutoMerge
       (resolveMode (am_Mode (ch_AutoMerge project)) (am_Mode (ch_AutoMerge op)))
       (resolveList changeMergeClassOrder defaultChangeMergeClass (am_Classes (ch_AutoMerge project))
          (am_Classes (ch_AutoMerge op)))
       (resolveNum DefaultAutoMergeMaxPerDay AutoMergeMaxPerDayCeiling
          (am_MaxPerDay (ch_AutoMerge project)) (am_MaxPerDay (ch_AutoMerge op))) |}.

(** ** The [review:] section (review.go) *)

Definition ReviewTargetGonk := "gonk".
Definition DefaultReviewMaxNotes := 20.
Definition ReviewMaxNotesCeiling := 20.
Definition DefaultReviewMaxReviewsPerMR := 3.
Definition ReviewMaxReviewsPerMRCeiling := 3.
Definition WorkflowPipelineFix := "pipeline-fix".
Definition WorkflowChange := "change".
Definition ReviewMergeReviewsOff := "reviews-off".
Definition ReviewMergeNoRung := "no-review-rung".
Definition ReviewMergeModelsNotCompared := "models-not-compared".
Definition ReviewMergeRungUnknown := "review-rung-not-in-catalog".
Definition ReviewMergeNoAuthorRung := "no-author-rung".
Definition ReviewMergeNoDistinctModel := "no-distinct-model".
Definition reviewTargetOrder := [ReviewTargetGonk].
Definition defaultReviewTargetsList := [ReviewTargetGonk].

Record ReviewPolicy := mkReviewPolicy {
  rv_Targets : option (list string);
  rv_Rung : option string;
  rv_MaxNotes : option Z;
  rv_MaxReviewsPerMR : option Z;
}.

Definition ReviewPolicy_IsZero (p : ReviewPolicy) : bool :=
  bool_decide (rv_Targets p = None) && bool_decide (rv_Rung p = None)
  && bool_decide (rv_MaxNotes p = None) && bool_decide (rv_MaxReviewsPerMR p = None).

Definition ReviewPolicy_ints (p : ReviewPolicy) : list intBound :=
  [mkIntBound "max_notes" (rv_MaxNotes p) ReviewMaxNotesCeiling;
   mkIntBound "max_reviews_per_mr" (rv_MaxReviewsPerMR p) ReviewMaxReviewsPerMRCeiling].

(** [^[a-z0-9][a-z0-9-]*$]. *)
Definition reviewRungRe (s : string) : bool :=
  match s with
  | EmptyString => false
  | String c s' => (is_lower c || is_digit c)
                   && all_bytes (λ c, is_lower c || is_digit c || (byte_val c =? 45)) s'
  end.

Definition ReviewPolicy_Validate (p : ReviewPolicy) (layer : Layer) : option section_error :=
  if negb (known_layer layer) then Some (SectionUnknownLayer layer)
  else
    or_else (check_members ("targets", default [] (rv_Targets p), reviewTargetOrder))
    (or_else (if bool_decide (is_Some (rv_Rung p)) && String.eqb layer LayerProject
              then Some SectionRungOperatorOnly else None)
    (or_else (check_opt (rv_Rung p) reviewRungRe SectionBadRung)
       (first_error check_bound (ReviewPolicy_ints p)))).

Record ReviewMergeStatus := mkReviewMergeStatus { Available : bool; Reason : string }.
Definition ReviewMergeStatus_zero : ReviewMergeStatus := mkReviewMergeStatus false "".

Record EffectiveReview := mkEffectiveReview {
  ReviewTargets : list string;
  ReviewRung : string;
  MaxNotes : Z;
  MaxReviewsPerMR : Z;
  PipelineFixMerge : ReviewMergeStatus;
  ChangeMerge : ReviewMergeStatus;
}.

Definition ReviewAllowsTarget (e : EffectiveReview) (t : string) : bool := contains (ReviewTargets e) t.

Definition MergeStatus (e : EffectiveReview) (workflow : string) : ReviewMergeStatus :=
  if String.eqb workflow WorkflowPipelineFix then PipelineFixMerge e
  else if String.eqb workflow WorkflowChange then ChangeMerge e
  else ReviewMergeStatus_zero.

Definition foldRung (a b : option string) : option string :=
  match a, b with
  | None, _ => b
  | _, None => a
  | Some x, Some y => if String.eqb x y then a else Some ""
  end.

Definition FoldReview (base next : ReviewPolicy) : ReviewPolicy := {|
  rv_Targets := intersectLists (rv_Targets base) (rv_Targets next);
  rv_Rung := foldRung (rv_Rung base) (rv_Rung next);
  rv_MaxNotes := minInt (rv_MaxNotes base) (rv_MaxNotes next);
  rv_MaxReviewsPerMR := minInt (rv_MaxReviewsPerMR base) (rv_MaxReviewsPerMR next);
|}.

Definition ResolveReview (instance group project : ReviewPolicy) : EffectiveReview :=
  let op := FoldReview instance group in
  {| ReviewTargets := resolveList reviewTargetOrder defaultReviewTargetsList (rv_Targets project)
                        (rv_Targets op);
     ReviewRung := match rv_Rung op with
                   | Some r => if reviewRungRe r then r else ""
                   | None => ""
                   end;
     MaxNotes := resolveNum DefaultReviewMaxNotes ReviewMaxNotesCeiling (rv_MaxNotes project) (rv_MaxNotes op);
     MaxReviewsPerMR := resolveNum DefaultReviewMaxReviewsPerMR ReviewMaxReviewsPerMRCeiling
                          (rv_MaxReviewsPerMR project) (rv_MaxReviewsPerMR op);
     PipelineFixMerge := ReviewMergeStatus_zero;
     ChangeMerge := ReviewMergeStatus_zero |}.

Definition reviewMergeStatus (reviewsOn : bool) (r : EffectiveReview) : ReviewMergeStatus :=
  if negb reviewsOn then mkReviewMergeStatus false ReviewMergeReviewsOff
  else if String.eqb (ReviewRung r) "" then mkReviewMergeStatus false ReviewMergeNoRung
  else mkReviewMergeStatus false ReviewMergeModelsNotCompared.

Definition UsableAutoMergeMode (actionOn : bool) (am : EffectiveAutoMerge) (st : ReviewMergeStatus) :
    string * string :=
  if String.eqb (Mode am) AutoMergeOff then (AutoMergeOff, "")
  else if negb (autoMergeModes (Mode am)) then (AutoMergeOff, "unknown-mode")
  else if negb actionOn then (AutoMergeOff, "action-off")
  else if String.eqb (Mode am) AutoMergeAfterAgenticReview && negb (Available st) then
    if String.eqb (Reason st) "" then (AutoMergeOff, ReviewMergeModelsNotCompared)
    else (AutoMergeOff, Reason st)
  else (Mode am, "").

(** ** Layers and their resolution (config.go, resolve.go) *)

Record ActionsPolicy := mkActionsPolicy {
  ap_Triage : option bool;
  ap_Pipelines : option bool;
  ap_PipelineFixes : option bool;
  ap_Features : option bool;
  ap_Scaffold : option bool;
  ap_Reviews : option bool;
}.

Record Schedule := mkSchedule { QuietHours_ : string; Timezone : string }.

Record BudgetPolicy := mkBudgetPolicy {
  bp_MonthlyCostUSD : option float64;
  bp_MonthlyTokens : option TokenQuantity;
  bp_PerTaskTokens : option TokenQuantity;
}.

(** [Policy]; the [scope:] section is carried, not folded here. *)
Record CfgPolicy := mkCfgPolicy {
  c_Enabled : option bool;
  c_Actions : ActionsPolicy;
  c_Schedule : option Schedule;
  c_Budget : BudgetPolicy;
  c_Ladder : option (list string);
  c_Continuity : option string;
  c_LabelPrefix : option string;
  c_RespondToMentions : option bool;
  c_CommitTrailers : option bool;
  c_IncludeUsage : option bool;
  c_Scope : ScopePolicy.Policy;
  c_PipelineFix : PipelineFixPolicy;
  c_Change : ChangePolicy;
  c_Review : ReviewPolicy;
}.

Definition CheckPipelineFix (p : CfgPolicy) : option section_error :=
  if is_on (ap_PipelineFixes (c_Actions p)) && negb (is_on (ap_Pipelines (c_Actions p)))
  then Some (SectionNeeds "actions.pipeline_fixes" "actions.pipelines")
  else PipelineFixPolicy_Validate (c_PipelineFix p) LayerProject.

Definition CheckChange (p : CfgPolicy) : option section_error :=
  or_else (ChangePolicy_Validate (c_Change p) LayerProject)
    (match am_Mode (ch_AutoMerge (c_Change p)) with
     | Some m =>
         if String.eqb m AutoMergeOff then None
         else if negb (is_on (ap_Features (c_Actions p)))
         then Some (SectionNeeds "auto_merge.mode" "actions.features")
         else if String.eqb m AutoMergeAfterAgenticReview && negb (is_on (ap_Reviews (c_Actions p)))
         then Some (SectionNeeds "auto_merge.mode" "actions.reviews")
         else None
     | None => None
     end).

Definition CheckReview (p : CfgPolicy) : option section_error :=
  if is_on (ap_Reviews (c_Actions p)) && negb (is_on (ap_PipelineFixes (c_Actions p)))
     && negb (is_on (ap_Features (c_Actions p)))
  then Some (SectionNeeds "actions.reviews" "actions.pipeline_fixes or actions.features")
  else ReviewPolicy_Validate (c_Review p) LayerProject.

Record Actions := mkActions {
  Triage : bool; Pipelines : bool; PipelineFixes : bool; Features : bool; Scaffold : bool; Reviews : bool;
}.

Record EffectiveBudget := mkEffectiveBudget {
  eb_MonthlyCostUSD : float64;
  eb_MonthlyTokens : TokenQuantity;
  eb_PerTaskTokens : TokenQuantity;
}.

(** Why a project is off; [NotDisabled] is the empty string. *)
Inductive DisabledReason :=
| NotDisabled
| DisabledByInstance
| DisabledByGroup
| DisabledByProject
| InvalidBudget (layer : string)
| LadderEmpty (layers : list (string * list string)).

Record EffectiveCfg := mkEffectiveCfg {
  ec_Enabled : bool;
  ec_DisabledReason : DisabledReason;
  ec_Actions : Actions;
  ec_Schedule : option Schedule;
  ec_Budget : EffectiveBudget;
  ec_Ladder : list string;
  ec_Continuity : string;
  ec_LabelPrefix : string;
  ec_RespondToMentions : bool;
  ec_CommitTrailers : bool;
  ec_IncludeUsage : bool;
  ec_PipelineFix : EffectivePipelineFix;
  ec_Change : EffectiveChange;
  ec_Review : EffectiveReview;
}.

Definition intersect (base allowed : list string) : list string :=
  filter (λ b, b ∈ (list_to_set allowed : gset string)) base.

Definition nonFinite (v : option float64) : bool :=
  match v with Some f => IsNaN f || IsInf f | None => false end.

Definition nonFiniteBudgetLayer (instance group project : CfgPolicy) : string :=
  if nonFinite (bp_MonthlyCostUSD (c_Budget instance)) then "instance"
  else if nonFinite (bp_MonthlyCostUSD (c_Budget group)) then "group"
  else if nonFinite (bp_MonthlyCostUSD (c_Budget project)) then "project" else "".

Definition ladderEmptyReason (instance group project : CfgPolicy) : DisabledReason :=
  let part name l := match l with Some rungs => [(name, rungs)] | None => [] end in
  LadderEmpty (part "project" (c_Ladder project) ++ part "group" (c_Ladder group)
               ++ part "instance" (c_Ladder instance)).

(** Tighten-only budgets, one layer. *)
Definition tighten_budget (b : EffectiveBudget) (l : CfgPolicy) : EffectiveBudget := {|
  eb_MonthlyCostUSD := match bp_MonthlyCostUSD (c_Budget l) with
                       | Some v => if flt v (eb_MonthlyCostUSD b) then v else eb_MonthlyCostUSD b
                       | None => eb_MonthlyCostUSD b end;
  eb_MonthlyTokens := match bp_MonthlyTokens (c_Budget l) with
                      | Some v => if v <? eb_MonthlyTokens b then v else eb_MonthlyTokens b
                      | None => eb_MonthlyTokens b end;
  eb_PerTaskTokens := match bp_PerTaskTokens (c_Budget l) with
                      | Some v => if v <? eb_PerTaskTokens b then v else eb_PerTaskTokens b
                      | None => eb_PerTaskTokens b end;
|}.

Definition unlimited_budget : EffectiveBudget := mkEffectiveBudget Inf MaxInt64 MaxInt64.

(** Coarser lists that are set act as allow-lists on the most specific one. *)
Definition allow_list (ladder : list string) (coarser : option (list string)) : list string :=
  match coarser with Some l => intersect ladder l | None => ladder end.

Definition resolve_ladder (instance group project : option (list string)) : list string :=
  match project with
  | Some l => allow_list (allow_list l instance) group
  | None => match group with
            | Some l => allow_list l instance
            | None => default [] instance
            end
  end.

(** The last layer that is set wins. *)
Definition most_specific {A} (def : A) (layers : list (option A)) : A :=
  fold_left (λ acc o, match o with Some v => v | None => acc end) layers def.

Definition vetoed (p : CfgPolicy) : bool := match c_Enabled p with Some false => true | _ => false end.

Definition Resolve (instance group project : CfgPolicy) : EffectiveCfg :=
  let layers := [instance; group; project] in
  let act f := andAction (f (c_Actions project)) [f (c_Actions instance); f (c_Actions group)] in
  let enabled := is_on (c_Enabled project) && negb (vetoed instance) && negb (vetoed group) in
  let pipelines := act ap_Pipelines in
  let features := act ap_Features in
  let pipelineFixes := pipelines && act ap_PipelineFixes in
  let reviews := (pipelineFixes || features) && act ap_Reviews in
  let review := ResolveReview (c_Review instance) (c_Review group) (c_Review project) in
  let st := reviewMergeStatus reviews review in
  let budget := fold_left tighten_budget layers unlimited_budget in
  let ladder := resolve_ladder (c_Ladder instance) (c_Ladder group) (c_Ladder project) in
  let badBudget := nonFiniteBudgetLayer instance group project in
  let bad := negb (String.eqb badBudget "") in
  let empty := (length ladder =? 0)%nat in
  {| ec_Enabled := if bad || empty then false else enabled;
     ec_DisabledReason :=
       if vetoed instance then DisabledByInstance
       else if vetoed group then DisabledByGroup
       else if negb (is_on (c_Enabled project)) then DisabledByProject
       else if bad then InvalidBudget badBudget
       else if empty then ladderEmptyReason instance group project
       else NotDisabled;
     ec_Actions := mkActions (act ap_Triage) pipelines pipelineFixes features (act ap_Scaffold) reviews;
     ec_Schedule := most_specific None (map (λ l, Some <$> c_Schedule l) layers);
     ec_Budget := if bad then mkEffectiveBudget fzero (eb_MonthlyTokens budget) (eb_PerTaskTokens budget)
                  else budget;
     ec_Ladder := ladder;
     ec_Continuity := most_specific "resume" (map c_Continuity layers);
     ec_LabelPrefix := most_specific "gonk::" (map c_LabelPrefix layers);
     ec_RespondToMentions := most_specific true (map c_RespondToMentions layers);
     ec_CommitTrailers := most_specific true (map c_CommitTrailers layers);
     ec_IncludeUsage := most_specific false (map c_IncludeUsage layers);
     ec_PipelineFix := ResolvePipelineFix (c_PipelineFix instance) (c_PipelineFix group) (c_PipelineFix project);
     ec_Change := ResolveChange (c_Change instance) (c_Change group) (c_Change project);
     ec_Review := mkEffectiveReview (ReviewTargets review) (ReviewRung review) (MaxNotes review)
                    (MaxReviewsPerMR review) st st |}.

(** ** Token quantities: lemmas *)

Lemma string_app_nil s : s +:+ "" = s.
Proof.
  induction s as [|c s IH]; [done|].
  change (String c s +:+ "") with (String c (s +:+ "")). by rewrite IH.
Qed.

Lemma unsnoc_app c s t l : unsnoc c s = (t, l) → String c s = t +:+ String l "".
Proof.
  revert c t. induction s as [|d s IH]; intros c t; simpl; [by intros [= <- <-]|].
  destruct (unsnoc d s) as [t' l'] eqn:E. intros [= <- <-]. apply IH in E.
  change (String c t' +:+ String l' "") with (String c (t' +:+ String l' "")). by rewrite <- E.
Qed.

Lemma unsnoc_digit c s : all_bytes is_digit (String c s) = true → is_digit (unsnoc c s).2 = true.
Proof.
  revert c. induction s as [|d s IH]; intros c H.
  - simpl in *. by rewrite andb_true_r in H.
  - cbn [all_bytes] in H. apply andb_prop in H as [_ H]. apply IH in H. simpl.
    by destruct (unsnoc d s).
Qed.

Lemma digit_no_multiplier c : is_digit c = true → multiplier c = None.
Proof.
  unfold multiplier. intros H.
  destruct (Ascii.eqb_spec c "K"%char) as [->|]; [done|].
  destruct (Ascii.eqb_spec c "M"%char) as [->|]; [done|].
  by destruct (Ascii.eqb_spec c "G"%char) as [->|].
Qed.

(** The multiplier of a suffix, and the text before it. *)
Definition suffix_value (suffix : string) : option Z :=
  if String.eqb suffix "" then Some 1 else if String.eqb suffix "K" then Some 1000
  else if String.eqb suffix "M" then Some 1000000 else if String.eqb suffix "G" then Some 1000000000
  else None.

(** A token quantity is read exactly or refused: every accepted text is
    decimal digits and an optional K, M or G, and stands for the digits' value
    times its multiplier, within the int64 range; and the plain decimal text of
    every count in range is read back as that count. *)
Theorem ParseTokenQuantity_exact :
  (∀ s n, ParseTokenQuantity s = Ok n →
     ∃ digits suffix mult v, s = digits +:+ suffix ∧ suffix_value suffix = Some mult ∧
       ParseInt digits = Ok v ∧ all_bytes is_digit digits = true ∧
       n = v * mult ∧ 0 <= n <= MaxInt64) ∧
  (∀ n, 0 <= n <= MaxInt64 → ParseTokenQuantity (itoa n) = Ok n).
Proof.
  split.
  - intros s n. unfold ParseTokenQuantity. destruct s as [|c s']; [done|].
    destruct (unsnoc c s') as [front l] eqn:Hu. apply unsnoc_app in Hu.
    assert (Hcase : ∃ mult digits suffix,
      match multiplier l with Some m => (m, front) | None => (1, String c s') end = (mult, digits) ∧
      String c s' = digits +:+ suffix ∧ suffix_value suffix = Some mult ∧ 1 <= mult).
    { unfold multiplier. destruct (Ascii.eqb_spec l "K"%char) as [->|]; [by exists 1000, front, "K"|].
      destruct (Ascii.eqb_spec l "M"%char) as [->|]; [by exists 1000000, front, "M"|].
      destruct (Ascii.eqb_spec l "G"%char) as [->|]; [by exists 1000000000, front, "G"|].
      exists 1, (String c s'), "". split_and!; [done| |done|lia].
      by rewrite string_app_nil. }
    destruct Hcase as (mult & digits & suffix & -> & Hs & Hsuf & Hm).
    destruct (String.eqb digits ""); [done|]. destruct (all_bytes is_digit digits) eqn:Hd; [|done]. simpl.
    destruct (ParseInt digits) as [v|] eqn:Hp; [|done].
    destruct (Z.ltb_spec (MaxInt64 / mult) v) as [|Hle]; [done|]. intros [= <-].
    pose proof (ParseInt_digits_nonneg _ _ Hd Hp) as Hv.
    assert (Hvm : 0 <= v * mult <= MaxInt64).
    { pose proof (Z.mul_div_le MaxInt64 mult). unfold MaxInt64 in *. nia. }
    exists digits, suffix, mult, v. rewrite wrap64_id by (unfold int64, MinInt64; lia). done.
  - intros n Hn. assert (Hd : all_bytes is_digit (itoa n) = true).
    { unfold itoa. destruct (Z.ltb_spec n 0); [lia|]. apply digits_bytes. }
    assert (Hi : int64 n) by (unfold int64, MinInt64; lia).
    pose proof (ParseInt_itoa n Hi) as Hp.
    unfold ParseTokenQuantity. destruct (itoa n) as [|c s'] eqn:E; [by vm_compute in Hp|].
    pose proof (unsnoc_digit c s' Hd) as Hl. destruct (unsnoc c s') as [front l]. simpl in Hl.
    rewrite digit_no_multiplier by done. rewrite Hd. simpl. simpl in Hp. rewrite Hp.
    rewrite Z.div_1_r. destruct (Z.ltb_spec MaxInt64 n); [lia|].
    f_equal. rewrite Z.mul_1_r. by apply wrap64_id.
Qed.

(** ** Folding: lemmas *)

(** A list a layer leaves unset allows everything. *)
Definition list_allows (l : option (list string)) (v : string) : Prop :=
  match l with Some l => v ∈ l | None => True end.

(** A number a layer leaves unset bounds nothing; a negative one acts as 0. *)
Definition num_within (n : Z) (l : option Z) : Prop :=
  match l with Some v => n <= Z.max v 0 | None => True end.

Lemma intersectLists_allows a b v :
  list_allows (intersectLists a b) v ↔ list_allows a v ∧ list_allows b v.
Proof.
  destruct a as [a|], b as [b|]; simpl; try tauto.
  rewrite list_elem_of_filter, contains_elem. tauto.
Qed.

Lemma resolveList_elem order def proj oper v :
  v ∈ resolveList order def proj oper ↔ v ∈ order ∧ v ∈ default def proj ∧ list_allows oper v.
Proof.
  unfold resolveList. rewrite list_elem_of_filter, contains_elem.
  destruct proj as [p|], oper as [o|]; simpl; rewrite ?list_elem_of_filter, ?contains_elem; tauto.
Qed.

Lemma resolveNum_bounds def ceiling proj a b :
  0 <= ceiling →
  let n := resolveNum def ceiling proj (minInt a b) in
  0 <= n <= ceiling ∧ n <= Z.max (default def proj) 0 ∧ num_within n a ∧ num_within n b.
Proof.
  intros Hc. unfold resolveNum, num_within.
  destruct proj as [p|], a as [x|], b as [y|]; simpl;
    repeat match goal with |- context [?x <? ?y] => destruct (Z.ltb_spec x y) end; lia.
Qed.

Lemma foldMode_Some a b m :
  foldMode a b = Some m → m = AutoMergeOff ∨ ((a = None ∨ a = Some m) ∧ (b = None ∨ b = Some m)).
Proof.
  destruct a as [x|], b as [y|]; simpl; try naive_solver.
  destruct (String.eqb_spec x y); naive_solver.
Qed.

(** A mode other than off was named by the project and by no layer against it. *)
Definition mode_agreed (mode : string) (proj a b : option string) : Prop :=
  mode = AutoMergeOff ∨
  (autoMergeModes mode = true ∧ proj = Some mode ∧ (a = None ∨ a = Some mode) ∧
   (b = None ∨ b = Some mode)).

Lemma resolveMode_agreed proj a b : mode_agreed (resolveMode proj (foldMode a b)) proj a b.
Proof.
  unfold mode_agreed, resolveMode.
  set (m0 := match proj with Some m => m | None => AutoMergeOff end).
  destruct (foldMode (Some m0) (foldMode a b)) as [m|] eqn:E.
  2: { destruct (foldMode a b); simpl in E; repeat case_match; done. }
  destruct (autoMergeModes m) eqn:Hm; [|by left].
  apply foldMode_Some in E as [->|[[?|E1] E2]]; [by left|done|]. injection E1 as E1.
  destruct (decide (m = AutoMergeOff)) as [->|Hoff]; [by left|]. right.
  assert (proj = Some m). { unfold m0 in E1. destruct proj; congruence. }
  destruct E2 as [E2|E2].
  - destruct a as [x|], b as [y|]; simpl in E2; try done; try (repeat case_match; done). auto 10.
  - apply foldMode_Some in E2 as [?|[? ?]]; [done|]. auto 10.
Qed.

Lemma ResolvePipelineFix_mode i g p :
  Mode (FixAutoMerge (ResolvePipelineFix i g p)) =
  resolveMode (am_Mode (pf_AutoMerge p)) (foldMode (am_Mode (pf_AutoMerge i)) (am_Mode (pf_AutoMerge g))).
Proof. reflexivity. Qed.

Lemma pf_timeout_minInt i g :
  pf_VerifyTimeout (FoldPipelineFix i g) = minInt (pf_VerifyTimeout i) (pf_VerifyTimeout g).
Proof.
  unfold FoldPipelineFix. simpl. destruct (pf_VerifyTimeout i) as [a|], (pf_VerifyTimeout g) as [b|]; try done.
  simpl. destruct (Z.leb_spec a b), (Z.ltb_spec b a); try done; lia.
Qed.

Lemma ResolvePipelineFix_timeout i g p :
  FixVerifyTimeout (ResolvePipelineFix i g p) =
  resolveNum DefaultFixVerifyTimeout FixVerifyTimeoutCeiling (pf_VerifyTimeout p)
    (minInt (pf_VerifyTimeout i) (pf_VerifyTimeout g)).
Proof.
  rewrite <- pf_timeout_minInt. unfold ResolvePipelineFix, resolveNum.
  cbn [FixVerifyTimeout]. reflexivity.
Qed.

Lemma vetoFold_andAction p a b :
  andAction p [vetoFold a b] = true ↔ p = Some true ∧ a ≠ Some false ∧ b ≠ Some false.
Proof. destruct p as [[]|], a as [[]|], b as [[]|]; simpl; split; try done; naive_solver. Qed.

(** How much an execution-changing fix is let do: unknown values do nothing. *)
Definition exec_rank (s : string) : Z := default (-1) (ciExecRank s).

Definition exec_within (r : Z) (l : option string) : Prop :=
  match l with Some s => r <= Z.max (exec_rank s) 0 | None => True end.

Lemma exec_rank_range s : -1 <= exec_rank s <= 2 ∧ (is_Some (ciExecRank s) ↔ 0 <= exec_rank s).
Proof.
  unfold exec_rank, ciExecRank.
  repeat case_match; simpl; split; try lia; split; intros H'; try lia; try (by eexists);
    by destruct H'.
Qed.

Lemma stricterExec_rank x b :
  ∃ s, stricterExec (Some x) b = Some s ∧
    exec_rank s = match b with Some y => Z.min (exec_rank x) (exec_rank y) | None => exec_rank x end.
Proof.
  destruct b as [y|]; simpl; [|eauto]. fold (exec_rank x). fold (exec_rank y).
  destruct (Z.ltb_spec (exec_rank y) (exec_rank x)); eexists; (split; [done|]); lia.
Qed.

Lemma ResolvePipelineFix_exec i g p :
  let r := exec_rank (CIExecChanges (ResolvePipelineFix i g p)) in
  0 <= r ∧ r <= Z.max (exec_rank (default CIExecManualRun (pf_CIExecChanges p))) 0 ∧
  exec_within r (pf_CIExecChanges i) ∧ exec_within r (pf_CIExecChanges g).
Proof.
  cbv zeta. unfold ResolvePipelineFix. cbn [CIExecChanges FoldPipelineFix pf_CIExecChanges].
  set (x := match pf_CIExecChanges p with Some e => e | None => CIExecManualRun end).
  assert (default CIExecManualRun (pf_CIExecChanges p) = x) as -> by (by destruct (pf_CIExecChanges p)).
  set (op := stricterExec (pf_CIExecChanges i) (pf_CIExecChanges g)).
  destruct (stricterExec_rank x op) as (s & -> & Hs).
  assert (Hop : ∀ y, op = Some y →
    match pf_CIExecChanges i with Some a => exec_rank y <= exec_rank a | None => True end ∧
    match pf_CIExecChanges g with Some a => exec_rank y <= exec_rank a | None => True end).
  { intros y Hy. unfold op in Hy. destruct (pf_CIExecChanges i) as [a|].
    - destruct (stricterExec_rank a (pf_CIExecChanges g)) as (s' & E & Hr). rewrite Hy in E.
      injection E as ->. destruct (pf_CIExecChanges g); lia.
    - simpl in Hy. rewrite Hy. lia. }
  assert (Hnone : op = None → pf_CIExecChanges i = None ∧ pf_CIExecChanges g = None).
  { unfold op. destruct (pf_CIExecChanges i) as [a|]; [|done].
    destruct (stricterExec_rank a (pf_CIExecChanges g)) as (? & E & _). by rewrite E. }
  assert (Hfin : exec_rank (if bool_decide (is_Some (ciExecRank s)) then s else CIExecDeny) =
                 Z.max (exec_rank s) 0).
  { destruct (exec_rank_range s) as [Hr Hi]. case_bool_decide as Hb; [apply Hi in Hb; lia|].
    change (exec_rank CIExecDeny) with 0. destruct (decide (0 <= exec_rank s)); [tauto|lia]. }
  rewrite Hfin. unfold exec_within. destruct op as [y|].
  - destruct (Hop y eq_refl). destruct (pf_CIExecChanges i), (pf_CIExecChanges g); lia.
  - destruct (Hnone eq_refl) as [-> ->]. lia.
Qed.

(** An operator can only tighten a project's fixes. Whatever the three layers
    say, validated or not: a fix class, target or merge class stands only if
    the project (or the default) lists it and no operator layer's list omits
    it; the CI lift needs the project's own opt-in and no veto; the treatment of
    execution-changing fixes is at most as free as each layer's; every number
    and the timeout lies between 0 and its ceiling and at or below each
    layer's value; and a merge mode other than off is the project's own, with
    no operator layer naming another. *)
Theorem ResolvePipelineFix_tightens (i g p : PipelineFixPolicy) :
  let e := ResolvePipelineFix i g p in
  (∀ v, v ∈ FixClasses e ↔ v ∈ fixClassOrder ∧ v ∈ default defaultFixClasses (pf_Classes p) ∧
     list_allows (pf_Classes i) v ∧ list_allows (pf_Classes g) v) ∧
  (∀ v, v ∈ FixTargets e ↔ v ∈ fixTargetOrder ∧ v ∈ default defaultFixTargets (pf_Targets p) ∧
     list_allows (pf_Targets i) v ∧ list_allows (pf_Targets g) v) ∧
  (AllowCI e = true ↔ pf_AllowCI p = Some true ∧ pf_AllowCI i ≠ Some false ∧ pf_AllowCI g ≠ Some false) ∧
  exec_within (exec_rank (CIExecChanges e)) (pf_CIExecChanges i) ∧
  exec_within (exec_rank (CIExecChanges e)) (pf_CIExecChanges g) ∧
  Forall (λ '(n, ceiling, def, proj, a, b),
     0 <= n <= ceiling ∧ n <= Z.max (default def proj) 0 ∧ num_within n a ∧ num_within n b)
    [(FixMaxAttempts e, FixMaxAttemptsCeiling, DefaultFixMaxAttempts, pf_MaxAttempts p, pf_MaxAttempts i, pf_MaxAttempts g);
     (FixMaxChain e, FixMaxChainCeiling, DefaultFixMaxChain, pf_MaxChain p, pf_MaxChain i, pf_MaxChain g);
     (FixVerifyTimeout e, FixVerifyTimeoutCeiling, DefaultFixVerifyTimeout, pf_VerifyTimeout p, pf_VerifyTimeout i, pf_VerifyTimeout g);
     (FixMaxFiles e, FixMaxFilesCeiling, DefaultFixMaxFiles, pf_MaxFiles p, pf_MaxFiles i, pf_MaxFiles g);
     (FixMaxChangedLines e, FixMaxChangedLinesCeiling, DefaultFixMaxChangedLines, pf_MaxChangedLines p, pf_MaxChangedLines i, pf_MaxChangedLines g);
     (MaxPerDay (FixAutoMerge e), AutoMergeMaxPerDayCeiling, DefaultAutoMergeMaxPerDay, am_MaxPerDay (pf_AutoMerge p), am_MaxPerDay (pf_AutoMerge i), am_MaxPerDay (pf_AutoMerge g))] ∧
  mode_agreed (Mode (FixAutoMerge e)) (am_Mode (pf_AutoMerge p)) (am_Mode (pf_AutoMerge i)) (am_Mode (pf_AutoMerge g)).
Proof.
  cbv zeta. pose proof (ResolvePipelineFix_exec i g p) as (_ & _ & Hei & Heg).
  split_and!; [| | |done|done| |].
  - intros v. cbn [ResolvePipelineFix FixClasses FoldPipelineFix pf_Classes].
    by rewrite resolveList_elem, intersectLists_allows.
  - intros v. cbn [ResolvePipelineFix FixTargets FoldPipelineFix pf_Targets].
    by rewrite resolveList_elem, intersectLists_allows.
  - cbn [ResolvePipelineFix AllowCI FoldPipelineFix pf_AllowCI]. apply vetoFold_andAction.
  - rewrite ResolvePipelineFix_timeout. repeat (constructor; [by apply resolveNum_bounds|]). constructor.
  - rewrite ResolvePipelineFix_mode. apply resolveMode_agreed.
Qed.

(** How much documentation is asked: unknown values ask for it always. *)
Definition docs_rank (s : string) : Z := default 99 (requireDocsRank s).

Definition docs_at_least (r : Z) (l : option string) : Prop :=
  match l with Some s => Z.min (docs_rank s) 2 <= r | None => True end.

Lemma stricterDocs_rank x b :
  ∃ s, stricterDocs (Some x) b = Some s ∧
    docs_rank s = match b with Some y => Z.max (docs_rank x) (docs_rank y) | None => docs_rank x end.
Proof.
  destruct b as [y|]; simpl; [|eauto]. fold (docs_rank x). fold (docs_rank y).
  destruct (Z.ltb_spec (docs_rank x) (docs_rank y)); eexists; (split; [done|]); lia.
Qed.

Lemma docs_rank_clamp s :
  docs_rank (if bool_decide (is_Some (requireDocsRank s)) then s else RequireDocsAlways) =
  Z.min (docs_rank s) 2.
Proof.
  unfold docs_rank. case_bool_decide as Hb.
  - destruct Hb as [r Hr]. rewrite Hr. simpl. unfold requireDocsRank in Hr.
    repeat case_match; simplify_eq; lia.
  - destruct (requireDocsRank s) eqn:E; [by destruct Hb; eexists|]. reflexivity.
Qed.

Lemma ResolveChange_docs i g p :
  let r := docs_rank (RequireDocs (ResolveChange i g p)) in
  docs_at_least r (Some (default RequireDocsWhenLabelled (ch_RequireDocs p))) ∧
  docs_at_least r (ch_RequireDocs i) ∧ docs_at_least r (ch_RequireDocs g) ∧ r <= 2.
Proof.
  cbv zeta. unfold ResolveChange. cbn [RequireDocs FoldChange ch_RequireDocs].
  set (x := match ch_RequireDocs p with Some e => e | None => RequireDocsWhenLabelled end).
  assert (default RequireDocsWhenLabelled (ch_RequireDocs p) = x) as -> by (by destruct (ch_RequireDocs p)).
  set (op := stricterDocs (ch_RequireDocs i) (ch_RequireDocs g)).
  destruct (stricterDocs_rank x op) as (s & -> & Hs). rewrite docs_rank_clamp.
  assert (Hop : match ch_RequireDocs i with
                | Some a => ∃ y, op = Some y ∧ docs_rank a <= docs_rank y | None => True end ∧
                match ch_RequireDocs g with
                | Some a => ∃ y, op = Some y ∧ docs_rank a <= docs_rank y | None => True end).
  { unfold op. destruct (ch_RequireDocs i) as [a|].
    - destruct (stricterDocs_rank a (ch_RequireDocs g)) as (y & -> & Hr).
      split; [|destruct (ch_RequireDocs g); [|done]]; exists y; (split; [done|]);
        destruct (ch_RequireDocs g); lia.
    - simpl. split; [done|]. destruct (ch_RequireDocs g); [|done]. eexists. split; [done|lia]. }
  unfold docs_at_least. destruct Hop as [Hi Hg]. split_and!.
  - destruct op; lia.
  - destruct (ch_RequireDocs i); [|done]. destruct Hi as (y & -> & ?). lia.
  - destruct (ch_RequireDocs g); [|done]. destruct Hg as (y & -> & ?). lia.
  - lia.
Qed.

Lemma fold_add_elem l out v :
  v ∈ fold_left (λ out v, if contains out v then out else out ++ [v]) l out ↔ v ∈ out ∨ v ∈ l.
Proof.
  revert out. induction l as [|x l IH]; intros out; simpl; [set_solver|].
  rewrite IH. destruct (contains out x) eqn:E; [apply contains_elem in E|]; set_solver.
Qed.

Lemma unionLists_elem a b v : v ∈ default [] (unionLists a b) ↔ v ∈ default [] a ∨ v ∈ default [] b.
Proof.
  destruct a as [a|], b as [b|]; cbn [unionLists default from_option id]; rewrite ?fold_add_elem; set_solver.
Qed.

Lemma keep_label_elem l out v :
  v ∈ fold_left keep_label l out ↔ v ∈ out ∨ (v ∈ l ∧ validDocsLabel v = true).
Proof.
  revert out. induction l as [|x l IH]; intros out; cbn [fold_left]; [set_solver|].
  rewrite IH. unfold keep_label. destruct (validDocsLabel x) eqn:E; simpl.
  - destruct (contains out x) eqn:E'; simpl; [apply contains_elem in E'|]; set_solver.
  - split; [set_solver|]. intros [?|[[->|?]%elem_of_cons ?]]; [set_solver|congruence|set_solver].
Qed.

(** An operator can only tighten a project's issue changes: lists meet,
    numbers and the timeout stay between 0 and their ceiling and at or below
    each layer's value, documentation is asked for at least as strictly as each
    layer asks, every valid label of any layer adds to the labels that ask for
    it, a test report required by any layer is required, and a merge mode other
    than off is the project's own, with no operator layer naming another. *)
Theorem ResolveChange_tightens (i g p : ChangePolicy) :
  let e := ResolveChange i g p in
  (∀ v, v ∈ Triggers e ↔ v ∈ changeTriggerOrder ∧ v ∈ default defaultChangeTriggers (ch_Triggers p) ∧
     list_allows (ch_Triggers i) v ∧ list_allows (ch_Triggers g) v) ∧
  (∀ v, v ∈ CreateClasses e ↔ v ∈ createClassOrder ∧ v ∈ default defaultCreateClasses (ch_CreateClasses p) ∧
     list_allows (ch_CreateClasses i) v ∧ list_allows (ch_CreateClasses g) v) ∧
  (docs_at_least (docs_rank (RequireDocs e)) (ch_RequireDocs i) ∧
   docs_at_least (docs_rank (RequireDocs e)) (ch_RequireDocs g)) ∧
  (∀ v, v ∈ DocsLabels e ↔ validDocsLabel v = true ∧
     (v ∈ default defaultDocsLabels (ch_DocsLabels p) ∨ v ∈ default [] (ch_DocsLabels i) ∨
      v ∈ default [] (ch_DocsLabels g))) ∧
  (RequireTestReport e = true ↔
     Some true ∈ [ch_RequireTestReport p; ch_RequireTestReport i; ch_RequireTestReport g]) ∧
  Forall (λ '(n, ceiling, def, proj, a, b),
     0 <= n <= ceiling ∧ n <= Z.max (default def proj) 0 ∧ num_within n a ∧ num_within n b)
    [(ChangeMaxAttempts e, ChangeMaxAttemptsCeiling, DefaultChangeMaxAttempts, ch_MaxAttempts p, ch_MaxAttempts i, ch_MaxAttempts g);
     (ChangeMaxOpen e, ChangeMaxOpenCeiling, DefaultChangeMaxOpen, ch_MaxOpen p, ch_MaxOpen i, ch_MaxOpen g);
     (ChangeVerifyTimeout e, ChangeVerifyTimeoutCeiling, DefaultChangeVerifyTimeout, ch_VerifyTimeout p, ch_VerifyTimeout i, ch_VerifyTimeout g);
     (ChangeMaxFiles e, ChangeMaxFilesCeiling, DefaultChangeMaxFiles, ch_MaxFiles p, ch_MaxFiles i, ch_MaxFiles g);
     (ChangeMaxChangedLines e, ChangeMaxChangedLinesCeiling, DefaultChangeMaxChangedLines, ch_MaxChangedLines p, ch_MaxChangedLines i, ch_MaxChangedLines g);
     (MaxPerDay (ChangeAutoMerge e), AutoMergeMaxPerDayCeiling, DefaultAutoMergeMaxPerDay, am_MaxPerDay (ch_AutoMerge p), am_MaxPerDay (ch_AutoMerge i), am_MaxPerDay (ch_AutoMerge g))] ∧
  mode_agreed (Mode (ChangeAutoMerge e)) (am_Mode (ch_AutoMerge p)) (am_Mode (ch_AutoMerge i)) (am_Mode (ch_AutoMerge g)).
Proof.
  cbv zeta. pose proof (ResolveChange_docs i g p) as (_ & Hdi & Hdg & _). split_and!.
  - intros v. cbn [ResolveChange Triggers FoldChange ch_Triggers].
    by rewrite resolveList_elem, intersectLists_allows.
  - intros v. cbn [ResolveChange CreateClasses FoldChange ch_CreateClasses].
    by rewrite resolveList_elem, intersectLists_allows.
  - done.
  - done.
  - intros v. cbn [ResolveChange DocsLabels FoldChange ch_DocsLabels].
    rewrite keep_label_elem, unionLists_elem, unionLists_elem. clear Hdi Hdg.
    destruct (ch_DocsLabels p) as [l|]; simpl; rewrite ?elem_of_nil; tauto.
  - cbn [ResolveChange RequireTestReport FoldChange ch_RequireTestReport].
    destruct (ch_RequireTestReport p) as [[]|], (ch_RequireTestReport i) as [[]|],
      (ch_RequireTestReport g) as [[]|]; simpl; rewrite !elem_of_cons, elem_of_nil; naive_solver.
  - repeat (constructor; [by apply resolveNum_bounds|]). constructor.
  - apply resolveMode_agreed.
Qed.

Lemma foldRung_Some a b r :
  foldRung a b = Some r → r ≠ "" → (a = None ∨ a = Some r) ∧ (b = None ∨ b = Some r) ∧ (a = Some r ∨ b = Some r).
Proof.
  destruct a as [x|], b as [y|]; simpl; try naive_solver.
  destruct (String.eqb_spec x y); naive_solver.
Qed.

Lemma reviewMergeStatus_off on r : Available (reviewMergeStatus on r) = false.
Proof. unfold reviewMergeStatus. by repeat case_match. Qed.

Lemma usable_unavailable actionOn am st :
  Available st = false → Mode am = AutoMergeAfterAgenticReview →
  (UsableAutoMergeMode actionOn am st).1 = AutoMergeOff ∧ (UsableAutoMergeMode actionOn am st).2 ≠ "".
Proof.
  intros Ha Hm. unfold UsableAutoMergeMode. rewrite Hm, Ha. simpl. destruct actionOn; simpl; [|done].
  by destruct (String.eqb_spec (Reason st) "").
Qed.

(** The reviewer is the operator's alone and no configuration by itself lets
    a review merge: a review rung stands only if some operator layer names it
    and no operator layer names another, whatever the project writes; and under
    any resolved configuration an automatic merge after an agentic review is
    off for both workflows, with a reason. *)
Theorem Resolve_review_closed (i g p : CfgPolicy) (actionOn : bool) (am : EffectiveAutoMerge) :
  let e := Resolve i g p in
  (ReviewRung (ec_Review e) ≠ "" →
     (rv_Rung (c_Review i) = Some (ReviewRung (ec_Review e)) ∨
      rv_Rung (c_Review g) = Some (ReviewRung (ec_Review e))) ∧
     (∀ r, r ∈ [rv_Rung (c_Review i); rv_Rung (c_Review g)] → r = None ∨ r = Some (ReviewRung (ec_Review e)))) ∧
  (∀ workflow, Mode am = AutoMergeAfterAgenticReview →
     (UsableAutoMergeMode actionOn am (MergeStatus (ec_Review e) workflow)).1 = AutoMergeOff ∧
     (UsableAutoMergeMode actionOn am (MergeStatus (ec_Review e) workflow)).2 ≠ "").
Proof.
  cbv zeta. unfold Resolve. cbn [ec_Review ReviewRung ReviewTargets ResolveReview FoldReview rv_Rung]. split.
  - destruct (foldRung _ _) as [r|] eqn:E; [|done]. destruct (reviewRungRe r) eqn:Hr; [|done].
    intros Hne. apply foldRung_Some in E as (Ha & Hb & Hc); [|done]. split; [done|].
    intros o [->|[->|[]%elem_of_nil]%elem_of_cons]%elem_of_cons; done.
  - intros w Hm. apply usable_unavailable; [|done]. unfold MergeStatus. cbn [PipelineFixMerge ChangeMerge].
    repeat case_match; try done; apply reviewMergeStatus_off.
Qed.

(** ** [Resolve]: lemmas *)

Lemma nonFinite_layer i g p :
  nonFiniteBudgetLayer i g p = "" ↔
    Forall (λ l, nonFinite (bp_MonthlyCostUSD (c_Budget l)) = false) [i; g; p].
Proof.
  unfold nonFiniteBudgetLayer. rewrite !Forall_cons, Forall_nil.
  repeat case_match; naive_solver.
Qed.

Lemma intersect_elem base allowed r : r ∈ intersect base allowed ↔ r ∈ base ∧ r ∈ allowed.
Proof. unfold intersect. rewrite list_elem_of_filter, elem_of_list_to_set. tauto. Qed.

Lemma allow_list_elem ladder o r : r ∈ allow_list ladder o ↔ r ∈ ladder ∧ list_allows o r.
Proof. destruct o; simpl; [apply intersect_elem|tauto]. Qed.

Lemma allow_list_sublist ladder o : allow_list ladder o `sublist_of` ladder.
Proof.
  destruct o as [l|]; simpl; [|done]. unfold intersect. induction ladder as [|x ladder IH]; [constructor|].
  rewrite filter_cons. case_decide; by constructor.
Qed.

Lemma andAction_true p i g :
  andAction p [i; g] = true ↔ p = Some true ∧ i ≠ Some false ∧ g ≠ Some false.
Proof. destruct p as [[]|], i as [[]|], g as [[]|]; simpl; split; try done; naive_solver. Qed.

Lemma Resolve_enabled i g p :
  ec_Enabled (Resolve i g p) = true ↔
    c_Enabled p = Some true ∧ c_Enabled i ≠ Some false ∧ c_Enabled g ≠ Some false ∧
    ec_Ladder (Resolve i g p) ≠ [] ∧
    Forall (λ l, nonFinite (bp_MonthlyCostUSD (c_Budget l)) = false) [i; g; p].
Proof.
  rewrite <- nonFinite_layer. unfold Resolve. cbn [ec_Enabled ec_Ladder].
  set (ladder := resolve_ladder _ _ _).
  assert (Hv : ∀ l, vetoed l = false ↔ c_Enabled l ≠ Some false).
  { intros l. unfold vetoed. destruct (c_Enabled l) as [[]|]; naive_solver. }
  assert (Ho : is_on (c_Enabled p) = true ↔ c_Enabled p = Some true).
  { destruct (c_Enabled p) as [[]|]; naive_solver. }
  destruct (String.eqb_spec (nonFiniteBudgetLayer i g p) "") as [->|Hne]; simpl.
  - destruct ladder as [|r ladder]; simpl; [naive_solver|].
    rewrite !andb_true_iff, !negb_true_iff, !Hv, Ho. naive_solver.
  - naive_solver.
Qed.

(** C34. A project runs only when everybody lets it: it is enabled exactly when
    its own file says so, no coarser layer says no, some rung is left and every
    cost ceiling written anywhere is a finite number; a reason is given exactly
    when it is off; and an action is on exactly when the project opts in, no
    coarser layer vetoes it and what it follows is on too. *)
Theorem Resolve_fails_closed (i g p : CfgPolicy) :
  let e := Resolve i g p in
  let act f := f (c_Actions p) = Some true ∧ f (c_Actions i) ≠ Some false ∧ f (c_Actions g) ≠ Some false in
  (ec_Enabled e = true ↔
     c_Enabled p = Some true ∧ c_Enabled i ≠ Some false ∧ c_Enabled g ≠ Some false ∧
     ec_Ladder e ≠ [] ∧
     ∀ l v, l ∈ [i; g; p] → bp_MonthlyCostUSD (c_Budget l) = Some v → finite v = true) ∧
  (ec_DisabledReason e = NotDisabled ↔ ec_Enabled e = true) ∧
  (Triage (ec_Actions e) = true ↔ act ap_Triage) ∧
  (Scaffold (ec_Actions e) = true ↔ act ap_Scaffold) ∧
  (Features (ec_Actions e) = true ↔ act ap_Features) ∧
  (PipelineFixes (ec_Actions e) = true ↔ act ap_Pipelines ∧ act ap_PipelineFixes) ∧
  (Reviews (ec_Actions e) = true ↔
     ((act ap_Pipelines ∧ act ap_PipelineFixes) ∨ act ap_Features) ∧ act ap_Reviews).
Proof.
  cbv zeta. pose proof (Resolve_enabled i g p) as Hen. split_and!.
  - rewrite Hen. assert (Hfin : Forall (λ l, nonFinite (bp_MonthlyCostUSD (c_Budget l)) = false) [i; g; p] ↔
      ∀ l v, l ∈ [i; g; p] → bp_MonthlyCostUSD (c_Budget l) = Some v → finite v = true); [|tauto].
    assert (Hone : ∀ v, finite v = negb (IsNaN v || IsInf v))
      by (intros v; unfold finite; by rewrite negb_orb).
    rewrite Forall_forall. split.
    + intros H l v Hl Hv. apply H in Hl. rewrite Hv in Hl. simpl in Hl. by rewrite Hone, Hl.
    + intros H l Hl. destruct (bp_MonthlyCostUSD (c_Budget l)) as [v|] eqn:Hv; [|done].
      specialize (H l v Hl Hv). rewrite Hone in H. simpl. by apply negb_true_iff in H.
  - unfold Resolve. cbn [ec_DisabledReason ec_Enabled].
    destruct (vetoed i), (vetoed g), (is_on (c_Enabled p)); simpl; try (split; [done|]; by case_match).
    destruct (negb _); simpl; [done|]. by destruct (length _ =? 0)%nat.
  - apply andAction_true.
  - apply andAction_true.
  - apply andAction_true.
  - unfold Resolve. cbn [ec_Actions PipelineFixes]. by rewrite andb_true_iff, !andAction_true.
  - unfold Resolve. cbn [ec_Actions Reviews].
    by rewrite andb_true_iff, orb_true_iff, andb_true_iff, !andAction_true.
Qed.

(** One coarser-to-finer pass of the tighten-only rule. *)
Lemma tighten_tokens get set ls b :
  (∀ b l, get (tighten_budget b l) =
     match set (c_Budget l) with Some v => if v <? get b then v else get b | None => get b end) →
  get (fold_left tighten_budget ls b) = foldr Z.min (get b) (omap (λ l, set (c_Budget l)) ls).
Proof.
  intros Hg. revert b. induction ls as [|l ls IH]; intros b; [done|]. simpl. rewrite IH, Hg.
  destruct (set (c_Budget l)) as [v|]; simpl; [|done].
  assert (Hmin : ∀ x y l, foldr Z.min (Z.min x y) l = Z.min x (foldr Z.min y l)).
  { clear. intros x y l. induction l as [|z l IH]; simpl; [done|]. rewrite IH. lia. }
  replace (if v <? get b then v else get b) with (Z.min v (get b)); [apply Hmin|].
  destruct (Z.ltb_spec v (get b)); lia.
Qed.

Lemma tighten_cost ls b :
  IsNaN (eb_MonthlyCostUSD b) = false →
  Forall (λ l, nonFinite (bp_MonthlyCostUSD (c_Budget l)) = false) ls →
  let c := eb_MonthlyCostUSD (fold_left tighten_budget ls b) in
  IsNaN c = false ∧ fle c (eb_MonthlyCostUSD b) = true ∧
  (∀ l v, l ∈ ls → bp_MonthlyCostUSD (c_Budget l) = Some v → fle c v = true) ∧
  (c = eb_MonthlyCostUSD b ∨ ∃ l, l ∈ ls ∧ bp_MonthlyCostUSD (c_Budget l) = Some c).
Proof.
  cbv zeta. revert b. induction ls as [|l ls IH]; intros b Hn Hf; simpl.
  - split_and!; [done|by apply fle_refl|set_solver|by left].
  - apply Forall_cons in Hf as [Hl Hf].
    set (b' := tighten_budget b l).
    assert (Hb' : IsNaN (eb_MonthlyCostUSD b') = false ∧
      fle (eb_MonthlyCostUSD b') (eb_MonthlyCostUSD b) = true ∧
      (∀ v, bp_MonthlyCostUSD (c_Budget l) = Some v → fle (eb_MonthlyCostUSD b') v = true) ∧
      (eb_MonthlyCostUSD b' = eb_MonthlyCostUSD b ∨
       bp_MonthlyCostUSD (c_Budget l) = Some (eb_MonthlyCostUSD b'))).
    { unfold b', tighten_budget. cbn [eb_MonthlyCostUSD].
      destruct (bp_MonthlyCostUSD (c_Budget l)) as [v|]; [|split_and!; auto with gonk; done].
      simpl in Hl. apply orb_false_elim in Hl as [Hv _].
      destruct (flt v (eb_MonthlyCostUSD b)) eqn:E.
      - split_and!; auto with gonk. intros ? [= <-]. auto with gonk.
      - split_and!; auto with gonk. intros ? [= <-].
        rewrite flt_ge in E by done. by apply negb_false_iff in E. }
    destruct Hb' as (Hn' & Hle & Hv & Hat). destruct (IH b' Hn' Hf) as (H1 & H2 & H3 & H4).
    split_and!; [done|exact (fle_trans _ _ _ Hn' H2 Hle)| |].
    + intros l' v [->|Hin]%elem_of_cons Hl'; [|by eapply H3]. eapply fle_trans; [exact Hn'|done|by apply Hv].
    + destruct H4 as [H4|(l' & ? & ?)]; [|right; exists l'; split; [by right|done]].
      destruct Hat as [Hat|Hat]; [left; congruence|right]. exists l. rewrite H4. split; [by left|done].
Qed.

(** Ceilings only tighten downward: the token ceilings in force are the
    least of those any layer sets, unlimited when none does; the cost ceiling is
    zero when any layer's is not a finite number, and otherwise at most each
    layer's, one of them, or unlimited when none sets one, and never NaN. *)
Theorem Resolve_budget_tightens (i g p : CfgPolicy) :
  let b := ec_Budget (Resolve i g p) in
  let layers := [i; g; p] in
  eb_MonthlyTokens b = foldr Z.min MaxInt64 (omap (λ l, bp_MonthlyTokens (c_Budget l)) layers) ∧
  eb_PerTaskTokens b = foldr Z.min MaxInt64 (omap (λ l, bp_PerTaskTokens (c_Budget l)) layers) ∧
  IsNaN (eb_MonthlyCostUSD b) = false ∧
  (if forallb (λ l, negb (nonFinite (bp_MonthlyCostUSD (c_Budget l)))) layers
   then (∀ l v, l ∈ layers → bp_MonthlyCostUSD (c_Budget l) = Some v → fle (eb_MonthlyCostUSD b) v = true) ∧
        (eb_MonthlyCostUSD b = Inf ∨
         ∃ l, l ∈ layers ∧ bp_MonthlyCostUSD (c_Budget l) = Some (eb_MonthlyCostUSD b))
   else eb_MonthlyCostUSD b = fzero).
Proof.
  cbv zeta. unfold Resolve. cbn [ec_Budget].
  pose proof (nonFinite_layer i g p) as Hnf.
  assert (Hfb : forallb (λ l, negb (nonFinite (bp_MonthlyCostUSD (c_Budget l)))) [i; g; p] = true ↔
                nonFiniteBudgetLayer i g p = "").
  { rewrite Hnf, forallb_elem, Forall_forall. by setoid_rewrite negb_true_iff. }
  assert (HT1 : eb_MonthlyTokens (fold_left tighten_budget [i; g; p] unlimited_budget) = _)
    by (exact (tighten_tokens eb_MonthlyTokens bp_MonthlyTokens [i; g; p] unlimited_budget (λ _ _, eq_refl))).
  assert (HT2 : eb_PerTaskTokens (fold_left tighten_budget [i; g; p] unlimited_budget) = _)
    by (exact (tighten_tokens eb_PerTaskTokens bp_PerTaskTokens [i; g; p] unlimited_budget (λ _ _, eq_refl))).
  pose proof (tighten_cost [i; g; p] unlimited_budget eq_refl) as HC. cbv zeta in HC.
  generalize dependent (fold_left tighten_budget [i; g; p] unlimited_budget). intros b HT1 HT2 HC.
  destruct (String.eqb_spec (nonFiniteBudgetLayer i g p) "") as [E|E]; simpl (negb _).
  - rewrite (proj2 Hfb E). destruct (HC (proj1 Hnf E)) as (Hn & _ & Hle & Hat). done.
  - destruct (forallb _ _); [by destruct E; apply Hfb|]. done.
Qed.

(** The ladder is what every layer allows, in the order of the most specific
    layer that sets one: a rung is on it exactly when some layer sets a ladder
    and every layer that does lists it, and the order is never changed. *)
Theorem Resolve_ladder_meet (i g p : CfgPolicy) (r : string) :
  let ladder := ec_Ladder (Resolve i g p) in
  (r ∈ ladder ↔
     (∃ l, l ∈ [i; g; p] ∧ c_Ladder l ≠ None) ∧
     list_allows (c_Ladder i) r ∧ list_allows (c_Ladder g) r ∧ list_allows (c_Ladder p) r) ∧
  (∀ l, most_specific None (map (λ l, Some <$> c_Ladder l) [i; g; p]) = Some l → ladder `sublist_of` l).
Proof.
  cbv zeta. unfold Resolve, resolve_ladder. cbn [ec_Ladder].
  split.
  - destruct (c_Ladder p) as [lp|] eqn:Ep; [|destruct (c_Ladder g) as [lg|] eqn:Eg].
    + rewrite !allow_list_elem. simpl. split; [|naive_solver]. intros [[? ?] ?].
      split; [|done]. exists p. split; [set_solver|congruence].
    + rewrite allow_list_elem. simpl. split; [|naive_solver]. intros [? ?].
      split; [|done]. exists g. split; [set_solver|congruence].
    + destruct (c_Ladder i) as [li|] eqn:Ei; simpl.
      * split; [|naive_solver]. intros ?. split; [|done]. exists i. split; [set_solver|congruence].
      * split; [by intros ?%elem_of_nil|]. intros [(l & Hl & Hne) _].
        repeat (apply elem_of_cons in Hl as [->|Hl]; [congruence|]). by apply elem_of_nil in Hl.
  - intros l. simpl.
    destruct (c_Ladder p) as [lp|]; [|destruct (c_Ladder g) as [lg|]]; simpl.
    + intros [= <-]. etrans; apply allow_list_sublist.
    + intros [= <-]. apply allow_list_sublist.
    + destruct (c_Ladder i); simpl; [by intros [= <-]|done].
Qed.
