(* ===== verification/Opercfg.v ===== *)
(** * [pkg/opercfg]: the operator configuration

    Rungs and their prices, the checks [Load] makes on a decoded document (the
    YAML and JSON Schema stages before it are third-party code), nested groups
    and their fold, and the order of ladders; and the dollar ceiling that
    [internal/meter/litellm] provisions from it. *)

From Stdlib Require Import Ascii.
From stdpp Require Import sorting.
From S2P Require Import Prelude.
From S2P Require Import Float64.
From S2P Require Import GoTime.
From S2P Require Import GoStrings.
From S2P Require Import GoPath.
From S2P Require Import ScopeGlob.
From S2P Require Import ScopeClass.
From S2P Require Import ScopePolicy.
From S2P Require Import Gonkcfg.

(** ** Rungs *)

Abbreviation Kind_ := string (only parsing).
Definition KindLocal : Kind_ := "local".
Definition KindCloud : Kind_ := "cloud".
Definition DefaultLocalTurns : Z := 30.
Definition DefaultCloudTurns : Z := 12.

Record RungSpec := mkRungSpec {
  Name : string;
  Kind : Kind_;
  Model : string;
  EstCostUSD : float64;
  EstTokens : TokenQuantity;
  SyntheticUSDPer1MTokens : float64;
  MaxTurns : Z;
}.

(** [RungSpec{}]. *)
Definition RungSpec_zero : RungSpec := mkRungSpec "" "" "" fzero 0 fzero 0.

Definition EffectiveMaxTurns (r : RungSpec) : Z :=
  if 0 <? MaxTurns r then MaxTurns r
  else if String.eqb (Kind r) KindCloud then DefaultCloudTurns
  else DefaultLocalTurns.

Definition PricePerToken (r : RungSpec) : float64 :=
  if String.eqb (Kind r) KindLocal then fdiv (SyntheticUSDPer1MTokens r) (float_of_Z 1000000)
  else if EstTokens r <=? 0 then fzero
  else fdiv (EstCostUSD r) (float_of_Z (EstTokens r)).

Record MeterConfig := mkMeterConfig {
  MaxSpendStaleness : Duration;
  mc_ReservationTTL : Duration;
  MaxClockSkew : Duration;
  mc_KeyRetryBackoff : Duration;
  mc_MaxInfraRetries : Z;
  EnforceLadderOrder : bool;
}.

Record OperatorConfig := mkOperatorConfig {
  Instance_ : CfgPolicy;
  Groups : gmap string CfgPolicy;
  Catalog : gmap string RungSpec;
  Meter : MeterConfig;
  CloudAllowance : bool;
}.

Definition CloudAllowed (oc : OperatorConfig) : bool := CloudAllowance oc.

(** ** Checks of a decoded document *)

Inductive oper_error :=
| LadderGuardWithoutLadder
| RungTwice (name : string)
| RungNoTokens (name : string)
| CloudUnpriced (name : string)
| CloudSynthetic (name : string)
| LocalPriced (name : string)
| LocalNoSynthetic (name : string)
| BadInfraRetries (n : Z)
| PolicyScope (who : string) (e : policy_error)
| PolicySection (who : string) (e : section_error)
| ReviewRungUnknown (who rung : string)
| LadderRungUnknown (who rung : string)
| QuietHoursNoTimezone (who : string)
| UnknownTimezone (who tz : string)
| GroupKeyTrailingSlash (g : string)
| GroupKeyEmptySegment (g : string)
| GroupLadderOrder (g : string).

Definition check_rung (r : RungSpec) : option oper_error :=
  if EstTokens r <=? 0 then Some (RungNoTokens (Name r))
  else if String.eqb (Kind r) KindCloud then
    if negb (flt fzero (EstCostUSD r)) then Some (CloudUnpriced (Name r))
    else if negb (feq (SyntheticUSDPer1MTokens r) fzero) then Some (CloudSynthetic (Name r))
    else None
  else if String.eqb (Kind r) KindLocal then
    if negb (feq (EstCostUSD r) fzero) then Some (LocalPriced (Name r))
    else if negb (flt fzero (SyntheticUSDPer1MTokens r)) then Some (LocalNoSynthetic (Name r))
    else None
  else None.

Definition add_rung (acc : result oper_error (gmap string RungSpec)) (r : RungSpec) :
    result oper_error (gmap string RungSpec) :=
  match acc with
  | Err e => Err e
  | Ok cat =>
      if decide (is_Some (cat !! Name r)) then Err (RungTwice (Name r))
      else match check_rung r with
           | Some e => Err e
           | None => Ok (<[Name r := r]> cat)
           end
  end.

Definition build_catalog (rungs : list RungSpec) : result oper_error (gmap string RungSpec) :=
  fold_left add_rung rungs (Ok ∅).

Section policy_checks.
(** [time.LoadLocation] reads the host's zone database. *)
Variable LoadLocation : string → option Location.

Definition check_schedule (who : string) (sc : option Schedule) : option oper_error :=
  match sc with
  | None => None
  | Some s =>
      if negb (String.eqb (QuietHours_ s) "") && String.eqb (Timezone s) ""
      then Some (QuietHoursNoTimezone who)
      else if negb (String.eqb (Timezone s) "") then
        match LoadLocation (Timezone s) with
        | Some _ => None
        | None => Some (UnknownTimezone who (Timezone s))
        end
      else None
  end.

Definition checkPolicy (catalog : gmap string RungSpec) (who : string) (p : CfgPolicy) : option oper_error :=
  let known r := bool_decide (is_Some (catalog !! r)) in
  or_else (PolicyScope who <$> Policy_Validate (c_Scope p) LayerOperator)
  (or_else (PolicySection who <$> PipelineFixPolicy_Validate (c_PipelineFix p) LayerOperator)
  (or_else (PolicySection who <$> ChangePolicy_Validate (c_Change p) LayerOperator)
  (or_else (PolicySection who <$> ReviewPolicy_Validate (c_Review p) LayerOperator)
  (or_else (match rv_Rung (c_Review p) with
            | Some r => if known r then None else Some (ReviewRungUnknown who r)
            | None => None
            end)
  (or_else (first_error (λ r, if known r then None else Some (LadderRungUnknown who r))
              (default [] (c_Ladder p)))
     (check_schedule who (c_Schedule p))))))).
End policy_checks.

(** [strings.HasSuffix]. *)
Definition HasSuffix (s suffix : string) : bool := HasPrefix (string_rev s) (string_rev suffix).

Definition checkGroupKey (g : string) : option oper_error :=
  if HasSuffix g "/" then Some (GroupKeyTrailingSlash g)
  else if Contains_sub g "//" then Some (GroupKeyEmptySegment g)
  else None.

(** ** The order of ladders *)

(** [pos]: the last index of each instance rung. *)
Definition ladder_pos (instance : list string) : gmap string Z :=
  (fix go (l : list string) (i : Z) (m : gmap string Z) :=
     match l with [] => m | r :: l' => go l' (i + 1) (<[r := i]> m) end) instance 0 ∅.

Fixpoint in_order (pos : gmap string Z) (last : Z) (project : list string) : bool :=
  match project with
  | [] => true
  | r :: rest =>
      match pos !! r with
      | None => in_order pos last rest
      | Some i => if i <? last then false else in_order pos i rest
      end
  end.

(** [true] is a nil error. *)
Definition CheckLadderOrder (instance project : list string) : bool :=
  if (length instance =? 0)%nat || (length project =? 0)%nat then true
  else in_order (ladder_pos instance) (-1) project.

(** ** Nested groups *)

Definition foldVeto (base next : option bool) : option bool :=
  match base with
  | Some false => base
  | _ => match next with Some _ => next | None => base end
  end.

Definition minFloat (a b : option float64) : option float64 :=
  match a, b with
  | None, _ => b
  | _, None => a
  | Some x, Some y => if flt y x then b else a
  end.

Definition minTokens (a b : option TokenQuantity) : option TokenQuantity :=
  match a, b with
  | None, _ => b
  | _, None => a
  | Some x, Some y => if y <? x then b else a
  end.

Definition later {A} (base next : option A) : option A :=
  match next with Some _ => next | None => base end.

(** A copy by [append([]string(nil), next...)] is nil when [next] is empty. *)
Definition fold_ladder (base next : option (list string)) : option (list string) :=
  match next, base with
  | Some n, Some b => Some (intersect n b)
  | Some [], None => None
  | Some n, None => Some n
  | None, _ => base
  end.

Definition foldPolicy (base next : CfgPolicy) : CfgPolicy :=
  let a := c_Actions base in
  let b := c_Actions next in
  {| c_Enabled := match c_Enabled next with
                  | Some _ => match c_Enabled base with
                              | Some false => c_Enabled base
                              | _ => c_Enabled next
                              end
                  | None => c_Enabled base
                  end;
     c_Actions := mkActionsPolicy (foldVeto (ap_Triage a) (ap_Triage b))
       (foldVeto (ap_Pipelines a) (ap_Pipelines b)) (foldVeto (ap_PipelineFixes a) (ap_PipelineFixes b))
       (foldVeto (ap_Features a) (ap_Features b)) (foldVeto (ap_Scaffold a) (ap_Scaffold b))
       (foldVeto (ap_Reviews a) (ap_Reviews b));
     c_Schedule := later (c_Schedule base) (c_Schedule next);
     c_Budget := mkBudgetPolicy
       (minFloat (bp_MonthlyCostUSD (c_Budget base)) (bp_MonthlyCostUSD (c_Budget next)))
       (minTokens (bp_MonthlyTokens (c_Budget base)) (bp_MonthlyTokens (c_Budget next)))
       (minTokens (bp_PerTaskTokens (c_Budget base)) (bp_PerTaskTokens (c_Budget next)));
     c_Ladder := fold_ladder (c_Ladder base) (c_Ladder next);
     c_Continuity := later (c_Continuity base) (c_Continuity next);
     c_LabelPrefix := later (c_LabelPrefix base) (c_LabelPrefix next);
     c_RespondToMentions := later (c_RespondToMentions base) (c_RespondToMentions next);
     c_CommitTrailers := later (c_CommitTrailers base) (c_CommitTrailers next);
     c_IncludeUsage := later (c_IncludeUsage base) (c_IncludeUsage next);
     c_Scope := FoldPolicies (c_Scope base) (c_Scope next);
     c_PipelineFix := FoldPipelineFix (c_PipelineFix base) (c_PipelineFix next);
     c_Change := FoldChange (c_Change base) (c_Change next);
     c_Review := FoldReview (c_Review base) (c_Review next) |}.

(** [gonkcfg.Policy{}]. *)
Definition CfgPolicy_zero : CfgPolicy :=
  mkCfgPolicy None (mkActionsPolicy None None None None None None) None (mkBudgetPolicy None None None)
    None None None None None None Policy_zero
    (mkPipelineFixPolicy None None None None None None None None None [] (mkAutoMergePolicy None None None))
    (mkChangePolicy None None None None None None None None None None [] (mkAutoMergePolicy None None None))
    (mkReviewPolicy None None None None).

Definition group_matches (project g : string) : bool :=
  String.eqb project g || HasPrefix project (g +:+ "/").

(** [sort.Slice] by length: some sorted permutation. The lengths of the
    matching keys differ, so it has no freedom (see [group_chain_order]). *)
Definition shorter (a b : string) : Prop := (String.length a <= String.length b)%nat.
#[export] Instance shorter_dec : RelDecision shorter.
Proof. intros a b. unfold shorter. apply _. Defined.

Definition group_chain `{MapRange} (oc : OperatorConfig) (project : string) : list string :=
  merge_sort shorter (List.filter (group_matches project) (map fst (range_map (Groups oc)))).

Definition GroupFor `{MapRange} (oc : OperatorConfig) (project : string) : CfgPolicy :=
  fold_left (λ out g, foldPolicy out (default CfgPolicy_zero (Groups oc !! g)))
    (group_chain oc project) CfgPolicy_zero.

Section check_config.
Variable LoadLocation : string → option Location.

(** The checks of [Load] from the ladder guard on. *)
Definition check_group (enforce : bool) (catalog : gmap string RungSpec) (instance : CfgPolicy)
    (g : string * CfgPolicy) : option oper_error :=
  or_else (checkGroupKey g.1)
  (or_else (checkPolicy LoadLocation catalog ("group " +:+ g.1) g.2)
     (if enforce && negb (CheckLadderOrder (default [] (c_Ladder instance)) (default [] (c_Ladder g.2)))
      then Some (GroupLadderOrder g.1) else None)).

(** [groups] in the order of their keys. *)
Definition check_config (instance : CfgPolicy) (groups : list (string * CfgPolicy))
    (rungs : list RungSpec) (meter : MeterConfig) (cloud : bool) : result oper_error OperatorConfig :=
  if EnforceLadderOrder meter && (length (default [] (c_Ladder instance)) =? 0)%nat
  then Err LadderGuardWithoutLadder
  else match build_catalog rungs with
       | Err e => Err e
       | Ok catalog =>
           match or_else (checkPolicy LoadLocation catalog "instance" instance)
                   (first_error (check_group (EnforceLadderOrder meter) catalog instance) groups) with
           | Some e => Err e
           | None => Ok (mkOperatorConfig instance (list_to_map groups) catalog meter cloud)
           end
       end.
End check_config.

(** ** The hard door's ceiling (internal/meter/litellm/admin.go) *)

Definition max_price (catalog : gmap string RungSpec) (ladder : list string) : float64 :=
  fold_left (λ m name, let p := PricePerToken (default RungSpec_zero (catalog !! name)) in
                       if flt m p then p else m) ladder fzero.

Definition MaxBudgetFor (b : EffectiveBudget) (ladder : list string) (catalog : gmap string RungSpec) :
    option float64 :=
  if IsPosInf (eb_MonthlyCostUSD b) || (eb_MonthlyTokens b =? MaxInt64) then None
  else Some (fadd (eb_MonthlyCostUSD b) (fmul (float_of_Z (eb_MonthlyTokens b)) (max_price catalog ladder))).

(** ** Matching groups form a chain *)

Lemma prefix_eq_len p q s :
  HasPrefix s p = true → HasPrefix s q = true → String.length p = String.length q → p = q.
Proof.
  unfold HasPrefix. intros Hp%String.prefix_correct Hq%String.prefix_correct Hl.
  by rewrite <- Hp, <- Hq, Hl.
Qed.

Lemma append_length s t : String.length (s +:+ t) = (String.length s + String.length t)%nat.
Proof. induction s as [|c s IH]; [done|]. change (String c s +:+ t) with (String c (s +:+ t)). simpl. by rewrite IH. Qed.

Lemma append_inj_l s s' t : String.length s = String.length s' → s +:+ t = s' +:+ t → s = s'.
Proof.
  revert s'. induction s as [|c s IH]; intros [|c' s']; simpl; try done.
  change (String c s +:+ t) with (String c (s +:+ t)).
  change (String c' s' +:+ t) with (String c' (s' +:+ t)).
  intros Hl [= -> E]. f_equal. apply IH; [lia|done].
Qed.

Lemma prefix_length p s : HasPrefix s p = true → (String.length p <= String.length s)%nat.
Proof.
  unfold HasPrefix. revert s. induction p as [|c p IH]; intros s H; simpl; [lia|].
  destruct s as [|d s]; simpl in *; [done|]. destruct (ascii_dec c d); [|done]. apply IH in H. lia.
Qed.

Lemma group_matches_unique project g g' :
  group_matches project g = true → group_matches project g' = true →
  String.length g = String.length g' → g = g'.
Proof.
  unfold group_matches. rewrite !orb_true_iff, !String.eqb_eq. intros [<-|H1] [<-|H2] Hl; try done.
  - apply prefix_length in H2. rewrite append_length in H2. simpl in H2. lia.
  - apply prefix_length in H1. rewrite append_length in H1. simpl in H1. lia.
  - eapply append_inj_l; [done|]. eapply prefix_eq_len; [exact H1|exact H2|].
    rewrite !append_length. lia.
Qed.

#[local] Instance shorter_total : Total shorter.
Proof. intros a b. unfold shorter. lia. Qed.
#[local] Instance shorter_trans : Transitive shorter.
Proof. intros a b c. unfold shorter. lia. Qed.

Lemma group_chain_elem `{MapRange} oc project g :
  g ∈ group_chain oc project ↔ group_matches project g = true ∧ is_Some (Groups oc !! g).
Proof.
  unfold group_chain. rewrite (merge_sort_Permutation shorter), list_elem_of_In, filter_In, in_map_iff.
  split.
  - intros [([k q] & <- & Hin) Hm]. split; [done|]. apply list_elem_of_In, elem_of_range_map in Hin.
    simpl. by eexists.
  - intros [Hm [q Hq]]. split; [|done]. exists (g, q). split; [done|].
    by apply list_elem_of_In, elem_of_range_map.
Qed.

Lemma filter_perm {A} (f : A → bool) l l' : l ≡ₚ l' → List.filter f l ≡ₚ List.filter f l'.
Proof.
  induction 1 as [|x l l' _ IH|x y l|l l' l'' _ IH1 _ IH2]; simpl; [done| | |by etrans].
  - by destruct (f x); [constructor|].
  - destruct (f x), (f y); try done. constructor.
Qed.

Lemma group_chain_order (R R' : MapRange) oc project :
  @group_chain R oc project = @group_chain R' oc project.
Proof.
  apply (StronglySorted_unique_strong shorter).
  - intros a b Ha Hb H1 H2. apply group_chain_elem in Ha as [Ha _], Hb as [Hb _].
    eapply group_matches_unique; [done..|]. unfold shorter in *. lia.
  - apply StronglySorted_merge_sort; apply _.
  - apply StronglySorted_merge_sort; apply _.
  - unfold group_chain. rewrite !merge_sort_Permutation. apply filter_perm, Permutation_map.
    by rewrite !range_map_perm.
Qed.

(** ** A fold is at least as tight as each of its layers *)

Definition veto_kept (a q : option bool) : Prop := q = Some false → a = Some false.
Definition tokens_le (a q : option Z) : Prop := ∀ v, q = Some v → ∃ w, a = Some w ∧ w <= v.
Definition cost_le (a q : option float64) : Prop := ∀ v, q = Some v → ∃ w, a = Some w ∧ fle w v = true.
Definition ladder_le (a q : option (list string)) : Prop :=
  ∀ l, q = Some l → ∃ l', a = Some l' ∧ l' ⊆ l.

Record policy_tighter (a q : CfgPolicy) : Prop := {
  pt_enabled : veto_kept (c_Enabled a) (c_Enabled q);
  pt_actions : ∀ f, f ∈ [ap_Triage; ap_Pipelines; ap_PipelineFixes; ap_Features; ap_Scaffold; ap_Reviews] →
    veto_kept (f (c_Actions a)) (f (c_Actions q));
  pt_tokens : tokens_le (bp_MonthlyTokens (c_Budget a)) (bp_MonthlyTokens (c_Budget q));
  pt_task : tokens_le (bp_PerTaskTokens (c_Budget a)) (bp_PerTaskTokens (c_Budget q));
  pt_cost : cost_le (bp_MonthlyCostUSD (c_Budget a)) (bp_MonthlyCostUSD (c_Budget q));
  pt_ladder : ladder_le (c_Ladder a) (c_Ladder q);
  pt_scope : ∀ c, layer_allows (c_Scope a) c → layer_allows (c_Scope q) c;
  pt_lift : DenyLift (c_Scope q) ⊆ DenyLift (c_Scope a);
  pt_protected : ProtectedPaths (c_Scope q) ⊆ ProtectedPaths (c_Scope a);
  pt_fix : ∀ v, list_allows (pf_Classes (c_PipelineFix a)) v → list_allows (pf_Classes (c_PipelineFix q)) v;
  pt_ci : veto_kept (pf_AllowCI (c_PipelineFix a)) (pf_AllowCI (c_PipelineFix q));
}.

(** A ladder, when set, has a rung: the operator schema's minItems. *)
Definition ladder_set (q : CfgPolicy) : Prop := c_Ladder q ≠ Some [].

Definition cost_number (q : CfgPolicy) : Prop :=
  match bp_MonthlyCostUSD (c_Budget q) with Some v => IsNaN v = false | None => True end.

Lemma veto_kept_trans a b c : veto_kept a b → veto_kept b c → veto_kept a c.
Proof. unfold veto_kept. auto. Qed.

Lemma foldVeto_kept a b : veto_kept (foldVeto a b) a ∧ veto_kept (foldVeto a b) b.
Proof. unfold veto_kept, foldVeto. destruct a as [[]|], b as [[]|]; naive_solver. Qed.

Lemma vetoFold_kept a b : veto_kept (vetoFold a b) a ∧ veto_kept (vetoFold a b) b.
Proof. unfold veto_kept, vetoFold. destruct a as [[]|], b as [[]|]; naive_solver. Qed.

Lemma minTokens_le a b : tokens_le (minTokens a b) a ∧ tokens_le (minTokens a b) b.
Proof.
  unfold tokens_le, minTokens. destruct a as [x|], b as [y|]; split; intros v [= <-];
    try (destruct (Z.ltb_spec y x)); eexists; (split; [done|]); lia.
Qed.

Lemma minFloat_le a b :
  (∀ v, a = Some v → IsNaN v = false) → (∀ v, b = Some v → IsNaN v = false) →
  cost_le (minFloat a b) a ∧ cost_le (minFloat a b) b ∧ (∀ v, minFloat a b = Some v → IsNaN v = false).
Proof.
  intros Ha Hb. unfold cost_le, minFloat. destruct a as [x|], b as [y|]; split_and!; intros v Hv;
    try done; try (injection Hv as <-; eexists; split; [done|auto with gonk]); try (by auto).
  - specialize (Ha x eq_refl). specialize (Hb y eq_refl). injection Hv as <-.
    destruct (flt y x) eqn:E; eexists; (split; [done|]); auto with gonk.
  - specialize (Ha x eq_refl). specialize (Hb y eq_refl). injection Hv as <-.
    destruct (flt y x) eqn:E; eexists; (split; [done|]); auto with gonk.
    rewrite flt_ge in E by done. by apply negb_false_iff in E.
  - destruct (flt y x); auto.
Qed.

Lemma fold_ladder_le a b :
  b ≠ Some [] → ladder_le (fold_ladder a b) a ∧ ladder_le (fold_ladder a b) b.
Proof.
  intros Hne. unfold ladder_le, fold_ladder. destruct a as [x|], b as [[|y l]|]; split; intros v [= <-];
    try done; eexists; (split; [done|]); try done; intros r; rewrite intersect_elem; tauto.
Qed.

(** A group that allows no rung at all, in so many words, is read as silent
    when it is the first of its chain to speak. *)
Lemma explicit_empty_ladder_dropped : fold_ladder None (Some []) = None.
Proof. done. Qed.

Lemma policy_tighter_trans a b c : policy_tighter a b → policy_tighter b c → cost_number b → policy_tighter a c.
Proof.
  intros [] [] Hn. split; eauto using veto_kept_trans.
  - intros v Hv. destruct (pt_tokens1 v Hv) as (w & Hw & ?). destruct (pt_tokens0 w Hw) as (u & Hu & ?).
    exists u. split; [done|lia].
  - intros v Hv. destruct (pt_task1 v Hv) as (w & Hw & ?). destruct (pt_task0 w Hw) as (u & Hu & ?).
    exists u. split; [done|lia].
  - intros v Hv. destruct (pt_cost1 v Hv) as (w & Hw & ?). destruct (pt_cost0 w Hw) as (u & Hu & ?).
    exists u. split; [done|]. eapply fle_trans; [|done|done]. unfold cost_number in Hn. by rewrite Hw in Hn.
  - intros l Hl. destruct (pt_ladder1 l Hl) as (l' & Hl' & ?). destruct (pt_ladder0 l' Hl') as (l'' & ? & ?).
    exists l''. split; [done|]. set_solver.
  - set_solver.
  - set_solver.
Qed.

Ltac fold_tighter Hen Hc :=
  split;
  [ apply Hen
  | intros f Hf; repeat (apply elem_of_cons in Hf as [->|Hf]; [apply foldVeto_kept|]);
    by apply elem_of_nil in Hf
  | apply minTokens_le | apply minTokens_le | exact Hc | by apply fold_ladder_le
  | intros c; unfold layer_allows; cbn [foldPolicy c_Scope p_Classes FoldPolicies];
    rewrite foldClasses_allows; tauto
  | intros c Hd; cbn [foldPolicy c_Scope FoldPolicies DenyLift]; apply keep_new_elem; set_solver
  | intros c Hd; cbn [foldPolicy c_Scope FoldPolicies ProtectedPaths]; apply unionStrings_elem; tauto
  | intros v; cbn [foldPolicy c_PipelineFix FoldPipelineFix pf_Classes];
    rewrite intersectLists_allows; tauto
  | apply vetoFold_kept ].

Lemma foldPolicy_tighter base next :
  cost_number base → cost_number next → ladder_set next →
  policy_tighter (foldPolicy base next) base ∧ policy_tighter (foldPolicy base next) next ∧
  cost_number (foldPolicy base next).
Proof.
  intros Hb Hn Hl.
  assert (Hcost : ∀ q, cost_number q → ∀ v, bp_MonthlyCostUSD (c_Budget q) = Some v → IsNaN v = false).
  { intros q Hq v Hv. unfold cost_number in Hq. by rewrite Hv in Hq. }
  destruct (minFloat_le _ _ (Hcost _ Hb) (Hcost _ Hn)) as (Hc1 & Hc2 & Hc3).
  assert (Hen : veto_kept (c_Enabled (foldPolicy base next)) (c_Enabled base) ∧
                veto_kept (c_Enabled (foldPolicy base next)) (c_Enabled next)).
  { unfold veto_kept, foldPolicy. simpl.
    destruct (c_Enabled base) as [[]|], (c_Enabled next) as [[]|]; naive_solver. }
  split; [fold_tighter Hen Hc1|split; [fold_tighter Hen Hc2|]].
  unfold cost_number. cbn [foldPolicy c_Budget bp_MonthlyCostUSD].
  destruct (minFloat _ _) eqn:E; [by apply Hc3|done].
Qed.

(** One step of the fold over the chain of enclosing groups. *)
Definition group_step (oc : OperatorConfig) (out : CfgPolicy) (g : string) : CfgPolicy :=
  foldPolicy out (default CfgPolicy_zero (Groups oc !! g)).

Section group_fold.
Context (oc : OperatorConfig) (Hn : ∀ k v, Groups oc !! k = Some v → cost_number v ∧ ladder_set v).

Lemma group_step_tighter base k :
  cost_number base →
  policy_tighter (group_step oc base k) base ∧
  policy_tighter (group_step oc base k) (default CfgPolicy_zero (Groups oc !! k)) ∧
  cost_number (group_step oc base k).
Proof.
  intros Hb. apply foldPolicy_tighter; [done| |];
    (destruct (Groups oc !! k) eqn:E; [by eapply Hn|done]).
Qed.

Lemma group_fold_keeps chain base q :
  cost_number base → policy_tighter base q →
  policy_tighter (fold_left (group_step oc) chain base) q.
Proof.
  revert base. induction chain as [|k chain IH]; intros base Hb Ht; [done|]. simpl.
  destruct (group_step_tighter base k Hb) as (Hl & _ & Hc). apply IH; [done|].
  by eapply policy_tighter_trans.
Qed.

Lemma group_fold_tightest chain base g q :
  cost_number base → g ∈ chain → Groups oc !! g = Some q →
  policy_tighter (fold_left (group_step oc) chain base) q.
Proof.
  revert base. induction chain as [|k chain IH]; intros base Hb Hin Hq; [by apply elem_of_nil in Hin|].
  simpl. destruct (group_step_tighter base k Hb) as (_ & Ht & Hc).
  apply elem_of_cons in Hin as [<-|Hin]; [|by apply IH].
  rewrite Hq in Ht. by apply group_fold_keeps.
Qed.
End group_fold.

(** Nested groups cannot loosen one another, and no accident of map order
    decides: the policy of a project is at least as tight, in every veto, ceiling,
    ladder, protected path, lift veto and fix class, as the policy of each group
    whose path contains it, and it is the same whatever order the groups are
    visited in; dollar ceilings are numbers and a ladder that is set has a rung,
    as the schema requires. *)
Theorem GroupFor_tightest (R R' : MapRange) (oc : OperatorConfig) (project g : string) (q : CfgPolicy)
    (Hq : Groups oc !! g = Some q) (Hm : group_matches project g = true)
    (Hn : ∀ k v, Groups oc !! k = Some v → cost_number v ∧ ladder_set v) :
  policy_tighter (@GroupFor R oc project) q ∧ @GroupFor R oc project = @GroupFor R' oc project.
Proof.
  split; [|unfold GroupFor; by rewrite (group_chain_order R R')].
  apply (group_fold_tightest oc Hn _ _ g); [done|apply group_chain_elem; eauto|done].
Qed.

(** A configuration with a nested group that sets no ceiling of its own. *)
Definition demo_group (tokens : option Z) (enabled : option bool) : CfgPolicy :=
  let z := CfgPolicy_zero in
  mkCfgPolicy enabled (c_Actions z) None (mkBudgetPolicy None tokens None) None None None None None None
    Policy_zero (c_PipelineFix z) (c_Change z) (c_Review z).
Definition demo_oc : OperatorConfig :=
  mkOperatorConfig CfgPolicy_zero
    {["k8s" := demo_group (Some 50) (Some false); "k8s/exp" := demo_group None (Some true)]} ∅
    (mkMeterConfig 0 0 0 0 5 false) false.

Lemma GroupFor_tightest_witness :
  let p := @GroupFor range_canonical demo_oc "k8s/exp/spike" in
  c_Enabled p = Some false ∧ ∃ w, bp_MonthlyTokens (c_Budget p) = Some w ∧ w <= 50.
Proof.
  intros p.
  destruct (GroupFor_tightest range_canonical range_canonical demo_oc "k8s/exp/spike" "k8s"
              (demo_group (Some 50) (Some false))) as [[] _].
  - reflexivity.
  - reflexivity.
  - intros k v Hk. unfold demo_oc in Hk. cbn [Groups] in Hk.
    apply lookup_insert_Some in Hk as [[_ <-]|[_ Hk]]; [split; [exact I|discriminate]|].
    apply lookup_singleton_Some in Hk as [_ <-]. split; [exact I|discriminate].
  - split; [by apply pt_enabled0|by apply pt_tokens0].
Defined.

(** ** Ladders *)

Lemma ladder_pos_go l i m r j :
  (fix go (l : list string) (i : Z) (m : gmap string Z) :=
     match l with [] => m | r :: l' => go l' (i + 1) (<[r := i]> m) end) l i m !! r = Some j →
  m !! r = Some j ∨ (i <= j ∧ l !! Z.to_nat (j - i) = Some r).
Proof.
  revert i m. induction l as [|x l IH]; intros i m H; [by left|].
  apply IH in H as [H|[Hle H]].
  - apply lookup_insert_Some in H as [[-> ->]|[_ H]]; [|by left]. right. split; [lia|].
    by rewrite Z.sub_diag.
  - right. split; [lia|]. replace (Z.to_nat (j - i)) with (S (Z.to_nat (j - (i + 1)))) by lia. done.
Qed.

Lemma ladder_pos_total l i m r :
  r ∈ l ∨ is_Some (m !! r) → is_Some ((fix go (l : list string) (i : Z) (m : gmap string Z) :=
     match l with [] => m | r :: l' => go l' (i + 1) (<[r := i]> m) end) l i m !! r).
Proof.
  revert i m. induction l as [|x l IH]; intros i m H; [by destruct H as [?%elem_of_nil|?]|].
  apply IH. destruct (decide (x = r)) as [->|Hne].
  - right. rewrite lookup_insert_eq. by eexists.
  - rewrite lookup_insert_ne by done. destruct H as [[->|H]%elem_of_cons|H]; auto. done.
Qed.

Lemma in_order_sublist instance pos last project :
  (∀ r j, pos !! r = Some j → 0 <= j ∧ instance !! Z.to_nat j = Some r) →
  (∀ r, r ∈ project → is_Some (pos !! r)) → NoDup project →
  -1 <= last → (∀ r, r ∈ project → pos !! r ≠ Some last) →
  in_order pos last project = true →
  project `sublist_of` drop (Z.to_nat (last + 1)) instance.
Proof.
  intros Hpos. revert last. induction project as [|r project IH]; intros last Hk Hnd Hlast Hne Ho.
  { apply sublist_nil_l. }
  simpl in Ho. destruct (Hk r) as [j Hj]; [by left|]. rewrite Hj in Ho.
  destruct (Z.ltb_spec j last) as [|Hge]; [done|]. destruct (Hpos r j Hj) as [H0 Hr].
  apply NoDup_cons in Hnd as [Hnin Hnd].
  assert (Hjl : last < j).
  { assert (j ≠ last); [|lia]. intros ->. by apply (Hne r); [left|]. }
  assert (Htail : project `sublist_of` drop (Z.to_nat (j + 1)) instance).
  { apply IH; [intros; apply Hk; by right|done|lia| |done].
    intros r' Hr' E. destruct (Hpos r' j E) as [_ E']. rewrite Hr in E'. injection E' as ->. done. }
  assert (Hd : drop (Z.to_nat (last + 1)) instance =
    take (Z.to_nat j - Z.to_nat (last + 1)) (drop (Z.to_nat (last + 1)) instance) ++
    r :: drop (Z.to_nat (j + 1)) instance).
  { rewrite <- (take_drop (Z.to_nat j - Z.to_nat (last + 1)) (drop (Z.to_nat (last + 1)) instance)) at 1.
    f_equal. rewrite drop_drop. replace (Z.to_nat (last + 1) + (Z.to_nat j - Z.to_nat (last + 1)))%nat
      with (Z.to_nat j) by lia.
    rewrite (drop_S _ _ _ Hr). f_equal. f_equal. lia. }
  rewrite Hd. apply sublist_inserts_l. by constructor.
Qed.

(** Escalation stays cheapest-first: a ladder without repeats whose rungs the
    instance ladder all lists passes the check only if it is a subsequence of
    the instance's. *)
Theorem CheckLadderOrder_subsequence (instance project : list string)
    (Hsub : project ⊆ instance) (Hnd : NoDup project) (Hi : instance ≠ [])
    (Ho : CheckLadderOrder instance project = true) :
  project `sublist_of` instance.
Proof.
  unfold CheckLadderOrder in Ho. destruct instance as [|x inst]; [done|].
  destruct project as [|r project]; [apply sublist_nil_l|]. simpl (_ || _) in Ho. cbv iota in Ho.
  set (instance := x :: inst) in *. set (pr := r :: project) in *.
  apply (in_order_sublist instance (ladder_pos instance) (-1) pr).
  - intros r' j H. unfold ladder_pos in H. apply ladder_pos_go in H as [H|[H1 H2]]; [by rewrite lookup_empty in H|].
    by rewrite Z.sub_0_r in H2.
  - intros r' Hr. apply ladder_pos_total. left. by apply Hsub.
  - done.
  - lia.
  - intros r' _ H. unfold ladder_pos in H. apply ladder_pos_go in H as [H|[H1 _]]; [by rewrite lookup_empty in H|lia].
  - exact Ho.
Qed.

Lemma CheckLadderOrder_subsequence_witness :
  ["qwen"; "sonnet"] `sublist_of` ["qwen"; "local2"; "sonnet"].
Proof.
  apply CheckLadderOrder_subsequence.
  - set_solver.
  - repeat constructor; set_solver.
  - discriminate.
  - vm_compute. reflexivity.
Defined.
