(* ===== verification/Budget.v ===== *)
(** * [pkg/budget]: ceilings, spend, and what remains

    The money layer. A cost ceiling is a [float64] with [+Inf] for unlimited;
    a token ceiling is an [int64] with [MaxInt64] for unlimited. [Remain] is
    ceiling minus (observed plus reserved), clamped at zero. *)

From S2P Require Import Prelude.
From S2P Require Import Float64.
From S2P Require Import GoStrings.
From S2P Require Import Gonkcfg.

(** ** Ceilings (limits.go) *)

Abbreviation CostLimit := float64 (only parsing).
Abbreviation TokenLimit := Z (only parsing).

Definition Unlimited : CostLimit := Inf.
Definition UnlimitedTokens : TokenLimit := MaxInt64.

Definition CostLimit_Unlimited (c : CostLimit) : bool := IsPosInf c.
Definition TokenLimit_Unlimited (t : TokenLimit) : bool := t =? UnlimitedTokens.

Inductive json_error :=
| RefuseCost (f : float64)
| RefuseTokens (t : Z)
| BadNumber (e : num_error)
| NegativeTokens (i : Z)
| BadFloat
| NotFiniteNonNegative (f : float64).

(** [TokenLimit.MarshalJSON] and [UnmarshalJSON]. *)
Definition TokenLimit_MarshalJSON (t : TokenLimit) : result json_error string :=
  if TokenLimit_Unlimited t then Ok "null"
  else if t <? 0 then Err (RefuseTokens t)
  else Ok (itoa t).

Definition TokenLimit_UnmarshalJSON (raw : string) : result json_error TokenLimit :=
  if String.eqb raw "null" then Ok UnlimitedTokens
  else match json_unmarshal_int64 raw with
       | Err e => Err (BadNumber e)
       | Ok i => if i <? 0 then Err (NegativeTokens i) else Ok i
       end.

(** [CostLimit.MarshalJSON] and [UnmarshalJSON]; the text of a finite float is
    [encoding/json]'s own. *)
Section cost_json.
Variable json_float : float64 → string.
Variable json_unmarshal_float : string → option float64.

Definition CostLimit_MarshalJSON (c : CostLimit) : result json_error string :=
  if IsPosInf c then Ok "null"
  else if IsNaN c || IsNegInf c || flt c fzero then Err (RefuseCost c)
  else Ok (json_float c).

Definition CostLimit_UnmarshalJSON (raw : string) : result json_error CostLimit :=
  if String.eqb raw "null" then Ok Unlimited
  else match json_unmarshal_float raw with
       | None => Err BadFloat
       | Some f => if IsNaN f || IsInf f || flt f fzero
                   then Err (NotFiniteNonNegative f) else Ok f
       end.
End cost_json.

Record Budget := mkBudget {
  MonthlyCostUSD : CostLimit;
  MonthlyTokens : TokenLimit;
  PerTaskTokens : TokenLimit;
}.

Definition FromEffective (b : EffectiveBudget) : Budget :=
  mkBudget (eb_MonthlyCostUSD b) (eb_MonthlyTokens b) (eb_PerTaskTokens b).

Definition AllUnlimited (b : Budget) : bool :=
  CostLimit_Unlimited (MonthlyCostUSD b) && TokenLimit_Unlimited (MonthlyTokens b)
  && TokenLimit_Unlimited (PerTaskTokens b).

(** ** Consumption and remainder (remaining.go) *)

Record Spend := mkSpend {
  CostUSD : float64;
  ReservedCostUSD : float64;
  SyntheticCostUSD : float64;
  ReservedSyntheticCostUSD : float64;
  Tokens : Z;
  TaskTokens : Z;
  ReservedTokens : Z;
  ReservedTaskTokens : Z;
}.

Record Remaining := mkRemaining {
  RemMonthlyCostUSD : CostLimit;
  RemMonthlyTokens : TokenLimit;
  RemPerTaskTokens : TokenLimit;
}.

Definition addSat (a b : Z) : Z :=
  if (a <? 0) || (b <? 0) then MaxInt64
  else if wrap64 (MaxInt64 - b) <? a then MaxInt64
  else wrap64 (a + b).

Definition remainTokens (ceiling : TokenLimit) (observed reserved : Z) : TokenLimit :=
  if TokenLimit_Unlimited ceiling then UnlimitedTokens
  else
    let used := addSat observed reserved in
    let r := wrap64 (ceiling - used) in
    if 0 <? r then r else 0.

Definition remainCost (ceiling : CostLimit) (observed reserved : float64) : CostLimit :=
  if CostLimit_Unlimited ceiling then Unlimited
  else
    let used := fadd observed reserved in
    if IsNaN used || IsPosInf used || IsNaN ceiling then fzero
    else
      let used := if flt used fzero then fzero else used in
      let r := fsub ceiling used in
      if flt fzero r then r else fzero.

Definition Remain (b : Budget) (s : Spend) : Remaining := {|
  RemMonthlyCostUSD := remainCost (MonthlyCostUSD b) (CostUSD s) (ReservedCostUSD s);
  RemMonthlyTokens := remainTokens (MonthlyTokens b) (Tokens s) (ReservedTokens s);
  RemPerTaskTokens := remainTokens (PerTaskTokens b) (TaskTokens s) (ReservedTaskTokens s);
|}.

Definition FitsCost (r : Remaining) (est : float64) : bool :=
  if CostLimit_Unlimited (RemMonthlyCostUSD r) then true
  else if fle (RemMonthlyCostUSD r) fzero then false
  else fle est (RemMonthlyCostUSD r).

Definition fits (rem : TokenLimit) (est : Z) : bool :=
  if TokenLimit_Unlimited rem then true
  else if rem <=? 0 then false
  else est <=? rem.

Definition FitsMonthTokens (r : Remaining) (est : Z) : bool := fits (RemMonthlyTokens r) est.
Definition FitsTaskTokens (r : Remaining) (est : Z) : bool := fits (RemPerTaskTokens r) est.

(** ** Token arithmetic *)

Lemma addSat_nonneg a b :
  int64 a → int64 b → 0 <= a → 0 <= b → addSat a b = Z.min (a + b) MaxInt64.
Proof.
  unfold int64, MinInt64, MaxInt64. intros Ha Hb H1 H2. unfold addSat.
  rewrite (wrap64_id (MaxInt64 - b)) by (unfold int64, MinInt64, MaxInt64; lia).
  destruct (Z.ltb_spec a 0), (Z.ltb_spec b 0); try lia. simpl.
  destruct (Z.ltb_spec (MaxInt64 - b) a); unfold MaxInt64 in *; [lia|].
  rewrite wrap64_id by (unfold int64, MinInt64, MaxInt64; lia). lia.
Qed.

Lemma addSat_negative a b : a < 0 ∨ b < 0 → addSat a b = MaxInt64.
Proof. intros H. unfold addSat. destruct (Z.ltb_spec a 0), (Z.ltb_spec b 0); simpl; done || lia. Qed.

Lemma addSat_range a b : int64 a → int64 b → 0 <= addSat a b <= MaxInt64.
Proof.
  intros Ha Hb. destruct (decide (a < 0 ∨ b < 0)) as [H|H].
  - rewrite addSat_negative by done. unfold MaxInt64. lia.
  - rewrite addSat_nonneg by (done || lia). unfold int64, MaxInt64 in *. lia.
Qed.

(** The abstract remainder of a token ceiling: [None] is no ceiling. A negative
    count is read as everything spent. *)
Definition tokens_left (ceiling : option Z) (observed reserved : Z) : option Z :=
  c ← ceiling;
  Some (if decide (observed < 0 ∨ reserved < 0) then 0
        else Z.max 0 (c - (observed + reserved))).

Definition limit_of (t : TokenLimit) : option Z :=
  if TokenLimit_Unlimited t then None else Some t.

Lemma limit_of_Some t c : limit_of t = Some c ↔ t = c ∧ c ≠ MaxInt64.
Proof.
  unfold limit_of, TokenLimit_Unlimited, UnlimitedTokens.
  destruct (Z.eqb_spec t MaxInt64); naive_solver.
Qed.

Lemma limit_of_None t : limit_of t = None ↔ t = MaxInt64.
Proof.
  unfold limit_of, TokenLimit_Unlimited, UnlimitedTokens.
  destruct (Z.eqb_spec t MaxInt64); naive_solver.
Qed.

Lemma remainTokens_spec c o r :
  0 <= c <= MaxInt64 → int64 o → int64 r →
  limit_of (remainTokens c o r) = tokens_left (limit_of c) o r.
Proof.
  intros Hc Ho Hr. unfold remainTokens, limit_of at 2.
  destruct (TokenLimit_Unlimited c) eqn:Hu; [done|].
  unfold TokenLimit_Unlimited, UnlimitedTokens in Hu. bool_hyps. simpl.
  pose proof (addSat_range o r Ho Hr) as Hs.
  rewrite wrap64_id by (unfold int64, MinInt64, MaxInt64 in *; lia).
  case_decide as Hneg.
  - rewrite addSat_negative by done. destruct (Z.ltb_spec 0 (c - MaxInt64)); [lia|done].
  - rewrite addSat_nonneg in * by (done || lia).
    destruct (Z.ltb_spec 0 (c - Z.min (o + r) MaxInt64)).
    + apply limit_of_Some. unfold MaxInt64 in *. lia.
    + apply limit_of_Some. unfold MaxInt64 in *. lia.
Qed.

Lemma remainTokens_nonneg c o r : 0 <= remainTokens c o r.
Proof.
  unfold remainTokens. case_match; [unfold UnlimitedTokens, MaxInt64; lia|].
  cbv zeta. case_match; bool_hyps; lia.
Qed.

Lemma fits_spec rem est :
  0 <= rem → fits rem est = true ↔ match limit_of rem with
                                    | None => True
                                    | Some l => 0 < l ∧ est <= l
                                    end.
Proof.
  intros H. unfold fits, limit_of. case_match; [done|].
  destruct (Z.leb_spec rem 0), (Z.leb_spec est rem); naive_solver lia.
Qed.

(** A positive estimate fits exactly when the ceiling, if there is one, holds
    what is observed, what is reserved and the estimate together. *)
Lemma fits_remainTokens c o r est :
  0 <= c <= MaxInt64 → int64 o → int64 r → 0 < est →
  fits (remainTokens c o r) est = true ↔
    c = MaxInt64 ∨ (0 <= o ∧ 0 <= r ∧ o + r + est <= c).
Proof.
  intros Hc Ho Hr He. rewrite fits_spec by apply remainTokens_nonneg.
  rewrite remainTokens_spec by done. destruct (limit_of c) as [l|] eqn:Hl; simpl.
  - apply limit_of_Some in Hl as [-> ?]. case_decide; lia.
  - apply limit_of_None in Hl. naive_solver.
Qed.

(** ** Cost arithmetic *)

Lemma remainCost_cases ceiling o r :
  remainCost ceiling o r = Unlimited ∨ remainCost ceiling o r = fzero
  ∨ flt fzero (remainCost ceiling o r) = true.
Proof.
  unfold remainCost. case_match; [by left|]. cbv zeta.
  case_match; [by right; left|]. case_match eqn:E; [|by right; left].
  right; right; done.
Qed.

Lemma remainCost_not_nan ceiling o r : IsNaN (remainCost ceiling o r) = false.
Proof.
  destruct (remainCost_cases ceiling o r) as [->|[->|H]]; try done.
  by destruct (flt_not_nan _ _ H).
Qed.

Lemma remainCost_zero_ceiling o r : remainCost fzero o r = fzero.
Proof.
  unfold remainCost. simpl. case_match eqn:E; [done|].
  destruct (fadd o r) as [[]|[]| |[] m e]; done.
Qed.

#[export] Hint Resolve remainTokens_nonneg remainCost_not_nan : gonk.

(** ** What the component promises *)

(** The dollars that count against a ceiling: garbage is [None], a credit
    counts as nothing. *)
Definition charged (observed reserved : float64) : option float64 :=
  let used := fadd observed reserved in
  if IsNaN used || IsPosInf used then None
  else Some (if flt used fzero then fzero else used).

Lemma remainCost_charged c o r :
  IsPosInf c = false → IsNaN c = false →
  remainCost c o r =
    match charged o r with
    | None => fzero
    | Some u => if flt fzero (fsub c u) then fsub c u else fzero
    end.
Proof.
  intros H1 H2. unfold remainCost, charged, CostLimit_Unlimited. rewrite H1, H2, orb_false_r.
  cbv zeta. by case_match.
Qed.

(** Room that holds an estimate: positive, and without bound or at least it. *)
Definition covers (room est : float64) : bool :=
  flt fzero room && (IsPosInf room || fle est room).

(** The dollar gate fails closed: under a ceiling an estimate fits exactly when
    the ceiling is a number, the observed and reserved dollars add up to one,
    and the ceiling less what was spent (a credit counts as nothing spent) is
    positive and at least the estimate. Synthetic dollars do not enter. *)
Theorem cost_gate_fails_closed (b : Budget) (s : Spend) (est : float64) :
  FitsCost (Remain b s) est = true ↔
    MonthlyCostUSD b = Unlimited ∨
    (IsNaN (MonthlyCostUSD b) = false ∧
     ∃ u, charged (CostUSD s) (ReservedCostUSD s) = Some u ∧
          covers (fsub (MonthlyCostUSD b) u) est = true).
Proof.
  unfold FitsCost, Remain. simpl. set (c := MonthlyCostUSD b).
  destruct (decide (c = Unlimited)) as [->|Hne]; [simpl; naive_solver|].
  assert (Hi : IsPosInf c = false) by (by destruct c as [|[]| |]).
  destruct (IsNaN c) eqn:Hn.
  { unfold remainCost, CostLimit_Unlimited. rewrite Hi, Hn, orb_true_r. simpl. naive_solver. }
  rewrite (remainCost_charged c) by done. unfold covers, CostLimit_Unlimited.
  destruct (charged _ _) as [u|]; simpl.
  2: { split; [done|]. by intros [?|(_ & ? & ? & _)]. }
  transitivity (flt fzero (fsub c u) && (IsPosInf (fsub c u) || fle est (fsub c u)) = true).
  - destruct (flt fzero (fsub c u)) eqn:Hf; simpl; [|done].
    rewrite (flt_fle_contra _ _ Hf). by destruct (IsPosInf (fsub c u)).
  - split; [eauto 6|]. by intros [?|(_ & ? & [= <-] & ?)].
Qed.

(** The token gates never overspend: with counters and ceilings in their
    int64 range, a positive estimate fits the month and the task exactly when
    each ceiling is unlimited or holds observed, reserved and estimated tokens
    together, negative counts being read as everything spent; neither a wrap nor
    the unlimited sentinel opens a limited project. *)
Theorem token_gates_exact (b : Budget) (s : Spend) (est : Z)
    (Hb : 0 <= MonthlyTokens b <= MaxInt64 ∧ 0 <= PerTaskTokens b <= MaxInt64)
    (Hs : int64 (Tokens s) ∧ int64 (ReservedTokens s) ∧ int64 (TaskTokens s) ∧
          int64 (ReservedTaskTokens s))
    (He : 0 < est) :
  (FitsMonthTokens (Remain b s) est = true ↔
     MonthlyTokens b = UnlimitedTokens ∨
     (0 <= Tokens s ∧ 0 <= ReservedTokens s ∧
      Tokens s + ReservedTokens s + est <= MonthlyTokens b)) ∧
  (FitsTaskTokens (Remain b s) est = true ↔
     PerTaskTokens b = UnlimitedTokens ∨
     (0 <= TaskTokens s ∧ 0 <= ReservedTaskTokens s ∧
      TaskTokens s + ReservedTaskTokens s + est <= PerTaskTokens b)).
Proof.
  destruct Hb as [? ?], Hs as (? & ? & ? & ?). unfold FitsMonthTokens, FitsTaskTokens, Remain. simpl.
  split; by apply fits_remainTokens.
Qed.

Lemma token_gates_exact_witness :
  let b := mkBudget fzero 100 MaxInt64 in
  let s := mkSpend fzero fzero fzero fzero 40 (-1) 20 0 in
  FitsMonthTokens (Remain b s) 40 = true ∧ FitsMonthTokens (Remain b s) 41 = false ∧
  FitsTaskTokens (Remain b s) 41 = true.
Proof.
  intros b s.
  assert (Hb : 0 <= MonthlyTokens b <= MaxInt64 ∧ 0 <= PerTaskTokens b <= MaxInt64)
    by (unfold b, MaxInt64; simpl; lia).
  assert (Hs : int64 (Tokens s) ∧ int64 (ReservedTokens s) ∧ int64 (TaskTokens s) ∧
               int64 (ReservedTaskTokens s))
    by (unfold s, int64, MinInt64, MaxInt64; simpl; lia).
  destruct (token_gates_exact b s 40 Hb Hs ltac:(lia)) as [H40 _].
  destruct (token_gates_exact b s 41 Hb Hs ltac:(lia)) as [H41 T41].
  split; [|split].
  - apply H40. right. simpl. lia.
  - apply not_true_iff_false. intros H. apply H41 in H as [H|H]; simpl in H; [done|lia].
  - apply T41. by left.
Defined.

(** A token ceiling survives the wire: every ceiling that marshals comes
    back as itself, unlimited as [null] and never as a number, and what does
    not marshal is exactly a negative count. *)
Theorem token_limit_wire (t : TokenLimit) (H : int64 t) :
  match TokenLimit_MarshalJSON t with
  | Ok raw => TokenLimit_UnmarshalJSON raw = Ok t ∧ 0 <= t ∧ (raw = "null" ↔ t = UnlimitedTokens)
  | Err _ => t < 0
  end.
Proof.
  unfold TokenLimit_MarshalJSON, TokenLimit_Unlimited.
  destruct (Z.eqb_spec t UnlimitedTokens) as [->|Hne]; [done|].
  destruct (Z.ltb_spec t 0) as [?|Hpos]; [done|].
  assert (Hnull : itoa t ≠ "null").
  { intros E. pose proof (json_itoa_roundtrip t Hpos H) as Hr. rewrite E in Hr. vm_compute in Hr.
    injection Hr as <-. discriminate E. }
  unfold TokenLimit_UnmarshalJSON. apply String.eqb_neq in Hnull as Hb. rewrite Hb.
  rewrite json_itoa_roundtrip by done. destruct (Z.ltb_spec t 0); [lia|].
  naive_solver.
Qed.

Lemma token_limit_wire_witness :
  TokenLimit_MarshalJSON 50000 = Ok "50000" ∧ TokenLimit_UnmarshalJSON "50000" = Ok 50000.
Proof.
  split; [reflexivity|].
  exact (proj1 (token_limit_wire 50000 ltac:(unfold int64, MinInt64, MaxInt64; lia))).
Defined.
