(* ===== verification/Atags.v ===== *)
(** * [pkg/atags]: the attribution tags

    The tags every model call carries, which join spend to a project, a bead
    and a session. [Validate] ranges over a Go map, whose order is not fixed:
    the order is the class [MapRange] of the prelude. *)

From S2P Require Import Prelude.
From S2P Require Import GoStrings.

Definition TriggerIssueTriage := "issue-triage".
Definition TriggerOnboarding := "onboarding".
Definition TriggerScaffold := "scaffold".
Definition TriggerMentionReply := "mention-reply".
Definition TriggerPipelineDiagnosis := "pipeline-diagnosis".
Definition TriggerPipelineFix := "pipeline-fix".
Definition TriggerIssueChange := "issue-change".
Definition TriggerMRReview := "mr-review".

Definition validTriggers : gset string :=
  {[ TriggerIssueTriage; TriggerOnboarding; TriggerScaffold; TriggerMentionReply;
     TriggerPipelineDiagnosis; TriggerPipelineFix; TriggerIssueChange; TriggerMRReview ]}.

Definition KeyProject := "gonk_project".
Definition KeyRig := "gonk_rig".
Definition KeyBeadID := "gonk_bead_id".
Definition KeySessionKey := "gonk_session_key".
Definition KeyRung := "gonk_rung".
Definition KeyAttempt := "gonk_attempt".
Definition KeyTrigger := "gonk_trigger".

Record Tags := mkTags {
  Project : string;
  Rig : string;
  BeadID : string;
  SessionKey : string;
  Rung : string;
  Attempt : Z;
  Trigger : string;
}.

#[export] Instance Tags_eq_dec : EqDecision Tags.
Proof. solve_decision. Defined.

(** [Tags{}]. *)
Definition Tags_zero : Tags := mkTags "" "" "" "" "" 0 "".

Inductive tag_error :=
| FieldEmpty (name : string)
| AttemptBelowOne (n : Z)
| UnknownTrigger (t : string)
| BadAttempt (e : num_error).

Section atags.
Context `{MapRange}.

Definition Validate (t : Tags) : option tag_error :=
  let fields : gmap string string :=
    {[ "project" := Project t; "rig" := Rig t; "bead_id" := BeadID t;
       "session_key" := SessionKey t; "rung" := Rung t ]} in
  match list_find (λ kv, kv.2 = "") (range_map fields) with
  | Some (_, (name, _)) => Some (FieldEmpty name)
  | None =>
      if Attempt t <? 1 then Some (AttemptBelowOne (Attempt t))
      else if decide (Trigger t ∈ validTriggers) then None
      else Some (UnknownTrigger (Trigger t))
  end.

Definition Metadata (t : Tags) : gmap string string :=
  {[ KeyProject := Project t; KeyRig := Rig t; KeyBeadID := BeadID t;
     KeySessionKey := SessionKey t; KeyRung := Rung t;
     KeyAttempt := itoa (Attempt t); KeyTrigger := Trigger t ]}.

(** [m[k]], the empty string when absent. *)
Definition at_key (m : gmap string string) (k : string) : string := default "" (m !! k).

Definition FromMetadata (m : gmap string string) : Tags * option tag_error :=
  match ParseInt (at_key m KeyAttempt) with
  | Err e => (Tags_zero, Some (BadAttempt e))
  | Ok attempt =>
      let t := mkTags (at_key m KeyProject) (at_key m KeyRig) (at_key m KeyBeadID)
                 (at_key m KeySessionKey) (at_key m KeyRung) attempt (at_key m KeyTrigger) in
      (t, Validate t)
  end.

(** ** Lemmas *)

(** The tags that [Validate] accepts, whatever order it looks in. *)
Definition tags_ok (t : Tags) : Prop :=
  Project t ≠ "" ∧ Rig t ≠ "" ∧ BeadID t ≠ "" ∧ SessionKey t ≠ "" ∧ Rung t ≠ "" ∧
  1 <= Attempt t ∧ Trigger t ∈ validTriggers.

Lemma Validate_ok t : Validate t = None ↔ tags_ok t.
Proof.
  unfold Validate, tags_ok. set (fields := insert "project" _ _).
  assert (Hr : ∀ k v, (k, v) ∈ range_map fields ↔ fields !! k = Some v).
  { intros k v. apply elem_of_range_map. }
  destruct (list_find _ _) as [[i [name v]]|] eqn:E.
  - apply list_find_Some in E as (Hi & Hv & _). simpl in Hv. subst v.
    apply list_elem_of_lookup_2, Hr in Hi. split; [done|]. intros (?&?&?&?&?&_).
    unfold fields in Hi. rewrite !lookup_insert_Some, lookup_singleton_Some in Hi.
    repeat (destruct Hi as [[? ?]|[? Hi]]; [congruence|]). destruct Hi; congruence.
  - apply list_find_None in E. rewrite Forall_forall in E.
    assert (Hne : ∀ k v, fields !! k = Some v → v ≠ "").
    { intros k v Hk. by apply Hr, E in Hk. }
    pose proof (Hne "project" _ eq_refl). pose proof (Hne "rig" _ eq_refl).
    pose proof (Hne "bead_id" _ eq_refl). pose proof (Hne "session_key" _ eq_refl).
    pose proof (Hne "rung" _ eq_refl).
    destruct (Z.ltb_spec (Attempt t) 1); [split; [done|]; lia|].
    case_decide; (split; [|tauto]); [intros _; by split_and!|done].
Qed.

(** Tags survive the spend log: metadata written by [Metadata] is read
    back as the same tags, with an error exactly when the tags are not ones
    [Validate] accepts (an empty field, an attempt below one or an unknown
    trigger), in whatever order the fields are checked. *)
Theorem tags_roundtrip (t : Tags) (Ha : int64 (Attempt t)) :
  fst (FromMetadata (Metadata t)) = t ∧
  (snd (FromMetadata (Metadata t)) = None ↔ tags_ok t).
Proof.
  assert (FromMetadata (Metadata t) = (t, Validate t)) as ->.
  { unfold FromMetadata, Metadata, at_key. simpl_map. simpl.
    rewrite ParseInt_itoa by done. by destruct t. }
  split; [done|]. apply Validate_ok.
Qed.
End atags.

Lemma tags_roundtrip_witness :
  let t := mkTags "grp/app" "rig-1" "b-7" "sess" "qwen-local" 2 "pipeline-fix" in
  FromMetadata (Metadata t) = (t, None).
Proof.
  intros t. destruct (tags_roundtrip t) as [H1 H2].
  { unfold int64, MinInt64, MaxInt64. simpl. lia. }
  assert (Hok : tags_ok t).
  { unfold tags_ok, t, validTriggers. simpl. split_and!; [done..|lia|set_solver]. }
  apply H2 in Hok. destruct (FromMetadata _) as [t' e]. simpl in *. by subst.
Defined.
