(* ===== verification/Spend.v ===== *)
(** * [pkg/spend]: the spend ledger

    Spend-log rows, their totals and deduplication (rows.go), and the monthly
    budget window with its monotone rollover (window.go). Map results are
    [gmap]s; rows keep their order. *)

From S2P Require Import Prelude.
From S2P Require Import Float64.
From S2P Require Import GoTime.
From S2P Require Import GoStrings.
From S2P Require Import Atags.

(** ** The window (window.go) *)

Record Window := mkWindow { Start : Time; End_ : Time }.

Definition Contains (w : Window) (t : Time) : bool :=
  negb (Before t (Start w)) && Before t (End_ w).

Definition Window_Zero (w : Window) : bool := IsZero (Start w).

Definition MonthWindow (now : Time) : Window :=
  let '(y, m, _) := DateOf UTC now in
  let start := Date y m 1 0 0 0 0 UTC in
  mkWindow start (AddDate UTC start 0 1 0).

Definition Advance (prev : Window) (now : Time) : Window * bool :=
  let next := MonthWindow now in
  if Window_Zero prev then (next, true)
  else if Before now (End_ prev) then (prev, false)
  else if negb (After (Start next) (Start prev)) then (prev, false)
  else (next, true).

Definition SkewOK (local remote : Time) (max : Duration) : bool :=
  if IsZero remote then true
  else
    let d := Sub local remote in
    let d := if d <? 0 then wrap64 (- d) else d in
    d <=? max.

(** ** Rows and totals (rows.go) *)

Record Row := mkRow {
  CallID : string;
  RowTags : Tags;
  RowCostUSD : float64;
  PromptTokens : Z;
  CompletionTokens : Z;
  At : Time;
  Synthetic : bool;
}.

#[export] Instance Row_eq_dec : EqDecision Row.
Proof. solve_decision. Defined.

Record Totals := mkTotals {
  TotCostUSD : float64;
  TotSyntheticCostUSD : float64;
  TotPromptTokens : Z;
  TotCompletionTokens : Z;
  Calls : Z;
}.

(** [Totals{}]. *)
Definition Totals_zero : Totals := mkTotals fzero fzero 0 0 0.

Definition TotalTokens (t : Totals) : Z := wrap64 (TotPromptTokens t + TotCompletionTokens t).

Definition add (t : Totals) (r : Row) : Totals := {|
  TotCostUSD := if Synthetic r then TotCostUSD t else fadd (TotCostUSD t) (RowCostUSD r);
  TotSyntheticCostUSD :=
    if Synthetic r then fadd (TotSyntheticCostUSD t) (RowCostUSD r) else TotSyntheticCostUSD t;
  TotPromptTokens := wrap64 (TotPromptTokens t + PromptTokens r);
  TotCompletionTokens := wrap64 (TotCompletionTokens t + CompletionTokens r);
  Calls := wrap64 (Calls t + 1);
|}.

Definition sum_step (matches : Row → bool) (out : Totals) (r : Row) : Totals :=
  if matches r then add out r else out.

Definition Sum (rows : list Row) (matches : Row → bool) : Totals :=
  fold_left (sum_step matches) rows Totals_zero.

Definition ProjectTotals (rows : list Row) (w : Window) (project : string) : Totals :=
  Sum rows (λ r, String.eqb (Project (RowTags r)) project && Contains w (At r)).

Definition BeadTotals (rows : list Row) (project beadID : string) : Totals :=
  Sum rows (λ r, String.eqb (Project (RowTags r)) project && String.eqb (BeadID (RowTags r)) beadID).

Definition SessionTotals (rows : list Row) (sessionKey : string) : Totals :=
  Sum rows (λ r, String.eqb (SessionKey (RowTags r)) sessionKey).

Definition group_step (w : Window) (project : string) (key : Row → string)
    (out : gmap string Totals) (r : Row) : gmap string Totals :=
  if negb (String.eqb (Project (RowTags r)) project) || negb (Contains w (At r)) then out
  else <[ key r := add (default Totals_zero (out !! key r)) r ]> out.

Definition groupBy (rows : list Row) (w : Window) (project : string) (key : Row → string) :
    gmap string Totals :=
  fold_left (group_step w project key) rows ∅.

Definition ByRung (rows : list Row) (w : Window) (project : string) : gmap string Totals :=
  groupBy rows w project (λ r, Rung (RowTags r)).

Definition ByTrigger (rows : list Row) (w : Window) (project : string) : gmap string Totals :=
  groupBy rows w project (λ r, Trigger (RowTags r)).

Definition dedupe_step (s : gset string * list Row * Z) (r : Row) : gset string * list Row * Z :=
  let '(seen, out, dropped) := s in
  if decide (CallID r ∈ seen) then (seen, out, dropped + 1)
  else ({[ CallID r ]} ∪ seen, out ++ [r], dropped).

Definition Dedupe (rows : list Row) : list Row * Z :=
  let '(_, out, dropped) := fold_left dedupe_step rows (∅, [], 0) in (out, dropped).

(** ** The window: lemmas *)

Lemma Contains_iff w t : Contains w t = true ↔ Start w <= t < End_ w.
Proof. unfold Contains, Before. rewrite andb_true_iff, negb_true_iff, Z.ltb_ge, Z.ltb_lt. lia. Qed.

(** The calendar month of an instant, in UTC. *)
Definition month_of (t : Time) : Z * Z := let '(y, m, _) := DateOf UTC t in (y, m).

Lemma DateOf_UTC t : DateOf UTC t = civil_of_day (t / (24 * Hour)).
Proof. unfold DateOf. by rewrite local_ns_UTC. Qed.

Lemma MonthWindow_bounds now :
  let '(y, m) := month_of now in
  MonthWindow now = mkWindow (day_of_civil y m 1 * (24 * Hour)) (day_of_civil y (m + 1) 1 * (24 * Hour)).
Proof.
  unfold month_of, MonthWindow. destruct (DateOf UTC now) as [[y m] d] eqn:E.
  rewrite DateOf_UTC in E. pose proof (civil_of_day_range _ _ _ _ E) as (_ & Hm & _).
  rewrite Date_UTC. f_equal; [lia|]. unfold AddDate.
  assert (Hd : ∀ k, (k * (24 * Hour)) / (24 * Hour) = k) by (intros; by apply Z.div_mul).
  replace (day_of_civil y m 1 * (24 * Hour) + 0 * Hour + 0 * Minute + 0 * Second + 0)
    with (day_of_civil y m 1 * (24 * Hour)) by lia.
  rewrite DateOf_UTC, Hd, (civil_of_day_of_civil y m 1) by (lia || by apply month_has_day_one).
  rewrite Date_UTC.
  pose proof (clock_sum UTC (day_of_civil y m 1 * (24 * Hour))) as Hc.
  rewrite local_ns_UTC, Z.mod_mul in Hc by done.
  replace (y + 0) with y by lia. replace (1 + 0) with 1 by lia. lia.
Qed.

(** The number of the UTC month an instant falls in, months counted from year 0. *)
Definition month_number (t : Time) : Z := let '(y, m) := month_of t in 12 * y + (m - 1).

Lemma MonthWindow_number now :
  MonthWindow now = mkWindow (month_start (month_number now) * (24 * Hour))
                             (month_start (month_number now + 1) * (24 * Hour)).
Proof.
  pose proof (MonthWindow_bounds now) as H. unfold month_number.
  destruct (month_of now) as [y m]. rewrite H, !day_of_civil_month_start.
  f_equal. f_equal. f_equal. lia.
Qed.

Lemma day_ns_lt a t : a * (24 * Hour) <= t ↔ a <= t / (24 * Hour).
Proof.
  assert (0 < 24 * Hour) by done. split; intros H'.
  - apply Z.div_le_lower_bound; lia.
  - pose proof (Z.mul_div_le t (24 * Hour)). nia.
Qed.

Lemma month_number_bounds t :
  month_start (month_number t) <= t / (24 * Hour) < month_start (month_number t + 1).
Proof.
  unfold month_number, month_of. destruct (DateOf UTC t) as [[y m] d] eqn:E.
  rewrite DateOf_UTC in E. apply month_bounds in E. rewrite !day_of_civil_month_start in E.
  cbv beta iota.
  replace (12 * y + (m - 1) + 1) with (12 * y + (m + 1 - 1)) by lia. done.
Qed.

Lemma month_number_range t : let '(y, m) := month_of t in 1 <= m <= 12.
Proof.
  unfold month_of. destruct (DateOf UTC t) as [[y m] d] eqn:E. rewrite DateOf_UTC in E.
  apply civil_of_day_range in E. lia.
Qed.

Lemma month_number_inj t u : month_number t = month_number u → month_of t = month_of u.
Proof.
  pose proof (month_number_range t). pose proof (month_number_range u). unfold month_number.
  destruct (month_of t), (month_of u). intros. f_equal; lia.
Qed.

Lemma MonthWindow_contains_number now t :
  Contains (MonthWindow now) t = true ↔ month_number t = month_number now.
Proof.
  rewrite Contains_iff, MonthWindow_number. cbn [Start End_].
  pose proof (month_number_bounds t) as Ht.
  assert (∀ a, t < a * (24 * Hour) ↔ t / (24 * Hour) < a) as Hl
    by (intros a; pose proof (day_ns_lt a t); lia).
  rewrite day_ns_lt, Hl. split.
  - intros H. symmetry. by eapply month_start_unique.
  - by intros <-.
Qed.

Lemma MonthWindow_nonempty now : Start (MonthWindow now) < End_ (MonthWindow now).
Proof.
  rewrite MonthWindow_number. cbn [Start End_].
  pose proof (month_start_succ (month_number now)). assert (0 < 24 * Hour) by done. nia.
Qed.

Lemma MonthWindow_mono t u :
  End_ (MonthWindow t) <= u → End_ (MonthWindow t) <= Start (MonthWindow u).
Proof.
  rewrite (MonthWindow_number t), (MonthWindow_number u). cbn [Start End_]. rewrite day_ns_lt.
  pose proof (month_number_bounds u) as Hu. intros H. assert (0 < 24 * Hour) by done.
  assert (month_number t + 1 <= month_number u).
  { destruct (decide (month_number t + 1 <= month_number u)); [done|].
    pose proof (month_start_mono (month_number u + 1) (month_number t + 1)). lia. }
  pose proof (month_start_mono (month_number t + 1) (month_number u)). nia.
Qed.

(** The window in force is the UTC calendar month: it holds exactly the
    instants of the same year and month as [now]. *)
Theorem MonthWindow_is_month (now t : Time) :
  Contains (MonthWindow now) t = true ↔ month_of t = month_of now.
Proof.
  rewrite MonthWindow_contains_number. split; [apply month_number_inj|].
  unfold month_number. by intros ->.
Qed.

(** The windows a meter keeps, one clock reading after another. *)
Fixpoint run_clock (w : Window) (clock : list Time) : list Window :=
  match clock with
  | [] => [w]
  | t :: clock' => w :: run_clock (Advance w t).1 clock'
  end.

#[local] Arguments MonthWindow : simpl never.
#[local] Arguments Advance : simpl never.

Lemma Advance_cases t0 now :
  0 < Start (MonthWindow t0) →
  Advance (MonthWindow t0) now = (MonthWindow t0, false) ∨
  (Advance (MonthWindow t0) now = (MonthWindow now, true) ∧
   Contains (MonthWindow now) now = true ∧
   End_ (MonthWindow t0) <= Start (MonthWindow now)).
Proof.
  intros H0. unfold Advance, Window_Zero, IsZero.
  destruct (Z.eqb_spec (Start (MonthWindow t0)) 0); [lia|].
  destruct (Before now _) eqn:E; [by left|]. unfold Before in E. bool_hyps.
  pose proof (MonthWindow_mono _ _ E). pose proof (MonthWindow_nonempty t0).
  unfold After. destruct (Z.ltb_spec (Start (MonthWindow t0)) (Start (MonthWindow now))); [|lia].
  right. by rewrite MonthWindow_contains_number.
Qed.

Lemma run_clock_ordered t0 clock i w :
  0 < Start (MonthWindow t0) → run_clock (MonthWindow t0) clock !! i = Some w →
  (∃ t, w = MonthWindow t) ∧ (w = MonthWindow t0 ∨ End_ (MonthWindow t0) <= Start w).
Proof.
  revert t0 i. induction clock as [|t clock IH]; intros t0 i H0 Hi;
    cbn [run_clock] in Hi.
  - destruct i; [|done]. injection Hi as <-. eauto.
  - destruct i as [|i]; [injection Hi as <-; eauto|].
    destruct (Advance_cases t0 t H0) as [E|(E & _ & Hle)]; rewrite E in Hi; cbn in Hi.
    + by apply IH in Hi.
    + pose proof (MonthWindow_nonempty t0). pose proof (MonthWindow_nonempty t).
      apply IH in Hi as [? [->|?]]; [| |lia]; (split; [done|right]; lia).
Qed.

(** No clock, however it jumps, hands out a second budget: over any
    sequence of clock readings, of two windows kept in force at different
    times the later is the same window or starts at or after the earlier one's
    end. *)
Theorem windows_never_reopen (t0 : Time) (clock : list Time) (i j : nat) (w w' : Window)
    (H0 : 0 < Start (MonthWindow t0)) (Hij : (i <= j)%nat)
    (Hi : run_clock (MonthWindow t0) clock !! i = Some w)
    (Hj : run_clock (MonthWindow t0) clock !! j = Some w') :
  w' = w ∨ End_ w <= Start w'.
Proof.
  revert t0 i j H0 Hij Hi Hj. induction clock as [|t clock IH]; intros t0 i j H0 Hij Hi Hj.
  - destruct i; [|done]. destruct j; [|done]. left. congruence.
  - destruct i as [|i].
    + destruct (run_clock_ordered _ _ _ _ H0 Hj) as [_ Ho]. by injection Hi as <-.
    + destruct j as [|j]; [lia|]. cbn [run_clock] in Hi, Hj.
      pose proof (MonthWindow_nonempty t0).
      destruct (Advance_cases t0 t H0) as [E|(E & _ & Hle)]; rewrite E in Hi, Hj; cbn in Hi, Hj;
        (eapply (IH _ i j); [|lia|done|done]; lia).
Qed.

Lemma windows_never_reopen_witness :
  let aug := Date 2026 8 15 0 0 0 0 UTC in
  let sep := Date 2026 9 1 0 0 0 0 UTC in
  let jul := Date 2026 7 30 0 0 0 0 UTC in
  run_clock (MonthWindow aug) [sep; jul] =
    [MonthWindow aug; MonthWindow sep; MonthWindow sep] ∧
  (MonthWindow sep = MonthWindow aug ∨ End_ (MonthWindow aug) <= Start (MonthWindow sep)).
Proof.
  intros aug sep jul. split; [vm_compute; reflexivity|].
  apply (windows_never_reopen aug [sep; jul] 0 2); [vm_compute; reflexivity|lia| |];
    vm_compute; reflexivity.
Defined.

(** [SkewOK] trusts the clock exactly when the source sent no time or the
    two clocks differ by at most [max], except that a clock behind by the most
    negative duration or more passes too: its negation is itself. *)
Theorem SkewOK_exact (local remote : Time) (max : Duration) (H : 0 <= max < MaxInt64) :
  SkewOK local remote max = true ↔
    remote = 0 ∨ Z.abs (local - remote) <= max ∨ local - remote <= MinInt64.
Proof.
  unfold SkewOK, IsZero. destruct (Z.eqb_spec remote 0) as [->|Hr]; [naive_solver|].
  unfold Sub. set (d := local - remote).
  destruct (Z.ltb_spec (Z.max MinInt64 (Z.min MaxInt64 d)) 0) as [Hd|Hd].
  - destruct (decide (d <= MinInt64)) as [Hm|Hm].
    + rewrite (Z.max_l MinInt64) by (unfold MinInt64, MaxInt64 in *; lia).
      change (wrap64 (- MinInt64)) with MinInt64. rewrite Z.leb_le.
      unfold MinInt64, MaxInt64 in *. lia.
    + rewrite wrap64_id; [rewrite Z.leb_le|]; unfold int64, MinInt64, MaxInt64 in *; lia.
  - rewrite Z.leb_le. unfold MinInt64, MaxInt64 in *. lia.
Qed.

Lemma SkewOK_exact_witness :
  let now := Date 2026 8 1 0 0 0 0 UTC in
  SkewOK (now - 2 * Minute) now (5 * Minute) = true ∧ SkewOK 0 now (5 * Minute) = true.
Proof.
  intros now.
  assert (Hm : 0 <= 5 * Minute < MaxInt64) by (unfold MaxInt64; vm_compute; split; [discriminate|reflexivity]).
  split; apply SkewOK_exact; try exact Hm.
  - right. left. vm_compute. discriminate.
  - right. right. vm_compute. discriminate.
Defined.

(** ** Totals: lemmas *)

Lemma Sum_snoc rows r matches :
  Sum (rows ++ [r]) matches = if matches r then add (Sum rows matches) r else Sum rows matches.
Proof. unfold Sum. by rewrite fold_left_app. Qed.

Lemma groupBy_snoc rows r w project key :
  groupBy (rows ++ [r]) w project key = group_step w project key (groupBy rows w project key) r.
Proof. unfold groupBy. by rewrite fold_left_app. Qed.

(** The rows one group of [groupBy] adds up. *)
Definition in_group (w : Window) (project : string) (key : Row → string) (k : string) (r : Row) : bool :=
  (String.eqb (Project (RowTags r)) project && Contains w (At r)) && String.eqb (key r) k.

Lemma Sum_no_match rows matches : existsb matches rows = false → Sum rows matches = Totals_zero.
Proof.
  induction rows as [|r rows IH] using rev_ind; [done|].
  rewrite existsb_app, Sum_snoc. simpl. rewrite orb_false_r. intros [? ->]%orb_false_elim. auto.
Qed.

Lemma groupBy_lookup rows w project key k :
  groupBy rows w project key !! k =
    if existsb (in_group w project key k) rows
    then Some (Sum rows (in_group w project key k)) else None.
Proof.
  induction rows as [|r rows IH] using rev_ind; [done|].
  rewrite groupBy_snoc, existsb_app, Sum_snoc. simpl. rewrite orb_false_r.
  assert (Hg : in_group w project key k r =
    String.eqb (Project (RowTags r)) project && Contains w (At r) && String.eqb (key r) k) by done.
  rewrite Hg. clear Hg. unfold group_step.
  destruct (String.eqb (Project (RowTags r)) project), (Contains w (At r)); cbn [andb orb negb];
    [|by rewrite orb_false_r..].
  destruct (String.eqb_spec (key r) k) as [->|Hne].
  - rewrite lookup_insert_eq, orb_true_r. f_equal. f_equal. rewrite IH.
    destruct (existsb _ rows) eqn:E; [done|]. simpl. by rewrite Sum_no_match.
  - rewrite lookup_insert_ne by done. by rewrite orb_false_r.
Qed.

(** The per-rung and per-trigger breakdowns are exact: a key is listed
    when, and only when, some row of the project's window carries it, and its
    totals are the sum of precisely those rows, so every row counts once. *)
Theorem breakdown_exact (rows : list Row) (w : Window) (project k : string) :
  (ByRung rows w project !! k =
     if existsb (in_group w project (λ r, Rung (RowTags r)) k) rows
     then Some (Sum rows (in_group w project (λ r, Rung (RowTags r)) k)) else None) ∧
  (ByTrigger rows w project !! k =
     if existsb (in_group w project (λ r, Trigger (RowTags r)) k) rows
     then Some (Sum rows (in_group w project (λ r, Trigger (RowTags r)) k)) else None).
Proof. split; apply groupBy_lookup. Qed.

(** What a total says of the rows that match: tokens and calls are their sums
    as long as those stay in range. *)
Definition zsum (l : list Z) : Z := foldr Z.add 0 l.

Lemma zsum_app l l' : zsum (l ++ l') = zsum l + zsum l'.
Proof. induction l as [|x l IH]; simpl; lia. Qed.

Lemma zsum_nonneg l : Forall (Z.le 0) l → 0 <= zsum l.
Proof. induction 1; simpl; lia. Qed.

Lemma Sum_tokens rows matches :
  let l := filter (λ r, matches r = true) rows in
  Forall (λ r, 0 <= PromptTokens r ∧ 0 <= CompletionTokens r) l →
  zsum (PromptTokens <$> l) + zsum (CompletionTokens <$> l) <= MaxInt64 →
  TotPromptTokens (Sum rows matches) = zsum (PromptTokens <$> l) ∧
  TotCompletionTokens (Sum rows matches) = zsum (CompletionTokens <$> l).
Proof.
  cbv zeta. induction rows as [|r rows IH] using rev_ind; [done|].
  rewrite filter_app, Sum_snoc, Forall_app, !fmap_app, !zsum_app.
  intros [Hf Hr] Hle.
  assert (0 <= zsum (PromptTokens <$> filter (λ r, matches r = true) rows)).
  { apply zsum_nonneg, Forall_fmap. eapply Forall_impl; [done|]. simpl. lia. }
  assert (0 <= zsum (CompletionTokens <$> filter (λ r, matches r = true) rows)).
  { apply zsum_nonneg, Forall_fmap. eapply Forall_impl; [done|]. simpl. lia. }
  destruct (matches r) eqn:E.
  - rewrite filter_cons_True, filter_nil in * by done. simpl in *.
    apply Forall_cons in Hr as [[? ?] _]. destruct IH as [IH1 IH2]; [done|lia|].
    rewrite IH1, IH2, !wrap64_id by (unfold int64, MinInt64, MaxInt64 in *; lia). lia.
  - rewrite filter_cons_False, filter_nil in * by congruence. simpl in *.
    destruct IH as [IH1 IH2]; [done|lia|]. lia.
Qed.

Lemma Sum_cost rows matches :
  TotCostUSD (Sum rows matches) =
    foldl fadd fzero (RowCostUSD <$> filter (λ r, matches r && negb (Synthetic r) = true) rows) ∧
  TotSyntheticCostUSD (Sum rows matches) =
    foldl fadd fzero (RowCostUSD <$> filter (λ r, matches r && Synthetic r = true) rows).
Proof.
  induction rows as [|r rows [IH1 IH2]] using rev_ind; [done|].
  rewrite !filter_app, Sum_snoc, !fmap_app, !foldl_app, <- IH1, <- IH2.
  destruct (matches r) eqn:E1, (Synthetic r) eqn:E2;
    rewrite ?filter_cons_True, ?filter_cons_False by (rewrite ?E1, ?E2; done); simpl;
    rewrite ?filter_cons_True, ?filter_cons_False by (rewrite ?E1, ?E2; done);
    rewrite ?E2; done.
Qed.

(** The three ledgers never mix and never lose a token: the real total
    of a project's month adds up the dollars of its real rows and no others,
    the synthetic total those of its synthetic rows, and, for counts that are
    not negative and stay in the int64 range, the tokens are the sum over the
    month's rows of the project. *)
Theorem project_totals_exact (rows : list Row) (w : Window) (project : string)
    (mine := filter (λ r, Project (RowTags r) = project ∧ Start w <= At r < End_ w) rows)
    (Hpos : Forall (λ r, 0 <= PromptTokens r ∧ 0 <= CompletionTokens r) mine)
    (Hmax : zsum (PromptTokens <$> mine) + zsum (CompletionTokens <$> mine) <= MaxInt64) :
  TotCostUSD (ProjectTotals rows w project) =
    foldl fadd fzero (RowCostUSD <$> filter (λ r, Synthetic r = false) mine) ∧
  TotSyntheticCostUSD (ProjectTotals rows w project) =
    foldl fadd fzero (RowCostUSD <$> filter (λ r, Synthetic r = true) mine) ∧
  TotalTokens (ProjectTotals rows w project) =
    zsum (PromptTokens <$> mine) + zsum (CompletionTokens <$> mine).
Proof.
  set (m := λ r, String.eqb (Project (RowTags r)) project && Contains w (At r)).
  assert (Hm : ∀ r, m r = true ↔ Project (RowTags r) = project ∧ Start w <= At r < End_ w).
  { intros r. unfold m. by rewrite andb_true_iff, String.eqb_eq, Contains_iff. }
  assert (Hmine : filter (λ r, m r = true) rows = mine) by (by apply list_filter_iff).
  pose proof (Sum_cost rows m) as [Hc Hs]. pose proof (Sum_tokens rows m) as Ht.
  cbv zeta in Ht. rewrite Hmine in Ht. destruct (Ht Hpos Hmax) as [Hp Hq].
  unfold ProjectTotals. fold m. rewrite Hc, Hs. split_and!.
  - f_equal. f_equal. unfold mine. rewrite list_filter_filter. apply list_filter_iff.
    intros r. rewrite andb_true_iff, negb_true_iff, Hm. tauto.
  - f_equal. f_equal. unfold mine. rewrite list_filter_filter. apply list_filter_iff.
    intros r. rewrite andb_true_iff, Hm. tauto.
  - unfold TotalTokens. rewrite Hp, Hq. apply wrap64_id.
    assert (0 <= zsum (PromptTokens <$> mine)).
    { apply zsum_nonneg, Forall_fmap. eapply Forall_impl; [exact Hpos|]. simpl. lia. }
    assert (0 <= zsum (CompletionTokens <$> mine)).
    { apply zsum_nonneg, Forall_fmap. eapply Forall_impl; [exact Hpos|]. simpl. lia. }
    unfold int64, MinInt64, MaxInt64 in *. lia.
Qed.

Lemma project_totals_exact_witness :
  let tags p := mkTags p "r" "b" "s" "cloud" 1 "scaffold" in
  let rows := [mkRow "a" (tags "p") (float_of_Z 2) 10 5 20 false;
               mkRow "b" (tags "p") (float_of_Z 9) 7 1 21 true;
               mkRow "c" (tags "q") (float_of_Z 4) 3 3 22 false] in
  TotCostUSD (ProjectTotals rows (mkWindow 0 100) "p") = float_of_Z 2 ∧
  TotalTokens (ProjectTotals rows (mkWindow 0 100) "p") = 23.
Proof.
  intros tags rows.
  destruct (project_totals_exact rows (mkWindow 0 100) "p") as (H1 & _ & H3).
  - vm_compute. repeat constructor; discriminate.
  - vm_compute. discriminate.
  - rewrite H1, H3. vm_compute. split; reflexivity.
Defined.

(** ** Deduplication: lemmas *)

Lemma Dedupe_fold rows :
  ∃ seen, fold_left dedupe_step rows (∅, [], 0) = (seen, (Dedupe rows).1, (Dedupe rows).2) ∧
    seen = list_to_set (CallID <$> rows).
Proof.
  unfold Dedupe. induction rows as [|r rows (seen & IH & Hs)] using rev_ind; [by eexists|].
  rewrite fold_left_app. destruct (fold_left _ rows _) as [[seen' out] n]. simplify_eq/=.
  rewrite fmap_app, list_to_set_app_L. simpl. rewrite (right_id_L ∅ (∪)).
  case_decide; (eexists; split; [done|]); set_solver.
Qed.

Lemma Dedupe_snoc rows r :
  Dedupe (rows ++ [r]) =
    if decide (CallID r ∈ CallID <$> rows) then ((Dedupe rows).1, (Dedupe rows).2 + 1)
    else ((Dedupe rows).1 ++ [r], (Dedupe rows).2).
Proof.
  destruct (Dedupe_fold rows) as (seen & Hf & Hs).
  unfold Dedupe at 1. rewrite fold_left_app, Hf. simpl.
  destruct (decide (CallID r ∈ seen)), (decide (CallID r ∈ CallID <$> rows)); try done; set_solver.
Qed.

Lemma Dedupe_ids rows id : id ∈ CallID <$> (Dedupe rows).1 ↔ id ∈ CallID <$> rows.
Proof.
  induction rows as [|r rows IH] using rev_ind; [done|].
  rewrite Dedupe_snoc, fmap_app. case_decide; simpl; rewrite ?fmap_app; set_solver.
Qed.

Lemma Dedupe_NoDup rows : NoDup (CallID <$> (Dedupe rows).1).
Proof.
  induction rows as [|r rows IH] using rev_ind; [constructor|]. rewrite Dedupe_snoc.
  case_decide as Hd; simpl; [done|]. rewrite fmap_app. apply NoDup_app. split_and!; [done| |].
  - intros id. rewrite Dedupe_ids. intros Hid. simpl. rewrite list_elem_of_singleton. by intros ->.
  - apply NoDup_singleton.
Qed.

Lemma Dedupe_app_known rows more :
  (∀ r, r ∈ more → CallID r ∈ CallID <$> rows) → (Dedupe (rows ++ more)).1 = (Dedupe rows).1.
Proof.
  induction more as [|r more IH] using rev_ind; intros Hm; [by rewrite app_nil_r|].
  rewrite app_assoc, Dedupe_snoc, decide_True; [|].
  - simpl. apply IH. set_solver.
  - rewrite fmap_app. set_solver.
Qed.

(** The row of a call: the first that carries its id. *)
Definition first_row (id : string) (rows : list Row) : option Row :=
  List.find (λ r, String.eqb (CallID r) id) rows.

Lemma first_row_snoc id rows r :
  first_row id (rows ++ [r]) =
    match first_row id rows with
    | Some x => Some x
    | None => if decide (CallID r = id) then Some r else None
    end.
Proof.
  unfold first_row. induction rows as [|x rows IH]; simpl.
  2: { by destruct (String.eqb _ _). }
  destruct (String.eqb_spec (CallID r) id); by case_decide.
Qed.

Lemma first_row_None id rows : first_row id rows = None ↔ id ∉ CallID <$> rows.
Proof.
  unfold first_row. induction rows as [|x rows IH]; simpl; [set_solver|].
  destruct (String.eqb_spec (CallID x) id); set_solver.
Qed.

(** Every model call is counted once: after [Dedupe] no call id repeats,
    every id read is kept with the row first read for it, the kept rows stay in
    order, the count of dropped rows is exact, and reading again any rows whose
    ids are known changes nothing. *)
Theorem Dedupe_once (rows : list Row) :
  NoDup (CallID <$> (Dedupe rows).1) ∧
  (Dedupe rows).1 `sublist_of` rows ∧
  (∀ id, first_row id (Dedupe rows).1 = first_row id rows) ∧
  Z.of_nat (length (Dedupe rows).1) + (Dedupe rows).2 = Z.of_nat (length rows) ∧
  (∀ more, (∀ r, r ∈ more → CallID r ∈ CallID <$> rows) →
     (Dedupe (rows ++ more)).1 = (Dedupe rows).1).
Proof.
  split_and!; [apply Dedupe_NoDup| | | |apply Dedupe_app_known]; induction rows as [|r rows IH] using rev_ind;
    try done; rewrite ?Dedupe_snoc; try (by constructor).
  - case_decide; simpl; [by apply sublist_inserts_r|]. by apply sublist_app.
  - intros id. rewrite first_row_snoc, <- IH. case_decide as Hd; simpl.
    + destruct (first_row id _) eqn:E; [done|]. destruct (decide (CallID r = id)) as [<-|]; [|done].
      by apply first_row_None in E; rewrite Dedupe_ids in E.
    + apply first_row_snoc.
  - case_decide; simpl; rewrite ?length_app; simpl; rewrite ?length_app in *; lia.
Qed.
