(* ===== verification/RungOutcome.v ===== *)
(** * [pkg/rung/outcome.go]: outcomes, histories and quiet hours

    How an attempt ended, the two counts a history is read for, and the quiet
    window with its wall-clock arithmetic. *)

From Stdlib Require Import Ascii.
From S2P Require Import Prelude.
From S2P Require Import GoTime.
From S2P Require Import GoStrings.
From S2P Require Import GoPath.

(** ** Outcomes and histories *)

Abbreviation Outcome := string (only parsing).
Definition OutcomeSuccess : Outcome := "success".
Definition OutcomeGateFailed : Outcome := "gate-failed".
Definition OutcomeInfraFailed : Outcome := "infra-failed".
Definition OutcomeAborted : Outcome := "aborted".

Definition Outcome_Valid (o : Outcome) : bool :=
  String.eqb o OutcomeSuccess || String.eqb o OutcomeGateFailed
  || String.eqb o OutcomeInfraFailed || String.eqb o OutcomeAborted.

Definition Escalates (o : Outcome) : bool := String.eqb o OutcomeGateFailed.

Record Attempt := mkAttempt {
  a_Attempt : Z;
  a_Rung : string;
  a_Outcome : Outcome;
}.

Definition Escalations (prior : list Attempt) : Z :=
  fold_left (λ n a, if Escalates (a_Outcome a) then n + 1 else n) prior 0.

(** The loop from the end of the history: [rev_prior] is the history newest
    first. *)
Fixpoint infra_streak (rev_prior : list Attempt) (at_ : string) (n : Z) : Z :=
  match rev_prior with
  | [] => n
  | a :: rest =>
      if String.eqb (a_Outcome a) OutcomeInfraFailed && String.eqb (a_Rung a) at_
      then infra_streak rest at_ (n + 1) else n
  end.

Definition ConsecutiveInfraFailures (prior : list Attempt) (at_ : string) : Z :=
  infra_streak (rev prior) at_ 0.

(** ** Quiet hours *)

Record QuietHours := mkQuietHours {
  q_Start : Duration;
  q_End : Duration;
  q_Loc : Location;
}.

(** The byte length of the white-space rune at the head of a string, by
    [fmt]'s own table; 0 when there is none. *)
Definition space_rune_len (s : string) : nat :=
  match s with
  | String c s' =>
      if is_space c then 1%nat
      else match byte_val c, byte_val <$> String.get 0 s', byte_val <$> String.get 1 s' with
           | 194, Some b, _ => if (b =? 133) || (b =? 160) then 2%nat else 0%nat
           | 225, Some 154, Some 128 => 3%nat
           | 226, Some 128, Some b =>
               if ((128 <=? b) && (b <=? 138)) || (b =? 168) || (b =? 169) || (b =? 175) then 3%nat else 0%nat
           | 226, Some 129, Some 159 => 3%nat
           | 227, Some 128, Some 128 => 3%nat
           | _, _, _ => 0%nat
           end
  | EmptyString => 0%nat
  end.

(** [SkipSpace] under [Sscanf]: a newline is an error. The fuel is the length
    of the input, of which every step takes at least one byte. *)
Fixpoint SkipSpace (fuel : nat) (s : string) : option string :=
  match fuel, s with
  | S fuel', String c s' =>
      if byte_val c =? 10 then None
      else match space_rune_len s with
           | O => Some s
           | n => SkipSpace fuel' (string_drop n s)
           end
  | _, _ => Some s
  end.

(** [%2d]: leading space, then an optional sign and at least one digit, two
    runes at most. *)
Definition scan_2d (s : string) : option (Z * string) :=
  s ← SkipSpace (String.length s) s;
  let digit c := byte_val c - 48 in
  match s with
  | String a (String b s') =>
      if Ascii.eqb a "+"%char || Ascii.eqb a "-"%char then
        if is_digit b then Some ((if Ascii.eqb a "-"%char then - digit b else digit b), s') else None
      else if is_digit a then
        if is_digit b then Some (10 * digit a + digit b, s') else Some (digit a, String b s')
      else None
  | String a EmptyString => if is_digit a then Some (digit a, EmptyString) else None
  | EmptyString => None
  end.

Definition scan_literal (c : ascii) (s : string) : option string :=
  match s with
  | String d s' => if Ascii.eqb c d then Some s' else None
  | EmptyString => None
  end.

(** [fmt.Sscanf(window, "%2d:%2d-%2d:%2d", ...)]; input past the last field is
    not looked at. *)
Definition scan_window (window : string) : option (Z * Z * Z * Z) :=
  '(sh, s) ← scan_2d window;
  s ← scan_literal ":" s;
  '(sm, s) ← scan_2d s;
  s ← scan_literal "-" s;
  '(eh, s) ← scan_2d s;
  s ← scan_literal ":" s;
  '(em, _) ← scan_2d s;
  Some (sh, sm, eh, em).

Inductive quiet_error :=
| NoTimezone (window : string)
| BadTimezone (timezone : string)
| BadWindow (window : string)
| ZeroLength (window : string).

Section quiet.
(** [time.LoadLocation] reads the host's zone database. *)
Variable LoadLocation : string → option Location.

Definition ParseQuietHours (window timezone : string) : result quiet_error (option QuietHours) :=
  if String.eqb window "" then Ok None
  else if String.eqb timezone "" then Err (NoTimezone window)
  else match LoadLocation timezone with
  | None => Err (BadTimezone timezone)
  | Some loc =>
      match scan_window window with
      | None => Err (BadWindow window)
      | Some (sh, sm, eh, em) =>
          let q := mkQuietHours (sh * Hour + sm * Minute) (eh * Hour + em * Minute) loc in
          if q_Start q =? q_End q then Err (ZeroLength window) else Ok (Some q)
      end
  end.
End quiet.

(** Go's integer division truncates. *)
Definition wallClockOffset (loc : Location) (t : Time) : Duration :=
  HourOf loc t * Hour + MinuteOf loc t * Minute + SecondOf loc t * Second + NanosecondOf loc t.

Definition wallClockOn (base : Time) (days : Z) (since : Duration) (loc : Location) : Time :=
  let '(y, mo, day) := DateOf loc (AddDate loc base 0 0 days) in
  let h := Z.quot since Hour in
  let m := Z.quot (Z.rem since Hour) Minute in
  let s := Z.quot (Z.rem since Minute) Second in
  let ns := Z.rem since Second in
  let want := Date y mo day h m s ns loc in
  let gh := HourOf loc want in
  let gm := MinuteOf loc want in
  let gs := SecondOf loc want in
  if negb (gh =? h) || negb (gm =? m) || negb (gs =? s) then
    let wanted := h * Hour + m * Minute + s * Second in
    let got := gh * Hour + gm * Minute + gs * Second in
    Add want (wanted - got)
  else want.

Definition EndAfter (q : QuietHours) (now : Time) : Time * bool :=
  let since := wallClockOffset (q_Loc q) now in
  let inWindow :=
    if q_Start q <? q_End q then (q_Start q <=? since) && (since <? q_End q)
    else (q_Start q <=? since) || (since <? q_End q) in
  if negb inWindow then (Time_zero, false)
  else
    let days := if q_End q <=? since then 1 else 0 in
    (wallClockOn now days (q_End q) (q_Loc q), true).

(** ** Lemmas on histories *)

Lemma Escalations_acc prior n :
  fold_left (λ n a, if Escalates (a_Outcome a) then n + 1 else n) prior n = n + Escalations prior.
Proof.
  unfold Escalations. revert n. induction prior as [|a l IH]; intros n; simpl; [lia|].
  rewrite IH, (IH (if Escalates _ then _ else _)). case_match; lia.
Qed.

Lemma Escalations_snoc prior a :
  Escalations (prior ++ [a]) = Escalations prior + (if Escalates (a_Outcome a) then 1 else 0).
Proof. unfold Escalations. rewrite fold_left_app. simpl. case_match; lia. Qed.

Lemma Escalations_nonneg prior : 0 <= Escalations prior.
Proof.
  induction prior as [|a l IH] using rev_ind; [done|]. rewrite Escalations_snoc. case_match; lia.
Qed.

Lemma infra_streak_acc l at_ n : infra_streak l at_ n = n + infra_streak l at_ 0.
Proof.
  revert n. induction l as [|a l IH]; intros n; simpl; [lia|].
  case_match; [|lia]. rewrite IH, (IH (0 + 1)). lia.
Qed.

Lemma ConsecutiveInfraFailures_snoc prior a at_ :
  ConsecutiveInfraFailures (prior ++ [a]) at_ =
    if String.eqb (a_Outcome a) OutcomeInfraFailed && String.eqb (a_Rung a) at_
    then ConsecutiveInfraFailures prior at_ + 1 else 0.
Proof.
  unfold ConsecutiveInfraFailures. rewrite rev_app_distr. simpl.
  case_match; [|done]. rewrite infra_streak_acc. lia.
Qed.

Lemma ConsecutiveInfraFailures_nonneg prior at_ : 0 <= ConsecutiveInfraFailures prior at_.
Proof.
  induction prior as [|a l IH] using rev_ind; [done|].
  rewrite ConsecutiveInfraFailures_snoc. case_match; lia.
Qed.

(** ** Wall clocks in a zone with one offset *)

Definition Day : Duration := 24 * Hour.

Lemma wallClockOffset_mod loc t : wallClockOffset loc t = local_ns loc t mod Day.
Proof. apply clock_sum. Qed.

(** Splitting a reading into fields and putting it together again. *)
Lemma fields_sum since :
  0 <= since → since / Hour * Hour + since mod Hour / Minute * Minute
    + since mod Minute / Second * Second + since mod Second = since.
Proof. unfold Hour, Minute, Second. intros. div_lia. Qed.

Lemma fields_of_reading n since :
  0 <= since < Day →
  let w := n * Day + since in
  w mod Day / Hour = since / Hour ∧ w mod Hour / Minute = since mod Hour / Minute ∧
  w mod Minute / Second = since mod Minute / Second.
Proof.
  intros H w. unfold w.
  assert (∀ b c, n * (c * b) + since = since + (n * c) * b) as Hs by (intros; lia).
  split; [|split].
  - rewrite Z.add_comm, Z.mod_add, Z.mod_small by done. done.
  - unfold Day. rewrite Hs, Z.mod_add by done. done.
  - unfold Day. change (24 * Hour) with ((24 * 60) * Minute). rewrite Hs, Z.mod_add by done. done.
Qed.

Lemma wallClockOn_fixed off base days since :
  0 <= since < Day →
  wallClockOn base days since (FixedZone off) =
    ((base + off * Second) / Day + days) * Day + since - off * Second.
Proof.
  intros Hs. unfold wallClockOn. rewrite AddDate_days_fixed.
  destruct (DateOf _ _) as [[y mo] day] eqn:E. unfold DateOf in E. apply day_of_civil_of_day in E.
  rewrite local_ns_fixed in E.
  replace (base + days * (24 * Hour) + off * Second) with (base + off * Second + days * Day) in E
    by (unfold Day; lia).
  change (24 * Hour) with Day in E. rewrite Z.div_add in E by done.
  rewrite !Z.quot_div_nonneg, !Z.rem_mod_nonneg by
    (done || lia || (apply Z.rem_nonneg; [done|lia])).
  rewrite Date_fixed, E. change (24 * Hour) with Day.
  set (n := (base + off * Second) / Day + days).
  pose proof (fields_sum since ltac:(lia)) as Hf.
  replace (n * Day + since / Hour * Hour + since mod Hour / Minute * Minute
    + since mod Minute / Second * Second + since mod Second - off * Second)
    with (n * Day + since - off * Second) by lia.
  unfold HourOf, MinuteOf, SecondOf. rewrite local_ns_fixed. change (24 * Hour) with Day.
  replace (n * Day + since - off * Second + off * Second) with (n * Day + since) by lia.
  destruct (fields_of_reading n since Hs) as (-> & -> & ->). by rewrite !Z.eqb_refl.
Qed.

(** A window as the configuration schemas admit it. *)
Definition quiet_ok (q : QuietHours) : Prop :=
  0 <= q_Start q < Day ∧ 0 <= q_End q < Day ∧ q_Start q ≠ q_End q.

(** The instants at which the window is in force. *)
Definition quiet (q : QuietHours) (t : Time) : Prop :=
  let since := local_ns (q_Loc q) t mod Day in
  if q_Start q <? q_End q then q_Start q <= since < q_End q
  else q_Start q <= since ∨ since < q_End q.

Lemma EndAfter_quiet q now : (EndAfter q now).2 = true ↔ quiet q now.
Proof.
  unfold EndAfter, quiet. rewrite wallClockOffset_mod. cbv zeta.
  set (since := local_ns _ _ mod Day).
  destruct (q_Start q <? q_End q); destruct (Z.leb_spec (q_Start q) since), (Z.ltb_spec since (q_End q));
    simpl; split; (lia || done).
Qed.

(** The reading [k] nanoseconds later, when no midnight lies between, and when
    one does. *)
Lemma reading_later L k :
  0 <= k → k < Day → (L + k) mod Day =
    if L mod Day + k <? Day then L mod Day + k else L mod Day + k - Day.
Proof.
  intros Hk0 Hk. pose proof (Z.mod_pos_bound L Day ltac:(done)).
  rewrite <- Z.add_mod_idemp_l by done. destruct (Z.ltb_spec (L mod Day + k) Day).
  - by apply Z.mod_small; lia.
  - rewrite <- (Z.mod_add _ (-1)) by done. apply Z.mod_small. lia.
Qed.

Lemma EndAfter_fixed q off now :
  q_Loc q = FixedZone off → quiet_ok q → quiet q now →
  let since := (now + off * Second) mod Day in
  (EndAfter q now).1 = now + (q_End q - since + if q_End q <=? since then Day else 0).
Proof.
  intros Hl (Hs & He & Hne) Hq since. apply EndAfter_quiet in Hq as Hq'.
  unfold EndAfter in *. rewrite Hl, wallClockOffset_mod, local_ns_fixed in *. fold since in Hq' |- *.
  cbv zeta in *. destruct (negb _) in Hq' |- *; [done|]. simpl.
  rewrite wallClockOn_fixed by done.
  assert (now + off * Second = Day * ((now + off * Second) / Day) + since)
    by (apply Z.div_mod; done).
  case_match; lia.
Qed.

Lemma EndAfter_eq q t : EndAfter q t = ((EndAfter q t).1, (EndAfter q t).2).
Proof. by destruct (EndAfter q t). Qed.

Lemma EndAfter_not_quiet q t : ¬ quiet q t → EndAfter q t = (Time_zero, false).
Proof.
  rewrite <- EndAfter_quiet. unfold EndAfter. cbv zeta. by destruct (negb _).
Qed.

(** Inside the window the reading moves towards the end, which it has not
    passed. *)
Lemma quiet_between q off now t :
  q_Loc q = FixedZone off → quiet_ok q → quiet q now →
  now <= t < (EndAfter q now).1 → quiet q t ∧ (EndAfter q t).1 = (EndAfter q now).1.
Proof.
  intros Hl Hok Hq Ht. pose proof (EndAfter_fixed q off now Hl Hok Hq) as He. cbv zeta in He.
  rewrite He in Ht. destruct Hok as (Hs & Hn & Hne) eqn:Eok. clear Eok.
  unfold quiet in Hq. rewrite Hl, local_ns_fixed in Hq. cbv zeta in Hq.
  set (L := now + off * Second) in *. pose proof (Z.mod_pos_bound L Day ltac:(done)) as HL.
  assert (Hd : q_End q - L mod Day + (if q_End q <=? L mod Day then Day else 0) < Day).
  { destruct (Z.leb_spec (q_End q) (L mod Day)), (Z.ltb_spec (q_Start q) (q_End q)); lia. }
  assert (Hr : (t + off * Second) mod Day =
    if L mod Day + (t - now) <? Day then L mod Day + (t - now) else L mod Day + (t - now) - Day).
  { rewrite <- reading_later by lia. f_equal. unfold L. lia. }
  assert (Hqt : quiet q t).
  { unfold quiet. rewrite Hl, local_ns_fixed, Hr. cbv zeta.
    destruct (Z.ltb_spec (q_Start q) (q_End q)), (Z.ltb_spec (L mod Day + (t - now)) Day),
      (Z.leb_spec (q_End q) (L mod Day)); lia. }
  split; [done|]. rewrite He, (EndAfter_fixed q off t) by done. cbv zeta. rewrite Hr.
  destruct (Z.ltb_spec (q_Start q) (q_End q)), (Z.ltb_spec (L mod Day + (t - now)) Day),
    (Z.leb_spec (q_End q) (L mod Day)); case_match; bool_hyps; lia.
Qed.

Lemma quiet_over q off now :
  q_Loc q = FixedZone off → quiet_ok q → quiet q now →
  now < (EndAfter q now).1 < now + Day ∧ ¬ quiet q (EndAfter q now).1.
Proof.
  intros Hl Hok Hq. rewrite (EndAfter_fixed q off now) by done. cbv zeta.
  destruct Hok as (Hs & Hn & Hne). unfold quiet in *. rewrite Hl, !local_ns_fixed in *. cbv zeta in *.
  set (L := now + off * Second) in *. pose proof (Z.mod_pos_bound L Day ltac:(done)) as HL.
  set (d := q_End q - L mod Day + _).
  assert (Hd : 0 < d < Day).
  { unfold d. destruct (Z.leb_spec (q_End q) (L mod Day)), (Z.ltb_spec (q_Start q) (q_End q)); lia. }
  split; [lia|]. replace (now + d + off * Second) with (L + d) by (unfold L; lia).
  rewrite reading_later by lia. unfold d.
  destruct (Z.leb_spec (q_End q) (L mod Day)), (Z.ltb_spec (q_Start q) (q_End q)); case_match; bool_hyps; lia.
Qed.

(** A quiet window ends when its wall clock says so: in a zone with one offset
    the answer is a later instant, less than a day away, at which the window is
    over, and every instant before it is quiet and is given the same end; an
    instant outside the window is not quiet. *)
Theorem quiet_until_end (q : QuietHours) (off : Z) (now : Time)
    (Hl : q_Loc q = FixedZone off) (Hok : quiet_ok q) :
  match EndAfter q now with
  | (e, true) =>
      now < e < now + Day ∧ EndAfter q e = (Time_zero, false) ∧
      ∀ t, now <= t < e → EndAfter q t = (e, true)
  | (e, false) => e = Time_zero ∧ ¬ quiet q now
  end.
Proof.
  destruct (EndAfter q now) as [e []] eqn:E.
  - assert (Hq : quiet q now) by (apply EndAfter_quiet; by rewrite E).
    assert (He : (EndAfter q now).1 = e) by (by rewrite E).
    destruct (quiet_over q off now Hl Hok Hq) as [Hb Ho]. rewrite He in Hb, Ho.
    split; [done|]. split; [by apply EndAfter_not_quiet|]. intros t Ht.
    destruct (quiet_between q off now t) as [Hqt Het]; [done|done|done|by rewrite He|].
    apply EndAfter_quiet in Hqt. by rewrite EndAfter_eq, Hqt, Het, He.
  - assert (Hq : ¬ quiet q now) by (rewrite <- EndAfter_quiet; by rewrite E).
    split; [|done]. rewrite (EndAfter_not_quiet q now Hq) in E. by injection E.
Qed.

Lemma quiet_until_end_witness :
  (* 2026-10-08T23:30:00+02:00, under 22:00-07:00 *)
  let q := mkQuietHours (22 * Hour) (7 * Hour) (FixedZone 7200) in
  let now := Date 2026 10 8 23 30 0 0 (FixedZone 7200) in
  let e := Date 2026 10 9 7 0 0 0 (FixedZone 7200) in
  EndAfter q now = (e, true) ∧ EndAfter q e = (Time_zero, false).
Proof.
  intros q now e. assert (Hq : EndAfter q now = (e, true)) by (vm_compute; reflexivity).
  split; [exact Hq|].
  pose proof (quiet_until_end q 7200 now eq_refl) as H. rewrite Hq in H. apply H.
  unfold quiet_ok, Day, q, Hour, Minute, Second. simpl. lia.
Defined.

(** New York on 2026-11-01: the offset goes from -4h to -5h at 06:00 UTC. *)
Definition fall_back : Location := λ sec,
  let change := Date 2026 11 1 6 0 0 0 UTC / Second in
  if sec <? change then mkZone (-14400) (change - 20000000) change
  else mkZone (-18000) change (change + 10000000).

(** In the hour that repeats, a window that ends inside it is given the first
    of the two readings, which may have passed: at the second 01:10 a window
    that ends at 01:30 is reported to end forty minutes before now. *)
Lemma quiet_end_in_repeated_hour :
  let q := mkQuietHours (1 * Hour) (1 * Hour + 30 * Minute) fall_back in
  let now := Date 2026 11 1 6 10 0 0 UTC in
  wallClockOffset fall_back now = 1 * Hour + 10 * Minute ∧
  EndAfter q now = (Add now (- (40 * Minute)), true).
Proof. vm_compute. done. Qed.

(** ** Parsing *)

(** [HH] as the schemas write it. *)
Definition two_digits (n : Z) : string :=
  let d k := String (ascii_of_nat (48 + Z.to_nat k)) EmptyString in d (n / 10) +:+ d (n mod 10).

Definition hhmm (h m : Z) : string := two_digits h +:+ ":" +:+ two_digits m.

Lemma scan_2d_digits n rest : 0 <= n < 100 → scan_2d (two_digits n +:+ rest) = Some (n, rest).
Proof.
  intros Hn. assert (Hc : ∃ k, (k < 100)%nat ∧ n = Z.of_nat k) by (exists (Z.to_nat n); lia).
  destruct Hc as (k & Hk & ->). do 100 (destruct k as [|k]; [reflexivity|]). lia.
Qed.

Lemma append_assoc s t u : (s +:+ t) +:+ u = s +:+ (t +:+ u).
Proof. induction s as [|c s IH]; [done|].
  change ((String c s +:+ t) +:+ u) with (String c ((s +:+ t) +:+ u)). by rewrite IH. Qed.

Lemma append_empty_r s : s +:+ "" = s.
Proof. induction s as [|c s IH]; [done|]. change (String c s +:+ "") with (String c (s +:+ "")). by rewrite IH. Qed.

Lemma scan_literal_here c rest : scan_literal c (String c rest) = Some rest.
Proof. simpl. by rewrite Ascii.eqb_refl. Qed.

Lemma scan_window_print sh sm eh em :
  0 <= sh < 100 → 0 <= sm < 100 → 0 <= eh < 100 → 0 <= em < 100 →
  scan_window (hhmm sh sm +:+ "-" +:+ hhmm eh em) = Some (sh, sm, eh, em).
Proof.
  intros. unfold scan_window, hhmm. rewrite !append_assoc.
  rewrite scan_2d_digits by done. cbn [mbind option_bind].
  change (":" +:+ ?s) with (String ":" s). rewrite scan_literal_here. cbn [mbind option_bind].
  rewrite scan_2d_digits by done. cbn [mbind option_bind].
  change ("-" +:+ ?s) with (String "-" s). rewrite scan_literal_here. cbn [mbind option_bind].
  rewrite scan_2d_digits by done. cbn [mbind option_bind].
  change (":" +:+ ?s) with (String ":" s). rewrite scan_literal_here. cbn [mbind option_bind].
  rewrite <- (append_empty_r (two_digits em)), scan_2d_digits by done. done.
Qed.

(** Every window the schemas admit parses: [HH:MM-HH:MM] in a zone the host knows
    gives the two offsets it prints, inside a day, or is refused exactly when
    they are equal; without a timezone it is refused. *)
Theorem ParseQuietHours_exact (LoadLocation : string → option Location) (loc : Location)
    (tz : string) (sh sm eh em : Z)
    (Hs : 0 <= sh < 24 ∧ 0 <= sm < 60) (He : 0 <= eh < 24 ∧ 0 <= em < 60)
    (Htz : LoadLocation tz = Some loc) :
  let window := hhmm sh sm +:+ "-" +:+ hhmm eh em in
  ParseQuietHours LoadLocation window "" = Err (NoTimezone window) ∧
  (tz ≠ "" → ParseQuietHours LoadLocation window tz =
    if decide (sh = eh ∧ sm = em) then Err (ZeroLength window)
    else Ok (Some (mkQuietHours (sh * Hour + sm * Minute) (eh * Hour + em * Minute) loc))) ∧
  ((sh, sm) ≠ (eh, em) → quiet_ok (mkQuietHours (sh * Hour + sm * Minute) (eh * Hour + em * Minute) loc)).
Proof.
  intros window. assert (Hw : String.eqb window "" = false) by done.
  assert (Heq : sh * Hour + sm * Minute = eh * Hour + em * Minute ↔ sh = eh ∧ sm = em)
    by (unfold Hour; unfold Minute, Second; lia).
  unfold ParseQuietHours. rewrite Hw. split; [done|]. split.
  - intros Hne. apply String.eqb_neq in Hne. rewrite Hne, Htz. unfold window.
    rewrite scan_window_print by lia. cbv zeta. cbn [q_Start q_End].
    case_decide as Hd; destruct (Z.eqb_spec (sh * Hour + sm * Minute) (eh * Hour + em * Minute)) as [E|E];
      (done || by rewrite Heq in E).
  - intros Hne. unfold quiet_ok. cbn [q_Start q_End]. rewrite Heq.
    unfold Day, Hour, Minute, Second. repeat split; (lia || by intros [-> ->]).
Qed.

Lemma ParseQuietHours_exact_witness :
  ParseQuietHours (λ _, Some UTC) "22:00-07:00" "UTC" = Ok (Some (mkQuietHours (22 * Hour) (7 * Hour) UTC)).
Proof.
  change "22:00-07:00" with (hhmm 22 0 +:+ "-" +:+ hhmm 7 0).
  rewrite (proj1 (proj2 (ParseQuietHours_exact (λ _, Some UTC) UTC "UTC" 22 0 7 0
    ltac:(lia) ltac:(lia) eq_refl)) ltac:(discriminate)).
  reflexivity.
Defined.
