(* ===== verification/MeterStore.v ===== *)
(** * [internal/meter/store]: the meter's ledger

    The in-memory store (memory.go) as a state and its operations; the pure
    helpers both backends share (store.go, money.go). Every operation holds one
    lock from beginning to end, so an execution with any number of callers is a
    sequence of operations. *)

From Stdlib Require Import Ascii DecimalString.
From stdpp Require Import functions.
From S2P Require Import Prelude.
From S2P Require Import Float64.
From S2P Require Import GoTime.
From S2P Require Import GoStrings.
From S2P Require Import GoPath.
From S2P Require Import Gonkcfg.
From S2P Require Import Opercfg.
From S2P Require Import Budget.
From S2P Require Import Atags.
From S2P Require Import Spend.
From S2P Require Import RungOutcome.

(** ** Data (store.go) *)

Abbreviation State := string (only parsing).
Definition StateActive : State := "active".
Definition StateDisabled : State := "disabled".
Definition StateInvalid : State := "invalid".
Definition StateKeyMissing : State := "key-missing".

Record KeyRef := mkKeyRef { SecretName : string; SecretKey : string }.

Record Registration := mkRegistration {
  rg_Project : string;
  rg_Rig : string;
  rg_Raw : string;
  rg_Effective : EffectiveCfg;
  rg_InvalidDetail : string;
  rg_QuietHours : option QuietHours;
  rg_State : State;
  rg_KeyRef : KeyRef;
  rg_KeyAlias : string;
  rg_UpdatedAt : Time;
}.

Record Reservation := mkReservation {
  rs_ID : string;
  rs_Project : string;
  rs_BeadID : string;
  rs_SessionKey : string;
  rs_Rung : string;
  rs_Attempt : Z;
  rs_CostUSD : float64;
  rs_SyntheticCostUSD : float64;
  rs_Tokens : Z;
  rs_CreatedAt : Time;
  rs_ExpiresAt : Time;
  rs_Settled : bool;
}.

(** [Reservation{}]. *)
Definition Reservation_zero : Reservation :=
  mkReservation "" "" "" "" "" 0 fzero fzero 0 Time_zero Time_zero false.

Abbreviation ReserveMiss := string (only parsing).
Definition MissCost : ReserveMiss := "cost".
Definition MissMonthlyTokens : ReserveMiss := "monthly-tokens".
Definition MissTaskTokens : ReserveMiss := "task-tokens".

Record ReserveResult := mkReserveResult {
  rr_Reservation : Reservation;
  rr_Fits : bool;
  rr_Existing : bool;
  rr_Miss : ReserveMiss;
}.

Definition missingLeg (rem : Remaining) (r : Reservation) : ReserveMiss :=
  if flt fzero (rs_CostUSD r) && negb (FitsCost rem (rs_CostUSD r)) then MissCost
  else if negb (FitsMonthTokens rem (rs_Tokens r)) then MissMonthlyTokens
  else if negb (FitsTaskTokens rem (rs_Tokens r)) then MissTaskTokens
  else "".

Record Prompt := mkPrompt {
  pr_Alias : string;
  pr_Prompt : string;
  pr_Model : string;
  pr_Metadata : string;
  pr_CreatedAt : Time;
  pr_FetchedAt : Time;
  pr_ExpiresAt : Time;
  pr_LiteLLMKey : string;
}.
Definition Prompt_zero : Prompt := mkPrompt "" "" "" "" Time_zero Time_zero Time_zero "".

Record TraceCall := mkTraceCall { tc_Tool : string; tc_Target : string }.

Record Trace := mkTrace {
  tr_SessionKey : string;
  tr_Attempt : Z;
  tr_BeadID : string;
  tr_Project : string;
  tr_Completeness : string;
  tr_Calls : list TraceCall;
  tr_Turns : Z;
  tr_UpdatedAt : Time;
}.

Definition degrade_rank : gmap string Z := {["complete" := 3; "partial" := 2; "absent" := 1]}.

Definition degrade (a b : string) : string :=
  let ra := default 0 (degrade_rank !! a) in
  let rb := default 0 (degrade_rank !! b) in
  if (ra =? 0) || (rb =? 0) then "absent"
  else if rb <? ra then b else a.

(** ** Money (money.go) *)

Definition financeSafe (f : float64) : bool := negb (IsNaN f) && negb (IsInf f).

(** The value refused. *)
Definition validateFiniteMoney (vals : list float64) : option float64 :=
  List.find (λ v, negb (financeSafe v)) vals.

(** ** The state (memory.go) *)

Record attemptRecord := mkAttemptRecord { reservationID : string; ar_Attempt : Attempt }.

Record Memory := mkMemory {
  regs : gmap string Registration;
  attempts : gmap string (list attemptRecord);
  reservations : gmap string Reservation;
  rows : list Row;
  seen : gset string;
  cursor : Time;
  syncedAt : Time;
  window : Window;
  prompts : gmap string Prompt;
  traces : gmap string Trace;
}.

Definition NewMemory : Memory :=
  mkMemory ∅ ∅ ∅ [] ∅ Time_zero Time_zero (mkWindow Time_zero Time_zero) ∅ ∅.

(** Assignments to one field. *)
Definition set_regs (m : Memory) v := mkMemory v (attempts m) (reservations m) (rows m) (seen m)
  (cursor m) (syncedAt m) (window m) (prompts m) (traces m).
Definition set_attempts (m : Memory) v := mkMemory (regs m) v (reservations m) (rows m) (seen m)
  (cursor m) (syncedAt m) (window m) (prompts m) (traces m).
Definition set_reservations (m : Memory) v := mkMemory (regs m) (attempts m) v (rows m) (seen m)
  (cursor m) (syncedAt m) (window m) (prompts m) (traces m).
Definition set_ledger (m : Memory) r s := mkMemory (regs m) (attempts m) (reservations m) r s
  (cursor m) (syncedAt m) (window m) (prompts m) (traces m).
Definition set_prompts (m : Memory) v := mkMemory (regs m) (attempts m) (reservations m) (rows m) (seen m)
  (cursor m) (syncedAt m) (window m) v (traces m).
Definition set_traces (m : Memory) v := mkMemory (regs m) (attempts m) (reservations m) (rows m) (seen m)
  (cursor m) (syncedAt m) (window m) (prompts m) v.

(** [project + "\x00" + beadID]. *)
Definition nul : ascii := ascii_of_nat 0.
Definition beadKey (project beadID : string) : string := project +:+ String nul beadID.

Definition traceKey (sessionKey : string) (attempt : Z) : string := sessionKey +:+ "#" +:+ itoa attempt.

Section store.
Context `{MapRange}.

(** *** Registrations *)

Definition PutRegistration (m : Memory) (r : Registration) : Memory :=
  set_regs m (<[rg_Project r := r]> (regs m)).

Definition GetRegistration (m : Memory) (project : string) : option Registration := regs m !! project.

Definition DeleteRegistration (m : Memory) (project : string) : Memory :=
  set_regs m (delete project (regs m)).

Definition ListRegistrations (m : Memory) : list Registration := (range_map (regs m)).*2.

(** *** Attempts *)

(** The loop over a bead's records, which supersedes in place or appends. *)
Fixpoint upsert (recs : list attemptRecord) (id : string) (a : Attempt) : list attemptRecord :=
  match recs with
  | [] => [mkAttemptRecord id a]
  | rec :: rest =>
      if String.eqb (reservationID rec) id then mkAttemptRecord (reservationID rec) a :: rest
      else rec :: upsert rest id a
  end.

Definition RecordAttempt (m : Memory) (project beadID id : string) (a : Attempt) : Memory :=
  let k := beadKey project beadID in
  set_attempts m (<[k := upsert (default [] (attempts m !! k)) id a]> (attempts m)).

Definition Attempts (m : Memory) (project beadID : string) : list Attempt :=
  ar_Attempt <$> default [] (attempts m !! beadKey project beadID).

(** *** Reservations *)

Definition same_work (project : string) (r o : Reservation) : bool :=
  String.eqb (rs_Project o) project && String.eqb (rs_BeadID o) (rs_BeadID r)
  && String.eqb (rs_SessionKey o) (rs_SessionKey r) && negb (rs_Settled o).

(** One round of the loop that adds the open reservations to what is held. *)
Definition hold_step (project : string) (r : Reservation) (want : Budget.Spend) (o : Reservation) :
    Budget.Spend :=
  if String.eqb (rs_Project o) project && Before (rs_CreatedAt r) (rs_ExpiresAt o) then
    mkSpend (CostUSD want) (fadd (ReservedCostUSD want) (rs_CostUSD o))
      (SyntheticCostUSD want) (fadd (ReservedSyntheticCostUSD want) (rs_SyntheticCostUSD o))
      (Tokens want) (TaskTokens want) (wrap64 (ReservedTokens want + rs_Tokens o))
      (if String.eqb (rs_BeadID o) (rs_BeadID r)
       then wrap64 (ReservedTaskTokens want + rs_Tokens o) else ReservedTaskTokens want)
  else want.

Definition ReserveIfFits (m : Memory) (project : string) (ceiling : Budget) (want : Budget.Spend)
    (r : Reservation) : result float64 ReserveResult * Memory :=
  match validateFiniteMoney [rs_CostUSD r; rs_SyntheticCostUSD r] with
  | Some bad => (Err bad, m)
  | None =>
      let all := (range_map (reservations m)).*2 in
      match List.find (same_work project r) all with
      | Some o => (Ok (mkReserveResult o true true ""), m)
      | None =>
          let rem := Remain ceiling (fold_left (hold_step project r) all want) in
          let miss := missingLeg rem r in
          if negb (String.eqb miss "") then (Ok (mkReserveResult Reservation_zero false false miss), m)
          else (Ok (mkReserveResult r true false ""),
                set_reservations m (<[rs_ID r := r]> (reservations m)))
      end
  end.

Definition GetReservation (m : Memory) (id : string) : option Reservation := reservations m !! id.

Definition settled_until (r : Reservation) (expires : Time) : Reservation :=
  mkReservation (rs_ID r) (rs_Project r) (rs_BeadID r) (rs_SessionKey r) (rs_Rung r) (rs_Attempt r)
    (rs_CostUSD r) (rs_SyntheticCostUSD r) (rs_Tokens r) (rs_CreatedAt r) expires true.

Definition Settle (m : Memory) (id : string) (holdUntil : Time) : Memory :=
  match reservations m !! id with
  | Some r => set_reservations m (<[id := settled_until r holdUntil]> (reservations m))
  | None => m
  end.

Definition OpenReservations (m : Memory) (project : string) (now : Time) : list Reservation :=
  List.filter (λ r, String.eqb (rs_Project r) project && Before now (rs_ExpiresAt r))
    (range_map (reservations m)).*2.

(** One round of the janitor's loop. *)
Definition expire_step (now : Time) (s : list Reservation * gmap string Reservation)
    (e : string * Reservation) : list Reservation * gmap string Reservation :=
  let '(out, res) := s in
  let '(id, r) := e in
  if negb (rs_Settled r) && negb (Before now (rs_ExpiresAt r))
  then (out ++ [r], <[id := settled_until r (rs_ExpiresAt r)]> res) else (out, res).

Definition ExpireReservations (m : Memory) (now : Time) : list Reservation * Memory :=
  let '(out, res) := fold_left (expire_step now) (range_map (reservations m)) ([], reservations m) in
  (out, set_reservations m res).

(** *** The spend ledger *)

Definition row_step (s : list Row * gset string * Z) (r : Row) : list Row * gset string * Z :=
  let '(rs, sn, added) := s in
  if decide (CallID r ∈ sn) then (rs, sn, added)
  else if negb (financeSafe (RowCostUSD r)) then (rs, {[CallID r]} ∪ sn, added)
  else (rs ++ [r], {[CallID r]} ∪ sn, added + 1).

Definition AddSpendRows (m : Memory) (new : list Row) : Z * Memory :=
  let '(rs, sn, added) := fold_left row_step new (rows m, seen m, 0) in
  (added, set_ledger m rs sn).

Definition SpendRows (m : Memory) (project : string) : list Row :=
  List.filter (λ r, String.eqb (Project (RowTags r)) project) (rows m).

Definition AllSpendRows (m : Memory) : list Row := rows m.

Definition SetSpendCursor (m : Memory) (t : Time) : Memory :=
  mkMemory (regs m) (attempts m) (reservations m) (rows m) (seen m) t (syncedAt m) (window m)
    (prompts m) (traces m).
Definition SetSyncedAt (m : Memory) (t : Time) : Memory :=
  mkMemory (regs m) (attempts m) (reservations m) (rows m) (seen m) (cursor m) t (window m)
    (prompts m) (traces m).
Definition SetWindow (m : Memory) (w : Window) : Memory :=
  mkMemory (regs m) (attempts m) (reservations m) (rows m) (seen m) (cursor m) (syncedAt m) w
    (prompts m) (traces m).

(** *** Traces *)

Definition AppendTrace (m : Memory) (t : Trace) : Memory :=
  let k := traceKey (tr_SessionKey t) (tr_Attempt t) in
  match traces m !! k with
  | None => set_traces m (<[k := t]> (traces m))
  | Some cur =>
      set_traces m (<[k := mkTrace (tr_SessionKey cur) (tr_Attempt cur)
        (if String.eqb (tr_BeadID cur) "" then tr_BeadID t else tr_BeadID cur)
        (if String.eqb (tr_Project cur) "" then tr_Project t else tr_Project cur)
        (degrade (tr_Completeness cur) (tr_Completeness t))
        (tr_Calls cur ++ tr_Calls t) (wrap64 (tr_Turns cur + tr_Turns t)) (tr_UpdatedAt t)]> (traces m))
  end.

Definition GetTrace (m : Memory) (sessionKey : string) (attempt : Z) : option Trace :=
  traces m !! traceKey sessionKey attempt.

(** *** Prompts *)

Definition PutPrompt (m : Memory) (p : Prompt) : Memory :=
  set_prompts m (<[pr_Alias p := p]> (prompts m)).

(** Past its deadline, when it has one. *)
Definition lapsed (now : Time) (p : Prompt) : bool :=
  negb (IsZero (pr_ExpiresAt p)) && After now (pr_ExpiresAt p).

Definition fetched (p : Prompt) (now : Time) (key : string) : Prompt :=
  mkPrompt (pr_Alias p) (pr_Prompt p) (pr_Model p) (pr_Metadata p) (pr_CreatedAt p) now
    (pr_ExpiresAt p) key.

(** [(prompt, found, consumed)]. *)
Definition TakePrompt (m : Memory) (alias : string) (now : Time) : (Prompt * bool * bool) * Memory :=
  match prompts m !! alias with
  | None => ((Prompt_zero, false, false), m)
  | Some p =>
      if lapsed now p then ((Prompt_zero, false, false), m)
      else if negb (IsZero (pr_FetchedAt p)) then ((p, true, true), m)
      else ((fetched p now (pr_LiteLLMKey p), true, false),
            set_prompts m (<[alias := fetched p now ""]> (prompts m)))
  end.

Definition PromptStatus (m : Memory) (alias : string) : option Prompt := prompts m !! alias.

Definition expire_prompt (now : Time) (s : gmap string Prompt * Z) (e : string * Prompt) :
    gmap string Prompt * Z :=
  let '(ps, n) := s in
  if lapsed now e.2 then (delete e.1 ps, n + 1) else (ps, n).

Definition ExpirePrompts (m : Memory) (now : Time) : Z * Memory :=
  let '(ps, n) := fold_left (expire_prompt now) (range_map (prompts m)) (prompts m, 0) in
  (n, set_prompts m ps).
End store.

(** ** Executions

    The operations that change the store, in whatever order any number of
    callers' locks are granted. *)

Inductive op :=
| OpPutRegistration (r : Registration)
| OpDeleteRegistration (project : string)
| OpRecordAttempt (project beadID id : string) (a : Attempt)
| OpReserve (project : string) (ceiling : Budget) (want : Budget.Spend) (r : Reservation)
| OpSettle (id : string) (holdUntil : Time)
| OpExpireReservations (now : Time)
| OpAddSpendRows (new : list Row)
| OpSetSpendCursor (t : Time)
| OpSetSyncedAt (t : Time)
| OpSetWindow (w : Window)
| OpAppendTrace (t : Trace)
| OpPutPrompt (p : Prompt)
| OpTakePrompt (alias : string) (now : Time)
| OpExpirePrompts (now : Time).

Section executions.
Context `{MapRange}.

Definition apply (m : Memory) (o : op) : Memory :=
  match o with
  | OpPutRegistration r => PutRegistration m r
  | OpDeleteRegistration p => DeleteRegistration m p
  | OpRecordAttempt p b id a => RecordAttempt m p b id a
  | OpReserve p c w r => (ReserveIfFits m p c w r).2
  | OpSettle id t => Settle m id t
  | OpExpireReservations t => (ExpireReservations m t).2
  | OpAddSpendRows rs => (AddSpendRows m rs).2
  | OpSetSpendCursor t => SetSpendCursor m t
  | OpSetSyncedAt t => SetSyncedAt m t
  | OpSetWindow w => SetWindow m w
  | OpAppendTrace t => AppendTrace m t
  | OpPutPrompt p => PutPrompt m p
  | OpTakePrompt a t => (TakePrompt m a t).2
  | OpExpirePrompts t => (ExpirePrompts m t).2
  end.

Definition run (ops : list op) : Memory := fold_left apply ops NewMemory.

Lemma run_snoc ops o : run (ops ++ [o]) = apply (run ops) o.
Proof. unfold run. by rewrite fold_left_app. Qed.

(** Which part of the state an operation may write. *)
Lemma apply_reservations m o :
  (∀ p c w r, o ≠ OpReserve p c w r) → (∀ id t, o ≠ OpSettle id t) → (∀ t, o ≠ OpExpireReservations t) →
  reservations (apply m o) = reservations m.
Proof.
  intros H1 H2 H3. destruct o; try done; simpl.
  - exfalso; by eapply H1.
  - exfalso; by eapply H2.
  - exfalso; by eapply H3.
  - unfold AddSpendRows. by destruct (fold_left _ _ _) as [[]].
  - unfold AppendTrace. by case_match.
  - unfold TakePrompt. by repeat case_match.
  - unfold ExpirePrompts. by destruct (fold_left _ _ _).
Qed.

Lemma apply_attempts m o :
  (∀ p b id a, o ≠ OpRecordAttempt p b id a) → attempts (apply m o) = attempts m.
Proof.
  intros H1. destruct o; try done; simpl.
  - exfalso; by eapply H1.
  - unfold ReserveIfFits. by repeat case_match.
  - unfold Settle. by case_match.
  - unfold ExpireReservations. by destruct (fold_left _ _ _).
  - unfold AddSpendRows. by destruct (fold_left _ _ _) as [[]].
  - unfold AppendTrace. by case_match.
  - unfold TakePrompt. by repeat case_match.
  - unfold ExpirePrompts. by destruct (fold_left _ _ _).
Qed.

Lemma apply_ledger m o :
  (∀ rs, o ≠ OpAddSpendRows rs) → rows (apply m o) = rows m ∧ seen (apply m o) = seen m.
Proof.
  intros H1. destruct o; try done; simpl.
  - unfold ReserveIfFits. by repeat case_match.
  - unfold Settle. by case_match.
  - unfold ExpireReservations. by destruct (fold_left _ _ _).
  - exfalso; by eapply H1.
  - unfold AppendTrace. by case_match.
  - unfold TakePrompt. by repeat case_match.
  - unfold ExpirePrompts. by destruct (fold_left _ _ _).
Qed.

Lemma apply_prompts m o :
  (∀ p, o ≠ OpPutPrompt p) → (∀ a t, o ≠ OpTakePrompt a t) → (∀ t, o ≠ OpExpirePrompts t) →
  prompts (apply m o) = prompts m.
Proof.
  intros H1 H2 H3. destruct o; try done; simpl.
  - unfold ReserveIfFits. by repeat case_match.
  - unfold Settle. by case_match.
  - unfold ExpireReservations. by destruct (fold_left _ _ _).
  - unfold AddSpendRows. by destruct (fold_left _ _ _) as [[]].
  - unfold AppendTrace. by case_match.
  - exfalso; by eapply H1.
  - exfalso; by eapply H2.
  - exfalso; by eapply H3.
Qed.
End executions.

(** ** Reservations *)

(** What the janitor gives up on, and what it leaves of it. *)
Definition dead (now : Time) (r : Reservation) : bool :=
  negb (rs_Settled r) && negb (Before now (rs_ExpiresAt r)).
Definition reap (now : Time) (r : Reservation) : Reservation :=
  if dead now r then settled_until r (rs_ExpiresAt r) else r.

Lemma reap_fields now r :
  rs_ID (reap now r) = rs_ID r ∧ rs_Project (reap now r) = rs_Project r ∧
  rs_BeadID (reap now r) = rs_BeadID r ∧ rs_SessionKey (reap now r) = rs_SessionKey r ∧
  rs_Tokens (reap now r) = rs_Tokens r ∧ rs_ExpiresAt (reap now r) = rs_ExpiresAt r ∧
  (rs_Settled (reap now r) = false → reap now r = r).
Proof. unfold reap. case_match; split_and!; done. Qed.

Lemma expire_fold now l out res :
  NoDup l.*1 → (∀ k r, (k, r) ∈ l → res !! k = Some r) →
  (fold_left (expire_step now) l (out, res)).1 = out ++ List.filter (dead now) l.*2 ∧
  ∀ k, (fold_left (expire_step now) l (out, res)).2 !! k =
    if decide (k ∈ l.*1) then reap now <$> res !! k else res !! k.
Proof.
  revert out res. induction l as [|[k r] l IH]; intros out res Hnd Hl; cbn [fmap list_fmap] in *.
  { split; [symmetry; apply app_nil_r|]. intros k. rewrite decide_False; [done|]. apply not_elem_of_nil. }
  apply NoDup_cons in Hnd as [Hk Hnd]. pose proof (Hl k r ltac:(by left)) as Hr.
  assert (Hstep : expire_step now (out, res) (k, r) =
    (out ++ (if dead now r then [r] else []), <[k := reap now r]> res)).
  { unfold expire_step, reap, dead. cbn [fst snd]. destruct (_ && _); [done|].
    by rewrite app_nil_r, insert_id. }
  cbn [fold_left]. rewrite Hstep.
  destruct (IH (out ++ (if dead now r then [r] else [])) (<[k := reap now r]> res)) as [H1 H2]; [done| |].
  { intros k' r' Hin. rewrite lookup_insert_ne; [apply Hl; by right|]. intros ->. apply Hk.
    apply list_elem_of_fmap. by exists (k', r'). }
  split.
  - rewrite H1, <- app_assoc. f_equal. cbn [List.filter snd]. by destruct (dead now r).
  - intros k'. rewrite H2. destruct (decide (k' = k)) as [->|Hne].
    + rewrite decide_False by done. rewrite decide_True by (by left).
      by rewrite lookup_insert_eq, Hr.
    + rewrite lookup_insert_ne by done. destruct (decide (k' ∈ l.*1)).
      * by rewrite decide_True by (by right).
      * rewrite decide_False; [done|]. rewrite elem_of_cons. tauto.
Qed.

Section reservations.
Context `{MapRange}.

Lemma ExpireReservations_spec m now :
  (ExpireReservations m now).1 = List.filter (dead now) (range_map (reservations m)).*2 ∧
  reservations (ExpireReservations m now).2 = reap now <$> reservations m.
Proof.
  unfold ExpireReservations.
  destruct (expire_fold now (range_map (reservations m)) [] (reservations m)) as [H1 H2].
  { apply NoDup_range_map. }
  { intros k r. apply elem_of_range_map. }
  destruct (fold_left _ _ _) as [out res]. cbn [fst snd] in *. split; [done|].
  cbn [reservations set_reservations]. apply map_eq. intros k. rewrite H2, lookup_fmap.
  destruct (decide (k ∈ (range_map (reservations m)).*1)) as [|Hn]; [done|].
  destruct (reservations m !! k) as [r|] eqn:E; [|done]. destruct Hn. apply list_elem_of_fmap.
  exists (k, r). split; [done|]. by apply elem_of_range_map.
Qed.

(** Reservations keep the key they were stored under, and one piece of work
    has one open reservation. *)
Record books_ok (m : Memory) : Prop := {
  bk_id : ∀ k r, reservations m !! k = Some r → rs_ID r = k;
  bk_open : ∀ k k' r r', reservations m !! k = Some r → reservations m !! k' = Some r' →
    rs_Settled r = false → rs_Settled r' = false → rs_Project r = rs_Project r' →
    rs_BeadID r = rs_BeadID r' → rs_SessionKey r = rs_SessionKey r' → k = k';
}.

(** A reservation as the service asks for it. *)
Definition op_ok (o : op) : Prop :=
  match o with OpReserve p _ _ r => rs_Project r = p ∧ rs_Settled r = false | _ => True end.

Lemma same_work_spec p r o :
  same_work p r o = true ↔ rs_Project o = p ∧ rs_BeadID o = rs_BeadID r ∧
    rs_SessionKey o = rs_SessionKey r ∧ rs_Settled o = false.
Proof.
  unfold same_work. rewrite !andb_true_iff, !String.eqb_eq, negb_true_iff. tauto.
Qed.

Lemma all_elem m o : o ∈ (range_map (reservations m)).*2 ↔ ∃ k, reservations m !! k = Some o.
Proof.
  rewrite list_elem_of_fmap. split.
  - intros ([k r] & -> & Hin). exists k. by apply elem_of_range_map.
  - intros [k Hk]. exists (k, o). split; [done|]. by apply elem_of_range_map.
Qed.

(** The reservation the idempotency check finds. *)
Lemma find_open m p r :
  match List.find (same_work p r) (range_map (reservations m)).*2 with
  | Some o => ∃ k, reservations m !! k = Some o ∧ same_work p r o = true
  | None => ∀ k o, reservations m !! k = Some o → same_work p r o = false
  end.
Proof.
  destruct (List.find _ _) as [o|] eqn:E.
  - apply List.find_some in E as [Hin Hs]. apply list_elem_of_In, all_elem in Hin as [k Hk]. eauto.
  - intros k o Hk. apply (List.find_none _ _ E), list_elem_of_In, all_elem. eauto.
Qed.

(** What one call does to the books. *)
Lemma ReserveIfFits_books m p c w r :
  reservations (ReserveIfFits m p c w r).2 = reservations m ∨
  ((∀ k o, reservations m !! k = Some o → same_work p r o = false) ∧
   reservations (ReserveIfFits m p c w r).2 = <[rs_ID r := r]> (reservations m)).
Proof.
  unfold ReserveIfFits. case_match; [by left|]. pose proof (find_open m p r) as Hf.
  destruct (List.find _ _); [by left|]. case_match; [by left|]. by right.
Qed.

Lemma books_ok_step m o : books_ok m → op_ok o → books_ok (apply m o).
Proof.
  intros [Hid Hop] Ho. destruct o as [| | |p c w r|id t|t| | | | | | | |];
    try (split; rewrite apply_reservations by done; assumption); simpl.
  - destruct (ReserveIfFits_books m p c w r) as [E|[Hno E]]; split; rewrite E; try done.
    + intros k r' [[<- <-]|[_ Hk]]%lookup_insert_Some; eauto.
    + destruct Ho as [Hp _]. intros k k' r1 r2 H1 H2 S1 S2 HP HB HS.
      apply lookup_insert_Some in H1 as [[<- <-]|[_ H1]], H2 as [[<- <-]|[_ H2]]; [done| | |by eapply Hop].
      * specialize (Hno _ _ H2). apply not_true_iff_false in Hno. destruct Hno.
        apply same_work_spec. split_and!; congruence.
      * specialize (Hno _ _ H1). apply not_true_iff_false in Hno. destruct Hno.
        apply same_work_spec. split_and!; congruence.
  - unfold Settle. destruct (reservations m !! id) as [r|] eqn:E; [|done]. split; simpl.
    + intros k r' [[<- <-]|[_ Hk]]%lookup_insert_Some; [by eapply (Hid _ r)|eauto].
    + intros k k' r1 r2 H1 H2 S1 S2. apply lookup_insert_Some in H1 as [[<- <-]|[_ H1]]; [done|].
      apply lookup_insert_Some in H2 as [[<- <-]|[_ H2]]; [done|]. by eapply Hop.
  - destruct (ExpireReservations_spec m t) as [_ E]. split; rewrite E.
    + intros k r. rewrite lookup_fmap_Some. intros (r' & <- & Hk). rewrite <- (Hid _ _ Hk).
      apply reap_fields.
    + intros k k' r1 r2. rewrite !lookup_fmap_Some. intros (r1' & <- & H1) (r2' & <- & H2) S1 S2.
      destruct (reap_fields t r1') as (_&_&_&_&_&_&E1), (reap_fields t r2') as (_&_&_&_&_&_&E2).
      specialize (E1 S1). specialize (E2 S2). rewrite E1 in S1 |- *. rewrite E2 in S2 |- *.
      exact (Hop _ _ _ _ H1 H2 S1 S2).
Qed.

Lemma books_ok_run ops : Forall op_ok ops → books_ok (run ops).
Proof.
  induction ops as [|o ops IH] using rev_ind; intros Hf.
  { split; change (reservations (run [])) with (∅ : gmap string Reservation).
    - intros k r Hk. by rewrite lookup_empty in Hk.
    - intros k k' r r' Hk. by rewrite lookup_empty in Hk. }
  apply Forall_app in Hf as [Hf [Ho _]%Forall_cons]. rewrite run_snoc. apply books_ok_step; auto.
Qed.
End reservations.

(** ** What a reservation is held against *)

(** The tokens a project (and a bead of it) holds at an instant, as integers. *)
Definition holds (p : string) (t : Time) (o : Reservation) : bool :=
  String.eqb (rs_Project o) p && (t <? rs_ExpiresAt o).
Definition tokens_of (keep : Reservation → bool) (l : list Reservation) : Z :=
  foldr (λ o n, (if keep o then rs_Tokens o else 0) + n) 0 l.
Definition all_reservations (m : Memory) : list Reservation := (map_to_list (reservations m)).*2.
Definition held_tokens (m : Memory) (p : string) (t : Time) : Z :=
  tokens_of (holds p t) (all_reservations m).
Definition held_task_tokens (m : Memory) (p b : string) (t : Time) : Z :=
  tokens_of (λ o, holds p t o && String.eqb (rs_BeadID o) b) (all_reservations m).

Lemma tokens_of_perm f l l' : l ≡ₚ l' → tokens_of f l = tokens_of f l'.
Proof. induction 1; simpl; try lia. Qed.

Lemma tokens_of_nonneg f l : Forall (λ o, 0 <= rs_Tokens o) l → 0 <= tokens_of f l.
Proof. induction 1; simpl; [lia|]. case_match; lia. Qed.

Lemma tokens_of_le (f g : Reservation → bool) l :
  Forall (λ o, 0 <= rs_Tokens o) l → (∀ o, o ∈ l → f o = true → g o = true) →
  tokens_of f l <= tokens_of g l.
Proof.
  induction 1 as [|o l Ho Hl IH]; simpl; intros Hfg; [lia|].
  assert (tokens_of f l <= tokens_of g l) by (apply IH; intros; apply Hfg; [by right|done]).
  destruct (f o) eqn:E; [rewrite Hfg by (by left || done); lia|]. case_match; lia.
Qed.

Lemma tokens_of_fmap f g h l :
  (∀ o, rs_Tokens (h o) = rs_Tokens o) → (∀ o, f (h o) = g o) →
  tokens_of f (h <$> l) = tokens_of g l.
Proof.
  intros H1 H2. unfold tokens_of. induction l as [|o l IH]; [done|]. rewrite fmap_cons. cbn [foldr].
  by rewrite H1, H2, IH.
Qed.

Lemma held_insert m k r p t :
  reservations m !! k = None →
  held_tokens (set_reservations m (<[k := r]> (reservations m))) p t =
    (if holds p t r then rs_Tokens r else 0) + held_tokens m p t.
Proof.
  intros Hk. unfold held_tokens, all_reservations. cbn [reservations set_reservations].
  erewrite tokens_of_perm; [|by rewrite map_to_list_insert]. done.
Qed.

Lemma all_reservations_elem m o : o ∈ all_reservations m ↔ ∃ k, reservations m !! k = Some o.
Proof.
  unfold all_reservations. rewrite list_elem_of_fmap. split.
  - intros ([k r] & -> & Hin). exists k. by apply elem_of_map_to_list.
  - intros [k Hk]. exists (k, o). split; [done|]. by apply elem_of_map_to_list.
Qed.

(** The machine's sums over any order of the map, when nothing overflows. *)
Lemma hold_fold p r l w :
  Forall (λ o, 0 <= rs_Tokens o) l →
  0 <= ReservedTokens w → 0 <= ReservedTaskTokens w →
  ReservedTokens w + tokens_of (holds p (rs_CreatedAt r)) l <= MaxInt64 →
  ReservedTaskTokens w + tokens_of (λ o, holds p (rs_CreatedAt r) o && String.eqb (rs_BeadID o) (rs_BeadID r)) l <= MaxInt64 →
  let s := fold_left (hold_step p r) l w in
  Tokens s = Tokens w ∧ TaskTokens s = TaskTokens w ∧
  ReservedTokens s = ReservedTokens w + tokens_of (holds p (rs_CreatedAt r)) l ∧
  ReservedTaskTokens s = ReservedTaskTokens w
    + tokens_of (λ o, holds p (rs_CreatedAt r) o && String.eqb (rs_BeadID o) (rs_BeadID r)) l.
Proof.
  revert w. induction l as [|o l IH]; intros w Hp H1 H2 H3 H4.
  { simpl. rewrite !Z.add_0_r. done. }
  apply Forall_cons in Hp as [Ho Hp]. cbn [tokens_of foldr fold_left] in *. fold (tokens_of (holds p (rs_CreatedAt r)) l) in *.
  fold (tokens_of (λ o, holds p (rs_CreatedAt r) o && String.eqb (rs_BeadID o) (rs_BeadID r)) l) in *.
  pose proof (tokens_of_nonneg (holds p (rs_CreatedAt r)) l Hp).
  pose proof (tokens_of_nonneg (λ o, holds p (rs_CreatedAt r) o && String.eqb (rs_BeadID o) (rs_BeadID r)) l Hp).
  cbn beta in H4 |- *.
  destruct (holds p (rs_CreatedAt r) o) eqn:Eh; cbn [andb] in *.
  2: { assert (hold_step p r w o = w) as ->.
       { unfold hold_step, Before. unfold holds in Eh. by rewrite Eh. }
       pose proof (IH w Hp H1 H2 ltac:(lia) ltac:(lia)) as IHw. cbv zeta in IHw |- *. lia. }
  assert (Hs : hold_step p r w o = mkSpend (CostUSD w) (fadd (ReservedCostUSD w) (rs_CostUSD o))
      (SyntheticCostUSD w) (fadd (ReservedSyntheticCostUSD w) (rs_SyntheticCostUSD o))
      (Tokens w) (TaskTokens w) (ReservedTokens w + rs_Tokens o)
      (ReservedTaskTokens w + if String.eqb (rs_BeadID o) (rs_BeadID r) then rs_Tokens o else 0)).
  { unfold hold_step, Before. unfold holds in Eh. rewrite Eh. cbv iota.
    rewrite (wrap64_id (ReservedTokens w + rs_Tokens o)) by (unfold int64, MinInt64, MaxInt64 in *; lia).
    f_equal. destruct (String.eqb (rs_BeadID o) (rs_BeadID r)); [|lia].
    apply wrap64_id. unfold int64, MinInt64, MaxInt64 in *. lia. }
  rewrite Hs. clear Hs.
  match goal with |- context [fold_left (hold_step p r) l ?w'] => pose proof (IH w') as IHw end.
  cbn [ReservedTokens ReservedTaskTokens Tokens TaskTokens] in IHw. cbv zeta in IHw |- *.
  destruct (String.eqb (rs_BeadID o) (rs_BeadID r)); specialize (IHw Hp ltac:(lia) ltac:(lia) ltac:(lia) ltac:(lia)); lia.
Qed.

Section reserve.
Context `{MapRange}.

Definition cost_fits (m : Memory) (p : string) (ceiling : Budget) (want : Budget.Spend) (r : Reservation) : Prop :=
  flt fzero (rs_CostUSD r) = true →
  FitsCost (Remain ceiling (fold_left (hold_step p r) (range_map (reservations m)).*2 want)) (rs_CostUSD r) = true.
Definition month_fits (m : Memory) (p : string) (ceiling : Budget) (want : Budget.Spend) (r : Reservation) : Prop :=
  MonthlyTokens ceiling = UnlimitedTokens ∨
  (0 <= Tokens want ∧ Tokens want + (ReservedTokens want + held_tokens m p (rs_CreatedAt r)) + rs_Tokens r
                       <= MonthlyTokens ceiling).
Definition task_fits (m : Memory) (p : string) (ceiling : Budget) (want : Budget.Spend) (r : Reservation) : Prop :=
  PerTaskTokens ceiling = UnlimitedTokens ∨
  (0 <= TaskTokens want ∧
   TaskTokens want + (ReservedTaskTokens want + held_task_tokens m p (rs_BeadID r) (rs_CreatedAt r)) + rs_Tokens r
     <= PerTaskTokens ceiling).

(** Numbers as the service passes them: nothing past the machine's range. *)
Record reserve_input_ok (m : Memory) (p : string) (ceiling : Budget) (want : Budget.Spend) (r : Reservation) : Prop := {
  ri_money : validateFiniteMoney [rs_CostUSD r; rs_SyntheticCostUSD r] = None;
  ri_tokens : 0 < rs_Tokens r;
  ri_held : ∀ k o, reservations m !! k = Some o → 0 <= rs_Tokens o;
  ri_ceilings : 0 <= MonthlyTokens ceiling <= MaxInt64 ∧ 0 <= PerTaskTokens ceiling <= MaxInt64;
  ri_observed : int64 (Tokens want) ∧ int64 (TaskTokens want);
  ri_reserved : 0 <= ReservedTokens want ∧ 0 <= ReservedTaskTokens want;
  ri_sums : ReservedTokens want + held_tokens m p (rs_CreatedAt r) <= MaxInt64 ∧
    ReservedTaskTokens want + held_task_tokens m p (rs_BeadID r) (rs_CreatedAt r) <= MaxInt64;
}.

Lemma range_all m : (range_map (reservations m)).*2 ≡ₚ all_reservations m.
Proof. unfold all_reservations. apply fmap_Permutation, range_map_perm. Qed.

(** The legs in their order. *)
Lemma missingLeg_spec rem r :
  let cost := flt fzero (rs_CostUSD r) = true → FitsCost rem (rs_CostUSD r) = true in
  let month := FitsMonthTokens rem (rs_Tokens r) = true in
  let task := FitsTaskTokens rem (rs_Tokens r) = true in
  (missingLeg rem r = "" ∧ cost ∧ month ∧ task) ∨
  (missingLeg rem r ≠ "" ∧
   ((missingLeg rem r = MissCost ∧ ¬ cost) ∨ (missingLeg rem r = MissMonthlyTokens ∧ cost ∧ ¬ month) ∨
    (missingLeg rem r = MissTaskTokens ∧ cost ∧ month ∧ ¬ task))).
Proof.
  cbv zeta. unfold missingLeg.
  destruct (flt _ _), (FitsCost _ _); cbn [andb negb];
    try (right; split; [discriminate|]; left; split; [reflexivity|]; intros Hc; by specialize (Hc eq_refl));
    (destruct (FitsMonthTokens _ _); cbn [negb];
     [|right; split; [discriminate|]; right; left; split_and!; done]);
    (destruct (FitsTaskTokens _ _); cbn [negb];
     [left; split_and!; done|right; split; [discriminate|]; right; right; split_and!; done]).
Qed.

(** The token legs after the loop, as integers. *)
Lemma token_legs m p ceiling want r :
  reserve_input_ok m p ceiling want r →
  let rem := Remain ceiling (fold_left (hold_step p r) (range_map (reservations m)).*2 want) in
  (FitsMonthTokens rem (rs_Tokens r) = true ↔ month_fits m p ceiling want r) ∧
  (FitsTaskTokens rem (rs_Tokens r) = true ↔ task_fits m p ceiling want r).
Proof.
  intros [Hm Ht Hh [Hc1 Hc2] [Ho1 Ho2] [Hr1 Hr2] [Hs1 Hs2]]. cbv zeta.
  assert (Hp : Forall (λ o, 0 <= rs_Tokens o) (range_map (reservations m)).*2).
  { apply Forall_forall. intros o Ho. rewrite range_all in Ho. apply all_reservations_elem in Ho as [k Hk]. eauto. }
  pose proof (tokens_of_perm (holds p (rs_CreatedAt r)) _ _ (range_all m)) as P1.
  pose proof (tokens_of_perm (λ o, holds p (rs_CreatedAt r) o && String.eqb (rs_BeadID o) (rs_BeadID r)) _ _ (range_all m)) as P2.
  fold (held_tokens m p (rs_CreatedAt r)) in P1. fold (held_task_tokens m p (rs_BeadID r) (rs_CreatedAt r)) in P2.
  pose proof (tokens_of_nonneg (holds p (rs_CreatedAt r)) _ Hp) as N1.
  pose proof (tokens_of_nonneg (λ o, holds p (rs_CreatedAt r) o && String.eqb (rs_BeadID o) (rs_BeadID r)) _ Hp) as N2.
  destruct (hold_fold p r (range_map (reservations m)).*2 want Hp Hr1 Hr2) as (E1 & E2 & E3 & E4); [lia|lia|].
  rewrite P1 in E3, N1. rewrite P2 in E4, N2.
  unfold FitsMonthTokens, FitsTaskTokens, month_fits, task_fits. cbn [Remain RemMonthlyTokens RemPerTaskTokens].
  rewrite E1, E2, E3, E4. rewrite !fits_remainTokens; try done; try (unfold int64, MinInt64, MaxInt64 in *; lia).
  unfold UnlimitedTokens. lia.
Qed.

(** One call, one answer. On books with one open reservation per piece of work:
    work that has an open reservation gets that one back, and nothing is
    written; other work is admitted exactly when its dollars (if it has a price)
    and its tokens fit under the ceilings on top of everything observed and
    everything held at that instant by any reservation of the project, however
    the map is ordered; then exactly it is written; and a refusal names the
    first leg that does not fit and writes nothing. *)
Theorem ReserveIfFits_exact (m : Memory) (p : string) (ceiling : Budget) (want : Budget.Spend)
    (r : Reservation) (Hb : books_ok m) (Hi : reserve_input_ok m p ceiling want r) :
  let '(res, m') := ReserveIfFits m p ceiling want r in
  (∀ k o, reservations m !! k = Some o → same_work p r o = true →
     res = Ok (mkReserveResult o true true "") ∧ m' = m) ∧
  ((∀ k o, reservations m !! k = Some o → same_work p r o = false) →
     (cost_fits m p ceiling want r ∧ month_fits m p ceiling want r ∧ task_fits m p ceiling want r ∧
      res = Ok (mkReserveResult r true false "") ∧
      m' = set_reservations m (<[rs_ID r := r]> (reservations m))) ∨
     (m' = m ∧ ∃ miss, res = Ok (mkReserveResult Reservation_zero false false miss) ∧
      ((miss = MissCost ∧ ¬ cost_fits m p ceiling want r) ∨
       (miss = MissMonthlyTokens ∧ cost_fits m p ceiling want r ∧ ¬ month_fits m p ceiling want r) ∨
       (miss = MissTaskTokens ∧ cost_fits m p ceiling want r ∧ month_fits m p ceiling want r ∧
        ¬ task_fits m p ceiling want r)))).
Proof.
  destruct (token_legs m p ceiling want r Hi) as [Hmo Hta]. unfold ReserveIfFits.
  rewrite (ri_money _ _ _ _ _ Hi). pose proof (find_open m p r) as Hf.
  destruct (List.find _ _) as [o|] eqn:E.
  { destruct Hf as (k & Hk & Hs). split; [|intros Hno; by rewrite (Hno _ _ Hk) in Hs].
    intros k' o' Hk' Hs'. apply same_work_spec in Hs as (P1 & B1 & S1 & U1), Hs' as (P2 & B2 & S2 & U2).
    assert (k = k') as <- by (eapply (bk_open _ Hb); [exact Hk|exact Hk'|congruence..]).
    rewrite Hk in Hk'. by injection Hk' as <-. }
  unfold cost_fits.
  set (rem := Remain _ _) in *. destruct (missingLeg_spec rem r) as [(-> & H1 & H2 & H3)|(Hne & Hmiss)].
  - change (negb (String.eqb "" "")) with false. cbv iota beta.
    split; [intros k o Hk Hs; by rewrite (Hf _ _ Hk) in Hs|intros _]. left. rewrite <- Hmo, <- Hta. done.
  - apply String.eqb_neq in Hne. rewrite Hne. cbn [negb]. cbv iota beta.
    split; [intros k o Hk Hs; by rewrite (Hf _ _ Hk) in Hs|intros _].
    right. split; [done|]. eexists. split; [done|]. rewrite <- Hmo, <- Hta. done.
Qed.

Lemma ReserveIfFits_admits m p ceiling want r :
  reserve_input_ok m p ceiling want r →
  reservations (ReserveIfFits m p ceiling want r).2 = reservations m ∨
  (month_fits m p ceiling want r ∧ task_fits m p ceiling want r ∧
   reservations (ReserveIfFits m p ceiling want r).2 = <[rs_ID r := r]> (reservations m)).
Proof.
  intros Hi. destruct (token_legs m p ceiling want r Hi) as [Hmo Hta]. unfold ReserveIfFits.
  case_match; [by left|]. case_match; [by left|]. case_match eqn:Em; [by left|].
  right. apply negb_false_iff, String.eqb_eq in Em.
  destruct (missingLeg_spec (Remain ceiling (fold_left (hold_step p r) (range_map (reservations m)).*2 want)) r)
    as [(_ & _ & Hm1 & Hm2)|[Hne _]]; [|done]. split; [by apply Hmo|]. split; [by apply Hta|done].
Qed.
End reserve.

(** The witness's books: one session of [app] in flight on bead [b-1], on a
    month with 1000 tokens of which 200 are observed. *)
Definition demo_reservation (id bead session : string) (tokens : Z) : Reservation :=
  mkReservation id "app" bead session "qwen" 1 fzero fzero tokens 100 1000 false.
Definition demo_store : Memory :=
  set_reservations NewMemory {["r1" := demo_reservation "r1" "b-1" "s-1" 500]}.
Definition demo_ceiling : Budget := mkBudget fzero 1000 MaxInt64.
Definition demo_want : Budget.Spend := mkSpend fzero fzero fzero fzero 200 0 0 0.

Lemma demo_store_books : books_ok demo_store.
Proof.
  split.
  - intros k r. cbn [demo_store reservations set_reservations].
    intros [<- <-]%lookup_singleton_Some. reflexivity.
  - intros k k' r r'. cbn [demo_store reservations set_reservations].
    intros [<- _]%lookup_singleton_Some [<- _]%lookup_singleton_Some. done.
Qed.

Lemma ReserveIfFits_exact_witness :
  (@ReserveIfFits range_canonical demo_store "app" demo_ceiling demo_want
    (demo_reservation "r2" "b-2" "s-2" 301)).1
  = Ok (mkReserveResult Reservation_zero false false MissMonthlyTokens).
Proof.
  set (r := demo_reservation "r2" "b-2" "s-2" 301).
  assert (Hi : reserve_input_ok demo_store "app" demo_ceiling demo_want r).
  { split; try (vm_compute; repeat split; (reflexivity || discriminate)).
    intros k o. cbn [demo_store reservations set_reservations].
    intros [<- <-]%lookup_singleton_Some. discriminate. }
  pose proof (@ReserveIfFits_exact range_canonical demo_store "app" demo_ceiling demo_want r
    demo_store_books Hi) as Hx.
  destruct (ReserveIfFits demo_store "app" demo_ceiling demo_want r) as [res m'] eqn:E.
  destruct Hx as [_ Hx]. destruct Hx as [Hfit|(_ & miss & -> & Hmiss)].
  - intros k o. cbn [demo_store reservations set_reservations].
    intros [<- <-]%lookup_singleton_Some. reflexivity.
  - exfalso. destruct Hfit as (_ & [Hu|[_ Hm]] & _); vm_compute in *; congruence.
  - simpl. destruct Hmiss as [[-> Hc]|[[-> _]|(-> & _ & Hm & _)]].
    + exfalso. apply Hc. intros Hf. vm_compute in Hf. discriminate.
    + reflexivity.
    + exfalso. destruct Hm as [Hu|[_ Hm]]; vm_compute in *; congruence.
Defined.

(** ** Races *)

Lemma held_later m p t t' :
  (∀ k o, reservations m !! k = Some o → 0 <= rs_Tokens o) → t <= t' →
  0 <= held_tokens m p t' <= held_tokens m p t.
Proof.
  intros Hp Ht.
  assert (Hf : Forall (λ o, 0 <= rs_Tokens o) (all_reservations m)).
  { apply Forall_forall. intros o [k Hk]%all_reservations_elem. eauto. }
  split; [by apply tokens_of_nonneg|]. apply tokens_of_le; [done|]. intros o _. unfold holds.
  rewrite !andb_true_iff, !Z.ltb_lt. intros [? ?]. split; [done|lia].
Qed.

Lemma held_task_le m p b t :
  (∀ k o, reservations m !! k = Some o → 0 <= rs_Tokens o) →
  0 <= held_task_tokens m p b t <= held_tokens m p t.
Proof.
  intros Hp.
  assert (Hf : Forall (λ o, 0 <= rs_Tokens o) (all_reservations m)).
  { apply Forall_forall. intros o [k Hk]%all_reservations_elem. eauto. }
  split; [by apply tokens_of_nonneg|]. apply tokens_of_le; [done|]. intros o _.
  rewrite andb_true_iff. tauto.
Qed.

(** A sum over the reservations, by the key they are stored under. *)
Definition sum_of (f : string → Reservation → Z) (M : gmap string Reservation) : Z :=
  foldr (λ kr n, f kr.1 kr.2 + n) 0 (map_to_list M).

Lemma sum_of_mono f g M :
  (∀ k r, M !! k = Some r → f k r <= g k r) → sum_of f M <= sum_of g M.
Proof.
  intros Hfg. unfold sum_of.
  assert (Hl : ∀ kr, kr ∈ map_to_list M → f kr.1 kr.2 <= g kr.1 kr.2).
  { intros [k r] Hin. by apply Hfg, elem_of_map_to_list. }
  revert Hl. generalize (map_to_list M). induction l as [|kr l IH]; intros Hl; simpl; [lia|].
  assert (f kr.1 kr.2 <= g kr.1 kr.2) by (apply Hl; by left).
  assert (foldr (λ kr n, f kr.1 kr.2 + n) 0 l <= foldr (λ kr n, g kr.1 kr.2 + n) 0 l)
    by (apply IH; intros; apply Hl; by right). lia.
Qed.

Lemma sum_of_plus f g M : sum_of (λ k r, f k r + g k r) M = sum_of f M + sum_of g M.
Proof. unfold sum_of. induction (map_to_list M) as [|kr l IH]; simpl; lia. Qed.

Lemma sum_of_perm f l l' :
  l ≡ₚ l' → foldr (λ (kr : string * Reservation) n, f kr.1 kr.2 + n) 0 l
            = foldr (λ (kr : string * Reservation) n, f kr.1 kr.2 + n) 0 l'.
Proof. induction 1; simpl; lia. Qed.

Lemma sum_of_insert f M k r :
  sum_of f (<[k := r]> M) = f k r + sum_of f (delete k M).
Proof.
  unfold sum_of. rewrite <- insert_delete_eq.
  erewrite sum_of_perm; [|apply map_to_list_insert, lookup_delete_eq]. done.
Qed.

Lemma sum_of_lookup f M k r : M !! k = Some r → sum_of f M = f k r + sum_of f (delete k M).
Proof. intros Hk. rewrite <- (insert_id M k r Hk) at 1. apply sum_of_insert. Qed.

Lemma sum_of_fmap f g M : sum_of f (g <$> M) = sum_of (λ k r, f k (g r)) M.
Proof.
  unfold sum_of. rewrite map_to_list_fmap.
  induction (map_to_list M) as [|[k r] l IH]; [done|]. cbn. by rewrite IH.
Qed.

Lemma held_sum m p t :
  held_tokens m p t = sum_of (λ _ r, if holds p t r then rs_Tokens r else 0) (reservations m).
Proof.
  unfold held_tokens, all_reservations, sum_of, tokens_of.
  induction (map_to_list (reservations m)) as [|[k r] l IH]; [done|]. cbn. by rewrite IH.
Qed.

Section race.
Context `{MapRange}.
(** One project and its month's ceiling, the loosest of those passed. *)
Context (p : string) (limit : Z).

(** What a month of a project consists of: the meter's books and the clock; the
    tokens each session spent within what was reserved for it while that was
    held; every other token the project spent (before, past an estimate, past a
    deadline, after a report, without a reservation); and, of all that, what
    the spend snapshot of the last admission did not include and what was spent
    outside of any reservation since. *)
Record Month := mkMonth {
  mo_books : Memory;
  mo_now : Time;
  mo_used : string → Z;
  mo_other : Z;
  mo_unseen : Z;
}.

Definition of_project (r : Reservation) : bool := String.eqb (rs_Project r) p.
(** Its session may spend on it. *)
Definition running (t : Time) (r : Reservation) : bool :=
  of_project r && negb (rs_Settled r) && (t <? rs_ExpiresAt r).

(** What was spent; what running sessions may still spend within what is
    reserved for them; and what was spent on reservations no longer held. *)
Definition spent_tokens (s : Month) : Z :=
  sum_of (λ k r, if of_project r then mo_used s k else 0) (reservations (mo_books s)) + mo_other s.
Definition promised_tokens (s : Month) : Z :=
  sum_of (λ k r, if running (mo_now s) r then rs_Tokens r - mo_used s k else 0) (reservations (mo_books s)).
Definition let_go (s : Month) (t : Time) : Z :=
  sum_of (λ k r, if of_project r && negb (holds p t r) then mo_used s k else 0) (reservations (mo_books s)).

(** What concurrent callers, sessions, the janitor and the poller do while time
    passes. A caller brings whatever spend snapshot it read, however long ago,
    and a clock of its own; an admission leaves unseen what the snapshot misses
    of the spend that no reservation holds any more. An outcome is reported at
    any time, also when the reservation has lapsed and was reaped, and has its
    tokens held until any time. *)
Inductive live_step : Month → Month → Prop :=
| live_reserve m t u o e c w r :
    rs_Project r = p → reservations m !! rs_ID r = None → 0 < rs_Tokens r →
    validateFiniteMoney [rs_CostUSD r; rs_SyntheticCostUSD r] = None →
    int64 (Tokens w) → int64 (TaskTokens w) → ReservedTokens w = 0 → ReservedTaskTokens w = 0 →
    held_tokens m p (rs_CreatedAt r) <= MaxInt64 →
    0 <= MonthlyTokens c <= limit → 0 <= PerTaskTokens c <= MaxInt64 →
    live_step (mkMonth m t u o e)
      (mkMonth (ReserveIfFits m p c w r).2 (Z.max t (rs_CreatedAt r)) u o
        (match reservations (ReserveIfFits m p c w r).2 !! rs_ID r with
         | None => e
         | Some _ => Z.max 0 (let_go (mkMonth m t u o e) (rs_CreatedAt r) + o - Tokens w)
         end))
| live_reserve_other m t u o e p' c w r :
    p' ≠ p → rs_Project r = p' → reservations m !! rs_ID r = None → 0 <= rs_Tokens r →
    live_step (mkMonth m t u o e) (mkMonth (ReserveIfFits m p' c w r).2 t u o e)
| live_settle m t u o e id h :
    live_step (mkMonth m t u o e) (mkMonth (Settle m id h) t u o e)
| live_other m t u o e a :
    (∀ p c w r, a ≠ OpReserve p c w r) → (∀ id h, a ≠ OpSettle id h) →
    live_step (mkMonth m t u o e) (mkMonth (apply m a) t u o e)
| live_clock m t u o e t' :
    t <= t' → live_step (mkMonth m t u o e) (mkMonth m t' u o e)
| live_spend m t u o e k r n :
    reservations m !! k = Some r → running t r = true → 0 <= n → u k + n <= rs_Tokens r →
    live_step (mkMonth m t u o e) (mkMonth m t (<[k := u k + n]> u) o e)
| live_stray m t u o e n :
    0 <= n → live_step (mkMonth m t u o e) (mkMonth m t u (o + n) (e + n)).

(** What is spent on a reservation or may yet be. *)
Definition at_stake (t : Time) (u : string → Z) (k : string) (r : Reservation) : Z :=
  if running t r then rs_Tokens r else if of_project r then u k else 0.

Record safe (s : Month) : Prop := {
  sf_used : ∀ k r, reservations (mo_books s) !! k = Some r → 0 <= mo_used s k <= rs_Tokens r;
  sf_fresh : ∀ k, reservations (mo_books s) !! k = None → mo_used s k = 0;
  sf_limit : sum_of (at_stake (mo_now s) (mo_used s)) (reservations (mo_books s)) + mo_other s
               <= limit + mo_unseen s;
}.

Lemma at_stake_sum s :
  sum_of (at_stake (mo_now s) (mo_used s)) (reservations (mo_books s)) + mo_other s = spent_tokens s + promised_tokens s.
Proof.
  unfold spent_tokens, promised_tokens.
  assert (E : ∀ f g h M, (∀ k r, h k r = f k r + g k r) → sum_of h M = sum_of f M + sum_of g M).
  { intros f g h M Hh. rewrite <- sum_of_plus. apply Z.le_antisymm; apply sum_of_mono; intros k r _; by rewrite Hh. }
  rewrite (E (λ k r, if of_project r then mo_used s k else 0)
    (λ k r, if running (mo_now s) r then rs_Tokens r - mo_used s k else 0)); [lia|].
  intros k r. unfold at_stake, running. destruct (of_project r); cbn [andb]; repeat case_match; lia.
Qed.

(** Less is at stake later, and on a reservation that is reported or reaped. *)
Lemma at_stake_le t t' u k r r' :
  rs_Project r' = rs_Project r → rs_Tokens r' = rs_Tokens r → 0 <= u k <= rs_Tokens r →
  (running t' r' = true → running t r = true) → at_stake t' u k r' <= at_stake t u k r.
Proof.
  intros Hp Ht Hu Hr. unfold at_stake, of_project. rewrite Hp, Ht.
  destruct (running t' r') eqn:E; [rewrite (Hr eq_refl); lia|].
  destruct (running t r) eqn:E'; [|lia].
  unfold running, of_project in E'. unfold of_project. destruct (String.eqb (rs_Project r) p); [lia|done].
Qed.

Lemma running_later t t' r : t <= t' → running t' r = true → running t r = true.
Proof. unfold running. rewrite !andb_true_iff, !Z.ltb_lt. intros ? ([? ?] & ?). split_and!; [done..|lia]. Qed.

Lemma safe_books m m' t t' u o e :
  reservations m' = reservations m → t <= t' → safe (mkMonth m t u o e) → safe (mkMonth m' t' u o e).
Proof.
  intros E Ht [Hu Hf Hl]. split; cbn [mo_books mo_now mo_used mo_other mo_unseen] in *; rewrite E; try done.
  etransitivity; [|exact Hl]. apply Z.add_le_mono_r, sum_of_mono. intros k r Hk.
  apply at_stake_le; eauto. intros Hr. by eapply running_later.
Qed.

(** At an admission nothing is at stake but what was held and what was let go. *)
Lemma at_stake_admitted m t t' c u o e :
  safe (mkMonth m t u o e) → c <= t' →
  sum_of (at_stake t' u) (reservations m) <= held_tokens m p c + let_go (mkMonth m t u o e) c.
Proof.
  intros [Hu _ _] Ht. rewrite held_sum. unfold let_go. cbn [mo_books mo_used] in *.
  rewrite <- sum_of_plus. apply sum_of_mono. intros k r Hk. specialize (Hu k r Hk).
  unfold at_stake, running, holds, of_project.
  destruct (String.eqb (rs_Project r) p); cbn [andb negb]; [|lia].
  destruct (rs_Settled r), (Z.ltb_spec t' (rs_ExpiresAt r)), (Z.ltb_spec c (rs_ExpiresAt r));
    cbn [andb negb]; lia.
Qed.

Lemma at_stake_new t u k r : u k = 0 → 0 <= rs_Tokens r → at_stake t u k r <= rs_Tokens r.
Proof. intros Hu Hp. unfold at_stake. repeat case_match; lia. Qed.

Lemma safe_admit m m' t t' u o e e' r :
  safe (mkMonth m t u o e) → reservations m !! rs_ID r = None → 0 <= rs_Tokens r →
  reservations m' = <[rs_ID r := r]> (reservations m) →
  at_stake t' u (rs_ID r) r + sum_of (at_stake t' u) (reservations m) + o <= limit + e' →
  safe (mkMonth m' t' u o e').
Proof.
  intros [Hu Hf Hl] Hk Hp E Hx. split; cbn [mo_books mo_now mo_used mo_other mo_unseen] in *; rewrite E.
  - intros k r' [[<- <-]|[_ Hk']]%lookup_insert_Some; [|by apply Hu]. rewrite Hf by done. lia.
  - intros k [Hk' _]%lookup_insert_None. by apply Hf.
  - rewrite sum_of_insert, delete_id by done. lia.
Qed.

(** Replacing reservations by ones on which no more is at stake. *)
Lemma safe_shrink m m' t u o e (f : string → Reservation → Reservation) :
  (∀ k, reservations m' !! k = f k <$> reservations m !! k) →
  (∀ k r, rs_Project (f k r) = rs_Project r ∧ rs_Tokens (f k r) = rs_Tokens r ∧
          (running t (f k r) = true → running t r = true)) →
  sum_of (at_stake t u) (reservations m') = sum_of (λ k r, at_stake t u k (f k r)) (reservations m) →
  safe (mkMonth m t u o e) → safe (mkMonth m' t u o e).
Proof.
  intros E Hf Es [Hu Hfr Hl]. split; cbn [mo_books mo_now mo_used mo_other mo_unseen] in *.
  - intros k r. rewrite E. intros (r0 & Hk & ->)%fmap_Some. destruct (Hf k r0) as (_ & -> & _). by apply Hu.
  - intros k. rewrite E. intros Hk%fmap_None. by apply Hfr.
  - rewrite Es. etransitivity; [|exact Hl]. apply Z.add_le_mono_r, sum_of_mono. intros k r Hk.
    destruct (Hf k r) as (H1 & H2 & H3). apply at_stake_le; eauto.
Qed.

Lemma safe_settle m t u o e id h :
  safe (mkMonth m t u o e) → safe (mkMonth (Settle m id h) t u o e).
Proof.
  intros Hs. unfold Settle. destruct (reservations m !! id) as [r|] eqn:E; [|done].
  apply (safe_shrink m _ t u o e (λ k r, if decide (k = id) then settled_until r h else r)); [| | |done].
  - intros k. cbn [reservations set_reservations]. rewrite lookup_insert. rewrite (decide_ext (id = k) (k = id)) by done.
    case_decide as Hk; [by rewrite Hk, E|]. by destruct (_ !! k).
  - intros k r0. case_decide; [|done]. split_and!; [done..|]. unfold running. simpl. by rewrite andb_false_r.
  - cbn [reservations set_reservations]. rewrite sum_of_insert, (sum_of_lookup _ _ _ _ E), decide_True by done.
    f_equal. apply Z.le_antisymm; apply sum_of_mono; intros k r0 [Hk _]%lookup_delete_Some; by rewrite decide_False.
Qed.

Lemma safe_reap m now t u o e :
  safe (mkMonth m t u o e) → safe (mkMonth (ExpireReservations m now).2 t u o e).
Proof.
  intros Hs. destruct (ExpireReservations_spec m now) as [_ E].
  apply (safe_shrink m _ t u o e (λ _, reap now)); [| | |done].
  - intros k. by rewrite E, lookup_fmap.
  - intros k r. destruct (reap_fields now r) as (_ & -> & _ & _ & -> & _ & He). split_and!; [done..|].
    intros Hr. rewrite <- He; [done|]. unfold running in Hr. by destruct (rs_Settled (reap now r)), (of_project (reap now r)).
  - by rewrite E, sum_of_fmap.
Qed.

Lemma safe_reserve m t u o e c w r :
  limit < MaxInt64 → safe (mkMonth m t u o e) →
  rs_Project r = p → reservations m !! rs_ID r = None → 0 < rs_Tokens r →
  reserve_input_ok m p c w r → ReservedTokens w = 0 → MonthlyTokens c <= limit →
  safe (mkMonth (ReserveIfFits m p c w r).2 (Z.max t (rs_CreatedAt r)) u o
        (match reservations (ReserveIfFits m p c w r).2 !! rs_ID r with
         | None => e
         | Some _ => Z.max 0 (let_go (mkMonth m t u o e) (rs_CreatedAt r) + o - Tokens w)
         end)).
Proof.
  intros Hlim Hs Hp Hk Hpos Hi Hz Hc.
  destruct (ReserveIfFits_admits m p c w r Hi) as [E|(Hm & _ & E')].
  { rewrite E, Hk. apply (safe_books m _ t); [exact E|lia|done]. }
  rewrite E', lookup_insert_eq.
  apply (safe_admit m _ t _ u o e _ r Hs Hk ltac:(lia) E').
  pose proof (at_stake_admitted m t (Z.max t (rs_CreatedAt r)) (rs_CreatedAt r) u o e Hs ltac:(lia)).
  pose proof (at_stake_new (Z.max t (rs_CreatedAt r)) u (rs_ID r) r (sf_fresh _ Hs _ Hk) ltac:(lia)).
  unfold month_fits, UnlimitedTokens in Hm. lia.
Qed.

Lemma safe_spend m t u o e k r n :
  safe (mkMonth m t u o e) → reservations m !! k = Some r → running t r = true → 0 <= n →
  u k + n <= rs_Tokens r → safe (mkMonth m t (<[k := u k + n]> u) o e).
Proof.
  intros [Hu Hf Hl] Hk Hr Hn Hle. split; cbn [mo_books mo_now mo_used mo_other mo_unseen] in *.
  - intros k' r' Hk'. destruct (decide (k' = k)) as [->|Hne]; [|rewrite fn_lookup_insert_ne by done; by apply Hu].
    rewrite fn_lookup_insert. specialize (Hu k r Hk). replace r' with r by congruence. lia.
  - intros k' Hk'. rewrite fn_lookup_insert_ne by congruence. by apply Hf.
  - etransitivity; [|exact Hl]. apply Z.add_le_mono_r, sum_of_mono. intros k' r' Hk'. unfold at_stake.
    destruct (decide (k' = k)) as [->|Hne]; [|by rewrite fn_lookup_insert_ne].
    replace r' with r by congruence. by rewrite Hr.
Qed.

Lemma safe_step s s' : limit < MaxInt64 → safe s → live_step s s' → safe s'.
Proof.
  intros Hlim Hs Hstep.
  destruct Hstep as [m t u o e c w r Hp Hf Hpos Hfin Hi1 Hi2 Hz1 Hz2 Hsum Hc1 Hc2
    |m t u o e p' c w r Hne Hp Hf Hpos|m t u o e id h|m t u o e a H1 H2|m t u o e t' Ht
    |m t u o e k r n Hk Hr Hn Hle|m t u o e n Hn].
  - assert (Htok : ∀ k o, reservations m !! k = Some o → 0 <= rs_Tokens o).
    { intros k r' Hk. pose proof (sf_used _ Hs k r' Hk). lia. }
    pose proof (held_task_le m p (rs_BeadID r) (rs_CreatedAt r) Htok).
    apply safe_reserve; try done; [|lia]. split; try done; try lia.
  - destruct (ReserveIfFits_books m p' c w r) as [E|[_ E]]; [by eapply safe_books|].
    apply (safe_admit m _ t t u o e e r Hs Hf Hpos E). pose proof (sf_limit _ Hs) as Hl. cbn in Hl.
    assert (at_stake t u (rs_ID r) r = 0) as ->; [|lia].
    unfold at_stake, running, of_project. rewrite Hp. by destruct (String.eqb_spec p' p).
  - by apply safe_settle.
  - assert (Hd : (∃ now, a = OpExpireReservations now) ∨ ∀ now, a ≠ OpExpireReservations now)
      by (destruct a; solve [right; discriminate | left; by eexists]).
    destruct Hd as [[now ->]|Hno]; [by apply safe_reap|].
    eapply safe_books; [by apply apply_reservations|reflexivity|done].
  - by eapply safe_books.
  - by eapply safe_spend.
  - destruct Hs as [Hu Hfr Hl]. split; cbn [mo_books mo_now mo_used mo_other mo_unseen] in *; [done..|lia].
Qed.

Lemma promised_nonneg s : safe s → 0 <= promised_tokens s.
Proof.
  intros [Hu _ _]. unfold promised_tokens.
  transitivity (sum_of (λ _ _, 0) (reservations (mo_books s))).
  - unfold sum_of. clear Hu. induction (map_to_list _) as [|kr l IH]; simpl; lia.
  - apply sum_of_mono. intros k r Hk. specialize (Hu k r Hk). case_match; lia.
Qed.
End race.

(** C2. No race overspends a month. Let any number of callers reserve for a
    project in any order, each for a positive estimate under an identity not in
    use, on whatever spend snapshot it read and under a ceiling within the limit,
    with what is held within the machine's integers, while
    sessions spend, outcomes are reported in time, late or twice, the janitor
    runs, the poller adds rows, other projects reserve, prompts and traces come
    and go and the clock moves on. At every moment what the project has spent
    and what its running sessions may still spend of what is reserved for them
    are together within the ceiling, but for what no admission could count: the
    spend of released reservations that the snapshot of the last admission did
    not show, and spend since then that no running reservation covered. *)
Theorem races_never_overspend (R : MapRange) (p : string) (limit : Z) (s s' : Month)
    (Hl : limit < MaxInt64) (Hs : safe p limit s) (Hrun : rtc (@live_step R p limit) s s') :
  0 <= promised_tokens p s' ∧ spent_tokens p s' + promised_tokens p s' <= limit + mo_unseen s'.
Proof.
  assert (Hs' : safe p limit s').
  { induction Hrun as [|x y z Hstep _ IH]; [done|]. apply IH. by eapply safe_step. }
  split; [by eapply promised_nonneg|]. rewrite <- at_stake_sum. apply sf_limit. done.
Qed.

Lemma races_never_overspend_witness :
  let call id bead session := OpReserve "app" demo_ceiling demo_want (demo_reservation id bead session 400) in
  let m1 := @apply range_canonical NewMemory (call "r1" "b-1" "s-1") in
  let m2 := @apply range_canonical m1 (call "r2" "b-2" "s-2") in
  let m3 := Settle (@apply range_canonical m2 (OpExpireReservations 2000)) "r1" 5000 in
  let m4 := @apply range_canonical m3 (call "r3" "b-3" "s-3") in
  let s := mkMonth m4 2000 (<["r1" := 300]> (λ _, 0)) 200 0 in
  spent_tokens "app" s = 500 ∧ held_tokens m3 "app" 2000 = 400 ∧
  (0 <= promised_tokens "app" s ∧ spent_tokens "app" s + promised_tokens "app" s <= 1000 + mo_unseen s).
Proof.
  intros call m1 m2 m3 m4 s. split; [vm_compute; reflexivity|]. split; [vm_compute; reflexivity|].
  apply (races_never_overspend range_canonical "app" 1000 (mkMonth NewMemory 100 (λ _, 0) 200 0) s).
  - unfold MaxInt64. lia.
  - split; cbn [mo_books mo_now mo_used mo_other mo_unseen]; [|done|vm_compute; discriminate].
    intros k r Hk. cbn in Hk. by rewrite lookup_empty in Hk.
  - assert (Hstep : ∀ m t u e e' id bead session,
      reservations m !! id = None → held_tokens m "app" 100 <= MaxInt64 → Z.max t 100 = t →
      match reservations (@apply range_canonical m (call id bead session)) !! id with
      | None => e | Some _ => Z.max 0 (let_go "app" (mkMonth m t u 200 e) 100 + 200 - 200) end = e' →
      live_step "app" 1000 (mkMonth m t u 200 e) (mkMonth (@apply range_canonical m (call id bead session)) t u 200 e')).
    { intros m t u e e' id bead session Hid Hheld Ht <-. rewrite <- Ht at 2.
      refine (live_reserve "app" 1000 m t u 200 e demo_ceiling demo_want (demo_reservation id bead session 400)
        eq_refl Hid _ _ _ _ eq_refl eq_refl Hheld _ _);
        vm_compute; repeat split; (reflexivity || discriminate). }
    set (u0 := λ _ : string, 0). set (u1 := <["r1" := 300]> u0).
    assert (S1 : live_step "app" 1000 (mkMonth NewMemory 100 u0 200 0) (mkMonth m1 100 u0 200 0))
      by (apply Hstep; vm_compute; (reflexivity || discriminate)).
    assert (S2 : live_step "app" 1000 (mkMonth m1 100 u0 200 0) (mkMonth m2 100 u0 200 0))
      by (apply Hstep; vm_compute; (reflexivity || discriminate)).
    assert (S3 : live_step "app" 1000 (mkMonth m2 100 u0 200 0) (mkMonth m2 100 u1 200 0))
      by (apply (live_spend "app" 1000 m2 100 u0 200 0 "r1" (demo_reservation "r1" "b-1" "s-1" 400) 300);
          vm_compute; (reflexivity || discriminate)).
    assert (S4 : live_step "app" 1000 (mkMonth m2 100 u1 200 0) (mkMonth m2 2000 u1 200 0))
      by (apply live_clock; vm_compute; discriminate).
    assert (S5 : live_step "app" 1000 (mkMonth m2 2000 u1 200 0)
                   (mkMonth (@apply range_canonical m2 (OpExpireReservations 2000)) 2000 u1 200 0))
      by (apply live_other; done).
    assert (S6 : live_step "app" 1000 (mkMonth (@apply range_canonical m2 (OpExpireReservations 2000)) 2000 u1 200 0)
                   (mkMonth m3 2000 u1 200 0)) by apply live_settle.
    assert (S7 : live_step "app" 1000 (mkMonth m3 2000 u1 200 0) s)
      by (apply Hstep; vm_compute; (reflexivity || discriminate)).
    exact (rtc_l _ _ _ _ S1 (rtc_l _ _ _ _ S2 (rtc_l _ _ _ _ S3 (rtc_l _ _ _ _ S4
      (rtc_l _ _ _ _ S5 (rtc_l _ _ _ _ S6 (rtc_once _ _ S7))))))).
Defined.

(** A reservation past its deadline that no janitor has seen yet is handed back
    as the one that holds the budget, though it holds none. *)
Lemma lapsed_reservation_handed_back :
  let m := demo_store in
  let r := mkReservation "r2" "app" "b-1" "s-1" "qwen" 1 fzero fzero 500 2000 3000 false in
  ∃ o, (@ReserveIfFits range_canonical m "app" demo_ceiling demo_want r).1 = Ok (mkReserveResult o true true "") ∧
    held_tokens m "app" (rs_CreatedAt r) = 0.
Proof. eexists. split; [vm_compute; reflexivity|vm_compute; reflexivity]. Qed.

(** ** The janitor *)

Section janitor.
Context `{MapRange}.

Definition reserved_id (o : op) : list string :=
  match o with OpReserve _ _ _ r => [rs_ID r] | _ => [] end.

(** An execution with the ids the janitor returned, in order. *)
Definition watch (s : Memory * list string) (o : op) : Memory * list string :=
  (apply s.1 o,
   s.2 ++ match o with
          | OpExpireReservations now => rs_ID <$> (ExpireReservations s.1 now).1
          | _ => []
          end).
Definition reaped (ops : list op) : list string := (fold_left watch ops (NewMemory, [])).2.

Lemma watch_run ops : (fold_left watch ops (NewMemory, [])).1 = run ops.
Proof.
  induction ops as [|o ops IH] using rev_ind; [done|].
  rewrite run_snoc, fold_left_app. cbn [fold_left]. unfold watch at 1. cbn [fst]. by rewrite IH.
Qed.

Lemma reaped_snoc ops o :
  reaped (ops ++ [o]) = reaped ops ++ match o with
    | OpExpireReservations now => rs_ID <$> (ExpireReservations (run ops) now).1
    | _ => []
    end.
Proof.
  unfold reaped. rewrite fold_left_app. cbn [fold_left]. unfold watch at 1. cbn [snd].
  by rewrite watch_run.
Qed.

(** What is stored was reserved, under its id; and what the janitor returned is
    stored as settled. *)
Record watch_inv (ops : list op) : Prop := {
  wi_id : ∀ k r, reservations (run ops) !! k = Some r → rs_ID r = k ∧ k ∈ concat (map reserved_id ops);
  wi_reaped : ∀ id, id ∈ reaped ops → ∃ r, reservations (run ops) !! id = Some r ∧ rs_Settled r = true;
  wi_once : NoDup (reaped ops);
}.

Lemma dead_ids m now :
  (∀ k r, reservations m !! k = Some r → rs_ID r = k) →
  NoDup (rs_ID <$> (ExpireReservations m now).1) ∧
  ∀ id, id ∈ rs_ID <$> (ExpireReservations m now).1 ↔ ∃ r, reservations m !! id = Some r ∧ dead now r = true.
Proof.
  intros Hid. destruct (ExpireReservations_spec m now) as [-> _].
  assert (Hkeys : ∀ l : list (string * Reservation), (∀ k r, (k, r) ∈ l → rs_ID r = k) → NoDup l.*1 →
    NoDup (rs_ID <$> List.filter (dead now) l.*2) ∧
    ∀ id, id ∈ rs_ID <$> List.filter (dead now) l.*2 ↔ ∃ r, (id, r) ∈ l ∧ dead now r = true).
  { induction l as [|[k r] l IH]; intros Hl Hnd.
    { split; [constructor|]. intros id. split; [by intros ?%elem_of_nil|]. by intros (r & ?%elem_of_nil & _). }
    cbn [fmap list_fmap] in Hnd. apply NoDup_cons in Hnd as [Hk Hnd].
    destruct IH as [IH1 IH2]; [intros; apply Hl; by right|done|].
    pose proof (Hl k r ltac:(by left)) as Hr.
    rewrite fmap_cons. cbn [List.filter snd]. destruct (dead now r) eqn:Ed.
    - rewrite fmap_cons, Hr. split.
      + apply NoDup_cons. split; [|done]. rewrite IH2. intros (r' & Hin & _). apply Hk.
        apply list_elem_of_fmap. by exists (k, r').
      + intros id. rewrite elem_of_cons, IH2. split.
        * intros [->|(r' & Hin & Hd)]; [exists r; split; [by left|done]|exists r'; split; [by right|done]].
        * intros (r' & [[= -> ->]|Hin]%elem_of_cons & Hd); [by left|right; eauto].
    - split; [done|]. intros id. rewrite IH2. split.
      + intros (r' & Hin & Hd). exists r'. split; [by right|done].
      + intros (r' & [[= -> ->]|Hin]%elem_of_cons & Hd); [congruence|eauto]. }
  destruct (Hkeys (range_map (reservations m))) as [H1 H2].
  - intros k r Hin. by apply Hid, elem_of_range_map.
  - apply NoDup_range_map.
  - split; [done|]. intros id. rewrite H2. by setoid_rewrite elem_of_range_map.
Qed.

Lemma watch_inv_other ops o :
  (∀ p c w r, o ≠ OpReserve p c w r) → (∀ id h, o ≠ OpSettle id h) → (∀ t, o ≠ OpExpireReservations t) →
  watch_inv ops → watch_inv (ops ++ [o]).
Proof.
  intros H1 H2 H3 [Hid Hre Hon].
  assert (Er : reaped (ops ++ [o]) = reaped ops).
  { rewrite reaped_snoc. destruct o; rewrite ?app_nil_r; try done. exfalso. by eapply H3. }
  assert (Es : reservations (run (ops ++ [o])) = reservations (run ops))
    by (rewrite run_snoc; by apply apply_reservations).
  assert (Ei : concat (map reserved_id (ops ++ [o])) = concat (map reserved_id ops)).
  { rewrite map_app, concat_app. cbn [map concat]. destruct o; cbn [reserved_id]; rewrite ?app_nil_r; try done.
    exfalso. by eapply H1. }
  split; by rewrite ?Er, ?Es, ?Ei.
Qed.

Lemma watch_inv_run ops : NoDup (concat (map reserved_id ops)) → watch_inv ops.
Proof.
  induction ops as [|o ops IH] using rev_ind; intros Hnd.
  { split; [|by intros id ?%elem_of_nil|constructor]. intros k r Hk. cbn in Hk. by rewrite lookup_empty in Hk. }
  rewrite map_app, concat_app in Hnd. cbn [map concat] in Hnd. rewrite app_nil_r in Hnd.
  apply NoDup_app in Hnd as (Hnd & Hfresh & _). specialize (IH Hnd).
  destruct o as [| | |p c w r|id t|t| | | | | | | |]; try (apply watch_inv_other; done);
    destruct IH as [Hid Hre Hon].
  - assert (Hc : ∀ k, k ∈ concat (map reserved_id ops) →
      k ∈ concat (map reserved_id (ops ++ [OpReserve p c w r]))).
    { intros k Hk. rewrite map_app, concat_app. set_solver. }
    split; rewrite ?reaped_snoc, ?run_snoc, ?app_nil_r; [| |done]; cbn [apply];
      destruct (ReserveIfFits_books (run ops) p c w r) as [E|[_ E]]; rewrite E; try done.
    + intros k r' Hk. destruct (Hid _ _ Hk). auto.
    + intros k r' [[<- <-]|[_ Hk]]%lookup_insert_Some.
      * split; [done|]. rewrite map_app, concat_app. cbn [map concat reserved_id]. set_solver.
      * destruct (Hid _ _ Hk). auto.
    + intros id Hin. destruct (Hre id Hin) as (r' & Hk & Hs). exists r'. split; [|done].
      rewrite lookup_insert_ne; [done|]. intros Heq. destruct (Hid _ _ Hk) as [_ Hold].
      apply (Hfresh id Hold). cbn [reserved_id]. rewrite <- Heq. by apply list_elem_of_singleton.
  - assert (Hset : ∀ k r, reservations (Settle (run ops) id t) !! k = Some r →
      ∃ r0, reservations (run ops) !! k = Some r0 ∧ rs_ID r = rs_ID r0 ∧ (rs_Settled r0 = true → rs_Settled r = true)).
    { intros k r. unfold Settle. destruct (reservations (run ops) !! id) as [r0|] eqn:E; [|eauto].
      cbn [reservations set_reservations]. intros [[<- <-]|[_ Hk]]%lookup_insert_Some; eauto. }
    assert (Hkeep : ∀ k, is_Some (reservations (run ops) !! k) → is_Some (reservations (Settle (run ops) id t) !! k)).
    { intros k Hk. unfold Settle. destruct (reservations (run ops) !! id); [|done].
      cbn [reservations set_reservations]. apply lookup_insert_is_Some'. by right. }
    split; rewrite ?reaped_snoc, ?run_snoc, ?app_nil_r; [| |done]; cbn [apply].
    + intros k r Hk. destruct (Hset k r Hk) as (r0 & Hk0 & -> & _). destruct (Hid _ _ Hk0). split; [done|].
      rewrite map_app, concat_app. set_solver.
    + intros k Hin. destruct (Hre k Hin) as (r0 & Hk0 & Hs0).
      destruct (Hkeep k ltac:(by eexists)) as [r Hk]. exists r. split; [done|].
      destruct (Hset k r Hk) as (r1 & Hk1 & _ & Himp). apply Himp. by simplify_eq.
  - destruct (dead_ids (run ops) t) as [Hd1 Hd2]; [by intros k r [? _]%Hid|].
    destruct (ExpireReservations_spec (run ops) t) as [_ E].
    split; rewrite ?reaped_snoc, ?run_snoc; cbn [apply]; rewrite ?E.
    + intros k r. rewrite lookup_fmap_Some. intros (r0 & <- & Hk). destruct (reap_fields t r0) as (-> & _).
      destruct (Hid _ _ Hk). split; [done|]. rewrite map_app, concat_app. set_solver.
    + intros id. rewrite elem_of_app, Hd2. intros [Hin|(r & Hk & Hd)].
      * destruct (Hre id Hin) as (r & Hk & Hs). exists (reap t r). rewrite lookup_fmap, Hk. split; [done|].
        unfold reap. by destruct (dead t r).
      * exists (reap t r). rewrite lookup_fmap, Hk. split; [done|]. unfold reap. by rewrite Hd.
    + apply NoDup_app. split_and!; [done| |done]. intros id Hin. rewrite Hd2. intros (r & Hk & Hd).
      destruct (Hre id Hin) as (r' & Hk' & Hs). simplify_eq. unfold dead in Hd. by rewrite Hs in Hd.
Qed.
End janitor.

(** A dead session is given up once. In any execution in which no two
    reservations are asked for under one id, the janitor never returns an id
    twice, whatever is settled, reserved or expired in between; what it returned
    stays settled; and one pass returns exactly the unsettled reservations past
    their deadline. *)
Theorem janitor_once (R : MapRange) (ops : list op) (now : Time)
    (Hids : NoDup (concat (map reserved_id ops))) :
  NoDup (@reaped R ops) ∧
  (∀ id, id ∈ @reaped R ops → ∃ r, reservations (@run R ops) !! id = Some r ∧ rs_Settled r = true) ∧
  (∀ id, id ∈ rs_ID <$> (@ExpireReservations R (@run R ops) now).1 ↔
     ∃ r, reservations (@run R ops) !! id = Some r ∧ rs_Settled r = false ∧ rs_ExpiresAt r <= now).
Proof.
  destruct (watch_inv_run ops Hids) as [Hid Hre Hon]. split_and!; [done|done|]. intros id.
  rewrite (proj2 (dead_ids (run ops) now ltac:(by intros k r [? _]%Hid))).
  unfold dead, Before. setoid_rewrite andb_true_iff. setoid_rewrite negb_true_iff.
  by setoid_rewrite Z.ltb_ge.
Qed.

Lemma janitor_once_witness :
  let ops := [OpReserve "app" demo_ceiling demo_want (demo_reservation "r1" "b-1" "s-1" 400);
              OpExpireReservations 1000; OpExpireReservations 2000] in
  @reaped range_canonical ops = ["r1"] ∧ NoDup (@reaped range_canonical ops).
Proof.
  intros ops. split; [vm_compute; reflexivity|].
  apply (janitor_once range_canonical ops 0). apply (bool_decide_unpack _). vm_compute. exact I.
Defined.

(** ** Attempt histories *)

(** The reports of one bead in an execution, oldest first. *)
Definition report_of (p b : string) (o : op) : list (string * Attempt) :=
  match o with
  | OpRecordAttempt p' b' id a => if bool_decide (p' = p ∧ b' = b) then [(id, a)] else []
  | _ => []
  end.
Definition reports (p b : string) (ops : list op) : list (string * Attempt) := concat (map (report_of p b) ops).

(** The last report of a reservation. *)
Definition last_report (id : string) (l : list (string * Attempt)) : option Attempt :=
  fold_left (λ acc e, if String.eqb e.1 id then Some e.2 else acc) l None.

Lemma last_report_snoc id l e :
  last_report id (l ++ [e]) = if String.eqb e.1 id then Some e.2 else last_report id l.
Proof. unfold last_report. by rewrite fold_left_app. Qed.

Lemma last_report_Some id l a : last_report id l = Some a → id ∈ l.*1.
Proof.
  induction l as [|e l IH] using rev_ind; [done|]. rewrite last_report_snoc, fmap_app.
  destruct (String.eqb_spec e.1 id) as [<-|]; intros H; rewrite elem_of_app; [right; by left|left; auto].
Qed.

(** The ids of a list in the order of their first occurrence. *)
Definition first_ids (l : list string) : list string :=
  fold_left (λ acc id, if decide (id ∈ acc) then acc else acc ++ [id]) l [].

Lemma first_ids_snoc l id :
  first_ids (l ++ [id]) = if decide (id ∈ first_ids l) then first_ids l else first_ids l ++ [id].
Proof. unfold first_ids. by rewrite fold_left_app. Qed.

Lemma first_ids_spec l : NoDup (first_ids l) ∧ (∀ id, id ∈ first_ids l ↔ id ∈ l) ∧ first_ids l `sublist_of` l.
Proof.
  induction l as [|id l (Hn & Hi & Hs)] using rev_ind; [split_and!; [constructor|done|constructor]|].
  rewrite first_ids_snoc. case_decide as Hd; split_and!.
  - done.
  - intros id'. rewrite Hi, elem_of_app, list_elem_of_singleton. rewrite Hi in Hd. naive_solver.
  - by apply sublist_inserts_r.
  - apply NoDup_app. split_and!; [done| |apply NoDup_singleton].
    intros id' Hid'. rewrite list_elem_of_singleton. by intros ->.
  - intros id'. by rewrite !elem_of_app, Hi.
  - by apply sublist_app.
Qed.

Lemma upsert_ids recs id a :
  reservationID <$> upsert recs id a =
    if decide (id ∈ reservationID <$> recs) then reservationID <$> recs else (reservationID <$> recs) ++ [id].
Proof.
  induction recs as [|rec recs IH]; [done|]. cbn [upsert]. rewrite fmap_cons.
  destruct (String.eqb_spec (reservationID rec) id) as [E|E].
  - rewrite fmap_cons. cbn [reservationID]. rewrite decide_True; [done|]. rewrite E. by left.
  - rewrite fmap_cons, IH. destruct (decide (id ∈ reservationID <$> recs)).
    + rewrite decide_True; [done|by right].
    + rewrite decide_False; [done|]. rewrite elem_of_cons. naive_solver.
Qed.

Lemma upsert_lookup recs id a :
  NoDup (reservationID <$> recs) →
  ∀ rec, rec ∈ upsert recs id a ↔
    rec = mkAttemptRecord id a ∨ (rec ∈ recs ∧ reservationID rec ≠ id).
Proof.
  induction recs as [|r recs IH]; intros Hnd rec.
  { cbn [upsert]. rewrite list_elem_of_singleton. split; [by left|]. by intros [?|[?%elem_of_nil ?]]. }
  rewrite fmap_cons in Hnd. apply NoDup_cons in Hnd as [Hr Hnd]. cbn [upsert].
  destruct (String.eqb_spec (reservationID r) id) as [E|E]; rewrite elem_of_cons.
  - rewrite E, elem_of_cons. split; [|naive_solver]. intros [->|Hin]; [by left|]. right. split; [by right|].
    intros E'. apply Hr. rewrite E, <- E'. by apply list_elem_of_fmap_2.
  - rewrite IH by done. rewrite elem_of_cons. naive_solver.
Qed.

(** A text is cut at its first separator in one way only. *)
Lemma first_sep_inj c p b p' b' :
  no_byte c p → no_byte c p' → p +:+ String c b = p' +:+ String c b' → p = p' ∧ b = b'.
Proof.
  unfold no_byte. revert p'. induction p as [|x p IH]; intros [|x' p'] Hp Hp' E.
  - by injection E as ->.
  - change (("" +:+ String c b)) with (String c b) in E.
    change (String x' p' +:+ String c b') with (String x' (p' +:+ String c b')) in E.
    injection E as <- _. simpl in Hp'. by rewrite Ascii.eqb_refl in Hp'.
  - change (("" +:+ String c b')) with (String c b') in E.
    change (String x p +:+ String c b) with (String x (p +:+ String c b)) in E.
    injection E as -> _. simpl in Hp. by rewrite Ascii.eqb_refl in Hp.
  - change (String x p +:+ String c b) with (String x (p +:+ String c b)) in E.
    change (String x' p' +:+ String c b') with (String x' (p' +:+ String c b')) in E.
    injection E as -> E. simpl in Hp, Hp'. bool_hyps. destruct (IH p') as [-> ->]; done.
Qed.

Section attempts.
Context `{MapRange}.
Context (p b : string).

(** Projects are GitLab paths: no NUL. *)
Definition records_ok (o : op) : Prop :=
  match o with OpRecordAttempt p' _ _ _ => no_byte nul p' | _ => True end.

Record history_inv (ops : list op) : Prop := {
  hi_ids : reservationID <$> default [] (attempts (run ops) !! beadKey p b) = first_ids (reports p b ops).*1;
  hi_last : ∀ rec, rec ∈ default [] (attempts (run ops) !! beadKey p b) →
    last_report (reservationID rec) (reports p b ops) = Some (ar_Attempt rec);
}.

Lemma reports_snoc ops o : reports p b (ops ++ [o]) = reports p b ops ++ report_of p b o.
Proof. unfold reports. rewrite map_app, concat_app. cbn [map concat]. by rewrite app_nil_r. Qed.

Lemma history_inv_run ops : no_byte nul p → Forall records_ok ops → history_inv ops.
Proof.
  intros Hp. induction ops as [|o ops IH] using rev_ind; intros Hf.
  { split; [done|]. intros rec Hin. cbn in Hin. rewrite lookup_empty in Hin. by apply elem_of_nil in Hin. }
  apply Forall_app in Hf as [Hf [Ho _]%Forall_cons]. specialize (IH Hf) as [Hi Hl].
  assert (Hcase : (∃ id a, o = OpRecordAttempt p b id a) ∨
    (report_of p b o = [] ∧ attempts (run (ops ++ [o])) !! beadKey p b = attempts (run ops) !! beadKey p b)).
  { destruct o as [| |p' b' id a| | | | | | | | | | |]; try (right; split; [done|]; rewrite run_snoc, apply_attempts; done).
    cbn [report_of]. case_bool_decide as Hd; [left; destruct Hd as [-> ->]; by eexists _, _|].
    right. split; [done|]. rewrite run_snoc. cbn [apply RecordAttempt attempts set_attempts].
    rewrite lookup_insert_ne; [done|]. intros E. apply Hd. cbn [records_ok] in Ho.
    by apply (first_sep_inj nul). }
  destruct Hcase as [(id & a & ->)|[Er Ea]].
  2: { split; rewrite Ea, reports_snoc, Er, app_nil_r; done. }
  assert (Er : reports p b (ops ++ [OpRecordAttempt p b id a]) = reports p b ops ++ [(id, a)]).
  { rewrite reports_snoc. cbn [report_of]. by rewrite bool_decide_true. }
  assert (Hnd : NoDup (reservationID <$> default [] (attempts (run ops) !! beadKey p b)))
    by (rewrite Hi; apply first_ids_spec).
  split; rewrite Er, run_snoc; cbn [apply RecordAttempt attempts set_attempts]; rewrite lookup_insert_eq;
    match goal with |- context [default [] (Some ?x)] => change (default [] (Some x)) with x end.
  - rewrite upsert_ids, Hi, fmap_app. cbn [fmap list_fmap]. by rewrite first_ids_snoc.
  - intros rec. rewrite upsert_lookup by done. rewrite last_report_snoc. cbn [fst snd].
    intros [->|[Hin Hne]]; cbn [reservationID ar_Attempt]; [by rewrite String.eqb_refl|].
    destruct (String.eqb_spec id (reservationID rec)) as [->|]; [done|]. by apply Hl.
Qed.
End attempts.

(** A reported outcome is counted once. The history of a bead has one attempt for
    each reservation that reported, in the order of their first reports, and it
    is the last report of that reservation: a retry adds nothing, and a real
    outcome replaces the janitor's guess where it stood. So no number of
    repeated reports escalates further than one gate failure per reservation. *)
Theorem Attempts_upsert (R : MapRange) (ops : list op) (p b : string)
    (Hp : no_byte nul p) (Hf : Forall records_ok ops) :
  let ids := first_ids (reports p b ops).*1 in
  NoDup ids ∧
  (∀ id, id ∈ ids ↔ id ∈ (reports p b ops).*1) ∧
  Forall2 (λ id a, last_report id (reports p b ops) = Some a) ids (Attempts (@run R ops) p b) ∧
  Escalations (Attempts (@run R ops) p b) <= Z.of_nat (length ids).
Proof.
  destruct (history_inv_run p b ops Hp Hf) as [Hi Hl]. cbv zeta.
  destruct (first_ids_spec (reports p b ops).*1) as (Hn & He & _).
  split; [done|]. split; [done|]. rewrite <- Hi. unfold Attempts.
  set (recs := default [] _) in *. split.
  - apply Forall2_fmap, Forall_Forall2_diag, Forall_forall. exact Hl.
  - rewrite length_fmap. clear. induction recs as [|r recs IH] using rev_ind; [done|].
    rewrite fmap_app, length_app. cbn [fmap list_fmap length]. rewrite Escalations_snoc.
    case_match; lia.
Qed.

Lemma Attempts_upsert_witness :
  let guess := mkAttempt 1 "qwen" OutcomeInfraFailed in
  let real := mkAttempt 1 "qwen" OutcomeGateFailed in
  let ops := [OpRecordAttempt "app" "b-1" "r1" guess; OpRecordAttempt "app" "b-1" "r1" real;
              OpRecordAttempt "app" "b-1" "r1" real] in
  Attempts (@run range_canonical ops) "app" "b-1" = [real] ∧
  Escalations (Attempts (@run range_canonical ops) "app" "b-1") <= 1.
Proof.
  intros guess real ops. split; [vm_compute; reflexivity|].
  assert (Hf : Forall records_ok ops) by (repeat constructor).
  exact (proj2 (proj2 (proj2 (Attempts_upsert range_canonical ops "app" "b-1" eq_refl Hf)))).
Defined.

(** ** The spend ledger *)

Definition batch_of (o : op) : list Row := match o with OpAddSpendRows rs => rs | _ => [] end.
Definition polled (ops : list op) : list Row := concat (map batch_of ops).

Lemma List_filter_sublist {A} (f : A → bool) l : List.filter f l `sublist_of` l.
Proof. induction l as [|x l IH]; simpl; [constructor|]. destruct (f x); by constructor. Qed.

(** One row read: the ledger's step is [Dedupe]'s, money aside. *)
Lemma row_fold new rs sn n out dropped :
  rs = List.filter (λ r, financeSafe (RowCostUSD r)) out →
  let '(rs', sn', n') := fold_left row_step new (rs, sn, n) in
  let '(seen', out', _) := fold_left dedupe_step new (sn, out, dropped) in
  rs' = List.filter (λ r, financeSafe (RowCostUSD r)) out' ∧ sn' = seen' ∧
  n' = n + (Z.of_nat (length rs') - Z.of_nat (length rs)).
Proof.
  revert rs sn n out dropped. induction new as [|r new IH]; intros rs sn n out dropped E.
  { simpl. split_and!; [done|done|lia]. }
  cbn [fold_left]. unfold row_step at 2, dedupe_step at 2. case_decide; [by apply IH|].
  assert (Hf : List.filter (λ r, financeSafe (RowCostUSD r)) (out ++ [r]) =
    rs ++ if financeSafe (RowCostUSD r) then [r] else []).
  { rewrite List.filter_app, E. simpl. by destruct (financeSafe _). }
  destruct (financeSafe (RowCostUSD r)); cbn [negb].
  - specialize (IH (rs ++ [r]) ({[CallID r]} ∪ sn) (n + 1) (out ++ [r]) dropped (eq_sym Hf)).
    destruct (fold_left row_step _ _) as [[rs' sn'] n'], (fold_left dedupe_step _ _) as [[seen' out'] ?].
    destruct IH as (-> & -> & ->). rewrite length_app. split_and!; [done|done|simpl; lia].
  - rewrite app_nil_r in Hf. exact (IH rs ({[CallID r]} ∪ sn) n (out ++ [r]) dropped (eq_sym Hf)).
Qed.

Section ledger.
Context `{MapRange}.

Definition ledger_of (new : list Row) : gset string * list Row * Z := fold_left dedupe_step new (∅, [], 0).

Lemma ledger_run ops :
  rows (run ops) = List.filter (λ r, financeSafe (RowCostUSD r)) (ledger_of (polled ops)).1.2 ∧
  seen (run ops) = (ledger_of (polled ops)).1.1.
Proof.
  induction ops as [|o ops [IH1 IH2]] using rev_ind; [done|].
  assert (Hp : polled (ops ++ [o]) = polled ops ++ batch_of o).
  { unfold polled. rewrite map_app, concat_app. cbn [map concat]. by rewrite app_nil_r. }
  assert (Hd : (∃ new, o = OpAddSpendRows new) ∨ (batch_of o = [] ∧ ∀ rs, o ≠ OpAddSpendRows rs))
    by (destruct o; solve [right; split; [reflexivity|discriminate] | left; by eexists]).
  rewrite run_snoc, Hp. destruct Hd as [[new ->]|[E Hno]].
  - cbn [apply batch_of]. unfold AddSpendRows, ledger_of. rewrite fold_left_app.
    fold (ledger_of (polled ops)). destruct (ledger_of (polled ops)) as [[sn out] dropped].
    cbn [fst snd] in IH1, IH2. rewrite IH2.
    pose proof (row_fold new (rows (run ops)) sn 0 out dropped IH1) as Hr.
    destruct (fold_left row_step _ _) as [[rs' sn'] n'], (fold_left dedupe_step _ _) as [[seen' out'] ?].
    by destruct Hr as (-> & -> & _).
  - destruct (apply_ledger (run ops) o Hno) as [-> ->]. by rewrite E, app_nil_r.
Qed.
End ledger.

(** The ledger is the spend log with every call once. However the polls overlap
    and wherever one batch ends and the next begins, the stored rows are the
    rows read, de-duplicated, less those whose cost is not a number; no call is
    stored twice; and a poll reports exactly the rows it added. *)
Theorem ledger_is_deduped (R : MapRange) (ops : list op) (new : list Row) :
  rows (@run R ops) = List.filter (λ r, financeSafe (RowCostUSD r)) (Dedupe (polled ops)).1 ∧
  NoDup (CallID <$> rows (@run R ops)) ∧
  (AddSpendRows (@run R ops) new).1 =
    Z.of_nat (length (rows (AddSpendRows (@run R ops) new).2)) - Z.of_nat (length (rows (@run R ops))).
Proof.
  destruct (ledger_run ops) as [Hr Hs].
  assert (Hd : (Dedupe (polled ops)).1 = (ledger_of (polled ops)).1.2).
  { unfold Dedupe, ledger_of. by destruct (fold_left _ _ _) as [[]]. }
  split; [by rewrite Hd|]. split.
  - rewrite Hr, <- Hd. eapply sublist_NoDup; [apply Dedupe_NoDup|]. apply fmap_sublist.
    apply List_filter_sublist.
  - unfold AddSpendRows. rewrite Hs.
    destruct (ledger_of (polled ops)) as [[sn out] dropped] eqn:El. cbn [fst snd] in *.
    pose proof (row_fold new (rows (run ops)) sn 0 out dropped Hr) as Hf.
    destruct (fold_left row_step _ _) as [[rs' sn'] n'], (fold_left dedupe_step _ _) as [[seen' out'] ?].
    destruct Hf as (_ & _ & ->). cbn [fst snd rows set_ledger]. lia.
Qed.

(** ** Prompts *)

Section prompts.
Context `{MapRange}.

(** A take of [alias] that won. *)
Definition wins (alias : string) (m : Memory) (o : op) : bool :=
  match o with
  | OpTakePrompt a now => String.eqb a alias && match (TakePrompt m a now).1 with
                                                | (_, true, false) => true
                                                | _ => false
                                                end
  | _ => false
  end.
Definition count_wins (alias : string) (s : Memory * nat) (o : op) : Memory * nat :=
  (apply s.1 o, (s.2 + if wins alias s.1 o then 1 else 0)%nat).

(** Nothing is put under the alias, and the clock has been set. *)
Definition no_put (alias : string) (o : op) : Prop :=
  match o with
  | OpPutPrompt p => pr_Alias p ≠ alias
  | OpTakePrompt _ now => now ≠ Time_zero
  | _ => True
  end.

(** The prompt under an alias has been fetched, and its key is gone. *)
Definition spent (alias : string) (m : Memory) : Prop :=
  ∀ p, prompts m !! alias = Some p → pr_FetchedAt p ≠ Time_zero ∧ pr_LiteLLMKey p = "".

Lemma expire_prompt_fold now l ps n k p :
  (fold_left (expire_prompt now) l (ps, n)).1 !! k = Some p → ps !! k = Some p.
Proof.
  revert ps n. induction l as [|[k' p'] l IH]; intros ps n; [done|]. cbn [fold_left].
  unfold expire_prompt at 2. cbn [fst snd]. destruct (lapsed now p'); intros E%IH; [|done].
  by apply lookup_delete_Some in E as [_ ?].
Qed.

Lemma ExpirePrompts_sub m now k p :
  prompts (ExpirePrompts m now).2 !! k = Some p → prompts m !! k = Some p.
Proof.
  unfold ExpirePrompts. pose proof (expire_prompt_fold now (range_map (prompts m)) (prompts m) 0 k p) as Hf.
  by destruct (fold_left _ _ _).
Qed.

(** What one operation does to the prompt of an alias nobody puts under. *)
Ltac red_p := cbn [fst snd negb prompts set_prompts].

Lemma prompt_step alias m o :
  no_put alias o →
  if wins alias m o
  then (∃ p, prompts m !! alias = Some p ∧ pr_FetchedAt p = Time_zero) ∧ spent alias (apply m o)
  else ∀ p, prompts (apply m o) !! alias = Some p → prompts m !! alias = Some p.
Proof.
  intros Ho. destruct o as [| | | | | | | | | | |q|a now|now];
    try (cbn [wins]; intros p; by rewrite apply_prompts).
  - cbn [wins apply PutPrompt prompts set_prompts]. intros p. cbn [no_put] in Ho.
    by rewrite lookup_insert_ne.
  - cbn [wins apply]. unfold TakePrompt. cbn [no_put] in Ho.
    destruct (String.eqb_spec a alias) as [->|Hne]; cbn [andb].
    + destruct (prompts m !! alias) as [p|] eqn:E; [|red_p; by intros p; rewrite E].
      destruct (lapsed now p); [red_p; by intros p'; rewrite E|].
      destruct (Z.eqb_spec (pr_FetchedAt p) 0) as [Hz|Hz].
      * assert (IsZero (pr_FetchedAt p) = true) as -> by (unfold IsZero; by rewrite Hz). red_p.
        split; [by exists p|]. unfold spent. red_p. intros p'. rewrite lookup_insert_eq. intros [= <-]. done.
      * assert (IsZero (pr_FetchedAt p) = false) as -> by (unfold IsZero; by apply Z.eqb_neq).
        red_p. by intros p'; rewrite E.
    + intros p'. destruct (prompts m !! a) as [p|]; [|done]. destruct (lapsed now p); [done|].
      destruct (negb _); [done|]. red_p. by rewrite lookup_insert_ne.
  - cbn [wins apply]. intros p. apply ExpirePrompts_sub.
Qed.

Lemma count_wins_cons alias o ops m n :
  fold_left (count_wins alias) (o :: ops) (m, n) =
    fold_left (count_wins alias) ops (apply m o, (n + if wins alias m o then 1 else 0)%nat).
Proof. done. Qed.

Lemma takes_of_spent alias ops m n :
  Forall (no_put alias) ops → spent alias m →
  (fold_left (count_wins alias) ops (m, n)).2 = n ∧ spent alias (fold_left apply ops m).
Proof.
  revert m n. induction ops as [|o ops IH]; intros m n Hf Hs; [done|].
  apply Forall_cons in Hf as [Ho Hf]. rewrite count_wins_cons. cbn [fold_left].
  pose proof (prompt_step alias m o Ho) as Hstep. destruct (wins alias m o).
  - destruct Hstep as [(p & Hp & Hz) _]. by destruct (Hs p Hp).
  - rewrite Nat.add_0_r. apply IH; [done|]. intros p Hp. by apply Hs, Hstep.
Qed.

Lemma takes_bounded alias ops m n :
  Forall (no_put alias) ops →
  let won := ((fold_left (count_wins alias) ops (m, n)).2 - n)%nat in
  (n <= (fold_left (count_wins alias) ops (m, n)).2)%nat ∧ (won <= 1)%nat ∧
  (won = 1%nat → spent alias (fold_left apply ops m)).
Proof.
  revert m n. induction ops as [|o ops IH]; intros m n Hf; [simpl; split_and!; lia|].
  apply Forall_cons in Hf as [Ho Hf]. rewrite count_wins_cons. cbn [fold_left].
  pose proof (prompt_step alias m o Ho) as Hstep. destruct (wins alias m o).
  - destruct Hstep as [_ Hs]. destruct (takes_of_spent alias ops (apply m o) (n + 1) Hf Hs) as [-> Hs'].
    cbv zeta. split_and!; [lia|lia|done].
  - rewrite Nat.add_0_r. by apply IH.
Qed.
End prompts.

(** A prompt is handed over once. From any state, and through any operations that
    do not put another prompt under the alias, at most one take wins; once one
    has won, every prompt stored under the alias is marked fetched and holds no
    key; and the take that wins returns what was put, key included. *)
Theorem TakePrompt_once (R : MapRange) (m : Memory) (alias : string) (ops : list op)
    (Hf : Forall (no_put alias) ops) :
  ((fold_left (@count_wins R alias) ops (m, 0%nat)).2 <= 1)%nat ∧
  ((fold_left (@count_wins R alias) ops (m, 0%nat)).2 = 1%nat → spent alias (fold_left (@apply R) ops m)) ∧
  (∀ now p, prompts m !! alias = Some p → pr_FetchedAt p = Time_zero → lapsed now p = false →
     (TakePrompt m alias now).1 = (fetched p now (pr_LiteLLMKey p), true, false)).
Proof.
  destruct (takes_bounded alias ops m 0 Hf) as (_ & H1 & H2). rewrite Nat.sub_0_r in H1, H2.
  split_and!; [done|done|]. intros now p Hp Hz Hl. unfold TakePrompt. rewrite Hp, Hl.
  unfold IsZero. by rewrite Hz.
Qed.

Lemma TakePrompt_once_witness :
  let m := PutPrompt NewMemory (mkPrompt "polecat-1" "fix it" "qwen" "{}" 10 Time_zero 500 "sk-1") in
  let ops := [OpTakePrompt "polecat-1" 20; OpTakePrompt "polecat-1" 21; OpExpirePrompts 30] in
  (fold_left (@count_wins range_canonical "polecat-1") ops (m, 0%nat)).2 = 1%nat ∧
  spent "polecat-1" (fold_left (@apply range_canonical) ops m).
Proof.
  intros m ops. assert (H1 : (fold_left (@count_wins range_canonical "polecat-1") ops (m, 0%nat)).2 = 1%nat)
    by (vm_compute; reflexivity).
  split; [exact H1|]. apply (TakePrompt_once range_canonical m "polecat-1" ops); [|exact H1].
  repeat constructor; discriminate.
Defined.

(** ** Traces *)

Lemma last_sep_inj c p b p' b' :
  no_byte c b → no_byte c b' → p +:+ String c b = p' +:+ String c b' → p = p' ∧ b = b'.
Proof.
  assert (Hno : ∀ q b0 b1, no_byte c b0 → b0 ≠ q +:+ String c b1).
  { unfold no_byte. induction q as [|x q IH]; intros b0 b1 Hb ->.
    - change ("" +:+ String c b1) with (String c b1) in Hb. simpl in Hb. by rewrite Ascii.eqb_refl in Hb.
    - change (String x q +:+ String c b1) with (String x (q +:+ String c b1)) in Hb. simpl in Hb.
      bool_hyps. by eapply IH. }
  intros Hb Hb'. revert p'. induction p as [|x p IH]; intros [|x' p'] E.
  - by injection E as ->.
  - change ("" +:+ String c b) with (String c b) in E.
    change (String x' p' +:+ String c b') with (String x' (p' +:+ String c b')) in E.
    injection E as -> E. by apply Hno in E.
  - change ("" +:+ String c b') with (String c b') in E.
    change (String x p +:+ String c b) with (String x (p +:+ String c b)) in E.
    injection E as -> E. symmetry in E. by apply Hno in E.
  - change (String x p +:+ String c b) with (String x (p +:+ String c b)) in E.
    change (String x' p' +:+ String c b') with (String x' (p' +:+ String c b')) in E.
    injection E as -> E. by destruct (IH p' E) as [-> ->].
Qed.

Definition hash : ascii := "#"%char.

Lemma itoa_no_hash z : no_byte hash (itoa z).
Proof.
  assert (Hd : ∀ d, all_bytes (λ c, negb (Ascii.eqb c hash)) (NilEmpty.string_of_uint d) = true).
  { intros d. eapply all_bytes_impl; [|apply digits_bytes].
    intros c. destruct c as [[] [] [] [] [] [] [] []]; done. }
  unfold itoa, no_byte. case_match; [|apply Hd]. cbn [all_bytes]. by rewrite Hd.
Qed.

Lemma traceKey_inj s a s' a' :
  int64 a → int64 a' → traceKey s a = traceKey s' a' → s = s' ∧ a = a'.
Proof.
  intros Ha Ha' E. unfold traceKey in E.
  change ("#" +:+ ?t) with (String hash t) in E.
  destruct (last_sep_inj hash s (itoa a) s' (itoa a') (itoa_no_hash _) (itoa_no_hash _) E) as [-> Ei].
  split; [done|]. pose proof (ParseInt_itoa a Ha) as H1. rewrite Ei, ParseInt_itoa in H1 by done. congruence.
Qed.

(** How much a completeness says, unknown words saying nothing. *)
Definition completeness_rank (c : string) : Z := Z.max 1 (default 0 (degrade_rank !! c)).

Lemma degrade_rank_Some c v :
  degrade_rank !! c = Some v → (c = "complete" ∧ v = 3) ∨ (c = "partial" ∧ v = 2) ∨ (c = "absent" ∧ v = 1).
Proof.
  unfold degrade_rank. rewrite !lookup_insert_Some, lookup_singleton_Some. naive_solver.
Qed.

Lemma degrade_unknown a b :
  degrade_rank !! a = None ∨ degrade_rank !! b = None → degrade a b = "absent".
Proof. unfold degrade. intros [-> | ->]; [done|]. by rewrite orb_true_r. Qed.

Lemma degrade_lower a b :
  completeness_rank (degrade a b) <= completeness_rank a ∧
  completeness_rank (degrade a b) <= completeness_rank b ∧
  (degrade a b = "complete" ↔ a = "complete" ∧ b = "complete").
Proof.
  destruct (decide (is_Some (degrade_rank !! a) ∧ is_Some (degrade_rank !! b))) as [[[ra Ha] [rb Hb]]|Hno].
  - apply degrade_rank_Some in Ha as [[-> _]|[[-> _]|[-> _]]];
      apply degrade_rank_Some in Hb as [[-> _]|[[-> _]|[-> _]]]; vm_compute; intuition discriminate.
  - assert (degrade_rank !! a = None ∨ degrade_rank !! b = None) as Hn.
    { destruct (degrade_rank !! a), (degrade_rank !! b); try (by left); try (by right).
      destruct Hno. split; by eexists. }
    rewrite (degrade_unknown a b Hn).
    assert (completeness_rank "absent" = 1) as -> by (vm_compute; reflexivity).
    unfold completeness_rank. split; [lia|]. split; [lia|]. split; [done|].
    intros [-> ->]. by destruct Hn.
Qed.

Section traces.
Context `{MapRange}.
Context (s : string) (a : Z).

(** The reports on one attempt of a session, oldest first. *)
Definition trace_report (o : op) : list Trace :=
  match o with
  | OpAppendTrace t => if bool_decide (tr_SessionKey t = s ∧ tr_Attempt t = a) then [t] else []
  | _ => []
  end.
Definition trace_reports (ops : list op) : list Trace := concat (map trace_report ops).

Definition attempt_ok (o : op) : Prop :=
  match o with OpAppendTrace t => int64 (tr_Attempt t) | _ => True end.

Lemma apply_traces m o : (∀ t, o ≠ OpAppendTrace t) → traces (apply m o) = traces m.
Proof.
  intros H1. destruct o; try done; simpl.
  - unfold ReserveIfFits. by repeat case_match.
  - unfold Settle. by case_match.
  - unfold ExpireReservations. by destruct (fold_left _ _ _).
  - unfold AddSpendRows. by destruct (fold_left _ _ _) as [[]].
  - exfalso; by eapply H1.
  - unfold TakePrompt. by repeat case_match.
  - unfold ExpirePrompts. by destruct (fold_left _ _ _).
Qed.

Lemma AppendTrace_traces m t :
  traces (AppendTrace m t) = <[traceKey (tr_SessionKey t) (tr_Attempt t) :=
    match traces m !! traceKey (tr_SessionKey t) (tr_Attempt t) with
    | None => t
    | Some cur => mkTrace (tr_SessionKey cur) (tr_Attempt cur)
        (if String.eqb (tr_BeadID cur) "" then tr_BeadID t else tr_BeadID cur)
        (if String.eqb (tr_Project cur) "" then tr_Project t else tr_Project cur)
        (degrade (tr_Completeness cur) (tr_Completeness t))
        (tr_Calls cur ++ tr_Calls t) (wrap64 (tr_Turns cur + tr_Turns t)) (tr_UpdatedAt t)
    end]> (traces m).
Proof. unfold AppendTrace. by case_match. Qed.

(** What is stored says no more than the reports. *)
Definition trace_of (rs : list Trace) (t : option Trace) : Prop :=
  match t with
  | None => rs = []
  | Some t => rs ≠ [] ∧ tr_SessionKey t = s ∧ tr_Attempt t = a ∧
      tr_Calls t = concat (map tr_Calls rs) ∧
      (tr_Completeness t = "complete" ↔ Forall (λ r, tr_Completeness r = "complete") rs) ∧
      Forall (λ r, completeness_rank (tr_Completeness t) <= completeness_rank (tr_Completeness r)) rs
  end.

Lemma trace_of_run ops : int64 a → Forall attempt_ok ops → trace_of (trace_reports ops) (GetTrace (run ops) s a).
Proof.
  intros Ha. induction ops as [|o ops IH] using rev_ind; intros Hf; [done|].
  apply Forall_app in Hf as [Hf [Ho _]%Forall_cons]. specialize (IH Hf).
  assert (Hr : trace_reports (ops ++ [o]) = trace_reports ops ++ trace_report o).
  { unfold trace_reports. rewrite map_app, concat_app. cbn [map concat]. by rewrite app_nil_r. }
  rewrite Hr, run_snoc. unfold GetTrace in *.
  assert (Hd : (∃ t, o = OpAppendTrace t) ∨ (trace_report o = [] ∧ ∀ t, o ≠ OpAppendTrace t))
    by (destruct o; solve [right; split; [reflexivity|discriminate] | left; by eexists]).
  destruct Hd as [[t ->]|[E Hno]]; [|by rewrite apply_traces, E, app_nil_r].
  cbn [apply trace_report attempt_ok] in *. rewrite AppendTrace_traces. case_bool_decide as Hk.
  2: { rewrite app_nil_r, lookup_insert_ne; [done|]. intros Ek. apply Hk.
       by apply traceKey_inj in Ek. }
  destruct Hk as [Hks Hka]. rewrite Hks, Hka, lookup_insert_eq. destruct (traces (run ops) !! _) as [cur|].
  - destruct IH as (Hne & Hs & Hat & Hc & Hcomp & Hrank). cbn [trace_of].
    cbn [tr_SessionKey tr_Attempt tr_Calls tr_Completeness].
    destruct (degrade_lower (tr_Completeness cur) (tr_Completeness t)) as (L1 & L2 & L3).
    split_and!.
    + by intros [? ?]%app_nil.
    + done.
    + done.
    + rewrite map_app, concat_app, Hc. cbn [map concat]. by rewrite app_nil_r.
    + rewrite L3, Forall_app, Forall_singleton, Hcomp. done.
    + rewrite Forall_app, Forall_singleton. split; [|done]. eapply Forall_impl; [exact Hrank|].
      intros r. cbn beta. lia.
  - cbn [trace_of] in IH |- *. rewrite IH. cbn [app map concat]. rewrite app_nil_r, !Forall_singleton. cbn beta. split_and!; first [done | reflexivity].
Qed.
End traces.

(** Evidence only accumulates and never gets better. What is stored for an attempt
    of a session is nothing exactly when nothing was reported for that attempt;
    otherwise its calls are the reported calls in order, it is complete exactly
    when every report was, and it claims no more completeness than any report
    did; a report on another session or attempt changes nothing of it. *)
Theorem AppendTrace_accumulates (R : MapRange) (ops : list op) (s : string) (a : Z)
    (Ha : int64 a) (Hf : Forall attempt_ok ops) :
  match GetTrace (@run R ops) s a with
  | None => trace_reports s a ops = []
  | Some t => trace_reports s a ops ≠ [] ∧
      tr_Calls t = concat (map tr_Calls (trace_reports s a ops)) ∧
      (tr_Completeness t = "complete" ↔
         Forall (λ r, tr_Completeness r = "complete") (trace_reports s a ops)) ∧
      Forall (λ r, completeness_rank (tr_Completeness t) <= completeness_rank (tr_Completeness r))
        (trace_reports s a ops)
  end.
Proof.
  pose proof (trace_of_run s a ops Ha Hf) as Ht. unfold trace_of in Ht.
  destruct (GetTrace _ _ _); [|done]. by destruct Ht as (? & _ & _ & ? & ? & ?).
Qed.

Lemma AppendTrace_accumulates_witness :
  let report c calls := OpAppendTrace (mkTrace "s#1" 2 "b-1" "app" c calls 1 10) in
  let ops := [report "partial" [mkTraceCall "read" "a.go"]; report "complete" [mkTraceCall "write" "a.go"]] in
  ∃ t, GetTrace (@run range_canonical ops) "s#1" 2 = Some t ∧ length (tr_Calls t) = 2%nat ∧
    tr_Completeness t ≠ "complete".
Proof.
  intros report ops.
  assert (Ha : int64 2) by (unfold int64, MinInt64, MaxInt64; lia).
  assert (Hf : Forall attempt_ok ops) by (repeat constructor; exact Ha || exact (proj1 Ha) || exact (proj2 Ha)).
  pose proof (AppendTrace_accumulates range_canonical ops "s#1" 2 Ha Hf) as Hx.
  destruct (GetTrace (@run range_canonical ops) "s#1" 2) as [t|] eqn:E.
  - exists t. split; [reflexivity|]. destruct Hx as (_ & Hc & Hcomp & _). split.
    + rewrite Hc. vm_compute. reflexivity.
    + intros Hco. apply Hcomp in Hco. vm_compute in Hco. by apply Forall_cons in Hco as [? _].
  - vm_compute in Hx. discriminate Hx.
Defined.

(** The books stay in order. Whatever the store is asked to do, by reservations
    that are for the project they name and start unsettled, every reservation
    stays under its own id and no piece of work (project, bead, session) ever
    has two open reservations, so the two gates that both reserve it hold its
    budget once. *)
Theorem one_open_per_work (R : MapRange) (ops : list op) (Hf : Forall op_ok ops) :
  books_ok (@run R ops).
Proof. by apply books_ok_run. Qed.

Lemma one_open_per_work_witness :
  let r := demo_reservation "r1" "b-1" "s-1" 400 in
  let r' := demo_reservation "r2" "b-1" "s-1" 400 in
  let ops := [OpReserve "app" demo_ceiling demo_want r; OpReserve "app" demo_ceiling demo_want r'] in
  reservations (@run range_canonical ops) = {["r1" := r]} ∧ books_ok (@run range_canonical ops).
Proof.
  intros r r' ops. split; [vm_compute; reflexivity|].
  apply (one_open_per_work range_canonical ops). repeat constructor.
Defined.
