(* ===== verification/Rung.v ===== *)
(** * [pkg/rung/decide.go]: the wait-or-spend decision

    [Decide] is a pure function of [Input]: which rung the next attempt of a
    bead runs at, or that it waits, or that it must not run. *)

From S2P Require Import Prelude.
From S2P Require Import Float64.
From S2P Require Import GoTime.
From S2P Require Import GoStrings.
From S2P Require Import Gonkcfg.
From S2P Require Import Opercfg.
From S2P Require Import Budget.
From S2P Require Import Atags.
From S2P Require Import Spend.
From S2P Require Import RungOutcome.

(** ** Kinds and reasons *)

Inductive DecisionKind := Run | Defer | Deny.

Definition ReasonNotRegistered := "project-not-registered".
Definition ReasonDisabled := "disabled".
Definition ReasonInvalidConfig := "invalid-config".
Definition ReasonActionNotAllowed := "action-not-allowed".
Definition ReasonKeyMissing := "virtual-key-missing".
Definition ReasonQuietHours := "quiet-hours".
Definition ReasonSpendStale := "spend-data-stale".
Definition ReasonLadderExhausted := "ladder-exhausted".
Definition ReasonInfraRetriesExhausted := "infra-retries-exhausted".
Definition ReasonPerTaskTokensExhausted := "per-task-tokens-exhausted".
Definition ReasonMonthlyTokensExhausted := "monthly-tokens-exhausted".
Definition ReasonMonthlyCostExhausted := "monthly-cost-exhausted".
Definition ReasonCloudNotAllowed := "cloud-not-allowed".

(** ** Triggers *)

(** [(allowed, gated)]. *)
Definition ActionFor (eff : EffectiveCfg) (trigger : string) : bool * bool :=
  if String.eqb trigger TriggerIssueTriage || String.eqb trigger TriggerMentionReply
     || String.eqb trigger TriggerScaffold then (Triage (ec_Actions eff), true)
  else if String.eqb trigger TriggerPipelineDiagnosis then (Pipelines (ec_Actions eff), true)
  else if String.eqb trigger TriggerPipelineFix then (PipelineFixes (ec_Actions eff), true)
  else if String.eqb trigger TriggerIssueChange then (Features (ec_Actions eff), true)
  else if String.eqb trigger TriggerMRReview then (Reviews (ec_Actions eff), true)
  else if String.eqb trigger TriggerOnboarding then (true, false)
  else (false, true).

Definition LadderFloors : gmap string Z :=
  {[TriggerPipelineDiagnosis := 1; TriggerPipelineFix := 1; TriggerIssueChange := 1]}.

Definition LadderFloor (trigger : string) : Z := default 0 (LadderFloors !! trigger).

Definition FloorRetries : gmap string Z :=
  {[TriggerPipelineDiagnosis := 1; TriggerPipelineFix := 1; TriggerIssueChange := 1;
    TriggerMRReview := 1]}.

Definition FloorRetry (trigger : string) : Z := Z.max (default 0 (FloorRetries !! trigger)) 0.

Definition ReservationTTL (trigger : string) (base : Duration) (eff : EffectiveCfg) : Duration :=
  if String.eqb trigger TriggerIssueChange then
    wrap64 (base + Z.min (Z.max (ChangeVerifyTimeout (ec_Change eff)) 0) ChangeVerifyTimeoutCeiling)
  else if negb (String.eqb trigger TriggerPipelineFix) then base
  else wrap64 (base + Z.min (Z.max (FixVerifyTimeout (ec_PipelineFix eff)) 0) FixVerifyTimeoutCeiling).

Definition LadderFor (eff : EffectiveCfg) (trigger : string) : list string :=
  if negb (String.eqb trigger TriggerMRReview) then ec_Ladder eff
  else if String.eqb (ReviewRung (ec_Review eff)) "" then []
  else [ReviewRung (ec_Review eff)].

(** ** Whether a distinct model can review (ResolveReviewMerge) *)

Definition merge_status (eff : EffectiveCfg) (catalog : gmap string RungSpec)
    (have : ReviewMergeStatus) (authorTrigger : string) : ReviewMergeStatus :=
  if negb (String.eqb (Reason have) ReviewMergeModelsNotCompared)
  then mkReviewMergeStatus false (Reason have)
  else match catalog !! ReviewRung (ec_Review eff) with
  | None => mkReviewMergeStatus false ReviewMergeRungUnknown
  | Some reviewer =>
      let floor := LadderFloor authorTrigger in
      if Z.of_nat (length (ec_Ladder eff)) <=? floor
      then mkReviewMergeStatus false ReviewMergeNoAuthorRung
      else if existsb (λ r, match catalog !! r with
                            | Some spec => negb (String.eqb (Model spec) (Model reviewer))
                            | None => false
                            end) (drop (Z.to_nat floor) (ec_Ladder eff))
      then mkReviewMergeStatus true ""
      else mkReviewMergeStatus false ReviewMergeNoDistinctModel
  end.

Definition with_review (eff : EffectiveCfg) (r : EffectiveReview) : EffectiveCfg :=
  mkEffectiveCfg (ec_Enabled eff) (ec_DisabledReason eff) (ec_Actions eff) (ec_Schedule eff)
    (ec_Budget eff) (ec_Ladder eff) (ec_Continuity eff) (ec_LabelPrefix eff)
    (ec_RespondToMentions eff) (ec_CommitTrailers eff) (ec_IncludeUsage eff)
    (ec_PipelineFix eff) (ec_Change eff) r.

Definition ResolveReviewMerge (eff : EffectiveCfg) (catalog : gmap string RungSpec) : EffectiveCfg :=
  let r := ec_Review eff in
  with_review eff
    (mkEffectiveReview (ReviewTargets r) (ReviewRung r) (MaxNotes r) (MaxReviewsPerMR r)
       (merge_status eff catalog (PipelineFixMerge r) TriggerPipelineFix)
       (merge_status eff catalog (ChangeMerge r) TriggerIssueChange)).

(** ** Position on the ladder *)

Record Position := mkPosition {
  Floor_ : Z;
  Retries : Z;
  GateFailures : Z;
  RetriesUsed : Z;
  Climbs : Z;
  Index_ : Z;
}.

Definition LadderPosition (trigger : string) (prior : list Attempt) : Position :=
  let floor := LadderFloor trigger in
  let retries := FloorRetry trigger in
  let failures := Escalations prior in
  let used := Z.min failures retries in
  let climbs := failures - used in
  mkPosition floor retries failures used climbs (floor + climbs).

Definition FloorRetrying (p : Position) : bool := (0 <? RetriesUsed p) && (Climbs p =? 0).

Definition retryClause (p : Position) : string :=
  if Retries p =? 0 then ""
  else if FloorRetrying p then
    ", floor retry " +:+ itoa (RetriesUsed p) +:+ " of " +:+ itoa (Retries p)
      +:+ " (the same rung again, not an escalation)"
  else if 0 <? Climbs p then
    ", " +:+ itoa (RetriesUsed p) +:+ " of " +:+ itoa (Retries p) +:+ " floor retries used, then "
      +:+ itoa (Climbs p) +:+ " escalation(s)"
  else ", 0 of " +:+ itoa (Retries p) +:+ " floor retries used".

(** ** The decision *)

Record Input := mkInput {
  i_Effective : EffectiveCfg;
  i_Catalog : gmap string RungSpec;
  Registered : bool;
  Invalid : bool;
  InvalidDetail : string;
  KeyReady : bool;
  i_Trigger : string;
  i_CloudAllowed : bool;
  Prior : list Attempt;
  i_Spend : Budget.Spend;
  SpendAsOf : Time;
  Now : Time;
  i_Window : Window;
  i_QuietHours : option QuietHours;
  MaxSpendStale : Duration;
  KeyRetryBackoff : Duration;
  MaxInfraRetries : Z;
}.

(** What the detail text is made of. *)
Inductive Detail :=
| DNone
| DText (s : string)
| DDisabled (r : DisabledReason)
| DTrigger (trigger : string)
| DQuietUntil (e : Time)
| DNoReviewerRung
| DNoFloorRung (trigger : string) (floor rungs : Z)
| DExhaustedFrom (rungs : Z) (trigger : string) (floor failures : Z) (clause : string)
| DExhausted (rungs failures : Z)
| DUnknownRung (rung : string)
| DInfra (rung : string) (n : Z)
| DCloud (rung : string)
| DStale (age max : Duration)
| DTaskTokens (est : Z) (remain : TokenLimit)
| DMonthTokens (rung : string) (est : Z) (remain : TokenLimit)
| DMonthCost (rung : string) (est : float64) (remain : CostLimit)
| DChosen (rung : string) (pos rungs : Z) (trigger : string) (floor failures : Z) (clause : string).

Record Decision := mkDecision {
  d_Kind : DecisionKind;
  d_Rung : string;
  d_Model : string;
  d_Attempt : Z;
  d_Reason : string;
  d_Detail : Detail;
  d_RetryAfter : Time;
  d_MaxTurns : Z;
  d_Escalated : bool;
}.

Definition deny (in_ : Input) (reason : string) (detail : Detail) : Decision :=
  mkDecision Deny "" "" (Z.of_nat (length (Prior in_)) + 1) reason detail Time_zero 0 false.

Definition deferTo (in_ : Input) (reason : string) (detail : Detail) (until : Time) : Decision :=
  let until := if negb (After until (Now in_)) then Add (Now in_) (MaxSpendStale in_) else until in
  mkDecision Defer "" "" (Z.of_nat (length (Prior in_)) + 1) reason detail until 0 false.

(** Step 5: money. *)
Definition decide_money (in_ : Input) (ladder : list string) (pos : Position) (target : string)
    (spec : RungSpec) : Decision :=
  let special := (0 <? Floor_ pos) || (0 <? Retries pos) in
  let bud := FromEffective (ec_Budget (i_Effective in_)) in
  let rem := Remain bud (i_Spend in_) in
  let age := Sub (Now in_) (SpendAsOf in_) in
  if negb (AllUnlimited bud) && (MaxSpendStale in_ <? age) then
    deferTo in_ ReasonSpendStale (DStale age (MaxSpendStale in_))
      (Add (SpendAsOf in_) (MaxSpendStale in_))
  else if negb (FitsTaskTokens rem (EstTokens spec)) then
    deny in_ ReasonPerTaskTokensExhausted (DTaskTokens (EstTokens spec) (RemPerTaskTokens rem))
  else if negb (FitsMonthTokens rem (EstTokens spec)) then
    deferTo in_ ReasonMonthlyTokensExhausted
      (DMonthTokens target (EstTokens spec) (RemMonthlyTokens rem)) (End_ (i_Window in_))
  else if flt fzero (EstCostUSD spec) && negb (FitsCost rem (EstCostUSD spec)) then
    deferTo in_ ReasonMonthlyCostExhausted
      (DMonthCost target (EstCostUSD spec) (RemMonthlyCostUSD rem)) (End_ (i_Window in_))
  else
    mkDecision Run target (Model spec) (Z.of_nat (length (Prior in_)) + 1) ""
      (if special then DChosen target (Index_ pos + 1) (Z.of_nat (length ladder)) (i_Trigger in_)
                         (Floor_ pos + 1) (GateFailures pos) (retryClause pos)
       else DNone)
      Time_zero (EffectiveMaxTurns spec) (0 <? Climbs pos).

(** Step 4: the place on the ladder, the catalog, infrastructure retries and
    the cost class. *)
Definition decide_ladder (in_ : Input) : Decision :=
  let ladder := LadderFor (i_Effective in_) (i_Trigger in_) in
  let n := Z.of_nat (length ladder) in
  if String.eqb (i_Trigger in_) TriggerMRReview && (n =? 0) then
    deny in_ ReasonLadderExhausted DNoReviewerRung
  else
    let pos := LadderPosition (i_Trigger in_) (Prior in_) in
    let special := (0 <? Floor_ pos) || (0 <? Retries pos) in
    if (0 <? Floor_ pos) && (n <=? Floor_ pos) then
      deny in_ ReasonLadderExhausted (DNoFloorRung (i_Trigger in_) (Floor_ pos + 1) n)
    else if n <=? Index_ pos then
      deny in_ ReasonLadderExhausted
        (if special then DExhaustedFrom n (i_Trigger in_) (Floor_ pos + 1) (GateFailures pos) (retryClause pos)
         else DExhausted n (Index_ pos))
    else
      let target := nth (Z.to_nat (Index_ pos)) ladder "" in
      match i_Catalog in_ !! target with
      | None => deny in_ ReasonInvalidConfig (DUnknownRung target)
      | Some spec =>
          let k := ConsecutiveInfraFailures (Prior in_) target in
          if MaxInfraRetries in_ <=? k then deny in_ ReasonInfraRetriesExhausted (DInfra target k)
          else if String.eqb (Kind spec) KindCloud && negb (i_CloudAllowed in_) then
            deny in_ ReasonCloudNotAllowed (DCloud target)
          else decide_money in_ ladder pos target spec
      end.

Definition Decide (in_ : Input) : Decision :=
  let '(allowed, gated) := ActionFor (i_Effective in_) (i_Trigger in_) in
  if negb (Registered in_) then deny in_ ReasonNotRegistered
    (DText "no registration in gonk-meter; onboard the project first")
  else if Invalid in_ then deny in_ ReasonInvalidConfig (DText (InvalidDetail in_))
  else if negb (ec_Enabled (i_Effective in_)) then
    deny in_ ReasonDisabled (DDisabled (ec_DisabledReason (i_Effective in_)))
  else if gated && negb allowed then deny in_ ReasonActionNotAllowed (DTrigger (i_Trigger in_))
  else if negb (KeyReady in_) then
    deferTo in_ ReasonKeyMissing (DText "LiteLLM virtual key not provisioned yet")
      (Add (Now in_) (KeyRetryBackoff in_))
  else match i_QuietHours in_ with
  | Some q =>
      match EndAfter q (Now in_) with
      | (e, true) => deferTo in_ ReasonQuietHours (DQuietUntil e) e
      | (_, false) => decide_ladder in_
      end
  | None => decide_ladder in_
  end.

(** ** What a run commits *)

Definition Reserve (spec : RungSpec) : float64 * float64 * Z :=
  let tokens := EstTokens spec in
  if String.eqb (Kind spec) KindLocal
  then (fzero, fmul (PricePerToken spec) (float_of_Z tokens), tokens)
  else (EstCostUSD spec, fzero, tokens).

(** ** When an attempt runs *)

Definition token_ceilings (in_ : Input) : Budget := FromEffective (ec_Budget (i_Effective in_)).

(** Every gate between a trigger and a metered session, on the rung that the
    history points at. *)
Record may_run (in_ : Input) (target : string) (spec : RungSpec) : Prop := {
  mr_registered : Registered in_ = true;
  mr_valid : Invalid in_ = false;
  mr_enabled : ec_Enabled (i_Effective in_) = true;
  mr_action : (ActionFor (i_Effective in_) (i_Trigger in_)).1 = true;
  mr_key : KeyReady in_ = true;
  mr_awake : ∀ q, i_QuietHours in_ = Some q → ¬ quiet q (Now in_);
  mr_rung : LadderFor (i_Effective in_) (i_Trigger in_)
              !! Z.to_nat (Index_ (LadderPosition (i_Trigger in_) (Prior in_))) = Some target;
  mr_spec : i_Catalog in_ !! target = Some spec;
  mr_infra : ConsecutiveInfraFailures (Prior in_) target < MaxInfraRetries in_;
  mr_cloud : Kind spec = KindCloud → i_CloudAllowed in_ = true;
  mr_fresh : AllUnlimited (token_ceilings in_) = true ∨
             Sub (Now in_) (SpendAsOf in_) <= MaxSpendStale in_;
  mr_task : FitsTaskTokens (Remain (token_ceilings in_) (i_Spend in_)) (EstTokens spec) = true;
  mr_month : FitsMonthTokens (Remain (token_ceilings in_) (i_Spend in_)) (EstTokens spec) = true;
  mr_cost : flt fzero (EstCostUSD spec) = true →
            FitsCost (Remain (token_ceilings in_) (i_Spend in_)) (EstCostUSD spec) = true;
}.

Lemma LadderFloor_nonneg t : 0 <= LadderFloor t.
Proof.
  unfold LadderFloor. destruct (LadderFloors !! t) as [v|] eqn:E; [|done]. simpl.
  unfold LadderFloors in E. rewrite !lookup_insert_Some, lookup_singleton_Some in E. lia.
Qed.

Lemma FloorRetry_nonneg t : 0 <= FloorRetry t.
Proof. unfold FloorRetry. lia. Qed.

Lemma LadderPosition_bounds t prior :
  let p := LadderPosition t prior in
  Floor_ p = LadderFloor t ∧ Floor_ p <= Index_ p ∧ 0 <= Climbs p ∧
  Climbs p = Z.max (Escalations prior - FloorRetry t) 0.
Proof.
  cbn. pose proof (LadderFloor_nonneg t). pose proof (FloorRetry_nonneg t).
  pose proof (Escalations_nonneg prior). lia.
Qed.

Lemma ActionFor_ungated eff t : (ActionFor eff t).2 = false → (ActionFor eff t).1 = true.
Proof. unfold ActionFor. by repeat case_match. Qed.

Lemma EndAfter_awake q now : (EndAfter q now).2 = false ↔ ¬ quiet q now.
Proof. rewrite <- EndAfter_quiet. by destruct (EndAfter q now).2. Qed.

(** The first gates, in order. *)
Lemma Decide_gates in_ :
  d_Kind (Decide in_) = Run ↔
    Registered in_ = true ∧ Invalid in_ = false ∧ ec_Enabled (i_Effective in_) = true ∧
    (ActionFor (i_Effective in_) (i_Trigger in_)).1 = true ∧ KeyReady in_ = true ∧
    (∀ q, i_QuietHours in_ = Some q → ¬ quiet q (Now in_)) ∧ d_Kind (decide_ladder in_) = Run.
Proof.
  unfold Decide. pose proof (ActionFor_ungated (i_Effective in_) (i_Trigger in_)) as Hu.
  destruct (ActionFor _ _) as [allowed gated]. cbn [fst snd] in *.
  destruct (Registered in_); [|naive_solver]. destruct (Invalid in_); [naive_solver|].
  destruct (ec_Enabled _); [|naive_solver]. destruct allowed; rewrite ?andb_false_r, ?andb_true_r; cbn [negb].
  2: { destruct gated; [naive_solver|]. naive_solver. }
  destruct (KeyReady in_); [|naive_solver]. cbn [negb].
  destruct (i_QuietHours in_) as [q|]; [|naive_solver].
  pose proof (EndAfter_awake q (Now in_)) as Hq. destruct (EndAfter q (Now in_)) as [e []]; simpl in *;
    naive_solver.
Qed.

Lemma decide_money_run in_ ladder pos target spec :
  d_Kind (decide_money in_ ladder pos target spec) = Run ↔
    (AllUnlimited (token_ceilings in_) = true ∨ Sub (Now in_) (SpendAsOf in_) <= MaxSpendStale in_) ∧
    FitsTaskTokens (Remain (token_ceilings in_) (i_Spend in_)) (EstTokens spec) = true ∧
    FitsMonthTokens (Remain (token_ceilings in_) (i_Spend in_)) (EstTokens spec) = true ∧
    (flt fzero (EstCostUSD spec) = true →
     FitsCost (Remain (token_ceilings in_) (i_Spend in_)) (EstCostUSD spec) = true).
Proof.
  unfold decide_money, token_ceilings. cbv zeta. set (b := FromEffective _).
  destruct (Z.ltb_spec (MaxSpendStale in_) (Sub (Now in_) (SpendAsOf in_)));
    destruct (AllUnlimited b), (FitsTaskTokens _ _), (FitsMonthTokens _ _), (flt fzero _), (FitsCost _ _);
    simpl; naive_solver lia.
Qed.

(** The rung the history points at, and the gates in front of the money. *)
Definition on_rung (in_ : Input) (target : string) (spec : RungSpec) : Prop :=
  LadderFor (i_Effective in_) (i_Trigger in_)
    !! Z.to_nat (Index_ (LadderPosition (i_Trigger in_) (Prior in_))) = Some target ∧
  i_Catalog in_ !! target = Some spec ∧
  ConsecutiveInfraFailures (Prior in_) target < MaxInfraRetries in_ ∧
  (Kind spec = KindCloud → i_CloudAllowed in_ = true).

Lemma on_rung_money in_ target spec :
  on_rung in_ target spec →
  decide_ladder in_ = decide_money in_ (LadderFor (i_Effective in_) (i_Trigger in_))
    (LadderPosition (i_Trigger in_) (Prior in_)) target spec.
Proof.
  destruct (LadderPosition_bounds (i_Trigger in_) (Prior in_)) as (Hf & Hi & _ & _).
  pose proof (LadderFloor_nonneg (i_Trigger in_)) as H0. rewrite <- Hf in H0. clear Hf.
  intros (Hl & Hs & Hn & Hc). unfold decide_ladder. cbv zeta.
  set (ladder := LadderFor _ _) in *. set (pos := LadderPosition _ _) in *.
  pose proof (lookup_lt_Some _ _ _ Hl) as Hlt.
  destruct (Z.eqb_spec (Z.of_nat (length ladder)) 0); [lia|]. rewrite andb_false_r.
  destruct (Z.leb_spec (Z.of_nat (length ladder)) (Floor_ pos)); [lia|]. rewrite andb_false_r.
  destruct (Z.leb_spec (Z.of_nat (length ladder)) (Index_ pos)); [lia|].
  rewrite (nth_lookup_Some _ _ _ _ Hl), Hs.
  destruct (Z.leb_spec (MaxInfraRetries in_) (ConsecutiveInfraFailures (Prior in_) target)); [lia|].
  destruct (String.eqb_spec (Kind spec) KindCloud); [|done]. by rewrite Hc.
Qed.

(** The reasons of a wait and of a refusal. *)
Definition defer_reasons : list string :=
  [ReasonKeyMissing; ReasonQuietHours; ReasonSpendStale; ReasonMonthlyTokensExhausted;
   ReasonMonthlyCostExhausted].
Definition deny_reasons : list string :=
  [ReasonNotRegistered; ReasonDisabled; ReasonInvalidConfig; ReasonActionNotAllowed;
   ReasonLadderExhausted; ReasonInfraRetriesExhausted; ReasonPerTaskTokensExhausted;
   ReasonCloudNotAllowed].

Ltac listed := apply (bool_decide_unpack _); vm_compute; exact I.

Ltac denied := left; eexists _, _; split; [|reflexivity]; listed.

Lemma decide_ladder_cases in_ :
  (∃ r x, r ∈ deny_reasons ∧ decide_ladder in_ = deny in_ r x) ∨
  ∃ target spec, on_rung in_ target spec.
Proof.
  unfold decide_ladder, on_rung. cbv zeta.
  set (ladder := LadderFor _ _) in *. set (pos := LadderPosition _ _) in *.
  destruct (_ && (_ =? 0)); [denied|].
  destruct (_ && (_ <=? Floor_ pos)); [denied|].
  destruct (Z.leb_spec (Z.of_nat (length ladder)) (Index_ pos)) as [|Hlt];
    [denied|].
  destruct (i_Catalog in_ !! _) as [spec|] eqn:Es; [|denied].
  destruct (Z.leb_spec (MaxInfraRetries in_)
    (ConsecutiveInfraFailures (Prior in_) (nth (Z.to_nat (Index_ pos)) ladder "")));
    [denied|].
  destruct (_ && negb _) eqn:Ec; [denied|].
  right. eexists _, spec. split_and!; [|exact Es|done|].
  - destruct (lookup_lt_is_Some_2 ladder (Z.to_nat (Index_ pos))) as [r Hr].
    { assert (0 <= Index_ pos); [|lia].
      destruct (LadderPosition_bounds (i_Trigger in_) (Prior in_)) as (Hf & Hi & _ & _).
      pose proof (LadderFloor_nonneg (i_Trigger in_)). fold pos in Hf, Hi. lia. }
    by rewrite (nth_lookup_Some _ _ _ _ Hr).
  - intros Hk. rewrite Hk in Ec. by destruct (i_CloudAllowed in_).
Qed.

Lemma decide_ladder_run in_ :
  d_Kind (decide_ladder in_) = Run → ∃ target spec, on_rung in_ target spec.
Proof. destruct (decide_ladder_cases in_) as [(r & x & _ & ->)|H]; done. Qed.

Lemma decide_money_fields in_ ladder pos target spec :
  let d := decide_money in_ ladder pos target spec in
  d_Kind d = Run →
  d_Rung d = target ∧ d_Model d = Model spec ∧ d_Reason d = "" ∧
  d_MaxTurns d = EffectiveMaxTurns spec ∧ d_Escalated d = (0 <? Climbs pos) ∧
  d_Attempt d = Z.of_nat (length (Prior in_)) + 1.
Proof. unfold decide_money. cbv zeta. repeat case_match; done. Qed.

Lemma Decide_ladder in_ : d_Kind (Decide in_) = Run → Decide in_ = decide_ladder in_.
Proof.
  unfold Decide. destruct (ActionFor _ _) as [al ga].
  do 5 (case_match; [done|]). case_match; [|done]. by destruct (EndAfter _ _) as [e []].
Qed.

(** C1. The decision runs an attempt exactly when every gate is open on the rung
    that the history points at: the project is registered, valid and enabled,
    the trigger's action on, the key there, no quiet hours, the rung on the
    ladder and in the catalog, its infrastructure retries not used up, a paid
    rung allowed by a human, the spend fresh or no ceiling set, and the estimate
    within the task's tokens, the month's tokens and, when it has a price, the
    month's dollars. The answer then is that rung, its model and its turn cap,
    and says it is an escalation exactly when gate failures beyond the floor
    retries moved it up. *)
Theorem Decide_runs_iff (in_ : Input) :
  (d_Kind (Decide in_) = Run ↔ ∃ target spec, may_run in_ target spec) ∧
  ∀ target spec, may_run in_ target spec →
    let d := Decide in_ in
    d_Rung d = target ∧ d_Model d = Model spec ∧ d_Reason d = "" ∧
    d_MaxTurns d = EffectiveMaxTurns spec ∧
    d_Escalated d = (FloorRetry (i_Trigger in_) <? Escalations (Prior in_)) ∧
    d_Attempt d = Z.of_nat (length (Prior in_)) + 1.
Proof.
  assert (Hback : ∀ target spec, may_run in_ target spec →
    d_Kind (Decide in_) = Run ∧ on_rung in_ target spec).
  { intros target spec []. assert (on_rung in_ target spec) as Ho by done. split; [|done].
    apply Decide_gates. split_and!; try done. rewrite (on_rung_money _ _ _ Ho).
    by apply decide_money_run. }
  split; [split|].
  - intros Hr. apply Decide_gates in Hr as (? & ? & ? & ? & ? & ? & Hr).
    destruct (decide_ladder_run in_ Hr) as (target & spec & Ho).
    rewrite (on_rung_money _ _ _ Ho) in Hr. apply decide_money_run in Hr as (? & ? & ? & ?).
    destruct Ho as (? & ? & ? & ?). exists target, spec. by split.
  - intros (target & spec & H). by apply (Hback target spec).
  - intros target spec H d. destruct (Hback target spec H) as [Hr Ho].
    unfold d. rewrite (Decide_ladder in_ Hr), (on_rung_money _ _ _ Ho).
    rewrite (Decide_ladder in_ Hr), (on_rung_money _ _ _ Ho) in Hr.
    apply decide_money_fields in Hr as (? & ? & ? & ? & He & ?). split_and!; try done. rewrite He.
    destruct (LadderPosition_bounds (i_Trigger in_) (Prior in_)) as (_ & _ & _ & ->).
    destruct (Z.ltb_spec 0 (Z.max (Escalations (Prior in_) - FloorRetry (i_Trigger in_)) 0)),
      (Z.ltb_spec (FloorRetry (i_Trigger in_)) (Escalations (Prior in_))); (done || lia).
Qed.

(** ** The shape of every answer *)

(** A run names its rung and gives no reason; a wait wakes up later; a refusal
    has a reason. *)
Definition well_shaped (in_ : Input) (d : Decision) : Prop :=
  d_Attempt d = Z.of_nat (length (Prior in_)) + 1 ∧
  match d_Kind d with
  | Run => d_Reason d = "" ∧ is_Some (i_Catalog in_ !! d_Rung d) ∧
           d_Rung d ∈ LadderFor (i_Effective in_) (i_Trigger in_)
  | Defer => Now in_ < d_RetryAfter d ∧ d_Reason d ∈ defer_reasons ∧ d_Rung d = ""
  | Deny => d_Reason d ∈ deny_reasons ∧ d_Rung d = ""
  end.

Lemma deny_shaped in_ r x : r ∈ deny_reasons → well_shaped in_ (deny in_ r x).
Proof. done. Qed.

Lemma deferTo_shaped in_ r x u :
  0 < MaxSpendStale in_ → r ∈ defer_reasons → well_shaped in_ (deferTo in_ r x u).
Proof.
  intros Hm Hr. split; [done|]. split_and!; try done. unfold deferTo, After, Add. simpl.
  destruct (Z.ltb_spec (Now in_) u); simpl; lia.
Qed.

Section shape.
Context (in_ : Input) (Hm : 0 < MaxSpendStale in_).

Lemma decide_money_shaped target spec :
  on_rung in_ target spec →
  well_shaped in_ (decide_money in_ (LadderFor (i_Effective in_) (i_Trigger in_))
    (LadderPosition (i_Trigger in_) (Prior in_)) target spec).
Proof using Hm.
  intros (Hl & Hs & _). unfold decide_money. cbv zeta.
  case_match; [apply deferTo_shaped; [done|listed]|]. case_match; [apply deny_shaped; listed|].
  case_match; [apply deferTo_shaped; [done|listed]|]. case_match; [apply deferTo_shaped; [done|listed]|].
  split; [done|]. split_and!; [done|by eexists|]. by eapply list_elem_of_lookup_2.
Qed.

Lemma decide_ladder_shaped : well_shaped in_ (decide_ladder in_).
Proof using Hm.
  destruct (decide_ladder_cases in_) as [(r & x & Hr & ->)|(target & spec & Ho)].
  - by apply deny_shaped.
  - rewrite (on_rung_money _ _ _ Ho). by apply decide_money_shaped.
Qed.
End shape.

(** Every answer is well shaped, provided the staleness bound is positive: a run
    carries no reason and names a rung that is on the trigger's ladder and in
    the catalog; a wait names one of the five reasons that time can cure and
    wakes strictly later than now, whatever the budget window or the quiet hours
    gave, so that a parked bead neither spins nor is lost; a refusal names one
    of the eight that it cannot. *)
Theorem Decide_shape (in_ : Input) (Hm : 0 < MaxSpendStale in_) : well_shaped in_ (Decide in_).
Proof.
  unfold Decide. destruct (ActionFor _ _) as [al ga].
  do 4 (case_match; [apply deny_shaped; listed|]).
  case_match; [apply deferTo_shaped; [done|listed]|].
  case_match; [|by apply decide_ladder_shaped].
  destruct (EndAfter _ _) as [e []]; [apply deferTo_shaped; [done|listed]|by apply decide_ladder_shaped].
Qed.

(** A project as onboarding leaves it: free local rungs, then a paid one. *)
Definition demo_project : CfgPolicy :=
  let z := CfgPolicy_zero in
  mkCfgPolicy (Some true) (mkActionsPolicy (Some true) (Some true) None None None None) None
    (mkBudgetPolicy (Some fzero) (Some 1000000) (Some 200000))
    (Some ["qwen-small"; "qwen-large"; "sonnet"]) None None None None None
    (c_Scope z) (c_PipelineFix z) (c_Change z) (c_Review z).
Definition demo_rungs : list RungSpec :=
  [mkRungSpec "qwen-small" KindLocal "qwen3-8b" fzero 20000 (float_of_Z 1) 0;
   mkRungSpec "qwen-large" KindLocal "qwen3-32b" fzero 50000 (float_of_Z 2) 0;
   mkRungSpec "sonnet" KindCloud "claude-sonnet" (float_of_Z 1) 50000 fzero 0].
Definition demo_catalog : gmap string RungSpec :=
  match build_catalog demo_rungs with Ok c => c | Err _ => ∅ end.
Definition demo_input (trigger : string) (prior : list Attempt) (spend : Budget.Spend) : Input :=
  let now := Date 2026 10 8 12 0 0 0 UTC in
  mkInput (Resolve CfgPolicy_zero CfgPolicy_zero demo_project) demo_catalog true false "" true trigger
    false prior spend now now (MonthWindow now) None (5 * Minute) Minute 3.
Definition no_spend : Budget.Spend := mkSpend fzero fzero fzero fzero 0 0 0 0.

Lemma Decide_shape_witness :
  let in_ := demo_input TriggerIssueTriage [] (mkSpend fzero fzero fzero fzero 990000 0 0 0) in
  d_Kind (Decide in_) = Defer ∧ Now in_ < d_RetryAfter (Decide in_).
Proof.
  intros in_. assert (Hm : 0 < MaxSpendStale in_) by reflexivity.
  assert (Hk : d_Kind (Decide in_) = Defer) by (vm_compute; reflexivity). split; [exact Hk|].
  pose proof (Decide_shape in_ Hm) as [_ Hs]. rewrite Hk in Hs. apply Hs.
Defined.

(** ** Money *)

Lemma build_catalog_checked rungs cat :
  build_catalog rungs = Ok cat → ∀ r spec, cat !! r = Some spec → check_rung spec = None ∧ Name spec = r.
Proof.
  unfold build_catalog. revert cat. induction rungs as [|x rungs IH] using rev_ind; intros cat; simpl.
  { intros [= <-] r spec H. by rewrite lookup_empty in H. }
  rewrite fold_left_app. simpl. destruct (fold_left add_rung rungs (Ok ∅)) as [c|e]; [|done]. simpl.
  case_decide; [done|]. destruct (check_rung x) eqn:Hx; [done|]. intros [= <-] r spec Hr.
  apply lookup_insert_Some in Hr as [[<- <-]|[_ Hr]]; [done|]. by eapply IH.
Qed.

Lemma check_rung_facts r :
  check_rung r = None → 0 < EstTokens r ∧
  (Kind r = KindLocal → flt fzero (EstCostUSD r) = false) ∧
  (Kind r = KindCloud → flt fzero (EstCostUSD r) = true).
Proof.
  unfold check_rung. destruct (Z.leb_spec (EstTokens r) 0); [done|].
  destruct (String.eqb_spec (Kind r) KindCloud) as [E|E]; rewrite ?E.
  - destruct (flt fzero (EstCostUSD r)); done.
  - destruct (String.eqb_spec (Kind r) KindLocal) as [E'|E']; [|done].
    destruct (feq (EstCostUSD r) fzero) eqn:Hz; [|done]. intros _. split_and!; [done| |done].
    intros _. by destruct (EstCostUSD r) as [[]|[]| |[] ? ?].
Qed.

Lemma Decide_run_gates in_ :
  d_Kind (Decide in_) = Run → ∃ spec, i_Catalog in_ !! d_Rung (Decide in_) = Some spec ∧
    on_rung in_ (d_Rung (Decide in_)) spec ∧
    d_Kind (decide_money in_ (LadderFor (i_Effective in_) (i_Trigger in_))
      (LadderPosition (i_Trigger in_) (Prior in_)) (d_Rung (Decide in_)) spec) = Run.
Proof.
  intros Hr. rewrite (Decide_ladder in_ Hr). apply Decide_gates in Hr as (_ & _ & _ & _ & _ & _ & Hr).
  destruct (decide_ladder_run in_ Hr) as (target & spec & Ho). rewrite (on_rung_money _ _ _ Ho) in *.
  pose proof (decide_money_fields _ _ _ _ _ Hr) as (Ht & _). rewrite Ht. exists spec.
  split; [apply Ho|by split].
Qed.

(** C30. An attempt never runs past a ceiling: with a catalog that the operator
    configuration accepted and counters and ceilings in their int64 range, the
    tokens observed, those reserved by attempts in flight and the estimate of
    the chosen rung fit together under the month's ceiling and under the task's;
    a project with a zero dollar ceiling runs rungs without a price only; a paid
    rung runs only with the human's allowance. *)
Theorem Decide_never_overspends (in_ : Input) (rungs : list RungSpec)
    (Hc : build_catalog rungs = Ok (i_Catalog in_))
    (Hb : 0 <= MonthlyTokens (token_ceilings in_) <= MaxInt64 ∧
          0 <= PerTaskTokens (token_ceilings in_) <= MaxInt64)
    (Hs : int64 (Tokens (i_Spend in_)) ∧ int64 (ReservedTokens (i_Spend in_)) ∧
          int64 (TaskTokens (i_Spend in_)) ∧ int64 (ReservedTaskTokens (i_Spend in_)))
    (Hr : d_Kind (Decide in_) = Run) :
  ∃ spec, i_Catalog in_ !! d_Rung (Decide in_) = Some spec ∧
    let b := token_ceilings in_ in let s := i_Spend in_ in
    (MonthlyTokens b = UnlimitedTokens ∨
     Tokens s + ReservedTokens s + EstTokens spec <= MonthlyTokens b) ∧
    (PerTaskTokens b = UnlimitedTokens ∨
     TaskTokens s + ReservedTaskTokens s + EstTokens spec <= PerTaskTokens b) ∧
    (MonthlyCostUSD b = fzero → Kind spec ≠ KindCloud) ∧
    (Kind spec = KindCloud → i_CloudAllowed in_ = true).
Proof.
  destruct (Decide_run_gates in_ Hr) as (spec & Hspec & (_ & _ & _ & Hcl) & Hm).
  apply decide_money_run in Hm as (_ & Ht & Hmo & Hco). exists spec. split; [done|]. cbv zeta.
  destruct (build_catalog_checked _ _ Hc _ _ Hspec) as [(He & _ & Hpr)%check_rung_facts _].
  unfold FitsTaskTokens, FitsMonthTokens in *. cbn [Remain RemPerTaskTokens RemMonthlyTokens] in Ht, Hmo.
  apply fits_remainTokens in Ht, Hmo; try tauto. unfold UnlimitedTokens.
  split_and!; [lia|lia| |done].
  intros Hz Hk. specialize (Hco (Hpr Hk)). unfold FitsCost in Hco.
  cbn [Remain RemMonthlyCostUSD] in Hco. by rewrite Hz, remainCost_zero_ceiling in Hco.
Qed.

Lemma Decide_never_overspends_witness :
  let in_ := demo_input TriggerIssueTriage [mkAttempt 1 "qwen-small" OutcomeGateFailed]
               (mkSpend fzero fzero (float_of_Z 7) fzero 900000 20000 50000 0) in
  d_Rung (Decide in_) = "qwen-large" ∧ ∃ spec, demo_catalog !! "qwen-large" = Some spec ∧
    900000 + 50000 + EstTokens spec <= 1000000.
Proof.
  intros in_. assert (Hd : d_Rung (Decide in_) = "qwen-large") by (vm_compute; reflexivity).
  split; [exact Hd|].
  destruct (Decide_never_overspends in_ demo_rungs) as (spec & Hspec & Hmo & _).
  - vm_compute. reflexivity.
  - vm_compute. split; split; discriminate.
  - vm_compute. repeat split; discriminate.
  - vm_compute. reflexivity.
  - rewrite Hd in Hspec. exists spec. split; [exact Hspec|].
    destruct Hmo as [Hu|Hle]; [vm_compute in Hu; discriminate Hu|exact Hle].
Defined.

Definition with_synthetic (in_ : Input) (observed reserved : float64) : Input :=
  let s := i_Spend in_ in
  mkInput (i_Effective in_) (i_Catalog in_) (Registered in_) (Invalid in_) (InvalidDetail in_)
    (KeyReady in_) (i_Trigger in_) (i_CloudAllowed in_) (Prior in_)
    (mkSpend (CostUSD s) (ReservedCostUSD s) observed reserved (Tokens s) (TaskTokens s)
       (ReservedTokens s) (ReservedTaskTokens s))
    (SpendAsOf in_) (Now in_) (i_Window in_) (i_QuietHours in_) (MaxSpendStale in_)
    (KeyRetryBackoff in_) (MaxInfraRetries in_).

Lemma Decide_cost_reason in_ :
  d_Reason (Decide in_) = ReasonMonthlyCostExhausted →
  ∃ target spec, on_rung in_ target spec ∧ flt fzero (EstCostUSD spec) = true.
Proof.
  assert (Hl : d_Reason (decide_ladder in_) = ReasonMonthlyCostExhausted →
    ∃ target spec, on_rung in_ target spec ∧ flt fzero (EstCostUSD spec) = true).
  { destruct (decide_ladder_cases in_) as [(r & x & Hr & ->)|(target & spec & Ho)].
    - simpl. intros ->. by apply (bool_decide_pack _) in Hr.
    - rewrite (on_rung_money _ _ _ Ho). intros H. exists target, spec. split; [done|]. revert H.
      unfold decide_money. cbv zeta. do 3 (case_match; [done|]).
      destruct (flt fzero (EstCostUSD spec)); done. }
  unfold Decide. destruct (ActionFor _ _) as [al ga]. do 5 (case_match; [done|]).
  case_match; [|done]. by destruct (EndAfter _ _) as [e []].
Qed.

(** Synthetic dollars, which price local rungs for the proxy's own ceiling, are
    not money here: no amount of them, observed or reserved, changes a decision,
    and with a catalog that the operator configuration accepted a local rung is
    never parked for dollars, so a project onboarded with a zero dollar ceiling
    can run. *)
Theorem Decide_real_dollars_only (in_ : Input) (rungs : list RungSpec) (observed reserved : float64)
    (Hc : build_catalog rungs = Ok (i_Catalog in_)) :
  Decide (with_synthetic in_ observed reserved) = Decide in_ ∧
  (d_Reason (Decide in_) = ReasonMonthlyCostExhausted →
   ∃ target spec, on_rung in_ target spec ∧ Kind spec ≠ KindLocal).
Proof.
  split; [reflexivity|]. intros (target & spec & Ho & Hp)%Decide_cost_reason.
  exists target, spec. split; [done|]. intros Hk. destruct Ho as (_ & Hs & _).
  destruct (build_catalog_checked _ _ Hc _ _ Hs) as [(_ & Hloc & _)%check_rung_facts _].
  by rewrite Hloc in Hp.
Qed.

Lemma Decide_real_dollars_only_witness :
  let in_ := demo_input TriggerIssueTriage [] no_spend in
  d_Kind (Decide in_) = Run ∧
  Decide (with_synthetic in_ (float_of_Z 1000000) NaN) = Decide in_.
Proof.
  intros in_. split; [vm_compute; reflexivity|].
  apply (Decide_real_dollars_only in_ demo_rungs). vm_compute. reflexivity.
Defined.

(** ** Climbing *)

Lemma LadderPosition_step (trigger : string) (prior : list Attempt) (a : Attempt) :
  let p := LadderPosition trigger prior in
  let p' := LadderPosition trigger (prior ++ [a]) in
  (a_Outcome a ≠ OutcomeGateFailed → p' = p) ∧
  (a_Outcome a = OutcomeGateFailed →
     (FloorRetrying p' = true ∧ RetriesUsed p' = RetriesUsed p + 1 ∧ Index_ p' = Index_ p) ∨
     (FloorRetrying p' = false ∧ RetriesUsed p' = RetriesUsed p ∧ Index_ p' = Index_ p + 1)).
Proof.
  pose proof (FloorRetry_nonneg trigger). pose proof (Escalations_nonneg prior).
  unfold LadderPosition. cbv zeta. rewrite Escalations_snoc.
  cbn [GateFailures RetriesUsed Climbs Index_ Floor_ Retries]. split.
  - intros Hne. unfold Escalates. apply String.eqb_neq in Hne. rewrite Hne. by rewrite Z.add_0_r.
  - intros ->. unfold FloorRetrying. cbn [RetriesUsed Climbs Escalates].
    change (Escalates OutcomeGateFailed) with true. cbv iota.
    set (G := Escalations prior) in *. set (R := FloorRetry trigger) in *.
    destruct (Z.leb_spec R G).
    + right. destruct (Z.ltb_spec 0 (Z.min (G + 1) R)),
        (Z.eqb_spec (G + 1 - Z.min (G + 1) R) 0); simpl; first [lia | split_and!; [done|lia|lia]].
    + left. destruct (Z.ltb_spec 0 (Z.min (G + 1) R)),
        (Z.eqb_spec (G + 1 - Z.min (G + 1) R) 0); simpl; first [lia | split_and!; [done|lia|lia]].
Qed.

(** Every gate failure buys exactly one thing: the position after a gate failure
    differs from the one before it by one floor retry used or by one rung up,
    and no other outcome moves it at all; retries used and rungs climbed add up
    to the gate failures, and nothing climbs before the floor retries are
    spent. *)
Theorem LadderPosition_accounts (trigger : string) (prior : list Attempt) (a : Attempt) :
  let p := LadderPosition trigger prior in
  let p' := LadderPosition trigger (prior ++ [a]) in
  GateFailures p = RetriesUsed p + Climbs p ∧ Index_ p = LadderFloor trigger + Climbs p ∧
  (0 < Climbs p → RetriesUsed p = FloorRetry trigger) ∧
  (a_Outcome a ≠ OutcomeGateFailed → p' = p) ∧
  (a_Outcome a = OutcomeGateFailed →
     (FloorRetrying p' = true ∧ RetriesUsed p' = RetriesUsed p + 1 ∧ Index_ p' = Index_ p) ∨
     (FloorRetrying p' = false ∧ RetriesUsed p' = RetriesUsed p ∧ Index_ p' = Index_ p + 1)).
Proof.
  pose proof (FloorRetry_nonneg trigger). pose proof (Escalations_nonneg prior).
  cbv zeta. split; [cbn; lia|]. split; [cbn; lia|]. split; [cbn; lia|]. apply LadderPosition_step.
Qed.

(** The life of one bead whose attempts end in a gate failure or an
    infrastructure failure: each attempt was admitted by [Decide] on the history
    so far. Spend, clock, window, keys and every other input may change freely
    between attempts; the trigger, its ladder and the retry bound may not. *)
Inductive bead_life (trigger : string) (ladder : list string) (retries : Z) : list Attempt → Prop :=
| life_start : bead_life trigger ladder retries []
| life_attempt prior in_ o :
    bead_life trigger ladder retries prior →
    Prior in_ = prior → i_Trigger in_ = trigger →
    LadderFor (i_Effective in_) trigger = ladder → MaxInfraRetries in_ = retries →
    d_Kind (Decide in_) = Run → (o = OutcomeGateFailed ∨ o = OutcomeInfraFailed) →
    bead_life trigger ladder retries
      (prior ++ [mkAttempt (d_Attempt (Decide in_)) (d_Rung (Decide in_)) o]).

(** The rung a history points at on a ladder. *)
Definition rung_at (trigger : string) (ladder : list string) (prior : list Attempt) : option string :=
  ladder !! Z.to_nat (Index_ (LadderPosition trigger prior)).

(** Places on the ladder, floor retries counted: how many gate failures a
    bead can have. *)
Definition places (trigger : string) (ladder : list string) : Z :=
  FloorRetry trigger + Z.of_nat (length ladder) - LadderFloor trigger.

Section life.
Context (trigger : string) (ladder : list string) (retries : Z).

(** Infrastructure failures since the last gate failure, all on the rung that
    the history points at. *)
Fixpoint streak (rev_prior : list Attempt) : Z :=
  match rev_prior with
  | [] => 0
  | a :: rest => if Escalates (a_Outcome a) then 0 else streak rest + 1
  end.

Record life_inv (prior : list Attempt) : Prop := {
  li_len : Z.of_nat (length prior) <= retries * Escalations prior + streak (rev prior);
  li_streak : 0 <= streak (rev prior) <= Z.max retries 0;
  li_places : prior ≠ [] → Escalations prior + (if streak (rev prior) =? 0 then 0 else 1) <= places trigger ladder;
  li_infra : ∀ r, rung_at trigger ladder prior = Some r →
             ConsecutiveInfraFailures prior r = streak (rev prior);
}.

Lemma life_inv_start : life_inv [].
Proof.
  split; [simpl; unfold Escalations; simpl; lia|simpl; lia|done|done].
Qed.

Lemma rung_at_same prior a :
  a_Outcome a ≠ OutcomeGateFailed → rung_at trigger ladder (prior ++ [a]) = rung_at trigger ladder prior.
Proof.
  intros Hne. unfold rung_at, LadderPosition. cbn [Index_]. rewrite Escalations_snoc.
  unfold Escalates. apply String.eqb_neq in Hne. by rewrite Hne, Z.add_0_r.
Qed.

Lemma rung_at_places prior r :
  rung_at trigger ladder prior = Some r → Escalations prior < places trigger ladder.
Proof.
  unfold rung_at, places. intros H%lookup_lt_Some.
  destruct (LadderPosition_bounds trigger prior) as (Hf & _ & _ & Hc).
  assert (Hi : Index_ (LadderPosition trigger prior) = LadderFloor trigger + Climbs (LadderPosition trigger prior))
    by done.
  pose proof (LadderFloor_nonneg trigger). lia.
Qed.

(** One admitted attempt keeps the invariant. *)
Lemma life_inv_step prior r n o :
  life_inv prior → rung_at trigger ladder prior = Some r →
  ConsecutiveInfraFailures prior r < retries → (o = OutcomeGateFailed ∨ o = OutcomeInfraFailed) →
  life_inv (prior ++ [mkAttempt n r o]).
Proof.
  intros [Hlen Hst Hpl Hin] Hr Hk Ho. rewrite (Hin r Hr) in Hk. pose proof (rung_at_places prior r Hr) as Hp.
  destruct Ho as [-> | ->].
  - split; rewrite ?rev_app_distr, ?length_app, ?Escalations_snoc; cbn [rev app streak a_Outcome length];
      change (Escalates OutcomeGateFailed) with true; cbv iota; try (simpl; lia).
    intros r' _. rewrite ConsecutiveInfraFailures_snoc. done.
  - assert (Hne : OutcomeInfraFailed ≠ OutcomeGateFailed) by done.
    split; rewrite ?rev_app_distr, ?length_app, ?Escalations_snoc; cbn [rev app streak a_Outcome length];
      change (Escalates OutcomeInfraFailed) with false; cbv iota; try (simpl; lia).
    + intros _. destruct (Z.eqb_spec (streak (rev prior) + 1) 0); lia.
    + intros r' Hr'. rewrite rung_at_same in Hr' by done. rewrite Hr in Hr'. injection Hr' as <-.
      rewrite ConsecutiveInfraFailures_snoc. cbn [a_Outcome a_Rung]. rewrite !String.eqb_refl.
      cbn [andb]. by rewrite (Hin r Hr).
Qed.

Lemma life_keeps prior : bead_life trigger ladder retries prior → life_inv prior.
Proof.
  induction 1 as [|prior in_ o Hl IH Hp Ht Hla Hre Hk Ho]; [apply life_inv_start|].
  destruct (Decide_run_gates in_ Hk) as (spec & _ & (Hr & _ & Hi & _) & _).
  rewrite Hp, Ht, Hla in Hr. rewrite Hp, Hre in Hi. by apply life_inv_step.
Qed.
End life.

(** C37. A bead's attempts end. However spend, clock, window and keys move between
    attempts, a bead on a fixed ladder whose attempts keep failing is refused
    after at most the retry bound times the number of places, a place being a
    rung from the trigger's floor up or a floor retry; and every gate failure
    it had used up one place. *)
Theorem bead_attempts_bounded (trigger : string) (ladder : list string) (retries : Z)
    (prior : list Attempt) (H : bead_life trigger ladder retries prior) :
  Z.of_nat (length prior) <= Z.max 0 retries * Z.max 0 (places trigger ladder) ∧
  Escalations prior <= Z.max 0 (places trigger ladder).
Proof.
  destruct (life_keeps _ _ _ _ H) as [Hlen Hst Hpl _]. pose proof (Escalations_nonneg prior).
  destruct prior as [|a prior'].
  { split; [apply Z.mul_nonneg_nonneg; lia|]. change (Escalations []) with 0. lia. }
  specialize (Hpl ltac:(done)). set (pr := a :: prior') in *.
  destruct (Z.eqb_spec (streak (rev pr)) 0); split; nia.
Qed.

Lemma bead_attempts_bounded_witness :
  let h := [mkAttempt 1 "qwen-large" OutcomeGateFailed; mkAttempt 2 "qwen-large" OutcomeInfraFailed] in
  let ladder := ["qwen-small"; "qwen-large"; "sonnet"] in
  bead_life TriggerPipelineDiagnosis ladder 3 h ∧ Z.of_nat (length h) <= 3 * 3.
Proof.
  intros h ladder.
  assert (Hl : bead_life TriggerPipelineDiagnosis ladder 3 h).
  { apply (life_attempt TriggerPipelineDiagnosis ladder 3
      [mkAttempt 1 "qwen-large" OutcomeGateFailed]
      (demo_input TriggerPipelineDiagnosis [mkAttempt 1 "qwen-large" OutcomeGateFailed] no_spend)).
    2-6: vm_compute; reflexivity.
    2: right; reflexivity.
    apply (life_attempt TriggerPipelineDiagnosis ladder 3 []
      (demo_input TriggerPipelineDiagnosis [] no_spend)).
    2-6: vm_compute; reflexivity.
    2: left; reflexivity.
    apply life_start. }
  split; [exact Hl|]. exact (proj1 (bead_attempts_bounded _ _ _ _ Hl)).
Defined.

(** ** Reviews by another model, and reservations *)

(** A merge that needs a second model is available only when one is there: after
    the catalog is consulted, a workflow's reviews count towards a merge exactly
    when the configuration had left the models to be compared, the reviewer's
    rung is in the catalog, and some rung of the project's ladder at or above
    the workflow's floor is in the catalog with another model; everything else
    in the effective configuration is kept. *)
Theorem ResolveReviewMerge_distinct (eff : EffectiveCfg) (catalog : gmap string RungSpec) :
  let eff' := ResolveReviewMerge eff catalog in
  let open_ st trigger := Reason st = ReviewMergeModelsNotCompared ∧
    ∃ reviewer i r spec, catalog !! ReviewRung (ec_Review eff) = Some reviewer ∧
      LadderFloor trigger <= Z.of_nat i ∧ ec_Ladder eff !! i = Some r ∧
      catalog !! r = Some spec ∧ Model spec ≠ Model reviewer in
  (Available (PipelineFixMerge (ec_Review eff')) = true ↔
     open_ (PipelineFixMerge (ec_Review eff)) TriggerPipelineFix) ∧
  (Available (ChangeMerge (ec_Review eff')) = true ↔
     open_ (ChangeMerge (ec_Review eff)) TriggerIssueChange) ∧
  LadderFor eff' TriggerMRReview = LadderFor eff TriggerMRReview ∧ ec_Ladder eff' = ec_Ladder eff ∧
  ec_Actions eff' = ec_Actions eff ∧ ec_Budget eff' = ec_Budget eff.
Proof.
  cbv zeta. assert (Hst : ∀ have trigger,
    Available (merge_status eff catalog have trigger) = true ↔
      Reason have = ReviewMergeModelsNotCompared ∧
      ∃ reviewer i r spec, catalog !! ReviewRung (ec_Review eff) = Some reviewer ∧
        LadderFloor trigger <= Z.of_nat i ∧ ec_Ladder eff !! i = Some r ∧
        catalog !! r = Some spec ∧ Model spec ≠ Model reviewer).
  { intros have trigger. unfold merge_status. pose proof (LadderFloor_nonneg trigger).
    destruct (String.eqb_spec (Reason have) ReviewMergeModelsNotCompared) as [E|E]; simpl; [|naive_solver].
    destruct (catalog !! ReviewRung (ec_Review eff)) as [reviewer|] eqn:Er; [|naive_solver].
    destruct (Z.leb_spec (Z.of_nat (length (ec_Ladder eff))) (LadderFloor trigger)) as [Hle|Hlt].
    { simpl. split; [done|]. intros (_ & ? & i & r & spec & _ & Hi & Hl & _).
      apply lookup_lt_Some in Hl. lia. }
    destruct (existsb _ _) eqn:Ex; simpl.
    - split; [|done]. intros _. split; [done|]. apply existsb_elem in Ex as (r & Hr & Hm).
      apply list_elem_of_lookup in Hr as [j Hj]. rewrite lookup_drop in Hj.
      destruct (catalog !! r) as [spec|] eqn:Es; [|done]. apply negb_true_iff, String.eqb_neq in Hm.
      exists reviewer, (Z.to_nat (LadderFloor trigger) + j)%nat, r, spec. split_and!; (done || lia).
    - split; [done|]. intros (_ & rv & i & r & spec & [= <-] & Hi & Hl & Hs & Hm).
      apply not_true_iff_false in Ex. destruct Ex. apply existsb_elem. exists r. split.
      + apply list_elem_of_lookup. exists (i - Z.to_nat (LadderFloor trigger))%nat. rewrite lookup_drop.
        rewrite <- Hl. f_equal. lia.
      + rewrite Hs. by apply negb_true_iff, String.eqb_neq. }
  split; [apply Hst|]. split; [apply Hst|]. done.
Qed.

(** The time headroom is held for an attempt is the operator's setting plus, for
    the two triggers judged on a later pipeline, a wait that no project value
    takes below zero or above six hours; every other trigger gets the setting
    itself. *)
Theorem ReservationTTL_bounded (trigger : string) (base : Duration) (eff : EffectiveCfg)
    (Hb : 0 < base <= MaxInt64 - 6 * Hour) :
  base <= ReservationTTL trigger base eff <= base + 6 * Hour ∧
  (trigger ≠ TriggerIssueChange → trigger ≠ TriggerPipelineFix → ReservationTTL trigger base eff = base).
Proof.
  assert (Hw : ∀ v, wrap64 (base + Z.min (Z.max v 0) (6 * Hour)) = base + Z.min (Z.max v 0) (6 * Hour)).
  { intros v. apply wrap64_id. unfold int64, MinInt64, MaxInt64, Hour, Minute, Second in *. lia. }
  unfold ReservationTTL, ChangeVerifyTimeoutCeiling, FixVerifyTimeoutCeiling.
  destruct (String.eqb_spec trigger TriggerIssueChange); [rewrite Hw; split; [|done]|].
  - unfold Hour, Minute, Second. lia.
  - destruct (String.eqb_spec trigger TriggerPipelineFix); simpl negb; cbv iota.
    + rewrite Hw. split; [|done]. unfold Hour, Minute, Second. lia.
    + split; [|done]. unfold Hour, Minute, Second. lia.
Qed.

Lemma ReservationTTL_bounded_witness :
  let eff := Resolve CfgPolicy_zero CfgPolicy_zero demo_project in
  ReservationTTL TriggerIssueTriage (30 * Minute) eff = 30 * Minute ∧
  30 * Minute <= ReservationTTL TriggerPipelineFix (30 * Minute) eff.
Proof.
  intros eff.
  assert (Hb : 0 < 30 * Minute <= MaxInt64 - 6 * Hour) by (split; vm_compute; congruence).
  split.
  - apply (ReservationTTL_bounded TriggerIssueTriage _ eff Hb); discriminate.
  - apply (ReservationTTL_bounded TriggerPipelineFix _ eff Hb).
Defined.
