(* ===== verification/MeterService.v ===== *)
(** * [internal/meter/service] and [tagmint]: the meter's two money endpoints

    [Decide] and [Outcome] over the store, the janitor and the spend poll. The
    service reaches its store through an interface, as the source does; the
    in-memory store is its instance. Metrics are left out. A value that the
    source draws at random (a reservation's id) is an argument. *)

From Stdlib Require Import Ascii.
From S2P Require Import Prelude.
From S2P Require Import Float64.
From S2P Require Import GoTime.
From S2P Require Import GoStrings.
From S2P Require Import GoPath.
From S2P Require Import Gonkcfg.
From S2P Require Import Opercfg.
From S2P Require Import Budget.
From S2P Require Import Atags.
From S2P Require Import Spend.
From S2P Require Import RungOutcome.
From S2P Require Import MeterStore.
From S2P Require Import Rung.

(** ** Minting tags (internal/meter/tagmint) *)

Definition maxLen : Z := 200.

Definition alnum (c : ascii) : bool := in_range 48 57 c || in_range 65 90 c || in_range 97 122 c.
Definition lower_alnum (c : ascii) : bool := in_range 48 57 c || in_range 97 122 c.

(** [^first rest*$]. *)
Definition head_then (first rest : ascii → bool) (s : string) : bool :=
  match s with String c s' => first c && all_bytes rest s' | EmptyString => false end.

Definition reProject (s : string) : bool :=
  forallb (head_then alnum (λ c, alnum c || Ascii.eqb c "." || Ascii.eqb c "_" || Ascii.eqb c "-"))
    (Split slash s).
Definition reRung : string → bool := head_then lower_alnum (λ c, lower_alnum c || Ascii.eqb c "-").
Definition reID : string → bool :=
  head_then alnum (λ c, alnum c || Ascii.eqb c "." || Ascii.eqb c "_" || Ascii.eqb c ":" || Ascii.eqb c "-").

Inductive mint_error :=
| MintEmpty (name : string)
| MintTooLong (name : string)
| MintControl (name : string)
| MintPattern (name value : string)
| MintTag (e : tag_error).

Definition check (name value : string) (pattern : string → bool) : option mint_error :=
  if String.eqb value "" then Some (MintEmpty name)
  else if maxLen <? len value then Some (MintTooLong name)
  else if negb (all_bytes (in_range 32 126) value) then Some (MintControl name)
  else if negb (pattern value) then Some (MintPattern name value)
  else None.

Section mint.
Context `{MapRange}.

Definition Mint (r : Tags) : result mint_error Tags :=
  match head (omap (λ '(name, value, pattern), check name value pattern)
          [("project", Project r, reProject); ("rig", Rig r, reID); ("bead_id", BeadID r, reID);
           ("session_key", SessionKey r, reID); ("rung", Rung r, reRung)]) with
  | Some e => Err e
  | None => match Validate r with Some e => Err (MintTag e) | None => Ok r end
  end.
End mint.

(** ** Zero values *)

Definition EffectiveCfg_zero : EffectiveCfg :=
  let merge := mkEffectiveAutoMerge "" [] 0 in
  mkEffectiveCfg false NotDisabled (mkActions false false false false false false) None
    (mkEffectiveBudget fzero 0 0) [] "" "" false false false
    (mkEffectivePipelineFix [] [] false "" 0 0 0 0 0 [] merge)
    (mkEffectiveChange [] [] "" [] false 0 0 0 0 0 [] merge)
    (mkEffectiveReview [] "" 0 0 ReviewMergeStatus_zero ReviewMergeStatus_zero).
Definition Registration_zero : Registration :=
  mkRegistration "" "" "" EffectiveCfg_zero "" None "" (mkKeyRef "" "") "" Time_zero.

(** ** The store, as the service sees it *)

(** What a call may come back with: the store refuses an amount that is not
    finite, or it cannot be reached, has lost the connection and the like. *)
Inductive store_error :=
| NotFinite (f : float64)
| Unavailable (message : string).

(** Every call may fail. One that writes leaves a store behind in either case:
    a failed write may have taken effect, wholly or not at all. *)
Class Store (S : Type) := {
  st_GetRegistration : S → string → result store_error (option Registration);
  st_SyncedAt : S → result store_error Time;
  st_Window : S → result store_error Window;
  st_Attempts : S → string → string → result store_error (list Attempt);
  st_OpenReservations : S → string → Time → result store_error (list Reservation);
  st_SpendRows : S → string → result store_error (list Row);
  st_ReserveIfFits : S → string → Budget → Budget.Spend → Reservation → result store_error ReserveResult * S;
  st_GetReservation : S → string → result store_error (option Reservation);
  st_Settle : S → string → Time → result store_error unit * S;
  st_RecordAttempt : S → string → string → string → Attempt → result store_error unit * S;
  st_ExpireReservations : S → Time → result store_error (list Reservation) * S;
  st_ExpirePrompts : S → Time → result store_error Z * S;
  st_SpendCursor : S → result store_error Time;
  st_SetSpendCursor : S → Time → result store_error unit * S;
  st_AddSpendRows : S → list Row → result store_error Z * S;
  st_SetSyncedAt : S → Time → result store_error unit * S;
  st_SetWindow : S → Window → result store_error unit * S;
}.

Definition refuses {A} (r : result float64 A) : result store_error A :=
  match r with Ok a => Ok a | Err f => Err (NotFinite f) end.

(** The in-memory store, which fails only for an amount that is not finite. Two
    calls may range over the same map in different orders: one for the reads,
    one for the reservation. *)
#[export] Instance Memory_Store (R R' : MapRange) : Store Memory := {|
  st_GetRegistration m p := Ok (GetRegistration m p);
  st_SyncedAt m := Ok (syncedAt m);
  st_Window m := Ok (window m);
  st_Attempts m p b := Ok (Attempts m p b);
  st_OpenReservations m p now := Ok (@OpenReservations R m p now);
  st_SpendRows m p := Ok (SpendRows m p);
  st_ReserveIfFits m p c w r :=
    (refuses (@ReserveIfFits R' m p c w r).1, (@ReserveIfFits R' m p c w r).2);
  st_GetReservation m id := Ok (GetReservation m id);
  st_Settle m id t := (Ok tt, Settle m id t);
  st_RecordAttempt m p b id a := (Ok tt, RecordAttempt m p b id a);
  st_ExpireReservations m now := (Ok (@ExpireReservations R m now).1, (@ExpireReservations R m now).2);
  st_ExpirePrompts m now := (Ok (@ExpirePrompts R m now).1, (@ExpirePrompts R m now).2);
  st_SpendCursor m := Ok (cursor m);
  st_SetSpendCursor m t := (Ok tt, SetSpendCursor m t);
  st_AddSpendRows m rs := (Ok (AddSpendRows m rs).1, (AddSpendRows m rs).2);
  st_SetSyncedAt m t := (Ok tt, SetSyncedAt m t);
  st_SetWindow m w := (Ok tt, SetWindow m w);
|}.

(** ** The service *)

Record Service (S : Type) := mkService {
  sv_store : S;
  sv_cfg : OperatorConfig;
  sv_synced : bool;
  sv_skewOK : bool;
  sv_deferred : gmap string (gset string);
}.
Arguments mkService {S}.
Arguments sv_store {S}.
Arguments sv_cfg {S}.
Arguments sv_synced {S}.
Arguments sv_skewOK {S}.
Arguments sv_deferred {S}.

Record DecideRequest := mkDecideRequest {
  dr_Project : string;
  dr_Rig : string;
  dr_BeadID : string;
  dr_SessionKey : string;
  dr_Trigger : string;
}.

Record DecideExtras := mkDecideExtras {
  ex_Metadata : gmap string string;
  ex_KeyRef : KeyRef;
  ex_Reservation : Reservation;
}.
Definition DecideExtras_zero : DecideExtras := mkDecideExtras ∅ (mkKeyRef "" "") Reservation_zero.

Record OutcomeRequest := mkOutcomeRequest {
  or_Project : string;
  or_BeadID : string;
  or_SessionKey : string;
  or_Attempt : Z;
  or_Rung : string;
  or_ReservationID : string;
  or_Outcome : Outcome;
  or_Trigger : string;
}.
Record OutcomeResponse := mkOutcomeResponse {
  OK : bool;
  RecordedAttempt : Z;
  Next : string;
  NextRung : string;
}.

Inductive service_error :=
| MintError (e : mint_error)
| NotInCatalog (rung : string)
| StoreError (e : store_error)
| StoreFailed (call : string) (e : store_error)
| UnknownReservation
| BadOutcome.

Definition spendFor (rows : list Row) (w : Window) (project beadID : string) (openRes : list Reservation) :
    Budget.Spend :=
  let pt := ProjectTotals rows w project in
  let bt := BeadTotals rows project beadID in
  fold_left (λ sp r, mkSpend (CostUSD sp) (fadd (ReservedCostUSD sp) (rs_CostUSD r))
      (SyntheticCostUSD sp) (fadd (ReservedSyntheticCostUSD sp) (rs_SyntheticCostUSD r))
      (Tokens sp) (TaskTokens sp) (wrap64 (ReservedTokens sp + rs_Tokens r))
      (if String.eqb (rs_BeadID r) beadID then wrap64 (ReservedTaskTokens sp + rs_Tokens r)
       else ReservedTaskTokens sp)) openRes
    (mkSpend (TotCostUSD pt) fzero (TotSyntheticCostUSD pt) fzero (TotalTokens pt) (TotalTokens bt) 0 0).

(** The reason and the label of the leg. *)
Definition reasonForLostRaceLeg (miss : ReserveMiss) : string * string :=
  if String.eqb miss MissMonthlyTokens then (ReasonMonthlyTokensExhausted, "the monthly token budget")
  else if String.eqb miss MissTaskTokens then (ReasonPerTaskTokensExhausted, "the per-task token budget")
  else if String.eqb miss MissCost then (ReasonMonthlyCostExhausted, "the monthly cost budget")
  else (ReasonMonthlyCostExhausted, "an unspecified budget leg (store did not report which)").

Section service.
Context `{MapRange} {S : Type} `{Store S}.

Definition with_store (s : Service S) (st : S) : Service S :=
  mkService st (sv_cfg s) (sv_synced s) (sv_skewOK s) (sv_deferred s).

Definition setDeferred (s : Service S) (project beadID : string) (deferred : bool) : Service S :=
  let set := default ∅ (sv_deferred s !! project) in
  mkService (sv_store s) (sv_cfg s) (sv_synced s) (sv_skewOK s)
    (if deferred then <[project := {[beadID]} ∪ set]> (sv_deferred s)
     else match sv_deferred s !! project with
          | Some set => <[project := set ∖ {[beadID]}]> (sv_deferred s)
          | None => sv_deferred s
          end).

Definition noteDecision (s : Service S) (project beadID : string) (d : Decision) : Service S :=
  setDeferred s project beadID (match d_Kind d with Defer => true | _ => false end).

Definition Ready (s : Service S) : bool := sv_synced s && sv_skewOK s.

(** A call of the store whose error ends the request: one that reads, and one
    that writes. *)
Definition reading {A B C} (call : string) (c : C) (e : result store_error A)
    (k : A → result service_error B * C) : result service_error B * C :=
  match e with Ok a => k a | Err f => (Err (StoreFailed call f), c) end.
Definition writing {A B} (call : string) (s : Service S) (e : result store_error A * S)
    (k : A → S → result service_error B * Service S) : result service_error B * Service S :=
  let '(a, st) := e in
  match a with Ok a => k a st | Err f => (Err (StoreFailed call f), with_store s st) end.

(** The registration and whether there is one. *)
Definition registration (found : option Registration) : Registration * bool :=
  match found with
  | Some reg => (reg, true)
  | None => (Registration_zero, false)
  end.

(** [rung.Input{...}] as [Decide] fills it. *)
Definition decide_input (s : Service S) (req : DecideRequest) (now : Time) (found : option Registration)
    (asOf : Time) (w : Window) (prior : list Attempt) (sp : Budget.Spend) : Input :=
  let '(reg, ok) := registration found in
  let cfg := sv_cfg s in
  mkInput (rg_Effective reg) (Catalog cfg) ok
    (ok && String.eqb (rg_State reg) StateInvalid) (rg_InvalidDetail reg)
    (ok && String.eqb (rg_State reg) StateActive) (dr_Trigger req) (CloudAllowed cfg)
    prior sp asOf now w
    (rg_QuietHours reg) (MaxSpendStaleness (Meter cfg)) (mc_KeyRetryBackoff (Meter cfg))
    (mc_MaxInfraRetries (Meter cfg)).

Definition tags_for (req : DecideRequest) (rung : string) (attempt : Z) : Tags :=
  mkTags (dr_Project req) (dr_Rig req) (dr_BeadID req) (dr_SessionKey req) rung attempt (dr_Trigger req).

(** [catalog[rung].Model]: the zero value when the rung is not there. *)
Definition model_of (s : Service S) (rung : string) : string :=
  Model (default RungSpec_zero (Catalog (sv_cfg s) !! rung)).

Definition run_again (s : Service S) (r : Reservation) : Decision :=
  mkDecision Run (rs_Rung r) (model_of s (rs_Rung r)) (rs_Attempt r) "" DNone Time_zero 0 false.

Definition mine (req : DecideRequest) (r : Reservation) : bool :=
  String.eqb (rs_BeadID r) (dr_BeadID req) && String.eqb (rs_SessionKey r) (dr_SessionKey req)
  && negb (rs_Settled r).

(** Observed spend without what is held. *)
Definition observedOnly (sp : Budget.Spend) : Budget.Spend :=
  mkSpend (CostUSD sp) fzero (SyntheticCostUSD sp) fzero (Tokens sp) (TaskTokens sp) 0 0.

(** The reservation a decision asks for. *)
Definition wanted (s : Service S) (req : DecideRequest) (now : Time) (id : string) (spec : RungSpec)
    (d : Decision) (eff : EffectiveCfg) : Reservation :=
  let '(cost, synthetic, tokens) := Reserve spec in
  mkReservation id (dr_Project req) (dr_BeadID req) (dr_SessionKey req) (d_Rung d) (d_Attempt d)
    cost synthetic tokens now
    (Add now (ReservationTTL (dr_Trigger req) (mc_ReservationTTL (Meter (sv_cfg s))) eff)) false.

Definition lost_race (s : Service S) (now : Time) (d : Decision) (miss : ReserveMiss) : Decision :=
  let '(reason, label) := reasonForLostRaceLeg miss in
  mkDecision Defer "" "" (d_Attempt d) reason
    (DText ("lost a concurrent reservation race for " +:+ label))
    (Add now (MaxSpendStaleness (Meter (sv_cfg s)))) 0 false.

(** [d] on the rung and the attempt that are held. *)
Definition on_held (s : Service S) (d : Decision) (held : Reservation) : Decision :=
  mkDecision (d_Kind d) (rs_Rung held) (model_of s (rs_Rung held)) (rs_Attempt held) (d_Reason d)
    (d_Detail d) (d_RetryAfter d) (d_MaxTurns d) (d_Escalated d).

(** From the store's answer on. *)
Definition after_reserve (s : Service S) (req : DecideRequest) (now : Time) (reg : Registration) (d : Decision)
    (res : Reservation) : result store_error ReserveResult → result service_error (Decision * DecideExtras) * Service S :=
  λ answer, match answer with
  | Err e => (Err (StoreError e), s)
  | Ok r =>
      if negb (rr_Fits r) then
        let lost := lost_race s now d (rr_Miss r) in
        (Ok (lost, DecideExtras_zero), noteDecision s (dr_Project req) (dr_BeadID req) lost)
      else
        let held := rr_Reservation r in
        match Mint (tags_for req (rs_Rung held) (rs_Attempt held)) with
        | Err e =>
            (Err (MintError e),
             (* the error of [Settle] is dropped *)
             if negb (rr_Existing r) then with_store s (st_Settle (sv_store s) (rs_ID res) now).2 else s)
        | Ok tags =>
            let d' := on_held s d held in
            (Ok (d', mkDecideExtras (Metadata tags) (rg_KeyRef reg) held),
             noteDecision s (dr_Project req) (dr_BeadID req) d')
        end
  end.

(** From the reads on. *)
Definition decide_read (s s1 : Service S) (req : DecideRequest) (now : Time) (id : string)
    (found : option Registration) (asOf : Time) (w : Window) (prior : list Attempt)
    (openRes : list Reservation) : result service_error (Decision * DecideExtras) * Service S :=
  let reg := (registration found).1 in
  match List.find (mine req) openRes with
  | Some r =>
      match Mint (tags_for req (rs_Rung r) (rs_Attempt r)) with
      | Err e => (Err (MintError e), s1)
      | Ok tags =>
          let d := run_again s r in
          (Ok (d, mkDecideExtras (Metadata tags) (rg_KeyRef reg) r),
           noteDecision s1 (dr_Project req) (dr_BeadID req) d)
      end
  | None =>
      reading "spend rows" s1 (st_SpendRows (sv_store s) (dr_Project req)) (λ rows,
      let sp := spendFor rows w (dr_Project req) (dr_BeadID req) openRes in
      let bud := FromEffective (ec_Budget (rg_Effective reg)) in
      let d := Decide (decide_input s req now found asOf w prior sp) in
      match d_Kind d with
      | Run =>
          match Catalog (sv_cfg s) !! d_Rung d with
          | None => (Err (NotInCatalog (d_Rung d)), s1)
          | Some spec =>
              let res := wanted s req now id spec d (rg_Effective reg) in
              let '(answer, st2) := st_ReserveIfFits (sv_store s1) (dr_Project req) bud (observedOnly sp) res in
              after_reserve (with_store s st2) req now reg d res answer
          end
      | _ => (Ok (d, DecideExtras_zero), noteDecision s1 (dr_Project req) (dr_BeadID req) d)
      end)
  end.

(** [Decide]; [id] is what [newID] draws. The service reads the store [sv_store
    s]; by the time it reserves, other replicas have left [st1]. *)
Definition Decide_racing (s : Service S) (st1 : S) (req : DecideRequest) (now : Time) (id : string) :
    result service_error (Decision * DecideExtras) * Service S :=
  let st := sv_store s in
  let s1 := with_store s st1 in
  reading "get registration" s1 (st_GetRegistration st (dr_Project req)) (λ found,
  reading "synced at" s1 (if Ready s then st_SyncedAt st else Ok Time_zero) (λ asOf,
  reading "window" s1 (st_Window st) (λ w,
  reading "attempts" s1 (st_Attempts st (dr_Project req) (dr_BeadID req)) (λ prior,
  reading "open reservations" s1 (st_OpenReservations st (dr_Project req) now) (λ openRes,
  decide_read s s1 req now id found asOf w prior openRes))))).

(** Without a race. *)
Definition Service_Decide (s : Service S) (req : DecideRequest) (now : Time) (id : string) :
    result service_error (Decision * DecideExtras) * Service S :=
  Decide_racing s (sv_store s) req now id.

(** *** Outcomes *)

Definition previewNext (trigger : string) (outcome : Outcome) (curRung : string) (eff : EffectiveCfg)
    (prior : list Attempt) : string * string :=
  if String.eqb outcome OutcomeSuccess then ("done", "")
  else if String.eqb outcome OutcomeInfraFailed then ("retry", curRung)
  else if String.eqb outcome OutcomeGateFailed then
    let pos := LadderPosition trigger prior in
    if FloorRetrying pos then ("retry", curRung)
    else
      let ladder := LadderFor eff trigger in
      if Index_ pos <? Z.of_nat (length ladder)
      then ("escalate", nth (Z.to_nat (Index_ pos)) ladder "") else ("escalate", "")
  else ("done", "").

(** The first record that nobody may overwrite. *)
Definition voted (res : Reservation) (a : Attempt) : bool :=
  (a_Attempt a =? rs_Attempt res) && negb (String.eqb (a_Outcome a) OutcomeInfraFailed).

Definition Service_Outcome (s : Service S) (req : OutcomeRequest) (now : Time) :
    result service_error OutcomeResponse * Service S :=
  let st := sv_store s in
  reading "get reservation" s (st_GetReservation st (or_ReservationID req)) (λ bound,
  match bound with
  | None => (Err UnknownReservation, s)
  | Some res =>
      if negb (String.eqb (rs_Project res) (or_Project req)) || negb (String.eqb (rs_BeadID res) (or_BeadID req))
         || negb (rs_Attempt res =? or_Attempt req)
      then (Err UnknownReservation, s)
      else if negb (Outcome_Valid (or_Outcome req)) then (Err BadOutcome, s)
      else
        reading "attempts" s (st_Attempts st (or_Project req) (or_BeadID req)) (λ prior,
        reading "get registration" s (st_GetRegistration st (or_Project req)) (λ found,
        let eff := rg_Effective (registration found).1 in
        match List.find (voted res) prior with
        | Some a =>
            let '(next, nextRung) := previewNext (or_Trigger req) (a_Outcome a) (rs_Rung res) eff prior in
            (Ok (mkOutcomeResponse true (a_Attempt a) next nextRung), s)
        | None =>
            writing "settle" s (st_Settle st (rs_ID res) (Add now (MaxSpendStaleness (Meter (sv_cfg s)))))
              (λ _ st1,
            writing "record attempt" s (st_RecordAttempt st1 (or_Project req) (or_BeadID req) (rs_ID res)
                (mkAttempt (rs_Attempt res) (rs_Rung res) (or_Outcome req))) (λ _ st2,
            reading "attempts" (with_store s st2) (st_Attempts st2 (or_Project req) (or_BeadID req)) (λ updated,
            let '(next, nextRung) := previewNext (or_Trigger req) (or_Outcome req) (rs_Rung res) eff updated in
            (Ok (mkOutcomeResponse true (rs_Attempt res) next nextRung), with_store s st2))))
        end))
  end).

(** *** The budget report *)

Definition BudgetSnapshot (s : Service S) (now : Time) (project beadID : string) :
    result store_error (Budget * Remaining * Time) :=
  let st := sv_store s in
  let zero := (mkBudget fzero 0 0, mkRemaining fzero 0 0, Time_zero) in
  match st_GetRegistration st project with
  | Err e => Err e
  | Ok None => Ok zero
  | Ok (Some reg) =>
      if String.eqb (rg_State reg) StateInvalid then Ok zero
      else
        let bud := FromEffective (ec_Budget (rg_Effective reg)) in
        match st_SpendRows st project, st_OpenReservations st project now, st_Window st,
              (if Ready s then st_SyncedAt st else Ok Time_zero) with
        | Err e, _, _, _ => Err e
        | Ok _, Err e, _, _ => Err e
        | Ok _, Ok _, Err e, _ => Err e
        | Ok _, Ok _, Ok _, Err e => Err e
        | Ok rows, Ok openRes, Ok w, Ok asOf =>
            Ok (bud, Remain bud (spendFor rows w project beadID openRes), asOf)
        end
  end.

(** *** The loops *)

Definition spendPollOverlap : Duration := 2 * Minute.

(** Where a poll asks the source to start. *)
Definition since (s : Service S) : result store_error Time :=
  match st_SpendCursor (sv_store s) with
  | Err e => Err e
  | Ok cursor => Ok (if IsZero cursor then cursor else Add cursor (- spendPollOverlap))
  end.

(** One poll that the source answered with [rows] and its clock. The result is
    the number of rows ingested. *)
Definition syncSpendOnce (s : Service S) (now : Time) (rows : list Row) (sourceClock : Time) :
    result service_error Z * Service S :=
  let st := sv_store s in
  reading "cursor" s (st_SpendCursor st) (λ cursor,
  let skewOK := SkewOK now sourceClock (MaxClockSkew (Meter (sv_cfg s))) in
  let newCursor := fold_left (λ c r, if After (At r) c then At r else c) rows cursor in
  writing "add rows" s (st_AddSpendRows st rows) (λ n st1,
  writing "set cursor" s (if After newCursor cursor then st_SetSpendCursor st1 newCursor else (Ok tt, st1)) (λ _ st2,
  writing "set synced at" s (st_SetSyncedAt st2 now) (λ _ st3,
  let s3 := mkService st3 (sv_cfg s) true skewOK (sv_deferred s) in
  reading "window" s3 (st_Window st3) (λ w,
  let '(nextWindow, advanced) := Advance w now in
  writing "set window" s3 (if advanced then st_SetWindow st3 nextWindow else (Ok tt, st3)) (λ _ st4,
  (Ok n, with_store s3 st4))))))).

(** One record for each reservation that died, until one cannot be written. *)
Fixpoint record_infra (s : Service S) (expired : list Reservation) (k : S → result service_error unit * Service S)
    (st : S) : result service_error unit * Service S :=
  match expired with
  | [] => k st
  | r :: expired =>
      writing "record attempt" s (st_RecordAttempt st (rs_Project r) (rs_BeadID r) (rs_ID r)
        (mkAttempt (rs_Attempt r) (rs_Rung r) OutcomeInfraFailed)) (λ _, record_infra s expired k)
  end.

(** [Janitor]; the source reads its clock twice. *)
Definition Janitor (s : Service S) (now now' : Time) : result service_error unit * Service S :=
  writing "expire reservations" s (st_ExpireReservations (sv_store s) now) (λ expired,
  record_infra s expired (λ st,
  writing "expire prompts" s (st_ExpirePrompts st now') (λ _ st1, (Ok tt, with_store s st1)))).
End service.

(** ** What the service needs of a store *)

(** [held] holds budget for the work that [r] is for. *)
Definition same_job (r held : Reservation) : Prop :=
  rs_Project held = rs_Project r ∧ rs_BeadID held = rs_BeadID r ∧
  rs_SessionKey held = rs_SessionKey r ∧ rs_Settled held = false.

(** The laws speak of the reservations a store holds, which a call may fail to
    read. A reservation whose write failed may be there all the same, and one
    whose settling failed may be settled or not. *)
Class StoreLaws (S : Type) `{Store S} := {
  st_ok : S → Prop;
  st_books : S → string → option Reservation;
  open_law st p now l r : st_ok st → st_OpenReservations st p now = Ok l → r ∈ l →
    st_books st (rs_ID r) = Some r ∧ rs_Project r = p ∧ now < rs_ExpiresAt r;
  refuse_law st p c w r e st' : st_ReserveIfFits st p c w r = (Err e, st') →
    ∀ id, st_books st' id = st_books st id ∨ (id = rs_ID r ∧ st_books st' id = Some r);
  reserve_law st p c w r a st' : st_ok st → rs_Project r = p → rs_Settled r = false →
    st_ReserveIfFits st p c w r = (Ok a, st') →
    if rr_Fits a then
      st_books st' (rs_ID (rr_Reservation a)) = Some (rr_Reservation a) ∧
      same_job r (rr_Reservation a) ∧
      if rr_Existing a then st' = st
      else rr_Reservation a = r ∧ ∀ id, id ≠ rs_ID r → st_books st' id = st_books st id
    else st' = st;
  settle_law st id t e st' id' r : st_Settle st id t = (e, st') → st_books st' id' = Some r →
    rs_Settled r = true ∨ (st_books st id' = Some r ∧ (id' = id → ∃ f, e = Err f));
}.

Lemma Memory_open_law (R : MapRange) m p now r :
  books_ok m → r ∈ @OpenReservations R m p now →
  GetReservation m (rs_ID r) = Some r ∧ rs_Project r = p ∧ now < rs_ExpiresAt r.
Proof.
  intros Hb Hin. unfold OpenReservations in Hin. apply list_elem_of_In, List.filter_In in Hin as [Hin Hf].
  apply list_elem_of_In, all_elem in Hin as [k Hk]. unfold Before in Hf. bool_hyps.
  unfold GetReservation. by rewrite (bk_id _ Hb _ _ Hk).
Qed.

Lemma Memory_reserve_law (R : MapRange) m p c w r a m' :
  books_ok m → rs_Project r = p → rs_Settled r = false → @ReserveIfFits R m p c w r = (Ok a, m') →
  if rr_Fits a then
    GetReservation m' (rs_ID (rr_Reservation a)) = Some (rr_Reservation a) ∧
    same_job r (rr_Reservation a) ∧
    if rr_Existing a then m' = m
    else rr_Reservation a = r ∧ ∀ id, id ≠ rs_ID r → GetReservation m' id = GetReservation m id
  else m' = m.
Proof.
  intros Hb Hp Hs. unfold ReserveIfFits. destruct (validateFiniteMoney _); [done|].
  pose proof (find_open m p r) as Hf. destruct (List.find _ _) as [o|].
  - intros [= <- <-]. cbn [rr_Fits rr_Reservation rr_Existing]. destruct Hf as (k & Hk & Hw).
    apply same_work_spec in Hw as (? & ? & ? & ?). unfold GetReservation, same_job.
    rewrite (bk_id _ Hb _ _ Hk). by rewrite Hp.
  - destruct (negb (String.eqb _ "")); intros [= <- <-]; [done|]. cbn [rr_Fits rr_Reservation rr_Existing].
    unfold GetReservation, same_job. cbn [reservations set_reservations]. rewrite lookup_insert_eq.
    split_and!; try done. intros id Hid. by rewrite lookup_insert_ne.
Qed.

Lemma Memory_refuse_law (R : MapRange) m p c w r bad m' :
  @ReserveIfFits R m p c w r = (Err bad, m') → m' = m.
Proof. unfold ReserveIfFits. repeat case_match; congruence. Qed.

(** What a call of the in-memory store answered, from what the service was told. *)
Lemma refuses_inv {A} (r : result float64 A) a :
  refuses r = a → match a with
                  | Ok x => r = Ok x
                  | Err e => ∃ f, r = Err f ∧ e = NotFinite f
                  end.
Proof. intros <-. destruct r; cbn; eauto. Qed.

Lemma Memory_settle_law m id t id' r :
  GetReservation (Settle m id t) id' = Some r →
  rs_Settled r = true ∨ (GetReservation m id' = Some r ∧ id' ≠ id).
Proof.
  unfold Settle, GetReservation.
  destruct (reservations m !! id) as [r0|] eqn:E; cbn [reservations set_reservations].
  - destruct (decide (id' = id)) as [->|Hne].
    + rewrite lookup_insert_eq. intros [= <-]. by left.
    + rewrite lookup_insert_ne by done. by right.
  - destruct (decide (id' = id)) as [->|Hne]; [congruence|by right].
Qed.

#[export] Instance Memory_laws (R R' : MapRange) : StoreLaws Memory (H := Memory_Store R R').
Proof.
  refine {| st_ok := books_ok; st_books := GetReservation |};
    cbn [st_OpenReservations st_ReserveIfFits st_Settle Memory_Store].
  - intros m p now l r Hb [= <-]. by apply Memory_open_law.
  - intros m p c w r e m' Hx id. left.
    destruct (@ReserveIfFits R' m p c w r) as [a m1] eqn:E. cbn [fst snd] in Hx.
    injection Hx as (f & -> & _)%refuses_inv <-. by rewrite (Memory_refuse_law _ _ _ _ _ _ _ _ E).
  - intros m p c w r a m' Hb Hp Hs Hx.
    destruct (@ReserveIfFits R' m p c w r) as [b m1] eqn:E. cbn [fst snd] in Hx.
    injection Hx as ->%refuses_inv <-. by eapply Memory_reserve_law.
  - intros m id t e m' id' r [= <- <-] Hg. apply Memory_settle_law in Hg as [|[? ?]]; [by left|by right].
Defined.

(** A store that does not answer some of its calls. *)
Record Flaky := mkFlaky { fl_books : Memory; fl_down : string → bool }.

Definition answered {A} (f : Flaky) (call : string) (a : result store_error A) : result store_error A :=
  if fl_down f call then Err (Unavailable call) else a.
Definition written {A} (f : Flaky) (call : string) (a : result store_error A * Memory) :
    result store_error A * Flaky :=
  if fl_down f call then (Err (Unavailable call), f) else (a.1, mkFlaky a.2 (fl_down f)).

#[export] Instance Flaky_Store (R R' : MapRange) : Store Flaky :=
  let M := Memory_Store R R' in {|
  st_GetRegistration f p := answered f "GetRegistration" (@st_GetRegistration _ M (fl_books f) p);
  st_SyncedAt f := answered f "SyncedAt" (@st_SyncedAt _ M (fl_books f));
  st_Window f := answered f "Window" (@st_Window _ M (fl_books f));
  st_Attempts f p b := answered f "Attempts" (@st_Attempts _ M (fl_books f) p b);
  st_OpenReservations f p now := answered f "OpenReservations" (@st_OpenReservations _ M (fl_books f) p now);
  st_SpendRows f p := answered f "SpendRows" (@st_SpendRows _ M (fl_books f) p);
  st_ReserveIfFits f p c w r := written f "ReserveIfFits" (@st_ReserveIfFits _ M (fl_books f) p c w r);
  st_GetReservation f id := answered f "GetReservation" (@st_GetReservation _ M (fl_books f) id);
  st_Settle f id t := written f "Settle" (@st_Settle _ M (fl_books f) id t);
  st_RecordAttempt f p b id a := written f "RecordAttempt" (@st_RecordAttempt _ M (fl_books f) p b id a);
  st_ExpireReservations f now := written f "ExpireReservations" (@st_ExpireReservations _ M (fl_books f) now);
  st_ExpirePrompts f now := written f "ExpirePrompts" (@st_ExpirePrompts _ M (fl_books f) now);
  st_SpendCursor f := answered f "SpendCursor" (@st_SpendCursor _ M (fl_books f));
  st_SetSpendCursor f t := written f "SetSpendCursor" (@st_SetSpendCursor _ M (fl_books f) t);
  st_AddSpendRows f rs := written f "AddSpendRows" (@st_AddSpendRows _ M (fl_books f) rs);
  st_SetSyncedAt f t := written f "SetSyncedAt" (@st_SetSyncedAt _ M (fl_books f) t);
  st_SetWindow f w := written f "SetWindow" (@st_SetWindow _ M (fl_books f) w);
|}.

#[export] Instance Flaky_laws (R R' : MapRange) : StoreLaws Flaky (H := Flaky_Store R R').
Proof.
  refine {| st_ok f := books_ok (fl_books f); st_books f := GetReservation (fl_books f) |};
    cbn [st_OpenReservations st_ReserveIfFits st_Settle Flaky_Store]; unfold answered, written.
  - intros f p now l r Hb. destruct (fl_down _ _); [done|].
    by apply (@open_law Memory (Memory_Store R R') (Memory_laws R R')).
  - intros f p c w r e f'. destruct (fl_down _ _); [intros [= <- <-] id; by left|].
    destruct (st_ReserveIfFits _ _ _ _ _) as [a m'] eqn:E. cbn [fst snd]. intros [= -> <-].
    by apply (@refuse_law Memory (Memory_Store R R') (Memory_laws R R') _ _ _ _ _ _ _ E).
  - intros f p c w r a f' Hb Hp Hs. destruct (fl_down _ _); [done|].
    destruct (st_ReserveIfFits _ _ _ _ _) as [a' m'] eqn:E. cbn [fst snd]. intros [= -> <-].
    pose proof (@reserve_law Memory (Memory_Store R R') (Memory_laws R R') _ _ _ _ _ _ _ Hb Hp Hs E) as HL.
    cbn [fl_books]. destruct f as [m dn]. cbn [fl_books fl_down] in *.
    destruct (rr_Fits a); [|by rewrite HL]. destruct HL as (H1 & H2 & H3). split_and!; [done|done|].
    destruct (rr_Existing a); [by rewrite H3|done].
  - intros f id t e f' id' r. destruct (fl_down _ _).
    + intros [= <- <-] Hg. right. eauto.
    + cbn. intros [= <- <-] Hg. apply Memory_settle_law in Hg as [|[? ?]]; [by left|by right].
Defined.

(** ** Decisions are backed *)

Section backed.
Context `{MapRange} {S : Type} `{StoreLaws S}.
Implicit Types (s : Service S) (req : DecideRequest).

(** What a run hands out: a reservation for this work, and the tags of its
    rung and attempt. *)
Definition hands_out s req (d : Decision) (ex : DecideExtras) : Prop :=
  let r := ex_Reservation ex in
  rs_Project r = dr_Project req ∧ rs_BeadID r = dr_BeadID req ∧ rs_SessionKey r = dr_SessionKey req ∧
  rs_Settled r = false ∧ d_Rung d = rs_Rung r ∧ d_Attempt d = rs_Attempt r ∧
  d_Model d = model_of s (rs_Rung r) ∧
  ex_Metadata ex = Metadata (tags_for req (rs_Rung r) (rs_Attempt r)) ∧
  Mint (tags_for req (rs_Rung r) (rs_Attempt r)) = Ok (tags_for req (rs_Rung r) (rs_Attempt r)) ∧
  ∃ found, st_GetRegistration (sv_store s) (dr_Project req) = Ok found ∧
    ex_KeyRef ex = rg_KeyRef (registration found).1.

Lemma Mint_same t t' : Mint t = Ok t' → t' = t.
Proof. unfold Mint. repeat case_match; congruence. Qed.

Lemma find_mine l req r :
  List.find (mine req) l = Some r →
  r ∈ l ∧ rs_BeadID r = dr_BeadID req ∧ rs_SessionKey r = dr_SessionKey req ∧ rs_Settled r = false.
Proof.
  intros [Hin Hm]%List.find_some. unfold mine in Hm. bool_hyps. split; [by apply list_elem_of_In|done].
Qed.

Lemma noteDecision_store s p b d : sv_store (noteDecision s p b d) = sv_store s.
Proof. done. Qed.

Lemma wanted_fields s req now id spec d eff :
  let r := wanted s req now id spec d eff in
  rs_ID r = id ∧ rs_Project r = dr_Project req ∧ rs_BeadID r = dr_BeadID req ∧
  rs_SessionKey r = dr_SessionKey req ∧ rs_Settled r = false ∧ rs_CreatedAt r = now.
Proof. unfold wanted. destruct (Reserve spec) as [[c sy] t]. done. Qed.

(** What an answer leaves in the store. *)
Definition accounted s (st1 : S) req (now : Time) (id : string)
    (a : result service_error (Decision * DecideExtras) * Service S) : Prop :=
  let st' := sv_store a.2 in
  match a.1 with
  | Ok (d, ex) =>
      match d_Kind d with
      | Run =>
          let r := ex_Reservation ex in
          hands_out s req d ex ∧
          ((st_books (sv_store s) (rs_ID r) = Some r ∧ now < rs_ExpiresAt r ∧ st' = st1) ∨
           (st_books st' (rs_ID r) = Some r ∧
            ∀ id', id' ≠ id → st_books st' id' = st_books st1 id'))
      | _ => ex = DecideExtras_zero ∧ st' = st1
      end
  | Err e => ∀ id' r, st_books st' id' = Some r → rs_Settled r = false →
      st_books st1 id' = Some r ∨
      (id' = id ∧ ((∃ f, e = StoreError f) ∨
                   (∃ m f st2, e = MintError m ∧ st_Settle st2 id now = (Err f, st'))))
  end.

Lemma after_reserve_accounted s st1 st2 req now found d res answer p c w :
  st_ok st1 → rs_Project res = p → st_GetRegistration (sv_store s) (dr_Project req) = Ok found →
  d_Kind d = Run → rs_Project res = dr_Project req → rs_BeadID res = dr_BeadID req →
  rs_SessionKey res = dr_SessionKey req → rs_Settled res = false →
  st_ReserveIfFits st1 p c w res = (answer, st2) →
  accounted s st1 req now (rs_ID res)
    (after_reserve (with_store s st2) req now (registration found).1 d res answer).
Proof.
  intros Hok Hp Hreg Hk P B K U E. unfold accounted, after_reserve. destruct answer as [a|bad].
  2: { cbn. intros id' r Hg Hu. destruct (refuse_law _ _ _ _ _ _ _ E id') as [Hs|[-> _]]; [left; congruence|].
       right. eauto. }
  pose proof (reserve_law _ _ _ _ _ _ _ Hok Hp U E) as HL. destruct (rr_Fits a); cbn [negb].
  2: { subst st2. unfold lost_race. by destruct (reasonForLostRaceLeg _). }
  destruct HL as (Hget & (JP & JB & JK & JU) & HE). destruct (Mint _) as [tags|e] eqn:Em.
  - pose proof (Mint_same _ _ Em) as ->. cbn [fst snd]. unfold on_held at 1. cbn [d_Kind]. rewrite Hk.
    cbn [ex_Reservation]. split.
    + unfold hands_out. cbn [on_held d_Rung d_Attempt d_Model ex_Metadata ex_KeyRef ex_Reservation].
      split_and!; first [congruence|by eauto].
    + right. cbn. split; [done|]. intros id' Hid. destruct (rr_Existing a); [by subst st2|].
      by destruct HE as [_ ->].
  - cbn [fst snd]. intros id' r Hg Hu. destruct (rr_Existing a); cbn [negb] in Hg |- *; [left; by subst st2|].
    cbn [sv_store with_store] in Hg |- *. destruct (st_Settle st2 (rs_ID res) now) as [se st3] eqn:Es. cbn [snd] in *.
    destruct (settle_law _ _ _ _ _ _ _ Es Hg) as [Ht|[Hg2 Hf]]; [congruence|]. destruct HE as [_ HE].
    destruct (decide (id' = rs_ID res)) as [->|Hne]; [|left; by rewrite <- HE].
    destruct (Hf eq_refl) as [f ->]. right. split; [done|]. right. by exists e, f, st2.
Qed.

Lemma Decide_racing_accounted s st1 req now id :
  st_ok (sv_store s) → st_ok st1 → accounted s st1 req now id (Decide_racing s st1 req now id).
Proof.
  intros Hok Hok1. unfold Decide_racing.
  assert (Hread : ∀ A call (e : result store_error A) k,
    (∀ a, e = Ok a → accounted s st1 req now id (k a)) →
    accounted s st1 req now id (reading call (with_store s st1) e k)).
  { intros A call [a|f] k Hk; [by apply Hk|]. unfold accounted; cbn; by left. }
  apply Hread; intros found Hreg; apply Hread; intros asOf _; apply Hread; intros w _; apply Hread; intros prior _;
    apply Hread; intros openRes Hopen. clear Hread.
  unfold decide_read. cbv zeta. destruct (List.find _ _) as [r|] eqn:Ef.
  - apply find_mine in Ef as (Hin & HB & HK & HU). destruct (open_law _ _ _ _ _ Hok Hopen Hin) as (Hg & HP & Hx).
    destruct (Mint _) as [tags|e] eqn:Em; [|unfold accounted; cbn; by left].
    pose proof (Mint_same _ _ Em) as ->. unfold accounted. cbn [fst snd run_again d_Kind ex_Reservation]. split; [|by left]. unfold hands_out.
    cbn [run_again d_Rung d_Attempt d_Model ex_Metadata ex_KeyRef ex_Reservation]. split_and!; by eauto.
  - destruct (st_SpendRows _ _) as [rows|f]; cbn [reading]; [|unfold accounted; cbn; by left].
    set (sp := spendFor _ _ _ _ _). destruct (Decide _) as [k r m a re de ra mt es] eqn:Ed.
    cbn [d_Kind d_Rung]. destruct k; [|by split|by split].
    destruct (Catalog (sv_cfg s) !! r) as [spec|]; [|unfold accounted; cbn; by left].
    set (d := mkDecision _ _ _ _ _ _ _ _ _).
    destruct (st_ReserveIfFits _ _ _ _ _) as [answer st2] eqn:Er.
    destruct (wanted_fields s req now id spec d (rg_Effective (registration found).1)) as (W1 & W2 & W3 & W4 & W5 & W6).
    rewrite <- W1 at 1. by eapply after_reserve_accounted.
Qed.
End backed.

(** C29. A run is backed by a reservation. Over any store that keeps the laws of the
    interface, any of whose calls may fail, and whatever other replicas did
    between the reads and the reservation: a run hands out an unsettled
    reservation for exactly this project, bead and session, which was in the
    store and unexpired when the service read it, or else is in the store now,
    together with the key's name and tags that carry that reservation's rung and
    attempt and pass every charset gate; a wait or a refusal hands out nothing
    and writes nothing; an error leaves no open reservation behind that was not
    there before, except one of this call: where the reservation itself was
    answered with an error and may be there all the same, or where its tags do
    not mint and the call that releases it failed. *)
Theorem Decide_backed (R : MapRange) (S : Type) (I : Store S) (L : StoreLaws S) (s : Service S) (st1 : S)
    (req : DecideRequest) (now : Time) (id : string) (Hok : st_ok (sv_store s)) (Hok1 : st_ok st1) :
  accounted s st1 req now id (Decide_racing s st1 req now id).
Proof. by apply Decide_racing_accounted. Qed.

(** ** The second gate *)

Section again.
Context (R R' : MapRange).
#[local] Existing Instance Memory_Store.
Abbreviation service := (Service Memory).
Implicit Types (s : service) (req : DecideRequest).

Lemma ReserveIfFits_rest m p c w r :
  let m' := (@ReserveIfFits R' m p c w r).2 in
  regs m' = regs m ∧ attempts m' = attempts m ∧ rows m' = rows m ∧ window m' = window m.
Proof. unfold ReserveIfFits. by repeat case_match. Qed.

Lemma Settle_rest m id t :
  let m' := Settle m id t in
  regs m' = regs m ∧ attempts m' = attempts m ∧ rows m' = rows m ∧ window m' = window m.
Proof. unfold Settle. by case_match. Qed.

(** The in-memory store answers every read. *)
Lemma Memory_decides s (st1 : Memory) req now id :
  let m := sv_store s in
  @Decide_racing R Memory (Memory_Store R R') s st1 req now id =
    @decide_read R Memory (Memory_Store R R') s (with_store s st1) req now id
      (GetRegistration m (dr_Project req)) (if Ready s then syncedAt m else Time_zero) (window m)
      (Attempts m (dr_Project req) (dr_BeadID req)) (@OpenReservations R m (dr_Project req) now).
Proof. unfold Decide_racing. by destruct (Ready s). Qed.

(** What a decision leaves of the store and the configuration. *)
Lemma Service_Decide_rest s req now id :
  let s' := (@Service_Decide R Memory (Memory_Store R R') s req now id).2 in
  regs (sv_store s') = regs (sv_store s) ∧ sv_cfg s' = sv_cfg s ∧
  (books_ok (sv_store s) → books_ok (sv_store s')).
Proof.
  cbv zeta. unfold Service_Decide. rewrite Memory_decides. unfold decide_read. cbv zeta. destruct (List.find _ _) as [r|].
  { by destruct (Mint _). }
  cbn [reading st_SpendRows Memory_Store]. set (sp := spendFor _ _ _ _ _). set (d := Decide _).
  destruct (d_Kind d); [|done|done]. destruct (Catalog (sv_cfg s) !! d_Rung d) as [spec|]; [|done].
  set (eff := rg_Effective _). destruct (wanted_fields s req now id spec d eff) as (_ & W2 & _ & _ & W5 & _).
  set (res := wanted s req now id spec d eff) in *. cbn [st_ReserveIfFits Memory_Store sv_store with_store].
  set (p := dr_Project req) in *. set (c := FromEffective _). set (w := observedOnly sp).
  pose proof (ReserveIfFits_rest (sv_store s) p c w res) as (Hr & _).
  assert (Hb : books_ok (sv_store s) → books_ok (@ReserveIfFits R' (sv_store s) p c w res).2).
  { intros Hbk. apply (books_ok_step (H := R') (sv_store s) (OpReserve p c w res) Hbk). by split. }
  destruct (@ReserveIfFits R' (sv_store s) p c w res) as [a m'].
  cbn [fst snd] in *. unfold after_reserve. destruct a as [a|]; cbn [refuses]; [|done].
  destruct (rr_Fits a); cbn [negb]; [|done]. destruct (Mint _); [done|].
  destruct (rr_Existing a); cbn [negb]; [done|]. cbn [sv_store sv_cfg snd with_store st_Settle Memory_Store].
  destruct (Settle_rest m' (rs_ID res) now) as (-> & _). split_and!; [done|done|].
  intros Hbk. exact (books_ok_step (H := R') m' (OpSettle (rs_ID res) now) (Hb Hbk) Logic.I).
Qed.

(** Open work is found, and it is the only reservation found. *)
Lemma open_found m req now r :
  books_ok m → reservations m !! rs_ID r = Some r → rs_Project r = dr_Project req →
  rs_BeadID r = dr_BeadID req → rs_SessionKey r = dr_SessionKey req → rs_Settled r = false →
  now < rs_ExpiresAt r → List.find (mine req) (@OpenReservations R m (dr_Project req) now) = Some r.
Proof.
  intros Hb Hg P B K U X. destruct (List.find _ _) as [r'|] eqn:E.
  - apply find_mine in E as (Hin & B' & K' & U'). apply Memory_open_law in Hin as (Hg' & P' & _); [|done].
    assert (rs_ID r = rs_ID r') as Hid by (eapply (bk_open _ Hb); [exact Hg|exact Hg'|congruence..]).
    unfold GetReservation in Hg'. congruence.
  - exfalso. assert (r ∈ @OpenReservations R m (dr_Project req) now) as Hin.
    { unfold OpenReservations. apply list_elem_of_In, List.filter_In. split.
      - apply list_elem_of_In, all_elem. by exists (rs_ID r).
      - unfold Before. rewrite P, String.eqb_refl. by apply Z.ltb_lt. }
    apply list_elem_of_In in Hin. pose proof (List.find_none _ _ E r Hin) as Hm. unfold mine in Hm.
    by rewrite B, K, U, !String.eqb_refl in Hm.
Qed.

End again.

(** The two gates decide once. After a decision that let a session run, the
    second gate's decision for the same work, for as long as the reservation is
    open and whatever the budget now looks like, is the same run on the same
    rung, model and attempt with the same reservation, tags and key, and it
    writes nothing to the store. *)
Theorem Decide_twice (R R' : MapRange) (s s' : Service Memory) (req : DecideRequest) (now now' : Time)
    (id id' : string) (d : Decision) (ex : DecideExtras)
    (Hb : books_ok (sv_store s))
    (Hd : @Service_Decide R Memory (Memory_Store R R') s req now id = (Ok (d, ex), s'))
    (Hr : d_Kind d = Run) (Ht : now' < rs_ExpiresAt (ex_Reservation ex)) :
  let '(again, s'') := @Service_Decide R Memory (Memory_Store R R') s' req now' id' in
  sv_store s'' = sv_store s' ∧
  again = Ok (mkDecision Run (d_Rung d) (d_Model d) (d_Attempt d) "" DNone Time_zero 0 false, ex).
Proof.
  pose proof (Service_Decide_rest R R' s req now id) as (Hregs & Hcfg & Hbk).
  pose proof (@Decide_racing_accounted R Memory (Memory_Store R R') (Memory_laws R R') s (sv_store s)
    req now id Hb Hb) as Ha.
  unfold Service_Decide in Hd at 1. rewrite Hd in Ha. unfold Service_Decide in Hregs, Hcfg, Hbk.
  rewrite Hd in Hregs, Hcfg, Hbk. cbn [snd] in Hregs, Hcfg, Hbk.
  unfold accounted in Ha. cbn [fst snd] in Ha. rewrite Hr in Ha. destruct Ha as [(P & B & K & U & Hrg & Hat & Hmo & Hme & Hmi & found & Hfd & Hkey) Hget].
  injection Hfd as <-.
  assert (Hg : reservations (sv_store s') !! rs_ID (ex_Reservation ex) = Some (ex_Reservation ex)).
  { destruct Hget as [(Hg & _ & E)|[Hg _]]; [by rewrite E|done]. }
  pose proof (open_found R _ req now' _ (Hbk Hb) Hg P B K U Ht) as Hf.
  unfold Service_Decide. rewrite Memory_decides. unfold decide_read. rewrite Hf, Hmi.
  split; [done|]. unfold GetRegistration in *. rewrite Hregs, <- Hme, <- Hkey.
  unfold run_again, model_of. rewrite Hcfg. rewrite Hrg, Hat, Hmo. by destruct ex.
Qed.

(** An active project with free rungs, its spend freshly synced. *)
Definition demo_now : Time := Date 2026 10 8 12 0 0 0 UTC.
Definition demo_config : OperatorConfig :=
  mkOperatorConfig CfgPolicy_zero ∅ demo_catalog
    (mkMeterConfig (5 * Minute) (30 * Minute) (30 * Second) Minute 3 true) false.
Definition demo_store : Memory :=
  SetWindow (SetSyncedAt (PutRegistration NewMemory
    (mkRegistration "grp/app" "rig-1" "" (Resolve CfgPolicy_zero CfgPolicy_zero demo_project) "" None
       StateActive (mkKeyRef "keys" "grp-app") "gonk-rig-1" demo_now)) demo_now) (MonthWindow demo_now).
Definition demo_service : Service Memory := mkService demo_store demo_config true true ∅.
Definition demo_request : DecideRequest :=
  mkDecideRequest "grp/app" "rig-1" "b-7" "s-1" TriggerIssueTriage.

Lemma demo_store_ok : books_ok demo_store.
Proof.
  split; cbn [demo_store reservations SetWindow SetSyncedAt PutRegistration set_regs NewMemory].
  - intros k r E. by rewrite lookup_empty in E.
  - intros k k' r r' E. by rewrite lookup_empty in E.
Qed.

Definition decided : result service_error (Decision * DecideExtras) * Service Memory :=
  @Service_Decide range_canonical Memory (Memory_Store range_canonical range_canonical)
    demo_service demo_request demo_now "rsv-1".
Definition decided_answer : Decision * DecideExtras :=
  match decided.1 with Ok a => a | Err _ => (mkDecision Deny "" "" 0 "" DNone 0 0 false, DecideExtras_zero) end.

Lemma decided_runs : decided = (Ok decided_answer, decided.2) ∧ d_Kind decided_answer.1 = Run ∧
  d_Rung decided_answer.1 = "qwen-small" ∧ rs_ID (ex_Reservation decided_answer.2) = "rsv-1".
Proof. split_and!; vm_compute; reflexivity. Qed.

Lemma Decide_backed_witness :
  d_Kind decided_answer.1 = Run ∧
  GetReservation (sv_store decided.2) "rsv-1" = Some (ex_Reservation decided_answer.2).
Proof.
  destruct decided_runs as (E & Hk & _ & Hid). split; [exact Hk|].
  pose proof (Decide_backed range_canonical Memory (Memory_Store range_canonical range_canonical)
    (Memory_laws range_canonical range_canonical) demo_service demo_store demo_request demo_now "rsv-1"
    demo_store_ok demo_store_ok) as Hw.
  change (accounted demo_service demo_store demo_request demo_now "rsv-1" decided) in Hw.
  rewrite E in Hw. unfold accounted in Hw. cbn [fst snd] in Hw.
  destruct decided_answer as [d ex]. cbn [fst snd] in Hk, Hid |- *. rewrite Hk in Hw.
  destruct Hw as [_ [(Hg & _)|[Hg _]]]; rewrite Hid in Hg; [|exact Hg].
  exfalso. cbn [demo_service sv_store st_books Memory_laws] in Hg. discriminate Hg.
Defined.

(** What is left when the call that releases a reservation fails: tags with a
    hostile character never mint, and the reservation holds its budget until the
    janitor finds it. *)
Definition hostile_request : DecideRequest :=
  mkDecideRequest "grp/app" "rig 1" "b-7" "s-1" TriggerIssueTriage.
Lemma failed_release_holds :
  let ask down := @Decide_racing range_canonical Flaky (Flaky_Store range_canonical range_canonical)
    (mkService (mkFlaky demo_store down) demo_config true true ∅) (mkFlaky demo_store down)
    hostile_request demo_now "rsv-1" in
  let left_open a := (rs_Settled <$> reservations (fl_books (sv_store a.2)) !! "rsv-1", a.1) in
  left_open (ask (λ _, false)) = (Some true, Err (MintError (MintPattern "rig" "rig 1"))) ∧
  left_open (ask (String.eqb "Settle")) = (Some false, Err (MintError (MintPattern "rig" "rig 1"))).
Proof. vm_compute. split; reflexivity. Qed.

Lemma Decide_twice_witness :
  ∃ s'', @Service_Decide range_canonical Memory (Memory_Store range_canonical range_canonical)
    decided.2 demo_request (Add demo_now Minute) "rsv-2" =
      (Ok (mkDecision Run "qwen-small" "qwen3-8b" 1 "" DNone Time_zero 0 false, decided_answer.2), s'') ∧
    sv_store s'' = sv_store decided.2.
Proof.
  assert (Hx : Add demo_now Minute < rs_ExpiresAt (ex_Reservation decided_answer.2)) by (vm_compute; reflexivity).
  assert (Hf : d_Rung decided_answer.1 = "qwen-small" ∧ d_Model decided_answer.1 = "qwen3-8b" ∧
    d_Attempt decided_answer.1 = 1) by (vm_compute; repeat split; reflexivity).
  destruct Hf as (Hf1 & Hf2 & Hf3). destruct decided_runs as (E & Hk & _ & _).
  destruct decided_answer as [d ex]. cbn [fst snd] in Hk, Hx, Hf1, Hf2, Hf3 |- *.
  pose proof (Decide_twice range_canonical range_canonical demo_service decided.2 demo_request demo_now
    (Add demo_now Minute) "rsv-1" "rsv-2" d ex demo_store_ok E Hk Hx) as Hw.
  rewrite Hf1, Hf2, Hf3 in Hw. destruct (Service_Decide _ _ _ _) as [again s'']. destruct Hw as [Hs Ha].
  exists s''. split; [by rewrite Ha|exact Hs].
Defined.

(** ** The two money gates agree *)

Lemma tokens_fold (f : Reservation → bool) l n :
  int64 n → fold_left (λ a o, if f o then wrap64 (a + rs_Tokens o) else a) l n = wrap64 (n + tokens_of f l).
Proof.
  revert n. induction l as [|o l IH]; intros n Hn; cbn [fold_left tokens_of foldr].
  - by rewrite Z.add_0_r, wrap64_id.
  - fold (tokens_of f l). destruct (f o).
    + rewrite IH by apply wrap64_range. unfold wrap64.
      replace ((n + rs_Tokens o + 2 ^ 63) `mod` 2 ^ 64 - 2 ^ 63 + tokens_of f l + 2 ^ 63)
        with ((n + rs_Tokens o + 2 ^ 63) `mod` 2 ^ 64 + tokens_of f l) by lia.
      rewrite Zplus_mod_idemp_l. do 2 f_equal. lia.
    + rewrite IH by done. f_equal.
Qed.

Lemma spendFor_legs rows w p b l :
  let sp := spendFor rows w p b l in
  Tokens sp = TotalTokens (ProjectTotals rows w p) ∧ TaskTokens sp = TotalTokens (BeadTotals rows p b) ∧
  ReservedTokens sp = wrap64 (tokens_of (λ _, true) l) ∧
  ReservedTaskTokens sp = wrap64 (tokens_of (λ o, String.eqb (rs_BeadID o) b) l).
Proof.
  cbv zeta. unfold spendFor. cbv zeta.
  assert (Hg : ∀ l w0, let s := fold_left (λ sp r, mkSpend (CostUSD sp) (fadd (ReservedCostUSD sp) (rs_CostUSD r))
      (SyntheticCostUSD sp) (fadd (ReservedSyntheticCostUSD sp) (rs_SyntheticCostUSD r))
      (Tokens sp) (TaskTokens sp) (wrap64 (ReservedTokens sp + rs_Tokens r))
      (if String.eqb (rs_BeadID r) b then wrap64 (ReservedTaskTokens sp + rs_Tokens r)
       else ReservedTaskTokens sp)) l w0 in
    Tokens s = Tokens w0 ∧ TaskTokens s = TaskTokens w0 ∧
    ReservedTokens s = fold_left (λ a o, if true then wrap64 (a + rs_Tokens o) else a) l (ReservedTokens w0) ∧
    ReservedTaskTokens s =
      fold_left (λ a o, if String.eqb (rs_BeadID o) b then wrap64 (a + rs_Tokens o) else a) l (ReservedTaskTokens w0)).
  { clear. induction l as [|o l IH]; intros w0; [done|]. cbn [fold_left]. cbv zeta in IH |- *.
    destruct (IH (mkSpend (CostUSD w0) (fadd (ReservedCostUSD w0) (rs_CostUSD o))
      (SyntheticCostUSD w0) (fadd (ReservedSyntheticCostUSD w0) (rs_SyntheticCostUSD o))
      (Tokens w0) (TaskTokens w0) (wrap64 (ReservedTokens w0 + rs_Tokens o))
      (if String.eqb (rs_BeadID o) b then wrap64 (ReservedTaskTokens w0 + rs_Tokens o)
       else ReservedTaskTokens w0))) as (-> & -> & -> & ->). done. }
  match goal with |- context [fold_left _ l ?w0] => destruct (Hg l w0) as (-> & -> & -> & ->) end.
  cbn [Tokens TaskTokens ReservedTokens ReservedTaskTokens].
  assert (Hz : int64 0) by (unfold int64, MinInt64, MaxInt64; lia).
  split_and!; try done.
  - exact (tokens_fold (λ _, true) l 0 Hz).
  - exact (tokens_fold (λ o, String.eqb (rs_BeadID o) b) l 0 Hz).
Qed.

Lemma hold_legs p r l w :
  int64 (ReservedTokens w) → int64 (ReservedTaskTokens w) →
  let s := fold_left (hold_step p r) l w in
  Tokens s = Tokens w ∧ TaskTokens s = TaskTokens w ∧
  ReservedTokens s = wrap64 (ReservedTokens w + tokens_of (holds p (rs_CreatedAt r)) l) ∧
  ReservedTaskTokens s = wrap64 (ReservedTaskTokens w
    + tokens_of (λ o, holds p (rs_CreatedAt r) o && String.eqb (rs_BeadID o) (rs_BeadID r)) l).
Proof.
  intros H1 H2. cbv zeta. rewrite <- !tokens_fold by done. clear H1 H2. revert w.
  induction l as [|o l IH]; intros w; [done|]. cbn [fold_left].
  destruct (IH (hold_step p r w o)) as (-> & -> & -> & ->).
  unfold hold_step, Before, holds. destruct (_ && _); cbn [andb]; done.
Qed.

Lemma tokens_of_filter f g l : tokens_of f (List.filter g l) = tokens_of (λ o, g o && f o) l.
Proof.
  unfold tokens_of. induction l as [|o l IH]; [done|]. cbn [List.filter foldr].
  destruct (g o); cbn [foldr andb]; [|exact IH]. by rewrite IH.
Qed.

Lemma tokens_of_ext f g l : (∀ o, f o = g o) → tokens_of f l = tokens_of g l.
Proof. intros E. unfold tokens_of. induction l as [|o l IH]; [done|]. cbn [foldr]. by rewrite E, IH. Qed.

Section agree.
Context (R R' : MapRange) (s : Service Memory) (req : DecideRequest) (now : Time).
(** What the service reads before it decides, and the pure decision on it. *)
Definition read_open : list Reservation := @OpenReservations R (sv_store s) (dr_Project req) now.
Definition read_spend : Budget.Spend :=
  spendFor (SpendRows (sv_store s) (dr_Project req)) (window (sv_store s)) (dr_Project req) (dr_BeadID req) read_open.
Definition read_reg : option Registration := GetRegistration (sv_store s) (dr_Project req).
Definition read_budget : Budget := FromEffective (ec_Budget (rg_Effective (registration read_reg).1)).
Definition read_input : Input :=
  decide_input s req now read_reg (if Ready s then syncedAt (sv_store s) else Time_zero) (window (sv_store s))
    (Attempts (sv_store s) (dr_Project req) (dr_BeadID req)) read_spend.
Definition pure_decision : Decision := Decide read_input.

(** The token legs the store computes again are the ones the decision saw. *)
Lemma legs_agree id spec d eff :
  let r := wanted s req now id spec d eff in
  let rem := Remain read_budget (fold_left (hold_step (dr_Project req) r)
               (@range_map R' _ (reservations (sv_store s))).*2 (observedOnly read_spend)) in
  RemMonthlyTokens rem = RemMonthlyTokens (Remain read_budget read_spend) ∧
  RemPerTaskTokens rem = RemPerTaskTokens (Remain read_budget read_spend).
Proof.
  cbv zeta. destruct (wanted_fields s req now id spec d eff) as (_ & _ & WB & _ & _ & WC).
  set (r := wanted s req now id spec d eff) in *.
  assert (Hz : int64 0) by (unfold int64, MinInt64, MaxInt64; lia).
  destruct (hold_legs (dr_Project req) r (@range_map R' _ (reservations (sv_store s))).*2
    (observedOnly read_spend) Hz Hz) as (E1 & E2 & E3 & E4).
  destruct (spendFor_legs (SpendRows (sv_store s) (dr_Project req)) (window (sv_store s)) (dr_Project req)
    (dr_BeadID req) read_open) as (F1 & F2 & F3 & F4).
  fold read_spend in F1, F2, F3, F4. cbn [Remain RemMonthlyTokens RemPerTaskTokens].
  rewrite E1, E2, E3, E4, F3, F4, WB, WC. cbn [observedOnly Tokens TaskTokens ReservedTokens ReservedTaskTokens].
  rewrite !Z.add_0_l. unfold read_open, OpenReservations. rewrite !tokens_of_filter.
  assert (Hp : (@range_map R' _ (reservations (sv_store s))).*2 ≡ₚ (@range_map R _ (reservations (sv_store s))).*2)
    by (apply fmap_Permutation; by rewrite !range_map_perm).
  rewrite !(tokens_of_perm _ _ _ Hp). unfold holds.
  split; do 2 f_equal; apply tokens_of_ext; intros o; unfold Before; by rewrite ?andb_true_r.
Qed.

Lemma decide_input_reads :
  i_Spend read_input = read_spend ∧ i_Catalog read_input = Catalog (sv_cfg s) ∧
  FromEffective (ec_Budget (i_Effective read_input)) = read_budget.
Proof. unfold read_input, decide_input, read_budget. by destruct (registration read_reg). Qed.

(** A free rung that the decision let run is not refused by the store. *)
Lemma free_fits id spec eff :
  d_Kind pure_decision = Run → Catalog (sv_cfg s) !! d_Rung pure_decision = Some spec →
  Kind spec = KindLocal → financeSafe (Reserve spec).1.2 = true →
  let r := wanted s req now id spec pure_decision eff in
  ∃ a, (@ReserveIfFits R' (sv_store s) (dr_Project req) read_budget (observedOnly read_spend) r).1 = Ok a ∧
    rr_Fits a = true.
Proof.
  intros Hr Hs Hl Hf. cbv zeta. destruct (legs_agree id spec pure_decision eff) as [Lm Lt].
  destruct (Decide_run_gates _ Hr) as (spec' & Hs' & _ & Hm). fold pure_decision in Hs', Hm.
  destruct decide_input_reads as (I1 & I2 & I3). rewrite I2, Hs in Hs'. injection Hs' as <-.
  apply decide_money_run in Hm as (_ & Ht & Hmo & _). unfold token_ceilings in Ht, Hmo.
  rewrite I1, I3 in Ht, Hmo. unfold FitsTaskTokens, FitsMonthTokens in Ht, Hmo. rewrite <- Lt in Ht. rewrite <- Lm in Hmo.
  assert (Hres : rs_CostUSD (wanted s req now id spec pure_decision eff) = fzero ∧
    rs_SyntheticCostUSD (wanted s req now id spec pure_decision eff) = (Reserve spec).1.2 ∧
    rs_Tokens (wanted s req now id spec pure_decision eff) = EstTokens spec).
  { unfold wanted, Reserve. by rewrite Hl. }
  set (r := wanted s req now id spec pure_decision eff) in *. destruct Hres as (C1 & C2 & C3).
  unfold ReserveIfFits. rewrite C1, C2. unfold validateFiniteMoney. cbn [List.find]. rewrite Hf.
  change (financeSafe fzero) with true. cbn [negb]. destruct (List.find _ _) as [o|]; [by eexists|].
  destruct (missingLeg_spec (Remain read_budget (fold_left (hold_step (dr_Project req) r)
    (@range_map R' _ (reservations (sv_store s))).*2 (observedOnly read_spend))) r)
    as [(-> & _)|[_ Hmiss]]; [by eexists|exfalso].
  unfold FitsMonthTokens, FitsTaskTokens in Hmiss. rewrite C1, C3 in Hmiss.
  change (flt fzero fzero) with false in Hmiss.
  destruct Hmiss as [[_ H1]|[(_ & _ & H1)|(_ & _ & _ & H1)]]; apply H1; done.
Qed.
End agree.

(** Without a race the two money gates agree. For work with nothing open, on a
    store nobody else writes meanwhile, and whatever order the two calls see the
    map in, the service answers with the kind, the reason and the wake-up time
    that the pure decision has; a free rung that the decision let run is never
    parked as a lost race, and the only error is that of tags with a hostile
    character, on a run. *)
Theorem Decide_agrees (R R' : MapRange) (s : Service Memory) (req : DecideRequest) (now : Time) (id : string)
    (Hno : List.find (mine req) (read_open R s req now) = None)
    (Hfree : ∀ spec, Catalog (sv_cfg s) !! d_Rung (pure_decision R s req now) = Some spec →
       Kind spec = KindLocal ∧ financeSafe (Reserve spec).1.2 = true) :
  let d0 := pure_decision R s req now in
  match (@Service_Decide R Memory (Memory_Store R R') s req now id).1 with
  | Ok (d, _) => d_Kind d = d_Kind d0 ∧ d_Reason d = d_Reason d0 ∧ d_RetryAfter d = d_RetryAfter d0
  | Err e => d_Kind d0 = Run ∧ ∃ m, e = MintError m
  end.
Proof.
  cbv zeta. unfold Service_Decide. rewrite Memory_decides. unfold decide_read. cbv zeta.
  cbn [reading st_SpendRows st_ReserveIfFits Memory_Store sv_store with_store].
  fold (read_open R s req now). rewrite Hno. fold (read_spend R s req now). fold (read_reg s req).
  fold (read_input R s req now). fold (pure_decision R s req now). fold (read_budget s req).
  set (d0 := pure_decision R s req now) in *. destruct (d_Kind d0) eqn:Ek; [|by cbn [fst]|by cbn [fst]].
  destruct (Decide_run_gates _ Ek) as (spec & Hs & _).
  destruct (decide_input_reads R s req now) as (_ & I2 & _). rewrite I2 in Hs. fold (pure_decision R s req now) in Hs.
  fold d0 in Hs. rewrite Hs. destruct (Hfree spec Hs) as [Hl Hsafe].
  destruct (free_fits R R' s req now id spec (rg_Effective (registration (read_reg s req)).1) Ek Hs Hl Hsafe) as (a & Ha & Hf).
  fold d0 in Ha. rewrite Ha. cbn [refuses]. unfold after_reserve. rewrite Hf. cbn [negb].
  destruct (Mint _); cbn [fst]; [by cbn|]. by eauto.
Qed.

Lemma Decide_agrees_witness :
  d_Kind (pure_decision range_canonical demo_service demo_request demo_now) = Run ∧
  match decided.1 with Ok (d, _) => d_Kind d = Run | Err _ => False end.
Proof.
  assert (Hk : d_Kind (pure_decision range_canonical demo_service demo_request demo_now) = Run)
    by (vm_compute; reflexivity).
  split; [exact Hk|].
  pose proof (Decide_agrees range_canonical range_canonical demo_service demo_request demo_now "rsv-1"
    ltac:(vm_compute; reflexivity)) as Hw.
  fold decided in Hw. destruct decided_runs as (E & _). rewrite E in Hw. cbn [fst] in Hw.
  rewrite E. cbn [fst]. destruct decided_answer as [d ex]. rewrite Hk in Hw. apply Hw. intros spec Hs.
  assert (Hr : d_Rung (pure_decision range_canonical demo_service demo_request demo_now) = "qwen-small")
    by (vm_compute; reflexivity).
  rewrite Hr in Hs. vm_compute in Hs. injection Hs as <-. split; vm_compute; reflexivity.
Defined.

(** ** Outcomes *)

Section outcome.
Context (R R' : MapRange).
#[local] Instance outcome_store : Store Memory := Memory_Store R R'.
Implicit Types (s : Service Memory) (req : OutcomeRequest).

Lemma find_upsert f recs id a :
  List.find f (ar_Attempt <$> recs) = None → f a = true →
  List.find f (ar_Attempt <$> upsert recs id a) = Some a.
Proof.
  intros Hn Ha. induction recs as [|rec recs IH].
  - cbn. by rewrite Ha.
  - cbn [upsert]. rewrite fmap_cons in Hn. cbn [List.find] in Hn. destruct (f (ar_Attempt rec)) eqn:E; [done|].
    destruct (String.eqb _ _); rewrite fmap_cons; cbn [List.find ar_Attempt].
    + by rewrite Ha.
    + rewrite E. by apply IH.
Qed.

Lemma Attempts_RecordAttempt m p b id a :
  Attempts (RecordAttempt m p b id a) p b = ar_Attempt <$> upsert (default [] (attempts m !! beadKey p b)) id a.
Proof. unfold Attempts, RecordAttempt. cbn [attempts set_attempts]. by rewrite lookup_insert_eq. Qed.

Lemma Attempts_Settle m id t p b : Attempts (Settle m id t) p b = Attempts m p b.
Proof. unfold Attempts. destruct (Settle_rest m id t) as (_ & -> & _). done. Qed.

Lemma RecordAttempt_rest m p b id a :
  let m' := RecordAttempt m p b id a in
  regs m' = regs m ∧ reservations m' = reservations m ∧ rows m' = rows m.
Proof. done. Qed.

(** The request names a reservation the meter minted for this attempt. *)
Definition bound (m : Memory) req (res : Reservation) : Prop :=
  GetReservation m (or_ReservationID req) = Some res ∧ rs_Project res = or_Project req ∧
  rs_BeadID res = or_BeadID req ∧ rs_Attempt res = or_Attempt req.

(** The state a first report leaves. *)
Definition recorded s req (res : Reservation) (now : Time) : Memory :=
  RecordAttempt (Settle (sv_store s) (rs_ID res) (Add now (MaxSpendStaleness (Meter (sv_cfg s)))))
    (or_Project req) (or_BeadID req) (rs_ID res) (mkAttempt (rs_Attempt res) (rs_Rung res) (or_Outcome req)).

Definition preview s req (res : Reservation) (o : Outcome) (history : list Attempt) : OutcomeResponse :=
  let '(next, nextRung) := previewNext (or_Trigger req) o (rs_Rung res)
    (rg_Effective (registration (GetRegistration (sv_store s) (or_Project req))).1) history in
  mkOutcomeResponse true (rs_Attempt res) next nextRung.

(** Every branch of a report. *)
Lemma Service_Outcome_cases s req now res :
  bound (sv_store s) req res → Outcome_Valid (or_Outcome req) = true →
  (∃ a, List.find (voted res) (Attempts (sv_store s) (or_Project req) (or_BeadID req)) = Some a ∧
    Service_Outcome s req now =
      (Ok (preview s req res (a_Outcome a) (Attempts (sv_store s) (or_Project req) (or_BeadID req))), s)) ∨
  (List.find (voted res) (Attempts (sv_store s) (or_Project req) (or_BeadID req)) = None ∧
    Service_Outcome s req now =
      (Ok (preview s req res (or_Outcome req) (Attempts (recorded s req res now) (or_Project req) (or_BeadID req))),
       with_store s (recorded s req res now))).
Proof.
  intros (Hg & HP & HB & HA) Hv. unfold Service_Outcome. cbn [st_GetReservation outcome_store Memory_Store].
  cbn [reading writing st_Attempts st_GetRegistration st_Settle st_RecordAttempt outcome_store Memory_Store].
  rewrite Hg, HP, HB, HA, !String.eqb_refl, Z.eqb_refl, Hv. cbn [negb orb].
  destruct (List.find (voted res) _) as [a|] eqn:E; [left; exists a|right].
  - split; [done|]. unfold preview. apply List.find_some in E as [_ E]. unfold voted in E. bool_hyps.
    destruct (previewNext _ _ _ _ _). congruence.
  - split; [done|]. unfold preview, recorded. rewrite HA. by destruct (previewNext _ _ _ _ _).
Qed.

Lemma Service_Outcome_refused s req now :
  ((∀ res, ¬ bound (sv_store s) req res) → Service_Outcome s req now = (Err UnknownReservation, s)) ∧
  (∀ res, bound (sv_store s) req res → Outcome_Valid (or_Outcome req) = false →
     Service_Outcome s req now = (Err BadOutcome, s)).
Proof.
  unfold Service_Outcome, bound. cbn [reading st_GetReservation outcome_store Memory_Store].
  destruct (GetReservation _ _) as [res|] eqn:Eg; [|by split; [|intros res (? & _)]].
  destruct (_ || _ || _) eqn:Em.
  - split; [done|]. intros res' ([= <-] & HP & HB & HA) _.
    by rewrite HP, HB, HA, !String.eqb_refl, Z.eqb_refl in Em.
  - bool_hyps. split; [intros Hno; destruct (Hno res); by split_and!|]. by intros res' _ ->.
Qed.

Lemma bound_dec (m : Memory) req : (∃ res, bound m req res) ∨ ∀ res, ¬ bound m req res.
Proof.
  unfold bound. destruct (GetReservation m (or_ReservationID req)) as [res|]; [|by right; intros ? (? & _)].
  destruct (decide (rs_Project res = or_Project req ∧ rs_BeadID res = or_BeadID req ∧
    rs_Attempt res = or_Attempt req)) as [Hd|Hd]; [left; by exists res|].
  right. intros res' ([= <-] & Hd'). by apply Hd.
Qed.

(** The same report with another outcome. *)
Definition with_outcome req (o : Outcome) : OutcomeRequest :=
  mkOutcomeRequest (or_Project req) (or_BeadID req) (or_SessionKey req) (or_Attempt req) (or_Rung req)
    (or_ReservationID req) o (or_Trigger req).

(** After the report, the reservation is still there, and was voted on. *)
Lemma bound_recorded s req res now :
  bound (sv_store s) req res → ∃ res', bound (recorded s req res now) req res' ∧
    rs_Rung res' = rs_Rung res ∧ rs_Attempt res' = rs_Attempt res.
Proof.
  intros (Hg & HP & HB & HA). unfold bound, recorded, GetReservation in *. cbn [reservations RecordAttempt set_attempts].
  unfold Settle. destruct (reservations (sv_store s) !! rs_ID res) as [r0|] eqn:E; [|by exists res].
  cbn [reservations set_reservations]. destruct (decide (rs_ID res = or_ReservationID req)) as [Hid|Hid].
  - rewrite Hid, lookup_insert_eq. rewrite Hid, Hg in E. injection E as <-. eexists. by split_and!.
  - rewrite lookup_insert_ne by done. by exists res.
Qed.

Lemma recorded_rest s req res now :
  regs (recorded s req res now) = regs (sv_store s) ∧
  (List.find (voted res) (Attempts (sv_store s) (or_Project req) (or_BeadID req)) = None →
   or_Outcome req ≠ OutcomeInfraFailed →
   List.find (voted res) (Attempts (recorded s req res now) (or_Project req) (or_BeadID req)) =
     Some (mkAttempt (rs_Attempt res) (rs_Rung res) (or_Outcome req))).
Proof.
  split.
  { unfold recorded. cbn [regs RecordAttempt set_attempts]. by destruct (Settle_rest (sv_store s) (rs_ID res)
      (Add now (MaxSpendStaleness (Meter (sv_cfg s))))) as (-> & _). }
  intros Hn Ho. unfold recorded. rewrite Attempts_RecordAttempt.
  set (m := Settle _ _ _). assert (Hm : default [] (attempts m !! beadKey (or_Project req) (or_BeadID req)) =
    default [] (attempts (sv_store s) !! beadKey (or_Project req) (or_BeadID req))).
  { unfold m. by destruct (Settle_rest (sv_store s) (rs_ID res)
      (Add now (MaxSpendStaleness (Meter (sv_cfg s))))) as (_ & -> & _). }
  rewrite Hm. apply find_upsert; [done|]. unfold voted. cbn [a_Attempt a_Outcome]. rewrite Z.eqb_refl.
  apply String.eqb_neq in Ho. by rewrite Ho.
Qed.
End outcome.

(** The last word on an attempt: the first outcome on record for it that is no
    infrastructure failure. *)
Definition last_word (history : list Attempt) (n : Z) (a : Attempt) : Prop :=
  ∃ l l', history = l ++ a :: l' ∧ a_Attempt a = n ∧ a_Outcome a ≠ OutcomeInfraFailed ∧
    ∀ x, x ∈ l → a_Attempt x = n → a_Outcome x = OutcomeInfraFailed.

Lemma find_voted res history :
  match List.find (voted res) history with
  | Some a => last_word history (rs_Attempt res) a
  | None => ∀ x, x ∈ history → a_Attempt x = rs_Attempt res → a_Outcome x = OutcomeInfraFailed
  end.
Proof.
  assert (Hv : ∀ x, voted res x = false → a_Attempt x = rs_Attempt res → a_Outcome x = OutcomeInfraFailed).
  { intros x Hx Ha. unfold voted in Hx. rewrite Ha, Z.eqb_refl in Hx. by apply negb_false_iff, String.eqb_eq in Hx. }
  induction history as [|x h IH]; cbn [List.find]; [by intros x ?%not_elem_of_nil|].
  destruct (voted res x) eqn:E.
  - exists [], h. unfold voted in E. bool_hyps. split_and!; try done. by intros y ?%not_elem_of_nil.
  - destruct (List.find (voted res) h) as [a|].
    + destruct IH as (l & l' & -> & H1 & H2 & H3). exists (x :: l), l'. split_and!; try done.
      intros y [->|Hy]%elem_of_cons; auto.
    + intros y [->|Hy]%elem_of_cons; auto.
Qed.

(** C35. What a report does, on every branch, over the in-memory store. A report
    that names no reservation of this project, bead and attempt, or an outcome
    outside the four, is refused and changes nothing. When the bead's history
    has an outcome for the attempt that is no infrastructure failure, the report
    changes nothing, whatever outcome it has, and is answered with the preview
    of the outcome on record. Only when there is none does a report settle
    exactly its own reservation, holding its budget until the spend must have
    landed, and put the reservation's own rung and attempt, never the caller's,
    in the bead's history under the reservation's id; its answer is the preview
    of the outcome it reported on the history as it now is. *)
Theorem Outcome_exact (R R' : MapRange) (s : Service Memory) (req : OutcomeRequest) (now : Time)
    (Hb : books_ok (sv_store s)) :
  let '(ans, s') := @Service_Outcome Memory (Memory_Store R R') s req now in
  let m := sv_store s in let m' := sv_store s' in
  let history := Attempts m (or_Project req) (or_BeadID req) in
  let history' := Attempts m' (or_Project req) (or_BeadID req) in
  let eff := rg_Effective (registration (GetRegistration m (or_Project req))).1 in
  let key := beadKey (or_Project req) (or_BeadID req) in
  match ans with
  | Err e => s' = s ∧ ((e = UnknownReservation ∧ ∀ res, ¬ bound m req res) ∨
      (e = BadOutcome ∧ (∃ res, bound m req res) ∧ Outcome_Valid (or_Outcome req) = false))
  | Ok resp => OK resp = true ∧ RecordedAttempt resp = or_Attempt req ∧ Outcome_Valid (or_Outcome req) = true ∧
      ∃ res, bound m req res ∧
        ((∃ a, last_word history (or_Attempt req) a ∧ s' = s ∧
            (Next resp, NextRung resp) = previewNext (or_Trigger req) (a_Outcome a) (rs_Rung res) eff history) ∨
         ((∀ a, a ∈ history → a_Attempt a = or_Attempt req → a_Outcome a = OutcomeInfraFailed) ∧
          reservations m' = <[or_ReservationID req := settled_until res
             (Add now (MaxSpendStaleness (Meter (sv_cfg s))))]> (reservations m) ∧
          attempts m' = <[key := upsert (default [] (attempts m !! key)) (or_ReservationID req)
             (mkAttempt (rs_Attempt res) (rs_Rung res) (or_Outcome req))]> (attempts m) ∧
          rows m' = rows m ∧
          (Next resp, NextRung resp) = previewNext (or_Trigger req) (or_Outcome req) (rs_Rung res) eff history'))
  end.
Proof.
  destruct (Service_Outcome_refused R R' s req now) as [R1 R2]. unfold outcome_store in R1, R2.
  destruct (bound_dec (sv_store s) req) as [[res Hbd]|Hno]; [|rewrite (R1 Hno); by eauto].
  destruct (Outcome_Valid (or_Outcome req)) eqn:Hv; [|rewrite (R2 _ Hbd eq_refl); by eauto 10].
  assert (Hpre : ∀ o h, OK (preview s req res o h) = true ∧
    RecordedAttempt (preview s req res o h) = or_Attempt req ∧
    (Next (preview s req res o h), NextRung (preview s req res o h)) = previewNext (or_Trigger req) o (rs_Rung res)
      (rg_Effective (registration (GetRegistration (sv_store s) (or_Project req))).1) h).
  { intros o h. unfold preview. destruct (previewNext _ _ _ _ _). cbn. destruct Hbd as (_ & _ & _ & ->). done. }
  pose proof (find_voted res (Attempts (sv_store s) (or_Project req) (or_BeadID req))) as Hw.
  pose proof Hbd as (Hg & _ & _ & HA).
  destruct (Service_Outcome_cases R R' s req now res Hbd Hv) as [(a & Hf & E)|[Hn E]];
    unfold outcome_store in E; rewrite E; cbv zeta; split_and!; try apply Hpre; try done; exists res; (split; [done|]).
  - rewrite Hf, HA in Hw. left. exists a. split_and!; [done|done|apply Hpre].
  - rewrite Hn, HA in Hw. right. unfold GetReservation in Hg. pose proof (bk_id _ Hb _ _ Hg) as Hid.
    split; [done|]. cbn [sv_store with_store].
    assert (Hrec : reservations (recorded s req res now) = <[or_ReservationID req := settled_until res
        (Add now (MaxSpendStaleness (Meter (sv_cfg s))))]> (reservations (sv_store s)) ∧
      attempts (recorded s req res now) = <[beadKey (or_Project req) (or_BeadID req) :=
        upsert (default [] (attempts (sv_store s) !! beadKey (or_Project req) (or_BeadID req))) (or_ReservationID req)
        (mkAttempt (rs_Attempt res) (rs_Rung res) (or_Outcome req))]> (attempts (sv_store s)) ∧
      rows (recorded s req res now) = rows (sv_store s)).
    { unfold recorded, Settle. by rewrite Hid, Hg. }
    destruct Hrec as (-> & -> & ->). split_and!; [done|done|done|apply Hpre].
Qed.

(** No second vote. Once a report with an outcome other than an infrastructure
    failure was accepted, every later report on the same reservation, with
    whatever valid outcome, is answered with the very same response and changes
    nothing. *)
Theorem Outcome_one_vote (R R' : MapRange) (s s1 : Service Memory) (req : OutcomeRequest) (now now' : Time)
    (resp : OutcomeResponse) (o : Outcome)
    (Hd : @Service_Outcome Memory (Memory_Store R R') s req now = (Ok resp, s1))
    (Hi : or_Outcome req ≠ OutcomeInfraFailed) (Ho : Outcome_Valid o = true) :
  @Service_Outcome Memory (Memory_Store R R') s1 (with_outcome req o) now' = (Ok resp, s1).
Proof.
  destruct (Service_Outcome_refused R R' s req now) as [R1 R2]. unfold outcome_store in R1, R2.
  destruct (bound_dec (sv_store s) req) as [[res Hbd]|Hno]; [|rewrite (R1 Hno) in Hd; done].
  destruct (Outcome_Valid (or_Outcome req)) eqn:Hv; [|by rewrite (R2 _ Hbd eq_refl) in Hd].
  assert (Hsame : ∀ s2 res', bound (sv_store s2) req res' → rs_Rung res' = rs_Rung res →
    rs_Attempt res' = rs_Attempt res → regs (sv_store s2) = regs (sv_store s) → ∀ a,
    List.find (voted res) (Attempts (sv_store s2) (or_Project req) (or_BeadID req)) = Some a →
    @Service_Outcome Memory (Memory_Store R R') s2 (with_outcome req o) now' =
      (Ok (preview s req res (a_Outcome a) (Attempts (sv_store s2) (or_Project req) (or_BeadID req))), s2)).
  { intros s2 res' Hb2 Hr Ha Hreg a Hfa.
    assert (Hvv : voted res' = voted res) by (unfold voted; by rewrite Ha).
    destruct (Service_Outcome_cases R R' s2 (with_outcome req o) now' res' Hb2 Ho) as [(a' & Hf & E)|[Hn _]];
      rewrite Hvv in *; [|cbn [with_outcome or_Project or_BeadID] in Hn; congruence].
    cbn [with_outcome or_Project or_BeadID] in Hf, E. assert (a' = a) as -> by congruence.
    unfold outcome_store in E. rewrite E. unfold preview. cbn [with_outcome or_Project or_Trigger].
    unfold GetRegistration. by rewrite Hreg, Hr, Ha. }
  destruct (Service_Outcome_cases R R' s req now res Hbd Hv) as [(a & Hf & E)|[Hn E]];
    unfold outcome_store in E; rewrite E in Hd; injection Hd as <- <-; [by apply (Hsame s res)|].
  destruct (bound_recorded s req res now Hbd) as (res' & Hb' & Hr & Ha).
  destruct (recorded_rest s req res now) as [Hreg Hf]. specialize (Hf Hn Hi).
  exact (Hsame (with_store s (recorded s req res now)) res' Hb' Hr Ha Hreg _ Hf).
Qed.

(** The session above reports a gate failure. *)
Definition demo_report : OutcomeRequest :=
  mkOutcomeRequest "grp/app" "b-7" "s-1" 1 "qwen-small" "rsv-1" OutcomeGateFailed TriggerIssueTriage.
Definition demo_outcome : result service_error OutcomeResponse * Service Memory :=
  @Service_Outcome Memory (Memory_Store range_canonical range_canonical) decided.2 demo_report (Add demo_now Minute).

Lemma decided_ok : books_ok (sv_store decided.2).
Proof. apply (Service_Decide_rest range_canonical range_canonical). exact demo_store_ok. Qed.

Lemma Outcome_exact_witness :
  demo_outcome.1 = Ok (mkOutcomeResponse true 1 "escalate" "qwen-large") ∧
  ∃ res, GetReservation (sv_store demo_outcome.2) "rsv-1" = Some res ∧ rs_Settled res = true.
Proof.
  assert (E : demo_outcome.1 = Ok (mkOutcomeResponse true 1 "escalate" "qwen-large")) by (vm_compute; reflexivity).
  split; [exact E|].
  pose proof (Outcome_exact range_canonical range_canonical decided.2 demo_report (Add demo_now Minute) decided_ok) as Hw.
  fold demo_outcome in Hw. destruct demo_outcome as [ans s']. cbn [fst snd] in E |- *. subst ans. cbv zeta in Hw.
  destruct Hw as (_ & _ & _ & res & _ & [(a & (l & l' & Hin & _) & _)|(_ & Hrs & _)]).
  - exfalso. assert (Hnil : Attempts (sv_store decided.2) "grp/app" "b-7" = []) by (vm_compute; reflexivity).
    cbn [or_Project or_BeadID demo_report] in Hin. rewrite Hnil in Hin. destruct l; discriminate Hin.
  - unfold GetReservation. rewrite Hrs. cbn [or_ReservationID demo_report]. rewrite lookup_insert_eq.
    eexists. split; reflexivity.
Defined.

Lemma Outcome_one_vote_witness :
  @Service_Outcome Memory (Memory_Store range_canonical range_canonical) demo_outcome.2
    (with_outcome demo_report OutcomeSuccess) (Add demo_now Hour) =
  (Ok (mkOutcomeResponse true 1 "escalate" "qwen-large"), demo_outcome.2).
Proof.
  apply (Outcome_one_vote range_canonical range_canonical decided.2 demo_outcome.2 demo_report
    (Add demo_now Minute) (Add demo_now Hour)).
  - vm_compute. reflexivity.
  - discriminate.
  - reflexivity.
Defined.

(** ** The preview *)

(** The preview tells the next decision's rung. After an attempt on the rung that
    the history pointed at ended in a gate failure or an infrastructure failure,
    whatever spend, clock, keys and windows do until then, the next decision of
    the trigger that runs, runs on the rung the preview names; the preview says
    retry exactly when that is a place the history already was, and escalate
    exactly when the ladder position moved up by one. *)
Theorem previewNext_is_next (trigger cur : string) (eff : EffectiveCfg) (prior : list Attempt) (n : Z)
    (o : Outcome) (in_ : Input)
    (Hcur : LadderFor eff trigger !! Z.to_nat (Index_ (LadderPosition trigger prior)) = Some cur)
    (Ho : o = OutcomeGateFailed ∨ o = OutcomeInfraFailed)
    (Hin : Prior in_ = prior ++ [mkAttempt n cur o] ∧ i_Trigger in_ = trigger ∧ i_Effective in_ = eff)
    (Hr : d_Kind (Decide in_) = Run) :
  let '(next, r) := previewNext trigger o cur eff (prior ++ [mkAttempt n cur o]) in
  let moved := Index_ (LadderPosition trigger (prior ++ [mkAttempt n cur o]))
               - Index_ (LadderPosition trigger prior) in
  d_Rung (Decide in_) = r ∧ ((next = "retry" ∧ r = cur ∧ moved = 0) ∨ (next = "escalate" ∧ moved = 1)).
Proof.
  destruct Hin as (Hp & Ht & He). destruct (Decide_run_gates in_ Hr) as (spec & _ & (Hl & _) & _).
  rewrite Hp, Ht, He in Hl. destruct (LadderPosition_step trigger prior (mkAttempt n cur o)) as (Hother & Hgate).
  cbn [a_Outcome] in Hother, Hgate.
  set (pos := LadderPosition trigger (prior ++ [mkAttempt n cur o])) in *.
  unfold previewNext. destruct Ho as [-> | ->].
  - specialize (Hgate eq_refl). change (String.eqb OutcomeGateFailed OutcomeSuccess) with false.
    change (String.eqb OutcomeGateFailed OutcomeInfraFailed) with false.
    change (String.eqb OutcomeGateFailed OutcomeGateFailed) with true. cbv iota zeta. fold pos.
    destruct Hgate as [(-> & _ & Hi)|(-> & _ & Hi)].
    + rewrite Hi in Hl. split; [congruence|]. left. split_and!; [done|done|lia].
    + pose proof (lookup_lt_Some _ _ _ Hl) as Hlt.
      pose proof (LadderPosition_bounds trigger (prior ++ [mkAttempt n cur OutcomeGateFailed])) as (Hf & Hb & _).
      fold pos in Hf, Hb. pose proof (LadderFloor_nonneg trigger).
      destruct (Z.ltb_spec (Index_ pos) (Z.of_nat (length (LadderFor eff trigger)))); [|lia].
      split; [|right; split; [done|lia]]. by rewrite (nth_lookup_Some _ _ _ _ Hl).
  - change (String.eqb OutcomeInfraFailed OutcomeSuccess) with false.
    change (String.eqb OutcomeInfraFailed OutcomeInfraFailed) with true. cbv iota.
    rewrite Hother in Hl |- * by done. split; [congruence|]. left. split_and!; [done|done|lia].
Qed.

Lemma previewNext_is_next_witness :
  let in_ := demo_input TriggerIssueTriage [mkAttempt 1 "qwen-small" OutcomeGateFailed] no_spend in
  d_Kind (Decide in_) = Run ∧
  d_Rung (Decide in_) = (previewNext TriggerIssueTriage OutcomeGateFailed "qwen-small" (i_Effective in_)
    [mkAttempt 1 "qwen-small" OutcomeGateFailed]).2.
Proof.
  intros in_. assert (Hk : d_Kind (Decide in_) = Run) by (vm_compute; reflexivity). split; [exact Hk|].
  pose proof (previewNext_is_next TriggerIssueTriage "qwen-small" (i_Effective in_) [] 1 OutcomeGateFailed in_
    ltac:(vm_compute; reflexivity) (or_introl eq_refl) ltac:(repeat split) Hk) as Hw.
  cbn [app] in Hw. destruct (previewNext _ _ _ _ _) as [next r]. cbn [snd]. exact (proj1 Hw).
Defined.

(** Two sessions of one bead that are open together have the same attempt
    number, because it counts the attempts recorded so far: the report of the
    second is taken for a retry of the first's, answered with the first's
    outcome, and leaves the second's reservation unsettled. *)
Definition second_session : Service Memory :=
  (@Service_Decide range_canonical Memory (Memory_Store range_canonical range_canonical) decided.2
     (mkDecideRequest "grp/app" "rig-1" "b-7" "s-2" TriggerIssueTriage) demo_now "rsv-2").2.
Lemma attempt_number_shared :
  let report sess rsv o := mkOutcomeRequest "grp/app" "b-7" sess 1 "qwen-small" rsv o TriggerIssueTriage in
  let s1 := (@Service_Outcome Memory (Memory_Store range_canonical range_canonical) second_session
     (report "s-1" "rsv-1" OutcomeGateFailed) (Add demo_now Minute)).2 in
  let a := @Service_Outcome Memory (Memory_Store range_canonical range_canonical) s1
     (report "s-2" "rsv-2" OutcomeSuccess) (Add demo_now (2 * Minute)) in
  a.1 = Ok (mkOutcomeResponse true 1 "escalate" "qwen-large") ∧
  (rs_Settled <$> GetReservation (sv_store a.2) "rsv-2") = Some false.
Proof. vm_compute. split; reflexivity. Qed.
