(* ===== verification/MeterLoops.v ===== *)
(** * The meter's background loops (internal/meter/service/service.go)

    What one pass of the janitor and one spend poll do to the in-memory store.
    The loops themselves are [Janitor] and [syncSpendOnce] of MeterService. *)

From S2P Require Import Prelude.
From S2P Require Import Float64.
From S2P Require Import GoTime.
From S2P Require Import GoStrings.
From S2P Require Import GoPath.
From S2P Require Import Gonkcfg.
From S2P Require Import Opercfg.
From S2P Require Import Budget.
From S2P Require Import Atags.
From S2P Require Import Spend.
From S2P Require Import RungOutcome.
From S2P Require Import MeterStore.
From S2P Require Import Rung.
From S2P Require Import MeterService.

(** ** The janitor *)

Definition history (m : Memory) (key : string) : list attemptRecord := default [] (attempts m !! key).
Definition work_key (r : Reservation) : string := beadKey (rs_Project r) (rs_BeadID r).
Definition infra_record (r : Reservation) : attemptRecord :=
  mkAttemptRecord (rs_ID r) (mkAttempt (rs_Attempt r) (rs_Rung r) OutcomeInfraFailed).

Lemma upsert_elem recs id a rec :
  rec ∈ upsert recs id a → rec ∈ recs ∨ rec = mkAttemptRecord id a.
Proof.
  induction recs as [|x recs IH]; cbn [upsert]; [rewrite list_elem_of_singleton; by right|].
  destruct (String.eqb_spec (reservationID x) id) as [<-|]; rewrite !elem_of_cons; [tauto|].
  intros [->|H]; [tauto|]. destruct (IH H); tauto.
Qed.

Lemma upsert_keeps recs id a rec : rec ∈ recs → reservationID rec ≠ id → rec ∈ upsert recs id a.
Proof.
  intros Hin Hne. induction Hin as [recs|rec x recs Hin IH]; cbn [upsert].
  - apply String.eqb_neq in Hne. rewrite Hne. by left.
  - destruct (String.eqb _ _); right; auto.
Qed.

Lemma upsert_has recs id a : mkAttemptRecord id a ∈ upsert recs id a.
Proof.
  induction recs as [|x recs IH]; cbn [upsert]; [by left|].
  destruct (String.eqb_spec (reservationID x) id) as [->|]; [by left|by right].
Qed.

Section janitor.
Context (R R' : MapRange).
#[local] Instance janitor_store : Store Memory := Memory_Store R R'.

(** The in-memory store takes every record. *)
Definition infra_books (m : Memory) (r : Reservation) : Memory :=
  RecordAttempt m (rs_Project r) (rs_BeadID r) (rs_ID r) (ar_Attempt (infra_record r)).

Lemma record_infra_books (s : Service Memory) l k m : record_infra s l k m = k (fold_left infra_books l m).
Proof. revert m. induction l as [|r l IH]; intros m; [done|]. cbn [record_infra fold_left]. apply IH. Qed.

Lemma infra_books_history m r key :
  history (infra_books m r) key =
    if decide (key = work_key r)
    then upsert (history m key) (rs_ID r) (ar_Attempt (infra_record r)) else history m key.
Proof.
  unfold history, infra_books, work_key. cbn [RecordAttempt attempts set_attempts].
  case_decide as Hd; [subst key; by rewrite lookup_insert_eq|by rewrite lookup_insert_ne].
Qed.

(** The whole loop: a record for each of [l], and nobody else's record. *)
Lemma infra_books_fold l m :
  NoDup (rs_ID <$> l) →
  let m' := fold_left infra_books l m in
  (∀ r, r ∈ l → infra_record r ∈ history m' (work_key r)) ∧
  (∀ key rec, rec ∈ history m key → reservationID rec ∉ rs_ID <$> l → rec ∈ history m' key) ∧
  (∀ key rec, rec ∈ history m' key → rec ∈ history m key ∨ ∃ r, r ∈ l ∧ key = work_key r ∧ rec = infra_record r) ∧
  reservations m' = reservations m ∧ regs m' = regs m ∧ rows m' = rows m.
Proof.
  revert m. induction l as [|x l IH]; intros m Hnd; cbv zeta.
  { split_and!; try done; [intros r Hr; by apply not_elem_of_nil in Hr|by left]. }
  rewrite fmap_cons, NoDup_cons in Hnd. destruct Hnd as [Hx Hnd]. cbn [fold_left].
  destruct (IH (infra_books m x) Hnd) as (H1 & H2 & H3 & H4 & H5 & H6). split_and!; [| | |done|done|done].
  - intros r [->|Hr]%elem_of_cons; [|by apply H1]. apply H2; [|exact Hx].
    rewrite infra_books_history, decide_True by done. apply upsert_has.
  - intros key rec Hin Hno. rewrite fmap_cons, elem_of_cons in Hno. apply H2; [|tauto].
    rewrite infra_books_history. case_decide; [|done]. apply upsert_keeps; tauto.
  - intros key rec Hin. destruct (H3 key rec Hin) as [Hold|(r & Hr & -> & ->)].
    + rewrite infra_books_history in Hold. case_decide as Hd; [|by left].
      apply upsert_elem in Hold as [|E]; [by left|]. right. exists x. split; [by left|done].
    + right. exists r. split; [by right|done].
Qed.

Lemma expired_ids m now : books_ok m → NoDup (rs_ID <$> (@ExpireReservations R m now).1).
Proof.
  intros Hb. destruct (ExpireReservations_spec (H := R) m now) as [-> _].
  assert (E : rs_ID <$> (@range_map R _ (reservations m)).*2 = (@range_map R _ (reservations m)).*1).
  { rewrite <- list_fmap_compose. apply list_fmap_ext. intros i [k r] Hi. simpl.
    apply (bk_id _ Hb). apply (@elem_of_range_map R). by eapply list_elem_of_lookup_2. }
  assert (Hn : NoDup (rs_ID <$> (@range_map R _ (reservations m)).*2)) by (rewrite E; apply NoDup_range_map).
  eapply sublist_NoDup; [exact Hn|]. apply fmap_sublist. apply List_filter_sublist.
Qed.

Lemma expired_elem m now r :
  r ∈ (@ExpireReservations R m now).1 ↔ (∃ k, reservations m !! k = Some r) ∧ dead now r = true.
Proof.
  destruct (ExpireReservations_spec (H := R) m now) as [-> _].
  rewrite list_elem_of_In, List.filter_In, <- list_elem_of_In. by rewrite all_elem.
Qed.

Lemma ExpireReservations_attempts m now :
  attempts (@ExpireReservations R m now).2 = attempts m ∧ regs (@ExpireReservations R m now).2 = regs m ∧
  rows (@ExpireReservations R m now).2 = rows m.
Proof. unfold ExpireReservations. by destruct (fold_left _ _ _). Qed.

Lemma ExpirePrompts_rest m now :
  attempts (@ExpirePrompts R m now).2 = attempts m ∧ reservations (@ExpirePrompts R m now).2 = reservations m ∧
  rows (@ExpirePrompts R m now).2 = rows m.
Proof. unfold ExpirePrompts. by destruct (fold_left _ _ _). Qed.

(** The pieces of one pass. *)
Lemma Janitor_store s now now' :
  let m := sv_store s in
  let m' := sv_store (Janitor s now now').2 in
  let m1 := fold_left infra_books (@ExpireReservations R m now).1 (@ExpireReservations R m now).2 in
  attempts m' = attempts m1 ∧ reservations m' = reservations m1 ∧ rows m' = rows m1.
Proof.
  cbv zeta. unfold Janitor. cbn [writing st_ExpireReservations janitor_store Memory_Store].
  rewrite record_infra_books. cbn [writing st_ExpirePrompts Memory_Store janitor_store snd with_store sv_store].
  apply ExpirePrompts_rest.
Qed.
End janitor.

(** One pass of the janitor. Exactly the unsettled reservations past their
    deadline are settled, each leaves an infrastructure failure on its own rung
    and attempt in its bead's history under its own id, and nobody else's record
    is lost or written: a session that reported keeps its report; and a second
    pass at the same time changes neither the books nor a history. *)
Theorem Janitor_pass (R R' : MapRange) (s : Service Memory) (now now' : Time)
    (Hb : books_ok (sv_store s)) :
  let m := sv_store s in
  let s' := (@Janitor Memory (Memory_Store R R') s now now').2 in
  let m' := sv_store s' in
  reservations m' = reap now <$> reservations m ∧
  (∀ k r, reservations m !! k = Some r → dead now r = true → infra_record r ∈ history m' (work_key r)) ∧
  (∀ key rec, rec ∈ history m key →
     (∀ r, reservations m !! reservationID rec = Some r → dead now r = false) → rec ∈ history m' key) ∧
  (∀ key rec, rec ∈ history m' key → rec ∈ history m key ∨
     ∃ k r, reservations m !! k = Some r ∧ dead now r = true ∧ key = work_key r ∧ rec = infra_record r) ∧
  (let m'' := sv_store (@Janitor Memory (Memory_Store R R') s' now now').2 in
   reservations m'' = reservations m' ∧ attempts m'' = attempts m').
Proof.
  cbv zeta. set (m := sv_store s) in *.
  destruct (Janitor_store R R' s now now') as (Ha & Hr & _). unfold janitor_store in Ha, Hr. fold m in Ha, Hr.
  destruct (infra_books_fold (@ExpireReservations R m now).1 (@ExpireReservations R m now).2
    (expired_ids R m now Hb)) as (F1 & F2 & F3 & F4 & _).
  destruct (ExpireReservations_attempts R m now) as (Hatt & _).
  destruct (ExpireReservations_spec (H := R) m now) as [_ Hres].
  unfold janitor_store in *. set (m1 := fold_left _ _ _) in *. set (s' := (Janitor s now now').2) in *.
  assert (Hh : ∀ key, history (sv_store s') key = history m1 key) by (intros key; unfold history; by rewrite Ha).
  assert (Hh0 : ∀ key, history (@ExpireReservations R m now).2 key = history m key)
    by (intros key; unfold history; by rewrite Hatt).
  assert (Hmap : reservations (sv_store s') = reap now <$> reservations m) by (by rewrite Hr, F4, Hres).
  split; [done|]. split; [|split; [|split]].
  - intros k r Hk Hd. rewrite Hh. apply F1, expired_elem. eauto.
  - intros key rec Hin Hal. rewrite Hh. apply F2; [by rewrite Hh0|].
    intros (r & Hid & [[k Hk] Hd]%expired_elem)%list_elem_of_fmap.
    rewrite Hid in Hal. rewrite (bk_id _ Hb _ _ Hk) in Hal. by rewrite (Hal _ Hk) in Hd.
  - intros key rec Hin. rewrite Hh in Hin. destruct (F3 key rec Hin) as [Hold|(r & [[k Hk] Hd]%expired_elem & -> & ->)].
    + left. by rewrite <- Hh0.
    + right. by exists k, r.
  - assert (Hnone : (@ExpireReservations R (sv_store s') now).1 = []).
    { destruct (@ExpireReservations R (sv_store s') now).1 as [|r l] eqn:E; [done|exfalso].
      assert (r ∈ (@ExpireReservations R (sv_store s') now).1) as [[k Hk] Hd]%expired_elem by (rewrite E; by left).
      rewrite Hmap, lookup_fmap_Some in Hk. destruct Hk as (r0 & <- & _). unfold reap in Hd.
      destruct (dead now r0) eqn:Hd0; [|by rewrite Hd0 in Hd]. by unfold dead in Hd. }
    destruct (Janitor_store R R' s' now now') as (Ha2 & Hr2 & _). unfold janitor_store in Ha2, Hr2.
    rewrite Hnone in Ha2, Hr2. cbn [fold_left] in Ha2, Hr2.
    destruct (ExpireReservations_attempts R (sv_store s') now) as (Hatt2 & _).
    destruct (ExpireReservations_spec (H := R) (sv_store s') now) as [_ Hres2].
    rewrite Ha2, Hr2, Hatt2, Hres2. split; [|done]. rewrite Hmap. rewrite <- map_fmap_compose.
    apply map_fmap_ext. intros k r _. cbn. unfold reap. destruct (dead now r) eqn:Hd0; [done|by rewrite Hd0].
Qed.

Lemma Janitor_pass_witness :
  let s := decided.2 in
  let later := Add demo_now Hour in
  infra_record (ex_Reservation decided_answer.2) ∈
    history (sv_store (@Janitor Memory (Memory_Store range_canonical range_canonical) s later later).2)
      (beadKey "grp/app" "b-7").
Proof.
  intros s later.
  assert (Hk : reservations (sv_store s) !! "rsv-1" = Some (ex_Reservation decided_answer.2)) by (vm_compute; reflexivity).
  assert (Hd : dead later (ex_Reservation decided_answer.2) = true) by (vm_compute; reflexivity).
  assert (Hw : work_key (ex_Reservation decided_answer.2) = beadKey "grp/app" "b-7") by (vm_compute; reflexivity).
  destruct (Janitor_pass range_canonical range_canonical s later later decided_ok) as (_ & H2 & _).
  rewrite <- Hw. exact (H2 _ _ Hk Hd).
Defined.

(** ** The spend poll *)

Lemma row_fold_seen new rs sn n :
  let '(_, sn', _) := fold_left row_step new (rs, sn, n) in
  sn ⊆ sn' ∧ ∀ r, r ∈ new → CallID r ∈ sn'.
Proof.
  revert rs sn n. induction new as [|x new IH]; intros rs sn n; cbn [fold_left].
  { split; [done|]. intros r Hr. by apply not_elem_of_nil in Hr. }
  assert (Hx : ∃ rs1 sn1 n1, row_step (rs, sn, n) x = (rs1, sn1, n1) ∧ sn ⊆ sn1 ∧ CallID x ∈ sn1).
  { unfold row_step. case_decide; [by eauto 10|]. destruct (negb _); eexists _, _, _; split; try done; set_solver. }
  destruct Hx as (rs1 & sn1 & n1 & -> & Hs & Hin). specialize (IH rs1 sn1 n1).
  destruct (fold_left row_step new _) as [[rs' sn'] n']. destruct IH as [I1 I2].
  split; [set_solver|]. intros r [->|Hr]%elem_of_cons; [set_solver|auto].
Qed.

Lemma row_fold_known new rs sn n :
  (∀ r, r ∈ new → CallID r ∈ sn) → fold_left row_step new (rs, sn, n) = (rs, sn, n).
Proof.
  induction new as [|x new IH]; intros Hk; [done|]. cbn [fold_left]. unfold row_step at 2.
  rewrite decide_True by (apply Hk; by left). apply IH. intros r Hr. apply Hk. by right.
Qed.

Lemma newest rows c :
  let c' := fold_left (λ c r, if After (At r) c then At r else c) rows c in
  c <= c' ∧ (∀ r, r ∈ rows → At r <= c') ∧ (c' = c ∨ ∃ r, r ∈ rows ∧ c' = At r).
Proof.
  revert c. induction rows as [|x rows IH]; intros c; cbv zeta; cbn [fold_left].
  { split_and!; [lia| |by left]. intros r Hr. by apply not_elem_of_nil in Hr. }
  specialize (IH (if After (At x) c then At x else c)). cbv zeta in IH. destruct IH as (I1 & I2 & I3).
  set (c' := fold_left _ _ _) in *. unfold After in *. destruct (Z.ltb_spec c (At x)).
  - split_and!; [lia| |].
    + intros r [->|Hr]%elem_of_cons; [lia|auto].
    + destruct I3 as [->|(r & Hr & ->)]; right; [exists x; split; [by left|done]|exists r; split; [by right|done]].
  - split_and!; [lia| |].
    + intros r [->|Hr]%elem_of_cons; [lia|auto].
    + destruct I3 as [->|(r & Hr & ->)]; [by left|right; exists r; split; [by right|done]].
Qed.

Section poll.
Context (R R' : MapRange).
#[local] Instance poll_store : Store Memory := Memory_Store R R'.

(** One poll in closed form. *)
Lemma poll_store_eq s now new clock :
  let m := sv_store s in
  let a := fold_left row_step new (MeterStore.rows m, seen m, 0) in
  let c' := fold_left (λ c r, if After (At r) c then At r else c) new (cursor m) in
  syncSpendOnce s now new clock =
    (Ok a.2, mkService (mkMemory (regs m) (attempts m) (reservations m) a.1.1 a.1.2 c' now
            (Advance (window m) now).1 (prompts m) (traces m)) (sv_cfg s) true
            (SkewOK now clock (MaxClockSkew (Meter (sv_cfg s)))) (sv_deferred s)).
Proof.
  cbv zeta. unfold syncSpendOnce. cbn [reading writing st_SpendCursor st_AddSpendRows poll_store Memory_Store]. unfold AddSpendRows.
  destruct (fold_left row_step new _) as [[rs sn] n]. cbn [fst snd].
  destruct (newest new (cursor (sv_store s))) as (Hle & _). set (c' := fold_left _ new _) in *.
  assert (Hcur : ∀ m1, cursor m1 = cursor (sv_store s) →
    (if After c' (cursor (sv_store s)) then (Ok tt, SetSpendCursor m1 c') else (Ok tt, m1)) =
      (Ok tt, SetSpendCursor m1 c') :> result store_error unit * Memory).
  { intros m1 E. unfold After. destruct (Z.ltb_spec (cursor (sv_store s)) c'); [done|].
    assert (c' = cursor m1) as -> by (rewrite E; lia). by destruct m1. }
  cbn [st_SetSpendCursor poll_store Memory_Store]. rewrite Hcur by done.
  cbn [writing reading st_SetSyncedAt st_Window st_SetWindow poll_store Memory_Store window SetSyncedAt SetSpendCursor set_ledger].
  destruct (Advance (window (sv_store s)) now) as [w []] eqn:Ea; cbn [fst]; [done|].
  assert (w = window (sv_store s)) as ->; [|done].
  unfold Advance in Ea. repeat case_match; congruence.
Qed.
End poll.

(** What one answered poll does. The cursor becomes the newest time read and
    never goes back; the ledger is marked synced now, and the service is ready
    exactly when the two clocks agree; the budget window is rolled as its rule
    says; reservations, histories and registrations are untouched; and when a
    later poll, as it does on purpose, reads rows again that an earlier one
    read, whatever its clock, it ingests none of them and the ledger stays the
    same. *)
Theorem poll_exact (R R' : MapRange) (s : Service Memory) (now : Time) (new : list Row) (clock : Time) :
  let m := sv_store s in
  let s' := (@syncSpendOnce Memory (Memory_Store R R') s now new clock).2 in
  let m' := sv_store s' in
  (cursor m <= cursor m' ∧ (∀ r, r ∈ new → At r <= cursor m') ∧
    (cursor m' = cursor m ∨ ∃ r, r ∈ new ∧ cursor m' = At r)) ∧
  syncedAt m' = now ∧ Ready s' = SkewOK now clock (MaxClockSkew (Meter (sv_cfg s))) ∧
  window m' = (Advance (window m) now).1 ∧
  reservations m' = reservations m ∧ attempts m' = attempts m ∧ regs m' = regs m ∧
  ∀ now2 clock2 again, (∀ r, r ∈ again → r ∈ new) →
    let '(n, s2) := @syncSpendOnce Memory (Memory_Store R R') s' now2 again clock2 in
    n = Ok 0 ∧ MeterStore.rows (sv_store s2) = MeterStore.rows m' ∧ cursor (sv_store s2) = cursor m'.
Proof.
  pose proof (poll_store_eq R R' s now new clock) as E. unfold poll_store in E. cbv zeta in E. cbv zeta.
  rewrite E. cbn [snd sv_store cursor syncedAt window reservations attempts regs sv_cfg].
  destruct (newest new (cursor (sv_store s))) as (C1 & C2 & C3).
  split_and!; try done. intros now2 clock2 again Hsub.
  pose proof (poll_store_eq R R' (mkService
    (mkMemory (regs (sv_store s)) (attempts (sv_store s)) (reservations (sv_store s))
       (fold_left row_step new (MeterStore.rows (sv_store s), seen (sv_store s), 0)).1.1
       (fold_left row_step new (MeterStore.rows (sv_store s), seen (sv_store s), 0)).1.2
       (fold_left (λ c r, if After (At r) c then At r else c) new (cursor (sv_store s))) now
       (Advance (window (sv_store s)) now).1 (prompts (sv_store s)) (traces (sv_store s))) (sv_cfg s) true
       (SkewOK now clock (MaxClockSkew (Meter (sv_cfg s)))) (sv_deferred s)) now2 again clock2) as E2.
  unfold poll_store in E2. cbv zeta in E2. rewrite E2. clear E2. cbn [sv_store MeterStore.rows seen cursor fst snd].
  pose proof (row_fold_seen new (MeterStore.rows (sv_store s)) (seen (sv_store s)) 0) as Hs.
  destruct (fold_left row_step new _) as [[rs sn] n]. cbn [fst snd]. destruct Hs as [_ Hs].
  rewrite row_fold_known by auto. cbn [fst snd]. split_and!; [done|done|].
  set (c' := fold_left _ new _) in *. destruct (newest again c') as (D1 & _ & [D|(r & Hr & D)]); [done|].
  rewrite D in D1 |- *. specialize (C2 r (Hsub r Hr)). lia.
Qed.
