(* ===== verification/Gate.v ===== *)
(** * [pkg/gate]: what an attempt is reported as

    [Classify] turns the signals of an attempt into the outcome the meter
    records (outcome.go); [MarkerPresent] says whether a comment is a bead's
    (marker.go). *)

From S2P Require Import Prelude.
From S2P Require Import GoStrings.
From S2P Require Import GoPath.
From S2P Require Import RungOutcome.

(** ** Attempts ([outcome.go]) *)

Record Signals := mkSignals {
  sg_Aborted : bool;
  ReservationExpired : bool;
  ArtifactUnknown : bool;
  SpendStale : bool;
  sg_ArtifactPresent : bool;
  ModelTokens : Z;
}.

Definition Classify (s : Signals) : Outcome :=
  if sg_Aborted s then OutcomeAborted
  else if ReservationExpired s || ArtifactUnknown s || SpendStale s then OutcomeInfraFailed
  else if sg_ArtifactPresent s then OutcomeSuccess
  else if ModelTokens s <=? 0 then OutcomeInfraFailed
  else OutcomeGateFailed.

Definition MayPour (decision : string) : bool := String.eqb decision "run".

(** ** Markers ([marker.go]) *)

Definition BeadMarker (beadID : string) : string := "<!-- gonk:bead:" +:+ beadID +:+ " -->".

Definition MarkerPresent (body beadID : string) : bool :=
  if String.eqb beadID "" then false else Contains_sub body (BeadMarker beadID).
