(* ===== verification/Pipefix.v ===== *)
(** * The data of [pkg/pipefix]

    The verdicts and states of a pipeline fix (outcome.go), the set of jobs it
    is judged on (target.go), and whether one may be dispatched at all
    (eligible.go). Sentences for logs and notes are left out; every other field
    of an answer is there. *)

From S2P Require Import Prelude.
From S2P Require Import GoStrings.
From S2P Require Import RungOutcome.
From S2P Require Import Gate.

(** ** Verdicts and states (outcome.go) *)

Abbreviation Verdict := string (only parsing).
Definition VerdictForged : Verdict := "FORGED".
Definition VerdictNotFixed : Verdict := "NOT_FIXED".
Definition VerdictFlaky : Verdict := "FLAKY".
Definition VerdictUnverifiable : Verdict := "UNVERIFIABLE".
Definition VerdictRegressed : Verdict := "REGRESSED".
Definition VerdictFixedNewFailure : Verdict := "FIXED_NEW_FAILURE".
Definition VerdictFixed : Verdict := "FIXED".

Definition Verdicts : list Verdict :=
  [VerdictForged; VerdictNotFixed; VerdictFlaky; VerdictUnverifiable; VerdictRegressed;
   VerdictFixedNewFailure; VerdictFixed].

Abbreviation FixState := string (only parsing).
Definition StateProposing : FixState := "proposing".
Definition StateNeedsScope : FixState := "needs-scope".
Definition StateAwaitingRun : FixState := "awaiting-run".
Definition StateVerifying : FixState := "verifying".
Definition StateFixed : FixState := "fixed".
Definition StateFixedNewFailure : FixState := "fixed-new-failure".
Definition StateNotFixed : FixState := "not-fixed".
Definition StateFlaky : FixState := "flaky".
Definition StateUnverifiable : FixState := "unverifiable".
Definition StateRegressed : FixState := "regressed".
Definition StateDenied : FixState := "denied".
Definition StateTakenOver : FixState := "taken-over".
Definition StateClosedUnmerged : FixState := "closed-unmerged".
Definition StateMerged : FixState := "merged".
Definition StateConfirmed : FixState := "confirmed".
Definition StateRecurred : FixState := "recurred".

Definition States : list FixState :=
  [StateProposing; StateNeedsScope; StateAwaitingRun; StateVerifying; StateFixed; StateFixedNewFailure;
   StateNotFixed; StateFlaky; StateUnverifiable; StateRegressed; StateDenied; StateTakenOver;
   StateClosedUnmerged; StateMerged; StateConfirmed; StateRecurred].

Definition KnownState (s : FixState) : bool := contains States s.

Definition Terminal (s : FixState) : bool :=
  if contains [StateProposing; StateAwaitingRun; StateVerifying; StateNotFixed] s then false
  else KnownState s.

Definition StateFor (v : Verdict) : FixState * bool :=
  if String.eqb v VerdictForged || String.eqb v VerdictNotFixed then (StateNotFixed, true)
  else if String.eqb v VerdictFlaky then (StateFlaky, true)
  else if String.eqb v VerdictUnverifiable then (StateUnverifiable, true)
  else if String.eqb v VerdictRegressed then (StateRegressed, true)
  else if String.eqb v VerdictFixedNewFailure then (StateFixedNewFailure, true)
  else if String.eqb v VerdictFixed then (StateFixed, true)
  else ("", false).

(** [(present, reported)]. *)
Definition ArtifactPresent (s : FixState) : bool * bool :=
  if String.eqb s StateNotFixed then (false, true)
  else if contains [StateNeedsScope; StateFixed; StateFixedNewFailure; StateFlaky; StateUnverifiable;
                    StateRegressed; StateTakenOver; StateClosedUnmerged; StateMerged] s then (true, true)
  else (false, false).

Definition MeterOutcome (s : FixState) (modelTokens : Z) : Outcome * bool :=
  let '(present, reported) := ArtifactPresent s in
  if negb reported then ("", false)
  else (Classify (mkSignals false false false false present modelTokens), true).

Definition VerdictOutcome (v : Verdict) (modelTokens : Z) : Outcome * bool :=
  let '(s, known) := StateFor v in
  if negb known then ("", false) else MeterOutcome s modelTokens.

(** ** The target set (target.go) *)

Record JobFailureKey := mkJobFailureKey {
  k_Stage : string;
  k_Name : string;
  k_FailureReason : string;
  k_ErrorSignature : string;
}.
#[export] Instance JobFailureKey_eq_dec : EqDecision JobFailureKey.
Proof. solve_decision. Defined.

Record RecordedJob := mkRecordedJob {
  rj_Name : string;
  rj_Stage : string;
  rj_FailureReason : string;
  rj_ErrorSignature : string;
  rj_AllowFailure : bool;
  rj_Generic : bool;
  FactsRecorded : bool;
}.

Record Target := mkTarget { t_Key : JobFailureKey; t_Generic : bool }.
Definition t_Name (t : Target) : string := k_Name (t_Key t).

Inductive target_problem :=
| CitesNoJob (name : string)
| RecordedTimes (name : string) (n : Z)
| NoFacts (name : string).

Definition key_of (j : RecordedJob) : JobFailureKey :=
  mkJobFailureKey (rj_Stage j) (rj_Name j) (rj_FailureReason j) (rj_ErrorSignature j).

(** One round of the loop over the cited names. *)
Definition target_step (jobs : list RecordedJob)
    (acc : gset string * (list Target * list target_problem)) (name : string) :
    gset string * (list Target * list target_problem) :=
  let '(seen, (targets, problems)) := acc in
  if decide (name ∈ seen) then acc
  else
    ({[name]} ∪ seen,
     match List.filter (λ j, String.eqb (rj_Name j) name) jobs with
     | [] => (targets, problems ++ [CitesNoJob name])
     | [j] =>
         if rj_AllowFailure j then (targets, problems)
         else if negb (FactsRecorded j) then (targets, problems ++ [NoFacts name])
         else (targets ++ [mkTarget (key_of j) (rj_Generic j || String.eqb (rj_ErrorSignature j) "")], problems)
     | found => (targets, problems ++ [RecordedTimes name (Z.of_nat (length found))])
     end).

Definition TargetSet (jobs : list RecordedJob) (evidenceJobs : list string) :
    list Target * list target_problem :=
  (fold_left (target_step jobs) evidenceJobs (∅, ([], []))).2.

(** ** Eligibility (eligible.go) *)

Definition ClassCode := "code".
Definition ClassTest := "test".
Definition ClassConfiguration := "configuration".
Definition FixableClasses : list string := [ClassCode; ClassTest; ClassConfiguration].

Definition RunStateDiagnosed := "diagnosed".

Record ConfigFacts := mkConfigFacts {
  Loaded : bool;
  PipelineFixes : bool;
  Pipelines : bool;
  cf_Targets : list string;
  cf_Classes : list string;
  MaxChain : Z;
}.

Record RunFacts := mkRunFacts {
  rf_Read : bool;
  TargetKind : string;
  NoteState : string;
  Open : bool;
  rf_Class : string;
  rf_Targets : list Target;
  TargetProblems : list target_problem;
}.

Record CitedFile := mkCitedFile { ct_Path : string; ct_Class : string }.

Record ScopeFacts := mkScopeFacts { Folded : bool; Envelope : list string; Cited : list CitedFile }.

Record HeadFacts := mkHeadFacts { hf_Read : bool; TargetSHA : string; NewestFailingSHA : string }.

Record CurrentFacts := mkCurrentFacts { cu_Read : bool; FailedKeys : list JobFailureKey }.

Record DedupFacts := mkDedupFacts {
  dd_Read : bool;
  dd_FixState : FixState;
  OpenCauseMRs : Z;
  ClosedUnmergedCauseMRs : Z;
}.

Record SerialFacts := mkSerialFacts { sf_Read : bool; OpenFixMRs : Z; MergedSinceGreen : Z }.

Record EligibleFacts := mkEligibleFacts {
  ef_Config : ConfigFacts;
  ef_Run : RunFacts;
  ef_Scope : ScopeFacts;
  ef_Head : HeadFacts;
  ef_Current : CurrentFacts;
  ef_Dedup : DedupFacts;
  ef_Serial : SerialFacts;
  CorrelationHold : bool;
}.

Abbreviation ReasonCode := string (only parsing).
Definition E1Unread : ReasonCode := "E1.unread".
Definition E1FixesOff : ReasonCode := "E1.pipeline-fixes-off".
Definition E1PipelinesOff : ReasonCode := "E1.pipelines-off".
Definition E2Unread : ReasonCode := "E2.unread".
Definition E2TargetKind : ReasonCode := "E2.target-kind-not-enabled".
Definition E3NoteState : ReasonCode := "E3.run-not-diagnosed".
Definition E3RunClosed : ReasonCode := "E3.run-not-open".
Definition E3NoDiagnosis : ReasonCode := "E3.no-recorded-diagnosis".
Definition E4NeverEligible : ReasonCode := "E4.class-never-eligible".
Definition E4NotEnabled : ReasonCode := "E4.class-not-enabled".
Definition E5NoTargets : ReasonCode := "E5.no-target-jobs".
Definition E5Unjudgeable : ReasonCode := "E5.target-not-judgeable".
Definition E6Unread : ReasonCode := "E6.unread".
Definition E6NoCitedFiles : ReasonCode := "E6.no-cited-files".
Definition E6OutsideEnvelope : ReasonCode := "E6.outside-envelope".
Definition E7Unread : ReasonCode := "E7.unread".
Definition E7HeadMoved : ReasonCode := "E7.head-not-newest-failing".
Definition E8Unread : ReasonCode := "E8.unread".
Definition E8Drifted : ReasonCode := "E8.cause-drifted".
Definition E9Unread : ReasonCode := "E9.unread".
Definition E9FixTerminal : ReasonCode := "E9.fix-terminal".
Definition E9FixInFlight : ReasonCode := "E9.fix-in-flight".
Definition E9ClosedUnmerged : ReasonCode := "E9.closed-unmerged".
Definition E9OpenCauseMR : ReasonCode := "E9.cause-mr-open".
Definition E10Unread : ReasonCode := "E10.unread".
Definition E10OpenFixMR : ReasonCode := "E10.open-fix-mr-on-target".
Definition E11ChainExhausted : ReasonCode := "E11.chain-exhausted".
Definition E12CorrelationHold : ReasonCode := "E12.correlation-hold".

Record Reason := mkReason {
  Code : ReasonCode;
  Note : bool;
  NeedsHuman : bool;
  NeedsScope : bool;
  Unknown : bool;
}.
Definition Reason_zero : Reason := mkReason "" false false false false.

Definition silent (code : ReasonCode) : bool * Reason := (false, mkReason code false false false false).
Definition noted (code : ReasonCode) : bool * Reason := (false, mkReason code true false false false).
Definition unread (code : ReasonCode) : bool * Reason := (false, mkReason code false false false true).
Definition needs_scope (code : ReasonCode) : bool * Reason := (false, mkReason code true true true false).

Definition Eligible (f : EligibleFacts) : bool * Reason :=
  let c := ef_Config f in let r := ef_Run f in let sc := ef_Scope f in let h := ef_Head f in
  let cu := ef_Current f in let d := ef_Dedup f in let se := ef_Serial f in
  if negb (Loaded c) then unread E1Unread
  else if negb (PipelineFixes c) then silent E1FixesOff
  else if negb (Pipelines c) then silent E1PipelinesOff
  else if negb (rf_Read r) then unread E2Unread
  else if negb (contains (cf_Targets c) (TargetKind r)) then silent E2TargetKind
  else if negb (String.eqb (NoteState r) RunStateDiagnosed) then silent E3NoteState
  else if negb (Open r) then silent E3RunClosed
  else if String.eqb (rf_Class r) "" then silent E3NoDiagnosis
  else if negb (contains FixableClasses (rf_Class r)) then noted E4NeverEligible
  else if negb (contains (cf_Classes c) (rf_Class r)) then noted E4NotEnabled
  else if (length (rf_Targets r) =? 0)%nat then noted E5NoTargets
  else if (0 <? length (TargetProblems r))%nat then noted E5Unjudgeable
  else if negb (Folded sc) then unread E6Unread
  else if existsb (λ x, String.eqb (ct_Class x) "") (Cited sc) then unread E6Unread
  else if (length (Cited sc) =? 0)%nat then needs_scope E6NoCitedFiles
  else if existsb (λ x, negb (contains (Envelope sc) (ct_Class x))) (Cited sc) then needs_scope E6OutsideEnvelope
  else if negb (hf_Read h) || String.eqb (TargetSHA h) "" || String.eqb (NewestFailingSHA h) "" then unread E7Unread
  else if negb (String.eqb (TargetSHA h) (NewestFailingSHA h)) then silent E7HeadMoved
  else if negb (cu_Read cu) then unread E8Unread
  else if existsb (λ t, negb (bool_decide (t_Key t ∈ FailedKeys cu))) (rf_Targets r) then noted E8Drifted
  else if negb (dd_Read d) || (negb (String.eqb (dd_FixState d) "") && negb (KnownState (dd_FixState d)))
  then unread E9Unread
  else if negb (String.eqb (dd_FixState d) "") && Terminal (dd_FixState d) then silent E9FixTerminal
  else if negb (String.eqb (dd_FixState d) "") then silent E9FixInFlight
  else if negb (ClosedUnmergedCauseMRs d =? 0) then noted E9ClosedUnmerged
  else if negb (OpenCauseMRs d =? 0) then silent E9OpenCauseMR
  else if negb (sf_Read se) then unread E10Unread
  else if negb (OpenFixMRs se =? 0) then silent E10OpenFixMR
  else if MaxChain c <=? MergedSinceGreen se then (false, mkReason E11ChainExhausted true true false false)
  else if CorrelationHold f then noted E12CorrelationHold
  else (true, Reason_zero).

(** ** Who pays for a climb *)

Lemma Classify_climbs g :
  Classify g = OutcomeGateFailed → sg_Aborted g = false ∧ ReservationExpired g = false ∧
    ArtifactUnknown g = false ∧ SpendStale g = false ∧ sg_ArtifactPresent g = false ∧ 0 < ModelTokens g.
Proof. destruct g as [[] [] [] [] [] n]; unfold Classify; cbn; try done. by destruct (Z.leb_spec n 0). Qed.

Definition unreported : list FixState :=
  [StateProposing; StateAwaitingRun; StateVerifying; StateDenied; StateConfirmed; StateRecurred].

Lemma MeterOutcome_unreported s tokens : s ∈ unreported → MeterOutcome s tokens = ("", false).
Proof.
  unfold unreported. rewrite !elem_of_cons, elem_of_nil. intros Hs. by repeat destruct Hs as [->|Hs].
Qed.

(** The verdicts one by one. *)
Lemma VerdictOutcome_known v tokens :
  v ∈ Verdicts → VerdictOutcome v tokens =
    (if bool_decide (v = VerdictForged ∨ v = VerdictNotFixed)
     then if tokens <=? 0 then OutcomeInfraFailed else OutcomeGateFailed else OutcomeSuccess, true).
Proof.
  unfold Verdicts. rewrite !elem_of_cons, elem_of_nil. intros Hv.
  repeat destruct Hv as [->|Hv]; done.
Qed.

Lemma VerdictOutcome_unknown v tokens : v ∉ Verdicts → VerdictOutcome v tokens = ("", false).
Proof.
  unfold Verdicts, VerdictOutcome, StateFor. rewrite !not_elem_of_cons. intros (H1 & H2 & H3 & H4 & H5 & H6 & H7 & _).
  by rewrite !(proj2 (String.eqb_neq _ _)) by done.
Qed.

(** Only a judged failure that was paid for climbs the ladder. Of a verdict's
    reported outcomes, the one that escalates is reported exactly for a forged
    or a failed fix whose session consumed tokens; with no tokens the same
    verdict is an infrastructure failure; every other verdict is a success; a
    state that is still in flight, was refused or was reported before is not
    reported again; and an outage is never turned into a climb. *)
Theorem VerdictOutcome_climbs (v : Verdict) (tokens : Z) :
  (VerdictOutcome v tokens = (OutcomeGateFailed, true) ↔
     (v = VerdictForged ∨ v = VerdictNotFixed) ∧ 0 < tokens) ∧
  (VerdictOutcome v tokens = (OutcomeInfraFailed, true) ↔
     (v = VerdictForged ∨ v = VerdictNotFixed) ∧ tokens <= 0) ∧
  (VerdictOutcome v tokens = (OutcomeSuccess, true) ↔
     v ∈ Verdicts ∧ v ≠ VerdictForged ∧ v ≠ VerdictNotFixed) ∧
  ((VerdictOutcome v tokens).2 = false ↔ v ∉ Verdicts) ∧
  (∀ s, s ∈ unreported →
     MeterOutcome s tokens = ("", false)) ∧
  (∀ g, Classify g = OutcomeGateFailed → sg_Aborted g = false ∧ ReservationExpired g = false ∧
     ArtifactUnknown g = false ∧ SpendStale g = false ∧ sg_ArtifactPresent g = false ∧ 0 < ModelTokens g).
Proof.
  assert (Hk : v = VerdictForged ∨ v = VerdictNotFixed → v ∈ Verdicts)
    by (intros [-> | ->]; apply contains_elem; reflexivity).
  destruct (decide (v ∈ Verdicts)) as [Hv|Hv].
  - rewrite (VerdictOutcome_known v tokens Hv). case_bool_decide as Hf; destruct (Z.leb_spec tokens 0);
      (split_and!; [naive_solver lia|naive_solver lia|naive_solver|naive_solver|
                    by intros; apply MeterOutcome_unreported|apply Classify_climbs]).
  - rewrite (VerdictOutcome_unknown v tokens Hv).
    split_and!; [naive_solver|naive_solver|naive_solver|done| |apply Classify_climbs].
    by intros; apply MeterOutcome_unreported.
Qed.

(** ** The target set *)

Section target.
Context (jobs : list RecordedJob).

Definition recorded_as (name : string) : list RecordedJob := List.filter (λ j, String.eqb (rj_Name j) name) jobs.

(** A job a fix can be judged on. *)
Definition judgeable (name : string) (j : RecordedJob) : Prop :=
  recorded_as name = [j] ∧ rj_AllowFailure j = false ∧ FactsRecorded j = true.
Definition target_of (j : RecordedJob) : Target :=
  mkTarget (key_of j) (rj_Generic j || String.eqb (rj_ErrorSignature j) "").
(** A name that is no problem. *)
Definition settled_name (name : string) : Prop :=
  ∃ j, recorded_as name = [j] ∧ (rj_AllowFailure j = true ∨ FactsRecorded j = true).

Record target_inv (done : list string) (acc : gset string * (list Target * list target_problem)) : Prop := {
  ti_seen : ∀ name, name ∈ acc.1 ↔ name ∈ done;
  ti_targets : ∀ t, t ∈ acc.2.1 ↔ ∃ name j, name ∈ done ∧ judgeable name j ∧ t = target_of j;
  ti_problems : acc.2.2 = [] ↔ ∀ name, name ∈ done → settled_name name;
  ti_NoDup : NoDup (t_Name <$> acc.2.1);
}.

Lemma recorded_name name j : j ∈ recorded_as name → rj_Name j = name.
Proof. intros [_ H]%list_elem_of_In%List.filter_In. by apply String.eqb_eq. Qed.

Lemma target_name name j : judgeable name j → t_Name (target_of j) = name.
Proof. intros (E & _). apply recorded_name. rewrite E. by left. Qed.

(** A name that adds a problem or is allowed to fail, and one that adds a
    target. *)
Lemma target_inv_step done acc name :
  target_inv done acc → target_inv (done ++ [name]) (target_step jobs acc name).
Proof.
  destruct acc as [seen [ts ps]]. intros [Hs Ht Hp Hn]. cbn [fst snd] in *. unfold target_step.
  case_decide as Hin.
  { apply Hs in Hin. split; cbn [fst snd]; [|
      intros t; rewrite Ht; setoid_rewrite elem_of_app; setoid_rewrite list_elem_of_singleton; naive_solver|
      rewrite Hp; setoid_rewrite elem_of_app; setoid_rewrite list_elem_of_singleton; naive_solver|done].
    intros n. rewrite Hs, elem_of_app, list_elem_of_singleton. naive_solver. }
  assert (Hseen : ∀ n, n ∈ ({[name]} ∪ seen : gset string) ↔ n ∈ done ++ [name]).
  { intros n. rewrite elem_of_union, elem_of_singleton, Hs, elem_of_app, list_elem_of_singleton. tauto. }
  rewrite Hs in Hin. fold (recorded_as name).
  assert (Hskip : ∀ ps', (ps' = [] ↔ ps = [] ∧ settled_name name) → (∀ j, ¬ judgeable name j) →
    target_inv (done ++ [name]) ({[name]} ∪ seen, (ts, ps'))).
  { intros ps' Hps Hno. split; cbn [fst snd]; [done| | |done].
    - intros t. rewrite Ht. setoid_rewrite elem_of_app. setoid_rewrite list_elem_of_singleton. naive_solver.
    - rewrite Hps, Hp. setoid_rewrite elem_of_app. setoid_rewrite list_elem_of_singleton. naive_solver. }
  destruct (recorded_as name) as [|j [|j' l]] eqn:E.
  - apply Hskip; [|intros j (E' & _); congruence]. split; [by intros [? ?]%app_nil|intros (_ & j & E' & _); congruence].
  - destruct (rj_AllowFailure j) eqn:Ea.
    { apply Hskip; [|intros j' (E' & Ea' & _); congruence]. split; [intros ->; split; [done|exists j; tauto]|tauto]. }
    destruct (FactsRecorded j) eqn:Ef; cbn [negb].
    2: { apply Hskip; [|intros j' (E' & _ & Ef'); congruence].
         split; [by intros [? ?]%app_nil|intros (_ & j' & E' & [?|?]); congruence]. }
    fold (target_of j). assert (Hj : judgeable name j) by done. split; cbn [fst snd]; [done| | |].
    + intros t. rewrite elem_of_app, list_elem_of_singleton, Ht. setoid_rewrite elem_of_app.
      setoid_rewrite list_elem_of_singleton. split; [naive_solver|]. intros (n & j' & [Hd| ->] & Hj' & ->); [left; eauto|].
      right. destruct Hj' as (E' & _). congruence.
    + rewrite Hp. setoid_rewrite elem_of_app. setoid_rewrite list_elem_of_singleton. split; [|naive_solver].
      intros Hall n [Hd| ->]; [auto|exists j; tauto].
    + rewrite fmap_app. apply NoDup_app. split_and!; [done| |apply NoDup_singleton].
      intros n (t & -> & Htt)%list_elem_of_fmap Hx. apply Ht in Htt as (n' & j' & Hd & Hj' & ->).
      apply list_elem_of_fmap in Hx as (t' & Et & Ht'). apply list_elem_of_singleton in Ht' as ->.
      fold (target_of j) in Et. rewrite (target_name _ _ Hj'), (target_name _ _ Hj) in Et. by subst.
  - apply Hskip; [|intros x (E' & _); congruence]. split; [by intros [? ?]%app_nil|intros (_ & x & E' & _); congruence].
Qed.
End target.

(** The jobs a fix is judged on. The target set is exactly the cited jobs
    that are recorded once, were not allowed to fail and have their failure
    facts, each once, with the recorded key; there is no problem exactly when
    every cited job is recorded once and was allowed to fail or has its facts,
    so nothing cited is dropped in silence. *)
Theorem TargetSet_exact (jobs : list RecordedJob) (evidence : list string) :
  let '(ts, ps) := TargetSet jobs evidence in
  NoDup (t_Name <$> ts) ∧
  (∀ t, t ∈ ts ↔ ∃ name j, name ∈ evidence ∧ judgeable jobs name j ∧ t = target_of j) ∧
  (ps = [] ↔ ∀ name, name ∈ evidence → settled_name jobs name).
Proof.
  assert (Hi : target_inv jobs evidence (fold_left (target_step jobs) evidence (∅, ([], [])))).
  { induction evidence as [|name l IH] using rev_ind.
    - split; cbn [fst snd fold_left fmap list_fmap]; [set_solver| | |constructor].
      + intros t. split; [intros H; by apply not_elem_of_nil in H|].
        intros (? & ? & H & _). by apply not_elem_of_nil in H.
      + split; [intros _ n H; by apply not_elem_of_nil in H|done].
    - rewrite fold_left_app. by apply target_inv_step. }
  unfold TargetSet. destruct Hi as [_ Ht Hp Hn]. by destruct (fold_left _ _ _) as [seen [ts ps]].
Qed.

Lemma TargetSet_exact_demo :
  let job := mkRecordedJob "unit" "test" "script_failure" "es1-0" false false true in
  (TargetSet [job] ["unit"; "unit"; "lint"]).1 = [mkTarget (key_of job) false] ∧
  (TargetSet [job] ["unit"; "unit"; "lint"]).2 = [CitesNoJob "lint"].
Proof. split; vm_compute; reflexivity. Qed.

(** ** Dispatch *)

(** Every row of the predicate. *)
Record dispatchable (f : EligibleFacts) : Prop := {
  di_config : Loaded (ef_Config f) = true ∧ PipelineFixes (ef_Config f) = true ∧ Pipelines (ef_Config f) = true;
  di_kind : rf_Read (ef_Run f) = true ∧ TargetKind (ef_Run f) ∈ cf_Targets (ef_Config f);
  di_run : NoteState (ef_Run f) = RunStateDiagnosed ∧ Open (ef_Run f) = true;
  di_class : rf_Class (ef_Run f) ∈ FixableClasses ∧ rf_Class (ef_Run f) ∈ cf_Classes (ef_Config f);
  di_targets : rf_Targets (ef_Run f) ≠ [] ∧ TargetProblems (ef_Run f) = [];
  di_scope : Folded (ef_Scope f) = true ∧ Cited (ef_Scope f) ≠ [] ∧
    ∀ x, x ∈ Cited (ef_Scope f) → ct_Class x ≠ "" ∧ ct_Class x ∈ Envelope (ef_Scope f);
  di_head : hf_Read (ef_Head f) = true ∧ TargetSHA (ef_Head f) ≠ "" ∧
    TargetSHA (ef_Head f) = NewestFailingSHA (ef_Head f);
  di_current : cu_Read (ef_Current f) = true ∧
    ∀ t, t ∈ rf_Targets (ef_Run f) → t_Key t ∈ FailedKeys (ef_Current f);
  di_dedup : dd_Read (ef_Dedup f) = true ∧ dd_FixState (ef_Dedup f) = "" ∧
    ClosedUnmergedCauseMRs (ef_Dedup f) = 0 ∧ OpenCauseMRs (ef_Dedup f) = 0;
  di_serial : sf_Read (ef_Serial f) = true ∧ OpenFixMRs (ef_Serial f) = 0 ∧
    MergedSinceGreen (ef_Serial f) < MaxChain (ef_Config f);
  di_hold : CorrelationHold f = false;
}.

(** A refusal in front of the rest of the ladder. *)
Lemma row_and (b : bool) (refusal rest : bool * Reason) :
  refusal.1 = false → (if b then refusal else rest).1 = negb b && rest.1.
Proof. by destruct b. Qed.

(** The flags of a refusal, and its row. *)
Definition well_refused (r : Reason) : Prop :=
  Code r ≠ "" ∧ (Unknown r = true → Note r = false ∧ NeedsHuman r = false) ∧
  (NeedsHuman r = true → Note r = true) ∧
  (NeedsScope r = true ↔ Code r = E6NoCitedFiles ∨ Code r = E6OutsideEnvelope).

Lemma Eligible_shape f :
  (Eligible f).2 = Reason_zero ∧ (Eligible f).1 = true ∨ well_refused (Eligible f).2 ∧ (Eligible f).1 = false.
Proof.
  assert (Hs : ∀ (b : bool) (x y : bool * Reason), well_refused x.2 ∧ x.1 = false →
    (y.2 = Reason_zero ∧ y.1 = true ∨ well_refused y.2 ∧ y.1 = false) →
    ((if b then x else y).2 = Reason_zero ∧ (if b then x else y).1 = true ∨
     well_refused (if b then x else y).2 ∧ (if b then x else y).1 = false)) by (intros []; tauto).
  unfold Eligible. cbv zeta.
  do 29 (apply Hs; [split; [split_and!; [discriminate|done|done|
    split; [cbn; intros; first [discriminate | by left | by right] | intros [H|H]; first [discriminate H | reflexivity]]]
    |reflexivity]|]).
  by left.
Qed.

Lemma negb_contains l s : negb (contains l s) = false ↔ s ∈ l.
Proof. rewrite negb_false_iff. apply contains_elem. Qed.

Lemma existsb_none {A} (g : A → bool) l : existsb g l = false ↔ ∀ x, x ∈ l → g x = false.
Proof.
  rewrite <- not_true_iff_false, existsb_elem. split; [intros H x Hx|by intros H (x & Hx & ?%not_false_iff_true); auto].
  apply not_true_iff_false. intros Hg. apply H. eauto.
Qed.

Lemma Eligible_rows f : (Eligible f).1 = true ↔ dispatchable f.
Proof.
  unfold Eligible. cbv zeta. rewrite !row_and by reflexivity. cbn [fst].
  rewrite !andb_true_iff, !negb_true_iff, !negb_false_iff, !orb_false_iff, !existsb_none, !contains_elem, !length_nonzero.
  setoid_rewrite negb_false_iff. setoid_rewrite String.eqb_neq. setoid_rewrite contains_elem.
  setoid_rewrite bool_decide_eq_true. rewrite !String.eqb_eq, !Z.eqb_eq, Z.leb_gt.
  assert (Hz : (0 <? length (TargetProblems (ef_Run f)))%nat = false ↔ TargetProblems (ef_Run f) = [])
    by (by destruct (TargetProblems (ef_Run f))).
  rewrite Hz. split.
  - intros (A1 & A2 & A3 & A4 & A5 & A6 & A7 & A8 & A9 & B1 & B2 & B3 & B4 & B5 & B6 & B7 & ((C1 & C2) & C3) &
      C4 & C5 & C6 & (C7 & _) & _ & C8 & C9 & D1 & D2 & D3 & D4 & D5 & _).
    split; try done; try tauto. split_and!; [done|done|]. intros x Hx. auto.
  - intros [(A1 & A2 & A3) (A4 & A5) (A6 & A7) (A8 & A9) (B1 & B2) (B3 & B4 & B5) (C1 & C2 & C3) (C4 & C5)
      (C6 & C7 & C8 & C9) (D1 & D2 & D3) D4].
    rewrite C7. split_and!; try done.
    + intros E. rewrite E in A8. unfold FixableClasses in A8. by apply contains_elem in A8.
    + intros x Hx. by apply B5.
    + intros x Hx. by apply B5.
    + by rewrite <- C3.
Qed.

(** A fix is dispatched exactly when every row holds: both actions on, the
    target kind enabled, an open diagnosed run of one of the three fixable
    classes that the configuration also lists, a target set without problems,
    every cited file classified and inside the envelope, the target's head the
    commit of the newest failing pipeline and known, every diagnosed failure
    still failing the same way, no record and no merge request of the cause, no
    other fix open on the target, the chain not used up and no hold. A yes
    carries no reason; a no names a row, is not noted when its facts were not
    read, and asks for scope exactly for files outside the envelope. *)
Theorem Eligible_exact (f : EligibleFacts) :
  ((Eligible f).1 = true ↔ dispatchable f) ∧
  ((Eligible f).1 = true → (Eligible f).2 = Reason_zero) ∧
  ((Eligible f).1 = false → well_refused (Eligible f).2).
Proof.
  split; [apply Eligible_rows|]. destruct (Eligible_shape f) as [[H1 H2]|[H1 H2]]; rewrite H2; by split.
Qed.
