(* ===== verification/CiDelta.v ===== *)
(** * [pkg/cidef]: the delta between two CI definitions

    The types of [delta.go] and the key lists of [keys.go]: what a comparison
    reports, and what the judges of fixes and of changes read of it. The
    comparison itself is in [CiCompare]. *)

From S2P Require Import Prelude.
From S2P Require Import GoStrings.

(** ** Kinds, rules, sides and classes *)

Abbreviation Kind := string (only parsing).
Definition KindNone : Kind := "none".
Definition KindPreserving : Kind := "preserving".
Definition KindExecChanging : Kind := "exec-changing".
Definition KindViolation : Kind := "violation".
Definition KindUnresolvable : Kind := "unresolvable".

Definition RuleD1 : string := "D1".
Definition RuleD2 : string := "D2".
Definition RuleD3 : string := "D3".

Abbreviation Side := string (only parsing).
Definition SideBase : Side := "base".
Definition SideHead : Side := "head".
Definition SideBoth : Side := "both".

Abbreviation KeyClass := string (only parsing).
Definition ClassExistence : KeyClass := "existence".
Definition ClassGating : KeyClass := "gating".
Definition ClassExec : KeyClass := "exec".
Definition ClassFree : KeyClass := "free".
Definition ClassUnclassified : KeyClass := "unclassified".

(** ** Keys ([keys.go]) *)

Definition KeyStage : string := "stage".
Definition GatingJobKeys : list string :=
  ["rules"; "only"; "except"; "when"; "allow_failure"; "retry"; "start_in"; "trigger"; "parallel"].
Definition GatingGlobalKeys : list string := ["workflow"; "stages"; "default.retry"].
Definition ExecJobKeys : list string :=
  ["script"; "before_script"; "after_script"; "image"; "services"; "variables"; "hooks"; "id_tokens"; "secrets";
   "inherit"].
Definition ExecGlobalKeys : list string := ["variables"].
Definition FreeJobKeys : list string :=
  ["needs"; "dependencies"; "artifacts"; "cache"; "tags"; "timeout"; "interruptible"; "coverage"; "environment";
   "resource_group"].
Definition keyExtends : string := "extends".

Definition GlobalWorkflow : string := "workflow".
Definition GlobalStages : string := "stages".
Definition GlobalDefaultRetry : string := "default.retry".
Definition GlobalVariables : string := "variables".

Definition DefaultStages : list string := ["build"; "test"; "deploy"].
Definition StagePre : string := ".pre".
Definition StagePost : string := ".post".
Definition ImplicitStages : list string := [StagePre; StagePost].
Definition DefaultStage : string := "test".

Definition class_keys (m : gmap string KeyClass) (c : KeyClass) (ks : list string) : gmap string KeyClass :=
  fold_left (λ m k, <[k := c]> m) ks m.
Definition jobKeyClass : gmap string KeyClass :=
  class_keys (class_keys (class_keys {[ KeyStage := ClassExistence ]} ClassGating GatingJobKeys)
                ClassExec ExecJobKeys) ClassFree FreeJobKeys.

(** [Classify]. *)
Definition ClassifyKey (jobKey : string) : KeyClass :=
  match jobKeyClass !! jobKey with Some c => c | None => ClassUnclassified end.

(** ** The delta ([delta.go]) *)

Record Violation := mkViolation { vi_Rule : string; vi_Job : string; vi_Key : string; vi_Detail : string }.
Record Unresolvable := mkUnresolvable { un_Side : Side; un_Job : string; un_Key : string; un_Reason : string }.

Record KeyChange := mkKeyChange { kc_Key : string; kc_Class : KeyClass; BasePresent : bool; HeadPresent : bool }.
Record JobDelta := mkJobDelta { jd_Job : string; Diagnosed : bool; Changes : list KeyChange }.
Record GlobalChange := mkGlobalChange { gc_Key : string; gc_Class : KeyClass; Appended : list string }.
Record Rename := mkRename { From_ : string; To_ : string }.

Record Delta := mkDelta {
  dl_Kind : Kind;
  dl_Jobs : list JobDelta;
  Removed : list string;
  Added : list string;
  Renamed : list Rename;
  Globals : list GlobalChange;
  dl_Violations : list Violation;
  dl_Unresolvable : list Unresolvable;
}.
Definition Delta_none : Delta := mkDelta KindNone [] [] [] [] [] [] [].

(** A kind somebody computed ([knownKind] of both judges): the zero value of a
    delta has none. *)
Definition knownKind (k : Kind) : bool :=
  contains [KindNone; KindPreserving; KindExecChanging; KindViolation; KindUnresolvable] k.

(** ** Keys have one class *)

Lemma class_keys_lookup m c ks k :
  class_keys m c ks !! k = if decide (k ∈ ks) then Some c else m !! k.
Proof.
  unfold class_keys. revert m. induction ks as [|x ks IH]; intros m; cbn [fold_left].
  - by rewrite decide_False by (by intros ?%elem_of_nil).
  - rewrite IH. destruct (decide (k ∈ ks)) as [Hk|Hk]; [by rewrite decide_True by (by right)|].
    destruct (decide (k = x)) as [->|Hne].
    + rewrite lookup_insert_eq, decide_True by (by left). done.
    + rewrite lookup_insert_ne, decide_False by (done || (by rewrite elem_of_cons; intros [?|?])). done.
Qed.

(** The class of a key is the group of the table that lists it, and a key no
    group lists has none. *)
Lemma ClassifyKey_spec k :
  (ClassifyKey k = ClassExistence ↔ k = KeyStage) ∧
  (ClassifyKey k = ClassGating ↔ k ∈ GatingJobKeys) ∧
  (ClassifyKey k = ClassExec ↔ k ∈ ExecJobKeys) ∧
  (ClassifyKey k = ClassFree ↔ k ∈ FreeJobKeys) ∧
  (ClassifyKey k = ClassUnclassified ↔ k ∉ KeyStage :: GatingJobKeys ++ ExecJobKeys ++ FreeJobKeys).
Proof.
  assert (ClassifyKey k =
    if decide (k ∈ FreeJobKeys) then ClassFree else if decide (k ∈ ExecJobKeys) then ClassExec
    else if decide (k ∈ GatingJobKeys) then ClassGating
    else if decide (k = KeyStage) then ClassExistence else ClassUnclassified) as ->.
  { unfold ClassifyKey, jobKeyClass. rewrite !class_keys_lookup.
    repeat (case_decide; [done|]). destruct (decide (k = KeyStage)) as [->|Hne]; [by rewrite lookup_singleton_eq|].
    by rewrite lookup_singleton_ne. }
  assert (∀ x, x ∈ FreeJobKeys → (x ∉ ExecJobKeys) ∧ (x ∉ GatingJobKeys) ∧ x ≠ KeyStage) as H1.
  { apply Forall_forall. by apply (bool_decide_unpack _). }
  assert (∀ x, x ∈ ExecJobKeys → (x ∉ GatingJobKeys) ∧ x ≠ KeyStage) as H2.
  { apply Forall_forall. by apply (bool_decide_unpack _). }
  assert (∀ x, x ∈ GatingJobKeys → x ≠ KeyStage) as H3.
  { apply Forall_forall. by apply (bool_decide_unpack _). }
  specialize (H1 k). specialize (H2 k). specialize (H3 k).
  rewrite elem_of_cons, !elem_of_app.
  destruct (decide (k ∈ FreeJobKeys)); [repeat split; try done; intuition|].
  destruct (decide (k ∈ ExecJobKeys)); [repeat split; try done; intuition|].
  destruct (decide (k ∈ GatingJobKeys)); [repeat split; try done; intuition|].
  destruct (decide (k = KeyStage)); repeat split; try done; intuition.
Qed.
