(* ===== verification/PipefixJudge.v ===== *)
(** * [pkg/pipefix]: the exit check and the confirmation

    [Judge] (judge.go) decides what became of a fix from recorded facts and
    facts read from the merge request; [Confirm] (confirm.go) decides from one
    pipeline of the target after the merge. The rows are the code's, in its
    order; sentences for logs and notes are left out, and a missing fact is a
    value of [Fact] instead of its sentence. What a log's first error line is
    and how it is hashed (pkg/pipelinectx: excerpts, canonical error lines,
    SHA-256) is a parameter, [ErrorText]. *)

From S2P Require Import Prelude.
From S2P Require Import GoTime.
From S2P Require Import GoStrings.
From S2P Require Import Pipefix.
From S2P Require Import CiDelta.

(** ** What is read *)

Class ErrorText := {
  ErrorSignature : string → string;
  GenericErrorLine : string → bool;
  (** [ExcerptWith(data, {HeadTruncated}).FirstError]. *)
  FirstError : string → bool → string;
}.

Definition SignatureVersion : Z := 1.
Definition ExcerptVersion : Z := 2.

Definition GenericFirstError `{ErrorText} (line : string) : bool :=
  String.eqb (ErrorSignature line) "" || GenericErrorLine line.

Definition TerminalForHealth (status : string) : bool :=
  String.eqb status "success" || String.eqb status "failed".

Record BaseJob := mkBaseJob { bj_Name : string; bj_Status : string; bj_AllowFailure : bool }.

Record FixFacts := mkFixFacts {
  Recorded : bool;
  Targets : list Target;
  BasePipelineID : Z;
  BaseJobs : list BaseJob;
  FixBaseSHA : string;
  FixCommitSHA : string;
  MRIID : Z;
  fx_ExcerptVersion : Z;
  fx_SignatureVersion : Z;
  Lift : list string;
  CIExecChanges : string;
  VerifyDeadline : Time;
}.

Definition LiftCI := "ci".
Definition CIExecDeny := "deny".
Definition CIExecManualRun := "manual-run".
Definition CIExecAuto := "auto".

Record MRFacts := mkMRFacts { mr_Read : bool; mr_IID : Z; mr_State : string; mr_SHA : string }.
Definition MRStateOpened := "opened".
Definition MRStateClosed := "closed".
Definition MRStateMerged := "merged".

Record Trace := mkTrace { tr_Read : bool; tr_FirstError : string }.
Definition Trace_zero : Trace := mkTrace false "".

Record Attempt := mkAttempt {
  at_ID : Z;
  at_Name : string;
  at_Stage : string;
  at_Status : string;
  at_FailureReason : string;
  at_AllowFailure : bool;
  at_Trace : Trace;
}.
Definition Attempt_zero : Attempt := mkAttempt 0 "" "" "" "" false Trace_zero.

Record Pipeline := mkPipeline {
  pl_ID : Z;
  pl_SHA : string;
  pl_Source : string;
  pl_Ref : string;
  pl_Status : string;
  JobsRead : bool;
  IncludeRetried : bool;
  pl_Jobs : list Attempt;
}.

Record PipelineFacts := mkPipelineFacts { pf_Read : bool; pf_Pipelines : list Pipeline }.

Definition SourceParentPipeline := "parent_pipeline".
Definition SourceMergeRequestEvent := "merge_request_event".
Definition StatusSuccess := "success".
Definition StatusFailed := "failed".
Definition StatusCanceled := "canceled".
Definition StatusSkipped := "skipped".

Record LogRead := mkLogRead { Data : string; HeadTruncated : bool; TailTruncated : bool }.

Definition newline : Ascii.ascii := Ascii.ascii_of_nat 10.

Definition FailedTrace `{ErrorText} (l : LogRead) : Trace :=
  if TailTruncated l then Trace_zero
  else if HeadTruncated l && (0 <? len (Data l)) && all_bytes (λ c, negb (Ascii.eqb c newline)) (Data l)
  then Trace_zero
  else mkTrace true (FirstError (Data l) (HeadTruncated l)).

Record DefinitionFacts := mkDefinitionFacts { df_Read : bool; df_Delta : Delta }.

Record JudgeFacts := mkJudgeFacts {
  jf_Fix : FixFacts;
  jf_MR : MRFacts;
  jf_Pipelines : PipelineFacts;
  jf_Definition : DefinitionFacts;
}.

(** ** Answers *)

Abbreviation JDecision := string (only parsing).
Definition DecisionVerdict : JDecision := "verdict".
Definition DecisionWait : JDecision := "wait".
Definition DecisionCannotJudge : JDecision := "cannot-judge".
Definition DecisionStopped : JDecision := "stopped".

Abbreviation Rule := string (only parsing).
Definition RuleFacts : Rule := "J0.FACTS".
Definition RuleJ0Closed : Rule := "J0.CLOSED".
Definition RuleJ0Merged : Rule := "J0.MERGED".
Definition RuleJ0TakenOver : Rule := "J0.TAKEN_OVER".
Definition RuleJ1Wait : Rule := "J1.WAIT".
Definition RuleJ1Timeout : Rule := "J1.TIMEOUT".
Definition RuleJ1Unread : Rule := "J1.UNREAD".
Definition RuleJ1MergedResult : Rule := "J1.MERGED_RESULT".
Definition RuleJ2Violation : Rule := "J2.VIOLATION".
Definition RuleJ2HeadUnresolvable : Rule := "J2.HEAD_UNRESOLVABLE".
Definition RuleJ2Unlifted : Rule := "J2.UNLIFTED".
Definition RuleJ2ExecDenied : Rule := "J2.EXEC_DENIED".
Definition RuleJ2Unresolvable : Rule := "J2.UNRESOLVABLE".
Definition RuleJ2Unread : Rule := "J2.UNREAD".
Definition RuleJ3Absent : Rule := "J3.NOT_OBSERVED(absent)".
Definition RuleJ3Weakened : Rule := "J3.WEAKENED".
Definition RuleJ3Unknown : Rule := "J3.UNKNOWN".
Definition RuleJ3FlakySame : Rule := "J3.FLAKY(recurs-and-passes)".
Definition RuleJ3Recurs : Rule := "J3.RECURS".
Definition RuleJ3FlakyChanged : Rule := "J3.FLAKY(fails-and-passes)".
Definition RuleJ3Changed : Rule := "J3.CHANGED".
Definition RuleJ3Passed : Rule := "J3.PASSED".
Definition RuleJ3Status : Rule := "J3.NOT_OBSERVED(status)".
Definition RuleJ3Unread : Rule := "J3.NOT_OBSERVED(unread)".
Definition RuleJ3Versions : Rule := "J3.NOT_OBSERVED(versions)".
Definition RuleJ4Regressed : Rule := "J4.REGRESSED".
Definition RuleJ4RegressedAllowed : Rule := "J4.REGRESSED(allowed-to-fail)".
Definition RuleJ4Remaining : Rule := "J4.REMAINING".
Definition RuleJ4Revealed : Rule := "J4.REVEALED".
Definition RuleJ5NotSuccess : Rule := "J5.PIPELINE_NOT_SUCCESS".
Definition RuleJ5Fixed : Rule := "J5.FIXED".

Record JobFinding := mkJobFinding {
  fj_Job : string;
  fj_Rule : Rule;
  fj_Attempts : Z;
  fj_Failed : Z;
  fj_Succeeded : Z;
  fj_NewSignature : string;
}.

Record OtherFinding := mkOtherFinding {
  fo_Job : string;
  fo_Rule : Rule;
  fo_PipelineID : Z;
  fo_BaseStatus : string;
}.

(** What may be missing, for its sentence. *)
Inductive Fact :=
| NoTime | NoRecord | NoTargets | UnnamedTarget | TargetTwice (job : string)
| NoBasePipeline | NoBaseStatus (job : string) | BaseTwice (job : string)
| NotABaseJob (job : string) | DidNotFail (job : string) | WasAllowedToFail (job : string)
| NoBaseSHA | NoFixCommit | NoMergeRequest | NoExcerptVersion | NoSignatureVersion
| NoExecChanges (value : string) | NoDeadline
| MRUnread | WrongMR (read recorded : Z) | NoHeadSHA | UnknownMRState (state : string)
| PipelinesUnread | MalformedPipeline | DefinitionUnread
| JobsUnlisted (pipeline : Z) | RetriedMissing (pipeline : Z) | MalformedJob (pipeline : Z)
| TraceUnread (job : string).

Record Result := mkResult {
  r_Decision : JDecision;
  r_Verdict : Verdict;
  r_State : FixState;
  r_Rule : Rule;
  r_Missing : list Fact;
  r_Candidates : list Z;
  r_Skipped : list Z;
  r_MergedResult : list Z;
  r_Definition : Kind;
  r_Jobs : list JobFinding;
  r_Others : list OtherFinding;
}.
Definition Result_zero : Result := mkResult "" "" "" "" [] [] [] [] "" [] [].

(** The no-verdict answer. *)
Definition cannotJudge (rule : Rule) (missing : list Fact) (partial : Result) : Result :=
  mkResult DecisionCannotJudge "" "" rule missing (r_Candidates partial) (r_Skipped partial)
    (r_MergedResult partial) "" (r_Jobs partial) [].

Definition stopped (state : FixState) (rule : Rule) : Result :=
  mkResult DecisionStopped "" state rule [] [] [] [] "" [] [].

(** ** J0: the recorded facts and the merge request *)

Definition miss (bad : bool) (what : Fact) : list Fact := if bad then [what] else [].

Fixpoint missing_targets (names : gset string) (ts : list Target) : list Fact :=
  match ts with
  | [] => []
  | t :: ts => miss (String.eqb (t_Name t) "") UnnamedTarget ++
      miss (bool_decide (t_Name t ∈ names)) (TargetTwice (t_Name t)) ++
      missing_targets ({[t_Name t]} ∪ names) ts
  end.

Fixpoint missing_base (base : gmap string BaseJob) (bs : list BaseJob) : list Fact * gmap string BaseJob :=
  match bs with
  | [] => ([], base)
  | b :: bs =>
      let '(rest, final) := missing_base (<[bj_Name b := b]> base) bs in
      (miss (String.eqb (bj_Status b) "") (NoBaseStatus (bj_Name b)) ++
       miss (bool_decide (is_Some (base !! bj_Name b))) (BaseTwice (bj_Name b)) ++ rest, final)
  end.

Definition missing_base_target (base : gmap string BaseJob) (t : Target) : list Fact :=
  match base !! t_Name t with
  | None => [NotABaseJob (t_Name t)]
  | Some b => miss (negb (String.eqb (bj_Status b) StatusFailed)) (DidNotFail (t_Name t)) ++
      miss (bj_AllowFailure b) (WasAllowedToFail (t_Name t))
  end.

Definition missingFacts (f : JudgeFacts) (now : Time) : list Fact :=
  let fix_ := jf_Fix f in let mr := jf_MR f in
  miss (IsZero now) NoTime ++
  if negb (Recorded fix_) then [NoRecord] else
  miss (length (Targets fix_) =? 0)%nat NoTargets ++
  missing_targets ∅ (Targets fix_) ++
  miss (BasePipelineID fix_ =? 0) NoBasePipeline ++
  (let '(missing, base) := missing_base ∅ (BaseJobs fix_) in
   missing ++ flat_map (missing_base_target base) (Targets fix_)) ++
  miss (String.eqb (FixBaseSHA fix_) "") NoBaseSHA ++
  miss (String.eqb (FixCommitSHA fix_) "") NoFixCommit ++
  miss (MRIID fix_ =? 0) NoMergeRequest ++
  miss (fx_ExcerptVersion fix_ =? 0) NoExcerptVersion ++
  miss (fx_SignatureVersion fix_ =? 0) NoSignatureVersion ++
  miss (negb (contains [CIExecDeny; CIExecManualRun; CIExecAuto] (CIExecChanges fix_)))
    (NoExecChanges (CIExecChanges fix_)) ++
  miss (IsZero (VerifyDeadline fix_)) NoDeadline ++
  if negb (mr_Read mr) then [MRUnread] else
  miss (negb (mr_IID mr =? MRIID fix_)) (WrongMR (mr_IID mr) (MRIID fix_)) ++
  miss (String.eqb (mr_SHA mr) "") NoHeadSHA.

(** ** J1: the candidate pipelines *)

Definition activeJobStatuses : list string :=
  ["created"; "waiting_for_resource"; "preparing"; "pending"; "running"; "scheduled"].
Definition activeJobStatus (s : string) : bool := existsb (λ active, String.eqb s active) activeJobStatuses.

(** The active attempt of the lowest id. *)
Definition active_step (acc : option Attempt) (a : Attempt) : option Attempt :=
  if negb (activeJobStatus (at_Status a)) then acc
  else match acc with
       | None => Some a
       | Some first => if at_ID a <? at_ID first then Some a else acc
       end.
Definition activeAttempt (p : Pipeline) : option Attempt := fold_left active_step (pl_Jobs p) None.

Definition settledStatus (s : string) : bool :=
  String.eqb s StatusSuccess || String.eqb s StatusFailed || String.eqb s StatusCanceled ||
  String.eqb s StatusSkipped.

Definition skippedWithoutJobs (p : Pipeline) : bool :=
  String.eqb (pl_Status p) StatusSkipped && JobsRead p && IncludeRetried p && (length (pl_Jobs p) =? 0)%nat.

Definition mergedResultPipeline (p : Pipeline) (mrIID : Z) : bool :=
  if negb (String.eqb (pl_Source p) SourceMergeRequestEvent) || (mrIID <=? 0) then false
  else
    let base := "refs/merge-requests/" +:+ itoa mrIID +:+ "/" in
    String.eqb (pl_Ref p) (base +:+ "merge") || String.eqb (pl_Ref p) (base +:+ "train").

Definition malformed_pipeline (p : Pipeline) : bool :=
  (pl_ID p =? 0) || String.eqb (pl_SHA p) "" || String.eqb (pl_Source p) "".

(** [(candidates, Skipped, MergedResult)]. *)
Fixpoint selection (fix_ : FixFacts) (ps : list Pipeline)
    (acc : list Pipeline * list Z * list Z) : option (list Pipeline * list Z * list Z) :=
  match ps with
  | [] => Some acc
  | p :: ps =>
      let '(candidates, skipped, merged) := acc in
      if malformed_pipeline p then None
      else selection fix_ ps
        (if negb (String.eqb (pl_SHA p) (FixCommitSHA fix_)) then
           if mergedResultPipeline p (MRIID fix_) then (candidates, skipped, merged ++ [pl_ID p]) else acc
         else if String.eqb (pl_Source p) SourceParentPipeline then acc
         else if skippedWithoutJobs p then (candidates, skipped ++ [pl_ID p], merged)
         else (candidates ++ [p], skipped, merged))
  end.

(** What the steps establish on the way. *)
Record progress := mkProgress {
  pr_candidates : list Pipeline;
  pr_complete : bool;
  pr_unread : list Fact;
  pr_unverifiable : list Rule;
  pr_res : Result;
}.

(** A candidate that is not finished, whatever its status says. *)
Definition unsettled (c : Pipeline) : bool :=
  negb (settledStatus (pl_Status c)) || match activeAttempt c with Some _ => true | None => false end.

Definition settle `{SortSlice} (f : JudgeFacts) (past : bool) : Result + progress :=
  if negb (pf_Read (jf_Pipelines f)) then
    inr (mkProgress [] false [PipelinesUnread] [RuleJ1Unread] Result_zero)
  else
    match selection (jf_Fix f) (pf_Pipelines (jf_Pipelines f)) ([], [], []) with
    | None => inl (cannotJudge RuleFacts [MalformedPipeline] Result_zero)
    | Some (cs, skipped, merged) =>
        let candidates := sort_slice pl_ID cs in
        let skipped := sort_slice id skipped in
        let merged := sort_slice id merged in
        let settled := (0 <? length candidates)%nat && forallb (λ c, negb (unsettled c)) candidates in
        let res decision state rule :=
          mkResult decision "" state rule [] (map pl_ID candidates) skipped merged "" [] [] in
        if negb settled && negb past then inl (res DecisionWait StateVerifying RuleJ1Wait)
        else
          inr (mkProgress candidates true []
                 (if negb settled then
                    [if (length candidates =? 0)%nat && (0 <? length merged)%nat then RuleJ1MergedResult
                     else RuleJ1Timeout]
                  else [])
                 (res "" "" ""))
    end.

(** ** J2: the definition *)

(** [""] is a definition that holds. *)
Definition judgeDefinition (d : Delta) (fix_ : FixFacts) : Rule :=
  if String.eqb (dl_Kind d) KindViolation then RuleJ2Violation
  else if (0 <? length (dl_Violations d))%nat then RuleJ2Violation
  else if existsb (λ u, String.eqb (un_Side u) SideHead) (dl_Unresolvable d) then RuleJ2HeadUnresolvable
  else if String.eqb (dl_Kind d) KindUnresolvable then RuleJ2Unresolvable
  else if (0 <? length (dl_Unresolvable d))%nat then RuleJ2Unresolvable
  else if negb (String.eqb (dl_Kind d) KindNone) && negb (contains (Lift fix_) LiftCI) then RuleJ2Unlifted
  else if String.eqb (dl_Kind d) KindExecChanging && String.eqb (CIExecChanges fix_) CIExecDeny
  then RuleJ2ExecDenied
  else "".

Definition set_Definition (k : Kind) (r : Result) : Result :=
  mkResult (r_Decision r) (r_Verdict r) (r_State r) (r_Rule r) (r_Missing r) (r_Candidates r) (r_Skipped r)
    (r_MergedResult r) k (r_Jobs r) (r_Others r).

(** The progress, and what was found forged. *)
Definition judge_definition (f : JudgeFacts) (p : progress) : progress * list Rule :=
  let d := jf_Definition f in
  if negb (df_Read d) || negb (knownKind (dl_Kind (df_Delta d))) then
    (mkProgress (pr_candidates p) (pr_complete p) (pr_unread p ++ [DefinitionUnread])
       (pr_unverifiable p ++ [RuleJ2Unread]) (pr_res p), [])
  else
    let c := judgeDefinition (df_Delta d) (jf_Fix f) in
    if String.eqb c "" then
      (mkProgress (pr_candidates p) (pr_complete p) (pr_unread p) (pr_unverifiable p)
         (set_Definition (dl_Kind (df_Delta d)) (pr_res p)), [])
    else if String.eqb c RuleJ2Unresolvable then
      (mkProgress (pr_candidates p) (pr_complete p) (pr_unread p) (pr_unverifiable p ++ [c]) (pr_res p), [])
    else (p, [c]).

(** ** The attempts *)

Definition malformed_job (a : Attempt) : bool :=
  (at_ID a =? 0) || String.eqb (at_Name a) "" || String.eqb (at_Status a) "".

Fixpoint read_jobs (cs : list Pipeline) (p : progress) : Result + progress :=
  match cs with
  | [] => inr p
  | c :: cs =>
      let p := mkProgress (pr_candidates p) (pr_complete p && JobsRead c && IncludeRetried c)
                 (pr_unread p ++ miss (negb (JobsRead c)) (JobsUnlisted (pl_ID c)) ++
                  miss (negb (IncludeRetried c)) (RetriedMissing (pl_ID c)))
                 (pr_unverifiable p) (pr_res p) in
      if existsb malformed_job (pl_Jobs c) then inl (cannotJudge RuleFacts [MalformedJob (pl_ID c)] (pr_res p))
      else read_jobs cs p
  end.

(** ** J3: the diagnosed jobs *)

Record job_acc := mkJobAcc {
  ja_Failed : Z;
  ja_Succeeded : Z;
  ja_NewSignature : string;
  weakened : bool;
  same : bool;
  unknown : bool;
  incomparable : bool;
}.

Section judge_job.
Context `{ErrorText} (t : Target) (sameVersions : bool).

Definition attempt_key (a : Attempt) : JobFailureKey :=
  mkJobFailureKey (at_Stage a) (t_Name t) (at_FailureReason a) (ErrorSignature (tr_FirstError (at_Trace a))).

(** [(same, new signature)] of a failed attempt that can be compared. *)
Definition compare_failure (a : Attempt) (new : string) : bool * string :=
  let key := attempt_key a in
  if bool_decide (key = t_Key t) then (true, new)
  else if GenericFirstError (tr_FirstError (at_Trace a)) then (true, new)
  else if String.eqb new "" then (false, k_ErrorSignature key)
  else (false, new).

Definition attempt_step (x : job_acc) (a : Attempt) : job_acc :=
  let w := weakened x || at_AllowFailure a in
  let s := ja_Succeeded x + (if String.eqb (at_Status a) StatusSuccess then 1 else 0) in
  if negb (String.eqb (at_Status a) StatusFailed) then
    mkJobAcc (ja_Failed x) s (ja_NewSignature x) w (same x) (unknown x) (incomparable x)
  else
    let n := ja_Failed x + 1 in
    if t_Generic t then mkJobAcc n s (ja_NewSignature x) w true (unknown x) (incomparable x)
    else if negb sameVersions then mkJobAcc n s (ja_NewSignature x) w (same x) (unknown x) true
    else if negb (tr_Read (at_Trace a)) then mkJobAcc n s (ja_NewSignature x) w (same x) true (incomparable x)
    else
      let '(eq, new) := compare_failure a (ja_NewSignature x) in
      mkJobAcc n s new w (same x || eq) (unknown x) (incomparable x).

Definition jobRule (attempts : Z) (x : job_acc) (complete : bool) : Rule :=
  if weakened x then RuleJ3Weakened
  else if negb complete then RuleJ3Unread
  else if attempts =? 0 then RuleJ3Absent
  else if 0 <? ja_Failed x then
    if incomparable x then RuleJ3Versions
    else if unknown x then RuleJ3Unknown
    else if same x && (0 <? ja_Succeeded x) then RuleJ3FlakySame
    else if same x then RuleJ3Recurs
    else if 0 <? ja_Succeeded x then RuleJ3FlakyChanged
    else RuleJ3Changed
  else if ja_Succeeded x =? attempts then RuleJ3Passed
  else RuleJ3Status.

Definition judgeJob (attempts : list Attempt) (complete : bool) : JobFinding :=
  let x := fold_left attempt_step attempts (mkJobAcc 0 0 "" false false false false) in
  let n := Z.of_nat (length attempts) in
  let rule := jobRule n x complete in
  mkJobFinding (t_Name t) rule n (ja_Failed x) (ja_Succeeded x)
    (if String.eqb rule RuleJ3Changed || String.eqb rule RuleJ3FlakyChanged then ja_NewSignature x else "").
End judge_job.

Definition same_versions (signature excerpt : Z) : bool :=
  (signature =? SignatureVersion) && (excerpt =? ExcerptVersion).

(** The attempts of a job, in the pipelines' order. *)
Definition attempts_of (name : string) (cs : list Pipeline) : list Attempt :=
  flat_map (λ c, List.filter (λ a, String.eqb (at_Name a) name) (pl_Jobs c)) cs.

Definition judge_jobs `{ErrorText} (fix_ : FixFacts) (p : progress) : list JobFinding :=
  map (λ t, judgeJob t (same_versions (fx_SignatureVersion fix_) (fx_ExcerptVersion fix_))
              (attempts_of (t_Name t) (pr_candidates p)) (pr_complete p)) (Targets fix_).

Definition unread_traces (jobs : list JobFinding) : list Fact :=
  flat_map (λ j, miss (String.eqb (fj_Rule j) RuleJ3Unknown) (TraceUnread (fj_Job j))) jobs.

(** Past the deadline, what is still unknown was not observed. *)
Definition give_up_trace (j : JobFinding) : JobFinding :=
  if String.eqb (fj_Rule j) RuleJ3Unknown then
    mkJobFinding (fj_Job j) RuleJ3Unread (fj_Attempts j) (fj_Failed j) (fj_Succeeded j) (fj_NewSignature j)
  else j.

(** ** J4: every other job *)

(** Its latest attempt: the highest id, the first of equals. *)
Definition latest_step (inT : gset string) (latest : gmap string Attempt) (a : Attempt) : gmap string Attempt :=
  if bool_decide (at_Name a ∈ inT) then latest
  else match latest !! at_Name a with
       | Some l => if at_ID l <? at_ID a then <[at_Name a := a]> latest else latest
       | None => <[at_Name a := a]> latest
       end.

Record other_acc := mkOtherAcc {
  oa_failed : gmap string Z;
  oa_required : gmap string Z;
  oa_names : list string;
}.

Definition other_step (id : Z) (x : other_acc) (na : string * Attempt) : other_acc :=
  let '(name, a) := na in
  if negb (String.eqb (at_Status a) StatusFailed) then x
  else
    let x := if default 0 (oa_failed x !! name) =? 0
             then mkOtherAcc (<[name := id]> (oa_failed x)) (oa_required x) (oa_names x ++ [name]) else x in
    if negb (at_AllowFailure a) && (default 0 (oa_required x !! name) =? 0)
    then mkOtherAcc (oa_failed x) (<[name := id]> (oa_required x)) (oa_names x) else x.

Definition other_pipeline `{MapRange} (inT : gset string) (x : other_acc) (c : Pipeline) : other_acc :=
  fold_left (other_step (pl_ID c)) (range_map (fold_left (latest_step inT) (pl_Jobs c) ∅)) x.

Definition base_index (baseJobs : list BaseJob) : gmap string BaseJob :=
  fold_left (λ base b, <[bj_Name b := b]> base) baseJobs ∅.

Definition other_finding (base : gmap string BaseJob) (x : other_acc) (name : string) : OtherFinding :=
  let failed := default 0 (oa_failed x !! name) in
  let required := default 0 (oa_required x !! name) in
  match base !! name with
  | Some b =>
      if String.eqb (bj_Status b) StatusSuccess && negb (required =? 0)
      then mkOtherFinding name RuleJ4Regressed required (bj_Status b)
      else if String.eqb (bj_Status b) StatusSuccess
      then mkOtherFinding name RuleJ4RegressedAllowed failed (bj_Status b)
      else if String.eqb (bj_Status b) StatusFailed
      then mkOtherFinding name RuleJ4Remaining failed (bj_Status b)
      else mkOtherFinding name RuleJ4Revealed failed (bj_Status b)
  | None => mkOtherFinding name RuleJ4Revealed failed ""
  end.

Definition judgeOthers `{MapRange} (baseJobs : list BaseJob) (inT : gset string) (candidates : list Pipeline) :
    list OtherFinding :=
  let x := fold_left (other_pipeline inT) candidates (mkOtherAcc ∅ ∅ []) in
  map (other_finding (base_index baseJobs) x) (sort_strings (oa_names x)).

(** ** J5: the verdict *)

Definition firstJob (jobs : list JobFinding) (rules : list Rule) : option JobFinding :=
  List.find (λ j, contains rules (fj_Rule j)) jobs.
Definition firstJobNot (jobs : list JobFinding) (rules : list Rule) : option JobFinding :=
  List.find (λ j, negb (contains rules (fj_Rule j))) jobs.
Definition firstOther (others : list OtherFinding) (rules : list Rule) : option OtherFinding :=
  List.find (λ o, contains rules (fo_Rule o)) others.

(** First match: [(verdict, rule)]. *)
Definition verdict_of (forged unverifiable : list Rule) (jobs : list JobFinding) (others : list OtherFinding)
    (candidates : list Pipeline) : Verdict * Rule :=
  match forged with
  | rule :: _ => (VerdictForged, rule)
  | [] =>
  match firstJob jobs [RuleJ3Weakened] with
  | Some j => (VerdictForged, fj_Rule j)
  | None =>
  match firstJob jobs [RuleJ3Recurs] with
  | Some j => (VerdictNotFixed, fj_Rule j)
  | None =>
  match firstJob jobs [RuleJ3FlakySame; RuleJ3FlakyChanged] with
  | Some j => (VerdictFlaky, fj_Rule j)
  | None =>
  match unverifiable with
  | rule :: _ => (VerdictUnverifiable, rule)
  | [] =>
  match firstJobNot jobs [RuleJ3Passed; RuleJ3Changed] with
  | Some j => (VerdictUnverifiable, fj_Rule j)
  | None =>
  match firstOther others [RuleJ4Regressed] with
  | Some o => (VerdictRegressed, fo_Rule o)
  | None =>
  match firstJob jobs [RuleJ3Changed] with
  | Some j => (VerdictFixedNewFailure, fj_Rule j)
  | None =>
  match firstOther others [RuleJ4Remaining; RuleJ4Revealed; RuleJ4RegressedAllowed] with
  | Some o => (VerdictFixedNewFailure, fo_Rule o)
  | None =>
      if existsb (λ c, negb (String.eqb (pl_Status c) StatusSuccess)) candidates
      then (VerdictUnverifiable, RuleJ5NotSuccess)
      else (VerdictFixed, RuleJ5Fixed)
  end end end end end end end end end.

Definition set_Jobs (jobs : list JobFinding) (others : list OtherFinding) (r : Result) : Result :=
  mkResult (r_Decision r) (r_Verdict r) (r_State r) (r_Rule r) (r_Missing r) (r_Candidates r) (r_Skipped r)
    (r_MergedResult r) (r_Definition r) jobs others.

Definition decide_verdict (v : Verdict * Rule) (r : Result) : Result :=
  mkResult DecisionVerdict v.1 (StateFor v.1).1 v.2 (r_Missing r) (r_Candidates r) (r_Skipped r)
    (r_MergedResult r) (r_Definition r) (r_Jobs r) (r_Others r).

Definition targets_in (fix_ : FixFacts) : gset string := list_to_set (map t_Name (Targets fix_)).

(** From J3 on. *)
Definition judge_rest `{MapRange, ErrorText} (f : JudgeFacts) (past : bool) (forged : list Rule) (p : progress) :
    Result :=
  let jobs := judge_jobs (jf_Fix f) p in
  let traces := unread_traces jobs in
  let res := set_Jobs jobs [] (pr_res p) in
  if negb past && (0 <? length (pr_unread p))%nat then cannotJudge RuleFacts (pr_unread p ++ traces) res
  else if negb past && (0 <? length traces)%nat then cannotJudge RuleJ3Unknown traces res
  else
    let jobs := map give_up_trace jobs in
    let others := judgeOthers (BaseJobs (jf_Fix f)) (targets_in (jf_Fix f)) (pr_candidates p) in
    decide_verdict (verdict_of forged (pr_unverifiable p) jobs others (pr_candidates p))
      (set_Jobs jobs others (pr_res p)).

Definition Judge `{MapRange, SortSlice, ErrorText} (f : JudgeFacts) (now : Time) : Result :=
  let missing := missingFacts f now in
  if (0 <? length missing)%nat then cannotJudge RuleFacts missing Result_zero
  else if String.eqb (mr_State (jf_MR f)) MRStateMerged then stopped StateMerged RuleJ0Merged
  else if String.eqb (mr_State (jf_MR f)) MRStateClosed then stopped StateClosedUnmerged RuleJ0Closed
  else if negb (String.eqb (mr_State (jf_MR f)) MRStateOpened)
  then cannotJudge RuleFacts [UnknownMRState (mr_State (jf_MR f))] Result_zero
  else if negb (String.eqb (mr_SHA (jf_MR f)) (FixCommitSHA (jf_Fix f))) then stopped StateTakenOver RuleJ0TakenOver
  else
    let past := negb (Before now (VerifyDeadline (jf_Fix f))) in
    match settle f past with
    | inl r => r
    | inr p =>
        let '(p, forged) := judge_definition f p in
        match read_jobs (pr_candidates p) p with
        | inl r => r
        | inr p => judge_rest f past forged p
        end
    end.

(** ** Confirmation on the target (confirm.go) *)

Abbreviation Confirmation := string (only parsing).
Definition ConfirmConfirmed : Confirmation := "confirmed".
Definition ConfirmRecurred : Confirmation := "recurred".
Definition ConfirmNotObserved : Confirmation := "not-observed".
Definition ConfirmCannot : Confirmation := "cannot-confirm".

Record ConfirmFacts := mkConfirmFacts {
  cn_Targets : list Target;
  cn_ExcerptVersion : Z;
  cn_SignatureVersion : Z;
  cn_Pipeline : Pipeline;
}.

Record ConfirmResult := mkConfirmResult {
  cr_Confirmation : Confirmation;
  cr_State : FixState;
  cr_Jobs : list JobFinding;
}.

Definition Confirm `{ErrorText} (f : ConfirmFacts) : ConfirmResult :=
  let p := cn_Pipeline f in
  if (length (cn_Targets f) =? 0)%nat then mkConfirmResult ConfirmCannot "" []
  else if (pl_ID p =? 0) || negb (TerminalForHealth (pl_Status p)) then mkConfirmResult ConfirmCannot "" []
  else if negb (JobsRead p) || negb (IncludeRetried p) then mkConfirmResult ConfirmCannot "" []
  else if existsb malformed_job (pl_Jobs p) then mkConfirmResult ConfirmCannot "" []
  else
    let jobs := map (λ t, judgeJob t (same_versions (cn_SignatureVersion f) (cn_ExcerptVersion f))
                            (attempts_of (t_Name t) [p]) true) (cn_Targets f) in
    match firstJob jobs [RuleJ3Recurs; RuleJ3FlakySame] with
    | Some _ => mkConfirmResult ConfirmRecurred StateRecurred jobs
    | None =>
    match activeAttempt p with
    | Some _ => mkConfirmResult ConfirmCannot "" jobs
    | None =>
    match firstJob jobs [RuleJ3Unknown] with
    | Some _ => mkConfirmResult ConfirmCannot "" jobs
    | None =>
    match firstJobNot jobs [RuleJ3Passed; RuleJ3Changed; RuleJ3FlakyChanged] with
    | Some _ => mkConfirmResult ConfirmNotObserved "" jobs
    | None => mkConfirmResult ConfirmConfirmed StateConfirmed jobs
    end end end end.

(** ** What one job's attempts say *)

Section judge_job_facts.
Context `{ErrorText} (t : Target) (sameVersions : bool).

Definition succeeded (a : Attempt) : bool := String.eqb (at_Status a) StatusSuccess.
Definition failed (a : Attempt) : bool := String.eqb (at_Status a) StatusFailed.
(** Failed, and not comparable with what was recorded; or not read. *)
Definition not_comparable (a : Attempt) : bool := failed a && negb (t_Generic t) && negb sameVersions.
Definition not_read (a : Attempt) : bool :=
  failed a && negb (t_Generic t) && sameVersions && negb (tr_Read (at_Trace a)).
(** Failed the way it was diagnosed. *)
Definition recurs (a : Attempt) : bool :=
  failed a && (t_Generic t || sameVersions && tr_Read (at_Trace a) &&
    (bool_decide (attempt_key t a = t_Key t) || GenericFirstError (tr_FirstError (at_Trace a)))).

Lemma compare_failure_same a new :
  (compare_failure t a new).1 =
  bool_decide (attempt_key t a = t_Key t) || GenericFirstError (tr_FirstError (at_Trace a)).
Proof. unfold compare_failure. repeat case_match; done. Qed.

Definition count (P : Attempt → bool) (l : list Attempt) : Z := Z.of_nat (length (List.filter P l)).

Lemma count_cons P a l : count P (a :: l) = (if P a then 1 else 0) + count P l.
Proof. unfold count. cbn [List.filter]. destruct (P a); cbn [length]; lia. Qed.

Lemma count_app P l1 l2 : count P (l1 ++ l2) = count P l1 + count P l2.
Proof. unfold count. rewrite List.filter_app, length_app. lia. Qed.

Record acc_spec (x y : job_acc) (l : list Attempt) : Prop := {
  as_Failed : ja_Failed y = ja_Failed x + count failed l;
  as_Succeeded : ja_Succeeded y = ja_Succeeded x + count succeeded l;
  as_weakened : weakened y = weakened x || existsb at_AllowFailure l;
  as_same : same y = same x || existsb recurs l;
  as_unknown : unknown y = unknown x || existsb not_read l;
  as_incomparable : incomparable y = incomparable x || existsb not_comparable l;
}.

Lemma attempt_step_spec x a : acc_spec x (attempt_step t sameVersions x a) [a].
Proof.
  unfold attempt_step. pose proof (compare_failure_same a (ja_NewSignature x)) as Hc.
  destruct (compare_failure t a (ja_NewSignature x)) as [eq new]. cbn [fst] in Hc. subst eq.
  split; rewrite ?count_cons; cbn [existsb]; unfold recurs, not_read, not_comparable, failed, succeeded;
    destruct (String.eqb_spec (at_Status a) StatusFailed) as [->|Hn], (t_Generic t), sameVersions,
      (tr_Read (at_Trace a)); cbn -[GenericFirstError bool_decide count];
    rewrite ?orb_false_r, ?orb_true_r; try done; unfold count; cbn [length List.filter]; lia.
Qed.

Lemma acc_spec_app x y z l1 l2 : acc_spec x y l1 → acc_spec y z l2 → acc_spec x z (l1 ++ l2).
Proof.
  intros [F S W A U I] [F' S' W' A' U' I'].
  split; rewrite ?count_app, ?existsb_app, ?F', ?S', ?W', ?A', ?U', ?I', ?F, ?S, ?W, ?A, ?U, ?I, ?orb_assoc; first [reflexivity | lia].
Qed.

Lemma attempts_spec l x : acc_spec x (fold_left (attempt_step t sameVersions) l x) l.
Proof.
  revert x. induction l as [|a l IH]; intros x.
  { split; cbn; rewrite ?orb_false_r; unfold count; cbn; try done; lia. }
  exact (acc_spec_app _ _ _ [a] l (attempt_step_spec x a) (IH _)).
Qed.

Lemma count_positive P l : (0 <? count P l) = existsb P l.
Proof.
  induction l as [|a l IH]; [done|]. rewrite count_cons. cbn [existsb]. rewrite <- IH.
  assert (0 <= count P l) by (unfold count; lia). destruct (P a); cbn [orb]; [|done].
  apply Z.ltb_lt. lia.
Qed.

Lemma count_all P l : (count P l =? Z.of_nat (length l)) = forallb P l.
Proof.
  induction l as [|a l IH]; [done|]. rewrite count_cons. cbn [forallb length]. rewrite <- IH.
  pose proof (List.filter_length_le P l). unfold count. destruct (P a); cbn [andb].
  - rewrite Nat2Z.inj_succ, <- Z.add_1_l. apply eq_iff_eq_true. rewrite !Z.eqb_eq. lia.
  - apply Z.eqb_neq. lia.
Qed.

(** The finding of a job, by what its attempts are. *)
Lemma judgeJob_rule l complete :
  fj_Rule (judgeJob t sameVersions l complete) =
  if existsb at_AllowFailure l then RuleJ3Weakened
  else if negb complete then RuleJ3Unread
  else if (length l =? 0)%nat then RuleJ3Absent
  else if existsb failed l then
    if existsb not_comparable l then RuleJ3Versions
    else if existsb not_read l then RuleJ3Unknown
    else if existsb recurs l && existsb succeeded l then RuleJ3FlakySame
    else if existsb recurs l then RuleJ3Recurs
    else if existsb succeeded l then RuleJ3FlakyChanged
    else RuleJ3Changed
  else if forallb succeeded l then RuleJ3Passed
  else RuleJ3Status.
Proof.
  unfold judgeJob. cbn [fj_Rule].
  destruct (attempts_spec l (mkJobAcc 0 0 "" false false false false)) as [F S W A U I].
  unfold jobRule. rewrite F, S, W, A, U, I. cbn [ja_Failed ja_Succeeded weakened same unknown incomparable orb].
  rewrite !Z.add_0_l, !count_positive, count_all. by destruct l.
Qed.
End judge_job_facts.

(** ** The candidates *)

(** J1's candidate: a pipeline of the fix commit that is neither a child
    pipeline nor one that was skipped without a job. *)
Definition candidate (fix_ : FixFacts) (p : Pipeline) : bool :=
  String.eqb (pl_SHA p) (FixCommitSHA fix_) && negb (String.eqb (pl_Source p) SourceParentPipeline) &&
  negb (skippedWithoutJobs p).

Lemma selection_spec fix_ ps cs sk mr :
  (existsb malformed_pipeline ps = true ∧ selection fix_ ps (cs, sk, mr) = None) ∨
  (existsb malformed_pipeline ps = false ∧ ∃ sk' mr',
     selection fix_ ps (cs, sk, mr) = Some (cs ++ List.filter (candidate fix_) ps, sk', mr')).
Proof.
  revert cs sk mr. induction ps as [|p ps IH]; intros cs sk mr; [right; rewrite app_nil_r; eauto|].
  cbn [selection existsb List.filter]. destruct (malformed_pipeline p); [by left|cbn [orb]].
  change (candidate fix_ p) with (String.eqb (pl_SHA p) (FixCommitSHA fix_) &&
    negb (String.eqb (pl_Source p) SourceParentPipeline) && negb (skippedWithoutJobs p)).
  destruct (String.eqb (pl_SHA p) (FixCommitSHA fix_)); cbn [negb andb].
  - destruct (String.eqb (pl_Source p) SourceParentPipeline); cbn [negb andb]; [apply IH|].
    destruct (skippedWithoutJobs p); cbn [negb]; [apply IH|].
    destruct (IH (cs ++ [p]) sk mr) as [?|(? & sk' & mr' & ->)]; [by left|right].
    split; [done|]. exists sk', mr'. by rewrite <- app_assoc.
  - destruct (mergedResultPipeline p (MRIID fix_)); apply IH.
Qed.

Lemma activeAttempt_None p :
  activeAttempt p = None ↔ ∀ a, a ∈ pl_Jobs p → activeJobStatus (at_Status a) = false.
Proof.
  unfold activeAttempt.
  assert (∀ l o, fold_left active_step l o = None ↔
            o = None ∧ ∀ a, a ∈ l → activeJobStatus (at_Status a) = false) as H.
  { induction l as [|a l IH]; intros o; cbn [fold_left].
    { split; [intros ->; split; [done|intros a []%not_elem_of_nil]|by intros [-> _]]. }
    rewrite IH. setoid_rewrite elem_of_cons. unfold active_step.
    destruct (activeJobStatus (at_Status a)) eqn:Ea; cbn [negb].
    - split; [intros [Ho _]|intros [_ Hx]; specialize (Hx a (or_introl eq_refl)); congruence].
      destruct o; [by destruct (_ <? _)|done].
    - split; [intros [-> Hx]; split; [done|]; intros ? [->|?]; auto|]. intros [-> Hx]; auto. }
  rewrite H. tauto.
Qed.

Lemma active_not_success a : succeeded a = true → activeJobStatus (at_Status a) = false.
Proof. unfold succeeded. by intros ->%String.eqb_eq. Qed.

Section facts.
Context `{MapRange, SortSlice, ErrorText} (f : JudgeFacts).

Definition candidates_of : list Pipeline :=
  if pf_Read (jf_Pipelines f)
  then sort_slice pl_ID (List.filter (candidate (jf_Fix f)) (pf_Pipelines (jf_Pipelines f))) else [].

Lemma elem_of_candidates_of c :
  c ∈ candidates_of ↔ pf_Read (jf_Pipelines f) = true ∧ c ∈ pf_Pipelines (jf_Pipelines f) ∧
                      candidate (jf_Fix f) c = true.
Proof.
  unfold candidates_of. destruct (pf_Read _); [|rewrite elem_of_nil; naive_solver].
  rewrite sort_slice_perm, list_elem_of_In, List.filter_In, <- list_elem_of_In. naive_solver.
Qed.

Definition settled_of : bool :=
  (0 <? length candidates_of)%nat && forallb (λ c, negb (unsettled c)) candidates_of.

(** Every attempt of every candidate is known. *)
Definition complete_of : bool :=
  pf_Read (jf_Pipelines f) && forallb (λ c, JobsRead c && IncludeRetried c) candidates_of.

Definition definition_known : bool :=
  df_Read (jf_Definition f) && knownKind (dl_Kind (df_Delta (jf_Definition f))).
Definition definition_rule : Rule := judgeDefinition (df_Delta (jf_Definition f)) (jf_Fix f).

Definition unread_jobs (cs : list Pipeline) : list Fact :=
  flat_map (λ c, miss (negb (JobsRead c)) (JobsUnlisted (pl_ID c)) ++
                 miss (negb (IncludeRetried c)) (RetriedMissing (pl_ID c))) cs.

Definition unread_of : list Fact :=
  miss (negb (pf_Read (jf_Pipelines f))) PipelinesUnread ++ miss (negb definition_known) DefinitionUnread ++
  unread_jobs candidates_of.

(** J2's two kinds of finding. *)
Definition forged_of : list Rule :=
  if definition_known && negb (contains [""; RuleJ2Unresolvable] definition_rule) then [definition_rule] else [].
Definition definition_unverifiable : list Rule :=
  if definition_known then if String.eqb definition_rule RuleJ2Unresolvable then [definition_rule] else []
  else [RuleJ2Unread].

Definition jobs_of : list JobFinding :=
  map (λ t, judgeJob t (same_versions (fx_SignatureVersion (jf_Fix f)) (fx_ExcerptVersion (jf_Fix f)))
              (attempts_of (t_Name t) candidates_of) complete_of) (Targets (jf_Fix f)).
Definition others_of : list OtherFinding :=
  judgeOthers (BaseJobs (jf_Fix f)) (targets_in (jf_Fix f)) candidates_of.

(** No object that was read is malformed. *)
Definition well_formed : bool :=
  negb (pf_Read (jf_Pipelines f) && existsb malformed_pipeline (pf_Pipelines (jf_Pipelines f))) &&
  negb (existsb (λ c, existsb malformed_job (pl_Jobs c)) candidates_of).

(** The merge request is still gonk's open fix, and everything recorded is
    there. *)
Definition judgeable_at (now : Time) : Prop :=
  missingFacts f now = [] ∧ mr_State (jf_MR f) = MRStateOpened ∧ mr_SHA (jf_MR f) = FixCommitSHA (jf_Fix f).

Lemma read_jobs_spec cs p :
  (existsb (λ c, existsb malformed_job (pl_Jobs c)) cs = true ∧
   ∃ m, read_jobs cs p = inl (cannotJudge RuleFacts m (pr_res p))) ∨
  (existsb (λ c, existsb malformed_job (pl_Jobs c)) cs = false ∧
   read_jobs cs p = inr (mkProgress (pr_candidates p)
     (pr_complete p && forallb (λ c, JobsRead c && IncludeRetried c) cs)
     (pr_unread p ++ unread_jobs cs) (pr_unverifiable p) (pr_res p))).
Proof.
  revert p. induction cs as [|c cs IH]; intros p.
  { right. cbn. rewrite andb_true_r, app_nil_r. by destruct p. }
  cbn [read_jobs existsb]. destruct (existsb malformed_job (pl_Jobs c)); [left; eauto|]. cbn [orb].
  destruct (IH (mkProgress (pr_candidates p) (pr_complete p && JobsRead c && IncludeRetried c)
                 (pr_unread p ++ miss (negb (JobsRead c)) (JobsUnlisted (pl_ID c)) ++
                  miss (negb (IncludeRetried c)) (RetriedMissing (pl_ID c)))
                 (pr_unverifiable p) (pr_res p))) as [[? [m ->]]|[? ->]]; [left; eauto|right].
  split; [done|]. unfold unread_jobs. cbn -[miss]. by rewrite <- !app_assoc, !andb_assoc.
Qed.

Definition past_at (now : Time) : bool := negb (Before now (VerifyDeadline (jf_Fix f))).

(** What J1 and J2 could not establish. *)
Definition settle_unverifiable (u : list Rule) : Prop :=
  u = [] ↔ pf_Read (jf_Pipelines f) = true ∧ settled_of = true.

(** J1, when no pipeline is malformed. *)
Lemma settle_spec past :
  pf_Read (jf_Pipelines f) && existsb malformed_pipeline (pf_Pipelines (jf_Pipelines f)) = false →
  (pf_Read (jf_Pipelines f) = true ∧ settled_of = false ∧ past = false ∧
   ∃ r, settle f past = inl r ∧ r_Decision r = DecisionWait ∧ r_State r = StateVerifying ∧ r_Verdict r = "") ∨
  ((pf_Read (jf_Pipelines f) = true → settled_of = true ∨ past = true) ∧
   ∃ u r, settle f past = inr (mkProgress candidates_of (pf_Read (jf_Pipelines f))
                               (miss (negb (pf_Read (jf_Pipelines f))) PipelinesUnread) u r) ∧
          settle_unverifiable u).
Proof.
  intros Hm. unfold settle, settle_unverifiable, settled_of, candidates_of.
  destruct (pf_Read (jf_Pipelines f)) eqn:Er; cbn [negb].
  2:{ right. split; [done|]. eexists _, _. split; [reflexivity|]. split; [done|by intros [? _]]. }
  destruct (selection_spec (jf_Fix f) (pf_Pipelines (jf_Pipelines f)) [] [] []) as
    [[Hx _]|[_ (sk & mr & ->)]]; [cbn [andb] in Hm; congruence|].
  cbn [app]. set (cs := sort_slice pl_ID _).
  destruct ((0 <? length cs)%nat && forallb (λ c, negb (unsettled c)) cs) eqn:Es; cbn [negb andb].
  - right. split; [by left|]. eexists _, _. split; [reflexivity|done].
  - destruct past; cbn [negb].
    + right. split; [by right|]. eexists _, _. split; [reflexivity|]. split; [done|by intros [_ ?]].
    + left. repeat (split; [done|]). eexists. split; [reflexivity|done].
Qed.

Lemma settle_malformed past r :
  pf_Read (jf_Pipelines f) && existsb malformed_pipeline (pf_Pipelines (jf_Pipelines f)) = true →
  settle f past = r → ∃ m, r = inl (cannotJudge RuleFacts m Result_zero).
Proof.
  intros [Er Hm]%andb_true_iff <-. unfold settle. rewrite Er. cbn [negb].
  destruct (selection_spec (jf_Fix f) (pf_Pipelines (jf_Pipelines f)) [] [] []) as [[_ ->]|[Hx _]];
    [eauto|congruence].
Qed.

(** J2. *)
Lemma judge_definition_spec p :
  ∃ r, judge_definition f p =
    (mkProgress (pr_candidates p) (pr_complete p) (pr_unread p ++ miss (negb definition_known) DefinitionUnread)
       (pr_unverifiable p ++ definition_unverifiable) r, forged_of).
Proof.
  destruct p. unfold judge_definition, definition_unverifiable, forged_of, definition_known, definition_rule.
  rewrite <- negb_andb.
  destruct (df_Read (jf_Definition f) && knownKind (dl_Kind (df_Delta (jf_Definition f)))); cbn [negb andb];
    [|eexists; reflexivity].
  set (c := judgeDefinition _ _). unfold contains. cbn [existsb].
  rewrite orb_false_r.
  destruct (String.eqb_spec c "") as [Hc|]; cbn [orb negb].
  { rewrite Hc. eexists. cbn. by rewrite !app_nil_r. }
  destruct (String.eqb c RuleJ2Unresolvable); cbn [negb]; eexists; rewrite ?app_nil_r; reflexivity.
Qed.

(** Everything up to J3, for facts that can be judged. *)
Lemma Judge_stage now :
  judgeable_at now → well_formed = true →
  (pf_Read (jf_Pipelines f) = true ∧ settled_of = false ∧ past_at now = false ∧
   r_Decision (Judge f now) = DecisionWait ∧ r_State (Judge f now) = StateVerifying ∧
   r_Verdict (Judge f now) = "") ∨
  ((pf_Read (jf_Pipelines f) = true → settled_of = true ∨ past_at now = true) ∧
   ∃ u r, Judge f now = judge_rest f (past_at now) forged_of
            (mkProgress candidates_of complete_of unread_of (u ++ definition_unverifiable) r) ∧
          settle_unverifiable u).
Proof.
  intros (Hm & Ho & Hs) [Hp%negb_true_iff Hj%negb_true_iff]%andb_true_iff.
  unfold Judge. rewrite Hm, Ho, Hs, String.eqb_refl. cbn [length Nat.ltb Nat.leb negb].
  change (String.eqb MRStateOpened MRStateMerged) with false.
  change (String.eqb MRStateOpened MRStateClosed) with false. rewrite String.eqb_refl. cbn [negb].
  fold (past_at now).
  destruct (settle_spec (past_at now) Hp) as [(? & ? & ? & r & -> & ?)|(Hx & u & r & -> & Hu)]; [left; tauto|right].
  split; [done|].
  destruct (judge_definition_spec (mkProgress candidates_of (pf_Read (jf_Pipelines f))
    (miss (negb (pf_Read (jf_Pipelines f))) PipelinesUnread) u r)) as [r' ->].
  cbn [pr_candidates].
  destruct (read_jobs_spec candidates_of (mkProgress candidates_of (pf_Read (jf_Pipelines f))
    (miss (negb (pf_Read (jf_Pipelines f))) PipelinesUnread ++ miss (negb definition_known) DefinitionUnread)
    (u ++ definition_unverifiable) r')) as [[Hb _]|[_ Hr]]; [congruence|].
  cbn [pr_candidates pr_complete pr_unread pr_unverifiable pr_res] in *. rewrite Hr.
  eexists u, r'. unfold unread_of, complete_of. by rewrite <- !app_assoc.
Qed.

(** Facts that cannot be judged give no verdict. *)
Lemma Judge_no_verdict now :
  ¬ (judgeable_at now ∧ well_formed = true) →
  r_Decision (Judge f now) ≠ DecisionVerdict ∧ r_Verdict (Judge f now) = "".
Proof.
  intros Hn. unfold Judge.
  destruct (missingFacts f now) as [|m ms] eqn:Em; [|done]. cbn [length Nat.ltb Nat.leb].
  destruct (String.eqb (mr_State (jf_MR f)) MRStateMerged); [done|].
  destruct (String.eqb (mr_State (jf_MR f)) MRStateClosed); [done|].
  destruct (String.eqb_spec (mr_State (jf_MR f)) MRStateOpened) as [Ho|]; [|done].
  destruct (String.eqb_spec (mr_SHA (jf_MR f)) (FixCommitSHA (jf_Fix f))) as [Hs|]; [|done]. cbn [negb].
  assert (well_formed = false) as Hw.
  { apply not_true_iff_false. intros ?. by apply Hn. }
  fold (past_at now). unfold well_formed in Hw.
  destruct (pf_Read (jf_Pipelines f) && existsb malformed_pipeline (pf_Pipelines (jf_Pipelines f))) eqn:Hp.
  { destruct (settle_malformed (past_at now) _ Hp eq_refl) as [m ->]. done. }
  cbn [negb andb] in Hw. apply negb_false_iff in Hw.
  destruct (settle_spec (past_at now) Hp) as [(_ & _ & _ & r & -> & -> & _ & ->)|(_ & u & r & -> & _)]; [done|].
  destruct (judge_definition_spec (mkProgress candidates_of (pf_Read (jf_Pipelines f))
    (miss (negb (pf_Read (jf_Pipelines f))) PipelinesUnread) u r)) as [r' ->].
  cbn [pr_candidates].
  match goal with |- context [read_jobs ?cs ?p] => destruct (read_jobs_spec cs p) as [[_ [m ->]]|[? _]] end;
    [done|congruence].
Qed.
End facts.

(** ** The other jobs *)

(** The latest attempt of a job in one pipeline: the highest id, and the first
    of that id. *)
Definition is_latest (jobs : list Attempt) (a : Attempt) : Prop :=
  ∃ l1 l2, jobs = l1 ++ a :: l2 ∧
    (∀ b, b ∈ l1 → at_Name b = at_Name a → at_ID b < at_ID a) ∧
    (∀ b, b ∈ l2 → at_Name b = at_Name a → at_ID b <= at_ID a).

Lemma is_latest_elem jobs a : is_latest jobs a → a ∈ jobs.
Proof. intros (l1 & l2 & -> & _). apply elem_of_app. right. by left. Qed.

Lemma is_latest_snoc l a b :
  is_latest l a → (at_Name b = at_Name a → at_ID b <= at_ID a) → is_latest (l ++ [b]) a.
Proof.
  intros (l1 & l2 & -> & H1 & H2) Hb. exists l1, (l2 ++ [b]). split; [by rewrite <- app_assoc|].
  split; [done|]. intros c [Hc| ->%list_elem_of_singleton]%elem_of_app; auto.
Qed.

Lemma is_latest_last l b : (∀ c, c ∈ l → at_Name c = at_Name b → at_ID c < at_ID b) → is_latest (l ++ [b]) b.
Proof. intros Hl. exists l, []. repeat split; [done|]. by intros c ?%not_elem_of_nil. Qed.

Lemma is_latest_max l a b : is_latest l a → b ∈ l → at_Name b = at_Name a → at_ID b <= at_ID a.
Proof.
  intros (l1 & l2 & -> & H1 & H2) [Hb|[->|Hb]%elem_of_cons]%elem_of_app Hn; [|lia|by auto].
  specialize (H1 b Hb Hn). lia.
Qed.

Lemma is_latest_unique l a b : is_latest l a → is_latest l b → at_Name a = at_Name b → a = b.
Proof.
  intros (l1 & l2 & E & H1 & H2) (l3 & l4 & E' & H3 & H4) Hn. rewrite E in E'.
  destruct (app_eq_app _ _ _ _ E') as (k & [[Ek El]|[Ek El]]); destruct k as [|c k]; cbn in El;
    rewrite ?app_nil_r in *; try congruence; injection El as Ec El; subst c; rewrite ?El in *.
  - exfalso. specialize (H1 b). specialize (H4 a). rewrite Ek in H1.
    assert (at_ID b < at_ID a) by (apply H1; [apply elem_of_app; right; by left|done]).
    assert (at_ID a <= at_ID b); [|lia]. apply H4; [apply elem_of_app; right; by left|done].
  - exfalso. specialize (H3 a). specialize (H2 b). rewrite Ek in H3.
    assert (at_ID a < at_ID b) by (apply H3; [apply elem_of_app; right; by left|done]).
    assert (at_ID b <= at_ID a); [|lia]. apply H2; [apply elem_of_app; right; by left|done].
Qed.

Section others.
Context `{MapRange} (inT : gset string).

Definition latest_map (jobs : list Attempt) : gmap string Attempt := fold_left (latest_step inT) jobs ∅.

Lemma latest_map_spec jobs n :
  match latest_map jobs !! n with
  | Some a => (n ∉ inT) ∧ at_Name a = n ∧ is_latest jobs a
  | None => n ∈ inT ∨ (∀ a, a ∈ jobs → at_Name a ≠ n)
  end.
Proof.
  unfold latest_map. induction jobs as [|b jobs IH] using rev_ind.
  { cbn. right. by intros a ?%not_elem_of_nil. }
  rewrite fold_left_app. cbn [fold_left]. set (m := fold_left _ jobs ∅) in *. unfold latest_step.
  case_bool_decide as Hb.
  - destruct (m !! n) as [a|].
    2:{ destruct IH as [?|IH]; [by left|]. destruct (decide (at_Name b = n)) as [<-|]; [by left|right].
        intros a [?| ->%list_elem_of_singleton]%elem_of_app; auto. }
    destruct IH as (? & <- & ?). split_and!; [done|done|]. apply is_latest_snoc; [done|congruence].
  - destruct (decide (at_Name b = n)) as [<-|Hn].
    + destruct (m !! at_Name b) as [a|] eqn:Em.
      * destruct IH as (? & Ha & Hl). destruct (Z.ltb_spec (at_ID a) (at_ID b)).
        -- rewrite lookup_insert_eq. split_and!; [done|done|]. apply is_latest_last. intros c Hc Hn.
           pose proof (is_latest_max _ _ c Hl Hc ltac:(congruence)). lia.
        -- rewrite Em. split_and!; [done|done|]. apply is_latest_snoc; [done|lia].
      * rewrite lookup_insert_eq. split_and!; [done|done|]. destruct IH as [?|IH]; [done|].
        apply is_latest_last. intros c Hc Hn. by destruct (IH c Hc).
    + assert (∀ m', m' = m ∨ m' = <[at_Name b := b]> m → m' !! n = m !! n) as Hlk.
      { intros m' [-> | ->]; [done|]. by rewrite lookup_insert_ne. }
      rewrite Hlk.
      2:{ destruct (m !! at_Name b) as [l|]; [destruct (at_ID l <? at_ID b)|]; auto. }
      destruct (m !! n) as [a|].
      * destruct IH as (? & <- & ?). split_and!; [done|done|]. by apply is_latest_snoc.
      * destruct IH as [?|IH]; [by left|right]. intros a [?| ->%list_elem_of_singleton]%elem_of_app; auto.
Qed.

Lemma latest_map_Some jobs n a :
  latest_map jobs !! n = Some a ↔ (n ∉ inT) ∧ at_Name a = n ∧ is_latest jobs a.
Proof.
  pose proof (latest_map_spec jobs n) as Hs. split; [by intros Hl; rewrite Hl in Hs|].
  intros (Hn & <- & Hl). destruct (latest_map jobs !! at_Name a) as [b|].
  - destruct Hs as (_ & Hb & Hl'). by rewrite (is_latest_unique _ _ _ Hl Hl').
  - destruct Hs as [?|Hs]; [done|]. by destruct (Hs a (is_latest_elem _ _ Hl)).
Qed.

(** What the walk has recorded of the pairs (pipeline, latest attempt) seen:
    the jobs with one that failed, and those with one that was not allowed
    to. *)
Definition seen_failed (done : list (Z * (string * Attempt))) (n : string) : Prop :=
  ∃ id a, (id, (n, a)) ∈ done ∧ failed a = true.
Definition seen_required (done : list (Z * (string * Attempt))) (n : string) : Prop :=
  ∃ id a, (id, (n, a)) ∈ done ∧ failed a = true ∧ at_AllowFailure a = false.

Record other_inv (done : list (Z * (string * Attempt))) (x : other_acc) : Prop := {
  oi_failed : ∀ n, default 0 (oa_failed x !! n) ≠ 0 ↔ seen_failed done n;
  oi_required : ∀ n, default 0 (oa_required x !! n) ≠ 0 ↔ seen_required done n;
  oi_names : ∀ n, n ∈ oa_names x ↔ seen_failed done n;
}.

Lemma default_insert (m : gmap string Z) k v n :
  default 0 (<[k := v]> m !! n) = if decide (k = n) then v else default 0 (m !! n).
Proof. rewrite lookup_insert. by case_decide. Qed.

Lemma seen_failed_snoc done id n a k :
  seen_failed (done ++ [(id, (n, a))]) k ↔ seen_failed done k ∨ (k = n ∧ failed a = true).
Proof.
  unfold seen_failed. setoid_rewrite elem_of_app. setoid_rewrite list_elem_of_singleton. naive_solver.
Qed.
Lemma seen_required_snoc done id n a k :
  seen_required (done ++ [(id, (n, a))]) k ↔
  seen_required done k ∨ (k = n ∧ failed a = true ∧ at_AllowFailure a = false).
Proof.
  unfold seen_required. setoid_rewrite elem_of_app. setoid_rewrite list_elem_of_singleton. naive_solver.
Qed.

Lemma other_step_inv done x id na :
  id ≠ 0 → other_inv done x → other_inv (done ++ [(id, na)]) (other_step id x na).
Proof.
  intros Hid [Hf Hr Hn]. destruct na as [n a]. unfold other_step.
  fold (failed a). destruct (failed a) eqn:Ea; cbn [negb].
  2:{ split; intros k; rewrite ?seen_failed_snoc, ?seen_required_snoc, ?Hf, ?Hr, ?Hn, Ea; intuition discriminate. }
  set (x' := if default 0 (oa_failed x !! n) =? 0 then _ else x).
  assert (oa_required x' = oa_required x ∧ (∀ k, default 0 (oa_failed x' !! k) ≠ 0 ↔ seen_failed done k ∨ k = n) ∧
          (∀ k, k ∈ oa_names x' ↔ seen_failed done k ∨ k = n)) as (Er & Hf' & Hn').
  { subst x'. destruct (Z.eqb_spec (default 0 (oa_failed x !! n)) 0) as [E|E]; cbn [oa_required oa_failed oa_names].
    - split; [done|]. split; intros k.
      + rewrite default_insert, <- Hf. case_decide as Hk; [subst k; tauto|]. naive_solver.
      + rewrite elem_of_app, list_elem_of_singleton, Hn. done.
    - apply Hf in E as E'. split; [done|]. split; intros k; [rewrite Hf|rewrite Hn]; naive_solver. }
  rewrite Er.
  destruct (negb (at_AllowFailure a) && (default 0 (oa_required x !! n) =? 0)) eqn:Ec.
  - apply andb_true_iff in Ec as [Eal%negb_true_iff Ez%Z.eqb_eq].
    split; intros k; cbn [oa_failed oa_required oa_names]; rewrite ?seen_failed_snoc, ?seen_required_snoc.
    + rewrite Hf'. naive_solver.
    + rewrite default_insert, <- Hr. case_decide as Hk; [subst k; tauto|]. naive_solver.
    + rewrite Hn'. naive_solver.
  - apply andb_false_iff in Ec. rewrite negb_false_iff, Z.eqb_neq in Ec.
    split; intros k; rewrite ?seen_failed_snoc, ?seen_required_snoc.
    + rewrite Hf'. naive_solver.
    + rewrite Er, Hr. destruct Ec as [Ec|Ec%Hr]; naive_solver congruence.
    + rewrite Hn'. naive_solver.
Qed.

Lemma other_fold_inv id l done x :
  id ≠ 0 → other_inv done x → other_inv (done ++ map (pair id) l) (fold_left (other_step id) l x).
Proof.
  intros Hid. revert done x. induction l as [|na l IH]; intros done x Hi; [by rewrite app_nil_r|].
  cbn [fold_left map]. rewrite cons_middle, app_assoc. by apply IH, other_step_inv.
Qed.

Definition seen_in (cs : list Pipeline) : list (Z * (string * Attempt)) :=
  flat_map (λ c, map (pair (pl_ID c)) (range_map (latest_map (pl_Jobs c)))) cs.

Lemma other_walk cs done x :
  (∀ c, c ∈ cs → pl_ID c ≠ 0) → other_inv done x →
  other_inv (done ++ seen_in cs) (fold_left (other_pipeline inT) cs x).
Proof.
  revert done x. induction cs as [|c cs IH]; intros done x Hc Hi; [by rewrite app_nil_r|].
  unfold seen_in. cbn [flat_map fold_left]. rewrite app_assoc. apply IH; [set_solver|].
  unfold other_pipeline. apply other_fold_inv; [apply Hc; by left|done].
Qed.

Lemma elem_of_seen_in cs id n a :
  (id, (n, a)) ∈ seen_in cs ↔ ∃ c, c ∈ cs ∧ pl_ID c = id ∧ (n ∉ inT) ∧ at_Name a = n ∧ is_latest (pl_Jobs c) a.
Proof.
  unfold seen_in. rewrite list_elem_of_In, in_flat_map. setoid_rewrite in_map_iff.
  setoid_rewrite <- list_elem_of_In. setoid_rewrite <- latest_map_Some. setoid_rewrite <- elem_of_range_map.
  naive_solver.
Qed.
End others.

(** No other job's latest attempt failed. *)
Definition others_clean (inT : gset string) (cs : list Pipeline) : Prop :=
  ∀ c a, c ∈ cs → is_latest (pl_Jobs c) a → at_Name a ∉ inT → failed a = false.

Lemma judgeOthers_nil `{MapRange} baseJobs inT cs :
  (∀ c, c ∈ cs → pl_ID c ≠ 0) → (judgeOthers baseJobs inT cs = [] ↔ others_clean inT cs).
Proof.
  intros Hid. unfold judgeOthers, others_clean.
  assert (other_inv [] (mkOtherAcc ∅ ∅ [])) as Hi.
  { split; intros n; cbn; rewrite ?lookup_empty; unfold seen_failed, seen_required; setoid_rewrite elem_of_nil;
      naive_solver. }
  destruct (other_walk inT cs [] _ Hid Hi) as [_ _ Hn]. cbn [app] in Hn.
  set (x := fold_left _ cs _) in *.
  transitivity (oa_names x = []).
  { split; [intros Hm%map_eq_nil|by intros ->].
    apply Permutation_nil. rewrite <- Hm. apply merge_sort_Permutation. }
  split.
  - intros Hx c a Hc Hl Ht. apply not_true_iff_false. intros Ha.
    assert (at_Name a ∈ oa_names x) as Hin; [|rewrite Hx in Hin; by apply elem_of_nil in Hin].
    apply Hn. exists (pl_ID c), a. split; [|done]. apply elem_of_seen_in. eauto 10.
  - intros Hc. destruct (oa_names x) as [|n l] eqn:E; [done|].
    destruct (proj1 (Hn n) ltac:(by left)) as (id & a & (c & ? & <- & ? & <- & ?)%elem_of_seen_in & Ha).
    by rewrite (Hc c a) in Ha.
Qed.

(** ** The ladder of verdicts *)

Definition other_rules : list Rule := [RuleJ4Regressed; RuleJ4Remaining; RuleJ4Revealed; RuleJ4RegressedAllowed].

Lemma judgeOthers_rules `{MapRange} baseJobs inT cs o :
  o ∈ judgeOthers baseJobs inT cs → fo_Rule o ∈ other_rules.
Proof.
  unfold judgeOthers. intros (n & <- & _)%list_elem_of_In%in_map_iff. apply contains_elem.
  unfold other_finding. repeat case_match; done.
Qed.

Lemma verdict_of_fixed forged u jobs others cs :
  (∀ o, o ∈ others → fo_Rule o ∈ other_rules) →
  ((verdict_of forged u jobs others cs).1 = VerdictFixed ↔
   forged = [] ∧ u = [] ∧ (∀ j, j ∈ jobs → fj_Rule j = RuleJ3Passed) ∧ others = [] ∧
   ∀ c, c ∈ cs → pl_Status c = StatusSuccess).
Proof.
  intros Ho. unfold verdict_of, firstJob, firstJobNot, firstOther. split.
  - destruct forged as [|? ?]; [|done].
    do 3 (match goal with |- context [match List.find ?P jobs with _ => _ end] =>
            destruct (List.find P jobs) as [?|]; [discriminate|] end).
    destruct u as [|? ?]; [|discriminate].
    destruct (List.find _ jobs) as [?|] eqn:Hp; [discriminate|].
    destruct (List.find _ others) as [?|] eqn:Hreg; [discriminate|].
    destruct (List.find _ jobs) as [?|] eqn:Hch in |- *; [discriminate|].
    destruct (List.find _ others) as [?|] eqn:Hrest in |- *; [discriminate|].
    destruct (existsb _ cs) eqn:Hst; [discriminate|]. intros _. rewrite find_none in Hp, Hch; rewrite find_none in Hreg, Hrest.
    split_and!; [done|done| | |].
    + intros j Hj. specialize (Hp j Hj). specialize (Hch j Hj). apply negb_false_iff, contains_elem in Hp.
      apply contains_false in Hch. set_solver.
    + destruct others as [|o others]; [done|exfalso]. specialize (Ho o ltac:(by left)).
      specialize (Hreg o ltac:(by left)). specialize (Hrest o ltac:(by left)).
      apply contains_false in Hreg, Hrest. unfold other_rules in Ho. set_solver.
    + intros c Hc. destruct (String.eqb_spec (pl_Status c) StatusSuccess) as [|Hn]; [done|].
      rewrite (proj2 (existsb_elem _ cs)) in Hst; [done|]. exists c. split; [done|].
      by rewrite (proj2 (String.eqb_neq _ _) Hn).
  - intros (-> & -> & Hj & -> & Hs).
    assert (∀ rules, RuleJ3Passed ∉ rules → List.find (λ j, contains rules (fj_Rule j)) jobs = None) as Hf.
    { intros rules Hr. apply find_none. intros j Hin. rewrite (Hj j Hin). by apply contains_false. }
    rewrite !Hf by (apply contains_false; reflexivity). cbn [List.find].
    rewrite (proj2 (find_none _ jobs)) by (intros j Hin; rewrite (Hj j Hin); reflexivity).
    destruct (existsb _ cs) eqn:E; [|done]. apply existsb_elem in E as (c & Hc & E).
    by rewrite (Hs c Hc) in E.
Qed.

Lemma verdict_of_forged forged u jobs others cs :
  (verdict_of forged u jobs others cs).1 = VerdictForged ↔
  forged ≠ [] ∨ ∃ j, j ∈ jobs ∧ fj_Rule j = RuleJ3Weakened.
Proof.
  unfold verdict_of. destruct forged as [|? ?]; [|naive_solver].
  destruct (firstJob jobs [RuleJ3Weakened]) as [j|] eqn:E; unfold firstJob in E.
  - apply List.find_some in E as [Hin He]. split; [intros _; right|done]. exists j.
    rewrite list_elem_of_In. split; [done|]. apply contains_elem in He. set_solver.
  - rewrite find_none in E. split.
    + repeat case_match; done.
    + intros [?|(j & Hin & Hr)]; [done|]. specialize (E j Hin). by rewrite Hr in E.
Qed.

(** A job passes when it ran, every attempt is known, and none of them did
    anything but succeed. *)
Lemma judgeJob_passed `{ErrorText} t sv l complete :
  fj_Rule (judgeJob t sv l complete) = RuleJ3Passed ↔
  l ≠ [] ∧ complete = true ∧ ∀ a, a ∈ l → succeeded a = true ∧ at_AllowFailure a = false.
Proof.
  rewrite judgeJob_rule. split.
  - destruct (existsb at_AllowFailure l) eqn:Ew; [done|]. destruct complete; [|done].
    destruct l as [|b l]; [done|]. cbn [negb length Nat.eqb]. destruct (existsb failed (b :: l)); [by repeat case_match|].
    destruct (forallb succeeded (b :: l)) eqn:Es; [|done]. intros _. split_and!; [done|done|].
    intros a Ha. split; [by apply (proj1 (forallb_elem _ _) Es)|]. apply not_true_iff_false. intros Hw.
    apply not_true_iff_false in Ew. apply Ew, existsb_elem. eauto.
  - intros (Hn & -> & Ha).
    assert (∀ P, (∀ a, a ∈ l → P a = false) → existsb P l = false) as Hf.
    { intros P HP. apply not_true_iff_false. intros (a & Hin & Hp)%existsb_elem. by rewrite HP in Hp. }
    rewrite (Hf at_AllowFailure) by (intros a Hin; apply Ha, Hin).
    rewrite (Hf failed).
    2:{ intros a Hin. destruct (Ha a Hin) as [Hs%String.eqb_eq _]. unfold failed. by rewrite Hs. }
    rewrite (proj2 (forallb_elem succeeded l)) by (intros a Hin; apply Ha, Hin). by destruct l.
Qed.

Lemma judgeJob_weakened `{ErrorText} t sv l complete :
  fj_Rule (judgeJob t sv l complete) = RuleJ3Weakened ↔ ∃ a, a ∈ l ∧ at_AllowFailure a = true.
Proof.
  rewrite judgeJob_rule, <- existsb_elem. destruct (existsb at_AllowFailure l); [done|].
  by repeat case_match.
Qed.

Lemma give_up_rule j r : r ≠ RuleJ3Unknown → r ≠ RuleJ3Unread → fj_Rule (give_up_trace j) = r ↔ fj_Rule j = r.
Proof.
  unfold give_up_trace. destruct (String.eqb_spec (fj_Rule j) RuleJ3Unknown) as [->|]; cbn [fj_Rule]; [|done].
  split; congruence.
Qed.

Lemma elem_of_attempts_of name cs a :
  a ∈ attempts_of name cs ↔ ∃ c, c ∈ cs ∧ a ∈ pl_Jobs c ∧ at_Name a = name.
Proof.
  unfold attempts_of. rewrite list_elem_of_In, in_flat_map. setoid_rewrite List.filter_In.
  setoid_rewrite <- list_elem_of_In. setoid_rewrite String.eqb_eq. done.
Qed.

(** ** The exit check *)

Section judge.
Context `{MapRange, SortSlice, ErrorText} (f : JudgeFacts).

Lemma miss_nil b x : miss b x = [] ↔ b = false.
Proof. by destruct b. Qed.

Lemma unread_jobs_nil cs : unread_jobs cs = [] ↔ forallb (λ c, JobsRead c && IncludeRetried c) cs = true.
Proof.
  induction cs as [|c cs IH]; [done|]. unfold unread_jobs in *. cbn [flat_map forallb].
  rewrite andb_true_iff, <- IH. destruct (JobsRead c), (IncludeRetried c); naive_solver.
Qed.

Lemma unread_of_nil :
  unread_of f = [] ↔ pf_Read (jf_Pipelines f) = true ∧ definition_known f = true ∧ complete_of f = true.
Proof.
  unfold unread_of, complete_of. rewrite !app_nil, !miss_nil, !negb_false_iff, unread_jobs_nil, andb_true_iff.
  naive_solver.
Qed.

Lemma unread_traces_nil jobs : unread_traces jobs = [] ↔ ∀ j, j ∈ jobs → fj_Rule j ≠ RuleJ3Unknown.
Proof.
  unfold unread_traces. induction jobs as [|j jobs IH]; cbn [flat_map].
  { split; [by intros _ j ?%not_elem_of_nil|done]. }
  rewrite app_nil, IH, miss_nil, String.eqb_neq. set_solver.
Qed.

(** The facts that a verdict waits for. *)
Definition facts_read : Prop :=
  unread_of f = [] ∧ ∀ j, j ∈ jobs_of f → fj_Rule j ≠ RuleJ3Unknown.

Lemma judge_rest_spec past u r res :
  judge_rest f past (forged_of f) (mkProgress (candidates_of f) (complete_of f) (unread_of f) u r) = res →
  (past = false ∧ ¬ facts_read ∧ r_Decision res = DecisionCannotJudge ∧ r_Verdict res = "" ∧ r_State res = "") ∨
  ((past = true ∨ facts_read) ∧ r_Decision res = DecisionVerdict ∧ r_State res = (StateFor (r_Verdict res)).1 ∧
   r_Verdict res = (verdict_of (forged_of f) u (map give_up_trace (jobs_of f)) (others_of f) (candidates_of f)).1).
Proof.
  unfold judge_rest, facts_read. cbn [pr_candidates pr_unread pr_unverifiable pr_res].
  change (judge_jobs _ _) with (jobs_of f). fold (others_of f). rewrite <- unread_traces_nil.
  destruct past; cbn [negb andb]; [intros <-; right; split; [by left|done]|].
  destruct (unread_of f) as [|x l]; [|intros <-; left; split_and!; [done|by intros [? _]|done..]].
  destruct (unread_traces (jobs_of f)) as [|x l]; intros <-; [right|left; split_and!; [done|by intros [_ ?]|done..]].
  split; [by right|done].
Qed.

Lemma settled_of_spec :
  settled_of f = true ↔ candidates_of f ≠ [] ∧
    ∀ c, c ∈ candidates_of f → settledStatus (pl_Status c) = true ∧
         ∀ a, a ∈ pl_Jobs c → activeJobStatus (at_Status a) = false.
Proof.
  unfold settled_of, unsettled. rewrite andb_true_iff, Nat.ltb_lt, forallb_elem.
  setoid_rewrite negb_orb. setoid_rewrite andb_true_iff. setoid_rewrite negb_involutive.
  setoid_rewrite <- activeAttempt_None.
  assert (∀ o : option Attempt, negb (match o with Some _ => true | None => false end) = true ↔ o = None) as Ho
    by (by intros []).
  setoid_rewrite Ho. destruct (candidates_of f); cbn [length]; naive_solver lia.
Qed.

Lemma forged_of_nil :
  forged_of f = [] ↔ definition_known f = false ∨ definition_rule f = "" ∨ definition_rule f = RuleJ2Unresolvable.
Proof.
  unfold forged_of. destruct (definition_known f); cbn [andb]; [|naive_solver].
  destruct (contains ["" ; RuleJ2Unresolvable] (definition_rule f)) eqn:E; cbn [negb].
  - apply contains_elem in E. set_solver.
  - apply contains_false in E. set_solver.
Qed.

Lemma definition_unverifiable_nil :
  definition_unverifiable f = [] ↔ definition_known f = true ∧ definition_rule f ≠ RuleJ2Unresolvable.
Proof.
  unfold definition_unverifiable. destruct (definition_known f); [|naive_solver].
  destruct (String.eqb_spec (definition_rule f) RuleJ2Unresolvable); naive_solver.
Qed.

(** A diagnosed job that is proved fixed: it ran, and every attempt of it in
    every candidate pipeline succeeded and was not allowed to fail. *)
Definition proved_fixed (t : Target) : Prop :=
  (∃ a, a ∈ attempts_of (t_Name t) (candidates_of f)) ∧
  ∀ a, a ∈ attempts_of (t_Name t) (candidates_of f) → succeeded a = true ∧ at_AllowFailure a = false.

Lemma jobs_passed :
  (∀ j, j ∈ map give_up_trace (jobs_of f) → fj_Rule j = RuleJ3Passed) ↔
  ∀ t, t ∈ Targets (jf_Fix f) → complete_of f = true ∧ proved_fixed t.
Proof.
  unfold jobs_of, proved_fixed. setoid_rewrite list_elem_of_In at 1. setoid_rewrite in_map_iff.
  setoid_rewrite in_map_iff. setoid_rewrite <- list_elem_of_In. split.
  - intros Hj t Ht. pose proof (Hj _ (ex_intro _ _ (conj eq_refl (ex_intro _ t (conj eq_refl Ht))))) as Hp.
    apply give_up_rule in Hp as (Hn & Hc & Ha)%judgeJob_passed; [|done|done].
    split; [done|]. split; [|done]. destruct (attempts_of _ _) as [|a l]; [done|]. exists a. by left.
  - intros Ht j (x & <- & t & <- & Hin). apply give_up_rule; [done|done|]. apply judgeJob_passed.
    destruct (Ht t Hin) as (? & [a Ha] & ?). split; [by intros Hn; rewrite Hn in Ha; apply elem_of_nil in Ha|done].
Qed.

Lemma candidates_ids : well_formed f = true → ∀ c, c ∈ candidates_of f → pl_ID c ≠ 0.
Proof.
  intros [Hp%negb_true_iff _]%andb_true_iff c (Er & Hin & _)%elem_of_candidates_of E.
  rewrite Er in Hp. cbn [andb] in Hp. apply not_true_iff_false in Hp. apply Hp, existsb_elem. exists c.
  split; [done|]. unfold malformed_pipeline. by rewrite E.
Qed.

#[export] Instance judgeable_at_dec now : Decision (judgeable_at f now).
Proof.
  unfold judgeable_at. apply and_dec; [|apply _].
  destruct (missingFacts f now); [by left|by right].
Defined.

Lemma missingFacts_targets now : missingFacts f now = [] → Targets (jf_Fix f) ≠ [].
Proof.
  unfold missingFacts. intros [_ Hm]%app_nil. destruct (Recorded (jf_Fix f)); [|done]. cbn [negb] in Hm.
  apply app_nil in Hm as [Hm%miss_nil _]. by intros E; rewrite E in Hm.
Qed.

Lemma complete_of_spec : complete_of f = true ↔ pf_Read (jf_Pipelines f) = true ∧
  ∀ c, c ∈ candidates_of f → JobsRead c = true ∧ IncludeRetried c = true.
Proof. unfold complete_of. rewrite andb_true_iff, forallb_elem. by setoid_rewrite andb_true_iff. Qed.

(** What must be so for a fix to be called FIXED, at any time. *)
Definition fixed_ground (now : Time) : Prop :=
  judgeable_at f now ∧ well_formed f = true ∧ pf_Read (jf_Pipelines f) = true ∧ candidates_of f ≠ [] ∧
  (∀ c, c ∈ candidates_of f → pl_Status c = StatusSuccess ∧ JobsRead c = true ∧ IncludeRetried c = true ∧
     ∀ a, a ∈ pl_Jobs c → activeJobStatus (at_Status a) = false) ∧
  definition_known f = true ∧ definition_rule f = "" ∧
  (∀ t, t ∈ Targets (jf_Fix f) → proved_fixed t) ∧
  others_clean (targets_in (jf_Fix f)) (candidates_of f).

Lemma fixed_only now : r_Verdict (Judge f now) = VerdictFixed → fixed_ground now.
Proof.
  destruct (decide (well_formed f = true)) as [Hw|Hw].
  2:{ destruct (Judge_no_verdict f now) as [_ ->]; [naive_solver|done]. }
  assert (others_of f = [] ↔ others_clean (targets_in (jf_Fix f)) (candidates_of f)) as Ho
    by by apply judgeOthers_nil, candidates_ids.
  unfold fixed_ground. intros Hv. destruct (decide (judgeable_at f now)) as [Hj|Hj].
  2:{ destruct (Judge_no_verdict f now) as [_ E]; [tauto|by rewrite Hv in E]. }
  destruct (Judge_stage f now Hj Hw) as [(_ & _ & _ & _ & _ & E)|(_ & u & r & E & Hu)]; [by rewrite Hv in E|].
  destruct (judge_rest_spec _ _ _ _ (eq_sym E)) as [(_ & _ & _ & Ev & _)|(_ & _ & _ & Ev)];
    [by rewrite Hv in Ev|].
  rewrite Hv in Ev. symmetry in Ev. apply verdict_of_fixed in Ev; [|apply judgeOthers_rules].
  destruct Ev as (Hf & [Hu' Hd]%app_nil & Hjobs & Hoth & Hst).
  apply Hu in Hu' as [Hr [Hne Hset]%settled_of_spec].
  apply definition_unverifiable_nil in Hd as [Hdk Hdr]. apply forged_of_nil in Hf.
  rewrite jobs_passed in Hjobs.
  destruct (Targets (jf_Fix f)) as [|t0 ts] eqn:Et; [by destruct (missingFacts_targets now (proj1 Hj))|].
  destruct (Hjobs t0 ltac:(by left)) as [Hcomp _]. apply complete_of_spec in Hcomp as [_ Hcomp].
  split_and!; [done..| |done| | |by apply Ho].
  - intros c Hin. destruct (Hcomp c Hin), (Hset c Hin). auto.
  - destruct Hf as [?|[?|?]]; [congruence|done|done].
  - intros t Ht. by apply Hjobs.
Qed.

Lemma fixed_when now : fixed_ground now → r_Verdict (Judge f now) = VerdictFixed.
Proof.
  intros (Hj & Hw & Hr & Hne & Hcs & Hdk & Hdr & Ht & Hoth).
  assert (others_of f = [] ↔ others_clean (targets_in (jf_Fix f)) (candidates_of f)) as Ho
    by by apply judgeOthers_nil, candidates_ids.
  assert (complete_of f = true) as Hcomp by (apply complete_of_spec; split; [done|]; intros c Hin; by destruct (Hcs c Hin) as (_ & ? & ? & _)).
  assert (settled_of f = true) as Hset.
  { apply settled_of_spec. split; [done|]. intros c Hin. destruct (Hcs c Hin) as (Es & _ & _ & Ha).
    by rewrite Es. }
  destruct (Judge_stage f now Hj Hw) as [(_ & E & _)|(_ & u & r & E & Hu)]; [congruence|].
  assert (∀ j, j ∈ map give_up_trace (jobs_of f) → fj_Rule j = RuleJ3Passed) as Hjobs by (apply jobs_passed; auto).
  destruct (judge_rest_spec _ _ _ _ (eq_sym E)) as [(_ & Hn & _)|(_ & _ & _ & ->)].
  - destruct Hn. split; [by apply unread_of_nil|]. intros j Hin Hk.
    assert (fj_Rule (give_up_trace j) = RuleJ3Unread) as Hk' by (unfold give_up_trace; by rewrite Hk).
    rewrite Hjobs in Hk'; [done|]. apply list_elem_of_In, in_map_iff. exists j. by rewrite <- list_elem_of_In.
  - apply verdict_of_fixed; [apply judgeOthers_rules|]. split_and!.
    + apply forged_of_nil. auto.
    + rewrite (proj2 Hu), (proj2 definition_unverifiable_nil); [done| |done]. by rewrite Hdr.
    + done.
    + by apply Ho.
    + intros c Hin. by destruct (Hcs c Hin).
Qed.

(** C3. A fix is called FIXED on exactly one ground, and the clock is not part of
    it: everything recorded is there and the merge request is still gonk's
    open one; the pipelines were read and none is malformed; the fix commit
    has a pipeline, and every pipeline of it succeeded, is listed with every
    retried attempt, and has no attempt that may still run; the CI definition
    was compared and holds; every diagnosed job ran, and every attempt of it
    anywhere succeeded without being allowed to fail; and no other job's
    latest attempt failed in any of those pipelines. *)
Theorem Judge_fixed (now : Time) :
  r_Verdict (Judge f now) = VerdictFixed ↔
  judgeable_at f now ∧ well_formed f = true ∧ pf_Read (jf_Pipelines f) = true ∧ candidates_of f ≠ [] ∧
  (∀ c, c ∈ candidates_of f → pl_Status c = StatusSuccess ∧ JobsRead c = true ∧ IncludeRetried c = true ∧
     ∀ a, a ∈ pl_Jobs c → activeJobStatus (at_Status a) = false) ∧
  definition_known f = true ∧ definition_rule f = "" ∧
  (∀ t, t ∈ Targets (jf_Fix f) → proved_fixed t) ∧
  others_clean (targets_in (jf_Fix f)) (candidates_of f).
Proof. split; [apply fixed_only|apply fixed_when]. Qed.

(** When a verdict is due: past the deadline; before it, once a pipeline of the
    fix commit has run and all are finished, and nothing is left to read. *)
Definition verdict_due (now : Time) : Prop :=
  past_at f now = true ∨ settled_of f = true ∧ facts_read.

Lemma verdict_of_known forged u jobs others cs :
  (verdict_of forged u jobs others cs).1 ∈ Verdicts.
Proof. apply contains_elem. unfold verdict_of. repeat case_match; reflexivity. Qed.

Lemma Judge_verdict now :
  judgeable_at f now → well_formed f = true → verdict_due now →
  ∃ u, settle_unverifiable f u ∧ r_Decision (Judge f now) = DecisionVerdict ∧
    r_State (Judge f now) = (StateFor (r_Verdict (Judge f now))).1 ∧
    r_Verdict (Judge f now) = (verdict_of (forged_of f) (u ++ definition_unverifiable f)
      (map give_up_trace (jobs_of f)) (others_of f) (candidates_of f)).1.
Proof.
  intros Hj Hw Hd.
  destruct (Judge_stage f now Hj Hw) as [(_ & Es & Ep & _)|(_ & u & r & E & Hu)].
  { unfold verdict_due in Hd. rewrite Es, Ep in Hd. by destruct Hd as [?|[? _]]. }
  destruct (judge_rest_spec _ _ _ _ (eq_sym E)) as [(Ep & Hn & _)|(_ & ? & ? & ?)]; [|by exists u].
  unfold verdict_due in Hd. rewrite Ep in Hd. by destruct Hd as [?|[_ ?]].
Qed.

Lemma Judge_due now :
  r_Decision (Judge f now) = DecisionVerdict → judgeable_at f now ∧ well_formed f = true ∧ verdict_due now.
Proof.
  intros Hv. destruct (decide (judgeable_at f now ∧ well_formed f = true)) as [[Hj Hw]|Hn].
  2:{ by destruct (Judge_no_verdict f now Hn) as [Hx _]. }
  split; [done|]. split; [done|]. unfold verdict_due.
  destruct (Judge_stage f now Hj Hw) as [(_ & _ & _ & E & _)|(Hx & u & r & E & _)]; [by rewrite Hv in E|].
  destruct (judge_rest_spec _ _ _ _ (eq_sym E)) as [(_ & _ & Ed & _)|([?|Hf] & _)]; [by rewrite Hv in Ed|by left|].
  destruct Hx as [?|?]; [apply unread_of_nil, Hf|by right|by left].
Qed.

(** Verdicts are given exactly when they are due. Of a fix whose record is
    complete, whose merge request is still open on gonk's commit and of whose
    pipelines and jobs none is malformed, a verdict is given if and only if the
    deadline has passed, or a pipeline of the fix commit ran, all finished, and
    every fact has been read; then it is one of the seven and selects the fix's
    state. In every other case no verdict is given, not even a wrong one: so
    there is none before the facts are in, and always one after the deadline. *)
Theorem Judge_answers (now : Time) :
  (r_Decision (Judge f now) = DecisionVerdict ↔
     judgeable_at f now ∧ well_formed f = true ∧ verdict_due now) ∧
  (r_Decision (Judge f now) = DecisionVerdict →
     r_Verdict (Judge f now) ∈ Verdicts ∧ StateFor (r_Verdict (Judge f now)) = (r_State (Judge f now), true)) ∧
  (r_Decision (Judge f now) ≠ DecisionVerdict → r_Verdict (Judge f now) = "").
Proof.
  split_and!.
  - split; [apply Judge_due|]. intros (Hj & Hw & Hd). by destruct (Judge_verdict now Hj Hw Hd) as (u & _ & ? & _).
  - intros (Hj & Hw & Hd)%Judge_due. destruct (Judge_verdict now Hj Hw Hd) as (u & _ & _ & -> & Hv).
    assert (r_Verdict (Judge f now) ∈ Verdicts) as Hin by (rewrite Hv; apply verdict_of_known).
    split; [done|]. revert Hin. unfold Verdicts. rewrite !elem_of_cons, elem_of_nil.
    intros Hin. by repeat destruct Hin as [->|Hin].
  - intros Hv. destruct (decide (judgeable_at f now ∧ well_formed f = true)) as [[Hj Hw]|Hn].
    2:{ by destruct (Judge_no_verdict f now Hn). }
    destruct (Judge_stage f now Hj Hw) as [(_ & _ & _ & _ & _ & E)|(_ & u & r & E & _)]; [done|].
    by destruct (judge_rest_spec _ _ _ _ (eq_sym E)) as [(_ & _ & _ & ? & _)|(_ & ? & _)].
Qed.

(** A change to the CI definition that the fix may not make: a broken rule, a
    construct only the head cannot resolve, a change without the [ci] lift, or
    an execution change that was denied. *)
Definition definition_forged : Prop :=
  definition_known f = true ∧
  definition_rule f ∈ [RuleJ2Violation; RuleJ2HeadUnresolvable; RuleJ2Unlifted; RuleJ2ExecDenied].

Lemma forged_of_forged : forged_of f ≠ [] ↔ definition_forged.
Proof.
  rewrite forged_of_nil. unfold definition_forged.
  assert (definition_rule f ∈ [RuleJ2Violation; RuleJ2HeadUnresolvable; RuleJ2Unlifted; RuleJ2ExecDenied;
            RuleJ2Unresolvable; ""]) as Hr.
  { apply contains_elem. unfold definition_rule, judgeDefinition. repeat case_match; reflexivity. }
  destruct (definition_known f); [|naive_solver].
  revert Hr. generalize (definition_rule f). intros r. rewrite !elem_of_cons, elem_of_nil.
  intros Hr. split; [naive_solver|]. intros [_ Hf] [?|Hx]; [done|].
  destruct Hx as [-> | ->]; by repeat destruct Hf as [Hf|Hf].
Qed.

(** A forgery that can be seen outranks everything. Whenever a verdict is
    due, it is FORGED exactly when the fix changed the CI definition in a way it
    may not, or one attempt of a diagnosed job, in any pipeline of the fix
    commit, was allowed to fail: whatever else failed, passed, is unread or has
    not finished. *)
Theorem Judge_forged (now : Time) :
  judgeable_at f now → well_formed f = true → verdict_due now →
  (r_Verdict (Judge f now) = VerdictForged ↔
   definition_forged ∨
   ∃ t a, t ∈ Targets (jf_Fix f) ∧ a ∈ attempts_of (t_Name t) (candidates_of f) ∧ at_AllowFailure a = true).
Proof.
  intros Hj Hw Hd. destruct (Judge_verdict now Hj Hw Hd) as (u & _ & _ & _ & ->).
  rewrite verdict_of_forged, forged_of_forged. apply or_iff_compat_l. unfold jobs_of.
  setoid_rewrite list_elem_of_In at 1. setoid_rewrite in_map_iff. setoid_rewrite in_map_iff.
  setoid_rewrite <- list_elem_of_In. split.
  - intros (j & (x & <- & t & <- & Ht) & Hr). apply (proj1 (give_up_rule _ RuleJ3Weakened ltac:(done) ltac:(done))) in Hr.
    apply judgeJob_weakened in Hr as (a & ? & ?). eauto.
  - intros (t & a & Ht & Ha & Hal). eexists. split; [by eexists; split; [|exists t]|].
    apply give_up_rule; [done|done|]. apply judgeJob_weakened. eauto.
Qed.
End judge.

(** ** Confirmation *)

(** The diagnosed failure of a job is seen again, or is seen to be gone. *)
Section confirm.
Context `{ErrorText} (f : ConfirmFacts).

Let sv := same_versions (cn_SignatureVersion f) (cn_ExcerptVersion f).
Definition confirm_attempts (t : Target) : list Attempt := attempts_of (t_Name t) [cn_Pipeline f].

(** Every attempt counts and can be compared. *)
Definition all_compared (t : Target) : Prop :=
  ∀ a, a ∈ confirm_attempts t → at_AllowFailure a = false ∧ not_comparable t sv a = false ∧ not_read t sv a = false.

Definition seen_again (t : Target) : Prop :=
  all_compared t ∧ ∃ a, a ∈ confirm_attempts t ∧ recurs t sv a = true.

Definition seen_gone (t : Target) : Prop :=
  all_compared t ∧ confirm_attempts t ≠ [] ∧ (∀ a, a ∈ confirm_attempts t → recurs t sv a = false) ∧
  ((∃ a, a ∈ confirm_attempts t ∧ failed a = true) ∨ ∀ a, a ∈ confirm_attempts t → succeeded a = true).

(** A finished pipeline of the target, listed with every attempt. *)
Definition confirmable : Prop :=
  cn_Targets f ≠ [] ∧ pl_ID (cn_Pipeline f) ≠ 0 ∧ TerminalForHealth (pl_Status (cn_Pipeline f)) = true ∧
  JobsRead (cn_Pipeline f) = true ∧ IncludeRetried (cn_Pipeline f) = true ∧
  ∀ a, a ∈ pl_Jobs (cn_Pipeline f) → malformed_job a = false.

Definition confirm_finding (t : Target) : JobFinding := judgeJob t sv (confirm_attempts t) true.

Lemma all_compared_existsb t :
  all_compared t ↔ existsb at_AllowFailure (confirm_attempts t) = false ∧
    existsb (not_comparable t sv) (confirm_attempts t) = false ∧ existsb (not_read t sv) (confirm_attempts t) = false.
Proof. rewrite !existsb_false. unfold all_compared. naive_solver. Qed.

Lemma recurs_failed t l : existsb (recurs t sv) l = true → existsb failed l = true.
Proof.
  rewrite !existsb_elem. intros (a & Ha & [Hf _]%andb_true_iff). eauto.
Qed.

Lemma finding_again t : fj_Rule (confirm_finding t) ∈ [RuleJ3Recurs; RuleJ3FlakySame] ↔ seen_again t.
Proof.
  unfold confirm_finding, seen_again. rewrite judgeJob_rule, all_compared_existsb, <- existsb_elem, <- contains_elem.
  destruct (existsb at_AllowFailure _); [naive_solver|]. cbn [negb].
  destruct (confirm_attempts t) as [|b l]; [naive_solver|]. cbn [length Nat.eqb].
  pose proof (recurs_failed t (b :: l)) as Hr.
  destruct (existsb failed _); [|destruct (existsb (recurs t sv) _); [naive_solver|by destruct (forallb _ _); naive_solver]].
  destruct (existsb (not_comparable t sv) _); [naive_solver|].
  destruct (existsb (not_read t sv) _); [naive_solver|].
  destruct (existsb (recurs t sv) _), (existsb succeeded _); naive_solver.
Qed.

Lemma finding_gone t :
  fj_Rule (confirm_finding t) ∈ [RuleJ3Passed; RuleJ3Changed; RuleJ3FlakyChanged] ↔ seen_gone t.
Proof.
  unfold confirm_finding, seen_gone.
  rewrite judgeJob_rule, all_compared_existsb, <- existsb_false, <- existsb_elem, <- forallb_elem, <- contains_elem.
  destruct (existsb at_AllowFailure _); [naive_solver|]. cbn [negb].
  destruct (confirm_attempts t) as [|b l]; [naive_solver|]. cbn [length Nat.eqb].
  assert (existsb failed (b :: l) = false → existsb (recurs t sv) (b :: l) = false ∧
     existsb (not_comparable t sv) (b :: l) = false ∧ existsb (not_read t sv) (b :: l) = false) as Hr.
  { rewrite !existsb_false. intros Hf. unfold recurs, not_comparable, not_read.
    split_and!; intros a Ha; by rewrite (Hf a Ha). }
  destruct (existsb failed _); [|destruct Hr as (-> & -> & ->); [done|destruct (forallb _ _); naive_solver]].
  clear Hr. destruct (existsb (not_comparable t sv) _); [naive_solver|].
  destruct (existsb (not_read t sv) _); [naive_solver|].
  destruct (existsb (recurs t sv) _), (existsb succeeded _); naive_solver.
Qed.

(** The ladder over the findings, and when it is reached. *)
Definition confirm_ladder (jobs : list JobFinding) : ConfirmResult :=
  match firstJob jobs [RuleJ3Recurs; RuleJ3FlakySame] with
  | Some _ => mkConfirmResult ConfirmRecurred StateRecurred jobs
  | None =>
  match activeAttempt (cn_Pipeline f) with
  | Some _ => mkConfirmResult ConfirmCannot "" jobs
  | None =>
  match firstJob jobs [RuleJ3Unknown] with
  | Some _ => mkConfirmResult ConfirmCannot "" jobs
  | None =>
  match firstJobNot jobs [RuleJ3Passed; RuleJ3Changed; RuleJ3FlakyChanged] with
  | Some _ => mkConfirmResult ConfirmNotObserved "" jobs
  | None => mkConfirmResult ConfirmConfirmed StateConfirmed jobs
  end end end end.

Lemma Confirm_stage :
  (confirmable ∧ Confirm f = confirm_ladder (map confirm_finding (cn_Targets f))) ∨
  (¬ confirmable ∧ Confirm f = mkConfirmResult ConfirmCannot "" []).
Proof.
  unfold Confirm, confirmable. rewrite <- existsb_false.
  change (map _ (cn_Targets f)) with (map confirm_finding (cn_Targets f)) at 1.
  destruct (cn_Targets f) as [|t l]; cbn [length Nat.eqb]; [right; split; [by intros [? _]|done]|].
  destruct (Z.eqb_spec (pl_ID (cn_Pipeline f)) 0); cbn [orb]; [right; split; [tauto|done]|].
  destruct (TerminalForHealth _); cbn [negb]; [|right; split; [naive_solver|done]].
  destruct (JobsRead _); cbn [negb orb]; [|right; split; [naive_solver|done]].
  destruct (IncludeRetried _); cbn [negb]; [|right; split; [naive_solver|done]].
  destruct (existsb malformed_job _); [right; split; [naive_solver|done]|left]. done.
Qed.

Lemma first_finding rules :
  (∃ j, firstJob (map confirm_finding (cn_Targets f)) rules = Some j) ↔
  ∃ t, t ∈ cn_Targets f ∧ fj_Rule (confirm_finding t) ∈ rules.
Proof.
  unfold firstJob. rewrite find_some. setoid_rewrite list_elem_of_In at 1. setoid_rewrite in_map_iff.
  setoid_rewrite <- list_elem_of_In. setoid_rewrite contains_elem. naive_solver.
Qed.
Lemma first_finding_not rules :
  firstJobNot (map confirm_finding (cn_Targets f)) rules = None ↔
  ∀ t, t ∈ cn_Targets f → fj_Rule (confirm_finding t) ∈ rules.
Proof.
  unfold firstJobNot. rewrite find_none. setoid_rewrite list_elem_of_In at 1. setoid_rewrite in_map_iff.
  setoid_rewrite <- list_elem_of_In. setoid_rewrite negb_false_iff. setoid_rewrite contains_elem. naive_solver.
Qed.

(** What one pipeline of the target establishes after the merge. It shows that
    the failure recurred exactly when it is finished and fully listed and every
    attempt of some diagnosed job can be compared and one failed the way it was
    diagnosed, even if a retry passed. It confirms the fix exactly when,
    besides, no attempt may still run and every diagnosed job ran, with every
    attempt comparable and none failing that way, and either succeeded every
    time or failed differently: a green pipeline in which a diagnosed job did
    not run confirms nothing. *)
Theorem Confirm_exact :
  (cr_Confirmation (Confirm f) = ConfirmRecurred ↔
     confirmable ∧ ∃ t, t ∈ cn_Targets f ∧ seen_again t) ∧
  (cr_Confirmation (Confirm f) = ConfirmConfirmed ↔
     confirmable ∧ (∀ a, a ∈ pl_Jobs (cn_Pipeline f) → activeJobStatus (at_Status a) = false) ∧
     ∀ t, t ∈ cn_Targets f → seen_gone t) ∧
  cr_State (Confirm f) = (if String.eqb (cr_Confirmation (Confirm f)) ConfirmRecurred then StateRecurred
                          else if String.eqb (cr_Confirmation (Confirm f)) ConfirmConfirmed then StateConfirmed
                          else "").
Proof.
  setoid_rewrite <- finding_again. setoid_rewrite <- finding_gone.
  destruct Confirm_stage as [[Hc ->]|[Hn ->]].
  2:{ split_and!; [split; [discriminate|tauto]|split; [discriminate|tauto]|reflexivity]. }
  rewrite <- first_finding, <- first_finding_not, <- activeAttempt_None. unfold confirm_ladder.
  assert (∀ rules j, firstJob (map confirm_finding (cn_Targets f)) rules = Some j →
            (∀ r, r ∈ rules → r ∉ [RuleJ3Passed; RuleJ3Changed; RuleJ3FlakyChanged]) →
            firstJobNot (map confirm_finding (cn_Targets f)) [RuleJ3Passed; RuleJ3Changed; RuleJ3FlakyChanged]
              ≠ None) as Hdis.
  { intros rules j E Hr Hg. rewrite first_finding_not in Hg.
    destruct (proj1 (first_finding _) (ex_intro _ j E)) as (t & Ht & Hin). by apply (Hr _ Hin), Hg. }
  destruct (firstJob _ [RuleJ3Recurs; RuleJ3FlakySame]) as [j|] eqn:E.
  { split_and!; [split; [eauto|done]| |reflexivity]. split; [discriminate|]. intros (_ & _ & Hg).
    destruct (Hdis _ _ E); [|done]. intros r Hr. apply contains_false. set_unfold. by destruct Hr as [-> | [-> | []]]. }
  assert (¬ ∃ j, @None JobFinding = Some j) as Hno by by intros [? ?].
  destruct (activeAttempt _).
  { split_and!; [split; [discriminate|tauto]| |reflexivity]. split; [discriminate|]. by intros (_ & ? & _). }
  destruct (firstJob _ [RuleJ3Unknown]) as [j|] eqn:Eu.
  { split_and!; [split; [discriminate|tauto]| |reflexivity]. split; [discriminate|]. intros (_ & _ & Hg).
    destruct (Hdis _ _ Eu); [|done]. intros r Hr. apply contains_false. set_unfold. by destruct Hr as [-> | []]. }
  destruct (firstJobNot _ _).
  - split_and!; [split; [discriminate|tauto]|split; [discriminate|by intros (_ & _ & ?)]|reflexivity].
  - split_and!; [split; [discriminate|tauto]|tauto|reflexivity].
Qed.
End confirm.

(** ** A fix that changes the job it is judged by *)

(** Error lines compared as they are. *)
Definition plain_errors : ErrorText := {|
  ErrorSignature := λ line, line;
  GenericErrorLine := λ _, false;
  FirstError := λ data _, data;
|}.

Definition example_attempt (id : Z) (status : string) (allow : bool) : Attempt :=
  mkAttempt id "test" "build" status "script_failure" allow (mkTrace true "assertion failed").

Definition example_pipeline (jobs : list Attempt) : Pipeline :=
  mkPipeline 31 "f00d" "push" "gonk/pipefix-7" StatusSuccess true true jobs.

Definition example_facts (jobs : list Attempt) : JudgeFacts :=
  mkJudgeFacts
    (mkFixFacts true [mkTarget (mkJobFailureKey "build" "test" "script_failure" "assertion failed") false] 30
       [mkBaseJob "test" StatusFailed false; mkBaseJob "lint" StatusSuccess false] "beef" "f00d" 9
       ExcerptVersion SignatureVersion [] CIExecDeny 2000)
    (mkMRFacts true 9 MRStateOpened "f00d") (mkPipelineFacts true [example_pipeline jobs])
    (mkDefinitionFacts true Delta_none).

(** The retried attempt passed; the first was allowed to fail. *)
Lemma Judge_forged_witness :
  let f := example_facts [example_attempt 100 StatusFailed true; example_attempt 101 StatusSuccess false] in
  @r_Verdict (@Judge range_canonical sort_stable plain_errors f 1000) = VerdictForged.
Proof.
  set (f := example_facts [example_attempt 100 StatusFailed true; example_attempt 101 StatusSuccess false]).
  apply (@Judge_forged range_canonical sort_stable plain_errors f 1000).
  - split_and!; vm_compute; reflexivity.
  - vm_compute. reflexivity.
  - right. split; [vm_compute; reflexivity|]. split; [vm_compute; reflexivity|].
    intros j. change (jobs_of f) with (@jobs_of sort_stable plain_errors f).
    intros Hj Hu. apply (proj1 (unread_traces_nil (@jobs_of sort_stable plain_errors f))) in Hj; [done|].
    vm_compute. reflexivity.
  - right. eexists _, (example_attempt 100 StatusFailed true). split; [by left|].
    split; [vm_compute; by left|reflexivity].
Defined.

(** A fix whose job passed is FIXED; and a pipeline that has not finished is
    waited for. *)
Example fixed_example :
  r_Verdict (@Judge range_canonical sort_stable plain_errors
    (example_facts [example_attempt 101 StatusSuccess false]) 1000) = VerdictFixed.
Proof. vm_compute. reflexivity. Qed.
Example waiting_example :
  r_Decision (@Judge range_canonical sort_stable plain_errors
    (example_facts [example_attempt 101 "running" false]) 1000) = DecisionWait.
Proof. vm_compute. reflexivity. Qed.

(** One attempt seen to fail the diagnosed way does not make the answer
    "recurred" while the log of another is unread, although the failure is
    visible. *)
Example visible_recurrence_withheld :
  cr_Confirmation (@Confirm plain_errors
    (mkConfirmFacts (Targets (jf_Fix (example_facts []))) ExcerptVersion SignatureVersion
       (mkPipeline 31 "f00d" "push" "main" StatusFailed true true
          [example_attempt 100 StatusFailed false;
           mkAttempt 101 "test" "build" StatusFailed "script_failure" false Trace_zero]))) = ConfirmCannot.
Proof. vm_compute. reflexivity. Qed.
