(* ===== verification/ChangeJudge.v ===== *)
(** * [pkg/changejudge]: states, test reports and the exit check

    [outcome.go], [report.go] and [judge.go]: what became of a change, decided
    from recorded facts and facts read from GitLab. The rows K0-K5 are the
    code's, in its order; sentences for logs and notes are left out, and a
    missing fact is a value of [Fact] instead of its sentence. *)

From S2P Require Import Prelude.
From S2P Require Import GoTime.
From S2P Require Import GoStrings.
From S2P Require Import RungOutcome.
From S2P Require Import Gate.
From S2P Require Import CiDelta.

(** ** Verdicts and states ([outcome.go]) *)

Abbreviation Verdict := string (only parsing).
Definition VerdictNotGreen : Verdict := "NOT_GREEN".
Definition VerdictTestsNotRun : Verdict := "TESTS_NOT_RUN".
Definition VerdictFlaky : Verdict := "FLAKY".
Definition VerdictUnverifiable : Verdict := "UNVERIFIABLE".
Definition VerdictGreenUnobserved : Verdict := "GREEN_UNOBSERVED".
Definition VerdictGreen : Verdict := "GREEN".

Definition Verdicts : list Verdict :=
  [VerdictNotGreen; VerdictTestsNotRun; VerdictFlaky; VerdictUnverifiable; VerdictGreenUnobserved; VerdictGreen].

Abbreviation State := string (only parsing).
Definition StateProposing : State := "proposing".
Definition StateNeedsScope : State := "needs-scope".
Definition StateVerifying : State := "verifying".
Definition StateNotVerified : State := "not-verified".
Definition StateVerified : State := "verified".
Definition StateVerifiedUnobserved : State := "verified-unobserved".
Definition StateInconclusive : State := "inconclusive".
Definition StateDenied : State := "denied".
Definition StateTakenOver : State := "taken-over".
Definition StateClosedUnmerged : State := "closed-unmerged".
Definition StateMerged : State := "merged".

Definition States : list State :=
  [StateProposing; StateNeedsScope; StateVerifying; StateNotVerified; StateVerified; StateVerifiedUnobserved;
   StateInconclusive; StateDenied; StateTakenOver; StateClosedUnmerged; StateMerged].

Definition KnownState (s : State) : bool := existsb (λ k, String.eqb k s) States.

Definition Terminal (s : State) : bool :=
  if contains [StateProposing; StateVerifying; StateNotVerified] s then false else KnownState s.

Definition StateFor (v : Verdict) : State * bool :=
  if contains [VerdictNotGreen; VerdictTestsNotRun] v then (StateNotVerified, true)
  else if contains [VerdictFlaky; VerdictUnverifiable] v then (StateInconclusive, true)
  else if String.eqb v VerdictGreenUnobserved then (StateVerifiedUnobserved, true)
  else if String.eqb v VerdictGreen then (StateVerified, true)
  else ("", false).

(** [(present, reported)]. *)
Definition ArtifactPresent (s : State) : bool * bool :=
  if String.eqb s StateNotVerified then (false, true)
  else if contains [StateNeedsScope; StateVerified; StateVerifiedUnobserved; StateInconclusive; StateTakenOver;
                    StateClosedUnmerged; StateMerged] s then (true, true)
  else (false, false).

Definition MeterOutcome (s : State) (modelTokens : Z) : Outcome * bool :=
  let '(present, reported) := ArtifactPresent s in
  if negb reported then ("", false) else (Classify (mkSignals false false false false present modelTokens), true).

Definition VerdictOutcome (v : Verdict) (modelTokens : Z) : Outcome * bool :=
  let '(s, known) := StateFor v in if negb known then ("", false) else MeterOutcome s modelTokens.

(** *** Labels *)

Abbreviation Finding := string (only parsing).
Definition TestsNotApplicable : Finding := "NOT_APPLICABLE".
Definition TestsUnknown : Finding := "UNKNOWN".
Definition TestsUnobserved : Finding := "TESTS_UNOBSERVED".
Definition TestsReduced : Finding := "TESTS_REDUCED".
Definition TestsNewNotRun : Finding := "NEW_NOT_RUN".
Definition TestsFailed : Finding := "TESTS_FAILED".
Definition TestsObserved : Finding := "TESTS_OBSERVED".

Definition LabelImplement : string := "gonk::implement".
Definition LabelVerifying : string := "gonk::change-verifying".
Definition LabelVerified : string := "gonk::change-verified".
Definition LabelTestsObserved : string := "gonk::change-tests-observed".
Definition LabelTestsUnobserved : string := "gonk::change-tests-unobserved".
Definition LabelInconclusive : string := "gonk::change-inconclusive".
Definition LabelNeedsHuman : string := "gonk::needs-human".

Definition MRLabels : list string :=
  [LabelVerifying; LabelVerified; LabelTestsObserved; LabelTestsUnobserved; LabelInconclusive].

Record Labels := mkLabels { lb_MR : list string; IssueNeedsHuman : bool }.

Definition LabelsFor (s : State) (tests : Finding) : Labels :=
  if String.eqb s StateNeedsScope then mkLabels [] true
  else if contains [StateVerifying; StateNotVerified] s then mkLabels [LabelVerifying] false
  else if String.eqb s StateVerified then
    if String.eqb tests TestsObserved then mkLabels [LabelVerified; LabelTestsObserved] false
    else mkLabels [LabelVerified] false
  else if String.eqb s StateVerifiedUnobserved then mkLabels [LabelVerified; LabelTestsUnobserved] false
  else if String.eqb s StateInconclusive then mkLabels [LabelInconclusive] true
  else mkLabels [] false.

(** ** Test reports ([report.go]) *)

Record Case := mkCase { c_Suite : string; c_Classname : string; c_Name : string; c_Status : string }.
Record Report := mkReport { rp_Read : bool; Total : Z; Cases : list Case }.

Definition CaseSuccess : string := "success".
Definition CaseFailed : string := "failed".
Definition CaseSkipped : string := "skipped".
Definition CaseError : string := "error".

(** A report as [glab] reads it. *)
Record TestSuite := mkTestSuite { ts_Name : string; TestCases : list Case }.
Record TestReport := mkTestReport { TotalCount : Z; TestSuites : list TestSuite }.

Definition in_suite (s : TestSuite) (c : Case) : Case :=
  mkCase (ts_Name s) (c_Classname c) (c_Name c) (c_Status c).
Definition ReportOf (tr : option TestReport) : Report :=
  match tr with
  | None => mkReport false 0 []
  | Some tr => mkReport true (TotalCount tr) (flat_map (λ s, map (in_suite s) (TestCases s)) (TestSuites tr))
  end.

Definition case_defined (c : Case) : bool :=
  negb (String.eqb (c_Name c) "") && contains [CaseSuccess; CaseFailed; CaseSkipped; CaseError] (c_Status c).
Definition wellFormed (r : Report) : bool :=
  rp_Read r && (Z.of_nat (length (Cases r)) =? Total r) && forallb case_defined (Cases r).

Record caseID := mkCaseID { id_suite : string; id_classname : string; id_name : string }.
#[export] Instance caseID_eq_dec : EqDecision caseID.
Proof. solve_decision. Defined.
#[export] Instance caseID_countable : Countable caseID :=
  inj_countable' (λ i, (id_suite i, id_classname i, id_name i)) (λ '(s, c, n), mkCaseID s c n)
    ltac:(by intros []).

Definition caseID_String (id : caseID) : string :=
  id_suite id +:+ " / " +:+ id_classname id +:+ " / " +:+ id_name id.
Definition id_of (c : Case) : caseID := mkCaseID (c_Suite c) (c_Classname c) (c_Name c).

Record tally := mkTally { passed : gmap caseID Z; failed : gmap caseID Z; t_cases : list Case }.

Definition bump (m : gmap caseID Z) (id : caseID) : gmap caseID Z := <[id := default 0 (m !! id) + 1]> m.
Definition tally_step (t : tally) (c : Case) : tally :=
  if String.eqb (c_Status c) CaseSuccess then mkTally (bump (passed t) (id_of c)) (failed t) (t_cases t)
  else if contains [CaseFailed; CaseError] (c_Status c)
  then mkTally (passed t) (bump (failed t) (id_of c)) (t_cases t)
  else t.
Definition tallyOf (r : Report) : tally := fold_left tally_step (Cases r) (mkTally ∅ ∅ (Cases r)).

Record GoTest := mkGoTest { g_Dir : string; g_Name : string }.

Definition go_pass (g : GoTest) (c : Case) : bool :=
  String.eqb (c_Status c) CaseSuccess && String.eqb (c_Name c) (g_Name g) &&
  (String.eqb (g_Dir g) "" || String.eqb (c_Classname c) (g_Dir g) ||
   HasSuffix (c_Classname c) ("/" +:+ g_Dir g)).
Definition goPasses (t : tally) (g : GoTest) : Z := Z.of_nat (length (List.filter (go_pass g) (t_cases t))).

Definition GoTest_String (g : GoTest) : string :=
  if String.eqb (g_Dir g) "" then g_Name g else g_Dir g +:+ "." +:+ g_Name g.

Definition ClassSource : string := "source".
Definition ClassTest : string := "test".
Definition ClassDocs : string := "docs".

Definition testsApply (classes : list string) : bool := existsb (λ c, negb (String.eqb c ClassDocs)) classes.

(** ** What is read ([judge.go]) *)

Record ChangeFacts := mkChangeFacts {
  Recorded : bool;
  BaseSHA : string;
  ChangeCommitSHA : string;
  BasePipelineID : Z;
  MRIID : Z;
  DiffClasses : list string;
  BaseReport : Report;
  GoProfile : bool;
  AddedGoTests : list GoTest;
  RequireTestReport : bool;
  VerifyDeadline : Time;
}.

Record MRFacts := mkMRFacts { mr_Read : bool; mr_IID : Z; mr_State : string; mr_SHA : string }.
Definition MRStateOpened : string := "opened".
Definition MRStateClosed : string := "closed".
Definition MRStateMerged : string := "merged".

Record Attempt := mkAttempt { at_ID : Z; at_Name : string; at_Status : string; at_AllowFailure : bool }.

Record Pipeline := mkPipeline {
  pl_ID : Z;
  pl_SHA : string;
  pl_Source : string;
  pl_Status : string;
  JobsRead : bool;
  IncludeRetried : bool;
  pl_Jobs : list Attempt;
  pl_Report : Report;
}.
Record PipelineFacts := mkPipelineFacts { pf_Read : bool; pf_Pipelines : list Pipeline }.

Definition SourceParentPipeline : string := "parent_pipeline".
Definition StatusSuccess : string := "success".
Definition StatusFailed : string := "failed".
Definition StatusCanceled : string := "canceled".
Definition StatusSkipped : string := "skipped".
Definition StatusManual : string := "manual".

Record DefinitionFacts := mkDefinitionFacts { df_Read : bool; df_Delta : Delta }.

Record JudgeFacts := mkJudgeFacts {
  jf_Change : ChangeFacts;
  jf_MR : MRFacts;
  jf_Pipelines : PipelineFacts;
  jf_Definition : DefinitionFacts;
}.

(** ** Answers *)

Abbreviation JDecision := string (only parsing).
Definition DecisionVerdict : JDecision := "verdict".
Definition DecisionWait : JDecision := "wait".
Definition DecisionCannotJudge : JDecision := "cannot-judge".
Definition DecisionStopped : JDecision := "stopped".

Abbreviation Rule := string (only parsing).
Definition RuleFacts : Rule := "K0.FACTS".
Definition RuleK0Closed : Rule := "K0.CLOSED".
Definition RuleK0Merged : Rule := "K0.MERGED".
Definition RuleK0TakenOver : Rule := "K0.TAKEN_OVER".
Definition RuleK1Wait : Rule := "K1.WAIT".
Definition RuleK1Timeout : Rule := "K1.UNVERIFIABLE(timeout)".
Definition RuleK1Unread : Rule := "K1.UNVERIFIABLE(unread)".
Definition RuleK2Changed : Rule := "K2.UNVERIFIABLE(definition)".
Definition RuleK2Violation : Rule := "K2.UNVERIFIABLE(definition-violation)".
Definition RuleK2Unresolvable : Rule := "K2.UNVERIFIABLE(definition-unresolvable)".
Definition RuleK2Unread : Rule := "K2.UNVERIFIABLE(unread)".
Definition RuleK3Flaky : Rule := "K3.FLAKY".
Definition RuleK3Red : Rule := "K3.RED".
Definition RuleK3AllowedFailure : Rule := "K3.ALLOWED_FAILURE".
Definition RuleK3Attempts : Rule := "K3.UNVERIFIABLE(attempts)".
Definition RuleK3Status : Rule := "K3.UNVERIFIABLE(status)".
Definition RuleK3Unread : Rule := "K3.UNVERIFIABLE(unread)".
Definition RuleK4NotApplicable : Rule := "K4.NOT_APPLICABLE".
Definition RuleK4Unknown : Rule := "K4.UNKNOWN".
Definition RuleK4Unread : Rule := "K4.UNVERIFIABLE(report-unread)".
Definition RuleK4Unobserved : Rule := "K4.TESTS_UNOBSERVED".
Definition RuleK4Vanished : Rule := "K4.TESTS_REDUCED(report-vanished)".
Definition RuleK4Reduced : Rule := "K4.TESTS_REDUCED".
Definition RuleK4NewNotRunGo : Rule := "K4.NEW_NOT_RUN(go)".
Definition RuleK4NewNotRunNone : Rule := "K4.NEW_NOT_RUN(no-new-case)".
Definition RuleK4Failed : Rule := "K4.TESTS_FAILED".
Definition RuleK4Observed : Rule := "K4.TESTS_OBSERVED".
Definition RuleK5ReportRequired : Rule := "K5.UNVERIFIABLE(report-required)".
Definition RuleK5Unexplained : Rule := "K5.UNVERIFIABLE(unexplained)".
Definition RuleK5Unobserved : Rule := "K5.GREEN_UNOBSERVED".
Definition RuleK5Green : Rule := "K5.GREEN".

Record JobFinding := mkJobFinding {
  fj_Job : string;
  fj_Rule : Rule;
  Attempts : Z;
  Failed : Z;
  Succeeded : Z;
}.

Record Tests := mkTests {
  te_Finding : Finding;
  te_Rule : Rule;
  Lost : list string;
  NotRun : list string;
  Failing : list string;
}.
Definition Tests_zero : Tests := mkTests "" "" [] [] [].

(** What may be missing, for its sentence. *)
Inductive Fact :=
| NoTime | NoRecord | NoBaseSHA | NoChangeCommit | NoBasePipeline | NoMergeRequest | NoPath | PathWithoutClass
| NoBaseReport | GoTestsWithoutProfile | UnnamedGoTest | NoDeadline
| MRUnread | WrongMR (read recorded : Z) | NoHeadSHA | UnknownMRState (state : string)
| PipelinesUnread | MalformedPipeline | DefinitionUnread
| JobsUnlisted (pipeline : Z) | RetriedMissing (pipeline : Z) | MalformedJob (pipeline : Z)
| ReportUnread (pipeline : Z).

Record Result := mkResult {
  r_Decision : JDecision;
  r_Verdict : Verdict;
  r_State : State;
  r_Rule : Rule;
  r_Missing : list Fact;
  r_Candidates : list Z;
  r_Definition : Kind;
  r_Jobs : list JobFinding;
  r_Tests : Tests;
}.
Definition Result_zero : Result := mkResult "" "" "" "" [] [] "" [] Tests_zero.

(** The no-verdict answer. *)
Definition cannotJudge (rule : Rule) (missing : list Fact) (partial : Result) : Result :=
  mkResult DecisionCannotJudge "" "" rule missing (r_Candidates partial) "" (r_Jobs partial) (r_Tests partial).

Definition stopped (state : State) (rule : Rule) : Result :=
  mkResult DecisionStopped "" state rule [] [] "" [] Tests_zero.

(** ** K0: the recorded facts and the merge request *)

Definition miss (bad : bool) (what : Fact) : list Fact := if bad then [what] else [].

Definition missingFacts (f : JudgeFacts) (now : Time) : list Fact :=
  let ch := jf_Change f in let mr := jf_MR f in
  miss (IsZero now) NoTime ++
  if negb (Recorded ch) then [NoRecord] else
  miss (String.eqb (BaseSHA ch) "") NoBaseSHA ++
  miss (String.eqb (ChangeCommitSHA ch) "") NoChangeCommit ++
  miss (BasePipelineID ch =? 0) NoBasePipeline ++
  miss (MRIID ch =? 0) NoMergeRequest ++
  miss (length (DiffClasses ch) =? 0)%nat NoPath ++
  flat_map (λ c, miss (String.eqb c "") PathWithoutClass) (DiffClasses ch) ++
  miss (negb (wellFormed (BaseReport ch))) NoBaseReport ++
  miss ((0 <? length (AddedGoTests ch))%nat && negb (GoProfile ch)) GoTestsWithoutProfile ++
  flat_map (λ g, miss (String.eqb (g_Name g) "") UnnamedGoTest) (AddedGoTests ch) ++
  miss (IsZero (VerifyDeadline ch)) NoDeadline ++
  if negb (mr_Read mr) then [MRUnread] else
  miss (negb (mr_IID mr =? MRIID ch)) (WrongMR (mr_IID mr) (MRIID ch)) ++
  miss (String.eqb (mr_SHA mr) "") NoHeadSHA.

(** ** K1: the candidate pipelines *)

Definition settledStatus (s : string) : bool :=
  contains [StatusSuccess; StatusFailed; StatusCanceled; StatusSkipped; StatusManual] s.

Definition malformed_pipeline (p : Pipeline) : bool :=
  (pl_ID p =? 0) || String.eqb (pl_SHA p) "" || String.eqb (pl_Source p) "" || String.eqb (pl_Status p) "".

Definition is_candidate (commit : string) (p : Pipeline) : bool :=
  String.eqb (pl_SHA p) commit && negb (String.eqb (pl_Source p) SourceParentPipeline).

(** The candidates in the list's order; [None]: a malformed pipeline. *)
Definition selection (commit : string) (ps : list Pipeline) : option (list Pipeline) :=
  if existsb malformed_pipeline ps then None else Some (List.filter (is_candidate commit) ps).

(** What the steps establish on the way. *)
Record progress := mkProgress {
  pr_candidates : list Pipeline;
  pr_unread : list Fact;
  pr_unverifiable : list Rule;
  pr_res : Result;
}.

Definition all_settled (candidates : list Pipeline) : bool :=
  (0 <? length candidates)%nat && forallb (λ c, settledStatus (pl_Status c)) candidates.

Definition settle `{SortSlice} (f : JudgeFacts) (past : bool) : Result + progress :=
  if negb (pf_Read (jf_Pipelines f)) then inr (mkProgress [] [PipelinesUnread] [RuleK1Unread] Result_zero)
  else
    match selection (ChangeCommitSHA (jf_Change f)) (pf_Pipelines (jf_Pipelines f)) with
    | None => inl (cannotJudge RuleFacts [MalformedPipeline] Result_zero)
    | Some cs =>
        let candidates := sort_slice pl_ID cs in
        let res decision state rule :=
          mkResult decision "" state rule [] (map pl_ID candidates) "" [] Tests_zero in
        let settled := all_settled candidates in
        if negb settled && negb past then inl (res DecisionWait StateVerifying RuleK1Wait)
        else inr (mkProgress candidates [] (if settled then [] else [RuleK1Timeout]) (res "" "" ""))
    end.

(** ** K2: the definition *)

(** [""] is the definition the base ran. *)
Definition judgeDefinition (d : Delta) : Rule :=
  if String.eqb (dl_Kind d) KindViolation then RuleK2Violation
  else if (0 <? length (dl_Violations d))%nat then RuleK2Violation
  else if String.eqb (dl_Kind d) KindUnresolvable then RuleK2Unresolvable
  else if (0 <? length (dl_Unresolvable d))%nat then RuleK2Unresolvable
  else if negb (String.eqb (dl_Kind d) KindNone) then RuleK2Changed
  else if (0 <? length (dl_Jobs d) + length (Removed d) + length (Added d) + length (Renamed d) +
                length (Globals d))%nat then RuleK2Changed
  else "".

Definition set_Definition (k : Kind) (r : Result) : Result :=
  mkResult (r_Decision r) (r_Verdict r) (r_State r) (r_Rule r) (r_Missing r) (r_Candidates r) k (r_Jobs r)
    (r_Tests r).

Definition judge_definition (f : JudgeFacts) (p : progress) : progress :=
  let d := jf_Definition f in
  if negb (df_Read d) || negb (knownKind (dl_Kind (df_Delta d))) then
    mkProgress (pr_candidates p) (pr_unread p ++ [DefinitionUnread]) (pr_unverifiable p ++ [RuleK2Unread]) (pr_res p)
  else
    let c := judgeDefinition (df_Delta d) in
    if negb (String.eqb c "") then
      mkProgress (pr_candidates p) (pr_unread p) (pr_unverifiable p ++ [c]) (pr_res p)
    else mkProgress (pr_candidates p) (pr_unread p) (pr_unverifiable p) (set_Definition KindNone (pr_res p)).

(** ** K3: the jobs *)

Definition malformed_job (a : Attempt) : bool :=
  (at_ID a =? 0) || String.eqb (at_Name a) "" || String.eqb (at_Status a) "".

Definition unlisted (c : Pipeline) : list Fact :=
  miss (negb (JobsRead c)) (JobsUnlisted (pl_ID c)) ++ miss (negb (IncludeRetried c)) (RetriedMissing (pl_ID c)).

(** The unread lists in the candidates' order; [inl]: a malformed job. *)
Fixpoint read_jobs (cs : list Pipeline) (unread : list Fact) : Z + list Fact :=
  match cs with
  | [] => inr unread
  | c :: cs =>
      if existsb malformed_job (pl_Jobs c) then inl (pl_ID c) else read_jobs cs (unread ++ unlisted c)
  end.

Definition jobRule (j : JobFinding) (required : bool) : Rule :=
  if 0 <? Succeeded j then RuleK3Flaky
  else if negb required then RuleK3AllowedFailure
  else if Failed j =? Attempts j then RuleK3Red
  else RuleK3Attempts.

Record jobs_acc := mkJobsAcc { byName : gmap string JobFinding; required : gset string; ja_names : list string }.

Definition count (b : bool) : Z := if b then 1 else 0.
Definition attempt_step (x : jobs_acc) (a : Attempt) : jobs_acc :=
  let has := bool_decide (is_Some (byName x !! at_Name a)) in
  let j := default (mkJobFinding (at_Name a) "" 0 0 0) (byName x !! at_Name a) in
  let j := mkJobFinding (fj_Job j) (fj_Rule j) (Attempts j + 1)
             (Failed j + count (String.eqb (at_Status a) StatusFailed))
             (Succeeded j + count (String.eqb (at_Status a) StatusSuccess)) in
  mkJobsAcc (<[at_Name a := j]> (byName x))
    (if negb (at_AllowFailure a) then {[ at_Name a ]} ∪ required x else required x)
    (if has then ja_names x else ja_names x ++ [at_Name a]).

Definition job_finding (x : jobs_acc) (name : string) : list JobFinding :=
  match byName x !! name with
  | None => []
  | Some j =>
      if Failed j =? 0 then []
      else [mkJobFinding (fj_Job j) (jobRule j (bool_decide (name ∈ required x))) (Attempts j) (Failed j) (Succeeded j)]
  end.

Definition judgeJobs (candidates : list Pipeline) : list JobFinding :=
  let x := fold_left attempt_step (flat_map pl_Jobs candidates) (mkJobsAcc ∅ ∅ []) in
  flat_map (job_finding x) (sort_strings (ja_names x)).

Definition firstJob (jobs : list JobFinding) (rule : Rule) : option JobFinding :=
  List.find (λ j, String.eqb (fj_Rule j) rule) jobs.

(** ** K4: the tests ([report.go]) *)

Definition greenCandidates (candidates : list Pipeline) : list Pipeline :=
  List.filter (λ c, String.eqb (pl_Status c) StatusSuccess) candidates.

Definition unreadReports (candidates : list Pipeline) : list Fact :=
  flat_map (λ c, miss (negb (wellFormed (pl_Report c))) (ReportUnread (pl_ID c))) (greenCandidates candidates).

(** The identities of which [h] counts fewer than [base]. *)
Definition fewer (base h : gmap caseID Z) : gset caseID :=
  dom (filter (λ p, default 0 (h !! p.1) < p.2) base).

Definition sortedIDs (ids : gset caseID) : list string := sort_strings (map caseID_String (elements ids)).

Definition heads_of (green : list Pipeline) : list tally :=
  map (λ g, tallyOf (pl_Report g)) (List.filter (λ g, 0 <? Total (pl_Report g)) green).

Definition ran (base : tally) (heads : list tally) (g : GoTest) : bool :=
  existsb (λ h, goPasses base g <? goPasses h g) heads.

(** The new tests: [None] when they ran. *)
Definition new_tests (ch : ChangeFacts) (base : tally) (heads : list tally) : option Tests :=
  if GoProfile ch then
    let notRun := map GoTest_String (List.filter (λ g, negb (ran base heads g)) (AddedGoTests ch)) in
    if (0 <? length notRun)%nat
    then Some (mkTests TestsNewNotRun RuleK4NewNotRunGo [] (sort_strings notRun) []) else None
  else if existsb (λ h, negb (bool_decide (fewer (passed h) (passed base) = ∅))) heads then None
  else Some (mkTests TestsNewNotRun RuleK4NewNotRunNone [] [] []).

Definition judgeTests (ch : ChangeFacts) (candidates : list Pipeline) : Tests :=
  if negb (testsApply (DiffClasses ch)) then mkTests TestsNotApplicable RuleK4NotApplicable [] [] []
  else
    let green := greenCandidates candidates in
    if (length green =? 0)%nat then Tests_zero
    else if (0 <? length (unreadReports candidates))%nat then mkTests TestsUnknown RuleK4Unknown [] [] []
    else
      let base := tallyOf (BaseReport ch) in
      let heads := heads_of green in
      if (length heads =? 0)%nat then
        if negb (bool_decide (passed base = ∅)) then mkTests TestsReduced RuleK4Vanished [] [] []
        else mkTests TestsUnobserved RuleK4Unobserved [] [] []
      else
        let lost := ⋃ (map (λ h, fewer (passed base) (passed h)) heads) in
        if negb (bool_decide (lost = ∅)) then mkTests TestsReduced RuleK4Reduced (sortedIDs lost) [] []
        else
          match new_tests ch base heads with
          | Some t => t
          | None =>
              let failing := ⋃ (map (λ h, fewer (failed h) (failed base)) heads) in
              if negb (bool_decide (failing = ∅)) then mkTests TestsFailed RuleK4Failed [] [] (sortedIDs failing)
              else mkTests TestsObserved RuleK4Observed [] [] []
          end.

(** ** K5: the verdict *)

(** First match: [(verdict, rule)]. *)
Definition verdict (jobs : list JobFinding) (unverifiable : list Rule) (tests : Tests) (requireReport : bool) :
    Verdict * Rule :=
  match firstJob jobs RuleK3Red with
  | Some j => (VerdictNotGreen, fj_Rule j)
  | None =>
  if String.eqb (te_Finding tests) TestsNewNotRun then (VerdictTestsNotRun, te_Rule tests) else
  match firstJob jobs RuleK3Flaky with
  | Some j => (VerdictFlaky, fj_Rule j)
  | None =>
  match unverifiable with
  | rule :: _ => (VerdictUnverifiable, rule)
  | [] =>
  if contains [TestsUnknown; TestsReduced; TestsFailed] (te_Finding tests) then (VerdictUnverifiable, te_Rule tests)
  else if String.eqb (te_Finding tests) TestsUnobserved then
    if requireReport then (VerdictUnverifiable, RuleK5ReportRequired) else (VerdictGreenUnobserved, RuleK5Unobserved)
  else if String.eqb (te_Finding tests) TestsObserved then (VerdictGreen, RuleK5Green)
  else if String.eqb (te_Finding tests) TestsNotApplicable then (VerdictGreen, RuleK5Green)
  else (VerdictUnverifiable, RuleK5Unexplained)
  end end end.

Definition set_Jobs (jobs : list JobFinding) (tests : Tests) (r : Result) : Result :=
  mkResult (r_Decision r) (r_Verdict r) (r_State r) (r_Rule r) (r_Missing r) (r_Candidates r) (r_Definition r) jobs
    tests.

Definition decide_verdict (v : Verdict * Rule) (r : Result) : Result :=
  mkResult DecisionVerdict v.1 (StateFor v.1).1 v.2 (r_Missing r) (r_Candidates r) (r_Definition r) (r_Jobs r)
    (r_Tests r).

(** Past the deadline, what is still unknown was not observed. *)
Definition give_up_report (t : Tests) : Tests :=
  if String.eqb (te_Finding t) TestsUnknown
  then mkTests (te_Finding t) RuleK4Unread (Lost t) (NotRun t) (Failing t) else t.

Definition status_cause (candidates : list Pipeline) : list Rule :=
  if existsb (λ c, negb (String.eqb (pl_Status c) StatusSuccess)) candidates then [RuleK3Status] else [].

(** The findings of K3, and what they leave unverifiable. *)
Definition job_causes (f : JudgeFacts) (p : progress) (unread : list Fact) : list JobFinding * list Rule :=
  if negb (pf_Read (jf_Pipelines f)) then ([], [])
  else if (length unread =? 0)%nat then
    let jobs := judgeJobs (pr_candidates p) in
    (jobs, match firstJob jobs RuleK3Attempts with Some j => [fj_Rule j] | None => [] end)
  else ([], [RuleK3Unread]).

(** From K3 on. *)
Definition judge_rest (f : JudgeFacts) (past : bool) (p : progress) : Result :=
  match read_jobs (pr_candidates p) [] with
  | inl id => cannotJudge RuleFacts [MalformedJob id] (pr_res p)
  | inr lists =>
      let '(jobs, causes) := job_causes f p lists in
      let unverifiable := pr_unverifiable p ++ causes ++ status_cause (pr_candidates p) in
      let tests := judgeTests (jf_Change f) (pr_candidates p) in
      let res := set_Jobs jobs tests (pr_res p) in
      let unread := pr_unread p ++ lists in
      let unknown := String.eqb (te_Finding tests) TestsUnknown in
      if negb past && (0 <? length unread)%nat then
        cannotJudge RuleFacts (unread ++ if unknown then unreadReports (pr_candidates p) else []) res
      else if negb past && unknown then cannotJudge RuleK4Unknown (unreadReports (pr_candidates p)) res
      else
        let tests := give_up_report tests in
        decide_verdict (verdict jobs unverifiable tests (RequireTestReport (jf_Change f)))
          (set_Jobs jobs tests (pr_res p))
  end.

Definition Judge `{SortSlice} (f : JudgeFacts) (now : Time) : Result :=
  let missing := missingFacts f now in
  if (0 <? length missing)%nat then cannotJudge RuleFacts missing Result_zero
  else if String.eqb (mr_State (jf_MR f)) MRStateMerged then stopped StateMerged RuleK0Merged
  else if String.eqb (mr_State (jf_MR f)) MRStateClosed then stopped StateClosedUnmerged RuleK0Closed
  else if negb (String.eqb (mr_State (jf_MR f)) MRStateOpened)
  then cannotJudge RuleFacts [UnknownMRState (mr_State (jf_MR f))] Result_zero
  else if negb (String.eqb (mr_SHA (jf_MR f)) (ChangeCommitSHA (jf_Change f))) then stopped StateTakenOver RuleK0TakenOver
  else
    let past := negb (Before now (VerifyDeadline (jf_Change f))) in
    match settle f past with
    | inl r => r
    | inr p => judge_rest f past (judge_definition f p)
    end.

(** * Proofs *)

(** ** Reports *)

(** How many cases of a report have one identity, of those that satisfy [ok]. *)
Definition cases_of (ok : Case → bool) (r : Report) (id : caseID) : Z :=
  Z.of_nat (length (List.filter (λ c, ok c && bool_decide (id_of c = id)) (Cases r))).
Definition case_passes (c : Case) : bool := String.eqb (c_Status c) CaseSuccess.
Definition case_fails (c : Case) : bool := contains [CaseFailed; CaseError] (c_Status c).
Definition passes : Report → caseID → Z := cases_of case_passes.
Definition failures : Report → caseID → Z := cases_of case_fails.

Definition counted (ok : Case → bool) (m : gmap caseID Z) (cs : list Case) : Prop :=
  ∀ id, default 0 (m !! id) = Z.of_nat (length (List.filter (λ c, ok c && bool_decide (id_of c = id)) cs)) ∧
        (∀ n, m !! id = Some n → 0 < n).

Lemma counted_bump ok m cs c : counted ok m cs → ok c = true → counted ok (bump m (id_of c)) (cs ++ [c]).
Proof.
  intros Hm Hc id. unfold bump. rewrite List.filter_app, length_app, Nat2Z.inj_add. cbn [List.filter]. rewrite Hc.
  destruct (Hm id) as [H1 H2]. destruct (decide (id_of c = id)) as [<-|Hne].
  - rewrite lookup_insert_eq, bool_decide_true by done. cbn [default from_option id andb length]. rewrite <- H1.
    split; [cbn; lia|]. intros n [= <-]. destruct (m !! id_of c) as [k|] eqn:E; cbn; [|lia]. specialize (H2 k eq_refl). lia.
  - rewrite lookup_insert_ne, bool_decide_false by done. cbn [andb length]. split; [lia|done].
Qed.

Lemma counted_skip ok m cs c : counted ok m cs → ok c = false → counted ok m (cs ++ [c]).
Proof.
  intros Hm Hc id. rewrite List.filter_app, length_app. cbn [List.filter]. rewrite Hc. cbn [andb length].
  rewrite Nat.add_0_r. apply Hm.
Qed.

Lemma tally_counts cs all :
  let t := fold_left tally_step cs (mkTally ∅ ∅ all) in
  counted case_passes (passed t) cs ∧ counted case_fails (failed t) cs ∧ t_cases t = all.
Proof.
  induction cs as [|c cs IH] using rev_ind; cbn zeta.
  - split_and!; [| |done]; intros id; cbn [fold_left passed failed]; by rewrite lookup_empty.
  - rewrite fold_left_app. cbn [fold_left]. destruct IH as (H1 & H2 & H3). unfold tally_step at 1 3 5.
    destruct (String.eqb (c_Status c) CaseSuccess) eqn:Es.
    + split_and!; [by apply counted_bump| |done]. apply counted_skip; [done|].
      unfold case_fails. apply String.eqb_eq in Es. by rewrite Es.
    + destruct (contains [CaseFailed; CaseError] (c_Status c)) eqn:Ef; split_and!; try done.
      * by apply counted_skip.
      * by apply counted_bump.
      * by apply counted_skip.
      * by apply counted_skip.
Qed.

Lemma tallyOf_counts r :
  counted case_passes (passed (tallyOf r)) (Cases r) ∧ counted case_fails (failed (tallyOf r)) (Cases r) ∧
  t_cases (tallyOf r) = Cases r.
Proof. apply tally_counts. Qed.

Lemma fewer_counted ok m1 cs1 m2 cs2 id :
  counted ok m1 cs1 → counted ok m2 cs2 →
  id ∈ fewer m1 m2 ↔
  Z.of_nat (length (List.filter (λ c, ok c && bool_decide (id_of c = id)) cs2)) <
  Z.of_nat (length (List.filter (λ c, ok c && bool_decide (id_of c = id)) cs1)).
Proof.
  intros H1 H2. destruct (H1 id) as [<- Hp], (H2 id) as [<- _]. unfold fewer. rewrite elem_of_dom. split.
  - intros [n Hn%map_lookup_filter_Some]. destruct Hn as [-> Hlt]. done.
  - intros Hlt. destruct (m1 !! id) as [n|] eqn:E.
    + exists n. by apply map_lookup_filter_Some.
    + exfalso. cbn in Hlt. destruct (H2 id) as [Hd _]. lia.
Qed.

Lemma fewer_passed r s id : id ∈ fewer (passed (tallyOf r)) (passed (tallyOf s)) ↔ passes s id < passes r id.
Proof. apply (fewer_counted case_passes); apply tallyOf_counts. Qed.
Lemma fewer_failed r s id : id ∈ fewer (failed (tallyOf r)) (failed (tallyOf s)) ↔ failures s id < failures r id.
Proof. apply (fewer_counted case_fails); apply tallyOf_counts. Qed.

(** Cases of a Go test function that pass, in its package when that is known. *)
Definition go_passes (r : Report) (g : GoTest) : Z := Z.of_nat (length (List.filter (go_pass g) (Cases r))).
Lemma goPasses_tally r g : goPasses (tallyOf r) g = go_passes r g.
Proof. unfold goPasses. destruct (tallyOf_counts r) as (_ & _ & ->). done. Qed.

(** ** K4 *)

(** A green candidate that published a report. *)
Definition reporting (cs : list Pipeline) (r : Report) : Prop :=
  ∃ c, c ∈ cs ∧ pl_Status c = StatusSuccess ∧ pl_Report c = r ∧ 0 < Total r.

Lemma green_elem cs c : c ∈ greenCandidates cs ↔ c ∈ cs ∧ pl_Status c = StatusSuccess.
Proof. unfold greenCandidates. by rewrite elem_of_filter_List, String.eqb_eq. Qed.

Lemma heads_elem cs t : t ∈ heads_of (greenCandidates cs) ↔ ∃ r, reporting cs r ∧ t = tallyOf r.
Proof.
  unfold heads_of, reporting. rewrite list_elem_of_In, in_map_iff. setoid_rewrite <- list_elem_of_In.
  setoid_rewrite elem_of_filter_List. setoid_rewrite green_elem. setoid_rewrite Z.ltb_lt. naive_solver.
Qed.

Lemma unreadReports_nil cs :
  unreadReports cs = [] ↔ ∀ c, c ∈ cs → pl_Status c = StatusSuccess → wellFormed (pl_Report c) = true.
Proof.
  unfold unreadReports. transitivity (∀ c, c ∈ greenCandidates cs → wellFormed (pl_Report c) = true).
  - induction (greenCandidates cs) as [|c l IH]; cbn [flat_map]; [split; [intros _ c []%elem_of_nil|done]|].
    unfold miss at 1. destruct (wellFormed (pl_Report c)) eqn:E; cbn [negb app].
    + rewrite IH. split; intros H x; [rewrite elem_of_cons; intros [->|?]; auto|intros ?; apply H; by right].
    + split; [done|]. intros H. rewrite H in E by (by left). done.
  - setoid_rewrite green_elem. naive_solver.
Qed.

Lemma union_empty {A} (f : A → gset caseID) (l : list A) :
  ⋃ (map f l) = ∅ ↔ ∀ x, x ∈ l → ∀ id, id ∉ f x.
Proof.
  induction l as [|x l IH]; [split; [intros _ x []%elem_of_nil|done]|].
  change (⋃ (map f (x :: l))) with (f x ∪ ⋃ (map f l)). rewrite empty_union_L, IH.
  setoid_rewrite elem_of_cons. set_solver.
Qed.

Lemma heads_lost cs base :
  ⋃ (map (λ h, fewer (passed (tallyOf base)) (passed h)) (heads_of (greenCandidates cs))) = ∅ ↔
  ∀ r, reporting cs r → ∀ id, passes base id <= passes r id.
Proof.
  rewrite union_empty. setoid_rewrite heads_elem. split.
  - intros H r Hr id. specialize (H (tallyOf r) (ex_intro _ r (conj Hr eq_refl)) id). rewrite fewer_passed in H. lia.
  - intros H t (r & Hr & ->) id. rewrite fewer_passed. specialize (H r Hr id). lia.
Qed.

Lemma heads_failing cs base :
  ⋃ (map (λ h, fewer (failed h) (failed (tallyOf base))) (heads_of (greenCandidates cs))) = ∅ ↔
  ∀ r, reporting cs r → ∀ id, failures r id <= failures base id.
Proof.
  rewrite union_empty. setoid_rewrite heads_elem. split.
  - intros H r Hr id. specialize (H (tallyOf r) (ex_intro _ r (conj Hr eq_refl)) id). rewrite fewer_failed in H. lia.
  - intros H t (r & Hr & ->) id. rewrite fewer_failed. specialize (H r Hr id). lia.
Qed.

(** That the new tests ran: each added Go test function has a passing case the
    base had not, in some pipeline's report; outside Go some case has. *)
Definition new_tests_ran (ch : ChangeFacts) (cs : list Pipeline) : Prop :=
  if GoProfile ch then
    ∀ g, g ∈ AddedGoTests ch → ∃ r, reporting cs r ∧ go_passes (BaseReport ch) g < go_passes r g
  else ∃ r id, reporting cs r ∧ passes (BaseReport ch) id < passes r id.

Lemma ran_spec base cs g :
  ran (tallyOf base) (heads_of (greenCandidates cs)) g = true ↔
  ∃ r, reporting cs r ∧ go_passes base g < go_passes r g.
Proof.
  unfold ran. rewrite existsb_elem. setoid_rewrite heads_elem. setoid_rewrite Z.ltb_lt. split.
  - intros (t & (r & Hr & ->) & H). exists r. by rewrite !goPasses_tally in H.
  - intros (r & Hr & H). exists (tallyOf r). rewrite !goPasses_tally. eauto.
Qed.

Lemma new_tests_none ch cs :
  new_tests ch (tallyOf (BaseReport ch)) (heads_of (greenCandidates cs)) = None ↔ new_tests_ran ch cs.
Proof.
  unfold new_tests, new_tests_ran. destruct (GoProfile ch).
  - destruct (0 <? length _)%nat eqn:E.
    + split; [done|]. intros H. exfalso. apply Nat.ltb_lt in E. rewrite length_map in E.
      rewrite (proj2 (List_filter_nil _ _)) in E; [cbn in E; lia|]. intros g Hg. by rewrite (proj2 (ran_spec _ _ _) (H g Hg)).
    + split; [|done]. intros _ g Hg. apply ran_spec. apply length_pos, map_eq_nil in E.
      rewrite List_filter_nil in E. by specialize (E g Hg); apply negb_false_iff in E.
  - destruct (existsb _ _) eqn:E.
    + split; [|done]. intros _. apply existsb_elem in E as (t & (r & Hr & ->)%heads_elem & H).
      apply negb_true_iff, bool_decide_eq_false in H. apply set_choose_L in H as [id Hid].
      exists r, id. by rewrite fewer_passed in Hid.
    + split; [done|]. intros (r & id & Hr & H). exfalso. rewrite existsb_false in E.
      specialize (E (tallyOf r)). rewrite heads_elem in E. specialize (E (ex_intro _ r (conj Hr eq_refl))).
      apply negb_false_iff, bool_decide_eq_true in E. apply (not_elem_of_empty (C:=gset caseID) id). rewrite <- E.
      by apply fewer_passed.
Qed.

(** The tests were observed on exactly one ground. *)
Definition tests_observed (ch : ChangeFacts) (cs : list Pipeline) : Prop :=
  testsApply (DiffClasses ch) = true ∧
  (∀ c, c ∈ cs → pl_Status c = StatusSuccess → wellFormed (pl_Report c) = true) ∧
  (∃ r, reporting cs r) ∧
  (∀ r, reporting cs r → ∀ id, passes (BaseReport ch) id <= passes r id ∧ failures r id <= failures (BaseReport ch) id) ∧
  new_tests_ran ch cs.

Lemma new_tests_finding ch base heads t : new_tests ch base heads = Some t → te_Finding t = TestsNewNotRun.
Proof. unfold new_tests. repeat case_match; intros [= <-]; done. Qed.

Lemma some_heads cs : heads_of (greenCandidates cs) ≠ [] ↔ ∃ r, reporting cs r.
Proof.
  split.
  - intros H. destruct (heads_of _) as [|t l] eqn:E; [done|].
    destruct (proj1 (heads_elem cs t)) as (r & Hr & _); [rewrite E; by left|]. by exists r.
  - intros (r & Hr) E. apply (elem_of_nil (tallyOf r)). rewrite <- E. apply heads_elem. by exists r.
Qed.

Lemma judgeTests_observed ch cs : te_Finding (judgeTests ch cs) = TestsObserved ↔ tests_observed ch cs.
Proof.
  unfold judgeTests, tests_observed. destruct (testsApply (DiffClasses ch)); cbn [negb]; [|by split; [|intros []]].
  destruct (length (greenCandidates cs) =? 0)%nat eqn:Eg.
  { apply length_zero in Eg. split; [done|]. intros (_ & _ & (r & c & Hc & Hs & _) & _).
    exfalso. apply (elem_of_nil c). rewrite <- Eg. by apply green_elem. }
  rewrite <- unreadReports_nil. destruct (unreadReports cs) as [|? ?]; cbn [length Nat.ltb Nat.leb];
    [|split; [done|by intros (_ & ? & _)]].
  destruct (length (heads_of (greenCandidates cs)) =? 0)%nat eqn:Eh.
  { apply length_zero in Eh. split; [by case_match|]. intros (_ & _ & Hr & _). by apply some_heads in Hr. }
  apply length_nonzero, some_heads in Eh.
  case_bool_decide as Hl; cbn [negb].
  2:{ split; [done|]. intros (_ & _ & _ & H & _). exfalso. apply Hl, heads_lost. intros r Hr id. by destruct (H r Hr id). }
  rewrite heads_lost in Hl. rewrite <- new_tests_none.
  destruct (new_tests _ _ _) as [t|] eqn:En.
  { split; [|by intros (_ & _ & _ & _ & ?)]. apply new_tests_finding in En. by rewrite En. }
  case_bool_decide as Hf; cbn [negb].
  - rewrite heads_failing in Hf. split; [|done]. intros _. split_and!; [done..| |done]. intros r Hr id. split; auto.
  - split; [done|]. intros (_ & _ & _ & H & _). exfalso. apply Hf, heads_failing. intros r Hr id. by destruct (H r Hr id).
Qed.

(** ** K3 *)

(** The attempts of a job, over all candidates. *)
Definition attempts_of (name : string) (l : list Attempt) : list Attempt :=
  List.filter (λ a, String.eqb (at_Name a) name) l.
Definition with_status (s : string) (l : list Attempt) : Z :=
  Z.of_nat (length (List.filter (λ a, String.eqb (at_Status a) s) l)).

Record accounts (l : list Attempt) (x : jobs_acc) : Prop := {
  acc_jobs : ∀ name, byName x !! name =
    match attempts_of name l with
    | [] => None
    | at_ => Some (mkJobFinding name "" (Z.of_nat (length at_)) (with_status StatusFailed at_)
                     (with_status StatusSuccess at_))
    end;
  acc_required : ∀ name, name ∈ required x ↔ ∃ a, a ∈ l ∧ at_Name a = name ∧ at_AllowFailure a = false;
  acc_names : ∀ name, name ∈ ja_names x ↔ attempts_of name l ≠ [];
}.

Lemma with_status_snoc s l a : with_status s (l ++ [a]) = with_status s l + count (String.eqb (at_Status a) s).
Proof.
  unfold with_status, count. rewrite List.filter_app, length_app. cbn [List.filter].
  destruct (String.eqb (at_Status a) s); cbn [length]; lia.
Qed.

Lemma attempts_of_snoc name l a :
  attempts_of name (l ++ [a]) = attempts_of name l ++ (if String.eqb (at_Name a) name then [a] else []).
Proof. unfold attempts_of. by rewrite List.filter_app. Qed.

Lemma attempt_step_accounts l x a : accounts l x → accounts (l ++ [a]) (attempt_step x a).
Proof.
  intros [Hj Hr Hn]. split; unfold attempt_step; cbn [byName required ja_names]; intros name.
  - rewrite attempts_of_snoc. destruct (String.eqb_spec (at_Name a) name) as [<-|Hne].
    + rewrite lookup_insert_eq, Hj. destruct (attempts_of (at_Name a) l) as [|b m] eqn:E; cbn [default from_option app].
      * unfold with_status, count. cbn [List.filter fj_Job fj_Rule Attempts Failed Succeeded length Z.of_nat].
        by repeat case_match.
      * cbn [id fj_Job fj_Rule Attempts Failed Succeeded]. rewrite app_comm_cons, !with_status_snoc, length_app.
        rewrite Nat2Z.inj_add. done.
    + rewrite lookup_insert_ne by done. by rewrite app_nil_r.
  - setoid_rewrite elem_of_app. setoid_rewrite list_elem_of_singleton.
    destruct (at_AllowFailure a) eqn:Ea; cbn [negb].
    + rewrite Hr. split; [naive_solver|]. intros (b & [Hb|Hb] & ? & ?); [by exists b|congruence].
    + rewrite elem_of_union, elem_of_singleton, Hr. split; [naive_solver|].
      intros (b & [Hb|Hb] & ? & ?); [right; by exists b|left; congruence].
  - rewrite attempts_of_snoc. assert (bool_decide (is_Some (byName x !! at_Name a)) = true ↔ at_Name a ∈ ja_names x) as Hb.
    { rewrite bool_decide_eq_true, Hn, Hj. destruct (attempts_of (at_Name a) l); [split; [by intros [? ?]|done]|by split]. }
    destruct (String.eqb_spec (at_Name a) name) as [<-|Hne].
    + split; [intros _; apply snoc_not_nil|]. intros _. destruct (bool_decide _); [by apply Hb|].
      apply elem_of_app. right. by left.
    + rewrite app_nil_r, <- Hn. destruct (bool_decide _); [done|]. rewrite elem_of_app, list_elem_of_singleton.
      naive_solver.
Qed.

Lemma fold_accounts l : accounts l (fold_left attempt_step l (mkJobsAcc ∅ ∅ [])).
Proof.
  induction l as [|a l IH] using rev_ind.
  - split; intros name; cbn; [by rewrite lookup_empty|set_solver|set_solver].
  - rewrite fold_left_app. by apply attempt_step_accounts.
Qed.

(** What K3 says of a job, from its attempts [l]. *)
Definition rule_of (l : list Attempt) : Rule :=
  if 0 <? with_status StatusSuccess l then RuleK3Flaky
  else if forallb at_AllowFailure l then RuleK3AllowedFailure
  else if with_status StatusFailed l =? Z.of_nat (length l) then RuleK3Red
  else RuleK3Attempts.

Definition finding_of (name : string) (l : list Attempt) : JobFinding :=
  mkJobFinding name (rule_of l) (Z.of_nat (length l)) (with_status StatusFailed l) (with_status StatusSuccess l).

Lemma required_spec name (R : gset string) l :
  (name ∈ R ↔ ∃ a, a ∈ l ∧ at_Name a = name ∧ at_AllowFailure a = false) →
  negb (bool_decide (name ∈ R)) = forallb at_AllowFailure (attempts_of name l).
Proof.
  intros H. apply eq_true_iff_eq. rewrite negb_true_iff, bool_decide_eq_false, H, forallb_elem. unfold attempts_of.
  setoid_rewrite elem_of_filter_List. setoid_rewrite String.eqb_eq. split.
  - intros Hno a [Ha Hnm]. apply not_false_iff_true. intros E. apply Hno. by exists a.
  - intros Hall (a & Ha & Hnm & E). specialize (Hall a (conj Ha Hnm)). congruence.
Qed.

(** One finding for every job with a failed attempt, and for no other. *)
Lemma judgeJobs_elem cs j :
  j ∈ judgeJobs cs ↔
  ∃ name, let l := attempts_of name (flat_map pl_Jobs cs) in 0 < with_status StatusFailed l ∧ j = finding_of name l.
Proof.
  unfold judgeJobs. destruct (fold_accounts (flat_map pl_Jobs cs)) as [Hj Hr Hn].
  set (x := fold_left _ _ _) in *. rewrite list_elem_of_In, in_flat_map. setoid_rewrite <- list_elem_of_In.
  setoid_rewrite sort_strings_elem. setoid_rewrite Hn.
  assert (∀ name, 0 <= with_status StatusFailed (attempts_of name (flat_map pl_Jobs cs))) as Hpos.
  { intros name. unfold with_status. lia. }
  assert (∀ name, job_finding x name =
    (if with_status StatusFailed (attempts_of name (flat_map pl_Jobs cs)) =? 0 then []
     else [finding_of name (attempts_of name (flat_map pl_Jobs cs))])) as Hf.
  { intros name. unfold job_finding. rewrite Hj. destruct (attempts_of name _) as [|b m] eqn:E; [done|].
    cbn [Failed Attempts Succeeded fj_Job]. destruct (_ =? 0); [done|].
    unfold finding_of, jobRule. cbn [Failed Attempts Succeeded]. unfold rule_of.
    by rewrite (required_spec name _ _ (Hr name)), E. }
  split.
  - intros (name & Hne & Hin). exists name. rewrite Hf in Hin. cbn zeta.
    destruct (Z.eqb_spec (with_status StatusFailed (attempts_of name (flat_map pl_Jobs cs))) 0) as [E|E].
    { by apply elem_of_nil in Hin. }
    apply list_elem_of_singleton in Hin. specialize (Hpos name). split; [lia|done].
  - intros (name & Hlt & ->). exists name. rewrite Hf. split.
    + intros E. rewrite E in Hlt. done.
    + destruct (Z.eqb_spec (with_status StatusFailed (attempts_of name (flat_map pl_Jobs cs))) 0); [lia|by left].
Qed.

Lemma firstJob_some jobs rule j : firstJob jobs rule = Some j → fj_Rule j = rule.
Proof. intros [_ H]%List.find_some. by apply String.eqb_eq. Qed.

Lemma firstJob_none jobs rule : firstJob jobs rule = None ↔ ∀ j, j ∈ jobs → fj_Rule j ≠ rule.
Proof. unfold firstJob. rewrite find_none. by setoid_rewrite String.eqb_neq. Qed.

Lemma rule_of_cases l :
  rule_of l ∈ [RuleK3Flaky; RuleK3AllowedFailure; RuleK3Red; RuleK3Attempts].
Proof. apply contains_elem. unfold rule_of. repeat case_match; reflexivity. Qed.

(** ** The answer *)

Section judge.
Context `{SortSlice} (f : JudgeFacts).

(** Everything recorded is there, and the merge request is gonk's open one. *)
Definition judgeable_at (now : Time) : Prop :=
  missingFacts f now = [] ∧ mr_State (jf_MR f) = MRStateOpened ∧
  mr_SHA (jf_MR f) = ChangeCommitSHA (jf_Change f).

(** The pipelines of the change commit, child pipelines apart. *)
Definition candidates_of : list Pipeline :=
  if pf_Read (jf_Pipelines f)
  then sort_slice pl_ID (List.filter (is_candidate (ChangeCommitSHA (jf_Change f))) (pf_Pipelines (jf_Pipelines f)))
  else [].

Definition well_formed : bool :=
  negb (pf_Read (jf_Pipelines f) && existsb malformed_pipeline (pf_Pipelines (jf_Pipelines f))) &&
  forallb (λ c, negb (existsb malformed_job (pl_Jobs c))) candidates_of.

Definition definition_known : bool :=
  df_Read (jf_Definition f) && knownKind (dl_Kind (df_Delta (jf_Definition f))).
Definition definition_causes : list Rule :=
  if definition_known then
    let c := judgeDefinition (df_Delta (jf_Definition f)) in if negb (String.eqb c "") then [c] else []
  else [RuleK2Unread].
Definition lists_of : list Fact := flat_map unlisted candidates_of.
Definition unread_of : list Fact :=
  (if pf_Read (jf_Pipelines f) then [] else [PipelinesUnread]) ++
  (if definition_known then [] else [DefinitionUnread]) ++ lists_of.
Definition settle_causes : list Rule :=
  if pf_Read (jf_Pipelines f) then if all_settled candidates_of then [] else [RuleK1Timeout] else [RuleK1Unread].
Definition complete_of : bool := pf_Read (jf_Pipelines f) && (length lists_of =? 0)%nat.
Definition jobs_of : list JobFinding := if complete_of then judgeJobs candidates_of else [].
Definition jobs_causes : list Rule :=
  if pf_Read (jf_Pipelines f) then
    if (length lists_of =? 0)%nat then option_list (fj_Rule <$> firstJob (judgeJobs candidates_of) RuleK3Attempts)
    else [RuleK3Unread]
  else [].
Definition unverifiable_of : list Rule :=
  settle_causes ++ definition_causes ++ jobs_causes ++ status_cause candidates_of.
Definition tests_of : Tests := judgeTests (jf_Change f) candidates_of.

(** A verdict is due once the deadline has passed or every fact is in. *)
Definition verdict_due (now : Time) : Prop :=
  VerifyDeadline (jf_Change f) <= now ∨
  pf_Read (jf_Pipelines f) = true ∧ all_settled candidates_of = true ∧ unread_of = [] ∧
  te_Finding tests_of ≠ TestsUnknown.

Definition verdict_now : Verdict * Rule :=
  verdict jobs_of unverifiable_of (give_up_report tests_of) (RequireTestReport (jf_Change f)).

Lemma change_read_jobs cs u :
  read_jobs cs u =
    match List.find (λ c, existsb malformed_job (pl_Jobs c)) cs with
    | Some c => inl (pl_ID c)
    | None => inr (u ++ flat_map unlisted cs)
    end.
Proof.
  revert u. induction cs as [|c cs IH]; intros u; cbn; [by rewrite app_nil_r|].
  destruct (existsb malformed_job (pl_Jobs c)); [done|]. rewrite IH. case_match; [done|]. by rewrite app_assoc.
Qed.

Lemma change_definition_step p :
  ∃ res, judge_definition f p =
    mkProgress (pr_candidates p) (pr_unread p ++ if definition_known then [] else [DefinitionUnread])
      (pr_unverifiable p ++ definition_causes) res.
Proof.
  unfold judge_definition, definition_causes, definition_known.
  destruct (df_Read (jf_Definition f) && knownKind (dl_Kind (df_Delta (jf_Definition f)))) eqn:E.
  - apply andb_prop in E as [-> ->]. cbn [negb orb]. destruct (String.eqb _ ""); cbn [negb]; eexists;
      rewrite ?app_nil_r; reflexivity.
  - apply andb_false_iff in E. destruct E as [-> | ->]; cbn [negb orb]; rewrite ?orb_true_r; eexists; reflexivity.
Qed.

(** From K3 on: a verdict, or none. *)
Lemma change_rest past p :
  well_formed = true → pr_candidates p = candidates_of →
  pr_unread p ++ lists_of = unread_of → pr_unverifiable p = settle_causes ++ definition_causes →
  ((past = true ∨ unread_of = [] ∧ te_Finding tests_of ≠ TestsUnknown) →
     judge_rest f past p = decide_verdict verdict_now (set_Jobs jobs_of (give_up_report tests_of) (pr_res p))) ∧
  (¬ (past = true ∨ unread_of = [] ∧ te_Finding tests_of ≠ TestsUnknown) →
     r_Decision (judge_rest f past p) = DecisionCannotJudge ∧ r_Verdict (judge_rest f past p) = "").
Proof.
  intros [_ Hw]%andb_prop Hc Hu Hv. unfold judge_rest. rewrite Hc, change_read_jobs.
  rewrite (proj2 (find_none _ _)).
  2:{ intros c Hin. rewrite forallb_elem in Hw. apply negb_true_iff, Hw, Hin. }
  cbn [app]. fold lists_of tests_of. rewrite Hu.
  assert (job_causes f p lists_of = (jobs_of, jobs_causes)) as ->.
  { unfold job_causes, jobs_of, jobs_causes, complete_of. rewrite Hc.
    destruct (pf_Read (jf_Pipelines f)); [|done]. cbn [negb andb]. destruct (length lists_of =? 0)%nat; [|done].
    by destruct (firstJob _ _). }
  rewrite Hv, <- app_assoc. fold unverifiable_of. fold verdict_now.
  destruct past; cbn [negb andb]; [split; [done|intros Hn; destruct Hn; by left]|].
  destruct unread_of as [|u us]; cbn [length Nat.ltb Nat.leb].
  - destruct (String.eqb_spec (te_Finding tests_of) TestsUnknown) as [E|E].
    + split; [|done]. intros [?|[_ ?]]; done.
    + split; [done|]. intros Hn. destruct Hn. by right.
  - split; [|done]. intros [?|[? _]]; done.
Qed.

Lemma past_spec now : negb (Before now (VerifyDeadline (jf_Change f))) = true ↔ VerifyDeadline (jf_Change f) <= now.
Proof. unfold Before. by rewrite negb_true_iff, Z.ltb_ge. Qed.

(** The merge request is judged: a verdict when it is due, none before. *)
Lemma change_stage now :
  judgeable_at now → well_formed = true →
  (verdict_due now → ∃ res, Judge f now = decide_verdict verdict_now res ∧ r_Jobs res = jobs_of ∧
     r_Tests res = give_up_report tests_of) ∧
  (¬ verdict_due now → r_Decision (Judge f now) ≠ DecisionVerdict ∧ r_Verdict (Judge f now) = "").
Proof.
  intros (Hm & Ho & Hs) Hw. unfold Judge. rewrite Hm, Ho, Hs, !String.eqb_refl. cbn [length Nat.ltb Nat.leb negb].
  change (String.eqb MRStateOpened MRStateMerged) with false. change (String.eqb MRStateOpened MRStateClosed) with false.
  cbn iota.
  pose proof (past_spec now) as Hp. set (past := negb (Before now (VerifyDeadline (jf_Change f)))) in *.
  unfold verdict_due. rewrite <- Hp. clear Hp. unfold settle.
  destruct (pf_Read (jf_Pipelines f)) eqn:Hr; cbn [negb].
  - unfold selection. apply andb_prop in Hw as Hw'. destruct Hw' as [Hw1 _]. rewrite Hr in Hw1. cbn [andb] in Hw1.
    apply negb_true_iff in Hw1. rewrite Hw1.
    assert (sort_slice pl_ID (List.filter (is_candidate (ChangeCommitSHA (jf_Change f))) (pf_Pipelines (jf_Pipelines f)))
            = candidates_of) as -> by (unfold candidates_of; by rewrite Hr).
    destruct (negb (all_settled candidates_of) && negb past) eqn:Hwait.
    + apply andb_prop in Hwait as [H1%negb_true_iff H2%negb_true_iff]. rewrite H1, H2.
      split; [intros [?|(_ & ? & _)]; done|]. intros _. by split.
    + destruct (change_definition_step (mkProgress candidates_of [] (if all_settled candidates_of then [] else [RuleK1Timeout])
        (mkResult "" "" "" "" [] (map pl_ID candidates_of) "" [] Tests_zero))) as [res ->].
      cbn [pr_candidates pr_unread pr_unverifiable app].
      destruct (change_rest past (mkProgress candidates_of (if definition_known then [] else [DefinitionUnread])
        ((if all_settled candidates_of then [] else [RuleK1Timeout]) ++ definition_causes) res) Hw eq_refl) as [H1 H2].
      { unfold unread_of. by rewrite Hr. }
      { unfold settle_causes. by rewrite Hr. }
      assert (past = true ∨ all_settled candidates_of = true) as Hx.
      { destruct past, (all_settled candidates_of); try done; auto. }
      split.
      * intros Hd. rewrite H1 by naive_solver. by eexists.
      * intros Hd. destruct H2 as [-> ->]; [naive_solver|done].
  - assert (candidates_of = []) as Hc by (unfold candidates_of; by rewrite Hr).
    destruct (change_definition_step (mkProgress [] [PipelinesUnread] [RuleK1Unread] Result_zero)) as [res ->].
    cbn [pr_candidates pr_unread pr_unverifiable].
    destruct (change_rest past (mkProgress [] ([PipelinesUnread] ++ if definition_known then [] else [DefinitionUnread])
        ([RuleK1Unread] ++ definition_causes) res) Hw (eq_sym Hc)) as [H1 H2].
    { unfold unread_of. by rewrite Hr. }
    { unfold settle_causes. by rewrite Hr. }
    split.
    + intros [Hd|[? _]]; [|done]. rewrite H1 by by left. by eexists.
    + intros Hd. destruct H2 as [-> ->]; [|done]. intros [?|[E _]]; [naive_solver|]. unfold unread_of in E. by rewrite Hr in E.
Qed.

(** Everything else is no verdict. *)
Lemma change_no_verdict now :
  ¬ (judgeable_at now ∧ well_formed = true) →
  r_Decision (Judge f now) ≠ DecisionVerdict ∧ r_Verdict (Judge f now) = "".
Proof.
  intros Hn. unfold Judge. destruct (missingFacts f now) as [|m ms] eqn:Hm; cbn [length Nat.ltb Nat.leb]; [|done].
  destruct (String.eqb_spec (mr_State (jf_MR f)) MRStateMerged) as [|_]; [done|].
  destruct (String.eqb_spec (mr_State (jf_MR f)) MRStateClosed) as [|_]; [done|].
  destruct (String.eqb_spec (mr_State (jf_MR f)) MRStateOpened) as [Ho|]; cbn [negb]; [|done].
  destruct (String.eqb_spec (mr_SHA (jf_MR f)) (ChangeCommitSHA (jf_Change f))) as [Hs|]; cbn [negb]; [|done].
  assert (well_formed = false) as Hw.
  { apply not_true_iff_false. intros Hw. apply Hn. split; [by split|done]. }
  set (past := negb _). clearbody past. unfold settle. destruct (pf_Read (jf_Pipelines f)) eqn:Hr; cbn [negb].
  2:{ exfalso. unfold well_formed, candidates_of in Hw. by rewrite Hr in Hw. }
  unfold selection. destruct (existsb malformed_pipeline _) eqn:Hp; [done|].
  unfold well_formed in Hw. rewrite Hr, Hp in Hw. cbn [andb negb] in Hw. unfold candidates_of in Hw. rewrite Hr in Hw.
  set (cs := sort_slice pl_ID _) in *. destruct (negb (all_settled cs) && negb past); [done|].
  destruct (change_definition_step (mkProgress cs [] (if all_settled cs then [] else [RuleK1Timeout])
        (mkResult "" "" "" "" [] (map pl_ID cs) "" [] Tests_zero))) as [res ->].
  unfold judge_rest. cbn [pr_candidates]. rewrite change_read_jobs.
  destruct (List.find _ cs) as [c|] eqn:Hf; [done|]. exfalso. rewrite find_none in Hf.
  rewrite (proj2 (forallb_elem _ _)) in Hw; [done|]. intros c Hc. by rewrite Hf.
Qed.

#[local] Instance verdict_due_dec now : Decision (verdict_due now).
Proof. unfold verdict_due. apply _. Defined.

#[local] Instance judgeable_at_dec now : Decision (judgeable_at now).
Proof. unfold judgeable_at. apply _. Defined.

Lemma verdict_known jobs u t req : (verdict jobs u t req).1 ∈ Verdicts.
Proof. apply contains_elem. unfold verdict. repeat case_match; reflexivity. Qed.

Lemma StateFor_known v : v ∈ Verdicts → (StateFor v).2 = true.
Proof. revert v. apply Forall_forall. by apply (bool_decide_unpack _). Qed.

(** The two cases: a verdict, or none. *)
Lemma change_cases now :
  (judgeable_at now ∧ well_formed = true ∧ verdict_due now ∧
   ∃ res, Judge f now = decide_verdict verdict_now res ∧ r_Jobs res = jobs_of ∧ r_Tests res = give_up_report tests_of) ∨
  (¬ (judgeable_at now ∧ well_formed = true ∧ verdict_due now) ∧
   r_Decision (Judge f now) ≠ DecisionVerdict ∧ r_Verdict (Judge f now) = "").
Proof.
  destruct (decide (judgeable_at now ∧ well_formed = true)) as [[Hj Hw]|Hn].
  2:{ right. split; [tauto|]. by apply change_no_verdict. }
  destruct (change_stage now Hj Hw) as [H1 H2]. destruct (decide (verdict_due now)) as [Hd|Hd].
  - left. auto.
  - right. split; [tauto|]. auto.
Qed.

(** Verdicts on changes are given exactly when they are due. Of a change whose
    record is complete, whose merge request is still open on gonk's commit and of
    whose pipelines and jobs none is malformed, a verdict is given if and only if
    the deadline has passed, or a pipeline of the change commit ran, all finished
    and every fact, the test reports included, has been read; then it is one of
    the six and selects the state. In every other case there is none. *)
Theorem change_judged_when_due (now : Time) :
  (r_Decision (Judge f now) = DecisionVerdict ↔ judgeable_at now ∧ well_formed = true ∧ verdict_due now) ∧
  (r_Decision (Judge f now) = DecisionVerdict →
     r_Verdict (Judge f now) ∈ Verdicts ∧ StateFor (r_Verdict (Judge f now)) = (r_State (Judge f now), true)) ∧
  (r_Decision (Judge f now) ≠ DecisionVerdict → r_Verdict (Judge f now) = "").
Proof.
  destruct (change_cases now) as [(Hj & Hw & Hd & res & -> & _)|(Hn & Hdec & Hv)]; [|tauto].
  cbn [decide_verdict r_Decision r_Verdict r_State]. pose proof (verdict_known jobs_of unverifiable_of
    (give_up_report tests_of) (RequireTestReport (jf_Change f))) as Hk. fold verdict_now in Hk.
  pose proof (StateFor_known _ Hk) as Hs. split_and!; [tauto| |done].
  intros _. split; [done|]. destruct (StateFor verdict_now.1). cbn in *. by subst.
Qed.

(** ** GREEN *)

Lemma judgeDefinition_none d : knownKind (dl_Kind d) = true ∧ judgeDefinition d = "" ↔ d = Delta_none.
Proof.
  split; [|by intros ->]. destruct d as [k j r a n g v u]. unfold judgeDefinition. cbn [dl_Kind dl_Jobs Removed Added
    Renamed Globals dl_Violations dl_Unresolvable]. intros [_ Hd]. revert Hd.
  destruct (String.eqb k KindViolation); [done|]. destruct v; [|done]. destruct (String.eqb k KindUnresolvable); [done|].
  destruct u; [|done]. destruct (String.eqb_spec k KindNone) as [->|]; [|done].
  destruct j, r, a, n, g; done.
Qed.

Lemma definition_causes_nil :
  definition_causes = [] ↔ df_Read (jf_Definition f) = true ∧ df_Delta (jf_Definition f) = Delta_none.
Proof.
  rewrite <- judgeDefinition_none. unfold definition_causes, definition_known.
  destruct (df_Read (jf_Definition f)), (knownKind _); cbn [andb]; try (split; [done|naive_solver]).
  destruct (String.eqb_spec (judgeDefinition (df_Delta (jf_Definition f))) ""); cbn [negb]; naive_solver.
Qed.

Lemma settle_causes_nil :
  settle_causes = [] ↔ pf_Read (jf_Pipelines f) = true ∧ candidates_of ≠ [] ∧
    ∀ c, c ∈ candidates_of → settledStatus (pl_Status c) = true.
Proof.
  unfold settle_causes, all_settled. destruct (pf_Read (jf_Pipelines f)); [|split; [done|by intros []]].
  destruct candidates_of as [|c l] eqn:E; cbn [length Nat.ltb Nat.leb andb]; [split; [done|by intros (_ & ? & _)]|].
  rewrite <- forallb_elem. destruct (forallb _ (c :: l)); split; try done. by intros (_ & _ & ?).
Qed.

Lemma status_cause_nil cs : status_cause cs = [] ↔ ∀ c, c ∈ cs → pl_Status c = StatusSuccess.
Proof.
  unfold status_cause. destruct (existsb _ cs) eqn:E.
  - split; [done|]. intros Hx. apply existsb_elem in E as (c & Hc & E). by rewrite (Hx c Hc) in E.
  - rewrite existsb_false in E. split; [|done]. intros _ c Hc. specialize (E c Hc). cbn in E.
    by apply negb_false_iff, String.eqb_eq in E.
Qed.

Lemma lists_nil : lists_of = [] ↔ ∀ c, c ∈ candidates_of → JobsRead c = true ∧ IncludeRetried c = true.
Proof.
  unfold lists_of. induction candidates_of as [|c l IH]; cbn [flat_map]; [split; [intros _ c []%elem_of_nil|done]|].
  setoid_rewrite elem_of_cons. unfold unlisted at 1, miss.
  destruct (JobsRead c) eqn:E1, (IncludeRetried c) eqn:E2; cbn [negb app]; try (split; [done|]; intros Hx;
    destruct (Hx c ltac:(by left)); congruence).
  rewrite IH. naive_solver.
Qed.

Lemma verdict_green jobs u t req :
  (verdict jobs u t req).1 = VerdictGreen ↔
  firstJob jobs RuleK3Red = None ∧ firstJob jobs RuleK3Flaky = None ∧ u = [] ∧
  (te_Finding t = TestsObserved ∨ te_Finding t = TestsNotApplicable).
Proof.
  unfold verdict. destruct (firstJob jobs RuleK3Red); [split; [done|by intros []]|].
  destruct (String.eqb_spec (te_Finding t) TestsNewNotRun) as [E|_].
  { rewrite E. split; [done|]. by intros (_ & _ & _ & [?|?]). }
  destruct (firstJob jobs RuleK3Flaky); [split; [done|by intros (_ & ? & _)]|].
  destruct u; [|split; [done|by intros (_ & _ & ? & _)]].
  destruct (contains [TestsUnknown; TestsReduced; TestsFailed] (te_Finding t)) eqn:Ec.
  { split; [done|]. by intros (_ & _ & _ & [E|E]); rewrite E in Ec. }
  destruct (String.eqb_spec (te_Finding t) TestsUnobserved) as [E|_].
  { rewrite E. split; [by destruct req|]. by intros (_ & _ & _ & [?|?]). }
  destruct (String.eqb_spec (te_Finding t) TestsObserved) as [->|]; [naive_solver|].
  destruct (String.eqb_spec (te_Finding t) TestsNotApplicable) as [->|]; [naive_solver|]. naive_solver.
Qed.

Lemma tests_not_applicable ch cs :
  te_Finding (judgeTests ch cs) = TestsNotApplicable ↔ testsApply (DiffClasses ch) = false.
Proof.
  unfold judgeTests. destruct (testsApply (DiffClasses ch)); cbn [negb]; [|done]. split; [|done].
  case_match; [done|]. case_match; [done|]. case_match; [by case_match|]. case_match; [done|].
  destruct (new_tests _ _ _) eqn:E; [apply new_tests_finding in E; by rewrite E|]. by case_match.
Qed.

(** A job that failed did so with leave, and passed nowhere. *)
Definition failed_with_leave (l : list Attempt) : Prop :=
  ∀ a, a ∈ l → at_Status a = StatusFailed → ∀ b, b ∈ l → at_Name b = at_Name a →
    at_AllowFailure b = true ∧ at_Status b ≠ StatusSuccess.

Lemma with_status_pos s l : 0 < with_status s l ↔ ∃ a, a ∈ l ∧ at_Status a = s.
Proof.
  assert (∀ a, a ∈ List.filter (λ a, String.eqb (at_Status a) s) l ↔ a ∈ l ∧ at_Status a = s) as Hf
    by (intros a; by rewrite elem_of_filter_List, String.eqb_eq).
  unfold with_status. setoid_rewrite <- Hf. destruct (List.filter _ l) as [|a m]; cbn [length].
  - split; [lia|]. by intros (a & []%elem_of_nil).
  - split; [|lia]. intros _. exists a. by left.
Qed.

Lemma attempts_elem name l a : a ∈ attempts_of name l ↔ a ∈ l ∧ at_Name a = name.
Proof. unfold attempts_of. by rewrite elem_of_filter_List, String.eqb_eq. Qed.

Lemma rule_of_allowed l :
  rule_of l = RuleK3AllowedFailure ↔ ∀ b, b ∈ l → at_AllowFailure b = true ∧ at_Status b ≠ StatusSuccess.
Proof.
  unfold rule_of. destruct (Z.ltb_spec 0 (with_status StatusSuccess l)) as [H1|H1].
  - apply with_status_pos in H1 as (a & Ha & Es). split; [done|]. intros Hx. by destruct (Hx a Ha).
  - assert (∀ b, b ∈ l → at_Status b ≠ StatusSuccess) as Hno.
    { intros b Hb E. assert (0 < with_status StatusSuccess l) by (apply with_status_pos; by exists b). lia. }
    destruct (forallb at_AllowFailure l) eqn:E.
    + rewrite forallb_elem in E. split; [|done]. intros _ b Hb. auto.
    + split; [by destruct (_ =? _)|]. intros Hx. exfalso. apply not_true_iff_false in E. apply E, forallb_elem.
      intros b Hb. by apply Hx.
Qed.

Lemma with_status_le s l : with_status s l <= Z.of_nat (length l).
Proof. unfold with_status. pose proof (List.filter_length_le (λ a, String.eqb (at_Status a) s) l). lia. Qed.

Lemma with_status_all s l : with_status s l = Z.of_nat (length l) ↔ ∀ a, a ∈ l → at_Status a = s.
Proof.
  induction l as [|a l IH]; [split; [intros _ a []%elem_of_nil|done]|].
  setoid_rewrite elem_of_cons. pose proof (with_status_le s l) as Hle. unfold with_status in *. cbn [List.filter length].
  destruct (String.eqb_spec (at_Status a) s) as [E|E]; cbn [length].
  - rewrite !Nat2Z.inj_succ, Z.succ_inj_wd, IH. split; [|auto]. intros Hx b [->|Hb]; auto.
  - split; [lia|]. intros Hx. by destruct E; apply Hx; left.
Qed.

Lemma rule_of_red l :
  rule_of l = RuleK3Red ∧ 0 < with_status StatusFailed l ↔
  l ≠ [] ∧ (∀ a, a ∈ l → at_Status a = StatusFailed) ∧ ∃ a, a ∈ l ∧ at_AllowFailure a = false.
Proof.
  assert (forallb at_AllowFailure l = false ↔ ∃ a, a ∈ l ∧ at_AllowFailure a = false) as Hl.
  { induction l as [|a l IH]; cbn [forallb]; [split; [done|by intros (x & []%elem_of_nil & _)]|].
    setoid_rewrite elem_of_cons. destruct (at_AllowFailure a) eqn:E; cbn [andb]; [|split; [|done]; intros _; exists a; auto].
    rewrite IH. split; [intros (b & ? & ?); exists b; auto|]. intros (b & [->|?] & Eb); [congruence|by exists b]. }
  rewrite <- Hl, <- with_status_all. unfold rule_of. split.
  - intros [Hr Hp]. destruct (0 <? with_status StatusSuccess l); [done|]. destruct (forallb _ l); [done|].
    destruct (Z.eqb_spec (with_status StatusFailed l) (Z.of_nat (length l))); [|done].
    split_and!; [|done|done]. by intros ->.
  - intros (Hne & Hf & ->). rewrite Hf, Z.eqb_refl. split.
    + destruct (Z.ltb_spec 0 (with_status StatusSuccess l)) as [Hs|_]; [|done].
      apply with_status_pos in Hs as (a & Ha & Es). pose proof (proj1 (with_status_all _ _) Hf a Ha) as Hx. by rewrite Es in Hx.
    + destruct l; [done|cbn; lia].
Qed.

Lemma judgeJobs_allowed cs :
  (∀ j, j ∈ judgeJobs cs → fj_Rule j = RuleK3AllowedFailure) ↔ failed_with_leave (flat_map pl_Jobs cs).
Proof.
  unfold failed_with_leave. split.
  - intros H1 a Ha Es. specialize (H1 (finding_of (at_Name a) (attempts_of (at_Name a) (flat_map pl_Jobs cs)))).
    cbn [finding_of fj_Rule] in H1. rewrite rule_of_allowed in H1.
    intros b Hb En. apply H1; [|by apply attempts_elem]. apply judgeJobs_elem. exists (at_Name a). split; [|done].
    apply with_status_pos. exists a. by rewrite attempts_elem.
  - intros H1 j (name & Hp & ->)%judgeJobs_elem. cbn [finding_of fj_Rule]. apply rule_of_allowed.
    apply with_status_pos in Hp as (a & [Ha <-]%attempts_elem & Es). intros b [Hb En]%attempts_elem. by apply (H1 a).
Qed.

Lemma judgeJobs_quiet cs :
  firstJob (judgeJobs cs) RuleK3Red = None ∧ firstJob (judgeJobs cs) RuleK3Flaky = None ∧
  firstJob (judgeJobs cs) RuleK3Attempts = None ↔ failed_with_leave (flat_map pl_Jobs cs).
Proof.
  rewrite <- judgeJobs_allowed, !firstJob_none. split.
  - intros (H1 & H2 & H3) j Hj. specialize (H1 j Hj). specialize (H2 j Hj). specialize (H3 j Hj).
    apply judgeJobs_elem in Hj as (name & _ & ->). cbn [finding_of fj_Rule] in *.
    pose proof (rule_of_cases (attempts_of name (flat_map pl_Jobs cs))) as Hr.
    rewrite !elem_of_cons, elem_of_nil in Hr. by destruct Hr as [?|[?|[?|[?|?]]]].
  - intros H1. split_and!; intros j Hj; by rewrite H1.
Qed.

Lemma unverifiable_nil :
  unverifiable_of = [] ↔
  (pf_Read (jf_Pipelines f) = true ∧ candidates_of ≠ [] ∧
   ∀ c, c ∈ candidates_of → pl_Status c = StatusSuccess ∧ JobsRead c = true ∧ IncludeRetried c = true) ∧
  (df_Read (jf_Definition f) = true ∧ df_Delta (jf_Definition f) = Delta_none) ∧
  firstJob (judgeJobs candidates_of) RuleK3Attempts = None.
Proof.
  unfold unverifiable_of. rewrite !app_nil, settle_causes_nil, definition_causes_nil, status_cause_nil.
  unfold jobs_causes. split.
  - intros ((Hr & Hne & _) & Hd & Hjobs & Hs). rewrite Hr in Hjobs.
    destruct (length lists_of =? 0)%nat eqn:El; [|done]. apply length_zero in El. rewrite lists_nil in El.
    split_and!; [done..| |by destruct Hd|by destruct Hd|by destruct (firstJob _ _)].
    intros c Hc. split; [auto|by apply El].
  - intros ((Hr & Hne & Hc) & Hd & Hj). assert (lists_of = []) as El by (apply lists_nil; intros c Hin; by destruct (Hc c Hin)).
    rewrite Hr, El, Hj. split_and!; [done..| |by destruct Hd|by destruct Hd|done|]; intros c Hin; destruct (Hc c Hin) as [-> _]; done.
Qed.

Lemma jobs_complete :
  pf_Read (jf_Pipelines f) = true →
  (∀ c, c ∈ candidates_of → pl_Status c = StatusSuccess ∧ JobsRead c = true ∧ IncludeRetried c = true) →
  jobs_of = judgeJobs candidates_of.
Proof.
  intros Hr Hc. unfold jobs_of, complete_of. rewrite Hr, (proj2 lists_nil); [done|].
  intros c Hin. by destruct (Hc c Hin).
Qed.

(** C18. A change is GREEN on exactly one ground, and the clock is not part of it:
    everything recorded is there and the merge request is still gonk's open one;
    nothing read is malformed; the change commit has a pipeline, every pipeline of
    it succeeded and is listed with every retried attempt; the CI definition was
    compared and nothing in it differs; a job that failed anywhere was allowed to
    on every attempt, and never passed; and the tests were observed, or the diff is
    documentation alone. *)
Theorem change_green_exact (now : Time) :
  r_Verdict (Judge f now) = VerdictGreen ↔
  judgeable_at now ∧ well_formed = true ∧
  (pf_Read (jf_Pipelines f) = true ∧ candidates_of ≠ [] ∧
   ∀ c, c ∈ candidates_of → pl_Status c = StatusSuccess ∧ JobsRead c = true ∧ IncludeRetried c = true) ∧
  (df_Read (jf_Definition f) = true ∧ df_Delta (jf_Definition f) = Delta_none) ∧
  failed_with_leave (flat_map pl_Jobs candidates_of) ∧
  (testsApply (DiffClasses (jf_Change f)) = false ∨ tests_observed (jf_Change f) candidates_of).
Proof.
  rewrite <- judgeJobs_quiet, <- judgeTests_observed, <- (tests_not_applicable (jf_Change f) candidates_of).
  fold tests_of. pose proof (verdict_green jobs_of unverifiable_of (give_up_report tests_of) (RequireTestReport (jf_Change f)))
    as Hg. fold verdict_now in Hg.
  assert (te_Finding (give_up_report tests_of) = te_Finding tests_of) as Et by (unfold give_up_report; by case_match).
  rewrite unverifiable_nil, Et in Hg. split.
  - intros Hv. destruct (change_cases now) as [(Hj & Hw & _ & res & Er & _)|(_ & _ & Er)]; rewrite Er in Hv; [|done].
    apply Hg in Hv as (H1 & H2 & ((Hr & Hne & Hc) & Hd & H3) & Ht). rewrite jobs_complete in H1, H2 by done.
    split_and!; try done; [by destruct Hd|by destruct Hd|]. tauto.
  - intros (Hj & Hw & (Hr & Hne & Hc) & Hd & (H1 & H2 & H3) & Ht).
    destruct (change_cases now) as [(_ & _ & _ & res & -> & _)|(Hn & _)].
    + apply Hg. rewrite jobs_complete by done. tauto.
    + destruct Hn. split_and!; [by destruct Hj as (? & ? & ?)..|done|]. right. split_and!; [done| | |].
      * unfold all_settled. apply andb_true_intro. split; [by destruct candidates_of|].
        apply forallb_elem. intros c Hin. by destruct (Hc c Hin) as [-> _].
      * unfold unread_of, definition_known. destruct Hd as [-> ->]. rewrite Hr. apply lists_nil.
        intros c Hin. by destruct (Hc c Hin).
      * by destruct Ht as [-> | ->].
Qed.

(** A due verdict is NOT_GREEN exactly when a job that must pass failed on every
    attempt, in a listing known to be complete. *)
Lemma change_not_green now :
  verdict_due now → judgeable_at now → well_formed = true →
  r_Verdict (Judge f now) = VerdictNotGreen ↔
  complete_of = true ∧ ∃ name, let l := attempts_of name (flat_map pl_Jobs candidates_of) in
    l ≠ [] ∧ (∀ a, a ∈ l → at_Status a = StatusFailed) ∧ ∃ a, a ∈ l ∧ at_AllowFailure a = false.
Proof.
  intros Hd Hj Hw. destruct (proj1 (change_stage now Hj Hw) Hd) as (res & -> & _). cbn [decide_verdict r_Verdict].
  assert (verdict_now.1 = VerdictNotGreen ↔ firstJob jobs_of RuleK3Red ≠ None) as ->.
  { unfold verdict_now, verdict. destruct (firstJob jobs_of RuleK3Red) as [j|] eqn:E; [done|].
    split; [|done]. repeat case_match; done. }
  unfold jobs_of. destruct complete_of; [|split; [done|by intros []]].
  rewrite firstJob_none. split.
  - intros Hn. split; [done|].
    assert (∃ j, j ∈ judgeJobs candidates_of ∧ fj_Rule j = RuleK3Red) as (j & Hin & Er).
    { destruct (firstJob (judgeJobs candidates_of) RuleK3Red) as [j|] eqn:E.
      - exists j. split; [|by eapply firstJob_some]. apply List.find_some in E as [E _]. by apply list_elem_of_In.
      - exfalso. apply Hn. by apply firstJob_none. }
    apply judgeJobs_elem in Hin as (name & Hp & ->). exists name. cbn zeta. by apply rule_of_red.
  - intros [_ (name & Hr)] Hx. cbn zeta in Hr. apply rule_of_red in Hr as [Hr Hp].
    apply (Hx (finding_of name (attempts_of name (flat_map pl_Jobs candidates_of)))); [|done].
    apply judgeJobs_elem. by exists name.
Qed.
End judge.

(** ** Examples *)

Definition demo_report (cs : list (string * string)) : Report :=
  mkReport true (Z.of_nat (length cs)) (map (λ '(n, s), mkCase "go" "pkg/a" n s) cs).
Definition demo_change (base : Report) (tests : list GoTest) : ChangeFacts :=
  mkChangeFacts true "b0" "c1" 7 3 ["source"; "test"] base true tests false 1000.
Definition demo_pipeline (status : string) (jobs : list Attempt) (r : Report) : Pipeline :=
  mkPipeline 11 "c1" "push" status true true jobs r.
Definition demo_facts (base : Report) (tests : list GoTest) (ps : list Pipeline) : JudgeFacts :=
  mkJudgeFacts (demo_change base tests) (mkMRFacts true 3 "opened" "c1") (mkPipelineFacts true ps)
    (mkDefinitionFacts true Delta_none).

Definition demo_base : Report := demo_report [("TestOld", "success")].
Definition demo_head : Report := demo_report [("TestOld", "success"); ("TestNew", "success")].
Definition demo_new : list GoTest := [mkGoTest "a" "TestNew"].

Example change_examples :
  (* the new test ran in a green pipeline *)
  r_Verdict (Judge (demo_facts demo_base demo_new [demo_pipeline "success" [mkAttempt 1 "unit" "success" false] demo_head]) 5)
    = VerdictGreen ∧
  (* ... and did not *)
  r_Verdict (Judge (demo_facts demo_base demo_new [demo_pipeline "success" [] demo_base]) 5) = VerdictTestsNotRun ∧
  (* a retry that passed *)
  r_Verdict (Judge (demo_facts demo_base demo_new [demo_pipeline "success"
    [mkAttempt 1 "unit" "failed" false; mkAttempt 2 "unit" "success" false] demo_head]) 5) = VerdictFlaky ∧
  (* red *)
  r_Verdict (Judge (demo_facts demo_base demo_new [demo_pipeline "failed" [mkAttempt 1 "unit" "failed" false] demo_head]) 5)
    = VerdictNotGreen ∧
  (* running, before and after the deadline *)
  r_Decision (Judge (demo_facts demo_base demo_new [demo_pipeline "running" [] demo_head]) 5) = DecisionWait ∧
  r_Rule (Judge (demo_facts demo_base demo_new [demo_pipeline "running" [] demo_head]) 1000) = RuleK1Timeout ∧
  (* a case was lost *)
  r_Rule (Judge (demo_facts demo_base demo_new [demo_pipeline "success" [] (demo_report [("TestNew", "success")])]) 5)
    = RuleK4Reduced.
Proof. vm_compute. by repeat split. Qed.

(** GREEN is given to a change with a failed attempt, when it was allowed to
    fail. *)
Example green_with_failed_attempt :
  r_Verdict (Judge (demo_facts demo_base demo_new [demo_pipeline "success"
    [mkAttempt 1 "unit" "success" false; mkAttempt 2 "lint" "failed" true] demo_head]) 5) = VerdictGreen.
Proof. vm_compute. reflexivity. Qed.

(** Under the [go] profile, a change that adds no test function is GREEN on a
    report in which no case passes. *)
Example green_without_passing_case :
  let skipped := demo_report [("TestOld", "skipped")] in
  let r := Judge (demo_facts skipped [] [demo_pipeline "success" [] skipped]) 5 in
  r_Verdict r = VerdictGreen ∧ te_Finding (r_Tests r) = TestsObserved.
Proof. vm_compute. by split. Qed.
