(* ===== verification/ChangeEligible.v ===== *)
(** * [pkg/changejudge]: eligibility

    [eligible.go]: whether a session may be dispatched to implement an issue.
    The rows I1-I8 are the code's, in its order; the sentences of the reasons
    are left out. *)

From Stdlib Require Import Ascii.
From S2P Require Import Prelude.
From S2P Require Import GoStrings.
From S2P Require Import ChangeJudge.

(** ** What is read *)

Abbreviation Form := string (only parsing).
Definition FormLabel : Form := "label".
Definition FormCommand : Form := "command".
Definition FormMention : Form := "mention".
Definition Forms : list Form := [FormLabel; FormCommand; FormMention].

Definition MinRequesterAccess : Z := 40.
Definition IssueStateOpened : string := "opened".

Record ConfigFacts := mkConfigFacts {
  Loaded : bool;
  Features : bool;
  MaxOpen : Z;
  cf_RequireTestReport : bool;
}.

Record Actor := mkActor { Identified : bool; UserID : Z; IsBot : bool; AccessRead : bool; AccessLevel : Z }.
Record Request := mkRequest { rq_Form : Form; LabelOnIssue : bool; rq_Actor : Actor }.
Record TriggerFacts := mkTriggerFacts { tg_Read : bool; Requests : list Request }.
Record IssueFacts := mkIssueFacts { is_Read : bool; is_State : string; Confidential : bool; AuthorIsBot : bool }.
Record BasePipeline := mkBasePipeline { bp_ID : Z; bp_SHA : string; bp_Source : string; bp_Status : string }.
Record BaseFacts := mkBaseFacts { ba_Read : bool; ba_SHA : string; ba_Pipelines : list BasePipeline }.
Record DedupFacts := mkDedupFacts {
  dd_Read : bool;
  ChangeState : State;
  OpenAnchorMRs : Z;
  ClosedUnmergedAnchorMRs : Z;
  MergedAnchorMRs : Z;
}.
Record SerialFacts := mkSerialFacts { sf_Read : bool; OpenChangeMRs : Z }.
Record PinnedFacts := mkPinnedFacts { pn_Read : bool; ConfigValid : bool; ScopeFolded : bool }.

Record EligibleFacts := mkEligibleFacts {
  ef_Config : ConfigFacts;
  ef_Trigger : TriggerFacts;
  ef_Issue : IssueFacts;
  ef_Base : BaseFacts;
  ef_Dedup : DedupFacts;
  ef_Serial : SerialFacts;
  ef_Pinned : PinnedFacts;
  ef_BaseReport : Report;
}.

(** ** Reasons *)

Abbreviation ReasonCode := string (only parsing).
Definition I1Unread : ReasonCode := "I1.unread".
Definition I1FeaturesOff : ReasonCode := "I1.features-off".
Definition I2Unread : ReasonCode := "I2.unread".
Definition I2NoRequest : ReasonCode := "I2.no-request".
Definition I2FormNotAccepted : ReasonCode := "I2.form-not-accepted".
Definition I2LabelNotOnIssue : ReasonCode := "I2.label-not-on-issue".
Definition I2ActorIsBot : ReasonCode := "I2.actor-is-bot".
Definition I2ActorCannotRequest : ReasonCode := "I2.actor-cannot-request".
Definition I3Unread : ReasonCode := "I3.unread".
Definition I3NotOpen : ReasonCode := "I3.issue-not-open".
Definition I3Confidential : ReasonCode := "I3.issue-confidential".
Definition I3BotAuthored : ReasonCode := "I3.issue-bot-authored".
Definition I4Unread : ReasonCode := "I4.unread".
Definition I4NoPipeline : ReasonCode := "I4.base-no-pipeline".
Definition I4NotSettled : ReasonCode := "I4.base-not-settled".
Definition I4NotGreen : ReasonCode := "I4.base-not-green".
Definition I5Unread : ReasonCode := "I5.unread".
Definition I5ClosedUnmerged : ReasonCode := "I5.closed-unmerged".
Definition I5ChangeTerminal : ReasonCode := "I5.change-terminal".
Definition I5ChangeInFlight : ReasonCode := "I5.change-in-flight".
Definition I5AnchorMROpen : ReasonCode := "I5.anchor-mr-open".
Definition I5AnchorMRMerged : ReasonCode := "I5.anchor-mr-merged".
Definition I6Unread : ReasonCode := "I6.unread".
Definition I6MaxOpen : ReasonCode := "I6.max-open".
Definition I7Unread : ReasonCode := "I7.unread".
Definition I7ConfigInvalid : ReasonCode := "I7.config-invalid".
Definition I7ScopeFoldFailed : ReasonCode := "I7.scope-fold-failed".
Definition I8Unread : ReasonCode := "I8.unread".
Definition I8NoTestReport : ReasonCode := "I8.no-test-report".

Record Reason := mkReason { Code : ReasonCode; Note : bool; NoVerifierPath : bool; Ours : bool; Unknown : bool }.
Definition Reason_zero : Reason := mkReason "" false false false false.

(** The part of a code before the dot. *)
Fixpoint before_dot (s : string) : string :=
  match s with
  | EmptyString => ""
  | String c s => if Ascii.eqb c "."%char then "" else String c (before_dot s)
  end.
Definition Row (r : Reason) : string := before_dot (Code r).

Definition silent (code : ReasonCode) : Reason := mkReason code false false false false.
Definition noted (code : ReasonCode) : Reason := mkReason code true false false false.
Definition unread (code : ReasonCode) : Reason := mkReason code false false false true.
Definition no_verifier (code : ReasonCode) : Reason := mkReason code true true false false.
Definition ours (code : ReasonCode) : Reason := mkReason code false false true false.

(** ** I2: one request *)

Definition knownForm (f : Form) : bool := existsb (λ k, String.eqb k f) Forms.

Definition requestReason (rq : Request) : Reason :=
  let a := rq_Actor rq in
  if negb (knownForm (rq_Form rq)) then silent I2FormNotAccepted
  else if String.eqb (rq_Form rq) FormLabel && negb (LabelOnIssue rq) then silent I2LabelNotOnIssue
  else if negb (Identified a) || (UserID a =? 0) then unread I2Unread
  else if IsBot a then silent I2ActorIsBot
  else if negb (AccessRead a) then unread I2Unread
  else if AccessLevel a <? MinRequesterAccess then noted I2ActorCannotRequest
  else Reason_zero.

(** [(requested, refused, unknown)]: the first of each kind. *)
Definition request_step (acc : bool * option Reason * option Reason) (rq : Request) :
    bool * option Reason * option Reason :=
  let '(requested, refused, unknown) := acc in
  let why := requestReason rq in
  if String.eqb (Code why) "" then (true, refused, unknown)
  else if Unknown why && (match unknown with None => true | Some _ => false end) then (requested, refused, Some why)
  else if negb (Unknown why) && (match refused with None => true | Some _ => false end)
  then (requested, Some why, unknown)
  else acc.

(** [None]: somebody asked who may. [Some None]: the program would stop on a
    reason that is not there. *)
Definition trigger_reason (rqs : list Request) : option (option Reason) :=
  let '(requested, refused, unknown) := fold_left request_step rqs (false, None, None) in
  if requested then None
  else match unknown with Some u => Some (Some u) | None => Some refused end.

(** ** I4: the base *)

Definition malformed_base (p : BasePipeline) : bool :=
  (bp_ID p =? 0) || String.eqb (bp_SHA p) "" || String.eqb (bp_Source p) "" || String.eqb (bp_Status p) "".
Definition of_head (sha : string) (p : BasePipeline) : bool :=
  String.eqb (bp_SHA p) sha && negb (String.eqb (bp_Source p) SourceParentPipeline).

Definition base_reason (b : BaseFacts) : option Reason :=
  if negb (ba_Read b) || String.eqb (ba_SHA b) "" then Some (unread I4Unread)
  else if existsb malformed_base (ba_Pipelines b) then Some (unread I4Unread)
  else
    let base := List.filter (of_head (ba_SHA b)) (ba_Pipelines b) in
    if (length base =? 0)%nat then Some (no_verifier I4NoPipeline)
    else if existsb (λ p, negb (settledStatus (bp_Status p))) base then Some (silent I4NotSettled)
    else if existsb (λ p, negb (String.eqb (bp_Status p) StatusSuccess)) base then Some (noted I4NotGreen)
    else None.

(** ** I3, I5-I8 *)

Definition issue_reason (i : IssueFacts) : option Reason :=
  if negb (is_Read i) || String.eqb (is_State i) "" then Some (unread I3Unread)
  else if negb (String.eqb (is_State i) IssueStateOpened) then Some (noted I3NotOpen)
  else if Confidential i then Some (noted I3Confidential)
  else if AuthorIsBot i then Some (noted I3BotAuthored)
  else None.

Definition dedup_reason (d : DedupFacts) : option Reason :=
  let s := ChangeState d in
  if negb (dd_Read d) || (negb (String.eqb s "") && negb (KnownState s)) then Some (unread I5Unread)
  else if String.eqb s StateClosedUnmerged then Some (noted I5ClosedUnmerged)
  else if negb (String.eqb s "") && Terminal s then Some (silent I5ChangeTerminal)
  else if negb (String.eqb s "") then Some (silent I5ChangeInFlight)
  else if negb (ClosedUnmergedAnchorMRs d =? 0) then Some (noted I5ClosedUnmerged)
  else if negb (OpenAnchorMRs d =? 0) then Some (silent I5AnchorMROpen)
  else if negb (MergedAnchorMRs d =? 0) then Some (silent I5AnchorMRMerged)
  else None.

Definition serial_reason (s : SerialFacts) (maxOpen : Z) : option Reason :=
  if negb (sf_Read s) then Some (unread I6Unread)
  else if maxOpen <=? OpenChangeMRs s then Some (silent I6MaxOpen)
  else None.

Definition pinned_reason (p : PinnedFacts) : option Reason :=
  if negb (pn_Read p) then Some (unread I7Unread)
  else if negb (ConfigValid p) then Some (ours I7ConfigInvalid)
  else if negb (ScopeFolded p) then Some (ours I7ScopeFoldFailed)
  else None.

Definition report_reason (required : bool) (r : Report) : option Reason :=
  if required then
    if negb (wellFormed r) then Some (unread I8Unread)
    else if Total r =? 0 then Some (no_verifier I8NoTestReport)
    else None
  else None.

Definition config_reason (c : ConfigFacts) : option Reason :=
  if negb (Loaded c) then Some (unread I1Unread)
  else if negb (Features c) then Some (silent I1FeaturesOff)
  else None.

Definition request_reason (t : TriggerFacts) : option (option Reason) :=
  if negb (tg_Read t) then Some (Some (unread I2Unread))
  else if (length (Requests t) =? 0)%nat then Some (Some (silent I2NoRequest))
  else trigger_reason (Requests t).

(** The answer and its reason; [None]: the program stops. *)
Definition Eligible (f : EligibleFacts) : option (bool * Reason) :=
  let refuse r := Some (false, r) in
  match config_reason (ef_Config f) with Some r => refuse r | None =>
  match request_reason (ef_Trigger f) with Some r => (λ r, (false, r)) <$> r | None =>
  match issue_reason (ef_Issue f) with Some r => refuse r | None =>
  match base_reason (ef_Base f) with Some r => refuse r | None =>
  match dedup_reason (ef_Dedup f) with Some r => refuse r | None =>
  match serial_reason (ef_Serial f) (MaxOpen (ef_Config f)) with Some r => refuse r | None =>
  match pinned_reason (ef_Pinned f) with Some r => refuse r | None =>
  match report_reason (cf_RequireTestReport (ef_Config f)) (ef_BaseReport f) with Some r => refuse r | None =>
  Some (true, Reason_zero)
  end end end end end end end end.

(** ** The rows *)

(** A request by somebody who may make it. *)
Definition request_ok (rq : Request) : Prop :=
  rq_Form rq ∈ Forms ∧ (rq_Form rq = FormLabel → LabelOnIssue rq = true) ∧
  Identified (rq_Actor rq) = true ∧ UserID (rq_Actor rq) ≠ 0 ∧ IsBot (rq_Actor rq) = false ∧
  AccessRead (rq_Actor rq) = true ∧ MinRequesterAccess <= AccessLevel (rq_Actor rq).

(** The pipelines the base is judged by. *)
Definition base_pipelines (b : BaseFacts) : list BasePipeline := List.filter (of_head (ba_SHA b)) (ba_Pipelines b).

Record change_dispatchable (f : EligibleFacts) : Prop := {
  cd_config : Loaded (ef_Config f) = true ∧ Features (ef_Config f) = true;
  cd_request : tg_Read (ef_Trigger f) = true ∧ ∃ rq, rq ∈ Requests (ef_Trigger f) ∧ request_ok rq;
  cd_issue : is_Read (ef_Issue f) = true ∧ is_State (ef_Issue f) = IssueStateOpened ∧
    Confidential (ef_Issue f) = false ∧ AuthorIsBot (ef_Issue f) = false;
  cd_base : ba_Read (ef_Base f) = true ∧ ba_SHA (ef_Base f) ≠ "" ∧
    (∀ p, p ∈ ba_Pipelines (ef_Base f) → malformed_base p = false) ∧ base_pipelines (ef_Base f) ≠ [] ∧
    ∀ p, p ∈ base_pipelines (ef_Base f) → bp_Status p = StatusSuccess;
  cd_dedup : dd_Read (ef_Dedup f) = true ∧ ChangeState (ef_Dedup f) = "" ∧ ClosedUnmergedAnchorMRs (ef_Dedup f) = 0 ∧
    OpenAnchorMRs (ef_Dedup f) = 0 ∧ MergedAnchorMRs (ef_Dedup f) = 0;
  cd_serial : sf_Read (ef_Serial f) = true ∧ OpenChangeMRs (ef_Serial f) < MaxOpen (ef_Config f);
  cd_pinned : pn_Read (ef_Pinned f) = true ∧ ConfigValid (ef_Pinned f) = true ∧ ScopeFolded (ef_Pinned f) = true;
  cd_report : cf_RequireTestReport (ef_Config f) = true → wellFormed (ef_BaseReport f) = true ∧ Total (ef_BaseReport f) ≠ 0;
}.

(** The flags of a refusal: a code; what is unknown is neither noted nor blamed
    on anybody; a project without a verifier is told so; a fault of the
    configuration is not noted on the issue. *)
Definition refusal (r : Reason) : Prop :=
  Code r ≠ "" ∧ (Unknown r = true → Note r = false ∧ NoVerifierPath r = false ∧ Ours r = false) ∧
  (NoVerifierPath r = true ↔ Code r = I4NoPipeline ∨ Code r = I8NoTestReport) ∧ (NoVerifierPath r = true → Note r = true) ∧
  (Ours r = true ↔ Code r = I7ConfigInvalid ∨ Code r = I7ScopeFoldFailed) ∧ (Ours r = true → Note r = false).

(** Each row passes or refuses. *)
Definition row (o : option Reason) (ok : Prop) : Prop :=
  match o with None => ok | Some r => ¬ ok ∧ refusal r end.

Lemma refusal_silent c : c ∉ ["" ; I4NoPipeline; I8NoTestReport; I7ConfigInvalid; I7ScopeFoldFailed] → refusal (silent c).
Proof. rewrite !not_elem_of_cons. intros (H1 & H2 & H3 & H4 & H5 & _). split_and!; cbn; naive_solver. Qed.
Lemma refusal_noted c : c ∉ ["" ; I4NoPipeline; I8NoTestReport; I7ConfigInvalid; I7ScopeFoldFailed] → refusal (noted c).
Proof. rewrite !not_elem_of_cons. intros (H1 & H2 & H3 & H4 & H5 & _). split_and!; cbn; naive_solver. Qed.
Lemma refusal_unread c : c ∉ ["" ; I4NoPipeline; I8NoTestReport; I7ConfigInvalid; I7ScopeFoldFailed] → refusal (unread c).
Proof. rewrite !not_elem_of_cons. intros (H1 & H2 & H3 & H4 & H5 & _). split_and!; cbn; naive_solver. Qed.
Lemma refusal_no_verifier c : c ∈ [I4NoPipeline; I8NoTestReport] → refusal (no_verifier c).
Proof. rewrite !elem_of_cons, elem_of_nil. intros [->|[->|[]]]; split_and!; cbn; naive_solver. Qed.
Lemma refusal_ours c : c ∈ [I7ConfigInvalid; I7ScopeFoldFailed] → refusal (ours c).
Proof. rewrite !elem_of_cons, elem_of_nil. intros [->|[->|[]]]; split_and!; cbn; naive_solver. Qed.

Create HintDb change_rows.
Ltac known_code := by apply (bool_decide_unpack _).
#[local] Hint Extern 1 (refusal (silent _)) => (apply refusal_silent; known_code) : change_rows.
#[local] Hint Extern 1 (refusal (noted _)) => (apply refusal_noted; known_code) : change_rows.
#[local] Hint Extern 1 (refusal (unread _)) => (apply refusal_unread; known_code) : change_rows.
#[local] Hint Extern 1 (refusal (no_verifier _)) => (apply refusal_no_verifier; known_code) : change_rows.
#[local] Hint Extern 1 (refusal (ours _)) => (apply refusal_ours; known_code) : change_rows.

Ltac refuse := split; [intuition congruence|auto with change_rows].

Lemma config_row c : row (config_reason c) (Loaded c = true ∧ Features c = true).
Proof.
  unfold config_reason. destruct (Loaded c), (Features c); cbn [negb row]; try done;
    refuse.
Qed.

Lemma issue_row i :
  row (issue_reason i) (is_Read i = true ∧ is_State i = IssueStateOpened ∧ Confidential i = false ∧ AuthorIsBot i = false).
Proof.
  unfold issue_reason. destruct (is_Read i); cbn [negb orb]; [|refuse].
  destruct (String.eqb_spec (is_State i) "") as [E|_]; [split; [by rewrite E; intros (_ & ? & _)|auto with change_rows]|].
  destruct (String.eqb_spec (is_State i) IssueStateOpened); cbn [negb]; [|refuse].
  destruct (Confidential i); [refuse|].
  destruct (AuthorIsBot i); [refuse|]. done.
Qed.

Lemma dedup_row d :
  row (dedup_reason d) (dd_Read d = true ∧ ChangeState d = "" ∧ ClosedUnmergedAnchorMRs d = 0 ∧ OpenAnchorMRs d = 0 ∧
    MergedAnchorMRs d = 0).
Proof.
  unfold dedup_reason. destruct (dd_Read d); cbn [negb orb]; [|refuse].
  destruct (String.eqb_spec (ChangeState d) "") as [->|Hs]; cbn [negb andb].
  - change (String.eqb "" StateClosedUnmerged) with false. cbn iota.
    destruct (Z.eqb_spec (ClosedUnmergedAnchorMRs d) 0); cbn [negb]; [|refuse].
    destruct (Z.eqb_spec (OpenAnchorMRs d) 0); cbn [negb]; [|refuse].
    destruct (Z.eqb_spec (MergedAnchorMRs d) 0); cbn [negb]; [|refuse]. done.
  - destruct (KnownState (ChangeState d)); cbn [negb]; [|refuse].
    destruct (String.eqb _ StateClosedUnmerged); [refuse|].
    destruct (Terminal _); refuse.
Qed.

Lemma serial_row s m : row (serial_reason s m) (sf_Read s = true ∧ OpenChangeMRs s < m).
Proof.
  unfold serial_reason. destruct (sf_Read s); cbn [negb]; [|refuse].
  destruct (Z.leb_spec m (OpenChangeMRs s)); [split; [lia|auto with change_rows]|]. done.
Qed.

Lemma pinned_row p : row (pinned_reason p) (pn_Read p = true ∧ ConfigValid p = true ∧ ScopeFolded p = true).
Proof.
  unfold pinned_reason. destruct (pn_Read p), (ConfigValid p), (ScopeFolded p); cbn [negb row]; try done;
    refuse.
Qed.

Lemma report_row required r :
  row (report_reason required r) (required = true → wellFormed r = true ∧ Total r ≠ 0).
Proof.
  unfold report_reason. destruct required; [|done].
  destruct (wellFormed r); cbn [negb]; [|refuse].
  destruct (Z.eqb_spec (Total r) 0); [refuse|]. done.
Qed.

Lemma base_row b :
  row (base_reason b) (ba_Read b = true ∧ ba_SHA b ≠ "" ∧ (∀ p, p ∈ ba_Pipelines b → malformed_base p = false) ∧
    base_pipelines b ≠ [] ∧ ∀ p, p ∈ base_pipelines b → bp_Status p = StatusSuccess).
Proof.
  unfold base_reason. destruct (ba_Read b); cbn [negb orb]; [|refuse].
  destruct (String.eqb_spec (ba_SHA b) ""); [refuse|].
  destruct (existsb malformed_base _) eqn:Em.
  { split; [|auto with change_rows]. intros (_ & _ & Hm & _). rewrite <- existsb_false in Hm. congruence. }
  rewrite existsb_false in Em. fold (base_pipelines b).
  destruct (length (base_pipelines b) =? 0)%nat eqn:El.
  { apply length_zero in El. refuse. }
  apply length_nonzero in El. destruct (existsb _ (base_pipelines b)) eqn:Es.
  { split; [|auto with change_rows]. intros (_ & _ & _ & _ & Hs). apply existsb_elem in Es as (p & Hp & Es).
    by rewrite Hs in Es. }
  clear Es. destruct (existsb _ (base_pipelines b)) eqn:Eg.
  { split; [|auto with change_rows]. intros (_ & _ & _ & _ & Hs). apply existsb_elem in Eg as (p & Hp & Eg).
    by rewrite Hs in Eg. }
  rewrite existsb_false in Eg. split_and!; [done..|]. intros p Hp. specialize (Eg p Hp). cbn in Eg.
  by apply negb_false_iff, String.eqb_eq in Eg.
Qed.

(** ** I2 *)

Lemma requestReason_row rq :
  if String.eqb (Code (requestReason rq)) "" then request_ok rq else ¬ request_ok rq ∧ refusal (requestReason rq).
Proof.
  unfold requestReason, request_ok, knownForm.
  assert (existsb (λ k, String.eqb k (rq_Form rq)) Forms = true ↔ rq_Form rq ∈ Forms) as Hk.
  { rewrite existsb_elem. setoid_rewrite String.eqb_eq. naive_solver. }
  destruct (existsb _ Forms); cbn [negb]; [|refuse].
  destruct (String.eqb_spec (rq_Form rq) FormLabel) as [E|E]; cbn [andb].
  1: destruct (LabelOnIssue rq) eqn:El; cbn [negb]; [|refuse].
  all: destruct (Identified (rq_Actor rq)); cbn [negb orb]; [|refuse].
  all: destruct (Z.eqb_spec (UserID (rq_Actor rq)) 0); [refuse|].
  all: destruct (IsBot (rq_Actor rq)); [refuse|].
  all: destruct (AccessRead (rq_Actor rq)); cbn [negb]; [|refuse].
  all: destruct (Z.ltb_spec (AccessLevel (rq_Actor rq)) MinRequesterAccess);
    [split; [intros (_ & _ & _ & _ & _ & _ & ?); lia|auto with change_rows]|].
  all: cbn; naive_solver.
Qed.

(** What the loop over the requests has found: one that is good, or a reason of
    either kind when it has seen any. *)
Lemma request_fold rqs :
  let '(requested, refused, unknown) := fold_left request_step rqs (false, None, None) in
  (requested = true ↔ ∃ rq, rq ∈ rqs ∧ request_ok rq) ∧
  (∀ r, refused = Some r ∨ unknown = Some r → refusal r) ∧
  (rqs ≠ [] → requested = false → refused ≠ None ∨ unknown ≠ None).
Proof.
  induction rqs as [|rq rqs IH] using rev_ind.
  - cbn. split_and!; [split; [done|by intros (? & []%elem_of_nil & _)]|by intros r [?|?]|done].
  - rewrite fold_left_app. destruct (fold_left request_step rqs _) as [[requested refused] unknown].
    destruct IH as (H1 & H2 & H3). cbn [fold_left]. unfold request_step. pose proof (requestReason_row rq) as Hrow.
    assert ((∃ x, x ∈ rqs ++ [rq] ∧ request_ok x) ↔ (∃ x, x ∈ rqs ∧ request_ok x) ∨ request_ok rq) as Hel.
    { setoid_rewrite elem_of_app. setoid_rewrite list_elem_of_singleton. naive_solver. }
    destruct (String.eqb (Code (requestReason rq)) ""); [split_and!; [tauto|done|done]|]. destruct Hrow as [Hno Hr].
    destruct (Unknown (requestReason rq)), unknown, refused; cbn [andb negb];
      (split_and!; [tauto|naive_solver|intros _ ?; naive_solver]).
Qed.

(** What the requests come to: nothing when somebody who may has asked, and
    otherwise a reason, never the missing one. *)
Lemma request_row t :
  match request_reason t with
  | None => tg_Read t = true ∧ ∃ rq, rq ∈ Requests t ∧ request_ok rq
  | Some (Some r) => ¬ (tg_Read t = true ∧ ∃ rq, rq ∈ Requests t ∧ request_ok rq) ∧ refusal r
  | Some None => False
  end.
Proof.
  unfold request_reason. destruct (tg_Read t); cbn [negb]; [|refuse].
  destruct (length (Requests t) =? 0)%nat eqn:El.
  { apply length_zero in El. rewrite El. split; [|auto with change_rows]. by intros (_ & rq & []%elem_of_nil & _). }
  apply length_nonzero in El. unfold trigger_reason. pose proof (request_fold (Requests t)) as Hf.
  destruct (fold_left _ _ _) as [[requested refused] unknown]. destruct Hf as (H1 & H2 & H3).
  destruct requested; [naive_solver|]. specialize (H3 El eq_refl).
  destruct unknown as [u|]; [split; [naive_solver|auto]|]. destruct refused as [r|]; [split; [naive_solver|auto]|naive_solver].
Qed.

Lemma refuses f r :
  ¬ change_dispatchable f → refusal r →
  ∃ ok r', Some (false, r) = Some (ok, r') ∧ (ok = true ↔ change_dispatchable f) ∧ (ok = true → r' = Reason_zero) ∧
  (ok = false → refusal r').
Proof. intros Hn Hr. exists false, r. by split_and!. Qed.

(** A session may be dispatched for an issue exactly when every row holds: the
    feature is on; somebody other than gonk who is at least a maintainer asked
    for it in one of three ways; the issue is open, public and not gonk's own;
    the default branch's head has pipelines and all of them succeeded; there is
    no record and no merge request of the issue; no more changes are open than
    allowed; the configuration at that commit is valid; and there is a test
    report where one is required. The answer always comes, a yes without a
    reason, a no with one; what was not read is never noted, and what is the
    configuration's fault is never noted on the issue. *)
Theorem change_eligible_exact (f : EligibleFacts) :
  ∃ ok r, Eligible f = Some (ok, r) ∧ (ok = true ↔ change_dispatchable f) ∧ (ok = true → r = Reason_zero) ∧
  (ok = false → refusal r).
Proof.
  unfold Eligible. pose proof (config_row (ef_Config f)) as H1. pose proof (request_row (ef_Trigger f)) as H2.
  pose proof (issue_row (ef_Issue f)) as H3. pose proof (base_row (ef_Base f)) as H4.
  pose proof (dedup_row (ef_Dedup f)) as H5. pose proof (serial_row (ef_Serial f) (MaxOpen (ef_Config f))) as H6.
  pose proof (pinned_row (ef_Pinned f)) as H7.
  pose proof (report_row (cf_RequireTestReport (ef_Config f)) (ef_BaseReport f)) as H8. unfold row in *.
  destruct (config_reason _) as [r|]; [apply refuses; [intros []; tauto|tauto]|].
  destruct (request_reason _) as [[r|]|]; [apply refuses; [intros []; tauto|tauto]|done|].
  destruct (issue_reason _) as [r|]; [apply refuses; [intros []; tauto|tauto]|].
  destruct (base_reason _) as [r|]; [apply refuses; [intros []; tauto|tauto]|].
  destruct (dedup_reason _) as [r|]; [apply refuses; [intros []; tauto|tauto]|].
  destruct (serial_reason _) as [r|]; [apply refuses; [intros []; tauto|tauto]|].
  destruct (pinned_reason _) as [r|]; [apply refuses; [intros []; tauto|tauto]|].
  destruct (report_reason _) as [r|]; [apply refuses; [intros []; tauto|tauto]|].
  exists true, Reason_zero. by split_and!.
Qed.

(** ** Examples *)

Definition asks (level : Z) : Request := mkRequest FormCommand false (mkActor true 9 false true level).
Definition demo_eligible (rqs : list Request) (status : string) : EligibleFacts :=
  mkEligibleFacts (mkConfigFacts true true 1 false) (mkTriggerFacts true rqs) (mkIssueFacts true "opened" false false)
    (mkBaseFacts true "b0" [mkBasePipeline 1 "b0" "push" status; mkBasePipeline 2 "old" "push" "failed"])
    (mkDedupFacts true "" 0 0 0) (mkSerialFacts true 0) (mkPinnedFacts true true true) (mkReport false 0 []).

Example eligible_examples :
  Eligible (demo_eligible [asks 30; asks 40] "success") = Some (true, Reason_zero) ∧
  (Row <$> (snd <$> Eligible (demo_eligible [asks 30] "success"))) = Some "I2" ∧
  (Code <$> (snd <$> Eligible (demo_eligible [asks 50] "running"))) = Some I4NotSettled ∧
  (Code <$> (snd <$> Eligible (demo_eligible [asks 50] "failed"))) = Some I4NotGreen.
Proof. vm_compute. by repeat split. Qed.
