(* ===== verification/MergePolicy.v ===== *)
(** * [pkg/mergepolicy]: what may be merged without a human's click

    [Decide] (decide.go) evaluates the eleven rows of the merge policy against
    facts that were read in the same pass; [DocsPure] (docspure.go) says whether
    a diff is prose files only; rate.go has the rate cap's count and the
    comparison of model names. A failure keeps its code and whether it means
    "not read"; the sentences are left out. *)

From S2P Require Import Prelude.
From S2P Require Import GoTime.
From S2P Require Import GoStrings.
From S2P Require Import ScopeClass.
From S2P Require Import ScopePolicy.
From S2P Require Import Pipefix.
From S2P Require Import CiDelta.
From S2P Require Import PipefixJudge.

(** ** Codes (rules.go) *)

Abbreviation RuleCode := string (only parsing).
Definition RuleMerge : RuleCode := "merge".
Definition M1Unread : RuleCode := "M1.unread".
Definition M1Stale : RuleCode := "M1.stale".
Definition M1ModeOff : RuleCode := "M1.mode-off".
Definition M1ModeUnknown : RuleCode := "M1.mode-unknown".
Definition M1OperatorVeto : RuleCode := "M1.operator-veto".
Definition M1LayersDisagree : RuleCode := "M1.layers-disagree".
Definition M1ConfigNotAtTip : RuleCode := "M1.config-not-at-target-head".
Definition M2Unread : RuleCode := "M2.unread".
Definition M2Stale : RuleCode := "M2.stale".
Definition M2KindUnknown : RuleCode := "M2.kind-unknown".
Definition M2JudgedSHAInvalid : RuleCode := "M2.judged-sha-invalid".
Definition M2BotUnknown : RuleCode := "M2.bot-identity-unknown".
Definition M2NotBotAuthored : RuleCode := "M2.not-bot-authored".
Definition M2BranchNotWorkflow : RuleCode := "M2.branch-not-workflow".
Definition M2BranchNotRecorded : RuleCode := "M2.branch-not-recorded".
Definition M2AnchorMismatch : RuleCode := "M2.anchor-mismatch".
Definition M2HeadNotJudged : RuleCode := "M2.head-not-judged".
Definition M2Draft : RuleCode := "M2.draft".
Definition M2Hold : RuleCode := "M2.hold".
Definition M2ThreadsUnresolved : RuleCode := "M2.threads-unresolved".
Definition M3Unread : RuleCode := "M3.unread".
Definition M3Stale : RuleCode := "M3.stale".
Definition M3VerdictWrongSHA : RuleCode := "M3.verdict-wrong-sha".
Definition M3FixedNewFailure : RuleCode := "M3.fixed-new-failure".
Definition M3NotBestVerdict : RuleCode := "M3.not-best-verdict".
Definition M3NoTargetJobs : RuleCode := "M3.no-target-jobs".
Definition M3TargetNotPassed : RuleCode := "M3.target-not-passed".
Definition M3TargetRetried : RuleCode := "M3.target-retried".
Definition M4Unread : RuleCode := "M4.unread".
Definition M4Stale : RuleCode := "M4.stale".
Definition M4ExecChanging : RuleCode := "M4.exec-changing".
Definition M4DeltaNotEligible : RuleCode := "M4.delta-not-eligible".
Definition M4DeltaNotForClass : RuleCode := "M4.delta-not-for-class".
Definition M5Unread : RuleCode := "M5.unread".
Definition M5Stale : RuleCode := "M5.stale".
Definition M5DiffIncomplete : RuleCode := "M5.diff-incomplete".
Definition M5EmptyDiff : RuleCode := "M5.empty-diff".
Definition M5Unclassified : RuleCode := "M5.unclassified".
Definition M5StaticGates : RuleCode := "M5.static-gates-failed".
Definition M5WeakeningUndecidable : RuleCode := "M5.weakening-undecidable".
Definition M5ClassNeverEligible : RuleCode := "M5.class-never-eligible".
Definition M5ClassNotEnabled : RuleCode := "M5.class-not-enabled".
Definition M5MixedClasses : RuleCode := "M5.mixed-classes".
Definition M5CINotForKind : RuleCode := "M5.ci-not-for-kind".
Definition M5DocsPure : RuleCode := "M5.MP-DOCSPURE".
Definition M6Unread : RuleCode := "M6.unread".
Definition M6Stale : RuleCode := "M6.stale".
Definition M6NoPipeline : RuleCode := "M6.no-candidate-pipeline".
Definition M6PipelineWrongSHA : RuleCode := "M6.pipeline-wrong-sha".
Definition M6PipelineNotSuccess : RuleCode := "M6.pipeline-not-success".
Definition M6FailedAttempt : RuleCode := "M6.failed-attempt".
Definition M6ObservedOnce : RuleCode := "M6.observed-once".
Definition M7Unread : RuleCode := "M7.unread".
Definition M7Stale : RuleCode := "M7.stale".
Definition M7TargetMoved : RuleCode := "M7.target-moved".
Definition M8Unread : RuleCode := "M8.unread".
Definition M8Stale : RuleCode := "M8.stale".
Definition M8AgeUnobservable : RuleCode := "M8.approval-age-unobservable".
Definition M8ApprovalsInsufficient : RuleCode := "M8.approvals-insufficient".
Definition M9Unread : RuleCode := "M9.unread".
Definition M9Stale : RuleCode := "M9.stale".
Definition M9Blocking : RuleCode := "M9.blocking".
Definition M9VerdictUnknown : RuleCode := "M9.verdict-unknown".
Definition M9ReviewsNotEnabled : RuleCode := "M9.reviews-not-enabled".
Definition M9NoReviewFact : RuleCode := "M9.no-review-fact".
Definition M9SameModel : RuleCode := "M9.same-model".
Definition M9ModelUnknown : RuleCode := "M9.model-unknown".
Definition M10Unread : RuleCode := "M10.unread".
Definition M10Stale : RuleCode := "M10.stale".
Definition M10NotMergeable : RuleCode := "M10.not-mergeable".
Definition M11Unread : RuleCode := "M11.unread".
Definition M11Stale : RuleCode := "M11.stale".
Definition M11RateCapReached : RuleCode := "M11.rate-cap-reached".

Definition ruleOrder : list RuleCode :=
  [M1Unread; M1Stale; M1ModeOff; M1ModeUnknown; M1OperatorVeto; M1LayersDisagree; M1ConfigNotAtTip;
  M2Unread; M2Stale; M2KindUnknown; M2JudgedSHAInvalid; M2BotUnknown; M2NotBotAuthored;
  M2BranchNotWorkflow; M2BranchNotRecorded; M2AnchorMismatch; M2HeadNotJudged; M2Draft; M2Hold;
  M2ThreadsUnresolved; M3Unread; M3Stale; M3VerdictWrongSHA; M3FixedNewFailure; M3NotBestVerdict;
  M3NoTargetJobs; M3TargetNotPassed; M3TargetRetried; M4Unread; M4Stale; M4ExecChanging;
  M4DeltaNotEligible; M4DeltaNotForClass; M5Unread; M5Stale; M5DiffIncomplete; M5EmptyDiff; M5Unclassified;
  M5StaticGates; M5WeakeningUndecidable; M5ClassNeverEligible; M5ClassNotEnabled; M5MixedClasses;
  M5CINotForKind; M5DocsPure; M6Unread; M6Stale; M6NoPipeline; M6PipelineWrongSHA; M6PipelineNotSuccess;
  M6FailedAttempt; M6ObservedOnce; M7Unread; M7Stale; M7TargetMoved; M8Unread; M8Stale; M8AgeUnobservable;
  M8ApprovalsInsufficient; M9Unread; M9Stale; M9Blocking; M9VerdictUnknown; M9ReviewsNotEnabled;
  M9NoReviewFact; M9SameModel; M9ModelUnknown; M10Unread; M10Stale; M10NotMergeable; M11Unread; M11Stale;
  M11RateCapReached].

(** The part before the dot; [""] without one. *)
Fixpoint row_of (s acc : string) : string :=
  match s with
  | "" => ""
  | String c s => if Ascii.eqb c dot then acc else row_of s (acc +:+ String c "")
  end.
Definition Row (r : RuleCode) : string := row_of r "".

Definition ARow (mRow : string) : string :=
  if String.eqb mRow "M1" then "A1" else if String.eqb mRow "M2" then "A2"
  else if String.eqb mRow "M3" then "A3" else if String.eqb mRow "M4" then "A4"
  else if String.eqb mRow "M5" then "A5" else if String.eqb mRow "M6" then "A6"
  else if String.eqb mRow "M7" then "A7"
  else if String.eqb mRow "M8" || String.eqb mRow "M9" then "A8"
  else if String.eqb mRow "M10" then "A9" else "".

Record Failure := mkFailure { fl_Rule : RuleCode; fl_Unread : bool }.

(** ** Facts (facts.go) *)

Abbreviation Mode := string (only parsing).
Definition ModeOff : Mode := "off".
Definition ModeAfterHumanApproval : Mode := "after-human-approval".
Definition ModeAfterAgenticReview : Mode := "after-agentic-review".
Definition Modes : list Mode := [ModeOff; ModeAfterHumanApproval; ModeAfterAgenticReview].

Abbreviation MKind := string (only parsing).
Definition KindPipefix : MKind := "pipefix".
Definition KindChange : MKind := "change".

Definition FixBranchPrefix := "gonk/pipefix-".
Definition ChangeBranchPrefix := "gonk/change-".
Definition VerdictGreen := "GREEN".
Definition ReviewNoBlockingFindings := "no-blocking-findings".
Definition ReviewBlocking := "blocking".
Definition IndependenceDistinctModel := "distinct-model".
Definition IndependenceSameModel := "same-model".
Definition IndependenceUnknown := "unknown".
Definition HoldLabel := "gonk::hold".
Definition StatusMergeable := "mergeable".
Definition PipelineSuccess := "success".
Definition AccessDeveloper : Z := 30.
Definition MaxFactAge : Duration := 60 * Second.
Definition RateWindow : Duration := 24 * Hour.
Definition DefaultMaxPerDay : Z := 3.

Definition EligibleClasses : list Class_ := [ClassDocs; ClassCI].

Record Config := mkConfig {
  c_Mode : Mode;
  c_Classes : list Class_;
  c_MaxPerDay : Z;
  c_RequiredApprovals : Z;
}.

Record LayerMode := mkLayerMode { lm_Layer : string; lm_Mode : Mode }.

Record ConfigFacts := mkConfigFacts {
  cf_ReadAt : Time;
  AtSHA : string;
  OperatorVeto : bool;
  LayerModes : list LayerMode;
}.

Record MRFacts := mkMRFacts {
  mr_ReadAt : Time;
  AuthorID : Z;
  SourceBranch : string;
  RecordBranch : string;
  MetadataAnchor : string;
  RecordAnchor : string;
  mr_HeadSHA : string;
  Draft : bool;
  Labels : list string;
  BlockingDiscussionsResolved : bool;
}.

Record TargetJob := mkTargetJob { tj_Name : string; tj_Passed : bool; tj_Attempts : Z }.

Record VerdictFacts := mkVerdictFacts {
  vf_ReadAt : Time;
  vf_SHA : string;
  vf_Verdict : string;
  vf_TargetJobs : list TargetJob;
}.

Record CIFacts := mkCIFacts { ci_ReadAt : Time; ci_Delta : Kind }.

Definition FileModeRegular := "100644".
Definition FileModeExecutable := "100755".
Definition FileModeSymlink := "120000".
Definition FileModeSubmodule := "160000".

Record ChangedPath := mkChangedPath {
  cp_Decision : ScopePolicy.Decision;
  Created : bool;
  Deleted : bool;
  Renamed : bool;
  OldPath : string;
  OldClass : Class_;
  OldMode : string;
  NewMode : string;
}.

Record DiffFacts := mkDiffFacts {
  df_ReadAt : Time;
  Incomplete : bool;
  df_Profiles : list string;
  Paths : list ChangedPath;
  StaticGatesPassed : bool;
  StaticGateCodes : list string;
}.

Record PipelineFact := mkPipelineFact {
  pp_ID : Z;
  pp_SHA : string;
  pp_Status : string;
  FailedAttempts : Z;
}.

Record EvidenceFacts := mkEvidenceFacts {
  ev_ReadAt : Time;
  ev_Pipelines : list PipelineFact;
  DiagnosedObservations : Z;
}.

Record TargetFacts := mkTargetFacts { tf_ReadAt : Time; tf_HeadSHA : string; JudgedBaseSHA : string }.

Record Approval := mkApproval { UserID : Z; Member : bool; AccessLevel : Z; ApprovedAt : Time }.

Record ApprovalFacts := mkApprovalFacts {
  af_ReadAt : Time;
  Approvals : list Approval;
  AgeObservable : bool;
  HeadCommittedAt : Time;
  CommitCount : Z;
}.

Record Review := mkReview { rv_HeadSHA : string; rv_Verdict : string; AuthorModel : string; ReviewerModel : string }.

Record ReviewFacts := mkReviewFacts { rf_ReadAt : Time; ReviewsEnabled : bool; Reviews : list Review }.

Record StatusFacts := mkStatusFacts { sf_ReadAt : Time; DetailedMergeStatus : string }.
Record RateFacts := mkRateFacts { rt_ReadAt : Time; RecentMerges : list Time }.

Record Facts := mkFacts {
  f_Kind : MKind;
  JudgedSHA : string;
  BotUserID : Z;
  f_Config : ConfigFacts;
  f_MR : MRFacts;
  f_Verdict : VerdictFacts;
  f_CI : CIFacts;
  f_Diff : DiffFacts;
  f_Evidence : EvidenceFacts;
  f_Target : TargetFacts;
  f_Approvals : ApprovalFacts;
  f_Review : ReviewFacts;
  f_Status : StatusFacts;
  f_Rate : RateFacts;
}.

(** ** Prose files only (docspure.go) *)

Definition proseProfiles (name : string) : list string :=
  if String.eqb name "docs-md" then [".md"]
  else if String.eqb name "docs-rst" then [".rst"]
  else if String.eqb name "docs-txt" then [".txt"]
  else if String.eqb name "docs-adoc" then [".adoc"]
  else [].

Definition ProseExtensions (profiles : list string) : list string :=
  fold_left (λ out name,
    fold_left (λ out ext, if contains out ext then out else out ++ [ext]) (proseProfiles name) out) profiles [].

Definition DPEmpty := "DP-EMPTY".
Definition DPForm := "DP-FORM".
Definition DPClass := "DP-CLASS".
Definition DPExt := "DP-EXT".
Definition DPMode := "DP-MODE".
Definition DPOldMode := "DP-OLDMODE".
Definition DPRename := "DP-RENAME".

Record DocsPureFinding := mkDocsPureFinding { dp_Path : string; dp_Code : string }.

Definition proseName (name : string) (exts : list string) : bool :=
  let base := Base name in
  let ext := Ext base in
  negb (String.eqb ext base) && contains exts ext.

Definition absentMode (mode : string) : bool := String.eqb mode "0" || String.eqb mode "000000".

Definition path_pure (exts : list string) (p : ChangedPath) : list DocsPureFinding :=
  let name := ScopePolicy.Path (cp_Decision p) in
  let add (bad : bool) code := if bad then [mkDocsPureFinding name code] else [] in
  if String.eqb name "" then [mkDocsPureFinding name DPForm]
  else if Created p && (Deleted p || Renamed p) then [mkDocsPureFinding name DPForm]
  else
    add (negb (String.eqb (d_Class (cp_Decision p)) ClassDocs)) DPClass ++
    add (negb (proseName name exts)) DPExt ++
    add (if Deleted p then negb (absentMode (NewMode p)) else negb (String.eqb (NewMode p) FileModeRegular))
      DPMode ++
    add (if Created p then negb (absentMode (OldMode p)) else negb (String.eqb (OldMode p) FileModeRegular))
      DPOldMode ++
    add (if Renamed p then negb (String.eqb (OldClass p) ClassDocs) || negb (proseName (OldPath p) exts)
         else negb (String.eqb (OldPath p) "") || negb (String.eqb (OldClass p) "")) DPRename.

Definition DocsPure (paths : list ChangedPath) (profiles : list string) : list DocsPureFinding :=
  if (length paths =? 0)%nat then [mkDocsPureFinding "" DPEmpty]
  else flat_map (path_pure (ProseExtensions profiles)) paths.

(** ** Rates and models (rate.go) *)

Definition MergesInWindow (merges : list Time) (now : Time) : Z :=
  let start := Add now (- RateWindow) in
  fold_left (λ n m, if IsZero m || negb (Before m start) then n + 1 else n) merges 0.

Definition Independence `{GoUnicode} (authorModel reviewerModel : string) : string :=
  let a := TrimSpace authorModel in let r := TrimSpace reviewerModel in
  if String.eqb a "" || String.eqb r "" then IndependenceUnknown
  else if EqualFold a r then IndependenceSameModel
  else IndependenceDistinctModel.

(** ** The rows (decide.go) *)

(** [(read, fresh)]. *)
Definition wasRead (at_ now : Time) : bool * bool :=
  if IsZero at_ then (false, false) else (true, negb (After at_ now) && (Sub now at_ <=? MaxFactAge)).

Definition is_hex (c : Ascii.ascii) : bool := in_range 48 57 c || in_range 97 102 c.
Definition fullSHA (s : string) : bool := (len s =? 40) && all_bytes is_hex s.

Definition branchPrefix (k : MKind) : option string :=
  if String.eqb k KindPipefix then Some FixBranchPrefix
  else if String.eqb k KindChange then Some ChangeBranchPrefix
  else None.

Definition classDelta (class : Class_) : Kind :=
  if String.eqb class ClassCI then KindPreserving else KindNone.

(** A refusal of the row, when its condition holds. *)
Definition refuse (bad : bool) (code : RuleCode) : list Failure := if bad then [mkFailure code false] else [].

Section rows.
Context `{GoUnicode} (f : Facts) (cfg : Config) (now : Time).

(** The gate of every row. *)
Definition read (at_ : Time) (unread_ stale : RuleCode) (row : list Failure) : list Failure :=
  let '(read, fresh) := wasRead at_ now in
  if negb read then [mkFailure unread_ true]
  else if negb fresh then [mkFailure stale true]
  else row.

Definition m1 : list Failure :=
  read (cf_ReadAt (f_Config f)) M1Unread M1Stale (
    refuse (String.eqb (c_Mode cfg) ModeOff || String.eqb (c_Mode cfg) "") M1ModeOff ++
    refuse (negb (contains [ModeOff; ""; ModeAfterHumanApproval; ModeAfterAgenticReview] (c_Mode cfg)))
      M1ModeUnknown ++
    refuse (OperatorVeto (f_Config f)) M1OperatorVeto ++
    refuse ((length (LayerModes (f_Config f)) =? 0)%nat ||
            existsb (λ l, negb (String.eqb (lm_Mode l) (c_Mode cfg))) (LayerModes (f_Config f))) M1LayersDisagree ++
    refuse (fullSHA (tf_HeadSHA (f_Target f)) && negb (String.eqb (AtSHA (f_Config f)) (tf_HeadSHA (f_Target f))))
      M1ConfigNotAtTip).

Definition m2 : list Failure :=
  let mr := f_MR f in
  read (mr_ReadAt mr) M2Unread M2Stale (
    refuse (negb (bool_decide (is_Some (branchPrefix (f_Kind f))))) M2KindUnknown ++
    refuse (negb (fullSHA (JudgedSHA f))) M2JudgedSHAInvalid ++
    (if BotUserID f =? 0 then [mkFailure M2BotUnknown false]
     else refuse (negb (AuthorID mr =? BotUserID f)) M2NotBotAuthored) ++
    match branchPrefix (f_Kind f) with
    | Some prefix => refuse (negb (HasPrefix (SourceBranch mr) prefix)) M2BranchNotWorkflow
    | None => []
    end ++
    refuse (negb (String.eqb (SourceBranch mr) (RecordBranch mr))) M2BranchNotRecorded ++
    refuse (String.eqb (RecordAnchor mr) "" || negb (String.eqb (MetadataAnchor mr) (RecordAnchor mr)))
      M2AnchorMismatch ++
    refuse (negb (String.eqb (mr_HeadSHA mr) (JudgedSHA f))) M2HeadNotJudged ++
    refuse (Draft mr) M2Draft ++
    refuse (existsb (λ l, EqualFold (TrimSpace l) HoldLabel) (Labels mr)) M2Hold ++
    refuse (negb (BlockingDiscussionsResolved mr)) M2ThreadsUnresolved).

Definition m3_pipefix (v : VerdictFacts) : list Failure :=
  if String.eqb (vf_Verdict v) VerdictFixed then
    if (length (vf_TargetJobs v) =? 0)%nat then [mkFailure M3NoTargetJobs false]
    else
      refuse (existsb (λ j, negb (tj_Passed j)) (vf_TargetJobs v)) M3TargetNotPassed ++
      refuse (existsb (λ j, negb (tj_Attempts j =? 1)) (vf_TargetJobs v)) M3TargetRetried
  else if String.eqb (vf_Verdict v) VerdictFixedNewFailure then [mkFailure M3FixedNewFailure false]
  else [mkFailure M3NotBestVerdict false].

Definition m3 : list Failure :=
  let v := f_Verdict f in
  read (vf_ReadAt v) M3Unread M3Stale (
    refuse (negb (String.eqb (vf_SHA v) (JudgedSHA f))) M3VerdictWrongSHA ++
    if String.eqb (f_Kind f) KindPipefix then m3_pipefix v
    else if String.eqb (f_Kind f) KindChange then
      refuse (negb (String.eqb (vf_Verdict v) VerdictGreen)) M3NotBestVerdict
    else []).

(** The one eligible class the listed paths are all of. *)
Definition m5class : option Class_ :=
  match Paths (f_Diff f) with
  | [] => None
  | p :: _ =>
      let class := d_Class (cp_Decision p) in
      if existsb (λ p, negb (String.eqb (d_Class (cp_Decision p)) class)) (Paths (f_Diff f)) then None
      else if negb (contains EligibleClasses class) then None
      else Some class
  end.

Definition m4 (class : option Class_) : list Failure :=
  let delta := ci_Delta (f_CI f) in
  read (ci_ReadAt (f_CI f)) M4Unread M4Stale (
    if String.eqb delta KindNone || String.eqb delta KindPreserving then
      match class with
      | None => []
      | Some class => refuse (negb (String.eqb delta (classDelta class))) M4DeltaNotForClass
      end
    else if String.eqb delta KindExecChanging then [mkFailure M4ExecChanging false]
    else [mkFailure M4DeltaNotEligible false]).

Definition unclassified (p : ChangedPath) : bool :=
  String.eqb (ScopePolicy.Path (cp_Decision p)) "" || negb (Valid (d_Class (cp_Decision p))).
Definition never_eligible (p : ChangedPath) : bool := negb (contains EligibleClasses (d_Class (cp_Decision p))).
Definition not_enabled (p : ChangedPath) : bool := negb (contains (c_Classes cfg) (d_Class (cp_Decision p))).
Definition diff_classes (paths : list ChangedPath) : gset string :=
  list_to_set (map (λ p, d_Class (cp_Decision p)) paths).

(** Of classified paths. *)
Definition m5_paths (d : DiffFacts) : list Failure :=
  let never := List.filter never_eligible (Paths d) in
  let classes := diff_classes (Paths d) in
  let docs := List.filter (λ p, String.eqb (d_Class (cp_Decision p)) ClassDocs) (Paths d) in
  refuse (negb (StaticGatesPassed d)) M5StaticGates ++
  refuse (existsb (λ p, negb (WeakeningDecidable (cp_Decision p))) (Paths d)) M5WeakeningUndecidable ++
  refuse (0 <? length never)%nat M5ClassNeverEligible ++
  refuse (existsb (λ p, negb (never_eligible p) && not_enabled p) (Paths d)) M5ClassNotEnabled ++
  refuse ((length never =? 0)%nat && (1 <? size classes)%nat) M5MixedClasses ++
  refuse (bool_decide (ClassCI ∈ classes) && String.eqb (f_Kind f) KindChange) M5CINotForKind ++
  refuse ((0 <? length docs)%nat && (0 <? length (DocsPure docs (df_Profiles d)))%nat) M5DocsPure.

Definition m5 : list Failure :=
  let d := f_Diff f in
  read (df_ReadAt d) M5Unread M5Stale (
    if Incomplete d then [mkFailure M5DiffIncomplete false]
    else if (length (Paths d) =? 0)%nat then [mkFailure M5EmptyDiff false]
    else if existsb unclassified (Paths d) then [mkFailure M5Unclassified false]
    else m5_paths d).

Definition m6 : list Failure :=
  let ev := f_Evidence f in
  read (ev_ReadAt ev) M6Unread M6Stale (
    refuse (length (ev_Pipelines ev) =? 0)%nat M6NoPipeline ++
    refuse (existsb (λ p, negb (String.eqb (pp_SHA p) (JudgedSHA f))) (ev_Pipelines ev)) M6PipelineWrongSHA ++
    refuse (existsb (λ p, negb (String.eqb (pp_Status p) PipelineSuccess)) (ev_Pipelines ev))
      M6PipelineNotSuccess ++
    refuse (existsb (λ p, negb (FailedAttempts p =? 0)) (ev_Pipelines ev)) M6FailedAttempt ++
    refuse (String.eqb (f_Kind f) KindPipefix && (DiagnosedObservations ev <? 2)) M6ObservedOnce).

Definition m7 : list Failure :=
  let t := f_Target f in
  read (tf_ReadAt t) M7Unread M7Stale (
    refuse (negb (fullSHA (tf_HeadSHA t)) || negb (String.eqb (tf_HeadSHA t) (JudgedBaseSHA t))) M7TargetMoved).

(** Whether an approval does not count. *)
Definition approvalExcluded (ap : Approval) : bool :=
  let a := f_Approvals f in let bot := BotUserID f in
  if UserID ap =? 0 then true
  else if bot =? 0 then true
  else if UserID ap =? bot then true
  else if negb (Member ap) then true
  else if AccessLevel ap <? AccessDeveloper then true
  else if negb (AgeObservable a) then false
  else if IsZero (HeadCommittedAt a) then true
  else negb (After (ApprovedAt ap) (HeadCommittedAt a)).

Definition counted : gset Z :=
  list_to_set (map UserID (List.filter (λ ap, negb (approvalExcluded ap)) (Approvals (f_Approvals f)))).

Definition m8 : list Failure :=
  if negb (String.eqb (c_Mode cfg) ModeAfterHumanApproval) then []
  else
    let a := f_Approvals f in
    read (af_ReadAt a) M8Unread M8Stale (
      if negb (AgeObservable a) && negb (CommitCount a =? 1) then [mkFailure M8AgeUnobservable false]
      else
        let need := if c_RequiredApprovals cfg <? 1 then 1 else c_RequiredApprovals cfg in
        refuse (Z.of_nat (size counted) <? need) M8ApprovalsInsufficient).

(** Reviews of the judged commit: the ones without a blocking finding, how
    many block, and the last verdict that is neither. *)
Definition review_step (acc : list Review * Z * string) (r : Review) : list Review * Z * string :=
  let '(clean, blocking, unknown) := acc in
  if negb (String.eqb (rv_HeadSHA r) (JudgedSHA f)) then acc
  else if String.eqb (rv_Verdict r) ReviewBlocking then (clean, blocking + 1, unknown)
  else if String.eqb (rv_Verdict r) ReviewNoBlockingFindings then (clean ++ [r], blocking, unknown)
  else (clean, blocking, rv_Verdict r).

(** The first clean review by another model ends the search; otherwise the
    last one known to be by the author's. *)
Fixpoint independent (clean : list Review) (same : string) : list Failure :=
  match clean with
  | [] => if negb (String.eqb same "") then [mkFailure M9SameModel false] else [mkFailure M9ModelUnknown false]
  | r :: clean =>
      let i := Independence (AuthorModel r) (ReviewerModel r) in
      if String.eqb i IndependenceDistinctModel then []
      else independent clean (if String.eqb i IndependenceSameModel then TrimSpace (ReviewerModel r) else same)
  end.

Definition m9 : list Failure :=
  let rs := f_Review f in
  read (rf_ReadAt rs) M9Unread M9Stale (
    let '(clean, blocking, unknown) := fold_left review_step (Reviews rs) ([], 0, "") in
    refuse (0 <? blocking) M9Blocking ++
    refuse (negb (String.eqb unknown "")) M9VerdictUnknown ++
    if negb (String.eqb (c_Mode cfg) ModeAfterAgenticReview) then []
    else
      refuse (negb (ReviewsEnabled rs)) M9ReviewsNotEnabled ++
      if (length clean =? 0)%nat then [mkFailure M9NoReviewFact false] else independent clean "").

Definition m10 : list Failure :=
  read (sf_ReadAt (f_Status f)) M10Unread M10Stale (
    refuse (negb (String.eqb (DetailedMergeStatus (f_Status f)) StatusMergeable)) M10NotMergeable).

Definition m11 : list Failure :=
  read (rt_ReadAt (f_Rate f)) M11Unread M11Stale (
    refuse (c_MaxPerDay cfg <=? MergesInWindow (RecentMerges (f_Rate f)) now) M11RateCapReached).

Definition failures : list Failure :=
  m1 ++ m2 ++ m3 ++ m4 m5class ++ m5 ++ m6 ++ m7 ++ m8 ++ m9 ++ m10 ++ m11.
End rows.

(** ** The decision *)

Record Decision := mkDecision {
  Merge : bool;
  dc_Rule : RuleCode;
  Failed : list Failure;
  dc_Mode : Mode;
  dc_SHA : string;
  dc_Class : Class_;
}.

Definition FailedRules (d : Decision) : list RuleCode := map fl_Rule (Failed d).

Definition Decide `{GoUnicode} (f : Facts) (cfg : Config) (now : Time) : Decision :=
  match failures f cfg now with
  | (fl :: _) as failed => mkDecision false (fl_Rule fl) failed (c_Mode cfg) "" ""
  | [] => mkDecision true RuleMerge [] (c_Mode cfg) (JudgedSHA f) (default "" (m5class f))
  end.

(** ** What each row asks *)

(** A fact read in this pass: at most a minute before the decision. *)
Definition fresh (now at_ : Time) : Prop := at_ ≠ Time_zero ∧ at_ <= now ∧ now - at_ <= MaxFactAge.

Lemma refuse_nil b code : refuse b code = [] ↔ b = false.
Proof. by destruct b. Qed.

Lemma wasRead_fresh at_ now : wasRead at_ now = (true, true) ↔ fresh now at_.
Proof.
  unfold wasRead, fresh, IsZero, After, Sub, MaxFactAge, Second, MaxInt64, MinInt64, Time_zero.
  destruct (Z.eqb_spec at_ 0); [naive_solver|].
  destruct (Z.ltb_spec now at_); cbn [negb andb]; [split; [done|lia]|].
  destruct (Z.leb_spec (Z.max (-9223372036854775808) (Z.min 9223372036854775807 (now - at_))) (60 * 1000000000)).
  - split; [intros _; repeat split; lia|done].
  - split; [discriminate|lia].
Qed.

Lemma read_nil now at_ unread_ stale row : read now at_ unread_ stale row = [] ↔ fresh now at_ ∧ row = [].
Proof.
  unfold read. rewrite <- wasRead_fresh. destruct (wasRead at_ now) as [[] []]; cbn [negb]; naive_solver.
Qed.

(** M1: some layer opts in, none disagrees, no operator forbids it, and the
    configuration is the one at the target's head. *)
Definition opted_in (f : Facts) (cfg : Config) : Prop :=
  (c_Mode cfg = ModeAfterHumanApproval ∨ c_Mode cfg = ModeAfterAgenticReview) ∧
  OperatorVeto (f_Config f) = false ∧ LayerModes (f_Config f) ≠ [] ∧
  (∀ l, l ∈ LayerModes (f_Config f) → lm_Mode l = c_Mode cfg) ∧
  (fullSHA (tf_HeadSHA (f_Target f)) = true → AtSHA (f_Config f) = tf_HeadSHA (f_Target f)).

(** M2: gonk wrote it, on the branch and under the anchor it recorded; it is at
    the judged commit, not a draft, not on hold, and every thread is
    resolved. *)
Definition untouched `{GoUnicode} (f : Facts) : Prop :=
  (∃ prefix, branchPrefix (f_Kind f) = Some prefix ∧ HasPrefix (SourceBranch (f_MR f)) prefix = true) ∧
  fullSHA (JudgedSHA f) = true ∧ BotUserID f ≠ 0 ∧ AuthorID (f_MR f) = BotUserID f ∧
  SourceBranch (f_MR f) = RecordBranch (f_MR f) ∧
  RecordAnchor (f_MR f) ≠ "" ∧ MetadataAnchor (f_MR f) = RecordAnchor (f_MR f) ∧
  mr_HeadSHA (f_MR f) = JudgedSHA f ∧ Draft (f_MR f) = false ∧
  (∀ l, l ∈ Labels (f_MR f) → EqualFold (TrimSpace l) HoldLabel = false) ∧
  BlockingDiscussionsResolved (f_MR f) = true.

(** M3: the best verdict there is, about the judged commit; of a fix, every
    diagnosed job passed on its only attempt. *)
Definition best_verdict (f : Facts) : Prop :=
  vf_SHA (f_Verdict f) = JudgedSHA f ∧
  (f_Kind f = KindPipefix → vf_Verdict (f_Verdict f) = VerdictFixed ∧ vf_TargetJobs (f_Verdict f) ≠ [] ∧
     ∀ j, j ∈ vf_TargetJobs (f_Verdict f) → tj_Passed j = true ∧ tj_Attempts j = 1) ∧
  (f_Kind f = KindChange → vf_Verdict (f_Verdict f) = VerdictGreen).

(** M4 and M5: the whole diff is of one enabled class. Either prose files
    only, with no change to the CI definition; or CI files of a pipeline fix
    only, with every job's gating and execution preserved. *)
Definition eligible_diff (f : Facts) (cfg : Config) (class : Class_) : Prop :=
  Incomplete (f_Diff f) = false ∧ StaticGatesPassed (f_Diff f) = true ∧
  class ∈ c_Classes cfg ∧ Paths (f_Diff f) ≠ [] ∧
  (∀ p, p ∈ Paths (f_Diff f) → ScopePolicy.Path (cp_Decision p) ≠ "" ∧ d_Class (cp_Decision p) = class) ∧
  ((class = ClassDocs ∧ ci_Delta (f_CI f) = KindNone ∧ DocsPure (Paths (f_Diff f)) (df_Profiles (f_Diff f)) = []) ∨
   (class = ClassCI ∧ ci_Delta (f_CI f) = KindPreserving ∧ f_Kind f ≠ KindChange)).

(** M6: every pipeline of the judged commit is green without a failed attempt;
    of a fix, the failure was seen twice. *)
Definition class_evidence (f : Facts) : Prop :=
  ev_Pipelines (f_Evidence f) ≠ [] ∧
  (∀ p, p ∈ ev_Pipelines (f_Evidence f) →
     pp_SHA p = JudgedSHA f ∧ pp_Status p = PipelineSuccess ∧ FailedAttempts p = 0) ∧
  (f_Kind f = KindPipefix → 2 <= DiagnosedObservations (f_Evidence f)).

(** M7: the target has not moved since the judged pipeline. *)
Definition not_moved (f : Facts) : Prop :=
  fullSHA (tf_HeadSHA (f_Target f)) = true ∧ tf_HeadSHA (f_Target f) = JudgedBaseSHA (f_Target f).

(** M8: enough members who may approve, none of them the bot, each after the
    head commit. *)
Definition qualifies (f : Facts) (ap : Approval) : Prop :=
  UserID ap ≠ 0 ∧ UserID ap ≠ BotUserID f ∧ Member ap = true ∧ AccessDeveloper <= AccessLevel ap ∧
  (AgeObservable (f_Approvals f) = true → HeadCommittedAt (f_Approvals f) ≠ Time_zero ∧
     HeadCommittedAt (f_Approvals f) < ApprovedAt ap).

Definition human_approved (f : Facts) (cfg : Config) : Prop :=
  (AgeObservable (f_Approvals f) = true ∨ CommitCount (f_Approvals f) = 1) ∧
  ∃ users : gset Z, Z.max 1 (c_RequiredApprovals cfg) <= Z.of_nat (size users) ∧
    ∀ u, u ∈ users → ∃ ap, ap ∈ Approvals (f_Approvals f) ∧ UserID ap = u ∧ qualifies f ap.

(** M9: the reviews of the judged commit. *)
Definition judged_reviews (f : Facts) : list Review :=
  List.filter (λ r, String.eqb (rv_HeadSHA r) (JudgedSHA f)) (Reviews (f_Review f)).
Definition unrecognised (f : Facts) : list string :=
  List.filter (λ v, negb (String.eqb v ReviewBlocking) && negb (String.eqb v ReviewNoBlockingFindings))
    (map rv_Verdict (judged_reviews f)).

Definition not_vetoed (f : Facts) : Prop :=
  (∀ r, r ∈ judged_reviews f → rv_Verdict r ≠ ReviewBlocking) ∧ List.last (unrecognised f) "" = "".

Definition reviewed_distinct `{GoUnicode} (f : Facts) : Prop :=
  ReviewsEnabled (f_Review f) = true ∧
  ∃ r, r ∈ judged_reviews f ∧ rv_Verdict r = ReviewNoBlockingFindings ∧
    Independence (AuthorModel r) (ReviewerModel r) = IndependenceDistinctModel.

(** ** Each row, decided *)

Section decided.
Context `{GoUnicode} (f : Facts) (cfg : Config) (now : Time).

Lemma m1_nil : m1 f cfg now = [] ↔ fresh now (cf_ReadAt (f_Config f)) ∧ opted_in f cfg.
Proof.
  unfold m1, opted_in. rewrite read_nil, !app_nil, !refuse_nil, !orb_false_iff, negb_false_iff, contains_elem.
  rewrite existsb_false, andb_false_iff, negb_false_iff, !String.eqb_eq, !String.eqb_neq.
  setoid_rewrite negb_false_iff. setoid_rewrite String.eqb_eq. rewrite length_nonzero.
  rewrite !elem_of_cons, elem_of_nil, <- (not_true_iff_false (fullSHA _)).
  apply and_iff_compat_l. split.
  - intros ((? & ?) & Hm & ? & (? & ?) & Hc). split; [tauto|]. split_and!; [done..|]. tauto.
  - intros (Hm & ? & ? & ? & Hc). assert (c_Mode cfg ≠ ModeOff ∧ c_Mode cfg ≠ "") as ?.
    { by destruct Hm as [-> | ->]. }
    split_and!; try tauto. destruct (fullSHA _); [right; by apply Hc|by left].
Qed.

Lemma m2_nil : m2 f now = [] ↔ fresh now (mr_ReadAt (f_MR f)) ∧ untouched f.
Proof.
  unfold m2, untouched. rewrite read_nil, !app_nil, !refuse_nil, !orb_false_iff, !negb_false_iff, existsb_false.
  rewrite !String.eqb_eq, !String.eqb_neq, bool_decide_eq_true.
  apply and_iff_compat_l.
  destruct (branchPrefix (f_Kind f)) as [prefix|].
  - destruct (Z.eqb_spec (BotUserID f) 0); [naive_solver|]. rewrite !refuse_nil, !negb_false_iff, Z.eqb_eq.
    split; [|intros ((p & ? & ?) & ?); simplify_eq; naive_solver].
    intros (? & ? & ? & ? & ? & (? & ?) & ? & ? & ? & ?). split; [by exists prefix|]. tauto.
  - split; [intros [[? [=]] _]|intros [(? & ? & _) _]; done].
Qed.

Lemma m3_nil : is_Some (branchPrefix (f_Kind f)) → (m3 f now = [] ↔ fresh now (vf_ReadAt (f_Verdict f)) ∧ best_verdict f).
Proof.
  intros Hk. unfold m3, best_verdict, m3_pipefix. rewrite read_nil, app_nil, refuse_nil, negb_false_iff, String.eqb_eq.
  apply and_iff_compat_l, and_iff_compat_l. revert Hk. unfold branchPrefix.
  destruct (String.eqb_spec (f_Kind f) KindPipefix) as [->|Hp].
  - intros _. destruct (String.eqb_spec (vf_Verdict (f_Verdict f)) VerdictFixed) as [->|Hv].
    2:{ split; [by case_match|]. intros [Hx _]. by destruct (Hx eq_refl). }
    destruct (vf_TargetJobs (f_Verdict f)) as [|j l]; cbn [length Nat.eqb].
    { split; [done|]. intros [Hx _]. by destruct (Hx eq_refl) as (_ & ? & _). }
    rewrite app_nil, !refuse_nil, !existsb_false. setoid_rewrite negb_false_iff. setoid_rewrite Z.eqb_eq.
    split; [intros [? ?]; split; [auto|done]|]. intros [Hx _]. destruct (Hx eq_refl) as (_ & _ & Hj). naive_solver.
  - destruct (String.eqb_spec (f_Kind f) KindChange) as [->|Hc]; [|by intros [? ?]]. intros _.
    rewrite refuse_nil, negb_false_iff, String.eqb_eq. naive_solver.
Qed.

Lemma m6_nil : m6 f now = [] ↔ fresh now (ev_ReadAt (f_Evidence f)) ∧ class_evidence f.
Proof.
  unfold m6, class_evidence. rewrite read_nil, !app_nil, !refuse_nil, !existsb_false, andb_false_iff.
  setoid_rewrite negb_false_iff. setoid_rewrite String.eqb_eq. setoid_rewrite Z.eqb_eq.
  rewrite length_nonzero, String.eqb_neq, Z.ltb_ge. apply and_iff_compat_l.
  destruct (decide (f_Kind f = KindPipefix)); naive_solver.
Qed.

Lemma m7_nil : m7 f now = [] ↔ fresh now (tf_ReadAt (f_Target f)) ∧ not_moved f.
Proof.
  unfold m7, not_moved. by rewrite read_nil, refuse_nil, orb_false_iff, !negb_false_iff, String.eqb_eq.
Qed.

Lemma approvalExcluded_false ap : BotUserID f ≠ 0 → (approvalExcluded f ap = false ↔ qualifies f ap).
Proof.
  intros Hb. unfold approvalExcluded, qualifies, IsZero, After, Time_zero, AccessDeveloper.
  destruct (Z.eqb_spec (UserID ap) 0); [naive_solver|]. destruct (Z.eqb_spec (BotUserID f) 0); [done|].
  destruct (Z.eqb_spec (UserID ap) (BotUserID f)); [naive_solver|].
  destruct (Member ap); cbn [negb]; [|naive_solver].
  destruct (Z.ltb_spec (AccessLevel ap) 30); [split; [done|lia]|].
  destruct (AgeObservable (f_Approvals f)); cbn [negb]; [|split; [intros _; repeat (split; [done|]); done|done]].
  destruct (Z.eqb_spec (HeadCommittedAt (f_Approvals f)) 0); [naive_solver|].
  rewrite negb_false_iff, Z.ltb_lt. naive_solver.
Qed.

Lemma m8_nil :
  BotUserID f ≠ 0 →
  (m8 f cfg now = [] ↔
   (c_Mode cfg = ModeAfterHumanApproval → fresh now (af_ReadAt (f_Approvals f)) ∧ human_approved f cfg)).
Proof.
  intros Hb. unfold m8, human_approved.
  destruct (String.eqb_spec (c_Mode cfg) ModeAfterHumanApproval) as [Em|]; cbn [negb]; [|naive_solver].
  rewrite read_nil. transitivity (fresh now (af_ReadAt (f_Approvals f)) ∧
    (AgeObservable (f_Approvals f) = true ∨ CommitCount (f_Approvals f) = 1) ∧
    ∃ users : gset Z, Z.max 1 (c_RequiredApprovals cfg) <= Z.of_nat (size users) ∧
      ∀ u, u ∈ users → ∃ ap, ap ∈ Approvals (f_Approvals f) ∧ UserID ap = u ∧ qualifies f ap); [|tauto].
  apply and_iff_compat_l.
  assert (∀ u, u ∈ counted f ↔ ∃ ap, ap ∈ Approvals (f_Approvals f) ∧ UserID ap = u ∧ qualifies f ap) as Hc.
  { intros u. unfold counted. rewrite elem_of_list_to_set, list_elem_of_In, in_map_iff.
    setoid_rewrite List.filter_In. setoid_rewrite <- list_elem_of_In. setoid_rewrite negb_true_iff.
    setoid_rewrite (approvalExcluded_false _ Hb). naive_solver. }
  destruct (AgeObservable (f_Approvals f) || (CommitCount (f_Approvals f) =? 1)) eqn:Ea.
  - rewrite <- negb_orb, Ea. cbn [negb]. apply orb_true_iff in Ea. rewrite Z.eqb_eq in Ea.
    rewrite refuse_nil, Z.ltb_ge. split.
    + intros Hs. split; [done|]. exists (counted f). split; [destruct (Z.ltb_spec (c_RequiredApprovals cfg) 1); lia|].
      by intros u ?%Hc.
    + intros (_ & users & Hs & Hu). assert (size users <= size (counted f))%nat.
      { apply subseteq_size. intros u Hin. by apply Hc, Hu. }
      destruct (Z.ltb_spec (c_RequiredApprovals cfg) 1); lia.
  - rewrite <- negb_orb, Ea. cbn [negb]. split; [done|]. apply orb_false_iff in Ea as [-> Ec%Z.eqb_neq]. naive_solver.
Qed.

Lemma m10_nil : m10 f now = [] ↔ fresh now (sf_ReadAt (f_Status f)) ∧ DetailedMergeStatus (f_Status f) = StatusMergeable.
Proof. unfold m10. by rewrite read_nil, refuse_nil, negb_false_iff, String.eqb_eq. Qed.

Lemma m11_nil :
  m11 f cfg now = [] ↔ fresh now (rt_ReadAt (f_Rate f)) ∧ MergesInWindow (RecentMerges (f_Rate f)) now < c_MaxPerDay cfg.
Proof. unfold m11. by rewrite read_nil, refuse_nil, Z.leb_gt. Qed.
End decided.

(** ** The diff's class *)

Section diff.
Context `{GoUnicode} (f : Facts) (cfg : Config) (now : Time).

Abbreviation path_class p := (d_Class (cp_Decision p)).

(** All paths of one class. *)
Lemma m5class_Some class :
  m5class f = Some class ↔
  Paths (f_Diff f) ≠ [] ∧ (∀ p, p ∈ Paths (f_Diff f) → path_class p = class) ∧ class ∈ EligibleClasses.
Proof.
  unfold m5class. destruct (Paths (f_Diff f)) as [|p l]; [naive_solver|].
  destruct (existsb _ (p :: l)) eqn:E.
  { split; [done|]. intros (_ & Hc & _). apply existsb_elem in E as (q & Hq & E).
    rewrite (Hc q Hq), (Hc p ltac:(by left)), String.eqb_refl in E. done. }
  rewrite existsb_false in E.
  assert (∀ q, q ∈ p :: l → path_class q = path_class p) as Hc.
  { intros q Hq. specialize (E q Hq). by apply negb_false_iff, String.eqb_eq in E. }
  destruct (contains EligibleClasses (path_class p)) eqn:Ec; cbn [negb].
  - apply contains_elem in Ec. split; [intros [= <-]; auto|]. intros (_ & Hp & _). f_equal. apply Hp. by left.
  - apply contains_false in Ec. split; [done|]. intros (_ & Hp & Hin). rewrite <- (Hp p) in Hin; [done|by left].
Qed.

Lemma diff_classes_small (paths : list ChangedPath) :
  (1 <? size (diff_classes paths))%nat = false ↔ ∀ p q, p ∈ paths → q ∈ paths → path_class p = path_class q.
Proof.
  assert (∀ p, p ∈ paths → path_class p ∈ diff_classes paths) as Hin.
  { intros p Hp. unfold diff_classes. rewrite elem_of_list_to_set, list_elem_of_In.
    apply in_map_iff. exists p. by rewrite <- list_elem_of_In. }
  rewrite Nat.ltb_ge. split.
  - intros Hs p q Hp Hq. destruct (decide (path_class p = path_class q)) as [|Hn]; [done|exfalso].
    assert ({[path_class p]} ∪ {[path_class q]} ⊆ diff_classes paths) as Hsub by set_solver.
    apply subseteq_size in Hsub. rewrite size_union, !size_singleton in Hsub by set_solver. lia.
  - intros Hpq. destruct paths as [|p l]; [unfold diff_classes; cbn; by rewrite size_empty; lia|].
    transitivity (size ({[path_class p]} : gset string)); [|by rewrite size_singleton].
    apply subseteq_size. intros c. unfold diff_classes. rewrite elem_of_list_to_set, list_elem_of_In, in_map_iff.
    intros (q & <- & Hq%list_elem_of_In). apply elem_of_singleton, Hpq; [done|by left].
Qed.

(** A path of an eligible class has one, and no test to weaken. *)
Lemma eligible_class_valid class : class ∈ EligibleClasses → Valid class = true.
Proof. unfold EligibleClasses. rewrite !elem_of_cons, elem_of_nil. by intros [-> | [-> | []]]. Qed.

Lemma eligible_class_decidable d : d_Class d ∈ EligibleClasses → WeakeningDecidable d = true.
Proof.
  unfold EligibleClasses, WeakeningDecidable. rewrite !elem_of_cons, elem_of_nil. by intros [-> | [-> | []]].
Qed.

Lemma filter_all {A} (P : A → bool) l : (∀ x, x ∈ l → P x = true) → List.filter P l = l.
Proof.
  induction l as [|x l IH]; [done|]. intros Hp. cbn [List.filter]. rewrite (Hp x) by (by left). f_equal.
  apply IH. intros y Hy. apply Hp. by right.
Qed.
Lemma filter_none {A} (P : A → bool) l : List.filter P l = [] ↔ ∀ x, x ∈ l → P x = false.
Proof.
  split.
  - intros E x Hx. apply not_true_iff_false. intros Hp.
    assert (x ∈ List.filter P l) as Hin by (by apply elem_of_filter_List). rewrite E in Hin. by apply elem_of_nil in Hin.
  - intros Hp. destruct (List.filter P l) as [|x k] eqn:E; [done|].
    assert (x ∈ List.filter P l) as [Hx Hx']%elem_of_filter_List by (rewrite E; by left). by rewrite Hp in Hx'.
Qed.

(** The class rows, on a diff that is all of one class. *)
Lemma m5_paths_nil class :
  (∀ p, p ∈ Paths (f_Diff f) → path_class p = class) → Paths (f_Diff f) ≠ [] → class ∈ EligibleClasses →
  (m5_paths f cfg (f_Diff f) = [] ↔
   StaticGatesPassed (f_Diff f) = true ∧ class ∈ c_Classes cfg ∧ (class = ClassCI → f_Kind f ≠ KindChange) ∧
   (class = ClassDocs → DocsPure (Paths (f_Diff f)) (df_Profiles (f_Diff f)) = [])).
Proof.
  intros Hc Hne Hel. unfold m5_paths.
  assert (List.filter never_eligible (Paths (f_Diff f)) = []) as En.
  { apply filter_none. intros p Hp. unfold never_eligible. rewrite (Hc p Hp). by apply negb_false_iff, contains_elem. }
  rewrite En, !app_nil, !refuse_nil. change (length (@nil ChangedPath) =? 0)%nat with true.
  change (0 <? length (@nil ChangedPath))%nat with false. cbn [andb].
  assert (existsb (λ p, negb (WeakeningDecidable (cp_Decision p))) (Paths (f_Diff f)) = false) as ->.
  { apply existsb_false. intros p Hp. apply negb_false_iff, eligible_class_decidable. by rewrite (Hc p Hp). }
  rewrite diff_classes_small, existsb_false, negb_false_iff.
  destruct (Paths (f_Diff f)) as [|p0 l] eqn:Ep; [done|]. rewrite <- Ep in *.
  assert (p0 ∈ Paths (f_Diff f)) as Hp0 by (rewrite Ep; by left).
  assert (∀ c, c ∈ diff_classes (Paths (f_Diff f)) ↔ c = class) as Hcl.
  { intros c. unfold diff_classes. rewrite elem_of_list_to_set, list_elem_of_In, in_map_iff. split.
    - intros (q & <- & Hq%list_elem_of_In). by apply Hc.
    - intros ->. exists p0. split; [by apply Hc|by apply list_elem_of_In]. }
  rewrite (bool_decide_ext _ (ClassCI = class)) by apply Hcl.
  assert ((∀ p, p ∈ Paths (f_Diff f) → negb (never_eligible p) && not_enabled cfg p = false) ↔ class ∈ c_Classes cfg) as ->.
  { unfold never_eligible, not_enabled. rewrite <- contains_elem. split.
    - intros Hp. specialize (Hp p0 Hp0). rewrite (Hc p0 Hp0), (proj2 (contains_elem _ _) Hel) in Hp.
      by apply negb_false_iff in Hp.
    - intros Hin p Hp. by rewrite (Hc p Hp), Hin, andb_false_r. }
  assert ((∀ p q, p ∈ Paths (f_Diff f) → q ∈ Paths (f_Diff f) → path_class p = path_class q) ↔ True) as ->.
  { split; [done|]. intros _ p q Hp Hq. by rewrite (Hc p Hp), (Hc q Hq). }
  assert (((0 <? length (List.filter (λ p, String.eqb (path_class p) ClassDocs) (Paths (f_Diff f))))%nat &&
           (0 <? length (DocsPure (List.filter (λ p, String.eqb (path_class p) ClassDocs) (Paths (f_Diff f)))
                           (df_Profiles (f_Diff f))))%nat = false) ↔
          (class = ClassDocs → DocsPure (Paths (f_Diff f)) (df_Profiles (f_Diff f)) = [])) as ->.
  { destruct (decide (class = ClassDocs)) as [->|Hd].
    - rewrite filter_all by (intros p Hp; by rewrite (Hc p Hp)). rewrite andb_false_iff, !length_pos. naive_solver.
    - rewrite (proj2 (filter_none _ _)); [|intros p Hp; rewrite (Hc p Hp); by apply String.eqb_neq]. naive_solver. }
  rewrite andb_false_iff, bool_decide_eq_false, String.eqb_neq.
  destruct (decide (ClassCI = class)); naive_solver.
Qed.

Lemma m45_nil :
  m4 f now (m5class f) = [] ∧ m5 f cfg now = [] ↔
  fresh now (ci_ReadAt (f_CI f)) ∧ fresh now (df_ReadAt (f_Diff f)) ∧ ∃ class, eligible_diff f cfg class.
Proof.
  unfold m4, m5. rewrite !read_nil.
  transitivity ((fresh now (ci_ReadAt (f_CI f)) ∧ fresh now (df_ReadAt (f_Diff f))) ∧
    ∃ class, eligible_diff f cfg class); [|tauto].
  assert (∀ class, class ∈ EligibleClasses ↔ class = ClassDocs ∨ class = ClassCI) as Hel.
  { intros class. unfold EligibleClasses. set_solver. }
  split.
  - intros [[? Hd] [? Hp]]. split; [done|].
    destruct (Incomplete (f_Diff f)) eqn:Ei; [done|].
    destruct (length (Paths (f_Diff f)) =? 0)%nat eqn:El; [done|]. apply length_nonzero in El.
    destruct (existsb unclassified _) eqn:Eu; [done|]. rewrite existsb_false in Eu.
    assert (∃ class, m5class f = Some class) as [class Hclass].
    { pose proof Hp as Hp'. unfold m5_paths in Hp'. rewrite !app_nil, !refuse_nil in Hp'.
      destruct Hp' as (_ & _ & Hn & _ & Hs & _). apply length_pos in Hn. rewrite Hn in Hs.
      cbn [length Nat.eqb andb] in Hs. rewrite diff_classes_small in Hs. rewrite filter_none in Hn.
      destruct (Paths (f_Diff f)) as [|p l] eqn:Ep; [done|]. exists (path_class p). apply m5class_Some. rewrite Ep.
      split; [done|]. split; [intros q Hq; apply Hs; [done|by left]|].
      apply contains_elem, negb_false_iff, Hn. by left. }
    rewrite Hclass in Hd. apply m5class_Some in Hclass as (Hne & Hc & Hcl).
    apply (m5_paths_nil class Hc Hne Hcl) in Hp as (Hsg & Hen & Hci & Hdp).
    exists class. unfold eligible_diff. split_and!; [done..| |].
    + intros p Hin. specialize (Eu p Hin). unfold unclassified in Eu.
      apply orb_false_iff in Eu as [Eu%String.eqb_neq _]. split; [done|by apply Hc].
    + destruct (String.eqb (ci_Delta (f_CI f)) KindNone || String.eqb (ci_Delta (f_CI f)) KindPreserving);
        [|by case_match].
      apply refuse_nil, negb_false_iff, String.eqb_eq in Hd. apply Hel in Hcl as [-> | ->]; [left|right]; auto.
  - intros [[? ?] (class & Hi & Hsg & Hen & Hne & Hc & Hrow)].
    assert (class ∈ EligibleClasses) as Hcl by (apply Hel; naive_solver).
    assert (m5class f = Some class) as ->.
    { apply m5class_Some. split; [done|]. split; [|done]. intros p Hin. by apply Hc. }
    assert (∀ p, p ∈ Paths (f_Diff f) → path_class p = class) as Hc' by (intros p Hin; by apply Hc).
    split; split; [done| |done|].
    + destruct Hrow as [(-> & -> & _)|(-> & -> & _)]; reflexivity.
    + rewrite Hi. rewrite (proj2 (length_nonzero _) Hne).
      rewrite (proj2 (existsb_false _ _)).
      * apply (m5_paths_nil class Hc' Hne Hcl). split_and!; [done..| |]; intros ->; naive_solver.
      * intros p Hin. unfold unclassified. destruct (Hc p Hin) as [Hn ->].
        by rewrite (proj2 (String.eqb_neq _ _) Hn), (eligible_class_valid class Hcl).
Qed.
End diff.

(** ** The reviews *)

Section reviews.
Context `{GoUnicode} (f : Facts) (cfg : Config) (now : Time).

Lemma and_iff (P Q P' Q' : Prop) : (P ↔ P') → (Q ↔ Q') → (P ∧ Q ↔ P' ∧ Q').
Proof. tauto. Qed.

Lemma review_walk rs :
  ∃ blocking, fold_left (review_step f) rs ([], 0, "") =
    (List.filter (λ r, String.eqb (rv_HeadSHA r) (JudgedSHA f) && String.eqb (rv_Verdict r) ReviewNoBlockingFindings) rs,
     blocking,
     List.last (List.filter (λ v, negb (String.eqb v ReviewBlocking) && negb (String.eqb v ReviewNoBlockingFindings))
       (map rv_Verdict (List.filter (λ r, String.eqb (rv_HeadSHA r) (JudgedSHA f)) rs))) "") ∧
    0 <= blocking ∧
    (blocking <= 0 ↔ ∀ r, r ∈ rs → rv_HeadSHA r = JudgedSHA f → rv_Verdict r ≠ ReviewBlocking).
Proof.
  induction rs as [|r rs (b & E & Hb & Hbl)] using rev_ind; [exists 0; split; [done|]; split; [done|]; split; [set_solver|done]|].
  rewrite fold_left_app, E, !List.filter_app, map_app, List.filter_app. cbn [fold_left List.filter map review_step].
  setoid_rewrite elem_of_app. setoid_rewrite list_elem_of_singleton.
  destruct (String.eqb_spec (rv_HeadSHA r) (JudgedSHA f)) as [Hs|Hs]; cbn [negb andb map List.filter].
  2:{ exists b. rewrite !app_nil_r. split; [done|]. split; [done|]. rewrite Hbl. naive_solver. }
  destruct (String.eqb_spec (rv_Verdict r) ReviewBlocking) as [Hv|Hv]; cbn [negb andb].
  { exists (b + 1). rewrite Hv. cbn. rewrite !app_nil_r. split; [done|]. split; [lia|]. split; [lia|naive_solver]. }
  destruct (String.eqb_spec (rv_Verdict r) ReviewNoBlockingFindings) as [Hc|Hc]; cbn [negb andb].
  - exists b. rewrite !app_nil_r. split; [done|]. split; [done|]. rewrite Hbl. naive_solver.
  - exists b. rewrite app_nil_r, List.last_last. split; [done|]. split; [done|]. rewrite Hbl. naive_solver.
Qed.

Lemma independent_nil clean same :
  independent clean same = [] ↔
  ∃ r, r ∈ clean ∧ Independence (AuthorModel r) (ReviewerModel r) = IndependenceDistinctModel.
Proof.
  revert same. induction clean as [|r clean IH]; intros same; cbn [independent].
  { split; [by case_match|]. by intros (r & ?%elem_of_nil & _). }
  setoid_rewrite elem_of_cons.
  destruct (String.eqb_spec (Independence (AuthorModel r) (ReviewerModel r)) IndependenceDistinctModel); [naive_solver|].
  rewrite IH. naive_solver.
Qed.

Lemma m9_nil :
  m9 f cfg now = [] ↔ fresh now (rf_ReadAt (f_Review f)) ∧ not_vetoed f ∧
    (c_Mode cfg = ModeAfterAgenticReview → reviewed_distinct f).
Proof.
  unfold m9, not_vetoed, reviewed_distinct. rewrite read_nil. apply and_iff_compat_l.
  destruct (review_walk (Reviews (f_Review f))) as (b & -> & Hb & Hbl).
  rewrite !app_nil, !refuse_nil, Z.ltb_ge, Hbl, negb_false_iff, String.eqb_eq, Logic.and_assoc.
  fold (judged_reviews f). fold (unrecognised f). unfold judged_reviews at 2.
  setoid_rewrite elem_of_filter_List. setoid_rewrite String.eqb_eq.
  apply and_iff; [naive_solver|apply and_iff_compat_l].
  destruct (String.eqb_spec (c_Mode cfg) ModeAfterAgenticReview) as [->|]; cbn [negb]; [|naive_solver].
  rewrite app_nil, refuse_nil, negb_false_iff. set (clean := List.filter _ _).
  assert ((if (length clean =? 0)%nat then [mkFailure M9NoReviewFact false] else independent clean "") = [] ↔
          independent clean "" = []) as -> by by destruct clean.
  rewrite independent_nil. subst clean. setoid_rewrite elem_of_filter_List. setoid_rewrite andb_true_iff.
  setoid_rewrite String.eqb_eq. naive_solver.
Qed.
End reviews.

(** ** What is merged *)

(** C20. Exactly what may be merged by itself. The policy says yes if and only if
    every fact it needs was read in this pass, at most a minute ago, and: the
    layers opted in without a veto, under the configuration at the target's
    head; the merge request is gonk's own, on the branch and anchor it recorded,
    untouched at the judged commit; the re-computed verdict of that commit is the
    best there is; the whole diff is prose files with an unchanged CI
    definition, or CI files of a pipeline fix that preserve every job; every
    pipeline of the commit is green without a failed attempt; the target has not
    moved; under the human mode enough members other than the bot approved after
    the head commit, and under the review mode a distinct model reviewed; no
    review of the commit blocks; GitLab calls it mergeable; and fewer merges than
    the cap happened in the last day. Then the merge is pinned to the full SHA
    that was judged. *)
Theorem Decide_merges `{GoUnicode} (f : Facts) (cfg : Config) (now : Time) :
  (Merge (Decide f cfg now) = true ↔
     opted_in f cfg ∧ untouched f ∧ best_verdict f ∧ (∃ class, eligible_diff f cfg class) ∧ class_evidence f ∧
     not_moved f ∧ (c_Mode cfg = ModeAfterHumanApproval → fresh now (af_ReadAt (f_Approvals f)) ∧ human_approved f cfg) ∧
     not_vetoed f ∧ (c_Mode cfg = ModeAfterAgenticReview → reviewed_distinct f) ∧
     DetailedMergeStatus (f_Status f) = StatusMergeable ∧
     MergesInWindow (RecentMerges (f_Rate f)) now < c_MaxPerDay cfg ∧
     Forall (fresh now) [cf_ReadAt (f_Config f); mr_ReadAt (f_MR f); vf_ReadAt (f_Verdict f); ci_ReadAt (f_CI f);
       df_ReadAt (f_Diff f); ev_ReadAt (f_Evidence f); tf_ReadAt (f_Target f); rf_ReadAt (f_Review f);
       sf_ReadAt (f_Status f); rt_ReadAt (f_Rate f)]) ∧
  (Merge (Decide f cfg now) = true → dc_SHA (Decide f cfg now) = JudgedSHA f ∧
     fullSHA (dc_SHA (Decide f cfg now)) = true ∧ dc_SHA (Decide f cfg now) = mr_HeadSHA (f_MR f)) ∧
  (Merge (Decide f cfg now) = false → dc_SHA (Decide f cfg now) = "" ∧
     ∃ fl, head (Failed (Decide f cfg now)) = Some fl ∧ dc_Rule (Decide f cfg now) = fl_Rule fl).
Proof.
  assert (Merge (Decide f cfg now) = true ↔ failures f cfg now = []) as Hm
    by (unfold Decide; by destruct (failures f cfg now)).
  unfold failures in Hm. rewrite !app_nil, m1_nil, m2_nil, m6_nil, m7_nil, m9_nil, m10_nil, m11_nil in Hm.
  assert (Merge (Decide f cfg now) = true ↔
    (fresh now (cf_ReadAt (f_Config f)) ∧ opted_in f cfg) ∧ (fresh now (mr_ReadAt (f_MR f)) ∧ untouched f) ∧
    (fresh now (vf_ReadAt (f_Verdict f)) ∧ best_verdict f) ∧
    (fresh now (ci_ReadAt (f_CI f)) ∧ fresh now (df_ReadAt (f_Diff f)) ∧ ∃ class, eligible_diff f cfg class) ∧
    (fresh now (ev_ReadAt (f_Evidence f)) ∧ class_evidence f) ∧ (fresh now (tf_ReadAt (f_Target f)) ∧ not_moved f) ∧
    (c_Mode cfg = ModeAfterHumanApproval → fresh now (af_ReadAt (f_Approvals f)) ∧ human_approved f cfg) ∧
    (fresh now (rf_ReadAt (f_Review f)) ∧ not_vetoed f ∧ (c_Mode cfg = ModeAfterAgenticReview → reviewed_distinct f)) ∧
    (fresh now (sf_ReadAt (f_Status f)) ∧ DetailedMergeStatus (f_Status f) = StatusMergeable) ∧
    (fresh now (rt_ReadAt (f_Rate f)) ∧ MergesInWindow (RecentMerges (f_Rate f)) now < c_MaxPerDay cfg)) as Hiff.
  { rewrite Hm, <- m45_nil. split.
    - intros (? & [? Hu] & H3 & ? & ? & ? & ? & H8 & ?). pose proof Hu as ((prefix & Hk & _) & _ & Hb & _).
      rewrite m3_nil in H3 by (by rewrite Hk). rewrite m8_nil in H8 by done. tauto.
    - intros (? & [? Hu] & H3 & ? & ? & ? & H8 & ?). pose proof Hu as ((prefix & Hk & _) & _ & Hb & _).
      rewrite m3_nil by (by rewrite Hk). rewrite m8_nil by done. tauto. }
  split_and!.
  - rewrite Hiff, !Forall_cons, Forall_nil. tauto.
  - intros Hmerge. pose proof (proj1 Hiff Hmerge) as (_ & (_ & (_ & Hsha & _ & _ & _ & _ & _ & Hh & _)) & _).
    unfold Decide in *. destruct (failures f cfg now); [|done]. cbn [dc_SHA]. auto.
  - unfold Decide. destruct (failures f cfg now) as [|fl l]; [done|]. intros _. split; [done|]. exists fl. split; reflexivity.
Qed.

(** ** The rate cap over time *)

(** The automatic merges of a project, newest first: each one happened because
    the policy said yes to facts whose ledger was the merges before it. *)
Inductive merged_history `{GoUnicode} (cap : Z) : list Time → Prop :=
| history_none : merged_history cap []
| history_merge f cfg now merges :
    merged_history cap merges → c_MaxPerDay cfg <= cap → RecentMerges (f_Rate f) = merges →
    Merge (Decide f cfg now) = true → merged_history cap (now :: merges).

(** The merges of a closed window of one day. *)
Definition in_day (start : Time) (m : Time) : bool := (start <=? m) && (m <=? start + RateWindow).
Definition merges_in_day (start : Time) (merges : list Time) : Z := Z.of_nat (length (List.filter (in_day start) merges)).

Lemma MergesInWindow_count merges now :
  MergesInWindow merges now = Z.of_nat (length (List.filter (λ m, IsZero m || negb (Before m (now - RateWindow))) merges)).
Proof.
  unfold MergesInWindow, Add. fold (now - RateWindow).
  assert (∀ n, fold_left (λ n m, if IsZero m || negb (Before m (now - RateWindow)) then n + 1 else n) merges n =
    n + Z.of_nat (length (List.filter (λ m, IsZero m || negb (Before m (now - RateWindow))) merges))) as Hn; [|by rewrite Hn].
  induction merges as [|m merges IH]; intros n; cbn [fold_left List.filter]; [cbn; lia|].
  rewrite IH. destruct (IsZero m || _); cbn [length]; lia.
Qed.

Lemma day_counted start now merges :
  in_day start now = true → merges_in_day start merges <= MergesInWindow merges now.
Proof.
  intros [Hs%Z.leb_le Hn%Z.leb_le]%andb_true_iff. rewrite MergesInWindow_count. unfold merges_in_day.
  induction merges as [|m merges IH]; [done|]. cbn [List.filter].
  destruct (in_day start m) eqn:E.
  - apply andb_true_iff in E as [Em%Z.leb_le _]. unfold Before at 1.
    rewrite (proj2 (Z.ltb_ge m (now - RateWindow))) by lia. rewrite orb_true_r. cbn [length]. lia.
  - destruct (IsZero m || _); cbn [length]; lia.
Qed.

(** The rate cap holds over any day. If every automatic merge of a project was
    allowed by the policy on a ledger that listed the earlier ones, then no
    closed window of 24 hours, wherever it starts, holds more merges than the
    cap; clock skew, equal instants and undated entries included. *)
Theorem merges_capped `{GoUnicode} (cap : Z) (merges : list Time) (start : Time) :
  0 <= cap → merged_history cap merges → merges_in_day start merges <= cap.
Proof.
  intros Hcap Hh. induction Hh as [|f cfg now merges Hh IH Hc Hr Hm]; [done|].
  apply Decide_merges in Hm as (_ & _ & _ & _ & _ & _ & _ & _ & _ & _ & Hw & _). rewrite Hr in Hw.
  unfold merges_in_day in *. cbn [List.filter]. destruct (in_day start now) eqn:E; [|done].
  pose proof (day_counted start now merges E) as Hd. unfold merges_in_day in Hd. cbn [length]. lia.
Qed.

(** ** The order of the refusals *)

Section order.
Context `{GoUnicode} (f : Facts) (cfg : Config) (now : Time).

Abbreviation codes row := (map fl_Rule row).

Lemma refuse_codes b code : codes (refuse b code) `sublist_of` [code].
Proof. destruct b; cbn; [done|apply sublist_nil_l]. Qed.

Lemma read_codes at_ u s row l :
  codes row `sublist_of` l → codes (read now at_ u s row) `sublist_of` u :: s :: l.
Proof.
  intros Hr. unfold read. destruct (wasRead at_ now) as [[] []]; cbn [negb map].
  - by do 2 apply sublist_cons.
  - apply sublist_cons, sublist_skip, sublist_nil_l.
  - apply sublist_skip, sublist_nil_l.
  - apply sublist_skip, sublist_nil_l.
Qed.

Lemma app_codes row row' l l' :
  codes row `sublist_of` l → codes row' `sublist_of` l' → codes (row ++ row') `sublist_of` l ++ l'.
Proof. intros. rewrite map_app. by apply sublist_app. Qed.

Lemma refuse_app b code row l :
  codes row `sublist_of` l → codes (refuse b code ++ row) `sublist_of` code :: l.
Proof. intros. apply (app_codes _ _ [code]); [apply refuse_codes|done]. Qed.

Lemma one_code code l : code ∈ l → codes [mkFailure code false] `sublist_of` l.
Proof.
  intros Hin. apply list_elem_of_split in Hin as (l1 & l2 & ->). cbn.
  apply sublist_inserts_l, sublist_skip, sublist_nil_l.
Qed.

Lemma independent_codes clean same : codes (independent clean same) `sublist_of` [M9SameModel; M9ModelUnknown].
Proof.
  revert same. induction clean as [|r clean IH]; intros same; cbn [independent].
  - case_match; apply one_code, contains_elem; reflexivity.
  - case_match; [apply sublist_nil_l|apply IH].
Qed.

(** A row's refusals, one after another. *)
Ltac refusals := repeat first
  [apply refuse_app | apply refuse_codes | apply sublist_nil_l
  | apply one_code, contains_elem; reflexivity].

Lemma rows_in_order : codes (failures f cfg now) `sublist_of` ruleOrder.
Proof.
  unfold failures.
  apply (app_codes _ _ [M1Unread; M1Stale; M1ModeOff; M1ModeUnknown; M1OperatorVeto; M1LayersDisagree; M1ConfigNotAtTip]).
  { apply read_codes. refusals. }
  apply (app_codes _ _ [M2Unread; M2Stale; M2KindUnknown; M2JudgedSHAInvalid; M2BotUnknown; M2NotBotAuthored;
    M2BranchNotWorkflow; M2BranchNotRecorded; M2AnchorMismatch; M2HeadNotJudged; M2Draft; M2Hold; M2ThreadsUnresolved]).
  { apply read_codes. do 2 apply refuse_app.
    apply (app_codes _ _ [M2BotUnknown; M2NotBotAuthored]); [case_match; [refusals|apply sublist_cons; refusals]|].
    apply (app_codes _ _ [M2BranchNotWorkflow]); [case_match; refusals|refusals]. }
  apply (app_codes _ _ [M3Unread; M3Stale; M3VerdictWrongSHA; M3FixedNewFailure; M3NotBestVerdict; M3NoTargetJobs;
    M3TargetNotPassed; M3TargetRetried]).
  { apply read_codes, refuse_app. unfold m3_pipefix.
    repeat (case_match; [|]); try (by refusals); [do 3 apply sublist_cons; refusals|].
    apply sublist_cons. etransitivity; [apply refuse_codes|]. apply sublist_skip, sublist_nil_l. }
  apply (app_codes _ _ [M4Unread; M4Stale; M4ExecChanging; M4DeltaNotEligible; M4DeltaNotForClass]).
  { apply read_codes. repeat (case_match; [|]); try (by refusals). do 2 apply sublist_cons. refusals. }
  apply (app_codes _ _ [M5Unread; M5Stale; M5DiffIncomplete; M5EmptyDiff; M5Unclassified; M5StaticGates;
    M5WeakeningUndecidable; M5ClassNeverEligible; M5ClassNotEnabled; M5MixedClasses; M5CINotForKind; M5DocsPure]).
  { apply read_codes. repeat (case_match; [|]); try (by refusals). do 3 apply sublist_cons. unfold m5_paths. refusals. }
  apply (app_codes _ _ [M6Unread; M6Stale; M6NoPipeline; M6PipelineWrongSHA; M6PipelineNotSuccess; M6FailedAttempt;
    M6ObservedOnce]).
  { apply read_codes. refusals. }
  apply (app_codes _ _ [M7Unread; M7Stale; M7TargetMoved]); [apply read_codes; refusals|].
  apply (app_codes _ _ [M8Unread; M8Stale; M8AgeUnobservable; M8ApprovalsInsufficient]).
  { unfold m8. case_match; [apply sublist_nil_l|]. apply read_codes. case_match; [by refusals|]. apply sublist_cons. refusals. }
  apply (app_codes _ _ [M9Unread; M9Stale; M9Blocking; M9VerdictUnknown; M9ReviewsNotEnabled; M9NoReviewFact;
    M9SameModel; M9ModelUnknown]).
  { apply read_codes. case_match. case_match. refusals. case_match; [apply sublist_nil_l|]. apply refuse_app.
    case_match; [by refusals|]. apply sublist_cons, independent_codes. }
  apply (app_codes _ _ [M10Unread; M10Stale; M10NotMergeable]); [apply read_codes; refusals|].
  apply read_codes. refusals.
Qed.

Lemma ruleOrder_distinct : NoDup ruleOrder.
Proof. apply (bool_decide_unpack _). vm_compute. exact I. Qed.

Lemma mode_reported : dc_Mode (Decide f cfg now) = c_Mode cfg.
Proof. unfold Decide. by destruct (failures f cfg now). Qed.

(** C39. What a refusal says. The failed rules are some of the policy's rule codes,
    in the order in which the rows are evaluated and each at most once; there
    are none exactly when the decision is to merge; the deciding rule is the
    first of them, and [merge] is not one of them. *)
Theorem Decide_order :
  FailedRules (Decide f cfg now) `sublist_of` ruleOrder ∧ NoDup (FailedRules (Decide f cfg now)) ∧
  (FailedRules (Decide f cfg now) = [] ↔ Merge (Decide f cfg now) = true) ∧
  dc_Rule (Decide f cfg now) = default RuleMerge (head (FailedRules (Decide f cfg now))) ∧
  RuleMerge ∉ FailedRules (Decide f cfg now).
Proof.
  assert (FailedRules (Decide f cfg now) = map fl_Rule (failures f cfg now)) as E
    by (unfold Decide, FailedRules; by destruct (failures f cfg now)).
  pose proof rows_in_order as Hs. rewrite <- E in Hs. split_and!.
  - done.
  - exact (sublist_NoDup _ _ ruleOrder_distinct Hs).
  - unfold Decide, FailedRules. by destruct (failures f cfg now).
  - unfold Decide, FailedRules. by destruct (failures f cfg now).
  - intros Hin. apply (sublist_subseteq _ _ Hs) in Hin. revert Hin. apply contains_false. reflexivity.
Qed.
End order.

(** ** A documentation change that merges *)

Definition example_sha := "0123456789abcdef0123456789abcdef01234567".
Definition example_head := "76543210fedcba9876543210fedcba9876543210".

Definition example_config (mode : Mode) : Config := mkConfig mode [ClassDocs] 2 1.

Definition example_facts (at_ : Time) (mode : Mode) (reviews : list Review) (merges : list Time) : Facts :=
  mkFacts KindChange example_sha 7
    (mkConfigFacts at_ example_head false [mkLayerMode "project" mode])
    (mkMRFacts at_ 7 "gonk/change-12" "gonk/change-12" "anchor" "anchor" example_sha false ["docs"] true)
    (mkVerdictFacts at_ example_sha VerdictGreen [])
    (mkCIFacts at_ KindNone)
    (mkDiffFacts at_ false ["docs-md"]
       [mkChangedPath (ScopePolicy.mkDecision "docs/guide.md" ClassDocs ClassDocs "docs-md" "" "" "" [])
          false false false "" "" FileModeRegular FileModeRegular] true [])
    (mkEvidenceFacts at_ [mkPipelineFact 4 example_sha PipelineSuccess 0] 0)
    (mkTargetFacts at_ example_head example_head)
    (mkApprovalFacts at_ [mkApproval 11 true 40 (at_ - Minute); mkApproval 7 true 50 (at_ - Minute)] true
       (at_ - Hour) 1)
    (mkReviewFacts at_ true reviews) (mkStatusFacts at_ StatusMergeable) (mkRateFacts at_ merges).

(** The instants of the examples. *)
Definition noon : Time := 63900000000 * Second.

Lemma merges_capped_witness :
  merges_in_day (noon - Hour) [noon + Minute; noon] <= 2.
Proof.
  apply (@merges_capped ascii_unicode 2); [lia|].
  apply (@history_merge ascii_unicode 2 (example_facts (noon + Minute) ModeAfterHumanApproval [] [noon])
           (example_config ModeAfterHumanApproval));
    [|vm_compute; discriminate|reflexivity|vm_compute; reflexivity].
  apply (@history_merge ascii_unicode 2 (example_facts noon ModeAfterHumanApproval [] [])
           (example_config ModeAfterHumanApproval));
    [apply history_none|vm_compute; discriminate|reflexivity|vm_compute; reflexivity].
Defined.

(** An approval from the bot alone, an hour-old fact, a third merge of the day
    and a review by the author's own model are refused. *)
Example refusals_example :
  let decide f mode := FailedRules (@Decide ascii_unicode f (example_config mode) noon) in
  decide (example_facts (noon - Hour) ModeAfterHumanApproval [] []) ModeAfterHumanApproval =
    [M1Stale; M2Stale; M3Stale; M4Stale; M5Stale; M6Stale; M7Stale; M8Stale; M9Stale; M10Stale; M11Stale] ∧
  decide (example_facts noon ModeAfterHumanApproval [] [noon - Hour; 0]) ModeAfterHumanApproval = [M11RateCapReached] ∧
  decide (example_facts noon ModeAfterAgenticReview
    [mkReview example_sha ReviewNoBlockingFindings "glm" " GLM "] []) ModeAfterAgenticReview = [M9SameModel].
Proof. vm_compute. repeat split. Qed.

(** A review of the judged commit whose verdict is not one of the two is
    refused, unless a later record of that commit has an empty verdict. *)
Example empty_verdict_masks :
  let odd := mkReview example_sha "needs-work" "glm" "qwen" in
  let empty := mkReview example_sha "" "glm" "qwen" in
  let decide reviews := FailedRules (@Decide ascii_unicode (example_facts noon ModeAfterHumanApproval reviews [])
    (example_config ModeAfterHumanApproval) noon) in
  decide [odd] = [M9VerdictUnknown] ∧ decide [empty; odd] = [M9VerdictUnknown] ∧
  decide [odd; empty] = [] ∧ decide [empty] = [].
Proof. vm_compute. repeat split. Qed.
