(* ===== verification/GoUTF8.v ===== *)
(** * Runes: the part of [unicode/utf8], [unicode] and [strings] that looks at
    whole characters

    A string is cut into pieces as Go's [range] does: a well-formed encoding is
    one rune, any other byte is a piece of its own. The two properties of
    characters used here, white space and control, are tables short enough to
    be written out. *)

From S2P Require Import Prelude.
From S2P Require Import GoStrings.
From S2P Require Import GoPath.

Definition newline : Ascii.ascii := Ascii.ascii_of_nat 10.

(** ** Pieces *)

Definition nth_byte (n : nat) (s : string) : Z :=
  match String.get n s with Some c => byte_val c | None => 0 end.

(** The code point of a well-formed encoding of [n] bytes at the front of
    [s]. *)
Definition code_point (n : nat) (s : string) : Z :=
  match n with
  | 2%nat => (nth_byte 0 s - 192) * 64 + (nth_byte 1 s - 128)
  | 3%nat => (nth_byte 0 s - 224) * 4096 + (nth_byte 1 s - 128) * 64 + (nth_byte 2 s - 128)
  | 4%nat => (nth_byte 0 s - 240) * 262144 + (nth_byte 1 s - 128) * 4096 + (nth_byte 2 s - 128) * 64
             + (nth_byte 3 s - 128)
  | _ => nth_byte 0 s
  end.

Record piece := mkPiece {
  pc_bytes : string;
  pc_rune : option Z;   (** [None]: a byte that is not UTF-8 *)
}.

Definition first_piece (s : string) : piece :=
  let n := rune_len s in
  mkPiece (String.substring 0 n s)
    (if (n =? 1)%nat && negb (nth_byte 0 s <? 128) then None else Some (code_point n s)).

Fixpoint pieces_fuel (fuel : nat) (s : string) : list piece :=
  match fuel, s with
  | S fuel, String _ _ => first_piece s :: pieces_fuel fuel (string_drop (rune_len s) s)
  | _, _ => []
  end.

(** Each piece takes a byte at least. *)
Definition pieces (s : string) : list piece := pieces_fuel (String.length s) s.

Definition concat_bytes (ps : list piece) : string := String.concat "" (map pc_bytes ps).

(** ** [unicode] *)

Definition between (lo hi r : Z) : bool := (lo <=? r) && (r <=? hi).

Definition IsSpace (r : Z) : bool :=
  between 9 13 r || (r =? 32) || (r =? 133) || (r =? 160) || (r =? 5760) || between 8192 8202 r ||
  (r =? 8232) || (r =? 8233) || (r =? 8239) || (r =? 8287) || (r =? 12288).

Definition IsControl (r : Z) : bool := between 0 31 r || between 127 159 r.

(** ** [strings] *)

(** [ToValidUTF8]: each run of bytes that are not UTF-8 becomes one
    replacement. *)
Fixpoint valid_pieces (invalid : bool) (replacement : string) (ps : list piece) : string :=
  match ps with
  | [] => ""
  | p :: ps =>
      match pc_rune p with
      | Some _ => pc_bytes p +:+ valid_pieces false replacement ps
      | None => (if invalid then "" else replacement) +:+ valid_pieces true replacement ps
      end
  end.
Definition ToValidUTF8 (s replacement : string) : string := valid_pieces false replacement (pieces s).

(** [FieldsFunc]: the maximal runs of characters that are no separators. *)
Fixpoint fields (f : option Z → bool) (ps : list piece) (cur : option string) : list string :=
  match ps with
  | [] => match cur with Some w => [w] | None => [] end
  | p :: ps =>
      if f (pc_rune p) then
        match cur with Some w => w :: fields f ps None | None => fields f ps None end
      else fields f ps (Some (default "" cur +:+ pc_bytes p))
  end.
Definition FieldsFunc (s : string) (f : Z → bool) : list string :=
  fields (λ r, f (default 65533 r)) (pieces s) None.

Definition RuneCount (s : string) : Z := Z.of_nat (length (pieces s)).

(** ** Lemmas *)

Lemma rune_len_pos c s : (1 <= rune_len (String c s))%nat.
Proof. unfold rune_len. repeat case_match; lia. Qed.

Lemma string_drop_length n s : String.length (string_drop n s) = (String.length s - n)%nat.
Proof. revert s. induction n as [|n IH]; intros [|c s]; cbn; try lia. by rewrite IH. Qed.

Lemma substring_drop n s : String.substring 0 n s +:+ string_drop n s = s.
Proof.
  revert s. induction n as [|n IH]; intros [|c s]; cbn; try done. change (String c (String.substring 0 n s +:+ string_drop n s) = String c s). by rewrite IH.
Qed.

Lemma append_nothing s : s +:+ "" = s.
Proof. induction s as [|c s IH]; [done|]. change (String c s +:+ "") with (String c (s +:+ "")). by rewrite IH. Qed.

Lemma concat_cons x xs : String.concat "" (x :: xs) = x +:+ String.concat "" xs.
Proof. destruct xs as [|y xs]; [symmetry; apply append_nothing|done]. Qed.

(** With enough fuel the pieces are the whole string. *)
Lemma pieces_fuel_bytes fuel s : (String.length s <= fuel)%nat → concat_bytes (pieces_fuel fuel s) = s.
Proof.
  revert s. induction fuel as [|fuel IH]; intros [|c s] Hf; cbn in Hf; [done|lia|done|].
  cbn [pieces_fuel]. unfold concat_bytes in *. cbn [map]. rewrite concat_cons, IH.
  - unfold first_piece. cbn [pc_bytes]. apply substring_drop.
  - rewrite string_drop_length. pose proof (rune_len_pos c s). cbn [String.length]. lia.
Qed.

Lemma pieces_bytes s : concat_bytes (pieces s) = s.
Proof. by apply pieces_fuel_bytes. Qed.

(** Characters stand for themselves wherever they stand. *)
Lemma append_cons c s t : String c s +:+ t = String c (s +:+ t).
Proof. done. Qed.

Lemma rune_len_prefix s n t :
  rune_len s = n → (2 <= n)%nat →
  rune_len (String.substring 0 n s +:+ t) = n ∧ String.length (String.substring 0 n s) = n ∧
  code_point n (String.substring 0 n s +:+ t) = code_point n s.
Proof.
  destruct s as [|c [|c1 [|c2 [|c3 s]]]]; intros Hn H2.
  all: unfold rune_len in Hn; cbn [cont tail] in Hn; repeat case_match; subst n; try lia; try (exfalso; congruence).
  all: rewrite ?andb_true_iff in *; destruct_and?; try discriminate.
  all: cbn [String.substring]; unfold rune_len; cbn [String.length]; rewrite ?append_cons; cbn [cont tail].
  all: split_and!; try done.
  all: repeat match goal with E : ?x = true |- context [?x] => rewrite E | E : ?x = false |- context [?x] => rewrite E end.
  all: try done; by destruct s.
Qed.

Lemma append_assoc_str (a b c : string) : (a +:+ b) +:+ c = a +:+ (b +:+ c).
Proof. induction a as [|x a IH]; [done|]. rewrite !append_cons. by rewrite IH. Qed.

Lemma string_drop_all b t : string_drop (String.length b) (b +:+ t) = t.
Proof. induction b as [|c b IH]; [done|]. rewrite append_cons. exact IH. Qed.

Lemma substring_all b t : String.substring 0 (String.length b) (b +:+ t) = b.
Proof. induction b as [|c b IH]; [by destruct t|]. rewrite append_cons. cbn [String.length String.substring]. by rewrite IH. Qed.

(** A piece that is a character: it begins a string it is cut from. *)
Definition whole_piece (p : piece) : Prop := ∃ s, s ≠ "" ∧ p = first_piece s ∧ is_Some (pc_rune p).

Lemma whole_first p t :
  whole_piece p → first_piece (pc_bytes p +:+ t) = p ∧ rune_len (pc_bytes p +:+ t) = String.length (pc_bytes p) ∧ pc_bytes p ≠ "".
Proof.
  intros (s & Hs & -> & [r Hr]). destruct s as [|c s]; [done|].
  set (n := rune_len (String c s)) in *. destruct (decide (2 <= n)%nat) as [Hn|Hn].
  - destruct (rune_len_prefix (String c s) n t eq_refl Hn) as (E1 & E2 & E3).
    unfold first_piece in *. fold n in Hr |- *. cbn [pc_bytes pc_rune] in *. rewrite E1. split_and!; [|by rewrite E2|].
    + assert ((n =? 1)%nat = false) as -> by (apply Nat.eqb_neq; lia). cbn [andb]. apply (f_equal2 mkPiece).
      * rewrite <- E2 at 1. apply substring_all.
      * by rewrite E3.
    + intros E. rewrite E in E2. change (0%nat = n) in E2. lia.
  - assert (n = 1%nat) as E by (pose proof (rune_len_pos c s); unfold n in *; lia).
    unfold first_piece in *. fold n in Hr |- *. rewrite E in Hr |- *. cbn [pc_bytes pc_rune] in *.
    assert (Hc : (nth_byte 0 (String c s) <? 128) = true).
    { destruct (nth_byte 0 (String c s) <? 128); [done|]. done. }
    assert (E0 : String.substring 0 1 (String c s) = String c "") by (by destruct s). rewrite E0.
    assert (Hl : rune_len (String c "" +:+ t) = 1%nat).
    { unfold nth_byte in Hc. cbn [String.get] in Hc. apply Z.ltb_lt in Hc. rewrite append_cons. unfold rune_len, in_range.
      repeat (rewrite (proj2 (Z.leb_gt _ (byte_val c))) by lia; cbn [andb]). done. }
    rewrite Hl. split_and!; [|done|done]. rewrite append_cons. destruct t; done.
Qed.

Lemma pieces_fuel_enough f g s :
  (String.length s <= f)%nat → (String.length s <= g)%nat → pieces_fuel f s = pieces_fuel g s.
Proof.
  revert g s. induction f as [|f IH]; intros [|g] [|c s] Hf Hg; cbn in Hf, Hg; try lia; try done.
  cbn [pieces_fuel]. f_equal. pose proof (rune_len_pos c s).
  apply IH; rewrite string_drop_length; cbn [String.length]; lia.
Qed.

Lemma pieces_step c s : pieces (String c s) = first_piece (String c s) :: pieces (string_drop (rune_len (String c s)) (String c s)).
Proof.
  unfold pieces at 1. cbn [String.length pieces_fuel]. f_equal. apply pieces_fuel_enough; [|done].
  rewrite string_drop_length. pose proof (rune_len_pos c s). cbn [String.length]. lia.
Qed.

Lemma pieces_whole p t : whole_piece p → pieces (pc_bytes p +:+ t) = p :: pieces t.
Proof.
  intros Hw. destruct (whole_first p t Hw) as (E1 & E2 & E3). destruct (pc_bytes p +:+ t) as [|c s] eqn:E.
  - by destruct (pc_bytes p).
  - rewrite pieces_step, E1. f_equal. rewrite E2, <- E. by rewrite string_drop_all.
Qed.

Lemma pieces_concat ps : Forall whole_piece ps → pieces (concat_bytes ps) = ps.
Proof.
  induction 1 as [|p ps Hp _ IH]; [done|]. unfold concat_bytes in *. cbn [map]. rewrite concat_cons, pieces_whole by done.
  by rewrite IH.
Qed.

Lemma pieces_shape s : Forall (λ p, pc_rune p = None ∨ whole_piece p) (pieces s).
Proof.
  unfold pieces. generalize (String.length s) as fuel. intros fuel. revert s. induction fuel as [|fuel IH]; intros [|c s]; cbn; try by constructor.
  constructor; [|apply IH]. destruct (pc_rune (first_piece (String c s))) eqn:E; [right|by left].
  exists (String c s). split_and!; [done|done|by eexists].
Qed.
