(* ===== verification/DiffMap.v ===== *)
(** * [pkg/diffmap]: the line map of a merge request's diff

    [parseDiff] reads one file's unified diff strictly; [Build] indexes every
    line of every hunk by the coordinate a reviewer cites it with, and [Lookup],
    [Quote] and [Reviewable] answer from the index. What an error says is a
    value of an inductive type. [Render] is left out but for [Coord]. *)

From Stdlib Require Import Ascii DecimalString DecimalN.
From S2P Require Import Prelude.
From S2P Require Import GoStrings.
From S2P Require Import GoPath.
From S2P Require Import GoUTF8.

(** ** Data *)

Record FileDiff := mkFileDiff {
  fd_OldPath : string;
  fd_NewPath : string;
  NewFile : bool;
  RenamedFile : bool;
  DeletedFile : bool;
  Diff : string;
  TooLarge : bool;
  Collapsed : bool;
}.

Definition MaxLineNumber : Z := 2147483647.

Abbreviation Side := string (only parsing).
Definition SideNew : Side := "new".
Definition SideOld : Side := "old".

Inductive Op := OpContext | OpAdded | OpRemoved.
#[export] Instance Op_eq_dec : EqDecision Op.
Proof. solve_decision. Defined.

Abbreviation Status := string (only parsing).
Definition StatusText : Status := "text".
Definition StatusNoLines : Status := "no-lines".
Definition StatusTooLarge : Status := "too-large".
Definition StatusCollapsed : Status := "collapsed".
Definition StatusBinary : Status := "binary".
Definition StatusNoText : Status := "no-text".
Definition StatusMalformed : Status := "malformed".
Definition StatusEmpty : Status := "empty".

(** [Status.Reviewable]. *)
Definition status_Reviewable (s : Status) : bool := String.eqb s StatusText || String.eqb s StatusNoLines.

Record Line := mkLine { Old : Z; New : Z; l_Op : Op; Text : string; NoEOL : bool }.
Definition Line_zero : Line := mkLine 0 0 OpContext "" false.

Record HunkHeader := mkHunkHeader {
  OldStart : Z;
  OldLines : Z;
  NewStart : Z;
  NewLines : Z;
  Section_ : string;
}.

Record Hunk := mkHunk { h_Header : HunkHeader; h_Lines : list Line }.

(** What can be wrong with a header, a hunk, a diff, a file. *)
Inductive header_error := NoAtSigns | BadOldRange | NoPlus | BadNewRange | NoClosing | TextAfterClosing.

Inductive hunk_error :=
| Preamble | Header (why : header_error) | EmptyHunk | StartsAtZero | OutOfOrder | PastMaxLine
| EndsEarly (missing_old missing_new : Z) | ContextPast (side : Side) | RemovedPast | AddedPast
| MarkerFirst | UnknownPrefix (c : Ascii.ascii).

(** The number of the line of the diff at fault. *)
Record diff_error := mkDiffError { at_line : Z; why : hunk_error }.

Inductive detail :=
| NoDetail | BothNewAndDeleted | BadDiff (e : diff_error) | NewHasOld (old : Z) | DeletedHasNew (new : Z)
| NothingToCite.

Record File := mkFile {
  f_OldPath : string;
  f_NewPath : string;
  f_New : bool;
  f_Renamed : bool;
  f_Deleted : bool;
  f_Status : Status;
  f_Detail : detail;
  f_Hunks : list Hunk;
  f_Added : Z;
  f_Removed : Z;
}.

Record Anchor := mkAnchor { a_Path : string; a_Side : Side; a_Line : Z }.
#[export] Instance Anchor_eq_dec : EqDecision Anchor.
Proof. solve_decision. Defined.
#[export] Instance Anchor_countable : Countable Anchor :=
  inj_countable' (λ a, (a_Path a, a_Side a, a_Line a)) (λ '(p, s, l), mkAnchor p s l) ltac:(by intros []).

Record Reason := mkReason { r_Path : string; r_Status : Status; r_Detail : detail }.

Abbreviation QuoteMatch := string (only parsing).
Definition QuoteNoAnchor : QuoteMatch := "no-anchor".
Definition QuoteNoMatch : QuoteMatch := "no-match".
Definition QuoteWithin : QuoteMatch := "within".
Definition QuoteWhole : QuoteMatch := "whole".

Record lineRef := mkLineRef { lr_file : nat; lr_hunk : nat; lr_line : nat }.

Record Map := mkMap { files : list File; index : gmap Anchor lineRef }.

(** ** Text *)

Definition carriage : Ascii.ascii := Ascii.ascii_of_nat 13.
Definition space : Ascii.ascii := " "%char.
Definition line_break (c : Ascii.ascii) : bool := Ascii.eqb c newline || Ascii.eqb c carriage.

Definition CutPrefix (s p : string) : option string :=
  if HasPrefix s p then Some (string_drop (String.length p) s) else None.

(** [TrimSuffix] of one byte. *)
Fixpoint trim_last (c : Ascii.ascii) (s : string) : string :=
  match s with
  | EmptyString => EmptyString
  | String b EmptyString => if Ascii.eqb b c then EmptyString else s
  | String b s' => String b (trim_last c s')
  end.

(** A character as it is shown. *)
Definition shown_rune (p : piece) : string :=
  match pc_rune p with
  | None => pc_bytes p
  | Some r =>
      if r =? 9 then pc_bytes p
      else if (r =? 13) || (r =? 11) || (r =? 12) || (r =? 10) || (r =? 133) || (r =? 8232) || (r =? 8233) then " "
      else if IsControl r || between 8234 8238 r || between 8294 8297 r then "?"
      else pc_bytes p
  end.
Definition showable (s : string) : string :=
  String.concat "" (map shown_rune (pieces (ToValidUTF8 s "?"))).

Definition Norm (s : string) : string := Join (FieldsFunc s IsSpace) " ".

(** ** Headers *)

Fixpoint digits_of (s : string) : string * string :=
  match s with
  | String c s' => if is_digit c then let '(d, rest) := digits_of s' in (String c d, rest) else ("", s)
  | EmptyString => ("", "")
  end.

Definition parseNumber (s : string) : option (Z * string) :=
  let '(d, rest) := digits_of s in
  if (len d =? 0) || (10 <? len d) then None
  else match ParseInt d with
       | Err _ => None
       | Ok v => if MaxLineNumber <? v then None else Some (v, rest)
       end.

Definition parseRange (s : string) : option (Z * Z * string) :=
  match parseNumber s with
  | None => None
  | Some (start, rest) =>
      match CutPrefix rest "," with
      | None => Some (start, 1, rest)
      | Some after =>
          match parseNumber after with
          | None => None
          | Some (count, rest) => Some (start, count, rest)
          end
      end
  end.

Definition ParseHunkHeader (s : string) : result header_error HunkHeader :=
  match CutPrefix s "@@ -" with
  | None => Err NoAtSigns
  | Some rest =>
  match parseRange rest with
  | None => Err BadOldRange
  | Some (oldStart, oldLines, rest) =>
  match CutPrefix rest " +" with
  | None => Err NoPlus
  | Some rest =>
  match parseRange rest with
  | None => Err BadNewRange
  | Some (newStart, newLines, rest) =>
  match CutPrefix rest " @@" with
  | None => Err NoClosing
  | Some rest =>
      match rest with
      | EmptyString => Ok (mkHunkHeader oldStart oldLines newStart newLines "")
      | String c section =>
          if negb (Ascii.eqb c space) then Err TextAfterClosing
          else Ok (mkHunkHeader oldStart oldLines newStart newLines section)
      end
  end end end end end.

(** [HunkHeader.String]. *)
Definition header_String (h : HunkHeader) : string :=
  "@@ -" +:+ itoa (OldStart h) +:+ "," +:+ itoa (OldLines h) +:+ " +" +:+ itoa (NewStart h) +:+ "," +:+
  itoa (NewLines h) +:+ " @@" +:+ (if String.eqb (Section_ h) "" then "" else " " +:+ Section_ h).

(** ** Hunks *)

(** The marker about the line above. *)
Fixpoint mark_no_eol (ls : list Line) : list Line :=
  match ls with
  | [] => []
  | [l] => [mkLine (Old l) (New l) (l_Op l) (Text l) true]
  | l :: ls => l :: mark_no_eol ls
  end.

Definition exhausted (remOld : Z) : Side := if remOld =? 0 then SideOld else SideNew.

(** The lines of one hunk: [i] is how many lines of the diff were read before;
    [done_] the hunk's lines so far. *)
Fixpoint hunk_body (lines : list string) (i : Z) (done_ : list Line) (oldN newN remOld remNew : Z) :
    result diff_error (list Line * (Z * Z) * list string * Z) :=
  if negb (0 <? remOld) && negb (0 <? remNew) then Ok (done_, (oldN, newN), lines, i)
  else
    match lines with
    | [] => Err (mkDiffError i (EndsEarly remOld remNew))
    | raw :: lines =>
        let i := i + 1 in
        let '(c, rest) := match raw with String c rest => (c, rest) | EmptyString => (space, EmptyString) end in
        let body := showable rest in
        if Ascii.eqb c space then
          if (remOld =? 0) || (remNew =? 0) then Err (mkDiffError i (ContextPast (exhausted remOld)))
          else hunk_body lines i (done_ ++ [mkLine oldN newN OpContext body false]) (oldN + 1) (newN + 1)
                 (remOld - 1) (remNew - 1)
        else if Ascii.eqb c "-"%char then
          if remOld =? 0 then Err (mkDiffError i RemovedPast)
          else hunk_body lines i (done_ ++ [mkLine oldN 0 OpRemoved body false]) (oldN + 1) newN (remOld - 1) remNew
        else if Ascii.eqb c "+"%char then
          if remNew =? 0 then Err (mkDiffError i AddedPast)
          else hunk_body lines i (done_ ++ [mkLine 0 newN OpAdded body false]) oldN (newN + 1) remOld (remNew - 1)
        else if Ascii.eqb c "\"%char then
          match done_ with
          | [] => Err (mkDiffError i MarkerFirst)
          | _ => hunk_body lines i (mark_no_eol done_) oldN newN remOld remNew
          end
        else Err (mkDiffError i (UnknownPrefix c))
    end.

(** The markers after a hunk's last line. *)
Fixpoint closing_markers (lines : list string) (i : Z) (ls : list Line) : list Line * list string * Z :=
  match lines with
  | l :: rest => if HasPrefix l "\" then closing_markers rest (i + 1) (mark_no_eol ls) else (ls, lines, i)
  | [] => (ls, [], i)
  end.

(** A header on its own, and after what came before. *)
Definition check_header (hh : HunkHeader) (lastOld lastNew : Z) : option hunk_error :=
  if (OldLines hh =? 0) && (NewLines hh =? 0) then Some EmptyHunk
  else if ((0 <? OldLines hh) && (OldStart hh =? 0)) || ((0 <? NewLines hh) && (NewStart hh =? 0))
  then Some StartsAtZero
  else if ((0 <? OldLines hh) && (OldStart hh <=? lastOld)) || ((0 <? NewLines hh) && (NewStart hh <=? lastNew))
  then Some OutOfOrder
  else if (MaxLineNumber - OldLines hh <? OldStart hh - 1) || (MaxLineNumber - NewLines hh <? NewStart hh - 1)
  then Some PastMaxLine
  else None.

(** Fuel: each hunk takes a line at least. *)
Fixpoint parse_hunks (fuel : nat) (lines : list string) (i : Z) (lastOld lastNew : Z) :
    option (result diff_error (list Hunk)) :=
  match lines with
  | [] => Some (Ok [])
  | l :: lines =>
      match fuel with
      | O => None
      | S fuel =>
          match ParseHunkHeader l with
          | Err e => Some (Err (mkDiffError (i + 1) (Header e)))
          | Ok hh =>
              let i := i + 1 in
              match check_header hh lastOld lastNew with
              | Some e => Some (Err (mkDiffError i e))
              | None =>
                  match hunk_body lines i [] (OldStart hh) (NewStart hh) (OldLines hh) (NewLines hh) with
                  | Err e => Some (Err e)
                  | Ok (ls, (oldN, newN), lines, i) =>
                      let '(ls, lines, i) := closing_markers lines i ls in
                      let lastOld := if 0 <? OldLines hh then oldN - 1 else lastOld in
                      let lastNew := if 0 <? NewLines hh then newN - 1 else lastNew in
                      match parse_hunks fuel lines i lastOld lastNew with
                      | Some (Ok hs) => Some (Ok (mkHunk hh ls :: hs))
                      | r => r
                      end
                  end
              end
          end
      end
  end.

(** ** A file's diff *)

Definition preamblePrefixes : list string :=
  ["diff --git "; "index "; "--- "; "+++ "; "new file mode "; "deleted file mode "; "old mode "; "new mode ";
   "similarity index "; "dissimilarity index "; "rename from "; "rename to "].

(** [Some]: the lines from the first hunk on; [None]: a binary file. *)
Fixpoint skip_preamble (lines : list string) (i : Z) : result diff_error (option (list string * Z)) :=
  match lines with
  | [] => Ok (Some ([], i))
  | l :: rest =>
      if HasPrefix l "@@" then Ok (Some (lines, i))
      else if String.eqb l "GIT binary patch" || (HasPrefix l "Binary files " && HasSuffix l " differ") then Ok None
      else if existsb (HasPrefix l) preamblePrefixes then skip_preamble rest (i + 1)
      else Err (mkDiffError (i + 1) Preamble)
  end.

(** [(hunks, binary)]. *)
Definition parseDiff (text : string) : option (result diff_error (list Hunk * bool)) :=
  if String.eqb text "" then Some (Ok ([], false))
  else
    let lines := map (trim_last carriage) (Split newline (trim_last newline text)) in
    match skip_preamble lines 0 with
    | Err e => Some (Err e)
    | Ok None => Some (Ok ([], true))
    | Ok (Some (rest, i)) =>
        match parse_hunks (length rest) rest i 0 0 with
        | None => None
        | Some (Err e) => Some (Err e)
        | Some (Ok hs) => Some (Ok (hs, false))
        end
    end.

Definition is_op (o : Op) (l : Line) : bool :=
  match l_Op l, o with
  | OpContext, OpContext | OpAdded, OpAdded | OpRemoved, OpRemoved => true
  | _, _ => false
  end.
Definition count_op (o : Op) (hs : list Hunk) : Z :=
  Z.of_nat (length (List.filter (is_op o) (flat_map h_Lines hs))).

(** The first line that a new or a deleted file cannot have. *)
Definition impossible_line (d : FileDiff) (l : Line) : option detail :=
  if NewFile d && negb (is_op OpAdded l) then Some (NewHasOld (Old l))
  else if DeletedFile d && negb (is_op OpRemoved l) then Some (DeletedHasNew (New l))
  else None.
Fixpoint first_impossible (d : FileDiff) (ls : list Line) : option detail :=
  match ls with
  | [] => None
  | l :: ls => match impossible_line d l with Some e => Some e | None => first_impossible d ls end
  end.

Definition parseFile (d : FileDiff) : option File :=
  let file status detail hunks added removed :=
    mkFile (fd_OldPath d) (fd_NewPath d) (NewFile d) (RenamedFile d) (DeletedFile d) status detail hunks added removed in
  let malformed detail := file StatusMalformed detail [] 0 0 in
  if TooLarge d then Some (file StatusTooLarge NoDetail [] 0 0)
  else if Collapsed d then Some (file StatusCollapsed NoDetail [] 0 0)
  else if NewFile d && DeletedFile d then Some (malformed BothNewAndDeleted)
  else
    match parseDiff (Diff d) with
    | None => None
    | Some (Err e) => Some (malformed (BadDiff e))
    | Some (Ok (_, true)) => Some (file StatusBinary NoDetail [] 0 0)
    | Some (Ok ([], false)) =>
        if RenamedFile d && negb (NewFile d) && negb (DeletedFile d) &&
           negb (String.eqb (fd_OldPath d) (fd_NewPath d)) && String.eqb (Diff d) ""
        then Some (file StatusNoLines NoDetail [] 0 0)
        else Some (file StatusNoText NoDetail [] 0 0)
    | Some (Ok (hunks, false)) =>
        match first_impossible d (flat_map h_Lines hunks) with
        | Some e => Some (malformed e)
        | None => Some (file StatusText NoDetail hunks (count_op OpAdded hunks) (count_op OpRemoved hunks))
        end
    end.

(** ** The map *)

Inductive bad_input := EmptyPath (file : nat) | TwoFilesClaim (path : string) (side : Side).

(** The sides of a file that exist, each with the path it is cited under. *)
Definition side_keys (d : FileDiff) : list (string * Side) :=
  (if DeletedFile d then [] else [(fd_NewPath d, SideNew)]) ++
  (if NewFile d then [] else [(fd_OldPath d, SideOld)]).

Fixpoint claim_sides (owner : gset (string * Side)) (keys : list (string * Side)) :
    result bad_input (gset (string * Side)) :=
  match keys with
  | [] => Ok owner
  | k :: keys => if decide (k ∈ owner) then Err (TwoFilesClaim k.1 k.2) else claim_sides ({[ k ]} ∪ owner) keys
  end.

(** The coordinates of a line: the new one first, as the code writes them. *)
Definition line_anchors (f : File) (l : Line) : list Anchor :=
  (if is_op OpRemoved l then [] else [mkAnchor (f_NewPath f) SideNew (New l)]) ++
  (if is_op OpAdded l then [] else [mkAnchor (f_OldPath f) SideOld (Old l)]).

Definition line_refs (f : File) (fi hi li : nat) (l : Line) : list (Anchor * lineRef) :=
  map (λ a, (a, mkLineRef fi hi li)) (line_anchors f l).
Definition hunk_refs (f : File) (fi hi : nat) (h : Hunk) : list (Anchor * lineRef) :=
  List.concat (imap (line_refs f fi hi) (h_Lines h)).
Definition file_refs (fi : nat) (f : File) : list (Anchor * lineRef) :=
  List.concat (imap (hunk_refs f fi) (f_Hunks f)).

Definition write_refs (m : gmap Anchor lineRef) (refs : list (Anchor * lineRef)) : gmap Anchor lineRef :=
  fold_left (λ m '(a, r), <[a := r]> m) refs m.

Fixpoint build_from (fi : nat) (owner : gset (string * Side)) (m : Map) (diffs : list FileDiff) :
    option (result bad_input Map) :=
  match diffs with
  | [] => Some (Ok m)
  | d :: diffs =>
      if String.eqb (fd_OldPath d) "" || String.eqb (fd_NewPath d) "" then Some (Err (EmptyPath (S fi)))
      else
        match claim_sides owner (side_keys d) with
        | Err e => Some (Err e)
        | Ok owner =>
            match parseFile d with
            | None => None
            | Some f =>
                build_from (S fi) owner (mkMap (files m ++ [f]) (write_refs (index m) (file_refs fi f))) diffs
            end
        end
  end.

Definition Build (diffs : list FileDiff) : option (result bad_input Map) := build_from 0 ∅ (mkMap [] ∅) diffs.

Definition ChangedLines (m : Map) : Z := fold_left (λ n f, n + (f_Added f + f_Removed f)) (files m) 0.

(** [None]: reviewable; otherwise why not. *)
Definition Reviewable (m : Map) : option (list Reason) :=
  let unreadable := List.filter (λ f, negb (status_Reviewable (f_Status f))) (files m) in
  let reasons := map (λ f, mkReason (f_NewPath f) (f_Status f) (f_Detail f)) unreadable in
  let reasons :=
    if (length reasons =? 0)%nat && (size (index m) =? 0)%nat
    then reasons ++ [mkReason "" StatusEmpty NothingToCite] else reasons in
  if (0 <? length reasons)%nat then Some reasons else None.

(** Indexing outside a slice panics in Go: [None] within [Some]. *)
Definition line_at (fs : list File) (r : lineRef) : option Line :=
  match fs !! lr_file r with
  | None => None
  | Some f => match f_Hunks f !! lr_hunk r with None => None | Some h => h_Lines h !! lr_line r end
  end.

(** [None] : no line; [Some None]: the program would stop. *)
Definition Lookup (m : Map) (a : Anchor) : option (option Line) :=
  match index m !! a with
  | None => None
  | Some ref => Some (line_at (files m) ref)
  end.

Definition Quote (m : Map) (a : Anchor) (quote : string) : QuoteMatch :=
  match Lookup m a with
  | None | Some None => QuoteNoAnchor
  | Some (Some l) =>
      if ContainsAny quote line_break then QuoteNoMatch
      else
        let q := Norm quote in
        if String.eqb q "" then QuoteNoMatch
        else
          let text := Norm (Text l) in
          if String.eqb text q then QuoteWhole
          else if Contains_sub text q then QuoteWithin
          else QuoteNoMatch
  end.

Definition QuoteRunes (quote : string) : Z := RuneCount (Norm quote).

(** ** What a reader sees of a line ([render.go]) *)

Definition NoEOLMarker : string := "\ the line above has no newline at its end".

Definition Coord (l : Line) : string :=
  match l_Op l with
  | OpAdded => "[NEW:" +:+ itoa (New l) +:+ "]"
  | OpRemoved => "[OLD:" +:+ itoa (Old l) +:+ "]"
  | OpContext => "[OLD:" +:+ itoa (Old l) +:+ ",NEW:" +:+ itoa (New l) +:+ "]"
  end.

Definition span (start count : Z) : string :=
  if count =? 0 then "(none)" else "lines " +:+ itoa start +:+ "-" +:+ itoa (start + count - 1).

Fixpoint Repeat (s : string) (n : nat) : string := match n with O => "" | S n => s +:+ Repeat s n end.

Definition line_mark (l : Line) : string :=
  match l_Op l with OpAdded => "+" | OpRemoved => "-" | OpContext => " " end.

Definition render_line (width : nat) (l : Line) : list string :=
  let c := Coord l in
  (c +:+ Repeat " " (width - String.length c + 1) +:+ line_mark l +:+ " |" +:+ Text l) ::
  (if NoEOL l then [NoEOLMarker] else []).

(** The physical lines under a file's own line. *)
Definition render_hunks (f : File) : list string :=
  let width := fold_left Nat.max (map (λ l, String.length (Coord l)) (flat_map h_Lines (f_Hunks f))) 0%nat in
  List.concat (imap (λ hi h,
    ("@@ hunk " +:+ itoa (Z.of_nat hi + 1) +:+ " of " +:+ itoa (Z.of_nat (length (f_Hunks f))) +:+ ": OLD " +:+
     span (OldStart (h_Header h)) (OldLines (h_Header h)) +:+ ", NEW " +:+
     span (NewStart (h_Header h)) (NewLines (h_Header h)))
    :: flat_map (render_line width) (h_Lines h)) (f_Hunks f)).

(** ** The numbers of a hunk's lines *)

Definition old_of (l : Line) : list Z := if is_op OpAdded l then [] else [Old l].
Definition new_of (l : Line) : list Z := if is_op OpRemoved l then [] else [New l].
Abbreviation olds := (flat_map old_of).
Abbreviation news := (flat_map new_of).

Lemma flat_map_mark {B} (g : Line → list B) ls :
  (∀ l, g (mkLine (Old l) (New l) (l_Op l) (Text l) true) = g l) → flat_map g (mark_no_eol ls) = flat_map g ls.
Proof.
  intros Hg. induction ls as [|l [|l' ls] IH]; [done| |].
  - cbn. by rewrite Hg.
  - change (mark_no_eol (l :: l' :: ls)) with (l :: mark_no_eol (l' :: ls)). cbn [flat_map] in *. by rewrite IH.
Qed.

Lemma closing_markers_flat {B} (g : Line → list B) lines i ls ls' rest i' :
  (∀ l, g (mkLine (Old l) (New l) (l_Op l) (Text l) true) = g l) →
  closing_markers lines i ls = (ls', rest, i') →
  flat_map g ls' = flat_map g ls ∧ (length rest <= length lines)%nat.
Proof.
  intros Hg. revert i ls. induction lines as [|l lines IH]; intros i ls; cbn [closing_markers]; [by intros [= <- <- <-]|].
  destruct (HasPrefix l "\"); [|by intros [= <- <- <-]].
  intros [H1 H2]%IH. rewrite H1, flat_map_mark; [cbn; split; [done|lia]|done].
Qed.

Lemma seqZ_step (m n : Z) : 0 < n → m :: seqZ (m + 1) (n - 1) = seqZ m n.
Proof. intros Hn. symmetry. rewrite seqZ_cons by lia. by rewrite Z.add_1_r, Z.sub_1_r. Qed.

(** A hunk's lines on a side are numbered from its start, one by one, as many
    as its header says. *)
Lemma hunk_body_numbers lines i done_ o n ro rn ls o' n' rest i' :
  hunk_body lines i done_ o n ro rn = Ok (ls, (o', n'), rest, i') → 0 <= ro → 0 <= rn →
  olds ls = olds done_ ++ seqZ o ro ∧ news ls = news done_ ++ seqZ n rn ∧ o' = o + ro ∧ n' = n + rn ∧
  (length rest <= length lines)%nat.
Proof.
  revert i done_ o n ro rn. induction lines as [|raw lines IH]; intros i done_ o n ro rn H Ho Hn; cbn [hunk_body] in H.
  all: destruct (negb (0 <? ro) && negb (0 <? rn)) eqn:Hend;
    [injection H as <- <- <- <- <-; apply andb_true_iff in Hend as [H1 H2];
     apply negb_true_iff, Z.ltb_ge in H1, H2; replace ro with 0 by lia; replace rn with 0 by lia;
     rewrite !app_nil_r, !Z.add_0_r; done|].
  { done. }
  destruct (match raw with String c rest => (c, rest) | EmptyString => (space, EmptyString) end) as [c rest0].
  assert (∀ k : nat, (k <= length lines → k <= length (raw :: lines))%nat) as Hlen by (cbn; lia).
  repeat case_match; try discriminate.
  all: apply IH in H as (-> & -> & -> & -> & Hl); [|lia..].
  all: rewrite ?flat_map_app, ?flat_map_mark by done; cbn [flat_map old_of new_of is_op l_Op Old New app]; rewrite ?app_nil_r.
  all: repeat match goal with E : _ || _ = false |- _ => apply orb_false_iff in E as [? ?] end.
  all: repeat match goal with E : (_ =? 0) = false |- _ => apply Z.eqb_neq in E end.
  all: rewrite <- ?app_assoc; cbn [app]; rewrite ?seqZ_step by lia.
  all: repeat split; try done; try lia; auto.
Qed.

(** ** Headers: the numbers are in range *)

Definition number_ok (z : Z) : Prop := 0 <= z <= MaxLineNumber.

Lemma digits_of_digits s d rest : digits_of s = (d, rest) → all_bytes is_digit d = true.
Proof.
  revert d rest. induction s as [|c s IH]; intros d rest; cbn [digits_of]; [by intros [= <- <-]|].
  destruct (is_digit c) eqn:Hc; [|by intros [= <- <-]].
  destruct (digits_of s) as [d' r'] eqn:E. intros [= <- <-]. cbn. rewrite Hc. by apply (IH d' r').
Qed.

Lemma parseNumber_ok s v rest : parseNumber s = Some (v, rest) → number_ok v.
Proof.
  unfold parseNumber. destruct (digits_of s) as [d r] eqn:Hd. destruct (_ || _); [done|].
  destruct (ParseInt d) as [w|e] eqn:Hp; [|done]. destruct (Z.ltb_spec MaxLineNumber w); [done|].
  intros [= <- <-]. split; [|lia]. eapply ParseInt_digits_nonneg; [by eapply digits_of_digits|done].
Qed.

Lemma parseRange_ok s a b rest : parseRange s = Some (a, b, rest) → number_ok a ∧ number_ok b.
Proof.
  unfold parseRange. destruct (parseNumber s) as [[x r]|] eqn:E1; [|done]. apply parseNumber_ok in E1.
  destruct (CutPrefix r ",") as [after|]; [|by intros [= <- <- <-]].
  destruct (parseNumber after) as [[y r']|] eqn:E2; [|done]. apply parseNumber_ok in E2. by intros [= <- <- <-].
Qed.

Definition header_ok (h : HunkHeader) : Prop :=
  number_ok (OldStart h) ∧ number_ok (OldLines h) ∧ number_ok (NewStart h) ∧ number_ok (NewLines h).

Lemma ParseHunkHeader_ok s h : ParseHunkHeader s = Ok h → header_ok h.
Proof.
  unfold ParseHunkHeader, header_ok. intros H.
  repeat match goal with
  | H : context [parseRange ?s] |- _ =>
      let E := fresh "E" in destruct (parseRange s) as [[[? ?] ?]|] eqn:E; [apply parseRange_ok in E|done]
  | H : context [CutPrefix ?s ?p] |- _ => destruct (CutPrefix s p); [|done]
  | H : context [match ?x with EmptyString => _ | String _ _ => _ end] |- _ => destruct x
  | H : context [if ?b then _ else _] |- _ => destruct b
  end; try done; injection H as <-; cbn; tauto.
Qed.

(** ** A file's hunks *)

(** What one hunk of an accepted diff satisfies after the lines [lo], [ln]. *)
Definition hunk_ok (h : Hunk) : Prop :=
  header_ok (h_Header h) ∧
  olds (h_Lines h) = seqZ (OldStart (h_Header h)) (OldLines (h_Header h)) ∧
  news (h_Lines h) = seqZ (NewStart (h_Header h)) (NewLines (h_Header h)) ∧
  h_Lines h ≠ [].

Definition above (lo : Z) (l : list Z) : Prop := Forall (λ k, lo < k <= MaxLineNumber) l ∧ NoDup l.

Lemma NoDup_seqZ m n : NoDup (seqZ m n).
Proof. apply NoDup_fmap_2; [|apply NoDup_seq]. intros ? ?; lia. Qed.

(** A run of numbers past [lo], then numbers past the run. *)
Lemma above_run lo start count rest :
  0 <= count → (0 < count → lo < start ∧ start + count - 1 <= MaxLineNumber) →
  above (if 0 <? count then start + count - 1 else lo) rest → above lo (seqZ start count ++ rest).
Proof.
  intros Hc Hs [Hr Hnd]. destruct (Z.ltb_spec 0 count) as [Hp|Hp].
  - specialize (Hs Hp). split.
    + apply Forall_app. split.
      * apply Forall_forall. intros k ?%elem_of_seqZ. lia.
      * eapply Forall_impl; [exact Hr|]. cbn. lia.
    + apply NoDup_app. split; [apply NoDup_seqZ|split; [|done]].
      intros k Hk%elem_of_seqZ Hin. rewrite Forall_forall in Hr. specialize (Hr k Hin). lia.
  - replace count with 0 by lia. done.
Qed.

Lemma check_header_none hh lo ln :
  check_header hh lo ln = None →
  (0 < OldLines hh → lo < OldStart hh ∧ OldStart hh + OldLines hh - 1 <= MaxLineNumber) ∧
  (0 < NewLines hh → ln < NewStart hh ∧ NewStart hh + NewLines hh - 1 <= MaxLineNumber) ∧
  ¬ (OldLines hh = 0 ∧ NewLines hh = 0).
Proof.
  unfold check_header. intros H. repeat (case_match; [done|]).
  repeat match goal with
  | E : _ || _ = false |- _ => apply orb_false_iff in E as [? ?]
  | E : _ && _ = false |- _ => apply andb_false_iff in E
  | E : (_ <? _) = false |- _ => apply Z.ltb_ge in E
  end.
  repeat match goal with
  | E : _ ∨ _ |- _ =>
      rewrite ?Z.ltb_ge, ?Z.leb_gt, ?Z.eqb_neq in E; revert E
  end. intros. lia.
Qed.

Lemma parse_hunks_ok fuel lines i lo ln hs :
  parse_hunks fuel lines i lo ln = Some (Ok hs) →
  Forall hunk_ok hs ∧ above lo (olds (flat_map h_Lines hs)) ∧ above ln (news (flat_map h_Lines hs)).
Proof.
  revert lines i lo ln hs. induction fuel as [|fuel IH]; intros [|l lines] i lo ln hs; cbn [parse_hunks]; try done.
  1,2: intros [= <-]; repeat split; constructor.
  destruct (ParseHunkHeader l) as [hh|e] eqn:Hh; [|done]. apply ParseHunkHeader_ok in Hh.
  destruct (check_header hh lo ln) eqn:Hc; [done|]. apply check_header_none in Hc as (Ho & Hn & Hne).
  destruct (hunk_body _ _ _ _ _ _ _) as [[[[ls [o' n']] rest] i']|e] eqn:Hb; [|done].
  destruct Hh as (H1 & H2 & H3 & H4).
  pose proof Hb as (Holds & Hnews & -> & -> & _)%hunk_body_numbers; [|unfold number_ok in *; lia..].
  destruct (closing_markers rest i' ls) as [[ls' rest'] i''] eqn:Hm.
  pose proof (closing_markers_flat old_of _ _ _ _ _ _ ltac:(done) Hm) as [Ho' _].
  pose proof (closing_markers_flat new_of _ _ _ _ _ _ ltac:(done) Hm) as [Hn' _].
  cbn [app flat_map] in Holds, Hnews. rewrite Holds in Ho'. rewrite Hnews in Hn'.
  destruct (parse_hunks fuel rest' i'' _ _) as [[hs'|e]|] eqn:Hp; try done.
  intros [= <-]. apply IH in Hp as (Hf & Hao & Han). cbn [flat_map h_Lines]. rewrite !flat_map_app, Ho', Hn'.
  unfold number_ok in *. split; [|split].
  - constructor; [|done]. unfold hunk_ok, header_ok, number_ok. cbn [h_Header h_Lines].
    split; [lia|]. split; [done|]. split; [done|]. intros ->. cbn in Ho', Hn'.
    apply (f_equal length) in Ho', Hn'. rewrite length_seqZ in Ho', Hn'. cbn in Ho', Hn'. lia.
  - apply above_run; [lia|lia|done].
  - apply above_run; [lia|lia|done].
Qed.

(** Each hunk takes its header's line, so the fuel is enough. *)
Lemma parse_hunks_total fuel lines i lo ln :
  (length lines <= fuel)%nat → ∃ r, parse_hunks fuel lines i lo ln = Some r.
Proof.
  revert lines i lo ln. induction fuel as [|fuel IH]; intros [|l lines] i lo ln Hl; cbn [parse_hunks length] in *;
    [by eexists|lia|by eexists|].
  destruct (ParseHunkHeader l) as [hh|e] eqn:Hh; [|by eexists]. apply ParseHunkHeader_ok in Hh as (H1 & H2 & H3 & H4).
  destruct (check_header hh lo ln) eqn:Hc; [by eexists|].
  destruct (hunk_body _ _ _ _ _ _ _) as [[[[ls [o' n']] rest] i']|e] eqn:Hb; [|by eexists].
  apply hunk_body_numbers in Hb as (_ & _ & _ & _ & Hr); [|unfold number_ok in *; lia..].
  destruct (closing_markers rest i' ls) as [[ls' rest'] i''] eqn:Hm.
  pose proof (closing_markers_flat old_of _ _ _ _ _ _ ltac:(done) Hm) as [_ Hr'].
  match goal with |- context [parse_hunks fuel rest' i'' ?a ?b] => destruct (IH rest' i'' a b) as [r ->]; [lia|] end.
  destruct r; by eexists.
Qed.

Lemma parseDiff_total text : ∃ r, parseDiff text = Some r.
Proof.
  unfold parseDiff. destruct (String.eqb text ""); [by eexists|].
  destruct (skip_preamble _ _) as [[[rest i]|]|e]; [|by eexists..].
  destruct (parse_hunks_total (length rest) rest i 0 0) as [[hs|e] ->]; [done|by eexists..].
Qed.

Lemma parseFile_total d : ∃ f, parseFile d = Some f.
Proof.
  unfold parseFile. destruct (parseDiff_total (Diff d)) as [r ->]. repeat case_match; by eexists.
Qed.

(** What the map relies on of a file. *)
Definition file_ok (d : FileDiff) (f : File) : Prop :=
  f_OldPath f = fd_OldPath d ∧ f_NewPath f = fd_NewPath d ∧
  Forall hunk_ok (f_Hunks f) ∧
  above 0 (olds (flat_map h_Lines (f_Hunks f))) ∧ above 0 (news (flat_map h_Lines (f_Hunks f))) ∧
  (NewFile d = true → olds (flat_map h_Lines (f_Hunks f)) = []) ∧
  (DeletedFile d = true → news (flat_map h_Lines (f_Hunks f)) = []) ∧
  (f_Hunks f ≠ [] ↔ f_Status f = StatusText).

Lemma first_impossible_none d ls :
  first_impossible d ls = None →
  (NewFile d = true → olds ls = []) ∧ (DeletedFile d = true → news ls = []).
Proof.
  induction ls as [|l ls IH]; [done|]. cbn [first_impossible]. destruct (impossible_line d l) eqn:Hl; [done|].
  intros [H1 H2]%IH. unfold impossible_line in Hl. cbn [flat_map].
  split; intros Hd; rewrite ?H1, ?H2 by done; unfold old_of, new_of.
  - rewrite Hd in Hl. destruct (is_op OpAdded l); [done|discriminate].
  - rewrite Hd in Hl. destruct (NewFile d && negb _); [done|]. by destruct (is_op OpRemoved l).
Qed.

Lemma parseDiff_ok text hs b : parseDiff text = Some (Ok (hs, b)) →
  Forall hunk_ok hs ∧ above 0 (olds (flat_map h_Lines hs)) ∧ above 0 (news (flat_map h_Lines hs)).
Proof.
  unfold parseDiff. destruct (String.eqb text ""); [intros [= <- _]; repeat split; constructor|].
  destruct (skip_preamble _ _) as [[[rest i]|]|e]; [|intros [= <- _]; repeat split; constructor|done].
  destruct (parse_hunks _ _ _ _ _) as [[hs'|e]|] eqn:Hp; try done. intros [= <- _]. by eapply parse_hunks_ok.
Qed.

Lemma parseFile_ok d f : parseFile d = Some f → file_ok d f.
Proof.
  assert (∀ f', f_OldPath f' = fd_OldPath d → f_NewPath f' = fd_NewPath d → f_Hunks f' = [] →
    String.eqb (f_Status f') StatusText = false → file_ok d f') as Hnone.
  { intros f' H1 H2 H3 H4. unfold file_ok. rewrite H1, H2, H3. cbn.
    repeat split; try constructor; try done. intros H. by rewrite H in H4. }
  unfold parseFile. intros H.
  repeat match goal with
  | H : (if ?b then _ else _) = Some _ |- _ => destruct b
  | H : Some _ = Some _ |- _ => injection H as <-; by apply Hnone
  end.
  destruct (parseDiff (Diff d)) as [[[[|h hs] []]|e]|] eqn:Hp; try done.
  2: { destruct (_ && _); injection H as <-; by apply Hnone. }
  all: try (injection H as <-; by apply Hnone).
  destruct (first_impossible d _) eqn:Hi; injection H as <-; [by apply Hnone|].
  apply parseDiff_ok in Hp as (H1 & H2 & H3). apply first_impossible_none in Hi as [H4 H5].
  refine (conj eq_refl (conj eq_refl (conj H1 (conj H2 (conj H3 (conj H4 (conj H5 _))))))). done.
Qed.

(** ** The index *)

Lemma anchors_numbers f ls a :
  a ∈ flat_map (line_anchors f) ls ↔
  (∃ k, k ∈ news ls ∧ a = mkAnchor (f_NewPath f) SideNew k) ∨
  (∃ k, k ∈ olds ls ∧ a = mkAnchor (f_OldPath f) SideOld k).
Proof.
  induction ls as [|l ls IH]; cbn [flat_map]; [set_solver|].
  rewrite !elem_of_app, IH. unfold line_anchors, new_of, old_of. rewrite elem_of_app.
  setoid_rewrite elem_of_app. destruct (is_op OpRemoved l), (is_op OpAdded l); set_solver.
Qed.

Lemma NoDup_anchors f ls : NoDup (olds ls) → NoDup (news ls) → NoDup (flat_map (line_anchors f) ls).
Proof.
  induction ls as [|l ls IH]; cbn [flat_map]; intros Ho Hn; [constructor|].
  apply NoDup_app in Ho as (Ho1 & Ho2 & Ho3), Hn as (Hn1 & Hn2 & Hn3).
  apply NoDup_app. split; [|split; [|by apply IH]].
  - unfold line_anchors. destruct (is_op OpRemoved l), (is_op OpAdded l); cbn; repeat constructor; set_solver.
  - intros a Ha [(k & Hk & ->)|(k & Hk & ->)]%anchors_numbers.
    all: unfold line_anchors, new_of, old_of in *; destruct (is_op OpRemoved l), (is_op OpAdded l); set_solver.
Qed.

Lemma elem_of_concat_imap {A B} (g : nat → A → list B) l b :
  b ∈ List.concat (imap g l) ↔ ∃ i x, l !! i = Some x ∧ b ∈ g i x.
Proof.
  revert g. induction l as [|x l IH]; intros g; cbn [imap List.concat].
  - split; [by intros ?%elem_of_nil|]. intros (i & x & Hx & _). done.
  - rewrite elem_of_app, IH. split.
    + intros [Hb|(i & y & Hy & Hb)]; [by exists 0%nat, x|by exists (S i), y].
    + intros ([|i] & y & Hy & Hb); [injection Hy as ->; by left|right; by exists i, y].
Qed.

Lemma elem_of_file_refs fi f a r :
  (a, r) ∈ file_refs fi f ↔
  lr_file r = fi ∧ ∃ h l, f_Hunks f !! lr_hunk r = Some h ∧ h_Lines h !! lr_line r = Some l ∧ a ∈ line_anchors f l.
Proof.
  unfold file_refs. rewrite elem_of_concat_imap. split.
  - intros (hi & h & Hh & Hin). unfold hunk_refs in Hin. apply elem_of_concat_imap in Hin as (li & l & Hl & Hin).
    unfold line_refs in Hin. apply list_elem_of_fmap in Hin as (a' & [= -> ->] & Ha). cbn. split; [done|]. by exists h, l.
  - intros (<- & h & l & Hh & Hl & Ha). exists (lr_hunk r), h. split; [done|]. unfold hunk_refs.
    apply elem_of_concat_imap. exists (lr_line r), l. split; [done|]. unfold line_refs.
    apply list_elem_of_fmap. exists a. split; [by destruct r|done].
Qed.

Lemma keys_concat_imap {A B} (g : nat → A → list (Anchor * B)) (k : A → list Anchor) l :
  (∀ i x, (g i x).*1 = k x) → (List.concat (imap g l)).*1 = flat_map k l.
Proof.
  intros Hg. revert g Hg. induction l as [|x l IH]; intros g Hg; cbn [imap List.concat flat_map]; [done|].
  rewrite fmap_app, Hg. f_equal. apply IH. intros i y. apply Hg.
Qed.

Lemma file_refs_keys fi f : (file_refs fi f).*1 = flat_map (line_anchors f) (flat_map h_Lines (f_Hunks f)).
Proof.
  unfold file_refs. rewrite (keys_concat_imap _ (λ h, flat_map (line_anchors f) (h_Lines h))).
  - induction (f_Hunks f) as [|h hs IH]; [done|]. cbn [flat_map]. by rewrite IH, flat_map_app.
  - intros hi h. apply keys_concat_imap. intros li l. unfold line_refs.
    induction (line_anchors f l) as [|a la IH]; [done|]. cbn. by rewrite IH.
Qed.

Lemma write_refs_lookup m refs a r :
  NoDup refs.*1 → (∀ a, a ∈ refs.*1 → m !! a = None) →
  write_refs m refs !! a = Some r ↔ m !! a = Some r ∨ (a, r) ∈ refs.
Proof.
  revert m. induction refs as [|[b q] refs IH]; intros m Hnd Hm; cbn [write_refs fold_left].
  - split; [by left|]. intros [H|H%elem_of_nil]; done.
  - cbn in Hnd. apply NoDup_cons in Hnd as [Hb Hnd]. unfold write_refs in IH. rewrite IH; [|done|].
    + rewrite elem_of_cons, lookup_insert_Some. pose proof (Hm b ltac:(left)) as Hmb.
      split; [intros [[[-> ->]|[? ?]]|?]; auto|].
      intros [Hr|[[= -> ->]|Hr]]; [left; right; split; [congruence|done]|left; by left|by right].
    + intros c Hc. rewrite lookup_insert_ne by congruence. apply Hm. by right.
Qed.

(** ** Building *)

Lemma claim_sides_ok owner keys o' :
  claim_sides owner keys = Ok o' ↔
  NoDup keys ∧ (∀ k, k ∈ keys → k ∉ owner) ∧ o' = list_to_set keys ∪ owner.
Proof.
  revert owner. induction keys as [|k keys IH]; intros owner; cbn [claim_sides].
  - split; [intros [= ->]|intros (_ & _ & ->)].
    + repeat split; [constructor|set_solver|]. apply leibniz_equiv. set_solver.
    + f_equal. apply leibniz_equiv. set_solver.
  - destruct (decide (k ∈ owner)) as [Hin|Hin].
    + split; [done|]. intros (_ & Hk & _). by destruct (Hk k ltac:(left)).
    + rewrite IH, NoDup_cons. split.
      * intros (Hnd & Hk & ->). repeat split; [set_solver|done|set_solver|].
        apply leibniz_equiv. cbn. set_solver.
      * intros ((Hkn & Hnd) & Hk & ->). repeat split; [done|set_solver|].
        apply leibniz_equiv. cbn. set_solver.
Qed.

Definition paths_named (d : FileDiff) : Prop := fd_OldPath d ≠ "" ∧ fd_NewPath d ≠ "".

Lemma build_from_answers fi owner m diffs :
  ∃ r, build_from fi owner m diffs = Some r ∧
  ((∃ m', r = Ok m') ↔
   Forall paths_named diffs ∧ NoDup (flat_map side_keys diffs) ∧ ∀ k, k ∈ flat_map side_keys diffs → k ∉ owner).
Proof.
  revert fi owner m. induction diffs as [|d diffs IH]; intros fi owner m; cbn [build_from].
  - eexists. split; [done|]. split; [intros _|by eexists]. cbn. repeat split; try constructor. set_solver.
  - destruct (String.eqb (fd_OldPath d) "" || String.eqb (fd_NewPath d) "") eqn:He.
    { eexists. split; [done|]. split; [by intros [? ?]|]. intros (Hp & _). apply Forall_cons in Hp as [[H1 H2] _].
      apply orb_true_iff in He as [He|He]; by apply String.eqb_eq in He. }
    apply orb_false_iff in He as [H1 H2]. apply String.eqb_neq in H1, H2.
    setoid_rewrite Forall_cons. cbn [flat_map]. setoid_rewrite NoDup_app. setoid_rewrite elem_of_app.
    destruct (claim_sides owner (side_keys d)) as [o'|e] eqn:Hc.
    + apply claim_sides_ok in Hc as (Hnd & Hk & ->). destruct (parseFile_total d) as [f ->].
      edestruct IH as (r & -> & Hr). eexists. split; [done|]. rewrite Hr. unfold paths_named at 2. set_solver.
    + eexists. split; [done|]. split; [by intros [? ?]|]. intros (_ & (Hnd & _) & Hk).
      assert (claim_sides owner (side_keys d) = Ok (list_to_set (side_keys d) ∪ owner)) as H.
      { apply claim_sides_ok. repeat split; [done|]. intros k Hin. apply Hk. by left. }
      congruence.
Qed.

(** Where a reference stands. *)
Definition cites (fs : list File) (a : Anchor) (r : lineRef) : Prop :=
  ∃ f, fs !! lr_file r = Some f ∧ (a, r) ∈ file_refs (lr_file r) f.

Record built (fi : nat) (owner : gset (string * Side)) (m : Map) : Prop := mkBuilt {
  built_count : length (files m) = fi;
  built_files : Forall (λ f, ∃ d, file_ok d f) (files m);
  built_index : ∀ a r, index m !! a = Some r ↔ cites (files m) a r;
  built_owned : ∀ a, is_Some (index m !! a) → (a_Path a, a_Side a) ∈ owner;
}.

Lemma file_key_owned d f fi a : file_ok d f → a ∈ (file_refs fi f).*1 → (a_Path a, a_Side a) ∈ side_keys d.
Proof.
  intros (Ho & Hn & _ & _ & _ & Hnew & Hdel & _). rewrite file_refs_keys, anchors_numbers.
  unfold side_keys. rewrite Ho, Hn, elem_of_app.
  intros [(k & Hk & ->)|(k & Hk & ->)]; cbn; [left|right].
  - destruct (DeletedFile d); [|by left]. rewrite Hdel in Hk by done. by apply elem_of_nil in Hk.
  - destruct (NewFile d); [|by left]. rewrite Hnew in Hk by done. by apply elem_of_nil in Hk.
Qed.

Lemma cites_snoc fs f a r : cites (fs ++ [f]) a r ↔ cites fs a r ∨ (a, r) ∈ file_refs (length fs) f.
Proof.
  unfold cites. split.
  - intros (g & Hg & Hin). apply lookup_app_Some in Hg as [Hg|[Hl Hg]]; [left; by exists g|right].
    apply list_lookup_singleton_Some in Hg as [Hi ->]. by replace (length fs) with (lr_file r) by lia.
  - intros [(g & Hg & Hin)|Hin]; [exists g; split; [by apply lookup_app_l_Some|done]|].
    exists f. pose proof Hin as (Hr & _)%elem_of_file_refs. rewrite Hr. split; [|done].
    by rewrite lookup_app_r, Nat.sub_diag by lia.
Qed.

Lemma built_step fi owner m d f o' :
  built fi owner m → parseFile d = Some f → claim_sides owner (side_keys d) = Ok o' →
  built (S fi) o' (mkMap (files m ++ [f]) (write_refs (index m) (file_refs fi f))).
Proof.
  intros [Hc Hf Hi Ho] Hp%parseFile_ok (Hnd & Hk & ->)%claim_sides_ok. pose proof Hp as Hok.
  destruct Hp as (_ & _ & _ & [_ Hos] & [_ Hns] & _).
  assert (∀ a r, write_refs (index m) (file_refs fi f) !! a = Some r ↔ index m !! a = Some r ∨ (a, r) ∈ file_refs fi f)
    as Hw.
  { intros a r. apply write_refs_lookup; [rewrite file_refs_keys; by apply NoDup_anchors|].
    intros b Hb%(file_key_owned d); [|done]. apply eq_None_not_Some. intros ?%Ho. by apply Hk in Hb. }
  split; cbn [files index].
  - rewrite length_app. cbn. lia.
  - apply Forall_app. split; [done|]. apply Forall_singleton. by exists d.
  - intros a r. by rewrite Hw, Hi, cites_snoc, Hc.
  - intros a [r [Hr|Hr]%Hw].
    + apply elem_of_union_r, Ho. by exists r.
    + apply elem_of_union_l, elem_of_list_to_set.
      apply (file_key_owned d f fi); [done|]. apply list_elem_of_fmap. by exists (a, r).
Qed.

Lemma build_from_built fi owner m diffs m' :
  built fi owner m → build_from fi owner m diffs = Some (Ok m') →
  (∃ n o', built n o' m') ∧ ∃ fs, mapM parseFile diffs = Some fs ∧ files m' = files m ++ fs.
Proof.
  revert fi owner m. induction diffs as [|d diffs IH]; intros fi owner m Hb; cbn [build_from].
  - intros [= <-]. split; [by eexists _, _|]. exists []. by rewrite app_nil_r.
  - destruct (_ || _); [done|]. destruct (claim_sides _ _) as [o'|e] eqn:Hc; [|done].
    destruct (parseFile d) as [f|] eqn:Hf; [|done]. intros H.
    destruct (IH _ _ _ (built_step _ _ _ _ _ _ Hb Hf Hc) H) as [H1 (fs & Hm & Hfs)].
    split; [done|]. exists (f :: fs). cbn. rewrite Hf. cbn. rewrite Hm. cbn. split; [done|].
    rewrite Hfs. cbn [files]. by rewrite <- app_assoc.
Qed.

Lemma built_start : built 0 ∅ (mkMap [] ∅).
Proof.
  split; cbn; [done|constructor| |].
  - intros a r. rewrite lookup_empty. split; [done|]. by intros (f & Hf & _).
  - intros a [r Hr]. by rewrite lookup_empty in Hr.
Qed.

Lemma Build_built diffs m :
  Build diffs = Some (Ok m) →
  mapM parseFile diffs = Some (files m) ∧ (Forall (λ f, ∃ d, file_ok d f) (files m)) ∧
  ∀ a r, index m !! a = Some r ↔ cites (files m) a r.
Proof.
  intros H. destruct (build_from_built _ _ _ _ _ built_start H) as [(n & o' & [_ H1 H2 _]) (fs & Hm & Hf)].
  cbn in Hf. rewrite Hm, Hf in *. done.
Qed.

(** ** What the map promises *)

(** A line of the diff that an anchor names. *)
Definition names_line (m : Map) (a : Anchor) (l : Line) : Prop :=
  ∃ f h, f ∈ files m ∧ h ∈ f_Hunks f ∧ l ∈ h_Lines h ∧ a ∈ line_anchors f l.

(** Whether a number is within a hunk, on a side. *)
Definition within (h : Hunk) (side : Side) (k : Z) : Prop :=
  if String.eqb side SideNew
  then NewStart (h_Header h) <= k < NewStart (h_Header h) + NewLines (h_Header h)
  else OldStart (h_Header h) <= k < OldStart (h_Header h) + OldLines (h_Header h).
Definition path_on (f : File) (side : Side) : string := if String.eqb side SideNew then f_NewPath f else f_OldPath f.

Lemma Lookup_ref diffs m a r :
  Build diffs = Some (Ok m) → index m !! a = Some r →
  ∃ l, line_at (files m) r = Some l ∧ names_line m a l.
Proof.
  intros (_ & _ & Hi)%Build_built Hr. apply Hi in Hr as (f & Hf & (_ & h & l & Hh & Hl & Ha)%elem_of_file_refs).
  exists l. unfold line_at. rewrite Hf, Hh. split; [done|].
  exists f, h. by repeat split; [eapply list_elem_of_lookup_2..|].
Qed.

Lemma names_line_indexed diffs m a l :
  Build diffs = Some (Ok m) → names_line m a l → ∃ r, index m !! a = Some r ∧ line_at (files m) r = Some l.
Proof.
  intros (_ & _ & Hi)%Build_built (f & h & [fi Hf]%list_elem_of_lookup & [hi Hh]%list_elem_of_lookup &
    [li Hl]%list_elem_of_lookup & Ha).
  exists (mkLineRef fi hi li). split.
  - apply Hi. exists f. split; [done|]. apply elem_of_file_refs. split; [done|]. by exists h, l.
  - unfold line_at. cbn. by rewrite Hf, Hh.
Qed.

Lemma Lookup_names diffs m a l :
  Build diffs = Some (Ok m) → Lookup m a = Some (Some l) ↔ names_line m a l.
Proof.
  intros Hb. unfold Lookup. split.
  - destruct (index m !! a) as [r|] eqn:Hr; [|done]. destruct (Lookup_ref _ _ _ _ Hb Hr) as (l' & -> & Hn).
    by intros [= <-].
  - intros (r & -> & ->)%(names_line_indexed _ _ _ _ Hb). done.
Qed.

(** [Lookup] answers exactly the line of the diff that an anchor names: it
    resolves every line of every hunk under each of the coordinates the line
    has, resolves nothing else, never another line, and never indexes out of
    range. *)
Theorem Lookup_exact diffs m a :
  Build diffs = Some (Ok m) →
  (∀ l, Lookup m a = Some (Some l) ↔ names_line m a l) ∧ Lookup m a ≠ Some None.
Proof.
  intros Hb. split; [intros l; by apply (Lookup_names diffs)|]. unfold Lookup.
  destruct (index m !! a) as [r|] eqn:Hr; [|done]. by destruct (Lookup_ref _ _ _ _ Hb Hr) as (l & -> & _).
Qed.

Lemma names_line_within diffs m side k p :
  Build diffs = Some (Ok m) → side = SideNew ∨ side = SideOld →
  (∃ l, names_line m (mkAnchor p side k) l) ↔
  ∃ f h, f ∈ files m ∧ h ∈ f_Hunks f ∧ path_on f side = p ∧ within h side k.
Proof.
  intros (_ & Hf & _)%Build_built Hs. rewrite Forall_forall in Hf.
  assert (∀ f h, f ∈ files m → h ∈ f_Hunks f →
    (∃ l, l ∈ h_Lines h ∧ mkAnchor p side k ∈ line_anchors f l) ↔ path_on f side = p ∧ within h side k) as H.
  { intros f h Hfi Hh. destruct (Hf f Hfi) as (d & _ & _ & Hok & _). rewrite Forall_forall in Hok.
    destruct (Hok h Hh) as (_ & Ho & Hn & _).
    transitivity (mkAnchor p side k ∈ flat_map (line_anchors f) (h_Lines h)).
    { rewrite list_elem_of_In, in_flat_map. by setoid_rewrite list_elem_of_In. }
    rewrite anchors_numbers, Ho, Hn. setoid_rewrite elem_of_seqZ. unfold path_on, within.
    destruct Hs as [-> | ->]; cbn; (split; [intros [(q & Hq & [= -> ->])|(q & Hq & [= -> ->])]; done|intros [<- Hk]]).
    - left. by exists k.
    - right. by exists k. }
  unfold names_line. split.
  - intros (l & f & h & Hfi & Hh & Hl & Ha). exists f, h. split; [done|]. split; [done|].
    apply (H f h Hfi Hh). by exists l.
  - intros (f & h & Hfi & Hh & [l [Hl Ha]]%H); [|done..]. by exists l, f, h.
Qed.

(** A coordinate can be cited exactly when it is inside a hunk of a file that
    has that path on that side: every number of a hunk's range, on both sides,
    and none outside, which are all lines 1 to [MaxLineNumber]. *)
Theorem citable_iff_within diffs m side k p :
  Build diffs = Some (Ok m) → side = SideNew ∨ side = SideOld →
  ((∃ l, Lookup m (mkAnchor p side k) = Some (Some l)) ↔
   ∃ f h, f ∈ files m ∧ h ∈ f_Hunks f ∧ path_on f side = p ∧ within h side k) ∧
  ((∃ l, Lookup m (mkAnchor p side k) = Some (Some l)) → 1 <= k <= MaxLineNumber).
Proof.
  intros Hb Hs.
  assert (∀ l, Lookup m (mkAnchor p side k) = Some (Some l) ↔ names_line m (mkAnchor p side k) l) as Hl
    by (intros l; by apply (Lookup_names diffs)).
  setoid_rewrite Hl.
  split; [by apply (names_line_within diffs)|].
  intros (l & f & h & Hf & Hh & Hin & Ha).
  pose proof (Build_built _ _ Hb) as (_ & Hok & _). rewrite Forall_forall in Hok.
  destruct (Hok f Hf) as (d & _ & _ & _ & [Ho _] & [Hn _] & _). rewrite Forall_forall in Ho, Hn.
  assert (mkAnchor p side k ∈ flat_map (line_anchors f) (flat_map h_Lines (f_Hunks f))) as Hin'.
  { apply list_elem_of_In, in_flat_map. exists l. split; [|by apply list_elem_of_In].
    apply in_flat_map. exists h. by rewrite <- !list_elem_of_In. }
  apply anchors_numbers in Hin' as [(q & Hq & [= -> -> ->])|(q & Hq & [= -> -> ->])];
    [specialize (Hn _ Hq)|specialize (Ho _ Hq)]; lia.
Qed.

(** [Build] always answers, and refuses exactly the diffs that cannot be
    keyed: an empty path, or two files with the same path on the same side. *)
Theorem Build_answers diffs :
  ∃ r, Build diffs = Some r ∧
  ((∃ m, r = Ok m) ↔ Forall paths_named diffs ∧ NoDup (flat_map side_keys diffs)).
Proof.
  destruct (build_from_answers 0 ∅ (mkMap [] ∅) diffs) as (r & Hr & Hiff).
  exists r. split; [done|]. rewrite Hiff. set_solver.
Qed.

Lemma line_anchors_nonempty f l : line_anchors f l ≠ [].
Proof. unfold line_anchors, is_op. by destruct (l_Op l). Qed.

Lemma index_empty diffs m :
  Build diffs = Some (Ok m) → (size (index m) =? 0)%nat = false ↔ ∃ f, f ∈ files m ∧ f_Status f = StatusText.
Proof.
  intros Hb. pose proof (Build_built _ _ Hb) as (_ & Hf & _). rewrite Forall_forall in Hf.
  rewrite Nat.eqb_neq. split.
  - intros Hs. destruct (map_choose (index m)) as (a & r & Hr); [by intros H; rewrite H, map_size_empty in Hs|].
    destruct (Lookup_ref _ _ _ _ Hb Hr) as (l & _ & f & h & Hfi & Hh & _). exists f. split; [done|].
    destruct (Hf f Hfi) as (d & _ & _ & _ & _ & _ & _ & _ & Ht). apply Ht. intros E. rewrite E in Hh.
    by apply elem_of_nil in Hh.
  - intros (f & Hfi & Ht) Hs%map_size_empty_iff. destruct (Hf f Hfi) as (d & _ & _ & Hok & _ & _ & _ & _ & Hst).
    apply Hst in Ht. destruct (f_Hunks f) as [|h hs] eqn:Eh; [done|].
    apply Forall_cons in Hok as [(_ & _ & _ & Hl) _]. destruct (h_Lines h) as [|l ls] eqn:El; [done|].
    destruct (line_anchors f l) as [|a la] eqn:Ea; [by apply line_anchors_nonempty in Ea|].
    destruct (names_line_indexed _ _ a l Hb) as (r & Hr & _).
    { exists f, h. rewrite Eh, El, Ea. repeat split; [done|left..]. }
    by rewrite Hs, lookup_empty in Hr.
Qed.

Definition reason_of (f : File) : Reason := mkReason (f_NewPath f) (f_Status f) (f_Detail f).

(** A map is reviewable exactly when every file was read in full and some
    file has lines; otherwise the answer names every file that was not read,
    and only those, in order, or says that there is nothing to cite. *)
Theorem Reviewable_exact diffs m :
  Build diffs = Some (Ok m) →
  (Reviewable m = None ↔
   (∀ f, f ∈ files m → status_Reviewable (f_Status f) = true) ∧ ∃ f, f ∈ files m ∧ f_Status f = StatusText) ∧
  (∀ rs, Reviewable m = Some rs →
     rs = map reason_of (List.filter (λ f, negb (status_Reviewable (f_Status f))) (files m)) ∧ rs ≠ [] ∨
     rs = [mkReason "" StatusEmpty NothingToCite] ∧ ∀ f, f ∈ files m → f_Status f = StatusNoLines).
Proof.
  intros Hb. pose proof (index_empty _ _ Hb) as Hi. unfold Reviewable. fold reason_of.
  assert (∀ f, f ∈ List.filter (λ f, negb (status_Reviewable (f_Status f))) (files m) ↔
    f ∈ files m ∧ status_Reviewable (f_Status f) = false) as Hel.
  { intros f. by rewrite elem_of_filter_List, negb_true_iff. }
  destruct (List.filter _ (files m)) as [|g un] eqn:Hun; cbn [map length Nat.eqb andb].
  - assert (∀ f, f ∈ files m → status_Reviewable (f_Status f) = true) as Hall.
    { intros f Hf. apply not_false_iff_true. intros E. apply (elem_of_nil f), Hel. done. }
    destruct (size (index m) =? 0)%nat; cbn; (split; [split|]).
    + done.
    + intros [_ Ht%Hi]. done.
    + intros rs [= <-]. right. split; [done|]. intros f Hf. specialize (Hall f Hf).
      unfold status_Reviewable in Hall. apply orb_true_iff in Hall as [H|H]; apply String.eqb_eq in H; [|done].
      assert (true = false) as E; [|done]. apply Hi. by exists f.
    + intros _. split; [done|]. by apply Hi.
    + done.
    + done.
  - split; [split; [done|]|].
    + intros [Hall _]. destruct (Hel g) as [Hg _]. destruct Hg as [Hg1 Hg2]; [left|]. rewrite Hall in Hg2; done.
    + intros rs [= <-]. by left.
Qed.

(** ** Reading back a printed header *)

Lemma CutPrefix_app p s : CutPrefix (p +:+ s) p = Some s.
Proof.
  unfold CutPrefix, HasPrefix.
  assert (String.prefix p (p +:+ s) = true ∧ string_drop (String.length p) (p +:+ s) = s) as [-> ->]; [|done].
  induction p as [|c p IH]; [by destruct s|].
  change (String c p +:+ s) with (String c (p +:+ s)). cbn [String.prefix String.length string_drop].
  by destruct (ascii_dec c c).
Qed.

Definition no_digit_first (s : string) : Prop :=
  match s with EmptyString => True | String c _ => is_digit c = false end.

Lemma digits_of_app d s : all_bytes is_digit d = true → no_digit_first s → digits_of (d +:+ s) = (d, s).
Proof.
  intros Hd Hs. induction d as [|c d IH].
  - destruct s as [|c s]; [done|]. change ("" +:+ String c s) with (String c s). cbn [digits_of]. by rewrite Hs.
  - change (String c d +:+ s) with (String c (d +:+ s)). cbn [digits_of all_bytes] in *.
    apply andb_true_iff in Hd as [-> Hd]. by rewrite IH.
Qed.

Lemma of_uint_acc_bound d acc : (Npos acc * 10 ^ N.of_nat (String.length (NilEmpty.string_of_uint d)) <=
  Npos (Pos.of_uint_acc d acc))%N.
Proof.
  revert acc. induction d as [|d IH|d IH|d IH|d IH|d IH|d IH|d IH|d IH|d IH|d IH]; intros acc.
  { cbn. lia. }
  all: cbn [NilEmpty.string_of_uint String.length Pos.of_uint_acc]; rewrite Nat2N.inj_succ, N.pow_succ_r';
    etransitivity; [|apply IH]; nia.
Qed.

Lemma itoa_length z : number_ok z → 1 <= len (itoa z) <= 10.
Proof.
  intros [Hz Hm]. unfold itoa, len. destruct (Z.ltb_spec z 0); [lia|].
  pose proof (to_uint_nonempty (Z.to_N z)) as Hne.
  pose proof (to_uint_no_leading_zero (Z.to_N z)) as Hlz.
  pose proof (DecimalN.Unsigned.of_to (Z.to_N z)) as Hof.
  destruct (N.to_uint (Z.to_N z)) as [|d|d|d|d|d|d|d|d|d|d] eqn:E; [done|..].
  { specialize (Hlz d eq_refl). rewrite Hlz in E. cbn in E. injection E as <-. cbn. lia. }
  all: cbn [N.of_uint Pos.of_uint] in Hof;
    match type of Hof with Npos (Pos.of_uint_acc ?e ?k) = _ =>
      pose proof (of_uint_acc_bound e k) as Hb; rewrite Hof in Hb; clear -Hb Hm Hz;
      cbn [NilEmpty.string_of_uint String.length];
      set (n := String.length (NilEmpty.string_of_uint e)) in *
    end; split; [lia|]; destruct (decide (n <= 9)%nat) as [|Hn]; [lia|exfalso];
    assert (10 ^ 10 <= 10 ^ N.of_nat n)%N by (apply N.pow_le_mono_r; lia); unfold MaxLineNumber in Hm; lia.
Qed.

Lemma itoa_digits z : 0 <= z → all_bytes is_digit (itoa z) = true.
Proof. intros Hz. unfold itoa. destruct (Z.ltb_spec z 0); [lia|]. apply digits_bytes. Qed.

Lemma parseNumber_itoa z s : number_ok z → no_digit_first s → parseNumber (itoa z +:+ s) = Some (z, s).
Proof.
  intros Hz Hs. unfold parseNumber. rewrite digits_of_app; [|by apply itoa_digits, Hz|done].
  pose proof (itoa_length z Hz). destruct (Z.eqb_spec (len (itoa z)) 0); [lia|].
  destruct (Z.ltb_spec 10 (len (itoa z))); [lia|]. unfold number_ok, MaxLineNumber in *. cbn [orb].
  rewrite ParseInt_itoa by (unfold int64, MinInt64, MaxInt64; lia). by destruct (Z.ltb_spec 2147483647 z); [lia|].
Qed.

Lemma parseRange_itoa a b s :
  number_ok a → number_ok b → no_digit_first s → parseRange (itoa a +:+ "," +:+ itoa b +:+ s) = Some (a, b, s).
Proof.
  intros Ha Hb Hs. unfold parseRange. rewrite parseNumber_itoa by done.
  by rewrite CutPrefix_app, parseNumber_itoa.
Qed.

(** A header that is printed is read back, whatever its section says. *)
Theorem header_roundtrip h : header_ok h → ParseHunkHeader (header_String h) = Ok h.
Proof.
  intros (H1 & H2 & H3 & H4). unfold ParseHunkHeader, header_String.
  rewrite CutPrefix_app, parseRange_itoa by done. rewrite CutPrefix_app, parseRange_itoa by done.
  rewrite CutPrefix_app. destruct h as [a b c d [|x s]]; done.
Qed.

(** ** Reading back a printed diff *)

(** A hunk as a diff writes it. *)
Definition no_eol_marker : string := "\ No newline at end of file".
Definition print_line (l : Line) : list string :=
  String (match l_Op l with OpContext => " " | OpRemoved => "-" | OpAdded => "+" end)%char (Text l) ::
  (if NoEOL l then [no_eol_marker] else []).
Definition print_hunk (h : Hunk) : list string := header_String (h_Header h) :: flat_map print_line (h_Lines h).
Definition print_diff (hs : list Hunk) : string :=
  Join (flat_map print_hunk hs) (String newline "") +:+ String newline "".

(** What is kept of a line: its text as it is shown. *)
Definition shown_line (l : Line) : Line := mkLine (Old l) (New l) (l_Op l) (showable (Text l)) (NoEOL l).
Definition shown_hunk (h : Hunk) : Hunk := mkHunk (h_Header h) (map shown_line (h_Lines h)).

(** Text that stands on one line of a diff. *)
Definition one_line (s : string) : Prop := no_byte newline s ∧ trim_last carriage s = s.

Definition line_wf (l : Line) : Prop :=
  one_line (Text l) ∧
  match l_Op l with OpContext => True | OpAdded => Old l = 0 | OpRemoved => New l = 0 end.

(** Hunks that stand in order after the lines [lo] and [ln]. *)
Fixpoint hunks_wf (lo ln : Z) (hs : list Hunk) : Prop :=
  match hs with
  | [] => True
  | h :: hs =>
      let hh := h_Header h in
      hunk_ok h ∧ one_line (Section_ hh) ∧ Forall line_wf (h_Lines h) ∧ check_header hh lo ln = None ∧
      hunks_wf (if 0 <? OldLines hh then OldStart hh + OldLines hh - 1 else lo)
               (if 0 <? NewLines hh then NewStart hh + NewLines hh - 1 else ln) hs
  end.

Lemma mark_no_eol_snoc ls l : mark_no_eol (ls ++ [l]) = ls ++ [mkLine (Old l) (New l) (l_Op l) (Text l) true].
Proof.
  induction ls as [|x ls IH]; [done|]. destruct ls as [|y ls]; [done|].
  change (mark_no_eol ((x :: y :: ls) ++ [l])) with (x :: mark_no_eol ((y :: ls) ++ [l])). by rewrite IH.
Qed.

Definition no_marker (more : list string) : Prop :=
  match more with [] => True | l :: _ => HasPrefix l "\" = false end.

(** What is left of a hunk once its counts are used up. *)
Definition finish (r : result diff_error (list Line * (Z * Z) * list string * Z)) :
    option (list Line * (Z * Z) * list string) :=
  match r with
  | Err _ => None
  | Ok (ls, e, rest, i) => let '(ls, rest, _) := closing_markers rest i ls in Some (ls, e, rest)
  end.

Lemma seqZ_nil_inv m n : 0 <= n → [] = seqZ m n → n = 0.
Proof. intros Hn H. apply (f_equal length) in H. rewrite length_seqZ in H. cbn in H. lia. Qed.

Lemma seqZ_cons_inv k l m n : k :: l = seqZ m n → 0 < n ∧ k = m ∧ l = seqZ (m + 1) (n - 1).
Proof.
  intros H. destruct (decide (0 < n)) as [Hn|Hn].
  - rewrite <- seqZ_step in H by done. by injection H as -> ->.
  - exfalso. apply (f_equal length) in H. rewrite length_seqZ in H. cbn in H. lia.
Qed.

(** A marker is read alike whether the counts are used up or not. *)
Lemma finish_marker more i done_ l o n ro rn :
  finish (hunk_body (no_eol_marker :: more) i (done_ ++ [l]) o n ro rn) =
  finish (hunk_body more (i + 1) (mark_no_eol (done_ ++ [l])) o n ro rn).
Proof.
  cbn [hunk_body]. destruct (negb (0 <? ro) && negb (0 <? rn)) eqn:E.
  - destruct more; cbn [hunk_body]; rewrite E; done.
  - cbn. destruct done_; cbn; done.
Qed.

(** A line with its marker, if it has one. *)
Lemma finish_eol (eol : bool) more i done_ a b op t o n ro rn : ∃ i',
  finish (hunk_body ((if eol then [no_eol_marker] else []) ++ more) i (done_ ++ [mkLine a b op t false]) o n ro rn) =
  finish (hunk_body more i' (done_ ++ [mkLine a b op t eol]) o n ro rn).
Proof.
  destruct eol; [|by exists i]. exists (i + 1). cbn [app]. by rewrite finish_marker, mark_no_eol_snoc.
Qed.

Lemma Zplus_step a b : a + 1 + (b - 1) = a + b.
Proof. lia. Qed.

Lemma hunk_body_print ls more : no_marker more → Forall line_wf ls → ∀ i done_ o n ro rn,
  0 <= ro → 0 <= rn → olds ls = seqZ o ro → news ls = seqZ n rn →
  finish (hunk_body (flat_map print_line ls ++ more) i done_ o n ro rn) =
  Some (done_ ++ map shown_line ls, (o + ro, n + rn), more).
Proof.
  intros Hm Hwf. induction Hwf as [|l ls [_ Hl] Hwf IH]; intros i done_ o n ro rn Hro Hrn Ho Hn.
  - apply seqZ_nil_inv in Ho as ->, Hn as ->; [|done..]. cbn [flat_map app map]. rewrite app_nil_r, !Z.add_0_r.
    destruct more as [|m more]; [done|]. cbn in Hm |- *. by rewrite Hm.
  - cbn [flat_map map] in *. unfold print_line at 1, shown_line at 1. rewrite <- app_assoc.
    destruct l as [lo ln op t eol]. unfold old_of at 1, is_op in Ho. unfold new_of at 1, is_op in Hn.
    cbn [l_Op Text NoEOL Old New app] in *.
    assert (negb (0 <? ro) && negb (0 <? rn) = false) as Hcont.
    { destruct (Z.ltb_spec 0 ro), (Z.ltb_spec 0 rn); try done. replace ro with 0 in * by lia. replace rn with 0 in * by lia.
      by destruct op. }
    destruct op; cbn [hunk_body app]; rewrite Hcont; cbn -[showable hunk_body flat_map app finish].
    + apply seqZ_cons_inv in Ho as (H1 & -> & Ho), Hn as (H2 & -> & Hn).
      destruct (Z.eqb_spec ro 0); [lia|]. destruct (Z.eqb_spec rn 0); [lia|]. cbn [orb].
      edestruct finish_eol as [i' ->]. rewrite IH by (done || lia).
      rewrite <- app_assoc. by rewrite ?(Zplus_step o ro), ?(Zplus_step n rn).
    + apply seqZ_cons_inv in Hn as (H2 & -> & Hn). subst lo.
      destruct (Z.eqb_spec rn 0); [lia|].
      edestruct finish_eol as [i' ->]. rewrite IH by (done || lia).
      rewrite <- app_assoc. by rewrite ?(Zplus_step o ro), ?(Zplus_step n rn).
    + apply seqZ_cons_inv in Ho as (H1 & -> & Ho). subst ln.
      destruct (Z.eqb_spec ro 0); [lia|].
      edestruct finish_eol as [i' ->]. rewrite IH by (done || lia).
      rewrite <- app_assoc. by rewrite ?(Zplus_step o ro), ?(Zplus_step n rn).
Qed.

Lemma print_hunks_no_marker hs : no_marker (flat_map print_hunk hs).
Proof. by destruct hs. Qed.

Lemma parse_hunks_print hs : ∀ fuel i lo ln,
  hunks_wf lo ln hs → (length (flat_map print_hunk hs) <= fuel)%nat →
  parse_hunks fuel (flat_map print_hunk hs) i lo ln = Some (Ok (map shown_hunk hs)).
Proof.
  induction hs as [|h hs IH]; intros fuel i lo ln; [by destruct fuel|].
  intros ((Hh & Ho & Hn & _) & _ & Hl & Hc & Hwf) Hf. cbn [flat_map] in *. change (print_hunk h) with (header_String (h_Header h) :: flat_map print_line (h_Lines h)) in *.
  destruct fuel as [|fuel]; [cbn in Hf; lia|]. cbn [app length] in Hf |- *. rewrite length_app in Hf.
  cbn [parse_hunks]. rewrite header_roundtrip, Hc by done. destruct Hh as (H1 & H2 & H3 & H4).
  pose proof (hunk_body_print (h_Lines h) (flat_map print_hunk hs) (print_hunks_no_marker hs) Hl (i + 1) []
    (OldStart (h_Header h)) (NewStart (h_Header h)) (OldLines (h_Header h)) (NewLines (h_Header h))) as Hb.
  unfold number_ok in *. specialize (Hb ltac:(lia) ltac:(lia) Ho Hn). unfold finish in Hb.
  destruct (hunk_body _ _ _ _ _ _ _) as [[[[ls [o' n']] rest] i']|e]; [|done].
  destruct (closing_markers rest i' ls) as [[ls' rest'] i'']. injection Hb as -> -> -> ->. cbn [app].
  rewrite IH by (done || lia). done.
Qed.

Lemma trim_last_snoc c s : trim_last c (s +:+ String c "") = s.
Proof.
  induction s as [|b s IH]; [simpl; by rewrite Ascii.eqb_refl|].
  change (String b s +:+ String c "") with (String b (s +:+ String c "")).
  cbn [trim_last]. rewrite IH. by destruct s.
Qed.

Lemma trim_last_app c s t : t ≠ "" → trim_last c (s +:+ t) = s +:+ trim_last c t.
Proof.
  intros Ht. induction s as [|b s IH]; [done|].
  change (String b s +:+ t) with (String b (s +:+ t)).
  change (String b s +:+ trim_last c t) with (String b (s +:+ trim_last c t)). cbn [trim_last]. rewrite IH.
  destruct (s +:+ t) eqn:E; [|done]. destruct s; [by destruct Ht|done].
Qed.

Lemma one_line_app s t : no_byte newline s → one_line t → t ≠ "" → one_line (s +:+ t).
Proof.
  intros Hs [Hn Ht] Hne. split.
  - unfold no_byte in *. by rewrite all_bytes_app, Hs, Hn.
  - by rewrite trim_last_app, Ht.
Qed.

Lemma itoa_no_newline z : 0 <= z → no_byte newline (itoa z).
Proof.
  intros Hz. unfold no_byte. eapply all_bytes_impl; [|by apply itoa_digits].
  intros c. unfold is_digit, in_range, newline. destruct (Ascii.eqb_spec c (Ascii.ascii_of_nat 10)) as [->|]; done.
Qed.

Lemma header_one_line h : header_ok h → one_line (Section_ h) → one_line (header_String h).
Proof.
  intros ([H1 _] & [H2 _] & [H3 _] & [H4 _]) Hs. unfold header_String.
  assert (∃ t, t ≠ "" ∧ one_line t ∧
    " @@" +:+ (if String.eqb (Section_ h) "" then "" else " " +:+ Section_ h) = t) as (t & Hne & Ht & ->).
  { eexists. split; [|split; [|reflexivity]]; [done|]. destruct (Section_ h) as [|c s]; [done|].
    change (one_line (" @@ " +:+ String c s)). by apply one_line_app. }
  repeat match goal with |- one_line (_ +:+ _) => apply one_line_app end.
  all: first [by apply itoa_no_newline|done|by destruct (itoa _)].
Qed.

Lemma printed_one_line lo ln hs : hunks_wf lo ln hs → Forall one_line (flat_map print_hunk hs).
Proof.
  revert lo ln. induction hs as [|h hs IH]; intros lo ln; [constructor|].
  intros ((Hh & _) & Hs & Hl & _ & Hwf). cbn [flat_map]. apply Forall_app. split; [|by eapply IH].
  constructor; [by apply header_one_line|].
  induction Hl as [|l ls [[Ht1 Ht2] _] Hl IHl]; [constructor|]. cbn [flat_map]. apply Forall_app. split; [|done].
  constructor.
  - split; [by destruct (l_Op l)|]. destruct (l_Op l); cbn [trim_last]; rewrite Ht2; by destruct (Text l).
  - by destruct (NoEOL l); repeat constructor.
Qed.

Lemma map_trim_one_line l : Forall one_line l → map (trim_last carriage) l = l.
Proof. induction 1 as [|s l [_ Hs] _ IH]; [done|]. cbn. by rewrite Hs, IH. Qed.

(** *** Text as it is shown *)

(** What may stand in a line: a tab, or a character that is no control
    character, ends no line and turns no text around. *)
Definition clean_rune (r : Z) : Prop :=
  r = 9 ∨ (¬ (0 <= r <= 31) ∧ ¬ (127 <= r <= 159) ∧ ¬ (8232 <= r <= 8238) ∧ ¬ (8294 <= r <= 8297)).
Definition breaks_line (r : Z) : Prop := r ∈ [10; 11; 12; 13; 133; 8232; 8233].
Definition clean_piece (p : piece) : Prop := ∃ r, pc_rune p = Some r ∧ clean_rune r.
Definition clean_text (s : string) : Prop := ∀ p, p ∈ pieces s → clean_piece p.

Definition space_piece : piece := mkPiece " " (Some 32).
Definition question_piece : piece := mkPiece "?" (Some 63).

(** One text shown as another, character by character: what is clean stays, what
    breaks a line is a space, any other character is a question mark, and so is
    every run of bytes that are no characters ([true]: within such a run). *)
Inductive shows : bool → list piece → list piece → Prop :=
| shows_end run : shows run [] []
| shows_same run p ps qs : clean_piece p → shows false ps qs → shows run (p :: ps) (p :: qs)
| shows_break run p r ps qs :
    pc_rune p = Some r → breaks_line r → shows false ps qs → shows run (p :: ps) (space_piece :: qs)
| shows_hidden run p r ps qs :
    pc_rune p = Some r → ¬ clean_rune r → ¬ breaks_line r → shows false ps qs →
    shows run (p :: ps) (question_piece :: qs)
| shows_bytes p ps qs : pc_rune p = None → shows true ps qs → shows false (p :: ps) (question_piece :: qs)
| shows_more p ps qs : pc_rune p = None → shows true ps qs → shows true (p :: ps) qs.

Lemma shows_clean run ps qs : shows run ps qs → Forall clean_piece ps → qs = ps.
Proof.
  induction 1 as [|? p ps qs Hp _ IH|? p r ps qs Hr Hb _ IH|? p r ps qs Hr Hn _ _ IH|p ps qs Hr _ IH|p ps qs Hr _ IH];
    intros Hc; [done|..]; apply Forall_cons in Hc as [(r' & Hr' & Hc) Hps]; try congruence.
  - by rewrite IH.
  - assert (r' = r) as -> by congruence. unfold breaks_line, clean_rune in *. rewrite !elem_of_cons, elem_of_nil in Hb. lia.
Qed.

Lemma shows_is_clean run ps qs : shows run ps qs → Forall clean_piece qs.
Proof.
  induction 1; try (constructor; [|done]); try done.
  - exists 32. split; [done|]. unfold clean_rune. lia.
  - exists 63. split; [done|]. unfold clean_rune. lia.
  - exists 63. split; [done|]. unfold clean_rune. lia.
Qed.

Definition shown_piece (p : piece) : piece :=
  match pc_rune p with
  | None => p
  | Some r =>
      if r =? 9 then p
      else if (r =? 13) || (r =? 11) || (r =? 12) || (r =? 10) || (r =? 133) || (r =? 8232) || (r =? 8233) then space_piece
      else if IsControl r || between 8234 8238 r || between 8294 8297 r then question_piece
      else p
  end.
Fixpoint valid_list (run : bool) (ps : list piece) : list piece :=
  match ps with
  | [] => []
  | p :: ps =>
      match pc_rune p with
      | Some _ => p :: valid_list false ps
      | None => (if run then [] else [question_piece]) ++ valid_list true ps
      end
  end.

Lemma space_whole : whole_piece space_piece.
Proof. exists " ". split_and!; [done|reflexivity|by eexists]. Qed.
Lemma question_whole : whole_piece question_piece.
Proof. exists "?". split_and!; [done|reflexivity|by eexists]. Qed.

Lemma valid_list_bytes run ps : valid_pieces run "?" ps = concat_bytes (valid_list run ps).
Proof.
  revert run. unfold concat_bytes. induction ps as [|p ps IH]; intros run; [done|]. cbn [valid_pieces valid_list].
  destruct (pc_rune p); [cbn [map]; rewrite concat_cons; by rewrite IH|].
  destruct run; cbn [app map]; [by rewrite IH|]. rewrite concat_cons. by rewrite IH.
Qed.

Lemma valid_list_whole run ps :
  Forall (λ p, pc_rune p = None ∨ whole_piece p) ps → Forall whole_piece (valid_list run ps).
Proof.
  intros Hps. revert run. induction Hps as [|p ps Hp _ IH]; intros run; cbn [valid_list]; [done|].
  destruct (pc_rune p) eqn:E; [|destruct run; cbn [app]; [apply IH|constructor; [exact question_whole|apply IH]]].
  constructor; [|apply IH]. by destruct Hp.
Qed.

Lemma shown_piece_whole p : whole_piece p → whole_piece (shown_piece p).
Proof. intros Hp. unfold shown_piece. repeat case_match; done || exact space_whole || exact question_whole. Qed.

Lemma shown_piece_shows run p r ps qs :
  pc_rune p = Some r → shows false ps qs → shows run (p :: ps) (shown_piece p :: qs).
Proof.
  intros Hr Hs. unfold shown_piece. rewrite Hr. unfold IsControl, between.
  destruct (Z.eqb_spec r 9) as [->|H9]; [apply shows_same; [exists 9; split; [done|by left]|done]|].
  destruct (_ || (r =? 8233)) eqn:Eb.
  - eapply shows_break; [done| |done]. unfold breaks_line. rewrite !elem_of_cons. bool_hyps. lia.
  - assert (Hb : ¬ breaks_line r).
    { unfold breaks_line. rewrite !elem_of_cons, elem_of_nil. rewrite !orb_false_iff, !Z.eqb_neq in Eb. lia. }
    rewrite !orb_false_iff, !Z.eqb_neq in Eb.
    match goal with |- context [if ?c then _ else _] => destruct c eqn:Ec end.
    + eapply shows_hidden; [done| |done|done]. unfold clean_rune.
      rewrite !orb_true_iff, !andb_true_iff, !Z.leb_le in Ec. lia.
    + apply shows_same; [|done]. exists r. split; [done|]. right.
      rewrite !orb_false_iff, !andb_false_iff, !Z.leb_gt in Ec.
      lia.
Qed.

Lemma showable_pieces s : ∃ qs, pieces (showable s) = qs ∧ shows false (pieces s) qs.
Proof.
  exists (map shown_piece (valid_list false (pieces s))). split.
  - unfold showable, ToValidUTF8. rewrite valid_list_bytes, pieces_concat by apply valid_list_whole, pieces_shape.
    assert (E : map shown_rune (valid_list false (pieces s)) = map pc_bytes (map shown_piece (valid_list false (pieces s)))).
    { rewrite map_map. apply map_ext. intros p. unfold shown_rune, shown_piece. by repeat case_match. }
    rewrite E. apply pieces_concat. apply Forall_forall. intros q (p & -> & Hp)%list_elem_of_fmap.
    apply shown_piece_whole. pose proof (valid_list_whole false (pieces s) (pieces_shape s)) as Hw.
    rewrite Forall_forall in Hw. by apply Hw.
  - generalize (pieces s) as ps. generalize false as run. intros run ps. revert run.
    induction ps as [|p ps IH]; intros run; cbn [valid_list map]; [constructor|].
    destruct (pc_rune p) as [r|] eqn:E; [by eapply shown_piece_shows|].
    destruct run; cbn [app map]; [by apply shows_more|]. apply shows_bytes; [done|apply IH].
Qed.

(** A line read back: everything as it was, the text as it is shown. *)
Definition line_shown (l l' : Line) : Prop :=
  Old l' = Old l ∧ New l' = New l ∧ l_Op l' = l_Op l ∧ NoEOL l' = NoEOL l ∧
  shows false (pieces (Text l)) (pieces (Text l')) ∧ clean_text (Text l').
Definition hunk_shown (h h' : Hunk) : Prop :=
  h_Header h' = h_Header h ∧ Forall2 line_shown (h_Lines h) (h_Lines h').

Lemma shown_line_shown l : line_shown l (shown_line l).
Proof.
  unfold line_shown, shown_line. cbn [Old New l_Op NoEOL Text]. destruct (showable_pieces (Text l)) as (qs & E & Hs).
  unfold clean_text. rewrite E. split_and!; try done. apply Forall_forall. by eapply shows_is_clean.
Qed.

Lemma shown_line_clean l : clean_text (Text l) → shown_line l = l.
Proof.
  intros Hc. unfold shown_line. destruct (showable_pieces (Text l)) as (qs & E & Hs).
  apply shows_clean in Hs; [|by apply Forall_forall].
  assert (showable (Text l) = Text l) as ->; [|by destruct l].
  by rewrite <- (pieces_bytes (showable (Text l))), E, Hs, pieces_bytes.
Qed.

Lemma parse_printed hs :
  hs ≠ [] → hunks_wf 0 0 hs → parseDiff (print_diff hs) = Some (Ok (map shown_hunk hs, false)).
Proof.
  intros Hne Hwf. pose proof (printed_one_line _ _ _ Hwf) as Hl. unfold parseDiff, print_diff.
  rewrite trim_last_snoc, Split_Join, map_trim_one_line; [|done| |eapply Forall_impl; [exact Hl|by intros ? []]].
  2: { by destruct hs. }
  destruct (String.eqb_spec (Join (flat_map print_hunk hs) (String newline "") +:+ String newline "") "") as [E|_].
  { by destruct (Join _ _). }
  assert (skip_preamble (flat_map print_hunk hs) 0 = Ok (Some (flat_map print_hunk hs, 0))) as ->.
  { destruct hs; [done|]. done. }
  by rewrite parse_hunks_print.
Qed.

(** C40. Hunks in order, each with the lines its header counts, are read back from
    the diff they are printed as: hunk by hunk and line by line, numbers,
    operation and missing-newline mark as they were, and the text as it is
    shown, which has only clean characters. Hunks whose text is clean to begin
    with come back as they are. *)
Theorem diff_roundtrip hs (Hne : hs ≠ []) (Hwf : hunks_wf 0 0 hs) :
  ∃ hs', parseDiff (print_diff hs) = Some (Ok (hs', false)) ∧ Forall2 hunk_shown hs hs' ∧
    ((∀ h l, h ∈ hs → l ∈ h_Lines h → clean_text (Text l)) → hs' = hs).
Proof.
  exists (map shown_hunk hs). split; [by apply parse_printed|]. clear. split.
  - apply Forall2_fmap_r, Forall2_same_length_lookup_2; [done|]. intros i h h' Hi Hi'.
    replace h' with h by congruence. split; [done|]. cbn [shown_hunk h_Lines].
    apply Forall2_fmap_r, Forall2_same_length_lookup_2; [done|]. intros j l l' Hj Hj'.
    replace l' with l by congruence. apply shown_line_shown.
  - intros Hc. rewrite <- (list_fmap_id hs) at 2. apply list_fmap_ext. intros i h Hi%list_elem_of_lookup_2.
    destruct h as [hh ls]. unfold shown_hunk. cbn [h_Header h_Lines id]. f_equal.
    rewrite <- (list_fmap_id ls) at 2. apply list_fmap_ext. intros j l Hj%list_elem_of_lookup_2.
    by apply shown_line_clean, (Hc _ _ Hi).
Qed.

(** ** Examples *)

Definition nl (l : list string) : string := Join l (String newline "") +:+ String newline "".

Definition sample_diff : string :=
  nl ["@@ -1,2 +1,3 @@ func main()"; " a"; "-b"; "+B"; "\ No newline at end of file"; "+c"; "@@ -9 +10 @@"; "-x"; "+y"].

Example sample_parse :
  parseDiff sample_diff = Some (Ok ([
    mkHunk (mkHunkHeader 1 2 1 3 "func main()")
      [mkLine 1 1 OpContext "a" false; mkLine 2 0 OpRemoved "b" false; mkLine 0 2 OpAdded "B" true;
       mkLine 0 3 OpAdded "c" false];
    mkHunk (mkHunkHeader 9 1 10 1 "") [mkLine 9 0 OpRemoved "x" false; mkLine 0 10 OpAdded "y" false]], false)).
Proof. vm_compute. reflexivity. Qed.

Definition sample_file : FileDiff := mkFileDiff "old.go" "new.go" false true false sample_diff false false.

Example sample_map :
  match Build [sample_file] with
  | Some (Ok m) =>
      Lookup m (mkAnchor "new.go" SideNew 2) = Some (Some (mkLine 0 2 OpAdded "B" true)) ∧
      Lookup m (mkAnchor "new.go" SideOld 2) = None ∧
      Lookup m (mkAnchor "old.go" SideOld 2) = Some (Some (mkLine 2 0 OpRemoved "b" false)) ∧
      Quote m (mkAnchor "new.go" SideNew 2) "  B " = QuoteWhole ∧ ChangedLines m = 5 ∧ Reviewable m = None
  | _ => False
  end.
Proof. vm_compute. repeat split; reflexivity. Qed.

Example overlap_refused :
  parseDiff (nl ["@@ -1,2 +1,2 @@"; " a"; " b"; "@@ -2 +3 @@"; "-b"; "+c"]) =
  Some (Err (mkDiffError 4 OutOfOrder)).
Proof. vm_compute. reflexivity. Qed.

Example short_hunk_refused :
  parseDiff (nl ["@@ -1,2 +1,2 @@"; " a"]) = Some (Err (mkDiffError 2 (EndsEarly 1 1))).
Proof. vm_compute. reflexivity. Qed.

(** ** Witnesses *)

Definition sample_hunks : list Hunk :=
  [mkHunk (mkHunkHeader 1 1 1 1 "f") [mkLine 1 0 OpRemoved "b" false; mkLine 0 1 OpAdded "B" true]].

Lemma sample_hunks_wf : hunks_wf 0 0 sample_hunks.
Proof.
  cbn. unfold hunk_ok, header_ok, number_ok, MaxLineNumber, one_line, no_byte. cbn.
  repeat split; try lia; try done. repeat constructor.
Qed.

Lemma diff_roundtrip_witness : parseDiff (print_diff sample_hunks) = Some (Ok (sample_hunks, false)).
Proof.
  destruct (diff_roundtrip sample_hunks ltac:(discriminate) sample_hunks_wf) as (hs' & E & _ & Hc).
  rewrite E, Hc; [reflexivity|]. intros h l ->%list_elem_of_singleton Hl p Hp. cbn in Hl.
  rewrite !elem_of_cons, elem_of_nil in Hl. destruct Hl as [->|[->|[]]]; cbn in Hp;
    apply list_elem_of_singleton in Hp as ->; (eexists; split; [reflexivity|]); right; vm_compute;
    repeat split; try discriminate; intros [? ?]; congruence.
Defined.

Lemma header_roundtrip_witness :
  ParseHunkHeader (header_String (mkHunkHeader 3 0 4 2147483647 "x")) = Ok (mkHunkHeader 3 0 4 2147483647 "x").
Proof. apply header_roundtrip. unfold header_ok, number_ok, MaxLineNumber. cbn. lia. Defined.

Definition sample_built : Map := match Build [sample_file] with Some (Ok m) => m | _ => mkMap [] ∅ end.

Lemma Lookup_exact_witness :
  Build [sample_file] = Some (Ok sample_built) ∧
  Lookup sample_built (mkAnchor "new.go" SideNew 2) ≠ Some None ∧
  ((∀ l, Lookup sample_built (mkAnchor "new.go" SideNew 2) = Some (Some l) ↔
     names_line sample_built (mkAnchor "new.go" SideNew 2) l)).
Proof.
  assert (Build [sample_file] = Some (Ok sample_built)) as H by (vm_compute; reflexivity).
  split; [exact H|]. destruct (Lookup_exact [sample_file] sample_built (mkAnchor "new.go" SideNew 2) H) as [H1 H2].
  split; [exact H2|exact H1].
Defined.

Lemma citable_iff_within_witness :
  (∃ l, Lookup sample_built (mkAnchor "old.go" SideOld 9) = Some (Some l)) ∧ 1 <= 9 <= MaxLineNumber.
Proof.
  assert (Build [sample_file] = Some (Ok sample_built)) as H by (vm_compute; reflexivity).
  destruct (citable_iff_within [sample_file] sample_built SideOld 9 "old.go" H (or_intror eq_refl)) as [_ H2].
  assert (∃ l, Lookup sample_built (mkAnchor "old.go" SideOld 9) = Some (Some l)) as H1
    by (eexists; vm_compute; reflexivity).
  split; [exact H1|exact (H2 H1)].
Defined.

Lemma Reviewable_exact_witness :
  Reviewable sample_built = None ∧ ∃ f, f ∈ files sample_built ∧ f_Status f = StatusText.
Proof.
  assert (Build [sample_file] = Some (Ok sample_built)) as H by (vm_compute; reflexivity).
  destruct (Reviewable_exact [sample_file] sample_built H) as [H1 _].
  assert (Reviewable sample_built = None) as H2 by (vm_compute; reflexivity).
  split; [exact H2|]. exact (proj2 (proj1 H1 H2)).
Defined.
