(* ===== verification/LineDiff.v ===== *)
(** * The line diff of a patched file ([pkg/effects/edit.go]: [splitLines],
    [lineDiff], [backtrack])

    Myers' algorithm as the code runs it: the furthest point on each diagonal
    in an array rewritten round by round, the array kept as it was before each
    round, and a walk back through the copies. The array is a finite map from
    a diagonal to the point, 0 where nothing was written, as Go's is. Points
    fit [int32] as long as the file has fewer than 2^31 lines. *)

From S2P Require Import Prelude.
From S2P Require Import GoStrings.
From S2P Require Import GoPath.
From S2P Require Import GoUTF8.

(** ** Lines *)

(** [strings.SplitAfter]: each piece keeps its separator. *)
Fixpoint SplitAfter (sep : Ascii.ascii) (s : string) : list string :=
  match s with
  | EmptyString => [""]
  | String c s =>
      if Ascii.eqb c sep then String c "" :: SplitAfter sep s
      else match SplitAfter sep s with
           | [] => [String c ""]
           | l :: ls => String c l :: ls
           end
  end.

Fixpoint drop_last_empty (ls : list string) : list string :=
  match ls with
  | [] => []
  | [l] => if String.eqb l "" then [] else [l]
  | l :: ls => l :: drop_last_empty ls
  end.

Definition splitLines (content : string) : list string :=
  if len content =? 0 then [] else drop_last_empty (SplitAfter newline content).

(** ** The search *)

Definition maxExactDiffLines : Z := 1000.

Fixpoint trim_common (a b : list string) : list string * list string :=
  match a, b with
  | x :: a', y :: b' => if String.eqb x y then trim_common a' b' else (a, b)
  | _, _ => (a, b)
  end.

(** [l[i]]; [None]: an index out of range, which stops the program. *)
Definition at_line {A} (l : list A) (i : Z) : option A := if i <? 0 then None else l !! Z.to_nat i.

(** [l[i] = x] and [l[lo:hi]], likewise. *)
Definition store_at {A} (l : list A) (i : Z) (x : A) : option (list A) :=
  if (0 <=? i) && (i <? Z.of_nat (length l)) then Some (<[Z.to_nat i := x]> l) else None.
Definition slice {A} (l : list A) (lo hi : Z) : option (list A) :=
  if (0 <=? lo) && (lo <=? hi) && (hi <=? Z.of_nat (length l))
  then Some (take (Z.to_nat (hi - lo)) (drop (Z.to_nat lo) l)) else None.

Section search.
Context (a b : list string).

Definition n : Z := Z.of_nat (length a).
Definition m : Z := Z.of_nat (length b).

(** Along a diagonal while the lines agree, to the [x] where it stops. It takes
    at most a step per line of [a]. *)
Fixpoint slide_on (fuel : nat) (x y : Z) : option Z :=
  match fuel with
  | O => Some x
  | S fuel =>
      if (x <? n) && (y <? m) then
        match at_line a x, at_line b y with
        | Some s, Some t => if String.eqb s t then slide_on fuel (x + 1) (y + 1) else Some x
        | _, _ => None
        end
      else Some x
  end.

Definition limit : Z := if maxExactDiffLines <? n + m then maxExactDiffLines else n + m.

(** The array, and where diagonal 0 is in it. Its entries are [int32] in the
    code: numbers of lines, here without a bound. *)
Definition fresh_array : list Z := replicate (Z.to_nat (2 * limit + 3)) 0.
Definition off : Z := limit + 1.

(** Whether diagonal [k] of round [d] is entered by a line of [b] that is added,
    as read from an array whose diagonal 0 is at [o]. *)
Definition down_into (v : list Z) (o d k : Z) : option bool :=
  if k =? - d then Some true
  else if k =? d then Some false
  else match at_line v (o + k - 1), at_line v (o + k + 1) with
       | Some p, Some q => Some (p <? q)
       | _, _ => None
       end.

(** The point that diagonal [k] is entered at, and how far it reaches. *)
Definition step_into (v : list Z) (d k : Z) : option Z :=
  match down_into v off d k with
  | None => None
  | Some true => at_line v (off + k + 1)
  | Some false => match at_line v (off + k - 1) with Some x => Some (x + 1) | None => None end
  end.
Definition reached (v : list Z) (d k : Z) : option Z :=
  match step_into v d k with Some x => slide_on (length a) x (x - k) | None => None end.

Definition at_end (k x : Z) : bool := (n <=? x) && (m <=? x - k).

(** One round, over the diagonals given; [true] when it reaches the end. *)
Fixpoint round_on (ks : list Z) (d : Z) (v : list Z) : option (bool * list Z) :=
  match ks with
  | [] => Some (false, v)
  | k :: ks =>
      match reached v d k with
      | None => None
      | Some x =>
          match store_at v (off + k) x with
          | None => None
          | Some v => if at_end k x then Some (true, v) else round_on ks d v
          end
      end
  end.

(** -d, -d + 2, ..., d. *)
Definition diagonals (d : nat) : list Z := map (λ i, 2 * Z.of_nat i - Z.of_nat d) (seq 0 (S d)).

(** Rounds [d], [d + 1], ...: [Some (d, trace)] for the round that reached the
    end, with the windows of the array as they were before each round. The
    outer [None]: an index out of range. *)
Fixpoint search_from (rounds d : nat) (v : list Z) (trace : list (list Z)) : option (option (nat * list (list Z))) :=
  match rounds with
  | O => Some None
  | S rounds =>
      match slice v (off - Z.of_nat d) (off + Z.of_nat d + 1) with
      | None => None
      | Some window =>
          let trace := trace ++ [window] in
          match round_on (diagonals d) (Z.of_nat d) v with
          | None => None
          | Some (true, _) => Some (Some (d, trace))
          | Some (false, v) => search_from rounds (S d) v trace
          end
      end
  end.

(** The walk back. *)
Fixpoint backtrack_loop (trace : list (list Z)) (d : nat) (x y : Z) (removed added : list string) :
    option (list string * list string) :=
  match d with
  | O => Some (removed, added)
  | S d' =>
      match trace !! d with
      | None => None
      | Some prev =>
          let k := x - y in
          match down_into prev (Z.of_nat d) (Z.of_nat d) k with
          | None => None
          | Some true =>
              match at_line prev (k + 1 + Z.of_nat d) with
              | None => None
              | Some px =>
                  let py := px - (k + 1) in
                  match at_line b py with
                  | None => None
                  | Some l => backtrack_loop trace d' px py removed (added ++ [l])
                  end
              end
          | Some false =>
              match at_line prev (k - 1 + Z.of_nat d) with
              | None => None
              | Some px =>
                  let py := px - (k - 1) in
                  match at_line a px with
                  | None => None
                  | Some l => backtrack_loop trace d' px py (removed ++ [l]) added
                  end
              end
          end
      end
  end.

Definition backtrack (trace : list (list Z)) (d : nat) : option (list string * list string * bool) :=
  match backtrack_loop trace d n m [] [] with
  | None => None
  | Some (removed, added) => Some (rev removed, rev added, true)
  end.

(** After the common lines at both ends were taken off. *)
Definition diff_middle : option (list string * list string * bool) :=
  if (n =? 0) || (m =? 0) then Some (a, b, true)
  else match search_from (S (Z.to_nat limit)) 0 fresh_array [] with
       | None => None
       | Some (Some (d, trace)) => backtrack trace d
       | Some None => Some (a, b, false)
       end.
End search.

Definition trim_ends (a b : list string) : list string * list string :=
  let '(a, b) := trim_common a b in
  let '(a, b) := trim_common (rev a) (rev b) in (rev a, rev b).

(** [(removed, added, exact)]; [None]: the program stops. *)
Definition lineDiff (a b : list string) : option (list string * list string * bool) :=
  let '(a, b) := trim_ends a b in diff_middle a b.

Example lineDiff_sample :
  lineDiff ["a"; "b"; "c"; "a"; "b"; "b"; "a"] ["c"; "b"; "a"; "b"; "a"; "c"] =
  Some (["a"; "b"; "b"], ["b"; "c"], true).
Proof. vm_compute. reflexivity. Qed.

(** ** What a diff is: two texts woven from what they share *)

(** [l] is [c] with the lines of [r] put in between, each in order. *)
Inductive woven {A} : list A → list A → list A → Prop :=
| woven_nil : woven [] [] []
| woven_common x c r l : woven c r l → woven (x :: c) r (x :: l)
| woven_own x c r l : woven c r l → woven c (x :: r) (x :: l).

#[export] Hint Constructors woven : core.

Section woven.
Context {A : Type}.
Implicit Types (c r l : list A).

Lemma woven_app c1 r1 l1 c2 r2 l2 : woven c1 r1 l1 → woven c2 r2 l2 → woven (c1 ++ c2) (r1 ++ r2) (l1 ++ l2).
Proof. induction 1; cbn; auto. Qed.

Lemma woven_same l : woven l [] l.
Proof. induction l; auto. Qed.

Lemma woven_all l : woven [] l l.
Proof. induction l; auto. Qed.

Lemma woven_rev c r l : woven c r l → woven (rev c) (rev r) (rev l).
Proof.
  induction 1; cbn; [auto| |].
  - rewrite <- (app_nil_r (rev r)). apply woven_app; [done|]. apply woven_same.
  - rewrite <- (app_nil_r (rev c)). apply woven_app; [done|]. apply woven_all.
Qed.

Lemma woven_length c r l : woven c r l → length l = (length c + length r)%nat.
Proof. induction 1; cbn; lia. Qed.

(** Every line is a shared one or an own one. *)
Lemma woven_elem c r l x : woven c r l → x ∈ l ↔ x ∈ c ∨ x ∈ r.
Proof. induction 1; set_solver. Qed.

(** A shared first line may be counted as an own one. *)
Lemma woven_drop_common x c r l : woven (x :: c) r l → ∃ r', woven c r' l ∧ length r' = S (length r).
Proof.
  remember (x :: c) as xc eqn:E. intros H. revert x c E. induction H as [|y c' r l H IH|y c' r l H IH]; intros x c E.
  - done.
  - injection E as -> ->. exists (x :: r). auto.
  - destruct (IH x c E) as (r' & Hw & Hl). exists (y :: r'). cbn. split; [auto|lia].
Qed.

(** Taking off a first line that both texts share costs nothing. *)
Lemma woven_trim x c r1 r2 l1 l2 :
  woven c r1 (x :: l1) → woven c r2 (x :: l2) →
  ∃ c' r1' r2', woven c' r1' l1 ∧ woven c' r2' l2 ∧ (length r1' + length r2' <= length r1 + length r2)%nat.
Proof.
  intros H1 H2. inversion H1 as [|? c1 ? ? H1'|? ? ? ? H1']; subst; inversion H2 as [|? c2 ? ? H2'|? ? ? ? H2']; subst.
  - by exists c1, r1, r2.
  - apply woven_drop_common in H2' as (r' & Hw & Hl). exists c1, r1, r'. cbn. repeat split; [done|done|lia].
  - apply woven_drop_common in H1' as (r' & Hw & Hl). exists c2, r', r2. cbn. repeat split; [done|done|lia].
  - eexists c, _, _. repeat split; [done|done|cbn; lia].
Qed.
End woven.

Lemma trim_common_spec a b a' b' :
  trim_common a b = (a', b') →
  ∃ p, a = p ++ a' ∧ b = p ++ b' ∧
  ∀ c r1 r2, woven c r1 a → woven c r2 b →
    ∃ c' r1' r2', woven c' r1' a' ∧ woven c' r2' b' ∧ (length r1' + length r2' <= length r1 + length r2)%nat.
Proof.
  revert b. induction a as [|x a IH]; intros b; cbn [trim_common].
  { intros [= <- <-]. exists []. repeat split. intros c r1 r2 H1 H2. by exists c, r1, r2. }
  destruct b as [|y b].
  { intros [= <- <-]. exists []. repeat split. intros c r1 r2 H1 H2. by exists c, r1, r2. }
  destruct (String.eqb_spec x y) as [->|Hne].
  - intros (p & -> & -> & Hmin)%IH. exists (y :: p). repeat split. intros c r1 r2 H1 H2.
    destruct (woven_trim _ _ _ _ _ _ H1 H2) as (c' & r1' & r2' & H1' & H2' & Hle).
    destruct (Hmin _ _ _ H1' H2') as (c'' & q1 & q2 & ? & ? & ?). exists c'', q1, q2. repeat split; [done|done|lia].
  - intros [= <- <-]. exists []. repeat split. intros c r1 r2 H1 H2. by exists c, r1, r2.
Qed.

(** The middle of two texts: a diff of it is a diff of the whole, and the
    whole has none that is smaller. *)
Lemma trim_ends_spec a b a' b' :
  trim_ends a b = (a', b') →
  (∀ c r1 r2, woven c r1 a' → woven c r2 b' → ∃ c', woven c' r1 a ∧ woven c' r2 b) ∧
  (∀ c r1 r2, woven c r1 a → woven c r2 b →
    ∃ c' r1' r2', woven c' r1' a' ∧ woven c' r2' b' ∧ (length r1' + length r2' <= length r1 + length r2)%nat) ∧
  (length a' <= length a)%nat ∧ (length b' <= length b)%nat.
Proof.
  unfold trim_ends. destruct (trim_common a b) as [a1 b1] eqn:E1.
  apply trim_common_spec in E1 as (p & -> & -> & Hmin1).
  destruct (trim_common (rev a1) (rev b1)) as [a2 b2] eqn:E2. intros [= <- <-].
  apply trim_common_spec in E2 as (q & Ha & Hb & Hmin2).
  apply (f_equal (@rev string)) in Ha, Hb. rewrite rev_involutive, rev_app_distr in Ha, Hb. subst a1 b1.
  split; [|split].
  - intros c r1 r2 H1 H2. exists (p ++ c ++ rev q).
    assert (∀ r l, woven c r l → woven (p ++ c ++ rev q) r (p ++ l ++ rev q)) as Hw.
    { intros r l H. change r with ([] ++ r). apply woven_app; [apply woven_same|].
      rewrite <- (app_nil_r r). apply woven_app; [done|apply woven_same]. }
    split; by apply Hw.
  - intros c r1 r2 H1 H2. destruct (Hmin1 _ _ _ H1 H2) as (c1 & s1 & s2 & W1%woven_rev & W2%woven_rev & L1).
    destruct (Hmin2 _ _ _ W1 W2) as (c2 & t1 & t2 & V1%woven_rev & V2%woven_rev & L2).
    rewrite !length_rev in L2. exists (rev c2), (rev t1), (rev t2).
    rewrite !length_rev. repeat split; [done|done|lia].
  - rewrite !length_app, !length_rev. lia.
Qed.

(** ** Furthest points *)

(** The same search without an array: what is read is a function of the
    diagonal, and lines that are not there agree with nothing. *)
Section pure.
Context (a b : list string).

Definition match_at (x y : Z) : bool :=
  match at_line a x, at_line b y with Some s, Some t => String.eqb s t | _, _ => false end.
Fixpoint slide_fuel (fuel : nat) (x y : Z) : Z :=
  match fuel with
  | O => x
  | S fuel => if (x <? n a) && (y <? m b) && match_at x y then slide_fuel fuel (x + 1) (y + 1) else x
  end.
Definition slide (x y : Z) : Z := slide_fuel (length a) x y.
Definition goes_down (v : Z → Z) (d k : Z) : bool := (k =? - d) || (negb (k =? d) && (v (k - 1) <? v (k + 1))).
Definition enter (v : Z → Z) (d k : Z) : Z := if goes_down v d k then v (k + 1) else v (k - 1) + 1.
Definition reach (v : Z → Z) (d k : Z) : Z := let x := enter v d k in slide x (x - k).

(** Inside the arrays the two are the same. *)
Definition at_ (v : list Z) (k : Z) : Z := default 0 (at_line v (off a b + k)).

Lemma slide_on_ok fuel x y : 0 <= x → 0 <= y → slide_on a b fuel x y = Some (slide_fuel fuel x y).
Proof.
  revert x y. induction fuel as [|fuel IH]; intros x y Hx Hy; cbn [slide_on slide_fuel]; [done|].
  destruct (Z.ltb_spec x (n a)) as [Hn|]; [|done]. destruct (Z.ltb_spec y (m b)) as [Hm|]; [|done]. cbn [andb].
  unfold match_at, at_line, n, m in *. rewrite !(proj2 (Z.ltb_ge _ 0)) by lia.
  destruct (lookup_lt_is_Some_2 a (Z.to_nat x)) as [s ->]; [lia|].
  destruct (lookup_lt_is_Some_2 b (Z.to_nat y)) as [t ->]; [lia|].
  destruct (String.eqb s t); [apply IH; lia|done].
Qed.

Lemma limit_range : 0 <= limit a b.
Proof. unfold limit, maxExactDiffLines, n, m. case_match; lia. Qed.

Lemma at_line_some {A} (l : list A) i : 0 <= i < Z.of_nat (length l) → ∃ x, at_line l i = Some x.
Proof.
  intros Hi. unfold at_line. rewrite (proj2 (Z.ltb_ge i 0)) by lia. apply lookup_lt_is_Some_2. lia.
Qed.

Lemma at_line_at v k :
  Z.of_nat (length v) = 2 * limit a b + 3 → - off a b <= k <= off a b → at_line v (off a b + k) = Some (at_ v k).
Proof.
  intros Hl Hk. unfold at_. destruct (at_line_some v (off a b + k)) as [x ->]; [unfold off in *; lia|done].
Qed.

Lemma down_into_ok v d k :
  Z.of_nat (length v) = 2 * limit a b + 3 → - d <= k <= d → d <= limit a b →
  down_into v (off a b) d k = Some (goes_down (at_ v) d k).
Proof.
  intros Hl Hk Hd. unfold down_into, goes_down. destruct (Z.eqb_spec k (- d)); [done|].
  destruct (Z.eqb_spec k d); [done|]. cbn [orb negb andb].
  replace (off a b + k - 1) with (off a b + (k - 1)) by lia. replace (off a b + k + 1) with (off a b + (k + 1)) by lia.
  by rewrite !at_line_at by (unfold off; lia).
Qed.

Lemma reached_ok v d k :
  Z.of_nat (length v) = 2 * limit a b + 3 → - d <= k <= d → d <= limit a b →
  0 <= enter (at_ v) d k → k <= enter (at_ v) d k → reached a b v d k = Some (reach (at_ v) d k).
Proof.
  intros Hl Hk Hd H0 H1. assert (Hs : step_into a b v d k = Some (enter (at_ v) d k)).
  { unfold step_into, enter. rewrite down_into_ok by done. destruct (goes_down _ _ _).
    - replace (off a b + k + 1) with (off a b + (k + 1)) by lia. apply at_line_at; [done|unfold off; lia].
    - replace (off a b + k - 1) with (off a b + (k - 1)) by lia. by rewrite at_line_at by (done || unfold off; lia). }
  unfold reached. rewrite Hs. apply slide_on_ok; lia.
Qed.

Lemma store_at_ok v k x :
  Z.of_nat (length v) = 2 * limit a b + 3 → - off a b <= k <= off a b →
  ∃ w, store_at v (off a b + k) x = Some w ∧ length w = length v ∧
    at_ w k = x ∧ ∀ j, j ≠ k → - off a b <= j <= off a b → at_ w j = at_ v j.
Proof.
  intros Hl Hk. unfold store_at. rewrite (proj2 (Z.leb_le 0 _)), (proj2 (Z.ltb_lt _ _)) by (unfold off in *; lia).
  eexists. split; [done|]. split; [apply length_insert|]. unfold at_, at_line. split.
  - rewrite (proj2 (Z.ltb_ge _ 0)) by lia. rewrite list_lookup_insert_eq by (unfold off in *; lia). done.
  - intros j Hj Hjr. rewrite (proj2 (Z.ltb_ge _ 0)) by lia. by rewrite list_lookup_insert_ne by lia.
Qed.

Lemma slice_ok v d :
  Z.of_nat (length v) = 2 * limit a b + 3 → 0 <= d <= limit a b →
  ∃ w, slice v (off a b - d) (off a b + d + 1) = Some w ∧
    ∀ k, - d <= k <= d → at_line w (k + d) = Some (at_ v k).
Proof.
  intros Hl Hd. unfold slice. rewrite !(proj2 (Z.leb_le _ _)) by (unfold off in *; lia).
  eexists. split; [done|]. intros k Hk. rewrite <- at_line_at by (done || unfold off in *; lia).
  unfold at_line. rewrite !(proj2 (Z.ltb_ge _ 0)) by (unfold off in *; lia).
  rewrite lookup_take_lt by lia. rewrite lookup_drop. f_equal. unfold off in *. lia.
Qed.
End pure.

Section furthest.
Context (a b : list string).
Abbreviation n := (n a).
Abbreviation m := (m b).

Lemma match_at_inv x y : match_at a b x y = true → 0 <= x < n ∧ 0 <= y < m.
Proof.
  unfold match_at, at_line, LineDiff.n, LineDiff.m. destruct (Z.ltb_spec x 0); [done|]. destruct (a !! Z.to_nat x) eqn:Ha; [|done].
  destruct (Z.ltb_spec y 0); [done|]. destruct (b !! Z.to_nat y) eqn:Hb; [|done].
  apply lookup_lt_Some in Ha, Hb. lia.
Qed.

(** Where a slide stops: every line on the way agrees, the next one does not. *)
Lemma slide_fuel_spec fuel x y :
  n - x <= Z.of_nat fuel →
  let x' := slide_fuel a b fuel x y in
  x <= x' ∧ (∀ i, 0 <= i < x' - x → match_at a b (x + i) (y + i) = true) ∧
  match_at a b x' (y + (x' - x)) = false.
Proof.
  revert x y. induction fuel as [|fuel IH]; intros x y Hf; cbn [slide_fuel].
  - split; [lia|]. split; [intros; lia|]. apply not_true_iff_false. intros ?%match_at_inv. lia.
  - destruct (match_at a b x y) eqn:Hm.
    + pose proof (match_at_inv _ _ Hm). rewrite (proj2 (Z.ltb_lt x n)), (proj2 (Z.ltb_lt y m)) by lia. cbn [andb].
      destruct (IH (x + 1) (y + 1)) as (H1 & H2 & H3); [lia|]. split; [lia|]. split.
      * intros i Hi. destruct (decide (i = 0)) as [->|]; [by rewrite !Z.add_0_r|].
        replace (x + i) with (x + 1 + (i - 1)) by lia. replace (y + i) with (y + 1 + (i - 1)) by lia. apply H2. lia.
      * rewrite <- H3. f_equal. lia.
    + rewrite andb_false_r. split; [lia|]. split; [intros; lia|]. by rewrite Z.sub_diag, Z.add_0_r.
Qed.

Lemma slide_spec x y :
  0 <= x →
  let x' := slide a b x y in
  x <= x' ∧ (∀ i, 0 <= i < x' - x → match_at a b (x + i) (y + i) = true) ∧
  match_at a b x' (y + (x' - x)) = false ∧ (x < x' → x' <= n ∧ y + (x' - x) <= m).
Proof.
  intros Hx. destruct (slide_fuel_spec (length a) x y) as (H1 & H2 & H3); [unfold LineDiff.n; lia|].
  fold (slide a b x y) in *. repeat split; try done.
  all: intros; pose proof (match_at_inv _ _ (H2 (slide a b x y - x - 1) ltac:(lia))); lia.
Qed.

(** The furthest [x] on diagonal [k] after [d] steps, as a recurrence. *)
Fixpoint furthest (d : nat) (k : Z) : Z :=
  match d with
  | O => slide a b 0 (0 - k)
  | S d' => reach a b (furthest d') (Z.of_nat (S d')) k
  end.

(** The diagonals of round [d]. *)
Definition on_round (d : nat) (k : Z) : Prop := - Z.of_nat d <= k <= Z.of_nat d ∧ Z.even (k + Z.of_nat d) = true.

Lemma on_round_0 k : on_round 0 k → k = 0.
Proof. unfold on_round. lia. Qed.

Lemma even_step k d : Z.even (k + Z.of_nat (S d)) = true ↔ Z.even (k - 1 + Z.of_nat d) = true.
Proof. rewrite !Z.even_spec. split; intros [q Hq]; [exists (q - 1)|exists (q + 1)]; lia. Qed.
Lemma even_step' k d : Z.even (k + Z.of_nat (S d)) = true ↔ Z.even (k + 1 + Z.of_nat d) = true.
Proof. by replace (k + 1 + Z.of_nat d) with (k + Z.of_nat (S d)) by lia. Qed.

Lemma on_round_right d k : on_round d k → on_round (S d) (k + 1).
Proof. intros [H1 H2]. split; [lia|]. apply even_step. by replace (k + 1 - 1) with k by lia. Qed.
Lemma on_round_left d k : on_round d k → on_round (S d) (k - 1).
Proof. intros [H1 H2]. split; [lia|]. apply even_step'. by replace (k - 1 + 1) with k by lia. Qed.

(** How a point of a round was entered. *)
Lemma enter_cases d k :
  on_round (S d) k →
  (goes_down (furthest d) (Z.of_nat (S d)) k = true ∧ on_round d (k + 1) ∧
   enter (furthest d) (Z.of_nat (S d)) k = furthest d (k + 1)) ∨
  (goes_down (furthest d) (Z.of_nat (S d)) k = false ∧ on_round d (k - 1) ∧
   enter (furthest d) (Z.of_nat (S d)) k = furthest d (k - 1) + 1).
Proof.
  intros [Hk He]. unfold enter. destruct (goes_down _ _ k) eqn:Hg; [left|right]; (split; [done|]; split; [|done]).
  - split; [|by apply even_step']. apply orb_true_iff in Hg as [Hg|Hg].
    + apply Z.eqb_eq in Hg. lia.
    + apply andb_true_iff in Hg as [Hg _]. apply negb_true_iff, Z.eqb_neq in Hg.
      assert (k ≠ Z.of_nat d). { intros ->. rewrite Z.even_spec in He. destruct He as [q He]. lia. }
      lia.
  - split; [|by apply even_step]. apply orb_false_iff in Hg as [Hg _]. apply Z.eqb_neq in Hg.
    assert (k ≠ - Z.of_nat d). { intros ->. rewrite Z.even_spec in He. destruct He as [q He]. lia. }
    lia.
Qed.

(** Points are never left of, or above, the grid. *)
Lemma furthest_low d k : on_round d k → 0 <= furthest d k ∧ k <= furthest d k.
Proof.
  revert k. induction d as [|d IH]; intros k Hk.
  - apply on_round_0 in Hk as ->. cbn [furthest]. pose proof (slide_spec 0 (0 - 0) ltac:(lia)) as [H _]. cbn zeta in H. lia.
  - cbn [furthest]. unfold reach. destruct (enter_cases d k Hk) as [(_ & Hr & He)|(_ & Hr & He)]; rewrite He.
    all: specialize (IH _ Hr); match goal with |- context [slide a b ?x ?y] => destruct (slide_spec x y ltac:(lia)) as [H _] end;
      cbn zeta in H; lia.
Qed.

Lemma furthest_enter d k :
  on_round (S d) k → enter (furthest d) (Z.of_nat (S d)) k <= furthest (S d) k.
Proof.
  intros Hk. cbn [furthest]. unfold reach.
  assert (0 <= enter (furthest d) (Z.of_nat (S d)) k) as H0.
  { destruct (enter_cases d k Hk) as [(_ & Hr & ->)|(_ & Hr & ->)]; first [apply furthest_low in Hr|pose proof (furthest_low a b _ _ Hr)]; lia. }
  by destruct (slide_spec _ (enter (furthest d) (Z.of_nat (S d)) k - k) H0) as [H _].
Qed.

(** A point that was slid to is in the grid. *)
Lemma furthest_slid d k :
  on_round (S d) k → enter (furthest d) (Z.of_nat (S d)) k < furthest (S d) k →
  furthest (S d) k <= n ∧ furthest (S d) k - k <= m.
Proof.
  intros Hk. cbn [furthest]. unfold reach.
  assert (0 <= enter (furthest d) (Z.of_nat (S d)) k) as H0.
  { destruct (enter_cases d k Hk) as [(_ & Hr & ->)|(_ & Hr & ->)]; first [apply furthest_low in Hr|pose proof (furthest_low a b _ _ Hr)]; lia. }
  destruct (slide_spec _ (enter (furthest d) (Z.of_nat (S d)) k - k) H0) as (_ & _ & _ & H4). cbn zeta in *. lia.
Qed.

(** A step to the right or down from a point is on the way to the next round. *)
Lemma furthest_right d k : on_round d k → furthest d k + 1 <= furthest (S d) (k + 1).
Proof.
  intros Hk. etransitivity; [|apply furthest_enter; by apply on_round_right].
  unfold enter, goes_down. replace (k + 1 - 1) with k by lia.
  destruct (Z.eqb_spec (k + 1) (- Z.of_nat (S d))); [destruct Hk; lia|]. cbn [orb].
  destruct (Z.eqb_spec (k + 1) (Z.of_nat (S d))); cbn [negb andb]; [lia|].
  destruct (Z.ltb_spec (furthest d k) (furthest d (k + 1 + 1))); lia.
Qed.

Lemma furthest_down d k : on_round d k → furthest d k <= furthest (S d) (k - 1).
Proof.
  intros Hk. etransitivity; [|apply furthest_enter; by apply on_round_left].
  unfold enter, goes_down. replace (k - 1 + 1) with k by lia.
  destruct (Z.eqb_spec (k - 1) (- Z.of_nat (S d))); cbn [orb]; [lia|].
  destruct (Z.eqb_spec (k - 1) (Z.of_nat (S d))); [destruct Hk; lia|]. cbn [negb andb].
  destruct (Z.ltb_spec (furthest d (k - 1 - 1)) (furthest d k)); lia.
Qed.

(** A point past an edge of the grid has one on the edge, rounds before. *)
Lemma overshoot_down d k :
  on_round d k → m <= furthest d k - k →
  let j := furthest d k - k - m in
  j <= Z.of_nat d ∧ on_round (d - Z.to_nat j) (k + j) ∧ furthest d k <= furthest (d - Z.to_nat j) (k + j).
Proof.
  revert k. induction d as [|d IH]; intros k Hk Hy; cbn zeta.
  - pose proof (on_round_0 _ Hk) as ->. cbn [furthest] in *.
    destruct (slide_spec 0 (0 - 0) ltac:(lia)) as (H1 & _ & _ & H4). cbn zeta in *.
    assert (slide a b 0 (0 - 0) - 0 - m = 0) as ->.
    { destruct (decide (slide a b 0 (0 - 0) = 0)) as [E|E]; [|lia]. rewrite E in *. unfold LineDiff.m in *. lia. }
    split; [lia|]. split; [done|]. change (Z.to_nat 0) with 0%nat. cbn [furthest Nat.sub]. by rewrite Z.add_0_r.
  - destruct (decide (furthest (S d) k - k = m)) as [E|E].
    { rewrite E, Z.sub_diag, Z.add_0_r. change (Z.to_nat 0) with 0%nat. rewrite Nat.sub_0_r. split; [lia|]. split; [done|lia]. }
    assert (furthest (S d) k = enter (furthest d) (Z.of_nat (S d)) k) as Hen.
    { pose proof (furthest_enter d k Hk). pose proof (furthest_slid d k Hk). lia. }
    destruct (enter_cases d k Hk) as [(_ & Hr & He)|(_ & Hr & He)]; rewrite He in Hen.
    + destruct (IH (k + 1) Hr) as (I1 & I2 & I3); [lia|].
      replace (S d - Z.to_nat (furthest (S d) k - k - m))%nat
        with (d - Z.to_nat (furthest d (k + 1) - (k + 1) - m))%nat by lia.
      replace (k + (furthest (S d) k - k - m)) with (k + 1 + (furthest d (k + 1) - (k + 1) - m)) by lia.
      split; [lia|]. split; [done|lia].
    + destruct (IH (k - 1) Hr) as (I1 & I2 & I3); [lia|].
      replace (furthest (S d) k - k - m) with (furthest d (k - 1) - (k - 1) - m) by lia.
      set (j := furthest d (k - 1) - (k - 1) - m) in *.
      replace (S d - Z.to_nat j)%nat with (S (d - Z.to_nat j)) by lia.
      replace (k + j) with (k - 1 + j + 1) by lia.
      split; [lia|]. split; [by apply on_round_right|]. pose proof (furthest_right _ _ I2). lia.
Qed.
Lemma overshoot_right d k :
  on_round d k → n <= furthest d k →
  let i := furthest d k - n in
  i <= Z.of_nat d ∧ on_round (d - Z.to_nat i) (k - i) ∧ n <= furthest (d - Z.to_nat i) (k - i).
Proof.
  revert k. induction d as [|d IH]; intros k Hk Hx; cbn zeta.
  - pose proof (on_round_0 _ Hk) as ->. cbn [furthest] in *.
    destruct (slide_spec 0 (0 - 0) ltac:(lia)) as (H1 & _ & _ & H4). cbn zeta in *.
    assert (slide a b 0 (0 - 0) - n = 0) as ->.
    { destruct (decide (slide a b 0 (0 - 0) = 0)) as [E|E]; [|lia]. rewrite E in *. unfold LineDiff.n in *. lia. }
    split; [lia|]. split; [done|]. change (Z.to_nat 0) with 0%nat. cbn [furthest Nat.sub]. by rewrite Z.sub_0_r.
  - destruct (decide (furthest (S d) k = n)) as [E|E].
    { rewrite E, Z.sub_diag, Z.sub_0_r. change (Z.to_nat 0) with 0%nat. rewrite Nat.sub_0_r. split; [lia|]. split; [done|lia]. }
    assert (furthest (S d) k = enter (furthest d) (Z.of_nat (S d)) k) as Hen.
    { pose proof (furthest_enter d k Hk). pose proof (furthest_slid d k Hk). lia. }
    destruct (enter_cases d k Hk) as [(_ & Hr & He)|(_ & Hr & He)]; rewrite He in Hen.
    + destruct (IH (k + 1) Hr) as (I1 & I2 & I3); [lia|].
      replace (furthest (S d) k - n) with (furthest d (k + 1) - n) by lia.
      set (i := furthest d (k + 1) - n) in *.
      replace (S d - Z.to_nat i)%nat with (S (d - Z.to_nat i)) by lia.
      replace (k - i) with (k + 1 - i - 1) by lia.
      split; [lia|]. split; [by apply on_round_left|]. pose proof (furthest_down _ _ I2). lia.
    + destruct (IH (k - 1) Hr) as (I1 & I2 & I3); [lia|].
      replace (S d - Z.to_nat (furthest (S d) k - n))%nat with (d - Z.to_nat (furthest d (k - 1) - n))%nat by lia.
      replace (k - (furthest (S d) k - n)) with (k - 1 - (furthest d (k - 1) - n)) by lia.
      split; [lia|]. split; [done|lia].
Qed.

(** The first round that gets past both edges gets exactly to the corner. *)
Definition at_corner (d : nat) (k : Z) : Prop := on_round d k ∧ n <= furthest d k ∧ m <= furthest d k - k.

Lemma first_corner d k :
  at_corner d k → (∀ d' k', (d' < d)%nat → ¬ at_corner d' k') → k = n - m ∧ furthest d k = n.
Proof.
  intros (Hk & Hx & Hy) Hfirst.
  destruct (overshoot_down d k Hk Hy) as (J1 & J2 & J3). destruct (overshoot_right d k Hk Hx) as (I1 & I2 & I3).
  assert (furthest d k - k - m = 0).
  { destruct (decide (furthest d k - k - m = 0)) as [|E]; [done|exfalso].
    apply (Hfirst (d - Z.to_nat (furthest d k - k - m))%nat (k + (furthest d k - k - m))); [lia|]. split; [done|]. lia. }
  assert (furthest d k - n = 0); [|lia].
  destruct (decide (furthest d k - n = 0)) as [|E]; [done|exfalso].
  apply (Hfirst (d - Z.to_nat (furthest d k - n))%nat (k - (furthest d k - n))); [lia|]. split; [done|]. lia.
Qed.

(** ** The array holds the furthest points *)

(** The array before round [d], and the part of it that is kept. *)
Definition holds (d : nat) (v : list Z) : Prop :=
  Z.of_nat (length v) = 2 * limit a b + 3 ∧
  match d with
  | O => ∀ k, - off a b <= k <= off a b → at_ a b v k = 0
  | S d' => ∀ k, on_round d' k → at_ a b v k = furthest d' k
  end.
Definition keeps (d : nat) (w : list Z) : Prop :=
  match d with
  | O => True
  | S d' => ∀ k, on_round d' k → at_line w (k + Z.of_nat d) = Some (furthest d' k)
  end.

Lemma fresh_holds : holds 0 (fresh_array a b).
Proof.
  pose proof (limit_range a b). unfold holds, fresh_array. rewrite length_replicate. split; [lia|].
  intros k Hk. unfold at_, at_line. rewrite (proj2 (Z.ltb_ge _ 0)) by lia.
  by rewrite lookup_replicate_2 by (unfold off in *; lia).
Qed.

Lemma window_keeps d v w :
  holds d v → (∀ k, - Z.of_nat d <= k <= Z.of_nat d → at_line w (k + Z.of_nat d) = Some (at_ a b v k)) → keeps d w.
Proof.
  intros [_ Hv] Hw. destruct d as [|d]; [done|]. intros k Hk. rewrite Hw by (destruct Hk; lia). by rewrite Hv.
Qed.

Lemma goes_down_ext v w d k :
  (k ≠ - d → v (k - 1) = w (k - 1)) → (k ≠ d → v (k + 1) = w (k + 1)) →
  goes_down v d k = goes_down w d k.
Proof.
  intros H1 H2. unfold goes_down. destruct (Z.eqb_spec k (- d)); [done|]. cbn [orb].
  destruct (Z.eqb_spec k d); [done|]. by rewrite H1, H2.
Qed.

Lemma not_on_round d j : Z.even (j + Z.of_nat d) = false → ¬ on_round d j.
Proof. intros He [_ Ho]. congruence. Qed.

(** A round reads what the round before wrote, though it writes as it reads. *)
Lemma holds_reach d v w k :
  holds d v → Z.of_nat d <= limit a b → length w = length v →
  (∀ j, Z.even (j + Z.of_nat d) = false → - off a b <= j <= off a b → at_ a b w j = at_ a b v j) →
  on_round d k → reached a b w (Z.of_nat d) k = Some (furthest d k).
Proof.
  intros [Hl Hv] Hd Hlw Hw Hk. pose proof (limit_range a b) as H0. rewrite <- Hlw in Hl. destruct d as [|d'].
  - apply on_round_0 in Hk as ->.
    assert (He : enter (at_ a b w) (Z.of_nat 0) 0 = 0).
    { unfold enter. change (goes_down _ (Z.of_nat 0) 0) with true. cbv iota.
      rewrite Hw by (done || unfold off; lia). apply Hv. unfold off; lia. }
    rewrite reached_ok by (done || lia). unfold reach. by rewrite He.
  - assert (Hread : ∀ j, on_round d' j → - off a b <= j <= off a b → at_ a b w j = furthest d' j).
    { intros j Hj Hr. rewrite Hw; [by apply Hv| |done]. apply not_true_iff_false. destruct Hj as [_ He].
      rewrite Z.even_spec in *. destruct He as [q Hq]. intros [r ?]. lia. }
    assert (Hg : goes_down (at_ a b w) (Z.of_nat (S d')) k = goes_down (furthest d') (Z.of_nat (S d')) k).
    { destruct Hk as [Hk He]. apply goes_down_ext; intros Hne; apply Hread; try (unfold off; lia).
      all: split; [|first [by apply even_step|by apply even_step']].
      all: rewrite Z.even_spec in He; destruct He as [q Hq]; lia. }
    assert (He : enter (at_ a b w) (Z.of_nat (S d')) k = enter (furthest d') (Z.of_nat (S d')) k).
    { unfold enter. rewrite Hg. pose proof (proj1 Hk).
      destruct (enter_cases d' k Hk) as [(-> & Hr & _)|(-> & Hr & _)];
        rewrite (Hread _ Hr); [done|unfold off; lia|done|unfold off; lia]. }
    rewrite reached_ok; [|done|apply Hk|done|..]; rewrite ?He.
    1: { cbn [furthest]. unfold reach. by rewrite He. }
    all: destruct (enter_cases d' k Hk) as [(_ & Hr & ->)|(_ & Hr & ->)]; apply furthest_low in Hr as [? ?]; lia.
Qed.

Lemma round_on_holds d v ks w :
  holds d v → Z.of_nat d <= limit a b → (∀ k, k ∈ ks → on_round d k) → length w = length v →
  (∀ j, Z.even (j + Z.of_nat d) = false → - off a b <= j <= off a b → at_ a b w j = at_ a b v j) →
  ∃ found w', round_on a b ks (Z.of_nat d) w = Some (found, w') ∧ length w' = length v ∧
  (found = true → ∃ k, k ∈ ks ∧ at_corner d k) ∧
  (found = false → (∀ k, k ∈ ks → at_ a b w' k = furthest d k ∧ ¬ at_corner d k) ∧
    (∀ j, j ∉ ks → - off a b <= j <= off a b → at_ a b w' j = at_ a b w j)).
Proof.
  intros Hv Hd. revert w. induction ks as [|k ks IH]; intros w Hks Hlen Hw; cbn [round_on].
  { exists false, w. split_and!; [done..|]. intros _. split; [set_solver|done]. }
  pose proof (Hks k ltac:(by left)) as Hk. pose proof (proj1 Hv) as Hl. rewrite <- Hlen in Hl.
  rewrite (holds_reach d v w k Hv Hd Hlen Hw Hk).
  assert (Hrange : ∀ j, on_round d j → - off a b <= j <= off a b) by (intros j [Hj _]; unfold off; lia).
  destruct (store_at_ok a b w k (furthest d k) Hl (Hrange k Hk)) as (w1 & -> & Hl1 & Hat & Hrest).
  destruct (at_end a b k (furthest d k)) eqn:He.
  - exists true, w1. split_and!; [done|congruence| |done]. intros _. exists k. split; [by left|].
    apply andb_true_iff in He as [H1%Z.leb_le H2%Z.leb_le]. by split.
  - destruct (IH w1) as (found & w' & -> & Hl' & Ht & Hf); [intros j Hj; apply Hks; by right|congruence| |].
    { intros j Hj Hr. rewrite Hrest; [by apply Hw| |done]. intros ->. by apply not_on_round in Hj. }
    exists found, w'. split_and!; [done|done| |].
    + intros E. destruct (Ht E) as (j & ? & ?). exists j. split; [by right|done].
    + intros E. destruct (Hf E) as [Hf1 Hf2]. split.
      * intros j Hj. destruct (decide (j ∈ ks)) as [Hin|Hin]; [by apply Hf1|].
        apply elem_of_cons in Hj as [->|Hj]; [|done]. rewrite Hf2 by (done || by apply Hrange).
        split; [done|]. intros (_ & H1 & H2). unfold at_end in He.
        rewrite (proj2 (Z.leb_le _ _) H1), (proj2 (Z.leb_le _ _) H2) in He. done.
      * intros j [Hne Hj]%not_elem_of_cons Hr. rewrite Hf2 by done. by apply Hrest.
Qed.

Lemma diagonals_on_round d k : k ∈ diagonals d ↔ on_round d k.
Proof.
  unfold diagonals, on_round. rewrite list_elem_of_fmap. setoid_rewrite elem_of_seq. rewrite Z.even_spec. split.
  - intros (i & -> & Hi). split; [lia|]. exists (Z.of_nat i). lia.
  - intros [Hk [q Hq]]. exists (Z.to_nat q). lia.
Qed.

Lemma round_holds d v :
  holds d v → Z.of_nat d <= limit a b →
  ∃ found w, round_on a b (diagonals d) (Z.of_nat d) v = Some (found, w) ∧
  (found = true → ∃ k, at_corner d k) ∧ (found = false → holds (S d) w ∧ ∀ k, ¬ at_corner d k).
Proof.
  intros Hv Hd. destruct (round_on_holds d v (diagonals d) v Hv Hd) as (found & w & E & Hl & Ht & Hf);
    [intros k; apply diagonals_on_round|done|done|].
  exists found, w. split; [done|].
  split; [intros Et; destruct (Ht Et) as (k & _ & ?); by exists k|]. intros Ef. destruct (Hf Ef) as [H1 _]. split.
  - split; [rewrite Hl; apply Hv|]. intros k Hk%diagonals_on_round. by apply H1.
  - intros k Hc. assert (k ∈ diagonals d) as Hin by (apply diagonals_on_round; apply Hc). by apply H1 in Hin as [_ ?].
Qed.

Lemma search_from_spec rounds d v trace :
  holds d v → Z.of_nat (d + rounds) <= limit a b + 1 → length trace = d → (∀ i w, trace !! i = Some w → keeps i w) →
  (∀ d' k, (d' < d)%nat → ¬ at_corner d' k) →
  ∃ res, search_from a b rounds d v trace = Some res ∧
  match res with
  | Some (e, trace') =>
      (e < d + rounds)%nat ∧ (∃ k, at_corner e k) ∧ (∀ d' k, (d' < e)%nat → ¬ at_corner d' k) ∧
      (e < length trace')%nat ∧ ∀ i w, trace' !! i = Some w → keeps i w
  | None => ∀ d' k, (d' < d + rounds)%nat → ¬ at_corner d' k
  end.
Proof.
  revert d v trace. induction rounds as [|rounds IH]; intros d v trace Hv Hr Hl Ht Hn; cbn [search_from].
  { exists None. rewrite Nat.add_0_r. done. }
  destruct (slice_ok a b v (Z.of_nat d) (proj1 Hv) ltac:(lia)) as (win & -> & Hwin).
  assert (∀ i w, (trace ++ [win]) !! i = Some w → keeps i w) as Ht'.
  { intros i w Hi. apply lookup_app_Some in Hi as [Hi|[Hi1 Hi2]]; [by apply Ht|].
    apply list_lookup_singleton_Some in Hi2 as [Hi2 <-]. replace i with d by lia. by eapply window_keeps. }
  destruct (round_holds d v Hv ltac:(lia)) as (found & w & -> & Hr1 & Hr2). destruct found.
  - eexists. split; [done|]. cbn iota beta. rewrite length_app. cbn. split; [lia|]. split; [by apply Hr1|]. split; [done|]. split; [lia|done].
  - destruct (Hr2 eq_refl) as [Hw Hc]. specialize (IH (S d) w (trace ++ [win]) Hw).
    rewrite Nat.add_succ_r. apply IH; [lia|rewrite length_app; cbn; lia|done|].
    intros d' k Hd. destruct (decide (d' = d)) as [->|]; [done|]. apply Hn. lia.
Qed.
End furthest.

(** ** The walk back spells a diff *)

Section walk.
Context (a b : list string).
Abbreviation n := (n a).
Abbreviation m := (m b).
Abbreviation upto x l := (take (Z.to_nat x) l).

Lemma match_at_line x y :
  match_at a b x y = true → ∃ s, a !! Z.to_nat x = Some s ∧ b !! Z.to_nat y = Some s ∧ 0 <= x ∧ 0 <= y.
Proof.
  unfold match_at, at_line. destruct (Z.ltb_spec x 0); [done|]. destruct (a !! Z.to_nat x) as [s|]; [|done].
  destruct (Z.ltb_spec y 0); [done|]. destruct (b !! Z.to_nat y) as [t|]; [|done].
  intros ->%String.eqb_eq. by exists t.
Qed.

Lemma upto_snoc (l : list string) x s : 0 <= x → l !! Z.to_nat x = Some s → upto (x + 1) l = upto x l ++ [s].
Proof. intros Hx Hl. replace (Z.to_nat (x + 1)) with (S (Z.to_nat x)) by lia. by apply take_S_r. Qed.

Lemma woven_slide x y x' c r1 r2 :
  0 <= x → 0 <= y → x <= x' → (∀ i, 0 <= i < x' - x → match_at a b (x + i) (y + i) = true) →
  woven c r1 (upto x a) → woven c r2 (upto y b) →
  ∃ c', woven c' r1 (upto x' a) ∧ woven c' r2 (upto (y + (x' - x)) b).
Proof.
  intros Hx Hy Hle Hm H1 H2. remember (Z.to_nat (x' - x)) as s eqn:Hs.
  revert x' Hle Hm Hs. induction s as [|s IH]; intros x' Hle Hm Hs.
  - replace x' with x by lia. rewrite Z.sub_diag, Z.add_0_r. by exists c.
  - destruct (IH (x' - 1)) as (c' & W1 & W2); [lia|intros i Hi; apply Hm; lia|lia|].
    destruct (match_at_line (x' - 1) (y + (x' - 1 - x))) as (t & Ha & Hb & _ & _).
    { rewrite <- (Hm (x' - 1 - x)) by lia. f_equal. lia. }
    exists (c' ++ [t]). split.
    + replace x' with (x' - 1 + 1) by lia. rewrite (upto_snoc a _ t) by (done || lia).
      rewrite <- (app_nil_r r1). apply woven_app; auto.
    + replace (y + (x' - x)) with (y + (x' - 1 - x) + 1) by lia. rewrite (upto_snoc b _ t) by (done || lia).
      rewrite <- (app_nil_r r2). apply woven_app; auto.
Qed.

Lemma at_line_in (l : list string) x : 0 <= x < Z.of_nat (length l) → ∃ s, at_line l x = Some s ∧ l !! Z.to_nat x = Some s.
Proof.
  intros Hx. destruct (lookup_lt_is_Some_2 l (Z.to_nat x)) as [s Hs]; [lia|].
  exists s. unfold at_line. by rewrite (proj2 (Z.ltb_ge x 0)) by lia.
Qed.

(** The walk reads the window of a round as the round did. *)
Lemma keeps_down d v k :
  (∀ k, on_round d k → at_line v (k + Z.of_nat (S d)) = Some (furthest a b d k)) → on_round (S d) k →
  down_into v (Z.of_nat (S d)) (Z.of_nat (S d)) k = Some (goes_down (furthest a b d) (Z.of_nat (S d)) k).
Proof.
  intros Hh [Hk He]. unfold down_into, goes_down. destruct (Z.eqb_spec k (- Z.of_nat (S d))); [done|].
  destruct (Z.eqb_spec k (Z.of_nat (S d))); [done|]. cbn [orb negb andb].
  replace (Z.of_nat (S d) + k - 1) with (k - 1 + Z.of_nat (S d)) by lia.
  replace (Z.of_nat (S d) + k + 1) with (k + 1 + Z.of_nat (S d)) by lia.
  rewrite !Hh; [done|..]; (split; [|first [by apply even_step|by apply even_step']]);
    rewrite Z.even_spec in He; destruct He as [q Hq]; lia.
Qed.

Lemma backtrack_spells trace d k :
  (d < length trace)%nat → (∀ i w, trace !! i = Some w → keeps a b i w) →
  on_round d k → furthest a b d k <= n → furthest a b d k - k <= m →
  ∀ removed added, ∃ r1 r2 c,
    backtrack_loop a b trace d (furthest a b d k) (furthest a b d k - k) removed added =
      Some (removed ++ rev r1, added ++ rev r2) ∧
    woven c r1 (upto (furthest a b d k) a) ∧ woven c r2 (upto (furthest a b d k - k) b) ∧
    (length r1 + length r2 = d)%nat.
Proof.
  intros Hlen Htr. revert k. induction d as [|d IH]; intros k Hk Hx Hy removed added.
  - apply on_round_0 in Hk as ->. destruct (slide_spec a b 0 (0 - 0) ltac:(lia)) as (H1 & H2 & _).
    cbn [furthest backtrack_loop] in *. cbn zeta in *.
    destruct (woven_slide 0 0 (slide a b 0 (0 - 0)) [] [] []) as (c & W1 & W2); [done..|by constructor|by constructor|].
    exists [], [], c. rewrite !app_nil_r. split; [done|]. split; [done|]. split; [|done].
    by replace (slide a b 0 (0 - 0) - 0) with (0 + (slide a b 0 (0 - 0) - 0)) by lia.
  - destruct (lookup_lt_is_Some_2 trace (S d) Hlen) as [v Hv]. pose proof (Htr _ _ Hv) as Hh.
    pose proof (keeps_down d v k Hh Hk) as Hgd.
    set (x := furthest a b (S d) k) in *.
    cbn [backtrack_loop]. rewrite Hv. replace (x - (x - k)) with k by lia. rewrite Hgd.
    pose proof (furthest_enter a b d k Hk) as Hge. fold x in Hge.
    assert (∀ i, 0 <= i < x - enter (furthest a b d) (Z.of_nat (S d)) k →
      match_at a b (enter (furthest a b d) (Z.of_nat (S d)) k + i)
        (enter (furthest a b d) (Z.of_nat (S d)) k - k + i) = true) as Hsl.
    { assert (0 <= enter (furthest a b d) (Z.of_nat (S d)) k) as H0.
      { destruct (enter_cases a b d k Hk) as [(_ & Hr & ->)|(_ & Hr & ->)]; first [apply furthest_low in Hr|pose proof (furthest_low a b _ _ Hr)]; lia. }
      by destruct (slide_spec a b _ (enter (furthest a b d) (Z.of_nat (S d)) k - k) H0) as (_ & H2 & _). }
    destruct (enter_cases a b d k Hk) as [(Hg & Hr & He)|(Hg & Hr & He)]; rewrite Hg; rewrite He in *;
      rewrite (Hh _ Hr); pose proof (furthest_low a b d _ Hr) as [L1 L2]; cbv zeta.
    + set (px := furthest a b d (k + 1)) in *.
      destruct (at_line_in b (px - (k + 1))) as (s & -> & Hs); [unfold LineDiff.m in *; lia|].
      destruct (IH ltac:(lia) (k + 1) Hr ltac:(lia) ltac:(unfold LineDiff.m in *; lia) removed (added ++ [s]))
        as (r1 & r2 & c & HB & W1 & W2 & Hl). fold px in HB, W1, W2.
      destruct (woven_slide px (px - k) x c r1 (r2 ++ [s])) as (c' & V1 & V2); [lia|lia|lia|exact Hsl|exact W1| |].
      { replace (px - k) with (px - (k + 1) + 1) by lia. rewrite (upto_snoc b _ s) by (done || lia).
        rewrite <- (app_nil_r c). apply woven_app; [done|]. apply woven_all. }
      exists r1, (r2 ++ [s]), c'. rewrite HB, rev_app_distr, <- app_assoc, length_app. cbn [length]. split; [done|]. split; [done|].
      split; [|lia]. by replace (x - k) with (px - k + (x - px)) by lia.
    + set (px := furthest a b d (k - 1)) in *.
      destruct (at_line_in a px) as (s & -> & Hs); [unfold LineDiff.n in *; lia|].
      destruct (IH ltac:(lia) (k - 1) Hr ltac:(lia) ltac:(lia) (removed ++ [s]) added)
        as (r1 & r2 & c & HB & W1 & W2 & Hl). fold px in HB, W1, W2.
      destruct (woven_slide (px + 1) (px + 1 - k) x c (r1 ++ [s]) r2) as (c' & V1 & V2); [lia|lia|lia|exact Hsl| | |].
      { rewrite (upto_snoc a _ s) by (done || lia).
        rewrite <- (app_nil_r c). apply woven_app; [done|]. apply woven_all. }
      { by replace (px + 1 - k) with (px - (k - 1)) by lia. }
      exists (r1 ++ [s]), r2, c'. rewrite HB, rev_app_distr, <- app_assoc, length_app. cbn [length]. split; [done|]. split; [done|].
      split; [|lia]. by replace (x - k) with (px + 1 - k + (x - (px + 1))) by lia.
Qed.

(** ** No diff is shorter *)

(** A diff of two prefixes cannot go past the furthest point of as many
    rounds as it has lines of its own. *)
Lemma slide_past d k x :
  on_round d k → x <= furthest a b d k → match_at a b x (x - k) = true → x + 1 <= furthest a b d k.
Proof.
  intros Hk Hx Hm. destruct (decide (x = furthest a b d k)) as [->|]; [exfalso|lia].
  assert (∃ x0, 0 <= x0 ∧ furthest a b d k = slide a b x0 (x0 - k)) as (x0 & H0 & E).
  { destruct d as [|d]; [apply on_round_0 in Hk as ->; by exists 0|]. cbn [furthest]. unfold reach. eexists. split; [|done].
    destruct (enter_cases a b d k Hk) as [(_ & Hr & ->)|(_ & Hr & ->)]; first [apply furthest_low in Hr|pose proof (furthest_low a b _ _ Hr)]; lia. }
  destruct (slide_spec a b x0 (x0 - k) H0) as (_ & _ & Hstop & _). cbn zeta in *. rewrite <- E in Hstop.
  replace (x0 - k + (furthest a b d k - x0)) with (furthest a b d k - k) in Hstop by lia. congruence.
Qed.

Lemma drop_cons (l : list string) (i : nat) x r : drop i l = x :: r → l !! i = Some x ∧ drop (S i) l = r.
Proof.
  intros H. split.
  - rewrite <- (Nat.add_0_r i), <- lookup_drop, H. done.
  - replace (S i) with (i + 1)%nat by lia. by rewrite <- drop_drop, H.
Qed.

Lemma diff_within c r1 r2 l1 l2 :
  woven c r1 l1 → woven c r2 l2 → ∀ (x y : nat) d,
  drop x a = l1 → drop y b = l2 → (x <= length a)%nat → (y <= length b)%nat →
  on_round d (Z.of_nat x - Z.of_nat y) → Z.of_nat x <= furthest a b d (Z.of_nat x - Z.of_nat y) →
  on_round (d + length r1 + length r2) (n - m) ∧ n <= furthest a b (d + length r1 + length r2) (n - m).
Proof.
  intros H1. revert r2 l2. induction H1 as [|s c r1 l1 H1 IH|s c r1 l1 H1 IH]; intros r2 l2 H2.
  - (* only lines of b are left *)
    remember [] as c0 eqn:Ec in H2. induction H2 as [|t c r2 l2 H2 IH2|t c r2 l2 H2 IH2]; intros x y d Hx Hy Lx Ly Hr Hf.
    + apply (f_equal length) in Hx, Hy. rewrite length_drop in Hx, Hy. cbn in Hx, Hy.
      assert (Z.of_nat x = n ∧ Z.of_nat y = m) as [Ex Ey] by (unfold LineDiff.n, LineDiff.m; lia).
      cbn [length]. rewrite !Nat.add_0_r. by rewrite <- Ex, <- Ey.
    + done.
    + apply drop_cons in Hy as [Hy1 Hy2]. apply lookup_lt_Some in Hy1.
      replace (d + length [] + length (t :: r2))%nat with (S d + length (@nil string) + length r2)%nat by (cbn; lia).
      apply (IH2 Ec x (S y)); [done|done|done|lia| |].
      * replace (Z.of_nat x - Z.of_nat (S y)) with (Z.of_nat x - Z.of_nat y - 1) by lia. by apply on_round_left.
      * replace (Z.of_nat x - Z.of_nat (S y)) with (Z.of_nat x - Z.of_nat y - 1) by lia.
        pose proof (furthest_down a b _ _ Hr). lia.
  - (* the next line is shared *)
    remember (s :: c) as c0 eqn:Ec in H2. induction H2 as [|t c' r2 l2 H2 IH2|t c' r2 l2 H2 IH2];
      intros x y d Hx Hy Lx Ly Hr Hf; [done| |].
    + injection Ec as -> ->. apply drop_cons in Hx as [Hx1 Hx2], Hy as [Hy1 Hy2].
      pose proof (lookup_lt_Some _ _ _ Hx1). pose proof (lookup_lt_Some _ _ _ Hy1).
      apply (IH r2 l2 H2 (S x) (S y)); [done|done|lia|lia| |].
      * by replace (Z.of_nat (S x) - Z.of_nat (S y)) with (Z.of_nat x - Z.of_nat y) by lia.
      * replace (Z.of_nat (S x) - Z.of_nat (S y)) with (Z.of_nat x - Z.of_nat y) by lia.
        replace (Z.of_nat (S x)) with (Z.of_nat x + 1) by lia. apply slide_past; [done|done|].
        replace (Z.of_nat x - (Z.of_nat x - Z.of_nat y)) with (Z.of_nat y) by lia.
        unfold match_at, at_line. rewrite !(proj2 (Z.ltb_ge _ 0)) by lia. rewrite !Nat2Z.id, Hx1, Hy1. apply String.eqb_refl.
    + apply drop_cons in Hy as [Hy1 Hy2]. apply lookup_lt_Some in Hy1.
      replace (d + length r1 + length (t :: r2))%nat with (S d + length r1 + length r2)%nat by (cbn; lia).
      apply (IH2 Ec x (S y)); [done|done|done|lia| |].
      * replace (Z.of_nat x - Z.of_nat (S y)) with (Z.of_nat x - Z.of_nat y - 1) by lia. by apply on_round_left.
      * replace (Z.of_nat x - Z.of_nat (S y)) with (Z.of_nat x - Z.of_nat y - 1) by lia.
        pose proof (furthest_down a b _ _ Hr). lia.
  - (* the next line is a's own *)
    intros x y d Hx Hy Lx Ly Hr Hf. apply drop_cons in Hx as [Hx1 Hx2]. apply lookup_lt_Some in Hx1.
    replace (d + length (s :: r1) + length r2)%nat with (S d + length r1 + length r2)%nat by (cbn; lia).
    apply (IH r2 l2 H2 (S x) y); [done|done|lia|done| |].
    + replace (Z.of_nat (S x) - Z.of_nat y) with (Z.of_nat x - Z.of_nat y + 1) by lia. by apply on_round_right.
    + replace (Z.of_nat (S x) - Z.of_nat y) with (Z.of_nat x - Z.of_nat y + 1) by lia.
      pose proof (furthest_right a b _ _ Hr). lia.
Qed.

Lemma diff_corner c r1 r2 :
  woven c r1 a → woven c r2 b → at_corner a b (length r1 + length r2) (n - m).
Proof.
  intros H1 H2. destruct (diff_within c r1 r2 a b H1 H2 0 0 0) as [H3 H4]; [done|done|lia|lia|done| |].
  - by apply furthest_low.
  - cbn [Nat.add] in *. split; [done|]. lia.
Qed.
End walk.

(** ** The diff of two texts *)

Lemma diff_middle_spec a b :
  ∃ r1 r2 exact, diff_middle a b = Some (r1, r2, exact) ∧
  (∃ c, woven c r1 a ∧ woven c r2 b) ∧
  (exact = true → ∀ c' s1 s2, woven c' s1 a → woven c' s2 b → (length r1 + length r2 <= length s1 + length s2)%nat) ∧
  (exact = false → ∀ c' s1 s2, woven c' s1 a → woven c' s2 b →
    maxExactDiffLines < Z.of_nat (length s1 + length s2)).
Proof.
  unfold diff_middle. destruct ((n a =? 0) || (m b =? 0)) eqn:E0.
  - exists a, b, true. split; [done|]. split; [exists []; split; apply woven_all|]. split; [|done].
    intros _ c s1 s2 W1%woven_length W2%woven_length.
    assert (length a = 0%nat ∨ length b = 0%nat) as [?|?]; [|lia|lia].
    unfold n, m in E0. apply orb_true_iff in E0 as [?%Z.eqb_eq|?%Z.eqb_eq]; lia.
  - pose proof (limit_range a b).
    destruct (search_from_spec a b (S (Z.to_nat (limit a b))) 0 (fresh_array a b) [] (fresh_holds a b)
      ltac:(lia) eq_refl ltac:(done) ltac:(lia)) as (res & -> & Hs).
    destruct res as [[d trace]|].
    + destruct Hs as (Hd & [k Hk] & Hfirst & Hlen & Htr).
      destruct (first_corner a b d k Hk Hfirst) as [-> Hx]. destruct Hk as (Hk & _ & _).
      destruct (backtrack_spells a b trace d (n a - m b) Hlen Htr Hk ltac:(lia) ltac:(lia) [] [])
        as (r1 & r2 & c & HB & W1 & W2 & Hl).
      rewrite Hx in HB, W1, W2. replace (n a - (n a - m b)) with (m b) in * by lia.
      exists r1, r2, true. unfold backtrack. rewrite HB. cbn [app]. rewrite !rev_involutive. split; [done|].
      unfold n, m in W1, W2. rewrite Nat2Z.id, firstn_all in W1, W2. split; [by exists c|]. split; [|done].
      intros _ c' s1 s2 V1 V2. pose proof (diff_corner a b c' s1 s2 V1 V2) as Hc.
      destruct (decide (length s1 + length s2 < d)%nat) as [Hlt|]; [|lia]. by apply (Hfirst _ _ Hlt) in Hc.
    + exists a, b, false. split; [done|]. split; [exists []; split; apply woven_all|]. split; [done|].
      intros _ c s1 s2 V1 V2. pose proof (diff_corner a b c s1 s2 V1 V2) as Hc.
      destruct (decide (length s1 + length s2 < 0 + S (Z.to_nat (limit a b)))%nat) as [Hlt|Hge].
      { by apply (Hs _ _ Hlt) in Hc. }
      pose proof (woven_length _ _ _ V1). pose proof (woven_length _ _ _ V2).
      unfold limit, n, m in Hge. destruct (Z.ltb_spec maxExactDiffLines (Z.of_nat (length a) + Z.of_nat (length b))); lia.
Qed.

Lemma lineDiff_woven a b :
  ∃ removed added exact, lineDiff a b = Some (removed, added, exact) ∧
  ∃ common, woven common removed a ∧ woven common added b.
Proof.
  unfold lineDiff. destruct (trim_ends a b) as [a' b'] eqn:Ht.
  destruct (trim_ends_spec _ _ _ _ Ht) as (Hwhole & _).
  destruct (diff_middle_spec a' b') as (r1 & r2 & exact & -> & (c & W1 & W2) & _).
  exists r1, r2, exact. split; [done|]. by destruct (Hwhole c r1 r2 W1 W2) as (c' & ? & ?); exists c'.
Qed.

(** C23. The line diff always answers: no index of the lines, of the search array or
    of the windows of it that the rounds keep is ever out of range, where it would
    panic. The two lists are a diff: the old text and the new one are woven from
    the same shared lines and, respectively, the removed and the added ones. When
    it says it is exact no diff has fewer lines, and when it does not, every diff
    has more than [maxExactDiffLines]. *)
Theorem lineDiff_minimal a b :
  ∃ removed added exact, lineDiff a b = Some (removed, added, exact) ∧
  (∃ common, woven common removed a ∧ woven common added b) ∧
  (exact = true → ∀ c r1 r2, woven c r1 a → woven c r2 b →
     (length removed + length added <= length r1 + length r2)%nat) ∧
  (exact = false → ∀ c r1 r2, woven c r1 a → woven c r2 b →
     maxExactDiffLines < Z.of_nat (length r1 + length r2)).
Proof.
  unfold lineDiff. destruct (trim_ends a b) as [a' b'] eqn:Ht.
  destruct (trim_ends_spec _ _ _ _ Ht) as (Hwhole & Hmin & _ & _).
  destruct (diff_middle_spec a' b') as (r1 & r2 & exact & -> & (c & W1 & W2) & Hex & Hin).
  exists r1, r2, exact. split; [done|]. split; [destruct (Hwhole c r1 r2 W1 W2) as (c' & ? & ?); by exists c'|].
  split; intros E c' s1 s2 V1 V2; destruct (Hmin _ _ _ V1 V2) as (c2 & t1 & t2 & U1 & U2 & Hle).
  - specialize (Hex E _ _ _ U1 U2). lia.
  - specialize (Hin E _ _ _ U1 U2). lia.
Qed.

(** A line that the new text has and the old one has not is an added line. *)
Lemma lineDiff_added a b removed added exact l :
  lineDiff a b = Some (removed, added, exact) → l ∈ b → l ∈ a ∨ l ∈ added.
Proof.
  intros H Hl. destruct (lineDiff_woven a b) as (r1 & r2 & e & H' & c & W1 & W2).
  rewrite H in H'. injection H' as <- <- <-.
  destruct (proj1 (woven_elem _ _ _ l W2) Hl) as [Hc|Hc]; [left|by right]. apply (woven_elem _ _ _ l W1). by left.
Qed.

(** ** Lines and their text *)

Lemma SplitAfter_nonempty sep s : SplitAfter sep s ≠ [].
Proof. destruct s as [|c s]; [done|]. cbn. destruct (Ascii.eqb c sep); [done|]. by destruct (SplitAfter sep s). Qed.

Lemma SplitAfter_concat sep s : String.concat "" (SplitAfter sep s) = s.
Proof.
  induction s as [|c s IH]; [done|]. cbn [SplitAfter]. destruct (Ascii.eqb c sep).
  - by rewrite concat_cons, IH.
  - destruct (SplitAfter sep s) as [|l ls] eqn:E; [by apply SplitAfter_nonempty in E|].
    rewrite concat_cons in *. by rewrite <- IH.
Qed.

Lemma drop_last_concat ls : String.concat "" (drop_last_empty ls) = String.concat "" ls.
Proof.
  induction ls as [|l ls IH]; [done|]. destruct ls as [|x ls].
  - cbn [drop_last_empty]. by destruct (String.eqb_spec l "") as [->|].
  - change (drop_last_empty (l :: x :: ls)) with (l :: drop_last_empty (x :: ls)).
    by rewrite !(concat_cons l), IH.
Qed.

(** The lines of a text, terminators and all, are the text. *)
Lemma splitLines_concat s : String.concat "" (splitLines s) = s.
Proof.
  unfold splitLines. destruct (Z.eqb_spec (len s) 0) as [E|_].
  - destruct s; [done|]. unfold len in E. cbn in E. lia.
  - by rewrite drop_last_concat, SplitAfter_concat.
Qed.
