(* ===== verification/Effects.v ===== *)
(** * [pkg/effects]: the batch an agent proposes and the gates it passes

    [effects.go] (the batch, reading it), [shape.go] ([Validate],
    [ValidateTargets]), [file.go], [comment.go], [protected.go],
    [diagnosis.go] and the vocabulary of a fix ([fix.go]). A slice is an
    [option] of a list where the code tells nil from empty; what an error says
    in words is left out. [fixgate.go] and [edit.go] are in [FixGate] and
    [LineDiff]. *)

From Stdlib Require Import Ascii.
From S2P Require Import Prelude.
From S2P Require Import GoStrings.
From S2P Require Import GoPath.
From S2P Require Import GoUTF8.
From S2P Require Import ScopeGlob.
From S2P Require Import ScopeClass.
From S2P Require Import ScopePolicy.

(** ** The batch ([effects.go]) *)

Abbreviation Kind := string (only parsing).
Definition KindComment : Kind := "comment".
Definition KindLabel : Kind := "label".
Definition KindNewIssue : Kind := "new_issue".
Definition KindFile : Kind := "file".
Definition KindDiagnosis : Kind := "diagnosis".
Definition KindEdit : Kind := "edit".
Definition KindFixMeta : Kind := "fix_meta".
Definition KindScopeRequest : Kind := "scope_request".

Definition knownKinds : list Kind :=
  [KindComment; KindLabel; KindNewIssue; KindFile; KindDiagnosis; KindEdit; KindFixMeta; KindScopeRequest].

Record EvidenceItem := mkEvidence { ev_Job : string; ev_Line : string; ev_Fact : string }.

Record Effect := mkEffect {
  e_Kind : Kind;
  Body : string;
  Add : option (list string);
  Remove : option (list string);
  Title : string;
  e_Path : string;
  Content : string;
  TargetIID : Z;
  TargetType : string;
  Classification : string;
  Summary : string;
  Evidence : option (list EvidenceItem);
  Remedy : string;
  Files : option (list string);
  Old : string;
  New : string;
  Paths : option (list string);
  Reason : string;
}.

Definition effect (k : Kind) : Effect := mkEffect k "" None None "" "" "" 0 "" "" "" None "" None "" "" None "".

(** [EvidenceItem], [Files] and [Paths] as ranges see them. *)
Definition evidence_of (e : Effect) : list EvidenceItem := default [] (Evidence e).
Definition files_of (e : Effect) : list string := default [] (Files e).
Definition paths_of (e : Effect) : list string := default [] (Paths e).

Abbreviation Verdict := string (only parsing).
Definition VerdictReplyOnly : Verdict := "reply-only".
Definition VerdictCodeChange : Verdict := "code-change".
Definition VerdictClose : Verdict := "close".
Definition VerdictFix : Verdict := "fix".
Definition VerdictNeedsScope : Verdict := "needs-scope".
Definition knownVerdicts : list Verdict :=
  [VerdictReplyOnly; VerdictCodeChange; VerdictClose; VerdictFix; VerdictNeedsScope].

Record Batch := mkBatch { b_Effects : list Effect; b_Verdict : Verdict }.

Definition EffectiveVerdict (b : Batch) : Verdict :=
  if String.eqb (b_Verdict b) "" then VerdictReplyOnly else b_Verdict b.

(** A rule over a list with its items' numbers: the first refusal. *)
Fixpoint first_item {A E} (rule : Z → A → option E) (i : Z) (l : list A) : option E :=
  match l with
  | [] => None
  | x :: l => match rule i x with Some r => Some r | None => first_item rule (i + 1) l end
  end.

(** ** Reading a batch ([effects.go]) *)

Definition byte (n : nat) : Ascii.ascii := Ascii.ascii_of_nat n.
Definition quote : Ascii.ascii := byte 34.
Definition backslash : Ascii.ascii := byte 92.

(** What a raw control byte is written as. *)
Definition escaped_control (c : Ascii.ascii) : option string :=
  if Ascii.eqb c newline then Some "\n"
  else if Ascii.eqb c (byte 13) then Some "\r"
  else if Ascii.eqb c (byte 9) then Some "\t"
  else None.

Fixpoint escape_from (inString escaped : bool) (raw : string) : string :=
  match raw with
  | EmptyString => EmptyString
  | String b raw =>
      if negb inString then String b (escape_from (Ascii.eqb b quote) false raw)
      else if escaped then String b (escape_from true false raw)
      else if Ascii.eqb b backslash then String b (escape_from true true raw)
      else if Ascii.eqb b quote then String b (escape_from false false raw)
      else match escaped_control b with
           | Some s => s +:+ escape_from true false raw
           | None => String b (escape_from true false raw)
           end
  end.
Definition escapeRawControlsInStrings (raw : string) : string := escape_from false false raw.

(** What [encoding/json] makes of a text, unknown fields refused: the batch,
    what follows its value, and the keys of the outermost object in order.
    [None]: it does not decode. *)
Class BatchDecoder := { decode : string → option (Batch * string * list string) }.

Fixpoint batchKeyRepeated `{GoUnicode} (seen keys : list string) : bool :=
  match keys with
  | [] => false
  | k :: keys => existsb (λ s, EqualFold s k) seen || batchKeyRepeated (seen ++ [k]) keys
  end.

Definition classificationOrder : list string := ["code"; "test"; "flaky"; "infrastructure"; "configuration"; "unknown"].
Definition Classifications : list string := classificationOrder.

Inductive parse_error :=
| NotDecoded | TrailingData | DuplicateKey
| ParseUnknownKind (effect : Z) (value : string)
| ParseUnknownClassification (effect : Z) (value : string)
| ParseUnknownVerdict (value : string).

Definition unknown_kind (i : Z) (e : Effect) : option parse_error :=
  if negb (contains knownKinds (e_Kind e)) then Some (ParseUnknownKind i (e_Kind e)) else None.
Definition unknown_classification (i : Z) (e : Effect) : option parse_error :=
  if String.eqb (e_Kind e) KindDiagnosis && negb (contains classificationOrder (Classification e))
  then Some (ParseUnknownClassification i (Classification e)) else None.

Definition ParseBatch `{GoUnicode} `{BatchDecoder} (raw : string) : result parse_error Batch :=
  let text := escapeRawControlsInStrings raw in
  match decode text with
  | None => Err NotDecoded
  | Some (b, rest, keys) =>
      if 0 <? len (trim_json rest) then Err TrailingData
      else if batchKeyRepeated [] keys then Err DuplicateKey
      else
        match first_item unknown_kind 0 (b_Effects b) with
        | Some e => Err e
        | None =>
            match first_item unknown_classification 0 (b_Effects b) with
            | Some e => Err e
            | None =>
                if negb (String.eqb (b_Verdict b) "") && negb (contains knownVerdicts (b_Verdict b))
                then Err (ParseUnknownVerdict (b_Verdict b)) else Ok b
            end
        end
  end.

(** ** The denylist ([protected.go]) *)

Definition protectedBase : list string := ["CODEOWNERS"; ".gonk.yml"].
Definition protectedPrefixes : list (string * Class_) :=
  [(".gitlab/", ClassCI); (".github/", ClassCI); (".git/", ClassControl)].
Definition protectedExactPaths : list string := [".gitlab-ci.yml"; ".gitlab-ci.yaml"].

Definition effectPaths (e : Effect) : list string := if String.eqb (e_Path e) "" then [] else [e_Path e].

Inductive protected_what := CIDefinition | ControlFile | ProtectedDirectory.

Definition floorEntry (p : string) : option (Class_ * protected_what) :=
  let clean := Clean p in
  if contains protectedExactPaths clean then Some (ClassCI, CIDefinition)
  else if contains protectedBase (Base clean) then Some (ClassControl, ControlFile)
  else match List.find (λ '(pfx, _), HasPrefix clean pfx) protectedPrefixes with
       | Some (_, class) => Some (class, ProtectedDirectory)
       | None => None
       end.
Definition floorClass (p : string) : Class_ := match floorEntry p with Some (c, _) => c | None => "" end.

(** Whether a lift opens an entry for this very path. *)
Definition lifted (class : Class_) (p : string) (lift : Lift) : bool :=
  String.eqb class ClassCI && Has lift ClassCI && String.eqb (Builtin p) ClassCI.

Fixpoint first_protected (ps : list string) (lift : Lift) : option (string * protected_what) :=
  match ps with
  | [] => None
  | p :: ps =>
      match floorEntry p with
      | None => first_protected ps lift
      | Some (class, what) => if lifted class p lift then first_protected ps lift else Some (p, what)
      end
  end.
Definition protectedPath (e : Effect) (lift : Lift) : option (string * protected_what) :=
  first_protected (effectPaths e) lift.

Definition protected_rule (lift : Lift) (i : Z) (e : Effect) : option (Z * string * protected_what) :=
  match protectedPath e lift with Some (p, what) => Some (i, p, what) | None => None end.
Definition ValidateProtectedPathsWithLift (b : Batch) (lift : Lift) : option (Z * string * protected_what) :=
  first_item (protected_rule lift) 0 (b_Effects b).
Definition ValidateProtectedPaths (b : Batch) : option (Z * string * protected_what) :=
  ValidateProtectedPathsWithLift b Lift_zero.

(** ** Whole files ([file.go]) *)

Definition AgentDirPrefix : string := ".agent/".
Definition MaxFileBytes : Z := 65536.
Definition MaxBatchBytes : Z := 262144.

Inductive path_error :=
| Protected (i : Z) (p : string) (what : protected_what)
| NoPath (i : Z) | NotCanonical (i : Z) (p : string) | Absolute (i : Z) (p : string)
| OutsideAgentDir (i : Z) (p : string) | DuplicatePath (i : Z) (p : string)
| FileTooLarge (i : Z) (p : string) (n : Z) | BatchTooLarge.

Fixpoint validate_files `{GoUnicode} (i : Z) (seen : gset string) (total : Z) (es : list Effect) : option path_error :=
  match es with
  | [] => None
  | e :: es =>
      if negb (String.eqb (e_Kind e) KindFile) then validate_files (i + 1) seen total es
      else if String.eqb (TrimSpace (e_Path e)) "" then Some (NoPath i)
      else
        let clean := Clean (e_Path e) in
        if negb (String.eqb clean (e_Path e)) then Some (NotCanonical i (e_Path e))
        else if IsAbs clean then Some (Absolute i (e_Path e))
        else if negb (HasPrefix clean AgentDirPrefix) then Some (OutsideAgentDir i (e_Path e))
        else if decide (clean ∈ seen) then Some (DuplicatePath i (e_Path e))
        else if MaxFileBytes <? len (Content e) then Some (FileTooLarge i (e_Path e) (len (Content e)))
        else
          let total := total + len (Content e) in
          if MaxBatchBytes <? total then Some BatchTooLarge
          else validate_files (i + 1) ({[ clean ]} ∪ seen) total es
  end.

Definition ValidatePaths `{GoUnicode} (b : Batch) : option path_error :=
  match ValidateProtectedPaths b with
  | Some (i, p, what) => Some (Protected i p what)
  | None => validate_files 0 ∅ 0 (b_Effects b)
  end.

Record FileWrite := mkFileWrite { fw_Path : string; fw_Content : string }.

Definition FileWrites (b : Batch) : list FileWrite :=
  map (λ e, mkFileWrite (e_Path e) (Content e)) (List.filter (λ e, String.eqb (e_Kind e) KindFile) (b_Effects b)).

(** ** Comments ([comment.go]) *)

Definition MaxCommentBytes : Z := 65536.

(** [unicode.IsLetter] outside ASCII. *)
Class GoLetters := { unicode_is_letter : Z → bool }.

Definition IsLetter `{GoLetters} (r : Z) : bool :=
  if r <? 128 then between 65 90 r || between 97 122 r else unicode_is_letter r.

Definition isQuickActionLine `{GoLetters} (trimmed : string) : bool :=
  match trimmed with
  | EmptyString => false
  | String c rest =>
      if negb (Ascii.eqb c slash) then false
      else match pieces rest with
           | [] => false
           | p :: _ => match pc_rune p with None => false | Some r => IsLetter r end
           end
  end.

Inductive comment_error := CommentTooLong (i n : Z) | QuickAction (i : Z) (line : string).

Definition comment_rule `{GoUnicode} `{GoLetters} (i : Z) (e : Effect) : option comment_error :=
  if negb (String.eqb (e_Kind e) KindComment) then None
  else if MaxCommentBytes <? len (Body e) then Some (CommentTooLong i (len (Body e)))
  else match List.find isQuickActionLine (map TrimSpace (Split newline (Body e))) with
       | Some line => Some (QuickAction i line)
       | None => None
       end.
Definition ValidateComments `{GoUnicode} `{GoLetters} (b : Batch) : option comment_error :=
  first_item comment_rule 0 (b_Effects b).

(** ** The vocabulary of a fix ([fix.go]) *)

Definition MaxFixEdits : Z := 10.
Definition MaxFixReasonChars : Z := 600.
Definition MaxScopeRequestPaths : Z := 5.
Definition MaxScopeRequestReasonChars : Z := 600.

Abbreviation Rule := string (only parsing).
Definition RuleFixShape : Rule := "FX-SHAPE".
Definition RuleForm : Rule := "SC-FORM".
Definition RuleProtected : Rule := "SC-PROT".
Definition RuleClass : Rule := "SC-CLASS".
Definition RuleCited : Rule := "SC-CITED".
Definition RuleBead : Rule := "SC-BEAD".
Definition RuleSize : Rule := "SC-SIZE".
Definition RuleSecret : Rule := "SC-SECRET".
Definition RuleEditMissing : Rule := "ED-MISSING".
Definition RuleEditEncoding : Rule := "ED-ENCODING".
Definition RuleEditNoMatch : Rule := "ED-NOMATCH".
Definition RuleEditAmbiguous : Rule := "ED-AMBIGUOUS".
Definition RuleEditEmpties : Rule := "ED-EMPTIES".
Definition RuleEditNoop : Rule := "ED-NOOP".

Definition Rules : list Rule :=
  [RuleFixShape; RuleForm; RuleProtected; RuleClass; RuleCited; RuleBead; RuleSize; RuleSecret;
   RuleEditMissing; RuleEditEncoding; RuleEditNoMatch; RuleEditAmbiguous; RuleEditEmpties; RuleEditNoop].

(** [Refusal] without its text: the rule, its sub code, the effect's number or
    -1, the path. *)
Record Refusal := mkRefusal { rf_Rule : Rule; rf_Sub : string; rf_Effect : Z; rf_Path : string }.

Definition Code (r : Refusal) : string :=
  if String.eqb (rf_Sub r) "" then rf_Rule r else rf_Rule r +:+ "(" +:+ rf_Sub r +:+ ")".

Definition count_kind (k : Kind) (es : list Effect) : Z :=
  Z.of_nat (length (List.filter (λ e, String.eqb (e_Kind e) k) es)).

Definition batch_refusal (sub : string) : option Refusal := Some (mkRefusal RuleFixShape sub (-1) "").

Definition verdictKindRule (b : Batch) : option Refusal :=
  let edits := count_kind KindEdit (b_Effects b) in
  let metas := count_kind KindFixMeta (b_Effects b) in
  let requests := count_kind KindScopeRequest (b_Effects b) in
  if String.eqb (b_Verdict b) VerdictFix then
    if 0 <? requests then batch_refusal "fix-with-request"
    else if edits =? 0 then batch_refusal "fix-needs-edit"
    else if negb (metas =? 1) then batch_refusal "fix-needs-meta"
    else None
  else if String.eqb (b_Verdict b) VerdictNeedsScope then
    if 0 <? edits then batch_refusal "needs-scope-with-edit"
    else if 0 <? metas then batch_refusal "needs-scope-with-meta"
    else if negb (requests =? 1) then batch_refusal "needs-scope-needs-request"
    else None
  else if 0 <? edits then batch_refusal "edit-needs-fix"
  else if 0 <? metas then batch_refusal "meta-needs-fix"
  else if 0 <? requests then batch_refusal "request-needs-needs-scope"
  else None.

(** The fields of an effect in the order of the struct, each with whether it
    is zero ([reflect.Value.IsZero]: an empty slice that is not nil is not). *)
Definition is_nil {A} (o : option A) : bool := match o with None => true | Some _ => false end.
Definition empty (s : string) : bool := String.eqb s "".

Definition fields (e : Effect) : list (string * bool) :=
  [("Kind", empty (e_Kind e)); ("Body", empty (Body e)); ("Add", is_nil (Add e)); ("Remove", is_nil (Remove e));
   ("Title", empty (Title e)); ("Path", empty (e_Path e)); ("Content", empty (Content e));
   ("TargetIID", TargetIID e =? 0); ("TargetType", empty (TargetType e));
   ("Classification", empty (Classification e)); ("Summary", empty (Summary e)); ("Evidence", is_nil (Evidence e));
   ("Remedy", empty (Remedy e)); ("Files", is_nil (Files e)); ("Old", empty (Old e)); ("New", empty (New e));
   ("Paths", is_nil (Paths e)); ("Reason", empty (Reason e))].

Definition fixKindFields (k : Kind) : option (list string) :=
  if String.eqb k KindEdit then Some ["Path"; "Old"; "New"]
  else if String.eqb k KindFixMeta then Some ["Reason"]
  else if String.eqb k KindScopeRequest then Some ["Paths"; "Reason"]
  else None.

Definition targetFields : list string := ["TargetIID"; "TargetType"].

Definition foreignTo (e : Effect) (own : list string) : option string :=
  match List.find (λ '(name, zero),
    negb (String.eqb name "Kind" || contains own name || contains targetFields name) && negb zero) (fields e) with
  | Some (name, _) => Some name
  | None => None
  end.
Definition foreignField (e : Effect) : option string := foreignTo e (default [] (fixKindFields (e_Kind e))).

(** [utf8.Valid]. *)
Definition utf8_Valid (s : string) : bool := forallb (λ p, negb (is_nil (pc_rune p))) (pieces s).

Definition cleanRelativePath (p : string) : bool :=
  if String.eqb p "" || ContainsAny p is_nul || HasPrefix p "/" then false
  else if existsb (String.eqb "..") (Split slash p) then false
  else String.eqb (Clean p) p && negb (String.eqb p ".").

Definition editForm (i : Z) (e : Effect) : option Refusal :=
  let refuse sub := Some (mkRefusal RuleForm sub i (e_Path e)) in
  if negb (cleanRelativePath (e_Path e)) then refuse "path"
  else if String.eqb (Old e) "" then refuse "old-empty"
  else if String.eqb (Old e) (New e) then refuse "identical"
  else if ContainsAny (Old e) is_nul || ContainsAny (New e) is_nul then refuse "nul"
  else if negb (utf8_Valid (Old e)) || negb (utf8_Valid (New e)) then refuse "utf8"
  else None.

Definition fixEffectShape `{GoUnicode} (i : Z) (e : Effect) : option Refusal :=
  let refuse sub := Some (mkRefusal RuleFixShape sub i "") in
  match fixKindFields (e_Kind e) with
  | None => refuse "kind"
  | Some _ =>
      match foreignField e with
      | Some _ => refuse "foreign-field"
      | None =>
          if String.eqb (e_Kind e) KindEdit then editForm i e
          else if String.eqb (e_Kind e) KindFixMeta then
            if String.eqb (TrimSpace (Reason e)) "" then refuse "reason-empty"
            else if MaxFixReasonChars <? RuneCount (Reason e) then refuse "reason-cap"
            else None
          else if String.eqb (e_Kind e) KindScopeRequest then
            if MaxScopeRequestPaths <? Z.of_nat (length (paths_of e)) then refuse "paths-count"
            else if negb (forallb cleanRelativePath (paths_of e)) then refuse "paths-form"
            else if String.eqb (TrimSpace (Reason e)) "" then refuse "reason-empty"
            else if MaxScopeRequestReasonChars <? RuneCount (Reason e) then refuse "reason-cap"
            else None
          else None
      end
  end.

(** A rule over the effects with their numbers: every refusal. *)
Fixpoint all_effects {E} (rule : Z → Effect → option E) (i : Z) (es : list Effect) : list E :=
  match es with
  | [] => []
  | e :: es => option_list (rule i e) ++ all_effects rule (i + 1) es
  end.

Definition fixShapeViolations `{GoUnicode} (b : Batch) : list Refusal :=
  (if negb (String.eqb (b_Verdict b) VerdictFix) && negb (String.eqb (b_Verdict b) VerdictNeedsScope)
   then option_list (batch_refusal "verdict") else option_list (verdictKindRule b)) ++
  (if MaxFixEdits <? count_kind KindEdit (b_Effects b) then option_list (batch_refusal "edit-count") else []) ++
  all_effects fixEffectShape 0 (b_Effects b).

Definition ValidateFix `{GoUnicode} (b : Batch) : option Refusal := head (fixShapeViolations b).

(** ** The shape of an agent's batch ([shape.go]) *)

(** The largest [int]. *)
Definition N : Z := MaxInt64.

Record Card := mkCard { Min : Z; Max : Z }.
(** [Shape.Kinds]. *)
Abbreviation Shape := (gmap string Card) (only parsing).

Inductive shape_error :=
| KindForbidden (k : Kind) (n : Z) | TooMany (k : Kind) (n max : Z) | TooFew (k : Kind) (n min : Z)
| VerdictKind (r : Refusal).

Definition count_effect (counts : gmap string Z) (e : Effect) : gmap string Z :=
  <[e_Kind e := default 0 (counts !! e_Kind e) + 1]> counts.
Definition kind_counts (b : Batch) : gmap string Z := fold_left count_effect (b_Effects b) ∅.

Definition over_max (s : Shape) (kn : string * Z) : option shape_error :=
  match s !! kn.1 with
  | None => Some (KindForbidden kn.1 kn.2)
  | Some card => if Max card <? kn.2 then Some (TooMany kn.1 kn.2 (Max card)) else None
  end.
Definition under_min (s : Shape) (counts : gmap string Z) (k : string) : option shape_error :=
  let n := default 0 (counts !! k) in
  let min := match s !! k with Some card => Min card | None => 0 end in
  if n <? min then Some (TooFew k n min) else None.

(** The first of a list that a test refuses. *)
Definition shape_Validate `{MapRange} (b : Batch) (s : Shape) : option shape_error :=
  let counts := kind_counts b in
  match first_of (over_max s) (range_map counts) with
  | Some e => Some e
  | None =>
      match first_of (under_min s counts) (sort_strings (range_map s).*1) with
      | Some e => Some e
      | None => match verdictKindRule b with Some r => Some (VerdictKind r) | None => None end
      end
  end.

(** ** Targets ([shape.go]) *)

Abbreviation TargetKind := string (only parsing).
Definition TargetIssue : TargetKind := "issue".
Definition TargetMergeRequest : TargetKind := "merge_request".
Definition TargetPipeline : TargetKind := "pipeline".
Definition knownTargetKinds : list TargetKind := [TargetIssue; TargetMergeRequest; TargetPipeline].

Record Targets := mkTargets { Issues : gset Z; MergeRequests : gset Z; Pipelines : gset Z }.

Definition targets_has (t : Targets) (k : TargetKind) (iid : Z) : bool :=
  if String.eqb k TargetIssue then bool_decide (iid ∈ Issues t)
  else if String.eqb k TargetMergeRequest then bool_decide (iid ∈ MergeRequests t)
  else if String.eqb k TargetPipeline then bool_decide (iid ∈ Pipelines t)
  else false.

Definition effectTargetKinds (k : Kind) : list TargetKind :=
  if String.eqb k KindComment || String.eqb k KindLabel || String.eqb k KindNewIssue then [TargetIssue]
  else if String.eqb k KindDiagnosis then [TargetPipeline]
  else [].

Inductive target_error :=
| UnknownTargetType (i : Z) (t : string) | TypeWithoutIID (i : Z) (t : string) | NoTargets (i : Z)
| WrongTargetKind (i : Z) (t : string) | NotInjected (i : Z) (t : string) (iid : Z).

Definition target_rule (allowed : Targets) (i : Z) (e : Effect) : option target_error :=
  if negb (empty (TargetType e)) && negb (contains knownTargetKinds (TargetType e))
  then Some (UnknownTargetType i (TargetType e))
  else if TargetIID e =? 0 then
    if negb (empty (TargetType e)) then Some (TypeWithoutIID i (TargetType e)) else None
  else
    match effectTargetKinds (e_Kind e) with
    | [] => Some (NoTargets i)
    | k0 :: _ =>
        let tk := if empty (TargetType e) then k0 else TargetType e in
        if negb (existsb (λ k, String.eqb k tk) (effectTargetKinds (e_Kind e))) then Some (WrongTargetKind i tk)
        else if negb (targets_has allowed tk (TargetIID e)) then Some (NotInjected i tk (TargetIID e))
        else None
    end.
Definition ValidateTargets (b : Batch) (allowed : Targets) : option target_error :=
  first_item (target_rule allowed) 0 (b_Effects b).

(** ** A pipeline's diagnosis ([diagnosis.go]) *)

Definition classesRequiringFiles : list string := ["code"; "test"; "configuration"].
Definition FactPipelineError : string := "pipeline_error".
Definition factOrder : list string :=
  ["failure_reason"; "runner"; "tags"; "stage"; "allow_failure"; "duration"; "history"; "definition"; FactPipelineError].
Definition ClassesRequiringFiles : list string := List.filter (contains classesRequiringFiles) classificationOrder.

Definition MaxDiagnosisSummaryChars : Z := 1500.
Definition MaxDiagnosisRemedyChars : Z := 1500.
Definition MinDiagnosisEvidence : Z := 1.
Definition MaxDiagnosisEvidence : Z := 8.
Definition MaxDiagnosisFiles : Z := 10.

Definition diagnosisFields : list string := ["Classification"; "Summary"; "Evidence"; "Remedy"; "Files"].

Record FailedJob := mkFailedJob { fj_Name : string; HasExcerpt : bool }.
(** [DiagnosisContext.FailedJobs]. *)
Abbreviation DiagnosisContext := (list FailedJob) (only parsing).
Definition JobNames (c : DiagnosisContext) : list string := map fj_Name c.

Inductive diagnosis_error :=
| ErrDiagnosisForeignField (f : string) | ErrDiagnosisClassification | ErrDiagnosisSummaryEmpty
| ErrDiagnosisSummaryTooLong | ErrDiagnosisRemedyEmpty | ErrDiagnosisRemedyTooLong | ErrDiagnosisEvidenceCount
| ErrDiagnosisEvidenceShape (item : Z) | ErrDiagnosisEvidenceFact (item : Z) | ErrDiagnosisEvidenceJob (item : Z)
| ErrDiagnosisNoLineEvidence | ErrDiagnosisFileCount | ErrDiagnosisFilePath (item : Z) | ErrDiagnosisFilesRequired.

Definition has_line `{GoUnicode} (ev : EvidenceItem) : bool := negb (empty (TrimSpace (ev_Line ev))).
Definition has_fact (ev : EvidenceItem) : bool := negb (empty (ev_Fact ev)).
Definition pipeline_level (ev : EvidenceItem) : bool :=
  has_fact ev && String.eqb (ev_Fact ev) FactPipelineError && empty (ev_Job ev).

Definition evidence_rule `{GoUnicode} (jobs : list string) (k : Z) (ev : EvidenceItem) : option diagnosis_error :=
  let blankLine := negb (empty (ev_Line ev)) && negb (has_line ev) in
  if blankLine || Bool.eqb (has_line ev) (has_fact ev) then Some (ErrDiagnosisEvidenceShape k)
  else if has_fact ev && negb (contains factOrder (ev_Fact ev)) then Some (ErrDiagnosisEvidenceFact k)
  else if negb (pipeline_level ev) && negb (contains jobs (ev_Job ev)) then Some (ErrDiagnosisEvidenceJob k)
  else None.

Definition file_rule (k : Z) (f : string) : option diagnosis_error :=
  if negb (cleanRelativePath f) then Some (ErrDiagnosisFilePath k) else None.

Definition validateDiagnosis `{GoUnicode} (e : Effect) (jobs : list string) (anyExcerpt : bool) : option diagnosis_error :=
  match foreignTo e diagnosisFields with
  | Some f => Some (ErrDiagnosisForeignField f)
  | None =>
      if negb (contains classificationOrder (Classification e)) then Some ErrDiagnosisClassification
      else if empty (TrimSpace (Summary e)) then Some ErrDiagnosisSummaryEmpty
      else if MaxDiagnosisSummaryChars <? RuneCount (Summary e) then Some ErrDiagnosisSummaryTooLong
      else if empty (TrimSpace (Remedy e)) then Some ErrDiagnosisRemedyEmpty
      else if MaxDiagnosisRemedyChars <? RuneCount (Remedy e) then Some ErrDiagnosisRemedyTooLong
      else
        let n := Z.of_nat (length (evidence_of e)) in
        if (n <? MinDiagnosisEvidence) || (MaxDiagnosisEvidence <? n) then Some ErrDiagnosisEvidenceCount
        else
          match first_item (evidence_rule jobs) 0 (evidence_of e) with
          | Some err => Some err
          | None =>
              if anyExcerpt && negb (existsb has_line (evidence_of e)) then Some ErrDiagnosisNoLineEvidence
              else if MaxDiagnosisFiles <? Z.of_nat (length (files_of e)) then Some ErrDiagnosisFileCount
              else
                match first_item file_rule 0 (files_of e) with
                | Some err => Some err
                | None =>
                    if contains classesRequiringFiles (Classification e) && (length (files_of e) =? 0)%nat
                    then Some ErrDiagnosisFilesRequired else None
                end
          end
  end.

Definition diagnosis_rule `{GoUnicode} (jobs : list string) (anyExcerpt : bool) (i : Z) (e : Effect) :
    option (Z * diagnosis_error) :=
  if negb (String.eqb (e_Kind e) KindDiagnosis) then None
  else match validateDiagnosis e jobs anyExcerpt with Some err => Some (i, err) | None => None end.
Definition ValidateDiagnosis `{GoUnicode} (b : Batch) (ctx : DiagnosisContext) : option (Z * diagnosis_error) :=
  first_item (diagnosis_rule (JobNames ctx) (existsb HasExcerpt ctx)) 0 (b_Effects b).

Record DiagnosisLine := mkDiagnosisLine { dl_Effect : Z; dl_Item : Z; dl_Job : string; dl_Line : string }.

Fixpoint evidence_lines (i k : Z) (evs : list EvidenceItem) : list DiagnosisLine :=
  match evs with
  | [] => []
  | ev :: evs =>
      (if empty (ev_Line ev) then [] else [mkDiagnosisLine i k (ev_Job ev) (ev_Line ev)]) ++ evidence_lines i (k + 1) evs
  end.
Fixpoint lines_from (i : Z) (es : list Effect) : list DiagnosisLine :=
  match es with
  | [] => []
  | e :: es =>
      (if String.eqb (e_Kind e) KindDiagnosis then evidence_lines i 0 (evidence_of e) else []) ++ lines_from (i + 1) es
  end.
Definition DiagnosisLines (b : Batch) : list DiagnosisLine := lines_from 0 (b_Effects b).

(** ** What the next attempt is told ([feedback.go]): the one untrusted word *)

Definition MaxTokenBytes : Z := 32.

Definition token_byte (c : Ascii.ascii) : bool :=
  in_range 97 122 c || in_range 65 90 c || is_digit c || Ascii.eqb c "_" || Ascii.eqb c "." || Ascii.eqb c "-".

Fixpoint map_bytes (f : Ascii.ascii → Ascii.ascii) (s : string) : string :=
  match s with EmptyString => EmptyString | String c s => String (f c) (map_bytes f s) end.

Definition Token (s : string) : string :=
  let cut := MaxTokenBytes <? len s in
  let s := if cut then String.substring 0 (Z.to_nat MaxTokenBytes) s else s in
  String quote (map_bytes (λ c, if token_byte c then c else "?"%char) s) +:+
  String quote (if cut then " (cut)" else "").

(** ** Lemmas *)

Lemma first_item_none {A E} (rule : Z → A → option E) i l :
  first_item rule i l = None ↔ ∀ k x, l !! k = Some x → rule (i + Z.of_nat k) x = None.
Proof.
  revert i. induction l as [|x l IH]; intros i; cbn [first_item]; [done|]. split.
  - destruct (rule i x) eqn:Hr; [done|]. intros H [|k] y Hk; cbn in Hk.
    + injection Hk as <-. by rewrite Z.add_0_r.
    + replace (i + Z.of_nat (S k)) with (i + 1 + Z.of_nat k) by lia. by apply IH.
  - intros H. pose proof (H 0%nat x eq_refl) as H0. rewrite Z.add_0_r in H0. rewrite H0. apply IH. intros k y Hk.
    replace (i + 1 + Z.of_nat k) with (i + Z.of_nat (S k)) by lia. by apply H.
Qed.

(** When the number does not matter to the answer. *)
Lemma first_item_forall {A E} (rule : Z → A → option E) (P : A → Prop) i l :
  (∀ k x, rule k x = None ↔ P x) → first_item rule i l = None ↔ Forall P l.
Proof.
  intros HP. rewrite first_item_none, Forall_lookup. split; intros H k x Hk; [by eapply HP, H|by apply HP, (H k)].
Qed.

(** A chain of guards passes when each does. *)
Lemma guard_none {E} (c : bool) (e : E) x : (if c then Some e else x) = None ↔ c = false ∧ x = None.
Proof. destruct c; naive_solver. Qed.
Lemma rule_none {E} (o x : option E) : match o with Some e => Some e | None => x end = None ↔ o = None ∧ x = None.
Proof. destruct o; naive_solver. Qed.
Lemma match_none {A E} (o : option A) (f : A → E) x :
  match o with Some y => Some (f y) | None => x end = None ↔ o = None ∧ x = None.
Proof. destruct o; naive_solver. Qed.

Lemma all_effects_nil {E} (rule : Z → Effect → option E) i es :
  all_effects rule i es = [] ↔ first_item rule i es = None.
Proof.
  revert i. induction es as [|e es IH]; intros i; cbn [all_effects first_item]; [done|].
  destruct (rule i e); cbn; [done|]. apply IH.
Qed.

(** ** Reading raw control bytes *)

(** A text with no raw control byte where [escape_from] would write one. *)
Fixpoint no_raw_controls (inString escaped : bool) (s : string) : bool :=
  match s with
  | EmptyString => true
  | String b s =>
      if negb inString then no_raw_controls (Ascii.eqb b quote) false s
      else if escaped then no_raw_controls true false s
      else if Ascii.eqb b backslash then no_raw_controls true true s
      else if Ascii.eqb b quote then no_raw_controls false false s
      else is_nil (escaped_control b) && no_raw_controls true false s
  end.

Lemma escape_identity ins esc s : no_raw_controls ins esc s = true → escape_from ins esc s = s.
Proof.
  revert ins esc. induction s as [|b s IH]; intros ins esc; cbn [no_raw_controls escape_from]; [done|].
  destruct (negb ins); [intros H; by rewrite IH|]. destruct esc; [intros H; by rewrite IH|].
  destruct (Ascii.eqb b backslash); [intros H; by rewrite IH|].
  destruct (Ascii.eqb b quote); [intros H; by rewrite IH|].
  destruct (escaped_control b); cbn; [done|]. intros H. by rewrite IH.
Qed.

Lemma escape_clean ins esc s : no_raw_controls ins esc (escape_from ins esc s) = true.
Proof.
  revert ins esc. induction s as [|b s IH]; intros ins esc; cbn [escape_from]; [done|].
  destruct ins; cbn [negb].
  - destruct esc; [cbn; apply IH|]. destruct (Ascii.eqb b backslash) eqn:Hb.
    { cbn [no_raw_controls negb]. rewrite Hb. apply IH. }
    destruct (Ascii.eqb b quote) eqn:Hq; [cbn [no_raw_controls negb]; rewrite Hb, Hq; apply IH|].
    destruct (escaped_control b) as [t|] eqn:He.
    + unfold escaped_control in He.
      repeat match goal with E : (if ?c then _ else _) = Some _ |- _ => destruct c end; simplify_eq; cbn; apply IH.
    + cbn [no_raw_controls negb]. rewrite Hb, Hq, He. apply IH.
  - cbn [no_raw_controls negb]. apply IH.
Qed.

(** Text without a raw control byte inside a string, which valid JSON is, is
    left as it is; every result is such a text, so rewriting twice is
    rewriting once. *)
Theorem escape_normal_form raw :
  (no_raw_controls false false raw = true → escapeRawControlsInStrings raw = raw) ∧
  no_raw_controls false false (escapeRawControlsInStrings raw) = true ∧
  escapeRawControlsInStrings (escapeRawControlsInStrings raw) = escapeRawControlsInStrings raw.
Proof.
  unfold escapeRawControlsInStrings. split; [apply escape_identity|]. split; [apply escape_clean|].
  apply escape_identity, escape_clean.
Qed.

(** ** Whole files *)

Section files.
Context `{GoUnicode}.

Definition file_effects (es : list Effect) : list Effect := List.filter (λ e, String.eqb (e_Kind e) KindFile) es.

(** What [ValidatePaths] asks of one file. *)
Definition file_ok (e : Effect) : Prop :=
  TrimSpace (e_Path e) ≠ "" ∧ Clean (e_Path e) = e_Path e ∧ IsAbs (e_Path e) = false ∧
  HasPrefix (e_Path e) AgentDirPrefix = true ∧ len (Content e) <= MaxFileBytes.

Definition total_bytes (es : list Effect) : Z := fold_right (λ e n, len (Content e) + n) 0 es.

Lemma total_bytes_nonneg es : 0 <= total_bytes es.
Proof.
  induction es as [|e es IH]; [done|]. change (0 <= len (Content e) + total_bytes es). unfold len. lia.
Qed.

Lemma validate_files_none i seen total es :
  total <= MaxBatchBytes →
  validate_files i seen total es = None ↔
  Forall file_ok (file_effects es) ∧ NoDup (map e_Path (file_effects es)) ∧
  (∀ p, p ∈ map e_Path (file_effects es) → p ∉ seen) ∧ total + total_bytes (file_effects es) <= MaxBatchBytes.
Proof.
  revert i seen total. induction es as [|e es IH]; intros i seen total Ht; cbn [validate_files file_effects List.filter].
  { cbn. split; [|done]. intros _. repeat split; [constructor|constructor|set_solver|lia]. }
  destruct (String.eqb (e_Kind e) KindFile); cbn [negb]; [|by apply IH].
  fold (file_effects es). rewrite Forall_cons. cbn [map]. rewrite NoDup_cons. cbn [total_bytes fold_right].
  fold (total_bytes (file_effects es)). pose proof (total_bytes_nonneg (file_effects es)). unfold file_ok at 1.
  destruct (String.eqb_spec (TrimSpace (e_Path e)) ""); [split; [done|tauto]|].
  destruct (String.eqb_spec (Clean (e_Path e)) (e_Path e)) as [->|]; cbn [negb]; [|split; [done|tauto]].
  destruct (IsAbs (e_Path e)); [split; [done|naive_solver]|].
  destruct (HasPrefix (e_Path e) AgentDirPrefix); cbn [negb]; [|split; [done|naive_solver]].
  destruct (decide (e_Path e ∈ seen)) as [Hin|Hin].
  { split; [done|]. intros (_ & _ & Hs & _). by destruct (Hs (e_Path e) ltac:(by left)). }
  destruct (Z.ltb_spec MaxFileBytes (len (Content e))).
  { split; [done|]. intros (((_ & _ & _ & _ & ?) & _) & _). lia. }
  destruct (Z.ltb_spec MaxBatchBytes (total + len (Content e))).
  { split; [done|]. intros (_ & _ & _ & ?). lia. }
  rewrite IH by done. split.
  - intros (Hf & Hnd & Hs & Hb). repeat split; [done..|set_solver|done|set_solver|lia].
  - intros ((_ & Hf) & (Hx & Hnd) & Hs & Hb). repeat split; [done|done|set_solver|lia].
Qed.
End files.

(** ** The denylist *)

Lemma protectedPath_none e lift :
  protectedPath e lift = None ↔
  ∀ class what, e_Path e ≠ "" → floorEntry (e_Path e) = Some (class, what) → lifted class (e_Path e) lift = true.
Proof.
  unfold protectedPath, effectPaths. destruct (String.eqb_spec (e_Path e) "") as [->|Hne]; cbn [first_protected].
  { split; [done|]. done. }
  destruct (floorEntry (e_Path e)) as [[class what]|]; [|split; [done|done]].
  destruct (lifted class (e_Path e) lift) eqn:Hl; split; try done; [by intros _ ? ? _ [= <- <-]|].
  intros H. specialize (H class what Hne eq_refl). congruence.
Qed.

(** The denylist passes a batch exactly when every path any effect would
    write, whatever its kind, is off the list or is a CI definition, by the
    list and by its class, that the dispatch has a lift for; with no lift it is
    off the list. *)
Theorem denylist_exact b lift :
  (ValidateProtectedPathsWithLift b lift = None ↔
   ∀ e class what, e ∈ b_Effects b → e_Path e ≠ "" → floorEntry (e_Path e) = Some (class, what) →
     class = ClassCI ∧ Has lift ClassCI = true ∧ Builtin (e_Path e) = ClassCI) ∧
  (ValidateProtectedPaths b = None ↔ ∀ e, e ∈ b_Effects b → e_Path e ≠ "" → floorEntry (e_Path e) = None).
Proof.
  assert (∀ l, ValidateProtectedPathsWithLift b l = None ↔
    Forall (λ e, protectedPath e l = None) (b_Effects b)) as Hall.
  { intros l. apply first_item_forall. intros i e. unfold protected_rule. by destruct (protectedPath e l) as [[? ?]|]. }
  unfold ValidateProtectedPaths. rewrite !Hall, !Forall_forall. setoid_rewrite protectedPath_none. unfold lifted. split.
  - split; intros H e.
    + intros class what He Hne Hf. specialize (H e He class what Hne Hf).
      apply andb_prop in H as [[?%String.eqb_eq ?]%andb_prop ?%String.eqb_eq]. done.
    + intros He class what Hne Hf. destruct (H e class what He Hne Hf) as (-> & -> & ->). done.
  - split; intros H e He.
    + intros Hne. destruct (floorEntry (e_Path e)) as [[class what]|] eqn:Hf; [exfalso|done].
      specialize (H e He class what Hne Hf). by rewrite andb_false_r in H.
    + intros class what Hne Hf. rewrite H in Hf; done.
Qed.

(** C24. [ValidatePaths] accepts a batch exactly when no effect of it names a
    protected path and the files it would write are in canonical form under
    [.agent/], each once, none over 64 KiB and together at most 256 KiB. *)
Theorem ValidatePaths_exact `{GoUnicode} b :
  ValidatePaths b = None ↔
  (∀ e, e ∈ b_Effects b → e_Path e ≠ "" → floorEntry (e_Path e) = None) ∧
  Forall file_ok (file_effects (b_Effects b)) ∧
  NoDup (map fw_Path (FileWrites b)) ∧
  total_bytes (file_effects (b_Effects b)) <= MaxBatchBytes.
Proof.
  unfold ValidatePaths. destruct (denylist_exact b Lift_zero) as [_ <-].
  destruct (ValidateProtectedPaths b) as [[[i p] what]|]; [split; [done|by intros [? _]]|].
  rewrite validate_files_none by done. unfold FileWrites. rewrite map_map. cbn [fw_Path].
  fold (file_effects (b_Effects b)). rewrite Z.add_0_l. split; [by intros (? & ? & _ & ?)|].
  intros (_ & ? & ? & ?). repeat split; [done|done| |done]. intros p _. set_solver.
Qed.

(** ** Comments *)

Lemma comment_rule_none `{GoUnicode} `{GoLetters} i e :
  comment_rule i e = None ↔
  (e_Kind e = KindComment → len (Body e) <= MaxCommentBytes ∧
   ∀ line, line ∈ Split newline (Body e) → isQuickActionLine (TrimSpace line) = false).
Proof.
  unfold comment_rule. destruct (String.eqb_spec (e_Kind e) KindComment) as [->|]; cbn [negb]; [|by split].
  destruct (Z.ltb_spec MaxCommentBytes (len (Body e))).
  { split; [done|]. intros Hx. destruct (Hx eq_refl). lia. }
  destruct (List.find isQuickActionLine (map TrimSpace (Split newline (Body e)))) as [line|] eqn:Hf.
  - split; [done|]. intros Hx. destruct (Hx eq_refl) as [_ Hl].
    apply List.find_some in Hf as [Hin Hq]. apply in_map_iff in Hin as (x & <- & Hx'%list_elem_of_In).
    rewrite Hl in Hq; done.
  - split; [|done]. intros _ _. split; [lia|]. intros line Hl.
    rewrite find_none in Hf. apply Hf, list_elem_of_fmap. by exists line.
Qed.

(** No line of a comment that passes reads as a quick action once the space
    around it is taken off, and nothing else is refused. *)
Theorem ValidateComments_exact `{GoUnicode} `{GoLetters} b :
  ValidateComments b = None ↔
  ∀ e, e ∈ b_Effects b → e_Kind e = KindComment → len (Body e) <= MaxCommentBytes ∧
    ∀ line, line ∈ Split newline (Body e) → isQuickActionLine (TrimSpace line) = false.
Proof.
  unfold ValidateComments. rewrite (first_item_forall _ _ _ _ (λ i e, comment_rule_none i e)). by rewrite Forall_forall.
Qed.

(** ** Counts and verdicts *)

Lemma count_kind_cons k e es :
  count_kind k (e :: es) = (if String.eqb (e_Kind e) k then 1 else 0) + count_kind k es.
Proof. unfold count_kind. cbn [List.filter]. destruct (String.eqb (e_Kind e) k); cbn [length]; lia. Qed.

Lemma count_kind_nonneg k es : 0 <= count_kind k es.
Proof. unfold count_kind. lia. Qed.

Lemma count_kind_zero k es : count_kind k es = 0 ↔ ∀ e, e ∈ es → e_Kind e ≠ k.
Proof.
  induction es as [|e es IH]; [split; [set_solver|done]|]. rewrite count_kind_cons.
  pose proof (count_kind_nonneg k es). destruct (String.eqb_spec (e_Kind e) k).
  - split; [lia|]. intros Hx. by destruct (Hx e ltac:(by left)).
  - rewrite Z.add_0_l, IH. set_solver.
Qed.

Lemma count_kind_some k es : count_kind k es ≠ 0 → ∃ e, e ∈ es ∧ e_Kind e = k.
Proof.
  induction es as [|e es IH]; [done|]. rewrite count_kind_cons. destruct (String.eqb_spec (e_Kind e) k).
  - intros _. exists e. split; [by left|done].
  - rewrite Z.add_0_l. intros (x & ? & ?)%IH. exists x. split; [by right|done].
Qed.

Lemma kind_counts_lookup b k :
  kind_counts b !! k = (if decide (count_kind k (b_Effects b) = 0) then None else Some (count_kind k (b_Effects b))).
Proof.
  unfold kind_counts.
  assert (∀ es m, (∀ j n, m !! j = Some n → 0 < n) →
    fold_left count_effect es m !! k =
    if decide (count_kind k es = 0) then m !! k else Some (default 0 (m !! k) + count_kind k es)) as Hf.
  { induction es as [|e es IH]; intros m Hm; [done|]. cbn [fold_left]. rewrite IH.
    - unfold count_effect. pose proof (count_kind_nonneg k es). rewrite count_kind_cons.
      destruct (String.eqb_spec (e_Kind e) k) as [<-|Hne].
      + rewrite lookup_insert_eq. cbn [default].
        rewrite (decide_False (P := 1 + _ = 0)) by lia. destruct (decide _) as [->|]; f_equal; cbn; lia.
      + rewrite lookup_insert_ne by done. by rewrite Z.add_0_l.
    - intros j n. unfold count_effect. destruct (decide (e_Kind e = j)) as [<-|].
      + rewrite lookup_insert_eq. intros [= <-].
        destruct (m !! e_Kind e) as [x|] eqn:Hx; cbn; [|lia]. apply Hm in Hx. lia.
      + rewrite lookup_insert_ne by done. apply Hm. }
  rewrite Hf by (intros j n; by rewrite lookup_empty). rewrite lookup_empty. cbn. by rewrite Z.add_0_l.
Qed.

Definition fixKinds : list Kind := [KindEdit; KindFixMeta; KindScopeRequest].

(** What the rule that ties verdicts to kinds asks. *)
Definition verdict_ok (b : Batch) : Prop :=
  let edits := count_kind KindEdit (b_Effects b) in
  let metas := count_kind KindFixMeta (b_Effects b) in
  let requests := count_kind KindScopeRequest (b_Effects b) in
  if decide (b_Verdict b = VerdictFix) then 0 < edits ∧ metas = 1 ∧ requests = 0
  else if decide (b_Verdict b = VerdictNeedsScope) then edits = 0 ∧ metas = 0 ∧ requests = 1
  else edits = 0 ∧ metas = 0 ∧ requests = 0.

Lemma verdictKindRule_none b : verdictKindRule b = None ↔ verdict_ok b.
Proof.
  unfold verdictKindRule, verdict_ok, batch_refusal.
  pose proof (count_kind_nonneg KindEdit (b_Effects b)). pose proof (count_kind_nonneg KindFixMeta (b_Effects b)).
  pose proof (count_kind_nonneg KindScopeRequest (b_Effects b)).
  destruct (String.eqb_spec (b_Verdict b) VerdictFix), (String.eqb_spec (b_Verdict b) VerdictNeedsScope);
    repeat case_decide; try congruence;
    repeat match goal with
    | |- context [0 <? ?n] => destruct (Z.ltb_spec 0 n)
    | |- context [?n =? ?k] => destruct (Z.eqb_spec n k)
    end; cbn [negb]; (split; [intros Hx; try discriminate Hx; lia|intros Hx; try reflexivity; lia]).
Qed.

(** [Validate] accepts a batch exactly when each kind it holds is one of the
    shape's, no more often than the shape's maximum, each kind of the shape is
    there as often as its minimum, and the verdict goes with the kinds,
    whatever order the maps are walked in. *)
Theorem Validate_exact `{MapRange} b (s : Shape) :
  shape_Validate b s = None ↔
  (∀ e, e ∈ b_Effects b → ∃ card, s !! e_Kind e = Some card ∧ count_kind (e_Kind e) (b_Effects b) <= Max card) ∧
  (∀ k card, s !! k = Some card → Min card <= count_kind k (b_Effects b)) ∧
  verdict_ok b.
Proof.
  assert (∀ k, default 0 (kind_counts b !! k) = count_kind k (b_Effects b)) as Hdef.
  { intros k. rewrite kind_counts_lookup. by case_decide. }
  assert (first_of (over_max s) (range_map (kind_counts b)) = None ↔
    ∀ e, e ∈ b_Effects b → ∃ card, s !! e_Kind e = Some card ∧ count_kind (e_Kind e) (b_Effects b) <= Max card) as H1.
  { rewrite first_of_none. split.
    - intros H1 e He. assert (count_kind (e_Kind e) (b_Effects b) ≠ 0) as Hz.
      { rewrite count_kind_zero. intros Hx. by apply (Hx e He). }
      specialize (H1 (e_Kind e, count_kind (e_Kind e) (b_Effects b))). unfold over_max in H1. cbn [fst snd] in H1.
      rewrite elem_of_range_map, kind_counts_lookup, decide_False in H1 by done. specialize (H1 eq_refl).
      destruct (s !! e_Kind e) as [card|]; [|done]. exists card. split; [done|].
      by destruct (Z.ltb_spec (Max card) (count_kind (e_Kind e) (b_Effects b))).
    - intros Hk [k n] Hin%elem_of_range_map. rewrite kind_counts_lookup in Hin. case_decide as Hz; [done|].
      injection Hin as <-. unfold over_max. cbn [fst snd]. destruct (count_kind_some k (b_Effects b) Hz) as (e & He & <-).
      destruct (Hk e He) as (card & -> & Hmax). by rewrite (proj2 (Z.ltb_ge _ _) Hmax). }
  assert (first_of (under_min s (kind_counts b)) (sort_strings (range_map s).*1) = None ↔
    ∀ k card, s !! k = Some card → Min card <= count_kind k (b_Effects b)) as H2.
  { rewrite first_of_none. unfold under_min. setoid_rewrite Hdef. split.
    - intros H2 k card Hk. specialize (H2 k). rewrite Hk in H2.
      assert (k ∈ sort_strings (range_map s).*1) as Hin.
      { rewrite sort_strings_elem. apply list_elem_of_fmap. exists (k, card). split; [done|]. by apply elem_of_range_map. }
      specialize (H2 Hin). by destruct (Z.ltb_spec (count_kind k (b_Effects b)) (Min card)).
    - intros H2 k Hin. rewrite sort_strings_elem in Hin. apply list_elem_of_fmap in Hin as ([k' card] & -> & Hin).
      apply elem_of_range_map in Hin. cbn [fst]. rewrite Hin. by rewrite (proj2 (Z.ltb_ge _ _) (H2 _ _ Hin)). }
  unfold shape_Validate. rewrite <- H1, <- H2, <- verdictKindRule_none.
  destruct (first_of _ _); [split; [done|by intros [? _]]|].
  destruct (first_of _ _); [split; [done|by intros (_ & ? & _)]|].
  destruct (verdictKindRule b); [split; [done|by intros (_ & _ & ?)]|]. done.
Qed.

(** An agent whose shape lists none of the three fix kinds can neither carry
    one of them nor state a fix verdict. *)
Theorem fix_vocabulary_sealed `{MapRange} b (s : Shape) :
  (∀ k, k ∈ fixKinds → s !! k = None) → shape_Validate b s = None →
  (∀ e, e ∈ b_Effects b → e_Kind e ∉ fixKinds) ∧ b_Verdict b ≠ VerdictFix ∧ b_Verdict b ≠ VerdictNeedsScope.
Proof.
  intros Hs (Hk & _ & Hv)%Validate_exact.
  assert (∀ e, e ∈ b_Effects b → e_Kind e ∉ fixKinds) as Hno.
  { intros e He Hin. destruct (Hk e He) as (card & Hc & _). by rewrite Hs in Hc. }
  split; [done|].
  assert (∀ k, k ∈ fixKinds → count_kind k (b_Effects b) = 0) as Hz.
  { intros k Hin. apply count_kind_zero. intros e He <-. by apply (Hno e He). }
  unfold verdict_ok in Hv. rewrite !Hz in Hv by (unfold fixKinds; set_solver).
  split; intros E; rewrite E in Hv; repeat case_decide; try done; lia.
Qed.

(** ** Targets *)

(** The family an effect's target is of. *)
Definition target_kind (e : Effect) : TargetKind :=
  if empty (TargetType e) then default "" (head (effectTargetKinds (e_Kind e))) else TargetType e.

Lemma target_rule_none allowed i e :
  target_rule allowed i e = None ↔
  if decide (TargetIID e = 0) then TargetType e = ""
  else target_kind e ∈ effectTargetKinds (e_Kind e) ∧ targets_has allowed (target_kind e) (TargetIID e) = true.
Proof.
  assert (∀ k t, t ∈ effectTargetKinds k → contains knownTargetKinds t = true) as Hknown.
  { intros k t. unfold effectTargetKinds. rewrite contains_elem. unfold knownTargetKinds.
    repeat case_match; set_solver. }
  unfold target_rule, target_kind, empty. destruct (String.eqb_spec (TargetType e) "") as [Ht|Ht]; cbn [negb andb].
  - destruct (Z.eqb_spec (TargetIID e) 0); case_decide; try done.
    destruct (effectTargetKinds (e_Kind e)) as [|k0 ks] eqn:Hk; cbn [head default from_option id].
    + split; [done|]. intros [[]%elem_of_nil _].
    + assert (existsb (λ k, String.eqb k k0) (k0 :: ks) = true) as -> by (cbn; by rewrite String.eqb_refl).
      cbn [negb]. destruct (targets_has allowed k0 (TargetIID e)); cbn [negb].
      * split; [|done]. intros _. split; [by left|done].
      * split; [done|]. by intros [_ ?].
  - destruct (contains knownTargetKinds (TargetType e)) eqn:Hc; cbn [negb].
    + destruct (Z.eqb_spec (TargetIID e) 0); case_decide; try done.
      assert (existsb (λ k, String.eqb k (TargetType e)) (effectTargetKinds (e_Kind e)) = true ↔
        TargetType e ∈ effectTargetKinds (e_Kind e)) as Hex.
      { rewrite existsb_elem. split; [intros (k & Hk & ->%String.eqb_eq); done|]. intros Hin. exists (TargetType e).
        split; [done|apply String.eqb_refl]. }
      destruct (effectTargetKinds (e_Kind e)) as [|k0 ks] eqn:Hk; [split; [done|by intros [[]%elem_of_nil _]]|].
      destruct (existsb _ _); cbn [negb].
      * destruct (targets_has allowed (TargetType e) (TargetIID e)); cbn [negb].
        -- split; [|done]. intros _. split; [by apply Hex|done].
        -- split; [done|]. by intros [_ ?].
      * split; [done|]. intros [Hin _]. by apply Hex in Hin.
    + split; [done|]. case_decide; [done|]. intros [Hin _]. apply Hknown in Hin. congruence.
Qed.

(** A batch passes exactly when every effect that names an existing resource
    names one the session was handed, of a family its kind may act on, and no
    effect states a family without a number. *)
Theorem ValidateTargets_exact b allowed :
  ValidateTargets b allowed = None ↔
  ∀ e, e ∈ b_Effects b →
    if decide (TargetIID e = 0) then TargetType e = ""
    else target_kind e ∈ effectTargetKinds (e_Kind e) ∧ targets_has allowed (target_kind e) (TargetIID e) = true.
Proof.
  unfold ValidateTargets. rewrite (first_item_forall _ _ _ _ (λ i e, target_rule_none allowed i e)).
  by rewrite Forall_forall.
Qed.

(** ** Well-formed edits *)

Definition edit_ok (e : Effect) : Prop :=
  cleanRelativePath (e_Path e) = true ∧ Old e ≠ "" ∧ Old e ≠ New e ∧
  ContainsAny (Old e) is_nul = false ∧ ContainsAny (New e) is_nul = false ∧
  utf8_Valid (Old e) = true ∧ utf8_Valid (New e) = true.

Lemma editForm_none i e : editForm i e = None ↔ edit_ok e.
Proof.
  unfold editForm, edit_ok. destruct (cleanRelativePath (e_Path e)); cbn [negb]; [|naive_solver].
  destruct (String.eqb_spec (Old e) ""); [naive_solver|]. destruct (String.eqb_spec (Old e) (New e)); [naive_solver|].
  destruct (ContainsAny (Old e) is_nul), (ContainsAny (New e) is_nul); cbn [orb]; try naive_solver.
  destruct (utf8_Valid (Old e)), (utf8_Valid (New e)); cbn [negb orb]; naive_solver.
Qed.

(** [foreignField]: nothing but the kind's own fields, the target's apart. *)
Lemma foreignTo_none e own :
  foreignTo e own = None ↔
  ∀ name zero, (name, zero) ∈ fields e → name ≠ "Kind" → name ∉ own → name ∉ targetFields → zero = true.
Proof.
  unfold foreignTo.
  assert (∀ (l : list (string * bool)),
    match List.find (λ '(name, zero), negb (String.eqb name "Kind" || contains own name || contains targetFields name) && negb zero) l with
    | Some (name, _) => Some name | None => None end = None ↔
    ∀ name zero, (name, zero) ∈ l → name ≠ "Kind" → name ∉ own → name ∉ targetFields → zero = true) as Hl; [|apply Hl].
  induction l as [|[name zero] l IH]; cbn [List.find].
  { split; [|done]. intros _ ? ? []%elem_of_nil. }
  destruct (String.eqb_spec name "Kind") as [->|Hk]; cbn [orb negb andb].
  { rewrite IH. set_solver. }
  destruct (contains own name) eqn:Ho; cbn [orb negb andb].
  { apply contains_elem in Ho. rewrite IH. set_solver. }
  destruct (contains targetFields name) eqn:Ht; cbn [orb negb andb].
  { apply contains_elem in Ht. rewrite IH. set_solver. }
  apply contains_false in Ho, Ht. destruct zero; cbn [negb].
  - rewrite IH. split; [|set_solver]. intros Hx n z [[= -> ->]|Hin]%elem_of_cons; [done|by apply Hx].
  - split; [done|]. intros Hx. by specialize (Hx name false ltac:(by left) Hk Ho Ht).
Qed.

Lemma cleanRelativePath_spec p :
  cleanRelativePath p = true → p ≠ "" ∧ p ≠ "." ∧ Clean p = p ∧ (".." ∉ Split slash p) ∧
  ContainsAny p is_nul = false ∧ HasPrefix p "/" = false.
Proof.
  unfold cleanRelativePath. destruct (String.eqb_spec p ""), (ContainsAny p is_nul), (HasPrefix p "/"); try done.
  cbn [orb]. destruct (existsb (String.eqb "..") (Split slash p)) eqn:Hd; [done|].
  intros [Hc%String.eqb_eq Hp%negb_true_iff%String.eqb_neq]%andb_prop. repeat split; try done.
  rewrite existsb_false in Hd. intros Hin. by specialize (Hd _ Hin).
Qed.

(** ** Diagnoses *)

Section diagnosis.
Context `{GoUnicode}.

Definition evidence_ok (jobs : list string) (ev : EvidenceItem) : Prop :=
  (has_line ev = true ∧ ev_Fact ev = "" ∨ ev_Line ev = "" ∧ ev_Fact ev ∈ factOrder) ∧
  (ev_Job ev ∈ jobs ∨ ev_Fact ev = FactPipelineError ∧ ev_Job ev = "").

Lemma evidence_rule_none jobs k ev :
  evidence_rule jobs k ev = None ↔ evidence_ok jobs ev.
Proof.
  assert ("" ∉ factOrder) as Hempty by (unfold factOrder; set_solver by discriminate).
  unfold evidence_rule, evidence_ok, pipeline_level, has_fact, empty.
  assert (ev_Line ev = "" → has_line ev = false) as Hline.
  { intros E. unfold has_line. by rewrite E. }
  destruct (has_line ev) eqn:Hl; cbn [negb andb].
  - rewrite andb_false_r. cbn [orb].
    destruct (String.eqb_spec (ev_Fact ev) "") as [Hf|Hf]; cbn [negb Bool.eqb andb].
    + destruct (contains jobs (ev_Job ev)) eqn:Hj; cbn [negb].
      * apply contains_elem in Hj. split; [|done]. intros _. split; [by left|by left].
      * apply contains_false in Hj. split; [done|]. intros [_ [?|[E _]]]; [done|]. by rewrite Hf in E.
    + split; [done|]. intros [[[_ ?]|[? _]] _]; [done|]. by specialize (Hline ltac:(done)).
  - destruct (String.eqb_spec (ev_Line ev) "") as [He|He]; cbn [negb andb orb].
    2: { split; [done|]. intros [[[? _]|[? _]] _]; done. }
    destruct (String.eqb_spec (ev_Fact ev) "") as [Hf|Hf]; cbn [negb Bool.eqb andb].
    { split; [done|]. intros [[[? _]|[_ ?]] _]; [done|]. by rewrite Hf in *. }
    destruct (contains factOrder (ev_Fact ev)) eqn:Hc; cbn [negb].
    2: { apply contains_false in Hc. split; [done|]. intros [[[? _]|[_ ?]] _]; done. }
    apply contains_elem in Hc.
    destruct (String.eqb_spec (ev_Fact ev) FactPipelineError), (String.eqb_spec (ev_Job ev) ""); cbn [andb negb].
    { split; [|done]. intros _. split; [by right|by right]. }
    all: destruct (contains jobs (ev_Job ev)) eqn:Hj; cbn [negb];
      [apply contains_elem in Hj; split; [intros _; split; [by right|by left]|done]
      |apply contains_false in Hj; split; [done|intros [_ [?|[? ?]]]; done]].
Qed.

(** What a diagnosis must be. *)
Definition diagnosis_ok (ctx : DiagnosisContext) (e : Effect) : Prop :=
  foreignTo e diagnosisFields = None ∧ Classification e ∈ classificationOrder ∧
  (TrimSpace (Summary e) ≠ "" ∧ RuneCount (Summary e) <= MaxDiagnosisSummaryChars) ∧
  (TrimSpace (Remedy e) ≠ "" ∧ RuneCount (Remedy e) <= MaxDiagnosisRemedyChars) ∧
  MinDiagnosisEvidence <= Z.of_nat (length (evidence_of e)) <= MaxDiagnosisEvidence ∧
  Forall (evidence_ok (JobNames ctx)) (evidence_of e) ∧
  (existsb HasExcerpt ctx = true → ∃ ev, ev ∈ evidence_of e ∧ has_line ev = true) ∧
  Z.of_nat (length (files_of e)) <= MaxDiagnosisFiles ∧
  Forall (λ f, cleanRelativePath f = true) (files_of e) ∧
  (Classification e ∈ classesRequiringFiles → files_of e ≠ []).

Lemma validateDiagnosis_none ctx e :
  validateDiagnosis e (JobNames ctx) (existsb HasExcerpt ctx) = None ↔ diagnosis_ok ctx e.
Proof.
  unfold validateDiagnosis, diagnosis_ok, empty.
  assert (∀ k f, file_rule k f = None ↔ cleanRelativePath f = true) as Hfile.
  { intros k f. unfold file_rule. by destruct (cleanRelativePath f). }
  rewrite match_none, !guard_none, !rule_none, !guard_none, !rule_none, !guard_none.
  rewrite (first_item_forall file_rule _ 0 _ Hfile).
  rewrite (first_item_forall (evidence_rule (JobNames ctx)) _ 0 _ (evidence_rule_none (JobNames ctx))).
  rewrite !negb_false_iff, !contains_elem, !String.eqb_neq, !orb_false_iff, !Z.ltb_ge, !andb_false_iff.
  rewrite negb_false_iff, existsb_elem, Nat.eqb_neq, contains_false, <- not_true_iff_false.
  assert (length (files_of e) ≠ 0%nat ↔ files_of e ≠ []) as Hnil by (by destruct (files_of e)).
  rewrite Hnil. destruct (decide (Classification e ∈ classesRequiringFiles)), (existsb HasExcerpt ctx); intuition.
  all: by left.
Qed.

(** C28. A batch's diagnoses pass exactly when each has no field of another kind,
    states a class of the closed set in bounded prose, supports it with one to
    eight items, each quoting a line or citing a known fact, and either not both,
    of a job that failed (the fact of a pipeline error needs no job), quotes a line
    if any failed job had a log, and names at most as many files as allowed, each
    by a clean relative path, and at least one where the class speaks of the
    repository. *)
Theorem ValidateDiagnosis_exact b ctx :
  ValidateDiagnosis b ctx = None ↔ ∀ e, e ∈ b_Effects b → e_Kind e = KindDiagnosis → diagnosis_ok ctx e.
Proof.
  unfold ValidateDiagnosis. rewrite (first_item_forall _ (λ e, e_Kind e = KindDiagnosis → diagnosis_ok ctx e)).
  - by rewrite Forall_forall.
  - intros i e. unfold diagnosis_rule. destruct (String.eqb_spec (e_Kind e) KindDiagnosis) as [Hk|Hk]; cbn [negb].
    + rewrite <- validateDiagnosis_none. destruct (validateDiagnosis _ _ _); naive_solver.
    + naive_solver.
Qed.
End diagnosis.

(** ** Tokens *)

Lemma map_bytes_length f s : String.length (map_bytes f s) = String.length s.
Proof. induction s as [|c s IH]; cbn; [done|]. by rewrite IH. Qed.

Lemma map_bytes_all f g s : (∀ c, g (f c) = true) → all_bytes g (map_bytes f s) = true.
Proof. intros Hg. induction s as [|c s IH]; cbn; [done|]. by rewrite Hg. Qed.

Lemma substring_length_le n s : (String.length (String.substring 0 n s) <= n)%nat.
Proof. revert s. induction n as [|n IH]; intros [|c s]; cbn; try lia. specialize (IH s). lia. Qed.

(** Whatever a batch said, what is repeated of it is at most 32 letters,
    digits, dots, dashes, underscores and question marks between quotes. *)
Theorem Token_safe s :
  ∃ body, Token s = String quote body +:+ String quote (if MaxTokenBytes <? len s then " (cut)" else "") ∧
  len body <= MaxTokenBytes ∧ all_bytes (λ c, token_byte c || Ascii.eqb c "?"%char) body = true ∧
  (len s <= MaxTokenBytes → all_bytes token_byte s = true → body = s).
Proof.
  unfold Token. eexists. split; [reflexivity|]. split; [|split].
  - unfold len at 1. rewrite map_bytes_length. destruct (Z.ltb_spec MaxTokenBytes (len s)); [|done].
    pose proof (substring_length_le (Z.to_nat MaxTokenBytes) s). unfold MaxTokenBytes in *. lia.
  - apply map_bytes_all. intros c. by destruct (token_byte c) eqn:E; [rewrite E|].
  - intros Hl Hs. rewrite (proj2 (Z.ltb_ge _ _)) by done.
    clear Hl. induction s as [|c s IH]; cbn in *; [done|]. apply andb_prop in Hs as [-> Hs]. by rewrite IH.
Qed.

(** ** Examples *)

Definition an_edit (p old new : string) : Effect :=
  mkEffect KindEdit "" None None "" p "" 0 "" "" "" None "" None old new None "".
Definition a_file (p content : string) : Effect :=
  mkEffect KindFile "" None None "" p content 0 "" "" "" None "" None "" "" None "".
Definition a_comment (body : string) : Effect :=
  mkEffect KindComment body None None "" "" "" 0 "" "" "" None "" None "" "" None "".
Definition a_meta (reason : string) : Effect :=
  mkEffect KindFixMeta "" None None "" "" "" 0 "" "" "" None "" None "" "" None reason.

#[export] Instance ascii_letters : GoLetters := {| unicode_is_letter := λ _, false |}.

Example scaffold_stays_inside :
  ValidatePaths (mkBatch [a_file ".agent/a.md" "x"; a_file ".agent/../.gitlab-ci.yml" "y"] "") =
    Some (Protected 1 ".agent/../.gitlab-ci.yml" CIDefinition) ∧
  ValidatePaths (mkBatch [a_file ".agentx/a.md" "x"] "") = Some (OutsideAgentDir 0 ".agentx/a.md") ∧
  ValidatePaths (mkBatch [a_file ".agent/a.md" "x"; a_file ".agent/a.md" "x"] "") = Some (DuplicatePath 1 ".agent/a.md") ∧
  ValidatePaths (mkBatch [an_edit "docs/CODEOWNERS" "a" "b"] "fix") = Some (Protected 0 "docs/CODEOWNERS" ControlFile).
Proof. vm_compute. repeat split; reflexivity. Qed.

Example quick_action_refused :
  ValidateComments (mkBatch [a_comment ("see 1/2 of it" +:+ String newline "  /close")] "") = Some (QuickAction 0 "/close") ∧
  ValidateComments (mkBatch [a_comment ("/ 2" +:+ String newline "> /close")] "") = None.
Proof. vm_compute. split; reflexivity. Qed.

Definition triage_shape : gmap string Card := {[ KindComment := mkCard 1 1 ]}.
Definition triage_batch : Batch := mkBatch [a_comment "hello"] "reply-only".

Lemma fix_vocabulary_sealed_witness :
  shape_Validate triage_batch triage_shape = None ∧
  (∀ e, e ∈ b_Effects triage_batch → e_Kind e ∉ fixKinds) ∧
  b_Verdict triage_batch ≠ VerdictFix ∧ b_Verdict triage_batch ≠ VerdictNeedsScope.
Proof.
  assert (shape_Validate triage_batch triage_shape = None) as H by (vm_compute; reflexivity).
  split; [exact H|]. apply (fix_vocabulary_sealed triage_batch triage_shape); [|exact H].
  apply Forall_forall. repeat (constructor; [vm_compute; reflexivity|]). constructor.
Defined.
