(* ===== verification/CiValue.v ===== *)
(** * [pkg/cidef]: values of a CI document ([value.go])

    A CI definition as the comparison sees it: YAML nodes turned into plain
    values, with aliases and merge keys expanded here and everything that could
    be read in two ways marked as unresolved. The YAML library is not modelled:
    its nodes are records in a heap ([gopkg.in/yaml.v3]'s pointers are keys of
    it), with the short tag and the decoded scalar it answers for each. *)

From Stdlib Require Import SpecFloat Ascii.
From S2P Require Import Prelude.
From S2P Require Import Float64.
From S2P Require Import GoStrings.

#[export] Set Warnings "-register-all".

(** ** Quoting

    [strconv.Quote]: exact on ASCII, a parameter elsewhere, where it depends on
    Unicode's printable characters. *)

Class GoQuote := { unicode_quote : string → string }.

Definition hex_digit (n : Z) : ascii := ascii_of_nat (Z.to_nat (if n <? 10 then 48 + n else 87 + n)).
Definition quote_byte (c : ascii) : string :=
  let n := byte_val c in
  if (n =? 34) || (n =? 92) then String "\" (String c "")
  else if n =? 7 then "\a" else if n =? 8 then "\b" else if n =? 12 then "\f" else if n =? 10 then "\n"
  else if n =? 13 then "\r" else if n =? 9 then "\t" else if n =? 11 then "\v"
  else if (n <? 32) || (n =? 127) then "\x" +:+ String (hex_digit (n / 16)) (String (hex_digit (n mod 16)) "")
  else String c "".
Fixpoint quote_bytes (s : string) : string :=
  match s with EmptyString => "" | String c s => quote_byte c +:+ quote_bytes s end.
Definition quotation : string := String (ascii_of_nat 34) "".
Definition Quote `{GoQuote} (s : string) : string :=
  if all_bytes is_ascii s then quotation +:+ quote_bytes s +:+ quotation else unicode_quote s.

(** ** Values *)

Inductive value :=
| VNull
| VBool (b : bool)
| VInt (i : Z)
| VFloat (f : float64)
| VStr (s : string)
| VList (l : list value)
| VMap (m : gmap string value)
| VScalar (Tag Value : string)
| VUnresolved (Reason : string).

(** The reason of an unresolved value anywhere in a value; keys in order. *)
Fixpoint firstUnresolved (v : value) : option string :=
  match v with
  | VUnresolved r => Some r
  | VList l =>
      (fix go (l : list value) : option string :=
         match l with
         | [] => None
         | e :: l => match firstUnresolved e with Some r => Some r | None => go l end
         end) l
  | VMap m =>
      let found := firstUnresolved <$> m in
      first_of (λ k, default None (found !! k)) (sorted_keys found)
  | _ => None
  end.

(** [reflect.DeepEqual], of values that share no map and no list: a number that
    is not one differs from itself. *)
Fixpoint deep_eq (v w : value) {struct v} : bool :=
  match v, w with
  | VNull, VNull => true
  | VBool a, VBool b => Bool.eqb a b
  | VInt a, VInt b => a =? b
  | VFloat a, VFloat b => feq a b
  | VStr a, VStr b => String.eqb a b
  | VList l, VList l' =>
      (fix go (l l' : list value) : bool :=
         match l, l' with
         | [], [] => true
         | x :: l, y :: l' => deep_eq x y && go l l'
         | _, _ => false
         end) l l'
  | VMap m, VMap m' =>
      (size m =? size m')%nat &&
      map_fold (λ k x b, b && match m' !! k with Some y => deep_eq x y | None => false end) true m
  | VScalar t a, VScalar u b => String.eqb t u && String.eqb a b
  | VUnresolved r, VUnresolved s => String.eqb r s
  | _, _ => false
  end.

(** [deepMerge]: two maps merge key by key, anything else is replaced. *)
Fixpoint merge_under (under over : value) {struct over} : value :=
  match under, over with
  | VMap u, VMap o =>
      VMap (map_fold (λ k v out, <[k := match out !! k with Some x => merge_under x v | None => v end]> out) u o)
  | _, _ => over
  end.
Definition deepMerge (under over : gmap string value) : gmap string value :=
  map_fold (λ k v out, <[k := match out !! k with Some x => merge_under x v | None => v end]> out) under over.

(** ** Nodes *)

Abbreviation pointer := positive (only parsing).

Record Node := mkNode {
  n_Kind : Z;
  ShortTag : string;      (** the library's answer *)
  n_Value : string;
  n_Alias : option pointer;
  Content : list pointer;
  Line : Z;
  (** What [Decode] answers into a bool, an int and a float64. *)
  decode_bool : option bool;
  decode_int : option Z;
  decode_float : option float64;
}.
Definition DocumentNode : Z := 1.
Definition SequenceNode : Z := 2.
Definition MappingNode : Z := 4.
Definition ScalarNode : Z := 8.
Definition AliasNode : Z := 16.

Definition maxNodes : Z := 1048576.

(** The counter and the errors of the document. *)
Record conv := mkConv { cv_nodes : Z; fatal : list string }.

Definition fail (st : conv) (msg : string) : value * conv :=
  (VUnresolved msg, mkConv (cv_nodes st) (fatal st ++ [msg])).

Definition customTag (n : Node) : option string :=
  if String.eqb (ShortTag n) "" || HasPrefix (ShortTag n) "!!" then None else Some (ShortTag n).

Definition scalarValue (n : Node) : value :=
  let as_written := VScalar (ShortTag n) (n_Value n) in
  if String.eqb (ShortTag n) "!!str" then VStr (n_Value n)
  else if String.eqb (ShortTag n) "!!null" then VNull
  else if String.eqb (ShortTag n) "!!bool" then match decode_bool n with Some b => VBool b | None => as_written end
  else if String.eqb (ShortTag n) "!!int" then match decode_int n with Some i => VInt i | None => as_written end
  else if String.eqb (ShortTag n) "!!float" then match decode_float n with Some f => VFloat f | None => as_written end
  else as_written.

(** A mapping, or why it is not resolved. *)
Inductive mapped := Map (m : gmap string value) | NotMap (reason : string).
Definition value_of (m : mapped) : value := match m with Map m => VMap m | NotMap r => VUnresolved r end.

Section converter.
Context `{GoQuote} (heap : gmap pointer Node).

Definition at_line (n : Node) : string := " (line " +:+ itoa (Line n) +:+ ")".

(** The nodes of a decoded document have no nil children. *)
Definition Node_nil : Node := mkNode 0 "" "" None [] 0 None None None.
Definition node_at (p : pointer) : Node := default Node_nil (heap !! p).

Section loops.
Variable convert : conv → pointer → option (value * conv).

Fixpoint convert_all (st : conv) (l : list pointer) : option (list value * conv) :=
  match l with
  | [] => Some ([], st)
  | p :: l =>
      match convert st p with
      | None => None
      | Some (v, st) =>
          match convert_all st l with None => None | Some (vs, st) => Some (v :: vs, st) end
      end
  end.

(** The key an entry is filed under, through an alias. *)
Definition key_node (p : pointer) : Node :=
  let k := node_at p in
  if n_Kind k =? AliasNode then match n_Alias k with Some t => node_at t | None => k end else k.

(** Explicit keys, and the merges for later. *)
Fixpoint entries (st : conv) (out : gmap string value) (merges : list pointer) (content : list pointer) :
    option ((mapped * list pointer) * conv) :=
  match content with
  | kp :: vp :: content =>
      let k := key_node kp in
      if negb (n_Kind k =? ScalarNode) then Some ((NotMap ("a mapping key that is not a scalar" +:+ at_line k), []), st)
      else if String.eqb (ShortTag k) "!!merge" then entries st out (merges ++ [vp]) content
      else
        match customTag k with
        | Some _ => Some ((NotMap ("a tagged mapping key " +:+ Quote (n_Value k) +:+ at_line k), []), st)
        | None =>
            match out !! n_Value k with
            | Some _ =>
                Some ((NotMap ("the key " +:+ Quote (n_Value k) +:+ " appears twice in one mapping" +:+ at_line k), []), st)
            | None =>
                match convert st vp with
                | None => None
                | Some (v, st) => entries st (<[n_Value k := v]> out) merges content
                end
            end
        end
  | _ => Some ((Map out, merges), st)
  end.

(** Merged keys are only added. *)
Fixpoint merge_sources (st : conv) (out : gmap string value) (sources : list pointer) : option (mapped * conv) :=
  match sources with
  | [] => Some (Map out, st)
  | s :: sources =>
      match convert st s with
      | None => None
      | Some (VMap sv, st) => merge_sources st (out ∪ sv) sources
      | Some (_, st) => Some (NotMap ("a merge key (<<) whose value is not a mapping" +:+ at_line (node_at s)), st)
      end
  end.

Definition sources_of (m : pointer) : list pointer :=
  if n_Kind (node_at m) =? SequenceNode then Content (node_at m) else [m].

Fixpoint merge_all (st : conv) (out : gmap string value) (merges : list pointer) : option (mapped * conv) :=
  match merges with
  | [] => Some (Map out, st)
  | m :: merges =>
      match merge_sources st out (sources_of m) with
      | Some (Map out, st) => merge_all st out merges
      | other => other
      end
  end.

Definition mapping (st : conv) (n : Node) : option (value * conv) :=
  match entries st ∅ [] (Content n) with
  | None => None
  | Some ((NotMap r, _), st) => Some (VUnresolved r, st)
  | Some ((Map out, merges), st) =>
      match merge_all st out merges with
      | None => None
      | Some (m, st) => Some (value_of m, st)
      end
  end.
End loops.

(** [None]: not enough fuel. *)
Fixpoint convert (fuel : nat) (active : gset pointer) (st : conv) (p : pointer) : option (value * conv) :=
  match heap !! p with
  | None => Some (VNull, st)
  | Some n =>
      let st := mkConv (cv_nodes st + 1) (fatal st) in
      if maxNodes <? cv_nodes st then
        Some (if cv_nodes st =? maxNodes + 1
              then fail st ("the document expands to more than " +:+ itoa maxNodes +:+ " nodes")
              else (VUnresolved "the document is too large", st))
      else
        match fuel with
        | O => None
        | S fuel =>
            if n_Kind n =? DocumentNode then
              match Content n with
              | [c] => convert fuel active st c
              | content => Some (fail st ("a YAML document with " +:+ itoa (Z.of_nat (length content)) +:+ " root nodes"))
              end
            else if n_Kind n =? AliasNode then
              match n_Alias n with
              | None => Some (fail st ("an alias (*" +:+ n_Value n +:+ ") to no anchor"))
              | Some target =>
                  if decide (target ∈ active)
                  then Some (fail st ("the anchor &" +:+ n_Value n +:+ " contains itself"))
                  else convert fuel ({[ target ]} ∪ active) st target
              end
            else
              match customTag n with
              | Some tag =>
                  Some (VUnresolved ("a " +:+ tag +:+ " tag" +:+ at_line n +:+ " is not resolved here"), st)
              | None =>
                  if n_Kind n =? ScalarNode then Some (scalarValue n, st)
                  else if n_Kind n =? SequenceNode then
                    match convert_all (convert fuel active) st (Content n) with
                    | None => None
                    | Some (l, st) => Some (VList l, st)
                    end
                  else if n_Kind n =? MappingNode then mapping (convert fuel active) st n
                  else Some (VUnresolved ("a YAML node of kind " +:+ itoa (n_Kind n) +:+ at_line n), st)
              end
        end
  end.

(** Fuel: each level counts a node. *)
Definition convert_document (p : pointer) : option (value * conv) :=
  convert (Z.to_nat (maxNodes + 1)) ∅ (mkConv 0 []) p.
End converter.

(** * Proofs *)

(** ** Induction on values *)

Fixpoint vsize (v : value) : nat :=
  match v with
  | VList l => S ((fix go (l : list value) : nat := match l with [] => 0 | x :: l => vsize x + go l end) l)%nat
  | VMap m => S (map_fold (λ _ x n, vsize x + n)%nat 0%nat m)
  | _ => 1%nat
  end.

Lemma vsize_list l x : x ∈ l → (vsize x < vsize (VList l))%nat.
Proof.
  intros Hx. cbn [vsize]. apply le_n_S. induction Hx as [x l|x y l Hx IH]; [lia|]. lia.
Qed.

Lemma vsize_map m k x : m !! k = Some x → (vsize x < vsize (VMap m))%nat.
Proof.
  intros Hk. cbn [vsize]. apply le_n_S. revert Hk.
  apply (map_fold_weak_ind (λ n m, m !! k = Some x → vsize x ≤ n)%nat); clear m.
  - by rewrite lookup_empty.
  - intros i y m n Hi IH [[-> ->]|[Hne Hk]]%lookup_insert_Some; [lia|]. specialize (IH Hk). lia.
Qed.

Lemma value_nested_ind (P : value → Prop) :
  (∀ v, match v with VList _ | VMap _ => False | _ => True end → P v) →
  (∀ l, (∀ x, x ∈ l → P x) → P (VList l)) →
  (∀ m, (∀ k x, m !! k = Some x → P x) → P (VMap m)) →
  ∀ v, P v.
Proof.
  intros Hleaf Hlist Hmap v. remember (vsize v) as n eqn:Hn. revert v Hn.
  induction n as [n IH] using lt_wf_ind. intros v ->.
  destruct v as [| | | | |l|m| |]; try (apply Hleaf; exact I).
  - apply Hlist. intros x Hx. eapply IH; [by apply vsize_list|done].
  - apply Hmap. intros k x Hx. eapply IH; [by eapply vsize_map|done].
Qed.

(** A value inside another. *)
Inductive inside (x : value) : value → Prop :=
| inside_here : inside x x
| inside_list l y : y ∈ l → inside x y → inside x (VList l)
| inside_map m k y : m !! k = Some y → inside x y → inside x (VMap m).

Lemma inside_leaf x v : match v with VList _ | VMap _ => False | _ => True end → inside x v ↔ x = v.
Proof. intros Hv. split; [by destruct 1|]. intros ->. constructor. Qed.

(** ** Unresolved values *)

Lemma firstUnresolved_list l :
  firstUnresolved (VList l) = first_of firstUnresolved l.
Proof. cbn [firstUnresolved]. induction l as [|x l IH]; cbn; [done|]. by rewrite IH. Qed.

Lemma firstUnresolved_map m :
  firstUnresolved (VMap m) = None ↔ ∀ k x, m !! k = Some x → firstUnresolved x = None.
Proof.
  change (firstUnresolved (VMap m)) with
    (first_of (λ k, default None ((firstUnresolved <$> m) !! k)) (sorted_keys (firstUnresolved <$> m))).
  rewrite first_of_none. setoid_rewrite elem_of_sorted_keys. setoid_rewrite lookup_fmap. split.
  - intros H k x Hk. specialize (H k). rewrite Hk in H. apply H. by eexists.
  - intros H k _. destruct (m !! k) as [x|] eqn:E; [|done]. by apply (H k).
Qed.

(** [firstUnresolved] finds a marker exactly when there is one. *)
Lemma firstUnresolved_none v : firstUnresolved v = None ↔ ∀ r, ¬ inside (VUnresolved r) v.
Proof.
  induction v as [v Hv|l IH|m IH] using value_nested_ind.
  - setoid_rewrite inside_leaf; [|done..]. destruct v; try done. split; [done|]. intros H. by destruct (H Reason).
  - rewrite firstUnresolved_list, first_of_none. split.
    + intros H r Hr. inversion Hr as [|? y Hy Hin|]; subst. by apply (proj1 (IH y Hy) (H y Hy) r).
    + intros H x Hx. apply IH; [done|]. intros r Hr. by apply (H r), (inside_list _ _ x).
  - rewrite firstUnresolved_map. split.
    + intros H r Hr. inversion Hr as [| |? k y Hy Hin]; subst. by apply (proj1 (IH k y Hy) (H k y Hy) r).
    + intros H k x Hx. apply (IH k); [done|]. intros r Hr. by apply (H r), (inside_map _ _ k x).
Qed.

(** ** Equality *)

Lemma deep_eq_list l l' :
  deep_eq (VList l) (VList l') = true ↔ Forall2 (λ x y, deep_eq x y = true) l l'.
Proof.
  cbn [deep_eq]. revert l'. induction l as [|x l IH]; intros [|y l']; try (split; [done|by inversion 1]).
  rewrite andb_true_iff, IH. split; [intros [? ?]; by constructor|by inversion 1].
Qed.

Lemma map_fold_andb {A} (f : string → A → bool) (m : gmap string A) :
  map_fold (λ k x b, b && f k x) true m = true ↔ ∀ k x, m !! k = Some x → f k x = true.
Proof.
  apply (map_fold_weak_ind (λ b m, b = true ↔ ∀ k x, m !! k = Some x → f k x = true)); clear m.
  - split; [|done]. intros _ k x. by rewrite lookup_empty.
  - intros i y m b Hi IH. rewrite andb_true_iff, IH. split.
    + intros [H1 H2] k x [[-> ->]|[_ Hk]]%lookup_insert_Some; [done|]. by apply (H1 k).
    + intros H. split; [|apply (H i); by rewrite lookup_insert_eq].
      intros k x Hk. apply (H k). rewrite lookup_insert_ne; [done|]. intros ->. congruence.
Qed.

Lemma deep_eq_map m m' :
  deep_eq (VMap m) (VMap m') = true ↔
  size m = size m' ∧ ∀ k x, m !! k = Some x → ∃ y, m' !! k = Some y ∧ deep_eq x y = true.
Proof.
  cbn [deep_eq]. rewrite andb_true_iff, Nat.eqb_eq.
  rewrite (map_fold_andb (λ k x, match m' !! k with Some y => deep_eq x y | None => false end) m).
  assert (∀ k x, match m' !! k with Some y => deep_eq x y | None => false end = true ↔
    ∃ y, m' !! k = Some y ∧ deep_eq x y = true) as Hk.
  { intros k x. destruct (m' !! k) as [y|]; [|split; [done|by intros (? & ? & _)]].
    split; [by exists y|]. by intros (? & [= ->] & ?). }
  by setoid_rewrite Hk.
Qed.

Lemma feq_refl f : feq f f = negb (IsNaN f).
Proof.
  destruct f as [s|s| |s m e]; [by destruct s|by destruct s|done|].
  unfold feq, SFeqb, SFcompare. rewrite Z.compare_refl, Pos.compare_refl. by destruct s.
Qed.

(** A value equals itself unless it holds a number that is not one. *)
Lemma deep_eq_refl v : deep_eq v v = true ↔ ¬ inside (VFloat NaN) v.
Proof.
  induction v as [v Hv|l IH|m IH] using value_nested_ind.
  - rewrite inside_leaf by done. destruct v; try done; cbn [deep_eq].
    + split; [done|]. by destruct b.
    + by rewrite Z.eqb_refl.
    + rewrite feq_refl. by destruct f.
    + by rewrite String.eqb_refl.
    + by rewrite !String.eqb_refl.
    + by rewrite String.eqb_refl.
  - rewrite deep_eq_list. split.
    + intros Hf Hin. inversion Hin as [|? y Hy Hn|]; subst. apply list_elem_of_lookup in Hy as [i Hy].
      pose proof (Forall2_lookup_lr _ _ _ _ _ _ Hf Hy Hy) as E. apply IH in E; [done|]. by apply list_elem_of_lookup_2 in Hy.
    + intros Hn. apply Forall_Forall2_diag, Forall_forall. intros x Hx. apply IH; [done|].
      intros Hin. by apply Hn, (inside_list _ _ x).
  - rewrite deep_eq_map. split.
    + intros [_ H] Hin. inversion Hin as [| |? k y Hy Hn]; subst. destruct (H k y Hy) as (y' & Hy' & E).
      rewrite Hy in Hy'. injection Hy' as <-. by apply (IH k) in E.
    + intros Hn. split; [done|]. intros k x Hx. exists x. split; [done|]. apply (IH k); [done|].
      intros Hin. by apply Hn, (inside_map _ _ k x).
Qed.

(** Only maps with the same keys are equal. *)
Lemma deep_eq_dom m m' : deep_eq (VMap m) (VMap m') = true → dom m = dom m'.
Proof.
  rewrite deep_eq_map. intros [Hs H]. apply set_subseteq_size_eq; [|rewrite !size_dom; lia].
  intros k [x Hx]%elem_of_dom. destruct (H k x Hx) as (y & Hy & _). apply elem_of_dom. by exists y.
Qed.

(** ** Merging *)

(** What a key comes to: the two values merged when both are there. *)
Definition merged (x y : option value) : option value :=
  match x, y with Some x, Some y => Some (merge_under x y) | Some x, None => Some x | None, y => y end.

Lemma merge_fold_lookup (u o : gmap string value) k :
  map_fold (λ k v out, <[k := match out !! k with Some x => merge_under x v | None => v end]> out) u o !! k =
  merged (u !! k) (o !! k).
Proof.
  apply (map_fold_weak_ind (λ out o, out !! k = merged (u !! k) (o !! k))); clear o.
  - rewrite lookup_empty. by destruct (u !! k).
  - intros i v o out Hi IH. destruct (decide (i = k)) as [->|Hne].
    + rewrite !lookup_insert_eq, IH, Hi. by destruct (u !! k).
    + by rewrite !lookup_insert_ne.
Qed.

Lemma deepMerge_lookup u o k : deepMerge u o !! k = merged (u !! k) (o !! k).
Proof. apply merge_fold_lookup. Qed.

Lemma merge_under_map u o : merge_under (VMap u) (VMap o) = VMap (deepMerge u o).
Proof. done. Qed.

Lemma merge_under_over u o :
  match u, o with VMap _, VMap _ => False | _, _ => True end → merge_under u o = o.
Proof. destruct u, o; done. Qed.

(** How templates are grouped matters when one of them replaces a map: merging
    is not associative. *)
Example merge_groups :
  let a := VMap {[ "k" := VMap {[ "x" := VInt 1 ]} ]} in
  let b := VMap {[ "k" := VStr "none" ]} in
  let c := VMap {[ "k" := VMap {[ "y" := VInt 2 ]} ]} in
  deep_eq (merge_under (merge_under a b) c) (merge_under a (merge_under b c)) = false.
Proof. vm_compute. reflexivity. Qed.

Lemma deepMerge_empty_l o : deepMerge ∅ o = o.
Proof. apply map_eq. intros k. by rewrite deepMerge_lookup, lookup_empty. Qed.

Lemma deepMerge_empty_r u : deepMerge u ∅ = u.
Proof. apply map_eq. intros k. rewrite deepMerge_lookup, lookup_empty. by destruct (u !! k). Qed.

(** ** Conversion always answers *)

(** A step from a count answers, and only counts up. *)
Definition answers {A} (r : option (A * conv)) (st : conv) : Prop :=
  ∃ v st', r = Some (v, st') ∧ cv_nodes st <= cv_nodes st'.

Lemma answers_now {A} (v : A) st st' : cv_nodes st <= cv_nodes st' → answers (Some (v, st')) st.
Proof. intros Hc. by exists v, st'. Qed.

Section converts.
Context `{GoQuote} (heap : gmap pointer Node).

Section children.
Variable rec : conv → pointer → option (value * conv).
Variable c : Z.
Hypothesis Hrec : ∀ st p, c <= cv_nodes st → answers (rec st p) st.

Lemma convert_all_answers l st : c <= cv_nodes st → answers (convert_all rec st l) st.
Proof.
  revert st. induction l as [|p l IH]; intros st Hc; cbn; [by apply answers_now|].
  destruct (Hrec st p Hc) as (v & st1 & -> & Hc1). destruct (IH st1) as (vs & st2 & -> & H2); [lia|].
  apply answers_now. lia.
Qed.

Lemma entries_answer n content : (length content <= n)%nat →
  ∀ st out merges, c <= cv_nodes st → answers (entries heap rec st out merges content) st.
Proof.
  revert content. induction n as [|n IH]; intros [|kp [|vp content]] Hn st out merges Hc; cbn in *; try lia;
    try (by apply answers_now).
  case_match; [by apply answers_now|]. case_match; [apply IH; [lia|done]|].
  case_match; [by apply answers_now|]. case_match; [by apply answers_now|].
  destruct (Hrec st vp Hc) as (v & st1 & -> & Hc1).
  destruct (IH content ltac:(lia) st1 (<[n_Value (key_node heap kp) := v]> out) merges) as (r & st2 & -> & Hc2); [lia|].
  apply answers_now. lia.
Qed.

Lemma merge_sources_answers l st out : c <= cv_nodes st → answers (merge_sources heap rec st out l) st.
Proof.
  revert st out. induction l as [|p l IH]; intros st out Hc; cbn; [by apply answers_now|].
  destruct (Hrec st p Hc) as (v & st1 & -> & Hc1). destruct v; try (by apply answers_now).
  destruct (IH st1 (out ∪ m)) as (r & st2 & -> & Hc2); [lia|]. apply answers_now. lia.
Qed.

Lemma merge_all_answers l st out : c <= cv_nodes st → answers (merge_all heap rec st out l) st.
Proof.
  revert st out. induction l as [|p l IH]; intros st out Hc; cbn; [by apply answers_now|].
  destruct (merge_sources_answers (sources_of heap p) st out Hc) as (r & st1 & -> & H1).
  destruct r as [m|r]; [|by apply answers_now].
  destruct (IH st1 m) as (r & st2 & -> & Hc2); [lia|]. apply answers_now. lia.
Qed.

Lemma mapping_answers n st : c <= cv_nodes st → answers (mapping heap rec st n) st.
Proof.
  intros Hc. unfold mapping. destruct (entries_answer _ (Content n) (le_n _) st ∅ [] Hc) as ([r merges] & st1 & -> & H1).
  destruct r as [out|r]; [|by apply answers_now].
  destruct (merge_all_answers merges st1 out) as (m & st2 & -> & H2); [lia|]. apply answers_now. lia.
Qed.
End children.

(** Each level of the conversion counts a node, and past the bound no level is
    entered: so the bound is fuel enough. *)
Lemma convert_answers fuel active st p :
  maxNodes - cv_nodes st <= Z.of_nat fuel - 1 → answers (convert heap fuel active st p) st.
Proof.
  revert active st p. induction fuel as [|fuel IH]; intros active st p Hf; cbn [convert];
    (destruct (heap !! p) as [n|]; [|by apply answers_now]); cbn [cv_nodes].
  - destruct (Z.ltb_spec maxNodes (cv_nodes st + 1)); [|lia]. case_match; apply answers_now; cbn; lia.
  - destruct (Z.ltb_spec maxNodes (cv_nodes st + 1)) as [Hm|Hm]; [case_match; apply answers_now; cbn; lia|].
    set (st1 := mkConv (cv_nodes st + 1) (fatal st)).
    assert (∀ active st' p, cv_nodes st1 <= cv_nodes st' → answers (convert heap fuel active st' p) st') as Hrec.
    { intros a st' q Hc. apply IH. cbn in Hc. lia. }
    assert (∀ A (r : option (A * conv)), answers r st1 → answers r st) as Hst.
    { intros A r (v & st2 & -> & Hc). apply answers_now. cbn in Hc. lia. }
    case_match.
    { destruct (Content n) as [|q [|? ?]]; try (apply answers_now; cbn; lia). by apply Hst, Hrec. }
    case_match.
    { destruct (n_Alias n) as [t|]; [|apply answers_now; cbn; lia].
      case_decide; [apply answers_now; cbn; lia|]. by apply Hst, Hrec. }
    case_match; [apply answers_now; cbn; lia|]. case_match; [apply answers_now; cbn; lia|].
    case_match.
    { destruct (convert_all_answers _ _ (Hrec active) (Content n) st1 (Z.le_refl _)) as (l & st2 & -> & Hc).
      apply answers_now. cbn in Hc. lia. }
    case_match; [|apply answers_now; cbn; lia]. apply Hst. by eapply mapping_answers; [apply (Hrec active)|].
Qed.

Lemma convert_document_answers p : ∃ v st, convert_document heap p = Some (v, st).
Proof.
  destruct (convert_answers (Z.to_nat (maxNodes + 1)) ∅ (mkConv 0 []) p) as (v & st & Hv & _); [|by exists v, st].
  cbn [cv_nodes]. unfold maxNodes. lia.
Qed.
End converts.

(** ** Examples *)

Section examples.
Local Instance quote_ascii : GoQuote := {| unicode_quote := λ s, s |}.

Definition scalar (tag v : string) (line : Z) : Node := mkNode ScalarNode tag v None [] line None None None.
Definition heap_of (l : list Node) : gmap pointer Node :=
  list_to_map (imap (λ i n, (Pos.of_succ_nat i, n)) l).

(** A tag GitLab would have resolved, a key written twice, an alias to the node
    it is in, and a merge that adds only what is not there. *)
Definition mapping_node (content : list pointer) : Node := mkNode MappingNode "!!map" "" None content 1 None None None.

Example tags_are_unresolved :
  fst <$> convert (heap_of [scalar "!reference" "x" 7]) 5 ∅ (mkConv 0 []) 1
  = Some (VUnresolved "a !reference tag (line 7) is not resolved here").
Proof. vm_compute. reflexivity. Qed.

Example twice_is_unresolved :
  let k := scalar "!!str" "a" 1 in
  fst <$> convert (heap_of [mapping_node [2; 3; 4; 5]%positive; k; k; k; k]) 5 ∅ (mkConv 0 []) 1
  = Some (VUnresolved ("the key " +:+ Quote "a" +:+ " appears twice in one mapping (line 1)")).
Proof. vm_compute. reflexivity. Qed.

Example loops_are_fatal :
  let k := scalar "!!str" "a" 1 in
  let loop := mkNode AliasNode "" "x" (Some 1%positive) [] 1 None None None in
  (fatal ∘ snd) <$> convert (heap_of [mapping_node [2; 3]%positive; k; loop]) 9 ∅ (mkConv 0 []) 1
  = Some ["the anchor &x contains itself"].
Proof. vm_compute. reflexivity. Qed.

Example merges_only_add :
  let k := scalar "!!str" "a" 1 in
  let heap := heap_of [mapping_node [2; 3; 4; 5]%positive; k; scalar "!!str" "own" 1; scalar "!!merge" "<<" 1;
                       mapping_node [2; 6; 7; 6]%positive; scalar "!!str" "merged" 1; scalar "!!str" "b" 1] in
  match convert heap 9 ∅ (mkConv 0 []) 1 with
  | Some (v, _) => deep_eq v (VMap {[ "a" := VStr "own"; "b" := VStr "merged" ]})
  | None => false
  end = true.
Proof. vm_compute. reflexivity. Qed.
End examples.
