(* ===== verification/CiEffective.v ===== *)
(** * [pkg/cidef]: effective job definitions ([effective.go])

    One definition per job of a merged CI document: the job's own keys over
    what it extends, over the document's defaults and global variables. What
    cannot be resolved is a problem of the document or of the job, or an
    unresolved value. The YAML decoder is a parameter. *)

From S2P Require Import Prelude.
From S2P Require Import GoStrings.
From S2P Require Import GoPath.
From S2P Require Import GoUTF8.
From S2P Require Import CiDelta.
From S2P Require Import CiValue.
From Stdlib Require Import Ascii.

(** ** Documents *)

(** What [yaml.Decoder] answers: no document, an error, or the first document
    and whether anything but the end follows it. *)
Inductive Decoded :=
| NoDocument
| DecodeError (message : string)
| Document (heap : gmap pointer Node) (root : pointer) (more : bool).
Class YamlDecoder := { decode_yaml : string → Decoded }.

Record Job := mkJob {
  jb_Name : string;
  Stage : string;
  Keys : gmap string value;
  jb_Problems : list string;
}.

(** A field with a [Has…] flag is an option. *)
Record Definition_ := mkDefinition {
  Jobs : gmap string Job;
  Stages : list string;
  Workflow : option value;
  DefaultRetry : option value;
  Variables : option value;
  df_Problems : list string;
}.

Definition maxExtendsDepth : Z := 11.
Definition legacyDefaultKeys : list string := ["image"; "services"; "cache"; "before_script"; "after_script"].
Definition reservedTopLevel : list string :=
  ["default"; "include"; "stages"; "variables"; "workflow";
   "image"; "services"; "cache"; "before_script"; "after_script"].

(** [None]: not enough fuel. *)
Definition parseRoot `{GoUnicode, GoQuote, YamlDecoder} (mergedYAML : string) :
    option (result (list string) (gmap string value)) :=
  if len (TrimSpace mergedYAML) =? 0 then Some (Err ["no merged CI YAML"])
  else
    match decode_yaml mergedYAML with
    | NoDocument => Some (Err ["the merged CI YAML holds no document"])
    | DecodeError e => Some (Err ["the merged CI YAML does not parse: " +:+ e])
    | Document heap root more =>
        if more then Some (Err ["the merged CI YAML holds more than one YAML document"])
        else
          match convert_document heap root with
          | None => None
          | Some (v, st) =>
              if (0 <? length (fatal st))%nat then Some (Err (fatal st))
              else
                match v with
                | VMap root => Some (Ok root)
                | VUnresolved r => Some (Err ["the root of the merged CI YAML: " +:+ r])
                | _ => Some (Err ["the root of the merged CI YAML is not a mapping"])
                end
          end
    end.

(** ** Templates *)

Record resolved := mkResolved { rs_keys : gmap string value; rs_depth : Z; rs_problems : list string }.
Definition failed_to_resolve (problems : list string) : resolved := mkResolved ∅ 0 problems.

(** The names in a list of values, when all are names. *)
Fixpoint names_in (l : list value) : option (list string) :=
  match l with
  | [] => Some []
  | VStr s :: l => match names_in l with Some names => Some (s :: names) | None => None end
  | _ :: _ => None
  end.
Definition extendsNames (v : value) : option (list string) :=
  match v with VStr s => Some [s] | VList l => names_in l | _ => None end.

Section resolver.
Context `{GoQuote} (root : gmap string value).

(** A definition that is resolved, or the templates its own keys go over. *)
Definition look (name : string) : resolved + (gmap string value * list string) :=
  match root !! name with
  | None => inl (failed_to_resolve ["`extends` names " +:+ Quote name +:+ ", which the merged YAML does not define"])
  | Some (VMap own) =>
      match own !! keyExtends with
      | None => inl (mkResolved own 0 [])
      | Some ext =>
          match extendsNames ext with
          | None => inl (failed_to_resolve ["the `extends` of " +:+ Quote name +:+ " is not a name or a list of names"])
          | Some names => inr (own, names)
          end
      end
  | Some (VUnresolved r) => inl (failed_to_resolve [Quote name +:+ ": " +:+ r])
  | Some _ => inl (failed_to_resolve [Quote name +:+ " is not a mapping"])
  end.

Abbreviation cache := (gmap string resolved).

Section parents.
Variable resolve : cache → string → option (resolved * cache).

(** The templates merged, a later one over an earlier one, and their depth; or
    the problems of the first that has any. *)
Fixpoint parents (done_ : cache) (merged : gmap string value) (depth : Z) (names : list string) :
    option ((list string + gmap string value * Z) * cache) :=
  match names with
  | [] => Some (inr (merged, depth), done_)
  | n :: names =>
      match resolve done_ n with
      | None => None
      | Some (parent, done_) =>
          if (0 <? length (rs_problems parent))%nat then Some (inl (rs_problems parent), done_)
          else parents done_ (deepMerge merged (rs_keys parent))
                 (if depth <? rs_depth parent + 1 then rs_depth parent + 1 else depth) names
      end
  end.
End parents.

(** [None]: not enough fuel. *)
Fixpoint resolve (fuel : nat) (chain : list string) (done_ : cache) (name : string) : option (resolved * cache) :=
  match done_ !! name with
  | Some res => Some (res, done_)
  | None =>
      if contains chain name then
        Some (failed_to_resolve ["an `extends` cycle: " +:+ Join (chain ++ [name]) " -> "], done_)
      else
        match fuel with
        | O => None
        | S fuel =>
            let answer (res : resolved) (d : cache) := Some (res, <[name := res]> d) in
            match look name with
            | inl res => answer res done_
            | inr (own, names) =>
                match parents (resolve fuel (chain ++ [name])) done_ ∅ 0 names with
                | None => None
                | Some (inl problems, d) => answer (failed_to_resolve problems) d
                | Some (inr (merged, depth), d) =>
                    if maxExtendsDepth <? depth then
                      answer (failed_to_resolve ["the `extends` chain of " +:+ Quote name +:+ " is deeper than " +:+
                                itoa maxExtendsDepth +:+ " levels"]) d
                    else answer (mkResolved (deepMerge merged own) depth []) d
                end
            end
        end
  end.

(** Fuel: the names on a chain are distinct, and all but the last are defined. *)
Definition resolve_job (done_ : cache) (name : string) : option (resolved * cache) :=
  resolve (S (size root)) [] done_ name.
End resolver.

(** ** Inheritance *)

Definition all_names (k : string) : bool := true.

Definition pick (m : gmap string value) (key : string) : result string (string → bool) :=
  match m !! key with
  | None => Ok all_names
  | Some VNull => Err ("`inherit." +:+ key +:+ "` is null")
  | Some (VBool b) => Ok (λ _, b)
  | Some (VList l) =>
      match names_in l with
      | Some names => Ok (contains names)
      | None => Err ("`inherit." +:+ key +:+ "` lists something that is not a name")
      end
  | Some _ => Err ("`inherit." +:+ key +:+ "` is neither true, false nor a list of names")
  end.

Definition unknown_inherit (kv : string * value) : option string :=
  if String.eqb kv.1 "default" || String.eqb kv.1 "variables" then None
  else Some ("`inherit." +:+ kv.1 +:+ "` is not something this package knows how to apply").

(** [(defaultKey, variable)]. *)
Definition inheritance `{MapRange} (v : option value) : result string ((string → bool) * (string → bool)) :=
  match v with
  | None | Some VNull => Ok (all_names, all_names)
  | Some (VMap m) =>
      match first_of unknown_inherit (range_map m) with
      | Some e => Err e
      | None =>
          match pick m "default" with
          | Err e => Err e
          | Ok defaultKey => match pick m "variables" with Err e => Err e | Ok variable => Ok (defaultKey, variable) end
          end
      end
  | Some _ => Err "`inherit` is not a mapping"
  end.

Definition applyGlobalVariables (keys global : gmap string value) (inherit : string → bool) : gmap string value :=
  let inherited := filter (λ kv, inherit kv.1 = true) global in
  if decide (inherited = ∅) then keys
  else match keys !! GlobalVariables with
       | None => <[GlobalVariables := VMap inherited]> keys
       | Some (VMap own) => <[GlobalVariables := VMap (own ∪ inherited)]> keys
       | Some _ => keys
       end.

(** ** The document *)

Definition as_map (v : value) : option (gmap string value) := match v with VMap m => Some m | _ => None end.

(** The top-level spellings of defaults. *)
Fixpoint legacy (root : gmap string value) (ks : list string) (defaults : gmap string value) (problems : list string) :
    gmap string value * list string :=
  match ks with
  | [] => (defaults, problems)
  | k :: ks =>
      match root !! k with
      | None => legacy root ks defaults problems
      | Some v =>
          match defaults !! k with
          | Some _ =>
              legacy root ks defaults (problems ++ ["`" +:+ k +:+ "` is set both at the top level and in `default:`"])
          | None => legacy root ks (<[k := v]> defaults) problems
          end
      end
  end.

Definition default_problems (root : gmap string value) : list string :=
  match root !! "default" with
  | Some (VMap _) | None => []
  | Some _ => ["`default:` is not a mapping"]
  end.
Definition default_block (root : gmap string value) : gmap string value :=
  match root !! "default" with Some (VMap m) => m | _ => ∅ end.

(** [(defaults, problems)]. *)
Definition defaults_of (root : gmap string value) : gmap string value * list string :=
  legacy root legacyDefaultKeys (default_block root) (default_problems root).

Definition variables_problems (root : gmap string value) : list string :=
  match root !! GlobalVariables with
  | None | Some (VMap _) | Some (VUnresolved _) => []
  | Some _ => ["the top-level `variables:` is not a mapping"]
  end.
Definition global_variables (root : gmap string value) : gmap string value :=
  match root !! GlobalVariables with Some (VMap m) => m | _ => ∅ end.

Fixpoint stage_names (l : list value) : list string * list string :=
  match l with
  | [] => ([], [])
  | v :: l =>
      let '(names, problems) := stage_names l in
      match v with
      | VStr s => (s :: names, problems)
      | _ => (names, "`stages:` holds something that is not a stage name" :: problems)
      end
  end.
(** [(stages, problems)]. *)
Definition stages_of (root : gmap string value) : list string * list string :=
  match root !! GlobalStages with
  | None => (DefaultStages, [])
  | Some (VList l) => stage_names l
  | Some _ => ([], ["`stages:` is not a list"])
  end.

Definition include_problems (root : gmap string value) : list string :=
  match root !! "include" with
  | Some _ => ["an `include:` is left in the merged YAML: the included definition is not in this document"]
  | None => []
  end.

(** ** Jobs *)

Definition job_problem (name problem : string) : Job := mkJob name DefaultStage ∅ [problem].

(** A trigger of a child pipeline runs what this document does not hold. *)
Definition child_pipeline (keys : gmap string value) : gmap string value :=
  match keys !! "trigger" with
  | Some (VMap t) =>
      match t !! "include" with
      | Some _ =>
          <["trigger" := VUnresolved
              "a child pipeline (`trigger: include`): its definition is not in this document"]> keys
      | None => keys
      end
  | _ => keys
  end.

Definition job_of `{MapRange} (defaults globalVars : gmap string value) (name : string) (res : resolved) : Job :=
  if (0 <? length (rs_problems res))%nat then mkJob name DefaultStage ∅ (rs_problems res)
  else
    let keys := delete keyExtends (rs_keys res) in
    match inheritance (keys !! "inherit") with
    | Err e => job_problem name e
    | Ok (inheritDefault, inheritVars) =>
        let keys := keys ∪ filter (λ kv, inheritDefault kv.1 = true) defaults in
        let keys := applyGlobalVariables keys globalVars inheritVars in
        match keys !! KeyStage with
        | None => mkJob name DefaultStage (child_pipeline (<[KeyStage := VStr DefaultStage]> keys)) []
        | Some VNull => job_problem name "`stage` is null"
        | Some (VStr s) => mkJob name s (child_pipeline keys) []
        | Some _ => job_problem name "`stage` is not a stage name"
        end
    end.

Definition is_job (name : string) : bool := negb (contains reservedTopLevel name) && negb (HasPrefix name ".").

Fixpoint jobs_from `{MapRange, GoQuote} (root defaults globalVars : gmap string value) (names : list string)
    (done_ : gmap string resolved) (jobs : gmap string Job) : option (gmap string Job) :=
  match names with
  | [] => Some jobs
  | name :: names =>
      if negb (is_job name) then jobs_from root defaults globalVars names done_ jobs
      else
        match resolve_job root done_ name with
        | None => None
        | Some (res, done_) =>
            jobs_from root defaults globalVars names done_ (<[name := job_of defaults globalVars name res]> jobs)
        end
  end.

Definition effective_root `{MapRange, GoQuote} (root : gmap string value) : option Definition_ :=
  let '(defaults, default_errs) := defaults_of root in
  let '(stages, stage_errs) := stages_of root in
  let problems := include_problems root ++ default_errs ++ variables_problems root ++ stage_errs in
  let def jobs := mkDefinition jobs stages (root !! GlobalWorkflow) (defaults !! "retry") (root !! GlobalVariables) problems in
  if (0 <? length problems)%nat then Some (def ∅)
  else def <$> jobs_from root defaults (global_variables root) (sorted_keys root) ∅ ∅.

Definition Effective `{MapRange, GoUnicode, GoQuote, YamlDecoder} (mergedYAML : string) : option Definition_ :=
  match parseRoot mergedYAML with
  | None => None
  | Some (Err problems) => Some (mkDefinition ∅ [] None None None problems)
  | Some (Ok root) => effective_root root
  end.

(** The lenient reading of a job's [extends]; [None]: not enough fuel. *)
Definition ExtendsOf `{GoQuote} (heap : gmap pointer Node) (job : pointer) : option (list string) :=
  match convert_document heap job with
  | None => None
  | Some (VMap m, _) =>
      Some match m !! keyExtends with
           | Some (VStr s) => [s]
           | Some (VList l) => omap (λ e, match e with VStr s => Some s | _ => None end) l
           | _ => []
           end
  | Some _ => Some []
  end.

(** ** Names of pipeline jobs *)

Definition has_newline (s : string) : bool := ContainsAny s (λ c, Ascii.eqb c newline).

(** Digits from the end: the digits, and what is before them. *)
Definition digits_back (s : string) : string * string :=
  let '(d, rest) := (fix go (s : string) (d : string) : string * string :=
      match s with
      | String c s' => if is_digit c then go s' (String c d) else (d, s)
      | EmptyString => (d, EmptyString)
      end) (string_rev s) "" in
  (d, string_rev rest).

(** [^(.+) \d+/\d+$]: what is matched by the group. *)
Definition parallelIndex (s : string) : option string :=
  if has_newline s then None
  else
    let '(d2, s) := digits_back s in
    if String.eqb d2 "" || negb (HasSuffix s "/") then None
    else
      let '(d1, s) := digits_back (String.substring 0 (String.length s - 1) s) in
      if String.eqb d1 "" || negb (HasSuffix s " ") then None
      else
        let name := String.substring 0 (String.length s - 1) s in
        if String.eqb name "" then None else Some name.

(** The last place [sub] occurs at, after the first byte. *)
Fixpoint last_index (s sub : string) (i : nat) : option nat :=
  match s with
  | EmptyString => if String.prefix sub s then Some i else None
  | String _ s' =>
      match last_index s' sub (S i) with
      | Some j => Some j
      | None => if String.prefix sub s then Some i else None
      end
  end.

(** [^(.+): \[.*\]$]: the group is as long as it can be. *)
Definition parallelMatrix (s : string) : option string :=
  if has_newline s then None
  else if negb (HasSuffix s "]") then None
  else
    match last_index (String.substring 0 (String.length s - 1) s) ": [" 0 with
    | Some (S i) => Some (String.substring 0 (S i) s)
    | _ => None
    end.

Definition parallel_job (def : Definition_) (name : option string) : option string :=
  match name with
  | None => None
  | Some name =>
      match Jobs def !! name with
      | Some j => match Keys j !! "parallel" with Some _ => Some name | None => None end
      | None => None
      end
  end.

(** No definition is one without jobs here. *)
Definition DefinitionName (def : Definition_) (pipelineJobName : string) : option string :=
  match Jobs def !! pipelineJobName with
  | Some _ => Some pipelineJobName
  | None =>
      match parallel_job def (parallelIndex pipelineJobName) with
      | Some name => Some name
      | None => parallel_job def (parallelMatrix pipelineJobName)
      end
  end.

(** * Proofs *)

(** ** What a definition resolves to *)

Section reference.
Context `{GoQuote} (root : gmap string value).

(** The rule, without chains, caches or fuel: a definition that extends nothing
    is itself; one that extends resolved templates goes over their merge, if
    they are not nested too deep. *)
Inductive extended : string → gmap string value → Z → Prop :=
| extended_plain name own :
    look root name = inl (mkResolved own 0 []) → extended name own 0
| extended_over name own names merged depth :
    look root name = inr (own, names) → templates ∅ 0 names merged depth → depth <= maxExtendsDepth →
    extended name (deepMerge merged own) depth
with templates : gmap string value → Z → list string → gmap string value → Z → Prop :=
| templates_nil m d : templates m d [] m d
| templates_cons m d n names keys dn m' d' :
    extended n keys dn → templates (deepMerge m keys) (Z.max d (dn + 1)) names m' d' →
    templates m d (n :: names) m' d'.

Scheme extended_mut := Induction for extended Sort Prop
with templates_mut := Induction for templates Sort Prop.

Lemma extended_det n k d k' d' : extended n k d → extended n k' d' → k = k' ∧ d = d'.
Proof.
  intros He. revert k' d'.
  induction He using extended_mut with
    (P0 := λ m d names m1 d1 _, ∀ m2 d2, templates m d names m2 d2 → m1 = m2 ∧ d1 = d2).
  - intros k' d' Hx. inversion Hx; subst; split; congruence.
  - intros k' d' Hx. inversion Hx as [? ? E|? ? ? ? ? E Ht]; subst; [congruence|].
    rewrite E in e. injection e as -> ->. destruct (IHHe _ _ Ht) as [-> ->]. done.
  - intros m2 d2 Hx. by inversion Hx.
  - intros m2 d2 Hx. inversion Hx as [|? ? ? ? ? ? ? ? H1 H2]; subst.
    destruct (IHHe _ _ H1) as [-> ->]. by apply IHHe0.
Qed.

Lemma templates_det m d names m1 d1 m2 d2 :
  templates m d names m1 d1 → templates m d names m2 d2 → m1 = m2 ∧ d1 = d2.
Proof.
  intros Ht. revert m2 d2. induction Ht as [|m d n names keys dn m1 d1 He Ht IH]; intros m2 d2 Hx; [by inversion Hx|].
  inversion Hx as [|? ? ? ? ? ? ? ? He2 Ht2]; subst. destruct (extended_det _ _ _ _ _ He He2) as [<- <-]. by apply IH.
Qed.

Lemma templates_all m d names m' d' n :
  templates m d names m' d' → n ∈ names → ∃ k dn, extended n k dn.
Proof.
  induction 1 as [|m d x names keys dn m' d' He Ht IH]; [by intros ?%elem_of_nil|].
  rewrite elem_of_cons. intros [->|Hn]; [by exists keys, dn|auto].
Qed.

(** [a]'s definition names [b] in its [extends]. *)
Definition names_template (a b : string) : Prop := ∃ own names, look root a = inr (own, names) ∧ b ∈ names.

Lemma extended_acc n k d : extended n k d → Acc (flip names_template) n.
Proof.
  intros He. induction He using extended_mut with
    (P0 := λ m d names m1 d1 _, ∀ n, n ∈ names → Acc (flip names_template) n).
  - constructor. intros b (own' & names & E & _). congruence.
  - constructor. intros b (own' & names' & E & Hb). rewrite E in e. injection e as -> ->. auto.
  - intros n Hn. by apply elem_of_nil in Hn.
  - intros x [->|Hx]%elem_of_cons; auto.
Qed.

(** What is on a cycle resolves to nothing. *)
Lemma cycle_unresolved n : tc names_template n n → ¬ ∃ k d, extended n k d.
Proof.
  intros Hc (k & d & Hacc%extended_acc). induction Hacc as [x _ IH].
  inversion Hc as [? ? H1|? y ? H1 H2]; subst; [by apply (IH x)|].
  apply (IH y); [done|]. by eapply tc_r.
Qed.

(** ** The resolver *)

(** A result says what the rule says. *)
Definition right (n : string) (res : resolved) : Prop :=
  (rs_problems res = [] → extended n (rs_keys res) (rs_depth res)) ∧
  (rs_problems res ≠ [] → ¬ ∃ k d, extended n k d).
Definition good (d : gmap string resolved) : Prop := ∀ n res, d !! n = Some res → right n res.

Lemma good_empty : good ∅.
Proof. intros n res. by rewrite lookup_empty. Qed.
Lemma good_insert d n res : good d → right n res → good (<[n := res]> d).
Proof. intros Hd Hr m r [[<- <-]|[_ Hm]]%lookup_insert_Some; [done|by apply Hd]. Qed.

Lemma right_failed n problems : problems ≠ [] → (¬ ∃ k d, extended n k d) → right n (failed_to_resolve problems).
Proof. intros Hp Hn. by split. Qed.

Lemma look_inl n res : look root n = inl res → right n res.
Proof.
  intros Hl. assert (rs_problems res ≠ [] ∨ ∃ own, res = mkResolved own 0 []) as [Hp|(own & ->)].
  - revert Hl. unfold look. repeat case_match; intros [= <-]; try (by left). right. by eexists.
  - split; [done|]. intros _ (k & d & He).
    inversion He as [? ? E|? ? ? ? ? E]; subst; rewrite Hl in E; [injection E as ->; by destruct Hp|done].
  - split; [|done]. intros _. by apply extended_plain.
Qed.

Lemma look_inr n own names : look root n = inr (own, names) → is_Some (root !! n).
Proof. unfold look. destruct (root !! n); [by eexists|done]. Qed.

Lemma parents_right rec m depth names d :
  (∀ d n, good d → n ∈ names → ∃ res d', rec d n = Some (res, d') ∧ good d' ∧ right n res) → good d →
  ∃ out d', parents rec d m depth names = Some (out, d') ∧ good d' ∧
    match out with
    | inr (m', depth') => templates m depth names m' depth'
    | inl problems => problems ≠ [] ∧ ∃ n, n ∈ names ∧ ¬ ∃ k dn, extended n k dn
    end.
Proof.
  revert m depth d. induction names as [|n names IH]; intros m depth d Hrec Hd; cbn [parents].
  { eexists (inr (m, depth)), d. split; [done|]. split; [done|constructor]. }
  destruct (Hrec d n Hd ltac:(by left)) as (res & d1 & -> & Hd1 & Hr).
  destruct (0 <? length (rs_problems res))%nat eqn:El.
  - eexists (inl _), d1. split; [done|]. split; [done|].
    assert (rs_problems res ≠ []) as Hp by (intros E; by rewrite E in El).
    split; [done|]. exists n. split; [by left|]. by apply Hr.
  - apply length_pos in El. destruct (IH (deepMerge m (rs_keys res))
      (if depth <? rs_depth res + 1 then rs_depth res + 1 else depth) d1) as (out & d2 & -> & Hd2 & Ho); [|done|].
    { intros d' x Hd' Hx. apply Hrec; [done|by right]. }
    exists out, d2. split; [done|]. split; [done|]. destruct out as [problems|[m' depth']].
    + destruct Ho as (Hp & x & Hx & Hn). split; [done|]. exists x. split; [by right|done].
    + eapply templates_cons; [by apply Hr|].
      assert (Z.max depth (rs_depth res + 1) = if depth <? rs_depth res + 1 then rs_depth res + 1 else depth) as ->.
      { destruct (Z.ltb_spec depth (rs_depth res + 1)); lia. }
      done.
Qed.

(** From any cache that is right and any chain that leads here, the resolver
    answers, and rightly, and leaves the cache right. *)
Lemma resolve_right fuel chain d name :
  good d → NoDup chain → (∀ x, x ∈ chain → is_Some (root !! x)) → (∀ x, x ∈ chain → tc names_template x name) →
  (size root < fuel + length chain)%nat →
  ∃ res d', resolve root fuel chain d name = Some (res, d') ∧ good d' ∧ right name res.
Proof.
  revert chain d name. induction fuel as [|fuel IH]; intros chain d name Hd Hnd Hroot Hpath Hf; cbn [resolve].
  all: destruct (d !! name) as [res|] eqn:Hdn; [exists res, d; split_and!; [done..|by apply Hd]|].
  all: destruct (contains chain name) eqn:Hc;
    [apply contains_elem in Hc; eexists _, d; split; [done|]; split; [done|];
     apply right_failed; [done|]; by apply cycle_unresolved, Hpath|].
  - exfalso. assert (list_to_set (C:=gset string) chain ⊆ dom root) as Hs.
    { intros x Hx. apply elem_of_dom, Hroot. by apply elem_of_list_to_set in Hx. }
    apply subseteq_size in Hs. rewrite size_list_to_set, size_dom in Hs by done. lia.
  - apply contains_false in Hc. destruct (look root name) as [res|[own names]] eqn:Hl.
    { exists res, (<[name := res]> d). pose proof (look_inl _ _ Hl). split; [done|]. split; [by apply good_insert|done]. }
    destruct (parents_right (resolve root fuel (chain ++ [name])) ∅ 0 names d) as (out & d1 & -> & Hd1 & Ho); [|done|].
    { intros d' n Hd' Hn. assert (names_template name n) as He by by exists own, names.
      apply IH; [done|apply NoDup_app; split_and!; [done|set_solver|apply NoDup_singleton]| | |rewrite length_app; cbn; lia].
      - intros x [Hx| ->%list_elem_of_singleton]%elem_of_app; [auto|]. by eapply look_inr.
      - intros x [Hx| ->%list_elem_of_singleton]%elem_of_app; [|by apply tc_once]. by eapply tc_r; [apply Hpath|]. }
    assert (∀ res, right name res → ∃ r d', Some (res, <[name := res]> d1) = Some (r, d') ∧ good d' ∧ right name r) as Hans.
    { intros res Hr. exists res, (<[name := res]> d1). split; [done|]. split; [by apply good_insert|done]. }
    destruct out as [problems|[merged depth]].
    + destruct Ho as (Hp & n & Hn & Hno). apply Hans, right_failed; [done|]. intros (k & dn & He). apply Hno.
      inversion He as [? ? E|? ? ? ? ? E Ht]; subst; [congruence|]. rewrite Hl in E. injection E as <- <-.
      by eapply templates_all.
    + destruct (Z.ltb_spec maxExtendsDepth depth) as [Hx|Hx]; apply Hans.
      * apply right_failed; [done|]. intros (k & dn & He).
        inversion He as [? ? E|? ? ? m' ? E Ht Hle]; subst; [congruence|]. rewrite Hl in E. injection E as <- <-.
        destruct (templates_det _ _ _ _ _ _ _ Ho Ht) as [_ <-]. lia.
      * split; [|done]. intros _. by apply extended_over with names.
Qed.
End reference.

(** ** What a job's keys come to *)

Section effective.
Context `{MapRange} `{GoQuote} (root : gmap string value).

(** The value of one key: the job's, or the default it inherits. *)
Definition own_or_default (keys defaults : gmap string value) (inheritDefault : string → bool) (k : string) : option value :=
  match (if decide (k = keyExtends) then None else keys !! k) with
  | Some v => Some v
  | None => if inheritDefault k then defaults !! k else None
  end.

(** The global variables a job inherits, under its own. *)
Definition inherited_variables (global : gmap string value) (inherit : string → bool) : gmap string value :=
  filter (λ kv, inherit kv.1 = true) global.
Definition over_globals (inherited : gmap string value) (v : option value) : option value :=
  if decide (inherited = ∅) then v
  else match v with
       | None => Some (VMap inherited)
       | Some (VMap own) => Some (VMap (own ∪ inherited))
       | Some v => Some v
       end.

Definition not_child (v : option value) : option value :=
  match v with
  | Some (VMap t) =>
      match t !! "include" with
      | Some _ => Some (VUnresolved "a child pipeline (`trigger: include`): its definition is not in this document")
      | None => v
      end
  | _ => v
  end.

Definition effective_key (keys defaults global : gmap string value) (inhD inhV : string → bool) (k : string) :
    option value :=
  let v := own_or_default keys defaults inhD k in
  if String.eqb k GlobalVariables then over_globals (inherited_variables global inhV) v
  else if String.eqb k KeyStage then Some (default (VStr DefaultStage) v)
  else if String.eqb k "trigger" then not_child v
  else v.

(** A job whose definition is whole: resolved, its [inherit] understood and its
    stage a name. *)
Definition whole (keys defaults : gmap string value) (inhD inhV : string → bool) : Prop :=
  inheritance (delete keyExtends keys !! "inherit") = Ok (inhD, inhV) ∧
  match own_or_default keys defaults inhD KeyStage with None | Some (VStr _) => True | _ => False end.

Lemma with_defaults keys defaults inhD k :
  (delete keyExtends keys ∪ filter (λ kv, inhD kv.1 = true) defaults) !! k = own_or_default keys defaults inhD k.
Proof.
  unfold own_or_default. rewrite lookup_union, map_lookup_filter, lookup_delete. cbn [fst].
  destruct (decide (k = keyExtends)) as [->|Hne].
  - rewrite decide_True by done. destruct (defaults !! keyExtends) as [v|]; cbn; [|by case_match].
    destruct (inhD keyExtends); done.
  - rewrite decide_False by done. destruct (keys !! k) as [v|]; destruct (defaults !! k) as [w|]; cbn;
      destruct (inhD k); done.
Qed.

Lemma with_globals keys global inhV k :
  applyGlobalVariables keys global inhV !! k =
  if String.eqb k GlobalVariables then over_globals (inherited_variables global inhV) (keys !! k) else keys !! k.
Proof.
  unfold applyGlobalVariables, over_globals. fold (inherited_variables global inhV).
  destruct (String.eqb_spec k GlobalVariables) as [->|Hne]; case_decide; try done.
  - destruct (keys !! GlobalVariables) as [[]|] eqn:E; rewrite ?lookup_insert_eq, ?E; done.
  - destruct (keys !! GlobalVariables) as [[]|]; rewrite ?lookup_insert_ne by done; done.
Qed.

Lemma child_pipeline_lookup keys k :
  child_pipeline keys !! k = if String.eqb k "trigger" then not_child (keys !! k) else keys !! k.
Proof.
  unfold child_pipeline, not_child. destruct (String.eqb_spec k "trigger") as [->|Hne].
  - destruct (keys !! "trigger") as [[]|] eqn:E; try (by rewrite E). destruct (m !! "include"); [|by rewrite E].
    by rewrite lookup_insert_eq.
  - destruct (keys !! "trigger") as [[]|]; try done. destruct (m !! "include"); [|done]. by rewrite lookup_insert_ne.
Qed.

Lemma job_of_exact defaults global name res :
  let j := job_of defaults global name res in
  jb_Name j = name ∧
  (jb_Problems j = [] ↔ rs_problems res = [] ∧ ∃ inhD inhV, whole (rs_keys res) defaults inhD inhV) ∧
  (jb_Problems j = [] → ∃ inhD inhV, whole (rs_keys res) defaults inhD inhV ∧
     ∀ k, Keys j !! k = effective_key (rs_keys res) defaults global inhD inhV k).
Proof.
  cbn zeta. unfold job_of. destruct (rs_problems res) as [|p ps]; cbn [length Nat.ltb Nat.leb].
  2:{ split; [done|]. split; [split; [done|by intros []]|done]. }
  unfold whole. destruct (inheritance _) as [[inhD inhV]|e] eqn:Ei.
  2:{ split; [done|]. split; [split; [done|]|done]. intros (_ & ? & ? & ? & _). congruence. }
  rewrite with_globals, with_defaults. change (String.eqb KeyStage GlobalVariables) with false. cbn iota.
  assert (∀ k, k ≠ KeyStage →
    child_pipeline (applyGlobalVariables (delete keyExtends (rs_keys res) ∪ filter (λ kv, inhD kv.1 = true) defaults) global inhV) !! k =
    effective_key (rs_keys res) defaults global inhD inhV k) as Hk.
  { intros k Hne. unfold effective_key. rewrite child_pipeline_lookup, with_globals, with_defaults.
    rewrite (proj2 (String.eqb_neq k KeyStage) Hne).
    destruct (String.eqb_spec k GlobalVariables) as [->|]; done. }
  destruct (own_or_default (rs_keys res) defaults inhD KeyStage) as [v|] eqn:Es.
  - assert (match v with VStr _ => False | _ => True end ∨ ∃ s, v = VStr s) as [Hv|(s & ->)]
      by (destruct v; eauto).
    + assert (∀ x y, Ok (inhD, inhV) = Ok (E := string) (x, y) →
        ¬ match own_or_default (rs_keys res) defaults x KeyStage with None | Some (VStr _) => True | _ => False end) as Hno.
      { intros x y [= <- <-]. rewrite Es. destruct v; cbn in Hv |- *; tauto. }
      destruct v; try (by cbn in Hv); (split; [done|]; split; [split; [done|]|done]; intros (_ & x & y & Hx & Hy); by destruct (Hno x y Hx)).
    + split; [done|]. split; [split; [|done]|].
      * intros _. split; [done|]. exists inhD, inhV. by rewrite Es.
      * intros _. exists inhD, inhV. rewrite Es. split; [done|]. intros k. cbn [Keys].
        destruct (decide (k = KeyStage)) as [->|Hne]; [|by apply Hk].
        rewrite child_pipeline_lookup, with_globals, with_defaults. unfold effective_key. cbn. by rewrite Es.
  - split; [done|]. split; [split; [|done]|].
    + intros _. split; [done|]. exists inhD, inhV. by rewrite Es.
    + intros _. exists inhD, inhV. rewrite Es. split; [done|]. intros k. cbn [Keys].
      rewrite child_pipeline_lookup. destruct (decide (k = KeyStage)) as [->|Hne].
      * rewrite lookup_insert_eq. unfold effective_key. cbn. by rewrite Es.
      * rewrite lookup_insert_ne by done. rewrite <- Hk by done. by rewrite child_pipeline_lookup.
Qed.

Lemma jobs_from_exact defaults global names d jobs :
  good root d →
  ∃ js, jobs_from root defaults global names d jobs = Some js ∧
  ∀ name, (name ∈ names ∧ is_job name = true →
             ∃ res, right root name res ∧ js !! name = Some (job_of defaults global name res)) ∧
          (¬ (name ∈ names ∧ is_job name = true) → js !! name = jobs !! name).
Proof.
  revert d jobs. induction names as [|n names IH]; intros d jobs Hd; cbn [jobs_from].
  { exists jobs. split; [done|]. intros name. split; [by intros [?%elem_of_nil _]|done]. }
  destruct (is_job n) eqn:Hn; cbn [negb].
  - destruct (resolve_right root (S (size root)) [] d n Hd) as (res & d1 & E & Hd1 & Hr);
      [constructor|by intros ? ?%elem_of_nil|by intros ? ?%elem_of_nil|cbn; lia|].
    unfold resolve_job. rewrite E. destruct (IH d1 (<[n := job_of defaults global n res]> jobs) Hd1) as (js & -> & Hjs).
    exists js. split; [done|]. intros name. destruct (Hjs name) as [H1 H2]. split.
    + intros [[->|Hin]%elem_of_cons Hj]; [|auto].
      destruct (decide (n ∈ names)) as [Hin|Hin]; [auto|]. exists res. split; [done|].
      rewrite H2 by tauto. by rewrite lookup_insert_eq.
    + rewrite elem_of_cons. intros Hno. rewrite H2 by tauto. rewrite lookup_insert_ne; [done|]. intros ->. tauto.
  - destruct (IH d jobs Hd) as (js & -> & Hjs). exists js. split; [done|]. intros name. destruct (Hjs name) as [H1 H2].
    rewrite elem_of_cons. split; [|intros Hno; apply H2; tauto]. intros [[->|?] ?]; [congruence|auto].
Qed.

Lemma effective_root_answers : is_Some (effective_root root).
Proof.
  unfold effective_root. destruct (defaults_of root) as [defaults derrs]. destruct (stages_of root) as [stages serrs].
  destruct (0 <? length _)%nat; [by eexists|].
  destruct (jobs_from_exact defaults (global_variables root) (sorted_keys root) ∅ ∅ (good_empty root)) as (js & -> & _).
  by eexists.
Qed.

(** C19. The definition of a document always comes, and is the one GitLab's rules
    give. When the document has no problem, its jobs are the top-level keys that
    are neither reserved nor hidden; a job is without problems exactly when what
    it extends resolves (no cycle, nothing undefined, at most eleven levels), its
    [inherit] is one this package can apply and its stage is a name; and then
    each of its keys is its own after the templates, or else the default it
    inherits, with the global variables it inherits under its own, stage [test]
    when it has none, and a child pipeline's trigger unresolved. *)
Theorem effective_exact :
  ∃ def, effective_root root = Some def ∧
  (df_Problems def = [] → ∀ name,
     (is_Some (Jobs def !! name) ↔ is_Some (root !! name) ∧ is_job name = true) ∧
     ∀ j, Jobs def !! name = Some j →
       (jb_Problems j = [] ↔ ∃ keys depth inhD inhV, extended root name keys depth ∧ whole keys (defaults_of root).1 inhD inhV) ∧
       (jb_Problems j = [] → ∃ keys depth inhD inhV,
          extended root name keys depth ∧ whole keys (defaults_of root).1 inhD inhV ∧
          ∀ k, Keys j !! k = effective_key keys (defaults_of root).1 (global_variables root) inhD inhV k)).
Proof.
  unfold effective_root. destruct (defaults_of root) as [defaults derrs]. destruct (stages_of root) as [stages serrs].
  cbn [fst]. destruct (0 <? length _)%nat eqn:El.
  { eexists. split; [done|]. cbn [df_Problems]. intros E. by rewrite E in El. }
  destruct (jobs_from_exact defaults (global_variables root) (sorted_keys root) ∅ ∅ (good_empty root)) as (js & -> & Hjs).
  eexists. split; [reflexivity|]. intros _ name. cbn [Jobs]. destruct (Hjs name) as [H1 H2]. rewrite elem_of_sorted_keys in H1, H2.
  destruct (decide (is_Some (root !! name) ∧ is_job name = true)) as [Hj|Hj].
  - destruct (H1 Hj) as (res & Hr & Hlook). rewrite Hlook. split; [split; [done|by eexists]|]. intros j [= <-].
    destruct (job_of_exact defaults (global_variables root) name res) as (_ & Hp & Hk). rewrite Hp in Hk. rewrite Hp. split.
    + split.
      * intros [Hrp (inhD & inhV & Hw)]. exists (rs_keys res), (rs_depth res), inhD, inhV. split; [by apply Hr|done].
      * intros (keys & depth & inhD & inhV & He & Hw).
        destruct (decide (rs_problems res = [])) as [Hrp|Hrp]; [|destruct (proj2 Hr Hrp); by exists keys, depth].
        destruct (extended_det _ _ _ _ _ _ He (proj1 Hr Hrp)) as [-> ->]. split; [done|]. by exists inhD, inhV.
    + intros Hx. destruct (Hk Hx) as (inhD & inhV & Hw & Hkeys). destruct Hx as [Hrp _].
      exists (rs_keys res), (rs_depth res), inhD, inhV. split; [by apply Hr|done].
  - rewrite (H2 Hj), lookup_empty. split; [split; [by intros [? ?]|tauto]|done].
Qed.
End effective.

(** *** The bytes of a document *)

Lemma Effective_answers `{MapRange, GoUnicode, GoQuote, YamlDecoder} mergedYAML : is_Some (Effective mergedYAML).
Proof.
  unfold Effective, parseRoot. destruct (_ =? 0); cbn; [by eexists|]. destruct (decode_yaml mergedYAML) as [|e|heap r more]; cbn; [by eexists..|].
  destruct more; cbn; [by eexists|]. destruct (convert_document_answers heap r) as (v & st & ->).
  destruct (fatal st); cbn; [|by eexists]. destruct v; cbn; try by eexists. apply effective_root_answers.
Qed.

(** The lenient reading of an [extends] agrees with the strict one where that
    has an answer. *)
Lemma names_in_omap l names : names_in l = Some names → omap (λ e, match e with VStr s => Some s | _ => None end) l = names.
Proof.
  revert names. induction l as [|v l IH]; intros names; cbn [names_in]; [by intros [= <-]|].
  destruct v; try done. destruct (names_in l) as [names'|]; [|done]. intros [= <-]. cbn. by rewrite (IH names').
Qed.
Lemma ExtendsOf_strict `{GoQuote} heap job m st ext names :
  convert_document heap job = Some (VMap m, st) → m !! keyExtends = Some ext → extendsNames ext = Some names →
  ExtendsOf heap job = Some names.
Proof.
  intros E He Hn. unfold ExtendsOf. rewrite E, He. destruct ext; cbn in Hn; try congruence.
  by rewrite (names_in_omap _ names).
Qed.

(** A pipeline job's definition is defined, and is the job itself or a job with
    [parallel]. *)
Lemma DefinitionName_defined def job name : DefinitionName def job = Some name →
  ∃ j, Jobs def !! name = Some j ∧ (name = job ∨ is_Some (Keys j !! "parallel")).
Proof.
  assert (∀ n, parallel_job def n = Some name → ∃ j, Jobs def !! name = Some j ∧ is_Some (Keys j !! "parallel")) as Hp.
  { intros [n|]; [|done]. cbn [parallel_job]. destruct (Jobs def !! n) as [j|] eqn:Ej; [|done].
    destruct (Keys j !! "parallel") as [v|] eqn:Ek; [|done]. intros [= ->]. exists j. by rewrite Ek. }
  unfold DefinitionName. destruct (Jobs def !! job) as [j|] eqn:Ej.
  - intros [= <-]. exists j. split; [done|by left].
  - destruct (parallel_job def (parallelIndex job)) as [n|] eqn:E1.
    + intros [= ->]. destruct (Hp _ E1) as (j & ? & ?). exists j. split; [done|by right].
    + intros E2. destruct (Hp _ E2) as (j & ? & ?). exists j. split; [done|by right].
Qed.

(** ** Examples *)

Section examples.
Local Instance quote_ascii : GoQuote := {| unicode_quote := λ s, s |}.

Definition job_root : gmap string value :=
  {[ ".base" := VMap {[ "image" := VStr "go"; "script" := VList [VStr "make"] ]};
     "default" := VMap {[ "retry" := VInt 1; "image" := VStr "alpine" ]};
     "variables" := VMap {[ "CI" := VStr "1" ]};
     "unit" := VMap {[ "extends" := VStr ".base"; "script" := VList [VStr "go test"]; "inherit" :=
                        VMap {[ "default" := VList [VStr "retry"] ]} ]};
     "loop" := VMap {[ "extends" := VStr "loop" ]};
     "deploy" := VMap {[ "stage" := VStr "deploy"; "parallel" := VInt 2;
                         "trigger" := VMap {[ "include" := VStr "child.yml" ]} ]} ]}.

(** A template under the job's own keys, the defaults it inherits and not the
    others, the global variables, the default stage, a cycle, a child pipeline,
    and the names of parallel jobs. *)
Example effective_examples :
  let key name k := effective_root job_root ≫= λ def, Jobs def !! name ≫= λ j, Keys j !! k in
  let has name k v := match key name k with Some w => deep_eq v w | None => false end in
  has "unit" "script" (VList [VStr "go test"]) && has "unit" "image" (VStr "go") && has "unit" "retry" (VInt 1) &&
  has "unit" "variables" (VMap {[ "CI" := VStr "1" ]}) && has "unit" "stage" (VStr "test") &&
  has "deploy" "image" (VStr "alpine") &&
  match key "deploy" "trigger" with Some (VUnresolved _) => true | _ => false end &&
  bool_decide (((λ def, jb_Problems <$> Jobs def !! "loop") <$> effective_root job_root) =
    Some (Some ["an `extends` cycle: loop -> loop"])) &&
  bool_decide (((λ def, (DefinitionName def "deploy 1/2", DefinitionName def "deploy: [a, b]", DefinitionName def "unit 1/2"))
    <$> effective_root job_root) = Some (Some "deploy", Some "deploy", None)) = true.
Proof. vm_compute. reflexivity. Qed.
End examples.
