(* ===== verification/CiCompare.v ===== *)
(** * [pkg/cidef]: the comparison ([delta.go])

    The delta between the CI definition of the base and that of the head: what
    changed of every base job and of the document's own keys, which of the rules
    D1, D2 and D3 it breaks, what could not be compared, and the kind of change
    the judges of fixes and of changes read. *)

From S2P Require Import Prelude.
From S2P Require Import Float64.
From S2P Require Import GoStrings.
From S2P Require Import GoUTF8.
From S2P Require Import CiDelta.
From S2P Require Import CiValue.
From S2P Require Import CiEffective.

(** ** What a part of the comparison adds to the delta *)

Record Found := mkFound {
  fd_Jobs : list JobDelta;
  fd_Removed : list string;
  fd_Globals : list GlobalChange;
  fd_Violations : list Violation;
  fd_Unresolvable : list Unresolvable;
  execChanged : bool;
  otherChanged : bool;
}.
Definition nothing : Found := mkFound [] [] [] [] [] false false.
Definition and_found (a b : Found) : Found :=
  mkFound (fd_Jobs a ++ fd_Jobs b) (fd_Removed a ++ fd_Removed b) (fd_Globals a ++ fd_Globals b)
    (fd_Violations a ++ fd_Violations b) (fd_Unresolvable a ++ fd_Unresolvable b)
    (execChanged a || execChanged b) (otherChanged a || otherChanged b).
Definition all_found (l : list Found) : Found := fold_right and_found nothing l.

Definition violation (rule job key detail : string) : Found :=
  mkFound [] [] [] [mkViolation rule job key detail] [] false false.
Definition unresolvable (side : Side) (job key reason : string) : Found :=
  mkFound [] [] [] [] [mkUnresolvable side job key reason] false false.
Definition global_change (key : string) (class : KeyClass) (appended : list string) : Found :=
  mkFound [] [] [mkGlobalChange key class appended] [] [] false false.
Definition exec_changed : Found := mkFound [] [] [] [] [] true false.
Definition other_changed : Found := mkFound [] [] [] [] [] false true.
Definition when (b : bool) (f : Found) : Found := if b then f else nothing.

(** ** Sides *)

Definition documentProblems (def : option Definition_) : list string :=
  match def with None => ["no definition"] | Some def => df_Problems def end.

(** The reasons and the side each was found on, by reason. *)
Definition sided (base head : list string) : list (Side * string) :=
  let side := fold_left (λ m r, <[r := SideBase]> m) base (∅ : gmap string Side) in
  let side := fold_left (λ m r,
    match m !! r with
    | Some s => if negb (String.eqb s SideHead) then <[r := SideBoth]> m else <[r := SideHead]> m
    | None => <[r := SideHead]> m
    end) head side in
  map (λ r, (default "" (side !! r), r)) (sorted_keys side).

(** The side and the reason when either value holds a marker. *)
Definition unresolvedIn (bv hv : option value) : option (Side * string) :=
  let reason (v : option value) := match v with Some v => firstUnresolved v | None => None end in
  match reason bv, reason hv with
  | Some br, Some _ => Some (SideBoth, br)
  | Some br, None => Some (SideBase, br)
  | None, Some hr => Some (SideHead, hr)
  | None, None => None
  end.

Definition same_value (bv hv : option value) : bool :=
  match bv, hv with
  | Some v, Some w => deep_eq v w
  | None, None => true
  | _, _ => false
  end.

(** ** Document-level keys *)

(** The base stages are the head's first stages; what follows them. *)
Fixpoint stagesAppended (base head : list string) : option (list string) :=
  match base, head with
  | [], head => Some head
  | s :: base, h :: head => if String.eqb h s then stagesAppended base head else None
  | _ :: _, [] => None
  end.
Definition listedStages (stages : list string) : list string :=
  filter (λ s, contains ImplicitStages s = false) stages.

(** A document-level key: what is found when its value changed. *)
Definition global (key : string) (bv hv : option value) (changed : Found) : Found :=
  match unresolvedIn bv hv with
  | Some (side, reason) => unresolvable side "" key reason
  | None => when (negb (same_value bv hv)) changed
  end.

Definition compare_workflow (base head : Definition_) : Found :=
  global GlobalWorkflow (Workflow base) (Workflow head)
    (and_found (global_change GlobalWorkflow ClassGating [])
       (violation RuleD2 "" GlobalWorkflow "`workflow` differs from the base")).
Definition compare_stages (base head : Definition_) : Found :=
  match stagesAppended (listedStages (Stages base)) (listedStages (Stages head)) with
  | None => and_found (global_change GlobalStages ClassGating [])
              (violation RuleD2 "" GlobalStages "the base stages are not the head's first stages, in order")
  | Some appended =>
      when (0 <? length appended)%nat (and_found (global_change GlobalStages ClassFree appended) other_changed)
  end.
Definition compare_default_retry (base head : Definition_) : Found :=
  global GlobalDefaultRetry (DefaultRetry base) (DefaultRetry head)
    (and_found (global_change GlobalDefaultRetry ClassGating [])
       (violation RuleD2 "" GlobalDefaultRetry "`default.retry` differs from the base")).
Definition compare_variables (base head : Definition_) (outsideT : bool) : Found :=
  global GlobalVariables (Variables base) (Variables head)
    (all_found [global_change GlobalVariables ClassExec []; exec_changed;
       when outsideT (violation RuleD3 "" GlobalVariables
         "the global `variables` changed and not every base job was diagnosed")]).

(** ** Jobs *)

Definition unionKeys (a b : gmap string value) : list string := sorted_keys (a ∪ b).

Section compare.
Context `{GoQuote}.

(** One key of a job: whether it is listed as a change, and what is found. *)
Definition compare_key (name : string) (diagnosed : bool) (key : string) (bv hv : option value) : bool * Found :=
  let class := ClassifyKey key in
  match unresolvedIn bv hv with
  | Some (side, reason) =>
      if String.eqb class ClassFree then (true, other_changed) else (false, unresolvable side name key reason)
  | None =>
      if same_value bv hv then (false, nothing)
      else
        (true,
         if String.eqb class ClassExistence then violation RuleD1 name key "the job's stage differs from the base"
         else if String.eqb class ClassGating then violation RuleD2 name key "a GATING key differs from the base"
         else if String.eqb class ClassExec then
           and_found exec_changed
             (when (negb diagnosed)
                (violation RuleD3 name key "an EXEC key differs from the base on a job that was not diagnosed"))
         else if String.eqb class ClassFree then other_changed
         else unresolvable SideBoth name key
                ("the key " +:+ Quote key +:+ " changed and section 6.2's table has no rule for it"))
  end.

Definition key_change (bkeys hkeys : gmap string value) (key : string) : KeyChange :=
  mkKeyChange key (ClassifyKey key) (bool_decide (is_Some (bkeys !! key))) (bool_decide (is_Some (hkeys !! key))).

Definition compare_keys (name : string) (diagnosed : bool) (bkeys hkeys : gmap string value) : Found :=
  let keys := unionKeys bkeys hkeys in
  let compared key := compare_key name diagnosed key (bkeys !! key) (hkeys !! key) in
  let changes := map (key_change bkeys hkeys) (filter (λ key, (compared key).1 = true) keys) in
  and_found (all_found (map (λ key, (compared key).2) keys))
    (mkFound (if (0 <? length changes)%nat then [mkJobDelta name diagnosed changes] else []) [] [] [] [] false false).

Definition compare_job (base head : Definition_) (inT : gset string) (name : string) : Found :=
  match Jobs base !! name, Jobs head !! name with
  | Some bj, Some hj =>
      if (0 <? length (jb_Problems bj) + length (jb_Problems hj))%nat then
        all_found (map (λ p, unresolvable p.1 name "" p.2) (sided (jb_Problems bj) (jb_Problems hj)))
      else compare_keys name (bool_decide (name ∈ inT)) (Keys bj) (Keys hj)
  | _, None =>
      and_found (mkFound [] [name] [] [] [] false false) (violation RuleD1 name "" "the job is not defined at head")
  | None, Some _ => nothing
  end.

(** The definitions of the diagnosed jobs, and the diagnosed jobs without one. *)
Fixpoint diagnosed_definitions (base : Definition_) (diagnosed : list string) : gset string * Found :=
  match diagnosed with
  | [] => (∅, nothing)
  | name :: diagnosed =>
      let '(inT, found) := diagnosed_definitions base diagnosed in
      match DefinitionName base name with
      | None => (inT, and_found (unresolvable SideBase name ""
                  ("the diagnosed job " +:+ Quote name +:+ " has no definition in the base document")) found)
      | Some defName => ({[defName]} ∪ inT, found)
      end
  end.
End compare.

(** ** Renames *)

Definition same_job (base head : Definition_) (from to : string) : bool :=
  match Jobs base !! from, Jobs head !! to with
  | Some bj, Some hj =>
      if (0 <? length (jb_Problems bj) + length (jb_Problems hj))%nat then false
      else match firstUnresolved (VMap (Keys bj)) with
           | Some _ => false
           | None => deep_eq (VMap (Keys bj)) (VMap (Keys hj))
           end
  | _, _ => false
  end.

Definition matchesOf (base head : Definition_) (added : list string) (from : string) : list string :=
  filter (λ to, same_job base head from to = true) added.

(** [(claimed, candidate)]. *)
Fixpoint candidates (base head : Definition_) (added removed : list string)
    (claimed : gmap string Z) (candidate : gmap string string) : gmap string Z * gmap string string :=
  match removed with
  | [] => (claimed, candidate)
  | r :: removed =>
      match matchesOf base head added r with
      | [to] =>
          candidates base head added removed (<[to := default 0 (claimed !! to) + 1]> claimed) (<[r := to]> candidate)
      | _ => candidates base head added removed claimed candidate
      end
  end.

Definition renames (base head : Definition_) (removed added : list string) : list Rename :=
  let '(claimed, candidate) := candidates base head added removed ∅ ∅ in
  omap (λ r,
    match candidate !! r with
    | Some to => if default 0 (claimed !! to) =? 1 then Some (mkRename r to) else None
    | None => None
    end) removed.

(** ** The delta *)

Section Compare.
Context `{GoQuote}.

Definition kind_of (f : Found) : Kind :=
  if (0 <? length (fd_Violations f))%nat then KindViolation
  else if (0 <? length (fd_Unresolvable f))%nat then KindUnresolvable
  else if execChanged f then KindExecChanging
  else if otherChanged f then KindPreserving
  else KindNone.

(** The parts of the comparison, in order. *)
Definition compare_parts (base head : Definition_) (diagnosed : list string) : list Found :=
  let '(inT, undiagnosed) := diagnosed_definitions base diagnosed in
  let baseNames := sorted_keys (Jobs base) in
  let outsideT := existsb (λ name, negb (bool_decide (name ∈ inT))) baseNames in
  [undiagnosed; compare_workflow base head; compare_stages base head; compare_default_retry base head;
   compare_variables base head outsideT]
  ++ map (compare_job base head inT) baseNames.

Definition added_jobs (base head : Definition_) : list string :=
  filter (λ name, Jobs base !! name = None) (sorted_keys (Jobs head)).

Definition compare_definitions (base head : Definition_) (diagnosed : list string) : Delta :=
  let added := added_jobs base head in
  let f := and_found (all_found (compare_parts base head diagnosed)) (when (0 <? length added)%nat other_changed) in
  mkDelta (kind_of f) (fd_Jobs f) (fd_Removed f) added (renames base head (fd_Removed f) added) (fd_Globals f)
    (fd_Violations f) (fd_Unresolvable f).

(** No definition is [None]. *)
Definition Compare (base head : option Definition_) (diagnosed : list string) : Delta :=
  let bp := documentProblems base in
  let hp := documentProblems head in
  let unread := mkDelta KindUnresolvable [] [] [] [] [] []
    (map (λ p, mkUnresolvable p.1 "" "" p.2) (sided bp hp)) in
  if (0 <? length bp + length hp)%nat then unread
  else match base, head with
       | Some base, Some head => compare_definitions base head diagnosed
       | _, _ => unread
       end.

(** [None]: not enough fuel. *)
Definition Diff `{MapRange, GoUnicode, YamlDecoder} (baseMergedYAML headMergedYAML : string) (diagnosed : list string) :
    option Delta :=
  match Effective baseMergedYAML, Effective headMergedYAML with
  | Some base, Some head => Some (Compare (Some base) (Some head) diagnosed)
  | _, _ => None
  end.
End Compare.

(** * Proofs *)

(** ** What the parts add up to *)

(** Whether something found breaks a rule, could not be compared, changes what
    runs, or changes something else. *)
Record facts (f : Found) (v u e o : Prop) : Prop := mkFacts {
  facts_violations : fd_Violations f ≠ [] ↔ v;
  facts_unresolvable : fd_Unresolvable f ≠ [] ↔ u;
  facts_exec : execChanged f = true ↔ e;
  facts_other : otherChanged f = true ↔ o;
}.

Lemma facts_iff f v u e o v' u' e' o' :
  facts f v u e o → (v ↔ v') → (u ↔ u') → (e ↔ e') → (o ↔ o') → facts f v' u' e' o'.
Proof. intros [? ? ? ?] ? ? ? ?. split; tauto. Qed.

Lemma facts_nothing : facts nothing False False False False.
Proof. by split. Qed.
Lemma facts_violation rule job key detail : facts (violation rule job key detail) True False False False.
Proof. by split. Qed.
Lemma facts_unresolvable_found side job key reason : facts (unresolvable side job key reason) False True False False.
Proof. by split. Qed.
Lemma facts_global_change key class appended : facts (global_change key class appended) False False False False.
Proof. by split. Qed.
Lemma facts_exec_changed : facts exec_changed False False True False.
Proof. by split. Qed.
Lemma facts_other_changed : facts other_changed False False False True.
Proof. by split. Qed.
Lemma facts_listed jobs removed globals : facts (mkFound jobs removed globals [] [] false false) False False False False.
Proof. by split. Qed.

Lemma app_not_nil {A} (l l' : list A) : l ++ l' ≠ [] ↔ l ≠ [] ∨ l' ≠ [].
Proof. destruct l; cbn; [tauto|]. split; [by left|done]. Qed.

Lemma facts_and a b v u e o v' u' e' o' :
  facts a v u e o → facts b v' u' e' o' → facts (and_found a b) (v ∨ v') (u ∨ u') (e ∨ e') (o ∨ o').
Proof.
  intros [H1 H2 H3 H4] [H1' H2' H3' H4']. split; cbn;
    rewrite ?app_not_nil, ?orb_true_iff, ?H1, ?H2, ?H3, ?H4, ?H1', ?H2', ?H3', ?H4'; done.
Qed.

Lemma facts_when b f v u e o : facts f v u e o → facts (when b f) (b = true ∧ v) (b = true ∧ u) (b = true ∧ e) (b = true ∧ o).
Proof. intros [? ? ? ?]. destruct b; split; cbn; intuition congruence. Qed.

Lemma facts_map {A} (f : A → Found) (l : list A) (v u e o : A → Prop) :
  (∀ x, x ∈ l → facts (f x) (v x) (u x) (e x) (o x)) →
  facts (all_found (map f l)) (∃ x, x ∈ l ∧ v x) (∃ x, x ∈ l ∧ u x) (∃ x, x ∈ l ∧ e x) (∃ x, x ∈ l ∧ o x).
Proof.
  induction l as [|x l IH]; intros Hl; cbn [map all_found fold_right].
  - eapply facts_iff; [apply facts_nothing|..]; (split; [done|intros (? & ?%elem_of_nil & _); done]).
  - eapply facts_iff; [apply facts_and; [apply Hl; by left|apply IH; intros y Hy; apply Hl; by right]|..];
      setoid_rewrite elem_of_cons; naive_solver.
Qed.

(** ** The rules *)

Definition unresolved (bv hv : option value) : Prop :=
  ∃ v r, (bv = Some v ∨ hv = Some v) ∧ inside (VUnresolved r) v.
Definition changed (bv hv : option value) : Prop := ¬ unresolved bv hv ∧ same_value bv hv = false.

Lemma unresolvedIn_none bv hv : unresolvedIn bv hv = None ↔ ¬ unresolved bv hv.
Proof.
  assert (∀ v, match v with Some v => firstUnresolved v | None => None end = None ↔
    ∀ x r, v = Some x → ¬ inside (VUnresolved r) x) as Hn.
  { intros [v|]; [|done]. rewrite firstUnresolved_none. split; [by intros Hn x r [= <-]|by eauto]. }
  unfold unresolvedIn. pose proof (Hn bv) as Hb. pose proof (Hn hv) as Hh. unfold unresolved.
  destruct (match bv with Some v => _ | None => _ end), (match hv with Some v => _ | None => _ end); split;
    try done; naive_solver.
Qed.

Lemma first_of_some {A} (f : A → option string) l r : first_of f l = Some r → ∃ x, x ∈ l ∧ f x = Some r.
Proof.
  induction l as [|x l IH]; cbn; [done|]. destruct (f x) as [e|] eqn:E.
  - intros [= <-]. exists x. split; [by left|done].
  - intros Hl. destruct (IH Hl) as (y & ? & ?). exists y. split; [by right|done].
Qed.

Lemma firstUnresolved_some v r : firstUnresolved v = Some r → inside (VUnresolved r) v.
Proof.
  induction v as [v Hv|l IH|m IH] using value_nested_ind.
  - destruct v; try done. intros [= <-]. constructor.
  - rewrite firstUnresolved_list. intros (x & Hx & E)%first_of_some. apply (inside_list _ _ x); auto.
  - change (firstUnresolved (VMap m)) with
      (first_of (λ k, default None ((firstUnresolved <$> m) !! k)) (sorted_keys (firstUnresolved <$> m))).
    intros (k & _ & E)%first_of_some. rewrite lookup_fmap in E. destruct (m !! k) as [x|] eqn:Hk; [|done].
    apply (inside_map _ _ k x); [done|]. by apply (IH k).
Qed.

Lemma unresolvedIn_some bv hv p : unresolvedIn bv hv = Some p → unresolved bv hv.
Proof.
  unfold unresolved. intros E.
  assert ((∃ v r, bv = Some v ∧ firstUnresolved v = Some r) ∨ ∃ v r, hv = Some v ∧ firstUnresolved v = Some r)
    as [(v & r & -> & Hr)|(v & r & -> & Hr)].
  { unfold unresolvedIn in E. destruct bv as [v|]; [destruct (firstUnresolved v) eqn:Ev; [by eauto|]|];
      (destruct hv as [w|]; [destruct (firstUnresolved w) eqn:Ew; [by eauto|done]|done]). }
  all: exists v, r; split; [tauto|by apply firstUnresolved_some].
Qed.

(** A document-level key: an unresolved value cannot be compared, and a changed
    one is what the key makes of it. *)
Lemma facts_global key bv hv f v u e o :
  facts f v u e o →
  facts (global key bv hv f) (changed bv hv ∧ v) (unresolved bv hv ∨ changed bv hv ∧ u) (changed bv hv ∧ e) (changed bv hv ∧ o).
Proof.
  intros Hf. unfold global, changed. destruct (unresolvedIn bv hv) as [[side reason]|] eqn:Eu.
  - apply unresolvedIn_some in Eu. eapply facts_iff; [apply facts_unresolvable_found|..]; tauto.
  - apply unresolvedIn_none in Eu. eapply facts_iff; [apply facts_when, Hf|..]; rewrite negb_true_iff; tauto.
Qed.

Section rules.
Context `{GoQuote}.

Lemma ClassifyKey_cases key :
  ClassifyKey key = ClassExistence ∨ ClassifyKey key = ClassGating ∨ ClassifyKey key = ClassExec ∨
  ClassifyKey key = ClassFree ∨ ClassifyKey key = ClassUnclassified.
Proof.
  destruct (ClassifyKey_spec key) as (H1 & H2 & H3 & H4 & H5). rewrite H1, H2, H3, H4, H5.
  rewrite elem_of_cons, !elem_of_app.
  destruct (decide (key = KeyStage)), (decide (key ∈ GatingJobKeys)), (decide (key ∈ ExecJobKeys)),
    (decide (key ∈ FreeJobKeys)); tauto.
Qed.

(** A key of a job at both sides. *)
Definition key_violates (diagnosed : Prop) (key : string) : Prop :=
  ClassifyKey key = ClassExistence ∨ ClassifyKey key = ClassGating ∨ ClassifyKey key = ClassExec ∧ ¬ diagnosed.
Lemma facts_key name diagnosed key bv hv :
  facts (compare_key name diagnosed key bv hv).2
    (changed bv hv ∧ key_violates (diagnosed = true) key)
    (unresolved bv hv ∧ ClassifyKey key ≠ ClassFree ∨ changed bv hv ∧ ClassifyKey key = ClassUnclassified)
    (changed bv hv ∧ ClassifyKey key = ClassExec)
    ((unresolved bv hv ∨ changed bv hv) ∧ ClassifyKey key = ClassFree).
Proof.
  unfold compare_key, changed, key_violates. destruct (unresolvedIn bv hv) as [[side reason]|] eqn:Eu.
  - apply unresolvedIn_some in Eu. destruct (String.eqb_spec (ClassifyKey key) ClassFree) as [E|E]; cbn [snd].
    + rewrite E. unfold ClassUnclassified, ClassFree. eapply facts_iff; [apply facts_other_changed|..]; intuition congruence.
    + eapply facts_iff; [apply facts_unresolvable_found|..]; tauto.
  - apply unresolvedIn_none in Eu. destruct (same_value bv hv); cbn [snd].
    { eapply facts_iff; [apply facts_nothing|..]; intuition congruence. }
    destruct (ClassifyKey_cases key) as [E|[E|[E|[E|E]]]]; rewrite E; cbn [String.eqb Ascii.eqb Bool.eqb snd];
      unfold ClassExistence, ClassGating, ClassExec, ClassFree, ClassUnclassified; cbn -[changed].
    + eapply facts_iff; [apply facts_violation|..]; intuition congruence.
    + eapply facts_iff; [apply facts_violation|..]; intuition congruence.
    + eapply facts_iff; [apply facts_and; [apply facts_exec_changed|apply facts_when, facts_violation]|..];
        rewrite negb_true_iff, <- not_true_iff_false; intuition congruence.
    + eapply facts_iff; [apply facts_other_changed|..]; intuition congruence.
    + eapply facts_iff; [apply facts_unresolvable_found|..]; intuition congruence.
Qed.

Lemma absent_unchanged : ¬ changed None None ∧ ¬ unresolved None None.
Proof. split; [by intros [_ [=]]|]. by intros (v & r & [[=]|[=]] & _). Qed.

(** The rules of a job that is whole at both sides. *)
Definition keys_violate (diagnosed : Prop) (bkeys hkeys : gmap string value) : Prop :=
  ∃ key, changed (bkeys !! key) (hkeys !! key) ∧ key_violates diagnosed key.
Definition keys_incomparable (bkeys hkeys : gmap string value) : Prop :=
  ∃ key, unresolved (bkeys !! key) (hkeys !! key) ∧ ClassifyKey key ≠ ClassFree ∨
         changed (bkeys !! key) (hkeys !! key) ∧ ClassifyKey key = ClassUnclassified.
Definition exec_key_changed (bkeys hkeys : gmap string value) : Prop :=
  ∃ key, changed (bkeys !! key) (hkeys !! key) ∧ ClassifyKey key = ClassExec.
Definition free_key_changed (bkeys hkeys : gmap string value) : Prop :=
  ∃ key, (unresolved (bkeys !! key) (hkeys !! key) ∨ changed (bkeys !! key) (hkeys !! key)) ∧ ClassifyKey key = ClassFree.

Lemma in_union_keys (bkeys hkeys : gmap string value) (P : string → Prop) :
  (∀ key, P key → unresolved (bkeys !! key) (hkeys !! key) ∨ changed (bkeys !! key) (hkeys !! key)) →
  (∃ key, key ∈ unionKeys bkeys hkeys ∧ P key) ↔ ∃ key, P key.
Proof.
  intros HP. split; [intros (key & _ & ?); by exists key|]. intros (key & Hk). exists key. split; [|done].
  unfold unionKeys. rewrite elem_of_sorted_keys, lookup_union. specialize (HP key Hk).
  destruct (bkeys !! key), (hkeys !! key); try (by eexists). destruct absent_unchanged. tauto.
Qed.

Lemma facts_keys name diagnosed bkeys hkeys :
  facts (compare_keys name diagnosed bkeys hkeys)
    (keys_violate (diagnosed = true) bkeys hkeys) (keys_incomparable bkeys hkeys)
    (exec_key_changed bkeys hkeys) (free_key_changed bkeys hkeys).
Proof.
  unfold compare_keys. eapply facts_iff.
  { apply facts_and; [|apply facts_listed].
    apply (facts_map (λ key, (compare_key name diagnosed key (bkeys !! key) (hkeys !! key)).2)). intros key _. apply facts_key. }
  all: rewrite in_union_keys by tauto; unfold keys_violate, keys_incomparable, exec_key_changed, free_key_changed; tauto.
Qed.

Variables (base head : Definition_).

Definition job_violates (T : string → Prop) (name : string) : Prop :=
  ∃ bj, Jobs base !! name = Some bj ∧
  (Jobs head !! name = None ∨
   ∃ hj, Jobs head !! name = Some hj ∧ jb_Problems bj = [] ∧ jb_Problems hj = [] ∧
     keys_violate (T name) (Keys bj) (Keys hj)).
(** A job of both sides, whole at both, and what holds of its keys. *)
Definition both_whole (name : string) (P : gmap string value → gmap string value → Prop) : Prop :=
  ∃ bj hj, Jobs base !! name = Some bj ∧ Jobs head !! name = Some hj ∧
    jb_Problems bj = [] ∧ jb_Problems hj = [] ∧ P (Keys bj) (Keys hj).
Definition job_incomparable (name : string) : Prop :=
  (∃ bj hj, Jobs base !! name = Some bj ∧ Jobs head !! name = Some hj ∧ jb_Problems bj ++ jb_Problems hj ≠ []) ∨
  both_whole name keys_incomparable.

Lemma fold_insert_keys (f : gmap string Side → string → Side) l m r :
  is_Some (fold_left (λ m r, <[r := f m r]> m) l m !! r) ↔ is_Some (m !! r) ∨ r ∈ l.
Proof.
  revert m. induction l as [|x l IH]; intros m; cbn [fold_left]; [set_solver|].
  rewrite IH, lookup_insert_is_Some, elem_of_cons. destruct (decide (x = r)); naive_solver.
Qed.

Lemma sided_reasons bp hp r : r ∈ map snd (sided bp hp) ↔ r ∈ bp ∨ r ∈ hp.
Proof.
  unfold sided. rewrite map_map, map_id, elem_of_sorted_keys.
  set (side := λ (m : gmap string Side) r, match m !! r with
    | Some s => if negb (String.eqb s SideHead) then SideBoth else SideHead | None => SideHead end).
  assert (∀ l m, fold_left (λ (m : gmap string Side) r, match m !! r with
    | Some s => if negb (String.eqb s SideHead) then <[r := SideBoth]> m else <[r := SideHead]> m
    | None => <[r := SideHead]> m end) l m = fold_left (λ m r, <[r := side m r]> m) l m) as ->.
  { induction l as [|x l IH]; intros m; cbn [fold_left]; [done|]. rewrite IH. unfold side at 3.
    destruct (m !! x) as [s|]; [by destruct (String.eqb s SideHead)|done]. }
  rewrite fold_insert_keys, (fold_insert_keys (λ _ _, SideBase)), lookup_empty. split; [intros [[[? [=]]|?]|?]|]; tauto.
Qed.

Lemma sided_nil bp hp : sided bp hp = [] ↔ bp ++ hp = [].
Proof.
  pose proof (sided_reasons bp hp) as Hr. split; intros E.
  - rewrite E in Hr. destruct bp as [|r bp]; [destruct hp as [|r hp]; [done|]|];
      exfalso; apply (elem_of_nil r), Hr; set_solver.
  - apply app_nil in E as [-> ->]. done.
Qed.

Lemma keys_violate_iff P Q bkeys hkeys : (P ↔ Q) → keys_violate P bkeys hkeys ↔ keys_violate Q bkeys hkeys.
Proof. intros HP. unfold keys_violate, key_violates. by setoid_rewrite HP. Qed.

Lemma facts_job inT T name : (∀ name, name ∈ inT ↔ T name) → is_Some (Jobs base !! name) →
  facts (compare_job base head inT name) (job_violates T name) (job_incomparable name)
    (both_whole name exec_key_changed) (both_whole name free_key_changed).
Proof.
  intros HT [bj Hb]. unfold compare_job. rewrite Hb. destruct (Jobs head !! name) as [hj|] eqn:Hh.
  2:{ assert (∀ P, ¬ both_whole name P) as Hw by (intros P (b & h & _ & Eh & _); congruence).
      eapply facts_iff; [apply facts_and; [apply facts_listed|apply facts_violation]|..].
      - split; [intros _; exists bj; by split; [|left]|by right].
      - split; [tauto|]. intros [(b & h & _ & Eh & _)|Hx]; [congruence|by destruct (Hw _ Hx)].
      - split; [tauto|]. intros Hx. by destruct (Hw _ Hx).
      - split; [tauto|]. intros Hx. by destruct (Hw _ Hx). }
  rewrite <- length_app. destruct (0 <? length (jb_Problems bj ++ jb_Problems hj))%nat eqn:El.
  - assert (jb_Problems bj ++ jb_Problems hj ≠ []) as Hne by (intros E; by rewrite E in El).
    assert (∀ b h, Jobs base !! name = Some b → Jobs head !! name = Some h →
      jb_Problems b = [] → jb_Problems h = [] → False) as Hno.
    { intros b h Eb Eh E1 E2. apply Hne. assert (b = bj) as -> by congruence. assert (h = hj) as -> by congruence.
      by rewrite E1, E2. }
    assert (∀ P, ¬ both_whole name P) as Hw by (intros P (b & h & Eb & Eh & E1 & E2 & _); eauto).
    eapply facts_iff.
    { apply (facts_map (λ p, unresolvable p.1 name "" p.2)). intros p _. apply facts_unresolvable_found. }
    + split; [by intros (? & _ & [])|]. intros (b & Eb & [|(h & Eh & E1 & E2 & _)]); [congruence|]. by destruct (Hno b h).
    + split; [intros _; left; by exists bj, hj|]. intros _. pose proof (sided_nil (jb_Problems bj) (jb_Problems hj)) as Hs.
      destruct (sided _ _) as [|p ps]; [by destruct Hne; apply Hs|]. exists p. split; [by left|done].
    + split; [by intros (? & _ & [])|]. intros Hx. by destruct (Hw _ Hx).
    + split; [by intros (? & _ & [])|]. intros Hx. by destruct (Hw _ Hx).
  - apply length_pos, app_nil in El as [E1 E2].
    assert (∀ P, P (Keys bj) (Keys hj) ↔ both_whole name P) as Hw.
    { intros P. split; [intros HP; by exists bj, hj|]. intros (b & h & Eb & Eh & _ & _ & HP). congruence. }
    eapply facts_iff; [apply facts_keys| |rewrite Hw|apply Hw|apply Hw].
    + rewrite (keys_violate_iff _ (T name)) by (by rewrite bool_decide_eq_true). split; [intros Hk; exists bj; split; [done|]; right; by exists hj|].
      intros (b & Eb & [|(h & Eh & _ & _ & Hk)]); congruence.
    + split; [by right|]. intros [(b & h & Eb & Eh & Hne)|]; [|done]. destruct Hne.
      assert (b = bj) as -> by congruence. assert (h = hj) as -> by congruence. by rewrite E1, E2.
Qed.

(** The diagnosed set: the definitions of the diagnosed pipeline jobs. *)
Variable diagnosed : list string.
Definition in_T (name : string) : Prop := ∃ job, job ∈ diagnosed ∧ DefinitionName base job = Some name.

Lemma diagnosed_definitions_exact :
  (∀ name, name ∈ (diagnosed_definitions base diagnosed).1 ↔ in_T name) ∧
  facts (diagnosed_definitions base diagnosed).2
    False (∃ job, job ∈ diagnosed ∧ DefinitionName base job = None) False False.
Proof.
  unfold in_T. induction diagnosed as [|job l [IH1 IH2]]; cbn [diagnosed_definitions].
  { split; [set_solver|]. eapply facts_iff; [apply facts_nothing|..]; set_solver. }
  destruct (diagnosed_definitions base l) as [inT found]. cbn [fst snd] in *.
  destruct (DefinitionName base job) as [d|] eqn:E; cbn [fst snd]; split.
  - intros name. rewrite elem_of_union, elem_of_singleton, IH1. setoid_rewrite elem_of_cons. split.
    + intros [->|(j & ? & ?)]; [by exists job; split; [left|]|exists j; tauto].
    + intros (j & [->|Hj] & E'); [left; congruence|right; by exists j].
  - eapply facts_iff; [exact IH2|done| |done|done]. setoid_rewrite elem_of_cons. split; [naive_solver|].
    intros (j & [->|Hj] & E'); [congruence|by exists j].
  - intros name. rewrite IH1. setoid_rewrite elem_of_cons. split; [intros (j & ? & ?); exists j; tauto|].
    intros (j & [->|Hj] & E'); [congruence|by exists j].
  - eapply facts_iff; [apply facts_and; [apply facts_unresolvable_found|exact IH2]|tauto| |tauto|tauto].
    setoid_rewrite elem_of_cons. split; [intros _; exists job; tauto|by left].
Qed.

Lemma stagesAppended_exact b h :
  match stagesAppended b h with Some appended => h = b ++ appended | None => ¬ b `prefix_of` h end.
Proof.
  revert h. induction b as [|s b IH]; intros [|x h]; cbn [stagesAppended]; [done|done|by intros [k [=]]|].
  destruct (String.eqb_spec x s) as [->|Hne].
  - specialize (IH h). destruct (stagesAppended b h); [by subst|]. intros Hp%prefix_cons_inv_2. tauto.
  - intros Hp%prefix_cons_inv_1. congruence.
Qed.

(** Section 6.2: what breaks D1, D2 or D3. *)
Definition violated : Prop :=
  changed (Workflow base) (Workflow head) ∨ changed (DefaultRetry base) (DefaultRetry head) ∨
  ¬ listedStages (Stages base) `prefix_of` listedStages (Stages head) ∨
  changed (Variables base) (Variables head) ∧ (∃ name, is_Some (Jobs base !! name) ∧ ¬ in_T name) ∨
  ∃ name, job_violates in_T name.
(** What cannot be compared. *)
Definition incomparable : Prop :=
  (∃ job, job ∈ diagnosed ∧ DefinitionName base job = None) ∨
  unresolved (Workflow base) (Workflow head) ∨ unresolved (DefaultRetry base) (DefaultRetry head) ∨
  unresolved (Variables base) (Variables head) ∨ ∃ name, job_incomparable name.
Definition exec_differs : Prop :=
  changed (Variables base) (Variables head) ∨ ∃ name, both_whole name exec_key_changed.
Definition other_differs : Prop :=
  (∃ stage stages, listedStages (Stages head) = listedStages (Stages base) ++ stage :: stages) ∨
  (∃ name, is_Some (Jobs head !! name) ∧ Jobs base !! name = None) ∨
  ∃ name, both_whole name free_key_changed.

Lemma in_base (P : string → Prop) :
  (∀ name, P name → is_Some (Jobs base !! name)) →
  (∃ name, name ∈ sorted_keys (Jobs base) ∧ P name) ↔ ∃ name, P name.
Proof.
  intros HP. setoid_rewrite elem_of_sorted_keys. split; [intros (n & _ & ?)|intros (n & ?)]; exists n; auto.
Qed.

Lemma facts_jobs inT : (∀ name, name ∈ inT ↔ in_T name) →
  facts (all_found (map (compare_job base head inT) (sorted_keys (Jobs base))))
    (∃ name, job_violates in_T name) (∃ name, job_incomparable name)
    (∃ name, both_whole name exec_key_changed) (∃ name, both_whole name free_key_changed).
Proof.
  intros HT. assert (∀ P name, both_whole name P → is_Some (Jobs base !! name)) as Hw.
  { intros P name (b & h & E & _). by exists b. }
  eapply facts_iff.
  { apply facts_map. intros name Hn. apply (facts_job inT in_T); [done|]. by apply elem_of_sorted_keys. }
  - apply in_base. intros name (b & E & _). by exists b.
  - apply in_base. intros name [(b & h & E & _)|Hx]; [by exists b|by eapply Hw].
  - apply in_base. intros name. apply Hw.
  - apply in_base. intros name. apply Hw.
Qed.

Lemma facts_stages :
  facts (compare_stages base head)
    (¬ listedStages (Stages base) `prefix_of` listedStages (Stages head)) False False
    (∃ stage stages, listedStages (Stages head) = listedStages (Stages base) ++ stage :: stages).
Proof.
  unfold compare_stages. set (b := listedStages (Stages base)). set (h := listedStages (Stages head)).
  pose proof (stagesAppended_exact b h) as Hs. destruct (stagesAppended b h) as [appended|].
  - assert (b `prefix_of` h) as Hp by (by exists appended).
    eapply facts_iff; [apply facts_when, facts_and; [apply facts_global_change|apply facts_other_changed]|tauto|tauto|tauto|].
    rewrite Hs. destruct appended as [|x l]; cbn.
    + split; [by intros [? _]|]. intros (x & l & E). rewrite app_nil_r in E. apply (f_equal length) in E.
      rewrite length_app in E. cbn in E. lia.
    + split; [intros _; by exists x, l|by split; [|right]].
  - eapply facts_iff; [apply facts_and; [apply facts_global_change|apply facts_violation]|tauto|tauto|tauto|].
    split; [tauto|]. intros (x & l & E). destruct Hs. rewrite E. by exists (x :: l).
Qed.

Lemma facts_variables outsideT :
  facts (compare_variables base head outsideT)
    (changed (Variables base) (Variables head) ∧ outsideT = true) (unresolved (Variables base) (Variables head))
    (changed (Variables base) (Variables head)) False.
Proof.
  eapply facts_iff; [apply facts_global; cbn [all_found fold_right]; repeat (apply facts_and);
    [apply facts_global_change|apply facts_exec_changed|apply facts_when, facts_violation|apply facts_nothing]|..]; tauto.
Qed.

Lemma facts_gating_global key bv hv detail :
  facts (global key bv hv (and_found (global_change key ClassGating []) (violation RuleD2 "" key detail)))
    (changed bv hv) (unresolved bv hv) False False.
Proof. eapply facts_iff; [apply facts_global, facts_and; [apply facts_global_change|apply facts_violation]|..]; tauto. Qed.

Lemma facts_compared :
  facts (and_found (all_found (compare_parts base head diagnosed))
           (when (0 <? length (added_jobs base head))%nat other_changed))
    violated incomparable exec_differs other_differs.
Proof.
  unfold compare_parts. destruct diagnosed_definitions_exact as [HT HD].
  destruct (diagnosed_definitions base diagnosed) as [inT undiagnosed]. cbn [fst snd] in HT, HD.
  assert (existsb (λ name, negb (bool_decide (name ∈ inT))) (sorted_keys (Jobs base)) = true ↔
    ∃ name, is_Some (Jobs base !! name) ∧ ¬ in_T name) as Hout.
  { rewrite existsb_elem. setoid_rewrite elem_of_sorted_keys. setoid_rewrite negb_true_iff.
    setoid_rewrite bool_decide_eq_false. by setoid_rewrite HT. }
  assert ((0 <? length (added_jobs base head))%nat = true ↔ ∃ name, is_Some (Jobs head !! name) ∧ Jobs base !! name = None) as Hadd.
  { rewrite Nat.ltb_lt. assert (∀ name, name ∈ added_jobs base head ↔ is_Some (Jobs head !! name) ∧ Jobs base !! name = None) as Ha.
    { intros name. unfold added_jobs. rewrite list_elem_of_filter, elem_of_sorted_keys. tauto. }
    setoid_rewrite <- Ha. destruct (added_jobs base head) as [|x l]; cbn; [split; [lia|by intros (? & ?%elem_of_nil)]|].
    split; [intros _; exists x; by left|lia]. }
  cbn [app all_found fold_right]. eapply facts_iff.
  { repeat (apply facts_and); [exact HD|apply facts_gating_global|apply facts_stages|apply facts_gating_global|
      apply facts_variables|by apply facts_jobs|apply facts_when, facts_other_changed]. }
  all: unfold violated, incomparable, exec_differs, other_differs; rewrite ?Hout, ?Hadd; tauto.
Qed.

End rules.

(** ** The kind of a delta *)

Definition with_definitions (base head : option Definition_) (P : Definition_ → Definition_ → Prop) : Prop :=
  ∃ b h, base = Some b ∧ head = Some h ∧ df_Problems b = [] ∧ df_Problems h = [] ∧ P b h.

Lemma facts_kind f v u e o : facts f v u e o →
  (kind_of f = KindViolation ↔ v) ∧ (kind_of f = KindExecChanging ↔ ¬ v ∧ ¬ u ∧ e) ∧
  (kind_of f = KindPreserving ↔ ¬ v ∧ ¬ u ∧ ¬ e ∧ o) ∧ (kind_of f = KindNone ↔ ¬ v ∧ ¬ u ∧ ¬ e ∧ ¬ o) ∧
  kind_of f ∈ [KindNone; KindPreserving; KindExecChanging; KindViolation; KindUnresolvable].
Proof.
  intros [Hv Hu He Ho]. unfold kind_of.
  destruct (fd_Violations f) as [|p ps]; cbn [length Nat.ltb Nat.leb].
  2:{ assert v by (by apply Hv). split_and!; [..|set_solver]; (split; [done|tauto]) || tauto. }
  assert (¬ v) by (rewrite <- Hv; tauto).
  destruct (fd_Unresolvable f) as [|p ps]; cbn [length Nat.ltb Nat.leb].
  2:{ assert u by (by apply Hu). split_and!; [..|set_solver]; (split; [done|tauto]). }
  assert (¬ u) by (rewrite <- Hu; tauto).
  rewrite <- He, <- Ho. destruct (execChanged f), (otherChanged f).
  all: split_and!; [..|set_solver]; 
    (split; [intros E; first [discriminate E|intuition congruence]|intros Hx; first [done|exfalso; intuition congruence]]).
Qed.

Lemma Compare_cases `{GoQuote} base head diagnosed :
  (∃ b h, base = Some b ∧ head = Some h ∧ df_Problems b = [] ∧ df_Problems h = [] ∧
     Compare base head diagnosed = compare_definitions b h diagnosed) ∨
  (¬ with_definitions base head (λ _ _, True)) ∧ dl_Kind (Compare base head diagnosed) = KindUnresolvable.
Proof.
  unfold Compare. destruct (0 <? _)%nat eqn:El.
  - right. split; [|done]. intros (b & h & -> & -> & E1 & E2 & _). cbn in El. by rewrite E1, E2 in El.
  - rewrite <- length_app in El. apply length_pos, app_nil in El as [E1 E2].
    destruct base as [b|]; [|done]. destruct head as [h|]; [|done]. left. by exists b, h.
Qed.

(** The kind of a comparison, in the order of its precedence: a broken rule
    outranks what could not be compared, that a change of what runs, that any
    other change. A document without a definition or with a problem is never
    judged, and the five kinds are all there are. *)
Theorem compare_exact `{GoQuote} base head diagnosed :
  let judged := with_definitions base head in
  let kind := dl_Kind (Compare base head diagnosed) in
  (kind = KindViolation ↔ judged (λ b h, violated b h diagnosed)) ∧
  (kind = KindExecChanging ↔
     judged (λ b h, ¬ violated b h diagnosed ∧ ¬ incomparable b h diagnosed ∧ exec_differs b h)) ∧
  (kind = KindPreserving ↔
     judged (λ b h, ¬ violated b h diagnosed ∧ ¬ incomparable b h diagnosed ∧ ¬ exec_differs b h ∧ other_differs b h)) ∧
  (kind = KindNone ↔
     judged (λ b h, ¬ violated b h diagnosed ∧ ¬ incomparable b h diagnosed ∧ ¬ exec_differs b h ∧ ¬ other_differs b h)) ∧
  kind ∈ [KindNone; KindPreserving; KindExecChanging; KindViolation; KindUnresolvable].
Proof.
  cbn zeta. destruct (Compare_cases base head diagnosed) as [(b & h & -> & -> & E1 & E2 & ->)|[Hno ->]].
  - assert (∀ P : Definition_ → Definition_ → Prop, with_definitions (Some b) (Some h) P ↔ P b h) as Hw.
    { intros P. split; [by intros (? & ? & [= <-] & [= <-] & _ & _ & HP)|intros HP; by exists b, h]. }
    rewrite !Hw. apply facts_kind, facts_compared.
  - assert (∀ P, ¬ with_definitions base head P) as Hw.
    { intros P (b & h & ? & ? & ? & ? & _). apply Hno. by exists b, h. }
    split_and!; [..|set_solver]; (split; [done|intros Hx; by destruct (Hw _ Hx)]).
Qed.

(** ** What the permitted kinds promise *)

Definition equal (bv hv : option value) : Prop := ¬ unresolved bv hv ∧ same_value bv hv = true.

Lemma unresolved_dec bv hv : unresolved bv hv ∨ ¬ unresolved bv hv.
Proof.
  destruct (unresolvedIn bv hv) as [p|] eqn:E; [left; by eapply unresolvedIn_some|right; by apply unresolvedIn_none].
Qed.
Lemma equal_iff bv hv : equal bv hv ↔ ¬ unresolved bv hv ∧ ¬ changed bv hv.
Proof. unfold equal, changed. destruct (same_value bv hv); intuition congruence. Qed.

Section upheld.
Context `{GoQuote} (base head : Definition_) (diagnosed : list string).

(** The diagnosed jobs have definitions, and the document's own keys are as the
    rules want them. *)
Definition globals_upheld : Prop :=
  (∀ job, job ∈ diagnosed → is_Some (DefinitionName base job)) ∧
  equal (Workflow base) (Workflow head) ∧ equal (DefaultRetry base) (DefaultRetry head) ∧
  listedStages (Stages base) `prefix_of` listedStages (Stages head) ∧
  ¬ unresolved (Variables base) (Variables head) ∧
  (same_value (Variables base) (Variables head) = true ∨ ∀ name, is_Some (Jobs base !! name) → in_T base diagnosed name).
(** A base job is at head, whole at both, and every key that is not free is
    resolved and the same, or an exec key of a diagnosed job. *)
Definition job_upheld (name : string) : Prop :=
  ∃ bj hj, Jobs base !! name = Some bj ∧ Jobs head !! name = Some hj ∧ jb_Problems bj = [] ∧ jb_Problems hj = [] ∧
  ∀ key, ClassifyKey key ≠ ClassFree →
    ¬ unresolved (Keys bj !! key) (Keys hj !! key) ∧
    (same_value (Keys bj !! key) (Keys hj !! key) = true ∨ ClassifyKey key = ClassExec ∧ in_T base diagnosed name).

Lemma in_T_dec name : in_T base diagnosed name ∨ ¬ in_T base diagnosed name.
Proof.
  destruct (diagnosed_definitions_exact base diagnosed) as [HT _]. rewrite <- HT.
  destruct (decide (name ∈ (diagnosed_definitions base diagnosed).1)); tauto.
Qed.

Lemma job_upheld_iff name : is_Some (Jobs base !! name) →
  job_upheld name ↔ ¬ job_violates base head (in_T base diagnosed) name ∧ ¬ job_incomparable base head name.
Proof.
  intros [bj Hb]. split.
  - intros (b & h & Eb & Eh & Pb & Ph & Hkeys). split.
    + intros (b' & Eb' & [E|(h' & Eh' & _ & _ & key & [Hu Hs] & Hv)]); [congruence|].
      assert (b' = b) as -> by congruence. assert (h' = h) as -> by congruence.
      assert (ClassifyKey key ≠ ClassFree) as Hf by (by destruct Hv as [E|[E|[E _]]]; rewrite E).
      destruct (Hkeys key Hf) as [_ [E|[E HT]]]; [congruence|].
      destruct Hv as [E'|[E'|[_ HT']]]; [by rewrite E in E'|by rewrite E in E'|done].
    + intros [(b' & h' & Eb' & Eh' & Hp)|(b' & h' & Eb' & Eh' & _ & _ & key & Hk)];
        assert (b' = b) as -> by congruence; assert (h' = h) as -> by congruence.
      { by rewrite Pb, Ph in Hp. }
      destruct Hk as [[Hu Hf]|[[Hu Hs] Hc]]; [by destruct (Hkeys key Hf)|].
      destruct (Hkeys key) as [_ [E|[E _]]]; [by rewrite Hc|congruence|by rewrite E in Hc].
  - intros [Hv Hi]. destruct (Jobs head !! name) as [hj|] eqn:Hh.
    2:{ destruct Hv. exists bj. split; [done|by left]. }
    assert (jb_Problems bj ++ jb_Problems hj = []) as [Pb Ph]%app_nil.
    { destruct (jb_Problems bj ++ jb_Problems hj) eqn:E; [done|]. destruct Hi. left. exists bj, hj. by rewrite E. }
    exists bj, hj. split_and!; [done..|]. intros key Hf.
    assert (¬ unresolved (Keys bj !! key) (Keys hj !! key)) as Hu.
    { intros Hu. apply Hi. right. exists bj, hj. split_and!; [done..|]. exists key. by left. }
    split; [done|]. destruct (same_value (Keys bj !! key) (Keys hj !! key)) eqn:Es; [by left|right].
    assert (¬ key_violates (in_T base diagnosed name) key) as Hk.
    { intros Hk. apply Hv. exists bj. split; [done|]. right. exists hj. split_and!; [done..|]. by exists key. }
    assert (ClassifyKey key ≠ ClassUnclassified) as Hc.
    { intros Hc. apply Hi. right. exists bj, hj. split_and!; [done..|]. exists key. by right. }
    unfold key_violates in Hk. destruct (ClassifyKey_cases key) as [E|[E|[E|[E|E]]]]; try tauto.
    destruct (in_T_dec name); tauto.
Qed.

Lemma upheld_iff :
  ¬ violated base head diagnosed ∧ ¬ incomparable base head diagnosed ↔
  globals_upheld ∧ ∀ name, is_Some (Jobs base !! name) → job_upheld name.
Proof.
  assert (∀ name, is_Some (Jobs base !! name) → job_upheld name ↔ _) as Hj by exact job_upheld_iff.
  unfold violated, incomparable, globals_upheld. rewrite !equal_iff. split.
  - intros [Hv Hi]. split; [split_and!; try tauto|].
    + intros job Hin. destruct (DefinitionName base job) eqn:E; [by eexists|]. destruct Hi. left. by exists job.
    + destruct (decide (listedStages (Stages base) `prefix_of` listedStages (Stages head))); tauto.
    + destruct (same_value (Variables base) (Variables head)) eqn:Es; [by left|right]. intros name Hn.
      destruct (in_T_dec name) as [|HT]; [done|]. destruct Hv. right; right; right; left.
      split; [split; [tauto|done]|by exists name].
    + intros name Hn. apply Hj; [done|]. split; intros Hx; [apply Hv|apply Hi]; repeat right; by exists name.
  - intros [(Hd & [Hw1 Hw2] & [Hr1 Hr2] & Hs & Hu & Hvar) Hall]. split.
    + intros [?|[?|[?|[[[_ Hx] (name & Hn & HT)]|(name & Hx)]]]]; try tauto.
      * destruct Hvar as [E|Hvar]; [congruence|]. by apply HT, Hvar.
      * assert (is_Some (Jobs base !! name)) as Hn by (destruct Hx as (b & E & _); by exists b).
        by apply (Hj name Hn) in Hx; [|apply Hall].
    + intros [(job & Hin & E)|[?|[?|[?|(name & Hx)]]]]; try tauto.
      * destruct (Hd job Hin) as [? E']. congruence.
      * assert (is_Some (Jobs base !! name)) as Hn by (destruct Hx as [(b & h & E & _)|(b & h & E & _)]; by exists b).
        by apply (Hj name Hn) in Hx; [|apply Hall].
Qed.
End upheld.

Lemma Compare_upholds_iff `{GoQuote} base head diagnosed :
  dl_Kind (Compare base head diagnosed) ∈ [KindNone; KindPreserving; KindExecChanging] ↔
  with_definitions base head (λ b h,
    globals_upheld b h diagnosed ∧ ∀ name, is_Some (Jobs b !! name) → job_upheld b h diagnosed name).
Proof.
  destruct (Compare_cases base head diagnosed) as [(b & h & -> & -> & E1 & E2 & ->)|[Hno ->]].
  - destruct (facts_kind _ _ _ _ _ (facts_compared b h diagnosed)) as (_ & He & Hp & Hn & Hk).
    transitivity (¬ violated b h diagnosed ∧ ¬ incomparable b h diagnosed).
    + cbn [compare_definitions dl_Kind]. rewrite !elem_of_cons, elem_of_nil, He, Hp, Hn.
      pose proof (facts_compared b h diagnosed) as [_ _ Hx Ho]. rewrite <- Hx, <- Ho.
      destruct (execChanged _), (otherChanged _); intuition congruence.
    + rewrite upheld_iff. split; [intros Hu; by exists b, h|by intros (? & ? & [= <-] & [= <-] & _ & _ & Hu)].
  - split; [by rewrite !elem_of_cons, elem_of_nil; intros [|[|[|]]]|]. intros (b & h & ? & ? & ? & ? & _).
    destruct Hno. by exists b, h.
Qed.

(** ** Nothing changed *)

Section same.
Context `{GoQuote} (base head : Definition_) (diagnosed : list string).

Definition unchanged : Prop :=
  (∀ job, job ∈ diagnosed → is_Some (DefinitionName base job)) ∧
  equal (Workflow base) (Workflow head) ∧ equal (DefaultRetry base) (DefaultRetry head) ∧
  equal (Variables base) (Variables head) ∧ listedStages (Stages base) = listedStages (Stages head) ∧
  ∀ name, (Jobs base !! name = None ∧ Jobs head !! name = None) ∨
    ∃ bj hj, Jobs base !! name = Some bj ∧ Jobs head !! name = Some hj ∧ jb_Problems bj = [] ∧ jb_Problems hj = [] ∧
      ∀ key, equal (Keys bj !! key) (Keys hj !! key).

Lemma unchanged_iff :
  ¬ violated base head diagnosed ∧ ¬ incomparable base head diagnosed ∧ ¬ exec_differs base head ∧
    ¬ other_differs base head ↔ unchanged.
Proof.
  transitivity ((¬ violated base head diagnosed ∧ ¬ incomparable base head diagnosed) ∧
    ¬ exec_differs base head ∧ ¬ other_differs base head); [tauto|].
  rewrite upheld_iff. unfold exec_differs, other_differs, unchanged, globals_upheld. split.
  - intros [[(Hd & Hw & Hr & [l Hs] & Hu & _) Hall] [He Ho]]. split_and!; try done.
    + apply equal_iff. tauto.
    + destruct l as [|x l]; [by rewrite Hs, app_nil_r|]. destruct Ho. left. by exists x, l.
    + intros name. destruct (Jobs base !! name) as [b|] eqn:Hb.
      2:{ left. split; [done|]. destruct (Jobs head !! name) as [h|] eqn:Hh; [|done].
          destruct Ho. right; left. exists name. by split; [exists h|]. }
      right. destruct (Hall name ltac:(by exists b)) as (b' & h & Eb & Eh & Pb & Ph & Hkeys).
      exists b', h. split_and!; try done; [by rewrite <- Hb|]. intros key. apply equal_iff.
      assert (∀ P, both_whole base head name P → (∃ n, both_whole base head n P)) as Hex by eauto.
      destruct (String.eqb_spec (ClassifyKey key) ClassFree) as [Ef|Ef].
      * split; intros Hx; apply Ho; right; right; apply Hex; exists b', h; split_and!; try done; exists key; tauto.
      * destruct (Hkeys key Ef) as [Hk [E|[E _]]]; split; try done; [intros [_ ?]; congruence|].
        intros Hx. apply He. right. apply Hex. exists b', h. split_and!; try done. by exists key.
  - intros (Hd & Hw & Hr & [Hv1 Hv2] & Hs & Hall).
    assert (∀ name P, both_whole base head name P → ∃ bj hj, P (Keys bj) (Keys hj) ∧
      ∀ key, equal (Keys bj !! key) (Keys hj !! key)) as Hboth.
    { intros name P (b & h & Eb & Eh & _ & _ & HP). exists b, h. split; [done|].
      destruct (Hall name) as [[E _]|(b' & h' & Eb' & Eh' & _ & _ & Hk)]; [congruence|].
      assert (b' = b) as -> by congruence. by assert (h' = h) as -> by congruence. }
    split; [split; [split_and!; try done; [by exists []; rewrite Hs, app_nil_r|by left]|]|split].
    + intros name [b Hb]. destruct (Hall name) as [[E _]|(b' & h' & Eb' & Eh' & Pb & Ph & Hk)]; [congruence|].
      exists b', h'. split_and!; try done. intros key _. destruct (Hk key) as [? ?]. split; [done|by left].
    + intros [Hx|(name & Hx)]; [by destruct Hx as [_ Hx]; congruence|].
      destruct (Hboth _ _ Hx) as (b & h & (key & [_ Hc] & _) & Hk). destruct (Hk key). congruence.
    + intros [(x & l & E)|[(name & [h Eh] & Eb)|(name & Hx)]].
      * rewrite Hs in E. apply (f_equal length) in E. rewrite length_app in E. cbn in E. lia.
      * destruct (Hall name) as [[_ E]|(b' & h' & Eb' & _)]; congruence.
      * destruct (Hboth _ _ Hx) as (b & h & (key & [Hu|[_ Hc]] & _) & Hk); destruct (Hk key) as [? ?]; [done|congruence].
Qed.
End same.

Lemma Compare_none_iff `{GoQuote} base head diagnosed :
  dl_Kind (Compare base head diagnosed) = KindNone ↔ with_definitions base head (λ b h, unchanged b h diagnosed).
Proof.
  destruct (Compare_cases base head diagnosed) as [(b & h & -> & -> & E1 & E2 & ->)|[Hno ->]].
  - destruct (facts_kind _ _ _ _ _ (facts_compared b h diagnosed)) as (_ & _ & _ & Hn & _).
    cbn [compare_definitions dl_Kind]. rewrite Hn, unchanged_iff.
    split; [intros Hu; by exists b, h|by intros (? & ? & [= <-] & [= <-] & _ & _ & Hu)].
  - split; [done|]. intros (b & h & ? & ? & ? & ? & _). destruct Hno. by exists b, h.
Qed.

(** ** Removed, added and renamed jobs *)

Lemma sorted_keys_NoDup {A} (m : gmap string A) : NoDup (sorted_keys m).
Proof. unfold sorted_keys, sort_strings. rewrite merge_sort_Permutation. apply NoDup_fst_map_to_list. Qed.

Lemma fd_Removed_all l : fd_Removed (all_found l) = concat (map fd_Removed l).
Proof. induction l as [|f l IH]; [done|]. cbn [map concat]. by rewrite <- IH. Qed.

Section renamed.
Context `{GoQuote} (base head : Definition_) (diagnosed : list string).

Lemma global_removed key bv hv f : fd_Removed f = [] → fd_Removed (global key bv hv f) = [].
Proof. intros Hf. unfold global. destruct (unresolvedIn bv hv) as [[]|]; [done|]. unfold when. by destruct (negb (same_value bv hv)). Qed.

Lemma all_found_removed {A} (f : A → Found) l : (∀ x, fd_Removed (f x) = []) → fd_Removed (all_found (map f l)) = [].
Proof. intros Hf. rewrite fd_Removed_all. induction l as [|x l IH]; cbn [map concat]; [done|]. by rewrite Hf. Qed.

Lemma compare_key_removed name d key bv hv : fd_Removed (compare_key name d key bv hv).2 = [].
Proof.
  unfold compare_key, when. destruct (unresolvedIn bv hv) as [[side r]|].
  - by destruct (String.eqb _ _).
  - destruct (same_value bv hv); [done|]. cbn [snd]. repeat (destruct (String.eqb _ _); [by destruct d|]). done.
Qed.

Lemma compare_job_removed inT name : is_Some (Jobs base !! name) →
  fd_Removed (compare_job base head inT name) = if decide (Jobs head !! name = None) then [name] else [].
Proof.
  intros [bj Hb]. unfold compare_job. rewrite Hb. destruct (Jobs head !! name) as [hj|]; [|done].
  rewrite decide_False by done. destruct (0 <? length (jb_Problems bj) + length (jb_Problems hj))%nat; [by apply all_found_removed|]. unfold compare_keys. cbn [and_found fd_Removed].
  rewrite app_nil_r. apply (all_found_removed (λ key, _)). intros key. apply compare_key_removed.
Qed.

Lemma diagnosed_removed : fd_Removed (diagnosed_definitions base diagnosed).2 = [].
Proof.
  induction diagnosed as [|job l IH]; cbn [diagnosed_definitions]; [done|].
  destruct (diagnosed_definitions base l) as [inT found]. by destruct (DefinitionName base job).
Qed.

Lemma removed_exact :
  Removed (compare_definitions base head diagnosed) = filter (λ name, Jobs head !! name = None) (sorted_keys (Jobs base)).
Proof.
  cbn [compare_definitions Removed]. unfold compare_parts. pose proof diagnosed_removed as Hd.
  destruct (diagnosed_definitions base diagnosed) as [inT undiagnosed]. cbn [snd] in Hd.
  cbn [and_found fd_Removed]. rewrite fd_Removed_all, map_app, concat_app. cbn [map concat].
  assert (∀ o, fd_Removed (compare_variables base head o) = []) as Hv by (intros o; apply global_removed; by destruct o).
  rewrite Hd, Hv. unfold compare_workflow, compare_default_retry. rewrite !global_removed by done.
  assert (fd_Removed (compare_stages base head) = []) as ->.
  { unfold compare_stages. destruct (stagesAppended _ _) as [l|]; [by destruct l|done]. }
  assert (fd_Removed (when (0 <? length (added_jobs base head))%nat other_changed) = []) as -> by (by destruct (added_jobs base head)).
  rewrite app_nil_r. cbn [app].
  assert (∀ l, (∀ name, name ∈ l → is_Some (Jobs base !! name)) →
    concat (map fd_Removed (map (compare_job base head inT) l)) = filter (λ name, Jobs head !! name = None) l) as ->; [|done|].
  { intros l. induction l as [|x l IH]; intros Hl; cbn [map concat]; [done|]. rewrite filter_cons.
    rewrite compare_job_removed by (apply Hl; by left). rewrite IH by (intros y Hy; apply Hl; by right). by case_decide. }
  intros name. by rewrite elem_of_sorted_keys.
Qed.

Variables (removed added : list string).
Definition only_match (from to : string) : Prop :=
  to ∈ added ∧ same_job base head from to = true ∧ ∀ to', to' ∈ added → same_job base head from to' = true → to' = to.

Lemma matchesOf_only from to : NoDup added → matchesOf base head added from = [to] ↔ only_match from to.
Proof.
  intros Hnd. unfold only_match, matchesOf.
  assert (∀ x, x ∈ filter (λ to, same_job base head from to = true) added ↔ same_job base head from x = true ∧ x ∈ added) as Hx.
  { intros x. by rewrite list_elem_of_filter. }
  apply (NoDup_filter (λ to, same_job base head from to = true)) in Hnd.
  destruct (filter _ added) as [|y l].
  - split; [done|]. intros (? & ? & _). exfalso. apply (elem_of_nil to), Hx. done.
  - split.
    + intros [= -> ->]. destruct (proj1 (Hx to)) as [? ?]; [by left|]. split_and!; [done..|].
      intros to' ? ?. by apply list_elem_of_singleton, Hx.
    + intros (? & ? & Hu). assert (∀ x, x ∈ y :: l → x = to) as Hall by (intros x Hin; apply Hx in Hin as [? ?]; auto).
      pose proof (Hall y ltac:(by left)) as Ey. subst y. destruct l as [|z l]; [done|]. exfalso.
      apply NoDup_cons in Hnd as [Hnd _]. apply Hnd. rewrite (Hall z) by (right; by left). by left.
Qed.

Lemma candidates_candidate claimed candidate r :
  (candidates base head added removed claimed candidate).2 !! r =
  if decide (r ∈ removed) then match matchesOf base head added r with [to] => Some to | _ => candidate !! r end
  else candidate !! r.
Proof.
  revert claimed candidate. induction removed as [|x l IH]; intros claimed candidate; cbn [candidates].
  { by rewrite decide_False by (by intros ?%elem_of_nil). }
  assert (∀ c : gmap string string, c !! r = (if decide (r = x) then match matchesOf base head added r with [to] => Some to | _ => candidate !! r end
                         else candidate !! r) → 
    (if decide (r ∈ l) then match matchesOf base head added r with [to] => Some to | _ => c !! r end else c !! r) =
    if decide (r ∈ x :: l) then match matchesOf base head added r with [to] => Some to | _ => candidate !! r end
    else candidate !! r) as Hc.
  { intros c ->. destruct (decide (r = x)) as [->|Hne]; [rewrite (decide_True (P := x ∈ x :: l)) by (by left)|].
    - case_decide; [|done]. by destruct (matchesOf base head added x) as [|? [|]].
    - destruct (decide (r ∈ l)); [rewrite decide_True by (by right)|rewrite decide_False by set_solver]; done. }
  destruct (matchesOf base head added x) as [|to [|? ?]] eqn:E; rewrite IH; apply Hc; case_decide; subst; rewrite ?E; try done.
  - by rewrite lookup_insert_eq.
  - by rewrite lookup_insert_ne.
Qed.

Lemma candidates_claimed claimed candidate to :
  default 0 ((candidates base head added removed claimed candidate).1 !! to) =
  default 0 (claimed !! to) + Z.of_nat (length (filter (λ r, matchesOf base head added r = [to]) removed)).
Proof.
  revert claimed candidate. induction removed as [|x l IH]; intros claimed candidate; cbn [candidates]; [rewrite filter_nil; cbn [length fst]; lia|].
  rewrite filter_cons. destruct (matchesOf base head added x) as [|t [|? ?]] eqn:E; rewrite IH.
  1, 3: by rewrite decide_False by done.
  destruct (decide (t = to)) as [->|Hne].
  - rewrite lookup_insert_eq, decide_True by done. cbn [from_option length id]. lia.
  - rewrite lookup_insert_ne, decide_False by (done || congruence). done.
Qed.

Lemma one_element {A} (l : list A) x : NoDup l → x ∈ l → length l = 1%nat ↔ ∀ y, y ∈ l → y = x.
Proof.
  intros Hnd Hx. destruct l as [|a [|b l]]; [by apply elem_of_nil in Hx| |].
  - apply list_elem_of_singleton in Hx as ->. split; [by intros _ y ->%list_elem_of_singleton|done].
  - split; [done|]. intros Hall. exfalso. apply NoDup_cons in Hnd as [Hnd _]. apply Hnd.
    rewrite (Hall a), (Hall b) by (rewrite !elem_of_cons; tauto). by left.
Qed.

Lemma renames_exact from to : NoDup removed → NoDup added →
  mkRename from to ∈ renames base head removed added ↔
  from ∈ removed ∧ only_match from to ∧ ∀ from', from' ∈ removed → only_match from' to → from' = from.
Proof.
  intros Hr Ha. unfold renames. pose proof (candidates_candidate ∅ ∅) as Hc. pose proof (candidates_claimed ∅ ∅) as Hn.
  destruct (candidates base head added removed ∅ ∅) as [claimed candidate]. cbn [fst snd] in Hc, Hn.
  rewrite list_elem_of_omap. setoid_rewrite <- matchesOf_only; [|done..].
  assert (∀ r, r ∈ removed → candidate !! r = match matchesOf base head added r with [t] => Some t | _ => None end) as Hc'.
  { intros r Hin. rewrite Hc, decide_True by done. by destruct (matchesOf base head added r) as [|? [|]]; rewrite ?lookup_empty. }
  clear Hc. assert (from ∈ removed → matchesOf base head added from = [to] → (default 0 (claimed !! to) =? 1) = true ↔
    ∀ from', from' ∈ removed → matchesOf base head added from' = [to] → from' = from) as Hone.
  { intros Hin Hm. rewrite Hn, lookup_empty, Z.eqb_eq. cbn [from_option id].
    transitivity (length (filter (λ r, matchesOf base head added r = [to]) removed) = 1%nat); [lia|].
    rewrite (one_element _ from); [|by apply NoDup_filter|by rewrite list_elem_of_filter].
    setoid_rewrite list_elem_of_filter. naive_solver. }
  split.
  - intros (r & Hin & Hx). rewrite Hc' in Hx by done.
    destruct (matchesOf base head added r) as [|t [|]] eqn:E; try done.
    destruct (_ =? 1) eqn:E1 in Hx; [|done]. injection Hx as -> ->. split_and!; [done..|]. by apply Hone.
  - intros (Hin & Hm & Hu). exists from. split; [done|]. rewrite Hc', Hm by done. by rewrite (proj2 (Hone Hin Hm) Hu).
Qed.
End renamed.

(** What became of the jobs: [Removed] are the base jobs absent at head and
    [Added] the head jobs absent at base; a pair is in [Renamed] exactly when the
    two definitions are whole, resolved and equal, and neither has another
    partner. *)
Theorem Renamed_exact `{GoQuote} base head diagnosed :
  let d := compare_definitions base head diagnosed in
  (∀ name, name ∈ Removed d ↔ is_Some (Jobs base !! name) ∧ Jobs head !! name = None) ∧
  (∀ name, name ∈ Added d ↔ is_Some (Jobs head !! name) ∧ Jobs base !! name = None) ∧
  ∀ from to, mkRename from to ∈ Renamed d ↔
    from ∈ Removed d ∧ only_match base head (Added d) from to ∧
    ∀ from', from' ∈ Removed d → only_match base head (Added d) from' to → from' = from.
Proof.
  cbn zeta. split_and!.
  - intros name. rewrite removed_exact, list_elem_of_filter, elem_of_sorted_keys. tauto.
  - intros name. cbn [compare_definitions Added]. unfold added_jobs. rewrite list_elem_of_filter, elem_of_sorted_keys. tauto.
  - intros from to.
    assert (Renamed (compare_definitions base head diagnosed) =
      renames base head (Removed (compare_definitions base head diagnosed)) (added_jobs base head)) as -> by done.
    change (Added (compare_definitions base head diagnosed)) with (added_jobs base head). rewrite removed_exact.
    apply renames_exact; apply NoDup_filter, sorted_keys_NoDup.
Qed.

(** ** Two documents *)

(** C16. A comparison of two documents whose kind is none of the refusals promises
    the rules of section 6.2 of every base job: its definition is at head, whole
    at both sides, and each key that is not free is resolved and the same, unless
    it is an exec key of a diagnosed job; [workflow], [default.retry] and the
    order of the base stages are unchanged, and the global variables changed only
    if every base job was diagnosed. And only a comparison that finds all this has
    such a kind; the comparison always answers. *)
Theorem Diff_upholds `{GoQuote} `{MapRange, GoUnicode, YamlDecoder} baseYAML headYAML diagnosed :
  ∃ base head d, Effective baseYAML = Some base ∧ Effective headYAML = Some head ∧
  Diff baseYAML headYAML diagnosed = Some d ∧
  (dl_Kind d ∈ [KindNone; KindPreserving; KindExecChanging] ↔
   df_Problems base = [] ∧ df_Problems head = [] ∧ globals_upheld base head diagnosed ∧
   ∀ name, is_Some (Jobs base !! name) → job_upheld base head diagnosed name).
Proof.
  destruct (Effective_answers baseYAML) as [base Eb]. destruct (Effective_answers headYAML) as [head Eh].
  exists base, head. unfold Diff. rewrite Eb, Eh. eexists. split_and!; [done..|]. rewrite Compare_upholds_iff. split.
  - by intros (? & ? & [= <-] & [= <-] & ? & ? & ? & ?).
  - intros (? & ? & ? & ?). by exists base, head.
Qed.

(** A comparison of two documents always answers. Its kind is [none] exactly
    when both are readable, every diagnosed job has a definition, and nothing
    that is resolved or not differs: the same jobs, each whole and each key
    resolved and the same at both sides, the same document-level keys and the
    same listed stages. *)
Theorem Diff_none `{GoQuote} `{MapRange, GoUnicode, YamlDecoder} baseYAML headYAML diagnosed :
  ∃ base head d, Effective baseYAML = Some base ∧ Effective headYAML = Some head ∧
  Diff baseYAML headYAML diagnosed = Some d ∧
  (dl_Kind d = KindNone ↔ df_Problems base = [] ∧ df_Problems head = [] ∧ unchanged base head diagnosed).
Proof.
  destruct (Effective_answers baseYAML) as [base Eb]. destruct (Effective_answers headYAML) as [head Eh].
  exists base, head. unfold Diff. rewrite Eb, Eh. eexists. split_and!; [done..|]. rewrite Compare_none_iff. split.
  - by intros (? & ? & [= <-] & [= <-] & ? & ? & ?).
  - intros (? & ? & ?). by exists base, head.
Qed.

(** A value that compares as equal to itself. *)
Definition comparable (v : option value) : Prop :=
  ∀ x, v = Some x → (∀ r, ¬ inside (VUnresolved r) x) ∧ ¬ inside (VFloat NaN) x.

Lemma equal_self v : equal v v ↔ comparable v.
Proof.
  unfold equal, comparable, unresolved. destruct v as [v|]; cbn [same_value].
  - rewrite deep_eq_refl. split.
    + intros [Hu Hn] x [= <-]. split; [|done]. intros r Hr. apply Hu. exists v, r. tauto.
    + intros Hx. destruct (Hx v eq_refl) as [Hr Hn]. split; [|done]. by intros (? & r & [[= <-]|[= <-]] & ?%Hr).
  - split; [done|]. intros _. split; [|done]. by intros (? & ? & [[=]|[=]] & _).
Qed.

(** A document compared with itself is unchanged exactly when it is readable,
    every diagnosed job has a definition, every job is whole, and no value of it
    is unresolved or holds a number that is not one. *)
Theorem Diff_same_document `{GoQuote} `{MapRange, GoUnicode, YamlDecoder} mergedYAML diagnosed :
  ∃ def d, Effective mergedYAML = Some def ∧ Diff mergedYAML mergedYAML diagnosed = Some d ∧
  (dl_Kind d = KindNone ↔
   df_Problems def = [] ∧ (∀ job, job ∈ diagnosed → is_Some (DefinitionName def job)) ∧
   comparable (Workflow def) ∧ comparable (DefaultRetry def) ∧ comparable (Variables def) ∧
   ∀ name j, Jobs def !! name = Some j → jb_Problems j = [] ∧ ∀ key, comparable (Keys j !! key)).
Proof.
  destruct (Effective_answers mergedYAML) as [def E]. exists def. unfold Diff. rewrite E. eexists. split_and!; [done..|].
  rewrite Compare_none_iff. unfold with_definitions, unchanged. rewrite <- !equal_self. split.
  - intros (? & ? & [= <-] & [= <-] & ? & _ & ? & ? & ? & ? & _ & Hall). split_and!; [done..|]. intros name j Hj.
    destruct (Hall name) as [[? _]|(b & h & Eb & Eh & ? & _ & Hk)]; [congruence|].
    assert (b = j) as -> by congruence. assert (h = j) as -> by congruence. split; [done|]. intros key. by apply equal_self.
  - intros (? & ? & ? & ? & ? & Hall). exists def, def. split_and!; [done..|]. intros name.
    destruct (Jobs def !! name) as [j|] eqn:Ej; [right|by left]. destruct (Hall name j Ej) as [? Hk].
    exists j, j. split_and!; [done..|]. intros key. apply equal_self, Hk.
Qed.

(** ** Examples *)

Section examples.
Local Instance quote_ascii : GoQuote := {| unicode_quote := λ s, s |}.

Definition job_keys (script : string) (more : gmap string value) : gmap string value :=
  {[ "stage" := VStr "test"; "script" := VStr script ]} ∪ more.
Definition definition_of (jobs : gmap string (gmap string value)) : Definition_ :=
  mkDefinition (map_imap (λ name keys, Some (mkJob name "test" keys [])) jobs) DefaultStages None None None [].

(** A changed script is an exec change of the diagnosed job and breaks D3 on any
    other; a key no group lists cannot be judged; a free key that is unresolved
    is a change and nothing else; and a job under another name is removed, added
    and renamed. *)
Example compare_examples :
  let kind head T := dl_Kind (Compare (Some (definition_of {[ "unit" := job_keys "a" ∅; "lint" := job_keys "b" ∅ ]})) (Some (definition_of head)) T) in
  kind {[ "unit" := job_keys "a" ∅; "lint" := job_keys "b" ∅ ]} ["unit"] = KindNone ∧
  kind {[ "unit" := job_keys "A" ∅; "lint" := job_keys "b" ∅ ]} ["unit"] = KindExecChanging ∧
  kind {[ "unit" := job_keys "A" ∅; "lint" := job_keys "b" ∅ ]} ["lint"] = KindViolation ∧
  kind {[ "unit" := job_keys "a" ∅; "lint" := job_keys "b" ∅ ]} ["e2e"] = KindUnresolvable ∧
  kind {[ "unit" := job_keys "a" {[ "retry" := VInt 2 ]}; "lint" := job_keys "b" ∅ ]} ["unit"] = KindViolation ∧
  kind {[ "unit" := job_keys "a" {[ "unheard_of" := VInt 2 ]}; "lint" := job_keys "b" ∅ ]} ["unit"] = KindUnresolvable ∧
  kind {[ "unit" := job_keys "a" {[ "needs" := VUnresolved "x" ]}; "lint" := job_keys "b" ∅ ]} ["unit"] = KindPreserving ∧
  kind {[ "unit" := job_keys "a" ∅ ]} ["unit"] = KindViolation.
Proof. by vm_compute. Qed.

Example renamed_example :
  let d := Compare (Some (definition_of {[ "unit" := job_keys "a" ∅; "lint" := job_keys "b" ∅ ]}))
             (Some (definition_of {[ "test" := job_keys "a" ∅; "lint" := job_keys "b" ∅ ]})) [] in
  (Removed d, Added d, Renamed d) = (["unit"], ["test"], [mkRename "unit" "test"]).
Proof. by vm_compute. Qed.

(** A job without problems whose value is not a number differs from itself. *)
Example not_a_number_differs :
  let def := definition_of {[ "unit" := job_keys "a" {[ "retry" := VFloat NaN ]} ]} in
  dl_Kind (Compare (Some def) (Some def) []) = KindViolation.
Proof. by vm_compute. Qed.
End examples.
