(* ===== verification/FixFacts.v ===== *)
(** * [cmd/gonk-gate]: the facts of an exit check ([pipefix_facts.go])

    The judge-time half of the facts the exit check of a fix decides on, read
    from GitLab: the merge request, its pipelines with every attempt of their
    jobs and the logs of the failed ones, and the delta of the CI definition; and
    the facts of the base pipeline. A read that failed leaves its group unread.
    GitLab's replies ([pkg/glab]) are a class, and so is the canonical text of a
    job name. *)

From S2P Require Import Prelude.
From S2P Require Import GoStrings.
From S2P Require Import GoTime.
From S2P Require Import CiDelta.
From S2P Require Import CiValue.
From S2P Require Import CiEffective.
From S2P Require Import CiCompare.
From S2P Require Import Pipefix.
From S2P Require Import PipefixJudge.

(** ** GitLab's objects ([pkg/glab]) *)

(** [IsCommitSHA]. *)
Definition lower_hex (c : Ascii.ascii) : bool :=
  let n := Ascii.nat_of_ascii c in ((48 <=? n)%nat && (n <=? 57)%nat) || ((97 <=? n)%nat && (n <=? 102)%nat).
Definition IsCommitSHA (s : string) : bool := ((len s =? 40) || (len s =? 64)) && all_bytes lower_hex s.

Module Glab.
Record MergeRequest := mkMergeRequest {
  IID : Z;
  Description : string;
  State : string;
  SourceBranch : string;
  SourceProjectID : Z;
  TargetProjectID : Z;
  Labels : list string;
  SHA : string;
  AuthorID : Z;
}.
Record Pipeline := mkPipeline {
  ID : Z;
  ProjectID : Z;
  Status : string;
  Source : string;
  Ref : string;
  PipelineSHA : string;
}.
Record Job := mkJob {
  JobID : Z;
  Name : string;
  Stage : string;
  JobStatus : string;
  FailureReason : string;
  AllowFailure : bool;
  PipelineID : Z;
}.
Record CILintInclude := mkCILintInclude { Type_ : string; Location : string; ContextSHA : string }.
Record CILint := mkCILint { Valid : bool; Errors : list string; MergedYAML : string; Includes : list CILintInclude }.
End Glab.

Definition IncludeTypeLocal : string := "local".

(** An error is what it says; a reply may hold no object. *)
Abbreviation Reply A := (result string (option A)).

(** [pipefixReader]: six reads. *)
Class PipefixReader := {
  GetMergeRequest : Z → Z → Reply Glab.MergeRequest;
  ListMRPipelines : Z → Z → result string (list Glab.Pipeline);
  GetPipeline : Z → Z → Reply Glab.Pipeline;
  ListPipelineAttempts : Z → Z → result string (list Glab.Job);
  GetJobTraceTail : Z → Z → Z → Z → Reply LogRead;
  CILintStatic : Z → string → Reply Glab.CILint;
}.

(** [jobNameText]: white space collapsed, secrets and fences removed, cut. *)
Class JobNames := { jobNameText : string → string }.

Definition pipelineTraceMaxRead : Z := 134217728.
Definition pipelineTraceTail : Z := 8388608.

(** ** What is read *)

Record pipefixRead := mkRead { What : string; Ref_ : string; OK : bool; Err_ : string }.
Definition read_ok (what ref : string) : pipefixRead := mkRead what ref true "".
Definition pipefixFailed (what ref err : string) : pipefixRead := mkRead what ref false err.

Record pipefixLint := mkLint { lt_SHA : string; lt_Valid : bool; lt_Errors : list string;
  lt_Includes : list Glab.CILintInclude; lt_MergedYAML : string }.
Record pipefixEvidence := mkEvidence { ev_Reads : list pipefixRead; BaseLint : option pipefixLint; HeadLint : option pipefixLint }.

Record pipefixBase := mkBase {
  ba_Read : bool;
  ba_PipelineID : Z;
  ba_SHA : string;
  ba_Status : string;
  ba_Source : string;
  ba_Jobs : list BaseJob;
  ba_Recorded : list RecordedJob;
  ba_Reads : list pipefixRead;
}.

Section reads.
Context `{GoQuote} `{PipefixReader} `{JobNames} `{ErrorText}.

Definition bang (iid : Z) : string := "!" +:+ itoa iid.
Definition MRFacts_zero : MRFacts := mkMRFacts false 0 "" "".

Definition readPipefixMR (projectID mrIID : Z) : MRFacts * pipefixRead :=
  let ref := bang mrIID in
  match GetMergeRequest projectID mrIID with
  | Err e => (MRFacts_zero, pipefixFailed "mr" ref e)
  | Ok None => (MRFacts_zero, pipefixFailed "mr" ref "no merge request in the reply")
  | Ok (Some mr) =>
      if negb (Glab.IID mr =? mrIID) then (MRFacts_zero, pipefixFailed "mr" ref ("the reply carries iid " +:+ itoa (Glab.IID mr)))
      else if String.eqb (Glab.State mr) "" then (MRFacts_zero, pipefixFailed "mr" ref "the reply carries no state")
      else (mkMRFacts true (Glab.IID mr) (Glab.State mr) (Glab.SHA mr), read_ok "mr" ref)
  end.

(** Why a listed object is not a pipeline of this project. *)
Definition pipefixPipelineProblem (p : Glab.Pipeline) (projectID : Z) : string :=
  if Glab.ID p =? 0 then "an entry carries no id"
  else if negb (IsCommitSHA (Glab.PipelineSHA p)) then
    "pipeline " +:+ itoa (Glab.ID p) +:+ " carries sha " +:+ Quote (Glab.PipelineSHA p) +:+ ", not a commit"
  else if String.eqb (Glab.Source p) "" then "pipeline " +:+ itoa (Glab.ID p) +:+ " carries no source"
  else if String.eqb (Glab.Status p) "" then "pipeline " +:+ itoa (Glab.ID p) +:+ " carries no status"
  else if negb (Glab.ProjectID p =? projectID) then
    "pipeline " +:+ itoa (Glab.ID p) +:+ " carries project_id " +:+ itoa (Glab.ProjectID p)
  else "".

Definition fetchPipefixTrace (projectID jobID : Z) : Reply LogRead :=
  GetJobTraceTail projectID jobID pipelineTraceMaxRead pipelineTraceTail.

Definition bool_text (b : bool) : string := if b then "true" else "false".

Definition readPipefixTrace (projectID jobID : Z) (what : string) : Trace * pipefixRead :=
  let ref := "job " +:+ itoa jobID in
  match fetchPipefixTrace projectID jobID with
  | Err e => (Trace_zero, pipefixFailed what ref e)
  | Ok None => (Trace_zero, pipefixFailed what ref "no log in the reply")
  | Ok (Some log) =>
      let tr := FailedTrace log in
      if negb (tr_Read tr) then
        (Trace_zero, pipefixFailed what ref
           ("the log was not read whole (start dropped: " +:+ bool_text (HeadTruncated log) +:+ ", stopped before the end: " +:+
            bool_text (TailTruncated log) +:+ ") and its first error line cannot be established"))
      else (tr, read_ok what ref)
  end.

Definition not_a_job (j : Glab.Job) : bool :=
  (Glab.JobID j =? 0) || String.eqb (Glab.Name j) "" || String.eqb (Glab.JobStatus j) "".
Definition job_list_problem (j : Glab.Job) : string :=
  "not a job list: an entry carries id " +:+ itoa (Glab.JobID j) +:+ ", name " +:+ Quote (Glab.Name j) +:+ ", status " +:+
  Quote (Glab.JobStatus j).

(** One attempt, its log read when it is a failed one of a target. *)
Definition attempt_of (projectID : Z) (inT : gset string) (j : Glab.Job) : Attempt * list pipefixRead :=
  let a tr := mkAttempt (Glab.JobID j) (jobNameText (Glab.Name j)) (Glab.Stage j) (Glab.JobStatus j) (Glab.FailureReason j)
                (Glab.AllowFailure j) tr in
  if String.eqb (Glab.JobStatus j) StatusFailed && bool_decide (jobNameText (Glab.Name j) ∈ inT) then
    let '(tr, rd) := readPipefixTrace projectID (Glab.JobID j) "trace" in (a tr, [rd])
  else (a Trace_zero, []).

(** [(attempts, read, reads)]. *)
Definition readPipefixAttempts (projectID pipelineID : Z) (inT : gset string) : list Attempt * bool * list pipefixRead :=
  let ref := "pipeline " +:+ itoa pipelineID in
  match ListPipelineAttempts projectID pipelineID with
  | Err e => ([], false, [pipefixFailed "jobs" ref e])
  | Ok jobs =>
      match List.find not_a_job jobs with
      | Some j => ([], false, [pipefixFailed "jobs" ref (job_list_problem j)])
      | None =>
          let read := map (attempt_of projectID inT) jobs in
          (map fst read, true, read_ok "jobs" ref :: flat_map snd read)
      end
  end.

(** A listed pipeline with its attempts, when it is one of the fix commit. *)
Definition pipeline_of (projectID : Z) (fixCommitSHA : string) (inT : gset string) (p : Glab.Pipeline) :
    Pipeline * list pipefixRead :=
  let out := mkPipeline (Glab.ID p) (Glab.PipelineSHA p) (Glab.Source p) (Glab.Ref p) (Glab.Status p) in
  if String.eqb (Glab.PipelineSHA p) fixCommitSHA && negb (String.eqb (Glab.Source p) SourceParentPipeline) then
    let '(jobs, read, reads) := readPipefixAttempts projectID (Glab.ID p) inT in (out read read jobs, reads)
  else (out false false [], []).

Definition readPipefixPipelines (projectID mrIID : Z) (fixCommitSHA : string) (targets : list string) :
    PipelineFacts * list pipefixRead :=
  let ref := bang mrIID in
  match ListMRPipelines projectID mrIID with
  | Err e => (mkPipelineFacts false [], [pipefixFailed "mr-pipelines" ref e])
  | Ok listed =>
      match List.find (λ p, negb (String.eqb (pipefixPipelineProblem p projectID) "")) listed with
      | Some p =>
          (mkPipelineFacts false [],
           [pipefixFailed "mr-pipelines" ref ("not a pipeline list: " +:+ pipefixPipelineProblem p projectID)])
      | None =>
          let inT : gset string := list_to_set targets in
          let read := map (pipeline_of projectID fixCommitSHA inT) listed in
          (mkPipelineFacts true (map fst read), read_ok "mr-pipelines" ref :: flat_map snd read)
      end
  end.

(** ** The definition *)

Definition unpinned (incs : list Glab.CILintInclude) : gset string :=
  list_to_set (map (λ inc, Glab.Type_ inc +:+ " " +:+ Glab.Location inc)
    (List.filter (λ inc, negb (String.eqb (Glab.Type_ inc) IncludeTypeLocal)) incs)).

Definition unpinned_finding (b h : gset string) (k : string) : Unresolvable :=
  mkUnresolvable (if bool_decide (k ∈ b) then if bool_decide (k ∈ h) then SideBoth else SideBase else SideHead) "" "include"
    ("an include that is not a local file of the commit (" +:+ k +:+ "): no commit of this project pins its content").

Definition withUnpinnedIncludes (d : Delta) (base head : list Glab.CILintInclude) : Delta :=
  let b := unpinned base in
  let h := unpinned head in
  let keys := sort_strings (elements (b ∪ h)) in
  if (length keys =? 0)%nat then d
  else mkDelta (if negb (String.eqb (dl_Kind d) KindViolation) then KindUnresolvable else dl_Kind d)
         (dl_Jobs d) (Removed d) (Added d) (Renamed d) (Globals d) (dl_Violations d)
         (dl_Unresolvable d ++ map (unpinned_finding b h) keys).

(** One side's lint, and the read. *)
Definition lint (projectID : Z) (sha : string) : option pipefixLint * pipefixRead :=
  match CILintStatic projectID sha with
  | Err e => (None, pipefixFailed "ci-lint" sha e)
  | Ok None => (None, pipefixFailed "ci-lint" sha "no lint result in the reply")
  | Ok (Some l) => (Some (mkLint sha (Glab.Valid l) (Glab.Errors l) (Glab.Includes l) (Glab.MergedYAML l)), read_ok "ci-lint" sha)
  end.

Definition DefinitionFacts_zero : DefinitionFacts := mkDefinitionFacts false (mkDelta "" [] [] [] [] [] [] []).

(** [(facts, base, head, reads)]; [None]: not enough fuel. *)
Definition readPipefixDefinition `{MapRange, GoUnicode, YamlDecoder} (projectID : Z) (baseSHA headSHA : string)
    (targets : list string) : option (DefinitionFacts * option pipefixLint * option pipefixLint * list pipefixRead) :=
  let '(base, r1) := lint projectID baseSHA in
  let '(head, r2) := lint projectID headSHA in
  match base, head with
  | Some b, Some h =>
      match Diff (lt_MergedYAML b) (lt_MergedYAML h) targets with
      | None => None
      | Some delta =>
          Some (mkDefinitionFacts true (withUnpinnedIncludes delta (lt_Includes b) (lt_Includes h)), base, head, [r1; r2])
      end
  | _, _ => Some (DefinitionFacts_zero, base, head, [r1; r2])
  end.

(** ** The facts *)

Definition readPipefixJudgeFacts `{MapRange, GoUnicode, YamlDecoder} (projectID : Z) (fix_ : FixFacts) :
    option (JudgeFacts * pipefixEvidence) :=
  let targets := map t_Name (Targets fix_) in
  let '(mr, rd) := readPipefixMR projectID (MRIID fix_) in
  let '(pipelines, reads) := readPipefixPipelines projectID (MRIID fix_) (FixCommitSHA fix_) targets in
  match readPipefixDefinition projectID (FixBaseSHA fix_) (FixCommitSHA fix_) targets with
  | None => None
  | Some (definition, base, head, reads') =>
      Some (mkJudgeFacts fix_ mr pipelines definition, mkEvidence (rd :: reads ++ reads') base head)
  end.

(** ** The base pipeline *)

(** The attempt of the highest id for each name. *)
Definition latest_step (latest : gmap string Glab.Job) (j : Glab.Job) : gmap string Glab.Job :=
  let name := jobNameText (Glab.Name j) in
  match latest !! name with
  | Some cur => if Glab.JobID cur <? Glab.JobID j then <[name := j]> latest else latest
  | None => <[name := j]> latest
  end.

(** The failed targets with the facts of their failure; or the read that failed. *)
Fixpoint recorded_jobs (projectID : Z) (latest : gmap string Glab.Job) (targets : list string) (seen : gset string) :
    (pipefixRead * list pipefixRead) + (list RecordedJob * list pipefixRead) :=
  match targets with
  | [] => inr ([], [])
  | t :: targets =>
      let name := jobNameText t in
      match latest !! name with
      | Some j =>
          if bool_decide (name ∈ seen) || negb (String.eqb (Glab.JobStatus j) StatusFailed)
          then recorded_jobs projectID latest targets seen
          else
            let '(trace, rd) := readPipefixTrace projectID (Glab.JobID j) "base-trace" in
            if negb (tr_Read trace) then inl (rd, [])
            else
              match recorded_jobs projectID latest targets ({[ name ]} ∪ seen) with
              | inl (failed, reads) => inl (failed, rd :: reads)
              | inr (recorded, reads) =>
                  inr (mkRecordedJob name (Glab.Stage j) (Glab.FailureReason j) (ErrorSignature (tr_FirstError trace))
                         (Glab.AllowFailure j) (GenericFirstError (tr_FirstError trace)) true :: recorded, rd :: reads)
              end
      | None => recorded_jobs projectID latest targets seen
      end
  end.

Definition base_job (name : string) (j : Glab.Job) : BaseJob := mkBaseJob name (Glab.JobStatus j) (Glab.AllowFailure j).

Definition readPipefixBase (projectID pipelineID : Z) (targets : list string) : pipefixBase :=
  let unread reads rd := mkBase false pipelineID "" "" "" [] [] (reads ++ [rd]) in
  let ref := "pipeline " +:+ itoa pipelineID in
  match GetPipeline projectID pipelineID with
  | Err e => unread [] (pipefixFailed "base-pipeline" ref e)
  | Ok None => unread [] (pipefixFailed "base-pipeline" ref "no pipeline in the reply")
  | Ok (Some p) =>
      if negb (Glab.ID p =? pipelineID) then unread [] (pipefixFailed "base-pipeline" ref ("the reply carries id " +:+ itoa (Glab.ID p)))
      else if negb (String.eqb (pipefixPipelineProblem p projectID) "") then
        unread [] (pipefixFailed "base-pipeline" ref ("not a pipeline: " +:+ pipefixPipelineProblem p projectID))
      else
        let reads := [read_ok "base-pipeline" ref] in
        match ListPipelineAttempts projectID pipelineID with
        | Err e => unread reads (pipefixFailed "base-jobs" ref e)
        | Ok jobs =>
            match List.find not_a_job jobs with
            | Some j => unread reads (pipefixFailed "base-jobs" ref (job_list_problem j))
            | None =>
                let latest := fold_left latest_step jobs ∅ in
                let reads := reads ++ [read_ok "base-jobs" ref] in
                let base_jobs := omap (λ name, base_job name <$> (latest !! name)) (sorted_keys latest) in
                match recorded_jobs projectID latest targets ∅ with
                | inl (failed, more) => unread (reads ++ more) failed
                | inr (recorded, more) =>
                    mkBase true (Glab.ID p) (Glab.PipelineSHA p) (Glab.Status p) (Glab.Source p) base_jobs recorded (reads ++ more)
                end
            end
        end
  end.
End reads.

(** * Proofs *)

(** ** Includes *)

Definition all_local (incs : list Glab.CILintInclude) : Prop :=
  ∀ inc, inc ∈ incs → Glab.Type_ inc = IncludeTypeLocal.

Lemma unpinned_empty incs : unpinned incs = ∅ ↔ all_local incs.
Proof.
  unfold unpinned, all_local. split.
  - intros E inc Hin. destruct (String.eqb_spec (Glab.Type_ inc) IncludeTypeLocal) as [|Hne]; [done|]. exfalso.
    assert (Glab.Type_ inc +:+ " " +:+ Glab.Location inc ∈ (∅ : gset string)) as Hx; [|by apply elem_of_empty in Hx].
    rewrite <- E. apply elem_of_list_to_set, list_elem_of_In, in_map_iff. exists inc. split; [done|].
    apply List.filter_In. rewrite <- list_elem_of_In. split; [done|]. apply negb_true_iff. by apply String.eqb_neq.
  - intros Hl. rewrite (proj2 (List_filter_nil _ _)); [done|]. intros inc Hin. rewrite (Hl inc Hin). done.
Qed.

Lemma no_unpinned_keys base head :
  length (sort_strings (elements (unpinned base ∪ unpinned head))) = 0%nat ↔ all_local base ∧ all_local head.
Proof.
  unfold sort_strings. rewrite merge_sort_Permutation. rewrite <- !unpinned_empty.
  split; [intros E%nil_length_inv%elements_empty_inv; set_solver|]. intros [-> ->]. by rewrite union_idemp_L, elements_empty.
Qed.

(** An include that is not a local file of the commit makes a comparison
    unresolvable, whatever else it found but a violation; without one nothing
    changes. *)
Lemma withUnpinnedIncludes_kind d base head :
  (all_local base ∧ all_local head ∧ withUnpinnedIncludes d base head = d) ∨
  (¬ (all_local base ∧ all_local head) ∧ dl_Unresolvable (withUnpinnedIncludes d base head) ≠ [] ∧
   dl_Kind (withUnpinnedIncludes d base head) ∈ [KindViolation; KindUnresolvable]).
Proof.
  pose proof (no_unpinned_keys base head) as Hk. unfold withUnpinnedIncludes.
  destruct (sort_strings (elements (unpinned base ∪ unpinned head))) as [|k ks] eqn:E; cbn [length Nat.eqb].
  - left. destruct (proj1 Hk eq_refl). by split_and!.
  - right. split; [intros Hl; by apply Hk in Hl|]. cbn [dl_Unresolvable dl_Kind]. split; [by destruct (dl_Unresolvable d)|].
    destruct (String.eqb_spec (dl_Kind d) KindViolation) as [->|]; cbn; set_solver.
Qed.

(** ** The judged definition *)

Lemma Compare_lists `{GoQuote} base head diagnosed :
  dl_Kind (Compare base head diagnosed) ∈ [KindNone; KindPreserving; KindExecChanging] →
  dl_Violations (Compare base head diagnosed) = [] ∧ dl_Unresolvable (Compare base head diagnosed) = [].
Proof.
  intros Hk. destruct (Compare_cases base head diagnosed) as [(b & h & -> & -> & _ & _ & E)|[_ E]].
  2:{ rewrite E, !elem_of_cons, elem_of_nil in Hk. by destruct Hk as [|[|[|]]]. }
  rewrite E in *. cbn [compare_definitions dl_Kind dl_Violations dl_Unresolvable] in *. revert Hk. unfold kind_of.
  destruct (fd_Violations _); cbn [length Nat.ltb Nat.leb]; [|intros Hk; exfalso; revert Hk; rewrite !elem_of_cons, elem_of_nil; by intros [|[|[|]]]].
  destruct (fd_Unresolvable _); cbn [length Nat.ltb Nat.leb]; [done|]. intros Hk. exfalso. revert Hk. rewrite !elem_of_cons, elem_of_nil. by intros [|[|[|]]].
Qed.

(** The definition of a fix passes the exit check exactly when nothing of it
    changed, or the dispatch lifted [ci], the rules of section 6.2 hold and, unless
    the project allows it, nothing a job runs changed; and every include of both
    sides is a local file. *)
Definition permitted (fix_ : FixFacts) (base head : Definition_) (diagnosed : list string) : Prop :=
  unchanged base head diagnosed ∨
  LiftCI ∈ Lift fix_ ∧ globals_upheld base head diagnosed ∧
    (∀ name, is_Some (Jobs base !! name) → job_upheld base head diagnosed name) ∧
    (exec_differs base head → CIExecChanges fix_ ≠ CIExecDeny).

Lemma judgeDefinition_ok d fix_ :
  dl_Violations d = [] → dl_Unresolvable d = [] → dl_Kind d ∈ [KindNone; KindPreserving; KindExecChanging] →
  judgeDefinition d fix_ = "" ↔
  dl_Kind d = KindNone ∨ LiftCI ∈ Lift fix_ ∧ (dl_Kind d = KindExecChanging → CIExecChanges fix_ ≠ CIExecDeny).
Proof.
  intros Hv Hu Hk. unfold judgeDefinition. rewrite Hv, Hu. cbn [length Nat.ltb Nat.leb existsb].
  rewrite !elem_of_cons, elem_of_nil in Hk. destruct (contains (Lift fix_) LiftCI) eqn:Hl.
  - apply contains_elem in Hl. destruct Hk as [-> | [-> | [-> |[]]]]; cbn.
    + split; [by left|done].
    + split; [by right|done].
    + destruct (String.eqb_spec (CIExecChanges fix_) CIExecDeny) as [E|E]; cbn.
      * split; [done|]. intros [|[_ Hx]]; [done|by destruct Hx].
      * split; [by right|done].
  - apply contains_false in Hl. destruct Hk as [-> | [-> | [-> |[]]]]; cbn; split; try done; try (by left).
    all: by intros [|[? _]].
Qed.

Lemma judgeDefinition_refuses d fix_ :
  dl_Kind d ∈ [KindViolation; KindUnresolvable] → judgeDefinition d fix_ ≠ "".
Proof.
  rewrite !elem_of_cons, elem_of_nil. unfold judgeDefinition. intros [-> |[-> |[]]]; [done|].
  cbn. destruct (dl_Violations d); cbn; [|done]. by destruct (existsb _ _).
Qed.

Lemma Compare_known `{GoQuote} base head diagnosed : knownKind (dl_Kind (Compare base head diagnosed)) = true.
Proof.
  unfold knownKind. apply contains_elem. destruct (Compare_cases base head diagnosed) as [(b & h & -> & -> & _ & _ & ->)|[_ ->]].
  - apply (facts_kind _ _ _ _ _ (facts_compared b h diagnosed)).
  - set_solver.
Qed.

Lemma permitted_iff `{GoQuote} fix_ b h diagnosed : df_Problems b = [] → df_Problems h = [] →
  permitted fix_ b h diagnosed ↔
  dl_Kind (Compare (Some b) (Some h) diagnosed) ∈ [KindNone; KindPreserving; KindExecChanging] ∧
  (dl_Kind (Compare (Some b) (Some h) diagnosed) = KindNone ∨
   LiftCI ∈ Lift fix_ ∧ (dl_Kind (Compare (Some b) (Some h) diagnosed) = KindExecChanging → CIExecChanges fix_ ≠ CIExecDeny)).
Proof.
  intros E1 E2. assert (∀ P : Definition_ → Definition_ → Prop, with_definitions (Some b) (Some h) P ↔ P b h) as Hw.
  { intros P. split; [by intros (? & ? & [= <-] & [= <-] & _ & _ & HP)|intros HP; by exists b, h]. }
  pose proof (Compare_none_iff (Some b) (Some h) diagnosed) as Hn. pose proof (Compare_upholds_iff (Some b) (Some h) diagnosed) as Hu.
  rewrite Hw in Hn, Hu. rewrite Hu, Hn. unfold permitted.
  assert (dl_Kind (Compare (Some b) (Some h) diagnosed) = KindExecChanging ↔
    (globals_upheld b h diagnosed ∧ ∀ name, is_Some (Jobs b !! name) → job_upheld b h diagnosed name) ∧ exec_differs b h) as He.
  { destruct (facts_kind _ _ _ _ _ (facts_compared b h diagnosed)) as (_ & He & _). rewrite <- upheld_iff.
    destruct (Compare_cases (Some b) (Some h) diagnosed) as [(? & ? & [= <-] & [= <-] & _ & _ & ->)|[Hno _]]; [rewrite He; tauto|].
    destruct Hno. by apply Hw. }
  rewrite He. assert (unchanged b h diagnosed → globals_upheld b h diagnosed ∧
    ∀ name, is_Some (Jobs b !! name) → job_upheld b h diagnosed name) as Hx.
  { intros Hunch. apply Hu. apply Hn in Hunch as ->. by left. }
  tauto.
Qed.

(** ** What was read *)

Section facts.
Context `{GoQuote} `{PipefixReader} `{JobNames} `{ErrorText} (projectID : Z).

Lemma readPipefixMR_cases iid :
  (∃ mr, GetMergeRequest projectID iid = Ok (Some mr) ∧
     (readPipefixMR projectID iid).1 = mkMRFacts true (Glab.IID mr) (Glab.State mr) (Glab.SHA mr)) ∨
  (readPipefixMR projectID iid).1 = MRFacts_zero.
Proof.
  unfold readPipefixMR. destruct (GetMergeRequest projectID iid) as [[mr|]|e]; [|by right..].
  destruct (negb _); [by right|]. destruct (String.eqb _ _); [by right|]. left. by exists mr.
Qed.

(** A listed object is a pipeline of this project. *)
Definition is_pipeline (p : Glab.Pipeline) : Prop :=
  Glab.ID p ≠ 0 ∧ IsCommitSHA (Glab.PipelineSHA p) = true ∧ Glab.Source p ≠ "" ∧ Glab.Status p ≠ "" ∧
  Glab.ProjectID p = projectID.
Lemma pipefixPipelineProblem_none p : pipefixPipelineProblem p projectID = "" ↔ is_pipeline p.
Proof.
  unfold pipefixPipelineProblem, is_pipeline.
  destruct (Z.eqb_spec (Glab.ID p) 0); [split; [done|tauto]|].
  destruct (IsCommitSHA (Glab.PipelineSHA p)); cbn [negb]; [|split; [done|by intros (_ & ? & _)]].
  destruct (String.eqb_spec (Glab.Source p) ""); [split; [done|tauto]|].
  destruct (String.eqb_spec (Glab.Status p) ""); [split; [done|tauto]|].
  destruct (Z.eqb_spec (Glab.ProjectID p) projectID); cbn [negb]; [tauto|split; [done|tauto]].
Qed.

(** The attempts of a pipeline, listed and all of them jobs. *)
Definition attempts_listed (p : Glab.Pipeline) (jobs : list Glab.Job) : Prop :=
  ListPipelineAttempts projectID (Glab.ID p) = Ok jobs ∧
  ∀ j, j ∈ jobs → Glab.JobID j ≠ 0 ∧ Glab.Name j ≠ "" ∧ Glab.JobStatus j ≠ "".

Variable inT : gset string.
Definition attempts_read (jobs : list Glab.Job) : list Attempt := map fst (map (attempt_of projectID inT) jobs).

Lemma not_a_job_false j : not_a_job j = false ↔ Glab.JobID j ≠ 0 ∧ Glab.Name j ≠ "" ∧ Glab.JobStatus j ≠ "".
Proof. unfold not_a_job. rewrite !orb_false_iff, Z.eqb_neq, !String.eqb_neq. tauto. Qed.

Lemma readPipefixAttempts_cases p :
  (∃ jobs, attempts_listed p jobs ∧ (readPipefixAttempts projectID (Glab.ID p) inT).1 = (attempts_read jobs, true)) ∨
  ((¬ ∃ jobs, attempts_listed p jobs) ∧ (readPipefixAttempts projectID (Glab.ID p) inT).1 = ([], false)).
Proof.
  unfold readPipefixAttempts, attempts_listed.
  destruct (ListPipelineAttempts projectID (Glab.ID p)) as [jobs|e]; [|right; split; [by intros (? & ? & _)|done]].
  destruct (List.find not_a_job jobs) as [j|] eqn:Ef.
  - right. split; [|done]. intros (? & [= <-] & Hj). apply List.find_some in Ef as [Hin Hb]. apply list_elem_of_In in Hin.
    apply Hj, not_a_job_false in Hin. congruence.
  - left. exists jobs. rewrite find_none in Ef. split; [|done]. split; [done|]. intros j Hin. by apply not_a_job_false, Ef.
Qed.

Lemma attempt_of_fields j :
  let a := (attempt_of projectID inT j).1 in
  at_ID a = Glab.JobID j ∧ at_Name a = jobNameText (Glab.Name j) ∧ at_Status a = Glab.JobStatus j ∧
  at_AllowFailure a = Glab.AllowFailure j.
Proof. unfold attempt_of. destruct (_ && _); [by destruct (readPipefixTrace _ _ _)|done]. Qed.

Lemma elem_of_attempts_read jobs a : a ∈ attempts_read jobs ↔ ∃ j, j ∈ jobs ∧ a = (attempt_of projectID inT j).1.
Proof.
  unfold attempts_read. rewrite list_elem_of_In, in_map_iff. setoid_rewrite in_map_iff. setoid_rewrite <- list_elem_of_In.
  split; [intros (x & <- & j & <- & Hj); by exists j|]. intros (j & Hj & ->). eexists. split; [done|]. by exists j.
Qed.

(** ** The candidates *)

Variable fix_ : FixFacts.
Definition of_commit (p : Glab.Pipeline) : Prop :=
  Glab.PipelineSHA p = FixCommitSHA fix_ ∧ Glab.Source p ≠ SourceParentPipeline.
(** A pipeline GitLab skipped before any job was made. *)
Definition skipped_empty (p : Glab.Pipeline) : Prop := Glab.Status p = StatusSkipped ∧ attempts_listed p [].

Lemma pipeline_of_commit p : of_commit p →
  (pipeline_of projectID (FixCommitSHA fix_) inT p).1 =
  let '(jobs, read, _) := readPipefixAttempts projectID (Glab.ID p) inT in
  mkPipeline (Glab.ID p) (Glab.PipelineSHA p) (Glab.Source p) (Glab.Ref p) (Glab.Status p) read read jobs.
Proof.
  intros [E Hs]. unfold pipeline_of. rewrite (proj2 (String.eqb_eq _ _) E), (proj2 (String.eqb_neq _ _) Hs). cbn [andb negb].
  by destruct (readPipefixAttempts _ _ _) as [[jobs read] reads].
Qed.

Lemma pipeline_of_fields p :
  let c := (pipeline_of projectID (FixCommitSHA fix_) inT p).1 in
  pl_ID c = Glab.ID p ∧ pl_SHA c = Glab.PipelineSHA p ∧ pl_Source c = Glab.Source p ∧ pl_Status c = Glab.Status p.
Proof. unfold pipeline_of. destruct (_ && _); [by destruct (readPipefixAttempts _ _ _) as [[jobs read] reads]|done]. Qed.

Lemma candidate_pipeline p :
  candidate fix_ (pipeline_of projectID (FixCommitSHA fix_) inT p).1 = true ↔ of_commit p ∧ ¬ skipped_empty p.
Proof.
  destruct (pipeline_of_fields p) as (_ & E1 & E2 & E3). unfold candidate. rewrite E1, E2.
  destruct (decide (of_commit p)) as [Hp|Hp].
  2:{ split; [|tauto]. rewrite !andb_true_iff, negb_true_iff, String.eqb_eq, String.eqb_neq. intros [[? ?] _]. by destruct Hp. }
  rewrite (proj2 (String.eqb_eq _ _) (proj1 Hp)), (proj2 (String.eqb_neq _ _) (proj2 Hp)). cbn [andb negb].
  rewrite negb_true_iff, <- not_true_iff_false. unfold skippedWithoutJobs. rewrite E3, pipeline_of_commit by done.
  rewrite !andb_true_iff, String.eqb_eq. unfold skipped_empty.
  destruct (readPipefixAttempts_cases p) as [(jobs & Hl & E)|[Hn E]];
    destruct (readPipefixAttempts projectID (Glab.ID p) inT) as [[js read] reads]; cbn [fst] in E; injection E as -> ->; cbn.
  - rewrite length_zero. assert (attempts_read jobs = [] ↔ attempts_listed p []) as ->; [|tauto]. split.
    + unfold attempts_read. intros Hm. apply map_eq_nil, map_eq_nil in Hm. by subst.
    + intros [E _]. destruct Hl as [E' _]. rewrite E in E'. by injection E' as <-.
  - split; intros _; [|intuition discriminate]. split; [done|]. intros [_ Hl]. apply Hn. by eexists.
Qed.
End facts.

(** ** The ground of FIXED, in GitLab's words *)

Section live.
Context `{MapRange, SortSlice} `{GoQuote} `{PipefixReader} `{JobNames} `{ErrorText}.
Variables (projectID : Z) (fix_ : FixFacts).

Let inT : gset string := targets_in fix_.
Let judged (p : Glab.Pipeline) : Prop := of_commit fix_ p ∧ ¬ skipped_empty projectID p.

(** The job object with the highest id of its name. *)
Definition latest_job (jobs : list Glab.Job) (j : Glab.Job) : Prop :=
  ∃ l1 l2, jobs = l1 ++ j :: l2 ∧
    (∀ k, k ∈ l1 → jobNameText (Glab.Name k) = jobNameText (Glab.Name j) → Glab.JobID k < Glab.JobID j) ∧
    (∀ k, k ∈ l2 → jobNameText (Glab.Name k) = jobNameText (Glab.Name j) → Glab.JobID k <= Glab.JobID j).

(** The attempts of one pipeline: none active, every one of a diagnosed job
    passed without leave to fail, and no other job failed last. *)
Definition attempts_pass (jobs : list Glab.Job) : Prop :=
  (∀ j, j ∈ jobs → jobNameText (Glab.Name j) ≠ "" ∧ activeJobStatus (Glab.JobStatus j) = false ∧
     (jobNameText (Glab.Name j) ∈ map t_Name (Targets fix_) → Glab.JobStatus j = StatusSuccess ∧ Glab.AllowFailure j = false)) ∧
  (∀ j, latest_job jobs j → jobNameText (Glab.Name j) ∉ map t_Name (Targets fix_) → Glab.JobStatus j ≠ StatusFailed).

Definition pipelines_ground : Prop :=
  ∃ listed, ListMRPipelines projectID (MRIID fix_) = Ok listed ∧ (∀ p, p ∈ listed → is_pipeline projectID p) ∧
  (∃ p, p ∈ listed ∧ judged p) ∧
  (∀ p, p ∈ listed → judged p → Glab.Status p = StatusSuccess ∧
     ∃ jobs, attempts_listed projectID p jobs ∧ attempts_pass jobs) ∧
  (∀ t, t ∈ Targets fix_ → ∃ p jobs j, p ∈ listed ∧ judged p ∧ attempts_listed projectID p jobs ∧ j ∈ jobs ∧
     jobNameText (Glab.Name j) = t_Name t).

Lemma latest_read jobs a : is_latest (attempts_read projectID inT jobs) a ↔
  ∃ j, latest_job jobs j ∧ a = (attempt_of projectID inT j).1.
Proof.
  unfold is_latest, latest_job, attempts_read. rewrite map_map. split.
  - intros (l1 & l2 & E & H1' & H2'). apply map_eq_app in E as (m1 & m2 & -> & <- & E). destruct m2 as [|j m2]; [done|].
    injection E as <- <-. exists j. split; [|done]. exists m1, m2. split; [done|].
    destruct (attempt_of_fields projectID inT j) as (Ei & En & _).
    split; intros k Hk Enk; destruct (attempt_of_fields projectID inT k) as (Ei' & En' & _); rewrite <- Ei, <- Ei';
      [apply H1'|apply H2']; try congruence; apply list_elem_of_In, in_map_iff; exists k; by rewrite <- list_elem_of_In.
  - intros (j & (m1 & m2 & -> & H1' & H2') & ->). rewrite map_app. do 2 eexists. split; [done|].
    destruct (attempt_of_fields projectID inT j) as (Ei & En & _).
    split; intros b Hb Enb; apply list_elem_of_In, in_map_iff in Hb as (k & <- & Hk%list_elem_of_In);
      destruct (attempt_of_fields projectID inT k) as (Ei' & En' & _); rewrite Ei, Ei'; [apply H1'|apply H2']; congruence.
Qed.

Lemma in_targets name : name ∈ inT ↔ name ∈ map t_Name (Targets fix_).
Proof. unfold inT, targets_in. by rewrite elem_of_list_to_set. Qed.

Variables (mr : MRFacts) (def : DefinitionFacts).
Let f := mkJudgeFacts fix_ mr (readPipefixPipelines projectID (MRIID fix_) (FixCommitSHA fix_) (map t_Name (Targets fix_))).1 def.

(** Every pipeline of the merge request was listed. *)
Definition listing (listed : list Glab.Pipeline) : Prop :=
  ListMRPipelines projectID (MRIID fix_) = Ok listed ∧ ∀ p, p ∈ listed → is_pipeline projectID p.

Lemma pipelines_cases :
  (∃ listed, listing listed ∧ jf_Pipelines f =
     mkPipelineFacts true (map (λ p, (pipeline_of projectID (FixCommitSHA fix_) inT p).1) listed)) ∨
  ((¬ ∃ listed, listing listed) ∧ jf_Pipelines f = mkPipelineFacts false []).
Proof.
  unfold f, listing. cbn [jf_Pipelines]. unfold readPipefixPipelines.
  destruct (ListMRPipelines projectID (MRIID fix_)) as [listed|e]; [|right; split; [by intros (? & ? & _)|done]].
  destruct (List.find _ listed) as [p|] eqn:Ef.
  - right. split; [|done]. intros (? & [= <-] & Hp). apply List.find_some in Ef as [Hin Hb]. apply list_elem_of_In in Hin.
    apply Hp, pipefixPipelineProblem_none in Hin. by rewrite Hin in Hb.
  - left. exists listed. rewrite find_none in Ef. split; [|cbn [fst]; by rewrite map_map]. split; [done|].
    intros p Hin. apply pipefixPipelineProblem_none. apply Ef in Hin. rewrite negb_false_iff in Hin. by apply String.eqb_eq.
Qed.

Lemma candidates_listed c listed : listing listed →
  c ∈ candidates_of f ↔ ∃ p, p ∈ listed ∧ judged p ∧ c = (pipeline_of projectID (FixCommitSHA fix_) inT p).1.
Proof.
  intros Hl. destruct pipelines_cases as [(l & [El Hp] & E)|[Hn _]]; [|destruct Hn; by exists listed].
  destruct Hl as [El' _]. rewrite El in El'. injection El' as ->.
  rewrite elem_of_candidates_of, E. cbn [pf_Read pf_Pipelines]. rewrite list_elem_of_In, in_map_iff. split.
  - intros (_ & (p & <- & Hin%list_elem_of_In) & Hc). exists p. split; [done|]. split; [|done]. by apply candidate_pipeline in Hc.
  - intros (p & Hin & Hj & ->). split; [done|]. split; [exists p; by rewrite <- list_elem_of_In|]. by apply candidate_pipeline.
Qed.

(** A judged pipeline that was listed with its attempts. *)
Lemma judged_read p : judged p →
  let c := (pipeline_of projectID (FixCommitSHA fix_) inT p).1 in
  (∃ jobs, attempts_listed projectID p jobs ∧ JobsRead c = true ∧ IncludeRetried c = true ∧
     pl_Jobs c = attempts_read projectID inT jobs) ∨
  ((¬ ∃ jobs, attempts_listed projectID p jobs) ∧ JobsRead c = false ∧ pl_Jobs c = []).
Proof.
  intros [Hc _]. cbn zeta. rewrite pipeline_of_commit by done.
  destruct (readPipefixAttempts_cases projectID inT p) as [(jobs & Hl & E)|[Hn E]];
    destruct (readPipefixAttempts projectID (Glab.ID p) inT) as [[js read] reads]; cbn [fst] in E; injection E as -> ->.
  - left. by exists jobs.
  - by right.
Qed.
End live.

Section live_pipelines.
Context `{MapRange, SortSlice} `{GoQuote} `{PipefixReader} `{JobNames} `{ErrorText}.
Variables (projectID : Z) (fix_ : FixFacts) (mr : MRFacts) (def : DefinitionFacts).
Let inT : gset string := targets_in fix_.
Let judged (p : Glab.Pipeline) : Prop := of_commit fix_ p ∧ ¬ skipped_empty projectID p.
Let f := mkJudgeFacts fix_ mr (readPipefixPipelines projectID (MRIID fix_) (FixCommitSHA fix_) (map t_Name (Targets fix_))).1 def.

(** What the exit check asks of the pipelines that were read. *)
Definition pipelines_pass : Prop :=
  well_formed f = true ∧ pf_Read (jf_Pipelines f) = true ∧ candidates_of f ≠ [] ∧
  (∀ c, c ∈ candidates_of f → pl_Status c = StatusSuccess ∧ JobsRead c = true ∧ IncludeRetried c = true ∧
     ∀ a, a ∈ pl_Jobs c → activeJobStatus (at_Status a) = false) ∧
  (∀ t, t ∈ Targets fix_ → proved_fixed f t) ∧ others_clean inT (candidates_of f).

Lemma well_formed_read : well_formed f = true ↔
  ∀ c a, c ∈ candidates_of f → a ∈ pl_Jobs c → at_ID a ≠ 0 ∧ at_Name a ≠ "" ∧ at_Status a ≠ "".
Proof.
  assert (pf_Read (jf_Pipelines f) && existsb malformed_pipeline (pf_Pipelines (jf_Pipelines f)) = false) as Hp.
  { destruct (pipelines_cases projectID fix_ mr def) as [(listed & [_ Hl] & E)|[_ E]]; fold f in E; fold inT in E; rewrite E; cbn; [|done].
    apply existsb_false. intros c Hc. apply list_elem_of_In, in_map_iff in Hc as (p & <- & Hin%list_elem_of_In).
    destruct (pipeline_of_fields projectID inT fix_ p) as (E1 & E2 & E3 & _). unfold malformed_pipeline. cbn beta.
    destruct (Hl p Hin) as (Hid & Hsha & Hsrc & _). rewrite E1, E2, E3, !orb_false_iff, Z.eqb_neq, !String.eqb_neq.
    split_and!; try done. intros Es. by rewrite Es in Hsha. }
  unfold well_formed. rewrite Hp. cbn [negb andb]. rewrite negb_true_iff, existsb_false. unfold malformed_job. split.
  - intros Hc c a Hin Ha. specialize (Hc c Hin). rewrite existsb_false in Hc. specialize (Hc a Ha).
    rewrite !orb_false_iff, Z.eqb_neq, !String.eqb_neq in Hc. tauto.
  - intros Hc c Hin. apply existsb_false. intros a Ha. rewrite !orb_false_iff, Z.eqb_neq, !String.eqb_neq.
    destruct (Hc c a Hin Ha) as (? & ? & ?). tauto.
Qed.

(** An attempt that passes, as the exit check and as GitLab have it. *)
Lemma attempts_pass_read jobs : (∀ j, j ∈ jobs → Glab.JobID j ≠ 0 ∧ Glab.Name j ≠ "" ∧ Glab.JobStatus j ≠ "") →
  attempts_pass fix_ jobs ↔
  (∀ a, a ∈ attempts_read projectID inT jobs → (at_ID a ≠ 0 ∧ at_Name a ≠ "" ∧ at_Status a ≠ "") ∧
     activeJobStatus (at_Status a) = false ∧ (at_Name a ∈ inT → succeeded a = true ∧ at_AllowFailure a = false)) ∧
  (∀ a, is_latest (attempts_read projectID inT jobs) a → at_Name a ∉ inT → failed a = false).
Proof.
  intros Hj. unfold attempts_pass. pose proof (latest_read projectID fix_) as Hlr. fold inT in Hlr.
  setoid_rewrite elem_of_attempts_read. setoid_rewrite Hlr.
  pose proof (in_targets fix_) as Hit. fold inT in Hit. setoid_rewrite <- Hit. split.
  - intros [Ha Hl]. split.
    + intros a (j & Hin & ->). destruct (attempt_of_fields projectID inT j) as (-> & En & Es & ->).
      unfold succeeded. rewrite En, Es, String.eqb_eq. destruct (Hj j Hin) as (? & ? & ?), (Ha j Hin) as (? & ? & ?). tauto.
    + intros a (j & Hlast & ->). destruct (attempt_of_fields projectID inT j) as (_ & En & Es & _). unfold failed.
      rewrite En, Es, String.eqb_neq. by apply Hl.
  - intros [Ha Hl]. split.
    + intros j Hin. specialize (Ha _ (ex_intro _ j (conj Hin eq_refl))). unfold succeeded in Ha.
      destruct (attempt_of_fields projectID inT j) as (E1 & E2 & E3 & E4). rewrite E1, E2, E3, E4, String.eqb_eq in Ha. tauto.
    + intros j Hlast. specialize (Hl _ (ex_intro _ j (conj Hlast eq_refl))). unfold failed in Hl.
      destruct (attempt_of_fields projectID inT j) as (_ & E2 & E3 & _). by rewrite E2, E3, String.eqb_neq in Hl.
Qed.

Lemma pipelines_pass_only : pipelines_pass → pipelines_ground projectID fix_.
Proof.
  unfold pipelines_pass, pipelines_ground. rewrite well_formed_read.
  destruct (pipelines_cases projectID fix_ mr def) as [(listed & Hl & E)|[Hn E]]; fold f in E; [|by rewrite E; intros (_ & ? & _)].
  pose proof (λ c, candidates_listed projectID fix_ mr def c listed Hl) as Hc. fold f in Hc. fold inT in Hc.
  intros (Hw & _ & Hne & Hcs & Ht & Ho). exists listed. destruct Hl as [El Hp]. split_and!; [done..| | |].
  - destruct (candidates_of f) as [|c l] eqn:Ec; [done|]. destruct (proj1 (Hc c) ltac:(by left)) as (p & ? & ? & _). by exists p.
  - intros p Hin Hj. assert ((pipeline_of projectID (FixCommitSHA fix_) inT p).1 ∈ candidates_of f) as Hcand by (apply Hc; by exists p).
    destruct (Hcs _ Hcand) as (Es & Er & _ & Hact). destruct (pipeline_of_fields projectID inT fix_ p) as (_ & _ & _ & Est).
    split; [by rewrite <- Est|]. destruct (judged_read projectID fix_ p Hj) as [(jobs & Hjobs & _ & _ & Ej)|(_ & Er' & _)];
      [|fold inT in Er'; congruence]. fold inT in Ej. exists jobs. split; [done|]. apply attempts_pass_read; [apply Hjobs|].
    rewrite <- Ej. split; [|intros a; by apply Ho]. intros a Ha. split_and!; [by apply (Hw _ a Hcand)..|by apply Hact|].
    intros Hname. unfold inT in Hname. apply in_targets, list_elem_of_In, in_map_iff in Hname as (t & Et & Hin'%list_elem_of_In).
    destruct (Ht t Hin') as [_ Hpass]. apply Hpass, elem_of_attempts_of. by eexists.
  - intros t Hin. destruct (Ht t Hin) as [(a & Ha) _]. apply elem_of_attempts_of in Ha as (c & (p & Hin' & Hj & ->)%Hc & Ha & En).
    destruct (judged_read projectID fix_ p Hj) as [(jobs & Hjobs & _ & _ & Ej)|(_ & _ & Ej)]; fold inT in Ej; rewrite Ej in Ha;
      [|by apply elem_of_nil in Ha]. apply elem_of_attempts_read in Ha as (j & Hjin & ->).
    destruct (attempt_of_fields projectID inT j) as (_ & Ename & _). exists p, jobs, j. split_and!; try done; [apply Hj..|congruence].
Qed.

Lemma pipelines_pass_when : pipelines_ground projectID fix_ → pipelines_pass.
Proof.
  unfold pipelines_pass, pipelines_ground. rewrite well_formed_read.
  intros (listed & El & Hp & (p0 & Hin0 & Hj0) & Hall & Ht). assert (listing projectID fix_ listed) as Hl by done.
  destruct (pipelines_cases projectID fix_ mr def) as [(l & Hl' & E)|[Hn E]]; fold f in E; [|destruct Hn; by exists listed].
  pose proof (λ c, candidates_listed projectID fix_ mr def c listed Hl) as Hc. fold f in Hc. fold inT in Hc.
  assert (∀ c, c ∈ candidates_of f → ∃ p jobs, p ∈ listed ∧ judged p ∧ attempts_listed projectID p jobs ∧ attempts_pass fix_ jobs ∧
    pl_Status c = StatusSuccess ∧ JobsRead c = true ∧ IncludeRetried c = true ∧ pl_Jobs c = attempts_read projectID inT jobs) as Hcand.
  { intros c (p & Hin & Hj & ->)%Hc. destruct (Hall p Hin Hj) as [Es (jobs & Hjobs & Hpass)].
    destruct (pipeline_of_fields projectID inT fix_ p) as (_ & _ & _ & Est).
    destruct (judged_read projectID fix_ p Hj) as [(jobs' & Hjobs' & E1 & E2 & E3)|(Hno & _)]; [|destruct Hno; by exists jobs].
    assert (jobs' = jobs) as -> by (destruct Hjobs as [Ex _], Hjobs' as [Ey _]; congruence).
    exists p, jobs. fold inT in E1, E2, E3. rewrite Est. by split_and!. }
  rewrite E. split_and!; [|done| | | |].
  - intros c a Hin Ha. destruct (Hcand c Hin) as (p & jobs & _ & _ & Hjobs & Hpass & _ & _ & _ & Ej). rewrite Ej in Ha.
    apply attempts_pass_read in Hpass; [|apply Hjobs]. by apply Hpass.
  - intros Ec. apply (elem_of_nil (pipeline_of projectID (FixCommitSHA fix_) inT p0).1). rewrite <- Ec. apply Hc. by exists p0.
  - intros c Hin. destruct (Hcand c Hin) as (p & jobs & _ & _ & Hjobs & Hpass & ? & ? & ? & Ej). split_and!; [done..|].
    rewrite Ej. apply attempts_pass_read in Hpass; [|apply Hjobs]. intros a Ha. by apply Hpass.
  - intros t Hin. destruct (Ht t Hin) as (p & jobs & j & Hin' & Hj & Hjobs & Hjin & En). split.
    + exists (attempt_of projectID inT j).1. apply elem_of_attempts_of.
      destruct (attempt_of_fields projectID inT j) as (_ & -> & _).
      assert ((pipeline_of projectID (FixCommitSHA fix_) inT p).1 ∈ candidates_of f) as Hcin by (apply Hc; by exists p).
      destruct (judged_read projectID fix_ p Hj) as [(jobs' & Hjobs' & _ & _ & E3)|(Hno & _)]; [|destruct Hno; by exists jobs].
      assert (jobs' = jobs) as -> by (destruct Hjobs as [Ex _], Hjobs' as [Ey _]; congruence).
      eexists. split; [done|]. split; [|done]. fold inT in E3. rewrite E3. apply elem_of_attempts_read. by exists j.
    + intros a (c & Hcin & Ha & Ename)%elem_of_attempts_of. destruct (Hcand c Hcin) as (? & js & _ & _ & Hjs & Hpass & _ & _ & _ & Ej).
      rewrite Ej in Ha. apply attempts_pass_read in Hpass; [|apply Hjs]. apply Hpass; [done|]. unfold inT. apply in_targets.
      rewrite Ename. apply list_elem_of_In, in_map_iff. exists t. by rewrite <- list_elem_of_In.
  - intros c a Hin. destruct (Hcand c Hin) as (? & js & _ & _ & Hjs & Hpass & _ & _ & _ & Ej). rewrite Ej.
    apply attempts_pass_read in Hpass; [|apply Hjs]. by apply Hpass.
Qed.
End live_pipelines.

Section live_definition.
Context `{GoQuote} `{PipefixReader} `{MapRange, GoUnicode, YamlDecoder}.
Variables (projectID : Z) (fix_ : FixFacts).
Let T : list string := map t_Name (Targets fix_).

(** Both commits' definitions were linted, everything they include is of the
    commit, both are readable, and the change is one the fix may make. *)
Definition definition_ground : Prop :=
  ∃ bl hl b h, CILintStatic projectID (FixBaseSHA fix_) = Ok (Some bl) ∧ CILintStatic projectID (FixCommitSHA fix_) = Ok (Some hl) ∧
  all_local (Glab.Includes bl) ∧ all_local (Glab.Includes hl) ∧
  Effective (Glab.MergedYAML bl) = Some b ∧ Effective (Glab.MergedYAML hl) = Some h ∧
  df_Problems b = [] ∧ df_Problems h = [] ∧ permitted fix_ b h T.

Lemma readable_permitted b h :
  judgeDefinition (Compare (Some b) (Some h) T) fix_ = "" ↔ df_Problems b = [] ∧ df_Problems h = [] ∧ permitted fix_ b h T.
Proof.
  destruct (decide (dl_Kind (Compare (Some b) (Some h) T) ∈ [KindNone; KindPreserving; KindExecChanging])) as [Hk|Hk].
  - destruct (Compare_lists _ _ _ Hk) as [Hv Hu]. rewrite judgeDefinition_ok by done.
    destruct (Compare_cases (Some b) (Some h) T) as [(? & ? & [= <-] & [= <-] & E1 & E2 & _)|[_ E]].
    + rewrite permitted_iff by done. tauto.
    + rewrite E, !elem_of_cons, elem_of_nil in Hk. by destruct Hk as [|[|[|]]].
  - pose proof (Compare_known (Some b) (Some h) T) as Hkn. apply contains_elem in Hkn.
    split; [intros Hj; exfalso; revert Hj; apply judgeDefinition_refuses; revert Hk Hkn; rewrite !elem_of_cons, !elem_of_nil; tauto|].
    intros (E1 & E2 & Hp). rewrite permitted_iff in Hp by done. tauto.
Qed.

Lemma lint_cases sha :
  (∃ l r, CILintStatic projectID sha = Ok (Some l) ∧
     lint projectID sha = (Some (mkLint sha (Glab.Valid l) (Glab.Errors l) (Glab.Includes l) (Glab.MergedYAML l)), r)) ∨
  (∃ r, lint projectID sha = (None, r) ∧ ¬ ∃ l, CILintStatic projectID sha = Ok (Some l)).
Proof.
  unfold lint. destruct (CILintStatic projectID sha) as [[l|]|e]; [left; by do 2 eexists|right..].
  all: eexists; split; [done|by intros (l & [=])].
Qed.

Lemma definition_iff : ∃ def bl hl reads,
  readPipefixDefinition projectID (FixBaseSHA fix_) (FixCommitSHA fix_) T = Some (def, bl, hl, reads) ∧
  (df_Read def && knownKind (dl_Kind (df_Delta def)) = true ∧ judgeDefinition (df_Delta def) fix_ = "" ↔ definition_ground).
Proof.
  unfold readPipefixDefinition, definition_ground.
  destruct (lint_cases (FixBaseSHA fix_)) as [(bl & r1 & Ebl & ->)|(r1 & -> & Hno)];
    destruct (lint_cases (FixCommitSHA fix_)) as [(hl & r2 & Ehl & ->)|(r2 & -> & Hno')].
  2-4: do 4 eexists; split; [done|]; split; [by intros [? _]|intros (l1 & l2 & ? & ? & ? & ? & _)].
  2: by destruct Hno'; exists l2. 2-3: by destruct Hno; exists l1. rewrite Ebl, Ehl.
  cbn [lt_MergedYAML lt_Includes]. destruct (Effective_answers (Glab.MergedYAML bl)) as [b Eb].
  destruct (Effective_answers (Glab.MergedYAML hl)) as [h Eh]. unfold Diff. rewrite Eb, Eh.
  do 4 eexists. split; [done|]. cbn [df_Read df_Delta andb].
  assert ((∃ bl' hl' b' h', Ok (E := string) (Some bl) = Ok (Some bl') ∧ Ok (E := string) (Some hl) = Ok (Some hl') ∧
      all_local (Glab.Includes bl') ∧ all_local (Glab.Includes hl') ∧ Effective (Glab.MergedYAML bl') = Some b' ∧
      Effective (Glab.MergedYAML hl') = Some h' ∧ df_Problems b' = [] ∧ df_Problems h' = [] ∧ permitted fix_ b' h' T) ↔
    all_local (Glab.Includes bl) ∧ all_local (Glab.Includes hl) ∧ df_Problems b = [] ∧ df_Problems h = [] ∧ permitted fix_ b h T) as ->.
  { split; [|intros (? & ? & ? & ? & ?); by exists bl, hl, b, h].
    intros (? & ? & b' & h' & [= <-] & [= <-] & ? & ? & Eb' & Eh' & ? & ? & ?).
    assert (b' = b) as -> by congruence. by assert (h' = h) as -> by congruence. }
  destruct (withUnpinnedIncludes_kind (Compare (Some b) (Some h) T) (Glab.Includes bl) (Glab.Includes hl))
    as [(? & ? & ->)|(Hl & _ & Hk)].
  - rewrite Compare_known, readable_permitted. tauto.
  - split; [intros [_ Hj]; by apply (judgeDefinition_refuses _ fix_) in Hk|tauto].
Qed.
End live_definition.

(** C17. The facts always come, and on them a fix is called FIXED on exactly one
    ground: nothing recorded is missing; GitLab says that the merge request is
    open on the fix commit; it lists every pipeline of the merge request, at least
    one of them of that commit, and each of that commit that is not a child or
    empty succeeded and lists all its attempts, none active, every attempt of a
    diagnosed job passed without leave to fail, and no other job failed last;
    every diagnosed job ran; and both commits' CI definitions were linted, include
    nothing but files of the commit, and differ by nothing that the rules of
    section 6.2, the lift and the project forbid. *)
Theorem fixed_live `{MapRange, SortSlice} `{GoQuote} `{PipefixReader} `{JobNames} `{ErrorText} `{GoUnicode, YamlDecoder}
    projectID fix_ (now : Time) :
  ∃ facts ev, readPipefixJudgeFacts projectID fix_ = Some (facts, ev) ∧
  (r_Verdict (Judge facts now) = VerdictFixed ↔
   missingFacts facts now = [] ∧
   (∃ mr, GetMergeRequest projectID (MRIID fix_) = Ok (Some mr) ∧ Glab.State mr = MRStateOpened ∧
      Glab.SHA mr = FixCommitSHA fix_) ∧
   pipelines_ground projectID fix_ ∧ definition_ground projectID fix_).
Proof.
  destruct (definition_iff projectID fix_) as (def & bl & hl & reads & E & Hd).
  unfold readPipefixJudgeFacts. destruct (readPipefixMR projectID (MRIID fix_)) as [mr rd] eqn:Emr.
  destruct (readPipefixPipelines _ _ _ _) as [ps preads] eqn:Eps. rewrite E. do 2 eexists. split; [done|].
  pose proof (pipelines_pass_only projectID fix_ mr def) as Hp1. pose proof (pipelines_pass_when projectID fix_ mr def) as Hp2.
  unfold pipelines_pass in Hp1, Hp2. rewrite Eps in Hp1, Hp2. cbn [fst] in Hp1, Hp2.
  set (f := mkJudgeFacts fix_ mr ps def) in *. rewrite <- Hd.
  assert (mr_Read mr = true → (mr_State mr = MRStateOpened ∧ mr_SHA mr = FixCommitSHA fix_ ↔
    ∃ mr, GetMergeRequest projectID (MRIID fix_) = Ok (Some mr) ∧ Glab.State mr = MRStateOpened ∧ Glab.SHA mr = FixCommitSHA fix_)) as Hmr.
  { destruct (readPipefixMR_cases projectID (MRIID fix_)) as [(m & Em & Er)|Er]; rewrite Emr in Er; cbn [fst] in Er; rewrite Er; [|done].
    intros _. cbn. rewrite Em. split; [intros [? ?]; by exists m|by intros (? & [= <-] & ?)]. }
  assert (missingFacts f now = [] → mr_Read mr = true) as Hread.
  { unfold missingFacts. cbn [jf_MR f]. intros [_ Hm]%app_nil. destruct (Recorded (jf_Fix f)); [|done]. cbn [negb] in Hm.
    repeat (apply app_nil in Hm as [_ Hm]). by destruct (mr_Read mr). }
  split.
  - intros ([Hm Hs] & Hw & Hr & Hne & Hcs & Hdk & Hdr & Ht & Ho)%fixed_only.
    split_and!; [done|by apply Hmr; [apply Hread|]|by apply Hp1|done|done].
  - intros (Hm & Hmr' & Hp & Hdk & Hdr). apply fixed_when. apply Hmr in Hmr'; [|by apply Hread].
    destruct (Hp2 Hp) as (? & ? & ? & ? & ? & ?). by split_and!.
Qed.

(** ** Every unread group has a failed read *)

Section evidence.
Context `{GoQuote} `{PipefixReader} `{JobNames} `{ErrorText} (projectID : Z).

Definition reads_ok (reads : list pipefixRead) : Prop := ∀ rd, rd ∈ reads → OK rd = true.

Lemma reads_ok_app l l' : reads_ok (l ++ l') ↔ reads_ok l ∧ reads_ok l'.
Proof. unfold reads_ok. setoid_rewrite elem_of_app. naive_solver. Qed.
Lemma reads_ok_cons rd l : reads_ok (rd :: l) ↔ OK rd = true ∧ reads_ok l.
Proof. unfold reads_ok. setoid_rewrite elem_of_cons. naive_solver. Qed.
Lemma reads_ok_nil : reads_ok [].
Proof. by intros rd ?%elem_of_nil. Qed.

Lemma readPipefixMR_ok iid : OK (readPipefixMR projectID iid).2 = mr_Read (readPipefixMR projectID iid).1.
Proof. unfold readPipefixMR. destruct (GetMergeRequest _ _) as [[mr|]|e]; [|done..]. destruct (negb _); [done|]. by destruct (String.eqb _ _). Qed.

Lemma readPipefixTrace_ok jobID what :
  OK (readPipefixTrace projectID jobID what).2 = tr_Read (readPipefixTrace projectID jobID what).1.
Proof.
  unfold readPipefixTrace. destruct (fetchPipefixTrace _ _) as [[log|]|e]; [|done..].
  destruct (tr_Read (FailedTrace log)) eqn:E; cbn; by rewrite ?E.
Qed.

Lemma readPipefixDefinition_ok `{MapRange, GoUnicode, YamlDecoder} baseSHA headSHA targets def b h reads :
  readPipefixDefinition projectID baseSHA headSHA targets = Some (def, b, h, reads) →
  df_Read def = true ↔ reads_ok reads.
Proof.
  unfold readPipefixDefinition. assert (∀ sha o r, lint projectID sha = (o, r) → (OK r = true ↔ is_Some o)) as Hl.
  { intros sha o r. unfold lint. destruct (CILintStatic projectID sha) as [[l|]|e]; intros [= <- <-]; cbn;
      (split; [done || by eexists|by intros []]). }
  destruct (lint projectID baseSHA) as [o1 r1] eqn:E1. destruct (lint projectID headSHA) as [o2 r2] eqn:E2.
  assert (reads_ok [r1; r2] ↔ is_Some o1 ∧ is_Some o2) as Hr.
  { rewrite !reads_ok_cons, (Hl _ _ _ E1), (Hl _ _ _ E2). split; [tauto|]. intros [? ?]. split_and!; [done..|apply reads_ok_nil]. }
  destruct o1 as [x|], o2 as [y|]; [destruct (Diff _ _ _); [|done]| | |]; intros [= <- <- <- <-]; rewrite Hr; cbn;
    (split; [done || by split; eexists|by intros [[] []]]).
Qed.

Definition with_trace (j : Glab.Job) (inT : gset string) : bool :=
  String.eqb (Glab.JobStatus j) StatusFailed && bool_decide (jobNameText (Glab.Name j) ∈ inT).
(** A failed attempt of a target: its log is what was read, or unread with a
    failed read. *)
Lemma attempt_of_ok inT j : reads_ok (attempt_of projectID inT j).2 ↔
  (with_trace j inT = true → tr_Read (at_Trace (attempt_of projectID inT j).1) = true).
Proof.
  unfold attempt_of, with_trace. destruct (_ && _); cbn [snd].
  - pose proof (readPipefixTrace_ok (Glab.JobID j) "trace") as E. destruct (readPipefixTrace _ _ _) as [tr rd]. cbn in *.
    rewrite reads_ok_cons, E. split; [tauto|]. intros Hx. split; [auto|apply reads_ok_nil].
  - split; [done|]. intros _. apply reads_ok_nil.
Qed.

(** ** The base pipeline *)

(** What is known of a name: its job object with the highest id. *)
Lemma latest_exact jobs name :
  (∀ j, fold_left latest_step jobs (∅ : gmap string Glab.Job) !! name = Some j →
     j ∈ jobs ∧ jobNameText (Glab.Name j) = name ∧
     ∀ k, k ∈ jobs → jobNameText (Glab.Name k) = name → Glab.JobID k <= Glab.JobID j) ∧
  (fold_left latest_step jobs (∅ : gmap string Glab.Job) !! name = None →
     ∀ k, k ∈ jobs → jobNameText (Glab.Name k) ≠ name).
Proof.
  induction jobs as [|j jobs [IH1 IH2]] using rev_ind.
  { cbn [fold_left]. rewrite lookup_empty. split; [done|]. by intros _ k ?%elem_of_nil. }
  rewrite fold_left_app. cbn [fold_left]. unfold latest_step at 1 3. set (m := fold_left latest_step jobs ∅) in *.
  setoid_rewrite elem_of_app. setoid_rewrite list_elem_of_singleton.
  destruct (decide (jobNameText (Glab.Name j) = name)) as [<-|Hne].
  - destruct (m !! jobNameText (Glab.Name j)) as [cur|] eqn:Em.
    + destruct (IH1 cur eq_refl) as (Hin & Hn & Hmax). destruct (Z.ltb_spec (Glab.JobID cur) (Glab.JobID j)).
      * rewrite lookup_insert_eq. split; [|done]. intros x [= <-]. split_and!; [by right|done|].
        intros k [Hk| ->] En; [|lia]. specialize (Hmax k Hk En). lia.
      * rewrite Em. split; [|done]. intros x [= <-]. split_and!; [by left|done|]. intros k [Hk| ->] En; [auto|lia].
    + rewrite lookup_insert_eq. split; [|done]. intros x [= <-]. split_and!; [by right|done|].
      intros k [Hk| ->] En; [by apply IH2 in En|lia].
  - assert ((match m !! jobNameText (Glab.Name j) with
      | Some cur => if Glab.JobID cur <? Glab.JobID j then <[jobNameText (Glab.Name j) := j]> m else m
      | None => <[jobNameText (Glab.Name j) := j]> m end) !! name = m !! name) as ->.
    { destruct (m !! jobNameText (Glab.Name j)) as [cur|]; [destruct (_ <? _); [|done]|]; by rewrite lookup_insert_ne. }
    split.
    + intros x Hx. destruct (IH1 x Hx) as (Hin & Hn & Hmax). split_and!; [by left|done|]. intros k [Hk| ->] En; [auto|done].
    + intros Hx k [Hk| ->]; auto.
Qed.

Lemma recorded_jobs_ok latest targets seen :
  match recorded_jobs projectID latest targets seen with
  | inl (failed, reads) => OK failed = false ∧ reads_ok reads
  | inr (_, reads) => reads_ok reads
  end.
Proof.
  revert seen. induction targets as [|t targets IH]; intros seen; cbn [recorded_jobs]; [apply reads_ok_nil|].
  destruct (latest !! jobNameText t) as [j|]; [|apply IH]. destruct (_ || _); [apply IH|].
  pose proof (readPipefixTrace_ok (Glab.JobID j) "base-trace") as E. destruct (readPipefixTrace _ _ _) as [tr rd]. cbn [fst snd] in E.
  destruct (tr_Read tr); cbn [negb]; [|split; [done|apply reads_ok_nil]].
  specialize (IH ({[ jobNameText t ]} ∪ seen)). destruct (recorded_jobs _ _ _ _) as [[failed reads]|[recorded reads]].
  - destruct IH. split; [done|]. by apply reads_ok_cons.
  - by apply reads_ok_cons.
Qed.

(** The base pipeline counts as read exactly when every read it rests on was
    answered; it is then the pipeline asked for, of this project, with one job for
    each name: the one of its latest attempt. *)
Theorem base_read_exact pipelineID targets :
  let base := readPipefixBase projectID pipelineID targets in
  (ba_Read base = true ↔ reads_ok (ba_Reads base)) ∧
  (ba_Read base = true → ∃ p jobs, GetPipeline projectID pipelineID = Ok (Some p) ∧ Glab.ID p = pipelineID ∧
     is_pipeline projectID p ∧ attempts_listed projectID p jobs ∧
     ba_SHA base = Glab.PipelineSHA p ∧ ba_PipelineID base = pipelineID ∧
     ∀ bj, bj ∈ ba_Jobs base ↔ ∃ j, j ∈ jobs ∧ bj = base_job (jobNameText (Glab.Name j)) j ∧
       fold_left latest_step jobs ∅ !! jobNameText (Glab.Name j) = Some j).
Proof.
  assert (∀ b pid l rd, b = mkBase false pid "" "" "" [] [] (l ++ [rd]) → OK rd = false →
    (ba_Read b = true ↔ reads_ok (ba_Reads b))) as Hno.
  { intros b pid l rd -> E. cbn. split; [done|]. rewrite reads_ok_app, reads_ok_cons. intros (_ & E' & _). congruence. }
  cbn zeta. unfold readPipefixBase. destruct (GetPipeline projectID pipelineID) as [[p|]|e].
  2-3: split; [by eapply Hno|done].
  destruct (Z.eqb_spec (Glab.ID p) pipelineID) as [Hid|]; cbn [negb]; [|split; [by eapply Hno|done]].
  destruct (String.eqb_spec (pipefixPipelineProblem p projectID) "") as [Hp|]; cbn [negb]; [|split; [by eapply Hno|done]].
  destruct (ListPipelineAttempts projectID pipelineID) as [jobs|e] eqn:El; [|split; [by eapply Hno|done]].
  destruct (List.find not_a_job jobs) as [j|] eqn:Ef; [split; [by eapply Hno|done]|].
  pose proof (recorded_jobs_ok (fold_left latest_step jobs ∅) targets ∅) as Hr.
  destruct (recorded_jobs _ _ _ _) as [[failed reads]|[recorded reads]]; [destruct Hr; split; [by eapply Hno|done]|].
  cbn [ba_Read ba_Reads ba_SHA ba_PipelineID ba_Jobs]. split; [split; [intros _|done]; rewrite !reads_ok_app, !reads_ok_cons|].
  { split_and!; try done; apply reads_ok_nil. }
  intros _. exists p, jobs. split_and!; [done..|by apply pipefixPipelineProblem_none| |done|done|].
  { split; [by rewrite Hid|]. rewrite find_none in Ef. intros j Hj. by apply not_a_job_false, Ef. }
  intros bj. rewrite list_elem_of_omap. setoid_rewrite elem_of_sorted_keys. split.
  - intros (name & _ & Hb). destruct (fold_left latest_step jobs ∅ !! name) as [j|] eqn:E; [|done]. injection Hb as <-.
    destruct (proj1 (latest_exact jobs name) j E) as (Hin & <- & _). by exists j.
  - intros (j & _ & -> & E). exists (jobNameText (Glab.Name j)). rewrite E. split; [by eexists|done].
Qed.
End evidence.
