(* ===== verification/Sha256.v ===== *)
(** * [crypto/sha256] and [encoding/hex]

    The hash (FIPS 180-4) as the standard library computes it, executable, with
    published test vectors; and the lower-case hexadecimal form in which the
    program writes it into names. What the names rely on is only their shape:
    the properties of this file say that the hexadecimal form of a hash has 64
    characters, all of them digits or letters from a to f. *)

From S2P Require Import Prelude.
From S2P Require Import GoStrings.

Module Sha.
(** ** Words of 32 bits *)

Definition word (z : Z) : Z := z mod 4294967296.
Definition rotr (n x : Z) : Z := Z.lor (Z.shiftr x n) (word (Z.shiftl x (32 - n))).
Definition not32 (x : Z) : Z := 4294967295 - x.

Definition Ch (x y z : Z) : Z := Z.lxor (Z.land x y) (Z.land (not32 x) z).
Definition Maj (x y z : Z) : Z := Z.lxor (Z.lxor (Z.land x y) (Z.land x z)) (Z.land y z).
Definition Sigma0 (x : Z) : Z := Z.lxor (Z.lxor (rotr 2 x) (rotr 13 x)) (rotr 22 x).
Definition Sigma1 (x : Z) : Z := Z.lxor (Z.lxor (rotr 6 x) (rotr 11 x)) (rotr 25 x).
Definition sigma0 (x : Z) : Z := Z.lxor (Z.lxor (rotr 7 x) (rotr 18 x)) (Z.shiftr x 3).
Definition sigma1 (x : Z) : Z := Z.lxor (Z.lxor (rotr 17 x) (rotr 19 x)) (Z.shiftr x 10).

Definition K : list Z := [
  0x428a2f98; 0x71374491; 0xb5c0fbcf; 0xe9b5dba5; 0x3956c25b; 0x59f111f1; 0x923f82a4; 0xab1c5ed5;
  0xd807aa98; 0x12835b01; 0x243185be; 0x550c7dc3; 0x72be5d74; 0x80deb1fe; 0x9bdc06a7; 0xc19bf174;
  0xe49b69c1; 0xefbe4786; 0x0fc19dc6; 0x240ca1cc; 0x2de92c6f; 0x4a7484aa; 0x5cb0a9dc; 0x76f988da;
  0x983e5152; 0xa831c66d; 0xb00327c8; 0xbf597fc7; 0xc6e00bf3; 0xd5a79147; 0x06ca6351; 0x14292967;
  0x27b70a85; 0x2e1b2138; 0x4d2c6dfc; 0x53380d13; 0x650a7354; 0x766a0abb; 0x81c2c92e; 0x92722c85;
  0xa2bfe8a1; 0xa81a664b; 0xc24b8b70; 0xc76c51a3; 0xd192e819; 0xd6990624; 0xf40e3585; 0x106aa070;
  0x19a4c116; 0x1e376c08; 0x2748774c; 0x34b0bcb5; 0x391c0cb3; 0x4ed8aa4a; 0x5b9cca4f; 0x682e6ff3;
  0x748f82ee; 0x78a5636f; 0x84c87814; 0x8cc70208; 0x90befffa; 0xa4506ceb; 0xbef9a3f7; 0xc67178f2].
Definition H0 : list Z :=
  [0x6a09e667; 0xbb67ae85; 0x3c6ef372; 0xa54ff53a; 0x510e527f; 0x9b05688c; 0x1f83d9ab; 0x5be0cd19].

(** ** Padding and blocks *)

Definition bytes_of (s : string) : list Z := map byte_val (String.list_ascii_of_string s).
(** The [n] low bytes of [z], the highest first. *)
Fixpoint big_endian (n : nat) (z : Z) : list Z :=
  match n with O => [] | S n => big_endian n (z / 256) ++ [z mod 256] end.

Definition pad (m : list Z) : list Z :=
  let l := Z.of_nat (length m) in
  m ++ [128] ++ replicate (Z.to_nat ((55 - l) mod 64)) 0 ++ big_endian 8 (8 * l).

Fixpoint words (bs : list Z) : list Z :=
  match bs with
  | a :: b :: c :: d :: bs => (a * 16777216 + b * 65536 + c * 256 + d) :: words bs
  | _ => []
  end.

(** The schedule, the newest word first: 16 of the block, then [n] more. *)
Fixpoint schedule (n : nat) (w : list Z) : list Z :=
  match n with
  | O => w
  | S n =>
      let at_ i := default 0 (w !! i) in
      schedule n (word (sigma1 (at_ 1%nat) + at_ 6%nat + sigma0 (at_ 14%nat) + at_ 15%nat) :: w)
  end.

Definition round (st : list Z) (kw : Z * Z) : list Z :=
  match st with
  | [a; b; c; d; e; f; g; h] =>
      let t1 := h + Sigma1 e + Ch e f g + fst kw + snd kw in
      [word (t1 + Sigma0 a + Maj a b c); a; b; c; word (d + t1); e; f; g]
  | _ => st
  end.

Definition block (hash : list Z) (w : list Z) : list Z :=
  zip_with (λ x y, word (x + y)) hash (fold_left round (zip K (rev (schedule 48 (rev w)))) hash).

(** Blocks of 16 words. *)
Fixpoint blocks (fuel : nat) (hash : list Z) (w : list Z) : list Z :=
  match fuel with
  | O => hash
  | S fuel => match w with [] => hash | _ => blocks fuel (block hash (take 16 w)) (drop 16 w) end
  end.

Definition Sum256 (s : string) : list Z :=
  let w := words (pad (bytes_of s)) in
  flat_map (big_endian 4) (blocks (length w) H0 w).
End Sha.

(** ** [hex.EncodeToString] *)

Definition hex_digit (n : Z) : Ascii.ascii :=
  Ascii.ascii_of_N (Z.to_N (if n <? 10 then 48 + n else 87 + n)).
Definition hex_byte (b : Z) : list Ascii.ascii := [hex_digit (b / 16 mod 16); hex_digit (b mod 16)].
Definition hex (bs : list Z) : string := String.string_of_list_ascii (flat_map hex_byte bs).

Definition sha256_hex (s : string) : string := hex (Sha.Sum256 s).

(** A digit or a letter from a to f. *)
Definition is_hex (c : Ascii.ascii) : bool := in_range 48 57 c || in_range 97 102 c.

Example sha_empty : sha256_hex "" = "e3b0c44298fc1c149afbf4c8996fb92427ae41e4649b934ca495991b7852b855".
Proof. vm_compute. reflexivity. Qed.
Example sha_abc : sha256_hex "abc" = "ba7816bf8f01cfea414140de5dae2223b00361a396177a9cb410ff61f20015ad".
Proof. vm_compute. reflexivity. Qed.
Example sha_two_blocks :
  sha256_hex "abcdbcdecdefdefgefghfghighijhijkijkljklmklmnlmnomnopnopq" =
  "248d6a61d20638b8e5c026930c3e6039a33ce45964ff2167f6ecedd419db06c1".
Proof. vm_compute. reflexivity. Qed.

(** ** Its shape *)

Lemma hex_digit_is_hex n : 0 <= n < 16 → is_hex (hex_digit n) = true.
Proof.
  intros Hn. assert (n = 0 ∨ n = 1 ∨ n = 2 ∨ n = 3 ∨ n = 4 ∨ n = 5 ∨ n = 6 ∨ n = 7 ∨ n = 8 ∨ n = 9 ∨ n = 10 ∨ n = 11 ∨
    n = 12 ∨ n = 13 ∨ n = 14 ∨ n = 15) as Hc by lia. repeat destruct Hc as [->|Hc]; try (by vm_compute); by subst.
Qed.

Lemma hex_all bs : all_bytes is_hex (hex bs) = true.
Proof.
  unfold hex. rewrite all_bytes_list, String.list_ascii_of_string_of_list_ascii. apply forallb_forall. intros c Hc.
  apply in_flat_map in Hc as (b & _ & Hc). destruct Hc as [<-|[<-|[]]]; apply hex_digit_is_hex; by apply Z.mod_pos_bound.
Qed.

Lemma string_of_list_length l : String.length (String.string_of_list_ascii l) = length l.
Proof. induction l as [|c l IH]; [done|]. simpl. by rewrite IH. Qed.
Lemma hex_length bs : String.length (hex bs) = (2 * length bs)%nat.
Proof.
  unfold hex. rewrite string_of_list_length. induction bs as [|b bs IH]; [done|]. cbn [flat_map]. rewrite length_app, IH. simpl. lia.
Qed.

Lemma big_endian_length n z : length (Sha.big_endian n z) = n.
Proof. revert z. induction n as [|n IH]; intros z; cbn [Sha.big_endian]; [done|]. rewrite length_app, IH. simpl. lia. Qed.

Lemma round_length st kw : length (Sha.round st kw) = length st.
Proof. unfold Sha.round. by repeat case_match; subst. Qed.
Lemma rounds_length kws st : length (fold_left Sha.round kws st) = length st.
Proof. revert st. induction kws as [|kw kws IH]; intros st; [done|]. cbn [fold_left]. by rewrite IH, round_length. Qed.
Lemma block_length hash w : length (Sha.block hash w) = length hash.
Proof. unfold Sha.block. rewrite length_zip_with, rounds_length. lia. Qed.
Lemma blocks_length fuel hash w : length (Sha.blocks fuel hash w) = length hash.
Proof.
  revert hash w. induction fuel as [|fuel IH]; intros hash w; [done|]. cbn [Sha.blocks]. destruct w; [done|]. by rewrite IH, block_length.
Qed.

Lemma sha256_hex_length s : String.length (sha256_hex s) = 64%nat.
Proof.
  unfold sha256_hex. rewrite hex_length. unfold Sha.Sum256.
  assert (∀ l, length (flat_map (Sha.big_endian 4) l) = (4 * length l)%nat) as E.
  { induction l as [|z l IH]; [done|]. cbn [flat_map]. rewrite length_app, IH, big_endian_length. simpl. lia. }
  by rewrite E, blocks_length.
Qed.

Lemma all_bytes_substring f n m s : all_bytes f s = true → all_bytes f (String.substring n m s) = true.
Proof.
  revert n m. induction s as [|c s IH]; intros [|n] [|m] H; try done; cbn in *; apply andb_prop in H as [Hc Hs];
    rewrite ?Hc; cbn [andb]; auto.
Qed.
Lemma substring_0_length m s : (m <= String.length s)%nat → String.length (String.substring 0 m s) = m.
Proof. revert s. induction m as [|m IH]; intros [|c s] H; cbn in *; try done; try lia. f_equal. apply IH. lia. Qed.

(** The first [m] characters of a hash. *)
Definition hash_prefix (m : nat) (s : string) : string := String.substring 0 m (sha256_hex s).

Lemma hash_prefix_shape m s : (m <= 64)%nat →
  String.length (hash_prefix m s) = m ∧ all_bytes is_hex (hash_prefix m s) = true.
Proof.
  intros Hm. unfold hash_prefix. split.
  - apply substring_0_length. by rewrite sha256_hex_length.
  - apply all_bytes_substring, hex_all.
Qed.
