(* ===== verification/Webhook.v ===== *)
(** * [pkg/ghook]: the webhook endpoint

    A delivery of GitLab is verified, parsed, de-duplicated and handed to the
    dispatcher, or dropped with a record of why ([verify.go], [event.go],
    [dedupe.go], [receiver.go]). The request, the clock and the queue's answer
    are arguments; the JSON decoder of the standard library is a class. *)

From Stdlib Require Import Ascii.
From S2P Require Import Prelude.
From S2P Require Import GoStrings.
From S2P Require Import GoTime.
From S2P Require Import GoPath.
From S2P Require Import Sha256.

(** ** The secret ([verify.go]) *)

Definition MinSecretLen : Z := 32.
Inductive verify_error := ErrMissingToken | ErrBadToken.
Inductive secrets_error := ErrShortSecret (slot : Z) (length : Z) | ErrNoSecret.

Record Verifier := mkVerifier { secrets : list string }.

Fixpoint usable_secrets (i : Z) (slots : list string) : result secrets_error (list string) :=
  match slots with
  | [] => Ok []
  | s :: slots =>
      if String.eqb s "" then usable_secrets (i + 1) slots
      else if len s <? MinSecretLen then Err (ErrShortSecret i (len s))
      else usable ← usable_secrets (i + 1) slots; Ok (s :: usable)
  end.

Definition NewVerifier (slots : list string) : result secrets_error Verifier :=
  usable ← usable_secrets 0 slots;
  if (length usable =? 0)%nat then Err ErrNoSecret else Ok (mkVerifier usable).

(** [subtle.ConstantTimeCompare]. *)
Definition ConstantTimeCompare (a b : string) : Z := if String.eqb a b then 1 else 0.

Definition Verify (v : Verifier) (token : string) : option verify_error :=
  if len token =? 0 then Some ErrMissingToken
  else
    let ok := fold_left (λ ok s, Z.lor ok (ConstantTimeCompare token s)) (secrets v) 0 in
    if negb (ok =? 1) then Some ErrBadToken else None.

(** ** Events ([event.go]) *)

Module Event.
Inductive Kind := KindIssue | KindNote | KindMergeRequest | KindPipeline.
Definition kind_text (k : Kind) : string :=
  match k with KindIssue => "issue" | KindNote => "note" | KindMergeRequest => "merge_request" | KindPipeline => "pipeline" end.

Record Project := mkProject { ProjectID : Z; PathWithNamespace : string; DefaultBranch : string; WebURL : string }.
Record User := mkUser { UserID : Z; Username : string }.
Record Issue := mkIssue { IssueIID : Z; IssueAction : string; Title : string; Description : string }.
Record Note := mkNote { NoteID : Z; Body : string; NoteableType : string; DiscussionID : string }.
Record MergeRequest := mkMergeRequest {
  MRIID_ : Z; MRAction : string; MRState : string; SourceBranch : string; TargetBranch : string }.
Record Pipeline := mkPipeline {
  PipelineID : Z; PipelineIID : Z; Ref : string; Tag : bool; SHA : string; Source : string; Status : string;
  MRIID : Z; MRSourceProjectID : Z }.
Record Event := mkEvent {
  EvKind : Kind;
  EvProject : Project;
  EvUser : User;
  EvIssue : option Issue;
  EvNote : option Note;
  EvMergeRequest : option MergeRequest;
  EvPipeline : option Pipeline;
  DeliveryID : string;
}.

(** [rawEvent]: the fields the JSON decoder fills. *)
Record rawAttrs := mkRawAttrs {
  ra_ID : Z; ra_IID : Z; ra_Action : string; ra_State : string; ra_Title : string; ra_Description : string;
  ra_Note : string; ra_NoteableType : string; ra_DiscussionID : string; ra_SourceBranch : string; ra_TargetBranch : string;
  ra_Ref : string; ra_Tag : bool; ra_SHA : string; ra_Source : string; ra_Status : string }.
Record rawEvent := mkRaw {
  ObjectKind : string;
  re_Project : Project;
  re_User : User;
  Attrs : rawAttrs;
  re_IssueIID : Z;
  re_MergeRequest : option (Z * Z);
}.
End Event.
Import Event.

Class EventDecoder := { unmarshal_event : string → result string rawEvent }.

Inductive parse_error :=
| UnhandledHeader (header : string)
| MalformedPayload (err : string)
| HeaderMismatch (header kind : string)
| NoProjectID
| NoProjectPath
| UnsafeProjectPath
| IssueWithoutIID
| NoteWithoutIssueIID
| UnsupportedNoteable (type_ : string)
| MRWithoutIID
| PipelineWithoutID
| PipelineWithoutRef.

Definition headerKind (header : string) : option Kind :=
  if String.eqb header "Issue Hook" then Some KindIssue
  else if String.eqb header "Note Hook" then Some KindNote
  else if String.eqb header "Merge Request Hook" then Some KindMergeRequest
  else if String.eqb header "Pipeline Hook" then Some KindPipeline
  else None.

Definition unsafe_byte (c : Ascii.ascii) : bool := (byte_val c =? 10) || (byte_val c =? 13) || (byte_val c =? 44).
Definition attributionSafe (path : string) : option parse_error :=
  if String.eqb path "" then Some NoProjectPath
  else if ContainsAny path unsafe_byte then Some UnsafeProjectPath
  else None.

Definition payload (raw : rawEvent) (want : Kind) : result parse_error Event.Event :=
  let a := Attrs raw in
  let ev issue note mr pl := Ok (mkEvent want (re_Project raw) (re_User raw) issue note mr pl "") in
  match want with
  | KindIssue =>
      if ra_IID a <=? 0 then Err IssueWithoutIID
      else ev (Some (mkIssue (ra_IID a) (ra_Action a) (ra_Title a) (ra_Description a))) None None None
  | KindNote =>
      let note := mkNote (ra_ID a) (ra_Note a) (ra_NoteableType a) (ra_DiscussionID a) in
      if String.eqb (ra_NoteableType a) "Issue" then
        if re_IssueIID raw <=? 0 then Err NoteWithoutIssueIID
        else ev (Some (mkIssue (re_IssueIID raw) "" "" "")) (Some note) None None
      else if String.eqb (ra_NoteableType a) "MergeRequest" then ev None (Some note) None None
      else Err (UnsupportedNoteable (ra_NoteableType a))
  | KindMergeRequest =>
      if ra_IID a <=? 0 then Err MRWithoutIID
      else ev None None (Some (mkMergeRequest (ra_IID a) (ra_Action a) (ra_State a) (ra_SourceBranch a) (ra_TargetBranch a))) None
  | KindPipeline =>
      if ra_ID a <=? 0 then Err PipelineWithoutID
      else if String.eqb (ra_Ref a) "" || String.eqb (ra_Status a) "" then Err PipelineWithoutRef
      else
        let '(iid, source) := default (0, 0) (re_MergeRequest raw) in
        ev None None None (Some (mkPipeline (ra_ID a) (ra_IID a) (ra_Ref a) (ra_Tag a) (ra_SHA a) (ra_Source a) (ra_Status a) iid source))
  end.

Definition ParseEvent `{EventDecoder} (header body : string) : result parse_error Event.Event :=
  match headerKind header with
  | None => Err (UnhandledHeader header)
  | Some want =>
      match unmarshal_event body with
      | Err e => Err (MalformedPayload e)
      | Ok raw =>
          if negb (String.eqb (ObjectKind raw) (kind_text want)) then Err (HeaderMismatch header (ObjectKind raw))
          else if ProjectID (re_Project raw) <=? 0 then Err NoProjectID
          else match attributionSafe (PathWithNamespace (re_Project raw)) with
               | Some e => Err e
               | None => payload raw want
               end
      end
  end.

(** ** De-duplication ([dedupe.go]) *)

Record Deduper := mkDeduper { seen : gmap string Time; ttl : Duration; max_ : Z }.
Definition NewDeduper (ttl : Duration) (max : Z) : Deduper := mkDeduper ∅ ttl (if max <? 1 then 1 else max).

Definition set_seen (d : Deduper) (s : gmap string Time) : Deduper := mkDeduper s (ttl d) (max_ d).
Definition expired (d : Deduper) (now at_ : Time) : bool := ttl d <=? Sub now at_.

Section dedupe.
Context `{MapRange}.

Definition oldest_step (acc : string * Time) (e : string * Time) : string * Time :=
  if IsZero (snd acc) || Before (snd e) (snd acc) then e else acc.
(** The oldest entry, ties in the order of the map. *)
Definition oldest (s : gmap string Time) : string * Time := fold_left oldest_step (range_map s) ("", Time_zero).

(** [for len(d.seen) >= d.max]; the fuel is the number of entries. *)
Fixpoint evict_oldest (fuel : nat) (max : Z) (s : gmap string Time) : gmap string Time :=
  if Z.of_nat (size s) <? max then s
  else match fuel with O => s | S fuel => evict_oldest fuel max (delete (fst (oldest s)) s) end.

Definition evict (d : Deduper) (now : Time) : Deduper :=
  let live := filter (λ e : string * Time, expired d now (snd e) = false) (seen d) in
  set_seen d (evict_oldest (size live) (max_ d) live).

Definition Seen (d : Deduper) (now : Time) (key : string) : bool * Deduper :=
  match seen d !! key with
  | Some at_ =>
      if Sub now at_ <? ttl d then (true, d)
      else
        let d := evict (set_seen d (delete key (seen d))) now in
        (false, set_seen d (<[key := now]> (seen d)))
  | None =>
      let d := evict d now in
      (false, set_seen d (<[key := now]> (seen d)))
  end.

Definition DedupeKey (eventUUID : string) (ev : Event.Event) : string :=
  if negb (String.eqb eventUUID "") then "uuid:" +:+ eventUUID
  else
    let id :=
      match EvPipeline ev, EvNote ev, EvMergeRequest ev, EvIssue ev with
      | Some p, _, _, _ => "pipeline:" +:+ itoa (PipelineID p) +:+ ":" +:+ Status p
      | None, Some n, _, _ => "note:" +:+ itoa (NoteID n)
      | None, None, Some m, _ => "mr:" +:+ itoa (MRIID_ m) +:+ ":" +:+ MRAction m
      | None, None, None, Some i => "issue:" +:+ itoa (IssueIID i) +:+ ":" +:+ IssueAction i
      | None, None, None, None => ""
      end in
    "derived:" +:+ hash_prefix 16 (kind_text (EvKind ev) +:+ "|" +:+ itoa (ProjectID (EvProject ev)) +:+ "|" +:+ id).

(** ** The endpoint ([receiver.go]) *)

Definition MaxBodyBytes : Z := 1048576.
Definition maxDeliveryIDBytes : Z := 64.

Inductive Outcome :=
| OutcomeAccepted | OutcomeMissingToken | OutcomeBadToken | OutcomeBadMethod | OutcomeBadContentType | OutcomeTooLarge
| OutcomeMalformed | OutcomeUnhandledEvent | OutcomeDuplicate | OutcomeBotAuthored | OutcomeQueueFull.
Definition outcome_text (o : Outcome) : string :=
  match o with
  | OutcomeAccepted => "accepted" | OutcomeMissingToken => "missing_token" | OutcomeBadToken => "bad_token"
  | OutcomeBadMethod => "bad_method" | OutcomeBadContentType => "bad_content_type" | OutcomeTooLarge => "too_large"
  | OutcomeMalformed => "malformed" | OutcomeUnhandledEvent => "unhandled_event" | OutcomeDuplicate => "duplicate"
  | OutcomeBotAuthored => "bot_authored" | OutcomeQueueFull => "queue_full"
  end.

Definition handledEvents : list string := ["Issue Hook"; "Note Hook"; "Merge Request Hook"; "Pipeline Hook"].
Definition eventLabel (event : string) : string := if contains handledEvents event then event else "other".

Definition safe_byte (c : Ascii.ascii) : Ascii.ascii :=
  if (byte_val c <? 32) || (126 <? byte_val c) then "?"%char else c.
Definition safeDeliveryID (v : string) : string :=
  let v := if maxDeliveryIDBytes <? len v then String.substring 0 (Z.to_nat maxDeliveryIDBytes) v else v in
  String.string_of_list_ascii (map safe_byte (String.list_ascii_of_string v)).

(** [strings.Cut(ct, ";")] and the trimmed part before it. *)
Definition isJSON `{GoUnicode} (ct : string) : bool :=
  String.eqb (TrimSpace (hd "" (Split ";"%char ct))) "application/json".

(** The parts of a request that are read; [BodyErr]: reading the body ends in an
    error of the connection. *)
Record Request := mkRequest {
  Method : string; Token : string; ContentType : string; EventHeader : string; UUID : string;
  BodyText : string; BodyErr : bool }.

Inductive Level := Info | Warn | Error.
Inductive attr := Text (s : string) | Number (z : Z).
Record Response := mkResponse {
  Code : Z;
  ResponseBody : string;
  LogLevel : Level;
  LogAttrs : list (string * attr);
  Observed : string * Outcome;
}.

Definition finish (event : string) (ev : option Event.Event) (delivery : string) (o : Outcome) (code : Z) : Response :=
  let attrs := [("delivery", Text delivery); ("event", Text (eventLabel event)); ("outcome", Text (outcome_text o)); ("status", Number code)] ++
    match ev with
    | None => []
    | Some ev =>
        [("project", Text (PathWithNamespace (EvProject ev))); ("project_id", Number (ProjectID (EvProject ev)))] ++
        match EvIssue ev with Some i => [("issue_iid", Number (IssueIID i))] | None => [] end ++
        match EvNote ev with Some n => [("note_id", Number (NoteID n)); ("noteable", Text (NoteableType n))] | None => [] end ++
        match EvMergeRequest ev with Some m => [("mr_iid", Number (MRIID_ m))] | None => [] end ++
        match EvPipeline ev with Some p => [("pipeline_id", Number (PipelineID p))] | None => [] end
    end in
  mkResponse code (outcome_text o +:+ String (Ascii.ascii_of_nat 10) "")
    (match o with OutcomeAccepted => Info | OutcomeQueueFull => Error | _ => Warn end)
    attrs (eventLabel event, o).

Record Handler := mkHandler { hd_Verifier : Verifier; hd_Deduper : Deduper; BotUserID : Z }.
Inductive handler_error := ErrBotUserID (id : Z).
(** [NewHandler]; the nil checks of its pointers have no counterpart. *)
Definition NewHandler (v : Verifier) (d : Deduper) (botUserID : Z) : result handler_error Handler :=
  if botUserID <=? 0 then Err (ErrBotUserID botUserID) else Ok (mkHandler v d botUserID).
Definition set_Deduper (h : Handler) (d : Deduper) : Handler := mkHandler (hd_Verifier h) d (BotUserID h).
Definition set_DeliveryID (ev : Event.Event) (id : string) : Event.Event :=
  mkEvent (EvKind ev) (EvProject ev) (EvUser ev) (EvIssue ev) (EvNote ev) (EvMergeRequest ev) (EvPipeline ev) id.

(** The response, what [Sink] was given and the handler afterwards; [room] is
    [Sink]'s answer. *)
Definition ServeHTTP `{EventDecoder, GoUnicode} (h : Handler) (now : Time) (room : bool) (r : Request) :
    Response * option Event.Event * Handler :=
  let delivery := safeDeliveryID (UUID r) in
  let drop o code := (finish (EventHeader r) None delivery o code, None, h) in
  if negb (String.eqb (Method r) "POST") then drop OutcomeBadMethod 405
  else match Verify (hd_Verifier h) (Token r) with
  | Some ErrMissingToken => drop OutcomeMissingToken 401
  | Some ErrBadToken => drop OutcomeBadToken 401
  | None =>
    if negb (isJSON (ContentType r)) then drop OutcomeBadContentType 415
    else if negb (contains handledEvents (EventHeader r)) then drop OutcomeUnhandledEvent 200
    else if MaxBodyBytes <? len (BodyText r) then drop OutcomeTooLarge 413
    else if BodyErr r then drop OutcomeMalformed 400
    else match ParseEvent (EventHeader r) (BodyText r) with
    | Err _ => drop OutcomeMalformed 400
    | Ok ev =>
        let key := DedupeKey (UUID r) ev in
        let delivery := if String.eqb delivery "" then safeDeliveryID key else delivery in
        let ev := set_DeliveryID ev delivery in
        let '(dup, d) := Seen (hd_Deduper h) now key in
        let h := set_Deduper h d in
        let finish o code sent := (finish (EventHeader r) (Some ev) delivery o code, sent, h) in
        if dup then finish OutcomeDuplicate 200 None
        else if UserID (EvUser ev) =? BotUserID h then finish OutcomeBotAuthored 200 None
        else if negb room then finish OutcomeQueueFull 503 (Some ev)
        else finish OutcomeAccepted 200 (Some ev)
    end
  end.
End dedupe.

(** ** De-duplication: a repeat gets through only when crowded out *)

Section dedupe_facts.
Context `{MapRange}.
Implicit Types (s : gmap string Time) (h : list (string * Time)) (k : string) (t now : Time).

Lemma oldest_fold l acc : snd acc ≠ 0 → (∀ e, e ∈ l → snd e ≠ 0) →
  let r := fold_left oldest_step l acc in (r = acc ∨ r ∈ l) ∧ snd r <= snd acc ∧ ∀ e, e ∈ l → snd r <= snd e.
Proof.
  revert acc. induction l as [|e l IH]; intros acc Ha Hl; cbn [fold_left].
  { split_and!; [by left|lia|]. by intros e ?%elem_of_nil. }
  destruct (IH (oldest_step acc e)) as (Hr & Hle & Hall).
  { unfold oldest_step. destruct (_ || _); [apply Hl; by left|done]. }
  { intros x Hx. apply Hl. by right. }
  assert ((oldest_step acc e = acc ∨ oldest_step acc e = e) ∧ snd (oldest_step acc e) <= snd acc ∧ snd (oldest_step acc e) <= snd e)
    as (Hs & H1 & H2).
  { unfold oldest_step, IsZero, Before. destruct (Z.eqb_spec (snd acc) 0); [done|].
    destruct (Z.ltb_spec (snd e) (snd acc)); cbn; split_and!; auto; lia. }
  split_and!.
  - destruct Hr as [->|Hr]; [destruct Hs as [->| ->]; [by left|right; by left]|right; by right].
  - lia.
  - intros x [->|Hx]%elem_of_cons; [lia|auto].
Qed.

Lemma oldest_in s : s ≠ ∅ → is_Some (s !! fst (oldest s)).
Proof.
  intros Hs. unfold oldest. assert (∀ l acc, (fold_left oldest_step l acc = acc ∨ fold_left oldest_step l acc ∈ l)) as Hf.
  { induction l as [|e l IH]; intros acc; cbn [fold_left]; [by left|]. destruct (IH (oldest_step acc e)) as [->|Hr]; [|right; by right].
    unfold oldest_step. destruct (_ || _); [right; by left|by left]. }
  pose proof (elem_of_range_map s) as Hr. destruct (range_map s) as [|e l] eqn:E.
  - exfalso. apply Hs, map_empty. intros k. apply eq_None_not_Some. intros [v Hv%Hr]. by apply elem_of_nil in Hv.
  - cbn [fold_left]. change (oldest_step ("", Time_zero) e) with e.
    assert (fold_left oldest_step l e ∈ e :: l) as Hin by (destruct (Hf l e) as [->|]; [by left|by right]).
    destruct (fold_left oldest_step l e) as [k t]. exists t. by apply Hr.
Qed.

Lemma oldest_least s k t : (∀ k t, s !! k = Some t → t ≠ 0) → s !! fst (oldest s) = Some t →
  ∀ k' t', s !! k' = Some t' → t <= t'.
Proof.
  intros Hz Ho k' t' Hk'. unfold oldest in Ho. pose proof (elem_of_range_map s) as Hr. destruct (range_map s) as [|e l] eqn:E.
  { apply Hr in Hk'. by apply elem_of_nil in Hk'. }
  cbn [fold_left] in Ho. change (oldest_step ("", Time_zero) e) with e in Ho.
  assert (∀ x, x ∈ e :: l → snd x ≠ 0) as Hne by (intros [a b] Hx%Hr; by eapply Hz).
  destruct (oldest_fold l e) as (Hin & Hle & Hall); [apply Hne; by left|intros x Hx; apply Hne; by right|].
  set (r := fold_left oldest_step l e) in *.
  assert (s !! fst r = Some (snd r)) as Hr' by (apply Hr; rewrite <- surjective_pairing; destruct Hin as [->|]; [by left|by right]).
  rewrite Ho in Hr'. injection Hr' as ->. apply Hr in Hk'. apply elem_of_cons in Hk' as [<-|Hk']; [done|by apply Hall in Hk'].
Qed.

Lemma map_size_mono s s' : s ⊆ s' → (size s <= size s')%nat.
Proof. intros. rewrite <- !size_dom. by apply subseteq_size, subseteq_dom. Qed.

Lemma evict_oldest_sub fuel max s : evict_oldest fuel max s ⊆ s.
Proof.
  revert s. induction fuel as [|fuel IH]; intros s; cbn [evict_oldest]; destruct (_ <? _); try done.
  etrans; [apply IH|apply delete_subseteq].
Qed.

Lemma evict_oldest_size fuel max s : 1 <= max → (size s <= fuel)%nat → Z.of_nat (size (evict_oldest fuel max s)) < max.
Proof.
  intros Hm. revert s. induction fuel as [|fuel IH]; intros s Hf; cbn [evict_oldest]; destruct (Z.ltb_spec (Z.of_nat (size s)) max); try lia.
  apply IH. destruct (decide (s = ∅)) as [->|Hs]; [rewrite map_size_empty in *; lia|].
  destruct (oldest_in s Hs) as [t Ht]. rewrite map_size_delete, Ht. lia.
Qed.

(** An entry is dropped for want of room only when [max] entries are at least
    as young. *)
Lemma evict_oldest_dropped fuel max s k t : (∀ k t, s !! k = Some t → t ≠ 0) → (size s <= fuel)%nat →
  s !! k = Some t → evict_oldest fuel max s !! k = None →
  max <= Z.of_nat (size (filter (λ e : string * Time, t <= snd e) s)).
Proof.
  revert s. induction fuel as [|fuel IH]; intros s Hz Hf Hk Hd; cbn [evict_oldest] in Hd;
    destruct (Z.ltb_spec (Z.of_nat (size s)) max) as [|Hge]; try congruence.
  destruct (decide (fst (oldest s) = k)) as [<-|Hne].
  - replace (filter _ s) with s; [done|]. symmetry. apply map_filter_id. intros k' t' Hk'. by eapply oldest_least.
  - etrans; [apply (IH (delete (fst (oldest s)) s))|].
    + intros k' t' [_ Hk']%lookup_delete_Some. by eapply Hz.
    + assert (s ≠ ∅) as Hs by (intros ->; by rewrite lookup_empty in Hk). destruct (oldest_in s Hs) as [u Hu].
      rewrite map_size_delete, Hu. lia.
    + by rewrite lookup_delete_ne.
    + done.
    + apply inj_le, map_size_mono, map_subseteq_spec. intros k' t' [[_ ?]%lookup_delete_Some ?]%map_lookup_filter_Some.
      by apply map_lookup_filter_Some.
Qed.

(** The other keys of a history recorded since. *)
Definition others_since h k t : gset string := list_to_set (map fst (List.filter (λ e, (t <=? snd e) && negb (String.eqb (fst e) k)) h)).
Lemma elem_of_others h k t k' : k' ∈ others_since h k t ↔ k' ≠ k ∧ ∃ t', (k', t') ∈ h ∧ t <= t'.
Proof.
  unfold others_since. rewrite elem_of_list_to_set, list_elem_of_fmap. setoid_rewrite elem_of_filter_List. split.
  - intros ([a b] & -> & Hin & Hp). bool_hyps. cbn in *. split; [done|]. by exists b.
  - intros (Hne & t' & Hin & Hle). exists (k', t'). split_and!; [done..|]. cbn. apply andb_true_intro. split; [by apply Z.leb_le|].
    by apply negb_true_iff, String.eqb_neq.
Qed.

(** What the table holds of a history, newest first: nothing else, and every
    key but those expired or crowded out. *)
Record Inv (d : Deduper) h (last : Time) : Prop := {
  inv_seen : ∀ k t, seen d !! k = Some t → (k, t) ∈ h;
  inv_past : ∀ k t, (k, t) ∈ h → 0 < t <= last;
  inv_kept : ∀ k t, (k, t) ∈ h →
    (∃ t', seen d !! k = Some t' ∧ t <= t') ∨ ttl d <= last - t ∨ max_ d <= Z.of_nat (size (others_since h k t));
  inv_size : Z.of_nat (size (seen d)) <= max_ d;
  inv_max : 1 <= max_ d;
}.

Lemma expired_spec d now at_ : int64 (ttl d) → at_ <= now → expired d now at_ = true ↔ ttl d <= now - at_.
Proof. unfold expired, Sub, int64, MinInt64, MaxInt64. rewrite Z.leb_le. lia. Qed.
Lemma fresh_spec d now at_ : int64 (ttl d) → at_ <= now → (Sub now at_ <? ttl d) = negb (expired d now at_).
Proof. intros. unfold expired. by rewrite Z.ltb_antisym. Qed.

Lemma evict_lookup d now k t : seen (evict d now) !! k = Some t → seen d !! k = Some t.
Proof.
  unfold evict. cbn. intros Hk. eapply lookup_weaken in Hk; [|apply evict_oldest_sub]. by apply map_lookup_filter_Some in Hk as [??].
Qed.

Lemma evict_room d now : 1 <= max_ d → Z.of_nat (size (seen (evict d now))) < max_ d.
Proof. intros. unfold evict. cbn. by apply evict_oldest_size. Qed.

(** Recording a key. *)
Lemma record_inv d h last now key : int64 (ttl d) → last <= now → 0 < now → Inv d h last →
  (∀ t, seen d !! key = Some t → ttl d <= now - t) →
  let d' := evict (set_seen d (delete key (seen d))) now in
  Inv (set_seen d' (<[key := now]> (seen d'))) ((key, now) :: h) now.
Proof.
  intros Httl Hlast Hnow [Hseen Hpast Hkept Hsize Hmax] Hold d'.
  assert (∀ k t, seen d' !! k = Some t → k ≠ key ∧ seen d !! k = Some t) as Hd'.
  { intros k t Hk%evict_lookup. cbn in Hk. apply lookup_delete_Some in Hk as [??]. done. }
  constructor; cbn [seen ttl max_ set_seen]; change (max_ d') with (max_ d); change (ttl d') with (ttl d).
  - intros k t [[<- <-]|[Hne Hk]]%lookup_insert_Some; [by left|]. apply Hd' in Hk as [_ Hk]. right. by apply Hseen.
  - intros k t [[= -> ->]|Hk]%elem_of_cons; [lia|]. apply Hpast in Hk. lia.
  - intros k t [[= -> ->]|Hk]%elem_of_cons; [left; exists now; by rewrite lookup_insert_eq|].
    assert (max_ d <= Z.of_nat (size (others_since h k t)) → max_ d <= Z.of_nat (size (others_since ((key, now) :: h) k t))) as Hmono.
    { intros. assert (others_since h k t ⊆ others_since ((key, now) :: h) k t) as Hs%subseteq_size; [|lia].
      intros k'. rewrite !elem_of_others. intros (? & t' & ? & ?). split; [done|]. exists t'. split; [by right|done]. }
    destruct (decide (k = key)) as [->|Hne].
    { left. exists now. rewrite lookup_insert_eq. split; [done|]. apply Hpast in Hk. lia. }
    destruct (Hkept k t Hk) as [(t' & Ht' & Hle)|[?|?]]; [|right; left; lia|right; right; auto].
    destruct (seen d' !! k) as [u|] eqn:Hu.
    { left. exists u. rewrite lookup_insert_ne by done. split; [done|]. apply Hd' in Hu as [_ Hu]. congruence. }
    right. destruct (decide (ttl d <= now - t)) as [|Hlive]; [by left|]. right.
    set (live := filter (λ e : string * Time, expired (set_seen d (delete key (seen d))) now (snd e) = false) (delete key (seen d))) in *.
    assert (∀ k0 t0, live !! k0 = Some t0 → k0 ≠ key ∧ seen d !! k0 = Some t0 ∧ 0 < t0 <= last) as Hlv.
    { intros k0 t0 [[? Hk0]%lookup_delete_Some _]%map_lookup_filter_Some. split_and!; [done..| |]; apply Hseen, Hpast in Hk0; lia. }
    assert (live !! k = Some t') as Hlk.
    { apply map_lookup_filter_Some. split; [by rewrite lookup_delete_ne|]. apply not_true_iff_false.
      pose proof (Hseen _ _ Ht') as Hin%Hpast. rewrite expired_spec by (done || cbn; lia). cbn. lia. }
    pose proof (evict_oldest_dropped (size live) (max_ d) live k t' ltac:(intros ?? (_ & _ & ?)%Hlv; lia) ltac:(done) Hlk Hu) as Hm.
    etrans; [exact Hm|]. apply inj_le.
    transitivity (size (dom (filter (λ e : string * Time, t' <= snd e) live) ∖ {[k]} ∪ {[key]})).
    { rewrite size_union by (apply disjoint_singleton_r; intros [[t0 Ht0]%elem_of_dom _]%elem_of_difference;
        apply map_lookup_filter_Some in Ht0 as [(? & _)%Hlv _]; done).
      rewrite size_singleton, size_difference by (apply singleton_subseteq_l, elem_of_dom; exists t'; by apply map_lookup_filter_Some).
      rewrite size_singleton, size_dom. lia. }
    apply subseteq_size. intros k0 Hk0. apply elem_of_others.
    apply elem_of_union in Hk0 as [[[t0 [Ht0 Hge]%map_lookup_filter_Some]%elem_of_dom Hne0]%elem_of_difference|Hk0].
    + split; [set_solver|]. exists t0. apply Hlv in Ht0 as (_ & Ht0 & _). split; [right; by apply Hseen|]. cbn in Hge. lia.
    + apply elem_of_singleton in Hk0 as ->. split; [done|]. exists now. split; [by left|]. apply Hpast in Hk. lia.
  - pose proof (evict_room (set_seen d (delete key (seen d))) now Hmax) as Hr.
    change (Z.of_nat (size (seen d')) < max_ d) in Hr. rewrite map_size_insert. generalize (size (seen d')) as n, (seen d' !! key) as o, Hr. clear. intros n [t|] Hr; cbn; lia.
  - done.
Qed.

Lemma Seen_inv d h last now key : int64 (ttl d) → last <= now → 0 < now → Inv d h last →
  let '(dup, d') := Seen d now key in
  Inv d' (if dup then h else (key, now) :: h) now ∧
  (dup = false → ∀ t, (key, t) ∈ h → ttl d <= now - t ∨ max_ d <= Z.of_nat (size (others_since h key t))) ∧
  ttl d' = ttl d ∧ max_ d' = max_ d.
Proof.
  intros Httl Hlast Hnow HI. pose proof HI as [Hseen Hpast Hkept Hsize Hmax]. unfold Seen.
  assert (∀ t, (key, t) ∈ h → (∀ t', seen d !! key = Some t' → ttl d <= now - t') →
    ttl d <= now - t ∨ max_ d <= Z.of_nat (size (others_since h key t))) as Hpass.
  { intros t Hk Hold. destruct (Hkept key t Hk) as [(t' & Ht' & Hle)|[?|?]]; [|left; lia|by right].
    apply Hold in Ht'. left. lia. }
  destruct (seen d !! key) as [t|] eqn:Ek.
  - pose proof (Hpast key t (Hseen _ _ Ek)) as Hrange. rewrite fresh_spec by (done || lia).
    destruct (expired d now t) eqn:Ex; cbn [negb].
    + apply expired_spec in Ex; [|done|lia]. split_and!; [|naive_solver|done|done].
      apply (record_inv d h last now key); [done..|]. intros ?. rewrite Ek. by intros [= <-].
    + split_and!; [|done..]. constructor; [done| | |done..].
      * intros k t' Hk%Hpast. lia.
      * intros k t' Hk. destruct (Hkept k t' Hk) as [?|[?|?]]; [by left|right; left; lia|by right; right].
  - split_and!; [|naive_solver|done|done].
    pose proof (record_inv d h last now key) as Hr. rewrite (delete_id (seen d) key Ek) in Hr.
    replace (set_seen d (seen d)) with d in Hr by by destruct d. apply Hr; [done..|]. by rewrite Ek.
Qed.

(** ** The endpoint *)

Context `{EventDecoder, GoUnicode}.

(** The key of a delivery whose payload is read. *)
Definition key_of (r : Request) : option string :=
  match ParseEvent (EventHeader r) (BodyText r) with Ok ev => Some (DedupeKey (UUID r) ev) | Err _ => None end.

(** The conditions a delivery meets before it is compared with earlier ones. *)
Definition authentic (h : Handler) (r : Request) (ev : Event.Event) : Prop :=
  Method r = "POST" ∧ Token r ≠ "" ∧ Token r ∈ secrets (hd_Verifier h) ∧ isJSON (ContentType r) = true ∧
  EventHeader r ∈ handledEvents ∧ len (BodyText r) <= MaxBodyBytes ∧ BodyErr r = false ∧
  ParseEvent (EventHeader r) (BodyText r) = Ok ev.

(** The identifier a delivery is recorded under. *)
Definition delivery_id (r : Request) (ev : Event.Event) : string :=
  if String.eqb (safeDeliveryID (UUID r)) "" then safeDeliveryID (DedupeKey (UUID r) ev) else safeDeliveryID (UUID r).

Lemma len_zero (s : string) : len s = 0 ↔ s = "".
Proof. destruct s; unfold len; cbn; split; intros; try done; lia. Qed.

Lemma Verify_none v token : Verify v token = None ↔ token ≠ "" ∧ token ∈ secrets v.
Proof.
  unfold Verify. destruct (Z.eqb_spec (len token) 0) as [E|E].
  { apply len_zero in E. split; [done|naive_solver]. }
  rewrite len_zero in E.
  assert (∀ l ok, ok = 0 ∨ ok = 1 → let r := fold_left (λ ok x, Z.lor ok (ConstantTimeCompare token x)) l ok in
    (r = 0 ∨ r = 1) ∧ (r = 1 ↔ ok = 1 ∨ token ∈ l)) as Hf.
  { induction l as [|x l IH]; intros ok Hok; cbn [fold_left].
    { split; [done|]. split; [by left|]. by intros [?|?%elem_of_nil]. }
    assert (Z.lor ok (ConstantTimeCompare token x) = if String.eqb token x then 1 else ok) as ->
      by (unfold ConstantTimeCompare; destruct (String.eqb _ _), Hok as [->| ->]; done).
    rewrite elem_of_cons. destruct (String.eqb_spec token x) as [<-|Hne].
    - destruct (IH 1 ltac:(by right)) as [Ha Hb]. split; [done|]. rewrite Hb. naive_solver.
    - destruct (IH ok Hok) as [Ha Hb]. split; [done|]. rewrite Hb. naive_solver. }
  destruct (Hf (secrets v) 0 ltac:(by left)) as [_ Hr]. cbn zeta in Hr.
  destruct (Z.eqb_spec (fold_left (λ ok x, Z.lor ok (ConstantTimeCompare token x)) (secrets v) 0) 1) as [E1|E1]; cbn [negb].
  - split; [|done]. intros _. split; [done|]. apply Hr in E1 as [?|?]; done.
  - split; [done|]. intros [_ Hin]. destruct E1. apply Hr. by right.
Qed.

(** What becomes of a delivery that is not authentic, and of one that is. *)
Lemma ServeHTTP_cases (h : Handler) now room r :
  let '(resp, sent, h') := ServeHTTP h now room r in
  (sent = None ∧ h' = h ∧ (∀ ev, ¬ authentic h r ev) ∧
     snd (Observed resp) ∉ [OutcomeAccepted; OutcomeDuplicate; OutcomeBotAuthored; OutcomeQueueFull]) ∨
  ∃ ev, authentic h r ev ∧
    let key := DedupeKey (UUID r) ev in
    let '(dup, d) := Seen (hd_Deduper h) now key in
    let own := UserID (EvUser ev) =? BotUserID h in
    h' = set_Deduper h d ∧
    sent = (if dup || own then None else Some (set_DeliveryID ev (delivery_id r ev))) ∧
    snd (Observed resp) = (if dup then OutcomeDuplicate else if own then OutcomeBotAuthored
                           else if room then OutcomeAccepted else OutcomeQueueFull).
Proof.
  unfold ServeHTTP. destruct (String.eqb_spec (Method r) "POST") as [Hm|Hm]; cbn [negb].
  2: { left. split_and!; [done..|by intros ev (? & _)|by vm_compute; set_solver]. }
  pose proof (Verify_none (hd_Verifier h) (Token r)) as Hv. destruct (Verify _ _) as [e|].
  { destruct e; left; (split_and!; [done..| |set_solver]); intros ev (_ & Ht & Hin & _); destruct Hv as [_ Hv]; by specialize (Hv (conj Ht Hin)). }
  destruct (proj1 Hv eq_refl) as [Ht Hin].
  destruct (isJSON _) eqn:Hj; cbn [negb].
  2: { left. split_and!; [done..| |set_solver]. intros ev (_ & _ & _ & ? & _). congruence. }
  destruct (contains handledEvents (EventHeader r)) eqn:He; cbn [negb].
  2: { left. split_and!; [done..| |set_solver]. intros ev (_ & _ & _ & _ & ? & _). by apply contains_false in He. }
  apply contains_elem in He. destruct (Z.ltb_spec MaxBodyBytes (len (BodyText r))).
  { left. split_and!; [done..| |set_solver]. intros ev (_ & _ & _ & _ & _ & ? & _). lia. }
  destruct (BodyErr r) eqn:Hb.
  { left. split_and!; [done..| |set_solver]. intros ev (_ & _ & _ & _ & _ & _ & ? & _). congruence. }
  destruct (ParseEvent _ _) as [ev|e] eqn:Ep.
  2: { left. split_and!; [done..| |set_solver]. intros ev (_ & _ & _ & _ & _ & _ & _ & ?). congruence. }
  destruct (Seen _ _ _) as [dup d] eqn:Es.
  cbn zeta beta. cbn [EvUser set_DeliveryID set_Deduper BotUserID]. destruct dup; [|destruct (UserID (EvUser ev) =? BotUserID h) eqn:Eb; [|destruct room]];
    right; exists ev; (split; [by split_and!|]); rewrite Es; try rewrite Eb; done.
Qed.

(** A delivery is given to the dispatcher exactly when it is a POST with one of
    the configured secrets, JSON, of a handled kind, of at most a mebibyte, read
    whole and well formed, not a repeat the table knows, and not written by the
    bot; whatever is dropped before the comparison leaves the handler as it was,
    and a full queue alone answers 503. *)
Theorem delivered_exact (h : Handler) now room r :
  let '(resp, sent, h') := ServeHTTP h now room r in
  (∀ ev, sent = Some ev ↔ ∃ ev0, authentic h r ev0 ∧ fst (Seen (hd_Deduper h) now (DedupeKey (UUID r) ev0)) = false ∧
     UserID (EvUser ev0) ≠ BotUserID h ∧ ev = set_DeliveryID ev0 (delivery_id r ev0)) ∧
  (snd (Observed resp) = OutcomeAccepted ↔ is_Some sent ∧ room = true) ∧
  (snd (Observed resp) = OutcomeQueueFull ↔ is_Some sent ∧ room = false) ∧
  (h' ≠ h → ∃ ev0, authentic h r ev0).
Proof.
  pose proof (ServeHTTP_cases h now room r) as Hc. destruct (ServeHTTP h now room r) as [[resp sent] h'].
  destruct Hc as [(-> & -> & Hno & Ho)|(ev0 & Ha & Hc)].
  - split_and!; [|split; [intros E; exfalso; rewrite E in Ho; set_solver|by intros [[]]]..|done].
    intros ev. split; [done|]. intros (ev0 & Ha & _). by apply Hno in Ha.
  - assert (∀ ev, authentic h r ev → ev = ev0) as Hu.
    { intros ev (_ & _ & _ & _ & _ & _ & _ & E). destruct Ha as (_ & _ & _ & _ & _ & _ & _ & E'). congruence. }
    cbn zeta in Hc. destruct (Seen (hd_Deduper h) now (DedupeKey (UUID r) ev0)) as [dup d] eqn:Es. destruct Hc as (-> & -> & Ho).
    split_and!; [|rewrite Ho; destruct dup, (Z.eqb_spec (UserID (EvUser ev0)) (BotUserID h)), room; cbn;
      (split; [try done; by intros _; split; [eexists|]|by intros [[? ?] ?]])..|by intros _; exists ev0].
    intros ev. split.
    + destruct dup, (Z.eqb_spec (UserID (EvUser ev0)) (BotUserID h)); cbn; try done. intros [= <-]. exists ev0. rewrite Es. done.
    + intros (ev1 & Ha1 & Hd & Hb & ->). apply Hu in Ha1 as ->. rewrite Es in Hd. cbn in Hd. subst dup.
      destruct (Z.eqb_spec (UserID (EvUser ev0)) (BotUserID h)); done.
Qed.

(** The endpoint over a sequence of deliveries, with what it let past the
    comparison, newest first. *)
Definition passed (o : Outcome) : bool := match o with OutcomeAccepted | OutcomeBotAuthored | OutcomeQueueFull => true | _ => false end.
Definition serve_step (st : Handler * list (string * Time)) (x : Time * bool * Request) : Handler * list (string * Time) :=
  let '(now, room, r) := x in
  let '(resp, _, h') := ServeHTTP (fst st) now room r in
  (h', match key_of r with
       | Some k => if passed (snd (Observed resp)) then (k, now) :: snd st else snd st
       | None => snd st
       end).
Definition serve (h : Handler) (xs : list (Time * bool * Request)) : Handler * list (string * Time) := fold_left serve_step xs (h, []).

(** Clock readings that never go back. *)
Definition readings (xs : list (Time * bool * Request)) : list Time := map (λ x, fst (fst x)) xs.
Definition clock_ok (ts : list Time) : Prop := StronglySorted Z.le ts ∧ ∀ t, t ∈ ts → 0 < t.

Lemma serve_inv v bot ttl0 max xs : int64 ttl0 → clock_ok (readings xs) → ∀ h : Handler, NewHandler v (NewDeduper ttl0 max) bot = Ok h →
  let '(h', log) := serve h xs in
  Inv (hd_Deduper h') log (List.last (readings xs) 0) ∧ ttl (hd_Deduper h') = ttl0 ∧ max_ (hd_Deduper h') = Z.max 1 max.
Proof.
  intros Httl. induction xs as [|[[now room] r] xs IH] using rev_ind; intros Hclock h Hh.
  { cbn. unfold NewHandler in Hh. destruct (_ <=? _); [done|]. injection Hh as <-. cbn.
    assert ((if max <? 1 then 1 else max) = Z.max 1 max) as Hm by (destruct (Z.ltb_spec max 1); lia).
    split_and!; [|done|done]. constructor; cbn; rewrite ?Hm; try lia.
    - intros k t. by rewrite lookup_empty.
    - by intros k t ?%elem_of_nil.
    - by intros k t ?%elem_of_nil.
    - rewrite map_size_empty. lia. }
  unfold readings in *. rewrite map_app in *. cbn [map fst] in *. destruct Hclock as [Hs Hp].
  assert (clock_ok (map (λ x, fst (fst x)) xs)) as Hc by (split; [by eapply StronglySorted_app_1_l|intros t Ht; apply Hp, elem_of_app; by left]).
  specialize (IH Hc h Hh). unfold serve in *. rewrite fold_left_app. cbn [fold_left]. destruct (fold_left serve_step xs (h, [])) as [h1 log].
  destruct IH as (HI & Ht & Hm). rewrite List.last_last. cbn [serve_step fst snd].
  assert (List.last (map (λ x, fst (fst x)) xs) 0 <= now) as Hlast.
  { destruct (decide (map (λ x : Time * bool * Request, fst (fst x)) xs = [])) as [->|Hne]; [cbn; specialize (Hp now); rewrite elem_of_app in Hp; set_solver by lia|].
    eapply (StronglySorted_app_1_elem_of Z.le); [exact Hs| |by left]. apply list_elem_of_In. rewrite (List.app_removelast_last 0 Hne) at 2. apply in_app_iff. right. by left. }
  assert (0 < now) as Hnow by (apply Hp, elem_of_app; right; by left).
  pose proof (ServeHTTP_cases h1 now room r) as Hcases. destruct (ServeHTTP h1 now room r) as [[resp sent] h2].
  destruct Hcases as [(-> & -> & Hno & Ho)|(ev & Ha & Hcase)].
  - replace (match key_of r with Some k => _ | None => _ end) with log.
    2: { destruct (key_of r); [|done]. by destruct (snd (Observed resp)); cbn; try done; destruct Ho; set_solver. }
    split_and!; [|done..]. destruct HI as [Hseen Hpast Hkept Hsize Hmax]. constructor; [done| | |done..].
    + intros k t Hk%Hpast. lia.
    + intros k t Hk. destruct (Hkept k t Hk) as [?|[?|?]]; [by left|right; left; lia|by right; right].
  - unfold key_of. rewrite (proj2 (proj2 (proj2 (proj2 (proj2 (proj2 (proj2 Ha))))))). cbn zeta in Hcase.
    pose proof (Seen_inv (hd_Deduper h1) log _ now (DedupeKey (UUID r) ev) ltac:(by rewrite Ht) Hlast Hnow HI) as Hseen.
    destruct (Seen _ _ _) as [dup d]. destruct Hcase as (-> & _ & ->). destruct Hseen as (HI' & _ & Ht' & Hm'). cbn.
    rewrite Ht', Hm'. split_and!; [|done..]. destruct dup; [done|]. by destruct (_ =? _); [|destruct room].
Qed.

(** C27. Whatever deliveries came before: the table holds no more than its maximum,
    and a delivery given to the dispatcher is none that passed less than the
    time-to-live ago, unless as many other deliveries as the table holds have
    passed since. *)
Theorem delivered_once v bot ttl0 max (h : Handler) xs now room r k t :
  int64 ttl0 → clock_ok (readings xs ++ [now]) → NewHandler v (NewDeduper ttl0 max) bot = Ok h →
  let '(h', log) := serve h xs in
  Z.of_nat (size (seen (hd_Deduper h'))) <= Z.max 1 max ∧
  (key_of r = Some k → (k, t) ∈ log → now - t < ttl0 → is_Some (snd (fst (ServeHTTP h' now room r))) →
   Z.max 1 max <= Z.of_nat (size (others_since log k t))).
Proof.
  intros Httl [Hs Hp] Hh.
  pose proof (serve_inv v bot ttl0 max xs Httl) as HI.
  specialize (HI ltac:(split; [by eapply StronglySorted_app_1_l|intros ? ?; apply Hp, elem_of_app; by left]) h Hh).
  destruct (serve h xs) as [h' log]. destruct HI as (HI & Ht & Hm). split; [rewrite <- Hm; apply HI|].
  intros Hk Hin Hlive Hsent. rewrite <- Hm.
  assert (List.last (readings xs) 0 <= now) as Hlast.
  { destruct (decide (readings xs = [])) as [->|Hne]; [cbn; specialize (Hp now); rewrite elem_of_app in Hp; set_solver by lia|].
    eapply (StronglySorted_app_1_elem_of Z.le); [exact Hs| |by left]. apply list_elem_of_In. rewrite (List.app_removelast_last 0 Hne) at 2. apply in_app_iff. right. by left. }
  assert (0 < now) as Hnow by (apply Hp, elem_of_app; right; by left).
  pose proof (ServeHTTP_cases h' now room r) as Hcases. destruct (ServeHTTP h' now room r) as [[resp sent] h2]. cbn in Hsent.
  destruct Hcases as [(-> & _)|(ev & Ha & Hcase)]; [by destruct Hsent|].
  unfold key_of in Hk. rewrite (proj2 (proj2 (proj2 (proj2 (proj2 (proj2 (proj2 Ha))))))) in Hk. injection Hk as <-.
  pose proof (Seen_inv (hd_Deduper h') log _ now (DedupeKey (UUID r) ev) ltac:(by rewrite Ht) Hlast Hnow HI) as Hseen.
  cbn zeta in Hcase. destruct (Seen _ _ _) as [dup d]. destruct Hcase as (_ & -> & _). destruct dup; [by destruct Hsent|].
  destruct Hseen as (_ & Hpass & _). destruct (Hpass eq_refl t Hin) as [?|?]; [lia|done].
Qed.
End dedupe_facts.

(** A record carries nothing of the request but printable text of bounded
    length. *)
Lemma safeDeliveryID_safe v :
  all_bytes (in_range 32 126) (safeDeliveryID v) = true ∧ len (safeDeliveryID v) <= maxDeliveryIDBytes.
Proof.
  unfold safeDeliveryID. set (u := if _ <? _ then _ else v). split.
  - rewrite all_bytes_list, String.list_ascii_of_string_of_list_ascii. apply forallb_forall. intros c Hc.
    apply in_map_iff in Hc as (x & <- & _). unfold safe_byte. destruct (_ || _) eqn:E; [done|]. bool_hyps.
    unfold in_range. apply andb_true_intro. split; apply Z.leb_le; lia.
  - unfold len. rewrite string_of_list_length, length_map.
    assert (∀ s, length (String.list_ascii_of_string s) = String.length s) as -> by (induction s as [|c s IH]; simpl; congruence).
    subst u. unfold maxDeliveryIDBytes. destruct (Z.ltb_spec 64 (len v)) as [|Hle]; [|unfold len in Hle; lia].
    rewrite substring_0_length; [lia|]. unfold len in *. lia.
Qed.

(** ** Examples *)

Definition example_raw : rawEvent :=
  mkRaw "pipeline" (mkProject 75 "group/app" "main" "https://git.example/group/app") (mkUser 7 "dev")
    (mkRawAttrs 1001 5 "" "" "" "" "" "" "" "" "" "main" false "0123456789abcdef0123456789abcdef01234567" "push" "failed")
    0 None.
Definition example_decoder : EventDecoder := {| unmarshal_event := λ _, Ok example_raw |}.
Definition example_secret : string := "0123456789abcdef0123456789abcdef".
Definition example_request (uuid : string) : Request :=
  mkRequest "POST" example_secret "application/json; charset=utf-8" "Pipeline Hook" uuid "{}" false.
Definition example_handler : Handler := mkHandler (mkVerifier [example_secret]) (NewDeduper (10 * Minute) 1) 99.

Example endpoint_examples :
  match payload example_raw KindPipeline with Ok ev => DedupeKey "" ev | Err _ => "" end = "derived:20e98776829f2903" ∧
  snd (Observed (fst (fst (@ServeHTTP range_canonical example_decoder ascii_unicode example_handler 5 true (example_request "a"))))) = OutcomeAccepted ∧
  Code (fst (fst (@ServeHTTP range_canonical example_decoder ascii_unicode example_handler 5 false (example_request "a")))) = 503 ∧
  safeDeliveryID ("a" +:+ String (Ascii.ascii_of_nat 10) "b") = "a?b" ∧
  NewVerifier [""; "short"] = Err (ErrShortSecret 1 5) ∧ NewVerifier [""; ""] = Err ErrNoSecret.
Proof. vm_compute. done. Qed.

Lemma delivered_once_witness :
  let log : list (string * Time) := snd (@serve range_canonical example_decoder ascii_unicode example_handler [(5, true, example_request "a"); (6, true, example_request "b")]) in
  1 <= Z.of_nat (size (others_since log "uuid:a" 5)).
Proof.
  refine (proj2 (@delivered_once range_canonical example_decoder ascii_unicode (mkVerifier [example_secret]) 99 (10 * Minute) 1 example_handler
    [(5, true, example_request "a"); (6, true, example_request "b")] 7 true (example_request "a") "uuid:a" 5 _ _ _) _ _ _ _).
  - vm_compute. split; discriminate.
  - split; [repeat constructor; by vm_compute|]. intros t Ht. apply list_elem_of_In in Ht. destruct Ht as [<-|[<-|[<-|[]]]]; done.
  - reflexivity.
  - vm_compute. reflexivity.
  - vm_compute. by right; left.
  - by vm_compute.
  - vm_compute. by eexists.
Defined.
