(* ===== verification/Trajectory.v ===== *)
(** * [pkg/trace]: what a session was seen to do, and whether that rejects it

    The verdict on a session's tool calls ([trace.go], [verdict.go],
    [policy_load.go]) and its one caller ([cmd/gonk-gate/broker_trajectory.go]).
    Reading the agent's policy file is a result handed in; the log lines of the
    caller are left out, except the field it prints tool names in. *)

From Stdlib Require Import Ascii.
From S2P Require Import Prelude.
From S2P Require Import GoStrings.
From S2P Require Import GoPath.
From S2P Require Import Effects.

(** ** Evidence ([trace.go]) *)

Definition Complete : string := "complete".
Definition Partial : string := "partial".
Definition Absent : string := "absent".
Definition Valid (c : string) : bool := contains [Complete; Partial; Absent] c.

Record Call := mkCall { Tool : string; CallTarget : string }.
Record Trace := mkTrace {
  SessionKey : string;
  Attempt : Z;
  BeadID : string;
  Project : string;
  Completeness : string;
  Calls : list Call;
  Turns : Z;
}.

(** [m[c.Tool]++] for every call. *)
Definition count_call (m : gmap string Z) (c : Call) : gmap string Z := <[Tool c := default 0 (m !! Tool c) + 1]> m.
Definition ToolCounts (t : Trace) : gmap string Z := fold_left count_call (Calls t) ∅.
Definition Tools (t : Trace) : list string := sorted_keys (ToolCounts t).
Definition Observed (t : Trace) : bool := String.eqb (Completeness t) Complete || String.eqb (Completeness t) Partial.

(** ** The verdict ([verdict.go]) *)

Inductive Outcome := OutcomeSatisfied | OutcomeViolated | OutcomeUnobserved | OutcomeNoPolicy.
Definition outcome_text (o : Outcome) : string :=
  match o with
  | OutcomeSatisfied => "satisfied" | OutcomeViolated => "violated"
  | OutcomeUnobserved => "unobserved" | OutcomeNoPolicy => "no-policy"
  end.
Record Verdict := mkVerdict { vd_Outcome : Outcome; Reason : string }.
Definition Rejects (v : Verdict) : bool := match vd_Outcome v with OutcomeViolated => true | _ => false end.

Record Policy := mkPolicy {
  RequiredTools : list string;
  ForbiddenTools : list string;
  MinCalls : gmap string Z;
  RequireTargetReadFor : list string;
  RequireAnyReadFor : list string;
  ReadTools : list string;
}.
Definition Empty (p : Policy) : bool :=
  (length (RequiredTools p) =? 0)%nat && (length (ForbiddenTools p) =? 0)%nat && (size (MinCalls p) =? 0)%nat &&
  (length (RequireTargetReadFor p) =? 0)%nat && (length (RequireAnyReadFor p) =? 0)%nat.

Record Input := mkInput { in_Trace : Trace; in_Verdict : string; in_Target : string }.

Definition effectiveVerdict (v : string) : string := if String.eqb v "" then "reply-only" else v.

Definition TrimPrefix (s p : string) : string := if HasPrefix s p then string_drop (String.length p) s else s.
Definition readAnything (t : Trace) (readTools : list string) : bool :=
  existsb (λ c, (length readTools =? 0)%nat || contains readTools (Tool c)) (Calls t).

Section classify.
Context `{GoUnicode}.

Definition path_named (target : string) : string := TrimPrefix (TrimSpace target) "./".
Definition names_target (want : string) (c : Call) : bool :=
  let got := path_named (CallTarget c) in
  if String.eqb got "" then false else String.eqb got want || HasSuffix got ("/" +:+ want).
Definition readTarget (t : Trace) (readTools : list string) (target : string) : bool :=
  let want := path_named target in
  if String.eqb want "" then false
  else existsb (λ c, if (0 <? length readTools)%nat && negb (contains readTools (Tool c)) then false else names_target want c) (Calls t).

Definition Classify (in_ : Input) (p : Policy) : Verdict :=
  let t := in_Trace in_ in
  let violated reason := mkVerdict OutcomeViolated reason in
  if Empty p then mkVerdict OutcomeNoPolicy "no trajectory predicates declared for this agent"
  else if negb (Observed t) then
    mkVerdict OutcomeUnobserved "no trajectory evidence for this session; refusing to judge what we did not observe"
  else
    let counts := ToolCounts t in
    let count tool := default 0 (counts !! tool) in
    match List.find (λ tool, 0 <? count tool) (ForbiddenTools p) with
    | Some tool => violated ("forbidden tool was used: " +:+ tool)
    | None =>
    if String.eqb (Completeness t) Partial then
      mkVerdict OutcomeUnobserved "trajectory evidence is partial; absence of a tool call is not evidence it did not happen"
    else
    match List.find (λ tool, count tool =? 0) (RequiredTools p) with
    | Some tool => violated ("required tool was never used: " +:+ tool)
    | None =>
    match List.find (λ tool, count tool <? default 0 (MinCalls p !! tool)) (sorted_keys (MinCalls p)) with
    | Some tool => violated ("tool " +:+ tool +:+ " was used fewer times than required")
    | None =>
    let verdict := effectiveVerdict (in_Verdict in_) in
    if contains (RequireAnyReadFor p) verdict && negb (readAnything t (ReadTools p)) then
      violated ("verdict " +:+ verdict +:+ " produces no artifact, and this session read nothing")
    else if negb (String.eqb (in_Target in_) "") && contains (RequireTargetReadFor p) verdict
            && negb (readTarget t (ReadTools p) (in_Target in_)) then
      violated ("verdict " +:+ verdict +:+ " requires an observed read of " +:+ in_Target in_ +:+ ", and none was seen")
    else mkVerdict OutcomeSatisfied "all declared trajectory predicates held"
    end end end.

(** ** Its caller ([broker_trajectory.go]) *)

Definition pipelineAgent : string := "pipeline".

Definition trajectoryClaim (agent : string) (batch : Batch) : string :=
  match List.find (λ e, String.eqb (e_Kind e) KindDiagnosis) (b_Effects batch) with
  | Some e => if String.eqb agent pipelineAgent then Classification e else EffectiveVerdict batch
  | None => EffectiveVerdict batch
  end.

(** What the meter hands back ([meterapi.TraceView]). *)
Record TraceView := mkTraceView {
  tv_SessionKey : string; tv_Attempt : Z; tv_BeadID : string; tv_Project : string;
  tv_Completeness : string; tv_Calls : list Call; tv_Turns : Z }.

(** [load] is what [LoadPolicy] answered for the agent, [meter] the meter's
    answer, [None] without a meter. *)
Definition checkTrajectory (meter : option (result string (option TraceView))) (sessionKey : string)
    (load : result string Policy) (enforce : bool) (agent : string) (batch : Batch) : string :=
  match meter with
  | None => ""
  | Some reply =>
      if String.eqb sessionKey "" then ""
      else match load with
      | Err _ => ""
      | Ok policy =>
          if Empty policy then ""
          else match reply with
          | Err _ | Ok None => ""
          | Ok (Some view) =>
              let tr := mkTrace (tv_SessionKey view) (tv_Attempt view) "" "" (tv_Completeness view) (tv_Calls view) (tv_Turns view) in
              let verdict := Classify (mkInput tr (trajectoryClaim agent batch) "") policy in
              if negb (Rejects verdict) then ""
              else if negb enforce then ""
              else "trajectory: " +:+ Reason verdict
          end
      end
  end.
End classify.

(** ** The tool names as a log field *)

Definition maxLoggedToolNames : nat := 24.
Definition role_byte (c : ascii) : ascii :=
  if in_range 97 122 c || in_range 65 90 c || in_range 48 57 c || (byte_val c =? 95) || (byte_val c =? 45) then c else ".".
Definition sanitizeRole (s : string) : string :=
  let s := if 24 <? len s then String.substring 0 24 s else s in
  String.string_of_list_ascii (map role_byte (String.list_ascii_of_string s)).
Definition toolNamesAttr (tr : Trace) : string :=
  let names := Tools tr in
  let extra := Z.of_nat (length names) - Z.of_nat maxLoggedToolNames in
  let parts := map sanitizeRole (take maxLoggedToolNames names) in
  Join (if 0 <? extra then parts ++ ["+" +:+ itoa extra +:+ "-more"] else parts) ",".

(** ** What is counted *)

Definition uses (t : Trace) (tool : string) : Z := Z.of_nat (length (List.filter (λ c, String.eqb (Tool c) tool) (Calls t))).

Lemma ToolCounts_uses t tool : default 0 (ToolCounts t !! tool) = uses t tool.
Proof.
  unfold ToolCounts, uses. induction (Calls t) as [|c l IH] using rev_ind; [done|].
  rewrite fold_left_app, List.filter_app, length_app. cbn [fold_left List.filter]. unfold count_call at 1.
  destruct (String.eqb_spec (Tool c) tool) as [<-|Hne]; cbn [length].
  - rewrite lookup_insert_eq. cbn [default]. unfold id in *. rewrite IH. lia.
  - rewrite lookup_insert_ne by done. rewrite IH. lia.
Qed.

Lemma uses_pos t tool : 0 < uses t tool ↔ ∃ c, c ∈ Calls t ∧ Tool c = tool.
Proof.
  unfold uses. rewrite <- Nat2Z.inj_0, <- Nat2Z.inj_lt. split.
  - destruct (List.filter _ _) as [|c l] eqn:E; simpl; [lia|]. intros _. exists c.
    assert (c ∈ List.filter (λ c, String.eqb (Tool c) tool) (Calls t)) as Hc by (rewrite E; by left).
    apply elem_of_filter_List in Hc as [? ?]. by bool_hyps.
  - intros (c & Hc & <-). assert (c ∈ List.filter (λ x, String.eqb (Tool x) (Tool c)) (Calls t)) as Hf
      by (apply elem_of_filter_List; by rewrite String.eqb_refl).
    destruct (List.filter _ _); [by apply elem_of_nil in Hf|simpl; lia].
Qed.

Lemma Tools_exact t tool : tool ∈ Tools t ↔ ∃ c, c ∈ Calls t ∧ Tool c = tool.
Proof.
  unfold Tools. rewrite elem_of_sorted_keys, <- uses_pos, <- ToolCounts_uses.
  assert (∀ l m, (∀ k v, m !! k = Some v → 0 < v) → ∀ k v, fold_left count_call l m !! k = Some v → 0 < v) as Hp.
  { induction l as [|c l IH]; intros m Hm; [done|]. cbn [fold_left]. apply IH. unfold count_call.
    intros k v [[<- <-]|[_ ?]]%lookup_insert_Some; [|by eapply Hm]. destruct (m !! Tool c) eqn:E; cbn; [apply Hm in E; unfold id; lia|lia]. }
  split.
  - intros [v Hv]. rewrite Hv. cbn. eapply (Hp (Calls t) ∅); [|exact Hv]. intros ??. by rewrite lookup_empty.
  - destruct (ToolCounts t !! tool); [by eexists|]. cbn. lia.
Qed.

(** ** Rejection *)

Section verdicts.
Context `{GoUnicode}.

(** A requirement the whole of a session was seen not to meet. *)
Definition unmet (in_ : Input) (p : Policy) : Prop :=
  let t := in_Trace in_ in
  (∃ tool, tool ∈ RequiredTools p ∧ uses t tool = 0) ∨
  (∃ tool n, MinCalls p !! tool = Some n ∧ uses t tool < n) ∨
  (effectiveVerdict (in_Verdict in_) ∈ RequireAnyReadFor p ∧ readAnything t (ReadTools p) = false) ∨
  (in_Target in_ ≠ "" ∧ effectiveVerdict (in_Verdict in_) ∈ RequireTargetReadFor p ∧ readTarget t (ReadTools p) (in_Target in_) = false).
Definition forbidden_used (in_ : Input) (p : Policy) : Prop :=
  ∃ tool, tool ∈ ForbiddenTools p ∧ ∃ c, c ∈ Calls (in_Trace in_) ∧ Tool c = tool.

Lemma Empty_spec p : Empty p = true ↔ RequiredTools p = [] ∧ ForbiddenTools p = [] ∧ MinCalls p = ∅ ∧ RequireTargetReadFor p = [] ∧ RequireAnyReadFor p = [].
Proof.
  unfold Empty. rewrite !andb_true_iff, !length_zero, Nat.eqb_eq, map_size_empty_iff. tauto.
Qed.

Lemma forbidden_found in_ p :
  (∃ tool, List.find (λ tool, 0 <? default 0 (ToolCounts (in_Trace in_) !! tool)) (ForbiddenTools p) = Some tool) ↔ forbidden_used in_ p.
Proof.
  rewrite find_some. unfold forbidden_used. setoid_rewrite <- uses_pos. setoid_rewrite <- ToolCounts_uses.
  split; intros (tool & Hin & Hp); exists tool; (split; [done|]); by apply Z.ltb_lt.
Qed.

(** What each branch of the classifier asks. *)
Lemma Classify_spec in_ p :
  let t := in_Trace in_ in
  match vd_Outcome (Classify in_ p) with
  | OutcomeNoPolicy => Empty p = true
  | OutcomeUnobserved => Empty p = false ∧ (Observed t = false ∨ (Completeness t = Partial ∧ ¬ forbidden_used in_ p))
  | OutcomeViolated => Observed t = true ∧ (forbidden_used in_ p ∨ (Completeness t = Complete ∧ unmet in_ p))
  | OutcomeSatisfied => Empty p = false ∧ Completeness t = Complete ∧ ¬ forbidden_used in_ p ∧ ¬ unmet in_ p
  end.
Proof.
  cbn zeta. unfold Classify. destruct (Empty p) eqn:Ee; [done|]. destruct (Observed (in_Trace in_)) eqn:Eo; cbn [negb]; [|by split; [|left]].
  pose proof (forbidden_found in_ p) as Hf. destruct (List.find _ (ForbiddenTools p)) as [tool|].
  { cbn. split; [done|]. left. apply Hf. by eexists. }
  assert (¬ forbidden_used in_ p) as Hnf by (intros [? [=]]%Hf).
  destruct (String.eqb_spec (Completeness (in_Trace in_)) Partial) as [Hp|Hp]; [by split; [|right]|].
  assert (Completeness (in_Trace in_) = Complete) as Hc.
  { unfold Observed in Eo. apply orb_true_iff in Eo as [?|?]; by bool_hyps. }
  destruct (List.find _ (RequiredTools p)) as [tool|] eqn:E1.
  { cbn. split; [done|]. right. split; [done|]. left. apply List.find_some in E1 as [Hin He]. exists tool.
    rewrite list_elem_of_In. split; [done|]. rewrite <- ToolCounts_uses. by bool_hyps. }
  rewrite find_none in E1. destruct (List.find _ (sorted_keys (MinCalls p))) as [tool|] eqn:E2.
  { cbn. split; [done|]. right. split; [done|]. right; left. apply List.find_some in E2 as [Hin He].
    apply list_elem_of_In, elem_of_sorted_keys in Hin as [n Hn]. rewrite Hn in He. exists tool, n. rewrite <- ToolCounts_uses. by bool_hyps. }
  rewrite find_none in E2. destruct (contains (RequireAnyReadFor p) _ && negb _) eqn:E3.
  { cbn. split; [done|]. right. split; [done|]. right; right; left. bool_hyps. by rewrite <- contains_elem. }
  destruct (negb _ && _ && _) eqn:E4.
  { cbn. split; [done|]. right. split; [done|]. right; right; right. bool_hyps. by rewrite <- contains_elem. }
  cbn. split_and!; [done..|]. intros [(tool & Hin & Hu)|[(tool & n & Hn & Hu)|[[Hin Hr]|(Ht & Hin & Hr)]]].
  - apply E1 in Hin. rewrite ToolCounts_uses, Hu in Hin. done.
  - specialize (E2 tool ltac:(apply elem_of_sorted_keys; by exists n)). cbn in E2. rewrite ToolCounts_uses, Hn in E2. cbn in E2. bool_hyps. unfold id in E2. lia.
  - apply contains_elem in Hin. by rewrite Hin, Hr in E3.
  - apply contains_elem in Hin. apply String.eqb_neq in Ht. by rewrite Ht, Hin, Hr in E4.
Qed.

Lemma not_empty_when in_ p : forbidden_used in_ p ∨ unmet in_ p → Empty p = false.
Proof.
  intros Hu. apply not_true_iff_false. intros (H1 & H2 & H3 & H4 & H5)%Empty_spec. unfold forbidden_used, unmet in Hu.
  rewrite H1, H2, H3, H4, H5 in Hu.
  destruct Hu as [(tool & []%elem_of_nil & _)|[(tool & []%elem_of_nil & _)|[(tool & n & E & _)|[[[]%elem_of_nil _]|(_ & []%elem_of_nil & _)]]]].
  by rewrite lookup_empty in E.
Qed.

Lemma violated_iff in_ p : Rejects (Classify in_ p) = true ↔
  Observed (in_Trace in_) = true ∧ (forbidden_used in_ p ∨ (Completeness (in_Trace in_) = Complete ∧ unmet in_ p)).
Proof.
  pose proof (Classify_spec in_ p) as Hs. pose proof (not_empty_when in_ p) as Hne. cbn zeta in Hs. unfold Rejects.
  destruct (vd_Outcome (Classify in_ p)).
  - split; [done|]. destruct Hs as (? & ? & ? & ?). tauto.
  - split; [by intros _|done].
  - split; [done|]. destruct Hs as (? & [Ho|[Hc ?]]); intros [Ho' [?|[Hc' ?]]]; try congruence; try done; rewrite Hc in Hc'; discriminate.
  - split; [done|]. intros [_ [?|[_ ?]]]; rewrite Hne in Hs; tauto.
Qed.

(** What was seen of a session grew. *)
Definition grew (t t' : Trace) : Prop := sublist (Calls t) (Calls t') ∧ Observed t' = true.

(** C25. A session is stopped exactly for a tool it was seen to use and must not, or,
    when the whole of it was seen, for a requirement it does not meet; never for
    what was not observed, never with enforcement off, and never for a failure to
    read the policy or the evidence. What stops a session of which a part was
    seen stops it whatever else is seen. *)
Theorem trajectory_rejects meter key load enforce agent batch :
  (checkTrajectory meter key load enforce agent batch ≠ "" ↔
   enforce = true ∧ key ≠ "" ∧ ∃ view p, meter = Some (Ok (Some view)) ∧ load = Ok p ∧
     let tr := mkTrace (tv_SessionKey view) (tv_Attempt view) "" "" (tv_Completeness view) (tv_Calls view) (tv_Turns view) in
     let in_ := mkInput tr (trajectoryClaim agent batch) "" in
     Observed tr = true ∧ (forbidden_used in_ p ∨ (tv_Completeness view = Complete ∧ unmet in_ p))) ∧
  (∀ in_ in' p, Completeness (in_Trace in_) = Partial → Rejects (Classify in_ p) = true →
     grew (in_Trace in_) (in_Trace in') → Rejects (Classify in' p) = true).
Proof.
  split.
  - unfold checkTrajectory. destruct meter as [reply|]; [|split; [done|intros (_ & _ & ? & ? & [=] & _)]].
    destruct (String.eqb_spec key "") as [->|Hk]; [split; [done|intros (_ & [] & _); done]|].
    destruct load as [p|e]; [|split; [done|intros (_ & _ & ? & ? & _ & [=] & _)]].
    destruct (Empty p) eqn:Ee.
    { split; [done|]. intros (_ & _ & view & p' & _ & [= <-] & _ & Hu).
      eassert (Empty p = false) by (eapply (not_empty_when _ p); destruct Hu as [Hx|[_ Hx]]; [left; exact Hx|right; exact Hx]). congruence. }
    destruct reply as [[view|]|e]; [|split; [done|intros (_ & _ & ? & ? & [=] & _)]..].
    set (in_ := mkInput _ _ _). destruct (Rejects (Classify in_ p)) eqn:Er; cbn [negb].
    + pose proof (proj1 (violated_iff in_ p) Er) as Hv. destruct enforce; cbn [negb]; [|split; [done|by intros [? _]]].
      split; [|done]. intros _. split_and!; [done..|]. by exists view, p.
    + split; [done|]. intros (_ & _ & view' & p' & [= <-] & [= <-] & Hv). apply (violated_iff in_ p) in Hv. congruence.
  - intros in_ in' p Hp Hr [Hs Ho]. apply violated_iff in Hr as [_ [(tool & Hf & c & Hc & Ht)|[Hc _]]]; [|by rewrite Hp in Hc].
    apply violated_iff. split; [done|]. left. exists tool. split; [done|]. exists c. split; [|done].
    eapply sublist_subseteq; eauto.
Qed.
End verdicts.

(** A tool name in the log is at most 24 characters, none of which ends a field
    or a line. *)
Lemma sanitizeRole_safe s :
  all_bytes (λ c, in_range 97 122 c || in_range 65 90 c || in_range 48 57 c || (byte_val c =? 95) || (byte_val c =? 45) || (byte_val c =? 46))
    (sanitizeRole s) = true.
Proof.
  unfold sanitizeRole. rewrite all_bytes_list, String.list_ascii_of_string_of_list_ascii. apply forallb_forall.
  intros c (x & <- & _)%in_map_iff. unfold role_byte. destruct (in_range 97 122 x || _ || _ || _ || _) eqn:E; [by rewrite E|done].
Qed.

(** ** Examples *)

Definition example_policy : Policy := mkPolicy [] ["bash"] {[ "read" := 2 ]} ["reply-only"] ["code"] ["read"; "grep"].
Definition example_trace (completeness : string) (calls : list Call) : Trace := mkTrace "s" 1 "" "" completeness calls 1.

Example trajectory_examples :
  let judge completeness calls verdict target :=
    vd_Outcome (Classify (mkInput (example_trace completeness calls) verdict target) example_policy) in
  judge Complete [mkCall "read" "/workspace/a/b.go"; mkCall "read" "x"] "" "./a/b.go" = OutcomeSatisfied ∧
  judge Complete [mkCall "read" "/workspace/a/b.go"] "" "a/b.go" = OutcomeViolated ∧
  judge Complete [mkCall "read" "x"; mkCall "read" "aa/b.go"] "" "a/b.go" = OutcomeViolated ∧
  judge Partial [mkCall "bash" ""] "" "" = OutcomeViolated ∧
  judge Partial [] "code" "" = OutcomeUnobserved ∧
  judge Absent [] "code" "" = OutcomeUnobserved ∧
  judge "whole" [mkCall "bash" ""] "code" "" = OutcomeUnobserved ∧
  toolNamesAttr (example_trace Complete [mkCall "read" ""; mkCall "ba,sh" ""; mkCall "read" ""]) = "ba.sh,read".
Proof. vm_compute. done. Qed.
