(* ===== verification/Weaken.v ===== *)
(** * [pkg/weaken]: does a change to a Go file weaken its tests

    [weaken.go], over the syntax trees of [go/ast] as far as it tells their
    nodes apart; parsing ([go/parser]) is a class. And the gate that asks it for
    every file of an accepted plan ([weakeningGate] of
    [cmd/gonk-gate/broker_pipefix_gates.go]). *)

From Stdlib Require Import Ascii.
From S2P Require Import Prelude.
From S2P Require Import GoStrings.
From S2P Require Import GoPath.
From S2P Require Import GoUTF8.
From S2P Require Import ScopeClass.
From S2P Require Import ScopePolicy.
From S2P Require Import Effects.
From S2P Require Import LineDiff.
From S2P Require Import FixGate.

(** ** Syntax trees ([go/ast]) *)

#[local] Set Warnings "-register-all".
Inductive Node :=
| Ident (name : string)
| StarExpr (X : Node)
| IndexExpr (X Index : Node)
| IndexListExpr (X : Node) (Indices : list Node)
| SelectorExpr (X : Node) (Sel : string)
| CallExpr (Fun : Node) (Args : list Node)
| ReturnStmt (Results : list Node)
| BlockStmt (List : list Node)
| IfStmt (Init : option Node) (Cond : Node) (Body : list Node) (Else : option Node)
| Other (children : list Node).   (** any other node, with the nodes below it *)

(** [Recv]: the types of the receiver list. *)
Record FuncDecl := mkFuncDecl { Name : string; Recv : option (list Node); Body : option (list Node) }.
(** The declarations, [None] where one is no function. *)
Record File := mkFile { Decls : list (option FuncDecl) }.

Class GoParser := { ParseFile : string → option File }.

(** [ast.Inspect] with a counter: every node below, the node itself included. *)
Section inspect.
Context (f : Node → Z).
Fixpoint Inspect (n : Node) : Z :=
  f n +
  match n with
  | Ident _ => 0
  | StarExpr x => Inspect x
  | IndexExpr x i => Inspect x + Inspect i
  | IndexListExpr x is_ => Inspect x + fold_right Z.add 0 (map Inspect is_)
  | SelectorExpr x _ => Inspect x
  | CallExpr g args => Inspect g + fold_right Z.add 0 (map Inspect args)
  | ReturnStmt rs => fold_right Z.add 0 (map Inspect rs)
  | BlockStmt l => fold_right Z.add 0 (map Inspect l)
  | IfStmt i c b e =>
      match i with Some i => Inspect i | None => 0 end + Inspect c + fold_right Z.add 0 (map Inspect b) +
      match e with Some e => Inspect e | None => 0 end
  | Other l => fold_right Z.add 0 (map Inspect l)
  end.
Definition Inspect_block (b : list Node) : Z := Inspect (BlockStmt b).
End inspect.

(** ** Findings *)

Definition RemovedTest : string := "removed-test".
Definition AddedSkip : string := "added-skip".
Definition BuildConstraint : string := "build-constraint".
Definition Unparseable : string := "unparseable".

Inductive Detail :=
| DUnparseable
| DConstraints (before after : string)
| DRemoved (names : list string)
| DSkips (names : list string).
(** [None]: the zero value. *)
Record Finding := mkFinding { Sub : string; fi_Detail : option Detail }.
Definition Finding_zero : Finding := mkFinding "" None.
Definition Found (f : Finding) : bool := negb (String.eqb (Sub f) "").

(** On a sorted list. *)
Fixpoint dedup (l : list string) : list string :=
  match l with
  | x :: ((y :: _) as rest) => if String.eqb x y then dedup rest else x :: dedup rest
  | _ => l
  end.

Definition test_prefixes : list string := ["Test"; "Benchmark"; "Fuzz"; "Example"].
Definition is_test (fn : FuncDecl) : bool :=
  match Recv fn with Some _ => false | None => existsb (HasPrefix (Name fn)) test_prefixes end.
Definition testFuncs (f : File) : gmap string FuncDecl :=
  fold_left (λ out d, match d with Some fn => if is_test fn then <[Name fn := fn]> out else out | None => out end) (Decls f) ∅.

Fixpoint recvName (e : Node) : string :=
  match e with
  | StarExpr x => recvName x
  | Ident name => name
  | IndexExpr x _ => recvName x
  | IndexListExpr x _ => recvName x
  | _ => "?"
  end.

Definition skip_call (n : Node) : Z :=
  match n with
  | CallExpr (SelectorExpr _ sel) _ => if contains ["Skip"; "Skipf"; "SkipNow"] sel then 1 else 0
  | _ => 0
  end.
Definition func_name (fn : FuncDecl) : string :=
  match Recv fn with
  | Some (t :: _) => recvName t +:+ "." +:+ Name fn
  | _ => Name fn
  end.
Definition skipCounts (f : File) : gmap string Z :=
  fold_left (λ out d,
    match d with
    | Some fn =>
        match Body fn with
        | Some b => let n := Inspect_block skip_call b in if 0 <? n then <[func_name fn := n]> out else out
        | None => out
        end
    | None => out
    end) (Decls f) ∅.

Definition noReturn : Z := 0.
Definition guardedReturn : Z := 1.
Definition bareReturn : Z := 2.

Definition onlyReturn (b : list Node) : bool := match b with [ReturnStmt _] => true | _ => false end.

(** The rank of a block's first statement; the chain of [else if]s is walked. *)
Fixpoint statement_rank (s : Node) : Z :=
  match s with
  | ReturnStmt _ => bareReturn
  | BlockStmt (s :: _) => statement_rank s
  | IfStmt _ _ body els =>
      if onlyReturn body then guardedReturn
      else match els with
           | Some (IfStmt _ _ _ _ as e) => statement_rank e
           | Some (BlockStmt l) => if onlyReturn l then guardedReturn else noReturn
           | _ => noReturn
           end
  | _ => noReturn
  end.
Definition returnRank (b : list Node) : Z := match b with [] => noReturn | s :: _ => statement_rank s end.
Definition leadingReturn (fn : FuncDecl) : Z := match Body fn with None => noReturn | Some b => returnRank b end.

(** ** Build constraints

    [constraint.IsGoBuild] and [constraint.IsPlusBuild] of a line without a line
    end. *)

Section weaken.
Context `{GoUnicode}.

Definition directive (word s : string) : bool :=
  HasPrefix s word &&
  (let rest := string_drop (String.length word) s in
   negb ((len rest =? len (TrimSpace rest)) && negb (String.eqb rest ""))).
Definition IsGoBuild (line : string) : bool := HasPrefix line "//go:build" && directive "//go:build" (TrimSpace line).
Definition IsPlusBuild (line : string) : bool :=
  HasPrefix line "//" && directive "+build" (TrimSpace (string_drop 2 line)).

Definition newline_char : ascii := ascii_of_nat 10.
Definition Fields (s : string) : list string := FieldsFunc s IsSpace.

Fixpoint constraint_lines (lines : list string) : list string :=
  match lines with
  | [] => []
  | line :: lines =>
      let t := TrimSpace line in
      if HasPrefix t "package " || String.eqb t "package" then []
      else if IsGoBuild t || IsPlusBuild t then Join (Fields t) " " :: constraint_lines lines
      else constraint_lines lines
  end.
Definition constraints (src : string) : string := Join (constraint_lines (Split newline_char src)) (String newline_char "").

(** ** The verdict *)

Context `{MapRange} `{GoParser}.

Definition gone (bf af : gmap string FuncDecl) : list string :=
  List.filter (λ name, bool_decide (af !! name = None)) (range_map bf).*1.
Definition more_skips (bs as_ : gmap string Z) : list string :=
  map fst (List.filter (λ '(name, n), default 0 (bs !! name) <? n) (range_map as_)).
Definition new_returns (bf af : gmap string FuncDecl) : list string :=
  map fst (List.filter (λ '(name, fn), match bf !! name with Some old => leadingReturn old <? leadingReturn fn | None => false end)
    (range_map af)).

Definition Go (base patched : string) : Finding :=
  match ParseFile patched with
  | None => mkFinding Unparseable (Some DUnparseable)
  | Some after =>
      if negb (String.eqb (constraints base) (constraints patched)) then
        mkFinding BuildConstraint (Some (DConstraints (constraints base) (constraints patched)))
      else
        match ParseFile base with
        | None => Finding_zero
        | Some before =>
            let bf := testFuncs before in
            let af := testFuncs after in
            let removed := gone bf af in
            if (0 <? length removed)%nat then mkFinding RemovedTest (Some (DRemoved (sort_strings removed)))
            else
              let skipped := more_skips (skipCounts before) (skipCounts after) ++ new_returns bf af in
              if (0 <? length skipped)%nat then mkFinding AddedSkip (Some (DSkips (dedup (sort_strings skipped))))
              else Finding_zero
        end
  end.

(** ** The gate over an accepted plan *)

Definition ruleWeaken : Rule := "SC-WEAKEN".
Definition fixRefusal (rule : Rule) (sub path : string) : Effects.Refusal := Effects.mkRefusal rule sub (-1) path.

(** [weakeningFact]: the undecided paths. *)
Record weakeningFact := mkWeakening { undecided : list string }.
Definition FixWeakeningDecided : string := "decided".
Definition FixWeakeningNotDecidable : string := "not-decidable".
Definition state (w : weakeningFact) : string :=
  if (0 <? length (undecided w))%nat then FixWeakeningNotDecidable else FixWeakeningDecided.

Section gate.
Context (cls : Classifier) (base : BaseBlobs).

(** One file: refused, undecided or passed. *)
Inductive file_verdict := FileRefused (r : Effects.Refusal) | FileUndecided | FilePassed.
Definition weaken_file (f : PatchedFile) : file_verdict :=
  let dec := (Classify cls (pf_Path f)).1 in
  if negb (String.eqb (d_Class dec) ClassSource) && negb (String.eqb (d_Class dec) ClassTest) then FilePassed
  else if negb (WeakeningDecidable dec) || negb (HasSuffix (pf_Path f) ".go") then FileUndecided
  else
    let finding := Go (default "" (base !! pf_Path f)) (pf_Content f) in
    if negb (Found finding) then FilePassed
    else if String.eqb (d_Class dec) ClassTest || String.eqb (Sub finding) BuildConstraint then
      FileRefused (fixRefusal ruleWeaken (Sub finding) (pf_Path f))
    else FilePassed.

Fixpoint weaken_files (files : list PatchedFile) (und : list string) : result Effects.Refusal weakeningFact :=
  match files with
  | [] => Ok (mkWeakening (sort_strings und))
  | f :: files =>
      match weaken_file f with
      | FileRefused r => Err r
      | FileUndecided => weaken_files files (und ++ [pf_Path f])
      | FilePassed => weaken_files files und
      end
  end.
Definition weakeningGate (plan : FixPlan) : result Effects.Refusal weakeningFact := weaken_files (fp_Files plan) [].
End gate.
End weaken.

(** ** What is found *)

Section weaken_facts.
Context `{GoUnicode} `{MapRange} `{GoParser}.

Definition skips (f : File) (name : string) : Z := default 0 (skipCounts f !! name).

Lemma skipCounts_pos f name n : skipCounts f !! name = Some n → 0 < n.
Proof.
  unfold skipCounts. assert (∀ ds (m : gmap string Z), (∀ k v, m !! k = Some v → 0 < v) → ∀ k v, fold_left (λ out d,
    match d with
    | Some fn => match Body fn with
        | Some b => let n := Inspect_block skip_call b in if 0 <? n then <[func_name fn := n]> out else out
        | None => out end
    | None => out end) ds m !! k = Some v → 0 < v) as Hp.
  { induction ds as [|d ds IH]; intros m Hm; [done|]. cbn [fold_left]. apply IH. destruct d as [fn|]; [|done].
    destruct (Body fn) as [b|]; [|done]. cbn zeta. destruct (Z.ltb_spec 0 (Inspect_block skip_call b)); [|done].
    intros k v [[<- <-]|[_ ?]]%lookup_insert_Some; [done|by eapply Hm]. }
  apply Hp. intros ??. by rewrite lookup_empty.
Qed.

(** The three ways in which a file that still parses, under the same
    constraints, has weaker tests. *)
Definition loses_test (before after : File) : Prop := ∃ name, is_Some (testFuncs before !! name) ∧ testFuncs after !! name = None.
Definition skips_more (before after : File) : Prop := ∃ name, skips before name < skips after name.
Definition returns_earlier (before after : File) : Prop :=
  ∃ name f f', testFuncs before !! name = Some f ∧ testFuncs after !! name = Some f' ∧ leadingReturn f < leadingReturn f'.

Lemma gone_spec bf af : (0 <? length (gone bf af))%nat = true ↔ ∃ name, is_Some (bf !! name) ∧ af !! name = None.
Proof.
  rewrite <- not_false_iff_true, length_pos. unfold gone. rewrite List_filter_nil. split.
  - intros Hn. destruct (decide (map_Forall (λ k _, is_Some (af !! k)) bf)) as [Hall|Hex].
    + exfalso. apply Hn. intros k ([k' v] & -> & Hk%elem_of_range_map)%list_elem_of_fmap. apply Hall in Hk as [? E]. cbn. by rewrite E.
    + apply map_not_Forall in Hex as (k & v & Hk & Hn'); [|apply _]. exists k. split; [by eexists|]. by apply eq_None_not_Some.
  - intros (name & [v Hv] & Ha) Hall. specialize (Hall name). rewrite Ha in Hall. cbn in Hall.
    apply elem_of_range_map in Hv. cut (bool_decide (@None FuncDecl = None) = false); [by rewrite bool_decide_eq_true_2|].
    apply Hall, list_elem_of_fmap. by exists (name, v).
Qed.

Lemma filtered_range {A} (m : gmap string A) (p : string * A → bool) :
  map fst (List.filter p (range_map m)) = [] ↔ ∀ k v, m !! k = Some v → p (k, v) = false.
Proof.
  split.
  - intros E%map_eq_nil k v Hk%elem_of_range_map. rewrite List_filter_nil in E. by apply E.
  - intros Hp. assert (List.filter p (range_map m) = []) as ->; [|done]. apply List_filter_nil. intros [k v] Hk%elem_of_range_map. by apply Hp.
Qed.

Lemma skipped_spec before after :
  (0 <? length (more_skips (skipCounts before) (skipCounts after) ++ new_returns (testFuncs before) (testFuncs after)))%nat = false ↔
  ¬ skips_more before after ∧ ¬ returns_earlier before after.
Proof.
  rewrite length_pos. unfold more_skips, new_returns. rewrite app_nil, !filtered_range. unfold skips_more, returns_earlier, skips. split.
  - intros [Hs Hr]. split.
    + intros (name & Hlt). destruct (skipCounts after !! name) as [n|] eqn:E.
      * apply Hs in E. bool_hyps. cbn in Hlt. unfold id in *. lia.
      * cbn in Hlt. destruct (skipCounts before !! name) as [n|] eqn:E'; cbn in Hlt; [apply skipCounts_pos in E'; unfold id in *|]; lia.
    + intros (name & f & f' & Hf & Hf' & Hlt). apply Hr in Hf'. rewrite Hf in Hf'. bool_hyps. lia.
  - intros [Hs Hr]. split.
    + intros k n Hk. apply Z.ltb_ge. destruct (Z.lt_ge_cases (default 0 (skipCounts before !! k)) n); [|done].
      destruct Hs. exists k. by rewrite Hk.
    + intros k f' Hf'. destruct (testFuncs before !! k) as [f|] eqn:Hf; [|done]. apply Z.ltb_ge.
      destruct (Z.lt_ge_cases (leadingReturn f) (leadingReturn f')); [|done]. destruct Hr. by exists k, f, f'.
Qed.

Lemma skipped_some before after :
  (0 <? length (more_skips (skipCounts before) (skipCounts after) ++ new_returns (testFuncs before) (testFuncs after)))%nat = true →
  skips_more before after ∨ returns_earlier before after.
Proof.
  intros Hl. set (l := more_skips _ _ ++ new_returns _ _) in Hl. assert (∃ x, x ∈ l) as [x Hx].
  { destruct l as [|x l]; [done|]. exists x. by left. }
  apply elem_of_app in Hx as [Hx|Hx]; apply list_elem_of_fmap in Hx as ([k v] & -> & [Hk%elem_of_range_map Hp]%elem_of_filter_List).
  - left. exists k. unfold skips at 2. rewrite Hk. bool_hyps. done.
  - right. destruct (testFuncs before !! k) as [f|] eqn:Hf; [|done]. exists k, f, v. bool_hyps. done.
Qed.

(** The verdict on one file, in order. *)
Lemma Go_exact base patched :
  Sub (Go base patched) =
    match ParseFile patched with
    | None => Unparseable
    | Some after =>
        if negb (String.eqb (constraints base) (constraints patched)) then BuildConstraint
        else match ParseFile base with
             | None => ""
             | Some before => Sub (Go base patched)
             end
    end ∧
  ∀ before after, ParseFile base = Some before → ParseFile patched = Some after → constraints base = constraints patched →
    (Sub (Go base patched) = RemovedTest ∧ loses_test before after) ∨
    (Sub (Go base patched) = AddedSkip ∧ ¬ loses_test before after ∧ (skips_more before after ∨ returns_earlier before after)) ∨
    (Sub (Go base patched) = "" ∧ ¬ loses_test before after ∧ ¬ skips_more before after ∧ ¬ returns_earlier before after).
Proof.
  split.
  - unfold Go. destruct (ParseFile patched) as [after|]; [|done]. destruct (negb _); [done|]. by destruct (ParseFile base).
  - intros before after Hb Ha Hc. unfold Go. rewrite Ha, Hb, Hc, String.eqb_refl. cbn [negb]. cbn zeta.
    pose proof (gone_spec (testFuncs before) (testFuncs after)) as Hg. destruct (0 <? length (gone _ _))%nat; [left; split; [done|by apply Hg]|].
    assert (¬ loses_test before after) as Hl by by intros [=]%Hg. right.
    pose proof (skipped_spec before after) as Hs. pose proof (skipped_some before after) as Hx.
    destruct (0 <? length (_ ++ _))%nat; [left|right; split; [done|]; by split; [|apply Hs]]. split_and!; [done..|by apply Hx].
Qed.

(** Nothing found, in terms of the two files. *)
Lemma not_found_iff base patched :
  Found (Go base patched) = false ↔
  constraints base = constraints patched ∧ ∃ after, ParseFile patched = Some after ∧
    ∀ before, ParseFile base = Some before → ¬ loses_test before after ∧ ¬ skips_more before after ∧ ¬ returns_earlier before after.
Proof.
  unfold Found. rewrite negb_false_iff, String.eqb_eq. destruct (Go_exact base patched) as [Hp Hx].
  destruct (ParseFile patched) as [after|] eqn:Ha; [|split; [by rewrite Hp|by intros (_ & ? & ? & _)]].
  destruct (String.eqb_spec (constraints base) (constraints patched)) as [Hc|Hc]; cbn [negb] in Hp; [|split; [by rewrite Hp|by intros [? _]]].
  destruct (ParseFile base) as [before|] eqn:Hb.
  - specialize (Hx before after eq_refl eq_refl Hc). split.
    + intros E. split; [done|]. exists after. split; [done|]. intros ? [= <-]. rewrite E in Hx. naive_solver.
    + intros (_ & ? & [= <-] & Hn). specialize (Hn before eq_refl). naive_solver.
  - split; [|done]. intros _. split; [done|]. exists after. split; [done|]. by intros ? [=].
Qed.

(** Weakening cannot be spread over two changes: what neither of them does on
    its own, they do not do together. *)
Theorem no_salami a b c :
  Found (Go a b) = false → Found (Go b c) = false → Found (Go a c) = false.
Proof.
  rewrite !not_found_iff. intros (Hc1 & fb & Hb & Q1) (Hc2 & fc & Hc & Q2). split; [congruence|]. exists fc. split; [done|].
  intros fa Ha. specialize (Q1 fa Ha) as (L1 & S1 & R1). specialize (Q2 fb Hb) as (L2 & S2 & R2). split_and!.
  - intros (name & Hs & Hn). destruct (testFuncs fb !! name) as [f|] eqn:E; [destruct L2; exists name; split; [by eexists|done]|destruct L1; by exists name].
  - intros (name & Hlt). destruct (Z.lt_ge_cases (skips fa name) (skips fb name)); [destruct S1; by exists name|].
    destruct S2. exists name. lia.
  - intros (name & f & f' & Hf & Hf' & Hlt). destruct (testFuncs fb !! name) as [g|] eqn:E.
    + destruct (Z.lt_ge_cases (leadingReturn f) (leadingReturn g)); [destruct R1; by exists name, f, g|].
      destruct R2. exists name, g, f'. split_and!; [done..|lia].
    + destruct L1. exists name. split; [by eexists|done].
Qed.

(** *** In terms of the declarations *)

(** The last function of a file with a property. *)
Definition last_with (P : FuncDecl → Prop) (f : File) (fn : FuncDecl) : Prop :=
  ∃ pre post, Decls f = pre ++ Some fn :: post ∧ P fn ∧ ∀ g, Some g ∈ post → ¬ P g.

(** A test, benchmark, fuzz target or example of a name; how often a function
    calls a skip; a function of a name (with its receiver's) that does. *)
Definition a_test (name : string) (fn : FuncDecl) : Prop :=
  Name fn = name ∧ Recv fn = None ∧
  (HasPrefix name "Test" = true ∨ HasPrefix name "Benchmark" = true ∨
   HasPrefix name "Fuzz" = true ∨ HasPrefix name "Example" = true).
Definition skip_calls (fn : FuncDecl) : Z := match Body fn with Some b => Inspect_block skip_call b | None => 0 end.
Definition a_skipper (name : string) (fn : FuncDecl) : Prop := func_name fn = name ∧ 0 < skip_calls fn.

(** A test is gone; a function skips where none of its name did, or oftener; a
    test's body returns, or may return, before anything else, and more surely
    than it did. *)
Definition test_gone (before after : File) : Prop :=
  ∃ name, (∃ fn, Some fn ∈ Decls before ∧ a_test name fn) ∧ ∀ fn, Some fn ∈ Decls after → ¬ a_test name fn.
Definition skip_added (before after : File) : Prop :=
  ∃ name fn, last_with (a_skipper name) after fn ∧
    ∀ old, last_with (a_skipper name) before old → skip_calls old < skip_calls fn.
Definition return_added (before after : File) : Prop :=
  ∃ name fn fn', last_with (a_test name) before fn ∧ last_with (a_test name) after fn' ∧
    leadingReturn fn < leadingReturn fn'.

Lemma last_with_exists P (HP : ∀ fn, {P fn} + {¬ P fn}) f fn :
  Some fn ∈ Decls f → P fn → ∃ fn', last_with P f fn'.
Proof.
  unfold last_with. induction (Decls f) as [|d ds IH] using rev_ind; [by intros ?%elem_of_nil|].
  intros Hin Hp. assert (Hcase : (∃ g, d = Some g ∧ P g) ∨ ∀ g, d = Some g → ¬ P g).
  { destruct d as [g|]; [|by right]. destruct (HP g); [left; eauto|right; by intros ? [= <-]]. }
  destruct Hcase as [(g & -> & Hg)|Hno].
  { exists g, ds, []. split_and!; [done|done|]. by intros ? ?%elem_of_nil. }
  apply elem_of_app in Hin as [Hin|E%list_elem_of_singleton]; [|by destruct (Hno fn)].
  destruct (IH Hin Hp) as (fn' & pre & post & -> & E1 & E2). exists fn', pre, (post ++ [d]).
  split_and!; [by rewrite <- app_assoc|done|]. intros g [Hg|E%list_elem_of_singleton]%elem_of_app; [auto|]. by apply Hno.
Qed.

(** A map filled from the declarations: a key holds the last function of it. *)
Definition fill {V} (keep : FuncDecl → bool) (key : FuncDecl → string) (val : FuncDecl → V)
    (ds : list (option FuncDecl)) : gmap string V :=
  fold_left (λ out d, match d with Some fn => if keep fn then <[key fn := val fn]> out else out | None => out end) ds ∅.

Lemma fill_lookup {V} keep key (val : FuncDecl → V) f k v :
  fill keep key val (Decls f) !! k = Some v ↔
  ∃ fn, last_with (λ fn, keep fn = true ∧ key fn = k) f fn ∧ v = val fn.
Proof.
  unfold last_with, fill. revert v. induction (Decls f) as [|d ds IH] using rev_ind; intros v.
  { cbn. rewrite lookup_empty. split; [done|]. by intros (fn & ([|] & ? & [=] & _) & _). }
  rewrite fold_left_app. cbn [fold_left].
  assert (Hskip : (∀ fn, d = Some fn → keep fn = true → key fn ≠ k) →
    (∃ fn, (∃ pre post, ds = pre ++ Some fn :: post ∧ (keep fn = true ∧ key fn = k) ∧
       ∀ g, Some g ∈ post → ¬ (keep g = true ∧ key g = k)) ∧ v = val fn) ↔
    (∃ fn, (∃ pre post, ds ++ [d] = pre ++ Some fn :: post ∧ (keep fn = true ∧ key fn = k) ∧
       ∀ g, Some g ∈ post → ¬ (keep g = true ∧ key g = k)) ∧ v = val fn)).
  { intros Hd. split; intros (fn & (pre & post & E & Hp & Hpost) & ->); exists fn; (split; [|done]).
    - exists pre, (post ++ [d]). split_and!; [by rewrite E, <- app_assoc|by destruct Hp..|].
      intros g [Hg|Eg%list_elem_of_singleton]%elem_of_app [? ?]; [by eapply Hpost|by eapply Hd].
    - destruct post as [|x post _] using rev_ind.
      + apply app_inj_tail in E as [_ ->]. destruct Hp. by destruct (Hd fn).
      + rewrite app_comm_cons, app_assoc in E. apply app_inj_tail in E as [-> _]. exists pre, post.
        split_and!; [done|by destruct Hp..|]. intros g Hg. apply Hpost. set_solver. }
  destruct d as [fn|]; [|rewrite IH; by apply Hskip].
  destruct (keep fn) eqn:Ek; [|rewrite IH; apply Hskip; intros ? [= <-]; congruence].
  destruct (decide (key fn = k)) as [Hk|Hk].
  - rewrite Hk, lookup_insert_eq. split.
    + intros [= <-]. exists fn. split; [|done]. exists ds, []. split_and!; [done..|]. by intros ? ?%elem_of_nil.
    + intros (fn' & (pre & post & E & Hp & Hpost) & ->). destruct post as [|x post _] using rev_ind.
      * apply app_inj_tail in E as [_ [= ->]]. done.
      * rewrite app_comm_cons, app_assoc in E. apply app_inj_tail in E as [_ <-]. exfalso. apply (Hpost fn); [set_solver|done].
  - rewrite lookup_insert_ne by done. rewrite IH. apply Hskip. by intros ? [= <-] _.
Qed.

Lemma last_with_iff P Q f fn : (∀ g, P g ↔ Q g) → last_with P f fn ↔ last_with Q f fn.
Proof. intros E. unfold last_with. by setoid_rewrite E. Qed.

Lemma is_test_iff name fn : (is_test fn = true ∧ Name fn = name) ↔ a_test name fn.
Proof.
  unfold is_test, a_test, test_prefixes. destruct (Recv fn); [naive_solver|]. cbn [existsb]. rewrite !orb_true_iff. naive_solver.
Qed.

Lemma testFuncs_last f name fn : testFuncs f !! name = Some fn ↔ last_with (a_test name) f fn.
Proof.
  change (testFuncs f) with (fill is_test Name id (Decls f)). rewrite fill_lookup.
  setoid_rewrite (last_with_iff _ _ f _ (is_test_iff name)). unfold id. naive_solver.
Qed.

Lemma testFuncs_none f name : testFuncs f !! name = None ↔ ∀ fn, Some fn ∈ Decls f → ¬ a_test name fn.
Proof.
  split.
  - intros Hn fn Hin Ht. destruct (last_with_exists (a_test name)) with (f := f) (fn := fn) as [fn' Hl]; [|done|done|].
    + intros g. destruct (is_test g) eqn:E, (decide (Name g = name)) as [En|En]; [by left; apply is_test_iff|..];
        right; rewrite <- is_test_iff; rewrite E; naive_solver.
    + apply testFuncs_last in Hl. congruence.
  - intros Hno. apply eq_None_not_Some. intros [fn (pre & post & E & Ht & _)%testFuncs_last].
    apply (Hno fn); [|done]. rewrite E. set_solver.
Qed.

Lemma skipCounts_last f name n :
  skipCounts f !! name = Some n ↔ ∃ fn, last_with (a_skipper name) f fn ∧ n = skip_calls fn.
Proof.
  assert (E : skipCounts f = fill (λ fn, 0 <? skip_calls fn) func_name skip_calls (Decls f)).
  { unfold skipCounts, fill. generalize (∅ : gmap string Z). induction (Decls f) as [|d ds IH]; intros m; [done|].
    cbn [fold_left]. rewrite IH. f_equal. destruct d as [fn|]; [|done]. unfold skip_calls. by destruct (Body fn). }
  rewrite E, fill_lookup. unfold a_skipper.
  setoid_rewrite (last_with_iff _ (λ fn, func_name fn = name ∧ 0 < skip_calls fn) f _); [done|].
  intros g. rewrite Z.ltb_lt. tauto.
Qed.

Lemma loses_test_iff before after : loses_test before after ↔ test_gone before after.
Proof.
  unfold loses_test, test_gone. setoid_rewrite testFuncs_none. split; intros (name & Hb & Ha); exists name; (split; [|done]).
  - destruct Hb as [fn (pre & post & E & Ht & _)%testFuncs_last]. exists fn. split; [|done]. rewrite E. set_solver.
  - destruct Hb as (fn & Hin & Ht). apply not_eq_None_Some. rewrite testFuncs_none. intros Hno. by apply (Hno fn).
Qed.

Lemma skips_more_iff before after : skips_more before after ↔ skip_added before after.
Proof.
  unfold skips_more, skips, skip_added. split.
  - intros (name & Hlt). destruct (skipCounts after !! name) as [n|] eqn:Ea.
    + pose proof Ea as (fn & Hl & ->)%skipCounts_last. exists name, fn. split; [done|].
      intros old Ho. assert (skipCounts before !! name = Some (skip_calls old)) as Eb by (apply skipCounts_last; eauto).
      rewrite Eb in Hlt. exact Hlt.
    + exfalso. cbn in Hlt. destruct (skipCounts before !! name) as [n|] eqn:Eb; cbn in Hlt; [apply skipCounts_pos in Eb|]; unfold id in *; lia.
  - intros (name & fn & Hl & Hold). exists name.
    assert (skipCounts after !! name = Some (skip_calls fn)) as -> by (apply skipCounts_last; eauto).
    destruct (skipCounts before !! name) as [n|] eqn:Eb.
    + apply skipCounts_last in Eb as (old & Ho & ->). cbn. unfold id. by apply Hold.
    + destruct Hl as (_ & _ & _ & (_ & Hpos) & _). exact Hpos.
Qed.

Lemma returns_earlier_iff before after : returns_earlier before after ↔ return_added before after.
Proof. unfold returns_earlier, return_added. by setoid_rewrite testFuncs_last. Qed.

(** ** The gate *)

Section gate_facts.
Context (cls : Classifier) (base : BaseBlobs).

Lemma weaken_files_spec files und :
  match weaken_files cls base files und with
  | Ok w => (∀ f, f ∈ files → ∀ r, weaken_file cls base f ≠ FileRefused r) ∧
      undecided w = sort_strings (und ++ map pf_Path (List.filter (λ f, match weaken_file cls base f with FileUndecided => true | _ => false end) files))
  | Err r => ∃ f, f ∈ files ∧ weaken_file cls base f = FileRefused r
  end.
Proof.
  revert und. induction files as [|f files IH]; intros und; cbn [weaken_files List.filter].
  { split; [by intros ? ?%elem_of_nil|]. cbn. by rewrite app_nil_r. }
  destruct (weaken_file cls base f) eqn:E.
  - exists f. split; [by left|done].
  - specialize (IH (und ++ [pf_Path f])). destruct (weaken_files _ _ _ _) as [w|r].
    + destruct IH as [IH1 IH2]. split; [intros g [->|Hg]%elem_of_cons; [by rewrite E|by apply IH1]|]. rewrite IH2. cbn. by rewrite <- app_assoc.
    + destruct IH as (g & Hg & ?). exists g. split; [by right|done].
  - specialize (IH und). destruct (weaken_files _ _ _ _) as [w|r].
    + destruct IH as [IH1 IH2]. split; [intros g [->|Hg]%elem_of_cons; [by rewrite E|by apply IH1]|]. done.
    + destruct IH as (g & Hg & ?). exists g. split; [by right|done].
Qed.

Definition class_of (f : PatchedFile) : Class_ := d_Class (Classify cls (pf_Path f)).1.
Definition judged (f : PatchedFile) : bool := WeakeningDecidable (Classify cls (pf_Path f)).1 && HasSuffix (pf_Path f) ".go".
Definition base_of (f : PatchedFile) : string := default "" (base !! pf_Path f).

(** A changed test file that is let through: it still parses, under the build
    constraints it had, and as far as what it was parses no test is gone, no skip
    and no early return added. *)
Definition tests_kept (f : PatchedFile) : Prop :=
  constraints (base_of f) = constraints (pf_Content f) ∧
  ∃ after, ParseFile (pf_Content f) = Some after ∧
    ∀ before, ParseFile (base_of f) = Some before →
      ¬ test_gone before after ∧ ¬ skip_added before after ∧ ¬ return_added before after.

(** And what a changed file is refused for. *)
Definition refused_for (f : PatchedFile) (sub : string) : Prop :=
  match ParseFile (pf_Content f) with
  | None => class_of f = ClassTest ∧ sub = "unparseable"
  | Some after =>
      if decide (constraints (base_of f) = constraints (pf_Content f)) then
        ∃ before, ParseFile (base_of f) = Some before ∧ class_of f = ClassTest ∧
          ((test_gone before after ∧ sub = "removed-test") ∨
           (¬ test_gone before after ∧ (skip_added before after ∨ return_added before after) ∧ sub = "added-skip"))
      else (class_of f = ClassTest ∨ class_of f = ClassSource) ∧ sub = "build-constraint"
  end.

Lemma tests_kept_iff f : tests_kept f ↔ Found (Go (base_of f) (pf_Content f)) = false.
Proof.
  rewrite not_found_iff. unfold tests_kept.
  setoid_rewrite loses_test_iff. setoid_rewrite skips_more_iff. by setoid_rewrite returns_earlier_iff.
Qed.

(** What one file's verdict says. *)
Lemma weaken_file_spec f :
  match weaken_file cls base f with
  | FileRefused r => r = fixRefusal ruleWeaken (rf_Sub r) (pf_Path f) ∧ judged f = true ∧ refused_for f (rf_Sub r)
  | FileUndecided => (class_of f = ClassTest ∨ class_of f = ClassSource) ∧ judged f = false
  | FilePassed =>
      (class_of f = ClassTest → judged f = true ∧ tests_kept f) ∧
      (class_of f = ClassSource → judged f = true ∧
         (ParseFile (pf_Content f) = None ∨ constraints (base_of f) = constraints (pf_Content f)))
  end.
Proof.
  assert (Hts : ClassTest ≠ ClassSource) by done.
  unfold weaken_file. cbn zeta. fold (class_of f). fold (base_of f). unfold judged.
  destruct (String.eqb_spec (class_of f) ClassSource) as [Hs|Hs], (String.eqb_spec (class_of f) ClassTest) as [Ht|Ht];
    cbn [negb andb]; [congruence| | |naive_solver];
    destruct (WeakeningDecidable _), (HasSuffix _ _); cbn [negb andb orb]; try tauto;
    destruct (Found (Go (base_of f) (pf_Content f))) eqn:Ef; cbn [negb orb].
  all: pose proof (tests_kept_iff f) as Hk; rewrite Ef in Hk; destruct (Go_exact (base_of f) (pf_Content f)) as [Hp Hx].
  - destruct (String.eqb_spec (Sub (Go (base_of f) (pf_Content f))) BuildConstraint) as [Eb|Eb]; cbn [rf_Sub fixRefusal].
    + split_and!; [done..|]. unfold refused_for. destruct (ParseFile (pf_Content f)) as [after|]; [|by rewrite Hp in Eb].
      case_decide as Hc; [|by rewrite Eb; auto]. exfalso. rewrite Hc, String.eqb_refl in Hp. cbn [negb] in Hp.
      destruct (ParseFile (base_of f)) as [before|]; [|by rewrite Hp in Eb].
      destruct (Hx before after eq_refl eq_refl Hc) as [[E _]|[[E _]|[E _]]]; rewrite E in Eb; discriminate Eb.
    + split; [congruence|]. intros _. split; [done|]. destruct (ParseFile (pf_Content f)); [right|by left].
      destruct (String.eqb_spec (constraints (base_of f)) (constraints (pf_Content f))) as [Hc|Hc]; [done|]. by cbn in Hp.
  - split; [congruence|]. intros _. split; [done|]. right. by destruct Hk as [_ [? _]].
  - cbn [rf_Sub fixRefusal]. split_and!; [done..|]. unfold refused_for.
    destruct (ParseFile (pf_Content f)) as [after|]; [|done].
    destruct (String.eqb_spec (constraints (base_of f)) (constraints (pf_Content f))) as [Hc|Hc]; cbn [negb] in Hp;
      [rewrite decide_True by done|rewrite decide_False by done; by rewrite Hp; auto].
    destruct (ParseFile (base_of f)) as [before|]; [|unfold Found in Ef; by rewrite Hp in Ef].
    exists before. split_and!; [done..|]. specialize (Hx before after eq_refl eq_refl Hc).
    rewrite <- loses_test_iff, <- skips_more_iff, <- returns_earlier_iff.
    destruct Hx as [[E ?]|[(E & ? & ?)|(E & _)]]; [left; by rewrite E|right; by rewrite E|].
    unfold Found in Ef. by rewrite E in Ef.
  - split; [|congruence]. intros _. split; [done|]. by apply Hk.
Qed.

(** C26. A plan passes the gate exactly when every changed Go test file its profile
    can judge still parses, keeps its build constraints and, as far as what it
    was parses, loses no test, no function of it gains a skip call and no test
    of it an early return, and every such source file that still parses keeps
    its build constraints. A test or source file of another language, or whose
    profile has no predicate, is recorded as undecided instead, and the fix is
    decided exactly when there is none; files of other classes are not looked
    at. A refusal names a file that fails and what was found in it, an
    unparseable test file first, then a changed constraint, a removed test, an
    added skip or return. *)
Theorem weakening_gate_exact plan :
  match weakeningGate cls base plan with
  | Ok w =>
      (∀ f, f ∈ fp_Files plan → class_of f = ClassTest → judged f = true →
         constraints (base_of f) = constraints (pf_Content f) ∧
         ∃ after, ParseFile (pf_Content f) = Some after ∧
           ∀ before, ParseFile (base_of f) = Some before →
             ¬ test_gone before after ∧ ¬ skip_added before after ∧ ¬ return_added before after) ∧
      (∀ f, f ∈ fp_Files plan → class_of f = ClassSource → judged f = true →
         ParseFile (pf_Content f) = None ∨ constraints (base_of f) = constraints (pf_Content f)) ∧
      (∀ p, p ∈ undecided w ↔ ∃ f, f ∈ fp_Files plan ∧ p = pf_Path f ∧ (class_of f = ClassTest ∨ class_of f = ClassSource) ∧ judged f = false) ∧
      (state w = FixWeakeningDecided ↔ undecided w = [])
  | Err r => ∃ f, f ∈ fp_Files plan ∧ rf_Path r = pf_Path f ∧ judged f = true ∧ refused_for f (rf_Sub r)
  end.
Proof.
  unfold weakeningGate. pose proof (weaken_files_spec (fp_Files plan) []) as Hs. destruct (weaken_files _ _ _ _) as [w|r].
  - destruct Hs as [Hno Hund].
    assert (Hpass : ∀ f, f ∈ fp_Files plan → judged f = true → weaken_file cls base f = FilePassed).
    { intros f Hf Hj. pose proof (weaken_file_spec f) as Hfile. specialize (Hno f Hf).
      destruct (weaken_file cls base f) as [r| |]; [by destruct (Hno r)|destruct Hfile; congruence|done]. }
    split_and!.
    + intros f Hf Ht Hj. pose proof (weaken_file_spec f) as Hfile. rewrite (Hpass f Hf Hj) in Hfile. by apply Hfile.
    + intros f Hf Hsrc Hj. pose proof (weaken_file_spec f) as Hfile. rewrite (Hpass f Hf Hj) in Hfile. by apply Hfile.
    + intros p. rewrite Hund. cbn [app]. rewrite sort_strings_elem, list_elem_of_fmap. setoid_rewrite elem_of_filter_List. split.
      * intros (f & -> & Hf & Hv). exists f. pose proof (weaken_file_spec f) as Hfile.
        destruct (weaken_file cls base f); [done| |done]. by destruct Hfile.
      * intros (f & Hf & -> & Hc & Hj). exists f. split_and!; [done..|]. pose proof (weaken_file_spec f) as Hfile. specialize (Hno f Hf).
        destruct (weaken_file cls base f) as [r| |]; [by destruct (Hno r)|done|].
        destruct Hfile as [F1 F2], Hc as [Hc|Hc]; [destruct (F1 Hc)|destruct (F2 Hc)]; congruence.
    + unfold state. destruct (0 <? length (undecided w))%nat eqn:E; [|rewrite length_pos in E; done]. split; [done|]. intros E'. by rewrite E' in E.
  - destruct Hs as (f & Hf & Hv). pose proof (weaken_file_spec f) as Hfile. rewrite Hv in Hfile. destruct Hfile as (Hr & Hj & Hc). exists f.
    split_and!; [done| |done..]. by rewrite Hr.
Qed.
End gate_facts.
End weaken_facts.

(** ** Examples *)

Definition test_func (name : string) (body : list Node) : option FuncDecl := Some (mkFuncDecl name None (Some body)).
Definition skip_stmt : Node := Other [CallExpr (SelectorExpr (Ident "t") "Skip") []].
Definition fail_stmt : Node := Other [CallExpr (SelectorExpr (Ident "t") "Fatal") []].
Definition guard (body : list Node) : Node := IfStmt None (Ident "short") body None.

(** A parser that knows a few files by their last word. *)
Definition example_parser : GoParser := {|
  ParseFile := λ s,
    if HasSuffix s "plain" then Some (mkFile [test_func "TestA" [fail_stmt]; test_func "helper" []])
    else if HasSuffix s "more" then Some (mkFile [test_func "TestA" [fail_stmt]; test_func "TestB" []])
    else if HasSuffix s "all" then Some (mkFile [test_func "TestA" [fail_stmt]; test_func "TestB" []; test_func "TestC" [guard [ReturnStmt []]]])
    else if HasSuffix s "skipped" then Some (mkFile [test_func "TestA" [fail_stmt]; test_func "helper" [Other [skip_stmt]]])
    else if HasSuffix s "early" then Some (mkFile [test_func "TestA" [BlockStmt [guard [ReturnStmt []]]]; test_func "helper" []])
    else if HasSuffix s "fails" then Some (mkFile [test_func "TestA" [guard [fail_stmt; ReturnStmt []]]; test_func "helper" []])
    else if HasSuffix s "renamed" then Some (mkFile [test_func "testA" [fail_stmt]; test_func "helper" []])
    else None |}.

Example weaken_examples :
  let sub a b := Sub (@Go ascii_unicode range_canonical example_parser a b) in
  sub "plain" "plain" = "" ∧ sub "plain" "more" = "" ∧ sub "plain" "fails" = "" ∧
  sub "plain" "skipped" = AddedSkip ∧ sub "plain" "early" = AddedSkip ∧ sub "early" "plain" = "" ∧
  sub "plain" "renamed" = RemovedTest ∧ sub "plain" "broken" = Unparseable ∧ sub "broken" "early" = "" ∧
  let nl := String newline_char "" in
  sub ("//go:build linux" +:+ nl +:+ "package x" +:+ nl +:+ "plain") "plain" = BuildConstraint ∧
  sub ("//go:build  linux" +:+ nl +:+ "plain") ("//go:build linux" +:+ nl +:+ "plain") = "" ∧
  sub ("package x" +:+ nl +:+ "// +build linux" +:+ nl +:+ "plain") "plain" = "" ∧
  sub ("//go:builder" +:+ nl +:+ "plain") "plain" = "" ∧
  fi_Detail (@Go ascii_unicode range_canonical example_parser "plain" "skipped") = Some (DSkips ["helper"]).
Proof. vm_compute. done. Qed.

Lemma no_salami_witness : Found (@Go ascii_unicode range_canonical example_parser "plain" "all") = false.
Proof. apply (@no_salami ascii_unicode range_canonical example_parser "plain" "more" "all"); vm_compute; reflexivity. Defined.
