(* ===== verification/FixIdentity.v ===== *)
(** * [pkg/pipelinectx]: the identity of a run and of its fix, and the markers
      they are found by

    [anchor.go], [fingerprint.go], [fixanchor.go], [fixepoch.go] and
    [runmarker.go]. The shapes the code checks with regular expressions are
    recognisers here: no character class in them holds the colon or the space
    that ends it, so each has one way to match. *)

From Stdlib Require Import Ascii.
From S2P Require Import Prelude.
From S2P Require Import GoStrings.
From S2P Require Import GoTime.
From S2P Require Import GoPath.
From S2P Require Import GoUTF8.
From S2P Require Import FixGate.
From S2P Require Import Pipefix.
From S2P Require Import Sha256.

Inductive id_error :=
| ErrBadTarget
| BadProject (id : Z)
| BadFingerprint (fp : string)
| BadLastSuccess (id : Z)
| BadFixEpoch (id : Z)
| NotAnAnchor (s : string)
| NotAFixAnchor (s : string)
| FixEpochRange (anchor : string)
| UnknownRunState (s : string)
| UnknownFixState (s : string)
| BadCauseKey (s : string)
| PipelineTimeUnknown
| LastSuccessTimeUnknown (id : Z)
| MergedFixIID (iid : Z)
| MergedFixTime (iid : Z).

(** ** Targets and anchors ([anchor.go]) *)

Definition TargetKindMR : string := "mr".
Definition TargetKindRef : string := "ref".
Record Target := mkTarget { Kind : string; MRIID : Z; Ref : string }.
Definition MRTarget (iid : Z) : Target := mkTarget TargetKindMR iid "".
Definition RefTarget (ref : string) : Target := mkTarget TargetKindRef 0 ref.

Definition bad_ref_rune (r : Z) : bool := IsSpace r || IsControl r.
Definition Validate (t : Target) : option id_error :=
  if String.eqb (Kind t) TargetKindMR then if MRIID t <? 1 then Some ErrBadTarget else None
  else if String.eqb (Kind t) TargetKindRef then
    if String.eqb (Ref t) "" then Some ErrBadTarget
    else if existsb (λ p, bad_ref_rune (default 65533 (pc_rune p))) (pieces (Ref t)) then Some ErrBadTarget
    else None
  else Some ErrBadTarget.
Definition Target_String (t : Target) : string :=
  if String.eqb (Kind t) TargetKindMR then TargetKindMR +:+ ":" +:+ itoa (MRIID t) else TargetKindRef +:+ ":" +:+ Ref t.

(** [strings.Cut] at the first colon. *)
Fixpoint cut_colon (s : string) : option (string * string) :=
  match s with
  | EmptyString => None
  | String c s =>
      if Ascii.eqb c ":" then Some ("", s)
      else match cut_colon s with Some (a, b) => Some (String c a, b) | None => None end
  end.

Definition ParseTarget (s : string) : result id_error Target :=
  match cut_colon s with
  | None => Err ErrBadTarget
  | Some (kind, rest) =>
      let checked t := match Validate t with Some e => Err e | None => Ok t end in
      if String.eqb kind TargetKindMR then
        match ParseInt rest with
        | Ok iid => if String.eqb (itoa iid) rest then checked (MRTarget iid) else Err ErrBadTarget
        | Err _ => Err ErrBadTarget
        end
      else if String.eqb kind TargetKindRef then checked (RefTarget rest)
      else Err ErrBadTarget
  end.

Definition Key (t : Target) : string :=
  if String.eqb (Kind t) TargetKindMR then "mr" +:+ itoa (MRIID t) else "ref-" +:+ hash_prefix 8 (Ref t).

(** [[0-9a-f]{n}] and [[1-9][0-9]*]. *)
Definition hex_n (n : Z) (s : string) : bool := (len s =? n) && all_bytes is_hex s.
Definition positive_number (s : string) : bool :=
  match s with String c s => in_range 49 57 c && all_bytes is_digit s | EmptyString => false end.
Definition natural_number (s : string) : bool := String.eqb s "0" || positive_number s.
Definition after_prefix (p s : string) (f : string → bool) : bool := HasPrefix s p && f (string_drop (String.length p) s).

Definition target_key (s : string) : bool := after_prefix "mr" s positive_number || after_prefix "ref-" s (hex_n 8).

Definition Anchor (projectID : Z) (t : Target) (fingerprint : string) (lastSuccess fixEpoch : Z) : result id_error string :=
  if projectID <? 1 then Err (BadProject projectID)
  else match Validate t with
  | Some e => Err e
  | None =>
      if negb (hex_n 16 fingerprint) then Err (BadFingerprint fingerprint)
      else if lastSuccess <? 0 then Err (BadLastSuccess lastSuccess)
      else if fixEpoch <? 0 then Err (BadFixEpoch fixEpoch)
      else
        let a := "gonk:" +:+ itoa projectID +:+ ":pipeline:" +:+ Key t +:+ ":" +:+ fingerprint +:+ ":s" +:+ itoa lastSuccess in
        Ok (if negb (fixEpoch =? 0) then a +:+ ":f" +:+ itoa fixEpoch else a)
  end.

(** The two expressions: the project id and the fix epoch of a match, or of the
    text no match. *)
Definition colon : ascii := ":"%char.
Definition anchor_match (segment s : string) : option (string * string) :=
  let common g pid seg key fp ls :=
    String.eqb g "gonk" && positive_number pid && String.eqb seg segment && target_key key && hex_n 16 fp &&
    after_prefix "s" ls natural_number in
  match Split colon s with
  | [g; pid; seg; key; fp; ls] => if common g pid seg key fp ls then Some (pid, "") else None
  | [g; pid; seg; key; fp; ls; f] =>
      if common g pid seg key fp ls && after_prefix "f" f positive_number then Some (pid, string_drop 1 f) else None
  | _ => None
  end.
Definition anchorRe : string → option (string * string) := anchor_match "pipeline".
Definition fixAnchorRe : string → option (string * string) := anchor_match "pipefix".
Definition is_some {A} (o : option A) : bool := match o with Some _ => true | None => false end.

Definition SessionKey (anchor : string) : result id_error string :=
  match anchorRe anchor with
  | None => Err (NotAnAnchor anchor)
  | Some (pid, _) => Ok ("gonk-" +:+ pid +:+ "-pl-" +:+ hash_prefix 12 anchor)
  end.

Definition AnchorFixEpoch (anchor : string) : result id_error Z :=
  match anchorRe anchor with
  | None => Err (NotAnAnchor anchor)
  | Some (_, f) =>
      if String.eqb f "" then Ok 0
      else match ParseInt f with Ok iid => Ok iid | Err _ => Err (FixEpochRange anchor) end
  end.

Definition TerminalForHealth (status : string) : bool := String.eqb status "success" || String.eqb status "failed".

(** ** Fingerprints ([fingerprint.go]) *)

Record FailedJob := mkFailedJob { fj_Stage : string; fj_Name : string; fj_FailureReason : string; fj_AllowFailure : bool }.
Definition NoJobsReason : string := "no_jobs".
Definition nul : string := String (ascii_of_nat 0) "".
Definition line_end : string := String (ascii_of_nat 10) "".

Definition job_line (j : FailedJob) : string := fj_Stage j +:+ nul +:+ fj_Name j +:+ nul +:+ fj_FailureReason j.
Definition Fingerprint (jobs : list FailedJob) (pipelineFailureReason : string) : string :=
  let lines := map job_line (List.filter (λ j, negb (fj_AllowFailure j)) jobs) in
  let lines := if (length lines =? 0)%nat
               then ["pipeline" +:+ nul +:+ (if String.eqb pipelineFailureReason "" then NoJobsReason else pipelineFailureReason)]
               else lines in
  hash_prefix 16 (Join (sort_strings lines) line_end +:+ line_end).

(** ** The fix's identity ([fixanchor.go]) *)

Definition anchorRunSegment : string := ":pipeline:".
Definition anchorFixSegment : string := ":pipefix:".

Definition FixAnchor (runAnchor : string) : result id_error string :=
  if negb (is_some (anchorRe runAnchor)) then Err (NotAnAnchor runAnchor)
  else Ok (Replace1 runAnchor anchorRunSegment anchorFixSegment).
Definition RunAnchorOfFix (fixAnchor : string) : result id_error string :=
  if negb (is_some (fixAnchorRe fixAnchor)) then Err (NotAFixAnchor fixAnchor)
  else Ok (Replace1 fixAnchor anchorFixSegment anchorRunSegment).
Definition IsFixAnchor (s : string) : bool := is_some (fixAnchorRe s).

Definition fixAnchorHash (fixAnchor : string) : result id_error (string * string) :=
  match fixAnchorRe fixAnchor with
  | None => Err (NotAFixAnchor fixAnchor)
  | Some (pid, _) => Ok (pid, hash_prefix 12 fixAnchor)
  end.

Definition FixBranchPrefix : string := "gonk/pipefix-".
Definition IsFixBranch (name : string) : bool := after_prefix FixBranchPrefix name (hex_n 12).
Definition FixBranch (fixAnchor : string) : result id_error string :=
  '(_, h) ← fixAnchorHash fixAnchor; Ok (FixBranchPrefix +:+ h).
Definition FixSessionKey (fixAnchor : string) : result id_error string :=
  '(pid, h) ← fixAnchorHash fixAnchor; Ok ("gonk-" +:+ pid +:+ "-pf-" +:+ h).

(** ** Markers *)

(** [RE2]'s white space. *)
Definition re_space (c : ascii) : bool :=
  let n := byte_val c in (n =? 9) || (n =? 10) || (n =? 12) || (n =? 13) || (n =? 32).
Definition state_char (c : ascii) : bool := in_range 97 122 c || (byte_val c =? 95) || (byte_val c =? 45).

(** The longest run of characters of a class, and the rest. *)
Fixpoint span (f : ascii → bool) (s : string) : string * string :=
  match s with
  | EmptyString => ("", "")
  | String c s' => if f c then let '(a, b) := span f s' in (String c a, b) else ("", s)
  end.
Definition strip (p s : string) : option string := if HasPrefix s p then Some (string_drop (String.length p) s) else None.

(** [prefix(\S+)word(class+) -->] at the front of the text. *)
Definition marker_at (prefix word : string) (class : ascii → bool) (s : string) : option ((string * string) * string) :=
  match strip prefix s with
  | None => None
  | Some s =>
      let '(anchor, s) := span (λ c, negb (re_space c)) s in
      if String.eqb anchor "" then None
      else match strip word s with
      | None => None
      | Some s =>
          let '(value, s) := span class s in
          if String.eqb value "" then None
          else match strip " -->" s with Some s => Some ((anchor, value), s) | None => None end
      end
  end.

(** [FindAllStringSubmatch]: from the left, not overlapping; the fuel is the
    length of the text. *)
Fixpoint find_all {A} (fuel : nat) (at_ : string → option (A * string)) (s : string) : list A :=
  match fuel with
  | O => []
  | S fuel =>
      match at_ s with
      | Some (a, rest) => a :: find_all fuel at_ rest
      | None => match s with EmptyString => [] | String _ s => find_all fuel at_ s end
      end
  end.
Definition FindAll {A} (at_ : string → option (A * string)) (s : string) : list A := find_all (S (String.length s)) at_ s.

Definition states_of (prefix : string) (body anchor : string) : list string :=
  if negb (Contains_sub body prefix) then []
  else map snd (List.filter (λ m, String.eqb (fst m) anchor) (FindAll (marker_at prefix " state=" state_char) body)).

(** [runmarker.go]. *)
Definition RunStateDiagnosing : string := "diagnosing".
Definition RunStateDeferred : string := "deferred".
Definition RunStateDenied : string := "denied".
Definition RunStateDiagnosed : string := "diagnosed".
Definition RunStateResolved : string := "resolved".
Definition RunStateSuperseded : string := "superseded".
Definition RunStates : list string :=
  [RunStateDiagnosing; RunStateDeferred; RunStateDenied; RunStateDiagnosed; RunStateResolved; RunStateSuperseded].
Definition KnownRunState (s : string) : bool := contains RunStates s.
Definition RunHandled (s : string) : bool := contains [RunStateDiagnosed; RunStateDenied; RunStateResolved; RunStateSuperseded] s.

Definition runMarkerPrefix : string := "<!-- gonk:pipeline-run:".
Definition RunMarker (anchor state : string) : result id_error string :=
  if negb (is_some (anchorRe anchor)) then Err (NotAnAnchor anchor)
  else if negb (KnownRunState state) then Err (UnknownRunState state)
  else Ok (runMarkerPrefix +:+ anchor +:+ " state=" +:+ state +:+ " -->").
Definition RunMarkerStates (body anchor : string) : list string := states_of runMarkerPrefix body anchor.
Definition RefIssueMarker (ref : string) : string := "<!-- gonk:pipeline-ref:" +:+ ref +:+ " -->".

(** The fix note's and the fix merge request's ([fixanchor.go]). *)
Definition FixNoteNotEligible : string := "not-eligible".
Definition FixNoteProposing : string := "proposing".
Definition fixNoteStates : list string :=
  [FixNoteNotEligible; FixNoteProposing; "needs-scope"; "awaiting-run"; "verifying"; "fixed"; "fixed-new-failure"; "not-fixed"; "flaky";
   "unverifiable"; "regressed"; "denied"; "taken-over"; "closed-unmerged"; "merged"; "confirmed"; "recurred"].
Definition KnownFixNoteState (s : string) : bool := contains fixNoteStates s.

Definition fixMarkerPrefix : string := "<!-- gonk:pipeline-fix:".
Definition FixMarker (fixAnchor state : string) : result id_error string :=
  if negb (is_some (fixAnchorRe fixAnchor)) then Err (NotAFixAnchor fixAnchor)
  else if negb (KnownFixNoteState state) then Err (UnknownFixState state)
  else Ok (fixMarkerPrefix +:+ fixAnchor +:+ " state=" +:+ state +:+ " -->").
Definition FixMarkerStates (body fixAnchor : string) : list string := states_of fixMarkerPrefix body fixAnchor.

Definition fixMRMarkerPrefix : string := "<!-- gonk:pipeline-fix-mr:".
Definition FixMRMarker (fixAnchor causeKey : string) : result id_error string :=
  if negb (is_some (fixAnchorRe fixAnchor)) then Err (NotAFixAnchor fixAnchor)
  else if negb (hex_n 16 causeKey) then Err (BadCauseKey causeKey)
  else Ok (fixMRMarkerPrefix +:+ fixAnchor +:+ " cause=" +:+ causeKey +:+ " -->").

(** A marker whose cause has sixteen digits: a longer run is no match. *)
Definition mr_marker_at (s : string) : option ((string * string) * string) :=
  match marker_at fixMRMarkerPrefix " cause=" is_hex s with
  | Some ((anchor, cause), rest) => if hex_n 16 cause then Some ((anchor, cause), rest) else None
  | None => None
  end.
Fixpoint agree (found : option (string * string)) (ms : list (string * string)) : option (string * string) :=
  match ms with
  | [] => found
  | m :: ms =>
      if negb (is_some (fixAnchorRe (fst m))) then None
      else match found with
           | Some f => if negb (String.eqb (fst m) (fst f)) || negb (String.eqb (snd m) (snd f)) then None else agree (Some m) ms
           | None => agree (Some m) ms
           end
  end.
(** [None]: not ok. *)
Definition ParseFixMRMarker (description : string) : option (string * string) :=
  if negb (Contains_sub description fixMRMarkerPrefix) then None else agree None (FindAll mr_marker_at description).

(** ** The fix epoch ([fixepoch.go]) *)

Record MergedFix := mkMergedFix { IID : Z; TargetBranch : string; MergedAt : Time; LandedSHAs : list string }.
Record FixEpochFacts := mkFixEpochFacts {
  PipelineSHA : string; PipelineCreatedAt : Time; LastSuccess : Z; LastSuccessSHA : string; LastSuccessCreatedAt : Time }.

Definition landedOn (x : MergedFix) (sha : string) : bool :=
  if String.eqb sha "" then false else existsb (λ s, negb (String.eqb s "") && String.eqb s sha) (LandedSHAs x).

Definition pipeline_after (f : FixEpochFacts) (x : MergedFix) : bool :=
  landedOn x (PipelineSHA f) || negb (Before (PipelineCreatedAt f) (MergedAt x)).
Definition green_after (f : FixEpochFacts) (x : MergedFix) : bool :=
  negb (LastSuccess f =? 0) && (landedOn x (LastSuccessSHA f) || negb (After (MergedAt x) (LastSuccessCreatedAt f))).
Definition newer (x : MergedFix) (best : option MergedFix) : bool :=
  match best with
  | None => true
  | Some b => After (MergedAt x) (MergedAt b) || ((MergedAt x =? MergedAt b) && (IID b <? IID x))
  end.

Fixpoint epoch_loop (f : FixEpochFacts) (fixes : list MergedFix) (best : option MergedFix) : result id_error (option MergedFix) :=
  match fixes with
  | [] => Ok best
  | x :: fixes =>
      if IID x <? 1 then Err (MergedFixIID (IID x))
      else if IsZero (MergedAt x) then Err (MergedFixTime (IID x))
      else if negb (pipeline_after f x) then epoch_loop f fixes best
      else if green_after f x then epoch_loop f fixes best
      else epoch_loop f fixes (if newer x best then Some x else best)
  end.

Definition FixEpoch (fixes : list MergedFix) (f : FixEpochFacts) : result id_error Z :=
  if (length fixes =? 0)%nat then Ok 0
  else if IsZero (PipelineCreatedAt f) then Err PipelineTimeUnknown
  else if negb (LastSuccess f =? 0) && IsZero (LastSuccessCreatedAt f) then Err (LastSuccessTimeUnknown (LastSuccess f))
  else best ← epoch_loop f fixes None; Ok (match best with None => 0 | Some b => IID b end).

(** ** Numbers and replacing *)

Lemma digits_itoa z : 0 <= z → all_bytes is_digit (itoa z) = true.
Proof. intros. unfold itoa. destruct (Z.ltb_spec z 0); [lia|]. apply digits_bytes. Qed.

Lemma positive_itoa z : 0 < z → positive_number (itoa z) = true.
Proof.
  intros Hz. pose proof (digits_itoa z ltac:(lia)) as Hd. unfold itoa in *. destruct (Z.ltb_spec z 0) as [|_]; [lia|].
  destruct (N.to_uint (Z.to_N z)) eqn:E; try (cbn in *; done).
  - exfalso. apply (to_uint_nonempty (Z.to_N z)). by rewrite E.
  - apply to_uint_no_leading_zero in E. lia.
Qed.

Lemma natural_itoa z : 0 <= z → natural_number (itoa z) = true.
Proof. intros. unfold natural_number. destruct (decide (z = 0)) as [->|]; [done|]. rewrite positive_itoa by lia. apply orb_true_r. Qed.

Lemma positive_digits s : positive_number s = true → all_bytes is_digit s = true ∧ s ≠ "".
Proof.
  destruct s as [|c s]; cbn [positive_number]; [done|]. intros [Hc Hs]%andb_prop. split; [|done]. cbn [all_bytes]. rewrite Hs, andb_true_r.
  unfold is_digit, in_range in *. apply andb_prop in Hc as [??]. bool_hyps. apply andb_true_intro. split; apply Z.leb_le; lia.
Qed.

Lemma digit_no_colon s : all_bytes is_digit s = true → no_byte colon s.
Proof. unfold no_byte. apply all_bytes_impl. intros c Hc. destruct (Ascii.eqb_spec c colon) as [->|]; done. Qed.
Lemma hex_no_colon s : all_bytes is_hex s = true → no_byte colon s.
Proof. unfold no_byte. apply all_bytes_impl. intros c Hc. destruct (Ascii.eqb_spec c colon) as [->|]; done. Qed.

Lemma after_prefix_app p s f : after_prefix p (p +:+ s) f = f s.
Proof.
  unfold after_prefix, HasPrefix. rewrite drop_app. replace (String.prefix p (p +:+ s)) with true; [done|].
  symmetry. apply prefix_split. by exists s.
Qed.

Lemma Replace1_here old new post : Replace1 (old +:+ post) old new = new +:+ post.
Proof.
  unfold Replace1. replace (Index (old +:+ post) old) with (Some 0%nat).
  - replace (String.substring 0 0 (old +:+ post)) with "" by by destruct (old +:+ post). by rewrite Nat.add_0_l, drop_app.
  - assert (String.prefix old (old +:+ post) = true) as E by (apply prefix_split; by exists post).
    destruct (old +:+ post); cbn [Index]; by rewrite E.
Qed.

Lemma Replace1_skip c s old new : String.prefix old (String c s) = false → Replace1 (String c s) old new = String c (Replace1 s old new).
Proof. intros E. unfold Replace1. cbn [Index]. rewrite E. by destruct (Index s old) as [i|]. Qed.

Lemma prefix_head_ne c old d s : c ≠ d → String.prefix (String c old) (String d s) = false.
Proof. intros. cbn. by destruct (Ascii.ascii_dec c d). Qed.

Lemma prefix_second_ne a c old d s : c ≠ d → String.prefix (String a (String c old)) (String a (String d s)) = false.
Proof.
  intros Hne. change (String.prefix (String a (String c old)) (String a (String d s)))
    with (if Ascii.ascii_dec a a then String.prefix (String c old) (String d s) else false).
  destruct (Ascii.ascii_dec a a); [by apply prefix_head_ne|done].
Qed.

(** The segment of an anchor, replaced. *)
Lemma Replace1_segment pid p seg new rest :
  all_bytes is_digit pid = true → pid ≠ "" → is_digit p = false →
  let old := String colon (String p seg) in
  Replace1 ("gonk:" +:+ pid +:+ old +:+ rest) old new = "gonk:" +:+ pid +:+ new +:+ rest.
Proof.
  intros Hd Hne Hp old. destruct pid as [|d pid]; [done|].
  change ("gonk:" +:+ String d pid +:+ old +:+ rest) with
    (String "g" (String "o" (String "n" (String "k" (String colon (String d pid +:+ old +:+ rest)))))).
  do 4 (rewrite Replace1_skip by (by apply prefix_head_ne)).
  assert (d ≠ p) as Hdp by (intros ->; cbn in Hd; by rewrite Hp in Hd).
  rewrite Replace1_skip.
  2: { apply prefix_second_ne. congruence. }
  match goal with |- _ = "gonk:" +:+ ?X =>
    change ("gonk:" +:+ X) with (String "g" (String "o" (String "n" (String "k" (String colon X))))) end.
  do 5 f_equal. clear Hdp Hne. revert Hd. generalize (String d pid). clear d pid. induction s as [|c s IH]; intros Hd; [exact (Replace1_here old new rest)|].
  cbn [all_bytes] in Hd. apply andb_prop in Hd as [Hc Hs].
  change (String c s +:+ old +:+ rest) with (String c (s +:+ old +:+ rest)). rewrite Replace1_skip; [by rewrite IH|].
  apply prefix_head_ne. by intros <-.
Qed.

(** ** Anchors *)

Lemma Split_colon h s : no_byte colon h → Split colon (h +:+ ":" +:+ s) = h :: Split colon s.
Proof. exact (Split_app_sep colon h s). Qed.

Lemma anchor_match_shape seg s pid f : anchor_match seg s = Some (pid, f) →
  ∃ rest, s = "gonk:" +:+ pid +:+ (":" +:+ seg +:+ ":") +:+ rest ∧ positive_number pid = true ∧ (f = "" ∨ positive_number f = true) ∧
    ∀ seg', no_byte colon seg' → anchor_match seg' ("gonk:" +:+ pid +:+ (":" +:+ seg' +:+ ":") +:+ rest) = Some (pid, f).
Proof.
  unfold anchor_match at 1. intros Hm. pose proof (Join_Split colon s) as Hj.
  destruct (Split colon s) as [|g [|p [|sg [|key [|fp [|ls l]]]]]] eqn:E; try done.
  assert (∃ rest, rest = Join (key :: fp :: ls :: l) ":" ∧ Split colon rest = key :: fp :: ls :: l ∧
    s = g +:+ ":" +:+ p +:+ ":" +:+ sg +:+ ":" +:+ rest) as (rest & _ & Hr & Hs).
  { exists (Join (key :: fp :: ls :: l) ":"). split_and!; [done| |by rewrite <- Hj].
    apply Split_Join; [done|]. pose proof (Split_no_sep colon s) as Hn. rewrite E in Hn. exact (Forall_drop _ 3 _ Hn). }
  assert (positive_number p = true ∧ g = "gonk" ∧ sg = seg ∧ p = pid ∧ (f = "" ∨ positive_number f = true) ∧
    ∀ seg', no_byte colon seg' → anchor_match seg' ("gonk" +:+ ":" +:+ p +:+ ":" +:+ seg' +:+ ":" +:+ rest) = Some (pid, f)) as (Hp & -> & -> & -> & Hf & Hseg).
  { assert (no_byte colon p) as Hnp.
    { pose proof (Split_no_sep colon s) as Hn. rewrite E in Hn. by apply Forall_cons in Hn as [_ [? _]%Forall_cons]. }
    assert (∀ seg', no_byte colon seg' → Split colon ("gonk" +:+ ":" +:+ p +:+ ":" +:+ seg' +:+ ":" +:+ rest) = "gonk" :: p :: seg' :: key :: fp :: ls :: l) as Hsp.
    { intros seg' Hn. by rewrite !Split_colon, Hr by done. }
    unfold anchor_match. destruct l as [|x [|y l]]; [| |done].
    - destruct (_ && _) eqn:Eb in Hm; [|done]. injection Hm as -> <-. bool_hyps. subst g sg. split_and!; [done..|by left|].
      intros seg' Hn. rewrite Hsp by done. rewrite !String.eqb_refl. cbn [andb]. repeat match goal with H : _ = true |- _ => rewrite H end. done.
    - destruct (_ && _) eqn:Eb in Hm; [|done]. injection Hm as -> <-. bool_hyps. subst g sg. split_and!; [done..| |].
      + right. match goal with H : after_prefix "f" x _ = true |- _ => unfold after_prefix in H; by apply andb_prop in H as [_ ?] end.
      + intros seg' Hn. rewrite Hsp by done. rewrite !String.eqb_refl. cbn [andb]. repeat match goal with H : _ = true |- _ => rewrite H end. done. }
  exists rest. split_and!; [|done|done|].
  - rewrite Hs. rewrite !string_app_assoc. done.
  - intros seg' Hn. rewrite !string_app_assoc. by apply Hseg.
Qed.

Lemma Key_ok t : Validate t = None → no_byte colon (Key t) ∧ target_key (Key t) = true.
Proof.
  unfold Validate, Key. destruct (String.eqb (Kind t) TargetKindMR).
  - destruct (Z.ltb_spec (MRIID t) 1) as [|Hi]; [done|]. intros _. split.
    + apply (digit_no_colon (itoa (MRIID t))), digits_itoa. lia.
    + unfold target_key. rewrite after_prefix_app, positive_itoa by lia. done.
  - intros _. destruct (hash_prefix_shape 8 (Ref t) ltac:(lia)) as [Hl Hh]. split; [by apply hex_no_colon in Hh|].
    unfold target_key. rewrite (after_prefix_app "ref-"). unfold hex_n, len. rewrite Hl, Hh. apply orb_true_r.
Qed.

(** The identity of a run: an anchor has the shape every reader checks, gives
    the fix epoch it was built with back, and turns into the fix's anchor and
    back; the fix's anchor is no run anchor; and its branch is a fix branch. *)
Lemma Anchor_shape projectID t fingerprint lastSuccess fixEpoch a :
  Anchor projectID t fingerprint lastSuccess fixEpoch = Ok a →
  anchorRe a = Some (itoa projectID, if fixEpoch =? 0 then "" else itoa fixEpoch) ∧
  Split colon a = "gonk" :: itoa projectID :: "pipeline" :: Key t :: fingerprint :: ("s" +:+ itoa lastSuccess) ::
    (if fixEpoch =? 0 then [] else ["f" +:+ itoa fixEpoch]).
Proof.
  unfold Anchor. destruct (Z.ltb_spec projectID 1) as [|Hp]; [done|]. destruct (Validate t) eqn:Hv; [done|].
  destruct (hex_n 16 fingerprint) eqn:Hfp; cbn [negb]; [|done]. destruct (Z.ltb_spec lastSuccess 0) as [|Hl]; [done|].
  destruct (Z.ltb_spec fixEpoch 0) as [|Hf]; [done|]. cbn zeta. destruct (Key_ok t Hv) as [Hk1 Hk2].
  assert (no_byte colon (itoa projectID)) as Hn1 by (apply digit_no_colon, digits_itoa; lia).
  assert (no_byte colon fingerprint) as Hn2 by (unfold hex_n in Hfp; apply andb_prop in Hfp as [_ ?]; by apply hex_no_colon).
  assert (no_byte colon ("s" +:+ itoa lastSuccess)) as Hn3 by (apply (digit_no_colon (itoa lastSuccess)), digits_itoa; lia).
  assert (after_prefix "s" ("s" +:+ itoa lastSuccess) natural_number = true) as Hls by (by rewrite after_prefix_app, natural_itoa by lia).
  intros E. assert (Split colon a = "gonk" :: itoa projectID :: "pipeline" :: Key t :: fingerprint :: ("s" +:+ itoa lastSuccess) ::
    (if fixEpoch =? 0 then [] else ["f" +:+ itoa fixEpoch])) as Hs.
  { injection E as <-. destruct (Z.eqb_spec fixEpoch 0) as [->|Hne]; cbn [negb].
    - change (Split colon ("gonk" +:+ ":" +:+ itoa projectID +:+ ":" +:+ "pipeline" +:+ ":" +:+ Key t +:+ ":" +:+ fingerprint +:+ ":" +:+
        ("s" +:+ itoa lastSuccess)) = "gonk" :: itoa projectID :: "pipeline" :: Key t :: fingerprint :: ["s" +:+ itoa lastSuccess]).
      by rewrite !Split_colon, Split_single by done.
    - assert (no_byte colon ("f" +:+ itoa fixEpoch)) as Hn4 by (apply (digit_no_colon (itoa fixEpoch)), digits_itoa; lia).
      rewrite !string_app_assoc.
      change (Split colon ("gonk" +:+ ":" +:+ itoa projectID +:+ ":" +:+ "pipeline" +:+ ":" +:+ Key t +:+ ":" +:+ fingerprint +:+ ":" +:+
        ("s" +:+ itoa lastSuccess) +:+ ":" +:+ ("f" +:+ itoa fixEpoch)) =
        "gonk" :: itoa projectID :: "pipeline" :: Key t :: fingerprint :: ("s" +:+ itoa lastSuccess) :: ["f" +:+ itoa fixEpoch]).
      by rewrite !Split_colon, Split_single by done. }
  split; [|done]. unfold anchorRe, anchor_match. rewrite Hs. rewrite positive_itoa, Hk2, Hfp, Hls by lia.
  destruct (Z.eqb_spec fixEpoch 0) as [->|Hne]; [done|]. rewrite after_prefix_app, positive_itoa by lia. done.
Qed.

Lemma itoa_nonneg_inj x y : 0 <= x → 0 <= y → itoa x = itoa y → x = y.
Proof.
  intros Hx Hy. unfold itoa. destruct (Z.ltb_spec x 0), (Z.ltb_spec y 0); try lia. intros E.
  apply (f_equal parse_digits) in E. rewrite !parse_digits_print in E. injection E as E. lia.
Qed.

Lemma FixAnchor_shape a pid f : anchorRe a = Some (pid, f) →
  ∃ fa, FixAnchor a = Ok fa ∧ fixAnchorRe fa = Some (pid, f) ∧ anchorRe fa = None ∧ RunAnchorOfFix fa = Ok a.
Proof.
  intros Ha. destruct (anchor_match_shape _ _ _ _ Ha) as (rest & -> & Hp & Hf & Hseg). apply positive_digits in Hp as [Hd Hne].
  pose proof (Hseg "pipefix" ltac:(done)) as Hfix. pose proof (Hseg "pipeline" ltac:(done)) as Hrun.
  exists ("gonk:" +:+ pid +:+ (":" +:+ "pipefix" +:+ ":") +:+ rest). unfold FixAnchor, RunAnchorOfFix.
  unfold fixAnchorRe, anchorRe in *. rewrite Ha, Hfix. cbn [is_some negb]. split_and!; [|done| |].
  - f_equal. exact (Replace1_segment pid "p" "ipeline:" ":pipefix:" rest Hd Hne ltac:(done)).
  - match goal with |- ?x = None => destruct x as [[pid' f']|] eqn:E; [|done] end. exfalso.
    destruct (anchor_match_shape _ _ _ _ E) as (rest' & E' & Hp' & _ & _). apply positive_digits in Hp' as [Hd' Hne'].
    apply (f_equal (Split colon)) in E'. rewrite !string_app_assoc in E'.
    change (Split colon ("gonk" +:+ ":" +:+ pid +:+ ":" +:+ "pipefix" +:+ ":" +:+ rest) =
      Split colon ("gonk" +:+ ":" +:+ pid' +:+ ":" +:+ "pipeline" +:+ ":" +:+ rest')) in E'.
    rewrite !Split_colon in E' by (done || by apply digit_no_colon). discriminate.
  - f_equal. exact (Replace1_segment pid "p" "ipefix:" ":pipeline:" rest Hd Hne ltac:(done)).
Qed.

(** The identity of a run and of its fix: an anchor gives back the fix epoch it
    was built with and stands for one run only; it turns into the fix's anchor,
    which is no run's, and back; and the fix's branch is recognised as one. *)
Theorem anchor_identity projectID t fingerprint lastSuccess fixEpoch a :
  int64 fixEpoch → Anchor projectID t fingerprint lastSuccess fixEpoch = Ok a →
  AnchorFixEpoch a = Ok fixEpoch ∧ (∃ k, SessionKey a = Ok k) ∧
  (∃ fa, FixAnchor a = Ok fa ∧ IsFixAnchor fa = true ∧ (∀ x, FixAnchor fa ≠ Ok x) ∧ RunAnchorOfFix fa = Ok a ∧
     ∃ b, FixBranch fa = Ok b ∧ IsFixBranch b = true) ∧
  ∀ p' t' fp' l' e', Anchor p' t' fp' l' e' = Ok a → p' = projectID ∧ Key t' = Key t ∧ fp' = fingerprint ∧ l' = lastSuccess ∧ e' = fixEpoch.
Proof.
  intros He Ha. destruct (Anchor_shape _ _ _ _ _ _ Ha) as [Hre Hsplit]. split_and!.
  - unfold AnchorFixEpoch. rewrite Hre. destruct (Z.eqb_spec fixEpoch 0) as [->|]; [done|].
    destruct (String.eqb_spec (itoa fixEpoch) "") as [E|_]; [|by rewrite ParseInt_itoa].
    apply (f_equal ParseInt) in E. rewrite ParseInt_itoa in E by done. discriminate.
  - unfold SessionKey. rewrite Hre. by eexists.
  - destruct (FixAnchor_shape _ _ _ Hre) as (fa & H1 & H2 & H3 & H4). exists fa. unfold IsFixAnchor, FixBranch, fixAnchorHash. rewrite H2.
    split_and!; [done..| | |].
    + unfold FixAnchor. by rewrite H3.
    + done.
    + eexists. split; [done|]. unfold IsFixBranch. rewrite after_prefix_app. destruct (hash_prefix_shape 12 fa ltac:(lia)) as [Hl Hh].
      unfold hex_n, len. by rewrite Hl, Hh.
  - intros p' t' fp' l' e' Ha'. destruct (Anchor_shape _ _ _ _ _ _ Ha') as [_ Hsplit']. rewrite Hsplit' in Hsplit.
    assert (∀ q t0 f0 l0 e0, Anchor q t0 f0 l0 e0 = Ok a → 0 <= q ∧ 0 <= l0 ∧ 0 <= e0) as Hpos.
    { intros q t0 f0 l0 e0. unfold Anchor. destruct (Z.ltb_spec q 1); [done|]. destruct (Validate t0); [done|]. destruct (negb _); [done|].
      destruct (Z.ltb_spec l0 0); [done|]. destruct (Z.ltb_spec e0 0); [done|]. lia. }
    apply Hpos in Ha as (? & ? & ?). apply Hpos in Ha' as (? & ? & ?).
    injection Hsplit as Hp Hk Hfp Hl Hf. split_and!; [by apply itoa_nonneg_inj|done|done|by apply itoa_nonneg_inj|].
    destruct (Z.eqb_spec e' 0), (Z.eqb_spec fixEpoch 0); try done; [congruence|]. injection Hf as Hf. by apply itoa_nonneg_inj.
Qed.

(** Targets read back as written. *)
Lemma cut_colon_app k s : no_byte colon k → cut_colon (k +:+ ":" +:+ s) = Some (k, s).
Proof.
  unfold no_byte. induction k as [|c k IH]; [done|]. cbn [all_bytes]. intros [Hc Hk]%andb_prop.
  change (String c k +:+ ":" +:+ s) with (String c (k +:+ ":" +:+ s)). cbn [cut_colon]. apply negb_true_iff in Hc. fold colon. rewrite Hc.
  match goal with |- match ?x with _ => _ end = _ => replace x with (Some (k, s)); [done|symmetry; by apply IH] end.
Qed.

Lemma ParseTarget_String t : Validate t = None → int64 (MRIID t) →
  ParseTarget (Target_String t) = Ok (if String.eqb (Kind t) TargetKindMR then MRTarget (MRIID t) else RefTarget (Ref t)).
Proof.
  intros Hv Hi. unfold ParseTarget, Target_String. destruct (String.eqb_spec (Kind t) TargetKindMR) as [Hk|Hk].
  - rewrite cut_colon_app by done. rewrite ParseInt_itoa, !String.eqb_refl by done. unfold Validate in *.
    rewrite Hk in Hv. cbn in *. by destruct (_ <? _).
  - rewrite cut_colon_app by done. cbn [String.eqb TargetKindMR TargetKindRef]. unfold Validate in *. apply String.eqb_neq in Hk. rewrite Hk in Hv.
    destruct (String.eqb (Kind t) TargetKindRef); [|done]. cbn. cbn in Hv. destruct (String.eqb _ _); [done|]. by destruct (existsb _ _).
Qed.

(** ** Fingerprints *)

Lemma sort_strings_perm l l' : l ≡ₚ l' → sort_strings l = sort_strings l'.
Proof.
  intros Hp. unfold sort_strings. apply (StronglySorted_unique string_le); [apply StronglySorted_merge_sort; apply _..|].
  by rewrite !merge_sort_Permutation.
Qed.

(** The fingerprint is of the failing jobs alone, whatever their order. *)
Lemma Fingerprint_set jobs jobs' reason :
  List.filter (λ j, negb (fj_AllowFailure j)) jobs ≡ₚ List.filter (λ j, negb (fj_AllowFailure j)) jobs' →
  Fingerprint jobs reason = Fingerprint jobs' reason.
Proof.
  intros Hp. unfold Fingerprint. cbn zeta. rewrite !length_map. pose proof (Permutation_map job_line Hp) as Hl.
  rewrite (Permutation_length Hp). destruct (_ =? 0)%nat; [done|]. by rewrite (sort_strings_perm _ _ Hl).
Qed.

(** ** Markers *)

Lemma span_all f a c s : all_bytes f a = true → f c = false → span f (a +:+ String c s) = (a, String c s).
Proof.
  induction a as [|b a IH]; intros Ha Hc; [change (span f (String c s) = ("", String c s)); cbn [span]; by rewrite Hc|]. cbn [all_bytes] in Ha. apply andb_prop in Ha as [Hb Ha].
  change (String b a +:+ String c s) with (String b (a +:+ String c s)). cbn [span]. rewrite Hb, IH; done.
Qed.
Lemma strip_app p s : strip p (p +:+ s) = Some s.
Proof.
  unfold strip, HasPrefix. rewrite drop_app. replace (String.prefix p (p +:+ s)) with true; [done|].
  symmetry. apply prefix_split. by exists s.
Qed.
Lemma span_length f s : (String.length (span f s).2 <= String.length s)%nat.
Proof. induction s as [|c s IH]; cbn [span]; [done|]. destruct (f c); [destruct (span f s); cbn in *; lia|done]. Qed.
Lemma strip_length p s t : strip p s = Some t → String.length s = (String.length p + String.length t)%nat.
Proof.
  unfold strip, HasPrefix. destruct (String.prefix p s) eqn:E; [|done]. intros [= <-]. apply prefix_split in E as [post ->].
  by rewrite drop_app, length_string_app.
Qed.

Lemma marker_at_self prefix w class anchor value post :
  all_bytes (λ c, negb (re_space c)) anchor = true → anchor ≠ "" → all_bytes class value = true → value ≠ "" → class " "%char = false →
  marker_at prefix (String " " w) class (prefix +:+ anchor +:+ String " " w +:+ value +:+ " -->" +:+ post) = Some ((anchor, value), post).
Proof.
  intros Ha Hna Hv Hnv Hc. unfold marker_at. rewrite strip_app.
  rewrite (span_all _ anchor " " (w +:+ value +:+ " -->" +:+ post) Ha ltac:(done) : span _ (anchor +:+ String " " w +:+ value +:+ " -->" +:+ post) = _).
  apply String.eqb_neq in Hna. rewrite Hna.
  rewrite (strip_app (String " " w) (value +:+ " -->" +:+ post) : strip _ (String " " (w +:+ value +:+ " -->" +:+ post)) = _).
  rewrite (span_all _ value " " ("-->" +:+ post) Hv Hc : span _ (value +:+ " -->" +:+ post) = _).
  apply String.eqb_neq in Hnv. rewrite Hnv. by rewrite (strip_app " -->" post : strip _ (String " " ("-->" +:+ post)) = _).
Qed.

Lemma marker_at_shorter prefix word class s m rest : prefix ≠ "" → marker_at prefix word class s = Some (m, rest) →
  (String.length rest < String.length s)%nat ∧ HasPrefix s prefix = true.
Proof.
  intros Hne. unfold marker_at. destruct (strip prefix s) as [s1|] eqn:E1; [|done].
  pose proof (strip_length _ _ _ E1) as L1. pose proof (span_length (λ c, negb (re_space c)) s1) as L2.
  destruct (span _ s1) as [a s2]. destruct (String.eqb a ""); [done|]. destruct (strip word s2) as [s3|] eqn:E3; [|done].
  pose proof (strip_length _ _ _ E3) as L3. pose proof (span_length class s3) as L4. destruct (span class s3) as [v s4].
  destruct (String.eqb v ""); [done|]. destruct (strip " -->" s4) as [s5|] eqn:E5; [|done]. pose proof (strip_length _ _ _ E5) as L5.
  intros [= <- <-]. cbn [snd] in *. split; [destruct prefix; [done|]; cbn in *; lia|].
  unfold strip in E1. by destruct (HasPrefix s prefix).
Qed.

Section find.
Context {A : Type} (at_ : string → option (A * string)).
Hypothesis at_shorter : ∀ s a rest, at_ s = Some (a, rest) → (String.length rest < String.length s)%nat.

Lemma find_all_enough n s : (String.length s < n)%nat → find_all n at_ s = FindAll at_ s.
Proof.
  unfold FindAll. remember (S (String.length s)) as m eqn:Em. assert (String.length s < m)%nat as Hm by lia. clear Em. revert s m Hm.
  induction n as [|n IH]; intros s [|m] Hm Hn; try lia. cbn [find_all]. destruct (at_ s) as [[a rest]|] eqn:E.
  - apply at_shorter in E. f_equal. apply IH; lia.
  - destruct s as [|c s]; [done|]. cbn in *. apply IH; lia.
Qed.
Lemma FindAll_here s a rest : at_ s = Some (a, rest) → FindAll at_ s = a :: FindAll at_ rest.
Proof. intros E. unfold FindAll at 1. cbn [find_all]. rewrite E. f_equal. apply at_shorter in E. apply find_all_enough. lia. Qed.
Lemma FindAll_skip c s : at_ (String c s) = None → FindAll at_ (String c s) = FindAll at_ s.
Proof. intros E. unfold FindAll at 1. cbn [find_all]. rewrite E. apply find_all_enough. cbn. lia. Qed.
Lemma FindAll_before first pre s : (∀ c t, c ≠ first → at_ (String c t) = None) → no_byte first pre → FindAll at_ (pre +:+ s) = FindAll at_ s.
Proof.
  intros Hf. unfold no_byte. induction pre as [|c pre IH]; intros Hp; [done|]. cbn [all_bytes] in Hp. apply andb_prop in Hp as [Hc Hp].
  change (String c pre +:+ s) with (String c (pre +:+ s)). rewrite FindAll_skip by (apply Hf; intros ->; by rewrite Ascii.eqb_refl in Hc). by apply IH.
Qed.
End find.

(** The early answer for a text without the prefix changes nothing. *)
Lemma no_prefix_no_match {A} (at_ : string → option (A * string)) prefix :
  prefix ≠ "" → (∀ s a rest, at_ s = Some (a, rest) → HasPrefix s prefix = true) →
  ∀ s, Contains_sub s prefix = false → FindAll at_ s = [].
Proof.
  intros Hne Hat s. unfold FindAll. generalize (S (String.length s)) as n. intros n. revert s.
  induction n as [|n IH]; intros s Hs; [done|]. cbn [find_all]. destruct (at_ s) as [[a rest]|] eqn:E.
  - apply Hat in E. unfold HasPrefix in E. destruct s; cbn [Contains_sub] in Hs; by rewrite E in Hs.
  - destruct s as [|c s]; [done|]. apply IH. cbn [Contains_sub] in Hs. by apply orb_false_elim in Hs as [_ ?].
Qed.

Lemma states_of_all prefix body anchor : prefix ≠ "" →
  states_of prefix body anchor = map snd (List.filter (λ m, String.eqb (fst m) anchor) (FindAll (marker_at prefix " state=" state_char) body)).
Proof.
  intros Hne. unfold states_of. destruct (Contains_sub body prefix) eqn:E; cbn [negb]; [done|].
  rewrite (no_prefix_no_match _ prefix Hne); [done| |done]. intros s a rest Hm. by apply marker_at_shorter in Hm as [_ ?].
Qed.

Lemma marker_head prefix w class c t : HasPrefix (String c t) prefix = false → marker_at prefix w class (String c t) = None.
Proof. intros E. unfold marker_at, strip. by rewrite E. Qed.

Lemma states_of_marker prefix body anchor state pre post m :
  prefix = String "<" body → all_bytes (λ c, negb (re_space c)) anchor = true → anchor ≠ "" →
  all_bytes state_char state = true → state ≠ "" → no_byte "<" pre →
  m = prefix +:+ anchor +:+ " state=" +:+ state +:+ " -->" →
  states_of prefix (pre +:+ m +:+ post) anchor = state :: states_of prefix post anchor.
Proof.
  intros Hp Ha Hna Hs Hns Hpre ->. assert (prefix ≠ "") as Hne by by rewrite Hp. rewrite !states_of_all by done.
  assert (∀ s a rest, marker_at prefix " state=" state_char s = Some (a, rest) → (String.length rest < String.length s)%nat) as Hsh
    by (intros s a rest Hm; by apply marker_at_shorter in Hm as [? _]).
  rewrite (FindAll_before _ Hsh "<"%char pre) by (done || (intros c t Hc; apply marker_head; rewrite Hp; by apply prefix_head_ne)).
  rewrite !string_app_assoc. rewrite (FindAll_here _ Hsh _ (anchor, state) post) by by apply (marker_at_self prefix "state=").
  cbn [List.filter fst]. by rewrite String.eqb_refl.
Qed.

Lemma anchor_no_space seg a r : anchor_match seg a = Some r → no_byte " " seg → all_bytes (λ c, negb (re_space c)) seg = true →
  all_bytes (λ c, negb (re_space c)) a = true ∧ a ≠ "".
Proof.
  intros Hm _ Hseg. split; [|by intros ->]. destruct r as [pid f].
  assert (∀ s, all_bytes is_digit s = true → all_bytes (λ c, negb (re_space c)) s = true) as Hd.
  { intros s. apply all_bytes_impl. intros c Hc. unfold re_space, is_digit, in_range in *. apply andb_prop in Hc as [??]. bool_hyps.
    apply negb_true_iff. repeat (apply orb_false_intro); apply Z.eqb_neq; lia. }
  assert (∀ s, all_bytes is_hex s = true → all_bytes (λ c, negb (re_space c)) s = true) as Hh.
  { intros s. apply all_bytes_impl. intros c Hc. unfold re_space, is_hex, in_range in *. apply negb_true_iff.
    apply orb_true_iff in Hc as [Hc|Hc]; apply andb_prop in Hc as [??]; bool_hyps; repeat (apply orb_false_intro); apply Z.eqb_neq; lia. }
  assert (∀ s, positive_number s = true → all_bytes (λ c, negb (re_space c)) s = true) as Hp by (intros s [? _]%positive_digits; auto).
  assert (∀ p s g, after_prefix p s g = true → all_bytes (λ c, negb (re_space c)) p = true →
    (∀ u, g u = true → all_bytes (λ c, negb (re_space c)) u = true) → all_bytes (λ c, negb (re_space c)) s = true) as Haf.
  { intros p s g [[post ->]%prefix_split Hg]%andb_prop Hpp Hgu. rewrite drop_app in Hg. by rewrite all_bytes_app, Hpp, Hgu. }
  assert (∀ l, (∀ x, x ∈ l → all_bytes (λ c, negb (re_space c)) x = true) → all_bytes (λ c, negb (re_space c)) (Join l ":") = true) as Hj.
  { induction l as [|x l IH]; intros Hl; [done|]. destruct l as [|y l]; [cbn; apply Hl; by left|]. rewrite Join_cons2, !all_bytes_app.
    rewrite Hl by (by left). rewrite IH; [done|]. intros z Hz. apply Hl. by right. }
  rewrite <- (Join_Split colon a). apply Hj. unfold anchor_match in Hm.
  assert (∀ key, target_key key = true → all_bytes (λ c, negb (re_space c)) key = true) as Hk.
  { intros key [Hk|Hk]%orb_prop; (eapply Haf; [exact Hk|done|]); [done|]. intros u [_ ?]%andb_prop. auto. }
  assert (∀ s, after_prefix "s" s natural_number = true → all_bytes (λ c, negb (re_space c)) s = true) as Hs.
  { intros s Hx. eapply Haf; [exact Hx|done|]. intros u [->%String.eqb_eq|?]%orb_prop; [done|auto]. }
  assert (∀ s, after_prefix "f" s positive_number = true → all_bytes (λ c, negb (re_space c)) s = true) as Hf by (intros s Hx; by eapply Haf).
  destruct (Split colon a) as [|g [|p [|sg [|key [|fp [|ls l]]]]]]; try done.
  intros x Hx. destruct l as [|y [|z l]]; [| |done]; destruct (_ && _) eqn:E in Hm; [|done| |done]; bool_hyps; subst.
  all: unfold hex_n in *; bool_hyps; subst; repeat (apply elem_of_cons in Hx as [->|Hx]); try by apply elem_of_nil in Hx.
  all: first [done|exact Hseg|by apply Hp|by apply Hk|by apply Hh|by apply Hs|by apply Hf].
Qed.

Lemma run_states_chars s : KnownRunState s = true → all_bytes state_char s = true ∧ s ≠ "".
Proof. unfold KnownRunState. rewrite contains_elem. intros Hs. repeat (apply elem_of_cons in Hs as [->|Hs]; [done|]). by apply elem_of_nil in Hs. Qed.
Lemma fix_states_chars s : KnownFixNoteState s = true → all_bytes state_char s = true ∧ s ≠ "".
Proof. unfold KnownFixNoteState. rewrite contains_elem. intros Hs. repeat (apply elem_of_cons in Hs as [->|Hs]; [done|]). by apply elem_of_nil in Hs. Qed.

(** The states of a fix note are those of a fix, and one more. *)
Lemma note_states s : KnownFixNoteState s = true ↔ s = FixNoteNotEligible ∨ KnownState s = true.
Proof. unfold KnownFixNoteState, KnownState. rewrite !contains_elem. unfold fixNoteStates. by rewrite elem_of_cons. Qed.

Lemma RunMarker_read anchor state m pre post : RunMarker anchor state = Ok m → no_byte "<" pre →
  RunMarkerStates (pre +:+ m +:+ post) anchor = state :: RunMarkerStates post anchor.
Proof.
  unfold RunMarker. destruct (anchorRe anchor) as [r|] eqn:Ea; [|done]. destruct (KnownRunState state) eqn:Es; [|done]. cbn [is_some negb].
  intros [= <-] Hpre. apply run_states_chars in Es as [Hs Hns]. destruct (anchor_no_space _ _ _ Ea) as [Ha Hna]; [done..|].
  by eapply states_of_marker.
Qed.

(** What the code writes into a note or a merge request it reads back: the state
    of the marker, in order, wherever the marker stands in the text; and the fix
    and the cause a merge request names. *)
Theorem fix_markers_read anchor state cause m mr pre post :
  FixMarker anchor state = Ok m → FixMRMarker anchor cause = Ok mr → no_byte "<" pre → no_byte "<" post →
  FixMarkerStates (pre +:+ m +:+ post) anchor = [state] ∧
  ParseFixMRMarker (pre +:+ mr +:+ post) = Some (anchor, cause) ∧
  ∀ anchor' state' m', FixMarker anchor' state' = Ok m' →
    FixMarkerStates (pre +:+ m +:+ post +:+ m') anchor = state :: (if String.eqb anchor' anchor then [state'] else []).
Proof.
  unfold FixMarker, FixMRMarker. destruct (fixAnchorRe anchor) as [r|] eqn:Ea; [|done]. destruct (KnownFixNoteState state) eqn:Es; [|done].
  destruct (hex_n 16 cause) eqn:Ec; [|done]. cbn [is_some negb]. intros [= <-] [= <-] Hpre Hpost.
  apply fix_states_chars in Es as [Hs Hns]. destruct (anchor_no_space _ _ _ Ea) as [Ha Hna]; [done..|].
  assert (∀ s a rest, marker_at fixMarkerPrefix " state=" state_char s = Some (a, rest) → (String.length rest < String.length s)%nat) as Hsh
    by (intros s a rest Hm; by apply marker_at_shorter in Hm as [? _]).
  assert (∀ prefix p w class t, prefix = String "<" p → no_byte "<" t →
    FindAll (marker_at prefix w class) t = []) as Hnone.
  { intros prefix p w class t Hp Ht. rewrite <- (append_nothing t).
    assert (∀ s a rest, marker_at prefix w class s = Some (a, rest) → (String.length rest < String.length s)%nat) as Hsh'
      by (intros s a rest Hm; apply marker_at_shorter in Hm as [? _]; [done|by rewrite Hp]).
    rewrite (FindAll_before _ Hsh' "<"%char t) by (done || (intros c u Hc; apply marker_head; rewrite Hp; by apply prefix_head_ne)).
    by rewrite Hp. }
  split_and!.
  - unfold FixMarkerStates. rewrite (states_of_marker fixMarkerPrefix _ anchor state pre post _ eq_refl Ha Hna Hs Hns Hpre eq_refl).
    by rewrite states_of_all, (Hnone fixMarkerPrefix _ " state=" state_char post eq_refl Hpost) by done.
  - assert (∀ s a rest, mr_marker_at s = Some (a, rest) → (String.length rest < String.length s)%nat ∧ HasPrefix s fixMRMarkerPrefix = true) as Hmr.
    { intros s a rest. unfold mr_marker_at. destruct (marker_at _ _ _ s) as [[[a' c'] rest']|] eqn:E; [|done]. destruct (hex_n 16 c'); [|by intros].
      intros Hx. injection Hx as <- <-. exact (marker_at_shorter fixMRMarkerPrefix _ _ _ _ _ ltac:(done) E). }
    assert (∀ s a rest, mr_marker_at s = Some (a, rest) → (String.length rest < String.length s)%nat) as Hmr1 by (intros s a rest Hx; by destruct (Hmr _ _ _ Hx)).
    assert (∀ c t, c ≠ "<"%char → mr_marker_at (String c t) = None) as Hhead.
    { intros c t Hc. unfold mr_marker_at. rewrite marker_head; [done|]. by apply prefix_head_ne. }
    assert (FindAll mr_marker_at (pre +:+ (fixMRMarkerPrefix +:+ anchor +:+ " cause=" +:+ cause +:+ " -->") +:+ post) = [(anchor, cause)]) as Hfa.
    { rewrite (FindAll_before _ Hmr1 "<"%char pre) by done. rewrite !string_app_assoc. rewrite (FindAll_here _ Hmr1 _ (anchor, cause) post).
      - f_equal. rewrite <- (append_nothing post). by rewrite (FindAll_before _ Hmr1 "<"%char post).
      - unfold mr_marker_at. unfold hex_n in Ec. apply andb_prop in Ec as [Hl Hh].
        rewrite (marker_at_self fixMRMarkerPrefix "cause=" is_hex anchor cause post); [|done..|by intros ->|done]. unfold hex_n. by rewrite Hl, Hh. }
    unfold ParseFixMRMarker. destruct (Contains_sub _ fixMRMarkerPrefix) eqn:Econ; cbn [negb].
    + rewrite Hfa. cbn [agree fst is_some negb]. by rewrite Ea.
    + rewrite (no_prefix_no_match mr_marker_at fixMRMarkerPrefix ltac:(done) ltac:(intros s a rest Hx; by destruct (Hmr _ _ _ Hx)) _ Econ) in Hfa. done.
  - intros anchor' state' m'. destruct (fixAnchorRe anchor') as [r'|] eqn:Ea'; [|done]. destruct (KnownFixNoteState state') eqn:Es'; [|done].
    cbn [is_some negb]. intros [= <-]. apply fix_states_chars in Es' as [Hs' Hns']. destruct (anchor_no_space _ _ _ Ea') as [Ha' Hna']; [done..|].
    unfold FixMarkerStates. rewrite (states_of_marker fixMarkerPrefix _ anchor state pre _ _ eq_refl Ha Hna Hs Hns Hpre eq_refl). f_equal.
    rewrite states_of_all by done. rewrite (FindAll_before _ Hsh "<"%char post) by
      (done || (intros c u Hc; apply marker_head; by apply prefix_head_ne)).
    rewrite (FindAll_here _ Hsh _ (anchor', state') "").
    + cbn [List.filter fst]. destruct (String.eqb anchor' anchor); done.
    + rewrite <- (marker_at_self fixMarkerPrefix "state=" state_char anchor' state' "") by done. done.
Qed.

(** ** The epoch *)

Definition counts (f : FixEpochFacts) (x : MergedFix) : Prop := pipeline_after f x = true ∧ green_after f x = false.
(** Not newer: by the time of the merge, then by the number. *)
Definition older_eq (x y : MergedFix) : Prop := MergedAt x < MergedAt y ∨ (MergedAt x = MergedAt y ∧ IID x <= IID y).
Definition newest (P : MergedFix → Prop) (b : option MergedFix) : Prop :=
  match b with
  | None => ∀ x, ¬ P x
  | Some b => P b ∧ ∀ x, P x → older_eq x b
  end.

Lemma epoch_loop_spec f fixes best (P : MergedFix → Prop) : newest P best →
  match epoch_loop f fixes best with
  | Ok b => newest (λ x, P x ∨ (x ∈ fixes ∧ counts f x)) b ∧ ∀ x, x ∈ fixes → 1 <= IID x ∧ MergedAt x ≠ 0
  | Err _ => ∃ x, x ∈ fixes ∧ (IID x < 1 ∨ MergedAt x = 0)
  end.
Proof.
  revert best P. induction fixes as [|x fixes IH]; intros best P Hb; cbn [epoch_loop].
  { split; [|by intros x ?%elem_of_nil]. destruct best as [b|]; [destruct Hb as [Hp Hall]; split; [by left|]|];
      [intros x [?|[?%elem_of_nil _]]; auto; done|intros x [?|[?%elem_of_nil _]]; [by eapply Hb|done]]. }
  destruct (Z.ltb_spec (IID x) 1); [exists x; split; [by left|by left]|].
  unfold IsZero. destruct (Z.eqb_spec (MergedAt x) 0); [exists x; split; [by left|by right]|].
  assert (∀ best', newest (λ y, P y ∨ (y = x ∧ counts f x)) best' →
    match epoch_loop f fixes best' with
    | Ok b => newest (λ y, P y ∨ (y ∈ x :: fixes ∧ counts f y)) b ∧ ∀ y, y ∈ x :: fixes → 1 <= IID y ∧ MergedAt y ≠ 0
    | Err _ => ∃ y, y ∈ x :: fixes ∧ (IID y < 1 ∨ MergedAt y = 0) end) as Hgo.
  { intros best' Hb'. specialize (IH best' _ Hb'). destruct (epoch_loop f fixes best') as [b|e].
    - destruct IH as [Hn Hall]. split; [|intros y [->|Hy]%elem_of_cons; auto].
      assert (∀ y, (P y ∨ (y ∈ x :: fixes ∧ counts f y)) ↔ ((P y ∨ (y = x ∧ counts f x)) ∨ (y ∈ fixes ∧ counts f y))) as Hiff.
      { intros y. rewrite elem_of_cons. naive_solver. }
      destruct b as [b|]; cbn in *; [destruct Hn as [H1 H2]; split; [by apply Hiff|]; intros y Hy; by apply H2, Hiff|]. intros y Hy. by eapply Hn, Hiff.
    - destruct IH as (y & Hy & ?). exists y. split; [by right|done]. }
  destruct (pipeline_after f x) eqn:E1; cbn [negb]; [destruct (green_after f x) eqn:E2|].
  1, 3: apply Hgo; assert (¬ counts f x) as Hnc by (intros [? ?]; congruence);
    destruct best as [b|]; cbn in *; [destruct Hb as [H1 H2]; split; [by left|intros y [?|[_ ?]]; auto; done]|intros y [?|[_ ?]]; [by eapply Hb|done]].
  apply Hgo. assert (counts f x) as Hc by done. unfold newer, After. destruct best as [b|]; cbn in *; [|split; [right; done|]; intros y [?|[-> _]]; [by destruct (Hb y)|right; lia]].
  destruct Hb as [H1 H2]. destruct (Z.ltb_spec (MergedAt b) (MergedAt x)); cbn [orb].
  - cbn. split; [by right|]. intros y [Hy|[-> _]]; [|right; lia]. apply H2 in Hy. unfold older_eq in *. lia.
  - destruct (Z.eqb_spec (MergedAt x) (MergedAt b)), (Z.ltb_spec (IID b) (IID x)); cbn [andb]; cbn.
    1: split; [by right|]; intros y [Hy|[-> _]]; [|right; lia]; apply H2 in Hy; unfold older_eq in *; lia.
    all: split; [by left|]; intros y [Hy|[-> _]]; [by apply H2|]; unfold older_eq; lia.
Qed.

(** The epoch of a failing pipeline is the newest merged fix it comes after and
    the last green one does not, 0 when there is none; it is refused only for a
    time or a number that is missing while a fix exists; and it does not depend on
    the order in which the fixes are listed, nor on one that merged later than
    the pipeline. *)
Theorem fix_epoch_exact fixes f :
  match FixEpoch fixes f with
  | Ok e => ((∀ x, x ∈ fixes → ¬ counts f x) ∧ e = 0) ∨
      (∃ b, b ∈ fixes ∧ counts f b ∧ e = IID b ∧ 1 <= e ∧ ∀ x, x ∈ fixes → counts f x → older_eq x b)
  | Err _ => fixes ≠ [] ∧ (PipelineCreatedAt f = 0 ∨ (LastSuccess f ≠ 0 ∧ LastSuccessCreatedAt f = 0) ∨
      ∃ x, x ∈ fixes ∧ (IID x < 1 ∨ MergedAt x = 0))
  end ∧
  (∀ fixes', fixes ≡ₚ fixes' → ∀ e e', FixEpoch fixes f = Ok e → FixEpoch fixes' f = Ok e' → e = e') ∧
  (∀ x e e', PipelineCreatedAt f < MergedAt x → landedOn x (PipelineSHA f) = false →
     FixEpoch fixes f = Ok e → FixEpoch (x :: fixes) f = Ok e' → e = e').
Proof.
  assert (∀ fixes, match FixEpoch fixes f with
    | Ok e => ((∀ x, x ∈ fixes → ¬ counts f x) ∧ e = 0) ∨
        (∃ b, b ∈ fixes ∧ counts f b ∧ e = IID b ∧ 1 <= e ∧ ∀ x, x ∈ fixes → counts f x → older_eq x b)
    | Err _ => fixes ≠ [] ∧ (PipelineCreatedAt f = 0 ∨ (LastSuccess f ≠ 0 ∧ LastSuccessCreatedAt f = 0) ∨
        ∃ x, x ∈ fixes ∧ (IID x < 1 ∨ MergedAt x = 0)) end) as Hex.
  { clear fixes. intros fixes. unfold FixEpoch, IsZero. destruct fixes as [|x0 fixes]; [cbn; left; split; [by intros x ?%elem_of_nil|done]|]. cbn [length Nat.eqb].
    set (l := x0 :: fixes). assert (l ≠ []) as Hl by done. destruct (Z.eqb_spec (PipelineCreatedAt f) 0); [by split; [|left]|].
    destruct (Z.eqb_spec (LastSuccess f) 0), (Z.eqb_spec (LastSuccessCreatedAt f) 0); cbn [negb andb]; try (by split; [|right; left]).
    all: pose proof (epoch_loop_spec f l None (λ _, False) ltac:(by intros ??)) as Hs; destruct (epoch_loop f l None) as [b|err]; cbn [mbind result_bind];
      [|split; [done|by right; right]].
    all: destruct Hs as [Hn Hok]; destruct b as [b|]; cbn in Hn;
      [destruct Hn as [[[]|[Hb Hc]] Hall]; right; exists b; split_and!; try done; [by apply Hok|intros x ??; apply Hall; by right]
      |left; split; [|done]; intros x Hx Hc; apply (Hn x); by right]. }
  assert (∀ l l' e e', (∀ x, x ∈ l ∧ counts f x ↔ x ∈ l' ∧ counts f x) → FixEpoch l f = Ok e → FixEpoch l' f = Ok e' → e = e') as Hsame.
  { intros l l' e e' Hiff He He'. pose proof (Hex l) as H1. pose proof (Hex l') as H2. rewrite He in H1. rewrite He' in H2.
    destruct H1 as [[Hn ->]|(b & Hb & Hc & -> & _ & Hall)], H2 as [[Hn' ->]|(b' & Hb' & Hc' & -> & _ & Hall')]; [done| | |].
    - exfalso. apply (Hn b'); [|done]. by apply Hiff.
    - exfalso. apply (Hn' b); [|done]. by apply Hiff.
    - assert (older_eq b b') as O1 by (apply Hall'; [by apply Hiff|done]). assert (older_eq b' b) as O2 by (apply Hall; [by apply Hiff|done]).
      unfold older_eq in *. lia. }
  split_and!; [apply Hex| |].
  - intros fixes' Hp e e'. apply Hsame. intros x. by rewrite Hp.
  - intros x e e' Hlt Hland. apply Hsame. intros y. rewrite elem_of_cons. split; [tauto|]. intros [[->|Hy] Hc]; [|done]. exfalso.
    destruct Hc as [Hpa _]. unfold pipeline_after, Before in Hpa. rewrite Hland in Hpa. destruct (Z.ltb_spec (PipelineCreatedAt f) (MergedAt x)); [done|lia].
Qed.

(** ** Examples *)

Definition example_fp : string := "0123456789abcdef".
Definition example_anchor : string := "gonk:75:pipeline:mr12:0123456789abcdef:s900:f31".

Example identity_examples :
  Anchor 75 (MRTarget 12) example_fp 900 31 = Ok example_anchor ∧
  Anchor 75 (RefTarget "main") example_fp 0 0 = Ok ("gonk:75:pipeline:ref-" +:+ hash_prefix 8 "main" +:+ ":0123456789abcdef:s0") ∧
  Anchor 75 (RefTarget "a b") example_fp 0 0 = Err ErrBadTarget ∧
  FixAnchor example_anchor = Ok "gonk:75:pipefix:mr12:0123456789abcdef:s900:f31" ∧
  anchorRe "gonk:75:pipeline:mr12:0123456789abcdef:s900:f0" = None ∧ anchorRe "gonk:075:pipeline:mr12:0123456789abcdef:s9" = None ∧
  AnchorFixEpoch "gonk:75:pipeline:mr12:0123456789abcdef:s9:f99999999999999999999" = Err (FixEpochRange "gonk:75:pipeline:mr12:0123456789abcdef:s9:f99999999999999999999") ∧
  ParseTarget "mr:012" = Err ErrBadTarget ∧ ParseTarget "ref:a:b" = Ok (RefTarget "a:b") ∧
  RunMarkerStates ("x <!-- gonk:pipeline-run:" +:+ example_anchor +:+ " state=later --> <!-- gonk:pipeline-run:" +:+ example_anchor +:+ " state=denied -->") example_anchor
    = ["later"; "denied"].
Proof. vm_compute. done. Qed.

Lemma anchor_identity_witness : AnchorFixEpoch example_anchor = Ok 31 ∧ ∃ k, SessionKey example_anchor = Ok k.
Proof.
  destruct (anchor_identity 75 (MRTarget 12) example_fp 900 31 example_anchor) as (H1 & H2 & _);
    [vm_compute; split; discriminate|vm_compute; reflexivity|]. exact (conj H1 H2).
Defined.

Definition example_fix_anchor : string := "gonk:75:pipefix:mr12:0123456789abcdef:s900:f31".
Lemma fix_markers_read_witness :
  ∃ m, FixMarker example_fix_anchor "verifying" = Ok m ∧ FixMarkerStates ("note " +:+ m +:+ " end") example_fix_anchor = ["verifying"].
Proof.
  eexists. split; [vm_compute; reflexivity|].
  refine (proj1 (fix_markers_read example_fix_anchor "verifying" example_fp _ _ "note " " end" _ _ _ _)); vm_compute; reflexivity.
Defined.
