(* ===== verification/WorkStore.v ===== *)
(** * [pkg/beadstore]: the work records and the store that keeps them

    [store.go] (the record, the write rule), [fixcontext.go] and [memory.go],
    the store whose semantics the others are tested against. A revision is drawn
    at random by the code and is an argument here; that no draw repeats is a
    hypothesis where it matters. States the code does not name are left out, and
    a nil slice is an empty one. *)

From S2P Require Import Prelude.
From S2P Require Import GoTime.

(** ** The record ([store.go]) *)

(** [StateNone] is the empty string: what a record nobody acts on carries. *)
Inductive WorkState := StateNone | StateRunning | StateParked | StateNeedsHuman | StateDone | StatePendingPrompt.
#[export] Instance WorkState_eq : EqDecision WorkState. Proof. solve_decision. Defined.
Definition AllStates : list WorkState := [StateRunning; StateParked; StateNeedsHuman; StateDone; StatePendingPrompt].

(** A refused attempt's feedback. *)
Record RetryFeedback := mkRetryFeedback {
  rf_Attempt : Z;
  rf_Code : string;
  rf_What : string;
  rf_Allowed : string;
}.
#[export] Instance RetryFeedback_eq : EqDecision RetryFeedback. Proof. solve_decision. Defined.
Definition RetryFeedback_zero : RetryFeedback :=
  mkRetryFeedback 0 "" "" "".

Definition rf_Recorded (f : RetryFeedback) : bool := (0 <? rf_Attempt f) && negb (String.eqb (rf_What f) "").

(** One failed job of a diagnosed pipeline. *)
Record PipelineJob := mkPipelineJob {
  pj_ID : Z;
  pj_Name : string;
  pj_Excerpted : bool;
  pj_ExcerptSHA256 : string;
  pj_Groundable : bool;
  pj_Stage : string;
  pj_FailureReason : string;
  pj_AllowFailure : bool;
  pj_ErrorSignature : string;
  pj_ErrorGeneric : bool;
  pj_SignatureVersion : Z;
}.
#[export] Instance PipelineJob_eq : EqDecision PipelineJob. Proof. solve_decision. Defined.
Definition PipelineJob_zero : PipelineJob :=
  mkPipelineJob 0 "" false "" false "" "" false "" false 0.

Definition FailureFactsRecorded (j : PipelineJob) : bool := negb (pj_SignatureVersion j =? 0).
Definition GenericFailure (j : PipelineJob) : bool := String.eqb (pj_ErrorSignature j) "" || pj_ErrorGeneric j.

(** The landed diagnosis of a run. *)
Record PipelineDiagnosis := mkPipelineDiagnosis {
  pd_Class : string;
  pd_Files : list string;
  pd_EvidenceJobs : list string;
  pd_Summary : string;
  pd_Remedy : string;
}.
#[export] Instance PipelineDiagnosis_eq : EqDecision PipelineDiagnosis. Proof. solve_decision. Defined.
Definition PipelineDiagnosis_zero : PipelineDiagnosis :=
  mkPipelineDiagnosis "" [] [] "" "".

Definition pd_Recorded (d : PipelineDiagnosis) : bool := negb (String.eqb (pd_Class d) "").

(** One cited file as a fix session was shown it. *)
Record FixContextFile := mkFixContextFile {
  cf_Path : string;
  cf_Editable : bool;
  cf_Rule : string;
  cf_Bytes : Z;
  cf_SHA256 : string;
  cf_Shown : bool;
}.
#[export] Instance FixContextFile_eq : EqDecision FixContextFile. Proof. solve_decision. Defined.
Definition FixContextFile_zero : FixContextFile :=
  mkFixContextFile "" false "" 0 "" false.

(** The limits the prompt stated. *)
Record FixLimits := mkFixLimits {
  fl_Edits : Z;
  fl_Files : Z;
  fl_Lines : Z;
  fl_NewBytes : Z;
}.
#[export] Instance FixLimits_eq : EqDecision FixLimits. Proof. solve_decision. Defined.
Definition FixLimits_zero : FixLimits :=
  mkFixLimits 0 0 0 0.

(** What a fix session was shown. *)
Record FixContext := mkFixContext {
  fc_BaseSHA : string;
  fc_PipelineID : Z;
  fc_DiagnosisSHA256 : string;
  fc_Jobs : list PipelineJob;
  fc_ExcerptVersion : Z;
  fc_ExcerptMaxBytes : Z;
  fc_Files : list FixContextFile;
  fc_Limits : FixLimits;
  fc_PromptSHA256 : string;
}.
#[export] Instance FixContext_eq : EqDecision FixContext. Proof. solve_decision. Defined.
Definition FixContext_zero : FixContext :=
  mkFixContext "" 0 "" [] 0 0 [] FixLimits_zero "".

Definition fc_Recorded (c : FixContext) : bool := negb (String.eqb (fc_BaseSHA c) "").

(** One file an applied fix changed. *)
Record PipelineFixFile := mkPipelineFixFile {
  ff_Path : string;
  ff_Class : string;
  ff_LinesAdded : Z;
  ff_LinesRemoved : Z;
}.
#[export] Instance PipelineFixFile_eq : EqDecision PipelineFixFile. Proof. solve_decision. Defined.
Definition PipelineFixFile_zero : PipelineFixFile :=
  mkPipelineFixFile "" "" 0 0.

(** One job of a fix's target set. *)
Record PipelineFixTarget := mkPipelineFixTarget {
  ft_Stage : string;
  ft_Name : string;
  ft_FailureReason : string;
  ft_ErrorSignature : string;
  ft_Generic : bool;
}.
#[export] Instance PipelineFixTarget_eq : EqDecision PipelineFixTarget. Proof. solve_decision. Defined.
Definition PipelineFixTarget_zero : PipelineFixTarget :=
  mkPipelineFixTarget "" "" "" "" false.

(** One job of a fix's base pipeline. *)
Record PipelineFixBaseJob := mkPipelineFixBaseJob {
  fb_Name : string;
  fb_Status : string;
  fb_AllowFailure : bool;
}.
#[export] Instance PipelineFixBaseJob_eq : EqDecision PipelineFixBaseJob. Proof. solve_decision. Defined.
Definition PipelineFixBaseJob_zero : PipelineFixBaseJob :=
  mkPipelineFixBaseJob "" "" false.

(** What the controller decided about one pipeline fix, and what became of it. *)
Record PipelineFix := mkPipelineFix {
  fx_RunAnchor : string;
  fx_State : string;
  fx_CauseKey : string;
  fx_Class : string;
  fx_BaseSHA : string;
  fx_BasePipelineID : Z;
  fx_TargetBranch : string;
  fx_ConfigSHA : string;
  fx_Envelope : list string;
  fx_Lift : list string;
  fx_Files : list string;
  fx_Paths : list string;
  fx_MaxFiles : Z;
  fx_MaxLines : Z;
  fx_MaxFileBytes : Z;
  fx_MaxPatchBytes : Z;
  fx_CIExecChanges : string;
  fx_MaxAttempts : Z;
  fx_VerifyTimeoutSeconds : Z;
  fx_Targets : list PipelineFixTarget;
  fx_AlsoFailing : list string;
  fx_BaseJobs : list PipelineFixBaseJob;
  fx_ExcerptVersion : Z;
  fx_SignatureVersion : Z;
  fx_FiredAt : Time;
  fx_ContextSHA256 : string;
  fx_Context : FixContext;
  fx_AppliedAttempt : Z;
  fx_FixCommitSHA : string;
  fx_MRIID : Z;
  fx_ChangedFiles : list PipelineFixFile;
  fx_Weakening : string;
  fx_WeakeningUndecided : list string;
  fx_CIDelta : string;
  fx_VerifyDeadline : Time;
  fx_Refusal : string;
  fx_JudgedAt : Time;
  fx_Verdict : string;
  fx_VerdictRule : string;
  fx_VerdictDetail : string;
  fx_VerdictAttempt : Z;
  fx_JudgedPipelines : list Z;
  fx_Findings : list string;
  fx_Outcome : string;
  fx_OutcomeAttempt : Z;
  fx_NoAutoMerge : list string;
  fx_Feedback : string;
  fx_MergedAt : Time;
  fx_MergedSHAs : list string;
  fx_ConfirmPipelineID : Z;
}.
#[export] Instance PipelineFix_eq : EqDecision PipelineFix. Proof. solve_decision. Defined.
Definition PipelineFix_zero : PipelineFix :=
  mkPipelineFix "" "" "" "" "" 0 "" "" [] [] [] [] 0 0 0 0 "" 0 0 [] [] [] 0 0 0 "" FixContext_zero 0 "" 0 [] "" []
    "" 0 "" 0 "" "" "" 0 [] [] "" 0 [] "" 0 [] 0.
Definition set_fx_State (v : string) (r : PipelineFix) : PipelineFix :=
  mkPipelineFix (fx_RunAnchor r) v (fx_CauseKey r) (fx_Class r) (fx_BaseSHA r) (fx_BasePipelineID r) (fx_TargetBranch
    r) (fx_ConfigSHA r) (fx_Envelope r) (fx_Lift r) (fx_Files r) (fx_Paths r) (fx_MaxFiles r) (fx_MaxLines r)
    (fx_MaxFileBytes r) (fx_MaxPatchBytes r) (fx_CIExecChanges r) (fx_MaxAttempts r) (fx_VerifyTimeoutSeconds r)
    (fx_Targets r) (fx_AlsoFailing r) (fx_BaseJobs r) (fx_ExcerptVersion r) (fx_SignatureVersion r) (fx_FiredAt r)
    (fx_ContextSHA256 r) (fx_Context r) (fx_AppliedAttempt r) (fx_FixCommitSHA r) (fx_MRIID r) (fx_ChangedFiles r)
    (fx_Weakening r) (fx_WeakeningUndecided r) (fx_CIDelta r) (fx_VerifyDeadline r) (fx_Refusal r) (fx_JudgedAt r)
    (fx_Verdict r) (fx_VerdictRule r) (fx_VerdictDetail r) (fx_VerdictAttempt r) (fx_JudgedPipelines r) (fx_Findings
    r) (fx_Outcome r) (fx_OutcomeAttempt r) (fx_NoAutoMerge r) (fx_Feedback r) (fx_MergedAt r) (fx_MergedSHAs r)
    (fx_ConfirmPipelineID r).
Definition set_fx_ContextSHA256 (v : string) (r : PipelineFix) : PipelineFix :=
  mkPipelineFix (fx_RunAnchor r) (fx_State r) (fx_CauseKey r) (fx_Class r) (fx_BaseSHA r) (fx_BasePipelineID r)
    (fx_TargetBranch r) (fx_ConfigSHA r) (fx_Envelope r) (fx_Lift r) (fx_Files r) (fx_Paths r) (fx_MaxFiles r)
    (fx_MaxLines r) (fx_MaxFileBytes r) (fx_MaxPatchBytes r) (fx_CIExecChanges r) (fx_MaxAttempts r)
    (fx_VerifyTimeoutSeconds r) (fx_Targets r) (fx_AlsoFailing r) (fx_BaseJobs r) (fx_ExcerptVersion r)
    (fx_SignatureVersion r) (fx_FiredAt r) v (fx_Context r) (fx_AppliedAttempt r) (fx_FixCommitSHA r) (fx_MRIID r)
    (fx_ChangedFiles r) (fx_Weakening r) (fx_WeakeningUndecided r) (fx_CIDelta r) (fx_VerifyDeadline r) (fx_Refusal
    r) (fx_JudgedAt r) (fx_Verdict r) (fx_VerdictRule r) (fx_VerdictDetail r) (fx_VerdictAttempt r)
    (fx_JudgedPipelines r) (fx_Findings r) (fx_Outcome r) (fx_OutcomeAttempt r) (fx_NoAutoMerge r) (fx_Feedback r)
    (fx_MergedAt r) (fx_MergedSHAs r) (fx_ConfirmPipelineID r).
Definition set_fx_Context (v : FixContext) (r : PipelineFix) : PipelineFix :=
  mkPipelineFix (fx_RunAnchor r) (fx_State r) (fx_CauseKey r) (fx_Class r) (fx_BaseSHA r) (fx_BasePipelineID r)
    (fx_TargetBranch r) (fx_ConfigSHA r) (fx_Envelope r) (fx_Lift r) (fx_Files r) (fx_Paths r) (fx_MaxFiles r)
    (fx_MaxLines r) (fx_MaxFileBytes r) (fx_MaxPatchBytes r) (fx_CIExecChanges r) (fx_MaxAttempts r)
    (fx_VerifyTimeoutSeconds r) (fx_Targets r) (fx_AlsoFailing r) (fx_BaseJobs r) (fx_ExcerptVersion r)
    (fx_SignatureVersion r) (fx_FiredAt r) (fx_ContextSHA256 r) v (fx_AppliedAttempt r) (fx_FixCommitSHA r) (fx_MRIID
    r) (fx_ChangedFiles r) (fx_Weakening r) (fx_WeakeningUndecided r) (fx_CIDelta r) (fx_VerifyDeadline r)
    (fx_Refusal r) (fx_JudgedAt r) (fx_Verdict r) (fx_VerdictRule r) (fx_VerdictDetail r) (fx_VerdictAttempt r)
    (fx_JudgedPipelines r) (fx_Findings r) (fx_Outcome r) (fx_OutcomeAttempt r) (fx_NoAutoMerge r) (fx_Feedback r)
    (fx_MergedAt r) (fx_MergedSHAs r) (fx_ConfirmPipelineID r).

Definition fx_Recorded (f : PipelineFix) : bool := negb (String.eqb (fx_RunAnchor f) "").

(** One work item (the source's [Record]). *)
Record WorkItem := mkWorkItem {
  w_BeadAnchor : string;
  w_BeadID : string;
  w_Project : string;
  w_ProjectID : Z;
  w_Rig : string;
  w_SessionKey : string;
  w_Trigger : string;
  w_IssueIID : Z;
  w_ConfigHash : string;
  w_State : WorkState;
  w_Rung : string;
  w_Model : string;
  w_Attempt : Z;
  w_ReservationID : string;
  w_ReservationExpiresAt : Time;
  w_RetryAfter : Time;
  w_SessionEndedAt : Time;
  w_SessionID : string;
  w_CheckoutSHA : string;
  w_UpdatedAt : Time;
  w_PipelineID : Z;
  w_PipelineTarget : string;
  w_PipelineFingerprint : string;
  w_PipelineLastSuccess : Z;
  w_PipelineFixEpoch : Z;
  w_PipelineSHA : string;
  w_PipelineProjectURL : string;
  w_PipelineJobs : list PipelineJob;
  w_PipelineExcerptVersion : Z;
  w_PipelineExcerptMaxBytes : Z;
  w_PipelineFirstFailed : Z;
  w_PipelineLatestFailed : Z;
  w_PipelineRunOpen : bool;
  w_PipelineCheckedAt : Time;
  w_PipelineRunFixMR : Z;
  w_PipelineRunFixState : string;
  w_PipelineDiagnosis : PipelineDiagnosis;
  w_PipelineFix : PipelineFix;
  w_Revision : string;
  w_ReslungAt : Time;
  w_ReslingFireBy : Time;
  w_RetryFeedback : RetryFeedback;
}.
#[export] Instance WorkItem_eq : EqDecision WorkItem. Proof. solve_decision. Defined.
Definition WorkItem_zero : WorkItem :=
  mkWorkItem "" "" "" 0 "" "" "" 0 "" StateNone "" "" 0 "" 0 0 0 "" "" 0 0 "" "" 0 0 "" "" [] 0 0 0 0 false 0 0 ""
    PipelineDiagnosis_zero PipelineFix_zero "" 0 0 RetryFeedback_zero.
Definition set_w_State (v : WorkState) (r : WorkItem) : WorkItem :=
  mkWorkItem (w_BeadAnchor r) (w_BeadID r) (w_Project r) (w_ProjectID r) (w_Rig r) (w_SessionKey r) (w_Trigger r)
    (w_IssueIID r) (w_ConfigHash r) v (w_Rung r) (w_Model r) (w_Attempt r) (w_ReservationID r)
    (w_ReservationExpiresAt r) (w_RetryAfter r) (w_SessionEndedAt r) (w_SessionID r) (w_CheckoutSHA r) (w_UpdatedAt
    r) (w_PipelineID r) (w_PipelineTarget r) (w_PipelineFingerprint r) (w_PipelineLastSuccess r) (w_PipelineFixEpoch
    r) (w_PipelineSHA r) (w_PipelineProjectURL r) (w_PipelineJobs r) (w_PipelineExcerptVersion r)
    (w_PipelineExcerptMaxBytes r) (w_PipelineFirstFailed r) (w_PipelineLatestFailed r) (w_PipelineRunOpen r)
    (w_PipelineCheckedAt r) (w_PipelineRunFixMR r) (w_PipelineRunFixState r) (w_PipelineDiagnosis r) (w_PipelineFix
    r) (w_Revision r) (w_ReslungAt r) (w_ReslingFireBy r) (w_RetryFeedback r).
Definition set_w_RetryAfter (v : Time) (r : WorkItem) : WorkItem :=
  mkWorkItem (w_BeadAnchor r) (w_BeadID r) (w_Project r) (w_ProjectID r) (w_Rig r) (w_SessionKey r) (w_Trigger r)
    (w_IssueIID r) (w_ConfigHash r) (w_State r) (w_Rung r) (w_Model r) (w_Attempt r) (w_ReservationID r)
    (w_ReservationExpiresAt r) v (w_SessionEndedAt r) (w_SessionID r) (w_CheckoutSHA r) (w_UpdatedAt r) (w_PipelineID
    r) (w_PipelineTarget r) (w_PipelineFingerprint r) (w_PipelineLastSuccess r) (w_PipelineFixEpoch r) (w_PipelineSHA
    r) (w_PipelineProjectURL r) (w_PipelineJobs r) (w_PipelineExcerptVersion r) (w_PipelineExcerptMaxBytes r)
    (w_PipelineFirstFailed r) (w_PipelineLatestFailed r) (w_PipelineRunOpen r) (w_PipelineCheckedAt r)
    (w_PipelineRunFixMR r) (w_PipelineRunFixState r) (w_PipelineDiagnosis r) (w_PipelineFix r) (w_Revision r)
    (w_ReslungAt r) (w_ReslingFireBy r) (w_RetryFeedback r).
Definition set_w_SessionEndedAt (v : Time) (r : WorkItem) : WorkItem :=
  mkWorkItem (w_BeadAnchor r) (w_BeadID r) (w_Project r) (w_ProjectID r) (w_Rig r) (w_SessionKey r) (w_Trigger r)
    (w_IssueIID r) (w_ConfigHash r) (w_State r) (w_Rung r) (w_Model r) (w_Attempt r) (w_ReservationID r)
    (w_ReservationExpiresAt r) (w_RetryAfter r) v (w_SessionID r) (w_CheckoutSHA r) (w_UpdatedAt r) (w_PipelineID r)
    (w_PipelineTarget r) (w_PipelineFingerprint r) (w_PipelineLastSuccess r) (w_PipelineFixEpoch r) (w_PipelineSHA r)
    (w_PipelineProjectURL r) (w_PipelineJobs r) (w_PipelineExcerptVersion r) (w_PipelineExcerptMaxBytes r)
    (w_PipelineFirstFailed r) (w_PipelineLatestFailed r) (w_PipelineRunOpen r) (w_PipelineCheckedAt r)
    (w_PipelineRunFixMR r) (w_PipelineRunFixState r) (w_PipelineDiagnosis r) (w_PipelineFix r) (w_Revision r)
    (w_ReslungAt r) (w_ReslingFireBy r) (w_RetryFeedback r).
Definition set_w_SessionID (v : string) (r : WorkItem) : WorkItem :=
  mkWorkItem (w_BeadAnchor r) (w_BeadID r) (w_Project r) (w_ProjectID r) (w_Rig r) (w_SessionKey r) (w_Trigger r)
    (w_IssueIID r) (w_ConfigHash r) (w_State r) (w_Rung r) (w_Model r) (w_Attempt r) (w_ReservationID r)
    (w_ReservationExpiresAt r) (w_RetryAfter r) (w_SessionEndedAt r) v (w_CheckoutSHA r) (w_UpdatedAt r)
    (w_PipelineID r) (w_PipelineTarget r) (w_PipelineFingerprint r) (w_PipelineLastSuccess r) (w_PipelineFixEpoch r)
    (w_PipelineSHA r) (w_PipelineProjectURL r) (w_PipelineJobs r) (w_PipelineExcerptVersion r)
    (w_PipelineExcerptMaxBytes r) (w_PipelineFirstFailed r) (w_PipelineLatestFailed r) (w_PipelineRunOpen r)
    (w_PipelineCheckedAt r) (w_PipelineRunFixMR r) (w_PipelineRunFixState r) (w_PipelineDiagnosis r) (w_PipelineFix
    r) (w_Revision r) (w_ReslungAt r) (w_ReslingFireBy r) (w_RetryFeedback r).
Definition set_w_CheckoutSHA (v : string) (r : WorkItem) : WorkItem :=
  mkWorkItem (w_BeadAnchor r) (w_BeadID r) (w_Project r) (w_ProjectID r) (w_Rig r) (w_SessionKey r) (w_Trigger r)
    (w_IssueIID r) (w_ConfigHash r) (w_State r) (w_Rung r) (w_Model r) (w_Attempt r) (w_ReservationID r)
    (w_ReservationExpiresAt r) (w_RetryAfter r) (w_SessionEndedAt r) (w_SessionID r) v (w_UpdatedAt r) (w_PipelineID
    r) (w_PipelineTarget r) (w_PipelineFingerprint r) (w_PipelineLastSuccess r) (w_PipelineFixEpoch r) (w_PipelineSHA
    r) (w_PipelineProjectURL r) (w_PipelineJobs r) (w_PipelineExcerptVersion r) (w_PipelineExcerptMaxBytes r)
    (w_PipelineFirstFailed r) (w_PipelineLatestFailed r) (w_PipelineRunOpen r) (w_PipelineCheckedAt r)
    (w_PipelineRunFixMR r) (w_PipelineRunFixState r) (w_PipelineDiagnosis r) (w_PipelineFix r) (w_Revision r)
    (w_ReslungAt r) (w_ReslingFireBy r) (w_RetryFeedback r).
Definition set_w_UpdatedAt (v : Time) (r : WorkItem) : WorkItem :=
  mkWorkItem (w_BeadAnchor r) (w_BeadID r) (w_Project r) (w_ProjectID r) (w_Rig r) (w_SessionKey r) (w_Trigger r)
    (w_IssueIID r) (w_ConfigHash r) (w_State r) (w_Rung r) (w_Model r) (w_Attempt r) (w_ReservationID r)
    (w_ReservationExpiresAt r) (w_RetryAfter r) (w_SessionEndedAt r) (w_SessionID r) (w_CheckoutSHA r) v
    (w_PipelineID r) (w_PipelineTarget r) (w_PipelineFingerprint r) (w_PipelineLastSuccess r) (w_PipelineFixEpoch r)
    (w_PipelineSHA r) (w_PipelineProjectURL r) (w_PipelineJobs r) (w_PipelineExcerptVersion r)
    (w_PipelineExcerptMaxBytes r) (w_PipelineFirstFailed r) (w_PipelineLatestFailed r) (w_PipelineRunOpen r)
    (w_PipelineCheckedAt r) (w_PipelineRunFixMR r) (w_PipelineRunFixState r) (w_PipelineDiagnosis r) (w_PipelineFix
    r) (w_Revision r) (w_ReslungAt r) (w_ReslingFireBy r) (w_RetryFeedback r).
Definition set_w_Revision (v : string) (r : WorkItem) : WorkItem :=
  mkWorkItem (w_BeadAnchor r) (w_BeadID r) (w_Project r) (w_ProjectID r) (w_Rig r) (w_SessionKey r) (w_Trigger r)
    (w_IssueIID r) (w_ConfigHash r) (w_State r) (w_Rung r) (w_Model r) (w_Attempt r) (w_ReservationID r)
    (w_ReservationExpiresAt r) (w_RetryAfter r) (w_SessionEndedAt r) (w_SessionID r) (w_CheckoutSHA r) (w_UpdatedAt
    r) (w_PipelineID r) (w_PipelineTarget r) (w_PipelineFingerprint r) (w_PipelineLastSuccess r) (w_PipelineFixEpoch
    r) (w_PipelineSHA r) (w_PipelineProjectURL r) (w_PipelineJobs r) (w_PipelineExcerptVersion r)
    (w_PipelineExcerptMaxBytes r) (w_PipelineFirstFailed r) (w_PipelineLatestFailed r) (w_PipelineRunOpen r)
    (w_PipelineCheckedAt r) (w_PipelineRunFixMR r) (w_PipelineRunFixState r) (w_PipelineDiagnosis r) (w_PipelineFix
    r) v (w_ReslungAt r) (w_ReslingFireBy r) (w_RetryFeedback r).
Definition set_w_ReslungAt (v : Time) (r : WorkItem) : WorkItem :=
  mkWorkItem (w_BeadAnchor r) (w_BeadID r) (w_Project r) (w_ProjectID r) (w_Rig r) (w_SessionKey r) (w_Trigger r)
    (w_IssueIID r) (w_ConfigHash r) (w_State r) (w_Rung r) (w_Model r) (w_Attempt r) (w_ReservationID r)
    (w_ReservationExpiresAt r) (w_RetryAfter r) (w_SessionEndedAt r) (w_SessionID r) (w_CheckoutSHA r) (w_UpdatedAt
    r) (w_PipelineID r) (w_PipelineTarget r) (w_PipelineFingerprint r) (w_PipelineLastSuccess r) (w_PipelineFixEpoch
    r) (w_PipelineSHA r) (w_PipelineProjectURL r) (w_PipelineJobs r) (w_PipelineExcerptVersion r)
    (w_PipelineExcerptMaxBytes r) (w_PipelineFirstFailed r) (w_PipelineLatestFailed r) (w_PipelineRunOpen r)
    (w_PipelineCheckedAt r) (w_PipelineRunFixMR r) (w_PipelineRunFixState r) (w_PipelineDiagnosis r) (w_PipelineFix
    r) (w_Revision r) v (w_ReslingFireBy r) (w_RetryFeedback r).
Definition set_w_ReslingFireBy (v : Time) (r : WorkItem) : WorkItem :=
  mkWorkItem (w_BeadAnchor r) (w_BeadID r) (w_Project r) (w_ProjectID r) (w_Rig r) (w_SessionKey r) (w_Trigger r)
    (w_IssueIID r) (w_ConfigHash r) (w_State r) (w_Rung r) (w_Model r) (w_Attempt r) (w_ReservationID r)
    (w_ReservationExpiresAt r) (w_RetryAfter r) (w_SessionEndedAt r) (w_SessionID r) (w_CheckoutSHA r) (w_UpdatedAt
    r) (w_PipelineID r) (w_PipelineTarget r) (w_PipelineFingerprint r) (w_PipelineLastSuccess r) (w_PipelineFixEpoch
    r) (w_PipelineSHA r) (w_PipelineProjectURL r) (w_PipelineJobs r) (w_PipelineExcerptVersion r)
    (w_PipelineExcerptMaxBytes r) (w_PipelineFirstFailed r) (w_PipelineLatestFailed r) (w_PipelineRunOpen r)
    (w_PipelineCheckedAt r) (w_PipelineRunFixMR r) (w_PipelineRunFixState r) (w_PipelineDiagnosis r) (w_PipelineFix
    r) (w_Revision r) (w_ReslungAt r) v (w_RetryFeedback r).
Definition set_w_RetryFeedback (v : RetryFeedback) (r : WorkItem) : WorkItem :=
  mkWorkItem (w_BeadAnchor r) (w_BeadID r) (w_Project r) (w_ProjectID r) (w_Rig r) (w_SessionKey r) (w_Trigger r)
    (w_IssueIID r) (w_ConfigHash r) (w_State r) (w_Rung r) (w_Model r) (w_Attempt r) (w_ReservationID r)
    (w_ReservationExpiresAt r) (w_RetryAfter r) (w_SessionEndedAt r) (w_SessionID r) (w_CheckoutSHA r) (w_UpdatedAt
    r) (w_PipelineID r) (w_PipelineTarget r) (w_PipelineFingerprint r) (w_PipelineLastSuccess r) (w_PipelineFixEpoch
    r) (w_PipelineSHA r) (w_PipelineProjectURL r) (w_PipelineJobs r) (w_PipelineExcerptVersion r)
    (w_PipelineExcerptMaxBytes r) (w_PipelineFirstFailed r) (w_PipelineLatestFailed r) (w_PipelineRunOpen r)
    (w_PipelineCheckedAt r) (w_PipelineRunFixMR r) (w_PipelineRunFixState r) (w_PipelineDiagnosis r) (w_PipelineFix
    r) (w_Revision r) (w_ReslungAt r) (w_ReslingFireBy r) v.
Definition set_w_PipelineFix (v : PipelineFix) (r : WorkItem) : WorkItem :=
  mkWorkItem (w_BeadAnchor r) (w_BeadID r) (w_Project r) (w_ProjectID r) (w_Rig r) (w_SessionKey r) (w_Trigger r)
    (w_IssueIID r) (w_ConfigHash r) (w_State r) (w_Rung r) (w_Model r) (w_Attempt r) (w_ReservationID r)
    (w_ReservationExpiresAt r) (w_RetryAfter r) (w_SessionEndedAt r) (w_SessionID r) (w_CheckoutSHA r) (w_UpdatedAt
    r) (w_PipelineID r) (w_PipelineTarget r) (w_PipelineFingerprint r) (w_PipelineLastSuccess r) (w_PipelineFixEpoch
    r) (w_PipelineSHA r) (w_PipelineProjectURL r) (w_PipelineJobs r) (w_PipelineExcerptVersion r)
    (w_PipelineExcerptMaxBytes r) (w_PipelineFirstFailed r) (w_PipelineLatestFailed r) (w_PipelineRunOpen r)
    (w_PipelineCheckedAt r) (w_PipelineRunFixMR r) (w_PipelineRunFixState r) (w_PipelineDiagnosis r) v (w_Revision r)
    (w_ReslungAt r) (w_ReslingFireBy r) (w_RetryFeedback r).
Definition set_w_PipelineSHA (v : string) (r : WorkItem) : WorkItem :=
  mkWorkItem (w_BeadAnchor r) (w_BeadID r) (w_Project r) (w_ProjectID r) (w_Rig r) (w_SessionKey r) (w_Trigger r)
    (w_IssueIID r) (w_ConfigHash r) (w_State r) (w_Rung r) (w_Model r) (w_Attempt r) (w_ReservationID r)
    (w_ReservationExpiresAt r) (w_RetryAfter r) (w_SessionEndedAt r) (w_SessionID r) (w_CheckoutSHA r) (w_UpdatedAt
    r) (w_PipelineID r) (w_PipelineTarget r) (w_PipelineFingerprint r) (w_PipelineLastSuccess r) (w_PipelineFixEpoch
    r) v (w_PipelineProjectURL r) (w_PipelineJobs r) (w_PipelineExcerptVersion r) (w_PipelineExcerptMaxBytes r)
    (w_PipelineFirstFailed r) (w_PipelineLatestFailed r) (w_PipelineRunOpen r) (w_PipelineCheckedAt r)
    (w_PipelineRunFixMR r) (w_PipelineRunFixState r) (w_PipelineDiagnosis r) (w_PipelineFix r) (w_Revision r)
    (w_ReslungAt r) (w_ReslingFireBy r) (w_RetryFeedback r).
Definition set_w_PipelineProjectURL (v : string) (r : WorkItem) : WorkItem :=
  mkWorkItem (w_BeadAnchor r) (w_BeadID r) (w_Project r) (w_ProjectID r) (w_Rig r) (w_SessionKey r) (w_Trigger r)
    (w_IssueIID r) (w_ConfigHash r) (w_State r) (w_Rung r) (w_Model r) (w_Attempt r) (w_ReservationID r)
    (w_ReservationExpiresAt r) (w_RetryAfter r) (w_SessionEndedAt r) (w_SessionID r) (w_CheckoutSHA r) (w_UpdatedAt
    r) (w_PipelineID r) (w_PipelineTarget r) (w_PipelineFingerprint r) (w_PipelineLastSuccess r) (w_PipelineFixEpoch
    r) (w_PipelineSHA r) v (w_PipelineJobs r) (w_PipelineExcerptVersion r) (w_PipelineExcerptMaxBytes r)
    (w_PipelineFirstFailed r) (w_PipelineLatestFailed r) (w_PipelineRunOpen r) (w_PipelineCheckedAt r)
    (w_PipelineRunFixMR r) (w_PipelineRunFixState r) (w_PipelineDiagnosis r) (w_PipelineFix r) (w_Revision r)
    (w_ReslungAt r) (w_ReslingFireBy r) (w_RetryFeedback r).
Definition set_w_PipelineRunOpen (v : bool) (r : WorkItem) : WorkItem :=
  mkWorkItem (w_BeadAnchor r) (w_BeadID r) (w_Project r) (w_ProjectID r) (w_Rig r) (w_SessionKey r) (w_Trigger r)
    (w_IssueIID r) (w_ConfigHash r) (w_State r) (w_Rung r) (w_Model r) (w_Attempt r) (w_ReservationID r)
    (w_ReservationExpiresAt r) (w_RetryAfter r) (w_SessionEndedAt r) (w_SessionID r) (w_CheckoutSHA r) (w_UpdatedAt
    r) (w_PipelineID r) (w_PipelineTarget r) (w_PipelineFingerprint r) (w_PipelineLastSuccess r) (w_PipelineFixEpoch
    r) (w_PipelineSHA r) (w_PipelineProjectURL r) (w_PipelineJobs r) (w_PipelineExcerptVersion r)
    (w_PipelineExcerptMaxBytes r) (w_PipelineFirstFailed r) (w_PipelineLatestFailed r) v (w_PipelineCheckedAt r)
    (w_PipelineRunFixMR r) (w_PipelineRunFixState r) (w_PipelineDiagnosis r) (w_PipelineFix r) (w_Revision r)
    (w_ReslungAt r) (w_ReslingFireBy r) (w_RetryFeedback r).
Definition set_w_PipelineRunFixMR (v : Z) (r : WorkItem) : WorkItem :=
  mkWorkItem (w_BeadAnchor r) (w_BeadID r) (w_Project r) (w_ProjectID r) (w_Rig r) (w_SessionKey r) (w_Trigger r)
    (w_IssueIID r) (w_ConfigHash r) (w_State r) (w_Rung r) (w_Model r) (w_Attempt r) (w_ReservationID r)
    (w_ReservationExpiresAt r) (w_RetryAfter r) (w_SessionEndedAt r) (w_SessionID r) (w_CheckoutSHA r) (w_UpdatedAt
    r) (w_PipelineID r) (w_PipelineTarget r) (w_PipelineFingerprint r) (w_PipelineLastSuccess r) (w_PipelineFixEpoch
    r) (w_PipelineSHA r) (w_PipelineProjectURL r) (w_PipelineJobs r) (w_PipelineExcerptVersion r)
    (w_PipelineExcerptMaxBytes r) (w_PipelineFirstFailed r) (w_PipelineLatestFailed r) (w_PipelineRunOpen r)
    (w_PipelineCheckedAt r) v (w_PipelineRunFixState r) (w_PipelineDiagnosis r) (w_PipelineFix r) (w_Revision r)
    (w_ReslungAt r) (w_ReslingFireBy r) (w_RetryFeedback r).
Definition set_w_PipelineRunFixState (v : string) (r : WorkItem) : WorkItem :=
  mkWorkItem (w_BeadAnchor r) (w_BeadID r) (w_Project r) (w_ProjectID r) (w_Rig r) (w_SessionKey r) (w_Trigger r)
    (w_IssueIID r) (w_ConfigHash r) (w_State r) (w_Rung r) (w_Model r) (w_Attempt r) (w_ReservationID r)
    (w_ReservationExpiresAt r) (w_RetryAfter r) (w_SessionEndedAt r) (w_SessionID r) (w_CheckoutSHA r) (w_UpdatedAt
    r) (w_PipelineID r) (w_PipelineTarget r) (w_PipelineFingerprint r) (w_PipelineLastSuccess r) (w_PipelineFixEpoch
    r) (w_PipelineSHA r) (w_PipelineProjectURL r) (w_PipelineJobs r) (w_PipelineExcerptVersion r)
    (w_PipelineExcerptMaxBytes r) (w_PipelineFirstFailed r) (w_PipelineLatestFailed r) (w_PipelineRunOpen r)
    (w_PipelineCheckedAt r) (w_PipelineRunFixMR r) v (w_PipelineDiagnosis r) (w_PipelineFix r) (w_Revision r)
    (w_ReslungAt r) (w_ReslingFireBy r) (w_RetryFeedback r).
Definition set_w_Rung (v : string) (r : WorkItem) : WorkItem :=
  mkWorkItem (w_BeadAnchor r) (w_BeadID r) (w_Project r) (w_ProjectID r) (w_Rig r) (w_SessionKey r) (w_Trigger r)
    (w_IssueIID r) (w_ConfigHash r) (w_State r) v (w_Model r) (w_Attempt r) (w_ReservationID r)
    (w_ReservationExpiresAt r) (w_RetryAfter r) (w_SessionEndedAt r) (w_SessionID r) (w_CheckoutSHA r) (w_UpdatedAt
    r) (w_PipelineID r) (w_PipelineTarget r) (w_PipelineFingerprint r) (w_PipelineLastSuccess r) (w_PipelineFixEpoch
    r) (w_PipelineSHA r) (w_PipelineProjectURL r) (w_PipelineJobs r) (w_PipelineExcerptVersion r)
    (w_PipelineExcerptMaxBytes r) (w_PipelineFirstFailed r) (w_PipelineLatestFailed r) (w_PipelineRunOpen r)
    (w_PipelineCheckedAt r) (w_PipelineRunFixMR r) (w_PipelineRunFixState r) (w_PipelineDiagnosis r) (w_PipelineFix
    r) (w_Revision r) (w_ReslungAt r) (w_ReslingFireBy r) (w_RetryFeedback r).
Definition set_w_Model (v : string) (r : WorkItem) : WorkItem :=
  mkWorkItem (w_BeadAnchor r) (w_BeadID r) (w_Project r) (w_ProjectID r) (w_Rig r) (w_SessionKey r) (w_Trigger r)
    (w_IssueIID r) (w_ConfigHash r) (w_State r) (w_Rung r) v (w_Attempt r) (w_ReservationID r)
    (w_ReservationExpiresAt r) (w_RetryAfter r) (w_SessionEndedAt r) (w_SessionID r) (w_CheckoutSHA r) (w_UpdatedAt
    r) (w_PipelineID r) (w_PipelineTarget r) (w_PipelineFingerprint r) (w_PipelineLastSuccess r) (w_PipelineFixEpoch
    r) (w_PipelineSHA r) (w_PipelineProjectURL r) (w_PipelineJobs r) (w_PipelineExcerptVersion r)
    (w_PipelineExcerptMaxBytes r) (w_PipelineFirstFailed r) (w_PipelineLatestFailed r) (w_PipelineRunOpen r)
    (w_PipelineCheckedAt r) (w_PipelineRunFixMR r) (w_PipelineRunFixState r) (w_PipelineDiagnosis r) (w_PipelineFix
    r) (w_Revision r) (w_ReslungAt r) (w_ReslingFireBy r) (w_RetryFeedback r).
Definition set_w_ReservationID (v : string) (r : WorkItem) : WorkItem :=
  mkWorkItem (w_BeadAnchor r) (w_BeadID r) (w_Project r) (w_ProjectID r) (w_Rig r) (w_SessionKey r) (w_Trigger r)
    (w_IssueIID r) (w_ConfigHash r) (w_State r) (w_Rung r) (w_Model r) (w_Attempt r) v (w_ReservationExpiresAt r)
    (w_RetryAfter r) (w_SessionEndedAt r) (w_SessionID r) (w_CheckoutSHA r) (w_UpdatedAt r) (w_PipelineID r)
    (w_PipelineTarget r) (w_PipelineFingerprint r) (w_PipelineLastSuccess r) (w_PipelineFixEpoch r) (w_PipelineSHA r)
    (w_PipelineProjectURL r) (w_PipelineJobs r) (w_PipelineExcerptVersion r) (w_PipelineExcerptMaxBytes r)
    (w_PipelineFirstFailed r) (w_PipelineLatestFailed r) (w_PipelineRunOpen r) (w_PipelineCheckedAt r)
    (w_PipelineRunFixMR r) (w_PipelineRunFixState r) (w_PipelineDiagnosis r) (w_PipelineFix r) (w_Revision r)
    (w_ReslungAt r) (w_ReslingFireBy r) (w_RetryFeedback r).
Definition set_w_ReservationExpiresAt (v : Time) (r : WorkItem) : WorkItem :=
  mkWorkItem (w_BeadAnchor r) (w_BeadID r) (w_Project r) (w_ProjectID r) (w_Rig r) (w_SessionKey r) (w_Trigger r)
    (w_IssueIID r) (w_ConfigHash r) (w_State r) (w_Rung r) (w_Model r) (w_Attempt r) (w_ReservationID r) v
    (w_RetryAfter r) (w_SessionEndedAt r) (w_SessionID r) (w_CheckoutSHA r) (w_UpdatedAt r) (w_PipelineID r)
    (w_PipelineTarget r) (w_PipelineFingerprint r) (w_PipelineLastSuccess r) (w_PipelineFixEpoch r) (w_PipelineSHA r)
    (w_PipelineProjectURL r) (w_PipelineJobs r) (w_PipelineExcerptVersion r) (w_PipelineExcerptMaxBytes r)
    (w_PipelineFirstFailed r) (w_PipelineLatestFailed r) (w_PipelineRunOpen r) (w_PipelineCheckedAt r)
    (w_PipelineRunFixMR r) (w_PipelineRunFixState r) (w_PipelineDiagnosis r) (w_PipelineFix r) (w_Revision r)
    (w_ReslungAt r) (w_ReslingFireBy r) (w_RetryFeedback r).
Definition set_w_PipelineID (v : Z) (r : WorkItem) : WorkItem :=
  mkWorkItem (w_BeadAnchor r) (w_BeadID r) (w_Project r) (w_ProjectID r) (w_Rig r) (w_SessionKey r) (w_Trigger r)
    (w_IssueIID r) (w_ConfigHash r) (w_State r) (w_Rung r) (w_Model r) (w_Attempt r) (w_ReservationID r)
    (w_ReservationExpiresAt r) (w_RetryAfter r) (w_SessionEndedAt r) (w_SessionID r) (w_CheckoutSHA r) (w_UpdatedAt
    r) v (w_PipelineTarget r) (w_PipelineFingerprint r) (w_PipelineLastSuccess r) (w_PipelineFixEpoch r)
    (w_PipelineSHA r) (w_PipelineProjectURL r) (w_PipelineJobs r) (w_PipelineExcerptVersion r)
    (w_PipelineExcerptMaxBytes r) (w_PipelineFirstFailed r) (w_PipelineLatestFailed r) (w_PipelineRunOpen r)
    (w_PipelineCheckedAt r) (w_PipelineRunFixMR r) (w_PipelineRunFixState r) (w_PipelineDiagnosis r) (w_PipelineFix
    r) (w_Revision r) (w_ReslungAt r) (w_ReslingFireBy r) (w_RetryFeedback r).
Definition set_w_PipelineTarget (v : string) (r : WorkItem) : WorkItem :=
  mkWorkItem (w_BeadAnchor r) (w_BeadID r) (w_Project r) (w_ProjectID r) (w_Rig r) (w_SessionKey r) (w_Trigger r)
    (w_IssueIID r) (w_ConfigHash r) (w_State r) (w_Rung r) (w_Model r) (w_Attempt r) (w_ReservationID r)
    (w_ReservationExpiresAt r) (w_RetryAfter r) (w_SessionEndedAt r) (w_SessionID r) (w_CheckoutSHA r) (w_UpdatedAt
    r) (w_PipelineID r) v (w_PipelineFingerprint r) (w_PipelineLastSuccess r) (w_PipelineFixEpoch r) (w_PipelineSHA
    r) (w_PipelineProjectURL r) (w_PipelineJobs r) (w_PipelineExcerptVersion r) (w_PipelineExcerptMaxBytes r)
    (w_PipelineFirstFailed r) (w_PipelineLatestFailed r) (w_PipelineRunOpen r) (w_PipelineCheckedAt r)
    (w_PipelineRunFixMR r) (w_PipelineRunFixState r) (w_PipelineDiagnosis r) (w_PipelineFix r) (w_Revision r)
    (w_ReslungAt r) (w_ReslingFireBy r) (w_RetryFeedback r).
Definition set_w_PipelineFingerprint (v : string) (r : WorkItem) : WorkItem :=
  mkWorkItem (w_BeadAnchor r) (w_BeadID r) (w_Project r) (w_ProjectID r) (w_Rig r) (w_SessionKey r) (w_Trigger r)
    (w_IssueIID r) (w_ConfigHash r) (w_State r) (w_Rung r) (w_Model r) (w_Attempt r) (w_ReservationID r)
    (w_ReservationExpiresAt r) (w_RetryAfter r) (w_SessionEndedAt r) (w_SessionID r) (w_CheckoutSHA r) (w_UpdatedAt
    r) (w_PipelineID r) (w_PipelineTarget r) v (w_PipelineLastSuccess r) (w_PipelineFixEpoch r) (w_PipelineSHA r)
    (w_PipelineProjectURL r) (w_PipelineJobs r) (w_PipelineExcerptVersion r) (w_PipelineExcerptMaxBytes r)
    (w_PipelineFirstFailed r) (w_PipelineLatestFailed r) (w_PipelineRunOpen r) (w_PipelineCheckedAt r)
    (w_PipelineRunFixMR r) (w_PipelineRunFixState r) (w_PipelineDiagnosis r) (w_PipelineFix r) (w_Revision r)
    (w_ReslungAt r) (w_ReslingFireBy r) (w_RetryFeedback r).
Definition set_w_PipelineLastSuccess (v : Z) (r : WorkItem) : WorkItem :=
  mkWorkItem (w_BeadAnchor r) (w_BeadID r) (w_Project r) (w_ProjectID r) (w_Rig r) (w_SessionKey r) (w_Trigger r)
    (w_IssueIID r) (w_ConfigHash r) (w_State r) (w_Rung r) (w_Model r) (w_Attempt r) (w_ReservationID r)
    (w_ReservationExpiresAt r) (w_RetryAfter r) (w_SessionEndedAt r) (w_SessionID r) (w_CheckoutSHA r) (w_UpdatedAt
    r) (w_PipelineID r) (w_PipelineTarget r) (w_PipelineFingerprint r) v (w_PipelineFixEpoch r) (w_PipelineSHA r)
    (w_PipelineProjectURL r) (w_PipelineJobs r) (w_PipelineExcerptVersion r) (w_PipelineExcerptMaxBytes r)
    (w_PipelineFirstFailed r) (w_PipelineLatestFailed r) (w_PipelineRunOpen r) (w_PipelineCheckedAt r)
    (w_PipelineRunFixMR r) (w_PipelineRunFixState r) (w_PipelineDiagnosis r) (w_PipelineFix r) (w_Revision r)
    (w_ReslungAt r) (w_ReslingFireBy r) (w_RetryFeedback r).
Definition set_w_PipelineFixEpoch (v : Z) (r : WorkItem) : WorkItem :=
  mkWorkItem (w_BeadAnchor r) (w_BeadID r) (w_Project r) (w_ProjectID r) (w_Rig r) (w_SessionKey r) (w_Trigger r)
    (w_IssueIID r) (w_ConfigHash r) (w_State r) (w_Rung r) (w_Model r) (w_Attempt r) (w_ReservationID r)
    (w_ReservationExpiresAt r) (w_RetryAfter r) (w_SessionEndedAt r) (w_SessionID r) (w_CheckoutSHA r) (w_UpdatedAt
    r) (w_PipelineID r) (w_PipelineTarget r) (w_PipelineFingerprint r) (w_PipelineLastSuccess r) v (w_PipelineSHA r)
    (w_PipelineProjectURL r) (w_PipelineJobs r) (w_PipelineExcerptVersion r) (w_PipelineExcerptMaxBytes r)
    (w_PipelineFirstFailed r) (w_PipelineLatestFailed r) (w_PipelineRunOpen r) (w_PipelineCheckedAt r)
    (w_PipelineRunFixMR r) (w_PipelineRunFixState r) (w_PipelineDiagnosis r) (w_PipelineFix r) (w_Revision r)
    (w_ReslungAt r) (w_ReslingFireBy r) (w_RetryFeedback r).
Definition set_w_PipelineFirstFailed (v : Z) (r : WorkItem) : WorkItem :=
  mkWorkItem (w_BeadAnchor r) (w_BeadID r) (w_Project r) (w_ProjectID r) (w_Rig r) (w_SessionKey r) (w_Trigger r)
    (w_IssueIID r) (w_ConfigHash r) (w_State r) (w_Rung r) (w_Model r) (w_Attempt r) (w_ReservationID r)
    (w_ReservationExpiresAt r) (w_RetryAfter r) (w_SessionEndedAt r) (w_SessionID r) (w_CheckoutSHA r) (w_UpdatedAt
    r) (w_PipelineID r) (w_PipelineTarget r) (w_PipelineFingerprint r) (w_PipelineLastSuccess r) (w_PipelineFixEpoch
    r) (w_PipelineSHA r) (w_PipelineProjectURL r) (w_PipelineJobs r) (w_PipelineExcerptVersion r)
    (w_PipelineExcerptMaxBytes r) v (w_PipelineLatestFailed r) (w_PipelineRunOpen r) (w_PipelineCheckedAt r)
    (w_PipelineRunFixMR r) (w_PipelineRunFixState r) (w_PipelineDiagnosis r) (w_PipelineFix r) (w_Revision r)
    (w_ReslungAt r) (w_ReslingFireBy r) (w_RetryFeedback r).
Definition set_w_PipelineLatestFailed (v : Z) (r : WorkItem) : WorkItem :=
  mkWorkItem (w_BeadAnchor r) (w_BeadID r) (w_Project r) (w_ProjectID r) (w_Rig r) (w_SessionKey r) (w_Trigger r)
    (w_IssueIID r) (w_ConfigHash r) (w_State r) (w_Rung r) (w_Model r) (w_Attempt r) (w_ReservationID r)
    (w_ReservationExpiresAt r) (w_RetryAfter r) (w_SessionEndedAt r) (w_SessionID r) (w_CheckoutSHA r) (w_UpdatedAt
    r) (w_PipelineID r) (w_PipelineTarget r) (w_PipelineFingerprint r) (w_PipelineLastSuccess r) (w_PipelineFixEpoch
    r) (w_PipelineSHA r) (w_PipelineProjectURL r) (w_PipelineJobs r) (w_PipelineExcerptVersion r)
    (w_PipelineExcerptMaxBytes r) (w_PipelineFirstFailed r) v (w_PipelineRunOpen r) (w_PipelineCheckedAt r)
    (w_PipelineRunFixMR r) (w_PipelineRunFixState r) (w_PipelineDiagnosis r) (w_PipelineFix r) (w_Revision r)
    (w_ReslungAt r) (w_ReslingFireBy r) (w_RetryFeedback r).
Definition set_w_PipelineJobs (v : list PipelineJob) (r : WorkItem) : WorkItem :=
  mkWorkItem (w_BeadAnchor r) (w_BeadID r) (w_Project r) (w_ProjectID r) (w_Rig r) (w_SessionKey r) (w_Trigger r)
    (w_IssueIID r) (w_ConfigHash r) (w_State r) (w_Rung r) (w_Model r) (w_Attempt r) (w_ReservationID r)
    (w_ReservationExpiresAt r) (w_RetryAfter r) (w_SessionEndedAt r) (w_SessionID r) (w_CheckoutSHA r) (w_UpdatedAt
    r) (w_PipelineID r) (w_PipelineTarget r) (w_PipelineFingerprint r) (w_PipelineLastSuccess r) (w_PipelineFixEpoch
    r) (w_PipelineSHA r) (w_PipelineProjectURL r) v (w_PipelineExcerptVersion r) (w_PipelineExcerptMaxBytes r)
    (w_PipelineFirstFailed r) (w_PipelineLatestFailed r) (w_PipelineRunOpen r) (w_PipelineCheckedAt r)
    (w_PipelineRunFixMR r) (w_PipelineRunFixState r) (w_PipelineDiagnosis r) (w_PipelineFix r) (w_Revision r)
    (w_ReslungAt r) (w_ReslingFireBy r) (w_RetryFeedback r).
Definition set_w_PipelineExcerptVersion (v : Z) (r : WorkItem) : WorkItem :=
  mkWorkItem (w_BeadAnchor r) (w_BeadID r) (w_Project r) (w_ProjectID r) (w_Rig r) (w_SessionKey r) (w_Trigger r)
    (w_IssueIID r) (w_ConfigHash r) (w_State r) (w_Rung r) (w_Model r) (w_Attempt r) (w_ReservationID r)
    (w_ReservationExpiresAt r) (w_RetryAfter r) (w_SessionEndedAt r) (w_SessionID r) (w_CheckoutSHA r) (w_UpdatedAt
    r) (w_PipelineID r) (w_PipelineTarget r) (w_PipelineFingerprint r) (w_PipelineLastSuccess r) (w_PipelineFixEpoch
    r) (w_PipelineSHA r) (w_PipelineProjectURL r) (w_PipelineJobs r) v (w_PipelineExcerptMaxBytes r)
    (w_PipelineFirstFailed r) (w_PipelineLatestFailed r) (w_PipelineRunOpen r) (w_PipelineCheckedAt r)
    (w_PipelineRunFixMR r) (w_PipelineRunFixState r) (w_PipelineDiagnosis r) (w_PipelineFix r) (w_Revision r)
    (w_ReslungAt r) (w_ReslingFireBy r) (w_RetryFeedback r).
Definition set_w_PipelineExcerptMaxBytes (v : Z) (r : WorkItem) : WorkItem :=
  mkWorkItem (w_BeadAnchor r) (w_BeadID r) (w_Project r) (w_ProjectID r) (w_Rig r) (w_SessionKey r) (w_Trigger r)
    (w_IssueIID r) (w_ConfigHash r) (w_State r) (w_Rung r) (w_Model r) (w_Attempt r) (w_ReservationID r)
    (w_ReservationExpiresAt r) (w_RetryAfter r) (w_SessionEndedAt r) (w_SessionID r) (w_CheckoutSHA r) (w_UpdatedAt
    r) (w_PipelineID r) (w_PipelineTarget r) (w_PipelineFingerprint r) (w_PipelineLastSuccess r) (w_PipelineFixEpoch
    r) (w_PipelineSHA r) (w_PipelineProjectURL r) (w_PipelineJobs r) (w_PipelineExcerptVersion r) v
    (w_PipelineFirstFailed r) (w_PipelineLatestFailed r) (w_PipelineRunOpen r) (w_PipelineCheckedAt r)
    (w_PipelineRunFixMR r) (w_PipelineRunFixState r) (w_PipelineDiagnosis r) (w_PipelineFix r) (w_Revision r)
    (w_ReslungAt r) (w_ReslingFireBy r) (w_RetryFeedback r).
Definition set_w_PipelineCheckedAt (v : Time) (r : WorkItem) : WorkItem :=
  mkWorkItem (w_BeadAnchor r) (w_BeadID r) (w_Project r) (w_ProjectID r) (w_Rig r) (w_SessionKey r) (w_Trigger r)
    (w_IssueIID r) (w_ConfigHash r) (w_State r) (w_Rung r) (w_Model r) (w_Attempt r) (w_ReservationID r)
    (w_ReservationExpiresAt r) (w_RetryAfter r) (w_SessionEndedAt r) (w_SessionID r) (w_CheckoutSHA r) (w_UpdatedAt
    r) (w_PipelineID r) (w_PipelineTarget r) (w_PipelineFingerprint r) (w_PipelineLastSuccess r) (w_PipelineFixEpoch
    r) (w_PipelineSHA r) (w_PipelineProjectURL r) (w_PipelineJobs r) (w_PipelineExcerptVersion r)
    (w_PipelineExcerptMaxBytes r) (w_PipelineFirstFailed r) (w_PipelineLatestFailed r) (w_PipelineRunOpen r) v
    (w_PipelineRunFixMR r) (w_PipelineRunFixState r) (w_PipelineDiagnosis r) (w_PipelineFix r) (w_Revision r)
    (w_ReslungAt r) (w_ReslingFireBy r) (w_RetryFeedback r).
Definition set_w_PipelineDiagnosis (v : PipelineDiagnosis) (r : WorkItem) : WorkItem :=
  mkWorkItem (w_BeadAnchor r) (w_BeadID r) (w_Project r) (w_ProjectID r) (w_Rig r) (w_SessionKey r) (w_Trigger r)
    (w_IssueIID r) (w_ConfigHash r) (w_State r) (w_Rung r) (w_Model r) (w_Attempt r) (w_ReservationID r)
    (w_ReservationExpiresAt r) (w_RetryAfter r) (w_SessionEndedAt r) (w_SessionID r) (w_CheckoutSHA r) (w_UpdatedAt
    r) (w_PipelineID r) (w_PipelineTarget r) (w_PipelineFingerprint r) (w_PipelineLastSuccess r) (w_PipelineFixEpoch
    r) (w_PipelineSHA r) (w_PipelineProjectURL r) (w_PipelineJobs r) (w_PipelineExcerptVersion r)
    (w_PipelineExcerptMaxBytes r) (w_PipelineFirstFailed r) (w_PipelineLatestFailed r) (w_PipelineRunOpen r)
    (w_PipelineCheckedAt r) (w_PipelineRunFixMR r) (w_PipelineRunFixState r) v (w_PipelineFix r) (w_Revision r)
    (w_ReslungAt r) (w_ReslingFireBy r) (w_RetryFeedback r).

(** ** Writes ([store.go]) *)

(** A reservation written again keeps the time it was first written. *)
Definition stampWriteTime (r : WorkItem) (now : Time) : WorkItem :=
  if bool_decide (w_State r = StatePendingPrompt) && negb (IsZero (w_UpdatedAt r)) then r else set_w_UpdatedAt now r.
Definition stampWrite (r : WorkItem) (now : Time) (revision : string) : WorkItem :=
  set_w_Revision revision (stampWriteTime r now).

(** ** The store ([memory.go]) *)

Record Memory := mkMemory { recs : gmap string WorkItem }.
Definition NewMemory : Memory := mkMemory ∅.
Inductive store_error := ErrStale | ErrStore.

Definition Put (m : Memory) (now : Time) (revision : string) (r : WorkItem) : Memory :=
  mkMemory (<[w_BeadAnchor r := stampWrite r now revision]> (recs m)).

(** The revision of what is stored: an absent record reads as the zero record. *)
Definition revision_of (o : option WorkItem) : string := w_Revision (default WorkItem_zero o).

Definition PutIf (m : Memory) (now : Time) (revision : string) (r : WorkItem) (ifRevision : string) :
    result store_error string * Memory :=
  if negb (String.eqb (revision_of (recs m !! w_BeadAnchor r)) ifRevision) then (Err ErrStale, m)
  else
    let w := stampWrite r now revision in
    (Ok (w_Revision w), mkMemory (<[w_BeadAnchor r := w]> (recs m))).

Definition Get (m : Memory) (beadAnchor : string) : option WorkItem := recs m !! beadAnchor.

(** Anchors are the keys, so the code's sort leaves one order. *)
Definition listed (p : WorkItem → bool) (m : Memory) : list WorkItem :=
  omap (λ k, recs m !! k) (sorted_keys (filter (λ e, p (snd e)) (recs m))).
Definition List_ (m : Memory) (st : WorkState) : list WorkItem := listed (λ r, bool_decide (w_State r = st)) m.
Definition ListOpenPipelineRuns (m : Memory) : list WorkItem := listed w_PipelineRunOpen m.

(** ** What the store promises *)

Section store.
Implicit Types (m : Memory) (r w : WorkItem).

Lemma stampWrite_fields r now rev :
  w_BeadAnchor (stampWrite r now rev) = w_BeadAnchor r ∧ w_Revision (stampWrite r now rev) = rev ∧
  w_State (stampWrite r now rev) = w_State r ∧ w_SessionID (stampWrite r now rev) = w_SessionID r ∧
  w_Attempt (stampWrite r now rev) = w_Attempt r ∧ w_ReservationID (stampWrite r now rev) = w_ReservationID r ∧
  w_PipelineFix (stampWrite r now rev) = w_PipelineFix r.
Proof. unfold stampWrite, stampWriteTime. by case_match. Qed.

(** A reservation's write time: of its first write when it is written again. *)
Lemma stampWrite_age r now rev :
  w_UpdatedAt (stampWrite r now rev) =
  if decide (w_State r = StatePendingPrompt ∧ w_UpdatedAt r ≠ 0) then w_UpdatedAt r else now.
Proof.
  unfold stampWrite, stampWriteTime, IsZero. case_bool_decide as Hs; cbn [andb].
  - destruct (Z.eqb_spec (w_UpdatedAt r) 0); cbn; case_decide; naive_solver.
  - rewrite decide_False by naive_solver. done.
Qed.

(** What one writer does to the store. *)
Inductive write := DoPut (now : Time) (revision : string) (r : WorkItem)
                 | DoPutIf (now : Time) (revision : string) (r : WorkItem) (ifRevision : string).
Definition drawn (o : write) : string := match o with DoPut _ v _ | DoPutIf _ v _ _ => v end.
Definition written (o : write) : WorkItem :=
  match o with DoPut now v r | DoPutIf now v r _ => stampWrite r now v end.
Definition perform m (o : write) : Memory :=
  match o with DoPut now v r => Put m now v r | DoPutIf now v r i => snd (PutIf m now v r i) end.
Definition wrote (k : string) m (o : write) : bool :=
  match o with
  | DoPut _ _ r => String.eqb (w_BeadAnchor r) k
  | DoPutIf now v r i => match fst (PutIf m now v r i) with Ok _ => String.eqb (w_BeadAnchor r) k | Err _ => false end
  end.
Fixpoint performs m (os : list write) : Memory := match os with [] => m | o :: os => performs (perform m o) os end.
(** Some write of the sequence replaced the record. *)
Fixpoint touched (k : string) m (os : list write) : bool :=
  match os with [] => false | o :: os => wrote k m o || touched k (perform m o) os end.
(** No draw repeats, and none is empty. *)
Fixpoint fresh (used : gset string) (os : list write) : Prop :=
  match os with [] => True | o :: os => (drawn o ∉ used) ∧ (drawn o ≠ "") ∧ fresh ({[drawn o]} ∪ used) os end.
Definition revisions_in (used : gset string) m : Prop :=
  ∀ k r, recs m !! k = Some r → w_Revision r = "" ∨ w_Revision r ∈ used.

Lemma written_revision o : w_Revision (written o) = drawn o.
Proof. destruct o; apply stampWrite_fields. Qed.

Lemma perform_lookup m o k :
  recs (perform m o) !! k = (if wrote k m o then Some (written o) else recs m !! k).
Proof.
  destruct o as [now v r|now v r i]; cbn.
  - destruct (String.eqb_spec (w_BeadAnchor r) k) as [<-|]; by simplify_map_eq.
  - unfold PutIf. destruct (String.eqb _ i); cbn; [|done].
    destruct (String.eqb_spec (w_BeadAnchor r) k) as [<-|]; by simplify_map_eq.
Qed.

Lemma perform_revisions used m o : revisions_in used m → revisions_in ({[drawn o]} ∪ used) (perform m o).
Proof.
  intros Hu k r Hk. rewrite perform_lookup in Hk. destruct (wrote k m o).
  - right. injection Hk as <-. rewrite written_revision. set_solver.
  - destruct (Hu k r Hk); set_solver.
Qed.

Lemma revision_known used m k : revisions_in used m → revision_of (recs m !! k) = "" ∨ revision_of (recs m !! k) ∈ used.
Proof. intros Hu. destruct (recs m !! k) as [r|] eqn:E; [exact (Hu k r E)|by left]. Qed.

(** A revision drawn before does not come back. *)
Lemma performs_other used m os k v : fresh used os → revisions_in used m →
  v = "" ∨ v ∈ used → revision_of (recs m !! k) ≠ v → revision_of (recs (performs m os) !! k) ≠ v.
Proof.
  revert used m. induction os as [|o os IH]; intros used m; cbn; [done|]. intros (Hn & Hne & Hf) Hu Hv Hk.
  apply (IH ({[drawn o]} ∪ used)); [done|by apply perform_revisions|set_solver|].
  rewrite perform_lookup. destruct (wrote k m o); [|done]. change (w_Revision (written o) ≠ v).
  rewrite written_revision. naive_solver.
Qed.

Lemma performs_touched used m os k : fresh used os → revisions_in used m →
  revision_of (recs (performs m os) !! k) = revision_of (recs m !! k) ↔ touched k m os = false.
Proof.
  revert used m. induction os as [|o os IH]; intros used m; cbn; [done|]. intros (Hn & Hne & Hf) Hu.
  pose proof (perform_revisions used m o Hu) as Hu'. rewrite orb_false_iff. pose proof (perform_lookup m o k) as Hl.
  destruct (wrote k m o) eqn:Hw.
  - split; [|by intros [? _]]. intros He. exfalso. revert He.
    apply (performs_other ({[drawn o]} ∪ used)); [done..| |].
    + destruct (revision_known used m k Hu); set_solver.
    + rewrite Hl. change (w_Revision (written o) ≠ revision_of (recs m !! k)). rewrite written_revision.
      destruct (revision_known used m k Hu); congruence.
  - rewrite <- Hl, (IH _ _ Hf Hu'). naive_solver.
Qed.

Lemma performs_untouched m os k : touched k m os = false → recs (performs m os) !! k = recs m !! k.
Proof.
  revert m. induction os as [|o os IH]; intros m; cbn; [done|]. intros [Hw Ht]%orb_false_iff.
  rewrite IH by done. by rewrite perform_lookup, Hw.
Qed.

(** C32. A conditional write of what was read takes effect exactly when nobody wrote
    the record since, whoever else wrote the store and however: then it replaces
    the very record that was read. Otherwise nothing is written. *)
Theorem putif_no_lost_update used m os k now v r :
  revisions_in used m → fresh used os → w_BeadAnchor r = k →
  let m' := performs m os in
  let '(answer, m'') := PutIf m' now v r (revision_of (Get m k)) in
  (answer = Ok v ↔ touched k m os = false) ∧
  (touched k m os = false → Get m' k = Get m k ∧ Get m'' k = Some (stampWrite r now v)) ∧
  (touched k m os = true → answer = Err ErrStale ∧ m'' = m') ∧
  ∀ k', k' ≠ k → Get m'' k' = Get m' k'.
Proof.
  intros Hu Hf Hk m'. pose proof (performs_touched used m os k Hf Hu) as Ht. fold m' in Ht.
  unfold PutIf, Get in *. rewrite Hk. destruct (String.eqb_spec (revision_of (recs m' !! k)) (revision_of (recs m !! k))) as [E|E]; cbn [negb].
  - apply Ht in E as Hn. rewrite (proj1 (proj2 (stampWrite_fields _ _ _))). cbn. split; [done|]. split; [|split].
    + intros _. split; [by apply performs_untouched|by simplify_map_eq].
    + congruence.
    + intros k' Hne. by simplify_map_eq.
  - destruct (touched k m os) eqn:Hn; [|by destruct E; apply Ht]. split; [done|]. split; [done|]. by split.
Qed.

Lemma elem_of_listed p m r : (∀ k r, recs m !! k = Some r → w_BeadAnchor r = k) →
  r ∈ listed p m ↔ p r = true ∧ Get m (w_BeadAnchor r) = Some r.
Proof.
  intros Hk. unfold listed, Get. rewrite list_elem_of_omap. split.
  - intros (k & Hin & Hr). pose proof (Hk _ _ Hr) as <-. apply elem_of_sorted_keys in Hin as [r' Hr'].
    apply map_lookup_filter_Some in Hr' as [Hr' Hp]. cbn in Hp. assert (r' = r) as -> by congruence. split; [by apply Is_true_true_1|done].
  - intros [Hp Hr]. exists (w_BeadAnchor r). split; [|done]. apply elem_of_sorted_keys. exists r.
    apply map_lookup_filter_Some. split; [done|]. cbn. by apply Is_true_true_2.
Qed.
End store.

Example store_examples :
  let r := mkWorkItem "gonk:7:issue:3" "" "g/p" 7 "" "" "issue-triage" 3 "" StatePendingPrompt "" "" 1 "res" 0 0 0 "s" "" 0
             0 "" "" 0 0 "" "" [] 0 0 0 0 false 0 0 "" PipelineDiagnosis_zero PipelineFix_zero "" 0 0 RetryFeedback_zero in
  let m := Put NewMemory 100 "v1" r in
  (w_UpdatedAt <$> Get m "gonk:7:issue:3") = Some 100 ∧
  (w_UpdatedAt <$> Get (Put m 200 "v2" (default WorkItem_zero (Get m "gonk:7:issue:3"))) "gonk:7:issue:3") = Some 100 ∧
  fst (PutIf m 200 "v2" r "") = Err ErrStale ∧ fst (PutIf m 200 "v2" r "v1") = Ok "v2" ∧
  map w_BeadAnchor (List_ m StatePendingPrompt) = ["gonk:7:issue:3"] ∧ ListOpenPipelineRuns m = [].
Proof. vm_compute. repeat split; reflexivity. Qed.

Lemma putif_no_lost_update_witness :
  let r := set_w_State StateRunning WorkItem_zero in
  let m := Put NewMemory 100 "v1" r in
  let os := [DoPut 150 "v2" (set_w_State StateParked r); DoPutIf 160 "v3" (set_w_State StateDone r) "v2"] in
  touched "" m os = true ∧ fst (PutIf (performs m os) 200 "v4" r (revision_of (Get m ""))) = Err ErrStale.
Proof.
  intros r m os. split; [reflexivity|].
  assert (revisions_in {["v1"]} m) as Hu.
  { intros k w Hw. right. cbn in Hw. apply lookup_insert_Some in Hw as [[_ <-]|[_ Hw]]; [vm_compute; set_solver|]. by apply lookup_empty_Some in Hw. }
  assert (fresh {["v1"]} os) as Hf by (cbn; repeat split; set_solver).
  pose proof (putif_no_lost_update {["v1"]} m os "" 200 "v4" r Hu Hf eq_refl) as H.
  cbv zeta in H. revert H. destruct (PutIf (performs m os) 200 "v4" r (revision_of (Get m ""))) as [a m'']. intros (_ & _ & H & _). by apply H.
Defined.
