(* ===== verification/GateProgs.v ===== *)
(** * [cmd/gonk-gate]: what its programs do to the world

    A dispatch and a pass of the sweep are programs over operations on the world
    outside the process: the work store, gonk-meter, the session runtime, GitLab,
    the order queue, the clock. A program is a value here, a tree that branches
    on the answers, so that a theorem may speak of every answer. The messages are
    those of [pkg/meterapi] and [pkg/runtime] as far as the programs read or fill
    them in. What a program is shown to do is shown by a weakest precondition
    computed along the tree. *)

From S2P Require Import Prelude.
From S2P Require Import GoTime.
From S2P Require Import Effects.
From S2P Require Import Trajectory.
From S2P Require Import RungOutcome.
From S2P Require Import WorkStore.

(** ** Messages *)

(** [pkg/meterapi]: [Decision] is a string of the wire. *)
Module Meterapi.
Definition DecisionRun : string := "run".
Definition DecisionDefer : string := "defer".
Definition DecisionDeny : string := "deny".
Record KeyRef := mkKeyRef { SecretName : string; SecretKey : string }.
Record DecideRequest := mkDecideRequest {
  q_Project : string; q_Rig : string; q_BeadID : string; q_SessionKey : string; q_Trigger : string }.
Record DecideResponse := mkDecideResponse {
  Decision : string; Rung : string; Model : string; Attempt : Z; Reason : string; Detail : string;
  RetryAfter : Time; Metadata : gmap string string; KeyRef_ : KeyRef;
  ReservationID : string; ReservationExpiresAt : Time }.
Record OutcomeRequest := mkOutcomeRequest {
  o_Project : string; o_BeadID : string; o_SessionKey : string; o_Attempt : Z; o_Rung : string;
  o_ReservationID : string; o_Outcome : Outcome; o_Trigger : string }.
Record OutcomeResponse := mkOutcomeResponse { Next : string; NextRung : string }.
End Meterapi.

(** [pkg/runtime] *)
Module Runtime.
Record Spec := mkSpec {
  Name : string; Agent : string; Env : gmap string string; RigURL : string; Prompt : string;
  LiteLLMKey : string; Metadata : gmap string string; Deadline : Time }.
Inductive Phase := PhaseUnknown | PhasePending | PhaseRunning | PhaseSucceeded | PhaseFailed | PhaseNotFound.
#[export] Instance Phase_eq : EqDecision Phase. Proof. solve_decision. Defined.
Definition Finished (p : Phase) : bool := bool_decide (p = PhaseSucceeded) || bool_decide (p = PhaseFailed).
Record Status := mkStatus { Phase_ : Phase; Reason : string; StartedAt : Time; FinishedAt : Time; ExitCode : option Z }.
Definition SessionContract : Z := 1.
Definition EnvSessionContract : string := "GONK_SESSION_CONTRACT".
Definition ExitSessionContractMismatch : Z := 8.
Inductive stop_error := ErrNotFound | ErrRuntime.
End Runtime.

(** What is read to build a prompt. *)
Inductive material := IssueContext (project iid : Z) | RepoContext (project : Z) | AgentContext (project : Z).

(** What [preparePipelineDispatch] and a fix's preparer build for one session. *)
Record pipelineDispatch := mkPipelineDispatch {
  pp_prompt : string; pp_checkoutURL : string; pp_checkoutSHA : string; pp_sha : string; pp_projectURL : string;
  pp_jobs : list PipelineJob; pp_maxBytes : Z; pp_firstFailed : Z }.
Record pipefixSession := mkPipefixSession {
  fs_Prompt : string; fs_CheckoutURL : string; fs_CheckoutSHA : string; fs_ContextSHA256 : string; fs_Context : FixContext }.
Inductive prepare_error := NothingEditable | CannotPrepare.

(** The notes a dispatch posts, each a courtesy that nothing waits for. *)
Inductive note :=
| NoteRunning (project iid : Z) (bead : string) (attempt : Z) (rung : string)
| NoteDeferred (project iid : Z) (bead reason detail : string) (retryAfter : Time)
| NoteDenied (project iid : Z) (bead reason detail : string)
| NoteRun (rec : WorkItem) (state : string)
| NoteFix (fix_ run : WorkItem) (state : string) (needsHuman : bool).

(** What is read of a note, a merge request and a pod, and what is committed. *)
Record issue_note := mkIssueNote { n_ID : Z; n_System : bool; n_Author : string; n_Body : string }.
Record merge_request := mkMergeRequest { mr_Description : string; mr_WebURL : string }.
Inductive commit_action := CreateFile (path content : string) | UpdateFile (path content : string).
Record agent_pod := mkAgentPod { p_Name : string; p_Alias : string; p_Terminating : bool }.

(** ** Operations and programs *)

Inductive Op : Type → Type :=
| OGet (beadAnchor : string) : Op (result store_error (option WorkItem))
| OPut (r : WorkItem) : Op (result store_error unit)
| OPutIf (r : WorkItem) (ifRevision : string) : Op (result store_error string)
| OList (st : WorkState) : Op (result store_error (list WorkItem))
| ONow : Op Time
(** The process was told to stop. *)
| OTerminated : Op bool
| ODecide (q : Meterapi.DecideRequest) : Op (option Meterapi.DecideResponse)
| OOutcome (q : Meterapi.OutcomeRequest) : Op (option Meterapi.OutcomeResponse)
| OSecret (name key : string) : Op (option string)
(** The agent's [env] table of the pack, as decoded. *)
| OPackEnv (agent : string) : Op (option (gmap string string))
| ODefaultBranch (project : Z) : Op (option string)
| OResolveRef (project : Z) (ref : string) : Op (option string)
(** 128 random bits as text. *)
| ONonce : Op (option string)
| ORigGrant (key project : string) (projectID : Z) (sha : string) : Op bool
| ORead (m : material) : Op (option string)
| OPreparePipeline (session : string) (rec : WorkItem) : Op (option pipelineDispatch)
| OPrepareFix (session : string) (fix_ run : WorkItem) (rung : string) : Op (result prepare_error pipefixSession)
| OStart (spec : Runtime.Spec) : Op (option (string * bool))
| OStatus (h : string) : Op (option Runtime.Status)
| OOutput (h : string) : Op (result Runtime.stop_error string)
| OStop (h : string) : Op (result Runtime.stop_error unit)
| OSessions : Op (option (list string))
| ORunOrder (vars : gmap string string) : Op bool
| ONote (n : note) : Op unit
(** What only the sweep does: reads and writes of GitLab ... *)
| OIssueState (project iid : Z) : Op (option string)
| OIssueNotes (project iid : Z) : Op (option (list issue_note))
| OMergeRequests (project : Z) (sourceBranch state : string) : Op (option (list merge_request))
| ORawFile (project : Z) (path ref : string) : Op bool
| OProjectBranch (project : Z) : Op (option string)
| OCreateNote (project iid : Z) (body : string) : Op bool
| OUpdateNote (project iid id : Z) (body : string) : Op bool
| OAddLabel (project iid : Z) (label : string) : Op bool
| OCloseIssue (project iid : Z) : Op bool
| OCreateCommit (project : Z) (branch startBranch message : string) (actions : list commit_action) : Op bool
| OCreateMergeRequest (project : Z) (sourceBranch targetBranch title description : string) : Op (option string)
(** ... of meter: spend, a project's label prefix and whether features are on, a
    session's trace; of the pack ... *)
| OSpendSync : Op bool
| OCostSession (sessionKey : string) : Op (option (Z * Time))
| OMeterProject (project : string) : Op (option (bool * string))
| OTrace (sessionKey : string) : Op (result string (option TraceView))
| OShape (agent : string) : Op (option Shape)
| OPolicy (agent : string) : Op (result string Policy)
| OSleep (d : Duration) : Op bool
(** ... and what is not modelled further: the pipeline agents' application of a
    batch (whether applied and the violation, or that it is not known; and what it
    may set of the record), the exit check of an open fix, the maintenance of
    pipeline runs, the older scheduler and its pods. *)
| OApplyOwnChain (agent : string) (rec : WorkItem) (batch : Batch) :
    Op (option (bool * string) * (PipelineDiagnosis * PipelineFix * RetryFeedback))
| OJudgeFix (rec : WorkItem) : Op unit
| OMaintainRuns : Op unit
| OCloseLegacy (alias : string) : Op unit
| OPods : Op (option (list agent_pod))
| ODeletePod (name : string) : Op bool.

Inductive Prog (A : Type) : Type :=
| Ret (a : A)
| Do {B : Type} (op : Op B) (k : B → Prog A).
Arguments Ret {A} a.
Arguments Do {A B} op k.

#[export] Instance Prog_ret : MRet Prog := @Ret.
#[export] Instance Prog_bind : MBind Prog := λ A B f, fix bind p :=
  match p with Ret a => f a | Do op k => Do op (λ b, bind (k b)) end.
Definition call {B} (op : Op B) : Prog B := Do op Ret.

(** ** Runs *)

Inductive Event :=
| Ev {B : Type} (op : Op B) (answer : B).

(** The program does these operations, is given these answers, and returns. *)
Inductive runs {A : Type} : Prog A → list Event → A → Prop :=
| runs_ret a : runs (Ret a) [] a
| runs_do (B : Type) (op : Op B) k (b : B) tr a : runs (k b) tr a → runs (Do op k) (Ev op b :: tr) a.

(** ** A weakest precondition

    [S] is what is known of the run so far, [next] how an answer adds to it,
    [honest] which answers the world gives, [allowed] what is to be shown of every
    operation. *)
Section logic.
Context {S : Type} (allowed : ∀ B, Op B → S → Prop) (honest : ∀ B, Op B → B → S → Prop)
        (next : ∀ B, Op B → B → S → S).

Fixpoint wp {A : Type} (p : Prog A) (s : S) (Q : A → S → Prop) : Prop :=
  match p with
  | Ret a => Q a s
  | Do op k => allowed _ op s ∧ ∀ b, honest _ op b s → wp (k b) (next _ op b s) Q
  end.

Lemma wp_mono {A : Type} (p : Prog A) s (Q R : A → S → Prop) : wp p s Q → (∀ a s, Q a s → R a s) → wp p s R.
Proof.
  intros Hp HQR. revert s Hp. induction p as [a|B op k IH]; intros s; cbn; [by auto|].
  intros [Ha Hk]. split; [done|]. intros b Hb. by apply IH, Hk.
Qed.

Lemma wp_bind {A B : Type} (p : Prog A) (f : A → Prog B) s Q :
  wp p s (λ a s, wp (f a) s Q) → wp (p ≫= f) s Q.
Proof.
  revert s. induction p as [a|C op k IH]; intros s; cbn; [done|].
  intros [Ha Hk]. split; [done|]. intros b Hb. by apply IH, Hk.
Qed.

Lemma wp_call {B : Type} (op : Op B) s (Q : B → S → Prop) :
  allowed _ op s → (∀ b, honest _ op b s → Q b (next _ op b s)) → wp (call op) s Q.
Proof. by split. Qed.

(** Along a run: what is known at its end, whether its answers are the world's,
    and whether every operation was allowed when it was done. *)
Definition play (s : S) (tr : list Event) : S := fold_left (λ s e, match e with Ev op b => next _ op b s end) tr s.
Fixpoint honest_run (s : S) (tr : list Event) : Prop :=
  match tr with [] => True | Ev op b :: tr => honest _ op b s ∧ honest_run (next _ op b s) tr end.
Fixpoint allowed_run (s : S) (tr : list Event) : Prop :=
  match tr with [] => True | Ev op b :: tr => allowed _ op s ∧ allowed_run (next _ op b s) tr end.

Lemma wp_runs {A : Type} (p : Prog A) s Q tr a :
  wp p s Q → runs p tr a → honest_run s tr → Q a (play s tr) ∧ allowed_run s tr.
Proof.
  intros Hw Hr. revert s Hw. induction Hr as [a|B op k b tr a Hr IH]; intros s; cbn; [done|].
  intros [Ha Hk] [Hb Ht]. destruct (IH _ (Hk b Hb) Ht) as [HQ Hal]. done.
Qed.

Lemma allowed_run_split s pre e post : allowed_run s (pre ++ e :: post) →
  match e with Ev op _ => allowed _ op (play s pre) end.
Proof. revert s. induction pre as [|[B op b] pre IH]; intros s; cbn; [by destruct e as [B op b]; intros [? _]|]. intros [_ H]. by apply IH in H. Qed.
End logic.

(** ** Histories: what is known is what was done *)

Definition remember {B : Type} (op : Op B) (b : B) (h : list Event) : list Event := h ++ [Ev op b].
Definition any_answer {B : Type} (op : Op B) (b : B) (h : list Event) : Prop := True.

Lemma play_remember h tr : play (@remember) h tr = h ++ tr.
Proof.
  unfold play. revert h. induction tr as [|[B op b] tr IH]; intros h; cbn [fold_left]; [by rewrite app_nil_r|].
  rewrite IH. unfold remember. by rewrite <- app_assoc.
Qed.
Lemma honest_any h tr : honest_run (@any_answer) (@remember) h tr.
Proof. revert h. induction tr as [|[B op b] tr IH]; intros h; cbn; [done|]. by split. Qed.

(** Every run of the program ends as [Q] says and does nothing that [allowed]
    does not allow after what was done before it. *)
Lemma wp_history {A : Type} (allowed : ∀ B : Type, Op B → list Event → Prop) (p : Prog A) Q tr a :
  wp allowed (@any_answer) (@remember) p [] Q → runs p tr a →
  Q a tr ∧ ∀ pre e post, tr = pre ++ e :: post → match e with Ev op _ => allowed _ op pre end.
Proof.
  intros Hw Hr. destruct (wp_runs _ _ _ p [] Q tr a Hw Hr (honest_any _ _)) as [HQ Ha].
  rewrite play_remember in HQ. split; [done|]. intros pre e post ->. apply allowed_run_split in Ha.
  destruct e as [B op b]. by rewrite play_remember in Ha.
Qed.
