(* ===== verification/SessionName.v ===== *)
(** * [pkg/runtime]: the name of a session ([name.go])

    The name is what makes a second start of the same attempt reach the same
    session, and it becomes a Kubernetes label. It is plain where it can be, and
    otherwise a readable prefix with a hash of the plain form. *)

From Stdlib Require Import Ascii.
From S2P Require Import Prelude.
From S2P Require Import GoStrings.
From S2P Require Import GoPath.
From S2P Require Import GoUTF8.
From S2P Require Import FixGate.
From S2P Require Import Sha256.

Definition MaxNameLen : Z := 52.
Definition hashLen : Z := 8.
Definition KindIssue : string := "i".
Definition KindMergeRequest : string := "m".
Definition KindPipeline : string := "pl".

Inductive name_error := TooLong (name : string) (n : Z) | NotALabel (name : string).

Definition alnum (c : ascii) : bool := in_range 97 122 c || is_digit c.
Definition hyphen : ascii := "-"%char.
Definition label_byte (c : ascii) : bool := alnum c || Ascii.eqb c hyphen.

(** [^\[a-z0-9\](\[-a-z0-9\]*\[a-z0-9\])?$]: no hyphen at either end. *)
Definition first_byte_ok (s : string) : bool := match s with String c _ => alnum c | EmptyString => false end.
Definition dns1123Label (s : string) : bool :=
  all_bytes label_byte s && first_byte_ok s && first_byte_ok (string_rev s).

Definition ValidName (name : string) : option name_error :=
  if MaxNameLen <? len name then Some (TooLong name (len name))
  else if negb (dns1123Label name) then Some (NotALabel name)
  else None.

(** [strings.ToLower] and the loop of [sanitize] on one character: the two
    characters outside ASCII that have a lower-case form in it are the dotted
    capital I and the Kelvin sign. *)
Definition sanitized (p : piece) : ascii :=
  match pc_rune p with
  | Some r =>
      if between 65 90 r then ascii_of_nat (Z.to_nat (r + 32))
      else if between 97 122 r || between 48 57 r then ascii_of_nat (Z.to_nat r)
      else if r =? 304 then "i"%char
      else if r =? 8490 then "k"%char
      else hyphen
  | None => hyphen
  end.
Definition sanitize (s : string) : string := String.string_of_list_ascii (map sanitized (pieces s)).

Definition plain_name (agent : string) (projID : Z) (kind : string) (iid attempt : Z) : string :=
  "gonk-" +:+ agent +:+ "-p" +:+ itoa projID +:+
  (if iid =? 0 then "" else "-" +:+ kind +:+ itoa iid) +:+ "-a" +:+ itoa attempt.

Definition Name (agent : string) (projID : Z) (kind : string) (iid attempt : Z) : string :=
  let plain := plain_name agent projID kind iid attempt in
  match ValidName plain with
  | None => plain
  | Some _ =>
      let suffix := hash_prefix (Z.to_nat hashLen) plain in
      let prefix := sanitize plain in
      let limit := MaxNameLen - 1 - hashLen in
      let prefix := if limit <? len prefix then String.substring 0 (Z.to_nat limit) prefix else prefix in
      strip_trailing hyphen prefix +:+ "-" +:+ suffix
  end.

(** ** Every name is a label *)

Lemma sanitized_label p : label_byte (sanitized p) = true.
Proof.
  unfold sanitized. destruct (pc_rune p) as [r|]; [|done]. unfold between.
  assert (∀ n : Z, 97 <= n <= 122 ∨ 48 <= n <= 57 → label_byte (ascii_of_nat (Z.to_nat n)) = true) as Hl.
  { intros n Hn. unfold label_byte, alnum, is_digit, in_range, byte_val. unfold ascii_of_nat.
    rewrite N_ascii_embedding, nat_N_Z, Z2Nat.id by lia. lia. }
  repeat case_match; try done; apply Hl; lia.
Qed.

Lemma sanitize_bytes s : all_bytes label_byte (sanitize s) = true.
Proof.
  unfold sanitize. rewrite all_bytes_list, String.list_ascii_of_string_of_list_ascii. apply forallb_forall.
  intros c Hc. apply in_map_iff in Hc as (p & <- & _). apply sanitized_label.
Qed.

Lemma strip_trailing_bytes f c s : all_bytes f s = true → all_bytes f (strip_trailing c s) = true.
Proof.
  induction s as [|a s IH]; [done|]. cbn. intros [Ha Hs]%andb_prop. specialize (IH Hs).
  destruct (strip_trailing c s); [destruct (Ascii.eqb a c); [done|]; cbn; by rewrite Ha|]. cbn in *. by rewrite Ha.
Qed.
Lemma strip_trailing_length c s : (String.length (strip_trailing c s) <= String.length s)%nat.
Proof.
  induction s as [|a s IH]; [done|]. cbn. destruct (strip_trailing c s); [destruct (Ascii.eqb a c); cbn; lia|].
  cbn in *. lia.
Qed.
Lemma strip_trailing_first c a s : a ≠ c → ∃ t, strip_trailing c (String a s) = String a t.
Proof.
  intros Ha. cbn. destruct (strip_trailing c s); [|by eauto].
  destruct (Ascii.eqb_spec a c); [done|]. by eauto.
Qed.

Lemma last_ok_app s t : t ≠ "" → first_byte_ok (string_rev (s +:+ t)) = first_byte_ok (string_rev t).
Proof.
  intros Ht.
  assert (∀ u, first_byte_ok u = match String.list_ascii_of_string u with c :: _ => alnum c | [] => false end) as Hf by by intros [].
  assert (String.list_ascii_of_string (s +:+ t) = String.list_ascii_of_string s ++ String.list_ascii_of_string t) as Happ.
  { clear. induction s as [|c s IH]; [done|]. simpl. f_equal. exact IH. }
  rewrite !Hf, !string_rev_list. rewrite Happ, rev_app_distr. destruct (rev (String.list_ascii_of_string t)) eqn:E; [|done].
  apply (f_equal (@rev _)) in E. rewrite rev_involutive in E. by destruct t.
Qed.

Lemma hex_alnum s : all_bytes is_hex s = true → all_bytes alnum s = true.
Proof. apply all_bytes_impl. unfold is_hex, alnum, is_digit, in_range. intros c. lia. Qed.
Lemma alnum_label s : all_bytes alnum s = true → all_bytes label_byte s = true.
Proof. apply all_bytes_impl. unfold label_byte. intros c ->. done. Qed.
Lemma all_alnum_last s : s ≠ "" → all_bytes alnum s = true → first_byte_ok (string_rev s) = true.
Proof.
  intros Hs Ha. rewrite <- all_bytes_rev in Ha. assert (string_rev s ≠ "") as Hr.
  { intros E. apply (f_equal string_rev) in E. by rewrite string_rev_involutive in E. }
  destruct (string_rev s); [done|]. cbn in *. by apply andb_prop in Ha as [? _].
Qed.

Lemma sanitize_head s : ∃ t, sanitize (String "g" s) = String "g" t.
Proof. unfold sanitize, pieces. cbn [String.length pieces_fuel map]. eexists. by destruct s. Qed.

Lemma Name_hashed_valid plain t : sanitize plain = String "g" t →
  let prefix := if 43 <? len (sanitize plain) then String.substring 0 43 (sanitize plain) else sanitize plain in
  ValidName (strip_trailing hyphen prefix +:+ "-" +:+ hash_prefix 8 plain) = None.
Proof.
  intros Hs prefix. destruct (hash_prefix_shape 8 plain) as [Hl Hh]; [lia|]. apply hex_alnum in Hh.
  set (h := hash_prefix 8 plain) in *.
  assert (all_bytes label_byte prefix = true ∧ (String.length prefix <= 43)%nat ∧ ∃ u, prefix = String "g" u) as (Hb & Hp & u & Hu).
  { unfold prefix, len. destruct (Z.ltb_spec 43 (Z.of_nat (String.length (sanitize plain)))).
    - split; [apply all_bytes_substring, sanitize_bytes|]. rewrite substring_0_length by lia. split; [lia|]. rewrite Hs. by eexists.
    - split; [apply sanitize_bytes|]. split; [lia|by eauto]. }
  clearbody prefix. destruct (strip_trailing_first hyphen "g"%char u) as [v Hv]; [done|]. rewrite <- Hu in Hv.
  pose proof (strip_trailing_length hyphen prefix) as Hsl. pose proof (strip_trailing_bytes _ hyphen _ Hb) as Hsb.
  unfold ValidName, len, dns1123Label. rewrite !length_string_app, Hl. cbn [String.length].
  destruct (Z.ltb_spec MaxNameLen (Z.of_nat (String.length (strip_trailing hyphen prefix) + (1 + 8)))) as [Hx|Hx]; [unfold MaxNameLen in Hx; lia|].
  rewrite !all_bytes_app, Hsb, (alnum_label _ Hh). cbn [andb]. rewrite Hv. cbn -[string_rev].
  change (String "g" (v +:+ String "-" h)) with (String "g" v +:+ (String "-" "" +:+ h)).
  assert (h ≠ "") as Hne by (intros ->; done).
  rewrite last_ok_app by by destruct h. rewrite last_ok_app by done. by rewrite all_alnum_last.
Qed.

(** ** One name for one attempt *)

Definition digit_free (c : ascii) : bool := negb (is_digit c).
Lemma itoa_all_digits z : 0 <= z → all_bytes is_digit (itoa z) = true.
Proof. intros Hz. unfold itoa. destruct (Z.ltb_spec z 0); [lia|]. apply digits_bytes. Qed.
Lemma itoa_inj z z' : 0 <= z → 0 <= z' → itoa z = itoa z' → z = z'.
Proof.
  unfold itoa. intros Hz Hz'. destruct (Z.ltb_spec z 0), (Z.ltb_spec z' 0); try lia. intros E.
  apply (f_equal parse_digits) in E. rewrite !parse_digits_print in E. injection E as E. lia.
Qed.

(** Two digit runs before the same kind of rest are cut at the same place. *)
Lemma digits_split s t u v : all_bytes is_digit s = true → all_bytes is_digit t = true →
  s +:+ String hyphen u = t +:+ String hyphen v → s = t ∧ u = v.
Proof.
  revert t. induction s as [|a s IH]; intros [|b t]; cbn; intros Hs Ht E.
  - by injection E.
  - injection E as <- _. by apply andb_prop in Ht as [? _].
  - injection E as -> _. by apply andb_prop in Hs as [? _].
  - injection E as <- E. apply andb_prop in Hs as [_ Hs], Ht as [_ Ht]. destruct (IH t Hs Ht E) as [-> ->]. done.
Qed.

Lemma append_cancel_l s t u : s +:+ t = s +:+ u → t = u.
Proof. induction s as [|c s IH]; cbn; [done|]. intros E. injection E as E. by apply IH. Qed.

Lemma plain_name_inj agent kind p p' i i' n n' : 0 <= p → 0 <= p' → 0 <= i → 0 <= i' → 0 <= n → 0 <= n' →
  first_byte_ok kind = true → first_byte_ok (string_rev kind) = true → HasPrefix kind "a" = false →
  plain_name agent p kind i n = plain_name agent p' kind i' n' → p = p' ∧ i = i' ∧ n = n'.
Proof.
  intros Hp Hp' Hi Hi' Hn Hn' Hk _ Hka E. unfold plain_name in E.
  do 3 apply append_cancel_l in E.
  assert (∀ x y, (if x =? 0 then "" else "-" +:+ kind +:+ itoa x) +:+ "-a" +:+ itoa y =
    String hyphen ((if x =? 0 then "" else kind +:+ itoa x +:+ "-") +:+ "a" +:+ itoa y)) as Hr.
  { intros x y. destruct (x =? 0); [done|]. rewrite !string_app_assoc. cbn. f_equal. }
  rewrite !Hr in E. apply digits_split in E as [Ep E]; [|by apply itoa_all_digits..]. apply itoa_inj in Ep as ->; [|done..].
  split; [done|]. destruct (Z.eqb_spec i 0) as [->|Hi0], (Z.eqb_spec i' 0) as [->|Hi0'].
  - cbn in E. injection E as E. by apply itoa_inj in E as ->.
  - destruct kind as [|c kind]; [done|]. cbn in E. injection E as <- _. by destruct kind.
  - destruct kind as [|c kind]; [done|]. cbn in E. injection E as -> _. by destruct kind.
  - rewrite !string_app_assoc in E. apply append_cancel_l in E. cbn in E.
    apply digits_split in E as [Ei E]; [|by apply itoa_all_digits..]. injection E as E.
    apply itoa_inj in Ei, E; naive_solver lia.
Qed.

(** Every session name is a DNS-1123 label of at most 52 bytes, whatever it was
    built from; it is the plain form whenever that is one. Plain names of one
    agent and kind are different for different projects, items or attempts. *)
Theorem Name_label agent projID kind iid attempt :
  let name := Name agent projID kind iid attempt in
  ValidName name = None ∧
  (ValidName (plain_name agent projID kind iid attempt) = None → name = plain_name agent projID kind iid attempt) ∧
  ∀ projID' iid' attempt', 0 <= projID → 0 <= projID' → 0 <= iid → 0 <= iid' → 0 <= attempt → 0 <= attempt' →
    kind ∈ [KindIssue; KindMergeRequest; KindPipeline] →
    ValidName (plain_name agent projID kind iid attempt) = None →
    ValidName (plain_name agent projID' kind iid' attempt') = None →
    name = Name agent projID' kind iid' attempt' → projID = projID' ∧ iid = iid' ∧ attempt = attempt'.
Proof.
  cbv zeta. split; [|split].
  - unfold Name. destruct (ValidName (plain_name agent projID kind iid attempt)) eqn:E; [|done].
    destruct (sanitize_head ("onk-" +:+ agent +:+ "-p" +:+ itoa projID +:+
      (if iid =? 0 then "" else "-" +:+ kind +:+ itoa iid) +:+ "-a" +:+ itoa attempt)) as [t Ht].
    exact (Name_hashed_valid (plain_name agent projID kind iid attempt) t Ht).
  - unfold Name. by intros ->.
  - intros p' i' n' ?????? Hk Hv Hv'. unfold Name. rewrite Hv, Hv'.
    assert (kind = KindIssue ∨ kind = KindMergeRequest ∨ kind = KindPipeline) as Hc by set_solver.
    destruct Hc as [->|[->| ->]]; by apply plain_name_inj.
Qed.

Example name_examples :
  Name "triage" 42 KindIssue 7 1 = "gonk-triage-p42-i7-a1" ∧ Name "scaffold" 42 KindIssue 0 1 = "gonk-scaffold-p42-a1" ∧
  Name "pipeline" 84 KindPipeline 3200 1 = "gonk-pipeline-p84-pl3200-a1" ∧
  len (Name "a_b" 1 KindIssue 1 1) = 26 ∧ Name "a_b" 1 KindIssue 1 1 ≠ Name "a-b" 1 KindIssue 1 1.
Proof. vm_compute. repeat split; discriminate. Qed.

Lemma Name_label_witness :
  Name "triage" 7 KindIssue 3 1 = "gonk-triage-p7-i3-a1" ∧
  (Name "triage" 7 KindIssue 3 1 = Name "triage" 7 KindIssue 3 2 → False).
Proof.
  destruct (Name_label "triage" 7 KindIssue 3 1) as (_ & Hplain & Hinj).
  split; [apply Hplain; vm_compute; reflexivity|].
  intros E. destruct (Hinj 7 3 2) as (_ & _ & Hn); try lia; [left|vm_compute; reflexivity|vm_compute; reflexivity|exact E].
Defined.
