(* ===== verification/RetryFeedback.v ===== *)
(** * [cmd/gonk-gate]: what a retry is told about a refused answer
      ([retry_feedback.go])

    The block a prompt carries about the answer of an earlier attempt that a gate
    refused, the line of failed job names, and how the feedback is recorded and
    carried from record to record. *)

From Stdlib Require Import Ascii DecimalString DecimalN.
From S2P Require Import Prelude.
From S2P Require Import GoStrings.
From S2P Require Import GoPath.
From S2P Require Import GoUTF8.
From S2P Require Import FixGate.
From S2P Require Import Sha256.
From S2P Require Import CiValue.
From S2P Require Import DiffMap.
From S2P Require Import Effects.
From S2P Require Import WorkStore.

Definition retryFeedbackCapCode : Z := 64.
Definition retryFeedbackCapWhat : Z := 200.
Definition retryFeedbackCapAllowed : Z := 200.
Definition retryFeedbackMaxBytes : Z := 768.
Definition retryFeedbackCapJobs : Z := 320.
Definition retryFeedbackHeading : string := "== Your previous answer was refused ==".

Definition triageAgent : string := "triage".
Definition scaffoldAgent : string := "scaffold".
Definition pipelineAgent : string := "pipeline".
Definition pipefixAgent : string := "pipefix".

Definition retryFeedbackKinds (agent : string) : list Kind :=
  if String.eqb agent pipefixAgent then [KindEdit; KindFixMeta; KindScopeRequest]
  else if String.eqb agent pipelineAgent then [KindDiagnosis]
  else if String.eqb agent triageAgent then [KindComment; KindLabel]
  else if String.eqb agent scaffoldAgent then [KindFile]
  else [].
Definition ownChainAgent (agent : string) : bool := String.eqb agent pipelineAgent || String.eqb agent pipefixAgent.

(** ** The block *)

Definition unsafe_byte (c : ascii) : bool :=
  (byte_val c <? 32) || (126 <? byte_val c) || (byte_val c =? 96) || (byte_val c =? 60) || (byte_val c =? 62) ||
  (byte_val c =? 61).
Definition feedbackText (s : string) (max : Z) : string :=
  map_bytes (λ c, if unsafe_byte c then "?"%char else c) (if max <? len s then String.substring 0 (Z.to_nat max) s else s).

Definition line (s : string) : string := s +:+ String newline "".
Definition lines (ls : list string) : string := String.concat "" (map line ls).

Definition feedback_lines (fb : RetryFeedback) (sets : list string) : list string :=
  ["gonk checked the answer of attempt " +:+ itoa (rf_Attempt fb) +:+
   " of this task and refused it; nothing of it was used."] ++
  (if String.eqb (rf_Code fb) "" then [] else ["refused by: " +:+ feedbackText (rf_Code fb) retryFeedbackCapCode]) ++
  ["what was wrong: " +:+ feedbackText (rf_What fb) retryFeedbackCapWhat] ++
  (if String.eqb (rf_Allowed fb) "" then []
   else ["what is allowed: " +:+ feedbackText (rf_Allowed fb) retryFeedbackCapAllowed]) ++
  sets ++
  ["gonk wrote the lines above from its own checks. Answer again in full, with this corrected."].

Definition renderRetryFeedback (fb : RetryFeedback) (attempt : Z) (sets : list string) : string :=
  if negb (rf_Recorded fb) || (attempt <=? rf_Attempt fb) then ""
  else lines (retryFeedbackHeading :: feedback_lines fb sets).

Definition retryFeedbackSuffix (rec : WorkItem) : string :=
  let fb := renderRetryFeedback (w_RetryFeedback rec) (w_Attempt rec) [] in
  if String.eqb fb "" then "" else String newline (String newline fb).

(** ** The line of job names *)

Definition feedbackJobToken (c : ascii) : bool :=
  in_range 97 122 c || in_range 65 90 c || is_digit c || existsb (Ascii.eqb c) ["-"; "_"; "."; ":"; "/"]%char.
Definition feedbackJobListable (name : string) : bool := all_bytes feedbackJobToken name && negb (String.eqb name "").

Definition feedbackJobsIntro : string := "the failed jobs are, each name between double quotes: ".
Definition feedbackJobsNone : string :=
  "the failed jobs are: none; the only evidence item this pipeline takes is the fact pipeline_error, without " +:+
  quotation +:+ "job" +:+ quotation.
Definition feedbackJobsMore (n : Z) : string := itoa n +:+ " more, named in the headings under Failed jobs".

Fixpoint jobs_loop (room : Z) (names : list string) (shown : list string) (used more : Z) : list string * Z :=
  match names with
  | [] => (shown, more)
  | n :: names =>
      let q := quotation +:+ n +:+ quotation in
      if negb (feedbackJobListable n) || (room <? used + len q + 2) then jobs_loop room names shown used (more + 1)
      else jobs_loop room names (shown ++ [q]) (used + len q + 2) more
  end.
Definition feedbackJobsLine (names : list string) : string :=
  if (length names =? 0)%nat then feedbackJobsNone
  else
    let room := retryFeedbackCapJobs - len feedbackJobsIntro - 2 - len (feedbackJobsMore (Z.of_nat (length names))) in
    let '(shown, more) := jobs_loop room names [] 0 0 in
    let shown_text := feedbackJobsIntro +:+ Join shown ", " in
    if 0 <? more then shown_text +:+ (if (0 <? length shown)%nat then "; " else "") +:+ feedbackJobsMore more
    else shown_text.

Definition FactsText : string := "the fact keys are: " +:+ Join factOrder ", ".
Definition retryFeedbackDiagMaxBytes : Z := retryFeedbackMaxBytes + retryFeedbackCapJobs + 1 + len FactsText + 1.
Definition diagnosisFeedbackSets (fb : RetryFeedback) (dc : DiagnosisContext) : list string :=
  feedbackJobsLine (JobNames dc) :: (if String.eqb (rf_Allowed fb) FactsText then [] else [FactsText]).

(** ** On the record *)

Record Feedback := mkFeedback { fb_Code : string; fb_What : string; fb_Allowed : string }.

Definition recordRetryFeedback (rec : WorkItem) (fb : Feedback) : WorkItem :=
  if String.eqb (fb_What fb) "" then rec
  else set_w_RetryFeedback (mkRetryFeedback (w_Attempt rec) (fb_Code fb) (fb_What fb) (fb_Allowed fb)) rec.

(** ** What the block may hold *)

Definition clean_byte (c : ascii) : bool := negb (unsafe_byte c).

Lemma feedbackText_clean s max : 0 <= max →
  all_bytes clean_byte (feedbackText s max) = true ∧ len (feedbackText s max) <= max ∧
  (all_bytes clean_byte s = true → len s <= max → feedbackText s max = s).
Proof.
  intros Hm. unfold feedbackText, len. split; [|split].
  - apply map_bytes_all. intros c. unfold clean_byte. destruct (unsafe_byte c) eqn:E; [done|]. by rewrite E.
  - rewrite map_bytes_length. destruct (Z.ltb_spec max (Z.of_nat (String.length s))); [|lia].
    rewrite substring_0_length by lia. lia.
  - intros Hc Hl. destruct (Z.ltb_spec max (Z.of_nat (String.length s))); [lia|].
    clear Hl. induction s as [|c s IH]; [done|]. cbn in *. apply andb_prop in Hc as [Hc Hs].
    unfold clean_byte in Hc. destruct (unsafe_byte c); [done|]. rewrite IH; [done|done|lia].
Qed.

Lemma len_app s t : len (s +:+ t) = len s + len t.
Proof. unfold len. rewrite length_string_app. lia. Qed.
Lemma len_nonneg s : 0 <= len s.
Proof. unfold len. lia. Qed.

Lemma of_uint_acc_upper d acc : (Npos (Pos.of_uint_acc d acc) <
  (Npos acc + 1) * 10 ^ N.of_nat (String.length (NilEmpty.string_of_uint d)))%N.
Proof.
  revert acc. induction d as [|d IH|d IH|d IH|d IH|d IH|d IH|d IH|d IH|d IH|d IH]; intros acc.
  { cbn. lia. }
  all: cbn [NilEmpty.string_of_uint String.length Pos.of_uint_acc]; rewrite Nat2N.inj_succ, N.pow_succ_r';
    eapply N.lt_le_trans; [apply IH|]; nia.
Qed.

(** The number of digits: a power of ten on either side. *)
Lemma itoa_digits_bounds z : 0 < z → ∃ k : BinNums.N, len (itoa z) = Z.of_N k + 1 ∧ (10 ^ k <= Z.to_N z < 10 ^ (k + 1))%N.
Proof.
  intros Hz. unfold itoa, len. destruct (Z.ltb_spec z 0); [lia|].
  pose proof (to_uint_nonempty (Z.to_N z)) as Hne. pose proof (to_uint_no_leading_zero (Z.to_N z)) as Hlz.
  pose proof (DecimalN.Unsigned.of_to (Z.to_N z)) as Hof.
  destruct (N.to_uint (Z.to_N z)) as [|d|d|d|d|d|d|d|d|d|d] eqn:E; [done|..].
  { specialize (Hlz d eq_refl). lia. }
  all: cbn [N.of_uint Pos.of_uint] in Hof;
    match type of Hof with Npos (Pos.of_uint_acc ?e ?k) = _ =>
      pose proof (of_uint_acc_bound e k) as Hb; pose proof (of_uint_acc_upper e k) as Hu; rewrite Hof in Hb, Hu;
      clear -Hb Hu; cbn [NilEmpty.string_of_uint String.length];
      exists (N.of_nat (String.length (NilEmpty.string_of_uint e)));
      generalize dependent (String.length (NilEmpty.string_of_uint e)); intros n Hb Hu;
      split; [lia|]; rewrite N.add_1_r, N.pow_succ_r'; split; nia
    end.
Qed.

Lemma itoa_len_mono z z' : 0 < z <= z' → len (itoa z) <= len (itoa z').
Proof.
  intros Hz. destruct (itoa_digits_bounds z) as (k & -> & Hk); [lia|]. destruct (itoa_digits_bounds z') as (k' & -> & Hk'); [lia|].
  destruct (decide (k <= k')%N) as [|Hlt]; [lia|]. exfalso.
  assert (10 ^ (k' + 1) <= 10 ^ k)%N by (apply N.pow_le_mono_r; lia). lia.
Qed.
Lemma itoa_len_int64 z : 0 < z → int64 z → len (itoa z) <= 19.
Proof. intros Hz [_ Hm]. etransitivity; [apply (itoa_len_mono z MaxInt64); lia|]. by vm_compute. Qed.

Lemma concat_nil_cons s ls : String.concat "" (s :: ls) = s +:+ String.concat "" ls.
Proof. destruct ls; cbn; [by rewrite append_nothing|done]. Qed.

Definition lines_len (ls : list string) : Z := foldr (λ s n, len s + 1 + n) 0 ls.
Lemma lines_length ls : len (lines ls) = lines_len ls.
Proof.
  unfold lines. induction ls as [|s ls IH]; [done|]. cbn [map]. rewrite concat_nil_cons, len_app, IH. unfold line.
  rewrite len_app. change (len (String newline "")) with 1. unfold lines_len. cbn [foldr]. lia.
Qed.
Lemma lines_len_app l k : lines_len (l ++ k) = lines_len l + lines_len k.
Proof. unfold lines_len. induction l as [|s l IH]; [done|]. cbn [app foldr]. lia. Qed.

Definition block_byte (c : ascii) : bool := clean_byte c || Ascii.eqb c newline.
Lemma lines_bytes ls : Forall (λ s, all_bytes clean_byte s = true) ls → all_bytes block_byte (lines ls) = true.
Proof.
  unfold lines. induction 1 as [|s ls Hs Hls IH]; [done|]. cbn [map]. rewrite concat_nil_cons, all_bytes_app, IH, andb_true_r.
  unfold line. rewrite all_bytes_app. apply andb_true_intro. split; [|done].
  revert Hs. apply all_bytes_impl. unfold block_byte. by intros c ->.
Qed.

Lemma digits_clean z : 0 <= z → all_bytes clean_byte (itoa z) = true.
Proof.
  intros Hz. eapply all_bytes_impl; [|by apply itoa_digits]. intros c. unfold is_digit, in_range, clean_byte, unsafe_byte. lia.
Qed.

Lemma clean_app s t : all_bytes clean_byte s = true → all_bytes clean_byte t = true → all_bytes clean_byte (s +:+ t) = true.
Proof. intros Hs Ht. by rewrite all_bytes_app, Hs, Ht. Qed.

Lemma feedback_lines_clean fb sets : rf_Recorded fb = true → Forall (λ s, all_bytes clean_byte s = true) sets →
  Forall (λ s, all_bytes clean_byte s = true) (feedback_lines fb sets).
Proof.
  intros [Ha _]%andb_prop Hs. assert (∀ s m, 0 <= m → all_bytes clean_byte (feedbackText s m) = true) as Ht
    by (intros; by apply feedbackText_clean).
  unfold feedback_lines. repeat apply Forall_app_2; try (by repeat constructor); try done.
  - constructor; [|done]. apply clean_app; [done|]. apply clean_app; [apply digits_clean; lia|done].
  - destruct (String.eqb _ _); [done|]. constructor; [|done]. apply clean_app; [done|]. by apply Ht.
  - constructor; [|done]. apply clean_app; [done|]. by apply Ht.
  - destruct (String.eqb _ _); [done|]. constructor; [|done]. apply clean_app; [done|]. by apply Ht.
Qed.

Lemma feedback_lines_len fb sets : rf_Recorded fb = true → int64 (rf_Attempt fb) →
  lines_len (retryFeedbackHeading :: feedback_lines fb sets) <= retryFeedbackMaxBytes + lines_len sets.
Proof.
  intros [Ha _]%andb_prop Hi. pose proof (itoa_len_int64 (rf_Attempt fb) ltac:(lia) Hi) as Hn.
  destruct (feedbackText_clean (rf_Code fb) retryFeedbackCapCode) as (_ & Hc & _); [done|].
  destruct (feedbackText_clean (rf_What fb) retryFeedbackCapWhat) as (_ & Hw & _); [done|].
  destruct (feedbackText_clean (rf_Allowed fb) retryFeedbackCapAllowed) as (_ & Hl & _); [done|].
  unfold feedback_lines, retryFeedbackMaxBytes, retryFeedbackCapCode, retryFeedbackCapWhat, retryFeedbackCapAllowed in *.
  change (lines_len (?h :: ?l)) with (lines_len ([h] ++ l)). rewrite !lines_len_app.
  assert (∀ (b : bool) s m, len s <= m → lines_len (if b then [] else [s]) <= m + 1) as Hif.
  { intros [] s m Hs; cbn; pose proof (len_nonneg s); lia. }
  assert (∀ s, lines_len [s] = len s + 1) as Hone by (intros; cbn; lia).
  pose proof (Hif (String.eqb (rf_Code fb) "") ("refused by: " +:+ feedbackText (rf_Code fb) 64) 76 ltac:(rewrite len_app; change (len "refused by: ") with 12; lia)).
  pose proof (Hif (String.eqb (rf_Allowed fb) "") ("what is allowed: " +:+ feedbackText (rf_Allowed fb) 200) 217 ltac:(rewrite len_app; change (len "what is allowed: ") with 17; lia)).
  rewrite !Hone, !len_app.
  change (len "what was wrong: ") with 16. change (len retryFeedbackHeading) with 38.
  change (len "gonk checked the answer of attempt ") with 35.
  change (len " of this task and refused it; nothing of it was used.") with 53.
  change (len "gonk wrote the lines above from its own checks. Answer again in full, with this corrected.") with 90. lia.
Qed.

Lemma jobs_loop_spec room names shown used more : used <= room ∨ shown = [] →
  used = foldr (λ q n, len q + 2 + n) 0 shown → 0 <= more →
  let '(shown', more') := jobs_loop room names shown used more in
  (∀ q, q ∈ shown' → q ∈ shown ∨ ∃ n, n ∈ names ∧ feedbackJobListable n = true ∧ q = quotation +:+ n +:+ quotation) ∧
  (foldr (λ q n, len q + 2 + n) 0 shown' <= room ∨ shown' = []) ∧
  Z.of_nat (length shown') + more' = Z.of_nat (length shown) + more + Z.of_nat (length names) ∧ more <= more'.
Proof.
  revert shown used more. induction names as [|n names IH]; intros shown used more Hr Hu Hm; cbn [jobs_loop].
  { split; [by left|]. split; [by rewrite <- Hu|]. cbn. lia. }
  set (q := quotation +:+ n +:+ quotation). destruct (feedbackJobListable n) eqn:Hl; cbn [negb orb].
  - destruct (Z.ltb_spec room (used + len q + 2)).
    + specialize (IH shown used (more + 1) Hr Hu ltac:(lia)). destruct (jobs_loop _ _ _ _ _) as [shown' more'].
      destruct IH as (H1 & H2 & H3 & H4). split; [set_solver|]. split; [done|]. cbn [length]. lia.
    + assert (∀ l k, foldr (λ q n, len q + 2 + n) 0 (l ++ [k]) = foldr (λ q n, len q + 2 + n) 0 l + len k + 2) as Happ.
      { clear. intros l k. induction l as [|a l IH]; cbn; [lia|]. rewrite IH. lia. }
      specialize (IH (shown ++ [q]) (used + len q + 2) more ltac:(left; lia) ltac:(rewrite Happ; lia) Hm).
      destruct (jobs_loop _ _ _ _ _) as [shown' more']. destruct IH as (H1 & H2 & H3 & H4). split; [|split].
      * intros q' Hq'. destruct (H1 q' Hq') as [[?|?%list_elem_of_singleton]%elem_of_app|(n' & ? & ? & ?)];
          [by left|right; exists n; set_solver|right; exists n'; set_solver].
      * done.
      * rewrite length_app in H3. cbn [length] in *. lia.
  - specialize (IH shown used (more + 1) Hr Hu ltac:(lia)). destruct (jobs_loop _ _ _ _ _) as [shown' more'].
    destruct IH as (H1 & H2 & H3 & H4). split; [set_solver|]. split; [done|]. cbn [length]. lia.
Qed.

Lemma Join_len l : len (Join l ", ") <= foldr (λ q n, len q + 2 + n) 0 l.
Proof.
  unfold Join. induction l as [|s l IH]; [done|]. cbn [foldr]. destruct l as [|t l]; [cbn; lia|].
  change (String.concat ", " (s :: t :: l)) with (s +:+ ", " +:+ String.concat ", " (t :: l)). rewrite !len_app.
  change (len ", ") with 2. lia.
Qed.

Lemma token_clean n : feedbackJobListable n = true → all_bytes clean_byte (quotation +:+ n +:+ quotation) = true.
Proof.
  intros [Hn _]%andb_prop. apply clean_app; [done|]. apply clean_app; [|done]. revert Hn. apply all_bytes_impl. intros c.
  unfold feedbackJobToken, is_digit, in_range, clean_byte, unsafe_byte. cbn.
  destruct (Ascii.eqb_spec c "-"), (Ascii.eqb_spec c "_"), (Ascii.eqb_spec c "."), (Ascii.eqb_spec c ":"), (Ascii.eqb_spec c "/"); subst; try done; lia.
Qed.

Lemma Join_clean l : Forall (λ s, all_bytes clean_byte s = true) l → all_bytes clean_byte (Join l ", ") = true.
Proof.
  unfold Join. induction 1 as [|s l Hs Hl IH]; [done|]. destruct l as [|t l]; [done|].
  change (String.concat ", " (s :: t :: l)) with (s +:+ ", " +:+ String.concat ", " (t :: l)). by repeat apply clean_app.
Qed.

(** The line of job names fits its cap however many jobs failed and whatever they
    are called, and holds no byte that could end it or be read as markup. *)
Lemma feedbackJobsLine_ok names : Z.of_nat (length names) <= MaxInt64 →
  len (feedbackJobsLine names) <= retryFeedbackCapJobs ∧ all_bytes clean_byte (feedbackJobsLine names) = true.
Proof.
  intros Hn. unfold feedbackJobsLine. destruct (length names =? 0)%nat eqn:E0; [by vm_compute|].
  assert (0 < Z.of_nat (length names)) as Hpos by (apply Nat.eqb_neq in E0; lia).
  set (room := _ - len (feedbackJobsMore _)).
  pose proof (jobs_loop_spec room names [] 0 0 (or_intror eq_refl) eq_refl ltac:(lia)) as Hj.
  destruct (jobs_loop room names [] 0 0) as [shown more]. destruct Hj as (Hq & Hr & Hc & Hm). cbn [length] in Hc.
  assert (Forall (λ s, all_bytes clean_byte s = true) shown) as Hs.
  { apply Forall_forall. intros q Hin. destruct (Hq q Hin) as [?%not_elem_of_nil|(n & _ & Hl & ->)]; [done|]. by apply token_clean. }
  assert (all_bytes clean_byte (feedbackJobsIntro +:+ Join shown ", ") = true) as Hclean by (apply clean_app; [done|by apply Join_clean]).
  pose proof (Join_len shown) as Hjl. unfold feedbackJobsMore in *. unfold room in *. rewrite len_app in *.
  change (len feedbackJobsIntro) with 54 in *. unfold retryFeedbackCapJobs in *.
  change (len " more, named in the headings under Failed jobs") with 46 in *.
  pose proof (itoa_len_int64 (Z.of_nat (length names)) Hpos ltac:(split; unfold MinInt64; lia)) as Hd.
  assert (len (Join shown ", ") <= 318 - 54 - 46 - len (itoa (Z.of_nat (length names)))) as Hroom.
  { destruct Hr as [Hr| ->]; [lia|]. change (len (Join [] ", ")) with 0. lia. }
  pose proof (len_nonneg (itoa (Z.of_nat (length names)))). destruct (Z.ltb_spec 0 more) as [Hmore|Hmore]; cycle 1.
  { split; [|done]. rewrite !len_app. change (len feedbackJobsIntro) with 54. lia. }
  pose proof (itoa_len_mono more (Z.of_nat (length names)) ltac:(lia)) as Hdm. split.
  - rewrite !len_app. change (len feedbackJobsIntro) with 54. change (len " more, named in the headings under Failed jobs") with 46.
    assert (len (if (0 <? length shown)%nat then "; " else "") <= 2) by by destruct (_ <? _)%nat. lia.
  - apply clean_app; [done|]. apply clean_app; [by destruct (_ <? _)%nat|]. apply clean_app; [apply digits_clean; lia|done].
Qed.

(** C33. The block is given exactly to an attempt later than the refused one. It is
    the heading and then lines of printable ASCII without a byte that fences,
    markers, code spans or headings are made of, whatever was recorded and
    whatever the jobs are called; and it fits the room the prompts keep for it. *)
Theorem feedback_contained fb attempt dc : int64 (rf_Attempt fb) → Z.of_nat (length dc) <= MaxInt64 →
  (renderRetryFeedback fb attempt [] = "" ↔ ¬ (0 < rf_Attempt fb < attempt ∧ rf_What fb ≠ "")) ∧
  len (renderRetryFeedback fb attempt []) <= retryFeedbackMaxBytes ∧
  len (renderRetryFeedback fb attempt (diagnosisFeedbackSets fb dc)) <= retryFeedbackDiagMaxBytes ∧
  ∀ sets, sets = [] ∨ sets = diagnosisFeedbackSets fb dc →
    renderRetryFeedback fb attempt sets = "" ∨
    ∃ rest, renderRetryFeedback fb attempt sets = line retryFeedbackHeading +:+ rest ∧ all_bytes block_byte rest = true.
Proof.
  intros Hi Hdc. destruct (feedbackJobsLine_ok (JobNames dc)) as [Hjl Hjc]; [unfold JobNames; by rewrite length_map|].
  assert (Forall (λ s, all_bytes clean_byte s = true) (diagnosisFeedbackSets fb dc) ∧
    lines_len (diagnosisFeedbackSets fb dc) <= retryFeedbackCapJobs + 1 + len FactsText + 1) as [Hsc Hsl].
  { unfold diagnosisFeedbackSets, lines_len. destruct (String.eqb _ _); (split; [by repeat constructor|]); cbn [foldr];
      pose proof (len_nonneg FactsText); lia. }
  assert (rf_Recorded fb = true ↔ 0 < rf_Attempt fb ∧ rf_What fb ≠ "") as Hrec.
  { unfold rf_Recorded. rewrite andb_true_iff, Z.ltb_lt, negb_true_iff. destruct (String.eqb_spec (rf_What fb) ""); naive_solver. }
  assert (∀ h ls, lines (h :: ls) = line h +:+ lines ls) as Hcons by (intros; unfold lines; cbn [map]; by rewrite concat_nil_cons).
  unfold renderRetryFeedback. destruct (rf_Recorded fb) eqn:Hr; cbn [negb orb]; cycle 1.
  { split; [split; [intros _ [[Ha _] Hw]; pose proof (proj2 Hrec (conj Ha Hw)) as Hx; discriminate Hx|done]|].
    split; [by vm_compute|]. split; [by vm_compute|]. intros; by left. }
  destruct (proj1 Hrec eq_refl) as [Ha Hw].
  destruct (Z.leb_spec attempt (rf_Attempt fb)) as [Hle|Hlt].
  { split; [split; [intros _ [[_ ?] _]; lia|done]|]. split; [by vm_compute|]. split; [by vm_compute|]. intros; by left. }
  split; [|split; [|split]].
  - split; [by rewrite Hcons|by intros []].
  - rewrite lines_length. pose proof (feedback_lines_len fb [] Hr Hi) as H. change (lines_len []) with 0 in H. lia.
  - rewrite lines_length. pose proof (feedback_lines_len fb (diagnosisFeedbackSets fb dc) Hr Hi). unfold retryFeedbackDiagMaxBytes. lia.
  - intros sets Hs. right. rewrite Hcons. eexists. split; [done|]. apply lines_bytes, feedback_lines_clean; [done|].
    destruct Hs as [->| ->]; [by constructor|done].
Qed.

Example feedback_examples :
  let fb := mkRetryFeedback 1 "parse" ("a `key` " +:+ String newline "<b>") "" in
  renderRetryFeedback fb 2 [] =
    lines [retryFeedbackHeading; "gonk checked the answer of attempt 1 of this task and refused it; nothing of it was used.";
           "refused by: parse"; "what was wrong: a ?key? ??b?";
           "gonk wrote the lines above from its own checks. Answer again in full, with this corrected."] ∧
  renderRetryFeedback fb 1 [] = "" ∧
  feedbackJobsLine ["build"; "test: [go, 1.22]"] =
    feedbackJobsIntro +:+ quotation +:+ "build" +:+ quotation +:+ "; 1 more, named in the headings under Failed jobs".
Proof. vm_compute. repeat split; reflexivity. Qed.

Lemma feedback_contained_witness :
  let fb := mkRetryFeedback 1 "parse" "not JSON" "" in
  len (renderRetryFeedback fb 2 []) <= 768 ∧ renderRetryFeedback fb 2 [] ≠ "".
Proof.
  intros fb. destruct (feedback_contained fb 2 []) as (He & Hl & _); [by vm_compute|by vm_compute|]. split; [exact Hl|].
  intros H. apply He in H. apply H. split; [cbn; lia|done].
Defined.
