(* ===== verification/DispatchArgs.v ===== *)
(** * [cmd/gonk-gate]: an order and what it becomes

    What a dispatch order carries ([dispatch.go]) and how a sweep fires it again
    ([refire] of [sweep.go]); the identity it must have
    ([broker_pipeline_dispatch.go], [broker_pipefix_dispatch.go]); the record made
    of it; how the order's time is divided ([order_budget.go]); and the
    environment of the session it starts ([session_env.go]). *)

From Stdlib Require Import Ascii DecimalString DecimalZ.
From S2P Require Import Prelude.
From S2P Require Import GoStrings.
From S2P Require Import GoTime.
From S2P Require Import GoPath.
From S2P Require Import Atags.
From S2P Require Import Pipefix.
From S2P Require Import FixIdentity.
From S2P Require Import WorkStore.
From S2P Require Import GateProgs.
From S2P Require Import RetryFeedback.

(** [time.Parse] and [Time.Format] with [time.RFC3339Nano], in UTC: what is
    printed is read back, for the years the format can print. *)
Definition year_10000 : Time := Date 10000 1 1 0 0 0 0 UTC.
Class GoTimeText := {
  ParseRFC3339Nano : string → option Time;
  FormatRFC3339Nano : Time → string;
  parse_format t : 0 <= t < year_10000 → ParseRFC3339Nano (FormatRFC3339Nano t) = Some t;
  format_nonempty t : FormatRFC3339Nano t ≠ "";
}.

(** ** The order ([dispatch.go]) *)

Record dispatchArgs := mkDispatchArgs {
  a_Project : string; a_ProjectID : Z; a_Rig : string; a_IssueIID : Z; a_BeadAnchor : string; a_BeadID : string;
  a_SessionKey : string; a_Trigger : string; a_ConfigHash : string; a_FireBy : string; a_Rung : string; a_Model : string;
  a_ReservationID : string; a_PipelineID : Z; a_PipelineTarget : string; a_PipelineFingerprint : string;
  a_PipelineLastSuccess : Z; a_PipelineFixEpoch : Z }.

Definition fireByVar : string := "fire_by".

(** [strconv.ParseInt] whose error is dropped: the value it returns with it. *)
Definition ParseInt_value (s : string) : Z :=
  match ParseInt s with
  | Ok v => v
  | Err ErrSyntax => 0
  | Err ErrRange => if HasPrefix s "-" then MinInt64 else MaxInt64
  end.

Definition dispatchArgsFrom (get : string → string) : dispatchArgs :=
  let i64 name := ParseInt_value (get name) in
  mkDispatchArgs (get "project") (i64 "project_id") (get "rig") (i64 "issue_iid") (get "bead_anchor") (get "bead_id")
    (get "session_key") (get "trigger") (get "config_hash") (get fireByVar) (get "rung") (get "model")
    (get "reservation_id") (i64 "pipeline_id") (get "pipeline_target") (get "pipeline_fingerprint")
    (i64 "pipeline_last_success") (i64 "pipeline_fix_epoch").

(** The vars of a re-fired order ([refire]). *)
Definition refire_vars `{GoTimeText} (rec : WorkItem) : gmap string string :=
  let vars : gmap string string :=
    {["project" := w_Project rec; "project_id" := itoa (w_ProjectID rec); "rig" := w_Rig rec;
      "issue_iid" := itoa (w_IssueIID rec); "bead_anchor" := w_BeadAnchor rec; "bead_id" := w_BeadID rec;
      "session_key" := w_SessionKey rec; "trigger" := w_Trigger rec; "config_hash" := w_ConfigHash rec]} in
  let vars :=
    if negb (w_PipelineID rec =? 0) then
      let vars := <["pipeline_fingerprint" := w_PipelineFingerprint rec]> (<["pipeline_target" := w_PipelineTarget rec]>
                    (<["pipeline_id" := itoa (w_PipelineID rec)]> vars)) in
      let vars := if negb (w_PipelineLastSuccess rec =? 0) then
                    <["pipeline_last_success" := itoa (w_PipelineLastSuccess rec)]> vars else vars in
      if negb (w_PipelineFixEpoch rec =? 0) then <["pipeline_fix_epoch" := itoa (w_PipelineFixEpoch rec)]> vars else vars
    else vars in
  if negb (IsZero (w_ReslingFireBy rec)) then <[fireByVar := FormatRFC3339Nano (w_ReslingFireBy rec)]> vars else vars.

(** What a process is handed of the vars: one that is absent reads empty. *)
Definition env_of (vars : gmap string string) (name : string) : string := default "" (vars !! name).

Definition agentForTrigger (trigger : string) : option string :=
  if String.eqb trigger "issue-triage" then Some "triage"
  else if String.eqb trigger "scaffold" then Some "scaffold"
  else if String.eqb trigger TriggerPipelineDiagnosis then Some pipelineAgent
  else if String.eqb trigger TriggerPipelineFix then Some pipefixAgent
  else None.

(** [refuseLateFire], at [now]: an exit code when the dispatch must stop. *)
Definition refuseLateFire `{GoTimeText} (fireBy : string) (now : Time) : option Z :=
  if String.eqb fireBy "" then None
  else match ParseRFC3339Nano fireBy with
  | None => Some 2
  | Some by_ => if After now by_ then Some 0 else None
  end.

(** ** The identity of a pipeline order *)

Inductive order_error :=
| NoPipelineID
| BadIdentity (e : id_error)
| NotTheAnchor (want : string)
| NotTheFixAnchor (want : string)
| NotTheSessionKey (want : string).

Definition lift_id {A} (r : result id_error A) : result order_error A :=
  match r with Ok x => Ok x | Err e => Err (BadIdentity e) end.

(** The run the order's vars identify. *)
Definition run_anchor (a : dispatchArgs) : result order_error string :=
  if a_PipelineID a <? 1 then Err NoPipelineID
  else
    t ← lift_id (ParseTarget (a_PipelineTarget a));
    lift_id (Anchor (a_ProjectID a) t (a_PipelineFingerprint a) (a_PipelineLastSuccess a) (a_PipelineFixEpoch a)).

Definition checkPipelineIdentity (a : dispatchArgs) : option order_error :=
  match run_anchor a with
  | Err e => Some e
  | Ok want => if negb (String.eqb want (a_BeadAnchor a)) then Some (NotTheAnchor want) else None
  end.

Definition checkPipelineFixIdentity (a : dispatchArgs) : option order_error :=
  match run ← run_anchor a; lift_id (FixAnchor run) with
  | Err e => Some e
  | Ok want =>
      if negb (String.eqb want (a_BeadAnchor a)) then Some (NotTheFixAnchor want)
      else match FixSessionKey want with
      | Err e => Some (BadIdentity e)
      | Ok key => if negb (String.eqb key (a_SessionKey a)) then Some (NotTheSessionKey key) else None
      end
  end.

(** ** The record a dispatch writes *)

(** What was read before meter decided: a record, its absence, or an error. *)
Definition decidedOnRecord : Type := result store_error (option WorkItem).
Definition decided_rec (d : decidedOnRecord) : WorkItem :=
  match d with Ok (Some r) => r | _ => WorkItem_zero end.
Definition decided_revision (d : decidedOnRecord) : string :=
  match d with Ok (Some r) => w_Revision r | _ => "" end.

Definition base_record (a : dispatchArgs) (attempt : Z) : WorkItem :=
  mkWorkItem (a_BeadAnchor a) (a_BeadID a) (a_Project a) (a_ProjectID a) (a_Rig a) (a_SessionKey a) (a_Trigger a)
    (a_IssueIID a) (a_ConfigHash a) StateNone "" "" attempt "" 0 0 0 "" "" 0
    0 "" "" 0 0 "" "" [] 0 0 0 0 false 0 0 "" PipelineDiagnosis_zero PipelineFix_zero "" 0 0 RetryFeedback_zero.

Definition setPipelineIdentity (base : WorkItem) (a : dispatchArgs) (decided : decidedOnRecord) : WorkItem :=
  let base := set_w_PipelineID (a_PipelineID a) (set_w_PipelineTarget (a_PipelineTarget a)
    (set_w_PipelineFingerprint (a_PipelineFingerprint a) (set_w_PipelineLastSuccess (a_PipelineLastSuccess a)
    (set_w_PipelineFixEpoch (a_PipelineFixEpoch a) (set_w_PipelineLatestFailed (a_PipelineID a) base))))) in
  let base :=
    match decided with
    | Ok (Some prior) =>
        if String.eqb (w_BeadAnchor prior) (a_BeadAnchor a) && negb (w_PipelineID prior =? 0) then
          set_w_PipelineID (w_PipelineID prior) (set_w_PipelineSHA (w_PipelineSHA prior)
            (set_w_PipelineProjectURL (w_PipelineProjectURL prior) (set_w_PipelineFirstFailed (w_PipelineFirstFailed prior)
            (set_w_PipelineLatestFailed (Z.max (Z.max (w_PipelineLatestFailed prior) (w_PipelineID prior)) (a_PipelineID a))
            (set_w_RetryFeedback (w_RetryFeedback prior) base)))))
        else base
    | _ => base
    end in
  set_w_PipelineRunOpen true base.

Definition setPipelineFixIdentity (base stored : WorkItem) : WorkItem :=
  set_w_PipelineID (w_PipelineID stored) (set_w_PipelineTarget (w_PipelineTarget stored)
  (set_w_PipelineFingerprint (w_PipelineFingerprint stored) (set_w_PipelineLastSuccess (w_PipelineLastSuccess stored)
  (set_w_PipelineFixEpoch (w_PipelineFixEpoch stored) (set_w_PipelineSHA (w_PipelineSHA stored)
  (set_w_PipelineProjectURL (w_PipelineProjectURL stored) (set_w_PipelineFix (w_PipelineFix stored)
  (set_w_RetryFeedback (w_RetryFeedback stored) (set_w_PipelineRunOpen false base))))))))).

Definition carryRetryFeedback (base : WorkItem) (decided : decidedOnRecord) : WorkItem :=
  match decided with
  | Ok (Some prior) =>
      if String.eqb (w_BeadAnchor prior) (w_BeadAnchor base) then set_w_RetryFeedback (w_RetryFeedback prior) base else base
  | _ => base
  end.

(** [pipelineDispatch.apply]: what the sweep will check the answer against. *)
Definition ExcerptVersion : Z := 2.
Definition apply_pipeline (p : pipelineDispatch) (rec : WorkItem) : WorkItem :=
  let rec := set_w_PipelineSHA (pp_sha p) rec in
  let rec := if negb (String.eqb (pp_projectURL p) "") then set_w_PipelineProjectURL (pp_projectURL p) rec else rec in
  let rec := set_w_PipelineJobs (pp_jobs p) (set_w_PipelineExcerptVersion ExcerptVersion
               (set_w_PipelineExcerptMaxBytes (pp_maxBytes p) rec)) in
  let rec := if negb (pp_firstFailed p =? 0) then set_w_PipelineFirstFailed (pp_firstFailed p) rec else rec in
  set_w_PipelineRunOpen true rec.

(** [fixRunStale]: why a fix can no longer be dispatched against its run. *)
Inductive stale_run := NoRunRecord | RunClosed | NoLandedDiagnosis | NewerFailingPipeline.
Definition fixRunStale (run : option WorkItem) (fix_ : WorkItem) : option stale_run :=
  match run with
  | None => Some NoRunRecord
  | Some run =>
      if negb (w_PipelineRunOpen run) then Some RunClosed
      else if negb (pd_Recorded (w_PipelineDiagnosis run)) || negb (bool_decide (w_State run = StateDone)) then
        Some NoLandedDiagnosis
      else if negb (Z.max (w_PipelineLatestFailed run) (w_PipelineID run) =? fx_BasePipelineID (w_PipelineFix fix_)) then
        Some NewerFailingPipeline
      else None
  end.

(** ** The time of an order ([order_budget.go]) *)

Definition dispatchOrderTimeout : Duration := 300 * Second.
Definition budgetPreExec : Duration := 10 * Second.
Definition budgetExit : Duration := 5 * Second.
Definition budgetClose : Duration := 25 * Second.
Definition budgetRelease : Duration := 50 * Second.
Record orderBudget := mkOrderBudget { Timeout : Duration; PreExec : Duration; Exit_ : Duration; Close : Duration; Release : Duration }.
Definition withDefaults (b : orderBudget) : orderBudget :=
  let def v d := if v <=? 0 then d else v in
  mkOrderBudget (def (Timeout b) dispatchOrderTimeout) (def (PreExec b) budgetPreExec) (def (Exit_ b) budgetExit)
    (def (Close b) budgetClose) (def (Release b) budgetRelease).
Definition hardStop (b : orderBudget) (start : Time) : Time := Add start (Timeout b - PreExec b - Exit_ b).
Definition startDeadline (b : orderBudget) (start : Time) : Time := Add (hardStop b start) (- Close b - Release b).
Definition phaseTimeout (now notAfter : Time) (budget : Duration) : Duration :=
  let t := if Sub notAfter now <? budget then Sub notAfter now else budget in
  if t <? 0 then 0 else t.
Definition timeLeft (now notAfter : Time) : Duration := if 0 <? Sub notAfter now then Sub notAfter now else 0.

(** ** The session's environment ([session_env.go]) *)

Definition envLiteLLMURL : string := "GONK_LITELLM_URL".
Definition envRigBaseURL : string := "GONK_RIG_BASE_URL".
Definition envModel : string := "GONK_MODEL".
Definition envAttempt : string := "GONK_ATTEMPT".
Definition runtimeOwnedEnv : list string :=
  ["GONK_SESSION_RUNTIME"; "GONK_SESSION_DIR"; "GONK_SESSION_NAME"; "GONK_AGENT"; Runtime.EnvSessionContract].
Definition forbiddenSessionEnv (k : string) : bool := HasPrefix k "GC_" || HasPrefix k "BEADS_" || HasPrefix k "DOLT".

(** What [packAgentEnv] accepts of the table it decoded. *)
Definition pack_env_ok (env : gmap string string) : bool :=
  negb (size env =? 0)%nat &&
  forallb (λ k, negb (forbiddenSessionEnv k) && negb (contains runtimeOwnedEnv k)) (map fst (map_to_list env)).
Definition packAgentEnv (agent : string) : Prog (option (gmap string string)) :=
  env ← call (OPackEnv agent);
  Ret (match env with Some env => if pack_env_ok env then Some env else None | None => None end).

Definition buildSessionEnv (pack : gmap string string) (attempt : Z) (model liteLLMURL rigBaseURL : string) : gmap string string :=
  let set_ k v env := if negb (String.eqb v "") then <[k := v]> env else env in
  set_ envRigBaseURL rigBaseURL (set_ envLiteLLMURL liteLLMURL (set_ envModel model (<[envAttempt := itoa attempt]> pack))).

(** ** What is fired again is read back *)

Section refire.
Context `{GoTimeText}.

Lemma ParseInt_value_itoa z : int64 z → ParseInt_value (itoa z) = z.
Proof. intros Hz. unfold ParseInt_value. by rewrite ParseInt_itoa. Qed.
Lemma ParseInt_value_empty : ParseInt_value "" = 0.
Proof. done. Qed.

(** The numbers of a record that its order prints. *)
Definition numbers_ok (rec : WorkItem) : Prop :=
  int64 (w_ProjectID rec) ∧ int64 (w_IssueIID rec) ∧ int64 (w_PipelineID rec) ∧ int64 (w_PipelineLastSuccess rec) ∧
  int64 (w_PipelineFixEpoch rec).

Lemma refire_lookup rec :
  let get := env_of (refire_vars rec) in
  let num (b : bool) z := if b then "" else itoa z in
  let none := w_PipelineID rec =? 0 in
  map get ["project"; "project_id"; "rig"; "issue_iid"; "bead_anchor"; "bead_id"; "session_key"; "trigger"; "config_hash";
           "rung"; "model"; "reservation_id"; fireByVar] =
    [w_Project rec; itoa (w_ProjectID rec); w_Rig rec; itoa (w_IssueIID rec); w_BeadAnchor rec; w_BeadID rec;
     w_SessionKey rec; w_Trigger rec; w_ConfigHash rec; ""; ""; "";
     if IsZero (w_ReslingFireBy rec) then "" else FormatRFC3339Nano (w_ReslingFireBy rec)] ∧
  get "pipeline_id" = num none (w_PipelineID rec) ∧
  get "pipeline_target" = (if none then "" else w_PipelineTarget rec) ∧
  get "pipeline_fingerprint" = (if none then "" else w_PipelineFingerprint rec) ∧
  get "pipeline_last_success" = num (none || (w_PipelineLastSuccess rec =? 0)) (w_PipelineLastSuccess rec) ∧
  get "pipeline_fix_epoch" = num (none || (w_PipelineFixEpoch rec =? 0)) (w_PipelineFixEpoch rec).
Proof.
  cbv zeta. unfold env_of, refire_vars, fireByVar.
  generalize (w_Project rec), (itoa (w_ProjectID rec)), (w_Rig rec), (itoa (w_IssueIID rec)), (w_BeadAnchor rec), (w_BeadID rec),
    (w_SessionKey rec), (w_Trigger rec), (w_ConfigHash rec), (itoa (w_PipelineID rec)), (w_PipelineTarget rec),
    (w_PipelineFingerprint rec), (itoa (w_PipelineLastSuccess rec)), (itoa (w_PipelineFixEpoch rec)),
    (FormatRFC3339Nano (w_ReslingFireBy rec)), (w_PipelineID rec =? 0), (w_PipelineLastSuccess rec =? 0),
    (w_PipelineFixEpoch rec =? 0), (IsZero (w_ReslingFireBy rec)).
  intros ??????????????? [] [] [] []; vm_compute; repeat split; reflexivity.
Qed.

Lemma refire_read rec : numbers_ok rec →
  let a := dispatchArgsFrom (env_of (refire_vars rec)) in
  let none := w_PipelineID rec =? 0 in
  a = mkDispatchArgs (w_Project rec) (w_ProjectID rec) (w_Rig rec) (w_IssueIID rec) (w_BeadAnchor rec) (w_BeadID rec)
    (w_SessionKey rec) (w_Trigger rec) (w_ConfigHash rec)
    (if IsZero (w_ReslingFireBy rec) then "" else FormatRFC3339Nano (w_ReslingFireBy rec)) "" "" ""
    (w_PipelineID rec) (if none then "" else w_PipelineTarget rec) (if none then "" else w_PipelineFingerprint rec)
    (if none then 0 else w_PipelineLastSuccess rec) (if none then 0 else w_PipelineFixEpoch rec).
Proof.
  intros (H1 & H2 & H3 & H4 & H5). cbv zeta. destruct (refire_lookup rec) as (Hl & Hp & Ht & Hf & Hs & He).
  injection Hl as E1 E2 E3 E4 E5 E6 E7 E8 E9 E10 E11 E12 E13.
  unfold dispatchArgsFrom, fireByVar in *.
  rewrite E1, E2, E3, E4, E5, E6, E7, E8, E9, E10, E11, E12, E13, Hp, Ht, Hf, Hs, He.
  rewrite !ParseInt_value_itoa by done.
  destruct (Z.eqb_spec (w_PipelineID rec) 0) as [Hz|Hz]; cbn [orb]; rewrite ?ParseInt_value_empty, ?Hz.
  - done.
  - destruct (Z.eqb_spec (w_PipelineLastSuccess rec) 0) as [->|], (Z.eqb_spec (w_PipelineFixEpoch rec) 0) as [->|];
      rewrite ?ParseInt_value_empty, ?ParseInt_value_itoa by done; done.
Qed.

Lemma refuseLateFire_printed t now : 0 <= t < year_10000 →
  refuseLateFire (FormatRFC3339Nano t) now = if After now t then Some 0 else None.
Proof.
  intros Ht. unfold refuseLateFire. destruct (String.eqb_spec (FormatRFC3339Nano t) "") as [E|_]; [by apply format_nonempty in E|].
  by rewrite parse_format.
Qed.

(** What the record of a diagnosed run says of the order it was made of. *)
Lemma setPipelineIdentity_run base a decided :
  let rec := setPipelineIdentity base a decided in
  w_PipelineTarget rec = a_PipelineTarget a ∧ w_PipelineFingerprint rec = a_PipelineFingerprint a ∧
  w_PipelineLastSuccess rec = a_PipelineLastSuccess a ∧ w_PipelineFixEpoch rec = a_PipelineFixEpoch a ∧
  w_PipelineRunOpen rec = true ∧
  w_PipelineID rec =
    match decided with
    | Ok (Some prior) =>
        if String.eqb (w_BeadAnchor prior) (a_BeadAnchor a) && negb (w_PipelineID prior =? 0) then w_PipelineID prior else a_PipelineID a
    | _ => a_PipelineID a
    end.
Proof. cbv zeta. unfold setPipelineIdentity. destruct decided as [[prior|]|]; [destruct (_ && _)|..]; repeat split. Qed.
Lemma setPipelineIdentity_order base a decided :
  let rec := setPipelineIdentity base a decided in
  w_Project rec = w_Project base ∧ w_ProjectID rec = w_ProjectID base ∧ w_Rig rec = w_Rig base ∧ w_IssueIID rec = w_IssueIID base ∧
  w_BeadAnchor rec = w_BeadAnchor base ∧ w_BeadID rec = w_BeadID base ∧ w_SessionKey rec = w_SessionKey base ∧
  w_Trigger rec = w_Trigger base ∧ w_ConfigHash rec = w_ConfigHash base.
Proof. cbv zeta. unfold setPipelineIdentity. destruct decided as [[prior|]|]; [destruct (_ && _)|..]; repeat split. Qed.

(** C31. The order the sweep fires for a diagnosis's record is the order the record
    was made of. Take any order of a pipeline diagnosis that the identity check
    accepts, and the record a dispatch makes of it, whatever record was there
    before; let the sweep stamp the record with the latest time the new order may
    start. The new order passes the identity check, names the same run, project,
    rig, work item and session key, and the recorded pipeline; it carries no rung,
    model or reservation, so nothing but meter's answer decides those; and its
    dispatch refuses to start exactly when it starts after the time stamped. *)
Theorem refire_identity a attempt decided fireBy :
  checkPipelineIdentity a = None →
  (∀ prior, decided = Ok (Some prior) → 0 <= w_PipelineID prior) →
  0 < fireBy < year_10000 →
  let rec := set_w_ReslingFireBy fireBy (setPipelineIdentity (base_record a attempt) a decided) in
  numbers_ok rec →
  let a' := dispatchArgsFrom (env_of (refire_vars rec)) in
  checkPipelineIdentity a' = None ∧ run_anchor a' = run_anchor a ∧
  (a_Project a', a_ProjectID a', a_Rig a', a_IssueIID a', a_BeadAnchor a', a_BeadID a', a_SessionKey a', a_Trigger a', a_ConfigHash a') =
    (a_Project a, a_ProjectID a, a_Rig a, a_IssueIID a, a_BeadAnchor a, a_BeadID a, a_SessionKey a, a_Trigger a, a_ConfigHash a) ∧
  a_PipelineID a' = w_PipelineID rec ∧
  (a_Rung a', a_Model a', a_ReservationID a') = ("", "", "") ∧
  ∀ now, refuseLateFire (a_FireBy a') now = if After now fireBy then Some 0 else None.
Proof.
  intros Hc Hp Hf rec Hn. cbv zeta. pose proof (refire_read rec Hn) as Ha. cbv zeta in Ha.
  destruct (setPipelineIdentity_run (base_record a attempt) a decided) as (E1 & E2 & E3 & E4 & _ & Hid).
  destruct (setPipelineIdentity_order (base_record a attempt) a decided) as (F1 & F2 & F3 & F4 & F5 & F6 & F7 & F8 & F9).
  set (rec0 := setPipelineIdentity (base_record a attempt) a decided) in *.
  assert (run_anchor a ≠ Err NoPipelineID) as Hgood by (unfold checkPipelineIdentity in Hc; destruct (run_anchor a); congruence).
  assert (0 < a_PipelineID a) as Hpos.
  { unfold run_anchor in Hgood. destruct (Z.ltb_spec (a_PipelineID a) 1); [done|lia]. }
  assert (0 < w_PipelineID rec) as Hpos'.
  { change (w_PipelineID rec) with (w_PipelineID rec0). rewrite Hid.
    destruct decided as [[prior|]|]; [|done..]. specialize (Hp prior eq_refl).
    destruct (String.eqb _ _); cbn [andb]; [|done]. destruct (Z.eqb_spec (w_PipelineID prior) 0); cbn; lia. }
  assert ((w_PipelineID rec =? 0) = false) as Hz by lia. rewrite Hz in Ha.
  rewrite Ha. cbn [a_Project a_ProjectID a_Rig a_IssueIID a_BeadAnchor a_BeadID a_SessionKey a_Trigger a_ConfigHash a_FireBy
    a_Rung a_Model a_ReservationID a_PipelineID].
  assert (run_anchor (dispatchArgsFrom (env_of (refire_vars rec))) = run_anchor a) as Hr.
  { rewrite Ha. unfold run_anchor.
    cbn [a_ProjectID a_PipelineID a_PipelineTarget a_PipelineFingerprint a_PipelineLastSuccess a_PipelineFixEpoch].
    assert ((w_PipelineID rec <? 1) = false) as -> by lia. assert ((a_PipelineID a <? 1) = false) as -> by lia.
    change (w_ProjectID rec) with (w_ProjectID rec0). change (w_PipelineTarget rec) with (w_PipelineTarget rec0).
    change (w_PipelineFingerprint rec) with (w_PipelineFingerprint rec0). change (w_PipelineLastSuccess rec) with (w_PipelineLastSuccess rec0).
    change (w_PipelineFixEpoch rec) with (w_PipelineFixEpoch rec0). by rewrite E1, E2, E3, E4, F2. }
  rewrite Ha in Hr.
  split; [|split; [exact Hr|split; [|split; [done|split; [done|]]]]].
  - unfold checkPipelineIdentity. rewrite Hr. cbn [a_BeadAnchor].
    change (w_BeadAnchor rec) with (w_BeadAnchor rec0). rewrite F5. exact Hc.
  - change (w_Project rec) with (w_Project rec0). change (w_ProjectID rec) with (w_ProjectID rec0).
    change (w_Rig rec) with (w_Rig rec0). change (w_IssueIID rec) with (w_IssueIID rec0). change (w_BeadAnchor rec) with (w_BeadAnchor rec0).
    change (w_BeadID rec) with (w_BeadID rec0). change (w_SessionKey rec) with (w_SessionKey rec0).
    change (w_Trigger rec) with (w_Trigger rec0). change (w_ConfigHash rec) with (w_ConfigHash rec0).
    by rewrite F1, F2, F3, F4, F5, F6, F7, F8, F9.
  - intros now. assert (w_ReslingFireBy rec = fireBy) as -> by done.
    assert (IsZero fireBy = false) as -> by (unfold IsZero; lia). apply refuseLateFire_printed. lia.
Qed.
End refire.

(** A mark and a number for a date: enough to run the model. *)
Definition mark_time (t : Time) : string := "T" +:+ NilEmpty.string_of_int (Z.to_int t).
Definition unmark_time (s : string) : option Time :=
  match s with String "T"%char d => Z.of_int <$> NilEmpty.int_of_string d | _ => None end.
#[local] Program Instance mark_text : GoTimeText := { ParseRFC3339Nano := unmark_time; FormatRFC3339Nano := mark_time }.
Next Obligation. intros t _. change (Z.of_int <$> NilEmpty.int_of_string (NilEmpty.string_of_int (Z.to_int t)) = Some t).
  rewrite NilEmpty.isi. cbn. by rewrite DecimalZ.of_to. Qed.
Next Obligation. done. Qed.

(** A diagnosis's order, fired again a minute later. *)
Definition sample_fp : string := "0123456789abcdef".
Definition sample_order (anchor : string) : dispatchArgs :=
  mkDispatchArgs "g/p" 84 "p" 0 anchor "" "k" TriggerPipelineDiagnosis "" "" "small" "m" "r" 3200 "ref:main" sample_fp 7 0.
Definition sample_anchor : string := "gonk:84:pipeline:ref-0d6e4079:0123456789abcdef:s7".
(** The run was first recorded for an earlier pipeline. *)
Definition sample_prior : WorkItem := set_w_PipelineID 3100 (base_record (sample_order sample_anchor) 1).

Example sample_refused :
  checkPipelineIdentity (sample_order "gonk:85:pipeline:ref-0d6e4079:0123456789abcdef:s7") = Some (NotTheAnchor sample_anchor) ∧
  agentForTrigger "mention-reply" = None.
Proof. vm_compute. split; reflexivity. Qed.

Lemma refire_identity_witness :
  let decided : decidedOnRecord := Ok (Some sample_prior) in
  let rec := set_w_ReslingFireBy 60 (setPipelineIdentity (base_record (sample_order sample_anchor) 2) (sample_order sample_anchor) decided) in
  let a' := dispatchArgsFrom (env_of (refire_vars rec)) in
  w_PipelineID rec = 3100 ∧ checkPipelineIdentity a' = None ∧ refuseLateFire (a_FireBy a') 61 = Some 0.
Proof.
  intros decided rec a'.
  assert (numbers_ok rec) as Hn by (unfold numbers_ok, int64; repeat split; vm_compute; congruence).
  destruct (refire_identity (sample_order sample_anchor) 2 decided 60) as (Hc & _ & _ & _ & _ & Hf).
  - vm_compute. reflexivity.
  - intros prior [= <-]. vm_compute. congruence.
  - vm_compute. split; reflexivity.
  - exact Hn.
  - split; [reflexivity|]. split; [exact Hc|]. exact (Hf 61).
Defined.

(** ** The session's environment *)

Lemma forbidden_own k : In k [envAttempt; envModel; envLiteLLMURL; envRigBaseURL] →
  forbiddenSessionEnv k = false ∧ contains runtimeOwnedEnv k = false.
Proof. intros H. repeat destruct H as [<-|H]; [vm_compute; by split..|done]. Qed.

(** A session's environment is the pack's table and four entries of the dispatch:
    no entry names what the runtime sets, nor anything of Gas City, of the bead
    store or of Dolt; a pack that has such an entry, or none at all, is refused.
    The attempt is the one decided, and where the answer names a model, or the
    order a base address, that is what the session gets. *)
Theorem session_env_safe pack attempt model liteLLMURL rigBaseURL :
  pack_env_ok pack = true →
  let env := buildSessionEnv pack attempt model liteLLMURL rigBaseURL in
  (∀ k v, env !! k = Some v → forbiddenSessionEnv k = false ∧ contains runtimeOwnedEnv k = false) ∧
  env !! envAttempt = Some (itoa attempt) ∧
  env !! envModel = (if String.eqb model "" then pack !! envModel else Some model) ∧
  env !! envLiteLLMURL = (if String.eqb liteLLMURL "" then pack !! envLiteLLMURL else Some liteLLMURL) ∧
  env !! envRigBaseURL = (if String.eqb rigBaseURL "" then pack !! envRigBaseURL else Some rigBaseURL) ∧
  ∀ k, k ∉ [envAttempt; envModel; envLiteLLMURL; envRigBaseURL] → env !! k = pack !! k.
Proof.
  unfold pack_env_ok. intros [_ Hp]%andb_true_iff. rewrite forallb_forall in Hp. cbv zeta.
  assert (∀ k v, pack !! k = Some v → forbiddenSessionEnv k = false ∧ contains runtimeOwnedEnv k = false) as Hpack.
  { intros k v Hk. apply elem_of_map_to_list in Hk. apply list_elem_of_In in Hk.
    specialize (Hp k (in_map fst _ _ Hk)). rewrite andb_true_iff, !negb_true_iff in Hp. exact Hp. }
  unfold buildSessionEnv. split.
  - intros k v. destruct (decide (k ∈ [envAttempt; envModel; envLiteLLMURL; envRigBaseURL])) as [Hin|Hout].
    + intros _. apply forbidden_own. by apply list_elem_of_In.
    + rewrite !not_elem_of_cons in Hout. destruct Hout as (H1 & H2 & H3 & H4 & _).
      destruct (String.eqb rigBaseURL ""), (String.eqb liteLLMURL ""), (String.eqb model ""); cbn [negb];
        rewrite ?lookup_insert_ne by done; apply Hpack.
  - destruct (String.eqb rigBaseURL ""), (String.eqb liteLLMURL ""), (String.eqb model ""); cbn [negb];
      (repeat split; [by simplify_map_eq..|]); intros k Hk; rewrite !not_elem_of_cons in Hk;
      destruct Hk as (H1 & H2 & H3 & H4 & _); by rewrite ?lookup_insert_ne by done.
Qed.

Lemma session_env_safe_witness :
  let pack : gmap string string := {["GONK_PROFILE" := "triage"]} in
  let env := buildSessionEnv pack 2 "" "http://llm" "" in
  pack_env_ok pack = true ∧ env !! envAttempt = Some "2" ∧ env !! envLiteLLMURL = Some "http://llm" ∧ env !! envModel = None ∧
  pack_env_ok {["GC_TOKEN" := "x"]} = false ∧ pack_env_ok ∅ = false.
Proof.
  intros pack env. split; [vm_compute; reflexivity|].
  destruct (session_env_safe pack 2 "" "http://llm" "") as (_ & Ha & Hm & Hl & _); [vm_compute; reflexivity|].
  split; [exact Ha|]. split; [exact Hl|]. split; [exact Hm|]. vm_compute. split; reflexivity.
Defined.
