(* ===== verification/Dispatch.v ===== *)
(** * [cmd/gonk-gate]: a dispatch

    [runDispatch] of [dispatch.go], [runBrokerDispatch] of [broker_inject.go] with
    the reservation of the work item's record, its release and the session it
    starts, and what a pipeline fix adds ([broker_pipefix_dispatch.go]). Each is a
    program over the operations of [GateProgs], every call that changes anything
    included. A deadline on a call is not a value of its own: a call that runs
    into it is one that fails. Log lines are left out, and so is the wording of
    notes and prompts.

    What a dispatch does is shown for every answer of the world: [view] is what it
    has done and been told, [watch] which operation is proper after it. *)

From S2P Require Import Prelude.
From S2P Require Import GoStrings.
From S2P Require Import GoTime.
From S2P Require Import Atags.
From S2P Require Import RungOutcome.
From S2P Require Import Pipefix.
From S2P Require Import FixIdentity.
From S2P Require Import WorkStore.
From S2P Require Import GateProgs.
From S2P Require Import SessionName.
From S2P Require Import RetryFeedback.
From S2P Require Import DispatchArgs.

(** The prompts' texts, of what was read. *)
Class PromptTexts := {
  renderTriagePrompt (project : string) (issueIID : Z) (agentContext issueContext checkout checkoutSHA : string) : string;
  renderScaffoldPrompt (project repoContext : string) : string;
  renderScaffoldCheckoutPrompt (project url : string) : string;
}.

(** What a process is set up with: of an outside service, whether it is there. *)
Record dispatchDeps := mkDispatchDeps {
  d_Runtime : bool; d_PrepareFix : bool; d_Apply : bool; d_Pipelines : bool; d_Rig : bool; d_Forge : bool;
  d_LiteLLMURL : string; d_RigBaseURL : string; d_StartedAt : Time; d_Budget : orderBudget; d_Args : dispatchArgs }.

Definition isSome {A} (o : option A) : bool := match o with Some _ => true | None => false end.
Definition terminated : Prog bool := call OTerminated.
Definition when (b : bool) (p : Prog unit) : Prog unit := if b then p else Ret tt.
Definition unless_terminated (p : Prog unit) : Prog unit := t ← terminated; when (negb t) p.

(** ** Notes *)

Definition statusNoteTimeout : Duration := 15 * Second.
Definition statusNoteHeadroom : Duration := 30 * Second.

Definition postRunningNotice (d : dispatchDeps) (agent : string) (dec : Meterapi.DecideResponse) (notAfter : Time) : Prog unit :=
  let a := d_Args d in
  when (d_Apply d && String.eqb agent triageAgent && negb (a_ProjectID a =? 0) && negb (a_IssueIID a =? 0))
    (unless_terminated
      (now ← call ONow;
       when (0 <? phaseTimeout now notAfter statusNoteTimeout)
         (call (ONote (NoteRunning (a_ProjectID a) (a_IssueIID a) (a_BeadID a) (Meterapi.Attempt dec) (Meterapi.Rung dec)))))).

Definition postDeferredNotice (d : dispatchDeps) (dec : Meterapi.DecideResponse) : Prog unit :=
  let a := d_Args d in
  when (d_Apply d && negb (a_ProjectID a =? 0) && negb (a_IssueIID a =? 0))
    (call (ONote (NoteDeferred (a_ProjectID a) (a_IssueIID a) (a_BeadID a) (Meterapi.Reason dec) (Meterapi.Detail dec)
                    (Meterapi.RetryAfter dec)))).

Definition postDeniedNotice (d : dispatchDeps) (dec : Meterapi.DecideResponse) : Prog unit :=
  let a := d_Args d in
  when (d_Apply d && negb (a_ProjectID a =? 0) && negb (a_IssueIID a =? 0))
    (call (ONote (NoteDenied (a_ProjectID a) (a_IssueIID a) (a_BeadID a) (Meterapi.Reason dec) (Meterapi.Detail dec)))).

(** The note's link to the pipeline is read as part of writing it. *)
Definition postPipelineRunNote (d : dispatchDeps) (rec : WorkItem) (state : string) : Prog unit :=
  when (d_Pipelines d) (unless_terminated (call (ONote (NoteRun rec state)))).
Definition postFixNote (d : dispatchDeps) (fix_ run : WorkItem) (state : string) (needsHuman : bool) : Prog unit :=
  when (d_Pipelines d) (unless_terminated (call (ONote (NoteFix fix_ run state needsHuman)))).

(** ** A park or a denial *)

Definition sameRecordContent (x y : WorkItem) : bool :=
  bool_decide (set_w_UpdatedAt 0 (set_w_Revision "" x) = set_w_UpdatedAt 0 (set_w_Revision "" y)).

Definition supersededBy (decided : decidedOnRecord) (cur : WorkItem) : bool :=
  match w_State cur with
  | StateNone | StateDone => false
  | _ => match decided with Ok (Some r) => negb (sameRecordContent r cur) | _ => true end
  end.

Definition maxDecidedRetries : nat := 2.
(** [Some code]: nothing was written, and the dispatch ends. *)
Fixpoint writeDecided_loop (retries : nat) (anchor : string) (rec : WorkItem) (decided : decidedOnRecord) (ifRevision : string) :
    Prog (option Z) :=
  w ← call (OPutIf rec ifRevision);
  match w with
  | Ok _ => Ret None
  | Err ErrStore => Ret (Some 1)
  | Err ErrStale =>
      match decided with
      | Err _ => Ret (Some 1)
      | Ok _ =>
          match retries with
          | O => Ret (Some 0)
          | S retries =>
              read ← call (OGet anchor);
              match read with
              | Ok (Some cur) =>
                  if supersededBy decided cur then Ret (Some 0)
                  else writeDecided_loop retries anchor rec decided (w_Revision cur)
              | _ => Ret (Some 0)
              end
          end
      end
  end.
Definition writeDecided (d : dispatchDeps) (rec : WorkItem) (decided : decidedOnRecord) : Prog (option Z) :=
  writeDecided_loop maxDecidedRetries (a_BeadAnchor (d_Args d)) rec decided (decided_revision decided).

(** ** The reservation of the record *)

Inductive reservation :=
| reservationNone
| reservationHeld (revision : string) (release : WorkItem)
| reservationUnknown (release claim : WorkItem).

Definition maxReserveTries : nat := 3.
(** [Err code]: the dispatch ends. *)
Fixpoint reserve_try (more : nat) (anchor : string) (nothingDispatched pending : WorkItem) : Prog (result Z reservation) :=
  read ← call (OGet anchor);
  match read with
  | Err _ =>
      w ← call (OPutIf pending "");
      Ret (Ok match w with
              | Ok rev => reservationHeld rev nothingDispatched
              | Err ErrStale => reservationNone
              | Err ErrStore => reservationUnknown nothingDispatched pending
              end)
  | Ok prior =>
      if match prior with
         | Some prior => negb (String.eqb (w_SessionID prior) "") && (w_Attempt prior =? w_Attempt pending)
         | None => false
         end
      then Ret (Err 0)
      else
        let release := default nothingDispatched prior in
        w ← call (OPutIf pending (revision_of prior));
        match w with
        | Ok rev => Ret (Ok (reservationHeld rev release))
        | Err ErrStale =>
            match more with S more => reserve_try more anchor nothingDispatched pending | O => Ret (Err 1) end
        | Err ErrStore => Ret (Ok (reservationUnknown release pending))
        end
  end.
Definition reservePendingPrompt (d : dispatchDeps) (base pending : WorkItem) : Prog (result Z reservation) :=
  reserve_try (maxReserveTries - 1) (a_BeadAnchor (d_Args d)) (set_w_SessionID "" base) pending.

Definition releasePendingPrompt (d : dispatchDeps) (res : reservation) : Prog unit :=
  match res with
  | reservationNone => Ret tt
  | reservationHeld rev release => _ ← call (OPutIf release rev); Ret tt
  | reservationUnknown release claim =>
      read ← call (OGet (a_BeadAnchor (d_Args d)));
      match read with
      | Ok (Some cur) =>
          if bool_decide (w_State cur = StatePendingPrompt) && sameRecordContent cur claim then
            _ ← call (OPutIf release (w_Revision cur)); Ret tt
          else Ret tt
      | _ => Ret tt
      end
  end.

Definition abandonSession (h : string) : Prog unit := unless_terminated (_ ← call (OStop h); Ret tt).

(** ** What a fix adds *)

Definition aborted (d : dispatchDeps) (dec : Meterapi.DecideResponse) : Prog unit :=
  let a := d_Args d in
  when (negb (String.eqb (Meterapi.ReservationID dec) ""))
    (_ ← call (OOutcome (Meterapi.mkOutcomeRequest (a_Project a) (a_BeadAnchor a) (a_SessionKey a) (Meterapi.Attempt dec)
                 (Meterapi.Rung dec) (Meterapi.ReservationID dec) OutcomeAborted (a_Trigger a)));
     Ret tt).

Definition settleFixNeedsScope (d : dispatchDeps) (base : WorkItem) (dec : Meterapi.DecideResponse) (run : WorkItem) : Prog unit :=
  read ← call (OGet (a_BeadAnchor (d_Args d)));
  match read with
  | Ok (Some cur) =>
      if negb (bool_decide (w_State cur = StateNone)) || negb (String.eqb (fx_State (w_PipelineFix cur)) "") then Ret tt
      else
        let rec := set_w_ReslungAt 0 (set_w_ReslingFireBy 0
                     (set_w_PipelineFix (set_fx_State StateNeedsScope (w_PipelineFix cur)) (set_w_State StateDone cur))) in
        w ← call (OPutIf rec (w_Revision cur));
        match w with
        | Err _ => Ret tt
        | Ok _ => _ ← aborted d dec; postFixNote d base run StateNeedsScope true
        end
  | _ => Ret tt
  end.

(** [Ok run]: go on with the diagnosed run; [Err code]: the dispatch ends. *)
Definition pipefixPreflight (d : dispatchDeps) (decided : decidedOnRecord) : Prog (result Z WorkItem) :=
  let a := d_Args d in
  match decided with
  | Err _ => Ret (Err 1)
  | Ok None => Ret (Err 2)
  | Ok (Some fix_) =>
      if negb (fx_Recorded (w_PipelineFix fix_)) || negb (String.eqb (w_Trigger fix_) TriggerPipelineFix) then Ret (Err 2)
      else match RunAnchorOfFix (a_BeadAnchor a) with
      | Err _ => Ret (Err 2)
      | Ok wantRun =>
          if negb (String.eqb (fx_RunAnchor (w_PipelineFix fix_)) wantRun) then Ret (Err 2)
          else if negb (String.eqb (fx_State (w_PipelineFix fix_)) "") then Ret (Err 0)
          else if negb (fx_BasePipelineID (w_PipelineFix fix_) =? a_PipelineID a) then Ret (Err 0)
          else
            read ← call (OGet wantRun);
            match read with
            | Err _ => Ret (Err 1)
            | Ok run =>
                match fixRunStale run fix_, run with
                | None, Some run => Ret (Ok run)
                | _, _ =>
                    _ ← when (bool_decide (w_State fix_ = StateNone) || bool_decide (w_State fix_ = StateParked))
                          (_ ← call (OPutIf (set_w_ReslungAt 0 (set_w_ReslingFireBy 0 (set_w_RetryAfter 0
                                       (set_w_State StateNone fix_)))) (w_Revision fix_));
                           Ret tt);
                    Ret (Err 0)
                end
            end
      end
  end.

Definition capFixAttempts (d : dispatchDeps) (base : WorkItem) (decided : decidedOnRecord) (dec : Meterapi.DecideResponse)
    (run : WorkItem) : Prog Z :=
  let base := set_w_State StateNeedsHuman base in
  w ← writeDecided d base decided;
  match w with
  | Some code => Ret code
  | None => _ ← aborted d dec; _ ← postFixNote d base run StateDenied true; Ret 0
  end.

(** ** The checkout and the key of a session *)

Definition needsCheckout (agent : string) : bool := contains [scaffoldAgent; triageAgent; pipelineAgent; pipefixAgent] agent.
Definition FetchURL (base alias : string) : string :=
  (if HasSuffix base "/" then String.substring 0 (String.length base - 1) base else base) +:+ "/rig/" +:+ alias +:+ ".tar.gz".

(** [None]: no checkout, and the fallbacks cover it; the URL and the commit. *)
Definition grantCheckout (d : dispatchDeps) (agent session : string) : Prog (option (string * string)) :=
  let a := d_Args d in
  if negb (needsCheckout agent) || negb (d_Rig d) || String.eqb (d_RigBaseURL d) "" || negb (d_Forge d) then Ret None
  else
    branch ← call (ODefaultBranch (a_ProjectID a));
    match branch with
    | None => Ret None
    | Some ref =>
        sha ← call (OResolveRef (a_ProjectID a) (if String.eqb ref "" then "main" else ref));
        match sha with
        | None => Ret None
        | Some sha =>
            nonce ← call ONonce;
            match nonce with
            | None => Ret None
            | Some nonce =>
                let key := session +:+ "." +:+ nonce in
                ok ← call (ORigGrant key (a_Project a) (a_ProjectID a) sha);
                Ret (if ok : bool then Some (FetchURL (d_RigBaseURL d) key, sha) else None)
            end
        end
    end.

Definition resolveLiteLLMKey (ref : Meterapi.KeyRef) : Prog (option string) :=
  if String.eqb (Meterapi.SecretName ref) "" || String.eqb (Meterapi.SecretKey ref) "" then Ret None
  else call (OSecret (Meterapi.SecretName ref) (Meterapi.SecretKey ref)).

(** ** A session, and the dispatch *)

Section dispatch.
Context `{PromptTexts} `{GoUnicode} `{GoTimeText}.

Definition session_name (agent : string) (a : dispatchArgs) (base : WorkItem) (attempt : Z) : string :=
  if String.eqb agent pipefixAgent then Name agent (a_ProjectID a) KindPipeline (fx_BasePipelineID (w_PipelineFix base)) attempt
  else if String.eqb agent pipelineAgent then Name agent (a_ProjectID a) KindPipeline (w_PipelineID base) attempt
  else Name agent (a_ProjectID a) KindIssue (a_IssueIID a) attempt.

Definition scaffoldPromptFor (rec : WorkItem) (project repoContext : string) : string :=
  let p := renderScaffoldPrompt project repoContext in
  if String.eqb (TrimSpace repoContext) "" then p else p +:+ retryFeedbackSuffix rec.

Inductive prepared :=
| Prepared (prompt checkoutURL checkoutSHA : string) (base : WorkItem)
| Refused (code : Z)
| NeedsScope.

Definition prepare (d : dispatchDeps) (agent name : string) (dec : Meterapi.DecideResponse) (base run : WorkItem) : Prog prepared :=
  let a := d_Args d in
  if String.eqb agent pipelineAgent then
    pp ← call (OPreparePipeline name base);
    Ret match pp with
        | None => Refused 1
        | Some pp => Prepared (pp_prompt pp) (pp_checkoutURL pp) (pp_checkoutSHA pp) (apply_pipeline pp base)
        end
  else if String.eqb agent pipefixAgent then
    if negb (d_PrepareFix d) then Ret (Refused 2)
    else
      fs ← call (OPrepareFix name base run (Meterapi.Rung dec));
      Ret match fs with
          | Err NothingEditable => NeedsScope
          | Err CannotPrepare => Refused 1
          | Ok fs =>
              Prepared (fs_Prompt fs) (fs_CheckoutURL fs) (fs_CheckoutSHA fs)
                (set_w_PipelineFix (set_fx_Context (fs_Context fs)
                   (set_fx_ContextSHA256 (fs_ContextSHA256 fs) (w_PipelineFix base))) base)
          end
  else if String.eqb agent scaffoldAgent then
    granted ← grantCheckout d agent name;
    match granted with
    | Some (url, sha) => Ret (Prepared (renderScaffoldCheckoutPrompt (a_Project a) url +:+ retryFeedbackSuffix base) url sha base)
    | None =>
        repo ← call (ORead (RepoContext (a_ProjectID a)));
        Ret (Prepared (scaffoldPromptFor base (a_Project a) (default "" repo)) "" "" base)
    end
  else
    issue ← call (ORead (IssueContext (a_ProjectID a) (a_IssueIID a)));
    granted ← grantCheckout d agent name;
    let '(url, sha) := default ("", "") granted in
    ctx ← call (ORead (AgentContext (a_ProjectID a)));
    Ret (Prepared (renderTriagePrompt (a_Project a) (a_IssueIID a) (default "" ctx) (default "" issue) url sha +:+
                     retryFeedbackSuffix base) url sha base).

Definition DefaultReservationTTL : Duration := 60 * Minute.

(** The record as it is reserved, and as it runs. *)
Definition pending_record (base : WorkItem) (name : string) (dec : Meterapi.DecideResponse) : WorkItem :=
  set_w_ReservationExpiresAt (Meterapi.ReservationExpiresAt dec) (set_w_ReservationID (Meterapi.ReservationID dec)
    (set_w_Model (Meterapi.Model dec) (set_w_Rung (Meterapi.Rung dec)
      (set_w_SessionID name (set_w_State StatePendingPrompt base))))).
Definition running_record (base : WorkItem) (h sha : string) (dec : Meterapi.DecideResponse) : WorkItem :=
  set_w_ReservationExpiresAt (Meterapi.ReservationExpiresAt dec) (set_w_ReservationID (Meterapi.ReservationID dec)
    (set_w_Model (Meterapi.Model dec) (set_w_Rung (Meterapi.Rung dec) (set_w_CheckoutSHA sha
      (set_w_SessionID h (set_w_State StateRunning base)))))).

(** What follows the reservation: the exit code, and whether the fix needs scope. *)
Definition broker_session (d : dispatchDeps) (agent name : string) (dec : Meterapi.DecideResponse) (base run : WorkItem)
    (packEnv : gmap string string) (started : Time) (runNoted : bool) : Prog (Z * bool) :=
  let budget := withDefaults (d_Budget d) in
  _ ← when runNoted (postRunningNotice d agent dec (Add (startDeadline budget started) (- statusNoteHeadroom)));
  prep ← prepare d agent name dec base run;
  match prep with
  | NeedsScope => Ret (1, true)
  | Refused code => Ret (code, false)
  | Prepared prompt checkoutURL checkoutSHA base =>
      key ← resolveLiteLLMKey (Meterapi.KeyRef_ dec);
      match key with
      | None => Ret (1, false)
      | Some key =>
          deadline ← (if IsZero (Meterapi.ReservationExpiresAt dec)
                      then now ← call ONow; Ret (Add now DefaultReservationTTL)
                      else Ret (Meterapi.ReservationExpiresAt dec));
          let spec := Runtime.mkSpec name agent
                        (buildSessionEnv packEnv (Meterapi.Attempt dec) (Meterapi.Model dec) (d_LiteLLMURL d) (d_RigBaseURL d))
                        checkoutURL prompt key (Meterapi.Metadata dec) deadline in
          now ← call ONow;
          if Sub (startDeadline budget started) now <=? 0 then Ret (1, false)
          else
            session ← call (OStart spec);
            match session with
            | None => Ret (1, false)
            | Some (h, created) =>
                t ← terminated;
                if t : bool then Ret (1, false)
                else
                  let base := running_record base h checkoutSHA dec in
                  w ← call (OPut base);
                  match w with
                  | Err _ => _ ← when created (abandonSession h); Ret (1, false)
                  | Ok _ =>
                      _ ← (if String.eqb agent pipelineAgent then postPipelineRunNote d base RunStateDiagnosing
                           else if String.eqb agent pipefixAgent then postFixNote d base run StateProposing false
                           else when (negb runNoted) (postRunningNotice d agent dec (hardStop budget started)));
                      Ret (0, false)
                  end
            end
      end
  end.

Definition runBrokerDispatch (d : dispatchDeps) (agent : string) (dec : Meterapi.DecideResponse) (base run : WorkItem) : Prog Z :=
  started ← (if IsZero (d_StartedAt d) then call ONow else Ret (d_StartedAt d));
  env ← packAgentEnv agent;
  match env with
  | None => Ret 2
  | Some packEnv =>
      let name := session_name agent (d_Args d) base (Meterapi.Attempt dec) in
      reserved ← reservePendingPrompt d base (pending_record base name dec);
      match reserved with
      | Err code => Ret code
      | Ok res =>
          let held := match res with reservationHeld _ _ => true | _ => false end in
          out ← broker_session d agent name dec base run packEnv started held;
          let '(code, fixNeedsScope) := out in
          _ ← when (negb (code =? 0) && match res with reservationNone => false | _ => true end)
                (unless_terminated (releasePendingPrompt d res));
          _ ← when fixNeedsScope (unless_terminated (settleFixNeedsScope d base dec run));
          Ret code
      end
  end.

(** The record a dispatch makes of its order and of what was recorded before. *)
Definition dispatch_base (a : dispatchArgs) (decided : decidedOnRecord) (dec : Meterapi.DecideResponse) : WorkItem :=
  let base := base_record a (Meterapi.Attempt dec) in
  let base := if String.eqb (a_Trigger a) TriggerPipelineDiagnosis then setPipelineIdentity base a decided else base in
  let base := if String.eqb (a_Trigger a) TriggerPipelineFix then setPipelineFixIdentity base (decided_rec decided) else base in
  match agentForTrigger (a_Trigger a) with
  | Some agent => if String.eqb agent triageAgent || String.eqb agent scaffoldAgent then carryRetryFeedback base decided else base
  | None => base
  end.

(** What is checked before the record is read: the exit code of a refusal, or
    the agent. *)
Definition dispatch_checks (d : dispatchDeps) : Prog (result Z string) :=
  let a := d_Args d in
  let isFix := String.eqb (a_Trigger a) TriggerPipelineFix in
  late ← (if String.eqb (a_FireBy a) "" then Ret None
          else now ← call ONow; Ret (refuseLateFire (a_FireBy a) now));
  match late with
  | Some code => Ret (Err code)
  | None =>
      match (if isFix then if d_PrepareFix d then Some pipefixAgent else None else agentForTrigger (a_Trigger a)) with
      | None => Ret (Err 2)
      | Some agent =>
          if negb (d_Runtime d) then Ret (Err 2)
          else if String.eqb (a_Trigger a) TriggerPipelineDiagnosis && isSome (checkPipelineIdentity a) then Ret (Err 2)
          else if isFix then
            if isSome (checkPipelineFixIdentity a) then Ret (Err 2)
            else
              env ← packAgentEnv agent;
              Ret (if isSome env then Ok agent else Err 2)
          else Ret (Ok agent)
      end
  end.

(** What is done with meter's answer. *)
Definition dispatch_decided (d : dispatchDeps) (agent : string) (decided : decidedOnRecord) (run : WorkItem)
    (dec : Meterapi.DecideResponse) : Prog Z :=
  let a := d_Args d in
  let isFix := String.eqb (a_Trigger a) TriggerPipelineFix in
  let base := dispatch_base a decided dec in
  if String.eqb (Meterapi.Decision dec) Meterapi.DecisionDefer then
    let base := set_w_RetryAfter (Meterapi.RetryAfter dec) (set_w_State StateParked base) in
    w ← writeDecided d base decided;
    match w with
    | Some code => Ret code
    | None =>
        _ ← (if isFix then Ret tt
             else if negb (w_PipelineID base =? 0) then postPipelineRunNote d base RunStateDeferred
             else postDeferredNotice d dec);
        Ret 0
    end
  else if String.eqb (Meterapi.Decision dec) Meterapi.DecisionDeny then
    let base := set_w_State StateNeedsHuman base in
    w ← writeDecided d base decided;
    match w with
    | Some code => Ret code
    | None =>
        _ ← (if isFix then postFixNote d base run StateDenied true
             else if negb (w_PipelineID base =? 0) then postPipelineRunNote d base RunStateDenied
             else postDeniedNotice d dec);
        Ret 0
    end
  else if String.eqb (Meterapi.Decision dec) Meterapi.DecisionRun then
    if isFix && (0 <? fx_MaxAttempts (w_PipelineFix base)) && (fx_MaxAttempts (w_PipelineFix base) <? Meterapi.Attempt dec) then
      capFixAttempts d base decided dec run
    else runBrokerDispatch d agent dec base run
  else Ret 1.

Definition runDispatch (d : dispatchDeps) : Prog Z :=
  let a := d_Args d in
  checked ← dispatch_checks d;
  match checked with
  | Err code => Ret code
  | Ok agent =>
      decided ← call (OGet (a_BeadAnchor a));
      preflight ← (if String.eqb (a_Trigger a) TriggerPipelineFix then pipefixPreflight d decided else Ret (Ok WorkItem_zero));
      match preflight with
      | Err code => Ret code
      | Ok run =>
          dec ← call (ODecide (Meterapi.mkDecideRequest (a_Project a) (a_Rig a) (a_BeadAnchor a) (a_SessionKey a) (a_Trigger a)));
          match dec with
          | None => Ret 1
          | Some dec => dispatch_decided d agent decided run dec
          end
      end
  end.
End dispatch.
