(* ===== verification/DispatchWatch.v ===== *)
(** * [cmd/gonk-gate]: what a dispatch may do

    The programs of [Dispatch] watched operation by operation, whatever the world
    answers: what is proper to do after what was done, and what is left behind at
    the end. *)

From S2P Require Import Prelude.
From S2P Require Import GoStrings.
From S2P Require Import GoTime.
From S2P Require Import Atags.
From S2P Require Import RungOutcome.
From S2P Require Import Pipefix.
From S2P Require Import FixIdentity.
From S2P Require Import WorkStore.
From S2P Require Import GateProgs.
From S2P Require Import SessionName.
From S2P Require Import RetryFeedback.
From S2P Require Import DispatchArgs.
From S2P Require Import Dispatch.

(** ** What a dispatch has done and been told *)

Record view := mkView {
  (** the last answer to a read of the work item's record, and all records read *)
  v_get : option decidedOnRecord; v_seen : list WorkItem;
  (** the first of them, made before meter was asked, and meter's answer *)
  v_on : option decidedOnRecord; v_asked : bool; v_dec : option Meterapi.DecideResponse;
  (** the reservation it wrote; its revision and the record it replaced, until it
      is released or became the running record *)
  v_claim : option WorkItem; v_held : option (string * option WorkItem);
  v_key : option string; v_clock : option Time;
  (** the start of a session, the session, the write of its running record *)
  v_started : bool; v_session : option (Runtime.Spec * string * bool); v_running : option bool; v_stopped : bool;
  (** told to stop; a write was sent, and one was made; the store failed *)
  v_told : bool; v_wrote : bool; v_landed : bool; v_failed : bool }.

Definition view0 : view := mkView None [] None false None None None None None false None None false false false false false.

Definition is_ok {E A} (r : result E A) : bool := match r with Ok _ => true | Err _ => false end.
Definition store_failed {A} (r : result store_error A) : bool := match r with Err ErrStore => true | _ => false end.

Section watched.
Context `{PromptTexts} `{GoUnicode} `{GoTimeText} (d : dispatchDeps).
Let a := d_Args d.
Let anchor := a_BeadAnchor (d_Args d).

(** A write of a reservation while none is held reserves; a write while one is
    held releases it. *)
Definition after_putif (r : WorkItem) (w : result store_error string) (v : view) : view :=
  let reserves := match v_held v with None => bool_decide (w_State r = StatePendingPrompt) | Some _ => false end in
  let held :=
    match v_held v, w with
    | None, Ok rev => if reserves then Some (rev, match v_get v with Some (Ok prior) => prior | _ => None end) else None
    | _, _ => None
    end in
  mkView (v_get v) (v_seen v) (v_on v) (v_asked v) (v_dec v) (if reserves then Some r else v_claim v) held (v_key v) (v_clock v)
    (v_started v) (v_session v) (v_running v) (v_stopped v) (v_told v) true (v_landed v || is_ok w) (v_failed v || store_failed w).

Definition after_get (o : decidedOnRecord) (v : view) : view :=
  mkView (Some o) (match o with Ok (Some p) => p :: v_seen v | _ => v_seen v end)
    (match v_on v with Some on => Some on | None => Some o end) (v_asked v) (v_dec v) (v_claim v)
    (v_held v) (v_key v) (v_clock v) (v_started v) (v_session v) (v_running v) (v_stopped v) (v_told v) (v_wrote v) (v_landed v)
    (v_failed v || negb (is_ok o)).

Definition after_decide (o : option Meterapi.DecideResponse) (v : view) : view :=
  mkView (v_get v) (v_seen v) (v_on v) true o (v_claim v) (v_held v) (v_key v) (v_clock v) (v_started v) (v_session v)
    (v_running v) (v_stopped v) (v_told v) (v_wrote v) (v_landed v) (v_failed v).

Definition set_clock (t : Time) (v : view) : view :=
  mkView (v_get v) (v_seen v) (v_on v) (v_asked v) (v_dec v) (v_claim v) (v_held v) (v_key v) (Some t) (v_started v) (v_session v)
    (v_running v) (v_stopped v) (v_told v) (v_wrote v) (v_landed v) (v_failed v).
Definition set_told (b : bool) (v : view) : view :=
  mkView (v_get v) (v_seen v) (v_on v) (v_asked v) (v_dec v) (v_claim v) (v_held v) (v_key v) (v_clock v) (v_started v) (v_session v)
    (v_running v) (v_stopped v) (v_told v || b) (v_wrote v) (v_landed v) (v_failed v).
Definition set_failed (b : bool) (v : view) : view :=
  mkView (v_get v) (v_seen v) (v_on v) (v_asked v) (v_dec v) (v_claim v) (v_held v) (v_key v) (v_clock v) (v_started v) (v_session v)
    (v_running v) (v_stopped v) (v_told v) (v_wrote v) (v_landed v) (v_failed v || b).
Definition set_key (k : option string) (v : view) : view :=
  mkView (v_get v) (v_seen v) (v_on v) (v_asked v) (v_dec v) (v_claim v) (v_held v) k (v_clock v) (v_started v) (v_session v)
    (v_running v) (v_stopped v) (v_told v) (v_wrote v) (v_landed v) (v_failed v).
Definition after_start (spec : Runtime.Spec) (o : option (string * bool)) (v : view) : view :=
  mkView (v_get v) (v_seen v) (v_on v) (v_asked v) (v_dec v) (v_claim v) (v_held v) (v_key v) (v_clock v) true
    (match o with Some (h, created) => Some (spec, h, created) | None => None end)
    (v_running v) (v_stopped v) (v_told v) (v_wrote v) (v_landed v) (v_failed v).
Definition after_put (w : result store_error unit) (v : view) : view :=
  mkView (v_get v) (v_seen v) (v_on v) (v_asked v) (v_dec v) (v_claim v) (if is_ok w then None else v_held v) (v_key v) (v_clock v)
    (v_started v) (v_session v) (Some (is_ok w)) (v_stopped v) (v_told v) true (v_landed v || is_ok w) (v_failed v || negb (is_ok w)).
Definition after_stop (v : view) : view :=
  mkView (v_get v) (v_seen v) (v_on v) (v_asked v) (v_dec v) (v_claim v) (v_held v) (v_key v) (v_clock v) (v_started v) (v_session v)
    (v_running v) true (v_told v) (v_wrote v) (v_landed v) (v_failed v).

Definition next {B : Type} (op : Op B) : B → view → view :=
  match op in Op B return B → view → view with
  | OGet k => λ o v, if String.eqb k anchor then after_get o v else set_failed (negb (is_ok o)) v
  | OPutIf r _ => λ w v, after_putif r w v
  | OPut _ => λ w v, after_put w v
  | ODecide _ => λ o v, after_decide o v
  | OSecret _ _ => λ o v, set_key o v
  | ONow => λ t v, set_clock t v
  | OTerminated => λ b v, set_told b v
  | OStart spec => λ o v, after_start spec o v
  | OStop _ => λ _ v, after_stop v
  | _ => λ _ v, v
  end.

(** ** What is proper *)

Definition run_answer (v : view) (dec : Meterapi.DecideResponse) : Prop :=
  v_dec v = Some dec ∧ Meterapi.Decision dec = Meterapi.DecisionRun.
Definition capped (r : WorkItem) (dec : Meterapi.DecideResponse) : Prop :=
  0 < fx_MaxAttempts (w_PipelineFix r) < Meterapi.Attempt dec.

(** A reservation: for a run, over the very record it read last (or none, when
    it could not read), which has no session for the attempt. *)
Definition proper_reserve (v : view) (r : WorkItem) (rev : string) : Prop :=
  ∃ dec, run_answer v dec ∧ v_held v = None ∧ v_started v = false ∧
    w_State r = StatePendingPrompt ∧ w_BeadAnchor r = anchor ∧ w_Attempt r = Meterapi.Attempt dec ∧
    w_ReservationID r = Meterapi.ReservationID dec ∧ w_SessionID r ≠ "" ∧ w_UpdatedAt r = 0 ∧ ¬ capped r dec ∧
    match v_get v with
    | Some (Ok prior) => rev = revision_of prior ∧ ∀ p, prior = Some p → w_SessionID p = "" ∨ w_Attempt p ≠ Meterapi.Attempt dec
    | _ => rev = ""
    end.

(** A release: over its own reservation, of the record that one replaced. *)
Definition proper_release (v : view) (r : WorkItem) (rev : string) : Prop :=
  ∃ prior, v_held v = Some (rev, prior) ∧ v_running v ≠ Some true ∧
    match prior with
    | Some p => r = p
    | None => w_State r = StateNone ∧ w_SessionID r = "" ∧ w_BeadAnchor r = anchor ∧ w_ReservationID r = ""
    end.
(** A release of a reservation whose write the store reported an error of. *)
Definition unconfirmed_release (v : view) (r : WorkItem) (rev : string) : Prop :=
  v_failed v = true ∧ v_held v = None ∧
  ∃ cur claim, v_get v = Some (Ok (Some cur)) ∧ v_claim v = Some claim ∧ rev = w_Revision cur ∧
    w_State cur = StatePendingPrompt ∧ sameRecordContent cur claim = true.

(** A park or a denial: meter's answer, or the cap of a fix, over the record it
    was decided on or one that takes nothing from that decision. *)
Definition proper_decided (v : view) (r : WorkItem) (rev : string) : Prop :=
  ∃ dec on, v_dec v = Some dec ∧ v_on v = Some on ∧ v_held v = None ∧ v_claim v = None ∧ v_started v = false ∧
    w_BeadAnchor r = anchor ∧ w_ReservationID r = "" ∧
    (Meterapi.Decision dec = Meterapi.DecisionDefer ∧ w_State r = StateParked ∧ w_RetryAfter r = Meterapi.RetryAfter dec ∨
     Meterapi.Decision dec = Meterapi.DecisionDeny ∧ w_State r = StateNeedsHuman ∨
     Meterapi.Decision dec = Meterapi.DecisionRun ∧ w_State r = StateNeedsHuman ∧ ∃ f, on = Ok (Some f) ∧ capped f dec) ∧
    (rev = decided_revision on ∨
     ∃ cur, v_get v = Some (Ok (Some cur)) ∧ rev = w_Revision cur ∧ supersededBy on cur = false).

(** A fix's record that nobody acts on: put back, or ended. *)
Definition proper_fix_write (v : view) (r : WorkItem) (rev : string) : Prop :=
  (v_failed v = false → v_held v = None) ∧ v_started v = false ∧
  ∃ p, p ∈ v_seen v ∧ rev = w_Revision p ∧ (w_State p = StateNone ∨ w_State p = StateParked) ∧
    (w_State r = StateNone ∨ w_State r = StateDone) ∧ w_BeadAnchor r = w_BeadAnchor p ∧ w_ReservationID r = w_ReservationID p.

Definition proper_start (v : view) (spec : Runtime.Spec) : Prop :=
  ∃ dec claim key now started, run_answer v dec ∧ v_started v = false ∧ v_claim v = Some claim ∧
    Runtime.Name spec = w_SessionID claim ∧ w_Attempt claim = Meterapi.Attempt dec ∧
    v_key v = Some key ∧ Runtime.LiteLLMKey spec = key ∧ Runtime.Metadata spec = Meterapi.Metadata dec ∧
    v_clock v = Some now ∧ (d_StartedAt d ≠ 0 → started = d_StartedAt d) ∧
    now < startDeadline (withDefaults (d_Budget d)) started ∧
    (Meterapi.ReservationExpiresAt dec ≠ 0 → Runtime.Deadline spec = Meterapi.ReservationExpiresAt dec) ∧
    (v_failed v = false → v_held v ≠ None).

Definition proper_put (v : view) (r : WorkItem) : Prop :=
  ∃ dec spec h created, run_answer v dec ∧ v_session v = Some (spec, h, created) ∧ v_running v = None ∧
    w_State r = StateRunning ∧ w_SessionID r = h ∧ w_BeadAnchor r = anchor ∧ w_Attempt r = Meterapi.Attempt dec ∧
    w_ReservationID r = Meterapi.ReservationID dec ∧ w_ReservationExpiresAt r = Meterapi.ReservationExpiresAt dec ∧
    (v_failed v = false → v_held v ≠ None).

Definition proper {B : Type} (op : Op B) (v : view) : Prop :=
  match op with
  | OGet _ | ONow | OTerminated | ONonce | OPackEnv _ | ODefaultBranch _ | OResolveRef _ _ | ORead _
  | OPreparePipeline _ _ | OPrepareFix _ _ _ _ => True
  | ORigGrant _ _ _ _ => v_started v = false
  | ODecide q =>
      v_asked v = false ∧ v_started v = false ∧ v_on v ≠ None ∧
      q = Meterapi.mkDecideRequest (a_Project a) (a_Rig a) (a_BeadAnchor a) (a_SessionKey a) (a_Trigger a)
  | OSecret name key =>
      name ≠ "" ∧ key ≠ "" ∧ ∃ dec, run_answer v dec ∧ Meterapi.KeyRef_ dec = Meterapi.mkKeyRef name key
  | OPutIf r rev =>
      proper_reserve v r rev ∨ proper_release v r rev ∨ unconfirmed_release v r rev ∨ proper_decided v r rev ∨ proper_fix_write v r rev
  | OStart spec => proper_start v spec
  | OPut r => proper_put v r
  | OStop h => ∃ spec, v_session v = Some (spec, h, true) ∧ v_running v = Some false
  | OOutcome q =>
      v_landed v = true ∧ v_started v = false ∧ Meterapi.o_Outcome q = OutcomeAborted ∧ Meterapi.o_ReservationID q ≠ "" ∧
      ∃ dec, run_answer v dec ∧ Meterapi.o_ReservationID q = Meterapi.ReservationID dec
  | ONote _ => v_landed v = true
  | _ => False
  end.

(** A process told to stop stays told; nothing else is assumed of the answers. *)
Definition heard {B : Type} (op : Op B) : B → view → Prop :=
  match op in Op B return B → view → Prop with
  | OTerminated => λ b v, v_told v = true → b = true
  | _ => λ _ _, True
  end.

#[local] Abbreviation watched p v Q := (wp (@proper) (@heard) (@next) p v Q).

(** ** The parts *)

Lemma watched_bind {A B : Type} (p : Prog A) (f : A → Prog B) v R Q :
  watched p v R → (∀ x v', R x v' → watched (f x) v' Q) → watched (p ≫= f) v Q.
Proof. intros Hp Hf. apply wp_bind. eapply wp_mono; [exact Hp|]. exact Hf. Qed.

Lemma watched_call {B C : Type} (op : Op B) (f : B → Prog C) v Q :
  proper op v → (∀ b, watched (f b) (next op b v) Q) → watched (call op ≫= f) v Q.
Proof. intros Hp Hf. split; [exact Hp|]. intros b _. exact (Hf b). Qed.

(** Nothing of note happens: the clock is read, the process may be told to stop. *)
Definition quiet (v v' : view) : Prop := ∃ c b,
  v' = mkView (v_get v) (v_seen v) (v_on v) (v_asked v) (v_dec v) (v_claim v) (v_held v) (v_key v) c
    (v_started v) (v_session v) (v_running v) (v_stopped v) (v_told v || b) (v_wrote v) (v_landed v) (v_failed v).
Lemma quiet_refl v : quiet v v.
Proof. exists (v_clock v), false. rewrite orb_false_r. by destruct v. Qed.
Lemma quiet_trans v1 v2 v3 : quiet v1 v2 → quiet v2 v3 → quiet v1 v3.
Proof. intros (c & b & ->) (c' & b' & ->). exists c', (b || b'). cbn. by rewrite orb_assoc. Qed.
Lemma quiet_told b v : quiet v (set_told b v).
Proof. by exists (v_clock v), b. Qed.
Lemma quiet_clock t v : quiet v (set_clock t v).
Proof. exists (Some t), false. by rewrite orb_false_r. Qed.
Hint Resolve quiet_refl quiet_told quiet_clock : core.

Lemma watched_when b p v Q : (b = true → watched p v Q) → (b = false → Q tt v) → watched (when b p) v Q.
Proof. destruct b; cbn; auto. Qed.

Lemma watched_note n v : v_landed v = true → watched (call (ONote n)) v (λ _ v', v' = v).
Proof. intros Hl. by split. Qed.

Lemma watched_unless_told p v Q :
  (v_told v = false → watched p (set_told false v) Q) → Q tt (set_told true v) → watched (unless_terminated p) v Q.
Proof.
  intros Hp Ht. split; [done|]. intros [] Hb; [exact Ht|]. apply Hp. destruct (v_told v) eqn:E; [|done]. cbn in Hb. rewrite E in Hb. by specialize (Hb eq_refl).
Qed.
Lemma watched_unless_terminated p v Q :
  watched p (set_told false v) Q → Q tt (set_told true v) → watched (unless_terminated p) v Q.
Proof. intros Hp. by apply watched_unless_told. Qed.

Lemma running_notice agent dec notAfter v : v_landed v = true →
  watched (postRunningNotice d agent dec notAfter) v (λ _ v', quiet v v').
Proof.
  intros Hl. apply watched_when; [|by auto]. intros _. apply watched_unless_terminated; [|by auto].
  apply watched_call; [done|]. intros now. apply watched_when.
  - intros _. eapply wp_mono; [by apply watched_note|]. intros [] v' ->. eapply quiet_trans; [apply quiet_told|apply quiet_clock].
  - intros _. eapply quiet_trans; [apply quiet_told|apply quiet_clock].
Qed.

Lemma issue_notice b n v : v_landed v = true → watched (when b (call (ONote n))) v (λ _ v', quiet v v').
Proof. intros Hl. apply watched_when; [|by auto]. intros _. eapply wp_mono; [by apply watched_note|]. by intros [] v' ->. Qed.
Lemma pipeline_notice n v : v_landed v = true →
  watched (when (d_Pipelines d) (unless_terminated (call (ONote n)))) v (λ _ v', quiet v v').
Proof.
  intros Hl. apply watched_when; [|by auto]. intros _. apply watched_unless_terminated; [|by auto].
  eapply wp_mono; [by apply watched_note|]. intros [] v' ->. apply quiet_told.
Qed.

(** The session's part of the view, and meter's. *)
Definition kept (v v' : view) : Prop :=
  (v_on v', v_asked v', v_dec v', v_claim v', v_held v') = (v_on v, v_asked v, v_dec v, v_claim v, v_held v) ∧
  (v_started v', v_session v', v_running v', v_stopped v') = (v_started v, v_session v, v_running v, v_stopped v).
Lemma kept_refl v : kept v v.
Proof. done. Qed.
Lemma kept_trans v1 v2 v3 : kept v1 v2 → kept v2 v3 → kept v1 v3.
Proof. unfold kept. intros [-> ->] [-> ->]. done. Qed.
Lemma quiet_kept v v' : quiet v v' → kept v v'.
Proof. intros (c & b & ->). done. Qed.

Lemma decided_supersedes on cur : supersededBy (Ok (Some on)) cur = false →
  w_State cur = StateNone ∨ w_State cur = StateDone ∨ sameRecordContent on cur = true.
Proof. unfold supersededBy. destruct (w_State cur); auto; rewrite negb_false_iff; auto. Qed.

(** A park or denial: written, or the exit code. *)
Lemma watched_decided retries v r on dec rev :
  v_dec v = Some dec → v_on v = Some on → v_held v = None → v_claim v = None → v_started v = false →
  w_BeadAnchor r = anchor → w_ReservationID r = "" →
  (Meterapi.Decision dec = Meterapi.DecisionDefer ∧ w_State r = StateParked ∧ w_RetryAfter r = Meterapi.RetryAfter dec ∨
   Meterapi.Decision dec = Meterapi.DecisionDeny ∧ w_State r = StateNeedsHuman ∨
   Meterapi.Decision dec = Meterapi.DecisionRun ∧ w_State r = StateNeedsHuman ∧ ∃ f, on = Ok (Some f) ∧ capped f dec) →
  (rev = decided_revision on ∨
   ∃ cur, v_get v = Some (Ok (Some cur)) ∧ rev = w_Revision cur ∧ supersededBy on cur = false) →
  watched (writeDecided_loop retries anchor r on rev) v
    (λ out v', kept v v' ∧ (out = None → v_landed v' = true) ∧ ∀ c, out = Some c → c = 0 ∨ c = 1).
Proof.
  revert v rev. induction retries as [|retries IH]; intros v rev Hd Ho Hh Hc Hs Ha Hr Hk Hrev; cbn [writeDecided_loop].
  all: assert (bool_decide (w_State r = StatePendingPrompt) = false) as Hp
    by (apply bool_decide_eq_false; naive_solver congruence).
  all: apply watched_call; [right; right; right; left; by exists dec, on|]; intros w; cbn [next].
  all: assert (kept v (after_putif r w v)) as Hkept by (unfold kept, after_putif; rewrite Hh, Hp; cbn; rewrite ?Hh; by destruct w).
  all: destruct w as [rev'|[|]]; [cbn; rewrite orb_true_r; naive_solver| |cbn; naive_solver].
  all: destruct on as [on|e]; [|cbn; naive_solver].
  - cbn; naive_solver.
  - pose proof (f_equal snd (proj1 Hkept)) as E1. pose proof (f_equal (λ x, snd (fst x)) (proj1 Hkept)) as E2. cbn [fst snd] in E1, E2.
    apply watched_call; [done|]. intros read. cbn [next]. rewrite String.eqb_refl.
    set (v1 := after_get read (after_putif r (Err ErrStale) v)).
    assert (v_on v1 = Some (Ok on)) as Ho1 by (subst v1; cbn; by rewrite Ho).
    assert (kept v v1) as Hk1 by (unfold kept; replace (v_on v1) with (v_on v) by exact (eq_trans Ho (eq_sym Ho1)); exact Hkept).
    destruct read as [[cur|]|e]; [|cbn; naive_solver..].
    destruct (supersededBy (Ok on) cur) eqn:Hsup; [cbn; naive_solver|].
    eapply wp_mono; [apply (IH v1)|].
    3: change (v_held (after_putif r (Err ErrStale) v) = None); congruence.
    3: change (v_claim (after_putif r (Err ErrStale) v) = None); congruence.
    1-6: done.
    + right. by exists cur.
    + intros out v' (Hk' & Hl & Hc'). split; [by eapply kept_trans|]. done.
Qed.

(** The question, the answer and the session, whatever was reserved or released. *)
Definition same_session (v v' : view) : Prop :=
  (v_on v', v_asked v', v_dec v') = (v_on v, v_asked v, v_dec v) ∧
  (v_started v', v_session v', v_running v', v_stopped v') = (v_started v, v_session v, v_running v, v_stopped v).
Lemma same_session_trans v1 v2 v3 : same_session v1 v2 → same_session v2 v3 → same_session v1 v3.
Proof. unfold same_session. intros [-> ->] [-> ->]. done. Qed.
Lemma kept_same v v' : kept v v' → same_session v v'.
Proof. intros [E1 E2]. split; [|done]. by apply (f_equal (λ x, fst (fst x))) in E1. Qed.

Definition has_session_for (v : view) (dec : Meterapi.DecideResponse) : Prop :=
  ∃ p, v_get v = Some (Ok (Some p)) ∧ w_SessionID p ≠ "" ∧ w_Attempt p = Meterapi.Attempt dec.

Definition reserved_as (v : view) (dec : Meterapi.DecideResponse) (nothing pending : WorkItem) (out : result Z reservation) : Prop :=
  match out with
  | Err c => v_held v = None ∧ (c = 0 ∧ has_session_for v dec ∨ c = 1)
  | Ok (reservationHeld rev rel) =>
      v_claim v = Some pending ∧ v_landed v = true ∧ ∃ prior, v_held v = Some (rev, prior) ∧ rel = default nothing prior
  | Ok reservationNone => v_claim v = Some pending ∧ v_held v = None ∧ v_failed v = true
  | Ok (reservationUnknown _ claim) => v_claim v = Some pending ∧ v_held v = None ∧ v_failed v = true ∧ claim = pending
  end.

Lemma watched_reserve more v dec on nothing pending :
  run_answer v dec → v_on v = Some on → v_held v = None → v_started v = false →
  w_State pending = StatePendingPrompt → w_BeadAnchor pending = anchor → w_Attempt pending = Meterapi.Attempt dec →
  w_ReservationID pending = Meterapi.ReservationID dec → w_SessionID pending ≠ "" → w_UpdatedAt pending = 0 → ¬ capped pending dec →
  watched (reserve_try more anchor nothing pending) v (λ out v', same_session v v' ∧ reserved_as v' dec nothing pending out).
Proof.
  revert v. induction more as [|more IH]; intros v Hd Ho Hh Hs Hp Ha Hat Hr Hse Hu Hc; cbn [reserve_try].
  all: assert (bool_decide (w_State pending = StatePendingPrompt) = true) as Hpt by by apply bool_decide_eq_true.
  all: apply watched_call; [done|]; intros read; cbn [next]; rewrite String.eqb_refl.
  all: set (v0 := after_get read v).
  all: assert (v_on v0 = v_on v) as Hon by (subst v0; cbn; by rewrite Ho).
  all: assert (same_session v v0) as Hs0 by (unfold same_session; rewrite Hon; done).
  all: destruct read as [prior|e].
  all: try (destruct (match prior with Some p => _ | None => false end) eqn:Hg;
    [destruct prior as [p|]; [|done]; apply andb_prop in Hg as [Hg1 Hg2]; split; [exact Hs0|]; split; [done|left];
     split; [done|]; exists p; split; [done|]; split; [by apply negb_true_iff, String.eqb_neq in Hg1|lia]|]).
  all: apply watched_call; [left; exists dec; repeat (split; [done|]);
    first [done|intros p ->; destruct (String.eqb_spec (w_SessionID p) ""); [by left|];
      right; cbn in Hg; lia]|].
  all: intros w; cbn [next]; set (v1 := after_putif _ _ _).
  all: assert (same_session v v1) as Hsame by exact Hs0.
  all: assert (v_claim v1 = Some pending) as Hcl by (subst v1; unfold after_putif; cbn; rewrite Hh, Hpt; done).
  all: destruct w as [rev|[|]]; cbn.
  all: try (split; [exact Hsame|]).
  all: subst v1 v0.
  all: try (unfold after_putif; cbn; rewrite ?Hh, ?Hpt; cbn; rewrite ?orb_true_r; naive_solver).
  assert (v_held (after_putif pending (Err ErrStale) (after_get (Ok prior) v)) = None) as Hh1
    by (unfold after_putif; cbn; by rewrite Hh).
  eapply wp_mono; [by apply (IH (after_putif pending (Err ErrStale) (after_get (Ok prior) v)) Hd (eq_trans Hon Ho))|].
  intros out v' [Hs' Hr']. split; [by eapply same_session_trans|done].
Qed.

(** What may be released. *)
Definition releasable (v : view) (res : reservation) : Prop :=
  match res with
  | reservationNone => True
  | reservationHeld rev rel =>
      ∃ prior, v_held v = Some (rev, prior) ∧
        match prior with
        | Some p => rel = p
        | None => w_State rel = StateNone ∧ w_SessionID rel = "" ∧ w_BeadAnchor rel = anchor ∧ w_ReservationID rel = ""
        end
  | reservationUnknown _ claim => v_held v = None ∧ v_failed v = true ∧ v_claim v = Some claim
  end.
Definition holding (res : reservation) : bool := match res with reservationHeld _ _ => true | _ => false end.

Lemma after_putif_held r w v : v_held v ≠ None ∨ w_State r ≠ StatePendingPrompt →
  v_held (after_putif r w v) = None.
Proof.
  unfold after_putif. destruct (v_held v) as [x|]; cbn; [done|]. destruct w as [s|]; [|done]. cbn.
  intros [?|Hs]; [done|]. by rewrite bool_decide_eq_false_2.
Qed.

Lemma watched_release res v on : v_on v = Some on → v_running v ≠ Some true → releasable v res →
  (holding res = false → v_failed v = true) →
  watched (releasePendingPrompt d res) v (λ _ v', same_session v v' ∧ v_told v' = v_told v ∧
    (v_failed v' = false → v_held v' = None)).
Proof.
  intros Ho Hr Hres Hunk. destruct res as [|rev rel|rel claim]; cbn [releasePendingPrompt].
  - cbn. split; [done|]. split; [done|]. by rewrite Hunk.
  - destruct Hres as (prior & Hh & Hrel). apply watched_call; [right; left; by exists prior|].
    intros w. cbn. split; [done|]. split; [done|]. intros _. apply after_putif_held. left. congruence.
  - destruct Hres as (Hh & Hf & Hc). apply watched_call; [done|]. intros read. cbn [next]. rewrite String.eqb_refl.
    assert (same_session v (after_get read v)) as Hs by (unfold same_session; cbn; by rewrite Ho).
    assert (v_failed (after_get read v) = true) as Hf' by (cbn; by rewrite Hf).
    assert (same_session v (after_get read v) ∧ v_told (after_get read v) = v_told v ∧
      (v_failed (after_get read v) = false → v_held (after_get read v) = None)) as Hend by (rewrite Hf'; done).
    destruct read as [[cur|]|]; [|exact Hend..].
    destruct (bool_decide (w_State cur = StatePendingPrompt)) eqn:Hst; cbn [andb];
      [destruct (sameRecordContent cur claim) eqn:Hsame|]; [|exact Hend..].
    apply watched_call.
    + right; right; left. split; [done|]. split; [done|]. exists cur, claim. apply bool_decide_eq_true in Hst. done.
    + intros w. split; [exact Hs|]. split; [done|].
      change (v_failed (after_get (Ok (Some cur)) v) || store_failed w = false → v_held (after_putif rel w (after_get (Ok (Some cur)) v)) = None).
      by rewrite Hf'.
Qed.

Lemma watched_abandon h v spec : v_session v = Some (spec, h, true) → v_running v = Some false →
  watched (abandonSession h) v (λ _ v', same_session (after_stop v) (after_stop v') ∧ v_held v' = v_held v ∧
    (v_stopped v' = true ∨ v_told v' = true) ∧ v_claim v' = v_claim v ∧ v_failed v' = v_failed v).
Proof.
  intros Hs Hr. apply watched_unless_terminated.
  - apply watched_call; [by exists spec|]. intros b. cbn. repeat (split; [by auto|]). done.
  - cbn. rewrite orb_true_r. repeat (split; [by auto|]). done.
Qed.

Lemma watched_aborted dec v : run_answer v dec → v_landed v = true → v_started v = false →
  watched (aborted d dec) v (λ _ v', v' = v).
Proof.
  intros Hd Hl Hs. apply watched_when; [|done]. rewrite negb_true_iff, String.eqb_neq. intros Hne.
  apply watched_call; [|done]. cbn. repeat (split; [done|]). by exists dec.
Qed.

Lemma watched_settle base dec run v on : v_on v = Some on → run_answer v dec →
  (v_failed v = false → v_held v = None) → v_started v = false →
  watched (settleFixNeedsScope d base dec run) v (λ _ v', same_session v v' ∧ (v_failed v' = false → v_held v' = None)).
Proof.
  intros Ho Hd Hh Hs. apply watched_call; [done|]. intros read. cbn [next]. rewrite String.eqb_refl.
  set (v0 := after_get read v).
  assert (same_session v v0) as Hg by (unfold same_session; cbn; by rewrite Ho).
  assert (v_failed v0 = false → v_held v0 = None) as Hh0 by (cbn; rewrite orb_false_iff; intros [Hf _]; auto).
  destruct read as [[cur|]|]; [|by split..].
  destruct (bool_decide (w_State cur = StateNone)) eqn:Hst; cbn [negb orb]; [|by split].
  destruct (negb (String.eqb (fx_State (w_PipelineFix cur)) "")); [by split|].
  apply bool_decide_eq_true in Hst. apply watched_call.
  - do 4 right. split; [exact Hh0|]. split; [done|]. exists cur. split; [left|]. repeat (split; [by auto|]). done.
  - intros w. cbn [next]. set (v1 := after_putif _ w v0).
    assert (v_held v1 = None) as Hh1 by (apply after_putif_held; right; done).
    destruct w as [rev|]; [|by split].
    eapply watched_bind; [apply watched_aborted; [done| |done]|].
    + cbn. by rewrite orb_true_r.
    + intros [] v' ->. eapply wp_mono; [apply pipeline_notice; cbn; by rewrite orb_true_r|].
      intros [] v' (c & b & ->). split; [exact Hg|done].
Qed.

Lemma watched_preflight decided v : v_get v = Some decided → v_on v = Some decided →
  (∀ p, decided = Ok (Some p) → p ∈ v_seen v) → v_held v = None → v_started v = false →
  watched (pipefixPreflight d decided) v (λ out v', kept v v' ∧ v_told v' = v_told v ∧
    match out with
    | Ok run => v_wrote v' = v_wrote v
    | Err c => c = 0 ∨ c = 1 ∨ c = 2 ∧ v_wrote v' = v_wrote v
    end).
Proof.
  intros Hg Ho Hseen Hh Hs. unfold pipefixPreflight.
  destruct decided as [[fix_|]|]; [|split; [done|]; split; [done|]; by auto 10..]. specialize (Hseen fix_ eq_refl).
  destruct (_ || _); [split; [done|]; split; [done|]; by auto 10|]. destruct (RunAnchorOfFix _) as [wantRun|]; [|split; [done|]; split; [done|]; by auto 10].
  destruct (negb (String.eqb _ wantRun)); [split; [done|]; split; [done|]; by auto 10|]. destruct (negb (String.eqb _ "")); [split; [done|]; split; [done|]; by auto 10|].
  destruct (negb (_ =? _)); [split; [done|]; split; [done|]; by auto 10|]. apply watched_call; [done|]. intros read. cbn [next].
  set (v1 := if String.eqb wantRun anchor then _ else _).
  assert (kept v v1 ∧ v_told v1 = v_told v ∧ v_wrote v1 = v_wrote v ∧ fix_ ∈ v_seen v1) as (Hk & Ht & Hw & Hin).
  { subst v1. unfold kept. destruct (String.eqb _ _); cbn; rewrite ?Ho; repeat (split; [done|]); [|done].
    destruct read as [[?|]|]; [by right|done..]. }
  destruct read as [run|]; [|split; [done|]; split; [done|]; by auto 10].
  destruct (fixRunStale run fix_) as [why|]; [|destruct run as [run|]; [split; [done|]; split; [done|]; by auto 10|]].
  all: eapply (watched_bind _ _ _ (λ _ v', kept v1 v' ∧ v_told v' = v_told v1)).
  2,4: intros [] v' [Hk' Ht']; cbn; split; [by eapply kept_trans|]; split; [congruence|auto].
  all: apply watched_when; [|done]; intros Hst.
  all: assert (w_State fix_ = StateNone ∨ w_State fix_ = StateParked) as Hst'
    by (apply orb_prop in Hst as [Hst|Hst]; apply bool_decide_eq_true in Hst; auto).
  all: destruct Hk as [Hk1 Hk2]; pose proof (f_equal snd Hk1) as Hh1; pose proof (f_equal (λ x, fst (fst (fst x))) Hk2) as Hs1;
    cbn in Hh1, Hs1.
  all: apply watched_call.
  1,3: do 4 right; split; [congruence|]; split; [congruence|]; exists fix_; repeat (split; [by auto|]); done.
  all: intros w; cbn; unfold after_putif, kept; rewrite bool_decide_eq_false_2 by done; rewrite Hh1, Hh; cbn; by destruct w.
Qed.

(** ** The session *)

Lemma watched_grant agent session v : v_started v = false → watched (grantCheckout d agent session) v (λ _ v', v' = v).
Proof.
  intros Hs. unfold grantCheckout. destruct (_ || _); [done|].
  apply watched_call; [done|]. intros [ref|]; [|done]. apply watched_call; [done|]. intros [sha|]; [|done].
  apply watched_call; [done|]. intros [nonce|]; [|done]. by apply watched_call.
Qed.

(** What a record made for a session keeps of the dispatch's. *)
Definition same_order (r base : WorkItem) : Prop :=
  w_BeadAnchor r = w_BeadAnchor base ∧ w_Attempt r = w_Attempt base.

Lemma watched_prepare agent name dec base run v : v_started v = false → (agent = pipefixAgent → d_PrepareFix d = true) →
  watched (prepare d agent name dec base run) v (λ out v', v' = v ∧
    match out with Prepared _ _ _ base' => same_order base' base | Refused c => c = 1 | NeedsScope => True end).
Proof.
  intros Hs Hp. unfold prepare. destruct (String.eqb agent pipelineAgent).
  - apply watched_call; [done|]. intros [pp|]; [|done]. cbn. split; [done|].
    unfold apply_pipeline, same_order. by destruct (negb _), (negb _).
  - destruct (String.eqb_spec agent pipefixAgent) as [E|_].
    + rewrite (Hp E). apply watched_call; [done|]. intros [fs|[|]]; done.
    + destruct (String.eqb agent scaffoldAgent).
      * eapply watched_bind; [by apply watched_grant|]. intros [[url sha]|] v' ->; [done|]. by apply watched_call.
      * apply watched_call; [done|]. intros issue. eapply watched_bind; [by apply watched_grant|].
        intros granted v' ->. destruct (default ("", "") granted) as [url sha]. by apply watched_call.
Qed.

(** Nothing but the key, the clock and the signal. *)
Definition hushed (v v' : view) : Prop := ∃ k c b,
  v' = mkView (v_get v) (v_seen v) (v_on v) (v_asked v) (v_dec v) (v_claim v) (v_held v) k c
    (v_started v) (v_session v) (v_running v) (v_stopped v) (v_told v || b) (v_wrote v) (v_landed v) (v_failed v).
Lemma quiet_hushed v v' : quiet v v' → hushed v v'.
Proof. intros (c & b & ->). by exists (v_key v), c, b. Qed.
Lemma hushed_trans v1 v2 v3 : hushed v1 v2 → hushed v2 v3 → hushed v1 v3.
Proof. intros (k & c & b & ->) (k' & c' & b' & ->). exists k', c', (b || b'). cbn. by rewrite orb_assoc. Qed.

Lemma watched_key dec v : run_answer v dec →
  watched (resolveLiteLLMKey (Meterapi.KeyRef_ dec)) v (λ key v', hushed v v' ∧ (key ≠ None → v_key v' = key)).
Proof.
  intros Hd. unfold resolveLiteLLMKey. destruct (String.eqb_spec (Meterapi.SecretName (Meterapi.KeyRef_ dec)) "") as [E|E]; cbn [orb].
  { split; [apply quiet_hushed; auto|done]. }
  destruct (String.eqb_spec (Meterapi.SecretKey (Meterapi.KeyRef_ dec)) "") as [E'|E'].
  { split; [apply quiet_hushed; auto|done]. }
  split.
  - repeat (split; [done|]). exists dec. split; [done|]. by destruct (Meterapi.KeyRef_ dec).
  - intros k _. split; [|done]. exists k, (v_clock v), false. by rewrite orb_false_r.
Qed.

(** How a session ends up: it runs and its record is written, or the dispatch
    fails, and then a session it created is stopped unless it was told to stop. *)
Definition session_outcome (v : view) (code : Z) : Prop :=
  code = 0 ∧ v_running v = Some true ∧ v_held v = None ∨
  code = 1 ∧ v_running v ≠ Some true ∧
  ∀ spec h, v_session v = Some (spec, h, true) → v_stopped v = true ∨ v_told v = true.

Lemma watched_session agent name dec base run packEnv started noted v claim prior :
  run_answer v dec → v_claim v = Some claim → w_SessionID claim = name → w_Attempt claim = Meterapi.Attempt dec →
  v_started v = false → v_session v = None → v_running v = None → (noted = true → v_landed v = true) →
  (v_failed v = false → v_held v ≠ None) → w_BeadAnchor base = anchor → w_Attempt base = Meterapi.Attempt dec →
  (agent = pipefixAgent → d_PrepareFix d = true) → (d_StartedAt d ≠ 0 → started = d_StartedAt d) → prior = v_held v →
  watched (broker_session d agent name dec base run packEnv started noted) v (λ out v',
    let '(code, scope) := out in
    session_outcome v' code ∧ (code = 1 → v_held v' = prior) ∧ (scope = true → v_started v' = false ∧ code = 1) ∧
    (v_on v', v_asked v', v_dec v', v_claim v') = (v_on v, v_asked v, v_dec v, v_claim v) ∧
    (v_started v' = false → code = 1) ∧ (v_failed v = true → v_failed v' = true)).
Proof.
  intros Hd Hcl Hname Hat Hs Hse Hr Hn Hh Ha Hb Hp Hst Hprior. unfold broker_session.
  assert (∀ code, code = 1 → ∀ v', hushed v v' → ∀ scope : bool,
    session_outcome v' code ∧ (code = 1 → v_held v' = prior) ∧ (scope = true → v_started v' = false ∧ code = 1) ∧
    (v_on v', v_asked v', v_dec v', v_claim v') = (v_on v, v_asked v, v_dec v, v_claim v) ∧
    (v_started v' = false → code = 1) ∧ (v_failed v = true → v_failed v' = true)) as Hfail.
  { intros code -> v' (k & c & b & ->) scope. split; [right|cbn; auto 10]. split; [done|]. cbn. by rewrite Hr, Hse. }
  eapply (watched_bind _ _ _ (λ _ v', hushed v v')).
  { apply watched_when; [|by auto using quiet_hushed]. intros Hno. eapply wp_mono; [apply running_notice; auto|].
    intros [] v'. apply quiet_hushed. }
  intros [] v1 Hq1.
  eapply watched_bind; [apply watched_prepare; [by destruct Hq1 as (? & ? & ? & ->)|done]|]. intros prep v' [-> Hprep].
  destruct prep as [prompt url sha base'|code|]; [|by apply Hfail..].
  eapply watched_bind; [apply watched_key; by destruct Hq1 as (? & ? & ? & ->)|]. intros key v2 [Hq2 Hk].
  pose proof (hushed_trans _ _ _ Hq1 Hq2) as Hq2'.
  destruct key as [key|]; [|by apply Hfail]. specialize (Hk ltac:(done)).
  eapply (watched_bind _ _ _ (λ dl v', quiet v2 v' ∧
    (Meterapi.ReservationExpiresAt dec ≠ 0 → dl = Meterapi.ReservationExpiresAt dec))).
  { unfold IsZero. destruct (Z.eqb_spec (Meterapi.ReservationExpiresAt dec) 0).
    - apply watched_call; [done|]. intros now. cbn. split; [auto|done].
    - cbn. by split. }
  intros deadline v3 [Hq3 Hdl]. apply watched_call; [done|]. intros now. cbn [next].
  assert (∃ t, set_clock now v3 = mkView (v_get v) (v_seen v) (v_on v) (v_asked v) (v_dec v) (v_claim v) (v_held v) (Some key)
    (Some now) (v_started v) (v_session v) (v_running v) (v_stopped v) (v_told v || t) (v_wrote v) (v_landed v) (v_failed v)) as (t & E).
  { destruct Hq2' as (k2 & c2 & b2 & ->), Hq3 as (c3 & b3 & ->). exists (b2 || b3). unfold set_clock. cbn in *. by rewrite Hk, orb_assoc. }
  rewrite E. clear E Hq1 Hq2 Hq2' Hq3 Hk v1 v2 v3.
  destruct (Z.leb_spec (Sub (startDeadline (withDefaults (d_Budget d)) started) now) 0) as [Hlate|Hintime].
  { apply Hfail; [done|]. by exists (Some key), (Some now), t. }
  apply watched_call.
  { exists dec, claim, key, now, started. cbn. repeat (split; [done|]). split; [unfold Sub, MinInt64, MaxInt64 in Hintime; lia|]. done. }
  intros [[h created]|]; [|cbn; split; [right; split; [done|]; split; [by rewrite Hr|done]|auto 10]].
  apply watched_call; [done|]. intros []; cbn [next].
  { cbn. split; [right; split; [done|]; split; [by rewrite Hr|]; intros; right; by destruct (v_told v), t|auto 10]. }
  destruct Hprep as [Ho1 Ho2]. apply watched_call.
  { eexists dec, _, h, created. cbn. repeat (split; [done|]). split; [congruence|]. split; [congruence|]. done. }
  intros [[]|e].
  - cbn [next]. set (v5 := after_put _ _).
    eapply (watched_bind _ _ _ (λ _ v', quiet v5 v')).
    { destruct (String.eqb agent pipelineAgent); [|destruct (String.eqb agent pipefixAgent)].
      1,2: apply pipeline_notice; cbn; by rewrite orb_true_r.
      apply watched_when; [|by auto]. intros _. apply running_notice. cbn. by rewrite orb_true_r. }
    intros [] v6 (c6 & b6 & ->). cbn. split; [by left|]. do 4 (split; [done|]). by intros ->.
  - cbn [next]. set (v5 := after_put _ _).
    eapply (watched_bind _ _ _ (λ _ v', v_session v' = v_session v5 ∧ v_running v' = Some false ∧ v_held v' = v_held v ∧ v_started v' = true ∧
      (created = true → v_stopped v' = true ∨ v_told v' = true) ∧
      (v_on v', v_asked v', v_dec v', v_claim v', v_failed v') = (v_on v, v_asked v, v_dec v, v_claim v, v_failed v5))).
    { apply watched_when; [intros ->|by intros ->].
      apply watched_unless_terminated; [apply watched_call; [by eexists|intros b]|]; cbn.
      - repeat (split; [by auto|]). done.
      - do 4 (split; [done|]). split; [|done]. intros _. right. by destruct (v_told v), t. }
    intros [] v6 (E1 & E2 & E3 & E4 & E5 & E6). cbn. split; [|split; [congruence|]].
    + right. split; [done|]. rewrite E1, E2. split; [done|]. cbn. intros spec h' [= <- <- ->]. auto.
    + injection E6 as -> -> -> -> ->. split; [done|]. split; [done|]. split; [congruence|]. cbn. by intros ->.
Qed.

(** ** The dispatch *)

(** What is left behind. *)
Definition finished (code : Z) (v : view) : Prop :=
  (code = 0 ∨ code = 1 ∨ code = 2 ∧ v_wrote v = false) ∧
  (v_running v = Some true → code = 0) ∧
  (v_started v = true → v_running v = Some true ∨ code = 1) ∧
  (∀ spec h, v_session v = Some (spec, h, true) → v_running v = Some true ∨ v_stopped v = true ∨ v_told v = true) ∧
  (v_failed v = false → v_held v = None ∨ v_told v = true) ∧
  (∀ dec, run_answer v dec → code = 0 →
     v_running v = Some true ∨ has_session_for v dec ∨ ∃ f, v_on v = Some (Ok (Some f)) ∧ capped f dec).

(** Before anything is reserved. *)
Definition unspent (v : view) : Prop :=
  v_held v = None ∧ v_claim v = None ∧ v_started v = false ∧ v_session v = None ∧ v_running v = None ∧ v_stopped v = false.

Lemma finished_unspent code v : unspent v → (code = 0 ∨ code = 1 ∨ code = 2 ∧ v_wrote v = false) →
  (∀ dec, run_answer v dec → code = 0 → has_session_for v dec ∨ ∃ f, v_on v = Some (Ok (Some f)) ∧ capped f dec) →
  finished code v.
Proof. intros (U1 & U2 & U3 & U4 & U5 & U6) Hc Hr. unfold finished. rewrite U1, U3, U4, U5. repeat (split; [by auto|]). naive_solver. Qed.

Lemma Name_nonempty agent projID kind iid attempt : Name agent projID kind iid attempt ≠ "".
Proof.
  unfold Name. cbv zeta. destruct (ValidName _); [|done]. by destruct (strip_trailing hyphen _).
Qed.

Lemma session_name_nonempty agent base attempt : session_name agent a base attempt ≠ "".
Proof. unfold session_name. repeat destruct (String.eqb _ _); apply Name_nonempty. Qed.

Lemma watched_pack_env agent v : watched (packAgentEnv agent) v (λ _ v', v' = v).
Proof. by split. Qed.

Lemma watched_broker agent dec on base run v :
  run_answer v dec → v_on v = Some on → unspent v → v_wrote v = false →
  w_BeadAnchor base = anchor → w_Attempt base = Meterapi.Attempt dec → w_UpdatedAt base = 0 → w_State base = StateNone →
  w_ReservationID base = "" → ¬ capped base dec → (agent = pipefixAgent → d_PrepareFix d = true) →
  watched (runBrokerDispatch d agent dec base run) v finished.
Proof.
  intros Hd Ho Hun Hw Ha Hat Hup Hst Hrid Hcap Hp. unfold runBrokerDispatch.
  eapply (watched_bind _ _ _ (λ t v', quiet v v' ∧ (d_StartedAt d ≠ 0 → t = d_StartedAt d))).
  { unfold IsZero. destruct (Z.eqb_spec (d_StartedAt d) 0); [|by split].
    apply watched_call; [done|]. intros now. cbn. split; [auto|done]. }
  intros started v1 [(c1 & b1 & ->) Hstart].
  eapply watched_bind; [apply watched_pack_env|]. intros [packEnv|] v' ->.
  2:{ apply finished_unspent; [done|auto|]. done. }
  destruct Hun as (Hh & Hcl & Hs & Hse & Hr & Hsto).
  set (name := session_name agent (d_Args d) base (Meterapi.Attempt dec)).
  set (v1 := mkView _ _ _ _ _ _ _ _ _ _ _ _ _ _ _ _ _).
  eapply watched_bind.
  { apply (watched_reserve _ v1 dec on); try done. apply session_name_nonempty. }
  intros out v2 [[E1 E2] Hres]. cbn in E1, E2.
  injection E1 as Eon Easked Edec. injection E2 as Est Ese Eru Esto.
  assert (run_answer v2 dec) as Hd2 by (unfold run_answer in *; by rewrite Edec).
  destruct out as [res|code].
  2:{ destruct Hres as [Hh2 Hc]. cbn. split; [tauto|]. rewrite Eru, Est, Ese, Hr, Hs, Hse.
      repeat (split; [by auto|]). intros dec' [Hd' _] ->. destruct Hd2 as [Hd2 _]. assert (dec' = dec) as -> by congruence.
      destruct Hc as [[_ Hc]|]; [by right; left|done]. }
  assert (v_claim v2 = Some (pending_record base name dec) ∧ (v_failed v2 = false → v_held v2 ≠ None) ∧
    (holding res = true → v_landed v2 = true) ∧ (holding res = false → v_failed v2 = true) ∧
    ∀ v3, v_held v3 = v_held v2 → v_claim v3 = v_claim v2 → (v_failed v2 = true → v_failed v3 = true) →
       releasable v3 res) as (Hcl2 & Hheld & Hland & Hunk & Hrel).
  { destruct res as [|rev rel|rel claim]; cbn in Hres |- *.
    - destruct Hres as (? & ? & ->). done.
    - destruct Hres as (? & ? & prior & Hprior & ->). rewrite Hprior. do 4 (split; [done|]).
      intros v3 -> _ _. exists prior. split; [done|]. destruct prior as [p|]; [done|]. cbn. auto.
    - destruct Hres as (Hc & Hhe & Hf & ->). rewrite Hf. do 4 (split; [done|]). intros v3 -> -> Hf3. auto. }
  eapply watched_bind.
  { change (match res with reservationHeld _ _ => true | _ => false end) with (holding res).
    apply (watched_session agent name dec base run packEnv started (holding res) v2 (pending_record base name dec) (v_held v2)); try done; congruence. }
  intros [code scope] v3 (Hout & Hh3 & Hsc & E3 & Hst3 & Hf3). injection E3 as Eon3 Easked3 Edec3 Ecl3.
  assert (v_on v3 = Some on) as Hon3 by congruence.
  assert (run_answer v3 dec) as Hd3 by (unfold run_answer in *; by rewrite Edec3).
  destruct Hout as [(-> & Hr3 & Hh3')|(-> & Hr3 & Hstop)].
  { cbn. assert (scope = false) as -> by (destruct scope; [naive_solver|done]). cbn.
    split; [by left|]. rewrite Hr3. repeat (split; [by auto|]). auto. }
  specialize (Hh3 eq_refl).
  eapply (watched_bind _ _ _ (λ _ v4, same_session v3 v4 ∧ (v_told v3 = true → v_told v4 = true) ∧
    (v_told v4 = false → v_failed v4 = false → v_held v4 = None))).
  { apply watched_when.
    - intros _. apply watched_unless_terminated; [|cbn; split; [done|]; split; [by intros ->|]; by rewrite orb_true_r].
      eapply wp_mono; [apply (watched_release _ _ on); [done|done|by apply Hrel|]|].
      + intros Hn. by apply Hf3, Hunk.
      + intros [] v4 (Hs4 & Ht4 & Hh4). split; [exact Hs4|]. split; [rewrite Ht4; cbn; by intros ->|]. auto.
    - destruct res; [|done..]. intros _. split; [done|]. split; [done|]. intros _. by rewrite (Hf3 (Hunk eq_refl)). }
  intros [] v4 (Hs4 & Ht4 & Hh4). destruct (Hs4) as [E1 E2]. injection E1 as Eon4 Easked4 Edec4.
  injection E2 as Est4 Ese4 Eru4 Esto4.
  eapply (watched_bind _ _ _ (λ _ v5, same_session v4 v5 ∧ (v_told v4 = true → v_told v5 = true) ∧
    (v_failed v5 = false → v_held v5 = None ∨ v_told v5 = true))).
  { apply watched_when.
    - intros Hscope. destruct (Hsc Hscope) as [Hst1 _].
      apply watched_unless_told; [|cbn; split; [done|]; split; [by intros ->|]; by rewrite orb_true_r; auto].
      intros Htold. eapply wp_mono; [apply (watched_settle base dec run _ on)|].
      + by rewrite <- Hon3.
      + unfold run_answer in *. cbn. by rewrite Edec4.
      + cbn. auto.
      + cbn. congruence.
      + intros [] v5 [Hs5 Hh5]. split; [exact Hs5|]. split; [by rewrite Htold|]. auto.
    - intros _. split; [done|]. split; [done|]. intros Hf. destruct (v_told v4); auto. }
  intros [] v5 (Hs5 & Ht5 & Hh5). destruct Hs5 as [E1 E2]. injection E1 as Eon5 Easked5 Edec5.
  injection E2 as Est5 Ese5 Eru5 Esto5. cbn.
  split; [auto|]. rewrite Eru5, Eru4, Est5, Est4, Ese5, Ese4, Esto5, Esto4.
  split; [done|]. split; [auto|]. split; [|split; [exact Hh5|done]].
  intros spec h Hspec. destruct (Hstop spec h Hspec); auto.
Qed.

Lemma dispatch_base_fields decided dec :
  let base := dispatch_base a decided dec in
  w_BeadAnchor base = anchor ∧ w_Attempt base = Meterapi.Attempt dec ∧ w_UpdatedAt base = 0 ∧ w_State base = StateNone ∧
  w_ReservationID base = "" ∧
  w_PipelineFix base =
    if String.eqb (a_Trigger a) TriggerPipelineFix then w_PipelineFix (decided_rec decided) else PipelineFix_zero.
Proof.
  cbv zeta. unfold dispatch_base.
  set (b0 := base_record a (Meterapi.Attempt dec)).
  set (b1 := if String.eqb (a_Trigger a) TriggerPipelineDiagnosis then _ else b0).
  assert (∀ b, (b = b0 ∨ b = setPipelineIdentity b0 a decided) → w_BeadAnchor b = anchor ∧ w_Attempt b = Meterapi.Attempt dec ∧
    w_UpdatedAt b = 0 ∧ w_State b = StateNone ∧ w_ReservationID b = "" ∧ w_PipelineFix b = PipelineFix_zero) as Hb.
  { intros b [->| ->]; [done|]. unfold setPipelineIdentity. destruct decided as [[prior|]|]; [destruct (_ && _)|..]; done. }
  specialize (Hb b1). assert (b1 = b0 ∨ b1 = setPipelineIdentity b0 a decided) as Hb1 by (subst b1; destruct (String.eqb _ _); auto).
  specialize (Hb Hb1). clearbody b1. clear Hb1 b0.
  assert (∀ b c, carryRetryFeedback b c = b ∨ ∃ f, carryRetryFeedback b c = set_w_RetryFeedback f b) as Hcarry.
  { intros b [[prior|]|]; cbn; auto. destruct (String.eqb _ _); eauto. }
  set (b2 := if String.eqb (a_Trigger a) TriggerPipelineFix then _ else b1).
  assert (w_BeadAnchor b2 = anchor ∧ w_Attempt b2 = Meterapi.Attempt dec ∧ w_UpdatedAt b2 = 0 ∧ w_State b2 = StateNone ∧
    w_ReservationID b2 = "" ∧ w_PipelineFix b2 =
      if String.eqb (a_Trigger a) TriggerPipelineFix then w_PipelineFix (decided_rec decided) else PipelineFix_zero) as H2.
  { subst b2. destruct (String.eqb _ _); [|exact Hb]. destruct Hb as (? & ? & ? & ? & ? & ?). done. }
  clearbody b2. destruct (agentForTrigger _) as [agent|]; [|exact H2]. destruct (_ || _); [|exact H2].
  destruct (Hcarry b2 decided) as [->|[f ->]]; exact H2.
Qed.

Lemma watched_checks v :
  watched (dispatch_checks d) v (λ out v', quiet v v' ∧
    match out with Ok agent => agent = pipefixAgent → d_PrepareFix d = true | Err c => c = 0 ∨ c = 2 end).
Proof.
  unfold dispatch_checks.
  eapply (watched_bind _ _ _ (λ late v', quiet v v' ∧ ∀ c, late = Some c → c = 0 ∨ c = 2)).
  { destruct (String.eqb _ _); [cbn; split; [auto|done]|]. apply watched_call; [done|]. intros now. cbn. split; [auto|].
    unfold refuseLateFire. destruct (String.eqb _ _); [done|]. destruct (ParseRFC3339Nano _); [|naive_solver].
    destruct (After _ _); naive_solver. }
  intros [c|] v1 [Hq Hc]; [cbn; auto|]. destruct (String.eqb_spec (a_Trigger (d_Args d)) TriggerPipelineFix) as [E|E].
  - destruct (d_PrepareFix d) eqn:Hp; [|cbn; auto]. destruct (negb _); [cbn; auto|].
    destruct (_ && _); [cbn; auto|]. destruct (isSome _); [cbn; auto|].
    eapply watched_bind; [apply watched_pack_env|]. intros env v' ->. destruct (isSome env); cbn; auto.
  - destruct (agentForTrigger _) as [agent|] eqn:Hag; [|cbn; auto]. destruct (negb _); [cbn; auto|].
    destruct (_ && _); cbn; [auto|]. split; [done|]. intros ->. exfalso.
    unfold agentForTrigger in Hag. repeat (destruct (String.eqb _ _) eqn:? in Hag; [try discriminate Hag|]); try discriminate Hag.
    by apply E, String.eqb_eq.
Qed.

Lemma watched_dispatch_decided agent decided run dec v :
  v_dec v = Some dec → v_on v = Some decided → unspent v → v_wrote v = false → (agent = pipefixAgent → d_PrepareFix d = true) →
  watched (dispatch_decided d agent decided run dec) v finished.
Proof.
  intros Hd Ho Hun Hw Hp. unfold dispatch_decided.
  destruct (dispatch_base_fields decided dec) as (Ha & Hat & Hup & Hst & Hrid & Hfix).
  set (base := dispatch_base a decided dec) in *. change (dispatch_base (d_Args d) decided dec) with base.
  assert (∀ (r : WorkItem) (R : Prog Z), w_BeadAnchor r = anchor → w_ReservationID r = "" →
    (Meterapi.Decision dec = Meterapi.DecisionDefer ∧ w_State r = StateParked ∧ w_RetryAfter r = Meterapi.RetryAfter dec ∨
     Meterapi.Decision dec = Meterapi.DecisionDeny ∧ w_State r = StateNeedsHuman ∨
     Meterapi.Decision dec = Meterapi.DecisionRun ∧ w_State r = StateNeedsHuman ∧ ∃ f, decided = Ok (Some f) ∧ capped f dec) →
    (∀ v', kept v v' → v_landed v' = true → watched R v' (λ c v', c = 0 ∧ kept v v')) →
    watched (w ← writeDecided d r decided; match w with Some code => Ret code | None => R end) v finished) as Hwrite.
  { intros r R Hra Hri Hk HR. destruct Hun as (U1 & U2 & U3 & U4 & U5 & U6).
    assert (∀ v', kept v v' → unspent v' ∧ (∀ dec', run_answer v' dec' → ∃ f, v_on v' = Some (Ok (Some f)) ∧ capped f dec')) as Hend.
    { intros v' [E1 E2]. injection E1 as E11 E12 E13 E14 E15. injection E2 as E21 E22 E23 E24.
      split; [unfold unspent; repeat split; congruence|]. intros dec' [Hd' Hrun].
      assert (dec' = dec) as -> by congruence. destruct Hk as [[Hk _]|[[Hk _]|(_ & _ & f & -> & Hcap)]]; [by rewrite Hk in Hrun..|].
      exists f. split; [exact (eq_trans E11 Ho)|done]. }
    eapply watched_bind; [apply (watched_decided maxDecidedRetries v r decided dec); try done; by left|].
    intros out v' (Hkept & Hl & Hc). destruct out as [c|].
    - cbn. destruct (Hend v' Hkept) as [Hu Hr]. apply finished_unspent; [done|destruct (Hc c eq_refl); auto|]. intros dec' Hd' _. right. by apply Hr.
    - eapply wp_mono; [by apply HR, Hl|]. intros c v'' [-> Hkept']. destruct (Hend v'' Hkept') as [Hu Hr].
      apply finished_unspent; [done|by auto|]. intros dec' Hd' _. right. by apply Hr. }
  assert (∀ (P : Prog unit) v', watched P v' (λ _ v'', quiet v' v'') → kept v v' →
    watched (_ ← P; Ret 0) v' (λ c v'', c = 0 ∧ kept v v'')) as Hnote.
  { intros P v' HP Hk. eapply watched_bind; [exact HP|]. intros ? v'' Hq. cbn. split; [done|].
    eapply kept_trans; [exact Hk|by apply quiet_kept]. }
  destruct (String.eqb_spec (Meterapi.Decision dec) Meterapi.DecisionDefer) as [Hdec|Hdefer].
  { apply Hwrite; [done|done|by left|]. intros v' Hk Hl. apply Hnote; [|done].
    destruct (String.eqb _ _); [apply quiet_refl|]. destruct (negb (_ =? 0)); [by apply pipeline_notice|by apply issue_notice]. }
  destruct (String.eqb_spec (Meterapi.Decision dec) Meterapi.DecisionDeny) as [Hdec|Hdeny].
  { apply Hwrite; [done|done|by right; left|]. intros v' Hk Hl. apply Hnote; [|done].
    destruct (String.eqb _ _); [by apply pipeline_notice|]. destruct (negb (_ =? 0)); [by apply pipeline_notice|by apply issue_notice]. }
  destruct (String.eqb_spec (Meterapi.Decision dec) Meterapi.DecisionRun) as [Hdec|Hnrun].
  2:{ cbn. apply finished_unspent; [done|auto|]. intros dec' [_ Hr] ?. done. }
  destruct (_ && _ && _) eqn:Hcap; change (d_Args d) with a in Hcap.
  - apply andb_prop in Hcap as [Hcap Hc2]. apply andb_prop in Hcap as [Ht Hc1]. rewrite Ht in Hfix.
    assert (∃ f, decided = Ok (Some f) ∧ capped f dec) as Hf.
    { unfold capped. rewrite Hfix in Hc1, Hc2. destruct decided as [[f|]|]; cbn in *; [exists f; split; [done|lia]|lia..]. }
    apply Hwrite; [done|done|by right; right|]. intros v' Hk Hl.
    destruct (Hk) as [E1 E2]. injection E1 as E11 E12 E13 E14 E15. injection E2 as E21 E22 E23 E24.
    eapply watched_bind; [apply watched_aborted; [by split; [congruence|]|done|]|].
    + destruct Hun as (_ & _ & U3 & _). congruence.
    + intros [] v'' ->. apply Hnote; [by apply pipeline_notice|done].
  - apply (watched_broker agent dec decided); try done.
    intros [Hc1 Hc2]. rewrite Hfix in *. destruct (String.eqb _ _); [|by cbn in Hc1]. cbn [andb] in Hcap. lia.
Qed.

(** Whatever the world answers, every operation of a dispatch is proper when it
    is done, and what it leaves behind is finished. *)
Lemma watched_dispatch : watched (runDispatch d) view0 finished.
Proof.
  unfold runDispatch. eapply watched_bind; [apply watched_checks|]. intros checked v1 [(c1 & b1 & ->) Hch].
  destruct checked as [agent|code].
  2:{ cbn. apply finished_unspent; [done|destruct Hch; auto|]. intros dec' [? _]. done. }
  apply watched_call; [done|]. intros decided. cbn [next]. rewrite String.eqb_refl.
  set (v2 := after_get decided _).
  eapply (watched_bind _ _ _ (λ out v', kept v2 v' ∧ match out with Ok _ => v_wrote v' = false | Err c => c = 0 ∨ c = 1 ∨ c = 2 ∧ v_wrote v' = false end)).
  { destruct (String.eqb _ _); [|by split].
    eapply wp_mono; [apply (watched_preflight decided); try done|].
    - intros p Hp. subst v2. cbn. rewrite Hp. left.
    - intros out v' (Hk & _ & Hout). split; [done|]. by destruct out. }
  intros out v3 [[E1 E2] Hout]. cbn in E1, E2.
  injection E1 as E11 E12 E13 E14 E15. injection E2 as E21 E22 E23 E24.
  destruct out as [run|code].
  2:{ cbn. apply finished_unspent; [done|done|]. intros dec' [? _]. congruence. }
  apply watched_call; [split; [exact E12|split; [exact E21|split; [by rewrite E11|done]]]|]. intros [dec|]; cbn [next].
  - by apply watched_dispatch_decided.
  - cbn. apply finished_unspent; [done|auto|]. intros dec' [? _]. done.
Qed.

(** C4. Whatever meter, the store, GitLab and the session runtime answer, every
    operation of a dispatch is proper when it is done ([proper]): meter is asked at
    most once, after the record was read; a session is started at most once, only
    on meter's answer to run, after a reservation of the record under the session's
    name, with that answer's key, tags and deadline, and while there is time left to
    record it; every conditional write is a reservation of a record without a
    session for the attempt, a release of its own reservation that puts back what it
    replaced, or a park, denial or fix record over what was read; the running record
    is written only for the started session; only a session this dispatch created,
    and whose record could not be written, is stopped; and a note comes after the
    write it reports. And it ends in order ([finished]): code 2 has written nothing,
    a session it created is recorded, stopped, or left to a process told to stop,
    and code 0 after an answer to run means that the session runs, that the attempt
    had one, or that the fix is at its cap. *)
Theorem dispatch_proper tr code :
  runs (runDispatch d) tr code → honest_run (@heard) (@next) view0 tr →
  finished code (play (@next) view0 tr) ∧
  ∀ pre B (op : Op B) b post, tr = pre ++ Ev op b :: post → proper op (play (@next) view0 pre).
Proof.
  intros Hr Hh. destruct (wp_runs _ _ _ _ _ _ _ _ watched_dispatch Hr Hh) as [HQ Ha]. split; [done|].
  intros pre B op b post ->. by apply (allowed_run_split (@proper) (@next) view0 pre (Ev op b) post).
Qed.
End watched.
