(* ===== verification/DispatchRace.v ===== *)
(** * [cmd/gonk-gate]: dispatches of one work item at once

    Any number of dispatches of a work item run interleaved, operation by
    operation, with gonk-meter, the sweep, other writers of the store and the
    clock. A dispatch that reserved the item's record writes the running record
    without a condition; what makes that safe is shown here, and of what it
    depends. *)

From S2P Require Import Prelude.
From S2P Require Import GoStrings.
From S2P Require Import GoTime.
From S2P Require Import RungOutcome.
From S2P Require Import WorkStore.
From S2P Require Import GateProgs.
From S2P Require Import SessionName.
From S2P Require Import DispatchArgs.
From S2P Require Import Dispatch.
From S2P Require Import DispatchWatch.

(** ** The world *)

(** The store, every version of the item's record ever stored, the clock, meter's
    open reservation for the item (its attempt and its id) and all ids given out. *)
Record env := mkEnv {
  e_store : Memory; e_log : gmap string WorkItem; e_clock : Time; e_open : option (Z * string); e_minted : gset string }.
Record thread := mkThread { th_deps : dispatchDeps; th_prog : Prog Z; th_view : view; th_start : Time }.
Record world := mkWorld { w_env : env; w_threads : gmap nat thread }.

(** [sweep.go] *)
Definition pendingPromptGrace : Duration := dispatchOrderTimeout.

(** The order's timeout ends a dispatch. *)
Definition alive (e : env) (t : thread) : Prop := (e_clock e < th_start t + dispatchOrderTimeout)%Z.
(** It has not returned, and its running record is not written. *)
Definition busy (t : thread) : Prop := (∀ c, th_prog t ≠ Ret c) ∧ v_running (th_view t) ≠ Some true.

Section race.
Context `{PromptTexts} `{GoUnicode} `{GoTimeText} (anchor : string).

Definition stored (r : WorkItem) (rev : string) (m : Memory) (e : env) : env :=
  mkEnv m (if String.eqb (w_BeadAnchor r) anchor then <[rev := stampWrite r (e_clock e) rev]> (e_log e) else e_log e)
    (e_clock e) (e_open e) (e_minted e).
Definition with_clock (t : Time) (e : env) : env := mkEnv (e_store e) (e_log e) t (e_open e) (e_minted e).
Definition with_open (o : option (Z * string)) (ids : gset string) (e : env) : env :=
  mkEnv (e_store e) (e_log e) (e_clock e) o (e_minted e ∪ ids).

Definition unused (e : env) (rev : string) : Prop := (rev ∉ dom (e_log e)) ∧ rev ≠ "".

(** What neither the store nor meter nor the clock answers. *)
Definition elsewhere {B : Type} (op : Op B) : bool :=
  match op with OGet _ | OPut _ | OPutIf _ _ | OList _ | ONow | ODecide _ => false | _ => true end.

(** The store does not fail. Meter answers with the open reservation while there
    is one; otherwise it refuses, or opens one under a new id. *)
Inductive answers (e : env) : ∀ B : Type, Op B → B → env → Prop :=
| answers_get k : answers e _ (OGet k) (Ok (Get (e_store e) k)) e
| answers_put r rev : unused e rev → answers e _ (OPut r) (Ok tt) (stored r rev (Put (e_store e) (e_clock e) rev r) e)
| answers_putif r i rev rev' m : unused e rev → PutIf (e_store e) (e_clock e) rev r i = (Ok rev', m) →
    answers e _ (OPutIf r i) (Ok rev') (stored r rev m e)
| answers_stale r i rev m : PutIf (e_store e) (e_clock e) rev r i = (Err ErrStale, m) → answers e _ (OPutIf r i) (Err ErrStale) e
| answers_now : answers e _ ONow (e_clock e) e
| answers_nothing q : answers e _ (ODecide q) None e
| answers_again q dec : Meterapi.Decision dec = Meterapi.DecisionRun →
    e_open e = Some (Meterapi.Attempt dec, Meterapi.ReservationID dec) → answers e _ (ODecide q) (Some dec) e
| answers_refused q dec : Meterapi.Decision dec ≠ Meterapi.DecisionRun → e_open e = None → answers e _ (ODecide q) (Some dec) e
| answers_run q dec : Meterapi.Decision dec = Meterapi.DecisionRun → e_open e = None →
    Meterapi.ReservationID dec ∉ e_minted e → Meterapi.ReservationID dec ≠ "" →
    answers e _ (ODecide q) (Some dec) (with_open (Some (Meterapi.Attempt dec, Meterapi.ReservationID dec)) {[Meterapi.ReservationID dec]} e)
| answers_elsewhere B (op : Op B) b : elsewhere op = true → answers e _ op b e.

(** A dispatch in progress was answered with the reservation. *)
Definition given (e : env) (ts : gmap nat thread) (id : string) : Prop :=
  ∃ i t dec, ts !! i = Some t ∧ alive e t ∧ busy t ∧ run_answer (th_view t) dec ∧ Meterapi.ReservationID dec = id.

(** Meter closes a reservation; when [strict], not under a dispatch in progress
    that was answered with it. The sweep writes over a record it read: one that is
    no reservation, or a reservation older than the grace. *)
Inductive step (strict : bool) : world → world → Prop :=
| step_op i t B (op : Op B) k b e e' ts : ts !! i = Some t → alive e t → th_prog t = Do op k →
    heard op b (th_view t) → answers e B op b e' →
    step strict (mkWorld e ts)
      (mkWorld e' (<[i := mkThread (th_deps t) (k b) (next (th_deps t) op b (th_view t)) (th_start t)]> ts))
| step_tick now e ts : e_clock e <= now → step strict (mkWorld e ts) (mkWorld (with_clock now e) ts)
| step_spawn i d e ts : ts !! i = None → a_BeadAnchor (d_Args d) = anchor →
    step strict (mkWorld e ts) (mkWorld e (<[i := mkThread d (runDispatch d) view0 (e_clock e)]> ts))
| step_close n id e ts : e_open e = Some (n, id) → (strict = true → ¬ given e ts id) →
    step strict (mkWorld e ts) (mkWorld (with_open None ∅ e) ts)
| step_sweep read r rev rev' m e ts : unused e rev →
    (∀ p, read = Some p → e_log e !! w_Revision p = Some p ∧
       (w_State p = StatePendingPrompt → w_UpdatedAt p + pendingPromptGrace <= e_clock e)) →
    w_BeadAnchor r = anchor → w_State r ≠ StatePendingPrompt → (w_ReservationID r = "" ∨ w_ReservationID r ∈ e_minted e) →
    PutIf (e_store e) (e_clock e) rev r (revision_of read) = (Ok rev', m) →
    step strict (mkWorld e ts) (mkWorld (stored r rev m e) ts)
| step_others r rev e ts : w_BeadAnchor r ≠ anchor →
    step strict (mkWorld e ts) (mkWorld (stored r rev (Put (e_store e) (e_clock e) rev r) e) ts).

Inductive reachable (strict : bool) : world → Prop :=
| reachable_start now o open_ ids m : m !! anchor = o →
    (∀ r, o = Some r → w_Revision r ≠ "" ∧ w_BeadAnchor r = anchor ∧ (w_ReservationID r = "" ∨ w_ReservationID r ∈ ids)) →
    (∀ n id, open_ = Some (n, id) → id ∈ ids ∧ id ≠ "") →
    reachable strict (mkWorld (mkEnv (mkMemory m) (match o with Some r => {[w_Revision r := r]} | None => ∅ end) now open_ ids) ∅)
| reachable_step w w' : reachable strict w → step strict w w' → reachable strict w'.

(** ** The invariant *)

Definition log_ok (e : env) : Prop :=
  (∀ c, Get (e_store e) anchor = Some c → e_log e !! w_Revision c = Some c) ∧
  (∀ rev c, e_log e !! rev = Some c → w_Revision c = rev ∧ rev ≠ "" ∧ w_BeadAnchor c = anchor ∧
     (w_ReservationID c = "" ∨ w_ReservationID c ∈ e_minted e)) ∧
  (∀ n id, e_open e = Some (n, id) → id ∈ e_minted e ∧ id ≠ "").

(** What a dispatch was told of the record was stored once. *)
Definition known (e : env) (v : view) : Prop :=
  v_failed v = false ∧
  (∀ p, p ∈ v_seen v → e_log e !! w_Revision p = Some p) ∧
  (∀ o, v_get v = Some o → ∃ x, o = Ok x ∧ ∀ p, x = Some p → p ∈ v_seen v) ∧
  (∀ o, v_on v = Some o → ∃ x, o = Ok x ∧ ∀ p, x = Some p → p ∈ v_seen v) ∧
  (∀ rev p, v_held v = Some (rev, Some p) → p ∈ v_seen v) ∧
  (v_session v ≠ None → v_started v = true) ∧ (v_running v ≠ None → v_session v ≠ None) ∧
  (v_dec v ≠ None → v_asked v = true ∧ v_on v ≠ None).

(** It holds the record: its reservation is what the store has. *)
Definition holds (e : env) (t : thread) (rev : string) : Prop :=
  ∃ c dec, run_answer (th_view t) dec ∧ Get (e_store e) anchor = Some c ∧ w_Revision c = rev ∧
    w_State c = StatePendingPrompt ∧ w_Attempt c = Meterapi.Attempt dec ∧ w_ReservationID c = Meterapi.ReservationID dec ∧
    w_SessionID c ≠ "" ∧ ¬ capped c dec ∧ th_start t <= w_UpdatedAt c.

Definition thread_ok (e : env) (t : thread) : Prop :=
  a_BeadAnchor (d_Args (th_deps t)) = anchor ∧
  wp (λ B op v, proper (th_deps t) op v) (@heard) (λ B op b v, next (th_deps t) op b v) (th_prog t) (th_view t) finished ∧
  known e (th_view t) ∧ th_start t <= e_clock e ∧
  (alive e t → busy t → ∀ dec, run_answer (th_view t) dec → e_open e = Some (Meterapi.Attempt dec, Meterapi.ReservationID dec)) ∧
  (∀ dec n id p, v_dec (th_view t) = Some dec → Meterapi.Decision dec ≠ Meterapi.DecisionRun → e_open e = Some (n, id) →
     v_on (th_view t) = Some (Ok (Some p)) → w_ReservationID p ≠ id) ∧
  (alive e t → busy t → ∀ rev prior, v_held (th_view t) = Some (rev, prior) → holds e t rev).

Definition holder (e : env) (t : thread) : Prop := alive e t ∧ busy t ∧ v_held (th_view t) ≠ None.

Definition inv (w : world) : Prop :=
  log_ok (w_env w) ∧ (∀ i t, w_threads w !! i = Some t → thread_ok (w_env w) t) ∧
  (∀ i j t u, w_threads w !! i = Some t → w_threads w !! j = Some u → holder (w_env w) t → holder (w_env w) u → i = j).

Lemma PutIf_ok m now rev r i rev' m' : PutIf m now rev r i = (Ok rev', m') →
  rev' = rev ∧ i = revision_of (Get m (w_BeadAnchor r)) ∧ m' = Put m now rev r.
Proof.
  unfold PutIf, Put, Get. destruct (String.eqb_spec (revision_of (recs m !! w_BeadAnchor r)) i) as [<-|]; cbn [negb]; [|done].
  change (w_Revision (stampWrite r now rev)) with rev. by intros [= <- <-].
Qed.

Lemma Get_Put m now rev r k :
  Get (Put m now rev r) k = if String.eqb (w_BeadAnchor r) k then Some (stampWrite r now rev) else Get m k.
Proof. unfold Get, Put. cbn. destruct (String.eqb_spec (w_BeadAnchor r) k) as [<-|]; by simplify_map_eq. Qed.

Lemma content_fields x y : sameRecordContent x y = true →
  w_ReservationID x = w_ReservationID y ∧ w_PipelineFix x = w_PipelineFix y.
Proof. unfold sameRecordContent. intros E%bool_decide_eq_true. by inversion E. Qed.

(** The record stored now is the one any reader of its revision has. *)
Lemma current_read e c p : log_ok e → Get (e_store e) anchor = Some c → w_Revision c = w_Revision p →
  e_log e !! w_Revision p = Some p → p = c.
Proof. intros (L1 & _) Hc Hr Hp. specialize (L1 c Hc). rewrite Hr in L1. congruence. Qed.

(** A write that is proper does not succeed over the reservation of another
    dispatch in progress. *)
Lemma no_overwrite e t u r i : log_ok e → thread_ok e t → thread_ok e u → holder e t → alive e u → busy u →
  proper_reserve (th_deps u) (th_view u) r i ∨ proper_release (th_deps u) (th_view u) r i ∨ unconfirmed_release (th_view u) r i ∨
  proper_decided (th_deps u) (th_view u) r i ∨ proper_fix_write (th_view u) r i →
  i = revision_of (Get (e_store e) anchor) → holder e u.
Proof.
  intros HL Ht Hu (Hat & Hbt & Hht) Hau Hbu Hp Hi.
  destruct (v_held (th_view t)) as [[rev prior]|] eqn:Hheld; [|done].
  destruct Ht as (_ & _ & _ & _ & T2 & _ & T4).
  destruct (T4 Hat Hbt rev prior Hheld) as (c & dec & Hrun & Hc & Hrev & Hst & Hatt & Hres & Hses & Hcap & _).
  specialize (T2 Hat Hbt dec Hrun).
  destruct Hu as (_ & _ & (Hf & Hseen & Hget & Hon & _) & _ & U2 & U3 & _).
  rewrite Hc in Hi. change (revision_of (Some c)) with (w_Revision c) in Hi.
  assert (i ≠ "") as Hne by (subst i; apply (proj1 (proj2 HL) _ c (proj1 HL c Hc))).
  assert (∀ p, p ∈ v_seen (th_view u) → i = w_Revision p → p = c) as Hread.
  { intros p Hp' E. eapply current_read; [exact HL|exact Hc|congruence|by apply Hseen]. }
  destruct Hp as [Hp|[Hp|[Hp|[Hp|Hp]]]].
  - exfalso. destruct Hp as (du & Hdu & _ & _ & _ & _ & _ & _ & _ & _ & _ & Hg).
    specialize (U2 Hau Hbu du Hdu). destruct (v_get (th_view u)) as [o|] eqn:Hgu; [|done].
    destruct (Hget o eq_refl) as (x & -> & Hx). destruct Hg as [Hix Hguard].
    destruct x as [p|]; [|done]. assert (p = c) as -> by (apply Hread; [by apply Hx|done]).
    destruct (Hguard c eq_refl); [done|]. congruence.
  - destruct Hp as (pr & Hh & _). split; [done|]. split; [done|]. by rewrite Hh.
  - destruct Hp as (Hf' & _). congruence.
  - exfalso. destruct Hp as (du & on & Hdu & Hon' & _ & _ & _ & _ & _ & Hkind & Hwhich).
    destruct (Hon on Hon') as (x & -> & Hx).
    assert (∃ q, x = Some q ∧ w_ReservationID q = w_ReservationID c ∧ w_PipelineFix q = w_PipelineFix c) as (q & -> & Hq1 & Hq2).
    { destruct Hwhich as [E|(cur & Hcur & E & Hsup)].
      - destruct x as [q|]; [|by subst i]. exists q. assert (q = c) as -> by (apply Hread; [by apply Hx|done]). done.
      - destruct (Hget _ Hcur) as (y & [= <-] & Hy). assert (cur = c) as -> by (apply Hread; [by apply Hy|done]).
        unfold supersededBy in Hsup. rewrite Hst in Hsup. destruct x as [q|]; [|done].
        apply negb_false_iff, content_fields in Hsup. eauto. }
    destruct Hkind as [(Hd & _)|[(Hd & _)|(Hd & _ & f & [= ->] & Hcf)]].
    1,2: assert (Meterapi.Decision du ≠ Meterapi.DecisionRun) as Hnr by (rewrite Hd; discriminate);
      apply (U3 du _ _ q Hdu Hnr T2 Hon'); congruence.
    specialize (U2 Hau Hbu du (conj Hdu Hd)). apply Hcap. unfold capped in *. rewrite <- Hq2. rewrite T2 in U2. injection U2 as -> _. done.
  - exfalso. destruct Hp as (_ & _ & p & Hpin & E & Hps & _). assert (p = c) as -> by (by apply Hread).
    destruct Hps; congruence.
Qed.

(** ** Its preservation *)

Definition later (e e' : env) : Prop :=
  (∀ rev c, e_log e !! rev = Some c → e_log e' !! rev = Some c) ∧ e_clock e <= e_clock e'.

Lemma alive_back e e' t : later e e' → alive e' t → alive e t.
Proof. unfold alive. intros [_ Hc] Ha. lia. Qed.
Lemma holder_back e e' t : later e e' → holder e' t → holder e t.
Proof. intros Hl (Ha & Hb & Hh). split; [by eapply alive_back|done]. Qed.

Lemma known_later e e' v : later e e' → known e v → known e' v.
Proof. intros [Hl _] (K1 & K2 & K3). split; [done|]. split; [|done]. intros p Hp. by apply Hl, K2. Qed.

(** What the other parties do. *)
Lemma thread_ok_later e e' t : later e e' → thread_ok e t →
  (∀ o, e_open e = Some o → alive e' t → busy t → ∀ dec, run_answer (th_view t) dec → Meterapi.ReservationID dec = o.2 → e_open e' = Some o) →
  (∀ n id p, e_open e' = Some (n, id) → e_log e !! w_Revision p = Some p → e_open e = Some (n, id) ∨ w_ReservationID p ≠ id) →
  (holder e' t → Get (e_store e') anchor = Get (e_store e) anchor) →
  thread_ok e' t.
Proof.
  intros Hl (T0 & Twp & Tk & Tc & T2 & T3 & T4) Ho Hm Hg. pose proof Tk as (_ & Hseen & _ & Hon & _).
  split; [done|]. split; [done|]. split; [by eapply known_later|]. split; [destruct Hl; lia|].
  split; [|split].
  - intros Ha Hb dec Hd. pose proof (T2 (alive_back _ _ _ Hl Ha) Hb dec Hd) as HT. by eapply Ho.
  - intros dec n id p Hd Hnr Hop Hp. destruct (Hon _ Hp) as (x & [= <-] & Hx).
    destruct (Hm n id p Hop (Hseen p (Hx p eq_refl))) as [Hop'|]; [|done]. by eapply T3.
  - intros Ha Hb rev prior Hh.
    destruct (T4 (alive_back _ _ _ Hl Ha) Hb rev prior Hh) as (c & dec & Hd & Hc & Hrest).
    exists c, dec. split; [done|]. split; [|done]. rewrite Hg; [done|]. split; [done|]. split; [done|]. congruence.
Qed.

Lemma stored_later r rev m e : unused e rev → later e (stored r rev m e).
Proof.
  intros [Hu _]. split; [|cbn; lia]. intros rev' c Hc. cbn. destruct (String.eqb _ _); [|done].
  rewrite lookup_insert_ne; [done|]. intros ->. apply Hu. by apply elem_of_dom_2 in Hc.
Qed.

Lemma stored_log_ok r rev e : unused e rev → log_ok e →
  (w_BeadAnchor r = anchor → w_ReservationID r = "" ∨ w_ReservationID r ∈ e_minted e) →
  log_ok (stored r rev (Put (e_store e) (e_clock e) rev r) e).
Proof.
  intros [Hu Hne] (L1 & L2 & L3) Hr. destruct (stampWrite_fields r (e_clock e) rev) as (F1 & F2 & _ & _ & _ & F6 & _).
  split; [|split; [|done]]; cbn [stored e_store e_log e_minted].
  - intros c. rewrite Get_Put. destruct (String.eqb_spec (w_BeadAnchor r) anchor) as [E|E].
    + intros [= <-]. rewrite F2. by simplify_map_eq.
    + apply L1.
  - intros rev' c. destruct (String.eqb_spec (w_BeadAnchor r) anchor) as [E|E]; [|apply L2].
    intros [[<- <-]|[_ Hc]]%lookup_insert_Some; [|by apply L2]. rewrite F1, F6. auto.
Qed.

(** Nobody else's reservation is gone after a write that replaced none. *)
Lemma stored_others r rev e t : unused e rev → thread_ok e t →
  (w_BeadAnchor r = anchor → ¬ holder e t) → thread_ok (stored r rev (Put (e_store e) (e_clock e) rev r) e) t.
Proof.
  intros Hu Ht Hn. pose proof (stored_later r rev (Put (e_store e) (e_clock e) rev r) e Hu) as Hl.
  apply (thread_ok_later e); [done|done|done|by left|]. intros Hh%(holder_back e _ _ Hl).
  cbn [stored e_store]. rewrite Get_Put. destruct (String.eqb_spec (w_BeadAnchor r) anchor) as [E|E]; [|done]. by destruct (Hn E).
Qed.

(** What a dispatch writes is the item's record, under a reservation meter knows. *)
Lemma write_fields e t r i : log_ok e → thread_ok e t → alive e t → busy t →
  proper_reserve (th_deps t) (th_view t) r i ∨ proper_release (th_deps t) (th_view t) r i ∨ unconfirmed_release (th_view t) r i ∨
  proper_decided (th_deps t) (th_view t) r i ∨ proper_fix_write (th_view t) r i →
  w_BeadAnchor r = anchor ∧ (w_ReservationID r = "" ∨ w_ReservationID r ∈ e_minted e).
Proof.
  intros HL (T0 & _ & (Hf & Hseen & _ & _ & Hheld & _) & _ & T2 & _) Ha Hb Hp. destruct HL as (_ & L2 & L3).
  assert (∀ p, p ∈ v_seen (th_view t) → w_BeadAnchor p = anchor ∧ (w_ReservationID p = "" ∨ w_ReservationID p ∈ e_minted e)) as Hlog.
  { intros p Hp'. destruct (L2 _ _ (Hseen p Hp')) as (_ & _ & H3 & H4). auto. }
  rewrite <- T0. destruct Hp as [Hp|[Hp|[Hp|[Hp|Hp]]]].
  - destruct Hp as (dec & Hd & _ & _ & _ & Han & _ & Hr & _). split; [done|]. right. rewrite Hr.
    by apply (L3 _ _ (T2 Ha Hb dec Hd)).
  - destruct Hp as ([p|] & Hh & _ & Hr).
    + subst r. rewrite T0. apply Hlog. by eapply Hheld.
    + destruct Hr as (_ & _ & ? & ?). auto.
  - destruct Hp as (Hf' & _). congruence.
  - destruct Hp as (dec & on & _ & _ & _ & _ & _ & ? & ? & _). auto.
  - destruct Hp as (_ & _ & p & Hin & _ & _ & _ & -> & ->). rewrite T0. by apply Hlog.
Qed.

Lemma put_fields e t r : log_ok e → thread_ok e t → alive e t → busy t → proper_put (th_deps t) (th_view t) r →
  w_BeadAnchor r = anchor ∧ (w_ReservationID r = "" ∨ w_ReservationID r ∈ e_minted e) ∧ holder e t.
Proof.
  intros HL (T0 & _ & (Hf & _) & _ & T2 & _) Ha Hb Hp. destruct HL as (_ & _ & L3).
  destruct Hp as (dec & spec & h & created & Hd & _ & _ & _ & _ & Han & _ & Hr & _ & Hheld).
  rewrite <- T0. split; [done|]. split; [right; rewrite Hr; by apply (L3 _ _ (T2 Ha Hb dec Hd))|]. split; [done|]. auto.
Qed.

(** One operation of one dispatch: what is left to show of its view, of the
    other dispatches and of the record. *)
Lemma op_ok e e' ts i d B (op : Op B) k b v st :
  inv (mkWorld e ts) → ts !! i = Some (mkThread d (Do op k) v st) → heard op b v →
  let t := mkThread d (Do op k) v st in let t' := mkThread d (k b) (next d op b v) st in
  (thread_ok e t → proper d op v → alive e t → (v_running v ≠ Some true → busy t) →
   later e e' ∧ log_ok e' ∧ known e' (next d op b v) ∧
   (v_running v = Some true → v_running (next d op b v) = Some true) ∧
   (v_held (next d op b v) ≠ None → v_held v ≠ None ∨ ∀ j u, ts !! j = Some u → i ≠ j → ¬ holder e u) ∧
   (busy t → busy t' → ∀ dec, run_answer (next d op b v) dec → e_open e' = Some (Meterapi.Attempt dec, Meterapi.ReservationID dec)) ∧
   (∀ dec n id p, v_dec (next d op b v) = Some dec → Meterapi.Decision dec ≠ Meterapi.DecisionRun → e_open e' = Some (n, id) →
      v_on (next d op b v) = Some (Ok (Some p)) → w_ReservationID p ≠ id) ∧
   (busy t → busy t' → ∀ rev prior, v_held (next d op b v) = Some (rev, prior) → holds e' t' rev) ∧
   (∀ j u, ts !! j = Some u → i ≠ j → thread_ok e u → thread_ok e' u)) →
  alive e t → inv (mkWorld e' (<[i := t']> ts)).
Proof.
  intros (HL & Hts & HU) Hi Hheard t t' Hall Hal. pose proof (Hts i t Hi) as Ht.
  destruct (Ht) as (T0 & [Hpr Hwp] & Tk & Tc & T2 & T3 & T4).
  destruct Hall as (Hl & HL' & Hk' & Hrun & Hheld & H2 & H3 & H4 & Hothers); [done|done|done|by split|].
  cbn [w_env w_threads th_deps th_prog th_view th_start] in *.
  assert (busy t' → busy t) as Hback by (intros [_ Hb]; split; [done|]; intros Hr; by apply Hb, Hrun).
  split; [exact HL'|]. split.
  - intros j u. cbn [w_threads w_env]. destruct (decide (i = j)) as [<-|Hne].
    + rewrite lookup_insert_eq. intros [= <-]. split; [done|]. split; [by apply Hwp|]. split; [done|]. split; [destruct Hl; cbn in *; lia|].
      split; [|split; [done|]]; intros Ha Hb; [by apply H2; [apply Hback|]|by apply H4; [apply Hback|]].
    + rewrite lookup_insert_ne by done. intros Hj. apply (Hothers j u Hj Hne), (Hts j u Hj).
  - assert (∀ j u, i ≠ j → ts !! j = Some u → holder e' t' → holder e' u → False) as Hx.
    { intros j u Hne Hj Ht' Hu'. apply (holder_back e) in Hu' as Hu; [|done]. destruct Ht' as (Ha' & Hb' & Hh').
      destruct (Hheld Hh') as [Hh|Hno]; [|by apply (Hno j u)].
      apply Hne. apply (HU i j t u Hi Hj); [|done]. split; [by eapply alive_back|]. split; [by apply Hback|done]. }
    intros j1 j2 t1 t2 Hj1 Hj2 Ht1 Ht2. cbn [w_threads w_env] in *.
    apply lookup_insert_Some in Hj1 as [[<- <-]|[Hn1 Hj1]]; apply lookup_insert_Some in Hj2 as [[<- <-]|[Hn2 Hj2]]; [done|..].
    + destruct (Hx j2 t2 Hn2 Hj2 Ht1 Ht2).
    + destruct (Hx j1 t1 Hn1 Hj1 Ht2 Ht1).
    + apply (HU j1 j2 t1 t2 Hj1 Hj2); by eapply holder_back.
Qed.

Lemma later_refl e : later e e.
Proof. split; [done|lia]. Qed.
Hint Resolve later_refl : core.

(** An operation that leaves record, question and reservation as they were. *)
Lemma op_ok_same e ts i d B (op : Op B) k b v st :
  inv (mkWorld e ts) → ts !! i = Some (mkThread d (Do op k) v st) → heard op b v → alive e (mkThread d (Do op k) v st) →
  (proper d op v → known e v → known e (next d op b v)) →
  (v_held (next d op b v) = v_held v ∨ v_held (next d op b v) = None) → v_dec (next d op b v) = v_dec v →
  v_running (next d op b v) = v_running v →
  (v_on (next d op b v) = v_on v ∨ v_on v = None) →
  inv (mkWorld e (<[i := mkThread d (k b) (next d op b v) st]> ts)).
Proof.
  intros Hinv Hi Hh Hal Hk Hheld Hdec Hrun Hon. eapply op_ok; [done..| |done].
  intros (T0 & Twp & Tk & Tc & T2 & T3 & T4) Hpr _ Hbusy. cbn [th_deps th_prog th_view th_start] in *.
  split; [done|]. split; [apply Hinv|]. split; [by apply Hk|]. rewrite Hrun. split; [done|].
  split; [intros Hne; left; destruct Hheld as [<-|E]; [done|by rewrite E in Hne]|].
  split; [|split; [|split; [|done]]].
  - intros Hb _ dec Hd. apply T2; [done|done|]. unfold run_answer in *. by rewrite <- Hdec.
  - intros dec n id p Hd Hnr Hop Hp. rewrite Hdec in Hd. destruct Hon as [Hon|Hon]; [rewrite Hon in Hp; by eapply T3|].
    destruct Tk as (_ & _ & _ & _ & _ & _ & _ & Kd). destruct (proj2 (Kd ltac:(congruence))). exact Hon.
  - intros Hb _ rev prior Hhe. destruct Hheld as [E|E]; [|congruence]. rewrite E in Hhe.
    destruct (T4 Hal Hb rev prior Hhe) as (c & dec & Hd & Hc). exists c, dec. split; [|done].
    cbn [th_view] in *. unfold run_answer in *. by rewrite Hdec.
Qed.

Lemma known_elsewhere d B (op : Op B) b v e : elsewhere op = true → proper d op v → known e v → known e (next d op b v).
Proof.
  intros He Hp (K1 & K2 & K3 & K4 & K5 & K6 & K7 & K8).
  destruct op; try done; cbn [next].
  all: try (split; [done|]; split; [done|]; split; [done|]; split; [done|]; split; [done|]; split; [done|]; done).
  split; [done|]. split; [done|]. split; [done|]. split; [done|]. split; [done|]. split; [done|]. split; [|done].
  cbn. intros Hr. exfalso. destruct Hp as (dec & claim & key & now & st & _ & Hs & _). apply K7, K6 in Hr. congruence.
Qed.

Lemma elsewhere_view d B (op : Op B) b v : elsewhere op = true →
  v_held (next d op b v) = v_held v ∧ v_dec (next d op b v) = v_dec v ∧ v_running (next d op b v) = v_running v ∧
  v_on (next d op b v) = v_on v.
Proof. by destruct op. Qed.

Lemma op_elsewhere e ts i d B (op : Op B) k b v st :
  inv (mkWorld e ts) → ts !! i = Some (mkThread d (Do op k) v st) → heard op b v → alive e (mkThread d (Do op k) v st) →
  elsewhere op = true → inv (mkWorld e (<[i := mkThread d (k b) (next d op b v) st]> ts)).
Proof.
  intros Hinv Hi Hh Hal He. destruct (elsewhere_view d B op b v He) as (V1 & V2 & V3 & V4).
  apply op_ok_same; auto. by apply known_elsewhere.
Qed.

Lemma op_get e ts i d k0 k v st :
  inv (mkWorld e ts) → ts !! i = Some (mkThread d (Do (OGet k0) k) v st) → alive e (mkThread d (Do (OGet k0) k) v st) →
  inv (mkWorld e (<[i := mkThread d (k (Ok (Get (e_store e) k0))) (next d (OGet k0) (Ok (Get (e_store e) k0)) v) st]> ts)).
Proof.
  intros Hinv Hi Hal. destruct (proj1 (proj2 Hinv) i _ Hi) as (T0 & _). cbn [th_deps] in T0.
  apply op_ok_same; [done|done|done|done|..]; cbn [next]; destruct (String.eqb_spec k0 (a_BeadAnchor (d_Args d))) as [->|]; auto.
  - intros _ (K1 & K2 & K3 & K4 & K5 & K6 & K7 & K8). rewrite T0. unfold known. cbn.
    destruct (Get (e_store e) anchor) as [c|] eqn:Hc.
    + pose proof (proj1 (proj1 Hinv) c Hc) as Hlog. cbn in Hlog. rewrite K1. split; [done|].
      split; [intros p [->|Hp]%elem_of_cons; [done|by apply K2]|].
      split; [intros o [= <-]; exists (Some c); split; [done|]; intros p [= ->]; left|].
      split. { intros o. destruct (v_on v) as [on|] eqn:Eon.
        - intros [= <-]. destruct (K4 on eq_refl) as (x & -> & Hx). exists x. split; [done|]. intros p Hp. right. by apply Hx.
        - intros [= <-]. exists (Some c). split; [done|]. intros p [= ->]. left. }
      split; [intros rev p Hp; right; by eapply K5|]. split; [done|]. split; [done|].
      intros Hd. destruct (K8 Hd). split; [done|]. by destruct (v_on v).
    + rewrite K1. split; [done|]. split; [done|].
      split; [intros o [= <-]; by exists None|].
      split. { intros o. destruct (v_on v) as [on|] eqn:Eon; [intros [= <-]; by apply K4|intros [= <-]; by exists None]. }
      split; [done|]. split; [done|]. split; [done|].
      intros Hd. destruct (K8 Hd). split; [done|]. by destruct (v_on v).
  - intros _ (K1 & K2). unfold known. cbn. rewrite K1. done.
  - cbn. destruct (v_on v); auto.
Qed.

Lemma op_now e ts i d k v st :
  inv (mkWorld e ts) → ts !! i = Some (mkThread d (Do ONow k) v st) → alive e (mkThread d (Do ONow k) v st) →
  inv (mkWorld e (<[i := mkThread d (k (e_clock e)) (next d ONow (e_clock e) v) st]> ts)).
Proof. intros Hinv Hi Hal. apply op_ok_same; [done|done|done|done|..]; auto. Qed.

(** A write of the record: no other dispatch holds it. *)
Lemma op_put e ts i d r rev k v st :
  inv (mkWorld e ts) → ts !! i = Some (mkThread d (Do (OPut r) k) v st) → alive e (mkThread d (Do (OPut r) k) v st) → unused e rev →
  inv (mkWorld (stored r rev (Put (e_store e) (e_clock e) rev r) e) (<[i := mkThread d (k (Ok tt)) (next d (OPut r) (Ok tt) v) st]> ts)).
Proof.
  intros Hinv Hi Hal Hu. eapply op_ok; [done..| |done]. intros Ht Hpr _ Hbusy.
  pose proof Hinv as (HL & _ & HU). cbn [w_env w_threads] in *.
  assert (v_running v = None) as Hrn by (destruct Hpr as (? & ? & ? & ? & _ & _ & Hr & _); exact Hr).
  assert (busy (mkThread d (Do (OPut r) k) v st)) as Hb by (apply Hbusy; by rewrite Hrn).
  destruct (put_fields e _ r HL Ht Hal Hb Hpr) as (Hanc & Hres & Hhold).
  pose proof (stored_later r rev (Put (e_store e) (e_clock e) rev r) e Hu) as Hl.
  pose proof Ht as (_ & _ & Hk & _ & _ & T3 & _). cbn [th_view] in Hk, T3.
  split; [done|]. split; [by apply stored_log_ok|].
  split. { apply (known_later e); [done|]. destruct Hk as (K1 & K2 & K3 & K4 & K5 & K6 & K7 & K8).
    unfold known. cbn. rewrite K1. split; [done|]. split; [done|]. split; [done|]. split; [done|]. split; [done|]. split; [done|].
    split; [|done]. intros _. destruct Hpr as (? & ? & ? & ? & _ & Hs & _). cbn in *. by rewrite Hs. }
  split; [done|]. split; [done|]. split; [by intros _ [_ []]|]. split; [exact T3|]. split; [by intros _ [_ []]|].
  intros j u Hj Hne Hu'. apply stored_others; [done|done|]. intros _ Hh. apply Hne. by apply (HU i j _ u Hi Hj).
Qed.

Lemma after_putif_known e v r w : known e v → store_failed w = false → known e (after_putif r w v).
Proof.
  intros (K1 & K2 & K3 & K4 & K5 & K6 & K7 & K8) Hw. unfold known, after_putif. cbn. rewrite K1, Hw.
  split; [done|]. split; [done|]. split; [done|]. split; [done|]. split; [|done].
  intros rev p. destruct (v_held v); [done|]. destruct w as [s|]; [|done]. destruct (bool_decide _); [|done].
  intros [= _ Hp]. destruct (v_get v) as [[o|]|] eqn:Hg; try done. subst o.
  destruct (K3 _ eq_refl) as (x & [= <-] & Hx). by apply Hx.
Qed.

Lemma op_stale e ts i d r i0 k v st :
  inv (mkWorld e ts) → ts !! i = Some (mkThread d (Do (OPutIf r i0) k) v st) → alive e (mkThread d (Do (OPutIf r i0) k) v st) →
  inv (mkWorld e (<[i := mkThread d (k (Err ErrStale)) (next d (OPutIf r i0) (Err ErrStale) v) st]> ts)).
Proof.
  intros Hinv Hi Hal. apply op_ok_same; [done|done|done|done|..]; auto; cbn [next].
  - intros _ Hk. by apply after_putif_known.
  - right. unfold after_putif. cbn. by destruct (v_held v).
Qed.

Lemma op_putif e ts i d r i0 rev k v st :
  inv (mkWorld e ts) → ts !! i = Some (mkThread d (Do (OPutIf r i0) k) v st) → alive e (mkThread d (Do (OPutIf r i0) k) v st) →
  unused e rev → i0 = revision_of (Get (e_store e) (w_BeadAnchor r)) →
  inv (mkWorld (stored r rev (Put (e_store e) (e_clock e) rev r) e)
    (<[i := mkThread d (k (Ok rev)) (next d (OPutIf r i0) (Ok rev) v) st]> ts)).
Proof.
  intros Hinv Hi Hal Hu Hrev. eapply op_ok; [done..| |done]. intros Ht Hpr _ Hbusy.
  pose proof Hinv as (HL & Hts & HU). cbn [w_env w_threads] in *.
  pose proof Ht as (T0 & _ & Hk & Tc & T2 & T3 & _). cbn [th_view th_deps th_start] in *.
  pose proof Hk as (K1 & K2 & K3 & K4 & K5 & K6 & K7 & K8).
  assert (v_started v = false → v_running v ≠ Some true) as Hns.
  { intros Hs Hr. enough (v_started v = true) by congruence. apply K6, K7. by rewrite Hr. }
  assert (v_running v ≠ Some true) as Hnr.
  { destruct Hpr as [Hp|[Hp|[Hp|[Hp|Hp]]]].
    - destruct Hp as (? & _ & _ & Hs & _). auto.
    - by destruct Hp as (? & _ & ? & _).
    - destruct Hp as (? & _). congruence.
    - destruct Hp as (? & ? & _ & _ & _ & _ & Hs & _). auto.
    - destruct Hp as (_ & Hs & _). auto. }
  pose proof (Hbusy Hnr) as Hb.
  destruct (write_fields e _ r i0 HL Ht Hal Hb Hpr) as (Hanc & Hres).
  rewrite Hanc in Hrev.
  assert (∀ j u, ts !! j = Some u → i ≠ j → ¬ holder e u) as Hno.
  { intros j u Hj Hne Hh. apply Hne. apply (HU i j _ u Hi Hj); [|done].
    by apply (no_overwrite e u _ r i0 HL (Hts j u Hj) Ht Hh Hal Hb Hpr). }
  pose proof (stored_later r rev (Put (e_store e) (e_clock e) rev r) e Hu) as Hl.
  split; [done|]. split; [by apply stored_log_ok|].
  split; [apply (known_later e); [done|]; by apply after_putif_known|].
  split; [done|]. split; [by right|].
  split; [intros _ _ dec Hd; by apply (T2 Hal Hb dec)|]. split; [exact T3|]. split.
  - intros _ _ rev' prior. cbn [next]. unfold after_putif. cbn [v_held].
    destruct (v_held v) as [x|] eqn:Hheld; [done|].
    destruct (bool_decide (w_State r = StatePendingPrompt)) eqn:Hst; [|done]. apply bool_decide_eq_true in Hst.
    intros [= <- _]. destruct Hpr as [Hp|[Hp|[Hp|[Hp|Hp]]]].
    + destruct Hp as (dec & Hd & _ & _ & _ & _ & Hat & Hri & Hse & Hup & Hcap & _).
      destruct (stampWrite_fields r (e_clock e) rev) as (F1 & F2 & F3 & F4 & F5 & F6 & F7).
      exists (stampWrite r (e_clock e) rev), dec. cbn [th_view th_start stored e_store].
      split; [done|]. split; [rewrite Get_Put, Hanc; by rewrite String.eqb_refl|].
      split; [done|]. split; [congruence|]. split; [congruence|]. split; [congruence|]. split; [congruence|].
      split; [unfold capped in *; by rewrite F7|]. rewrite stampWrite_age, Hup, decide_False by naive_solver. done.
    + destruct Hp as (? & Hh & _). congruence.
    + destruct Hp as (? & _). congruence.
    + exfalso. destruct Hp as (? & ? & _ & _ & _ & _ & _ & _ & _ & Hkind & _). naive_solver congruence.
    + exfalso. destruct Hp as (_ & _ & ? & _ & _ & _ & Hs & _). naive_solver congruence.
  - intros j u Hj Hne Hu'. apply stored_others; [done|done|]. intros _. by apply (Hno j u).
Qed.

(** Meter's answer: from what is open, or a new reservation. *)
Definition asked_of_meter (e e' : env) (dec : option Meterapi.DecideResponse) : Prop :=
  e' = e ∧ (∀ r, dec = Some r → if decide (Meterapi.Decision r = Meterapi.DecisionRun)
              then e_open e = Some (Meterapi.Attempt r, Meterapi.ReservationID r) else e_open e = None) ∨
  ∃ r, dec = Some r ∧ Meterapi.Decision r = Meterapi.DecisionRun ∧ e_open e = None ∧ (Meterapi.ReservationID r ∉ e_minted e) ∧
    Meterapi.ReservationID r ≠ "" ∧
    e' = with_open (Some (Meterapi.Attempt r, Meterapi.ReservationID r)) {[Meterapi.ReservationID r]} e.

Lemma op_decide e e' ts i d q dec k v st :
  inv (mkWorld e ts) → ts !! i = Some (mkThread d (Do (ODecide q) k) v st) → alive e (mkThread d (Do (ODecide q) k) v st) →
  asked_of_meter e e' dec →
  inv (mkWorld e' (<[i := mkThread d (k dec) (next d (ODecide q) dec v) st]> ts)).
Proof.
  intros Hinv Hi Hal Hans. eapply op_ok; [done..| |done]. intros Ht (Hask & Hs & Hon & _) _ Hbusy.
  pose proof Hinv as (HL & Hts & HU). cbn [w_env w_threads] in *.
  pose proof Ht as (T0 & _ & Hk & Tc & T2 & T3 & T4). cbn [th_view th_deps th_start] in *.
  pose proof Hk as (K1 & K2 & K3 & K4 & K5 & K6 & K7 & K8).
  assert (v_running v = None) as Hrn.
  { destruct (v_running v) eqn:Hr; [|done]. enough (v_started v = true) by congruence. apply K6, K7. congruence. }
  assert (v_held v = None) as Hh.
  { destruct (v_held v) as [[rev prior]|] eqn:Hh; [|done]. exfalso.
    destruct (T4 Hal (Hbusy ltac:(congruence)) rev prior eq_refl) as (c & dec' & [Hd _] & _).
    destruct (K8 ltac:(cbn in *; congruence)). congruence. }
  assert (later e e' ∧ log_ok e' ∧ e_store e' = e_store e ∧ e_log e' = e_log e ∧
    (∀ dec', dec = Some dec' → Meterapi.Decision dec' = Meterapi.DecisionRun → e_open e' = Some (Meterapi.Attempt dec', Meterapi.ReservationID dec')) ∧
    (∀ dec', dec = Some dec' → Meterapi.Decision dec' ≠ Meterapi.DecisionRun → e_open e' = None) ∧
    (e_open e' = e_open e ∨ e_open e = None ∧ ∀ n id p, e_open e' = Some (n, id) → e_log e !! w_Revision p = Some p → w_ReservationID p ≠ id))
    as (Hl & HL' & Est & Elog & Hrun & Href & Hopen).
  { destruct HL as (L1 & L2 & L3). destruct Hans as [[-> Hans]|(r & -> & Hr & Ho & Hnew & Hne & ->)].
    - repeat (split; [done|]).
      split; [intros r Hd Hr; specialize (Hans r Hd); by rewrite decide_True in Hans|].
      split; [intros r Hd Hr; specialize (Hans r Hd); by rewrite decide_False in Hans|]. by left.
    - split; [done|]. split. { split; [done|]. split; cbn.
        - intros rev c Hc. destruct (L2 rev c Hc) as (? & ? & ? & [?|?]); repeat (split; [done|]); set_solver.
        - intros n id [= <- <-]. set_solver. }
      repeat (split; [done|]). split; [by intros ? [= <-]|]. split; [by intros ? [= <-]|]. right. split; [done|].
      intros n id p [= <- <-] Hp E. destruct (L2 _ p Hp) as (_ & _ & _ & [Hp'|Hp']); congruence. }
  split; [done|]. split; [done|].
  split. { apply (known_later e); [done|]. unfold known. cbn. repeat (split; [done|]). done. }
  cbn [next after_decide v_running v_held v_dec v_on]. split; [done|]. split; [done|].
  split; [intros _ _ dec' [Hd Hr]; by apply Hrun|].
  split. { intros dec' n id p Hd Hnr Hop. cbn in Hd. by rewrite (Href dec' Hd Hnr) in Hop. }
  split; [intros _ _ rev prior; by rewrite Hh|].
  intros j u Hj Hne Hu. apply (thread_ok_later e); [done|done| | |by rewrite Est].
  - intros o Ho _ _ _ _ _. destruct Hopen as [E|[E _]]; congruence.
  - intros n id p Hop Hp. destruct Hopen as [E|[_ Hf]]; [left; congruence|right; by eapply Hf].
Qed.

Lemma op_inv e e' ts i d B (op : Op B) k b v st :
  inv (mkWorld e ts) → ts !! i = Some (mkThread d (Do op k) v st) → alive e (mkThread d (Do op k) v st) → heard op b v →
  answers e B op b e' → inv (mkWorld e' (<[i := mkThread d (k b) (next d op b v) st]> ts)).
Proof.
  intros Hinv Hi Hal Hheard Hans. destruct Hans.
  - by apply op_get.
  - by apply op_put.
  - apply PutIf_ok in H3 as (-> & -> & ->). by apply op_putif.
  - by apply op_stale.
  - by apply op_now.
  - eapply op_decide; [done..|]. by left.
  - eapply op_decide; [done..|]. left. split; [done|]. intros r [= <-]. by rewrite decide_True.
  - eapply op_decide; [done..|]. left. split; [done|]. intros r [= <-]. by rewrite decide_False.
  - eapply op_decide; [done..|]. right. by exists dec.
  - by apply op_elsewhere.
Qed.

(** What the others do: nothing of a dispatch changes. *)
Lemma env_step_inv e e' ts : inv (mkWorld e ts) → later e e' → log_ok e' →
  (∀ i t, ts !! i = Some t → thread_ok e t → thread_ok e' t) → inv (mkWorld e' ts).
Proof.
  intros (_ & Hts & HU) Hl HL' Hk. split; [done|]. split; [intros i t Hi; apply (Hk i t Hi), (Hts i t Hi)|].
  intros i j t u Hi Hj Ht Hu. apply (HU i j t u Hi Hj); by eapply holder_back.
Qed.

(** A record that the sweep read is no reservation of a dispatch in progress. *)
Lemma swept e t read : log_ok e → thread_ok e t →
  (∀ p, read = Some p → e_log e !! w_Revision p = Some p ∧
     (w_State p = StatePendingPrompt → w_UpdatedAt p + pendingPromptGrace <= e_clock e)) →
  revision_of read = revision_of (Get (e_store e) anchor) → ¬ holder e t.
Proof.
  intros HL (_ & _ & _ & _ & _ & _ & T4) Hread Hrev (Ha & Hb & Hh).
  destruct (v_held (th_view t)) as [[rev prior]|] eqn:Hv; [|done].
  destruct (T4 Ha Hb rev prior eq_refl) as (c & dec & _ & Hc & _ & Hst & _ & _ & _ & _ & Hup).
  rewrite Hc in Hrev. change (revision_of (Some c)) with (w_Revision c) in Hrev.
  destruct read as [p|].
  - destruct (Hread p eq_refl) as [Hp Hage]. change (revision_of (Some p)) with (w_Revision p) in Hrev.
    assert (p = c) as -> by (by apply (current_read e c p)). specialize (Hage Hst).
    unfold alive, pendingPromptGrace in *. lia.
  - change (revision_of None) with "" in Hrev. destruct (proj1 (proj2 HL) _ c (proj1 HL c Hc)) as (_ & Hne & _). congruence.
Qed.

Lemma step_inv strict w w' : strict = true → inv w → step strict w w' → inv w'.
Proof.
  intros -> Hinv Hs. destruct Hs as [i t B op k b e e' ts Hi Hal Hp Hh Hans|now e ts Hnow|i d e ts Hi Ha|n id e ts Ho Hg
    |read r rev rev' m e ts Hu Hread Ha Hst Hri Hput|r rev e ts Ha].
  - destruct t as [d p v st]. cbn in Hp. subst p. by eapply op_inv.
  - apply (env_step_inv e); [done|by split|apply Hinv|]. intros i t Hi Ht. by apply (thread_ok_later e); [split|..]; auto.
  - destruct Hinv as (HL & Hts & HU). cbn [w_env w_threads] in *. split; [done|].
    assert (∀ t, t = mkThread d (runDispatch d) view0 (e_clock e) → ¬ holder e t) as Hno by (intros t -> (_ & _ & Hx); done).
    split; cbn [w_env w_threads].
    + intros j t [[<- <-]|[Hne Hj]]%lookup_insert_Some; [|by apply (Hts j t)].
      split; [done|]. split; [exact (watched_dispatch d)|]. split; [|split; [cbn; lia|split; [by intros _ _ dec [? _]|by split]]].
      split; [done|]. split; [intros p Hp; by apply not_elem_of_nil in Hp|]. done.
    + intros j1 j2 t1 t2 Hj1 Hj2 Ht1 Ht2.
      apply lookup_insert_Some in Hj1 as [[_ Hj1]|[_ Hj1]]; [by destruct (Hno t1)|].
      apply lookup_insert_Some in Hj2 as [[_ Hj2]|[_ Hj2]]; [by destruct (Hno t2)|]. by apply (HU j1 j2 t1 t2).
  - apply (env_step_inv e); [done|by split; cbn|..].
    + destruct Hinv as ((L1 & L2 & L3) & _). split; [done|]. split; [|done]. cbn. intros rev c Hc.
      destruct (L2 rev c Hc) as (? & ? & ? & ?). rewrite union_empty_r_L. auto.
    + intros i t Hi Ht. apply (thread_ok_later e); [by split|done| |done|done].
      intros o Hoo Hal Hb dec Hd Hid. exfalso. apply Hg; [done|]. exists i, t, dec. rewrite Ho in Hoo. injection Hoo as <-. auto.
  - apply PutIf_ok in Hput as (-> & Hrev & ->). pose proof (stored_later r rev (Put (e_store e) (e_clock e) rev r) e Hu) as Hl.
    rewrite Ha in Hrev. apply (env_step_inv e); [done|done|apply stored_log_ok; [done|apply Hinv|done]|].
    intros i t Hi Ht. apply stored_others; [done|done|]. intros _. eapply swept; [apply Hinv|done|exact Hread|done].
  - assert (String.eqb (w_BeadAnchor r) anchor = false) as E by (by apply String.eqb_neq).
    assert (later e (stored r rev (Put (e_store e) (e_clock e) rev r) e)) as Hl by (unfold stored; rewrite E; by split; cbn).
    apply (env_step_inv e); [done|done|..].
    + destruct Hinv as ((L1 & L2 & L3) & _). unfold stored. rewrite E. split; [|done]. cbn [e_store]. intros c. rewrite Get_Put, E. apply L1.
    + intros i t Hi Ht. apply (thread_ok_later e); [done|done|done|by left|]. intros _. cbn [stored e_store]. by rewrite Get_Put, E.
Qed.

Lemma reachable_inv w : reachable true w → inv w.
Proof.
  induction 1 as [now o open_ ids m Ho Hr Hop|w w' _ IH Hs]; [|by eapply step_inv].
  split; [|split]; cbn [w_env w_threads]; [|by intros i t Hi; rewrite lookup_empty in Hi|by intros i j t u Hi; rewrite lookup_empty in Hi].
  unfold log_ok, Get. cbn. split; [|split; [|done]].
  - intros c Hc. rewrite Ho in Hc. subst o. by simplify_map_eq.
  - intros rev c Hc. destruct o as [r|]; [|by rewrite lookup_empty in Hc].
    apply lookup_singleton_Some in Hc as [<- <-]. destruct (Hr r eq_refl) as (? & ? & ?). done.
Qed.

(** C5. Of one work item at most one dispatch at a time holds the record. When it
    comes to write the running record, which it does without a condition, what
    that replaces is the very reservation it wrote: for the same attempt and
    meter's reservation, written since it started, and of no other dispatch. This
    is so however the dispatches are interleaved with each other, with the sweep,
    with other writers and with meter, in a world where the store answers every
    call (of a failure it says nothing: the dispatch then goes on without a
    reservation of its own), meter closes no reservation under a dispatch in
    progress that was answered with it, and a dispatch ends when its order's
    timeout is over. *)
Theorem running_write_replaces_own w i t r k :
  reachable true w → w_threads w !! i = Some t → alive (w_env w) t → th_prog t = Do (OPut r) k →
  (∃ c rev prior, Get (e_store (w_env w)) anchor = Some c ∧ v_held (th_view t) = Some (rev, prior) ∧ w_Revision c = rev ∧
     w_State c = StatePendingPrompt ∧ w_Attempt c = w_Attempt r ∧ w_ReservationID c = w_ReservationID r ∧ w_BeadAnchor r = anchor ∧
     w_State r = StateRunning ∧ th_start t <= w_UpdatedAt c) ∧
  ∀ j u, w_threads w !! j = Some u → j ≠ i → ¬ holder (w_env w) u.
Proof.
  intros Hw Hi Hal Hp. destruct (reachable_inv w Hw) as (HL & Hts & HU). pose proof (Hts i t Hi) as Ht.
  pose proof Ht as (T0 & Twp & _ & _ & _ & _ & T4). rewrite Hp in Twp. destruct Twp as [Hput _].
  assert (busy t) as Hb by (split; [by rewrite Hp|]; destruct Hput as (? & ? & ? & ? & _ & _ & -> & _); done).
  destruct (put_fields (w_env w) t r HL Ht Hal Hb Hput) as (Hanc & _ & Hh).
  split; [|intros j u Hj Hne Hu; apply Hne; by apply (HU j i u t)].
  destruct (v_held (th_view t)) as [[rev prior]|] eqn:Hv; [|by destruct Hh as (_ & _ & ?)].
  destruct (T4 Hal Hb rev prior eq_refl) as (c & dec & Hd & Hc & Hrev & Hst & Hat & Hri & _ & _ & Hup).
  destruct Hput as (dec' & _ & _ & _ & Hd' & _ & _ & Hrs & _ & _ & Hra & Hrr & _).
  assert (dec' = dec) as -> by (destruct Hd, Hd'; congruence).
  exists c, rev, prior. repeat (split; [congruence|]). done.
Qed.
End race.
