(* ===== verification/DispatchRun.v ===== *)
(** * [cmd/gonk-gate]: dispatches run step by step

    The world of [DispatchRace] as a program: a script says which dispatch does its
    next operation and what the other parties do, and every step it makes is one
    of the world's. Runs of it show that dispatches get where the theorems speak
    of, and what happens when an assumption does not hold. *)

From S2P Require Import Prelude.
From S2P Require Import GoStrings.
From S2P Require Import GoTime.
From S2P Require Import WorkStore.
From S2P Require Import GateProgs.
From S2P Require Import DispatchArgs.
From S2P Require Import Dispatch.
From S2P Require Import DispatchWatch.
From S2P Require Import DispatchRace.

(** ** The world answers *)

(** What is not the store's, meter's or the clock's to answer. *)
Definition reply {B : Type} (op : Op B) : option B :=
  match op in Op B return option B with
  | OTerminated => Some false
  | OSecret _ _ => Some (Some "key")
  | OPackEnv _ => Some (Some {["GONK_PROFILE" := "agent"]})
  | ORead _ => Some None
  | OStart spec => Some (Some (Runtime.Name spec, true))
  | ONote _ => Some tt
  | _ => None
  end.

Section run.
Context `{PromptTexts} `{GoUnicode} `{GoTimeText} (anchor : string) (strict : bool).

(** [rev] is the revision drawn for a write, [fresh] what meter would answer
    when no reservation is open. *)
Definition serve (e : env) (rev : string) (fresh : Meterapi.DecideResponse) {B : Type} (op : Op B) : option (B * env) :=
  let unused := bool_decide (rev ∉ dom (e_log e)) && negb (String.eqb rev "") in
  match op in Op B return option (B * env) with
  | OGet k => Some (Ok (Get (e_store e) k), e)
  | OPut r => if unused then Some (Ok tt, stored anchor r rev (Put (e_store e) (e_clock e) rev r) e) else None
  | OPutIf r i =>
      match PutIf (e_store e) (e_clock e) rev r i with
      | (Ok rev', m) => if unused then Some (Ok rev', stored anchor r rev m e) else None
      | (Err ErrStale, _) => Some (Err ErrStale, e)
      | (Err ErrStore, _) => None
      end
  | ONow => Some (e_clock e, e)
  | ODecide _ =>
      if negb (String.eqb (Meterapi.Decision fresh) Meterapi.DecisionRun) then None
      else match e_open e with
      | Some o => if bool_decide (o = (Meterapi.Attempt fresh, Meterapi.ReservationID fresh)) then Some (Some fresh, e) else None
      | None =>
          if bool_decide (Meterapi.ReservationID fresh ∉ e_minted e) && negb (String.eqb (Meterapi.ReservationID fresh) "") then
            Some (Some fresh, with_open (Some (Meterapi.Attempt fresh, Meterapi.ReservationID fresh)) {[Meterapi.ReservationID fresh]} e)
          else None
      end
  | op => match reply op with Some b => Some (b, e) | None => None end
  end.

Lemma serve_answers e rev fresh B (op : Op B) b e' : serve e rev fresh op = Some (b, e') → answers anchor e B op b e'.
Proof.
  intros Hs. destruct op; cbn in Hs; try discriminate Hs; try (injection Hs as <- <-; by constructor).
  - destruct (bool_decide _ && _) eqn:Hu; [|done]. injection Hs as <- <-. apply andb_prop in Hu as [Hu1 Hu2].
    constructor. split; [by apply bool_decide_eq_true in Hu1|by apply negb_true_iff, String.eqb_neq in Hu2].
  - destruct (PutIf _ _ _ _ _) as [[rev'|[|]] m] eqn:Hp; try discriminate Hs.
    + destruct (bool_decide _ && _) eqn:Hu; [|done]. injection Hs as <- <-. apply andb_prop in Hu as [Hu1 Hu2].
      eapply answers_putif; [|done]. split; [by apply bool_decide_eq_true in Hu1|by apply negb_true_iff, String.eqb_neq in Hu2].
    + injection Hs as <- <-. by eapply answers_stale.
  - destruct (String.eqb_spec (Meterapi.Decision fresh) Meterapi.DecisionRun) as [Hr|]; [|done]. cbn in Hs.
    destruct (e_open e) as [o|] eqn:Ho.
    + destruct (bool_decide _) eqn:E; [|done]. injection Hs as <- <-. apply bool_decide_eq_true in E. subst o. by apply answers_again.
    + destruct (bool_decide _ && _) eqn:E; [|done]. injection Hs as <- <-. apply andb_prop in E as [E1 E2].
      apply answers_run; [done|done|by apply bool_decide_eq_true in E1|by apply negb_true_iff, String.eqb_neq in E2].
Qed.

(** ** Scripts *)

Inductive act :=
| Does (i : nat) (rev : string) (fresh : Meterapi.DecideResponse)
| Spawns (i : nat) (d : dispatchDeps)
| Closes
| Passes (now : Time).

Definition hears {B : Type} (op : Op B) : B → view → bool :=
  match op in Op B return B → view → bool with OTerminated => λ b v, negb (v_told v) || b | _ => λ _ _, true end.

Definition perform (w : world) (x : act) : option world :=
  let e := w_env w in let ts := w_threads w in
  match x with
  | Does i rev fresh =>
      match ts !! i with
      | Some (mkThread d (Do op k) v st) =>
          if e_clock e <? st + dispatchOrderTimeout then
            match serve e rev fresh op with
            | Some (b, e') =>
                if hears op b v then Some (mkWorld e' (<[i := mkThread d (k b) (next d op b v) st]> ts)) else None
            | None => None
            end
          else None
      | _ => None
      end
  | Spawns i d =>
      if bool_decide (ts !! i = None) && String.eqb (a_BeadAnchor (d_Args d)) anchor then
        Some (mkWorld e (<[i := mkThread d (runDispatch d) view0 (e_clock e)]> ts))
      else None
  | Closes => match e_open e with Some _ => if strict then None else Some (mkWorld (with_open None ∅ e) ts) | None => None end
  | Passes now => if e_clock e <=? now then Some (mkWorld (with_clock now e) ts) else None
  end.
Fixpoint performs (w : world) (xs : list act) : option world :=
  match xs with [] => Some w | x :: xs => match perform w x with Some w => performs w xs | None => None end end.

Lemma perform_step w x w' : perform w x = Some w' → step anchor strict w w'.
Proof.
  destruct w as [e ts]. destruct x as [i rev fresh|i d| |now]; cbn.
  - destruct (ts !! i) as [[d [c|B op k] v st]|] eqn:Hi; try discriminate.
    destruct (Z.ltb_spec (e_clock e) (st + dispatchOrderTimeout)); [|discriminate].
    destruct (serve e rev fresh op) as [[b e']|] eqn:Hs; [|discriminate].
    destruct (hears op b v) eqn:Hh; [|discriminate]. intros [= <-].
    apply (step_op anchor strict i (mkThread d (Do op k) v st) B op k b e e' ts); [done|done|done| |by eapply serve_answers].
    destruct op; try done. cbn in Hh |- *. intros Ht. by rewrite Ht in Hh.
  - destruct (bool_decide _) eqn:Hn; [|discriminate]. destruct (String.eqb_spec (a_BeadAnchor (d_Args d)) anchor); [|discriminate].
    intros [= <-]. apply bool_decide_eq_true in Hn. by apply step_spawn.
  - destruct (e_open e) as [[n id]|] eqn:Ho; [|discriminate]. destruct strict eqn:Hst; [discriminate|]. intros [= <-].
    eapply step_close; [exact Ho|discriminate].
  - destruct (Z.leb_spec (e_clock e) now); [|discriminate]. intros [= <-]. by apply step_tick.
Qed.

Lemma performs_reachable w xs w' : reachable anchor strict w → performs w xs = Some w' → reachable anchor strict w'.
Proof.
  revert w. induction xs as [|x xs IH]; intros w Hw; cbn; [by intros [= <-]|].
  destruct (perform w x) as [w1|] eqn:Hp; [|discriminate]. intros Hxs. apply (IH w1); [|done].
  eapply reachable_step; [exact Hw|]. by apply (perform_step w x).
Qed.

(** An empty store, and no reservation. *)
Definition nothing_yet : world := mkWorld (mkEnv (mkMemory ∅) ∅ 1000 None ∅) ∅.
Lemma nothing_yet_reachable : reachable anchor strict nothing_yet.
Proof. by apply (reachable_start anchor strict 1000 None None ∅ ∅). Qed.
End run.

(** ** Two dispatches of one issue *)

#[local] Instance plain_texts : PromptTexts := {
  renderTriagePrompt _ _ _ _ _ _ := "triage"; renderScaffoldPrompt _ _ := "scaffold"; renderScaffoldCheckoutPrompt _ _ := "scaffold" }.
#[local] Existing Instance mark_text.

Definition issue_anchor : string := "gonk:7:issue:3".
Definition issue_dispatch : dispatchDeps :=
  mkDispatchDeps true true false false false false "http://llm" "" 0 (mkOrderBudget 0 0 0 0 0)
    (mkDispatchArgs "g/p" 7 "p" 3 issue_anchor "gk-1" "k" "issue-triage" "" "" "" "" "" 0 "" "" 0 0).
Definition runs_as (attempt : Z) (id : string) : Meterapi.DecideResponse :=
  Meterapi.mkDecideResponse Meterapi.DecisionRun "small" "m" attempt "" "" 0 ∅ (Meterapi.mkKeyRef "secret" "key") id 4000000000000.

Definition n_times (n : nat) (x : act) : list act := repeat x n.
(** The operations up to the write of the running record. *)
Definition to_running (i : nat) (rev : string) (dec : Meterapi.DecideResponse) : list act := n_times 12 (Does i rev dec).

Definition about_to_run (w : world) (i : nat) : option (Z * Z * option Z) :=
  match w_threads w !! i with
  | Some (mkThread _ (Do op _) _ st) =>
      match op with
      | OPut r => Some (w_Attempt r, st + dispatchOrderTimeout - e_clock (w_env w), w_Attempt <$> Get (e_store (w_env w)) issue_anchor)
      | _ => None
      end
  | _ => None
  end.

Definition one_dispatch : list act := Spawns 0 issue_dispatch :: to_running 0 "v1" (runs_as 1 "r1").
Example one_dispatch_runs :
  (performs issue_anchor true nothing_yet one_dispatch ≫= λ w, about_to_run w 0) = Some (1, 300 * Second, Some 1).
Proof. vm_compute. reflexivity. Qed.

(** A dispatch answered just before meter closes the reservation, then another of
    the next attempt, and then the first one goes on. *)
Definition late_answer : list act :=
  Spawns 0 issue_dispatch :: n_times 2 (Does 0 "" (runs_as 1 "r1")) ++ Closes ::
  Spawns 1 issue_dispatch :: to_running 1 "v1" (runs_as 2 "r2") ++ n_times 4 (Does 0 "v2" (runs_as 1 "r1")).

Lemma about_to_run_is w i n left m : about_to_run w i = Some (n, left, Some m) → 0 < left →
  ∃ t r k c, w_threads w !! i = Some t ∧ alive (w_env w) t ∧ th_prog t = Do (OPut r) k ∧ w_Attempt r = n ∧
    Get (e_store (w_env w)) issue_anchor = Some c ∧ w_Attempt c = m.
Proof.
  unfold about_to_run. destruct (w_threads w !! i) as [[d [c|B op k] v st]|]; try discriminate.
  destruct op; try discriminate. destruct (Get _ _) as [c|] eqn:Hc; [|discriminate]. cbn. intros [= <- <- <-] Hl.
  eexists _, r, k, c. repeat (split; [done|]). split; [unfold alive; cbn; lia|done].
Qed.

Lemma performs_about_to_run strict xs i n left m :
  (performs issue_anchor strict nothing_yet xs ≫= λ w, about_to_run w i) = Some (n, left, Some m) → 0 < left →
  ∃ w t r k c, reachable issue_anchor strict w ∧ w_threads w !! i = Some t ∧ alive (w_env w) t ∧ th_prog t = Do (OPut r) k ∧
    w_Attempt r = n ∧ Get (e_store (w_env w)) issue_anchor = Some c ∧ w_Attempt c = m.
Proof.
  destruct (performs _ _ _ _) as [w|] eqn:Hw; [|discriminate]. cbn. intros Ha Hl.
  destruct (about_to_run_is w i n left m Ha Hl) as (t & r & k & c & H1' & H2 & H3 & H4 & H5 & H6).
  exists w, t, r, k, c. split; [|done]. eapply performs_reachable; [apply nothing_yet_reachable|done].
Qed.

(** What [running_write_replaces_own] assumes of meter is needed. If a reservation
    may be closed while a dispatch answered with it has yet to reserve the record
    - its deadline passes, say - then that dispatch, whose check is only that the
    record has no session for its own attempt, replaces the reservation of the
    next attempt's dispatch by its own; and that one, about to write its running
    record, replaces the reservation of the earlier attempt. *)
Theorem late_answer_overwrites :
  ∃ w t r k c, reachable issue_anchor false w ∧ w_threads w !! 1%nat = Some t ∧ alive (w_env w) t ∧ th_prog t = Do (OPut r) k ∧
    w_Attempt r = 2 ∧ Get (e_store (w_env w)) issue_anchor = Some c ∧ w_Attempt c = 1.
Proof. apply (performs_about_to_run false late_answer 1 2 (300 * Second) 1); [vm_compute; reflexivity|vm_compute; reflexivity]. Qed.

(** ** A dispatch and its trace *)

Section trace.
Context {S : Type} (answer : ∀ B : Type, Op B → S → option (B * S)).

Fixpoint run_with {A : Type} (p : Prog A) (s : S) : option (list Event * A) :=
  match p with
  | Ret a => Some ([], a)
  | Do op k =>
      match answer _ op s with
      | Some (b, s) => match run_with (k b) s with Some (tr, a) => Some (Ev op b :: tr, a) | None => None end
      | None => None
      end
  end.
Lemma run_with_runs {A : Type} (p : Prog A) s tr a : run_with p s = Some (tr, a) → runs p tr a.
Proof.
  revert s tr. induction p as [a'|B op k IH]; intros s tr; cbn; [intros [= <- <-]; constructor|].
  destruct (answer B op s) as [[b s']|]; [|discriminate]. destruct (run_with (k b) s') as [[tr' a']|] eqn:Hr; [|discriminate].
  intros [= <- <-]. constructor. by eapply IH.
Qed.
End trace.

(** The store as it is, a session runtime that refuses. *)
Definition alone {B : Type} (op : Op B) (e : env) : option (B * env) :=
  match op in Op B return option (B * env) with
  | OStart _ => Some (None, e)
  | op => serve issue_anchor e ("v" +:+ itoa (Z.of_nat (size (e_log e)))) (runs_as 1 "r1") op
  end.
Definition refused_start : option (list Event * Z) := run_with (@alone) (runDispatch issue_dispatch) (w_env nothing_yet).

Fixpoint hears_run (d : dispatchDeps) (v : view) (tr : list Event) : bool :=
  match tr with [] => true | Ev op b :: tr => hears op b v && hears_run d (next d op b v) tr end.
Lemma hears_run_honest d v tr : hears_run d v tr = true → honest_run (@heard) (@next d) v tr.
Proof.
  revert v. induction tr as [|[B op b] tr IH]; intros v; cbn; [done|]. intros [Hh Ht]%andb_prop. split; [|by apply IH].
  destruct op; try done. cbn in Hh |- *. intros E. by rewrite E in Hh.
Qed.

Definition refused_as_expected : bool :=
  match refused_start with
  | Some (tr, code) =>
      let v := play (@next issue_dispatch) view0 tr in
      (code =? 1) && hears_run issue_dispatch view0 tr && v_started v && negb (isSome (v_session v)) && negb (isSome (v_running v))
  | None => false
  end.

(** The runtime refuses the session: the record is put back as it was. *)
Lemma dispatch_proper_witness :
  ∃ tr, let v := play (@next issue_dispatch) view0 tr in
    runs (runDispatch issue_dispatch) tr 1 ∧ finished 1 v ∧ v_started v = true ∧ v_running v = None.
Proof.
  assert (refused_as_expected = true) as Hc by (vm_compute; reflexivity). unfold refused_as_expected in Hc.
  destruct refused_start as [[tr code]|] eqn:Hrun; [|discriminate Hc].
  repeat rewrite andb_true_iff in Hc. destruct Hc as [[[[Hcode Hh] Hs] _] Hr]. apply Z.eqb_eq in Hcode. subst code.
  exists tr. assert (runs (runDispatch issue_dispatch) tr 1) as Hruns by (exact (run_with_runs _ _ _ _ _ Hrun)).
  split; [exact Hruns|]. split; [|split; [exact Hs|]].
  - exact (proj1 (dispatch_proper issue_dispatch tr 1 Hruns (hears_run_honest _ _ _ Hh))).
  - destruct (v_running _); [discriminate Hr|reflexivity].
Defined.

Lemma running_write_replaces_own_witness :
  ∃ w t r k, reachable issue_anchor true w ∧ w_threads w !! 0%nat = Some t ∧ alive (w_env w) t ∧ th_prog t = Do (OPut r) k ∧
    w_Attempt r = 1 ∧ ∃ c, Get (e_store (w_env w)) issue_anchor = Some c ∧ w_State c = StatePendingPrompt ∧ w_ReservationID c = w_ReservationID r.
Proof.
  destruct (performs_about_to_run true one_dispatch 0 1 (300 * Second) 1) as (w & t & r & k & c & Hw & Hi & Hal & Hp & Hr & Hc & Hm);
    [vm_compute; reflexivity|vm_compute; reflexivity|].
  exists w, t, r, k. repeat (split; [assumption|]).
  destruct (running_write_replaces_own issue_anchor w 0 t r k Hw Hi Hal Hp) as [(c' & rev & prior & Hc' & _ & _ & Hs & _ & Hri & _) _].
  exists c'. auto.
Defined.
