(* ===== verification/Explain.v ===== *)
(** * [pkg/effects]: what is said of a refused batch ([feedback.go])

    The sentence, and the set it is about, that the next attempt is told of a
    batch a gate refused. Every word is of a fixed sentence, of a closed set, a
    number that was counted, or one token. *)

From Stdlib Require Import Ascii.
From S2P Require Import Prelude.
From S2P Require Import GoStrings.
From S2P Require Import GoPath.
From S2P Require Import FixGate.
From S2P Require Import CiValue.
From S2P Require Import Effects.
From S2P Require Import WorkStore.
From S2P Require Import RetryFeedback.

(** What [encoding/json] says of a text it did not decode: the text ended early, a
    syntax error and where, a value of the wrong type, a key of no field; and the
    keys of a batch read loosely, of its effects with their kinds, of their
    evidence. *)
Inductive json_failure :=
| EndedEarly | SyntaxAt (offset : Z) | WrongType (field value : string) | UnknownField (name : string) | OtherFailure.
Record loose_effect := mkLooseEffect { le_Keys : list string; le_Kind : Kind; le_Evidence : list (list string) }.
Class JsonTroubles := {
  undecodable : string → json_failure;
  loose : string → option (list string * list loose_effect);
}.

(** ** The key lists *)

Definition fixKindOrder : list Kind := [KindEdit; KindFixMeta; KindScopeRequest].
Definition FixKinds : list Kind := fixKindOrder.
Definition FixVerdicts : list Verdict := [VerdictFix; VerdictNeedsScope].

(** The fields of the structs with the key [jsonKey] reads off their tags. *)
Definition effect_keys : list (string * string) :=
  [("Kind", "kind"); ("Body", "body"); ("Add", "add"); ("Remove", "remove"); ("Title", "title"); ("Path", "path");
   ("Content", "content"); ("TargetIID", "target_iid"); ("TargetType", "target_type"); ("Classification", "classification");
   ("Summary", "summary"); ("Evidence", "evidence"); ("Remedy", "remedy"); ("Files", "files"); ("Old", "old"); ("New", "new");
   ("Paths", "paths"); ("Reason", "reason")].
Definition batch_keys : list (string * string) := [("Effects", "effects"); ("Verdict", "verdict")].
Definition evidence_keys : list (string * string) := [("Job", "job"); ("Line", "line"); ("Fact", "fact")].

Definition keysOf (t : list (string * string)) (own : string → bool) : list string :=
  map snd (List.filter (λ f, own f.1) t).
Definition KindKeys (k : Kind) : option (list string) :=
  match (if String.eqb k KindDiagnosis then Some diagnosisFields else fixKindFields k) with
  | None => None
  | Some own => Some (keysOf effect_keys (λ f, String.eqb f "Kind" || contains own f))
  end.
Definition BatchKeys : list string := keysOf batch_keys (λ _, true).
Definition EvidenceItemKeys : list string := keysOf evidence_keys (λ _, true).

Definition kindKeysText (k : Kind) : string :=
  "the keys of an effect of kind " +:+ k +:+ " are: " +:+ Join (default [] (KindKeys k)) ", ".
Definition kind_part (k : Kind) : list string :=
  match KindKeys k with Some keys => [k +:+ ": " +:+ Join keys ", "] | None => [] end.
Definition allKindKeysText (kinds : list Kind) : string :=
  match concat (map kind_part kinds) with
  | [] => ""
  | parts => "the keys of each effect kind are -- " +:+ Join parts "; "
  end.
Definition batchKeysText : string := "the keys of the batch itself are: " +:+ Join BatchKeys ", ".
Definition evidenceKeysText : string := "the keys of an evidence item are: " +:+ Join EvidenceItemKeys ", ".
Definition classesText : string := "the classifications are: " +:+ Join classificationOrder ", ".
Definition filesRequiredText : string :=
  "the classifications that need at least one entry in files are: " +:+ Join ClassesRequiringFiles ", ".
Definition kindsText (kinds : list Kind) : string := "the effect kinds of this task are: " +:+ Join kinds ", ".
Definition KeyReference (kinds : list Kind) (withBatch : bool) : string :=
  (if withBatch then line ("- the batch: " +:+ Join BatchKeys ", ") else "") +:+
  lines (map (λ k, "- " +:+ k +:+ ": " +:+ Join (default [] (KindKeys k)) ", ") kinds).

(** ** Where in the batch *)

Definition effectAt (i n : Z) (k : Kind) : string :=
  "effect " +:+ itoa (i + 1) +:+ " of " +:+ itoa n +:+ (if contains knownKinds k then " (" +:+ k +:+ ")" else "").
Definition at_index {A} (l : list A) (i : Z) : option A := if i <? 0 then None else l !! Z.to_nat i.
Definition effectOf (b : Batch) (i : Z) : string :=
  match at_index (b_Effects b) i with
  | Some e => effectAt i (Z.of_nat (length (b_Effects b))) (e_Kind e)
  | None => "the batch"
  end.

(** ** A batch that could not be read *)

Definition ExplainNoBatch : Feedback :=
  mkFeedback "no-batch" "the output held no batch between the two fence lines shown under OUTPUT" "".

Section parse.
Context `{GoUnicode} `{JsonTroubles}.

Definition ownsKey (t : list (string * string)) (key : string) : bool := existsb (λ f, EqualFold f.2 key) t.
Definition misses (t : list (string * string)) (keys : list string) (name : string) : bool :=
  contains keys name && negb (ownsKey t name).
Definition no_such_key (at_ name : string) : string := at_ +:+ " has a key that does not exist: " +:+ Token name.

Fixpoint locate_evidence (k n : Z) (at_ name : string) (items : list (list string)) : option (string * string) :=
  match items with
  | [] => None
  | it :: items =>
      if misses evidence_keys it name
      then Some (no_such_key ("evidence item " +:+ itoa (k + 1) +:+ " of " +:+ itoa n +:+ " in " +:+ at_) name, evidenceKeysText)
      else locate_evidence (k + 1) n at_ name items
  end.
Fixpoint locate_effect (i n : Z) (name : string) (kinds : list Kind) (effs : list loose_effect) : option (string * string) :=
  match effs with
  | [] => None
  | e :: effs =>
      let at_ := effectAt i n (le_Kind e) in
      if misses effect_keys (le_Keys e) name
      then Some (no_such_key at_ name, match KindKeys (le_Kind e) with Some _ => kindKeysText (le_Kind e) | None => allKindKeysText kinds end)
      else match locate_evidence 0 (Z.of_nat (length (le_Evidence e))) at_ name (le_Evidence e) with
           | Some found => Some found
           | None => locate_effect (i + 1) n name kinds effs
           end
  end.
Definition locateUnknownKey (raw name : string) (kinds : list Kind) : string * string :=
  match loose (escapeRawControlsInStrings raw) with
  | None => (no_such_key "the batch" name, allKindKeysText kinds)
  | Some (top, effs) =>
      if misses batch_keys top name then (no_such_key "the batch itself" name, batchKeysText)
      else match locate_effect 0 (Z.of_nat (length effs)) name kinds effs with
           | Some found => found
           | None => (no_such_key "the batch" name, allKindKeysText kinds)
           end
  end.

Definition parse_text (raw : string) (err : parse_error) (kinds : list Kind) : string * string :=
  match err with
  | ParseUnknownKind i v => ("effect " +:+ itoa (i + 1) +:+ " has a kind that does not exist: " +:+ Token v, kindsText kinds)
  | ParseUnknownClassification i v =>
      ("effect " +:+ itoa (i + 1) +:+ " states a classification that does not exist: " +:+ Token v, classesText)
  | ParseUnknownVerdict v => ("the batch states a verdict that does not exist: " +:+ Token v, "")
  | DuplicateKey =>
      ("the batch itself states the same key more than once: each of its keys is stated at most once", batchKeysText)
  | TrailingData =>
      ("there is text after the end of the JSON object between the fence lines: the batch is exactly one JSON object and nothing else", "")
  | NotDecoded =>
      match undecodable (escapeRawControlsInStrings raw) with
      | EndedEarly =>
          ("the JSON between the fence lines ended before it was complete: a string, a bracket or a brace was left open, or there was no JSON at all", "")
      | SyntaxAt offset =>
          ("the text between the fence lines is not valid JSON (the first error is at byte " +:+ itoa offset +:+ " of " +:+ itoa (len raw) +:+ ")", "")
      | WrongType field value =>
          ("the value of key " +:+ Token field +:+ " has the wrong JSON type (it is a " +:+ Token value +:+ ")", "")
      | UnknownField name => locateUnknownKey raw name kinds
      | OtherFailure => ("the batch could not be read as the JSON object shown under OUTPUT", "")
      end
  end.
Definition ExplainParse (raw : string) (err : parse_error) (kinds : list Kind) : Feedback :=
  let '(what, allowed) := parse_text raw err kinds in mkFeedback "parse" what allowed.
End parse.

(** ** The pack's shape *)

Definition card_text (k : Kind) (c : Card) : string :=
  if Max c =? N then k +:+ " at least " +:+ itoa (Min c)
  else if Min c =? Max c then k +:+ " exactly " +:+ itoa (Min c)
  else k +:+ " " +:+ itoa (Min c) +:+ " to " +:+ itoa (Max c).
Definition ExplainShape (s : Shape) : Feedback :=
  mkFeedback "shape"
    "the batch does not hold the effects this task takes: a kind is missing, repeated too often, or not one of them"
    ("the effects of one batch are -- " +:+
     Join (map (λ k, card_text k (default (mkCard 0 0) (s !! k))) (sorted_keys s)) "; ").

(** ** A fix batch *)

Definition quoted (s : string) : string := quotation +:+ s +:+ quotation.
Definition fixRuleText : list (Rule * string) :=
  [(RuleFixShape, "the batch is not shaped as a fix batch");
   (RuleForm, "an edit is not well formed");
   (RuleProtected, "an edit names a file that is protected");
   (RuleClass, "an edit names a file of a kind this fix may not change");
   (RuleCited, "an edit names a file that is not in the list of files you may change");
   (RuleBead, "an edit names a file outside the paths this fix may change");
   (RuleSize, "the change is larger than a stated limit");
   (RuleSecret, "the change adds text that looks like a credential");
   (RuleEditMissing, "an edit names a file that does not exist at the commit; a file cannot be created");
   (RuleEditEncoding, "an edit names a file that is binary or not UTF-8");
   (RuleEditNoMatch, "the " +:+ quoted "old" +:+ " text of an edit does not occur in the file exactly as written");
   (RuleEditAmbiguous, "the " +:+ quoted "old" +:+ " text of an edit occurs more than once in the file");
   (RuleEditEmpties, "the edits leave a file empty");
   (RuleEditNoop, "the edits leave a file exactly as it was")].
Definition fixShapeText : list (string * string) :=
  [("verdict", "the batch does not state one of the two verdicts of this task");
   ("fix-with-request", "a batch with verdict fix carries a scope_request");
   ("fix-needs-edit", "a batch with verdict fix carries no edit");
   ("fix-needs-meta", "a batch with verdict fix must carry exactly one fix_meta");
   ("needs-scope-with-edit", "a batch with verdict needs-scope carries an edit");
   ("needs-scope-with-meta", "a batch with verdict needs-scope carries a fix_meta");
   ("needs-scope-needs-request", "a batch with verdict needs-scope must carry exactly one scope_request");
   ("edit-needs-fix", "an edit is only valid under verdict fix");
   ("meta-needs-fix", "a fix_meta is only valid under verdict fix");
   ("request-needs-needs-scope", "a scope_request is only valid under verdict needs-scope");
   ("edit-count", "the batch carries more edits than the stated limit");
   ("kind", "an effect is of a kind that does not belong in this batch");
   ("foreign-field", "an effect carries a key that belongs to another kind");
   ("paths-count", "the scope_request names more paths than the stated limit");
   ("paths-form", "a path of the scope_request is not a clean repository-relative path");
   ("reason-empty", "the fix_meta or scope_request has no reason");
   ("reason-cap", "the reason is longer than the stated limit");
   ("path", "the path of an edit is not a clean repository-relative path");
   ("old-empty", "the " +:+ quoted "old" +:+ " text of an edit is empty");
   ("identical", "the " +:+ quoted "old" +:+ " and " +:+ quoted "new" +:+ " text of an edit are the same");
   ("nul", "the " +:+ quoted "old" +:+ " or " +:+ quoted "new" +:+ " text of an edit holds a NUL byte");
   ("utf8", "the " +:+ quoted "old" +:+ " or " +:+ quoted "new" +:+ " text of an edit is not valid UTF-8")].
(** A Go map read with its zero value. *)
Definition text_of (t : list (string * string)) (k : string) : string :=
  match List.find (λ e, String.eqb e.1 k) t with Some e => e.2 | None => "" end.
Definition RuleText (r : Rule) : string := text_of fixRuleText r.

Definition or_text (s t : string) : string := if String.eqb s "" then t else s.
Definition ExplainFix (r : Refusal) (b : Batch) : Feedback :=
  let shaped := String.eqb (rf_Rule r) RuleFixShape || String.eqb (rf_Rule r) RuleForm in
  let what := or_text (if shaped then or_text (text_of fixShapeText (rf_Sub r)) (RuleText (rf_Rule r)) else RuleText (rf_Rule r))
                      "the answer broke a rule of this task" in
  let '(what, allowed) :=
    match at_index (b_Effects b) (rf_Effect r) with
    | Some e =>
        (what +:+ " (" +:+ effectOf b (rf_Effect r) +:+ ")",
         match KindKeys (e_Kind e) with Some _ => if shaped then kindKeysText (e_Kind e) else "" | None => "" end)
    | None => (what, "")
    end in
  let allowed := if String.eqb (rf_Rule r) RuleFixShape && String.eqb (rf_Sub r) "kind" then kindsText fixKindOrder else allowed in
  let allowed := if String.eqb (rf_Rule r) RuleFixShape && String.eqb (rf_Sub r) "verdict"
                 then "the verdicts are: " +:+ VerdictFix +:+ ", " +:+ VerdictNeedsScope else allowed in
  mkFeedback (Code r) what allowed.

(** ** A diagnosis *)

Definition first_diagnosis (b : Batch) : Effect :=
  default (effect "") (List.find (λ e, String.eqb (e_Kind e) KindDiagnosis) (b_Effects b)).
Definition evidenceAt (d : Effect) (item : Z) : string :=
  match at_index (evidence_of d) item with
  | Some _ => "evidence item " +:+ itoa (item + 1) +:+ " of " +:+ itoa (Z.of_nat (length (evidence_of d)))
  | None => "an evidence item"
  end.
Definition diagnosis_text (err : diagnosis_error) (d : Effect) : string * string :=
  match err with
  | ErrDiagnosisForeignField _ => ("the diagnosis carries a key that belongs to another kind", kindKeysText KindDiagnosis)
  | ErrDiagnosisClassification => ("the classification is not one that exists: " +:+ Token (Classification d), classesText)
  | ErrDiagnosisSummaryEmpty => ("the summary is empty", "")
  | ErrDiagnosisSummaryTooLong => ("the summary is longer than " +:+ itoa MaxDiagnosisSummaryChars +:+ " characters", "")
  | ErrDiagnosisRemedyEmpty => ("the remedy is empty", "")
  | ErrDiagnosisRemedyTooLong => ("the remedy is longer than " +:+ itoa MaxDiagnosisRemedyChars +:+ " characters", "")
  | ErrDiagnosisEvidenceCount =>
      ("evidence holds " +:+ itoa (Z.of_nat (length (evidence_of d))) +:+ " items; it takes " +:+ itoa MinDiagnosisEvidence +:+
       " to " +:+ itoa MaxDiagnosisEvidence, "")
  | ErrDiagnosisEvidenceShape item =>
      (evidenceAt d item +:+ " must carry exactly one of line and fact, and it must not be blank", evidenceKeysText)
  | ErrDiagnosisEvidenceFact item =>
      (evidenceAt d item +:+ " names a fact key that does not exist" +:+
       match at_index (evidence_of d) item with Some ev => ": " +:+ Token (ev_Fact ev) | None => "" end, FactsText)
  | ErrDiagnosisEvidenceJob item =>
      (evidenceAt d item +:+ " names a job that is not one of the failed jobs, copied exactly from its heading", "")
  | ErrDiagnosisNoLineEvidence => ("no evidence item quotes a log line, although a failed job has a log excerpt", "")
  | ErrDiagnosisFileCount =>
      ("files holds " +:+ itoa (Z.of_nat (length (files_of d))) +:+ " paths; it takes at most " +:+ itoa MaxDiagnosisFiles, "")
  | ErrDiagnosisFilePath item =>
      (match at_index (files_of d) item with
       | Some _ => "entry " +:+ itoa (item + 1) +:+ " of " +:+ itoa (Z.of_nat (length (files_of d))) +:+
                   " in files is not a clean repository-relative path"
       | None => "an entry of files is not a clean repository-relative path"
       end, "")
  | ErrDiagnosisFilesRequired =>
      ((if contains classificationOrder (Classification d) && contains classesRequiringFiles (Classification d)
        then "classification " +:+ Classification d +:+ " needs at least one entry in files, and files is empty"
        else "the classification needs at least one entry in files, and files is empty"), filesRequiredText)
  end.
Definition ExplainDiagnosis (err : diagnosis_error) (b : Batch) : Feedback :=
  let '(what, allowed) := diagnosis_text err (first_diagnosis b) in mkFeedback "diagnosis" what allowed.

(** ** What is said is short and printable *)

Definition plain (n : Z) (s : string) : Prop := all_bytes clean_byte s = true ∧ len s <= n.

Lemma plain_app a b s t : plain a s → plain b t → plain (a + b) (s +:+ t).
Proof. intros [H1 H2] [H3 H4]. split; [by rewrite all_bytes_app, H1, H3|]. rewrite len_app. lia. Qed.
Lemma plain_le a b s : plain a s → a <= b → plain b s.
Proof. intros [H1 H2] H. split; [done|lia]. Qed.
Definition plainb (n : Z) (s : string) : bool := all_bytes clean_byte s && (len s <=? n).
Lemma plain_dec n s : plainb n s = true → plain n s.
Proof. intros [H1 H2]%andb_prop. split; [done|lia]. Qed.
Lemma plain_text s : all_bytes clean_byte s = true → plain (len s) s.
Proof. by split. Qed.

Definition few (n : Z) : Prop := 0 <= n < 10 ^ 9.
Lemma itoa_plain z : 0 <= z <= 10 ^ 9 → plain 10 (itoa z).
Proof.
  intros Hz. split.
  - apply all_bytes_impl with is_digit; [intros c|].
    + unfold is_digit, in_range, clean_byte, unsafe_byte. lia.
    + unfold itoa. destruct (Z.ltb_spec z 0); [lia|]. apply digits_bytes.
  - destruct (decide (z = 0)) as [->|]; [by vm_compute|].
    assert (len (itoa (10 ^ 9)) = 10) as <- by (vm_compute; reflexivity). apply itoa_len_mono. lia.
Qed.
Lemma Token_plain s : plain 40 (Token s).
Proof.
  destruct (Token_safe s) as (body & -> & Hl & Hb & _). unfold MaxTokenBytes in Hl. split.
  - assert (all_bytes clean_byte body = true) as Hc.
    { eapply all_bytes_impl; [|exact Hb]. intros c. unfold token_byte, is_digit, in_range, clean_byte, unsafe_byte.
      destruct (Ascii.eqb_spec c "_"), (Ascii.eqb_spec c "."), (Ascii.eqb_spec c "-"), (Ascii.eqb_spec c "?"); subst;
        try (intros _; by vm_compute). lia. }
    change (all_bytes clean_byte (String quote "" +:+ body +:+ String quote (if MaxTokenBytes <? len s then " (cut)" else "")) = true).
    rewrite !all_bytes_app, Hc. destruct (MaxTokenBytes <? len s); by vm_compute.
  - change (len (String quote "" +:+ body +:+ String quote (if MaxTokenBytes <? len s then " (cut)" else "")) <= 40).
    rewrite !len_app. change (len (String quote "")) with 1.
    assert (len (String quote (if MaxTokenBytes <? len s then " (cut)" else "")) <= 7) by (destruct (MaxTokenBytes <? len s); by vm_compute).
    lia.
Qed.

(** Splits a text into its parts, and computes what is fixed. *)
Ltac plain_part :=
  lazymatch goal with
  | |- plain _ (_ +:+ _) => eapply plain_app; plain_part
  | |- plain _ (itoa (Z.of_nat _)) => first [apply itoa_plain; unfold few in *; lia | apply plain_text; vm_compute; reflexivity]
  | |- plain _ (itoa _) => first [apply itoa_plain; unfold few in *; lia | apply plain_text; vm_compute; reflexivity]
  | |- plain _ (Token _) => apply Token_plain
  | |- plain _ _ => first [eassumption | apply plain_text; vm_compute; reflexivity]
  end.
Ltac plain_solve := eapply plain_le; [plain_part | vm_compute; congruence].

Lemma effectAt_plain i n k : few i → few n → plain 60 (effectAt i n k).
Proof.
  intros Hi Hn. unfold effectAt.
  assert (plain 16 (if contains knownKinds k then " (" +:+ k +:+ ")" else "")) as Hk.
  { destruct (contains knownKinds k) eqn:E; [|by apply plain_dec].
    apply contains_elem in E. unfold knownKinds in E. rewrite !elem_of_cons, elem_of_nil in E.
    repeat destruct E as [->|E]; try done; by apply plain_dec. }
  plain_solve.
Qed.
Lemma effectOf_plain b i : few (Z.of_nat (length (b_Effects b))) → plain 60 (effectOf b i).
Proof.
  intros Hn. unfold effectOf, at_index. destruct (Z.ltb_spec i 0); [by apply plain_dec|].
  destruct (b_Effects b !! Z.to_nat i) as [e|] eqn:E; [|by apply plain_dec].
  apply lookup_lt_Some in E. apply effectAt_plain; [|done]. unfold few in *. lia.
Qed.
Lemma kindKeysText_plain k keys : KindKeys k = Some keys → plain 200 (kindKeysText k).
Proof.
  unfold KindKeys, fixKindFields. intros H.
  destruct (String.eqb_spec k KindDiagnosis) as [->|_]; [by apply plain_dec|].
  destruct (String.eqb_spec k KindEdit) as [->|_]; [by apply plain_dec|].
  destruct (String.eqb_spec k KindFixMeta) as [->|_]; [by apply plain_dec|].
  destruct (String.eqb_spec k KindScopeRequest) as [->|_]; [by apply plain_dec|done].
Qed.
Lemma kinds_plain agent : plain 200 (allKindKeysText (retryFeedbackKinds agent)) ∧ plain 200 (kindsText (retryFeedbackKinds agent)).
Proof.
  unfold retryFeedbackKinds.
  destruct (String.eqb agent pipefixAgent); [by split; apply plain_dec|].
  destruct (String.eqb agent pipelineAgent); [by split; apply plain_dec|].
  destruct (String.eqb agent triageAgent); [by split; apply plain_dec|].
  destruct (String.eqb agent scaffoldAgent); by split; apply plain_dec.
Qed.

(** The sentence and the set fit the lines they are shown in, and no byte of them
    is replaced there. *)
Definition uncut (fb : Feedback) : Prop :=
  feedbackText (fb_What fb) retryFeedbackCapWhat = fb_What fb ∧ feedbackText (fb_Allowed fb) retryFeedbackCapAllowed = fb_Allowed fb.
Lemma uncut_plain fb : plain 200 (fb_What fb) → plain 200 (fb_Allowed fb) → uncut fb.
Proof. intros [H1 H2] [H3 H4]. split; apply feedbackText_clean; done. Qed.

Section fits.
Context `{GoUnicode} `{JsonTroubles}.

Lemma no_such_key_plain at_ name : plain 110 at_ → plain 200 (no_such_key at_ name).
Proof. intros Ha. unfold no_such_key. plain_solve. Qed.

Definition fits (r : string * string) : Prop := plain 200 r.1 ∧ plain 200 r.2.

Lemma locate_evidence_fits k n at_ name items r : few (k + Z.of_nat (length items)) → 0 <= k → few n → plain 60 at_ →
  locate_evidence k n at_ name items = Some r → fits r.
Proof.
  intros Hk Hp Hn Ha. revert k Hk Hp. induction items as [|it items IH]; intros k Hk Hp; cbn; [done|].
  cbn in Hk. destruct (misses _ it name).
  - intros [= <-]. split; [|by apply plain_dec]. apply no_such_key_plain.
    unfold few in *. plain_solve.
  - apply IH; [|lia]. unfold few in *. lia.
Qed.
Lemma locate_effect_fits i n name agent effs r : few (i + Z.of_nat (length effs)) → 0 <= i → few n →
  (∀ e, e ∈ effs → few (Z.of_nat (length (le_Evidence e)))) →
  locate_effect i n name (retryFeedbackKinds agent) effs = Some r → fits r.
Proof.
  intros Hi Hp Hn. revert i Hi Hp. induction effs as [|e effs IH]; intros i Hi Hp He; cbn; [done|].
  cbn in Hi. assert (plain 60 (effectAt i n (le_Kind e))) as Ha by (apply effectAt_plain; [unfold few in *; lia|done]).
  destruct (misses effect_keys _ name).
  - intros [= <-]. split; [apply no_such_key_plain; eapply plain_le; [exact Ha|lia]|]. cbn.
    destruct (KindKeys _) eqn:E; [by eapply kindKeysText_plain | apply kinds_plain].
  - destruct (locate_evidence _ _ _ _ _) eqn:E.
    + intros [= <-]. eapply locate_evidence_fits; [| | |exact Ha|exact E]; [|lia|]; apply He; left.
    + apply IH; [unfold few in *; lia|lia|]. intros e' He'. apply He. by right.
Qed.

(** Fewer than a thousand million bytes, effects and items: what a number is
    printed of. *)
Definition few_of (raw : string) (err : parse_error) : Prop :=
  match err with
  | ParseUnknownKind i _ | ParseUnknownClassification i _ => few i
  | NotDecoded =>
      match undecodable (escapeRawControlsInStrings raw) with
      | SyntaxAt offset => few offset ∧ few (len raw)
      | UnknownField _ =>
          ∀ top effs, loose (escapeRawControlsInStrings raw) = Some (top, effs) →
            few (Z.of_nat (length effs)) ∧ ∀ e, e ∈ effs → few (Z.of_nat (length (le_Evidence e)))
      | _ => True
      end
  | _ => True
  end.

Lemma locateUnknownKey_fits raw name agent :
  (∀ top effs, loose (escapeRawControlsInStrings raw) = Some (top, effs) →
    few (Z.of_nat (length effs)) ∧ ∀ e, e ∈ effs → few (Z.of_nat (length (le_Evidence e)))) →
  fits (locateUnknownKey raw name (retryFeedbackKinds agent)).
Proof.
  intros Hf. unfold locateUnknownKey.
  assert (∀ at_ rest, plain 110 at_ → plain 200 rest → fits (no_such_key at_ name, rest)) as Hk.
  { intros at_ rest Ha Hr. split; [by apply no_such_key_plain|exact Hr]. }
  destruct (loose _) as [[top effs]|]; [|apply Hk; [by apply plain_dec|apply kinds_plain]].
  destruct (Hf top effs eq_refl) as [Hn He].
  destruct (misses batch_keys top name); [apply Hk; by apply plain_dec|].
  destruct (locate_effect _ _ _ _ _) as [r|] eqn:E; [|apply Hk; [by apply plain_dec|apply kinds_plain]].
  by eapply locate_effect_fits; [..|exact E].
Qed.

Lemma ExplainParse_uncut raw err agent : few_of raw err → uncut (ExplainParse raw err (retryFeedbackKinds agent)).
Proof.
  intros Hf. unfold ExplainParse. destruct (parse_text raw err _) as [what allowed] eqn:E.
  assert (fits (what, allowed)) as [H1 H2]; [|by apply uncut_plain]. rewrite <- E. clear E.
  destruct (kinds_plain agent) as [Ha Hk].
  assert (∀ s, plainb 200 s = true → fits (s, "")) as Hs by (intros s Hs; split; by apply plain_dec).
  destruct err; cbn [parse_text few_of] in *.
  - destruct (undecodable _); [by apply Hs| | |by apply locateUnknownKey_fits|by apply Hs];
      (split; [|by apply plain_dec]); cbn [fst]; [destruct Hf; unfold few in *|]; plain_solve.
  - by apply Hs.
  - by split; apply plain_dec.
  - split; [cbn [fst]; unfold few in *; plain_solve|exact Hk].
  - split; [cbn [fst]; unfold few in *; plain_solve|by apply plain_dec].
  - split; [cbn [fst]; plain_solve|by apply plain_dec].
Qed.
End fits.

(** ** The two explanations read off a batch *)

Definition sentences_plain (t : list (string * string)) : bool := forallb (λ e, plainb 120 e.2) t.
Lemma text_of_plain t k : sentences_plain t = true → plain 120 (text_of t k).
Proof.
  intros Ht. unfold text_of. destruct (List.find _ t) as [e|] eqn:E; [|by apply plain_dec].
  apply List.find_some in E as [E _]. apply plain_dec. unfold sentences_plain in Ht. rewrite forallb_forall in Ht. by apply Ht.
Qed.
Lemma or_text_plain n s t : plain n s → plain n t → plain n (or_text s t).
Proof. unfold or_text. by destruct (String.eqb s ""). Qed.

Lemma ExplainFix_uncut r b : few (Z.of_nat (length (b_Effects b))) → uncut (ExplainFix r b).
Proof.
  intros Hn. unfold ExplainFix. set (shaped := _ || _).
  set (what := or_text _ "the answer broke a rule of this task").
  assert (plain 120 what) as Hw.
  { apply or_text_plain; [|by apply plain_dec]. destruct shaped; [apply or_text_plain|]; by apply text_of_plain. }
  set (pair := match at_index (b_Effects b) (rf_Effect r) with Some e => _ | None => _ end).
  assert (plain 200 pair.1 ∧ plain 200 pair.2) as [H1 H2].
  { unfold pair. destruct (at_index _ _) as [e|]; [|split; [by eapply plain_le|by apply plain_dec]]. split.
    - pose proof (effectOf_plain b (rf_Effect r) Hn). cbn [fst]. plain_solve.
    - cbn [snd]. destruct (KindKeys (e_Kind e)) eqn:E; [|by apply plain_dec].
      destruct shaped; [by eapply kindKeysText_plain|by apply plain_dec]. }
  clearbody pair. destruct pair as [w al]. apply uncut_plain; [exact H1|]. cbn [fb_Allowed].
  destruct (_ && _); [by apply plain_dec|]. destruct (_ && _); [by apply plain_dec|exact H2].
Qed.

Definition few_evidence (d : Effect) : Prop := few (Z.of_nat (length (evidence_of d))) ∧ few (Z.of_nat (length (files_of d))).

Lemma evidenceAt_plain d item : few_evidence d → plain 40 (evidenceAt d item).
Proof.
  intros [Hn _]. unfold evidenceAt, at_index. destruct (Z.ltb_spec item 0); [by apply plain_dec|].
  destruct (evidence_of d !! Z.to_nat item) eqn:E; [|by apply plain_dec].
  apply lookup_lt_Some in E. assert (few item) by (unfold few in *; lia). plain_solve.
Qed.

Lemma ExplainDiagnosis_uncut err b : few_evidence (first_diagnosis b) → uncut (ExplainDiagnosis err b).
Proof.
  intros Hd. unfold ExplainDiagnosis. destruct (diagnosis_text err _) as [what allowed] eqn:E.
  assert (fits (what, allowed)) as [H1 H2]; [|by apply uncut_plain]. rewrite <- E. clear E.
  set (d := first_diagnosis b) in *. clearbody d.
  pose proof (λ item, evidenceAt_plain d item Hd) as He. destruct Hd as [Hn Hm].
  destruct err; cbn [diagnosis_text]; try (split; by apply plain_dec).
  - split; [|by apply plain_dec]. cbn [fst]. plain_solve.
  - split; [|by apply plain_dec]. cbn [fst]. plain_solve.
  - split; [|by apply plain_dec]. cbn [fst]. specialize (He item). plain_solve.
  - split; [|by apply plain_dec]. cbn [fst]. specialize (He item).
    assert (plain 42 match at_index (evidence_of d) item with Some ev => ": " +:+ Token (ev_Fact ev) | None => "" end) as Ht.
    { destruct (at_index _ _); [plain_solve|by apply plain_dec]. }
    plain_solve.
  - split; [|by apply plain_dec]. cbn [fst]. specialize (He item). plain_solve.
  - split; [|by apply plain_dec]. cbn [fst]. plain_solve.
  - split; [|by apply plain_dec]. cbn [fst]. unfold at_index. destruct (Z.ltb_spec item 0); [by apply plain_dec|].
    destruct (files_of d !! Z.to_nat item) eqn:E; [|by apply plain_dec].
    apply lookup_lt_Some in E. assert (few item) by (unfold few in *; lia). plain_solve.
  - split; [|by apply plain_dec]. cbn [fst]. destruct (contains classificationOrder _) eqn:E; [|by apply plain_dec].
    assert (plain 20 (Classification d)) as Hc.
    { apply contains_elem in E. unfold classificationOrder in E. rewrite !elem_of_cons, elem_of_nil in E.
      repeat destruct E as [->|E]; try done; by apply plain_dec. }
    cbn [andb]. destruct (contains classesRequiringFiles _); [plain_solve|by apply plain_dec].
Qed.

(** ** Nothing else of the batch is said *)

Lemma at_index_map {A B} (f : A → B) l i : at_index (map f l) i = f <$> at_index l i.
Proof. unfold at_index. destruct (i <? 0); [done|]. by rewrite list_lookup_fmap. Qed.

Lemma ExplainFix_kinds r b b' : map e_Kind (b_Effects b') = map e_Kind (b_Effects b) → ExplainFix r b' = ExplainFix r b.
Proof.
  intros Hk. assert (length (b_Effects b') = length (b_Effects b)) as Hl by (by rewrite <- (length_map e_Kind), Hk, length_map).
  assert (e_Kind <$> at_index (b_Effects b') (rf_Effect r) = e_Kind <$> at_index (b_Effects b) (rf_Effect r)) as Hi
    by (by rewrite <- !at_index_map, Hk).
  unfold ExplainFix, effectOf. rewrite Hl.
  destruct (at_index (b_Effects b') _) as [e'|], (at_index (b_Effects b) _) as [e|]; try done. cbn in Hi. injection Hi as ->. done.
Qed.

(** What of a diagnosis is read: its class, the fact keys, how many files. *)
Lemma ExplainDiagnosis_read err b b' :
  let d := first_diagnosis b in let d' := first_diagnosis b' in
  Classification d' = Classification d → map ev_Fact (evidence_of d') = map ev_Fact (evidence_of d) →
  length (files_of d') = length (files_of d) → ExplainDiagnosis err b' = ExplainDiagnosis err b.
Proof.
  cbv zeta. unfold ExplainDiagnosis. set (d := first_diagnosis b). set (d' := first_diagnosis b'). intros Hc He Hf.
  assert (length (evidence_of d') = length (evidence_of d)) as Hl by (by rewrite <- (length_map ev_Fact), He, length_map).
  assert (∀ i, ev_Fact <$> at_index (evidence_of d') i = ev_Fact <$> at_index (evidence_of d) i) as Hi
    by (intros i; by rewrite <- !at_index_map, He).
  assert (∀ i, evidenceAt d' i = evidenceAt d i) as Hat.
  { intros i. unfold evidenceAt. rewrite Hl. specialize (Hi i). by destruct (at_index (evidence_of d') i), (at_index (evidence_of d) i). }
  assert (diagnosis_text err d' = diagnosis_text err d) as ->; [|done].
  destruct err; cbn [diagnosis_text]; rewrite ?Hc, ?Hl, ?Hf, ?Hat; try done.
  - specialize (Hi item). destruct (at_index (evidence_of d') item), (at_index (evidence_of d) item); try done. cbn in Hi. by injection Hi as ->.
  - assert (is_Some (at_index (files_of d') item) ↔ is_Some (at_index (files_of d) item)) as Hs.
    { unfold at_index. destruct (item <? 0); [done|]. by rewrite !lookup_lt_is_Some, Hf. }
    destruct (at_index (files_of d') item), (at_index (files_of d) item); try done; exfalso; destruct Hs as [H1 H2];
      [destruct H1; [by eexists|done] | destruct H2; [by eexists|done]].
Qed.

(** The keys a kind is said to have are the keys its effects may have: nothing
    foreign is set exactly when every key that is set is one of them, or a
    target's. *)
Definition key_of (field : string) : string := text_of effect_keys field.
Definition keys_set (e : Effect) : list string := map (λ f, key_of f.1) (List.filter (λ f, negb f.2) (fields e)).
Definition target_keys : list string := map key_of targetFields.
Definition own_fields (k : Kind) : list string :=
  if String.eqb k KindDiagnosis then diagnosisFields else default [] (fixKindFields k).
Definition keys_agree (k : Kind) : bool :=
  forallb (λ n, Bool.eqb (String.eqb n "Kind" || contains (own_fields k) n || contains targetFields n)
                         (contains (default [] (KindKeys k) ++ target_keys) (key_of n)))
          (map fst (fields (effect k))).

Lemma KindKeys_agree k keys : KindKeys k = Some keys → keys_agree k = true.
Proof.
  unfold KindKeys, fixKindFields.
  destruct (String.eqb_spec k KindDiagnosis) as [->|_]; [by vm_compute|].
  destruct (String.eqb_spec k KindEdit) as [->|_]; [by vm_compute|].
  destruct (String.eqb_spec k KindFixMeta) as [->|_]; [by vm_compute|].
  destruct (String.eqb_spec k KindScopeRequest) as [->|_]; [by vm_compute|done].
Qed.
Lemma KindKeys_exact e keys : KindKeys (e_Kind e) = Some keys →
  foreignTo e (own_fields (e_Kind e)) = None ↔ ∀ k, k ∈ keys_set e → k ∈ keys ++ target_keys.
Proof.
  intros Hk. pose proof (KindKeys_agree _ _ Hk) as Ha. unfold keys_agree in Ha. rewrite Hk in Ha. cbn [default] in Ha.
  rewrite forallb_forall in Ha.
  assert (∀ f, f ∈ fields e → In f.1 (map fst (fields (effect (e_Kind e))))) as Hn.
  { intros f Hf. change (map fst (fields (effect (e_Kind e)))) with (map fst (fields e)). by apply in_map, list_elem_of_In. }
  unfold foreignTo. destruct (List.find _ (fields e)) as [[n z]|] eqn:E.
  - split; [done|]. intros Hall. exfalso. apply List.find_some in E as [Hin E]. rewrite <- list_elem_of_In in Hin.
    apply andb_prop in E as [E Ez]. specialize (Ha _ (Hn _ Hin)). cbn [fst] in Ha.
    apply negb_true_iff in E. rewrite E in Ha. apply Bool.eqb_prop in Ha. symmetry in Ha. apply contains_false in Ha. apply Ha, Hall.
    unfold keys_set. apply list_elem_of_In, in_map_iff. exists (n, z). split; [done|].
    apply List.filter_In. split; [by apply list_elem_of_In|done].
  - split; [|done]. intros _ k Hin. unfold keys_set in Hin. apply list_elem_of_In, in_map_iff in Hin as ([n z] & <- & Hin).
    apply List.filter_In in Hin as [Hin Hz]. pose proof (List.find_none _ _ E _ Hin) as E'. cbn [snd] in Hz. cbv beta iota in E'.
    rewrite Hz, andb_true_r in E'. apply negb_false_iff in E'. rewrite <- list_elem_of_In in Hin.
    specialize (Ha _ (Hn _ Hin)). cbn [fst] in Ha. rewrite E' in Ha. apply Bool.eqb_prop in Ha. symmetry in Ha.
    by apply contains_elem in Ha.
Qed.

(** ** What a refusal says *)

(** A shape of an agent's: known kinds, at most six of them, with counts below a
    hundred but where there is no upper one. *)
Definition shape_small (s : Shape) : Prop :=
  (size s <= 6)%nat ∧ ∀ k c, s !! k = Some c →
    k ∈ knownKinds ∧ 0 <= Min c < 100 ∧ (Max c = N ∨ 0 <= Max c < 100).

Lemma itoa_small z : 0 <= z < 100 → plain 2 (itoa z).
Proof.
  intros Hz. split; [apply itoa_plain; lia|].
  destruct (decide (z = 0)) as [->|]; [by vm_compute|].
  assert (len (itoa 99) = 2) as <- by (vm_compute; reflexivity). apply itoa_len_mono. lia.
Qed.

Lemma card_text_plain k c :
  k ∈ knownKinds → 0 <= Min c < 100 → (Max c = N ∨ 0 <= Max c < 100) → plain 25 (card_text k c).
Proof.
  intros Hk Hmin Hmax.
  assert (plain 13 k) as Hp.
  { unfold knownKinds in Hk. rewrite !elem_of_cons, elem_of_nil in Hk. repeat destruct Hk as [->|Hk]; try done; by apply plain_dec. }
  pose proof (itoa_small _ Hmin) as H1.
  assert (Max c ≠ N → plain 2 (itoa (Max c))) as H2.
  { intros Hn. apply itoa_small. by destruct Hmax. }
  unfold card_text. destruct (Z.eqb_spec (Max c) N); [|specialize (H2 n); destruct (Min c =? Max c)].
  all: eapply plain_le; [repeat first [eassumption | eapply plain_app | apply plain_text; vm_compute; reflexivity] | vm_compute; congruence].
Qed.

Lemma Join_plain n l :
  0 <= n → Forall (plain n) l → plain ((n + 2) * Z.of_nat (length l)) (Join l "; ").
Proof.
  intros Hn. induction 1 as [|x l Hx Hl IH]; [split; [done|change (0 <= (n + 2) * 0); lia]|].
  destruct l as [|y l]; [cbn [Join length]; eapply plain_le; [exact Hx|lia]|].
  change (Join (x :: y :: l) "; ") with (x +:+ "; " +:+ Join (y :: l) "; ").
  eapply plain_le; [eapply plain_app; [exact Hx|]; eapply plain_app; [apply (plain_text "; "); by vm_compute|exact IH]|].
  change (len "; ") with 2. cbn [length]. lia.
Qed.

Lemma ExplainShape_uncut s : shape_small s → uncut (ExplainShape s).
Proof.
  intros [Hn Hs]. apply uncut_plain; [by apply plain_dec|]. cbn [ExplainShape fb_Allowed].
  eapply plain_le; [eapply plain_app; [apply plain_text; by vm_compute|apply (Join_plain 25); [lia|]]|].
  - apply Forall_forall. intros t (k & -> & Hk)%list_elem_of_fmap. apply elem_of_sorted_keys in Hk as [c Hc].
    rewrite Hc. cbn [default]. destruct (Hs k c Hc) as (? & ? & ?). by apply card_text_plain.
  - rewrite length_map. unfold sorted_keys, sort_strings. rewrite merge_sort_Permutation, length_fmap.
    change (len "the effects of one batch are -- ") with 32. pose proof (length_map_to_list s). lia.
Qed.


(** A key the batch does not have, in the second effect's only evidence item. *)
#[local] Instance sample_troubles : JsonTroubles := {|
  undecodable _ := UnknownField "jobb";
  loose _ := Some (["effects"], [mkLooseEffect ["kind"; "body"] KindComment []; mkLooseEffect ["kind"; "evidence"] KindDiagnosis [["jobb"; "line"]]]);
|}.
Example sample_explained :
  ExplainParse "{}" NotDecoded [KindDiagnosis] =
    mkFeedback "parse" ("evidence item 1 of 1 in effect 2 of 2 (diagnosis) has a key that does not exist: " +:+ quoted "jobb")
      "the keys of an evidence item are: job, line, fact" ∧
  fb_Allowed (ExplainShape triage_shape) = "the effects of one batch are -- comment exactly 1" ∧
  ExplainFix (mkRefusal RuleForm "identical" 0 "main.go") (mkBatch [an_edit "main.go" "a" "a"] VerdictFix) =
    mkFeedback "SC-FORM(identical)"
      ("the " +:+ quoted "old" +:+ " and " +:+ quoted "new" +:+ " text of an edit are the same (effect 1 of 1 (edit))")
      "the keys of an effect of kind edit are: kind, path, old, new".
Proof. vm_compute. repeat split; reflexivity. Qed.

