(* ===== verification/StatusNote.v ===== *)
(** * [cmd/gonk-gate]: the one note gonk keeps on an issue ([broker_status.go])

    Its texts, how it is found among an issue's notes, and how it is edited, or
    retired and started again. The programs are over the operations of
    [GateProgs]; log lines are left out, and a deadline on a write is a failed
    write. *)

From Stdlib Require Import Ascii.
From S2P Require Import Prelude.
From S2P Require Import GoStrings.
From S2P Require Import GoTime.
From S2P Require Import GoPath.
From S2P Require Import GoUTF8.
From S2P Require Import Rung.
From S2P Require Import FixGate.
From S2P Require Import Effects.
From S2P Require Import RungOutcome.
From S2P Require Import WorkStore.
From S2P Require Import GateProgs.

(** What a sweep is set up with: of an outside service, whether it is there. *)
Record sweepDeps := mkSweepDeps {
  s_Meter : bool; s_GL : bool; s_Apply : bool; s_Pipelines : bool; s_LegacyPods : bool; s_LegacyCloser : bool;
  s_EnforceTrajectory : bool; s_BotUsername : string; s_SpendPollInterval : Duration; s_SpendDeadline : Duration }.

Definition when (b : bool) (p : Prog unit) : Prog unit := if b then p else Ret tt.
Definition do {B : Type} (op : Op B) : Prog unit := _ ← call op; Ret tt.

(** ** Markers *)

Definition newlines : string := String newline (String newline "").
Definition status_open : string := "<!-- gonk:status:".
Definition statusMarker (beadID : string) : string := status_open +:+ beadID +:+ " -->".
Definition answerMarker (beadID : string) : string := "<!-- gonk:bead:" +:+ beadID +:+ " -->".
Definition mentionFooter (botUsername : string) : string :=
  if String.eqb botUsername "" then ""
  else "_Reply with `@" +:+ botUsername +:+ "` to send this back to me -- I only see comments that mention me._".
Definition footed (botUsername body : string) : string :=
  let f := mentionFooter botUsername in if String.eqb f "" then body else body +:+ newlines +:+ f.

(** From [i] on, and up to there. *)
Definition from (i : nat) (s : string) : string := string_drop i s.
Definition upto (i : nat) (s : string) : string := String.substring 0 i s.

Definition statusMarkerOf (body : string) : string :=
  match Index body status_open with
  | None => ""
  | Some i => match Index (from i body) "-->" with None => "" | Some j => upto (j + 3) (from i body) end
  end.

(** ** Texts *)

Definition pad2 (n : Z) : string := (if n <? 10 then "0" else "") +:+ itoa n.
Definition pad4 (n : Z) : string := (if n <? 10 then "000" else if n <? 100 then "00" else if n <? 1000 then "0" else "") +:+ itoa n.
(** For the years 0 to 9999. *)
Definition plainUTC (t : Time) : string :=
  let '(y, m, d) := DateOf UTC t in
  pad4 y +:+ "-" +:+ pad2 m +:+ "-" +:+ pad2 d +:+ " " +:+ pad2 (HourOf UTC t) +:+ ":" +:+ pad2 (MinuteOf UTC t) +:+ ":" +:+
  pad2 (SecondOf UTC t) +:+ " UTC".

Definition deferReasonText (reason : string) : string :=
  if String.eqb reason ReasonKeyMissing then
    "My budget key for this project is not provisioned yet, so I cannot spend anything on it."
  else if String.eqb reason ReasonQuietHours then
    "This project is in its configured quiet hours, so I am holding off until they end."
  else if String.eqb reason ReasonSpendStale then
    "My figures for how much of this project's budget has been used are out of date, " +:+
    "so I am waiting until they are current before spending more."
  else if String.eqb reason ReasonMonthlyTokensExhausted then
    "This project has used its token allowance for the current budget period. " +:+ "The allowance resets at the time below."
  else if String.eqb reason ReasonMonthlyCostExhausted then
    "This project has used its spending allowance for the current budget period. " +:+ "The allowance resets at the time below."
  else "".

Definition denyReasonText (reason : string) : string :=
  if String.eqb reason ReasonLadderExhausted then
    "Every model rung I am allowed to use has been tried and none produced an answer that passed my checks."
  else if String.eqb reason ReasonInfraRetriesExhausted then
    "I kept hitting infrastructure failures (not bad answers) and have used up my retries."
  else if String.eqb reason ReasonActionNotAllowed then "This project's configuration does not allow me to take this action."
  else if String.eqb reason ReasonNotRegistered then "This project is not registered with me."
  else if String.eqb reason ReasonDisabled then "I am disabled for this project."
  else if String.eqb reason ReasonInvalidConfig then "This project's configuration is invalid, so I cannot act on it."
  else if String.eqb reason ReasonCloudNotAllowed then
    "The next step would use a paid cloud model and no cloud allowance is granted for this project."
  else if String.eqb reason ReasonPerTaskTokensExhausted then "This task has used its per-task token allowance."
  else if String.eqb reason ReasonMonthlyTokensExhausted then "This project has used its monthly token allowance."
  else if String.eqb reason ReasonMonthlyCostExhausted then "This project has used its monthly cost allowance."
  else if String.eqb reason "" then "The budget gate refused this work and gave no reason code."
  else "The budget gate refused this work with reason code: " +:+ reason.

Definition para (s : string) : string := if String.eqb s "" then "" else s +:+ newlines.
Definition rungText `{GoUnicode} (rung : string) : string :=
  if String.eqb (TrimSpace rung) "" then "the configured model" else "model `" +:+ rung +:+ "`".
Definition updated_in_place : string :=
  "This note is updated in place while I work, and replaced by my answer when I have one.".

Section texts.
Context `{GoUnicode}.

Definition details (detail : string) : string :=
  let d := TrimSpace detail in if String.eqb d "" then "" else "Details: " +:+ d +:+ newlines.
Definition deferredBody (reason detail : string) (retryAfter : Time) (botUsername : string) : string :=
  footed botUsername
    ("I picked this up but cannot answer yet." +:+ newlines +:+ para (deferReasonText reason) +:+ details detail +:+
     (if IsZero retryAfter then "I will try again automatically." +:+ newlines
      else "I will look at this again after " +:+ plainUTC retryAfter +:+ "." +:+ newlines) +:+
     "This note is updated in place while I wait, and replaced by my answer when I have one.").
Definition deniedBody (reason detail botUsername : string) : string :=
  footed botUsername
    ("I have stopped working on this and need a human to look at it." +:+ newlines +:+ denyReasonText reason +:+ newlines +:+
     details detail +:+ "I will not retry this on my own. This note is updated in place if my status changes.").

Definition prevOpen (attempt : Z) : string := "<!-- gonk:prev:" +:+ itoa attempt +:+ " -->".
Definition prevClose : string := "<!-- /gonk:prev -->".
Definition carriedPrevious (existing : option issue_note) (prevAttempt : Z) : string :=
  match existing with
  | None => ""
  | Some n =>
      if prevAttempt <? 1 then ""
      else match Index (n_Body n) (prevOpen prevAttempt) with
      | None => ""
      | Some i =>
          let rest := from i (n_Body n) in
          match Index rest prevClose with None => "" | Some j => upto (j + String.length prevClose) rest end
      end
  end.
Definition runningBody (attempt : Z) (rung previous botUsername : string) : string :=
  footed botUsername
    (para previous +:+ "I am triaging this issue now (attempt " +:+ itoa (if attempt <? 1 then 1 else attempt) +:+ ", using " +:+
     rungText rung +:+ ")." +:+ newlines +:+ updated_in_place).

Definition account (attempt : Z) (rung : string) (outcome : Outcome) (why : string) : string :=
  prevOpen attempt +:+ String newline
    (if bool_decide (outcome = OutcomeInfraFailed)
     then "Attempt " +:+ itoa attempt +:+ " (" +:+ rungText rung +:+
          ") did not finish because of an infrastructure problem, not a bad answer: " +:+ why +:+ "."
     else "Attempt " +:+ itoa attempt +:+ " (" +:+ rungText rung +:+ ") did not produce a valid answer: " +:+ why +:+ ".") +:+
  String newline prevClose.
Definition reslingBody (attempt : Z) (rung : string) (outcome : Outcome) (why next nextRung botUsername : string) : string :=
  footed botUsername
    (account attempt rung outcome why +:+ newlines +:+
     (if String.eqb next "escalate" && negb (String.eqb nextRung "")
      then "I am retrying now with a stronger model (attempt " +:+ itoa (attempt + 1) +:+ ", using " +:+ rungText nextRung +:+ ")."
      else if String.eqb next "escalate"
      then "I am retrying now with a stronger model if one is available (attempt " +:+ itoa (attempt + 1) +:+ ")."
      else "I am retrying now with the same model (attempt " +:+ itoa (attempt + 1) +:+ ").") +:+ newlines +:+ updated_in_place).

Definition resultSummaryBody (v : Verdict) (botUsername : string) : string :=
  footed botUsername
    ("I have finished triaging this issue. " +:+
     (if String.eqb v VerdictCodeChange then "My conclusion: this needs a code change."
      else if String.eqb v VerdictClose then "My conclusion: this issue can be closed."
      else "My conclusion: no code change is needed.") +:+
     " The labels on this issue record the result.").
End texts.

Definition attemptFailureText (outcome : Outcome) (violation infraCause : string) : string :=
  if bool_decide (outcome = OutcomeInfraFailed) then
    if HasPrefix infraCause "session_deadline_exceeded" || HasPrefix infraCause "reservation_expired"
    then "it ran out of the time allowed for one attempt"
    else if HasPrefix infraCause "artifact_unknown" then "I could not read its result"
    else if HasPrefix infraCause "spend_stale" then "I could not confirm in time that the model had answered"
    else if HasPrefix infraCause "no_model_tokens" then "the model never answered"
    else "something outside the model went wrong"
  else if HasPrefix violation "no GONK_BATCH_START/END fence" then "its output did not contain a result in the format I require"
  else if HasPrefix violation "unparseable batch" then "its result was malformed and could not be read"
  else if HasPrefix violation "shape:" then "its result did not have the required parts"
  else if HasPrefix violation "target:" then "its result tried to act on something other than this issue"
  else if HasPrefix violation "path:" then "its result tried to change files it is not allowed to"
  else if HasPrefix violation "comment:" then "its comment broke a posting rule (for example, a line GitLab would run as a command)"
  else if HasPrefix violation "label:" then "it proposed a label it is not allowed to use"
  else if HasPrefix violation "trajectory:" then "its answer was not backed by the investigation it reported"
  else if HasPrefix violation "no session" then "its session ended without leaving any output"
  else "it did not produce an answer I could accept".

(** ** The note *)

Section notes.
Context `{GoUnicode} (d : sweepDeps).

Definition own_status (marker : string) (n : issue_note) : bool :=
  negb (n_System n) && EqualFold (n_Author n) (s_BotUsername d) && Contains_sub (n_Body n) marker.
(** The last of a list that a test accepts. *)
Definition last_of {A} (f : A → bool) (l : list A) : option A := fold_left (λ found x, if f x then Some x else found) l None.

(** [None]: the thread could not be read. *)
Definition findStatusNote (project iid : Z) (beadID : string) : Prog (option (option issue_note)) :=
  if negb (s_GL d) || String.eqb (s_BotUsername d) "" then Ret None
  else
    notes ← call (OIssueNotes project iid);
    Ret match notes with None => None | Some notes => Some (last_of (own_status (statusMarker beadID)) notes) end.

Definition isFinalAnswer (n : issue_note) (beadID : string) : bool := Contains_sub (n_Body n) (answerMarker beadID).

Definition retired_body (body : string) : string :=
  let m := statusMarkerOf body in
  match List.find (λ m, negb (String.eqb m "") && Contains_sub body m) [newlines +:+ m; m] with
  | Some m => Replace1 body m ""
  | None => body
  end.
Definition retireStatusNote (project iid : Z) (n : issue_note) : Prog unit :=
  when (s_Apply d && negb (String.eqb (retired_body (n_Body n)) (n_Body n)))
    (do (OUpdateNote project iid (n_ID n) (retired_body (n_Body n)))).

Definition upsertStatusNoteWith (project iid : Z) (beadID : string) (build : option issue_note → string) : Prog unit :=
  if negb (s_Apply d) then Ret tt
  else
    found ← findStatusNote project iid beadID;
    match found with
    | None => Ret tt
    | Some existing =>
        existing ← match existing with
                   | Some n => if isFinalAnswer n beadID then _ ← retireStatusNote project iid n; Ret None else Ret (Some n)
                   | None => Ret None
                   end;
        let full := build existing +:+ newlines +:+ statusMarker beadID in
        match existing with
        | Some n => when (negb (String.eqb (n_Body n) full)) (do (OUpdateNote project iid (n_ID n) full))
        | None => do (OCreateNote project iid full)
        end
    end.
Definition upsertStatusNote (project iid : Z) (beadID body : string) : Prog unit :=
  upsertStatusNoteWith project iid beadID (λ _, body).
End notes.

(** ** Every reason a decision gives has its sentence *)

Lemma defer_reasons_explained r : r ∈ defer_reasons → deferReasonText r ≠ "".
Proof. unfold defer_reasons. rewrite !elem_of_cons, elem_of_nil. intros H. repeat destruct H as [->|H]; [by vm_compute..|done]. Qed.
Lemma deny_reasons_explained r : r ∈ deny_reasons → HasPrefix (denyReasonText r) "The budget gate refused" = false.
Proof. unfold deny_reasons. rewrite !elem_of_cons, elem_of_nil. intros H. repeat destruct H as [->|H]; [by vm_compute..|done]. Qed.

(** ** Where a marker stands *)

Definition without (c : ascii) (s : string) : bool := all_bytes (λ b, negb (Ascii.eqb b c)) s.

Lemma prefix_app_sep sub s c rest : without c sub = true → String.prefix sub (s +:+ String c rest) = true → String.prefix sub s = true.
Proof.
  revert s. induction sub as [|b sub IH]; intros s Hw Hp; [by destruct s|]. apply andb_prop in Hw as [Hb Hw].
  destruct s as [|a s].
  - change ((if ascii_dec b c then String.prefix sub rest else false) = true) in Hp. destruct (ascii_dec b c) as [->|]; [|done].
    by rewrite Ascii.eqb_refl in Hb.
  - change ((if ascii_dec b a then String.prefix sub (s +:+ String c rest) else false) = true) in Hp.
    change ((if ascii_dec b a then String.prefix sub s else false) = true). destruct (ascii_dec b a); [by apply IH|done].
Qed.
Lemma Index_step c s sub : String.prefix sub (String c s) = false → Index (String c s) sub = S <$> Index s sub.
Proof. cbn [Index]. intros ->. by destruct (Index s sub). Qed.
Lemma Index_cons_none c s sub : Index (String c s) sub = None → String.prefix sub (String c s) = false ∧ Index s sub = None.
Proof. cbn [Index]. destruct (String.prefix _ _); [done|]. by destruct (Index s sub). Qed.
(** Nothing that lacks the separator starts before it. *)
Lemma Index_app_sep text c rest sub : sub ≠ "" → without c sub = true → Index text sub = None →
  Index (text +:+ String c rest) sub = (λ i, S (String.length text) + i)%nat <$> Index rest sub.
Proof.
  intros Hne Hw. induction text as [|a text IH]; intros Ht.
  - change (Index (String c rest) sub = S <$> Index rest sub). apply Index_step.
    destruct (String.prefix sub (String c rest)) eqn:E; [|done]. apply (prefix_app_sep sub "" c rest Hw) in E. by destruct sub.
  - apply Index_cons_none in Ht as [Hp Ht]. change (Index (String a (text +:+ String c rest)) sub = (λ i, S (S (String.length text)) + i)%nat <$> Index rest sub).
    assert (String.prefix sub (String a (text +:+ String c rest)) = false) as Hf.
    { destruct (String.prefix sub (String a (text +:+ String c rest))) eqn:E; [|done].
      apply (prefix_app_sep sub (String a text) c rest Hw) in E. congruence. }
    rewrite (Index_step _ _ _ Hf), (IH Ht).
    by destruct (Index rest sub).
Qed.
Lemma app_empty s : s +:+ "" = s.
Proof. induction s as [|c s IH]; [done|]. change (String c (s +:+ "") = String c s). by rewrite IH. Qed.
Lemma Index_self sub t : Index (sub +:+ t) sub = Some 0%nat.
Proof. assert (String.prefix sub (sub +:+ t) = true) as Hp by (apply prefix_split; by eexists). destruct (sub +:+ t); cbn [Index]; by rewrite Hp. Qed.
Lemma Contains_sub_Index s sub : Contains_sub s sub = bool_decide (is_Some (Index s sub)).
Proof.
  induction s as [|c s IH]; cbn [Contains_sub Index].
  - by destruct (String.prefix sub "").
  - rewrite IH. destruct (String.prefix sub (String c s)); [done|]. by destruct (Index s sub).
Qed.
Lemma Contains_sub_tail pre sub : Contains_sub (pre +:+ sub) sub = true.
Proof.
  induction pre as [|c pre IH].
  - rewrite Contains_sub_Index. apply bool_decide_eq_true. exists 0%nat. pose proof (Index_self sub "") as Hs. by rewrite app_empty in Hs.
  - change (Contains_sub (String c (pre +:+ sub)) sub = true). cbn [Contains_sub]. rewrite IH. apply orb_true_r.
Qed.

(** ** A round's answer is retired whole *)

(** A bead's identity has no [>]; a note's text has no status marker of its own. *)
Definition bead_ok (beadID : string) : bool := without ">" beadID.
Definition tidy (beadID : string) (n : issue_note) (text : string) : Prop :=
  n_Body n = text +:+ newlines +:+ statusMarker beadID ∧ Index text status_open = None.

Lemma substring_app_length s t : String.substring 0 (String.length s) (s +:+ t) = s.
Proof. induction s as [|c s IH]; [by destruct t|]. change (String c (String.substring 0 (String.length s) (s +:+ t)) = String c s). by rewrite IH. Qed.
Lemma prefix_cons x p y s : String.prefix (String x p) (String y s) = if ascii_dec x y then String.prefix p s else false.
Proof. done. Qed.
Lemma close_of_marker s : without ">" s = true → Index (s +:+ "-->") "-->" = Some (String.length s).
Proof.
  induction s as [|a s IH]; intros Hw; [done|]. apply andb_prop in Hw as [Ha Hw].
  change (Index (String a (s +:+ "-->")) "-->" = Some (S (String.length s))). rewrite Index_step.
  - by rewrite IH.
  - destruct s as [|b [|c s]].
    { change (String.prefix "-->" (String a "-->") = false). rewrite !prefix_cons. by destruct (ascii_dec "-" a). }
    { change (String.prefix "-->" (String a (String b "-->")) = false). rewrite !prefix_cons.
      by destruct (ascii_dec "-" a), (ascii_dec "-" b). }
    cbn in Hw. apply andb_prop in Hw as [_ [Hc _]%andb_prop].
    change (String.prefix "-->" (String a (String b (String c (s +:+ "-->")))) = false). rewrite !prefix_cons.
    destruct (ascii_dec "-" a), (ascii_dec "-" b), (ascii_dec ">" c); try done. by subst.
Qed.
Lemma marker_split beadID : statusMarker beadID = (status_open +:+ beadID +:+ " ") +:+ "-->".
Proof. unfold statusMarker. by rewrite !string_app_assoc. Qed.
Lemma marker_open_ok beadID : bead_ok beadID = true → without ">" (status_open +:+ beadID +:+ " ") = true.
Proof. intros Hb. unfold without. rewrite !all_bytes_app. unfold bead_ok, without in Hb. by rewrite Hb. Qed.

Lemma Index_open text beadID : Index text status_open = None →
  Index (text +:+ newlines +:+ statusMarker beadID) status_open = Some (String.length text + 2)%nat.
Proof.
  intros Ht. change (newlines +:+ statusMarker beadID) with (String newline ("" +:+ String newline (statusMarker beadID))).
  rewrite Index_app_sep, Index_app_sep by done. unfold statusMarker. rewrite Index_self. cbn. f_equal. lia.
Qed.
Lemma drop_body text beadID : string_drop (String.length text + 2) (text +:+ newlines +:+ statusMarker beadID) = statusMarker beadID.
Proof. rewrite <- string_drop_drop, drop_app. done. Qed.

Lemma statusMarkerOf_tidy text beadID : bead_ok beadID = true → Index text status_open = None →
  statusMarkerOf (text +:+ newlines +:+ statusMarker beadID) = statusMarker beadID.
Proof.
  intros Hb Ht. unfold statusMarkerOf. rewrite Index_open by done. unfold from. rewrite drop_body.
  rewrite marker_split, close_of_marker by by apply marker_open_ok. unfold upto.
  set (s := status_open +:+ beadID +:+ " ").
  change 3%nat with (String.length "-->"). rewrite <- (length_string_app s "-->").
  rewrite <- (app_empty (s +:+ "-->")) at 2. apply substring_app_length.
Qed.

Lemma Index_tail_marker text beadID : Index text status_open = None →
  Index (text +:+ newlines +:+ statusMarker beadID) (newlines +:+ statusMarker beadID) = Some (String.length text).
Proof.
  intros Ht. set (body := text +:+ _). pose proof (Index_spec body (newlines +:+ statusMarker beadID)) as Hs.
  pose proof (Index_spec body status_open) as Ho. unfold body in Ho. rewrite Index_open in Ho by done. destruct Ho as [_ Ho]. fold body in Ho.
  assert (occurs_at body (newlines +:+ statusMarker beadID) (String.length text)) as Hat.
  { apply occurs_at_split. exists text, "". split; [|done]. by rewrite app_empty. }
  destruct (Index body _) as [i|]; [|by destruct (Hs (String.length text))]. destruct Hs as [Hi Hmin].
  destruct (Nat.lt_trichotomy i (String.length text)) as [Hlt|[->|Hlt]]; [|done|by destruct (Hmin _ Hlt)].
  exfalso. apply (Ho (i + 2)%nat); [lia|]. apply occurs_at_split in Hi as (pre & post & E & Hl).
  apply occurs_at_split. exists (pre +:+ newlines), (beadID +:+ " -->" +:+ post). split.
  - rewrite E. unfold statusMarker. by rewrite !string_app_assoc.
  - rewrite length_string_app, Hl. done.
Qed.

(** What is left of a retired answer is its text. *)
Lemma retired_tidy beadID text : bead_ok beadID = true → Index text status_open = None →
  retired_body (text +:+ newlines +:+ statusMarker beadID) = text.
Proof.
  intros Hb Ht. unfold retired_body. rewrite statusMarkerOf_tidy by done. cbn [List.find].
  rewrite Contains_sub_tail. change (negb (String.eqb (newlines +:+ statusMarker beadID) "") && true) with true. cbv iota.
  unfold Replace1. rewrite Index_tail_marker by done. rewrite substring_app_length, <- string_drop_drop, drop_app.
  set (m := newlines +:+ statusMarker beadID). rewrite <- (app_empty m) at 2. rewrite drop_app. apply app_empty.
Qed.
Lemma tidy_not_status text beadID : Index text status_open = None → Contains_sub text (statusMarker beadID) = false.
Proof.
  intros Ht. rewrite Contains_sub_Index. apply bool_decide_eq_false. intros [i Hi].
  pose proof (Index_spec text (statusMarker beadID)) as Hs. rewrite Hi in Hs. destruct Hs as [Hs _].
  apply occurs_at_split in Hs as (pre & post & E & Hl). pose proof (Index_spec text status_open) as Ho. rewrite Ht in Ho.
  apply (Ho i). apply occurs_at_split. exists pre, (beadID +:+ " -->" +:+ post). split; [|done].
  rewrite E. unfold statusMarker. by rewrite !string_app_assoc.
Qed.

(** ** A thread of notes, and programs over it *)

Record issue_thread := mkThread { t_notes : list issue_note; t_next : Z }.
Definition set_n_Body (body : string) (n : issue_note) : issue_note := mkIssueNote (n_ID n) (n_System n) (n_Author n) body.
Definition put_body (id : Z) (body : string) (n : issue_note) : issue_note := if n_ID n =? id then set_n_Body body n else n.

(** GitLab, with nothing failing: a note is rewritten in place, a new one is the
    bot's and comes last. *)
Definition serve_notes (bot : string) {B : Type} (op : Op B) (t : issue_thread) : option (B * issue_thread) :=
  match op in Op B return option (B * issue_thread) with
  | OIssueNotes _ _ => Some (Some (t_notes t), t)
  | OUpdateNote _ _ id body => Some (true, mkThread (map (put_body id body) (t_notes t)) (t_next t))
  | OCreateNote _ _ body => Some (true, mkThread (t_notes t ++ [mkIssueNote (t_next t) false bot body]) (t_next t + 1))
  | _ => None
  end.
Fixpoint exec (bot : string) {A : Type} (p : Prog A) (t : issue_thread) : option (A * issue_thread) :=
  match p with
  | Ret a => Some (a, t)
  | Do op k => match serve_notes bot op t with Some (b, t) => exec bot (k b) t | None => None end
  end.

Lemma exec_bind bot {A B : Type} (p : Prog A) (f : A → Prog B) t :
  exec bot (p ≫= f) t = match exec bot p t with Some (a, t) => exec bot (f a) t | None => None end.
Proof.
  revert t. induction p as [a|C op k IH]; intros t; [done|].
  change (exec bot (Do op (λ b, k b ≫= f)) t = match exec bot (Do op k) t with Some (a, t) => exec bot (f a) t | None => None end).
  cbn [exec]. destruct (serve_notes bot op t) as [[b t']|]; [apply IH|done].
Qed.

Section one_note.
Context `{GoUnicode} (d : sweepDeps) (beadID : string).
Hypothesis (Hset : s_GL d = true ∧ s_Apply d = true ∧ s_BotUsername d ≠ "") (Hbead : bead_ok beadID = true).
#[local] Abbreviation bot := (s_BotUsername d).
#[local] Abbreviation marker := (statusMarker beadID).

(** The bot's notes with the bead's status marker. *)
Definition live (n : issue_note) : bool := own_status d marker n.
Definition live_notes (t : issue_thread) : list issue_note := List.filter live (t_notes t).
Definition thread_ok (t : issue_thread) : Prop := NoDup (map n_ID (t_notes t)) ∧ Forall (λ n, n_ID n < t_next t) (t_notes t).

Lemma last_of_filter {A} (f : A → bool) l x : List.filter f l = [x] → last_of f l = Some x.
Proof.
  unfold last_of. generalize (@None A). induction l as [|a l IH]; intros o; [done|]. cbn. destruct (f a) eqn:E.
  - intros [= -> Hl]. clear IH. induction l as [|b l IH]; [done|]. cbn in *. destruct (f b); [done|]. by apply IH.
  - apply IH.
Qed.
Lemma last_of_none {A} (f : A → bool) l : List.filter f l = [] → last_of f l = None.
Proof.
  unfold last_of. induction l as [|a l IH]; [done|]. cbn. destruct (f a); [done|]. apply IH.
Qed.

Lemma bot_note_live id body : live (mkIssueNote id false bot (body +:+ newlines +:+ marker)) = true.
Proof. unfold live, own_status. cbn. rewrite EqualFold_refl. rewrite <- string_app_assoc. apply Contains_sub_tail. Qed.

Lemma filter_put_other (notes : list issue_note) id body : ¬ id ∈ map n_ID notes → map (put_body id body) notes = notes.
Proof.
  induction notes as [|n notes IH]; cbn; [done|]. rewrite not_elem_of_cons. intros [H1 H2].
  rewrite IH by done. unfold put_body. by destruct (Z.eqb_spec (n_ID n) id).
Qed.
(** The only live note rewritten. *)
Lemma filter_put_one notes n body : NoDup (map n_ID notes) → List.filter live notes = [n] →
  List.filter live (map (put_body (n_ID n) body) notes) = if live (set_n_Body body n) then [set_n_Body body n] else [].
Proof.
  induction notes as [|m notes IH]; cbn [map List.filter]; [done|]. intros [Hni Hnd]%NoDup_cons.
  destruct (live m) eqn:Em.
  - intros [= -> Hl]. assert (put_body (n_ID n) body n = set_n_Body body n) as -> by (unfold put_body; by rewrite Z.eqb_refl).
    rewrite filter_put_other by done. rewrite Hl.
    by destruct (live (set_n_Body body n)).
  - intros Hf. assert (n_ID m ≠ n_ID n) as Hne.
    { intros E. apply Hni. rewrite E. apply list_elem_of_In, in_map. assert (In n (List.filter live notes)) as Hin by (rewrite Hf; by left).
      apply List.filter_In in Hin. tauto. }
    assert (put_body (n_ID n) body m = m) as -> by (unfold put_body; by rewrite (proj2 (Z.eqb_neq _ _))).
    rewrite Em. by apply IH.
Qed.
Lemma put_body_ids id body notes : map n_ID (map (put_body id body) notes) = map n_ID notes.
Proof. rewrite map_map. apply map_ext. intros n. unfold put_body. by destruct (_ =? _). Qed.
Lemma put_body_ok id body t : thread_ok t → thread_ok (mkThread (map (put_body id body) (t_notes t)) (t_next t)).
Proof.
  intros [H1 H2]. unfold thread_ok. cbn [t_notes t_next]. split; [by rewrite put_body_ids|]. apply Forall_forall. intros n Hn.
  assert (n_ID n ∈ map n_ID (t_notes t)) as Hin by (rewrite <- (put_body_ids id body); apply list_elem_of_In, in_map; by apply list_elem_of_In).
  apply list_elem_of_In, in_map_iff in Hin as (m & <- & Hm). rewrite Forall_forall in H2. apply H2. by apply list_elem_of_In.
Qed.
Lemma create_ok body t : thread_ok t → thread_ok (mkThread (t_notes t ++ [mkIssueNote (t_next t) false bot body]) (t_next t + 1)).
Proof.
  intros [H1 H2]. split; cbn.
  - rewrite map_app. apply NoDup_app. split; [done|]. split; [|apply NoDup_singleton]. intros x Hx ->%list_elem_of_singleton.
    cbn in Hx. apply list_elem_of_In, in_map_iff in Hx as (m & E & Hm). rewrite Forall_forall in H2.
    specialize (H2 m (proj2 (list_elem_of_In _ _) Hm)). lia.
  - apply Forall_app. split; [|by repeat constructor; cbn; lia]. eapply Forall_impl; [exact H2|]. cbn. lia.
Qed.

Lemma exec_find t project iid {B : Type} (f : option (option issue_note) → Prog B) :
  exec bot (findStatusNote d project iid beadID ≫= f) t = exec bot (f (Some (last_of live (t_notes t)))) t.
Proof using Hset.
  destruct Hset as (Hg & _ & Hb). rewrite exec_bind. unfold findStatusNote. rewrite Hg.
  destruct (String.eqb_spec bot ""); [done|]. reflexivity.
Qed.

Lemma update_one t n body : thread_ok t → live_notes t = [n] → Contains_sub body marker = true →
  let t' := mkThread (map (put_body (n_ID n) body) (t_notes t)) (t_next t) in
  thread_ok t' ∧ live_notes t' = [set_n_Body body n].
Proof.
  intros Ht Hl Hm. cbv zeta. split; [by apply put_body_ok|]. unfold live_notes. cbn [t_notes].
  rewrite filter_put_one by (by destruct Ht).
  assert (live n = true) as Hn.
  { assert (In n (live_notes t)) as Hin by (rewrite Hl; by left). unfold live_notes in Hin. apply List.filter_In in Hin. tauto. }
  unfold live, own_status in *. cbn [n_System n_Author n_Body set_n_Body].
  apply andb_prop in Hn as [-> _]. by rewrite Hm.
Qed.
Lemma create_one t body : thread_ok t → live_notes t = [] →
  let t' := mkThread (t_notes t ++ [mkIssueNote (t_next t) false bot (body +:+ newlines +:+ marker)]) (t_next t + 1) in
  thread_ok t' ∧ live_notes t' = [mkIssueNote (t_next t) false bot (body +:+ newlines +:+ marker)].
Proof.
  intros Ht Hl. cbv zeta. split; [by apply create_ok|]. unfold live_notes in *. cbn [t_notes].
  rewrite List.filter_app, Hl. cbn [List.filter app]. by rewrite bot_note_live.
Qed.
Lemma same_body n notes : NoDup (map n_ID notes) → In n notes → map (put_body (n_ID n) (n_Body n)) notes = notes.
Proof.
  intros Hnd Hin. rewrite <- (map_id notes) at 2. apply map_ext_in. intros m Hm. unfold put_body.
  destruct (Z.eqb_spec (n_ID m) (n_ID n)) as [E|]; [|done].
  assert (m = n) as ->; [|by destruct n].
  apply list_elem_of_In, list_elem_of_lookup in Hm as [i Hi]. apply list_elem_of_In, list_elem_of_lookup in Hin as [j Hj].
  assert (i = j) as ->; [|congruence].
  eapply NoDup_lookup; [exact Hnd|rewrite list_lookup_fmap, Hi; cbn; reflexivity|rewrite list_lookup_fmap, Hj; cbn; by rewrite E].
Qed.

(** What the bead's live note is, before the note is written again. *)
Definition placeholder (t : issue_thread) : option issue_note :=
  match live_notes t with [n] => if isFinalAnswer n beadID then None else Some n | _ => None end.

(** C12. Gonk's status on an issue is one note. Of a thread with at most one live note
    of the bead, in a GitLab that does what it is asked, writing the status leaves
    exactly one, which says what was to be said of the note it replaces. A
    placeholder is edited where it stands; the answer of an earlier round, whose
    marker is the first text of that form in it ([tidy]; [retire_takes_the_first]
    has another), stays, whole and without its marker, and a new note follows;
    nothing else in the thread is touched. Writing the same status again changes
    nothing. *)
Theorem status_note_once project iid (build : option issue_note → string) t :
  thread_ok t → (length (live_notes t) <= 1)%nat →
  (∀ n, n ∈ live_notes t → isFinalAnswer n beadID = true → ∃ text, tidy beadID n text) →
  let full := build (placeholder t) +:+ newlines +:+ marker in
  ∃ t' n', exec bot (upsertStatusNoteWith d project iid beadID build) t = Some (tt, t') ∧
    thread_ok t' ∧ live_notes t' = [n'] ∧ n_Body n' = full ∧
    match placeholder t with
    | Some n => n' = set_n_Body full n ∧ t_notes t' = map (put_body (n_ID n) full) (t_notes t)
    | None =>
        n' = mkIssueNote (t_next t) false bot full ∧
        t_notes t' = match live_notes t with
                     | n :: _ => map (put_body (n_ID n) (retired_body (n_Body n))) (t_notes t)
                     | [] => t_notes t
                     end ++ [n'] ∧
        ∀ n text, n ∈ live_notes t → tidy beadID n text → retired_body (n_Body n) = text
    end ∧
    (∀ build', build' (Some n') = build (placeholder t) → isFinalAnswer n' beadID = false →
       exec bot (upsertStatusNoteWith d project iid beadID build') t' = Some (tt, t')).
Proof using Hset Hbead.
  intros Ht Hlen Hfin full.
  assert (∀ t' n', thread_ok t' → live_notes t' = [n'] → n_Body n' = full → ∀ build', build' (Some n') = build (placeholder t) →
    isFinalAnswer n' beadID = false → exec bot (upsertStatusNoteWith d project iid beadID build') t' = Some (tt, t')) as Hagain.
  { intros t' n' Ht' Hl' Hb' build' Hsame Hnf. unfold upsertStatusNoteWith. destruct Hset as (_ & -> & _). cbn [negb].
    rewrite exec_find. cbv beta iota. erewrite last_of_filter by exact Hl'. rewrite Hnf.
    change (exec bot (when (negb (String.eqb (n_Body n') (build' (Some n') +:+ newlines +:+ marker)))
              (do (OUpdateNote project iid (n_ID n') (build' (Some n') +:+ newlines +:+ marker)))) t' = Some (tt, t')).
    rewrite Hsame. fold full. rewrite Hb', String.eqb_refl. done. }
  assert (Contains_sub full marker = true) as Hcm by (unfold full; rewrite <- string_app_assoc; apply Contains_sub_tail).
  assert (∀ n text, n ∈ live_notes t → tidy beadID n text → retired_body (n_Body n) = text) as Htidy.
  { intros n text _ [-> Hno]. by apply retired_tidy. }
  pose proof Hset as (_ & Ha & Hbot).
  destruct (live_notes t) as [|n [|]] eqn:El; [| |cbn in Hlen; lia].
  - (* no note yet *)
    assert (placeholder t = None) as Hp by (unfold placeholder; by rewrite El). rewrite Hp. unfold full in *. rewrite Hp in *.
    destruct (create_one t (build None) Ht El) as [Hok Hone].
    eexists _, _. split; [unfold upsertStatusNoteWith; rewrite Ha; cbn [negb]; rewrite exec_find; cbv beta iota; erewrite last_of_none by exact El; reflexivity|].
    split; [exact Hok|]. split; [exact Hone|]. split; [done|]. split; [split; [done|]; split; [done|exact Htidy]|].
    exact (Hagain _ _ Hok Hone eq_refl).
  - destruct (isFinalAnswer n beadID) eqn:Ef.
    + (* an earlier round's answer *)
      assert (placeholder t = None) as Hp by (unfold placeholder; by rewrite El, Ef). unfold full in *. rewrite Hp in *.
      destruct (Hfin n) as (text & Hb & Hno); [by left|done|].
      assert (retired_body (n_Body n) = text) as Hr by (rewrite Hb; by apply retired_tidy).
      assert (String.eqb text (n_Body n) = false) as Hne.
      { apply String.eqb_neq. intros E. pose proof (tidy_not_status text beadID Hno) as Hc. rewrite E, Hb in Hc.
        rewrite <- string_app_assoc, Contains_sub_tail in Hc. done. }
      set (t1 := mkThread (map (put_body (n_ID n) text) (t_notes t)) (t_next t)).
      assert (thread_ok t1) as Hok1 by by apply put_body_ok.
      assert (live_notes t1 = []) as Hl1.
      { unfold live_notes, t1. cbn [t_notes]. rewrite filter_put_one by (by destruct Ht).
        unfold live, own_status. cbn [n_Body set_n_Body]. by rewrite tidy_not_status, andb_false_r. }
      destruct (create_one t1 (build None) Hok1 Hl1) as [Hok Hone].
      eexists _, _. split.
      { unfold upsertStatusNoteWith. rewrite Ha. cbn [negb]. rewrite exec_find. cbv beta iota. erewrite last_of_filter by exact El. rewrite Ef, exec_bind.
        unfold retireStatusNote. rewrite Ha, Hr, Hne. reflexivity. }
      split; [exact Hok|]. split; [exact Hone|]. split; [done|]. split; [split; [done|]; split; [by rewrite Hr|exact Htidy]|].
      exact (Hagain _ _ Hok Hone eq_refl).
    + (* a placeholder *)
      assert (placeholder t = Some n) as Hp by (unfold placeholder; by rewrite El, Ef). rewrite Hp.
      destruct (update_one t n full Ht El Hcm) as [Hok Hone].
      assert (exec bot (when (negb (String.eqb (n_Body n) full)) (do (OUpdateNote project iid (n_ID n) full))) t =
              Some (tt, mkThread (map (put_body (n_ID n) full) (t_notes t)) (t_next t))) as He.
      { destruct (String.eqb_spec (n_Body n) full) as [E|]; [|done].
        cbn. rewrite <- E, same_body; [by destruct t|by destruct Ht|].
        assert (In n (live_notes t)) as Hin by (rewrite El; by left). unfold live_notes in Hin. apply List.filter_In in Hin as [Hin _]. exact Hin. }
      eexists _, _. split.
      { unfold upsertStatusNoteWith. rewrite Ha. cbn [negb]. rewrite exec_find. cbv beta iota. erewrite last_of_filter by exact El. rewrite Ef, exec_bind. cbn [exec].
        unfold full in He at 1 2. rewrite Hp in He. exact He. }
      split; [exact Hok|]. split; [exact Hone|]. split; [done|]. split; [done|]. rewrite Hp in Hagain. exact (Hagain _ _ Hok Hone eq_refl).
Qed.
End one_note.

(** Of an issue with a colleague's quotation of the marker and the answer of an
    earlier round: the answer keeps its text, and one new note is the status;
    said again, nothing changes. *)
Definition sample_deps : sweepDeps := mkSweepDeps true true true true false false false "gonk-bot" Second (60 * Second).
Definition sample_bead : string := "gonk:84:issue:7".
Definition sample_answer : string := "It is a known bug." +:+ newlines +:+ answerMarker sample_bead.
Definition sample_thread : issue_thread :=
  mkThread [mkIssueNote 1 false "ann" ("look: " +:+ statusMarker sample_bead);
            mkIssueNote 2 false "gonk-bot" (sample_answer +:+ newlines +:+ statusMarker sample_bead)] 3.

Lemma status_note_once_witness :
  let run body := exec "gonk-bot" (upsertStatusNoteWith sample_deps 84 7 sample_bead (λ _, body)) in
  ∃ t' n', run "Triaging." sample_thread = Some (tt, t') ∧ live_notes sample_deps sample_bead t' = [n'] ∧
    n_Body n' = "Triaging." +:+ newlines +:+ statusMarker sample_bead ∧
    map n_Body (take 2 (t_notes t')) = ["look: " +:+ statusMarker sample_bead; sample_answer] ∧
    run "Triaging." t' = Some (tt, t').
Proof.
  intros run.
  destruct (status_note_once sample_deps sample_bead) with (project := 84) (iid := 7) (build := λ _ : option issue_note, "Triaging.")
    (t := sample_thread) as (t' & n' & He & _ & Hl & Hb & Hp & Hagain).
  - done.
  - vm_compute. reflexivity.
  - split; [apply (bool_decide_unpack (NoDup [1; 2])); vm_compute; reflexivity|]. repeat constructor; cbn; lia.
  - vm_compute. lia.
  - intros n Hn _. assert (n = mkIssueNote 2 false "gonk-bot" (sample_answer +:+ newlines +:+ statusMarker sample_bead)) as ->.
    { assert (live_notes sample_deps sample_bead sample_thread =
        [mkIssueNote 2 false "gonk-bot" (sample_answer +:+ newlines +:+ statusMarker sample_bead)]) as E by (vm_compute; reflexivity).
      rewrite E in Hn. by apply list_elem_of_singleton in Hn. }
    exists sample_answer. split; [reflexivity|vm_compute; reflexivity].
  - exists t', n'. split; [exact He|]. split; [exact Hl|]. split; [exact Hb|].
    assert (placeholder sample_deps sample_bead sample_thread = None) as E by (vm_compute; reflexivity). rewrite E in Hp.
    destruct Hp as (_ & Ht & _). split.
    + rewrite Ht. vm_compute. reflexivity.
    + apply Hagain; [reflexivity|]. unfold isFinalAnswer. rewrite Hb. vm_compute. reflexivity.
Defined.

(** An answer that holds the words of a marker before its own is retired by them:
    its own marker stays. *)
Example retire_takes_the_first :
  let body := "See <!-- gonk:status:x --> above." +:+ newlines +:+ statusMarker sample_bead in
  retired_body body = "See  above." +:+ newlines +:+ statusMarker sample_bead.
Proof. vm_compute. reflexivity. Qed.
Example sample_texts :
  plainUTC (Date 2026 11 1 0 5 9 0 UTC) = "2026-11-01 00:05:09 UTC" ∧
  carriedPrevious (Some (mkIssueNote 1 false "gonk-bot" (account 1 "small" OutcomeGateFailed "it was wrong" +:+ "rest"))) 1 =
    account 1 "small" OutcomeGateFailed "it was wrong".
Proof. vm_compute. split; reflexivity. Qed.
