(* ===== verification/BrokerApply.v ===== *)
(** * [cmd/gonk-gate]: a session's batch is judged and applied

    What [applyBrokerBatch] of [broker_apply.go] does with the output of a finished
    session, with the labels of [broker_label.go] and the verdicts of
    [broker_verdict.go]: the batch is taken out of the output, every gate is passed
    before anything is written, and then it is written. The pipeline agents go on to
    chains of their own, which are one operation here. Details quoted in a violation
    are left out of it, and so are log lines and the archive of transcripts. *)

From Stdlib Require Import Ascii.
From S2P Require Import Prelude.
From S2P Require Import GoStrings.
From S2P Require Import GoTime.
From S2P Require Import GoPath.
From S2P Require Import GoUTF8.
From S2P Require Import FixGate.
From S2P Require Import Trajectory.
From S2P Require Import Effects.
From S2P Require Import WorkStore.
From S2P Require Import GateProgs.
From S2P Require Import RetryFeedback.
From S2P Require Import Explain.
From S2P Require Import StatusNote.

(** ** Labels ([broker_label.go], [broker_verdict.go]) *)

Definition gonkLabelPrefix : string := "gonk::".
Definition labelNeedsMaintainer : string := "gonk::needs-maintainer".
Definition labelFixQueued : string := "gonk::fix-queued".
Definition labelPipelineFailing : string := "gonk::pipeline-failing".
Definition labelNeedsHuman : string := "gonk::needs-human".
Definition labelFixClassConfirmed : string := "gonk::fix-class-confirmed".
Definition fixMRLabels : list string :=
  ["gonk::fix-verifying"; "gonk::fix-awaiting-run"; "gonk::ci-exec-changed"; "gonk::fix-verified"; "gonk::fix-new-failure";
   "gonk::fix-inconclusive"; "gonk::fix-failed"].
(** [pkg/intake]. *)
Definition DefaultDenyLabel : string := "gonk::denied".
Definition OnboardingIssueLabel : string := "gonk::onboarding".

Definition verdictLabels : list (Verdict * string) :=
  [(VerdictCodeChange, "gonk::verdict-code-change"); (VerdictClose, "gonk::verdict-close");
   (VerdictReplyOnly, "gonk::verdict-reply-only"); (VerdictFix, "gonk::pipeline-fix"); (VerdictNeedsScope, labelNeedsHuman)].
Definition verdictLabel (v : Verdict) : string :=
  match List.find (λ e, String.eqb e.1 v) verdictLabels with Some e => e.2 | None => "gonk::verdict-reply-only" end.
Definition pipelineClassLabel (c : string) : string := gonkLabelPrefix +:+ "pipeline-" +:+ c.

(** [strings.ToLower], as far as the result is compared with ASCII text: only the
    dotted capital I and the Kelvin sign come into it from outside. *)
Definition lower_piece (p : piece) : string :=
  match pc_rune p with
  | Some r =>
      if between 65 90 r then String (ascii_of_nat (Z.to_nat (r + 32))) ""
      else if r =? 304 then "i" else if r =? 8490 then "k" else pc_bytes p
  | None => pc_bytes p
  end.
Definition ToLower (s : string) : string := String.concat "" (map lower_piece (pieces s)).

Definition controller_labels : list string :=
  [labelFixQueued; labelNeedsMaintainer; DefaultDenyLabel; OnboardingIssueLabel] ++ map snd verdictLabels ++
  [labelPipelineFailing] ++ map pipelineClassLabel Classifications ++ [labelNeedsHuman; labelFixClassConfirmed] ++ fixMRLabels.
Definition ReservedLabels : list string := map (λ l, ToLower (TrimPrefix l gonkLabelPrefix)) controller_labels.

Definition maxLabelBytes : Z := 255.
Definition separator (c : ascii) : bool := existsb (Ascii.eqb c) [":"; "/"; "-"]%char.
(** [strings.TrimLeft] and [TrimRight] of [":/-"]. *)
Fixpoint trim_separators (s : string) : string :=
  match s with String c s' => if separator c then trim_separators s' else s | EmptyString => EmptyString end.
Definition trim_separators_right (s : string) : string := string_rev (trim_separators (string_rev s)).

Inductive label_error := LabelComma | LabelEmpty | LabelTooLong (final : string) | LabelReserved (suffix : string).

Section labels.
Context `{GoUnicode}.

Definition repairNamespace (l prefix : string) : string * string :=
  if String.eqb prefix "" then (l, l)
  else if HasPrefix l prefix then (l, string_drop (String.length prefix) l)
  else
    let stem := trim_separators_right prefix in
    let rest := string_drop (String.length stem) l in
    let trimmed := trim_separators rest in
    if negb (String.eqb stem "") && (len stem <? len l) && EqualFold (String.substring 0 (String.length stem) l) stem &&
       negb (String.eqb trimmed rest) && negb (String.eqb trimmed "")
    then (prefix +:+ trimmed, trimmed)
    else (prefix +:+ l, l).

Definition normaliseLabel (label prefix : string) : result label_error string :=
  if Contains_sub label "," then Err LabelComma
  else
    let l := TrimSpace label in
    if String.eqb l "" then Err LabelEmpty
    else
      let '(final, suffix) := repairNamespace l prefix in
      if maxLabelBytes <? len final then Err (LabelTooLong final)
      else if contains ReservedLabels (ToLower suffix) then Err (LabelReserved suffix)
      else Ok final.
End labels.

(** ** The batch in the output ([broker_apply.go]) *)

Definition batchStartSentinel : string := "GONK_BATCH_START".
Definition batchEndSentinel : string := "GONK_BATCH_END".
Definition scaffoldBranch : string := "gonk/scaffold".

Fixpoint LastIndex (s sub : string) : option nat :=
  match s with
  | EmptyString => if String.prefix sub s then Some 0%nat else None
  | String _ s' =>
      match LastIndex s' sub with Some i => Some (S i) | None => if String.prefix sub s then Some 0%nat else None end
  end.

(** [strings.ReplaceAll] of a text that is not empty. *)
Fixpoint replace_all (fuel : nat) (s old new : string) : string :=
  match fuel with
  | O => s
  | S fuel =>
      match Index s old with
      | None => s
      | Some i => upto i s +:+ new +:+ replace_all fuel (from (i + String.length old) s) old new
      end
  end.
Definition issueWording (what : string) : string := replace_all (String.length what) what " shown under OUTPUT" " this message shows".

Section apply.
Context `{GoUnicode} `{GoLetters} `{MapRange} `{BatchDecoder} `{JsonTroubles} (d : sweepDeps).

Definition isUnreadableTranscript (text : string) : bool := String.eqb (TrimSpace text) "".
Definition extractBatch (output : string) : option string :=
  match LastIndex output batchStartSentinel with
  | None => None
  | Some start =>
      let rest := from (start + String.length batchStartSentinel) output in
      match Index rest batchEndSentinel with
      | None => None
      | Some e => let payload := TrimSpace (upto e rest) in if String.eqb payload "" then None else Some payload
      end
  end.

Definition artifactKindForTrigger (trigger : string) : string :=
  if String.eqb trigger "issue-triage" || String.eqb trigger "mention-reply" then "comment"
  else if String.eqb trigger "scaffold" then "mr"
  else if String.eqb trigger "pipeline-diagnosis" then "pipeline"
  else if String.eqb trigger "pipeline-fix" then "pipefix"
  else "".

Definition targetIID (e : Effect) (rec : WorkItem) : Z := if TargetIID e =? 0 then w_IssueIID rec else TargetIID e.

(** ** Feedback *)

Definition issueGateFeedback (gate : string) : string :=
  if String.eqb gate "target" then "an effect names a target that is not the issue of this task; leave target_iid and target_type out"
  else if String.eqb gate "path" then "a file effect names a path this task may not write, or holds more than a file may"
  else if String.eqb gate "comment" then "the comment holds a line GitLab would act on, or is too long"
  else if String.eqb gate "trajectory" then "the session's recorded steps do not support its answer"
  else if String.eqb gate "label" then "a label is empty, too long, holds a comma, or is one only gonk sets"
  else "".

(** What is recorded for an agent that is told of refusals. *)
Definition told (agent : string) (rec : WorkItem) (fb : Feedback) : WorkItem :=
  match retryFeedbackKinds agent with [] => rec | _ => recordRetryFeedback rec fb end.
(** The deferred rewording of the issue-shaped chain. *)
Definition worded (agent : string) (rec : WorkItem) : WorkItem :=
  if ownChainAgent agent then rec
  else
    let fb := w_RetryFeedback rec in
    set_w_RetryFeedback (WorkStore.mkRetryFeedback (rf_Attempt fb) (rf_Code fb) (issueWording (rf_What fb)) (rf_Allowed fb)) rec.

(** ** What is written *)

Definition answer_marker_of (rec : WorkItem) : string := answerMarker (w_BeadID rec).

Fixpoint scaffold_actions (project : Z) (writes : list FileWrite) : Prog (list commit_action) :=
  match writes with
  | [] => Ret []
  | w :: writes =>
      there ← call (ORawFile project (fw_Path w) scaffoldBranch);
      rest ← scaffold_actions project writes;
      Ret ((if there : bool then UpdateFile (fw_Path w) (fw_Content w) else CreateFile (fw_Path w) (fw_Content w)) :: rest)
  end.
(** [Some url], the empty one when there is no file; [None] is an error. *)
Definition applyScaffoldFiles (rec : WorkItem) (batch : Batch) (marker : string) : Prog (option string) :=
  actions ← scaffold_actions (w_ProjectID rec) (FileWrites batch);
  match actions with
  | [] => Ret (Some "")
  | _ =>
      branch ← call (OProjectBranch (w_ProjectID rec));
      match branch with
      | None => Ret None
      | Some branch =>
          let base := if String.eqb branch "" then "main" else branch in
          committed ← call (OCreateCommit (w_ProjectID rec) scaffoldBranch base
                              ("gonk: scaffold .agent/" +:+ newlines +:+ marker) actions);
          if negb committed then Ret None
          else
            existing ← call (OMergeRequests (w_ProjectID rec) scaffoldBranch "opened");
            match existing with
            | None => Ret None
            | Some (mr :: _) => Ret (Some (mr_WebURL mr))
            | Some [] =>
                call (OCreateMergeRequest (w_ProjectID rec) scaffoldBranch base "gonk: scaffold .agent/"
                        ("gonk read this repository and proposed durable context for future " +:+
                         "triage and mention sessions." +:+ newlines +:+
                         "Review it as you would any MR: it is a proposal, not a fact." +:+ newlines +:+ marker))
            end
      end
  end.

Definition replacedStatusNote (rec : WorkItem) (body : string) : Prog bool :=
  found ← findStatusNote d (w_ProjectID rec) (w_IssueIID rec) (w_BeadID rec);
  match found with
  | None | Some None => Ret false
  | Some (Some st) =>
      if String.eqb (n_Body st) body then Ret true
      else if isFinalAnswer st (w_BeadID rec)
      then _ ← retireStatusNote d (w_ProjectID rec) (w_IssueIID rec) st; Ret false
      else call (OUpdateNote (w_ProjectID rec) (w_IssueIID rec) (n_ID st) body)
  end.

(** A comment as it is posted; the first one to the item's own issue takes the
    place of the status note. *)
Definition comment_body (rec : WorkItem) (e : Effect) : string :=
  footed (s_BotUsername d) (Body e) +:+ newlines +:+ answer_marker_of rec.
Definition with_status (rec : WorkItem) (body : string) : string := body +:+ newlines +:+ statusMarker (w_BeadID rec).

(** [None]: a note could not be posted; otherwise whether the note was claimed. *)
Fixpoint post_comments (rec : WorkItem) (claimed : bool) (es : list Effect) : Prog (option bool) :=
  match es with
  | [] => Ret (Some claimed)
  | e :: es =>
      if negb (String.eqb (e_Kind e) KindComment) then post_comments rec claimed es
      else
        let iid := targetIID e rec in
        let claim := negb claimed && (iid =? w_IssueIID rec) in
        let body := if claim then with_status rec (comment_body rec e) else comment_body rec e in
        replaced ← (if claim then replacedStatusNote rec body else Ret false);
        if replaced : bool then post_comments rec true es
        else
          posted ← call (OCreateNote (w_ProjectID rec) iid body);
          if posted : bool then post_comments rec (claimed || claim) es else Ret None
  end.

Definition summary_body (rec : WorkItem) (batch : Batch) : string :=
  with_status rec (resultSummaryBody (EffectiveVerdict batch) (s_BotUsername d) +:+ newlines +:+ answer_marker_of rec).
Definition post_summary (rec : WorkItem) (batch : Batch) : Prog unit :=
  replaced ← replacedStatusNote rec (summary_body rec batch);
  when (negb replaced) (do (OCreateNote (w_ProjectID rec) (w_IssueIID rec) (summary_body rec batch))).

(** The gate has passed every label: an error is not looked at again. *)
Definition apply_label (rec : WorkItem) (prefix : string) (e : Effect) (l : string) : Prog unit :=
  do (OAddLabel (w_ProjectID rec) (targetIID e rec) (match normaliseLabel l prefix with Ok norm => norm | Err _ => "" end)).
Fixpoint apply_labels (rec : WorkItem) (prefix : string) (e : Effect) (ls : list string) : Prog unit :=
  match ls with [] => Ret tt | l :: ls => _ ← apply_label rec prefix e l; apply_labels rec prefix e ls end.
Definition added (e : Effect) : list string := if String.eqb (e_Kind e) KindLabel then default [] (Add e) else [].
Fixpoint apply_all_labels (rec : WorkItem) (prefix : string) (es : list Effect) : Prog unit :=
  match es with [] => Ret tt | e :: es => _ ← apply_labels rec prefix e (added e); apply_all_labels rec prefix es end.

Definition label (rec : WorkItem) (name : string) : Prog unit := do (OAddLabel (w_ProjectID rec) (w_IssueIID rec) name).

(** Whether features are on, and the label prefix; [None]: not known. *)
Definition meter_project (rec : WorkItem) : Prog (option (bool * string)) :=
  if negb (s_Meter d) || String.eqb (w_Project rec) "" then Ret None else call (OMeterProject (w_Project rec)).
Definition labelPrefix (rec : WorkItem) : Prog string :=
  p ← meter_project rec;
  Ret match p with Some (_, prefix) => if String.eqb prefix "" then gonkLabelPrefix else prefix | None => gonkLabelPrefix end.
Definition applyCodeChangeVerdict (rec : WorkItem) : Prog unit :=
  p ← meter_project rec;
  match p with Some (true, _) => label rec labelFixQueued | _ => label rec labelNeedsMaintainer end.
Definition applyVerdict (rec : WorkItem) (batch : Batch) : Prog unit :=
  let v := EffectiveVerdict batch in
  if String.eqb v VerdictFix || String.eqb v VerdictNeedsScope then Ret tt
  else
    _ ← label rec (verdictLabel v);
    if String.eqb v VerdictClose then do (OCloseIssue (w_ProjectID rec) (w_IssueIID rec))
    else if String.eqb v VerdictCodeChange then applyCodeChangeVerdict rec
    else Ret tt.

(** What became of a batch: applied, refused and why, or not known; and the record. *)
Inductive applied := Applied | Refused (violation : string) | Unknown.

Definition write_batch (rec : WorkItem) (batch : Batch) (prefix : string) : Prog (applied * WorkItem) :=
  scaffold ← applyScaffoldFiles rec batch (answer_marker_of rec);
  match scaffold with
  | None => Ret (Unknown, rec)
  | Some _ =>
      posted ← post_comments rec false (b_Effects batch);
      match posted with
      | None => Ret (Unknown, rec)
      | Some claimed =>
          _ ← when (negb claimed && negb (w_IssueIID rec =? 0) && String.eqb (artifactKindForTrigger (w_Trigger rec)) "comment")
                (post_summary rec batch);
          _ ← apply_all_labels rec prefix (b_Effects batch);
          _ ← applyVerdict rec batch;
          Ret (Applied, set_w_RetryFeedback RetryFeedback_zero rec)
      end
  end.

(** ** The gates *)

Definition check_trajectory (rec : WorkItem) (agent : string) (batch : Batch) : Prog string :=
  if negb (s_Meter d) || String.eqb (w_SessionKey rec) "" then Ret ""
  else
    load ← call (OPolicy agent);
    match load with
    | Err _ => Ret ""
    | Ok policy =>
        if Empty policy then Ret ""
        else
          reply ← call (OTrace (w_SessionKey rec));
          Ret (checkTrajectory (Some reply) (w_SessionKey rec) (Ok policy) (s_EnforceTrajectory d) agent batch)
    end.

Definition bad_label (prefix : string) (e : Effect) : option label_error :=
  first_of (λ l, match normaliseLabel l prefix with Err err => Some err | Ok _ => None end) (added e).

(** [inl]: the batch goes no further. *)
Definition issue_gates (agent : string) (rec : WorkItem) (batch : Batch) : Prog ((applied * WorkItem) + string) :=
  let refuse gate fb := Ret (inl (Refused (gate +:+ ": "), told agent rec (mkFeedback gate (fb_What fb) (fb_Allowed fb)))) in
  let gateFeedback gate := mkFeedback "" (issueGateFeedback gate) "" in
  shape ← call (OShape agent);
  match shape with
  | None => Ret (inl (Unknown, rec))
  | Some shape =>
      match shape_Validate batch shape with
      | Some (VerdictKind r) => refuse "shape" (ExplainFix r batch)
      | Some _ => refuse "shape" (ExplainShape shape)
      | None =>
          if negb (is_nil (ValidateTargets batch (mkTargets {[ w_IssueIID rec ]} ∅ ∅))) then refuse "target" (gateFeedback "target")
          else if negb (is_nil (ValidatePaths batch)) then refuse "path" (gateFeedback "path")
          else if negb (is_nil (ValidateComments batch)) then refuse "comment" (gateFeedback "comment")
          else
            v ← check_trajectory rec agent batch;
            if negb (String.eqb v "")
            then Ret (inl (Refused v, told agent rec (mkFeedback "trajectory" (issueGateFeedback "trajectory") "")))
            else
              prefix ← labelPrefix rec;
              match first_of (bad_label prefix) (b_Effects batch) with
              | Some _ => refuse "label" (gateFeedback "label")
              | None => Ret (inr prefix)
              end
      end
  end.

Definition applyBrokerBatch (agent : string) (rec : WorkItem) : Prog (applied * WorkItem) :=
  if negb (s_Apply d) && negb (ownChainAgent agent) then Ret (Unknown, rec)
  else
    out ← call (OOutput (w_SessionID rec));
    match out with
    | Err Runtime.ErrNotFound => Ret (Refused ("no session " +:+ w_SessionID rec), rec)
    | Err Runtime.ErrRuntime => Ret (Unknown, rec)
    | Ok text =>
        if isUnreadableTranscript text then Ret (Unknown, rec)
        else match extractBatch text with
        | None =>
            Ret (Refused "no GONK_BATCH_START/END fence in session output", worded agent (told agent rec ExplainNoBatch))
        | Some raw =>
            match ParseBatch raw with
            | Err perr => Ret (Refused "unparseable batch: ", worded agent (told agent rec (ExplainParse raw perr (retryFeedbackKinds agent))))
            | Ok batch =>
                if ownChainAgent agent then
                  res ← call (OApplyOwnChain agent rec batch);
                  let '(r, (diag, fix_, fb)) := res in
                  let rec := set_w_RetryFeedback fb (set_w_PipelineFix fix_ (set_w_PipelineDiagnosis diag rec)) in
                  Ret match r with
                      | Some (true, _) => (Applied, set_w_RetryFeedback RetryFeedback_zero rec)
                      | Some (false, v) => (Refused v, rec)
                      | None => (Unknown, rec)
                      end
                else
                  gates ← issue_gates agent rec batch;
                  match gates with
                  | inl (o, rec) => Ret (o, worded agent rec)
                  | inr prefix =>
                      res ← write_batch rec batch prefix;
                      Ret (res.1, worded agent res.2)
                  end
            end
        end
    end.
End apply.

(** ** Labels stay in the namespace *)

Lemma HasPrefix_split s p : HasPrefix s p = true → s = p +:+ string_drop (String.length p) s.
Proof. intros Hp. apply prefix_split in Hp as [post ->]. by rewrite drop_app. Qed.

Lemma repairNamespace_spec `{GoUnicode} l prefix final suffix : repairNamespace l prefix = (final, suffix) → final = prefix +:+ suffix.
Proof.
  unfold repairNamespace. destruct (String.eqb_spec prefix "") as [->|_]; [by intros [= <- <-]|].
  destruct (HasPrefix l prefix) eqn:Hp; [intros [= <- <-]; by apply HasPrefix_split|].
  by destruct (_ && _); intros [= <- <-].
Qed.

(** What the labels are called that gonk writes on an issue or a merge request to
    record what it concluded, and the one by which a person confirms a
    diagnosis, each under [gonk::]. *)
Definition own_names : list string :=
  ["fix-queued"; "needs-maintainer"; "denied"; "onboarding";
   "verdict-code-change"; "verdict-close"; "verdict-reply-only"; "pipeline-fix";
   "pipeline-failing"; "pipeline-code"; "pipeline-test"; "pipeline-configuration"; "pipeline-infrastructure";
   "pipeline-flaky"; "pipeline-unknown"; "needs-human"; "fix-class-confirmed";
   "fix-verifying"; "fix-awaiting-run"; "ci-exec-changed"; "fix-verified"; "fix-new-failure";
   "fix-inconclusive"; "fix-failed"].
Definition own_labels : list string := map (λ name, "gonk::" +:+ name) own_names.

Lemma own_reserved name : name ∈ own_names → contains ReservedLabels name = true ∧ ToLower name = name.
Proof.
  assert (forallb (λ r, contains ReservedLabels r && String.eqb (ToLower r) r) own_names = true) as Hall by (vm_compute; reflexivity).
  rewrite forallb_forall in Hall. intros Hr%list_elem_of_In%Hall. by apply andb_prop in Hr as [? ?%String.eqb_eq].
Qed.

(** C13. A label an agent proposed is applied inside the project's namespace, within
    GitLab's length, and under no name by which gonk records what it concluded,
    in whatever case; in gonk's own namespace, or in one that none of those
    labels begins with, it is none of them. *)
Theorem label_in_namespace `{GoUnicode} label prefix final :
  normaliseLabel label prefix = Ok final →
  (∃ suffix, final = prefix +:+ suffix ∧ ToLower suffix ∉ own_names) ∧ len final <= 255 ∧
  (prefix = "gonk::" ∨ (∀ r, r ∈ own_labels → HasPrefix r prefix = false) → final ∉ own_labels).
Proof.
  unfold normaliseLabel. destruct (Contains_sub label ","); [done|]. destruct (String.eqb _ ""); [done|].
  destruct (repairNamespace (TrimSpace label) prefix) as [f s] eqn:Er. apply repairNamespace_spec in Er.
  destruct (Z.ltb_spec maxLabelBytes (len f)); [done|]. destruct (contains ReservedLabels (ToLower s)) eqn:Ec; [done|].
  intros [= <-].
  assert (Hs : ToLower s ∉ own_names) by (intros [Hc _]%own_reserved; congruence).
  split; [by exists s|]. split; [unfold maxLabelBytes in *; lia|].
  intros Hp Hin. destruct Hp as [->|Hp].
  - apply list_elem_of_fmap in Hin as (name & E & Hin). rewrite Er in E. apply (f_equal (string_drop (String.length "gonk::"))) in E. rewrite !drop_app in E. subst s.
    apply Hs. by destruct (own_reserved name Hin) as [_ ->].
  - specialize (Hp f Hin). rewrite Er in Hp. unfold HasPrefix in Hp.
    assert (String.prefix prefix (prefix +:+ s) = true) as Hy by (apply prefix_split; by eexists). congruence.
Qed.

Lemma label_in_namespace_witness :
  normaliseLabel "Gonk/backend" "gonk::" = Ok "gonk::backend" ∧ ("gonk::backend" ∉ own_labels) ∧
  normaliseLabel "gonk::Fix-Queued" "gonk::" = Err (LabelReserved "Fix-Queued") ∧ normaliseLabel "a,b" "gonk::" = Err LabelComma.
Proof.
  assert (normaliseLabel "Gonk/backend" "gonk::" = Ok "gonk::backend") as Hn by (vm_compute; reflexivity).
  destruct (label_in_namespace "Gonk/backend" "gonk::" "gonk::backend" Hn) as (_ & _ & Hc).
  split; [exact Hn|]. split; [apply Hc; by left|]. vm_compute. split; reflexivity.
Defined.

(** A project may configure any text as its prefix. With a single colon, an agent's
    label is one that gonk writes to say that it queued a fix. *)
Example reserved_label_minted :
  normaliseLabel "gonk::fix-queued" "gonk:" = Ok labelFixQueued ∧ labelFixQueued ∈ own_labels.
Proof. split; [vm_compute; reflexivity|]. by left. Qed.

(** The labels of the change workflow (pkg/changejudge), which no program writes
    yet, are not reserved, and neither is the one a person sets to stop a merge. *)
Example change_label_minted :
  normaliseLabel "gonk::change-verified" "gonk::" = Ok "gonk::change-verified" ∧
  normaliseLabel "gonk::hold" "gonk::" = Ok "gonk::hold".
Proof. vm_compute. split; reflexivity. Qed.

(** ** Nothing is written but what passed *)

Definition is_write {B : Type} (op : Op B) : bool :=
  match op with
  | OCreateNote _ _ _ | OUpdateNote _ _ _ _ | OAddLabel _ _ _ | OCloseIssue _ _ | OCreateCommit _ _ _ _ _
  | OCreateMergeRequest _ _ _ _ _ => true
  | _ => false
  end.
Definition is_read {B : Type} (op : Op B) : bool :=
  match op with
  | OOutput _ | OIssueNotes _ _ | OMergeRequests _ _ _ | ORawFile _ _ _ | OProjectBranch _ | OMeterProject _ | OTrace _
  | OShape _ | OPolicy _ => true
  | _ => false
  end.
Lemma read_not_write {B : Type} (op : Op B) : is_read op = true → is_write op = false.
Proof. by destruct op. Qed.
Definition no_write (h : list Event) : Prop := Forall (λ e, match e with Ev op _ => is_write op = false end) h.
Definition happened {B : Type} (op : Op B) (b : B) (h : list Event) : Prop := In (Ev op b) h.
Definition action_file (a : commit_action) : FileWrite :=
  match a with CreateFile p c | UpdateFile p c => mkFileWrite p c end.

Section confined.
Context `{GoUnicode} `{GoLetters} `{MapRange} `{BatchDecoder} `{JsonTroubles} (d : sweepDeps) (agent : string) (rec : WorkItem).

(** The batch is in the session's output, and passed every gate. *)
Record gated (batch : Batch) (prefix : string) (h : list Event) : Prop := mkGated {
  g_output : ∃ text raw, happened (OOutput (w_SessionID rec)) (Ok text) h ∧ extractBatch text = Some raw ∧ ParseBatch raw = Ok batch;
  g_shape : ∃ shape, happened (OShape agent) (Some shape) h ∧ shape_Validate batch shape = None;
  g_targets : ValidateTargets batch (mkTargets {[ w_IssueIID rec ]} ∅ ∅) = None;
  g_paths : ValidatePaths batch = None;
  g_comments : ValidateComments batch = None;
  g_trajectory : s_Meter d = true → w_SessionKey rec ≠ "" →
    ∃ load, happened (OPolicy agent) load h ∧ ∀ policy, load = Ok policy → Empty policy = false →
    ∃ reply, happened (OTrace (w_SessionKey rec)) reply h ∧
      checkTrajectory (Some reply) (w_SessionKey rec) (Ok policy) (s_EnforceTrajectory d) agent batch = "";
  g_labels : ∀ e l, e ∈ b_Effects batch → l ∈ added e → ∃ norm, normaliseLabel l prefix = Ok norm;
}.

Definition is_answer (batch : Batch) (body : string) : Prop :=
  (∃ e, e ∈ b_Effects batch ∧ e_Kind e = KindComment ∧ (body = comment_body d rec e ∨ body = with_status rec (comment_body d rec e))) ∨
  body = summary_body d rec batch.
Definition verdict_label (batch : Batch) (l : string) : Prop :=
  l = verdictLabel (EffectiveVerdict batch) ∨
  EffectiveVerdict batch = VerdictCodeChange ∧ (l = labelFixQueued ∨ l = labelNeedsMaintainer).

(** What a batch may have written: its files on the scaffold branch and a merge
    request of it; its comments, on the item's issue, new or in place of gonk's own
    note; its labels, and those of its verdict; the issue closed by that verdict. *)
Definition within (batch : Batch) (prefix : string) {B : Type} (op : Op B) (h : list Event) : Prop :=
  match op with
  | OCreateCommit p branch _ _ actions => p = w_ProjectID rec ∧ branch = scaffoldBranch ∧ map action_file actions = FileWrites batch
  | OCreateMergeRequest p source _ _ _ => p = w_ProjectID rec ∧ source = scaffoldBranch ∧ FileWrites batch ≠ []
  | OCreateNote p iid body => p = w_ProjectID rec ∧ iid = w_IssueIID rec ∧ is_answer batch body
  | OUpdateNote p iid id body => p = w_ProjectID rec ∧ iid = w_IssueIID rec ∧ ∃ notes n,
      happened (OIssueNotes p iid) (Some notes) h ∧ n ∈ notes ∧ own_status d (statusMarker (w_BeadID rec)) n = true ∧ id = n_ID n ∧
      (is_answer batch body ∨ isFinalAnswer n (w_BeadID rec) = true ∧ body = retired_body (n_Body n))
  | OAddLabel p iid l => p = w_ProjectID rec ∧ iid = w_IssueIID rec ∧
      ((∃ e l0, e ∈ b_Effects batch ∧ l0 ∈ added e ∧ normaliseLabel l0 prefix = Ok l) ∨ verdict_label batch l)
  | OCloseIssue p iid => p = w_ProjectID rec ∧ iid = w_IssueIID rec ∧ EffectiveVerdict batch = VerdictClose
  | _ => True
  end.
Definition confined {B : Type} (op : Op B) (h : list Event) : Prop :=
  is_read op = true ∨ ∃ batch prefix, is_write op = true ∧ gated batch prefix h ∧ within batch prefix op h.
#[local] Abbreviation hist p h Q := (wp (@confined) (@any_answer) (@remember) p h Q).

Lemma hist_bind {A B : Type} (p : Prog A) (f : A → Prog B) h R Q :
  hist p h R → (∀ a h', R a h' → hist (f a) h' Q) → hist (p ≫= f) h Q.
Proof. intros Hp Hf. apply wp_bind. eapply wp_mono; [exact Hp|exact Hf]. Qed.
Lemma hist_read {B C : Type} (op : Op B) (f : B → Prog C) h Q :
  is_read op = true → (∀ b, hist (f b) (h ++ [Ev op b]) Q) → hist (call op ≫= f) h Q.
Proof. intros Hr Hf. split; [by left|]. intros b _. exact (Hf b). Qed.

Lemma happened_later {B : Type} (op : Op B) b h h' : happened op b h → happened op b (h ++ h').
Proof. unfold happened. rewrite in_app_iff. by left. Qed.
Lemma happened_now {B : Type} (op : Op B) b h : happened op b (h ++ [Ev op b]).
Proof. unfold happened. rewrite in_app_iff. right. by left. Qed.
Lemma gated_later batch prefix h h' : gated batch prefix h → gated batch prefix (h ++ h').
Proof.
  intros [(text & raw & Ho & He & Hp) (shape & Hs & Hv) Ht Hpa Hc Htr Hl].
  split; try done.
  - exists text, raw. split; [by apply happened_later|done].
  - exists shape. split; [by apply happened_later|done].
  - intros Hm Hk. destruct (Htr Hm Hk) as (load & Hload & Hpol). exists load. split; [by apply happened_later|].
    intros policy E Hne. destruct (Hpol policy E Hne) as (reply & Hr & Hck). exists reply. split; [by apply happened_later|done].
Qed.
Lemma no_write_snoc {B : Type} (op : Op B) b h : is_write op = false → no_write h → no_write (h ++ [Ev op b]).
Proof. intros Hr Hh. apply Forall_app. split; [done|by constructor]. Qed.

(** *** The gates write nothing *)

Definition gates_post (batch : Batch) (r : (applied * WorkItem) + string) (h : list Event) : Prop :=
  no_write h ∧ match r with
  | inl (o, rec') => o ≠ Applied ∧ ∃ fb, rec' = set_w_RetryFeedback fb rec
  | inr prefix => (∃ text raw, happened (OOutput (w_SessionID rec)) (Ok text) h ∧ extractBatch text = Some raw ∧ ParseBatch raw = Ok batch) →
                  gated batch prefix h
  end.

Lemma set_feedback_same : rec = set_w_RetryFeedback (w_RetryFeedback rec) rec.
Proof. by destruct rec. Qed.
Lemma told_feedback fb : ∃ f, told agent rec fb = set_w_RetryFeedback f rec.
Proof.
  unfold told, recordRetryFeedback. destruct (retryFeedbackKinds agent); [by eexists; apply set_feedback_same|].
  destruct (String.eqb _ ""); [by eexists; apply set_feedback_same|by eexists].
Qed.
Lemma refused_post batch gate fb h : no_write h → gates_post batch (inl (Refused gate, told agent rec fb)) h.
Proof. intros Hh. split; [done|]. split; [done|]. apply told_feedback. Qed.

Lemma first_of_labels prefix batch : first_of (bad_label prefix) (b_Effects batch) = None →
  ∀ e l, e ∈ b_Effects batch → l ∈ added e → ∃ norm, normaliseLabel l prefix = Ok norm.
Proof.
  intros Hf e l He Hl. rewrite first_of_none in Hf. specialize (Hf e He). unfold bad_label in Hf. rewrite first_of_none in Hf.
  specialize (Hf l Hl). destruct (normaliseLabel l prefix); [by eexists|done].
Qed.

Definition trajectory_known (batch : Batch) (v : string) (h : list Event) : Prop :=
  v = "" → s_Meter d = true → w_SessionKey rec ≠ "" →
    ∃ load, happened (OPolicy agent) load h ∧ ∀ policy, load = Ok policy → Empty policy = false →
    ∃ reply, happened (OTrace (w_SessionKey rec)) reply h ∧
      checkTrajectory (Some reply) (w_SessionKey rec) (Ok policy) (s_EnforceTrajectory d) agent batch = "".
Lemma check_trajectory_hist batch h : no_write h →
  hist (check_trajectory d rec agent batch) h (λ v h', no_write h' ∧ (∃ more, h' = h ++ more) ∧ trajectory_known batch v h').
Proof.
  intros Hh. unfold check_trajectory.
  destruct (s_Meter d) eqn:Em; cbn [negb orb]; [|split; [done|]; split; [exists []; by rewrite app_nil_r|]; intros _ Hm; congruence].
  destruct (String.eqb_spec (w_SessionKey rec) "") as [Ek|Ek]; [split; [done|]; split; [exists []; by rewrite app_nil_r|]; by intros _ _ Hk|].
  apply hist_read; [done|]. intros [policy|e].
  - destruct (Empty policy) eqn:Ee.
    + split; [by apply no_write_snoc|]. split; [by eexists|]. intros _ _ _. eexists. split; [apply happened_now|].
      intros p [= <-] Hne. congruence.
    + apply hist_read; [done|]. intros reply. split; [by apply no_write_snoc; [|apply no_write_snoc]|].
      split; [rewrite <- app_assoc; by eexists|]. intros Hv _ _. eexists. split; [apply happened_later, happened_now|].
      intros p [= <-] _. exists reply. split; [apply happened_now|exact Hv].
  - split; [by apply no_write_snoc|]. split; [by eexists|]. intros _ _ _. eexists. split; [apply happened_now|done].
Qed.
Lemma labelPrefix_hist h : no_write h → hist (labelPrefix d rec) h (λ _ h', no_write h' ∧ ∃ more, h' = h ++ more).
Proof.
  intros Hh. unfold labelPrefix, meter_project. destruct (_ || _); [split; [done|]; exists []; by rewrite app_nil_r|].
  split; [by left|]. intros b _. split; [by apply no_write_snoc|by eexists].
Qed.

Lemma issue_gates_hist batch h : no_write h →
  hist (issue_gates d agent rec batch) h (λ r h', gates_post batch r h' ∧ ∃ more, h' = h ++ more).
Proof.
  intros Hh. unfold issue_gates.
  assert (∀ h', no_write h' → (∃ more, h' = h ++ more) → ∀ gate fb, gates_post batch (inl (Refused gate, told agent rec fb)) h' ∧ ∃ more, h' = h ++ more) as Href
    by (intros h' Hh' Hm gate fb; split; [by apply refused_post|done]).
  apply hist_read; [done|]. intros [shape|].
  2: { split; [|by eexists]. split; [by apply no_write_snoc|]. split; [done|]. eexists. apply set_feedback_same. }
  set (h1 := h ++ [Ev (OShape agent) (Some shape)]).
  assert (no_write h1) as Hh1 by by apply no_write_snoc. assert (∃ more, h1 = h ++ more) as Hm1 by by eexists.
  destruct (shape_Validate batch shape) as [err|] eqn:Es; [by destruct err; apply Href|].
  destruct (is_nil (ValidateTargets _ _)) eqn:Et; cbn [negb]; [|by apply Href].
  destruct (is_nil (ValidatePaths _)) eqn:Ep; cbn [negb]; [|by apply Href].
  destruct (is_nil (ValidateComments _)) eqn:Ec; cbn [negb]; [|by apply Href].
  eapply hist_bind; [by apply check_trajectory_hist|]. intros v h2 (Hh2 & (m2 & E2) & Hv).
  assert (∃ more, h2 = h ++ more) as Hm2 by (destruct Hm1 as [m1 ->]; rewrite E2, <- app_assoc; by eexists).
  destruct (String.eqb_spec v "") as [Ev|Ev]; cbn [negb]; [|by apply Href].
  eapply hist_bind; [by apply labelPrefix_hist|]. intros prefix h3 (Hh3 & (m3 & E3)).
  assert (∃ more, h3 = h ++ more) as Hm3 by (destruct Hm2 as [m ->]; rewrite E3, <- app_assoc; by eexists).
  destruct (first_of (bad_label prefix) _) eqn:Ef; [by apply Href|].
  split; [|done]. split; [done|]. intros Ho. unfold is_nil in *. split; [done| | | | | |].
  - exists shape. split; [|done]. rewrite E3, E2. apply happened_later, happened_later, happened_now.
  - by destruct (ValidateTargets _ _).
  - by destruct (ValidatePaths _).
  - by destruct (ValidateComments _).
  - intros Hm Hk. destruct (Hv Ev Hm Hk) as (load & Hl & Hp). exists load. split; [rewrite E3; by apply happened_later|].
    intros policy El Hne. destruct (Hp policy El Hne) as (reply & Hr & Hck). exists reply. split; [rewrite E3; by apply happened_later|done].
  - by apply first_of_labels.
Qed.

(** *** The writes are the batch's *)

Section writes.
Context (batch : Batch) (prefix : string).
Definition keeps {A : Type} (p : Prog A) (R : A → Prop) : Prop :=
  ∀ h, gated batch prefix h → hist p h (λ a h', gated batch prefix h' ∧ R a).

Lemma keeps_ret {A : Type} (a : A) R : R a → keeps (Ret a) R.
Proof. intros Ha h Hg. split; done. Qed.
Lemma keeps_bind {A B : Type} (p : Prog A) (f : A → Prog B) R S : keeps p R → (∀ a, R a → keeps (f a) S) → keeps (p ≫= f) S.
Proof. intros Hp Hf h Hg. eapply hist_bind; [by apply Hp|]. intros a h' [Hg' Ha]. by apply Hf. Qed.
Lemma keeps_call {B : Type} (op : Op B) : is_read op = true ∨ is_write op = true ∧ (∀ h, within batch prefix op h) →
  keeps (call op) (λ _, True).
Proof.
  intros Hw h Hg. split; [destruct Hw as [Hr|[Hwr Hw]]; [by left|right; by exists batch, prefix]|].
  intros b _. split; [|done]. by apply gated_later.
Qed.
Lemma keeps_weaken {A : Type} (p : Prog A) R S : keeps p R → (∀ a, R a → S a) → keeps p S.
Proof. intros Hp HRS h Hg. eapply wp_mono; [by apply Hp|]. intros a h' [Hg' Ha]. split; [done|]. by apply HRS. Qed.
Lemma keeps_when b p : keeps p (λ _, True) → keeps (when b p) (λ _, True).
Proof. destruct b; [done|]. intros _. by apply keeps_ret. Qed.
Lemma keeps_do {B : Type} (op : Op B) : is_write op = true → (∀ h, within batch prefix op h) → keeps (do op) (λ _, True).
Proof. intros Hr Hw. unfold do. eapply keeps_bind; [apply keeps_call; by right|]. intros _ _. by apply keeps_ret. Qed.

Lemma keeps_scaffold_actions writes : keeps (scaffold_actions (w_ProjectID rec) writes) (λ actions, map action_file actions = writes).
Proof.
  induction writes as [|w writes IH]; [by apply keeps_ret|]. cbn [scaffold_actions].
  eapply keeps_bind; [apply keeps_call; by left|]. intros there _. eapply keeps_bind; [exact IH|]. intros actions Ha. apply keeps_ret.
  destruct w, there; cbn; by rewrite Ha.
Qed.
Lemma keeps_scaffold marker : keeps (applyScaffoldFiles rec batch marker) (λ _, True).
Proof.
  unfold applyScaffoldFiles. eapply keeps_bind; [apply keeps_scaffold_actions|]. intros actions Ha.
  destruct actions as [|a actions]; [by apply keeps_ret|].
  eapply keeps_bind; [apply keeps_call; by left|]. intros [branch|] _; [|by apply keeps_ret].
  eapply keeps_bind; [apply keeps_call; right; by split|]. intros [] _; cbn [negb]; [|by apply keeps_ret].
  eapply keeps_bind; [apply keeps_call; by left|]. intros [[|mr mrs]|] _; try by apply keeps_ret.
  apply keeps_call. right. split; [done|]. intros h. split; [done|]. split; [done|]. by rewrite <- Ha.
Qed.

(** The note that is rewritten is one that was listed, and gonk's. *)
Lemma last_of_in {A} (f : A → bool) l x : last_of f l = Some x → x ∈ l ∧ f x = true.
Proof.
  unfold last_of. assert (∀ o, fold_left (λ found x, if f x then Some x else found) l o = Some x → (x ∈ l ∧ f x = true) ∨ o = Some x) as Hg.
  { induction l as [|a l IH]; intros o; cbn; [by right|]. intros E. apply IH in E as [[Hin Hx]|E]; [left; split; [by right|done]|].
    destruct (f a) eqn:Ea; [|by right]. injection E as ->. left. split; [by left|done]. }
  intros E. apply Hg in E as [?|?]; done.
Qed.
Definition listed_status (n : issue_note) (h : list Event) : Prop := ∃ notes,
  happened (OIssueNotes (w_ProjectID rec) (w_IssueIID rec)) (Some notes) h ∧ n ∈ notes ∧ own_status d (statusMarker (w_BeadID rec)) n = true.
Lemma find_hist h : gated batch prefix h →
  hist (findStatusNote d (w_ProjectID rec) (w_IssueIID rec) (w_BeadID rec)) h
    (λ r h', gated batch prefix h' ∧ ∀ n, r = Some (Some n) → listed_status n h').
Proof.
  intros Hg. unfold findStatusNote. destruct (_ || _); [by split|]. apply hist_read; [done|]. intros notes.
  split; [by apply gated_later|]. intros n E. destruct notes as [notes|]; [|done]. injection E as E.
  apply last_of_in in E as [Hin Hown]. exists notes. split; [apply happened_now|done].
Qed.
Lemma listed_within n h id body : listed_status n h → id = n_ID n →
  (is_answer batch body ∨ isFinalAnswer n (w_BeadID rec) = true ∧ body = retired_body (n_Body n)) →
  within batch prefix (OUpdateNote (w_ProjectID rec) (w_IssueIID rec) id body) h.
Proof. intros (notes & Hn & Hin & Hown) -> Hb. split; [done|]. split; [done|]. by exists notes, n. Qed.

Lemma keeps_replaced body : is_answer batch body → keeps (replacedStatusNote d rec body) (λ _, True).
Proof.
  intros Hb h Hg. unfold replacedStatusNote. eapply hist_bind; [by apply find_hist|]. intros found h1 (Hg1 & Hl).
  destruct found as [[n|]|]; try by split. specialize (Hl n eq_refl).
  destruct (String.eqb (n_Body n) body); [by split|].
  destruct (isFinalAnswer n (w_BeadID rec)) eqn:Ef.
  - eapply hist_bind with (R := λ _ h', gated batch prefix h').
    + unfold retireStatusNote. destruct (s_Apply d && _); [|done]. split.
      { right. exists batch, prefix. split; [done|]. split; [done|]. apply (listed_within n); [done|done|by right]. }
      intros b _. by apply gated_later.
    + intros _ h2 Hg2. by split.
  - split.
    { right. exists batch, prefix. split; [done|]. split; [done|]. apply (listed_within n); [done|done|by left]. }
    intros b _. split; [by apply gated_later|done].
Qed.

Lemma targetIID_own e : ValidateTargets batch (mkTargets {[ w_IssueIID rec ]} ∅ ∅) = None → e ∈ b_Effects batch →
  e_Kind e = KindComment ∨ e_Kind e = KindLabel → targetIID e rec = w_IssueIID rec.
Proof.
  unfold ValidateTargets. rewrite (first_item_forall _ _ _ _ (λ i e, target_rule_none _ i e)), Forall_forall. intros Ht He Hk.
  specialize (Ht e He). unfold targetIID. destruct (Z.eqb_spec (TargetIID e) 0) as [|Hne]; [done|].
  rewrite decide_False in Ht by done. destruct Ht as [Hin Hh].
  assert (effectTargetKinds (e_Kind e) = [TargetIssue]) as Ek by (destruct Hk as [->| ->]; reflexivity).
  rewrite Ek in Hin. apply list_elem_of_singleton in Hin. rewrite Hin in Hh. unfold targets_has in Hh. cbn in Hh.
  apply bool_decide_eq_true in Hh. set_solver.
Qed.

Lemma keeps_comments es claimed : (∀ e, e ∈ es → e ∈ b_Effects batch) → ValidateTargets batch (mkTargets {[ w_IssueIID rec ]} ∅ ∅) = None →
  keeps (post_comments d rec claimed es) (λ _, True).
Proof.
  intros Hin Ht. revert claimed. induction es as [|e es IH]; intros claimed; [by apply keeps_ret|]. cbn [post_comments].
  assert (∀ c, keeps (post_comments d rec c es) (λ _, True)) as Hrest by (intros c; apply IH; intros e' He'; apply Hin; by right).
  destruct (String.eqb_spec (e_Kind e) KindComment) as [Ek|]; cbn [negb]; [|apply Hrest].
  assert (e ∈ b_Effects batch) as He by (apply Hin; by left).
  set (claim := negb claimed && (targetIID e rec =? w_IssueIID rec)).
  set (body := if claim then with_status rec (comment_body d rec e) else comment_body d rec e).
  assert (is_answer batch body) as Hb by (left; exists e; unfold body; destruct claim; auto).
  eapply keeps_bind with (R := λ _, True).
  { destruct claim; [by apply keeps_replaced|by apply keeps_ret]. }
  intros [] _; [apply Hrest|]. eapply keeps_bind.
  { apply keeps_call. right. split; [done|]. intros h. split; [done|]. split; [by apply targetIID_own; [..|left]|done]. }
  intros [] _; [apply Hrest|by apply keeps_ret].
Qed.
Lemma keeps_summary : keeps (post_summary d rec batch) (λ _, True).
Proof.
  unfold post_summary. eapply keeps_bind; [by apply keeps_replaced; right|]. intros b _. apply keeps_when, keeps_do; [done|].
  intros h. split; [done|]. split; [done|]. by right.
Qed.

Lemma keeps_labels e ls : (∀ l, l ∈ ls → l ∈ added e) → (e ∈ b_Effects batch) →
  ValidateTargets batch (mkTargets {[ w_IssueIID rec ]} ∅ ∅) = None →
  (∀ l, l ∈ added e → ∃ norm, normaliseLabel l prefix = Ok norm) → keeps (apply_labels rec prefix e ls) (λ _, True).
Proof.
  intros Hin He Ht Hok. induction ls as [|l ls IH]; [by apply keeps_ret|]. cbn [apply_labels].
  eapply keeps_bind; [|intros _ _; apply IH; intros l' Hl'; apply Hin; by right].
  assert (l ∈ added e) as Hl by (apply Hin; by left). destruct (Hok l Hl) as [norm Hn]. unfold apply_label. rewrite Hn.
  apply keeps_do; [done|]. intros h. split; [done|]. split.
  - apply targetIID_own; [done|done|]. right. unfold added in Hl. destruct (String.eqb_spec (e_Kind e) KindLabel) as [|]; [done|].
    by apply elem_of_nil in Hl.
  - left. exists e, l. done.
Qed.
Lemma keeps_all_labels es : (∀ e, e ∈ es → e ∈ b_Effects batch) → ValidateTargets batch (mkTargets {[ w_IssueIID rec ]} ∅ ∅) = None →
  (∀ e l, e ∈ b_Effects batch → l ∈ added e → ∃ norm, normaliseLabel l prefix = Ok norm) →
  keeps (apply_all_labels rec prefix es) (λ _, True).
Proof.
  intros Hin Ht Hok. induction es as [|e es IH]; [by apply keeps_ret|]. cbn [apply_all_labels].
  assert (e ∈ b_Effects batch) as He by (apply Hin; by left).
  eapply keeps_bind; [apply keeps_labels; [done|done|done|intros l Hl; by eapply Hok]|].
  intros _ _. apply IH. intros e' He'. apply Hin. by right.
Qed.

Lemma keeps_label l : verdict_label batch l → keeps (label rec l) (λ _, True).
Proof. intros Hl. apply keeps_do; [done|]. intros h. split; [done|]. split; [done|]. by right. Qed.
Lemma keeps_verdict : keeps (applyVerdict d rec batch) (λ _, True).
Proof.
  unfold applyVerdict. destruct (_ || _); [by apply keeps_ret|].
  eapply keeps_bind; [apply keeps_label; by left|]. intros _ _.
  destruct (String.eqb_spec (EffectiveVerdict batch) VerdictClose) as [Ev|_].
  { by apply keeps_do. }
  destruct (String.eqb_spec (EffectiveVerdict batch) VerdictCodeChange) as [Ev|_]; [|by apply keeps_ret].
  unfold applyCodeChangeVerdict. eapply keeps_bind with (R := λ _, True).
  { unfold meter_project. destruct (_ || _); [by apply keeps_ret|apply keeps_call; by left]. }
  intros p _. destruct p as [[[] ?]|]; apply keeps_label; right; auto.
Qed.

Lemma keeps_write_batch h : gated batch prefix h →
  hist (write_batch d rec batch prefix) h (λ r h', gated batch prefix h' ∧
    (r = (Unknown, rec) ∨ r = (Applied, set_w_RetryFeedback RetryFeedback_zero rec))).
Proof.
  intros Hg. pose proof Hg as [_ _ Ht _ _ _ Hl].
  assert (keeps (write_batch d rec batch prefix) (λ r, r = (Unknown, rec) ∨ r = (Applied, set_w_RetryFeedback RetryFeedback_zero rec))) as Hk;
    [|by apply Hk].
  unfold write_batch. eapply keeps_bind; [apply keeps_scaffold|]. intros [url|] _; [|apply keeps_ret; by left].
  eapply keeps_bind; [by apply keeps_comments|]. intros [claimed|] _; [|apply keeps_ret; by left].
  eapply keeps_bind; [apply keeps_when, keeps_summary|]. intros _ _.
  eapply keeps_bind; [by apply keeps_all_labels|]. intros _ _.
  eapply keeps_bind; [apply keeps_verdict|]. intros _ _. apply keeps_ret. by right.
Qed.
End writes.

Definition batch_post (r : applied * WorkItem) (h : list Event) : Prop :=
  match r.1 with
  | Applied => (∃ batch prefix, gated batch prefix h) ∧ r.2 = set_w_RetryFeedback RetryFeedback_zero rec
  | Refused _ => no_write h
  | Unknown => True
  end ∧ ∃ fb, r.2 = set_w_RetryFeedback fb rec.

Lemma worded_feedback fb : ∃ f, worded agent (set_w_RetryFeedback fb rec) = set_w_RetryFeedback f rec.
Proof. unfold worded. destruct (ownChainAgent agent); by eexists. Qed.
Lemma worded_zero : worded agent (set_w_RetryFeedback RetryFeedback_zero rec) = set_w_RetryFeedback RetryFeedback_zero rec.
Proof. unfold worded. by destruct (ownChainAgent agent). Qed.

Lemma refused_now v fb h : no_write h → batch_post (Refused v, worded agent (told agent rec fb)) h.
Proof. intros Hh. split; [done|]. destruct (told_feedback fb) as [f Hf]. cbn [snd]. rewrite Hf. apply worded_feedback. Qed.
Lemma unchanged_post o h : o ≠ Applied → (∀ v, o = Refused v → no_write h) → batch_post (o, rec) h.
Proof. intros Ho Hv. split; [destruct o as [|v|]; [by destruct Ho|exact (Hv v eq_refl)|exact I]|]. eexists. apply set_feedback_same. Qed.

Lemma applyBrokerBatch_hist h : ownChainAgent agent = false → no_write h → hist (applyBrokerBatch d agent rec) h batch_post.
Proof.
  intros Hown Hh0. unfold applyBrokerBatch. rewrite Hown. destruct (negb (s_Apply d) && negb false).
  { by apply unchanged_post. }
  apply hist_read; [done|]. intros out.
  assert (no_write (h ++ [Ev (OOutput (w_SessionID rec)) out])) as Hh by by apply no_write_snoc.
  destruct out as [text|[]]; [|by apply unchanged_post|by apply unchanged_post].
  destruct (isUnreadableTranscript text); [by apply unchanged_post|].
  destruct (extractBatch text) as [raw|] eqn:Ex; [|by apply refused_now].
  destruct (ParseBatch raw) as [batch|perr] eqn:Ep; [|by apply refused_now].
  eapply hist_bind; [by apply issue_gates_hist|]. intros [[o rec']|prefix] h2 [[Hn Hr] [more E]].
  - destruct Hr as [Ho [fb ->]]. split; [by destruct o|]. apply worded_feedback.
  - eapply hist_bind.
    + apply keeps_write_batch with (prefix := prefix). apply Hr. exists text, raw. split; [|done]. rewrite E. apply happened_later, happened_now.
    + intros [o rec'] h' [Hg Hres]. destruct Hres as [Hres|Hres]; rewrite Hres; cbn [fst snd].
      * split; [done|]. rewrite set_feedback_same. apply worded_feedback.
      * split; [|eexists; apply worded_zero]. split; [by exists batch, prefix|apply worded_zero].
Qed.
End confined.

(** C7. Whatever the world answers, an issue agent's output has GitLab written to only
    after a batch found in it passed every gate, and only what that batch says:
    its files on the scaffold branch, its comments and labels on the item's own
    issue, that issue closed by its verdict. A refused batch has written nothing,
    an applied one passed; and of the item's record nothing changes but the
    feedback, which an applied batch clears. *)
Theorem batch_writes_confined `{GoUnicode} `{GoLetters} `{MapRange} `{BatchDecoder} `{JsonTroubles} d agent rec tr o rec' :
  ownChainAgent agent = false → runs (applyBrokerBatch d agent rec) tr (o, rec') →
  (∀ pre (B : Type) (op : Op B) (b : B) post, tr = pre ++ Ev op b :: post → is_write op = true →
     ∃ batch prefix, gated d agent rec batch prefix pre ∧ within d rec batch prefix op pre) ∧
  match o with
  | Applied => (∃ batch prefix, gated d agent rec batch prefix tr) ∧ rec' = set_w_RetryFeedback RetryFeedback_zero rec
  | Refused _ => no_write tr
  | Unknown => True
  end ∧ ∃ fb, rec' = set_w_RetryFeedback fb rec.
Proof.
  intros Hown Hr. assert (no_write []) as Hnil by constructor.
  destruct (wp_history _ _ _ _ _ (applyBrokerBatch_hist d agent rec [] Hown Hnil) Hr) as [[Ho Hf] Hall].
  split; [|by split]. intros pre B op b post E Hw. destruct (Hall pre (Ev op b) post E) as [Hrd|(batch & prefix & _ & Hc)].
  - apply read_not_write in Hrd. congruence.
  - by exists batch, prefix.
Qed.

(** ** A run *)

(** A world that answers each operation as it will. *)
Section simulate.
Context (answer : ∀ B : Type, Op B → option B).
Fixpoint simulate {A : Type} (p : Prog A) : option (list Event * A) :=
  match p with
  | Ret a => Some ([], a)
  | Do op k =>
      match answer _ op with
      | Some b => match simulate (k b) with Some (tr, a) => Some (Ev op b :: tr, a) | None => None end
      | None => None
      end
  end.
Lemma simulate_runs {A : Type} (p : Prog A) tr a : simulate p = Some (tr, a) → runs p tr a.
Proof.
  revert tr. induction p as [x|B op k IH]; intros tr; cbn.
  - intros [= <- <-]. constructor.
  - destruct (answer B op) as [b|]; [|done]. destruct (simulate (k b)) as [[tr' a']|] eqn:E; [|done].
    intros [= <- <-]. constructor. by apply IH.
Qed.
End simulate.

(** A triage session closes its issue; the note above is gonk's placeholder. *)
Definition a_label (l : string) : Effect :=
  mkEffect KindLabel "" (Some [l]) None "" "" "" 0 "" "" "" None "" None "" "" None "".
Definition closing_batch : Batch := mkBatch [a_label "Gonk/backend"; a_comment "Known, and fixed."] VerdictClose.
Definition sample_output : string := "session start GONK_BATCH_START {} GONK_BATCH_END".
Definition sample_item : WorkItem :=
  mkWorkItem sample_bead sample_bead "g/p" 84 "p" "k" "issue-triage" 7 "" StateRunning "small" "m" 1 "r1" 100 0 0
    "gonk-triage-p84-i7-a1" "" 10 0 "" "" 0 0 "" "" [] 0 0 0 0 false 0 0 "" PipelineDiagnosis_zero PipelineFix_zero "v1" 0 0
    (WorkStore.mkRetryFeedback 0 "" "" "").
Definition sample_placeholder : issue_note :=
  mkIssueNote 5 false "gonk-bot" ("Triaging." +:+ newlines +:+ statusMarker sample_bead).
Definition sample_answers (B : Type) (op : Op B) : option B :=
  match op in Op B return option B with
  | OOutput _ => Some (Ok sample_output)
  | OShape _ => Some (Some {[ KindComment := mkCard 1 1; KindLabel := mkCard 0 5 ]})
  | OPolicy _ => Some (Err "no policy")
  | OMeterProject _ => Some (Some (false, "gonk::"))
  | OIssueNotes _ _ => Some (Some [sample_placeholder])
  | OUpdateNote _ _ _ _ => Some true
  | OAddLabel _ _ _ => Some true
  | OCloseIssue _ _ => Some true
  | _ => None
  end.
#[local] Instance closing_decoder : BatchDecoder := {| decode _ := Some (closing_batch, "", ["effects"; "verdict"]) |}.
#[local] Instance no_troubles : JsonTroubles := {| undecodable _ := OtherFailure; loose _ := None |}.

Definition write_name (e : Event) : string :=
  match e with
  | Ev (OUpdateNote _ _ id _) _ => "edit " +:+ itoa id
  | Ev (OAddLabel _ iid l) _ => itoa iid +:+ " " +:+ l
  | Ev (OCloseIssue _ iid) _ => "close " +:+ itoa iid
  | Ev op _ => if is_write op then "other" else ""
  end.
Definition sample_run := simulate sample_answers (applyBrokerBatch sample_deps triageAgent sample_item).
(** What it wrote, and whether it was applied. *)
Definition run_summary (r : option (list Event * (applied * WorkItem))) : option (list string * bool) :=
  match r with
  | Some (tr, (o, _)) =>
      Some (List.filter (λ s, negb (String.eqb s "")) (map write_name tr), match o with Applied => true | _ => false end)
  | None => None
  end.

Lemma batch_writes_confined_witness :
  run_summary sample_run =
    Some (["edit 5"; "7 gonk::backend"; "7 gonk::verdict-close"; "close 7"], true) ∧
  ∃ tr rec', sample_run = Some (tr, (Applied, rec')) ∧
    (∃ batch prefix, gated sample_deps triageAgent sample_item batch prefix tr) ∧
    rec' = set_w_RetryFeedback RetryFeedback_zero sample_item.
Proof.
  assert (run_summary sample_run = Some (["edit 5"; "7 gonk::backend"; "7 gonk::verdict-close"; "close 7"], true)) as Hs
    by (vm_compute; reflexivity).
  split; [exact Hs|]. destruct sample_run as [[tr [o rec']]|] eqn:E; [|done].
  assert (o = Applied) as -> by (destruct o; [done|by injection Hs|by injection Hs]).
  exists tr, rec'. split; [done|].
  destruct (batch_writes_confined sample_deps triageAgent sample_item tr Applied rec') as (_ & Ho & _);
    [reflexivity|by apply (simulate_runs sample_answers)|]. exact Ho.
Defined.
