(* ===== verification/Sweep.v ===== *)
(** * [cmd/gonk-gate]: a pass of the sweep

    [sweep.go], with [artifact.go], [sweep_skew.go] and [sweep_legacy.go]: every
    running item whose session has ended is judged, its outcome reported, and what
    comes next done; parked items are fired again, stranded reservations handed to
    the judging, sessions and pods that nothing claims removed. Programs over the
    operations of [GateProgs]. Log lines are left out, with the reads made for
    them alone ([logSessionSpend], [gateFailedCause]), and so are the single-pass
    lease and the health record. *)

From Stdlib Require Import Ascii.
From S2P Require Import Prelude.
From S2P Require Import GoStrings.
From S2P Require Import Effects.
From S2P Require Import GoTime.
From S2P Require Import GoPath.
From S2P Require Import Gonkcfg.
From S2P Require Import Atags.
From S2P Require Import Pipefix.
From S2P Require Import RungOutcome.
From S2P Require Import Gate.
From S2P Require Import WorkStore.
From S2P Require Import GateProgs.
From S2P Require Import RetryFeedback.
From S2P Require Import DispatchArgs.
From S2P Require Import Dispatch.
From S2P Require Import DispatchRace.
From S2P Require Import Explain.
From S2P Require Import StatusNote.
From S2P Require Import BrokerApply.

#[local] Existing Instance Runtime.Phase_eq.

(** ** Times *)

Definition reslingFireAllowance : Duration := 240 * Second.
Definition gcKillGrace : Duration := 2 * Second.
Definition wallClockMargin : Duration := 5 * Second.
Definition skewRetryAfter : Duration := 2 * Minute.
Definition legacyRetryAfter : Duration := 0.
Definition staleSessionAfter : Duration := DefaultReservationTTL + Hour.
Definition staleFixSessionAfter : Duration := DefaultReservationTTL + FixVerifyTimeoutCeiling + Hour.

Definition reslingFireBy (stamp : Time) : Time := Add stamp reslingFireAllowance.
Definition reslingWindowEnd (rec : WorkItem) : option Time :=
  let ends fireBy := Some (Add fireBy (dispatchOrderTimeout + gcKillGrace + wallClockMargin)) in
  if IsZero (w_ReslingFireBy rec) then
    if IsZero (w_ReslungAt rec) then None else ends (reslingFireBy (w_ReslungAt rec))
  else ends (w_ReslingFireBy rec).

Definition fixReservationSlack (rec : WorkItem) : Duration :=
  if negb (String.eqb (w_Trigger rec) TriggerPipelineFix) then 0
  else Z.min (Z.max (wrap64 (fx_VerifyTimeoutSeconds (w_PipelineFix rec) * Second)) 0) FixVerifyTimeoutCeiling.
Definition runningDeadline (rec : WorkItem) : Time :=
  if negb (IsZero (w_ReservationExpiresAt rec)) then w_ReservationExpiresAt rec
  else if IsZero (w_UpdatedAt rec) then Time_zero
  else Add (w_UpdatedAt rec) (DefaultReservationTTL + fixReservationSlack rec).
Definition reservationExpired (rec : WorkItem) (now : Time) : bool := After now (runningDeadline rec).

(** ** Sessions of the older scheduler ([sweep_legacy.go]) *)

Definition small_letter (c : ascii) : bool := in_range 97 122 c.
(** [\[a-z\]\[a-z0-9-\]*], and a letter with digits after it. *)
Definition agent_segment (s : string) : bool :=
  match s with
  | String c s => small_letter c && all_bytes (λ c, small_letter c || is_digit c || Ascii.eqb c "-"%char) s
  | EmptyString => false
  end.
Definition numbered (p : ascii) (s : string) : bool :=
  match s with String c s => Ascii.eqb c p && negb (String.eqb s "") && all_bytes is_digit s | EmptyString => false end.
Definition isLegacyGasCitySession (sessionID : string) : bool :=
  match Split "."%char sessionID with
  | g :: agent :: p :: rest =>
      String.eqb g "gonk" && agent_segment agent && numbered "p" p &&
      match rest with
      | a :: more => numbered "a" a || (numbered "i" a && match more with b :: _ => numbered "a" b | [] => false end)
      | [] => false
      end
  | _ => false
  end.

Definition parkedForRetry (rec : WorkItem) (retryAfter : Time) : WorkItem :=
  set_w_ReslingFireBy 0 (set_w_ReslungAt 0 (set_w_SessionEndedAt 0 (set_w_SessionID ""
    (set_w_RetryAfter retryAfter (set_w_State StateParked rec))))).

Section sweep.
Context `{GoUnicode} `{GoLetters} `{MapRange} `{BatchDecoder} `{JsonTroubles} `{GoTimeText} (d : sweepDeps).

Definition closeSession (rec : WorkItem) : Prog unit :=
  when (negb (String.eqb (w_SessionID rec) "")) (do (OStop (w_SessionID rec))).

Fixpoint delete_pods (unwanted : agent_pod → bool) (pods : list agent_pod) : Prog unit :=
  match pods with
  | [] => Ret tt
  | p :: pods => _ ← when (unwanted p) (do (ODeletePod (p_Name p))); delete_pods unwanted pods
  end.
Definition deleteLegacyPodsOf (alias : string) : Prog unit :=
  when (s_LegacyPods d)
    (pods ← call OPods;
     match pods with
     | None => Ret tt
     | Some pods => delete_pods (λ p, String.eqb (p_Alias p) alias && negb (p_Terminating p)) pods
     end).
Definition parkLegacySession (rec : WorkItem) : Prog unit :=
  now ← call ONow;
  w ← call (OPutIf (parkedForRetry rec (Add now legacyRetryAfter)) (w_Revision rec));
  match w with
  | Err _ => Ret tt
  | Ok _ =>
      _ ← when (s_LegacyCloser d) (call (OCloseLegacy (w_SessionID rec)));
      deleteLegacyPodsOf (w_SessionID rec)
  end.

(** ** A session the agent's image refused ([sweep_skew.go]) *)

Definition skewRefusalLine : string := "session end: refused (session contract mismatch)".
Inductive skewVerdict := notSkew | skewHandled | skewUnreadable.
Definition isSkewExit (st : Runtime.Status) : bool :=
  bool_decide (Runtime.Phase_ st = Runtime.PhaseFailed) &&
  match Runtime.ExitCode st with Some c => c =? Runtime.ExitSessionContractMismatch | None => false end.
Definition parkIfImageSkew (rec : WorkItem) (expired : bool) : Prog skewVerdict :=
  out ← call (OOutput (w_SessionID rec));
  match out with
  | Err _ => Ret (if expired then notSkew else skewUnreadable)
  | Ok text =>
      if negb (Contains_sub text skewRefusalLine) then Ret notSkew
      else
        now ← call ONow;
        w ← call (OPutIf (parkedForRetry rec (Add now skewRetryAfter)) (w_Revision rec));
        match w with
        | Err _ => Ret skewHandled
        | Ok _ => _ ← closeSession rec; Ret skewHandled
        end
  end.

(** ** What the runtime says of the session *)

Definition reasonDeadlineExceeded : string := "DeadlineExceeded".
Definition stamped_end (rec : WorkItem) : Prog WorkItem :=
  if IsZero (w_SessionEndedAt rec) then now ← call ONow; Ret (set_w_SessionEndedAt now rec) else Ret rec.

(** Whether a finished (or absent) session is to be read, whether the runtime
    killed it at its deadline, and the record; [None]: not now. *)
Definition look_at_session (rec : WorkItem) (expired : bool) : Prog (option (bool * bool * WorkItem)) :=
  st ← call (OStatus (w_SessionID rec));
  let st := match st with
            | Some s => if bool_decide (Runtime.Phase_ s = Runtime.PhaseUnknown) then None else Some s
            | None => None
            end in
  skew ← match st with Some s => if isSkewExit s then parkIfImageSkew rec expired else Ret notSkew | None => Ret notSkew end;
  match skew with
  | skewHandled | skewUnreadable => Ret None
  | notSkew =>
      match st with
      | None => Ret (if expired then Some (false, false, rec) else None)
      | Some s =>
          if bool_decide (Runtime.Phase_ s = Runtime.PhaseNotFound) then rec ← stamped_end rec; Ret (Some (true, false, rec))
          else if negb (Runtime.Finished (Runtime.Phase_ s)) then Ret (if expired then Some (false, false, rec) else None)
          else if bool_decide (Runtime.Phase_ s = Runtime.PhaseFailed) && String.eqb (Runtime.Reason s) reasonDeadlineExceeded
          then rec ← stamped_end rec; Ret (Some (false, true, rec))
          else rec ← stamped_end rec; Ret (Some (true, false, rec))
      end
  end.

(** ** What the session left ([artifact.go]) *)

Inductive presence := Present | Missing | CannotTell.
Definition artifactPresent (kind : string) (project iid : Z) (beadID : string) : Prog presence :=
  if String.eqb kind "mr" then
    mrs ← call (OMergeRequests project scaffoldBranch "all");
    Ret match mrs with
        | None => CannotTell
        | Some mrs => if existsb (λ m, MarkerPresent (mr_Description m) beadID) mrs then Present else Missing
        end
  else if String.eqb kind "comment" then
    notes ← call (OIssueNotes project iid);
    Ret match notes with
        | None => CannotTell
        | Some notes =>
            if existsb (λ n, negb (n_System n) && String.eqb (n_Author n) (s_BotUsername d) && MarkerPresent (n_Body n) beadID) notes
            then Present else Missing
        end
  else Ret CannotTell.

Definition fixOpenStates : list string := [StateAwaitingRun; StateVerifying].
Definition holdFixForVerification (rec : WorkItem) : Prog unit :=
  w ← call (OPutIf rec (w_Revision rec));
  match w with Err ErrStore => Ret tt | _ => closeSession rec end.

(** The state of an item that a person may have closed. *)
Definition issue_closed (rec : WorkItem) : Prog (option bool) :=
  if String.eqb (artifactKindForTrigger (w_Trigger rec)) "comment" then
    st ← call (OIssueState (w_ProjectID rec) (w_IssueIID rec));
    Ret match st with None => None | Some s => Some (String.eqb s "closed") end
  else Ret (Some false).

(** The artifact, why it is missing or cannot be told, and the record; [None]: an
    opened fix is held, and not judged. *)
Record artifact := mkArtifact { ar_present : presence; ar_rejected : string; ar_unknown : string; ar_rec : WorkItem }.
Definition find_artifact (rec : WorkItem) (judged : bool) : Prog (option artifact) :=
  match agentForTrigger (w_Trigger rec) with
  | Some agent =>
      if negb (String.eqb (w_SessionID rec) "") then
        if negb judged then Ret (Some (mkArtifact Missing "" "" rec))
        else
          res ← applyBrokerBatch d agent rec;
          let '(o, rec') := res in
          match o with
          | Unknown => Ret (Some (mkArtifact CannotTell "" "batch read/apply error: " rec'))
          | Refused v => Ret (Some (mkArtifact Missing v "" rec'))
          | Applied =>
              if String.eqb agent pipefixAgent && contains fixOpenStates (fx_State (w_PipelineFix rec'))
              then _ ← holdFixForVerification rec'; Ret None
              else Ret (Some (mkArtifact Present "" "" rec'))
          end
      else
        p ← artifactPresent (artifactKindForTrigger (w_Trigger rec)) (w_ProjectID rec) (w_IssueIID rec) (w_BeadID rec);
        Ret (Some (mkArtifact p "" "artifact check could not read the forge" rec))
  | None =>
      p ← artifactPresent (artifactKindForTrigger (w_Trigger rec)) (w_ProjectID rec) (w_IssueIID rec) (w_BeadID rec);
      Ret (Some (mkArtifact p "" "artifact check could not read the forge" rec))
  end.

(** ** What it cost *)

Definition spendPollBudget (deadline interval : Duration) : Z :=
  if (interval <=? 0) || (deadline <=? 0) then 1 else deadline / interval + 1.
Definition fresh_cost (rec : WorkItem) (cost : option (Z * Time)) : option Z :=
  match cost with
  | Some (tokens, asOf) => if negb (Before asOf (w_SessionEndedAt rec)) then Some tokens else None
  | None => None
  end.
(** The tokens, and whether meter's figures are behind; [more] polls may follow
    this one. *)
Fixpoint poll_spend (more : nat) (rec : WorkItem) (deadline : Time) : Prog (Z * bool) :=
  cost ← call (OCostSession (w_SessionKey rec));
  match fresh_cost rec cost with
  | Some tokens => Ret (tokens, false)
  | None =>
      now ← call ONow;
      match more with
      | S more =>
          if Before now deadline then
            slept ← call (OSleep (s_SpendPollInterval d));
            if slept : bool then poll_spend more rec deadline else Ret (0, true)
          else Ret (0, true)
      | O => Ret (0, true)
      end
  end.
Definition gatherSpend (rec : WorkItem) : Prog (Z * bool) :=
  synced ← call OSpendSync;
  if negb synced then Ret (0, true)
  else
    now ← call ONow;
    poll_spend (Z.to_nat (spendPollBudget (s_SpendDeadline d) (s_SpendPollInterval d) - 1)) rec (Add now (s_SpendDeadline d)).

Definition infraFailedCause (s : Signals) (expired deadlineExceeded : bool) (unknownBecause : string) : string :=
  if deadlineExceeded then "session_deadline_exceeded"
  else if expired then "reservation_expired"
  else if ArtifactUnknown s then if String.eqb unknownBecause "" then "artifact_unknown" else "artifact_unknown: " +:+ unknownBecause
  else if SpendStale s then "spend_stale: meter's spend view did not catch up with the session's end"
  else "no_model_tokens: no artifact and meter recorded no model spend for this session".

(** ** The verdict and what follows it *)

Definition outcome_request (rec : WorkItem) (o : Outcome) : Meterapi.OutcomeRequest :=
  Meterapi.mkOutcomeRequest (w_Project rec) (w_BeadAnchor rec) (w_SessionKey rec) (w_Attempt rec) (w_Rung rec)
    (w_ReservationID rec) o (w_Trigger rec).

Definition refire (rec : WorkItem) : Prog bool := call (ORunOrder (refire_vars rec)).

Definition postReslingNotice (rec : WorkItem) (outcome : Outcome) (why next nextRung : string) : Prog unit :=
  when (s_Apply d && bool_decide (agentForTrigger (w_Trigger rec) = Some triageAgent) && negb (w_ProjectID rec =? 0) &&
        negb (w_IssueIID rec =? 0))
    (upsertStatusNote d (w_ProjectID rec) (w_IssueIID rec) (w_BeadID rec)
       (reslingBody (w_Attempt rec) (w_Rung rec) outcome why next nextRung (s_BotUsername d))).

(** Whether gonk is finished with the session. *)
Definition settle (rec : WorkItem) (outcome : Outcome) (why : string) (resp : Meterapi.OutcomeResponse) : Prog bool :=
  let next := Meterapi.Next resp in
  if String.eqb next "done" then
    _ ← call (OPutIf (set_w_State StateDone rec) (w_Revision rec));
    Ret true
  else if String.eqb next "escalate" || String.eqb next "retry" then
    now ← call ONow;
    let rec := set_w_ReslingFireBy (reslingFireBy now) (set_w_ReslungAt now (set_w_SessionEndedAt 0 rec)) in
    w ← call (OPutIf rec (w_Revision rec));
    match w with
    | Err _ => Ret true
    | Ok _ =>
        _ ← postReslingNotice rec outcome why next (Meterapi.NextRung resp);
        _ ← refire rec;
        Ret true
    end
  else Ret false.

Definition report (rec : WorkItem) (s : Signals) (expired deadlineExceeded : bool) (rejected unknownBecause : string) : Prog unit :=
  let outcome := Classify s in
  let infraCause := if bool_decide (outcome = OutcomeInfraFailed)
                    then infraFailedCause s expired deadlineExceeded unknownBecause else "" in
  resp ← call (OOutcome (outcome_request rec outcome));
  match resp with
  | None => Ret tt
  | Some resp =>
      finished ← settle rec outcome (attemptFailureText outcome rejected infraCause) resp;
      when finished (closeSession rec)
  end.

(** The session is over, or past its time: [expired] by the sweep's clock,
    [deadlineExceeded] by the runtime's. *)
Definition judge (rec : WorkItem) (judged expired deadlineExceeded : bool) : Prog unit :=
  let over := expired || deadlineExceeded in
  closed ← issue_closed rec;
  match closed with
  | None => report rec (mkSignals false over true false false 0) expired deadlineExceeded "" "issue read failed: "
  | Some true => report rec (mkSignals true over false false false 0) expired deadlineExceeded "" ""
  | Some false =>
      found ← find_artifact rec judged;
      match found with
      | None => Ret tt
      | Some a =>
          let unknown := match ar_present a with CannotTell => true | _ => false end in
          let present := match ar_present a with Present => true | _ => false end in
          spend ← (if negb over && negb unknown && negb present then gatherSpend (ar_rec a) else Ret (0, false));
          let '(tokens, stale) := spend in
          report (ar_rec a) (mkSignals false over unknown stale present tokens) expired deadlineExceeded (ar_rejected a) (ar_unknown a)
      end
  end.

Definition sweepRunning (rec : WorkItem) : Prog unit :=
  if String.eqb (w_Trigger rec) TriggerPipelineFix && negb (String.eqb (fx_State (w_PipelineFix rec)) "")
  then call (OJudgeFix rec)
  else
    let broker := isSome (agentForTrigger (w_Trigger rec)) && negb (String.eqb (w_SessionID rec) "") in
    now ← call ONow;
    let expired := reservationExpired rec now in
    if negb broker && IsZero (w_SessionEndedAt rec) && negb expired then Ret tt
    else
      waiting ← match reslingWindowEnd rec with
                | Some e => now ← call ONow; Ret (Before now e)
                | None => Ret false
                end;
      if waiting : bool then Ret tt
      else if broker then
        if isLegacyGasCitySession (w_SessionID rec) then parkLegacySession rec
        else
          look ← look_at_session rec expired;
          match look with
          | None => Ret tt
          | Some (judged, deadlineExceeded, rec) => judge rec judged expired deadlineExceeded
          end
      else judge rec false expired false.

(** ** Stranded reservations, stale sessions, and the pass *)

Definition reclaimPendingPrompt (rec : WorkItem) (now : Time) : Prog unit :=
  if IsZero (w_UpdatedAt rec) then Ret tt
  else if Sub now (w_UpdatedAt rec) <? pendingPromptGrace then Ret tt
  else do (OPutIf (set_w_State StateRunning rec) (w_Revision rec)).

(** The sessions that records of two states name; [None]: a list failed. *)
Definition names_of (recs : list WorkItem) : list string :=
  List.filter (λ s, negb (String.eqb s "")) (map w_SessionID recs).
Definition claimed_sessions : Prog (option (list string)) :=
  running ← call (OList StateRunning);
  match running with
  | Err _ => Ret None
  | Ok running =>
      pending ← call (OList StatePendingPrompt);
      Ret match pending with Err _ => None | Ok pending => Some (names_of running ++ names_of pending) end
  end.

Definition too_young (h : string) (age : Duration) : bool :=
  (age <? staleSessionAfter) || (HasPrefix h ("gonk-" +:+ pipefixAgent +:+ "-") && (age <? staleFixSessionAfter)).
Definition stop_if_stale (claimed : list string) (now : Time) (h : string) : Prog unit :=
  if contains claimed h then Ret tt
  else
    st ← call (OStatus h);
    match st with
    | None => Ret tt
    | Some s =>
        if bool_decide (Runtime.Phase_ s = Runtime.PhaseNotFound) then Ret tt
        else
          let since := if IsZero (Runtime.FinishedAt s) then Runtime.StartedAt s else Runtime.FinishedAt s in
          if IsZero since || too_young h (Sub now since) then Ret tt else do (OStop h)
    end.
Fixpoint each {A : Type} (f : A → Prog unit) (l : list A) : Prog unit :=
  match l with [] => Ret tt | x :: l => _ ← f x; each f l end.
Definition reapStaleSessions : Prog unit :=
  claimed ← claimed_sessions;
  match claimed with
  | None => Ret tt
  | Some claimed =>
      handles ← call OSessions;
      match handles with
      | None => Ret tt
      | Some handles => now ← call ONow; each (stop_if_stale claimed now) handles
      end
  end.
Definition reapLegacyGasCityPods : Prog unit :=
  when (s_LegacyPods d)
    (claimed ← claimed_sessions;
     match claimed with
     | None => Ret tt
     | Some claimed =>
         pods ← call OPods;
         match pods with
         | None => Ret tt
         | Some pods =>
             delete_pods (λ p, isLegacyGasCitySession (p_Alias p) && negb (p_Terminating p) && negb (contains claimed (p_Alias p))) pods
         end
     end).

Definition unpark (now : Time) (rec : WorkItem) : Prog unit :=
  when (negb (Before now (w_RetryAfter rec))) (_ ← refire rec; Ret tt).

Definition runSweep : Prog Z :=
  running ← call (OList StateRunning);
  match running with
  | Err _ => Ret 1
  | Ok running =>
      _ ← each sweepRunning running;
      _ ← call OMaintainRuns;
      parked ← call (OList StateParked);
      match parked with
      | Err _ => Ret 1
      | Ok parked =>
          now ← call ONow;
          _ ← each (unpark now) parked;
          pending ← call (OList StatePendingPrompt);
          match pending with
          | Err _ => Ret 1
          | Ok pending =>
              _ ← each (λ rec, reclaimPendingPrompt rec now) pending;
              _ ← reapStaleSessions;
              _ ← reapLegacyGasCityPods;
              Ret 0
          end
      end
  end.
End sweep.
