(* ===== verification/SweepWatch.v ===== *)
(** * [cmd/gonk-gate]: what a pass of the sweep may do

    Of every operation that the sweep does for a running item, what must have been
    done and answered before it; that an item past its time gets its outcome; that
    a re-sling's dispatch is over when its item is judged again; and that what a
    whole pass writes are the sweep's steps among concurrent dispatches. *)

From Stdlib Require Import Ascii.
From S2P Require Import Prelude.
From S2P Require Import GoStrings.
From S2P Require Import Effects.
From S2P Require Import GoTime.
From S2P Require Import GoPath.
From S2P Require Import Gonkcfg.
From S2P Require Import Atags.
From S2P Require Import Pipefix.
From S2P Require Import RungOutcome.
From S2P Require Import Gate.
From S2P Require Import WorkStore.
From S2P Require Import GateProgs.
From S2P Require Import RetryFeedback.
From S2P Require Import DispatchArgs.
From S2P Require Import Dispatch.
From S2P Require Import DispatchRace.
From S2P Require Import Explain.
From S2P Require Import StatusNote.
From S2P Require Import BrokerApply.
From S2P Require Import Sweep.

(** ** Within a longer run *)

Section transfer.
Context {S : Type} (honest : ∀ B : Type, Op B → B → S → Prop) (next : ∀ B : Type, Op B → B → S → S).

(** What is shown of the operations keeps an invariant, and shows more. *)
Lemma wp_within (allowed allowed' : ∀ B : Type, Op B → S → Prop) (I : S → Prop) {A : Type} (p : Prog A) s Q :
  (∀ B (op : Op B) s, allowed _ op s → I s → allowed' _ op s ∧ ∀ b, honest _ op b s → I (next _ op b s)) →
  wp allowed honest next p s Q → I s → wp allowed' honest next p s (λ a s, Q a s ∧ I s).
Proof.
  intros Hstep. revert s. induction p as [a|B op k IH]; intros s; cbn; [done|].
  intros [Ha Hk] HI. destruct (Hstep _ op s Ha HI) as [Ha' HI']. split; [done|]. intros b Hb. by apply IH; [apply Hk|apply HI'].
Qed.
End transfer.

(** After more was done. *)
Lemma wp_after (allowed : ∀ B : Type, Op B → list Event → Prop) {A : Type} (p : Prog A) h0 h Q :
  wp allowed (@any_answer) (@remember) p h Q →
  wp (λ B op h', ∃ h, h' = h0 ++ h ∧ allowed B op h) (@any_answer) (@remember) p (h0 ++ h) (λ a h', ∃ h, h' = h0 ++ h ∧ Q a h).
Proof.
  revert h. induction p as [a|B op k IH]; intros h; cbn; [by eauto|]. intros [Ha Hk]. split; [by eauto|].
  intros b Hb. unfold remember. rewrite <- app_assoc. by apply IH, Hk.
Qed.

(** What holds of a run by one argument and by another. *)
Definition anything (B : Type) (op : Op B) (h : list Event) : Prop := True.
Lemma wp_both (allowed : ∀ B : Type, Op B → list Event → Prop) {A : Type} (p : Prog A) h Q R :
  wp allowed (@any_answer) (@remember) p h Q → wp anything (@any_answer) (@remember) p h R →
  wp allowed (@any_answer) (@remember) p h (λ a h', Q a h' ∧ R a h').
Proof.
  revert h. induction p as [a|B op k IH]; intros h; cbn; [by split|]. intros [Ha Hq] [_ Hr]. split; [done|].
  intros b Hb. apply IH; auto.
Qed.

(** ** The item *)

(** The record, but for what a judgement fills in. *)
Definition core (r : WorkItem) : WorkItem :=
  set_w_SessionEndedAt 0 (set_w_RetryFeedback RetryFeedback_zero
    (set_w_PipelineFix PipelineFix_zero (set_w_PipelineDiagnosis PipelineDiagnosis_zero r))).
Definition same_item (rec r : WorkItem) : Prop := core r = core rec.

Definition commits {B : Type} (op : Op B) : bool :=
  match op with
  | OPut _ | OPutIf _ _ | OOutcome _ | ORunOrder _ | OStop _ | OStart _ | OCloseLegacy _ | ODeletePod _ => true
  | _ => false
  end.
Definition calm (h : list Event) : Prop := Forall (λ e, match e with Ev op _ => commits op = false end) h.
Definition no_order (h : list Event) : Prop := Forall (λ e, match e with Ev (ORunOrder _) _ => False | _ => True end) h.
Definition no_store (h : list Event) : Prop := Forall (λ e, match e with Ev (OPutIf _ _) _ => False | _ => True end) h.
Definition reslung (r : WorkItem) (now : Time) : WorkItem :=
  set_w_ReslingFireBy (reslingFireBy now) (set_w_ReslungAt now (set_w_SessionEndedAt 0 r)).
(** What the sweep reads of the world, other than to apply a batch. *)
Definition observes {B : Type} (op : Op B) : bool :=
  match op with OSpendSync | OSleep _ | OPods => true | _ => is_read op end.

Section watched.
Context `{GoUnicode} `{GoLetters} `{MapRange} `{BatchDecoder} `{JsonTroubles} `{GoTimeText} (d : sweepDeps) (rec : WorkItem).

Definition window_over (h : list Event) : Prop :=
  ∀ e, reslingWindowEnd rec = Some e → ∃ now, happened ONow now h ∧ e <= now.
Definition in_time (h : list Event) : Prop := ∃ now, happened ONow now h ∧ reservationExpired rec now = false.

(** *** What an outcome rests on *)

Definition delivered (h : list Event) : Prop :=
  (∃ agent r batch prefix, agentForTrigger (w_Trigger rec) = Some agent ∧ ownChainAgent agent = false ∧ same_item rec r ∧
     gated d agent r batch prefix h) ∨
  (∃ agent r batch v what, agentForTrigger (w_Trigger rec) = Some agent ∧ ownChainAgent agent = true ∧ same_item rec r ∧
     happened (OApplyOwnChain agent r batch) (Some (true, v), what) h) ∨
  (∃ mrs, happened (OMergeRequests (w_ProjectID rec) scaffoldBranch "all") (Some mrs) h ∧
     existsb (λ m, MarkerPresent (mr_Description m) (w_BeadID rec)) mrs = true) ∨
  (∃ notes, happened (OIssueNotes (w_ProjectID rec) (w_IssueIID rec)) (Some notes) h ∧
     existsb (λ n, negb (n_System n) && String.eqb (n_Author n) (s_BotUsername d) && MarkerPresent (n_Body n) (w_BeadID rec)) notes = true).
(** The session's spend, as of its end or later. *)
Definition spent (h : list Event) : Prop :=
  happened OSpendSync true h ∧ ∃ tokens asOf ended, happened (OCostSession (w_SessionKey rec)) (Some (tokens, asOf)) h ∧
    0 < tokens ∧ ended <= asOf ∧ (ended = w_SessionEndedAt rec ∨ happened ONow ended h).
Definition closed_by_hand (h : list Event) : Prop :=
  artifactKindForTrigger (w_Trigger rec) = "comment" ∧ happened (OIssueState (w_ProjectID rec) (w_IssueIID rec)) (Some "closed") h.
(** *** Why an attempt failed without the model's doing *)

Definition out_of_time (h : list Event) : Prop := ∃ now, happened ONow now h ∧ reservationExpired rec now = true.
Definition killed_at_deadline (h : list Event) : Prop := ∃ s, happened (OStatus (w_SessionID rec)) (Some s) h ∧
  Runtime.Phase_ s = Runtime.PhaseFailed ∧ Runtime.Reason s = reasonDeadlineExceeded.
(** A call that failed, and without which a batch could not be applied. *)
Definition denied (B : Type) (op : Op B) : B → Prop :=
  match op in Op B return B → Prop with
  | OProjectBranch p => λ answer, p = w_ProjectID rec ∧ answer = None
  | OCreateCommit p branch _ _ _ => λ done, p = w_ProjectID rec ∧ branch = scaffoldBranch ∧ done = false
  | OMergeRequests p source state => λ answer, p = w_ProjectID rec ∧ source = scaffoldBranch ∧ state = "opened" ∧ answer = None
  | OCreateMergeRequest p source _ _ _ => λ answer, p = w_ProjectID rec ∧ source = scaffoldBranch ∧ answer = None
  | OCreateNote p _ _ => λ done, p = w_ProjectID rec ∧ done = false
  | _ => λ _, False
  end.
Definition batch_untold (agent : string) (h : list Event) : Prop :=
  (ownChainAgent agent = false ∧ s_Apply d = false) ∨
  (∃ out, happened (OOutput (w_SessionID rec)) out h ∧
     (out = Err Runtime.ErrRuntime ∨ ∃ text, out = Ok text ∧ isUnreadableTranscript text = true)) ∨
  (ownChainAgent agent = true ∧ ∃ r batch what, happened (OApplyOwnChain agent r batch) (None, what) h) ∨
  (ownChainAgent agent = false ∧ (happened (OShape agent) None h ∨ ∃ (B : Type) (op : Op B) (b : B), happened op b h ∧ denied B op b)).
Definition listed_untold (kind : string) (h : list Event) : Prop :=
  kind = "mr" ∧ happened (OMergeRequests (w_ProjectID rec) scaffoldBranch "all") None h ∨
  kind = "comment" ∧ happened (OIssueNotes (w_ProjectID rec) (w_IssueIID rec)) None h ∨ kind ≠ "mr" ∧ kind ≠ "comment".
(** Whether there is an artifact could not be told. *)
Definition untold (h : list Event) : Prop :=
  (∃ agent, agentForTrigger (w_Trigger rec) = Some agent ∧ w_SessionID rec ≠ "" ∧ batch_untold agent h) ∨
  ((agentForTrigger (w_Trigger rec) = None ∨ w_SessionID rec = "") ∧ listed_untold (artifactKindForTrigger (w_Trigger rec)) h).
Definition ended_at (ended : Time) (h : list Event) : Prop := ended = w_SessionEndedAt rec ∨ happened ONow ended h.
Definition no_cost (h : list Event) : Prop := Forall (λ e, match e with Ev (OCostSession _) _ => False | _ => True end) h.
(** Meter's last word on the session's spend is missing, or older than its end, or
    of no tokens. *)
Definition unspent (h : list Event) : Prop := happened OSpendSync false h ∨
  ∃ pre cost post ended, h = pre ++ Ev (OCostSession (w_SessionKey rec)) cost :: post ∧ no_cost post ∧ ended_at ended h ∧
    ∀ tokens asOf, cost = Some (tokens, asOf) → asOf < ended ∨ tokens <= 0.
Definition not_the_model (h : list Event) : Prop :=
  out_of_time h ∨ killed_at_deadline h ∨
  (artifactKindForTrigger (w_Trigger rec) = "comment" ∧ happened (OIssueState (w_ProjectID rec) (w_IssueIID rec)) None h) ∨
  untold h ∨ unspent h.

Definition rests_on (o : Outcome) (h : list Event) : Prop :=
  (o = OutcomeAborted ∧ closed_by_hand h) ∨ (o = OutcomeSuccess ∧ in_time h ∧ delivered h) ∨
  (o = OutcomeGateFailed ∧ in_time h ∧ spent h) ∨ (o = OutcomeInfraFailed ∧ not_the_model h).

(** *** What the store is given *)

(** The item has a session of the session runtime. *)
Definition brokered : Prop := agentForTrigger (w_Trigger rec) ≠ None ∧ w_SessionID rec ≠ "".
Definition aside (r : WorkItem) (h : list Event) : Prop := brokered ∧ ∃ now delta, happened ONow now h ∧ r = parkedForRetry rec (Add now delta) ∧
  (isLegacyGasCitySession (w_SessionID rec) = true ∧ delta = legacyRetryAfter ∨
   delta = skewRetryAfter ∧ ∃ s text, happened (OStatus (w_SessionID rec)) (Some s) h ∧ isSkewExit s = true ∧
     happened (OOutput (w_SessionID rec)) (Ok text) h ∧ Contains_sub text skewRefusalLine = true).
Definition held_fix (r : WorkItem) (h : list Event) : Prop :=
  same_item rec r ∧ agentForTrigger (w_Trigger rec) = Some pipefixAgent ∧ fx_State (w_PipelineFix r) ∈ fixOpenStates ∧
  ∃ r' batch v what, same_item rec r' ∧ happened (OApplyOwnChain pipefixAgent r' batch) (Some (true, v), what) h.
Definition verdict (next : list string) (h : list Event) : Prop := ∃ o resp,
  happened (OOutcome (outcome_request rec o)) (Some resp) h ∧ Meterapi.Next resp ∈ next.
Definition finished_item (r : WorkItem) (h : list Event) : Prop :=
  verdict ["done"] h ∧ ∃ r', same_item rec r' ∧ r = set_w_State StateDone r'.
Definition again (r : WorkItem) (h : list Event) : Prop :=
  verdict ["escalate"; "retry"] h ∧ ∃ r' now, same_item rec r' ∧ happened ONow now h ∧ r = reslung r' now.
Definition stored_again (r : WorkItem) (h : list Event) : Prop :=
  again r h ∧ ∃ rev, happened (OPutIf r (w_Revision rec)) (Ok rev) h.
Definition set_down (h : list Event) : Prop := ∃ r w, happened (OPutIf r (w_Revision rec)) w h ∧ w ≠ Err ErrStore ∧
  ((aside r h ∧ ∃ rev, w = Ok rev) ∨ held_fix r h).

(** *** Each operation *)

Definition sweep_proper (B : Type) (op : Op B) (h : list Event) : Prop :=
  match op with
  | ONow => True
  | _ => window_over h
  end ∧
  match op with
  | OPutIf r rev => rev = w_Revision rec ∧
      (calm h ∧ (aside r h ∨ held_fix r h) ∨ no_store h ∧ (finished_item r h ∨ again r h))
  | OOutcome q => calm h ∧ ∃ o, q = outcome_request rec o ∧ rests_on o h
  | ORunOrder vars => no_order h ∧ ∃ r, stored_again r h ∧ vars = refire_vars r
  | OStop s => s = w_SessionID rec ∧ s ≠ "" ∧ (verdict ["done"; "escalate"; "retry"] h ∨ set_down h)
  | OApplyOwnChain agent r batch => calm h ∧ agentForTrigger (w_Trigger rec) = Some agent ∧ ownChainAgent agent = true ∧ same_item rec r ∧
      ∃ text raw, happened (OOutput (w_SessionID rec)) (Ok text) h ∧ extractBatch text = Some raw ∧ ParseBatch raw = Ok batch
  | OCloseLegacy _ | ODeletePod _ =>
      isLegacyGasCitySession (w_SessionID rec) = true ∧ ∃ r rev, happened (OPutIf r (w_Revision rec)) (Ok rev) h ∧ aside r h
  | ONow => True
  | OStatus s => s = w_SessionID rec
  | OIssueState p iid => p = w_ProjectID rec ∧ iid = w_IssueIID rec
  | OCostSession key => key = w_SessionKey rec
  | op =>
      observes op = true ∨
      (calm h ∧ is_write op = true ∧ ∃ agent r batch prefix, agentForTrigger (w_Trigger rec) = Some agent ∧ ownChainAgent agent = false ∧
         same_item rec r ∧ gated d agent r batch prefix h ∧ within d r batch prefix op h) ∨
      match op with
      | OCreateNote p iid _ | OUpdateNote p iid _ _ => p = w_ProjectID rec ∧ iid = w_IssueIID rec ∧ ∃ r, stored_again r h
      | _ => False
      end
  end.
#[local] Abbreviation does p h Q := (wp sweep_proper (@any_answer) (@remember) p h Q).

Lemma does_bind {A B : Type} (p : Prog A) (f : A → Prog B) h R Q :
  does p h R → (∀ a h', R a h' → does (f a) h' Q) → does (p ≫= f) h Q.
Proof. intros Hp Hf. apply wp_bind. eapply wp_mono; [exact Hp|exact Hf]. Qed.
Lemma does_call {B C : Type} (op : Op B) (f : B → Prog C) h Q :
  sweep_proper _ op h → (∀ b, does (f b) (h ++ [Ev op b]) Q) → does (call op ≫= f) h Q.
Proof. intros Hr Hf. split; [done|]. intros b _. exact (Hf b). Qed.

(** A history that only grew. *)
Definition grew (h h' : list Event) : Prop := ∃ more, h' = h ++ more.
Lemma grew_refl h : grew h h.
Proof. exists []. by rewrite app_nil_r. Qed.
Lemma grew_snoc h h' e : grew h h' → grew h (h' ++ [e]).
Proof. intros [m ->]. rewrite <- app_assoc. by eexists. Qed.
Lemma grew_trans h1 h2 h3 : grew h1 h2 → grew h2 h3 → grew h1 h3.
Proof. intros [m ->] [m' ->]. rewrite <- app_assoc. by eexists. Qed.
Lemma grown {B : Type} (op : Op B) b h h' : grew h h' → happened op b h → happened op b h'.
Proof. intros [m ->]. apply happened_later. Qed.
Lemma window_grown h h' : grew h h' → window_over h → window_over h'.
Proof. intros Hg Hw e He. destruct (Hw e He) as (now & Hn & Hle). exists now. split; [by eapply grown|done]. Qed.
Lemma gated_grown agent r batch prefix h h' : grew h h' → gated d agent r batch prefix h → gated d agent r batch prefix h'.
Proof. intros [m ->]. apply gated_later. Qed.
Lemma calm_snoc {B : Type} (op : Op B) b h : commits op = false → calm h → calm (h ++ [Ev op b]).
Proof. intros Hr Hh. apply Forall_app. split; [done|by constructor]. Qed.
Hint Resolve grew_refl grew_snoc happened_now happened_later : core.

Lemma same_item_refl : same_item rec rec.
Proof. done. Qed.
Lemma same_item_trans r1 r2 : same_item rec r1 → same_item r1 r2 → same_item rec r2.
Proof. unfold same_item. congruence. Qed.
Lemma ended_same r t : same_item r (set_w_SessionEndedAt t r).
Proof. done. Qed.
Lemma judged_same r fb fx dg : same_item r (set_w_RetryFeedback fb (set_w_PipelineFix fx (set_w_PipelineDiagnosis dg r))).
Proof. done. Qed.
Lemma feedback_same r fb : same_item r (set_w_RetryFeedback fb r).
Proof. done. Qed.
Lemma same_request r o : same_item rec r → outcome_request r o = outcome_request rec o.
Proof. intros E. exact (f_equal (λ r, outcome_request r o) E). Qed.
Lemma same_field {A : Type} (f : WorkItem → A) r : (∀ r, f (core r) = f r) → same_item rec r → f r = f rec.
Proof. intros Hf E. rewrite <- (Hf r), <- (Hf rec). by f_equal. Qed.

(** Quiet observation keeps what is known. *)
Record ready (h : list Event) : Prop := mkReady { r_calm : calm h; r_window : window_over h }.
Lemma ready_snoc {B : Type} (op : Op B) b h : commits op = false → ready h → ready (h ++ [Ev op b]).
Proof. intros Hc [Hh Hw]. split; [by apply calm_snoc|]. eapply window_grown; [|done]. eauto. Qed.

(** *** A batch *)

Lemma confined_proper agent r {B : Type} (op : Op B) h : agentForTrigger (w_Trigger rec) = Some agent → ownChainAgent agent = false →
  same_item rec r → confined d agent r op h → ready h → sweep_proper _ op h ∧ commits op = false.
Proof.
  intros Hag Hown Hs Hc [Hcalm Hw].
  assert (is_read op = true ∨ is_write op = true) as Hkind by (destruct Hc as [?|(? & ? & ? & _)]; auto).
  split; [|by destruct op, Hkind].
  assert (observes op = true ∨
      (calm h ∧ is_write op = true ∧ ∃ agent r batch prefix, agentForTrigger (w_Trigger rec) = Some agent ∧ ownChainAgent agent = false ∧
         same_item rec r ∧ gated d agent r batch prefix h ∧ within d r batch prefix op h)) as Hor.
  { destruct Hc as [Hr|(batch & prefix & Hwr & Hg & Hin)]; [left; by destruct op|]. right. split; [done|]. split; [done|].
    by exists agent, r, batch, prefix. }
  clear Hc. split; [by destruct op|].
  destruct op; cbn in Hkind; try (by destruct Hkind); destruct Hor as [Hor|Hor]; auto.
Qed.

Definition fix_applied (h : list Event) : Prop := ∃ r batch v what, same_item rec r ∧
  happened (OApplyOwnChain pipefixAgent r batch) (Some (true, v), what) h.
Definition batch_applied (agent : string) (h : list Event) : Prop := delivered h ∧ (agent = pipefixAgent → fix_applied h).
Definition batch_ends (agent : string) (r : WorkItem) (h : list Event) (res : applied * WorkItem) (h' : list Event) : Prop :=
  ready h' ∧ grew h h' ∧ same_item rec res.2 ∧ w_SessionEndedAt res.2 = w_SessionEndedAt r ∧
  (res.1 = Applied → batch_applied agent h').

Lemma pipefix_own : ownChainAgent pipefixAgent = true.
Proof. done. Qed.
Lemma worded_same agent r : same_item r (worded agent r) ∧ w_SessionEndedAt (worded agent r) = w_SessionEndedAt r.
Proof. unfold worded. by destruct (ownChainAgent agent). Qed.
Lemma told_same agent r fb : same_item r (told agent r fb) ∧ w_SessionEndedAt (told agent r fb) = w_SessionEndedAt r.
Proof. destruct (told_feedback agent r fb) as [f ->]. done. Qed.

Lemma own_chain_batch agent r h : agentForTrigger (w_Trigger rec) = Some agent → ownChainAgent agent = true → same_item rec r →
  ready h → does (applyBrokerBatch d agent r) h (batch_ends agent r h).
Proof.
  intros Hag Hown Hs Hr. unfold applyBrokerBatch. rewrite Hown, andb_false_r.
  assert (∀ h' o r', ready h' → grew h h' → same_item r r' → w_SessionEndedAt r' = w_SessionEndedAt r → o ≠ Applied →
    batch_ends agent r h (o, r') h') as Hnot.
  { intros h' o r' Hr' Hg Hs' He Ho. split; [done|]. split; [done|]. split; [by eapply same_item_trans|]. by split. }
  apply does_call; [split; [apply Hr|by left]|]. intros out.
  set (h1 := h ++ [Ev (OOutput (w_SessionID r)) out]). assert (ready h1) as Hr1 by by apply ready_snoc.
  assert (grew h h1) as Hg1 by by apply grew_snoc.
  destruct out as [text|[]]; [|by apply Hnot|by apply Hnot]. destruct (isUnreadableTranscript text); [by apply Hnot|].
  assert (∀ fb, same_item r (worded agent (told agent r fb)) ∧ w_SessionEndedAt (worded agent (told agent r fb)) = w_SessionEndedAt r) as Hw.
  { intros fb. destruct (told_same agent r fb) as [? Ht], (worded_same agent (told agent r fb)) as [? Hw].
    split; [unfold same_item in *; congruence|congruence]. }
  destruct (extractBatch text) as [raw|] eqn:Ex; [|by apply Hnot; [..|apply Hw|apply Hw|]].
  destruct (ParseBatch raw) as [batch|perr] eqn:Ep; [|by apply Hnot; [..|apply Hw|apply Hw|]].
  apply does_call.
  { split; [apply Hr1|]. split; [apply Hr1|]. split; [done|]. split; [done|]. split; [done|]. exists text, raw. split; [|done].
    assert (w_SessionID rec = w_SessionID r) as -> by (symmetry; by apply (same_field w_SessionID)). apply happened_now. }
  intros [res [[diag fix_] fb]]. set (h2 := h1 ++ _). assert (ready h2) as Hr2 by by apply ready_snoc.
  assert (grew h h2) as Hg2 by by apply grew_snoc. cbn [wp]. destruct res as [[[] v]|]; [|by apply Hnot..].
  split; [done|]. split; [done|]. split; [exact Hs|]. split; [done|]. intros _. split.
  - right. left. exists agent, r, batch, v, (diag, fix_, fb). split; [done|]. split; [done|]. split; [done|]. apply happened_now.
  - intros ->. exists r, batch, v, (diag, fix_, fb). split; [done|]. apply happened_now.
Qed.

Lemma issue_batch agent r h : agentForTrigger (w_Trigger rec) = Some agent → ownChainAgent agent = false → same_item rec r →
  ready h → no_write h → does (applyBrokerBatch d agent r) h (batch_ends agent r h).
Proof.
  intros Hag Hown Hs Hr Hw.
  eapply wp_mono.
  { apply (wp_within _ _ (λ B op h, confined d agent r op h) sweep_proper (λ h', ready h' ∧ grew h h')); [|by apply (applyBrokerBatch_hist d agent r h)|done].
    intros B op h' Hc [Hr' Hg]. destruct (confined_proper agent r op h' Hag Hown Hs Hc Hr') as [Hp Hq]. split; [done|].
    intros b _. split; [by apply ready_snoc|by apply grew_snoc]. }
  intros [o r'] h' [[Ho [fb Hf]] [Hr' Hg]]. cbn [fst snd] in *. subst r'. split; [done|]. split; [done|]. split; [exact Hs|]. split; [done|].
  cbn [fst]. intros ->. destruct Ho as [(batch & prefix & Hgd) _]. split; [left; by exists agent, r, batch, prefix|].
  intros ->. rewrite pipefix_own in Hown. done.
Qed.

Lemma batch_does agent r h : agentForTrigger (w_Trigger rec) = Some agent → same_item rec r → ready h → no_write h →
  does (applyBrokerBatch d agent r) h (batch_ends agent r h).
Proof. destruct (ownChainAgent agent) eqn:Hown; intros; [by apply own_chain_batch|by apply issue_batch]. Qed.

(** *** Why a batch's fate is not known *)

#[local] Abbreviation may p h Q := (wp anything (@any_answer) (@remember) p h Q).
Lemma may_any {A : Type} (p : Prog A) h : may p h (λ _ _, True).
Proof. revert h. induction p as [a|B op k IH]; intros h; [done|]. split; [done|]. intros b _. apply IH. Qed.
Lemma may_bind {A B : Type} (p : Prog A) (f : A → Prog B) h R Q :
  may p h R → (∀ a h', R a h' → may (f a) h' Q) → may (p ≫= f) h Q.
Proof. intros Hp Hf. apply wp_bind. eapply wp_mono; [exact Hp|exact Hf]. Qed.
Lemma may_after {A B : Type} (p : Prog A) (f : A → Prog B) h Q : (∀ a h', may (f a) h' Q) → may (p ≫= f) h Q.
Proof. intros Hf. eapply may_bind; [apply may_any|]. auto. Qed.
Lemma may_call {B C : Type} (op : Op B) (f : B → Prog C) h Q : (∀ b, may (f b) (h ++ [Ev op b]) Q) → may (call op ≫= f) h Q.
Proof. intros Hf. split; [done|]. intros b _. exact (Hf b). Qed.

Definition denied_in (h : list Event) : Prop := ∃ (B : Type) (op : Op B) (b : B), happened op b h ∧ denied B op b.
Lemma denied_now {B : Type} (op : Op B) b h : denied B op b → denied_in (h ++ [Ev op b]).
Proof. intros Hd. exists B, op, b. split; [apply happened_now|done]. Qed.

Lemma scaffold_denied r batch marker h : same_item rec r →
  may (applyScaffoldFiles r batch marker) h (λ res h', res = None → denied_in h').
Proof.
  intros Hs. assert (w_ProjectID r = w_ProjectID rec) as Hp by by apply (same_field w_ProjectID).
  unfold applyScaffoldFiles. apply may_after. intros [|a actions] h1; [done|].
  apply may_call. intros [branch|]; [|intros _; by apply denied_now].
  apply may_call. intros []; cbn [negb]; [|intros _; by apply denied_now].
  apply may_call. intros [[|mr mrs]|]; [|done|intros _; by apply denied_now].
  split; [done|]. intros url _ ->. by apply denied_now.
Qed.
Lemma comments_denied r claimed es h : same_item rec r → may (post_comments d r claimed es) h (λ res h', res = None → denied_in h').
Proof.
  intros Hs. assert (w_ProjectID r = w_ProjectID rec) as Hp by by apply (same_field w_ProjectID).
  revert claimed h. induction es as [|e es IH]; intros claimed h; [done|]. cbn [post_comments].
  destruct (negb _); [apply IH|]. apply may_after. intros [] h1; [apply IH|].
  apply may_call. intros [] ; [apply IH|]. intros _. by apply denied_now.
Qed.
Lemma write_denied r batch prefix h : same_item rec r → may (write_batch d r batch prefix) h (λ res h', res.1 = Unknown → denied_in h').
Proof.
  intros Hs. unfold write_batch. eapply may_bind; [by apply scaffold_denied|]. intros [url|] h1 Hd1; [|intros _; by apply Hd1].
  eapply may_bind; [by apply comments_denied|]. intros [claimed|] h2 Hd2; [|intros _; by apply Hd2].
  apply may_after. intros _ h3. apply may_after. intros _ h4. apply may_after. by intros _ h5.
Qed.
Lemma gates_untold agent r batch h : may (issue_gates d agent r batch) h
  (λ res h', match res with inl (Unknown, _) => happened (OShape agent) None h' | _ => True end).
Proof.
  unfold issue_gates. apply may_call. intros [shape|]; [|apply happened_now].
  destruct (shape_Validate batch shape) as [[]|]; [done..|]. destruct (negb _); [done|]. destruct (negb _); [done|]. destruct (negb _); [done|].
  apply may_after. intros v h1. destruct (negb _); [done|]. apply may_after. intros prefix h2. by destruct (first_of _ _).
Qed.
Lemma batch_unknown agent r h : same_item rec r → may (applyBrokerBatch d agent r) h (λ res h', res.1 = Unknown → batch_untold agent h').
Proof.
  intros Hs. assert (w_SessionID r = w_SessionID rec) as Hid by by apply (same_field w_SessionID).
  unfold applyBrokerBatch. destruct (ownChainAgent agent) eqn:Hown.
  - rewrite andb_false_r. apply may_call. rewrite Hid. intros [text|[]]; [|done|intros _; right; left; eexists; split; [apply happened_now|by left]].
    destruct (isUnreadableTranscript text) eqn:Eu; [intros _; right; left; eexists; split; [apply happened_now|right; by exists text]|].
    destruct (extractBatch text) as [raw|]; [|done]. destruct (ParseBatch raw) as [batch|perr]; [|done].
    apply may_call. intros [res [[diag fix_] fb]]. destruct res as [[[] v]|]; [done|done|]. intros _. right. right. left. split; [done|].
    exists r, batch, (diag, fix_, fb). apply happened_now.
  - destruct (s_Apply d) eqn:Ea; cbn [negb andb]; [|intros _; by left].
    apply may_call. rewrite Hid. intros [text|[]]; [|done|intros _; right; left; eexists; split; [apply happened_now|by left]].
    destruct (isUnreadableTranscript text) eqn:Eu; [intros _; right; left; eexists; split; [apply happened_now|right; by exists text]|].
    destruct (extractBatch text) as [raw|]; [|done]. destruct (ParseBatch raw) as [batch|perr]; [|done].
    eapply may_bind; [apply gates_untold|]. intros [[o r']|prefix] h1 Hg.
    + destruct o as [|v|]; [done|done|]. intros _. right. right. right. split; [done|by left].
    + eapply may_bind; [by apply write_denied|]. intros res h2 Hw Hu. right. right. right. split; [done|]. right. by apply Hw.
Qed.

(** *** The artifact *)

Lemma closeSession_does r h : same_item rec r → window_over h → verdict ["done"; "escalate"; "retry"] h ∨ set_down h →
  does (closeSession r) h (λ _ _, True).
Proof.
  intros Hs Hw Hv. unfold closeSession. assert (w_SessionID r = w_SessionID rec) as -> by by apply (same_field w_SessionID).
  destruct (String.eqb_spec (w_SessionID rec) "") as [|Hne]; [done|]. cbn [negb when].
  split; [split; [exact Hw|by split]|]. intros b _. exact I.
Qed.

Definition told_artifact (h : list Event) (r : WorkItem) (res : option artifact) (h' : list Event) : Prop :=
  match res with
  | None => True
  | Some a => ready h' ∧ grew h h' ∧ same_item rec (ar_rec a) ∧ w_SessionEndedAt (ar_rec a) = w_SessionEndedAt r ∧
      (ar_present a = Present → delivered h') ∧ (ar_present a = CannotTell → untold h')
  end.
Lemma artifactPresent_does kind r h : same_item rec r → ready h →
  does (artifactPresent d kind (w_ProjectID r) (w_IssueIID r) (w_BeadID r)) h
    (λ p h', ready h' ∧ grew h h' ∧ (p = Present → delivered h') ∧ (p = CannotTell → listed_untold kind h')).
Proof.
  intros Hs Hr. unfold artifactPresent.
  assert (w_ProjectID r = w_ProjectID rec) as -> by by apply (same_field w_ProjectID).
  assert (w_IssueIID r = w_IssueIID rec) as -> by by apply (same_field w_IssueIID).
  assert (w_BeadID r = w_BeadID rec) as -> by by apply (same_field w_BeadID).
  destruct (String.eqb_spec kind "mr") as [->|Hm].
  - apply does_call; [split; [apply Hr|by left]|]. intros mrs. split; [by apply ready_snoc|]. split; [by apply grew_snoc|].
    destruct mrs as [mrs|]; [|split; [done|]; intros _; left; split; [done|apply happened_now]].
    destruct (existsb _ mrs) eqn:E; [|done]. split; [|done]. intros _. right. right. left. exists mrs.
    split; [apply happened_now|done].
  - destruct (String.eqb_spec kind "comment") as [->|Hc]; [|split; [done|]; split; [apply grew_refl|]; split; [done|]; intros _; by right; right].
    apply does_call; [split; [apply Hr|by left]|]. intros notes. split; [by apply ready_snoc|]. split; [by apply grew_snoc|].
    destruct notes as [notes|]; [|split; [done|]; intros _; right; left; split; [done|apply happened_now]].
    destruct (existsb _ notes) eqn:E; [|done]. split; [|done]. intros _. right. right. right. exists notes.
    split; [apply happened_now|done].
Qed.

Lemma hold_does r h : held_fix r h → ready h → does (holdFixForVerification r) h (λ _ _, True).
Proof.
  intros Hh Hr. assert (same_item rec r) as Hs by apply Hh. unfold holdFixForVerification.
  assert (w_Revision r = w_Revision rec) as -> by by apply (same_field w_Revision).
  apply does_call; [split; [apply Hr|]; split; [done|]; left; split; [apply Hr|by right]|]. intros w.
  assert (w ≠ Err ErrStore → does (closeSession r) (h ++ [Ev (OPutIf r (w_Revision rec)) w]) (λ _ _, True)) as Hc.
  { intros Hw. apply closeSession_does; [done|apply (window_grown h); [auto|apply Hr]|]. right. exists r, w. split; [apply happened_now|].
    split; [done|]. right. destruct Hh as (Ha1 & Ha2 & Ha3 & r' & batch & v & what & Ha4 & Ha5). split; [done|]. split; [done|]. split; [done|].
    exists r', batch, v, what. split; [done|by apply happened_later]. }
  destruct w as [rev|[]]; [by apply Hc|by apply Hc|done].
Qed.

Lemma find_artifact_does r judged h : same_item rec r → ready h → no_write h →
  does (find_artifact d r judged) h (told_artifact h r).
Proof.
  intros Hs Hr Hn. unfold find_artifact.
  assert (w_Trigger r = w_Trigger rec) as -> by by apply (same_field w_Trigger).
  assert (w_SessionID r = w_SessionID rec) as -> by by apply (same_field w_SessionID).
  assert (agentForTrigger (w_Trigger rec) = None ∨ w_SessionID rec = "" →
    does (p ← artifactPresent d (artifactKindForTrigger (w_Trigger rec)) (w_ProjectID r) (w_IssueIID r) (w_BeadID r);
     Ret (Some (mkArtifact p "" "artifact check could not read the forge" r))) h (told_artifact h r)) as Hp.
  { intros Hno. eapply does_bind; [by apply artifactPresent_does|]. intros p h' (Hr' & Hg & Hd & Hu).
    split; [done|]. split; [done|]. split; [done|]. split; [done|]. split; [done|]. intros E. right. split; [done|by apply Hu]. }
  destruct (agentForTrigger (w_Trigger rec)) as [agent|] eqn:Hag; [|by apply Hp; left].
  destruct (String.eqb_spec (w_SessionID rec) "") as [He|Hne]; cbn [negb]; [by apply Hp; right|]. clear Hp.
  destruct judged; cbn [negb]; [|by split; [|split; [apply grew_refl|]]].
  eapply does_bind; [apply wp_both; [by apply batch_does|by apply batch_unknown]|].
  intros [o r'] h' [(Hr' & Hg & Hs' & He & Ha) Hu]. cbn [fst snd] in *.
  assert (∀ present rejected unknown, (present = Present → delivered h') → (present = CannotTell → batch_untold agent h') →
    told_artifact h r (Some (mkArtifact present rejected unknown r')) h') as Hret.
  { intros present rejected unknown Hd Hc. split; [done|]. split; [done|]. split; [done|]. split; [done|]. split; [exact Hd|].
    intros E. left. exists agent. split; [done|]. split; [done|by apply Hc]. }
  destruct o as [|v|]; [|by apply Hret|apply Hret; [done|by intros _; apply Hu]].
  specialize (Ha eq_refl). destruct (String.eqb_spec agent pipefixAgent) as [->|Hna]; cbn [andb]; [|by apply Hret; [intros _; apply Ha|]].
  destruct (contains fixOpenStates _) eqn:Hc; [|by apply Hret; [intros _; apply Ha|]]. eapply does_bind; [apply hold_does; [|done]|by intros].
  split; [done|]. split; [done|]. split; [by apply contains_elem|]. destruct Ha as [_ Hf].
  destruct (Hf eq_refl) as (r0 & batch & v & what & ? & ?). by exists r0, batch, v, what.
Qed.

(** *** The spend *)

(** Meter's last word on the session's spend, as the sweep takes it. *)
Definition last_cost (r : WorkItem) (told : option Z) (h : list Event) : Prop := ∃ pre cost post,
  h = pre ++ Ev (OCostSession (w_SessionKey rec)) cost :: post ∧ no_cost post ∧ fresh_cost r cost = told.
Definition spend_told (r : WorkItem) (res : Z * bool) (h : list Event) : Prop :=
  last_cost r (if res.2 then None else Some res.1) h.
Lemma fresh_told r cost tokens : fresh_cost r cost = Some tokens → ∃ asOf, cost = Some (tokens, asOf) ∧ w_SessionEndedAt r <= asOf.
Proof.
  destruct cost as [[t asOf]|]; cbn; [|done]. unfold Before. destruct (Z.ltb_spec asOf (w_SessionEndedAt r)); cbn; [done|].
  intros [= ->]. by exists asOf.
Qed.
Lemma fresh_stale r cost tokens asOf : fresh_cost r cost = None → cost = Some (tokens, asOf) → asOf < w_SessionEndedAt r.
Proof. intros Hf ->. revert Hf. cbn. unfold Before. destruct (Z.ltb_spec asOf (w_SessionEndedAt r)); cbn; intros ?; [done|discriminate]. Qed.
Lemma poll_does more r deadline h : same_item rec r → ready h →
  does (poll_spend d more r deadline) h (λ res h', ready h' ∧ grew h h' ∧ spend_told r res h').
Proof.
  intros Hs. assert (w_SessionKey r = w_SessionKey rec) as Hk by by apply (same_field w_SessionKey).
  revert h. induction more as [|more IH]; intros h Hr; cbn [poll_spend]; rewrite Hk.
  all: apply does_call; [split; [apply Hr|done]|]; intros cost; set (h1 := h ++ _);
    assert (ready h1) as Hr1 by (by apply ready_snoc); assert (grew h h1) as Hg1 by (by apply grew_snoc);
    assert (∀ post, no_cost post → last_cost r (fresh_cost r cost) (h1 ++ post)) as Hlast
      by (intros post Hp; exists h, cost, post; split; [unfold h1; by rewrite <- app_assoc|done]);
    destruct (fresh_cost r cost) as [tokens|] eqn:Ef;
    [split; [done|]; split; [done|]; pose proof (Hlast [] (Forall_nil_2 _)) as Hnil; by rewrite app_nil_r in Hnil|].
  - apply does_call; [by split|]. intros now. split; [by apply ready_snoc|]. split; [by apply grew_snoc|]. apply Hlast. by apply Forall_singleton.
  - apply does_call; [by split|]. intros now. set (h2 := h1 ++ _).
    assert (ready h2) as Hr2 by by apply ready_snoc. assert (grew h h2) as Hg2 by by apply grew_snoc.
    destruct (Before now deadline); [|split; [done|]; split; [done|]; apply Hlast; by apply Forall_singleton].
    apply does_call; [split; [apply Hr2|by left]|]. intros slept. set (h3 := h2 ++ _).
    assert (ready h3) as Hr3 by by apply ready_snoc. assert (grew h h3) as Hg3 by by apply grew_snoc.
    destruct slept; [|split; [done|]; split; [done|]; unfold h3, h2; rewrite <- app_assoc; apply Hlast; repeat constructor].
    eapply wp_mono; [by apply IH|]. intros res h' (Hr' & Hg' & Hd). split; [done|]. split; [by eapply grew_trans|done].
Qed.
Definition gathered (r : WorkItem) (res : Z * bool) (h : list Event) : Prop :=
  happened OSpendSync false h ∧ res.2 = true ∨ happened OSpendSync true h ∧ spend_told r res h.
Lemma gather_does r h : same_item rec r → ready h → does (gatherSpend d r) h (λ res h', ready h' ∧ grew h h' ∧ gathered r res h').
Proof.
  intros Hs Hr. unfold gatherSpend. apply does_call; [split; [apply Hr|by left]|]. intros synced. set (h1 := h ++ _).
  assert (ready h1) as Hr1 by by apply ready_snoc. assert (grew h h1) as Hg1 by by apply grew_snoc.
  destruct synced; cbn [negb]; [|split; [done|]; split; [done|]; left; split; [apply happened_now|done]].
  apply does_call; [by split|]. intros now. set (h2 := h1 ++ _).
  eapply wp_mono; [apply poll_does; [done|by apply ready_snoc]|]. intros res h' (Hr' & Hg' & Hd). split; [done|].
  split; [eapply grew_trans; [|done]; by apply grew_snoc|]. right. split; [|done]. eapply grown; [exact Hg'|].
  apply happened_later, happened_now.
Qed.
Lemma gathered_spent r tokens h : w_SessionEndedAt r = w_SessionEndedAt rec ∨ happened ONow (w_SessionEndedAt r) h →
  gathered r (tokens, false) h → 0 < tokens → spent h.
Proof.
  intros He [[_ ?]|[Hsy (pre & cost & post & E & _ & Hf)]] Hpos; [done|]. apply fresh_told in Hf as (asOf & -> & Hle).
  split; [done|]. exists tokens, asOf, (w_SessionEndedAt r). split; [|done]. unfold happened. rewrite E, in_app_iff. right. by left.
Qed.
Lemma gathered_unspent r tokens stale h : w_SessionEndedAt r = w_SessionEndedAt rec ∨ happened ONow (w_SessionEndedAt r) h →
  gathered r (tokens, stale) h → stale = true ∨ tokens <= 0 → unspent h.
Proof.
  intros He [[Hsy _]|[Hsy (pre & cost & post & E & Hn & Hf)]] Hwhy; [by left|]. right.
  exists pre, cost, post, (w_SessionEndedAt r). split; [done|]. split; [done|]. split; [done|]. intros t asOf Ec. cbn [fst snd] in Hf.
  destruct stale; [left; by eapply fresh_stale|]. right. destruct Hwhy as [?|Hz]; [done|].
  apply fresh_told in Hf as (asOf' & Ec' & _). congruence.
Qed.

(** *** The verdict *)

Lemma calm_no_store h : calm h → no_store h.
Proof. intros Hh. eapply Forall_impl; [exact Hh|]. intros [B op b]. by destruct op. Qed.
Lemma calm_no_order h : calm h → no_order h.
Proof. intros Hh. eapply Forall_impl; [exact Hh|]. intros [B op b]. by destruct op. Qed.
Lemma no_order_snoc {B : Type} (op : Op B) b h : (match op with ORunOrder _ => False | _ => True end) → no_order h → no_order (h ++ [Ev op b]).
Proof. intros Ho Hh. apply Forall_app. split; [done|]. apply Forall_singleton. by destruct op. Qed.
Lemma verdict_grown ns h h' : grew h h' → verdict ns h → verdict ns h'.
Proof. intros Hg (o & resp & Ho & Hn). exists o, resp. split; [by eapply grown|done]. Qed.
Lemma verdict_more ns ns' h : (∀ n, n ∈ ns → n ∈ ns') → verdict ns h → verdict ns' h.
Proof. intros Hns (o & resp & Ho & Hn). exists o, resp. auto. Qed.
Lemma again_grown r h h' : grew h h' → again r h → again r h'.
Proof.
  intros Hg (Hv & r' & now & Hs & Hn & E). split; [by eapply verdict_grown|]. exists r', now. split; [done|]. split; [by eapply grown|done].
Qed.
Lemma stored_again_grown r h h' : grew h h' → stored_again r h → stored_again r h'.
Proof. intros Hg [Ha [rev Hp]]. split; [by eapply again_grown|]. exists rev. by eapply grown. Qed.

Lemma note_proper r {B : Type} (op : Op B) h : window_over h → stored_again r h →
  match op with OCreateNote p iid _ | OUpdateNote p iid _ _ => p = w_ProjectID rec ∧ iid = w_IssueIID rec | _ => False end →
  sweep_proper B op h.
Proof.
  intros Hw Hs Hop. destruct op; try done; destruct Hop as [-> ->]; (split; [done|]); right; right; (split; [done|]); (split; [done|]); by exists r.
Qed.
Definition noticed (h h' : list Event) : Prop := grew h h' ∧ no_order h'.
Lemma noticed_snoc {B : Type} (op : Op B) b h h' : (match op with ORunOrder _ => False | _ => True end) → noticed h h' → noticed h (h' ++ [Ev op b]).
Proof. intros Ho [Hg Hn]. split; [by apply grew_snoc|by apply no_order_snoc]. Qed.
Lemma update_does r id body h0 h : window_over h0 → stored_again r h0 → noticed h0 h →
  does (do (OUpdateNote (w_ProjectID rec) (w_IssueIID rec) id body)) h (λ _ h', noticed h0 h').
Proof.
  intros Hw Hs Hn. split; [apply (note_proper r); [eapply window_grown; [apply Hn|done]|eapply stored_again_grown; [apply Hn|done]|by split]|].
  intros b _. by apply noticed_snoc.
Qed.
Lemma create_does r body h0 h : window_over h0 → stored_again r h0 → noticed h0 h →
  does (do (OCreateNote (w_ProjectID rec) (w_IssueIID rec) body)) h (λ _ h', noticed h0 h').
Proof.
  intros Hw Hs Hn. split; [apply (note_proper r); [eapply window_grown; [apply Hn|done]|eapply stored_again_grown; [apply Hn|done]|by split]|].
  intros b _. by apply noticed_snoc.
Qed.
Lemma upsert_does r bead body h : window_over h → stored_again r h → no_order h →
  does (upsertStatusNote d (w_ProjectID rec) (w_IssueIID rec) bead body) h (λ _ h', noticed h h').
Proof.
  intros Hw Hs Ho. assert (noticed h h) as Hn by by split; [apply grew_refl|].
  unfold upsertStatusNote, upsertStatusNoteWith. destruct (s_Apply d) eqn:Ha; cbn [negb]; [|exact Hn].
  eapply does_bind with (R := λ _ h', noticed h h').
  { unfold findStatusNote. destruct (_ || _); [exact Hn|]. apply does_call; [split; [exact Hw|by left]|]. intros notes. by apply noticed_snoc. }
  intros [existing|] h1 Hn1; [|exact Hn1].
  eapply does_bind with (R := λ _ h', noticed h h').
  { destruct existing as [n|]; [|exact Hn1]. destruct (isFinalAnswer n bead); [|exact Hn1].
    eapply does_bind with (R := λ _ h', noticed h h').
    - unfold retireStatusNote. destruct (_ && _); [|exact Hn1]. by apply (update_does r).
    - intros _ h2 Hn2. exact Hn2. }
  intros [n|] h2 Hn2; [|by apply (create_does r)]. destruct (negb _); [by apply (update_does r)|exact Hn2].
Qed.

Lemma settle_does r outcome why resp h : same_item rec r → window_over h → no_store h → no_order h →
  (∃ o, happened (OOutcome (outcome_request rec o)) (Some resp) h) →
  does (settle d r outcome why resp) h
    (λ finished h', window_over h' ∧ (finished = true → verdict ["done"; "escalate"; "retry"] h')).
Proof.
  intros Hs Hw Hst Ho [o Hout].
  assert (∀ r', w_Revision r' = w_Revision r → w_Revision r' = w_Revision rec) as Hrev.
  { intros r' ->. by apply (same_field w_Revision). }
  assert (∀ n, Meterapi.Next resp = n → ∀ h', grew h h' → verdict [n] h') as Hv.
  { intros n Hn h' Hg. exists o, resp. split; [by eapply grown|]. rewrite Hn. by left. }
  unfold settle. destruct (String.eqb_spec (Meterapi.Next resp) "done") as [Ed|_].
  { apply does_call.
    - split; [exact Hw|]. split; [by apply Hrev|]. right. split; [done|]. left. split; [by apply Hv; [|apply grew_refl]|]. by exists r.
    - intros w. split; [eapply window_grown; [|exact Hw]; by apply grew_snoc|]. intros _.
      eapply verdict_more; [|apply (Hv "done" Ed); by apply grew_snoc]. set_solver. }
  assert (∀ h', grew h h' → Meterapi.Next resp = "escalate" ∨ Meterapi.Next resp = "retry" → verdict ["escalate"; "retry"] h') as Hv2.
  { intros h' Hg [E|E]; (eapply verdict_more; [|by apply (Hv _ E)]); set_solver. }
  destruct (String.eqb (Meterapi.Next resp) "escalate" || String.eqb (Meterapi.Next resp) "retry") eqn:En; [|by split].
  assert (Meterapi.Next resp = "escalate" ∨ Meterapi.Next resp = "retry") as Hn.
  { apply orb_prop in En as [E|E]; apply String.eqb_eq in E; auto. }
  specialize (Hv2 _ (grew_refl h) Hn). clear En.
  assert (∀ h', grew h h' → window_over h' ∧ (true = true → verdict ["done"; "escalate"; "retry"] h')) as Hend.
  { intros h' Hg. split; [by eapply window_grown|]. intros _. eapply verdict_more; [|by eapply verdict_grown]. set_solver. }
  apply does_call; [by split|]. intros now. set (h1 := h ++ _). assert (grew h h1) as Hg1 by by apply grew_snoc.
  change (set_w_ReslingFireBy (reslingFireBy now) (set_w_ReslungAt now (set_w_SessionEndedAt 0 r))) with (reslung r now).
  assert (again (reslung r now) h1) as Ha1.
  { split; [by eapply verdict_grown|]. exists r, now. split; [done|]. split; [apply happened_now|done]. }
  apply does_call.
  { split; [by eapply window_grown|]. split; [by apply Hrev|]. right. split; [|by right]. apply Forall_app. split; [done|]. by apply Forall_singleton. }
  intros w. set (h2 := h1 ++ _). assert (grew h h2) as Hg2 by by apply grew_snoc.
  destruct w as [rev|e]; [|by apply Hend].
  assert (stored_again (reslung r now) h2) as Hs2.
  { split; [eapply again_grown; [|exact Ha1]; apply grew_snoc, grew_refl|]. exists rev. unfold h2.
    rewrite (Hrev (reslung r now) eq_refl). apply happened_now. }
  assert (no_order h2) as Ho2 by by apply no_order_snoc, no_order_snoc.
  eapply does_bind with (R := λ _ h', noticed h2 h').
  { unfold postReslingNotice. destruct (_ && _); [|split; [apply grew_refl|done]].
    assert (w_ProjectID (reslung r now) = w_ProjectID rec) as -> by (change (w_ProjectID r = w_ProjectID rec); by apply (same_field w_ProjectID)).
    assert (w_IssueIID (reslung r now) = w_IssueIID rec) as -> by (change (w_IssueIID r = w_IssueIID rec); by apply (same_field w_IssueIID)).
    apply (upsert_does (reslung r now)); [by eapply window_grown|done|done]. }
  intros _ h3 [Hg3 Ho3]. assert (grew h h3) as Hgh3 by by eapply grew_trans.
  apply does_call.
  - split; [by eapply window_grown|]. split; [done|]. exists (reslung r now). split; [by apply (stored_again_grown _ h2)|done].
  - intros fired. apply Hend. by apply grew_snoc.
Qed.

Lemma report_does r s expired killed rejected unknown h : same_item rec r → ready h → rests_on (Classify s) h →
  does (report d r s expired killed rejected unknown) h (λ _ _, True).
Proof.
  intros Hs Hr Hon. unfold report. rewrite (same_request r _ Hs).
  apply does_call; [split; [apply Hr|]; split; [apply Hr|by eexists]|].
  intros [resp|]; [|done]. set (h1 := h ++ _). assert (grew h h1) as Hg1 by by apply grew_snoc.
  eapply does_bind.
  - apply settle_does; [done|by eapply window_grown, Hr| | |eexists; apply happened_now].
    + apply Forall_app. split; [apply calm_no_store, Hr|by apply Forall_singleton].
    + apply no_order_snoc; [done|apply calm_no_order, Hr].
  - intros finished h' [Hw Hv]. destruct finished; [|done]. apply closeSession_does; [done|done|]. left. by apply Hv.
Qed.

(** *** From the session to its verdict *)

(** The end of the session, as the record has it or as it was just observed. *)
Definition ended_known (r : WorkItem) (h : list Event) : Prop :=
  w_SessionEndedAt r = w_SessionEndedAt rec ∨ happened ONow (w_SessionEndedAt r) h.
Lemma ended_grown r r' h h' : grew h h' → w_SessionEndedAt r' = w_SessionEndedAt r → ended_known r h → ended_known r' h'.
Proof. intros Hg He [E|E]; [left; congruence|right; rewrite He; by eapply grown]. Qed.
Lemma in_time_grown h h' : grew h h' → in_time h → in_time h'.
Proof. intros Hg (now & Hn & He). exists now. split; [by eapply grown|done]. Qed.

Lemma rests_infra h : not_the_model h → rests_on OutcomeInfraFailed h.
Proof. intros Hn. right; right; right. by split. Qed.
Lemma rests_over aborted over unknown stale present tokens h : (aborted = true → closed_by_hand h) →
  over || unknown || stale = true → (aborted = false → not_the_model h) →
  rests_on (Classify (mkSignals aborted over unknown stale present tokens)) h.
Proof.
  intros Ha Ho Hn. unfold Classify. cbn. destruct aborted; [left; split; [done|by apply Ha]|]. rewrite Ho. by apply rests_infra, Hn.
Qed.
(** What the signals say is what happened. *)
Record signalled (over unknown stale present : bool) (tokens : Z) (h : list Event) : Prop := {
  sd_over : over = true → out_of_time h ∨ killed_at_deadline h;
  sd_time : over = false → in_time h;
  sd_unknown : unknown = true → untold h;
  sd_present : present = true → delivered h;
  sd_spent : over = false → unknown = false → present = false → stale = false → 0 < tokens → spent h;
  sd_unspent : over = false → unknown = false → present = false → stale = true ∨ tokens <= 0 → unspent h;
  sd_fresh : over || unknown || present = true → stale = false }.
Lemma rests_judged over unknown stale present tokens h : signalled over unknown stale present tokens h →
  rests_on (Classify (mkSignals false over unknown stale present tokens)) h.
Proof.
  intros [Ho Ht Hu Hd Hs Hz Hf]. unfold Classify, not_the_model. cbn.
  destruct over; [apply rests_infra; unfold not_the_model; tauto|]. destruct unknown; [apply rests_infra; unfold not_the_model; tauto|].
  destruct present; [rewrite (Hf eq_refl); right; left; auto|].
  destruct stale; [apply rests_infra; unfold not_the_model; tauto|]. destruct (Z.leb_spec tokens 0); [apply rests_infra; unfold not_the_model; tauto|].
  right; right; left. auto.
Qed.

(** What the sweep knows of the item's time. *)
Record timed (expired killed : bool) (h : list Event) : Prop := {
  t_in : expired = false → in_time h; t_out : expired = true → out_of_time h; t_killed : killed = true → killed_at_deadline h }.
Lemma timed_grown expired killed h h' : grew h h' → timed expired killed h → timed expired killed h'.
Proof.
  intros Hg [Hin Hout Hk]. split; [intros E; by apply (in_time_grown h), Hin| |].
  - intros E. destruct (Hout E) as (now & Hn & He). exists now. split; [by eapply grown|done].
  - intros E. destruct (Hk E) as (st & Hn & He). exists st. split; [by eapply grown|done].
Qed.
Lemma timed_over expired killed h : timed expired killed h → expired || killed = true → out_of_time h ∨ killed_at_deadline h.
Proof. intros [_ Hout Hk] Ho. destruct expired; [left; by apply Hout|right; by apply Hk]. Qed.

Definition knows (c : option bool) (h : list Event) : Prop :=
  match c with
  | Some b => b = true → closed_by_hand h
  | None => artifactKindForTrigger (w_Trigger rec) = "comment" ∧ happened (OIssueState (w_ProjectID rec) (w_IssueIID rec)) None h
  end.
Lemma closed_does r h : same_item rec r → ready h → no_write h →
  does (issue_closed r) h (λ c h', ready h' ∧ grew h h' ∧ no_write h' ∧ knows c h').
Proof.
  intros Hs Hr Hn. assert (w_Trigger r = w_Trigger rec) as Htr by by apply (same_field w_Trigger).
  unfold issue_closed. rewrite Htr. destruct (String.eqb_spec (artifactKindForTrigger (w_Trigger rec)) "comment") as [Ek|]; [|by split].
  assert (w_ProjectID r = w_ProjectID rec) as -> by by apply (same_field w_ProjectID).
  assert (w_IssueIID r = w_IssueIID rec) as -> by by apply (same_field w_IssueIID).
  apply does_call; [split; [apply Hr|by split]|]. intros st. split; [by apply ready_snoc|]. split; [by apply grew_snoc|].
  split; [by apply no_write_snoc|]. destruct st as [s|]; [|split; [done|apply happened_now]].
  intros Es%String.eqb_eq. subst s. split; [done|apply happened_now].
Qed.
(** Spend is asked for only when it decides. *)
Lemma spend_does (asked : bool) r h : same_item rec r → ready h →
  does (if asked then gatherSpend d r else Ret (0, false)) h
    (λ res h', ready h' ∧ grew h h' ∧ if asked then gathered r res h' else h' = h ∧ res = (0, false)).
Proof. intros Hs Hr. destruct asked; [by apply gather_does|]. split; [done|]. split; [apply grew_refl|done]. Qed.

Lemma judge_does r judged expired killed h : same_item rec r → ready h → no_write h → timed expired killed h → ended_known r h →
  does (judge d r judged expired killed) h (λ _ _, True).
Proof.
  intros Hs Hr Hn Ht He. unfold judge. eapply does_bind; [by apply closed_does|].
  intros closed h1 (Hr1 & Hg1 & Hn1 & Hc). destruct closed as [[]|].
  - apply report_does; [done|done|]. unfold Classify. cbn. left. split; [done|]. by apply Hc.
  - eapply does_bind; [by apply find_artifact_does|]. intros [a|] h2 Ha; [|done]. destruct Ha as (Hr2 & Hg2 & Hs2 & He2 & Hd2 & Hu2).
    assert (grew h h2) as Hg by by eapply grew_trans.
    assert (ended_known (ar_rec a) h2) as He2' by by eapply ended_grown.
    eapply does_bind; [by apply spend_does|].
    intros [tokens stale] h3 (Hr3 & Hg3 & Hsp). apply report_does; [done|done|]. apply rests_judged.
    assert (timed expired killed h3) as Ht3 by (eapply timed_grown; [|exact Ht]; by eapply grew_trans).
    assert (ended_known (ar_rec a) h3) as He3 by by apply (ended_grown (ar_rec a) (ar_rec a) h2).
    destruct (expired || killed) eqn:Eo; [|destruct (ar_present a)]; cbn [negb andb] in Hsp.
    + destruct Hsp as [-> [= -> ->]]. split; try done; [by intros _; eapply timed_over| |].
      * intros Eu. apply Hu2. by destruct (ar_present a).
      * intros Ep. apply Hd2. by destruct (ar_present a).
    + destruct Hsp as [-> [= -> ->]]. split; try done; [|by intros _; apply Hd2]. intros _. apply (t_in _ _ _ Ht3). by destruct expired.
    + split; try done; [|by intros _ _ _ ->; eapply gathered_spent|by intros _ _ _; eapply gathered_unspent].
      intros _. apply (t_in _ _ _ Ht3). by destruct expired.
    + destruct Hsp as [-> [= -> ->]]. split; try done; [|by intros _; apply Hu2]. intros _. apply (t_in _ _ _ Ht3). by destruct expired.
  - apply report_does; [done|done|]. apply rests_over; [done|by rewrite orb_true_r|]. intros _. right. right. by left.
Qed.

Definition looked (h : list Event) (res : option (bool * bool * WorkItem)) (h' : list Event) : Prop :=
  match res with
  | None => True
  | Some (_, killed, r) => ready h' ∧ grew h h' ∧ no_write h' ∧ same_item rec r ∧ ended_known r h' ∧ (killed = true → killed_at_deadline h')
  end.
Lemma stamped_does h : ready h → no_write h →
  does (stamped_end rec) h (λ r h', ready h' ∧ grew h h' ∧ no_write h' ∧ same_item rec r ∧ ended_known r h').
Proof.
  intros Hr Hn. unfold stamped_end. destruct (IsZero _).
  - apply does_call; [by split|]. intros now. split; [by apply ready_snoc|]. split; [by apply grew_snoc|]. split; [by apply no_write_snoc|].
    split; [done|]. right. apply happened_now.
  - split; [done|]. split; [apply grew_refl|]. split; [done|]. split; [done|]. by left.
Qed.

Lemma aside_grown r h h' : grew h h' → aside r h → aside r h'.
Proof.
  intros Hg (Hb & now & delta & Hnow & E & Hwhy). split; [done|]. exists now, delta. split; [by eapply grown|]. split; [done|].
  destruct Hwhy as [?|(Hd & s & text & Hs & Hx & Ho & Hc)]; [by left|]. right. split; [done|]. exists s, text.
  split; [by eapply grown|]. split; [done|]. split; [by eapply grown|done].
Qed.

(** The record is parked; what follows may count on it. *)
Lemma park_does {B : Type} (f : result store_error string → Prog B) now delta h Q : ready h →
  aside (parkedForRetry rec (Add now delta)) h →
  (∀ rev, window_over (h ++ [Ev (OPutIf (parkedForRetry rec (Add now delta)) (w_Revision rec)) (Ok rev)]) →
     let h' := h ++ [Ev (OPutIf (parkedForRetry rec (Add now delta)) (w_Revision rec)) (Ok rev)] in
     happened (OPutIf (parkedForRetry rec (Add now delta)) (w_Revision rec)) (Ok rev) h' ∧ aside (parkedForRetry rec (Add now delta)) h' →
     does (f (Ok rev)) h' Q) →
  (∀ e, does (f (Err e)) (h ++ [Ev (OPutIf (parkedForRetry rec (Add now delta)) (w_Revision rec)) (Err e)]) Q) →
  does (w ← call (OPutIf (parkedForRetry rec (Add now delta)) (w_Revision rec)); f w) h Q.
Proof.
  intros Hr Ha Hok Herr. apply does_call; [split; [apply Hr|]; split; [done|]; left; split; [apply Hr|by left]|].
  intros [rev|e]; [|apply Herr]. apply Hok; [eapply window_grown; [apply grew_snoc, grew_refl|apply Hr]|]. split; [apply happened_now|].
  eapply aside_grown; [apply grew_snoc, grew_refl|done].
Qed.

Lemma skew_does expired s h : brokered → ready h → no_write h → happened (OStatus (w_SessionID rec)) (Some s) h → isSkewExit s = true →
  does (parkIfImageSkew rec expired) h (λ v h', ready h' ∧ grew h h' ∧ no_write h' ∨ v = skewHandled).
Proof.
  intros Hb Hr Hn Hst Hsk. unfold parkIfImageSkew. apply does_call; [split; [apply Hr|by left]|]. intros out.
  set (h1 := h ++ _). assert (ready h1) as Hr1 by by apply ready_snoc. assert (grew h h1) as Hg1 by by apply grew_snoc.
  assert (no_write h1) as Hn1 by by apply no_write_snoc.
  destruct out as [text|e]; [|by left]. destruct (Contains_sub text skewRefusalLine) eqn:Ec; cbn [negb]; [|by left].
  apply does_call; [by split|]. intros now. set (h2 := h1 ++ _). assert (ready h2) as Hr2 by by apply ready_snoc.
  apply park_does; [done| |intros rev Hw h3 [Hp Ha]|intros e; by right].
  - split; [done|]. exists now, skewRetryAfter. split; [apply happened_now|]. split; [done|]. right. split; [done|]. exists s, text.
    split; [eapply grown; [|exact Hst]; by apply grew_snoc|]. split; [done|]. split; [apply happened_later, happened_now|done].
  - eapply does_bind; [apply closeSession_does; [done|done|]|by right].
    right. exists (parkedForRetry rec (Add now skewRetryAfter)), (Ok rev). split; [done|]. split; [done|]. left. split; [done|by exists rev].
Qed.

Lemma look_does expired h : brokered → ready h → no_write h → does (look_at_session rec expired) h (looked h).
Proof.
  intros Hb Hr Hn. unfold look_at_session. apply does_call; [by split; [apply Hr|]|]. intros st.
  set (h1 := h ++ _). assert (ready h1) as Hr1 by by apply ready_snoc. assert (grew h h1) as Hg1 by by apply grew_snoc.
  assert (no_write h1) as Hn1 by by apply no_write_snoc.
  set (st' := match st with Some s => if bool_decide _ then None else Some s | None => None end).
  assert (∀ s, st' = Some s → happened (OStatus (w_SessionID rec)) (Some s) h1) as Hst.
  { intros s E. subst st'. destruct st as [s'|]; [|done]. destruct (bool_decide _); [done|]. injection E as ->. apply happened_now. }
  clearbody st'.
  eapply does_bind with (R := λ v h', ready h' ∧ grew h h' ∧ no_write h' ∧ grew h1 h' ∨ v = skewHandled).
  { assert (ready h1 ∧ grew h h1 ∧ no_write h1 ∧ grew h1 h1) as Hh1 by (repeat (split; [done|]); apply grew_refl).
    destruct st' as [s|]; [|by left]. destruct (isSkewExit s) eqn:Es; [|by left].
    eapply wp_mono; [by apply (skew_does expired s); [..|apply Hst|]|]. intros v h' [(? & ? & ?)| ->]; [left|by right].
    split; [done|]. split; [by eapply (grew_trans h h1)|done]. }
  intros v h2 Hv. destruct v; [|done|done]. destruct Hv as [(Hr2 & Hg2 & Hn2 & Hg12)|?]; [|done].
  assert (∀ j (k : bool), (k = true → killed_at_deadline h2) → does (r ← stamped_end rec; Ret (Some (j, k, r))) h2 (looked h)) as Hstamp.
  { intros j k Hk. eapply does_bind; [by apply stamped_does|]. intros r h' (? & ? & ? & ? & ?). split; [done|]. split; [by eapply grew_trans|].
    split; [done|]. split; [done|]. split; [done|]. intros E. destruct (Hk E) as (s & Hs & Hx). exists s. split; [by eapply grown|done]. }
  assert (looked h (if expired then Some (false, false, rec) else None) h2) as Hwait.
  { destruct expired; [|done]. split; [done|]. split; [done|]. split; [done|]. split; [done|]. by split; [left|]. }
  destruct st' as [s|]; [|exact Hwait]. destruct (bool_decide _); [by apply Hstamp|].
  destruct (negb _); [exact Hwait|]. destruct (_ && _) eqn:Ek; apply Hstamp; [|done].
  intros _. apply andb_prop in Ek as [Ep%bool_decide_eq_true_1 Er%String.eqb_eq]. exists s. split; [|done].
  by apply (grown _ _ h1 h2), Hst.
Qed.

Lemma delete_does unwanted pods h r rev : window_over h → isLegacyGasCitySession (w_SessionID rec) = true →
  happened (OPutIf r (w_Revision rec)) (Ok rev) h → aside r h → does (delete_pods unwanted pods) h (λ _ _, True).
Proof.
  intros Hw Hl Hp Ha. enough (∀ h', grew h h' → does (delete_pods unwanted pods) h' (λ _ _, True)) as Hall by (apply Hall, grew_refl).
  assert (∀ h', grew h h' → isLegacyGasCitySession (w_SessionID rec) = true ∧ ∃ r rev, happened (OPutIf r (w_Revision rec)) (Ok rev) h' ∧ aside r h') as Hok.
  { intros h' Hg. split; [done|]. exists r, rev. split; [by eapply grown|by eapply aside_grown]. }
  induction pods as [|p pods IH]; intros h' Hg; [done|]. cbn [delete_pods].
  destruct (unwanted p); [|by apply IH]. split; [split; [by eapply window_grown|by apply Hok]|]. intros b _. by apply IH, grew_snoc.
Qed.
Lemma legacy_does h : brokered → ready h → isLegacyGasCitySession (w_SessionID rec) = true → does (parkLegacySession d rec) h (λ _ _, True).
Proof.
  intros Hb Hr Hl. unfold parkLegacySession. apply does_call; [by split|]. intros now. set (h1 := h ++ _).
  assert (ready h1) as Hr1 by by apply ready_snoc.
  apply park_does; [done| |intros rev Hw h2 [Hp Ha]|by intros e].
  - split; [done|]. exists now, legacyRetryAfter. split; [apply happened_now|]. split; [done|]. by left.
  - set (r := parkedForRetry rec _) in *.
    assert (∀ h', grew h2 h' → does (deleteLegacyPodsOf d (w_SessionID rec)) h' (λ _ _, True)) as Hdel.
    { intros h' Hg. unfold deleteLegacyPodsOf. destruct (s_LegacyPods d); [|done]. cbn [when].
      assert (window_over h') as Hw' by by eapply window_grown.
      apply does_call; [split; [exact Hw'|by left]|]. intros [pods|]; [|done].
      apply (delete_does _ _ _ r rev); [eapply window_grown; [apply grew_snoc, grew_refl|done]|done| |];
        [eapply grown; [by apply grew_snoc|done]|eapply aside_grown; [by apply grew_snoc|done]]. }
    eapply does_bind with (R := λ _ h', grew h2 h'); [|intros _ h' Hg; by apply Hdel].
    destruct (s_LegacyCloser d); [|apply grew_refl]. split; [split; [done|]; split; [done|]; by exists r, rev|]. intros b _. apply grew_snoc, grew_refl.
Qed.

Lemma sweep_does : (w_Trigger rec = TriggerPipelineFix → fx_State (w_PipelineFix rec) = "") → does (sweepRunning d rec) [] (λ _ _, True).
Proof.
  intros Hfix. unfold sweepRunning.
  assert (String.eqb (w_Trigger rec) TriggerPipelineFix && negb (String.eqb (fx_State (w_PipelineFix rec)) "") = false) as ->.
  { destruct (String.eqb_spec (w_Trigger rec) TriggerPipelineFix) as [E|]; [|done]. by rewrite (Hfix E). }
  split; [done|]. intros now _. cbn [mbind Prog_bind]. set (expired := reservationExpired rec now). set (h1 := [] ++ [Ev ONow now]).
  assert (calm h1 ∧ no_write h1) as [Hc1 Hn1] by (split; by apply Forall_singleton).
  assert (timed expired false h1) as Ht1 by (split; [intros E; exists now; by split; [left|]..|done]).
  destruct (_ && _); [done|].
  eapply does_bind with (R := λ (waiting : bool) h', waiting = false → ready h' ∧ grew h1 h' ∧ no_write h').
  - destruct (reslingWindowEnd rec) as [e|] eqn:Ee.
    + split; [done|]. intros t _. change ((t <? e) = false → ready (h1 ++ [Ev ONow t]) ∧ grew h1 (h1 ++ [Ev ONow t]) ∧ no_write (h1 ++ [Ev ONow t])). intros Hle%Z.ltb_ge.
      split; [|split; [apply grew_snoc, grew_refl|by apply no_write_snoc]].
      split; [by apply calm_snoc|]. intros e' He'. exists t. split; [apply happened_now|]. rewrite Ee in He'. injection He' as <-. done.
    + intros _. split; [|split; [apply grew_refl|done]]. split; [done|]. intros e He. congruence.
  - intros waiting h2 Hw. destruct waiting; [done|]. destruct (Hw eq_refl) as (Hr2 & Hg2 & Hn2).
    assert (timed expired false h2) as Ht2 by by eapply timed_grown.
    assert (ended_known rec h2) as He2 by by left.
    destruct (_ && _) eqn:Eb.
    + assert (brokered) as Hb.
      { apply andb_prop in Eb as [Ea Ei]. split; [by destruct (agentForTrigger _)|]. intros Ei'. by rewrite Ei' in Ei. }
      destruct (isLegacyGasCitySession (w_SessionID rec)) eqn:El; [by apply legacy_does|].
      eapply does_bind; [by apply look_does|]. intros [[[judged killed] r]|] h3 Hl; [|done].
      destruct Hl as (Hr3 & Hg3 & Hn3 & Hs3 & He3 & Hk3). apply judge_does; [done|done|done| |done].
      apply (timed_grown _ _ _ h3) in Ht2 as [Hin Hout _]; [by split|done].
    + by apply judge_does.
Qed.

(** C6. Whatever the world answers, each thing the sweep does for a running item, but
    a pipeline fix that is already open, is proper when it is done
    ([sweep_proper]): nothing but the clock is consulted while a re-sling's dispatch
    may be at work; the store is written only over the revision the pass read; an
    outcome is reported at most once, before anything else is changed, for the
    item's own attempt and reservation, and only for what it rests on: aborted on a
    closed issue; success on a batch that passed every gate or a marker in GitLab,
    and gate-failed on spend that meter has for the session up to its end, both
    only before the item's deadline; infra-failed on a clock past that deadline, a
    session killed at its own, an issue or an artifact that could not be read, a
    batch that could not be applied, or spend that meter did not have, had only from
    before the session's end, or had none of. The order is run again at most once,
    after meter said so and the record with its deadline was stored; a note says so
    only then; and a session is stopped only when meter has its outcome, the store
    took the item off it, or a fix it opened was to be held for verification and
    the store took that or answered that the item had changed since. *)
Theorem sweep_operations_proper tr :
  (w_Trigger rec = TriggerPipelineFix → fx_State (w_PipelineFix rec) = "") → runs (sweepRunning d rec) tr tt →
  ∀ pre (B : Type) (op : Op B) (b : B) post, tr = pre ++ Ev op b :: post → sweep_proper B op pre.
Proof.
  intros Hfix Hr pre B op b post E.
  by destruct (wp_history _ _ _ _ _ (sweep_does Hfix) Hr) as [_ Hall]; apply (Hall pre (Ev op b) post).
Qed.
End watched.

(** ** A pass over one item *)

(** The session left no batch, and cost tokens: the attempt failed at the gate,
    and meter has it tried again. *)
Definition failed_answers (B : Type) (op : Op B) : option B :=
  match op in Op B return option B with
  | ONow => Some 50
  | OStatus _ => Some (Some (Runtime.mkStatus Runtime.PhaseSucceeded "" 20 40 (Some 0)))
  | OIssueState _ _ => Some (Some "opened")
  | OOutput _ => Some (Ok "no batch")
  | OSpendSync => Some true
  | OCostSession _ => Some (Some (900, 60))
  | OOutcome _ => Some (Some (Meterapi.mkOutcomeResponse "escalate" "cloud-small"))
  | OPutIf _ _ => Some (Ok "v2")
  | OIssueNotes _ _ => Some (Some [sample_placeholder])
  | OUpdateNote _ _ _ _ => Some true
  | ORunOrder _ => Some true
  | OStop _ => Some (Ok tt)
  | _ => None
  end.
#[local] Instance no_decoder : BatchDecoder := {| decode _ := None |}.
#[local] Instance no_troubles : JsonTroubles := {| undecodable _ := OtherFailure; loose _ := None |}.
(** Times written in binary. *)
Fixpoint bits (p : positive) : string :=
  match p with xH => "" | xO p => String "0" (bits p) | xI p => String "1" (bits p) end.
Fixpoint unbits (s : string) : positive :=
  match s with EmptyString => xH | String c s => if Ascii.eqb c "0" then xO (unbits s) else xI (unbits s) end.
Lemma unbits_bits p : unbits (bits p) = p.
Proof. induction p as [p IH|p IH|]; cbn; congruence. Qed.
#[local] Program Instance binary_times : GoTimeText := {
  ParseRFC3339Nano s := Some (Zpos (unbits (string_drop 1 s)) - 1);
  FormatRFC3339Nano t := String "t" (bits (Z.to_pos (t + 1))) }.
Next Obligation. intros t Ht. cbn. rewrite unbits_bits. f_equal. lia. Qed.
Next Obligation. done. Qed.
Definition step_name (e : Event) : string :=
  match e with
  | Ev (OOutcome q) _ => Meterapi.o_Outcome q
  | Ev (OPutIf r rev) _ => "put over " +:+ rev
  | Ev (ORunOrder _) _ => "order"
  | Ev (OStop s) _ => "stop " +:+ s
  | Ev (OUpdateNote _ _ _ _) _ => "note"
  | _ => ""
  end.
Definition step_names (r : option (list Event * unit)) : option (list string) :=
  (λ x, List.filter (λ s, negb (String.eqb s "")) (map step_name x.1)) <$> r.
#[local] Abbreviation failed_run := (simulate failed_answers (sweepRunning sample_deps sample_item)).

Lemma sweep_operations_proper_witness :
  step_names failed_run = Some ["gate-failed"; "put over v1"; "note"; "order"; "stop gonk-triage-p84-i7-a1"] ∧
  ∃ tr, failed_run = Some (tr, tt) ∧
    ∀ pre (B : Type) (op : Op B) (b : B) post, tr = pre ++ Ev op b :: post → sweep_proper sample_deps sample_item B op pre.
Proof.
  assert (step_names failed_run = Some ["gate-failed"; "put over v1"; "note"; "order"; "stop gonk-triage-p84-i7-a1"]) as Hs
    by (vm_compute; reflexivity).
  split; [exact Hs|]. destruct failed_run as [[tr []]|] eqn:E; [|done]. exists tr. split; [done|].
  apply (sweep_operations_proper sample_deps sample_item tr); [done|]. exact (simulate_runs failed_answers _ tr tt E).
Defined.
