(* ===== verification/SweepRun.v ===== *)
(** * [cmd/gonk-gate]: the sweep over time

    That an item past its time is given its outcome at the next pass, that the
    order a re-sling ran does no more when its item is judged again, and that what
    a pass writes are the sweep's steps of [DispatchRace]. *)

From Stdlib Require Import Ascii.
From S2P Require Import Prelude.
From S2P Require Import GoStrings.
From S2P Require Import Trajectory.
From S2P Require Import Effects.
From S2P Require Import GoTime.
From S2P Require Import GoPath.
From S2P Require Import Gonkcfg.
From S2P Require Import Atags.
From S2P Require Import Pipefix.
From S2P Require Import RungOutcome.
From S2P Require Import Gate.
From S2P Require Import WorkStore.
From S2P Require Import GateProgs.
From S2P Require Import RetryFeedback.
From S2P Require Import DispatchArgs.
From S2P Require Import Dispatch.
From S2P Require Import DispatchRace.
From S2P Require Import Explain.
From S2P Require Import StatusNote.
From S2P Require Import BrokerApply.
From S2P Require Import Sweep.
From S2P Require Import SweepWatch.

(** ** Every failure has its sentence *)

Section sentences.
Context `{GoUnicode} `{GoLetters} `{MapRange} `{BatchDecoder} `{JsonTroubles} (d : sweepDeps).
#[local] Abbreviation ends p h Q := (wp anything (@any_answer) (@remember) p h Q).

Definition no_sentence : string := "it did not produce an answer I could accept".
Definition no_cause : string := "something outside the model went wrong".
Definition has_sentence (v : string) : Prop := attemptFailureText OutcomeGateFailed v "" ≠ no_sentence.

Lemma ends_any {A : Type} (p : Prog A) h : ends p h (λ _ _, True).
Proof. revert h. induction p as [a|B op k IH]; intros h; [done|]. split; [done|]. intros b _. apply IH. Qed.
Lemma ends_bind {A B : Type} (p : Prog A) (f : A → Prog B) h (R : A → Prop) Q :
  ends p h (λ a _, R a) → (∀ a h', R a → ends (f a) h' Q) → ends (p ≫= f) h Q.
Proof. intros Hp Hf. apply wp_bind. eapply wp_mono; [exact Hp|]. auto. Qed.
Lemma ends_call {B C : Type} (op : Op B) (f : B → Prog C) h Q : (∀ b h', ends (f b) h' Q) → ends (call op ≫= f) h Q.
Proof. intros Hf. split; [done|]. intros b _. apply Hf. Qed.

Lemma trajectory_sentence rec agent batch h : ends (check_trajectory d rec agent batch) h (λ v _, v = "" ∨ has_sentence v).
Proof.
  unfold check_trajectory. destruct (_ || _); [by left|]. apply ends_call. intros [policy|e] h1; [|by left].
  destruct (Trajectory.Empty policy) eqn:Ee; [by left|]. apply ends_call. intros reply h2. cbn [wp]. unfold checkTrajectory.
  destruct (String.eqb _ _); [by left|]. rewrite Ee. destruct reply as [[view|]|e]; [|by left..].
  destruct (negb _); [by left|]. destruct (negb _); [by left|]. right. unfold has_sentence. cbn. discriminate.
Qed.
Definition sentenced (o : applied) : Prop := ∀ v, o = Refused v → has_sentence v.
Definition gate_sentence (r : (applied * WorkItem) + string) : Prop := match r with inl (o, _) => sentenced o | inr _ => True end.
Lemma gates_sentence agent rec batch h : ends (issue_gates d agent rec batch) h (λ r _, gate_sentence r).
Proof.
  assert (∀ gate r', has_sentence gate → gate_sentence (inl (Refused gate, r'))) as Hgate by (intros gate r' Hs v [= <-]; exact Hs).
  unfold issue_gates. apply ends_call. intros [shape|] h1; [|by intros v].
  destruct (shape_Validate batch shape) as [[]|]; [by apply Hgate..|].
  destruct (negb _); [by apply Hgate|]. destruct (negb _); [by apply Hgate|]. destruct (negb _); [by apply Hgate|].
  eapply ends_bind; [apply trajectory_sentence|]. intros v h2 Hv. destruct (String.eqb_spec v "") as [|Hne]; cbn [negb].
  - eapply ends_bind; [apply ends_any|]. intros prefix h3 _. by destruct (first_of _ _); [apply Hgate|].
  - apply Hgate. by destruct Hv.
Qed.
Lemma refused_sentence agent rec h : ownChainAgent agent = false → ends (applyBrokerBatch d agent rec) h (λ r _, sentenced r.1).
Proof.
  intros Hown. assert (∀ v, has_sentence v → sentenced (Refused v)) as Hr by (intros v Hs v' [= <-]; exact Hs).
  unfold applyBrokerBatch. rewrite Hown. destruct (_ && _); [done|]. apply ends_call. intros [text|[]] h1; [| |done].
  2: { apply Hr. unfold has_sentence. cbn. discriminate. }
  destruct (isUnreadableTranscript text); [done|]. destruct (extractBatch text) as [raw|]; [|by apply Hr].
  destruct (ParseBatch raw) as [batch|perr]; [|by apply Hr].
  eapply ends_bind; [apply gates_sentence|]. intros [[o r']|prefix] h2 Hg; [exact Hg|].
  eapply ends_bind with (R := λ res, sentenced res.1); [|intros res h3 Hres; exact Hres].
  unfold write_batch. eapply ends_bind; [apply ends_any|]. intros [url|] h3 _; [|done].
  eapply ends_bind; [apply ends_any|]. intros [claimed|] h4 _; [|done].
  eapply ends_bind; [apply ends_any|]. intros _ h5 _. eapply ends_bind; [apply ends_any|]. intros _ h6 _.
  eapply ends_bind; [apply ends_any|]. intros _ h7 _. done.
Qed.

(** C15. Whatever an issue agent's batch was refused for, and whatever made an attempt
    fail without the model's doing, the reporter's note has a sentence of its own
    for it, and not the one for what is not known. *)
Theorem failures_have_sentences :
  (∀ agent rec tr v rec', ownChainAgent agent = false → runs (applyBrokerBatch d agent rec) tr (Refused v, rec') →
     attemptFailureText OutcomeGateFailed v "" ≠ no_sentence) ∧
  (∀ s expired killed unknown v, attemptFailureText OutcomeInfraFailed v (infraFailedCause s expired killed unknown) ≠ no_cause).
Proof.
  split.
  - intros agent rec tr v rec' Hown Hr. destruct (wp_history _ _ _ _ _ (refused_sentence agent rec [] Hown) Hr) as [Hs _]. exact (Hs v eq_refl).
  - intros s expired killed unknown v. unfold infraFailedCause. destruct killed; [by vm_compute|]. destruct expired; [by vm_compute|].
    destruct (Gate.ArtifactUnknown s); [|destruct (SpendStale s); by vm_compute]. destruct (String.eqb unknown ""); [by vm_compute|].
    unfold no_cause. cbn. discriminate.
Qed.
End sentences.

(** ** Past its time *)

Section late.
Context `{GoUnicode} `{GoLetters} `{MapRange} `{BatchDecoder} `{JsonTroubles} `{GoTimeText} (d : sweepDeps) (rec : WorkItem).

Definition past (now : Time) : Prop := runningDeadline rec < now ∧ ∀ e, reslingWindowEnd rec = Some e → e <= now.
(** Every reading of the clock is past the item's deadline and the re-sling's window. *)
Definition late_answer (B : Type) (op : Op B) : B → list Event → Prop :=
  match op in Op B return B → list Event → Prop with ONow => λ now _, past now | _ => λ _ _, True end.
#[local] Abbreviation late p h Q := (wp anything late_answer (@remember) p h Q).

(** The item's outcome is reported, or the store is asked to take its record. *)
Definition tells {B : Type} (op : Op B) : bool := match op with OOutcome _ | OPutIf _ _ => true | _ => false end.
Definition told_late (h : list Event) : Prop := ∃ (B : Type) (op : Op B) (b : B), happened op b h ∧ tells op = true.

Lemma late_bind {A B : Type} (p : Prog A) (f : A → Prog B) h R Q :
  late p h R → (∀ a h', R a h' → late (f a) h' Q) → late (p ≫= f) h Q.
Proof. intros Hp Hf. apply wp_bind. eapply wp_mono; [exact Hp|exact Hf]. Qed.
Lemma late_call {B C : Type} (op : Op B) (f : B → Prog C) h Q :
  (∀ b, late_answer B op b h → late (f b) (h ++ [Ev op b]) Q) → late (call op ≫= f) h Q.
Proof. by split. Qed.
Lemma late_any {A : Type} (p : Prog A) h : late p h (λ _ _, True).
Proof. revert h. induction p as [a|B op k IH]; intros h; [done|]. split; [done|]. intros b _. apply IH. Qed.
Lemma late_told {A : Type} (p : Prog A) h : told_late h → late p h (λ _ h', told_late h').
Proof.
  revert h. induction p as [a|B op k IH]; intros h Hs; [done|]. split; [done|]. intros b _. apply IH.
  destruct Hs as (B' & op' & b' & Ho & Ht). exists B', op', b'. split; [by apply happened_later|done].
Qed.
Lemma late_tells {B C : Type} (op : Op B) (f : B → Prog C) h : tells op = true → late (call op ≫= f) h (λ _ h', told_late h').
Proof. intros Ht. apply late_call. intros b _. apply late_told. exists B, op, b. split; [apply happened_now|done]. Qed.

Lemma late_report r s expired killed rejected unknown h : late (report d r s expired killed rejected unknown) h (λ _ h', told_late h').
Proof. by apply late_tells. Qed.
Lemma late_artifact r judged h : late (find_artifact d r judged) h (λ a h', a = None → told_late h').
Proof.
  unfold find_artifact.
  assert (late (p ← artifactPresent d (artifactKindForTrigger (w_Trigger r)) (w_ProjectID r) (w_IssueIID r) (w_BeadID r);
     Ret (Some (mkArtifact p "" "artifact check could not read the forge" r))) h (λ a h', a = None → told_late h')) as Hp
    by (eapply late_bind; [apply late_any|done]).
  destruct (agentForTrigger (w_Trigger r)) as [agent|]; [|exact Hp].
  destruct (negb _); [|exact Hp]. destruct judged; cbn [negb]; [|done].
  eapply late_bind; [apply late_any|]. intros [o r'] h' _. destruct o; try done.
  destruct (_ && _); [|done]. eapply late_bind; [by apply late_tells|]. intros u h2 Ht _. exact Ht.
Qed.
Lemma late_judge r judged killed h : late (judge d r judged true killed) h (λ _ h', told_late h').
Proof.
  unfold judge. eapply late_bind; [apply late_any|]. intros closed h1 _.
  destruct closed as [[]|]; [by apply late_report| |by apply late_report].
  eapply late_bind; [by apply late_artifact|]. intros [a|] h2 Ha; [|by apply Ha]. cbn [orb negb andb].
  change (Ret (0, false) ≫= ?f) with (f (0, false)). by apply late_report.
Qed.
Lemma late_look h : late (look_at_session rec true) h (λ l h', l = None → told_late h').
Proof.
  unfold look_at_session. apply late_call. intros st _.
  set (st' := match st with Some s => if bool_decide _ then None else Some s | None => None end). clearbody st'.
  eapply late_bind with (R := λ v h', v = notSkew ∨ told_late h').
  { destruct st' as [s|]; [|by left]. destruct (isSkewExit s); [|by left]. unfold parkIfImageSkew.
    apply late_call. intros [text|e] _; [|by left]. destruct (negb _); [by left|]. apply late_call. intros now _.
    eapply wp_mono; [by apply late_tells|]. by right. }
  assert (∀ (j k : bool) h', late (r ← stamped_end rec; Ret (Some (j, k, r))) h' (λ l h', l = None → told_late h')) as Hst
    by (intros j k h'; eapply late_bind; [apply late_any|done]).
  intros v h1 [->|Ht]; [|eapply wp_mono; [by apply late_told|by intros]].
  destruct st' as [s|]; [|done]. destruct (bool_decide _); [apply Hst|]. destruct (negb _); [done|]. destruct (_ && _); apply Hst.
Qed.
Lemma late_sweep : (w_Trigger rec = TriggerPipelineFix → fx_State (w_PipelineFix rec) = "") →
  late (sweepRunning d rec) [] (λ _ h, told_late h).
Proof.
  intros Hfix. unfold sweepRunning.
  assert (String.eqb (w_Trigger rec) TriggerPipelineFix && negb (String.eqb (fx_State (w_PipelineFix rec)) "") = false) as ->.
  { destruct (String.eqb_spec (w_Trigger rec) TriggerPipelineFix) as [E|]; [|done]. by rewrite (Hfix E). }
  apply late_call. intros now [Hnow _]. assert (reservationExpired rec now = true) as -> by (unfold reservationExpired, After; lia).
  rewrite andb_false_r. eapply late_bind with (R := λ w _, w = false).
  { destruct (reslingWindowEnd rec) as [e|] eqn:Ee; [|done]. apply late_call. intros t [_ Hw]. specialize (Hw e Ee). cbn. unfold Before. lia. }
  intros w h ->. destruct (isSome _ && _); [|by apply late_judge].
  destruct (isLegacyGasCitySession _); [unfold parkLegacySession; apply late_call; intros now' _; by apply late_tells|].
  eapply late_bind; [apply late_look|]. intros [[[judged killed] r]|] h' Hl; [apply late_judge|by apply Hl].
Qed.

Lemma late_run h tr : (∀ now, In (Ev ONow now) tr → past now) → honest_run late_answer (@remember) h tr.
Proof.
  revert h. induction tr as [|[B op b] tr IH]; intros h Hn; cbn; [done|]. split; [|apply IH; intros; apply Hn; by right].
  destruct op; try done; cbn. apply Hn; by left.
Qed.

(** What rests on being in time does not rest on anything now. *)
Lemma past_not_in_time h : (∀ now, In (Ev ONow now) h → past now) → ¬ in_time rec h.
Proof. intros Hn (now & Hin & He). destruct (Hn now Hin) as [Hp _]. unfold reservationExpired, After in He. lia. Qed.
Lemma rests_late o h : (∀ now, In (Ev ONow now) h → past now) → rests_on d rec o h →
  (o = OutcomeAborted ∧ closed_by_hand rec h) ∨ (o = OutcomeInfraFailed ∧ not_the_model d rec h).
Proof.
  intros Hn. pose proof (past_not_in_time h Hn) as Hno.
  intros [Ha|[(_ & Ht & _)|[(_ & Ht & _)|Hi]]]; [by left|by destruct Hno|by destruct Hno|by right].
Qed.

(** How an item past its time ends the pass. *)
Definition outcome_late (h : list Event) : Prop := ∃ pre o resp post, h = pre ++ Ev (OOutcome (outcome_request rec o)) resp :: post ∧
  ((o = OutcomeAborted ∧ closed_by_hand rec pre) ∨ (o = OutcomeInfraFailed ∧ not_the_model d rec pre)).
Definition taken_late (h : list Event) : Prop := ∃ pre r w post, h = pre ++ Ev (OPutIf r (w_Revision rec)) w :: post ∧
  (aside rec r pre ∨ held_fix rec r pre).

(** C9. An item past its deadline, and past the window of a re-sling, is not waited on
    again: whatever the session runtime, GitLab, the store and meter answer, the
    pass reports an outcome of it, for its own attempt and reservation, and none
    that meter would count against the model; or else it asks the store, over the
    revision it read, to put the item aside, because its session is the older
    scheduler's or ended by saying that its image refused it, or to hold the fix
    that its session opened, which has its own end. An item with no such session
    and no fix has its outcome reported. (A fix already open is not this path's.) *)
Theorem late_item_gets_its_outcome tr : (w_Trigger rec = TriggerPipelineFix → fx_State (w_PipelineFix rec) = "") →
  runs (sweepRunning d rec) tr tt → (∀ now, In (Ev ONow now) tr → past now) →
  (outcome_late tr ∨ taken_late tr) ∧
  (w_Trigger rec ≠ TriggerPipelineFix → (agentForTrigger (w_Trigger rec) ≠ None → isLegacyGasCitySession (w_SessionID rec) = false) →
   (∀ text, In (Ev (OOutput (w_SessionID rec)) (Ok text)) tr → Contains_sub text skewRefusalLine = false) → outcome_late tr).
Proof.
  intros Hfix Hr Hn. destruct (wp_runs _ _ _ _ _ _ _ _ (late_sweep Hfix) Hr (late_run [] tr Hn)) as [Hs _].
  rewrite play_remember in Hs. destruct Hs as (B & op & b & Hin & Ht). cbn [app] in Hin.
  assert (outcome_late tr ∨ taken_late tr) as Hends; [|split; [exact Hends|]].
  - pose proof (wp_history _ _ _ _ _ (sweep_does d rec Hfix) Hr) as [_ Hall].
    assert (∀ pre o resp post, tr = pre ++ Ev (OOutcome (outcome_request rec o)) resp :: post → outcome_late tr) as Hout.
    { intros pre o resp post E. exists pre, o, resp, post. split; [done|]. destruct (Hall pre _ post E) as (_ & _ & o' & Eo & Hon).
      assert (o' = o) as -> by (symmetry; exact (f_equal Meterapi.o_Outcome Eo)). apply rests_late in Hon; [done|].
      intros now Hnow. apply Hn. rewrite E, in_app_iff. by left. }
    assert (∀ ns pre h post, tr = pre ++ h :: post → verdict rec ns pre → outcome_late tr) as Hverdict.
    { intros ns pre e post E (o & resp & Ho & _). apply in_split in Ho as (pre1 & post1 & ->). apply (Hout pre1 o (Some resp) (post1 ++ e :: post)).
      by rewrite E, <- app_assoc. }
    apply in_split in Hin as (pre & post & E). destruct op; try done.
    + destruct (Hall pre _ post E) as (_ & -> & [(_ & Htk)|(_ & [[Hv _]|[Hv _]])]);
        [right; by exists pre, r, b, post|left; by eapply Hverdict|left; by eapply Hverdict].
    + destruct (Hall pre _ post E) as (_ & _ & o & -> & _). left. by eapply Hout.
  - intros Htr Hleg Hsk. destruct Hends as [|(pre & r & w & post & E & Htk)]; [done|]. exfalso. destruct Htk as [Ha|Hf].
    + destruct Ha as ([Hag _] & now & delta & _ & _ & [[Hl _]|(_ & s & text & _ & _ & Ho & Hc)]); [by rewrite (Hleg Hag) in Hl|].
      rewrite (Hsk text) in Hc; [done|]. rewrite E, in_app_iff. by left.
    + destruct Hf as (_ & Hag & _). revert Hag. unfold agentForTrigger.
      destruct (String.eqb _ _); [done|]. destruct (String.eqb _ _); [done|]. destruct (String.eqb _ _); [done|].
      by destruct (String.eqb_spec (w_Trigger rec) TriggerPipelineFix).
Qed.
End late.

(** ** The window of a re-sling *)

Definition is_clock {B : Type} (op : Op B) : bool := match op with ONow => true | _ => false end.

Section window.
Context `{GoUnicode} `{GoLetters} `{MapRange} `{BatchDecoder} `{JsonTroubles} `{GoTimeText} `{PromptTexts}.

Lemma fire_by_stored r now rev : w_ReslingFireBy (stampWrite r now rev) = w_ReslingFireBy r.
Proof. unfold stampWrite, stampWriteTime. by destruct (_ && _). Qed.

Definition after_start (start : Time) (B : Type) (op : Op B) : B → list Event → Prop :=
  match op in Op B return B → list Event → Prop with ONow => λ now _, start <= now | _ => λ _ _, True end.

(** A dispatch that starts after its order's deadline looks at the clock, and ends. *)
Lemma late_start d fired start : d_Args d = dispatchArgsFrom (env_of (refire_vars fired)) → numbers_ok fired →
  0 < w_ReslingFireBy fired < year_10000 → w_ReslingFireBy fired < start →
  wp anything (after_start start) (@remember) (runDispatch d) [] (λ code h, code = 0 ∧ ∃ now, h = [Ev ONow now]).
Proof.
  intros Ha Hn Hf Hs. unfold runDispatch, dispatch_checks. rewrite Ha, (refire_read fired Hn). cbn [a_FireBy a_Trigger].
  assert (IsZero (w_ReslingFireBy fired) = false) as -> by (unfold IsZero; lia).
  destruct (String.eqb_spec (FormatRFC3339Nano (w_ReslingFireBy fired)) "") as [E|_]; [by apply format_nonempty in E|].
  split; [done|]. intros now Hnow. cbn in Hnow. cbn [mbind Prog_bind].
  rewrite refuseLateFire_printed by lia. unfold After. destruct (Z.ltb_spec (w_ReslingFireBy fired) now); [|lia].
  cbn. split; [done|]. by exists now.
Qed.
Lemma after_start_run start h tr : (∀ now, In (Ev ONow now) tr → start <= now) → honest_run (after_start start) (@remember) h tr.
Proof.
  revert h. induction tr as [|[B op b] tr IH]; intros h Hn; cbn; [done|]. split; [|apply IH; intros; apply Hn; by right].
  destruct op; try done. cbn. apply Hn. by left.
Qed.

(** C10. When the sweep does anything about an item it re-slung, the order it ran then
    is over: a dispatch of that order has been killed by then, if it started in
    time, with the time Gas City allows it, the grace between its signals and the
    margin for the clock; and one that starts late reads the clock and does
    nothing else. *)
Theorem judged_after_its_refires d d' fired stamp rev start tr pre (B : Type) (op : Op B) (b : B) post :
  let rec := stampWrite fired stamp rev in
  (w_Trigger rec = TriggerPipelineFix → fx_State (w_PipelineFix rec) = "") →
  numbers_ok fired → 0 < w_ReslingFireBy fired < year_10000 →
  d_Args d' = dispatchArgsFrom (env_of (refire_vars fired)) →
  runs (sweepRunning d rec) tr tt → tr = pre ++ Ev op b :: post → is_clock op = false →
  (∃ now, In (Ev ONow now) pre ∧ start + dispatchOrderTimeout + gcKillGrace + wallClockMargin <= now) ∨
  (∀ tr' code, runs (runDispatch d') tr' code → (∀ now, In (Ev ONow now) tr' → start <= now) →
     code = 0 ∧ ∃ now, tr' = [Ev ONow now]).
Proof.
  intros rec Hfix Hn Hf Ha Hr E Hop. destruct (Z.le_gt_cases start (w_ReslingFireBy fired)) as [Hle|Hgt].
  - left. destruct (wp_history _ _ _ _ _ (sweep_does d rec Hfix) Hr) as [_ Hall]. destruct (Hall pre _ post E) as [Hw _].
    assert (window_over rec pre) as Hw' by (by destruct op). clear Hw.
    destruct (Hw' (Add (w_ReslingFireBy fired) (dispatchOrderTimeout + gcKillGrace + wallClockMargin))) as (now & Hnow & Hend).
    + unfold reslingWindowEnd. assert (w_ReslingFireBy rec = w_ReslingFireBy fired) as -> by apply fire_by_stored.
      by assert (IsZero (w_ReslingFireBy fired) = false) as -> by (unfold IsZero; lia).
    + exists now. split; [done|]. unfold Add in Hend. lia.
  - right. intros tr' code Hr' Hnow.
    destruct (wp_runs _ _ _ _ _ _ _ _ (late_start d' fired start Ha Hn Hf ltac:(lia)) Hr' (after_start_run start [] tr' Hnow)) as [HQ _].
    by rewrite play_remember in HQ.
Qed.
End window.

(** ** A whole pass *)

Section pass.
Context `{GoUnicode} `{GoLetters} `{MapRange} `{BatchDecoder} `{JsonTroubles} `{GoTimeText} (d : sweepDeps).

Definition was_listed (st : WorkState) (p : WorkItem) (h : list Event) : Prop := ∃ recs, happened (OList st) (Ok recs) h ∧ p ∈ recs.
Definition names_session (s : string) (recs : list WorkItem) : Prop := s ≠ "" ∧ ∃ p, p ∈ recs ∧ w_SessionID p = s.
(** No item that may have a session names this one, and it began, or ended, long ago. *)
Definition stale_session (s : string) (h : list Event) : Prop :=
  ∃ running pending st now since, happened (OList StateRunning) (Ok running) h ∧ happened (OList StatePendingPrompt) (Ok pending) h ∧
    ¬ names_session s running ∧ ¬ names_session s pending ∧ happened (OStatus s) (Some st) h ∧ happened ONow now h ∧
    (since = Runtime.FinishedAt st ∨ Runtime.FinishedAt st = 0 ∧ since = Runtime.StartedAt st) ∧ since ≠ 0 ∧
    since + staleSessionAfter <= now ∧
    (HasPrefix s ("gonk-" +:+ pipefixAgent +:+ "-") = true → since + staleFixSessionAfter <= now).

Definition pass_proper (B : Type) (op : Op B) (h : list Event) : Prop :=
  match op with
  | OPutIf r i => ∃ st p, was_listed st p h ∧ i = w_Revision p ∧ w_BeadAnchor r = w_BeadAnchor p ∧ w_ReservationID r = w_ReservationID p ∧
      ((st = StateRunning ∧ w_State r ∈ [StateParked; StateDone; w_State p]) ∨
       (st = StatePendingPrompt ∧ w_State r = StateRunning ∧ ∃ now, happened ONow now h ∧ w_UpdatedAt p + pendingPromptGrace <= now))
  | OOutcome q => ∃ p o, was_listed StateRunning p h ∧ q = outcome_request p o
  | OStop s => (∃ p, was_listed StateRunning p h ∧ s = w_SessionID p) ∨ stale_session s h
  | OPut _ | OStart _ | ODecide _ => False
  | _ => True
  end.
#[local] Abbreviation passes p h Q := (wp pass_proper (@any_answer) (@remember) p h Q).

Lemma passes_grew {A : Type} (p : Prog A) h Q : passes p h Q → passes p h (λ a h', Q a h' ∧ grew h h').
Proof.
  intros Hp. eapply wp_within with (I := grew h); [|exact Hp|apply grew_refl].
  intros B op h' Ha Hg. split; [exact Ha|]. intros b _. by apply grew_snoc.
Qed.
Lemma passes_bind {A B : Type} (p : Prog A) (f : A → Prog B) h R Q :
  passes p h R → (∀ a h', R a h' → grew h h' → passes (f a) h' Q) → passes (p ≫= f) h Q.
Proof. intros Hp Hf. apply wp_bind. eapply wp_mono; [by apply passes_grew|]. intros a h' [Ha Hg]. by apply Hf. Qed.
Lemma passes_call {B C : Type} (op : Op B) (f : B → Prog C) h Q :
  pass_proper B op h → (∀ b, passes (f b) (h ++ [Ev op b]) Q) → passes (call op ≫= f) h Q.
Proof. intros Hr Hf. split; [done|]. intros b _. exact (Hf b). Qed.

Lemma passes_each {A : Type} (f : A → Prog unit) l h :
  (∀ x h', x ∈ l → grew h h' → passes (f x) h' (λ _ _, True)) → passes (each f l) h (λ _ _, True).
Proof.
  revert h. induction l as [|x l IH]; intros h Hf; [done|]. cbn [each]. eapply passes_bind; [apply Hf; [by left|apply grew_refl]|].
  intros _ h' _ Hg. apply IH. intros y h2 Hy Hg2. apply Hf; [by right|by eapply grew_trans].
Qed.

Lemma listed_grown st p h h' : grew h h' → was_listed st p h → was_listed st p h'.
Proof. intros Hg (recs & Hr & Hp). exists recs. split; [by eapply grown|done]. Qed.
Lemma listed_now st recs p h : p ∈ recs → was_listed st p (h ++ [Ev (OList st) (Ok recs)]).
Proof. intros Hp. exists recs. split; [apply happened_now|done]. Qed.

(** What an item's part of the pass does is proper in the pass. *)
Lemma parked_fields p t : w_BeadAnchor (parkedForRetry p t) = w_BeadAnchor p ∧ w_ReservationID (parkedForRetry p t) = w_ReservationID p ∧
  w_State (parkedForRetry p t) = StateParked.
Proof. done. Qed.
Lemma item_fields p r : same_item p r → w_BeadAnchor r = w_BeadAnchor p ∧ w_ReservationID r = w_ReservationID p ∧ w_State r = w_State p.
Proof. intros Hs. split; [by apply (same_field p w_BeadAnchor)|]. split; [by apply (same_field p w_ReservationID)|by apply (same_field p w_State)]. Qed.

Lemma sweep_in_pass p (B : Type) (op : Op B) h0 h : was_listed StateRunning p h0 → sweep_proper d p B op h → pass_proper B op (h0 ++ h).
Proof.
  intros Hl [_ Hp]. assert (was_listed StateRunning p (h0 ++ h)) as Hl' by (eapply listed_grown; [by exists h|done]).
  destruct op; try exact I; cbn in Hp.
  - destruct Hp as [Hp|[(_ & Hp & _)|Hp]]; done.
  - destruct Hp as [-> Hp]. exists StateRunning, p. split; [done|]. split; [done|].
    destruct Hp as [(_ & [Ha|Hh])|(_ & [(_ & r' & Hs & ->)|(_ & r' & now & Hs & _ & ->)])].
    + destruct Ha as (_ & now & delta & _ & -> & _). destruct (parked_fields p (Add now delta)) as (-> & -> & ->).
      split; [done|]. split; [done|]. left. split; [done|]. set_solver.
    + destruct Hh as (Hs & _). destruct (item_fields p r Hs) as (-> & -> & ->). split; [done|]. split; [done|]. left. split; [done|]. set_solver.
    + destruct (item_fields p r' Hs) as (E1 & E2 & E3). split; [exact E1|]. split; [exact E2|]. left. split; [done|]. cbn. set_solver.
    + destruct (item_fields p r' Hs) as (E1 & E2 & E3). split; [exact E1|]. split; [exact E2|]. left. split; [done|].
      change (w_State (reslung r' now)) with (w_State r'). rewrite E3. set_solver.
  - destruct Hp as [Hp|[(_ & Hp & _)|Hp]]; done.
  - destruct Hp as (_ & o & -> & _). by exists p, o.
  - destruct Hp as [Hp|[(_ & Hp & _)|Hp]]; done.
  - destruct Hp as (-> & _). left. by exists p.
Qed.

Lemma running_in_pass p h : was_listed StateRunning p h → passes (sweepRunning d p) h (λ _ _, True).
Proof.
  intros Hl. destruct (String.eqb (w_Trigger p) TriggerPipelineFix && negb (String.eqb (fx_State (w_PipelineFix p)) "")) eqn:Hfix.
  - unfold sweepRunning. rewrite Hfix. by split.
  - assert (w_Trigger p = TriggerPipelineFix → fx_State (w_PipelineFix p) = "") as Hf.
    { intros E. rewrite E, String.eqb_refl in Hfix. cbn in Hfix. apply negb_false_iff in Hfix. by apply String.eqb_eq. }
    pose proof (wp_after _ _ h [] _ (sweep_does d p Hf)) as Hw. rewrite app_nil_r in Hw.
    eapply wp_mono; [eapply wp_within with (I := λ _, True); [|exact Hw|done]|done].
    intros B op h' (h1 & -> & Hp) _. split; [by apply (sweep_in_pass p)|done].
Qed.

Lemma reclaim_in_pass p now h : was_listed StatePendingPrompt p h → happened ONow now h → passes (reclaimPendingPrompt p now) h (λ _ _, True).
Proof.
  intros Hl Hn. unfold reclaimPendingPrompt. destruct (IsZero _); [done|].
  destruct (Z.ltb_spec (Sub now (w_UpdatedAt p)) pendingPromptGrace) as [|Hge]; [done|]. split; [|done].
  exists StatePendingPrompt, p. split; [done|]. split; [done|]. split; [done|]. split; [done|]. right. split; [done|]. split; [done|].
  exists now. split; [done|]. assert (pendingPromptGrace = 300000000000) as Eg by done. unfold Sub, MinInt64, MaxInt64 in Hge. lia.
Qed.

Lemma not_named s recs : contains (names_of recs) s = false → ¬ names_session s recs.
Proof.
  intros Hc (Hne & p & Hp & <-). apply contains_false in Hc. apply Hc. unfold names_of. apply list_elem_of_In, filter_In.
  split; [by apply in_map, list_elem_of_In|]. by apply negb_true_iff, String.eqb_neq.
Qed.
Lemma not_claimed s l1 l2 : contains (l1 ++ l2) s = false → contains l1 s = false ∧ contains l2 s = false.
Proof. rewrite !contains_false, elem_of_app. tauto. Qed.

Lemma claimed_does h : passes claimed_sessions h (λ c h', ∀ names, c = Some names → ∃ running pending,
  happened (OList StateRunning) (Ok running) h' ∧ happened (OList StatePendingPrompt) (Ok pending) h' ∧ names = names_of running ++ names_of pending).
Proof.
  unfold claimed_sessions. apply passes_call; [done|]. intros [running|e]; [|done]. apply passes_call; [done|]. intros [pending|e]; [|done].
  intros names [= <-]. exists running, pending. split; [apply happened_later, happened_now|]. split; [apply happened_now|done].
Qed.

Lemma stop_does claimed now s h running pending : happened (OList StateRunning) (Ok running) h →
  happened (OList StatePendingPrompt) (Ok pending) h → happened ONow now h → claimed = names_of running ++ names_of pending →
  passes (stop_if_stale claimed now s) h (λ _ _, True).
Proof.
  intros Hr Hp Hn ->. unfold stop_if_stale. destruct (contains _ s) eqn:Hc; [done|]. apply not_claimed in Hc as [Hc1 Hc2].
  apply passes_call; [done|]. intros [st|]; [|done]. destruct (bool_decide _); [done|].
  destruct (IsZero (if IsZero (Runtime.FinishedAt st) then _ else _) || too_young s _) eqn:Ey; [done|]. apply orb_false_elim in Ey as [Ez Ey].
  split; [|done]. right. set (since := if IsZero (Runtime.FinishedAt st) then Runtime.StartedAt st else Runtime.FinishedAt st) in *.
  exists running, pending, st, now, since. split; [by apply happened_later|]. split; [by apply happened_later|].
  split; [by apply not_named|]. split; [by apply not_named|]. split; [apply happened_now|]. split; [by apply happened_later|].
  split. { unfold since, IsZero. destruct (Z.eqb_spec (Runtime.FinishedAt st) 0) as [->|]; auto. }
  split; [unfold IsZero in Ez; lia|]. unfold too_young in Ey. apply orb_false_elim in Ey as [E1 E2].
  assert (staleSessionAfter = 7200000000000 ∧ staleFixSessionAfter = 28800000000000) as [Ea Eb] by (split; vm_compute; reflexivity).
  rewrite Ea in *. rewrite Eb in *. unfold Sub, MinInt64, MaxInt64 in *. split; [lia|]. intros Hfix. rewrite Hfix in E2. cbn [andb] in E2. lia.
Qed.
Lemma reap_does h : passes reapStaleSessions h (λ _ _, True).
Proof.
  unfold reapStaleSessions. eapply passes_bind; [apply claimed_does|]. intros [claimed|] h1 Hc _; [|done].
  destruct (Hc claimed eq_refl) as (running & pending & Hr & Hp & E).
  apply passes_call; [done|]. intros [handles|]; [|done]. apply passes_call; [done|]. intros now.
  apply passes_each. intros s h' _ Hg. apply (stop_does _ _ _ _ running pending); [| | |done].
  1,2: eapply grown; [exact Hg|]; by apply happened_later, happened_later. eapply grown; [exact Hg|]. apply happened_now.
Qed.
Lemma pods_does unwanted pods h : passes (delete_pods unwanted pods) h (λ _ _, True).
Proof. revert h. induction pods as [|p pods IH]; intros h; [done|]. cbn [delete_pods]. destruct (unwanted p); [|apply IH]. split; [done|]. intros b _. apply IH. Qed.
Lemma legacy_pods_does h : passes (reapLegacyGasCityPods d) h (λ _ _, True).
Proof.
  unfold reapLegacyGasCityPods. destruct (s_LegacyPods d); [|done]. cbn [when]. eapply passes_bind; [apply claimed_does|].
  intros [claimed|] h1 _ _; [|done]. apply passes_call; [done|]. intros [pods|]; [|done]. apply pods_does.
Qed.

Lemma pass_does h : passes (runSweep d) h (λ _ _, True).
Proof.
  unfold runSweep. apply passes_call; [done|]. intros [running|e]; [|done].
  eapply passes_bind.
  { apply passes_each. intros p h' Hp Hg. apply running_in_pass. eapply listed_grown; [exact Hg|by apply listed_now]. }
  intros _ h1 _ _. apply passes_call; [done|]. intros []. apply passes_call; [done|]. intros [parked|e]; [|done].
  apply passes_call; [done|]. intros now. set (h2 := _ ++ [Ev ONow now]).
  eapply passes_bind.
  { apply passes_each. intros p h' _ _. unfold unpark. destruct (negb _); [|done]. by split. }
  intros _ h3 _ Hg3. apply passes_call; [done|]. intros [pending|e]; [|done].
  eapply passes_bind.
  { apply passes_each. intros p h' Hp Hg. apply reclaim_in_pass; [eapply listed_grown; [exact Hg|by apply listed_now]|].
    eapply grown; [exact Hg|]. apply happened_later. eapply grown; [exact Hg3|]. apply happened_now. }
  intros _ h4 _ _. eapply passes_bind; [apply reap_does|]. intros _ h5 _ _.
  eapply passes_bind; [apply legacy_pods_does|]. done.
Qed.

(** C11. Whatever the world answers, a pass of the sweep, apart from the exit check of
    an open fix and the maintenance of pipeline runs, which are single steps here
    and not looked into ([OJudgeFix], [OMaintainRuns]), stops a session only when
    it is that of an item listed as running, or when no item listed as running or
    reserved names it and it began, or ended, an hour longer ago than the default
    time of a reservation, with a fix's verification on top if it is a fix's; it
    reports outcomes only of items listed as running; and it writes the store only
    over records it listed, keeping anchor and reservation: running ones, and
    reservations that are older than a dispatch can be. *)
Theorem pass_operations_proper tr code : runs (runSweep d) tr code →
  ∀ pre (B : Type) (op : Op B) (b : B) post, tr = pre ++ Ev op b :: post → pass_proper B op pre.
Proof.
  intros Hr pre B op b post E. destruct (wp_history _ _ _ _ _ (pass_does []) Hr) as [_ Hall]. by apply (Hall pre (Ev op b) post).
Qed.

(** ** Among concurrent dispatches *)

End pass.

(** ** Runs *)

#[local] Instance no_decoder : BatchDecoder := {| decode _ := None |}.
#[local] Instance no_troubles : JsonTroubles := {| undecodable _ := OtherFailure; loose _ := None |}.
#[local] Existing Instance binary_times.
#[local] Instance plain_texts : PromptTexts := {
  renderTriagePrompt _ _ _ _ _ _ := "triage"; renderScaffoldPrompt _ _ := "scaffold"; renderScaffoldCheckoutPrompt _ _ := "scaffold" }.

(** A clock that stands still; a session that never ended; the store has one item. *)
Definition stuck_answers (clock : Time) (item : WorkItem) (B : Type) (op : Op B) : option B :=
  match op in Op B return option B with
  | ONow => Some clock
  | OStatus s => Some (Some (Runtime.mkStatus Runtime.PhaseRunning "" 20 0 None))
  | OList st => Some (Ok (match st with StateRunning => [item] | _ => [] end))
  | OSessions => Some (Some ["gonk-triage-p84-i3-a1"; w_SessionID item])
  | OMaintainRuns => Some tt
  | op => failed_answers _ op
  end.
Definition much_later : Time := 10 * Hour.

(** What the events of a run say, as far as the theorems' hypotheses ask. *)
Definition event_ok (clock : Time) (item : WorkItem) (e : Event) : bool :=
  match e with
  | Ev op b =>
      match op in Op B return B → bool with
      | ONow => λ now, now =? clock
      | OOutput _ => λ _, false
      | OList st => λ a, match a with Ok recs => forallb (λ p, bool_decide (w_State p = st) && bool_decide (p = item)) recs | Err _ => true end
      | _ => λ _, true
      end b
  end.
Lemma events_now clock item tr now : forallb (event_ok clock item) tr = true → In (Ev ONow now) tr → now = clock.
Proof. intros Ha Hin. rewrite forallb_forall in Ha. specialize (Ha _ Hin). cbn in Ha. lia. Qed.
Lemma events_output clock item tr s o : forallb (event_ok clock item) tr = true → In (Ev (OOutput s) o) tr → False.
Proof. intros Ha Hin. rewrite forallb_forall in Ha. by specialize (Ha _ Hin). Qed.
Lemma events_list clock item tr st recs p : forallb (event_ok clock item) tr = true → In (Ev (OList st) (Ok recs)) tr → p ∈ recs →
  w_State p = st ∧ p = item.
Proof.
  intros Ha Hin Hp. rewrite forallb_forall in Ha. specialize (Ha _ Hin). cbn in Ha. rewrite forallb_forall in Ha.
  specialize (Ha p (proj1 (list_elem_of_In _ _) Hp)). apply andb_prop in Ha as [E1 E2]. by apply bool_decide_eq_true in E1, E2.
Qed.

#[local] Abbreviation stuck_run := (simulate (stuck_answers much_later sample_item) (sweepRunning sample_deps sample_item)).
Lemma late_item_gets_its_outcome_witness : ∃ tr, stuck_run = Some (tr, tt) ∧ outcome_late sample_deps sample_item tr.
Proof.
  assert (match stuck_run with Some (tr, _) => forallb (event_ok much_later sample_item) tr | None => false end = true) as Hc
    by (vm_compute; reflexivity).
  destruct stuck_run as [[tr []]|] eqn:E; [|discriminate Hc]. exists tr. split; [reflexivity|].
  apply (late_item_gets_its_outcome sample_deps sample_item tr).
  - vm_compute. discriminate.
  - exact (simulate_runs (stuck_answers much_later sample_item) _ tr tt E).
  - intros now Hnow. rewrite (events_now _ _ _ _ Hc Hnow). split; [vm_compute; reflexivity|]. assert (reslingWindowEnd sample_item = None) as -> by (vm_compute; reflexivity). discriminate.
  - vm_compute. discriminate.
  - intros _. vm_compute. reflexivity.
  - intros text Hin. destruct (events_output _ _ _ _ _ Hc Hin).
Defined.

(** The item, re-slung at 50 and stored. *)
Definition sample_fired : WorkItem := reslung sample_item 50.
Definition sample_dispatch : dispatchDeps :=
  mkDispatchDeps true true false false false false "http://llm" "" 0 (mkOrderBudget 0 0 0 0 0)
    (dispatchArgsFrom (env_of (refire_vars sample_fired))).
Fixpoint split_at (f : Event → bool) (tr : list Event) : option (list Event * Event * list Event) :=
  match tr with
  | [] => None
  | e :: tr =>
      if f e then Some ([], e, tr)
      else match split_at f tr with Some (pre, x, post) => Some (e :: pre, x, post) | None => None end
  end.
Lemma split_at_ok f tr pre x post : split_at f tr = Some (pre, x, post) → tr = pre ++ x :: post ∧ f x = true.
Proof.
  revert pre. induction tr as [|e tr IH]; intros pre; cbn; [done|]. destruct (f e) eqn:Ef; [by intros [= <- <- <-]|].
  destruct (split_at f tr) as [[[pre' x'] post']|]; [|done]. intros [= <- <- <-]. by destruct (IH pre' eq_refl) as [-> ?].
Qed.
Definition not_clock (e : Event) : bool := match e with Ev op _ => negb (is_clock op) end.

#[local] Abbreviation again_run :=
  (simulate (stuck_answers much_later sample_item) (sweepRunning sample_deps (stampWrite sample_fired 60 "v2"))).
Lemma judged_after_its_refires_witness : ∃ tr pre e post, again_run = Some (tr, tt) ∧ tr = pre ++ e :: post ∧ not_clock e = true ∧
  ((∃ now, In (Ev ONow now) pre ∧ 60 + dispatchOrderTimeout + gcKillGrace + wallClockMargin <= now) ∨
   (∀ tr' code, runs (runDispatch sample_dispatch) tr' code → (∀ now, In (Ev ONow now) tr' → 60 <= now) →
      code = 0 ∧ ∃ now, tr' = [Ev ONow now])).
Proof.
  assert (match again_run with Some (tr, _) => match split_at not_clock tr with Some _ => true | None => false end | None => false end = true) as Hc
    by (vm_compute; reflexivity).
  destruct again_run as [[tr []]|] eqn:E; [|discriminate Hc]. destruct (split_at not_clock tr) as [[[pre e] post]|] eqn:Es; [|discriminate Hc].
  apply split_at_ok in Es as [Etr He]. exists tr, pre, e, post. split; [reflexivity|]. split; [exact Etr|]. split; [exact He|].
  destruct e as [B op b]. apply (judged_after_its_refires sample_deps sample_dispatch sample_fired 60 "v2" 60 tr pre B op b post).
  - vm_compute. discriminate.
  - repeat split; vm_compute; discriminate.
  - split; vm_compute; reflexivity.
  - reflexivity.
  - exact (simulate_runs (stuck_answers much_later sample_item) _ tr tt E).
  - exact Etr.
  - apply negb_true_iff. exact He.
Defined.

#[local] Abbreviation pass_run := (simulate (stuck_answers much_later sample_item) (runSweep sample_deps)).
Lemma pass_operations_proper_witness :
  (λ x : list Event * Z, List.filter (λ s, negb (String.eqb s "")) (map step_name x.1)) <$> pass_run =
    Some ["infra-failed"; "put over v1"; "note"; "order"; "stop gonk-triage-p84-i7-a1"; "stop gonk-triage-p84-i3-a1"] ∧
  ∃ tr code, pass_run = Some (tr, code) ∧
    ∀ pre (B : Type) (op : Op B) (b : B) post, tr = pre ++ Ev op b :: post → pass_proper B op pre.
Proof.
  split; [vm_compute; reflexivity|].
  assert (match pass_run with Some _ => true | None => false end = true) as Hc by (vm_compute; reflexivity).
  destruct pass_run as [[tr code]|] eqn:E; [|discriminate Hc]. exists tr, code. split; [reflexivity|].
  exact (pass_operations_proper sample_deps tr code (simulate_runs (stuck_answers much_later sample_item) _ tr code E)).
Defined.

(** The world of [DispatchRace] with the item in its store. *)
Definition item_env : env :=
  mkEnv (mkMemory {[sample_bead := sample_item]}) {["v1" := sample_item]} much_later None {["r1"]}.
Lemma item_env_reachable : reachable sample_bead true (mkWorld item_env ∅).
Proof.
  apply (reachable_start sample_bead true much_later (Some sample_item) None {["r1"]} {[sample_bead := sample_item]}).
  - by simplify_map_eq.
  - intros r [= <-]. split; [done|]. split; [done|]. right. set_solver.
  - done.
Qed.
Definition is_put (e : Event) : bool :=
  match e with Ev (OPutIf r i) _ => String.eqb i "v1" && String.eqb (w_BeadAnchor r) sample_bead | _ => false end.
Lemma is_put_event e : is_put e = true → ∃ r b, e = Ev (OPutIf r "v1") b ∧ w_BeadAnchor r = sample_bead.
Proof.
  destruct e as [B op b]. destruct op; try done. cbn. intros [->%String.eqb_eq E%String.eqb_eq]%andb_prop. by exists r, b.
Qed.


#[local] Abbreviation refused_run := (simulate failed_answers (applyBrokerBatch sample_deps triageAgent sample_item)).
Lemma failures_have_sentences_witness : ∃ tr v rec', refused_run = Some (tr, (Refused v, rec')) ∧
  attemptFailureText OutcomeGateFailed v "" = "its output did not contain a result in the format I require" ∧
  attemptFailureText OutcomeGateFailed v "" ≠ no_sentence.
Proof.
  assert (match refused_run with
          | Some (_, (Refused v, _)) =>
              String.eqb (attemptFailureText OutcomeGateFailed v "") "its output did not contain a result in the format I require"
          | _ => false
          end = true) as Hc by (vm_compute; reflexivity).
  destruct refused_run as [[tr [[|v|] rec']]|] eqn:E; try discriminate Hc. apply String.eqb_eq in Hc.
  exists tr, v, rec'. split; [reflexivity|]. split; [exact Hc|].
  apply (proj1 (failures_have_sentences sample_deps) triageAgent sample_item tr v rec'); [reflexivity|].
  exact (simulate_runs failed_answers _ tr (Refused v, rec') E).
Defined.
